(* ===== verification/_CoqProject ===== *)
-Q . S2P
Prelude.v
ByteQueue.v
RingBuffer.v
Str.v
Crc32.v
Gpt.v
Hd.v
PageAlloc.v
Kmalloc.v
Vma.v
Sched.v
Pipe.v
Sync.v
Logbuf.v
Bitmap.v
Console.v
ConsoleSafe.v
ConsoleScreen.v
Tty.v
Pty.v
Process.v
ProcessTree.v
ProcessRun.v
ProcessTty.v
Ext2.v
Ext2Balloc.v
Ext2Faults.v
Ext2Bmap.v
Ext2Dir.v
Ext2DirRun.v
Timer.v
Clock.v
Fat.v
FatFile.v
FatName.v
FatDir.v
FatDirOps.v
FatSuper.v
Inode.v
Mount.v
Namei.v
Files.v
Socket.v
SocketChan.v
