(* ===== verification/Prelude.v ===== *)
(** * The Mario kernel: a verification library

    Mario is a small Unix-like kernel for i386 in C (paths below are under
    [src/src/]).  This library models the parts of it that carry its own logic
    as executable definitions, and proves what makes each part correct.

    ** How the models read

    Data is as the code has it: an unsigned 32-bit value is a [Z] in range with
    its wrap-around written out ([u32]), a buffer is a list of bytes, a struct
    is a record, a table is a list or a finite map by address.  An operation is
    a function on the state with the guards and the early returns of the code;
    a failed assertion, or a touch of memory that is not there, is [None]; a
    negative result is the error.  A loop that is not structural has a fuel, and
    a theorem says which fuel is enough.  Code that several processors run is
    cut at its locks and sleeps, and a run is any sequence of such steps.
    What is not C of this tree (devices, the user's memory) is an argument.

    ** Files

    - [Prelude]: integers, byte lists, shared lemmas.
    - [ByteQueue], [RingBuffer] (lib/ring_buffer.c): the class of bounded byte
      queues and its implementation.  [Crc32] (lib/crc32.c), [Gpt]
      (fs/block/gpt.c), [Hd] (fs/block/ahci.c: partitions and requests).
    - [PageAlloc] (mm/page_alloc.c): the buddy allocator.  [Kmalloc]
      (mm/kmalloc.c): small blocks, on the class [PageSource] that [PageAlloc]
      implements.  [Vma] (mm/mm.c): the areas of an address space.
    - [Sched] (kernel/sched.c): run queues of several processors.  [Sync]
      (kernel/semaphore.c, kernel/futex.c).  [Pipe] (fs/pipe.c), on [ByteQueue].
    - [Process] (kernel/exit.c, fork.c, sys.c, the sessions of
      fs/char/tty.c): tasks, signals sent, exit and wait.  [ProcessTree]: the
      family pointers as lists.  [ProcessRun], [ProcessTty]: runs from boot, with
      both lock sections of a detachment from a terminal.
    - [Logbuf] (kernel/logbuf.c), [Bitmap] (lib/bitops.c).
    - [Console] (fs/char/console.c), [ConsoleSafe], [ConsoleScreen]: the text
      screen and its escape sequences.  [Tty] (fs/char/tty.c), [Pty]
      (fs/char/pty.c): line discipline and pseudo terminals, on [ByteQueue].
    - [Ext2] (fs/ext2/buffer.c): the mounted file system as an error monad with
      a schedule of faults.  [Ext2Balloc] (balloc.c),
      [Ext2Faults]: an allocation under every schedule, [Ext2Bmap] (bmap.c),
      [Ext2Dir] (dir.c: linear directories, in bytes), [Ext2DirRun]: the same
      as lists of names.
    - [Fat] (fs/fat/fat.c, alloc.c): the table of clusters and its cache, in the
      same monad; [FatFile] (fs/fat/file.c, inode.c): the data of a file;
      [FatName] (misc.c, the names of dir.c); [FatDir], [FatDirOps] (dir.c):
      look-up and listing, changes; [FatSuper] (super.c): mounting.
    - [Inode] (fs/inode.c): the inode cache, on the class [SuperOps] of what a
      file system gives; [Mount] (fs/super_block.c): mounted file systems;
      [Namei] (fs/namei.c, the look-ups of ext2 and FAT): paths, as programs on
      the cache with a logic of references; [Files] (fs/file.c, fcntl.c, open.c):
      open files and descriptors, on [Namei].
    - [Socket] (fs/socket.c): the bytes and files that wait in a local socket, on
      [ByteQueue]; [SocketChan]: the same as a stream of marked bytes.
    - [Str] (lib/string.c): the inline assembly as programs of a small machine.
    - [Timer] (kernel/timer.c, the tick of time.c), [Clock] (kernel/time.c).

    ** What is shown

    - Refinement: the ring buffer is a queue; the buddy lists hand out disjoint
      memory; so does [kmalloc] (but for the sizes that wrap around, which it gets
      wrong), until a free completes a board behind the first of its bucket and
      drops those in front, which the theorem describes too; the ext2 block allocator is a set of free blocks, with what
      every schedule of device faults leaves of it; the family pointers are lists
      of children, in every interleaving of forks, exits and waits; the log ring
      is a list of records; an ext2 directory is a list of names and inodes; the
      ring of timers is a sorted queue; a FAT allocation takes the first free
      cluster of the table; one direction of a socket is, for 2^31 bytes, a stream of
      bytes, some of them with a file.
    - Round trips: long FAT names, mounting and unmounting.  Equivalence: the two
      line disciplines (for a byte that is accepted), the two searches of a FAT
      directory, paths and their names.
    - Invariants and safety: no assertion of the page allocator or the pseudo
      terminals fails, none of the scheduler in runs of benign events (an
      affinity change of a task that goes to sleep elsewhere, and a SIGCONT for a
      stopped task that has left its processor, are not), none of an open, a close,
      a fork or an exit; no byte of the console is written out of bounds for a
      stream without a hazardous byte, and a console that echoes hangs exactly when
      it is asked for a report; a file never maps a block twice; terminals and
      sessions correspond while no pair is reopened under a session and nobody
      retakes a terminal in the middle of its detachment; a disk request stays in
      its partition; the references to inodes and files are counted exactly, over
      open, dup, close, fcntl, fork, exec and exit on the tables of descriptors and
      over every walk of a path (a name too long for ext2 leaves one reference).
    - Functions: memory areas as sets of pages, under every answer of [kmalloc],
      file blocks, FAT files that are read, written and truncated on volumes that fill up, FAT directories that
      are searched, listed and added to, mounting, what the console
      prints, lines as an editor leaves them, which task runs next, when timers
      go off and sleeps end, dates, copies and comparisons of strings.
    - Liveness and termination: no wake-up of a pipe is lost, nor of a FIFO that one
      opener has set up (two first openers at once set it up twice); the loops of exit
      and wait end in every state the system can reach; links end after seven; the
      timers that have expired are run to the end when no interval is negative.
    - Errors: where the code does not do what it means to, a theorem says
      exactly when, and the manifest lists it as a finding.

    Fuels: the searches of [PageAlloc] and [Ext2Balloc] take the number of
    orders and groups, [Fat] and [FatDir] the clusters of the volume, [FatFile]
    those of the range, [Process] the number of tasks, [Vma] the length of the list,
    [Namei] the seven levels of links, [Timer] the timers that have expired, [Str]
    the steps that its theorems count; the theorems that give results include that these are enough.

    ** Left out of the models

    Locks and semaphores are the cuts between steps, and are not in the state where
    a part is modelled as one caller: [dir->i_sem] in [Namei], [fat_alloc_sem]
    in [Fat].  The debugging assertions on [page->state] are left out of [PageAlloc],
    the cursor's visibility and the calls of fbcon out
    of [Console].  [FatSuper] gives the conditions under which a volume is sound,
    which the code does not all check.

    ** Not modelled

    Boot and entry code, page tables and faults, interrupts and processors,
    device registers, pixels, ELF loading and signal frames, formatting of
    diagnostics and of the synthetic file systems: assembly, hardware or
    straight-line glue.  The user programs, the ported libraries and the image
    tools are not the kernel.  Of the file systems the models leave out ext2 inodes
    and hashed directories and the Mario fs, whose operations [Namei] and [Files] take as
    arguments; of sockets everything but the stream: pairs, listeners, waiting. *)
From Stdlib Require Export ZArith Lia.
From stdpp Require Export base numbers gmap option functions list.

#[global] Open Scope Z_scope.

(** ** Machine integers

    The kernel is built for i386: [unsigned long], [size_t] and pointers have
    32 bits.  A value of such a type is the [Z] in range, and every operation
    that can leave the range is wrapped explicitly. *)

Definition u8 (x : Z) : Z := x mod 2 ^ 8.
Definition u16 (x : Z) : Z := x mod 2 ^ 16.
Definition u32 (x : Z) : Z := x mod 2 ^ 32.
Definition u64 (x : Z) : Z := x mod 2 ^ 64.

(** Conversion of a 32-bit pattern to [int]. *)
Definition s32 (x : Z) : Z := (x + 2 ^ 31) mod 2 ^ 32 - 2 ^ 31.

Definition is_u8 (x : Z) : Prop := 0 <= x < 2 ^ 8.
Definition is_u32 (x : Z) : Prop := 0 <= x < 2 ^ 32.
Definition is_u64 (x : Z) : Prop := 0 <= x < 2 ^ 64.

Lemma u32_small x : 0 <= x < 2 ^ 32 -> u32 x = x.
Proof. intros. unfold u32. by rewrite Z.mod_small. Qed.

Lemma u32_range x : 0 <= u32 x < 2 ^ 32.
Proof. unfold u32. apply Z.mod_pos_bound. lia. Qed.

Lemma u64_small x : 0 <= x < 2 ^ 64 -> u64 x = x.
Proof. intros. unfold u64. by rewrite Z.mod_small. Qed.

Lemma u64_range x : 0 <= u64 x < 2 ^ 64.
Proof. unfold u64. apply Z.mod_pos_bound. lia. Qed.

Lemma u8_small x : 0 <= x < 2 ^ 8 -> u8 x = x.
Proof. intros. unfold u8. by rewrite Z.mod_small. Qed.

Lemma s32_small x : - 2 ^ 31 <= x < 2 ^ 31 -> s32 x = x.
Proof. intros. unfold s32. rewrite Z.mod_small; lia. Qed.

(** ** Error numbers ([include/errno.h]) *)

Definition ENOENT : Z := 2.
Definition EINTR : Z := 4.
Definition EIO : Z := 5.
Definition EBADF : Z := 9.
Definition EAGAIN : Z := 11.
Definition ENOMEM : Z := 12.
Definition EACCES : Z := 13.
Definition EFAULT : Z := 14.
Definition ENODEV : Z := 19.
Definition EINVAL : Z := 22.
Definition EMFILE : Z := 24.
Definition EPIPE : Z := 32.

(** ** Pages ([include/misc.h]) *)

Definition PAGE_SHIFT : Z := 12.
Definition PAGE_SIZE : Z := 4096.
Definition KERNEL_BASE : Z := 2147483648.

(** ** Failure of an assertion

    [assert] and [hang] stop the machine.  An operation that can stop it has
    an [option] result, [None] meaning that an assertion failed. *)

Declare Scope kernel_scope.
Delimit Scope kernel_scope with kernel.

Notation "'assert!' b ';;' k" := (if b then k else None)
  (at level 100, b at level 99, k at level 200, right associativity) : kernel_scope.

#[global] Open Scope kernel_scope.

(** ** Copying between buffers

    [memcpy_at dst off src n] is [memcpy (dst + off, src, n)] on byte lists:
    the first [n] bytes of [src] replace the [n] bytes of [dst] from [off]. *)

Definition memcpy_at {A} (dst : list A) (off : Z) (src : list A) (n : Z) : list A :=
  take (Z.to_nat off) dst ++ take (Z.to_nat n) src ++ drop (Z.to_nat off + Z.to_nat n)%nat dst.

Definition zlength {A} (l : list A) : Z := Z.of_nat (length l).

(** Bytes [off, off+n) of a buffer. *)
Definition sub_bytes {A} (l : list A) (off n : Z) : list A :=
  take (Z.to_nat n) (drop (Z.to_nat off) l).

Create HintDb kernel.

Section copy.
Context {A : Type}.
Implicit Types (l dst src : list A).

Lemma length_memcpy_at dst off src n :
  0 <= off -> 0 <= n -> off + n <= zlength dst -> n <= zlength src ->
  length (memcpy_at dst off src n) = length dst.
Proof.
  unfold memcpy_at, zlength. intros.
  rewrite !length_app, !length_take, length_drop. lia.
Qed.

Lemma lookup_memcpy_at dst off src n i :
  0 <= off -> 0 <= n -> off + n <= zlength dst -> n <= zlength src ->
  memcpy_at dst off src n !! i =
    if decide (off <= Z.of_nat i < off + n) then src !! (i - Z.to_nat off)%nat
    else dst !! i.
Proof.
  unfold memcpy_at, zlength. intros Ho Hn Hd Hs.
  case_decide as Hin.
  - rewrite lookup_app_r; rewrite length_take; [|lia].
    rewrite lookup_app_l; [|rewrite length_take; lia].
    rewrite lookup_take_lt; [f_equal|]; lia.
  - destruct (decide (Z.of_nat i < off)).
    + rewrite lookup_app_l; [|rewrite length_take; lia].
      apply lookup_take_lt; lia.
    + rewrite lookup_app_r; rewrite length_take; [|lia].
      rewrite lookup_app_r; rewrite length_take; [|lia].
      rewrite lookup_drop. f_equal. lia.
Qed.

Lemma zlength_nonneg l : 0 <= zlength l.
Proof. unfold zlength. lia. Qed.

Lemma zlength_app l1 l2 : zlength (l1 ++ l2) = zlength l1 + zlength l2.
Proof. unfold zlength. rewrite length_app. lia. Qed.

Lemma zlength_cons (a : A) l : zlength (a :: l) = zlength l + 1.
Proof. unfold zlength. simpl. lia. Qed.
End copy.

Lemma nodup_size {A} (m : gmap Z A) (l : list Z) : NoDup l -> (forall i, i ∈ l -> is_Some (m !! i)) ->
  (length l <= base.size m)%nat.
Proof.
  intros N H. rewrite <- (size_list_to_set (C := gset Z) l N), <- size_dom.
  apply subseteq_size. intros i Hi. apply elem_of_dom, H. by apply elem_of_list_to_set in Hi.
Qed.

Lemma filter_absent {A} `{EqDecision A} (x : A) (l : list A) : x ∉ l -> filter (fun y => y <> x) l = l.
Proof.
  induction l as [|y l IH]; [done|]. rewrite not_elem_of_cons. intros [H1 H2].
  rewrite filter_cons_True by done. by rewrite IH.
Qed.

#[export] Hint Resolve zlength_nonneg : kernel.

(** ** Reading bytes *)

Definition byte_at (l : list Z) (i : Z) : Z := default 0 (l !! Z.to_nat i).

Lemma byte_at_range l i : Forall is_u8 l -> is_u8 (byte_at l i).
Proof.
  intros H. unfold byte_at. destruct (l !! Z.to_nat i) eqn:E; simpl; [|unfold is_u8; lia].
  by eapply Forall_lookup_1 in H.
Qed.

Lemma byte_at_insert_ne l i j b : 0 <= j -> Z.of_nat i <> j -> byte_at (<[i:=b]> l) j = byte_at l j.
Proof. intros. unfold byte_at. rewrite list_lookup_insert_ne by lia. done. Qed.

(** Little-endian integers, as every on-disk structure stores them. *)
Definition le16 (l : list Z) (off : Z) : Z :=
  Z.lor (byte_at l off) (Z.shiftl (byte_at l (off + 1)) 8).

Definition le32 (l : list Z) (off : Z) : Z :=
  Z.lor (Z.lor (Z.lor (byte_at l off) (Z.shiftl (byte_at l (off + 1)) 8))
               (Z.shiftl (byte_at l (off + 2)) 16))
        (Z.shiftl (byte_at l (off + 3)) 24).

Definition le64 (l : list Z) (off : Z) : Z :=
  Z.lor (le32 l off) (Z.shiftl (le32 l (off + 4)) 32).

(** A value below [2^n] and one shifted above it do not overlap. *)
Lemma lor_shiftl_add a b n : 0 <= n -> 0 <= a < 2 ^ n -> Z.lor a (Z.shiftl b n) = a + b * 2 ^ n.
Proof.
  intros Hn Ha. rewrite <- Z.shiftl_mul_pow2 by lia. rewrite Z.add_nocarry_lxor.
  - rewrite Z.lxor_lor; [done|]. apply Z.bits_inj'. intros i Hi.
    rewrite Z.land_spec, Z.bits_0, Z.shiftl_spec by lia.
    destruct (Z.ltb_spec i n).
    + rewrite (Z.testbit_neg_r b) by lia. by rewrite andb_false_r.
    + rewrite <- (Z.mod_small a (2 ^ n)) by lia. by rewrite Z.mod_pow2_bits_high by lia.
  - apply Z.bits_inj'. intros i Hi.
    rewrite Z.land_spec, Z.bits_0, Z.shiftl_spec by lia.
    destruct (Z.ltb_spec i n).
    + rewrite (Z.testbit_neg_r b) by lia. by rewrite andb_false_r.
    + rewrite <- (Z.mod_small a (2 ^ n)) by lia. by rewrite Z.mod_pow2_bits_high by lia.
Qed.

Lemma le16_eq l off : Forall is_u8 l -> le16 l off = byte_at l off + byte_at l (off + 1) * 2 ^ 8.
Proof.
  intros H. pose proof (byte_at_range l off H). unfold is_u8 in *. unfold le16.
  by rewrite lor_shiftl_add by lia.
Qed.

Lemma le32_eq l off : Forall is_u8 l ->
  le32 l off = byte_at l off + byte_at l (off + 1) * 2 ^ 8 + byte_at l (off + 2) * 2 ^ 16
               + byte_at l (off + 3) * 2 ^ 24.
Proof.
  intros H. pose proof (byte_at_range l off H). pose proof (byte_at_range l (off + 1) H).
  pose proof (byte_at_range l (off + 2) H). unfold is_u8 in *. unfold le32.
  rewrite (lor_shiftl_add (byte_at l off)) by lia.
  rewrite (lor_shiftl_add (_ + _) (byte_at l (off + 2))) by lia.
  by rewrite lor_shiftl_add by lia.
Qed.

Lemma le32_range l off : Forall is_u8 l -> is_u32 (le32 l off).
Proof.
  intros H. rewrite le32_eq by done.
  pose proof (byte_at_range l off H). pose proof (byte_at_range l (off + 1) H).
  pose proof (byte_at_range l (off + 2) H). pose proof (byte_at_range l (off + 3) H).
  unfold is_u8, is_u32 in *. lia.
Qed.

Lemma le64_range l off : Forall is_u8 l -> is_u64 (le64 l off).
Proof.
  intros H. unfold le64. pose proof (le32_range l off H). pose proof (le32_range l (off + 4) H).
  unfold is_u32, is_u64 in *. rewrite lor_shiftl_add by lia. lia.
Qed.

(** ** Page rounding *)

(** [PAGE_MASK]; as a mask on 32-bit values. *)
Definition PAGE_MASK : Z := 0xfffff000.

Definition PAGE_ALIGN (x : Z) : Z := Z.land (u32 (x + PAGE_SIZE - 1)) PAGE_MASK.
Definition page_offset (x : Z) : Z := Z.land x (PAGE_SIZE - 1).

Definition aligned (x : Z) : Prop := x mod 4096 = 0.

Lemma land_page_mask x : 0 <= x < 2 ^ 32 -> Z.land x PAGE_MASK = x - x mod 4096.
Proof.
  intros Hx. change PAGE_MASK with (Z.shiftl (Z.ones 20) 12).
  assert (E : Z.land x (Z.shiftl (Z.ones 20) 12) = Z.shiftl (Z.land (Z.shiftr x 12) (Z.ones 20)) 12).
  { apply Z.bits_inj'. intros i Hi. rewrite Z.land_spec, !Z.shiftl_spec, Z.land_spec by lia.
    destruct (Z.ltb_spec i 12).
    - rewrite !(Z.testbit_neg_r _ (i - 12)) by lia. by rewrite andb_false_r.
    - rewrite Z.shiftr_spec by lia. by replace (i - 12 + 12) with i by lia. }
  rewrite E, Z.land_ones, Z.shiftl_mul_pow2, Z.shiftr_div_pow2 by lia.
  change (2 ^ 12) with 4096. rewrite (Z.mod_small (x / 4096)).
  - pose proof (Z.div_mod x 4096 ltac:(lia)). lia.
  - split; [apply Z.div_pos; lia|]. apply Z.div_lt_upper_bound; lia.
Qed.

Lemma page_offset_mod x : page_offset x = x mod 4096.
Proof.
  unfold page_offset, PAGE_SIZE. change (4096 - 1) with (Z.ones 12).
  by rewrite Z.land_ones by lia.
Qed.

(** Rounding up, when it does not wrap. *)
Lemma PAGE_ALIGN_spec x : 0 <= x <= 2 ^ 32 - 4096 ->
  x <= PAGE_ALIGN x < x + 4096 /\ aligned (PAGE_ALIGN x).
Proof.
  intros Hx. unfold PAGE_ALIGN, PAGE_SIZE, aligned.
  rewrite u32_small, land_page_mask by lia.
  pose proof (Z.div_mod (x + 4096 - 1) 4096 ltac:(lia)).
  pose proof (Z.mod_pos_bound (x + 4096 - 1) 4096 ltac:(lia)). split; [lia|].
  by rewrite Zminus_mod_idemp_r, Z.sub_diag.
Qed.

(** Rounding up gives a page boundary, wrapped or not. *)
Lemma PAGE_ALIGN_aligned x : aligned (PAGE_ALIGN x) /\ is_u32 (PAGE_ALIGN x).
Proof.
  unfold PAGE_ALIGN, aligned, is_u32. pose proof (u32_range (x + PAGE_SIZE - 1)).
  rewrite land_page_mask by lia. set (y := u32 _) in *. clearbody y.
  pose proof (Z.mod_pos_bound y 4096 ltac:(lia)). pose proof (Z.mod_le y 4096).
  split; [|lia]. by rewrite Zminus_mod_idemp_r, Z.sub_diag.
Qed.
