(* ===== verification/ByteQueue.v ===== *)
(** * The byte queue interface

    What the clients of [lib/ring_buffer.c] (pipes, terminals) rely on: a
    bounded first-in first-out queue of bytes.  The ring buffer implements it
    ([RingBuffer.v]); the clients are proved against the interface only. *)
From S2P Require Import Prelude.

(** The operations a client calls, and the queued bytes, oldest first. *)
Class ByteQueue (Q : Type) := {
  bq_contents : Q -> list Z;
  bq_size : Q -> Z;
  bq_valid : Q -> Prop;
  bq_write : Q -> list Z -> Z -> Q * Z;
  bq_read : Q -> Z -> Q * list Z * Z;
  bq_empty : Q -> bool;
  bq_full : Q -> bool;
}.

(** The contract. *)
Class ByteQueueLaws (Q : Type) `{ByteQueue Q} := {
  bq_bounds q : bq_valid q -> 0 < bq_size q /\ zlength (bq_contents q) <= bq_size q;
  bq_write_spec q buf count : bq_valid q -> 0 <= count <= zlength buf ->
    let '(q', n) := bq_write q buf count in
    n = Z.min count (bq_size q - zlength (bq_contents q)) /\
    bq_contents q' = bq_contents q ++ take (Z.to_nat n) buf /\
    bq_size q' = bq_size q /\ bq_valid q';
  bq_read_spec q count : bq_valid q -> 0 <= count ->
    let '(q', out, n) := bq_read q count in
    n = Z.min count (zlength (bq_contents q)) /\
    out = take (Z.to_nat n) (bq_contents q) /\
    bq_contents q' = drop (Z.to_nat n) (bq_contents q) /\
    bq_size q' = bq_size q /\ bq_valid q';
  bq_empty_spec q : bq_valid q -> bq_empty q = bool_decide (bq_contents q = []);
  bq_full_spec q : bq_valid q -> bq_full q = (zlength (bq_contents q) =? bq_size q);
}.

(** A queue on a new page, its reset, and the room in it. *)
Class QueueStore (Q : Type) := {
  bq_new : list Z -> Q;
  bq_clear : Q -> Q;
  bq_space : Q -> Z;
}.

Class QueueStoreLaws (Q : Type) `{ByteQueue Q} `{QueueStore Q} := {
  bq_new_spec page : zlength page = PAGE_SIZE ->
    bq_contents (bq_new page) = [] /\ bq_size (bq_new page) = PAGE_SIZE /\ bq_valid (bq_new page);
  bq_clear_spec q : bq_valid q ->
    bq_contents (bq_clear q) = [] /\ bq_size (bq_clear q) = bq_size q /\ bq_valid (bq_clear q);
  bq_space_spec q : bq_valid q -> bq_space q = bq_size q - zlength (bq_contents q);
}.
