(* ===== verification/RingBuffer.v ===== *)
(** * Ring buffer ([lib/ring_buffer.c], [include/lib/ring_buffer.h])

    The byte queue behind pipes, ttys and sockets.  The backing page is a list
    of bytes; [contents] is the abstract queue, and the theorems show that
    [ring_buffer_write], [ring_buffer_read] and [ring_buffer_pop] are the queue
    operations on it. *)
From S2P Require Import Prelude.
From S2P Require Import ByteQueue.

Module RingBuffer.

(** [struct ring_buffer]; [data = None] is the NULL pointer. *)
Record t := mk {
  data : option (list Z);
  size : Z;
  head : Z;
  tail : Z;
  len  : Z;
}.

(** [page] is what [page_alloc] returned: the bytes of a page, or 0. *)
Definition ring_buffer_init (rb : t) (page : option (list Z)) : t * Z :=
  match page with
  | None => (mk None (size rb) (head rb) (tail rb) (len rb), - ENOMEM)
  | Some d => (mk (Some d) PAGE_SIZE 0 0 0, 0)
  end.

Definition ring_buffer_clear (rb : t) : t := mk (data rb) (size rb) 0 0 0.

Definition ring_buffer_destroy (rb : t) : t :=
  mk None (size rb) (head rb) (tail rb) (len rb).

Definition ring_buffer_space (rb : t) : Z := u32 (size rb - len rb).
Definition ring_buffer_avail (rb : t) : Z := len rb.

(** [ring_buffer_write rb buf count]: the new buffer and the number of bytes
    taken from [buf] (through the user or the kernel segment alike). *)
Definition ring_buffer_write (rb : t) (buf : list Z) (count : Z) : t * Z :=
  match data rb with
  | None => (rb, 0)
  | Some d =>
    if count =? 0 then (rb, 0) else
    let can_write := Z.min count (ring_buffer_space rb) in
    if can_write =? 0 then (rb, 0) else
    let mask := u32 (size rb - 1) in
    let chunk1 := if u32 (head rb + can_write) <=? size rb
                  then can_write else u32 (size rb - head rb) in
    let d1 := memcpy_at d (head rb) buf chunk1 in
    let d2 := if can_write >? chunk1
              then memcpy_at d1 0 (drop (Z.to_nat chunk1) buf) (can_write - chunk1)
              else d1 in
    (mk (Some d2) (size rb) (Z.land (u32 (head rb + can_write)) mask) (tail rb)
        (u32 (len rb + can_write)), can_write)
  end.

(** [ring_buffer_read rb dst count]: the new buffer, the destination bytes and
    the number of bytes copied to it. *)
Definition ring_buffer_read (rb : t) (dst : list Z) (count : Z) : t * list Z * Z :=
  match data rb with
  | None => (rb, dst, 0)
  | Some d =>
    if count =? 0 then (rb, dst, 0) else
    let can_read := Z.min count (ring_buffer_avail rb) in
    if can_read =? 0 then (rb, dst, 0) else
    let mask := u32 (size rb - 1) in
    let chunk1 := if u32 (tail rb + can_read) <=? size rb
                  then can_read else u32 (size rb - tail rb) in
    let dst1 := memcpy_at dst 0 (drop (Z.to_nat (tail rb)) d) chunk1 in
    let dst2 := if can_read >? chunk1
                then memcpy_at dst1 chunk1 d (can_read - chunk1)
                else dst1 in
    (mk (Some d) (size rb) (head rb) (Z.land (u32 (tail rb + can_read)) mask)
        (u32 (len rb - can_read)), dst2, can_read)
  end.

Definition ring_buffer_empty (rb : t) : bool := len rb =? 0.
Definition ring_buffer_full (rb : t) : bool := len rb =? size rb.

(** Removes the byte written last; the byte is returned as [unsigned char]. *)
Definition ring_buffer_pop (rb : t) : t * Z :=
  if negb (ring_buffer_empty rb) then
    let mask := u32 (size rb - 1) in
    let head' := Z.land (u32 (head rb - 1)) mask in
    let rb' := mk (data rb) (size rb) head' (tail rb) (u32 (len rb - 1)) in
    (rb', match data rb with
          | Some d => u8 (default 0 (d !! Z.to_nat head'))
          | None => 0
          end)
  else (rb, -1).

(** ** Abstraction and invariant *)

(** The queued bytes, oldest first. *)
Definition contents (rb : t) : list Z :=
  match data rb with
  | None => []
  | Some d => take (Z.to_nat (len rb)) (drop (Z.to_nat (tail rb)) d ++ d)
  end.

(** The size is a power of two, the indices are inside the buffer and [head]
    is [len] bytes after [tail]. *)
Record wf (rb : t) (d : list Z) : Prop := {
  wf_data : data rb = Some d;
  wf_size : exists k, 0 <= k < 32 /\ size rb = 2 ^ k;
  wf_dlen : zlength d = size rb;
  wf_tail : 0 <= tail rb < size rb;
  wf_len  : 0 <= len rb <= size rb;
  wf_head : head rb = (tail rb + len rb) mod size rb;
}.

(** [wrap n i] is [i mod n] for an index less than twice the size. *)
Definition wrap (n i : Z) : Z := if i <? n then i else i - n.

(** Arithmetic on wrapped indices: one case per comparison. *)
Ltac wrap_lia :=
  unfold wrap in *;
  repeat match goal with
  | |- context [?a <? ?b] => destruct (Z.ltb_spec a b)
  | H : context [?a <? ?b] |- _ => destruct (Z.ltb_spec a b)
  end; lia.

Lemma wrap_mod n i : 0 <= i < 2 * n -> i mod n = wrap n i.
Proof.
  intros. unfold wrap. destruct (Z.ltb_spec i n).
  - apply Z.mod_small; lia.
  - symmetry. apply (Z.mod_unique _ _ 1); lia.
Qed.

Lemma size_bounds rb d : wf rb d -> 1 <= size rb <= 2 ^ 31.
Proof.
  intros H. destruct (wf_size _ _ H) as (k & ? & ->). split.
  - assert (0 < 2 ^ k) by (apply Z.pow_pos_nonneg; lia). lia.
  - apply Z.pow_le_mono_r; lia.
Qed.

Lemma land_mask rb d x : wf rb d -> Z.land x (u32 (size rb - 1)) = x mod size rb.
Proof.
  intros H. pose proof (size_bounds _ _ H).
  rewrite u32_small by lia.
  destruct (wf_size _ _ H) as (k & ? & ->).
  rewrite <- Z.land_ones, Z.ones_equiv by lia. done.
Qed.

Lemma head_wrap rb d : wf rb d -> head rb = wrap (size rb) (tail rb + len rb).
Proof.
  intros H. destruct H. rewrite wf_head0. apply wrap_mod. lia.
Qed.

Lemma length_contents rb d : wf rb d -> zlength (contents rb) = len rb.
Proof.
  intros []. unfold contents, zlength in *. rewrite wf_data0.
  rewrite length_take, length_app, length_drop. lia.
Qed.

Lemma lookup_contents rb d i : wf rb d -> 0 <= i < len rb ->
  contents rb !! Z.to_nat i = d !! Z.to_nat (wrap (size rb) (tail rb + i)).
Proof.
  intros [] Hi. unfold contents, wrap, zlength in *. rewrite wf_data0.
  rewrite lookup_take_lt by lia.
  destruct (Z.ltb_spec (tail rb + i) (size rb)).
  - rewrite lookup_app_l; [|rewrite length_drop; lia].
    rewrite lookup_drop. f_equal. lia.
  - rewrite lookup_app_r; rewrite length_drop; [|lia]. f_equal. lia.
Qed.

(** A list is the contents when it has their length and their bytes. *)
Lemma contents_eq rb d l : wf rb d -> zlength l = len rb ->
  (forall i, 0 <= i < len rb ->
     l !! Z.to_nat i = d !! Z.to_nat (wrap (size rb) (tail rb + i))) ->
  contents rb = l.
Proof.
  intros H Hl Hi. apply list_eq. intros j.
  pose proof (length_contents _ _ H) as Hc. unfold zlength in *.
  destruct (decide (Z.of_nat j < len rb)) as [Hj|Hj].
  - specialize (Hi (Z.of_nat j)). rewrite Nat2Z.id in Hi. rewrite Hi by lia.
    rewrite <- lookup_contents with (1 := H); [by rewrite Nat2Z.id|lia].
  - rewrite !lookup_ge_None_2; [done|lia|lia].
Qed.

(** The two copies of [ring_buffer_write]: [n] bytes of [buf] from index [h]. *)
Definition copy_in (d buf : list Z) (sz h n : Z) : list Z :=
  let chunk1 := if h + n <=? sz then n else sz - h in
  let d1 := memcpy_at d h buf chunk1 in
  if n >? chunk1 then memcpy_at d1 0 (drop (Z.to_nat chunk1) buf) (n - chunk1) else d1.

(** The two copies of [ring_buffer_read]: [n] bytes of [d] from index [t]. *)
Definition copy_out (d dst : list Z) (sz t n : Z) : list Z :=
  let chunk1 := if t + n <=? sz then n else sz - t in
  let dst1 := memcpy_at dst 0 (drop (Z.to_nat t) d) chunk1 in
  if n >? chunk1 then memcpy_at dst1 chunk1 d (n - chunk1) else dst1.

Lemma copy_in_spec d buf sz h n :
  zlength d = sz -> 0 <= h < sz -> 0 < n <= sz -> n <= zlength buf ->
  zlength (copy_in d buf sz h n) = sz /\
  forall j, 0 <= j < sz ->
    copy_in d buf sz h n !! Z.to_nat (wrap sz (h + j)) =
      if decide (j < n) then buf !! Z.to_nat j else d !! Z.to_nat (wrap sz (h + j)).
Proof.
  intros Hd Hh Hn Hb. unfold copy_in.
  set (c := if h + n <=? sz then n else sz - h).
  assert (Hc : 0 < c <= n /\ h + c <= sz /\ (c < n -> h + c = sz)).
  { subst c. destruct (Z.leb_spec (h + n) sz); lia. }
  assert (Hl1 : length (memcpy_at d h buf c) = length d)
    by (apply length_memcpy_at; lia).
  destruct (Z.gtb_spec n c) as [Hgt|Hle].
  - assert (Hl2 : zlength (drop (Z.to_nat c) buf) = zlength buf - c)
      by (unfold zlength in *; rewrite length_drop; lia).
    unfold zlength in *. split.
    + rewrite length_memcpy_at; unfold zlength in *; lia.
    + intros j Hj. rewrite lookup_memcpy_at by (unfold zlength in *; lia).
      rewrite lookup_memcpy_at by (unfold zlength in *; lia).
      rewrite lookup_drop. unfold wrap. destruct (Z.ltb_spec (h + j) sz);
        repeat case_decide; try lia; f_equal; lia.
  - unfold zlength in *. split; [lia|].
    intros j Hj. rewrite lookup_memcpy_at by (unfold zlength in *; lia).
    unfold wrap. destruct (Z.ltb_spec (h + j) sz);
      repeat case_decide; try lia; f_equal; lia.
Qed.

Lemma copy_out_spec d dst sz t n :
  zlength d = sz -> 0 <= t < sz -> 0 < n <= sz -> n <= zlength dst ->
  zlength (copy_out d dst sz t n) = zlength dst /\
  forall j, 0 <= j < zlength dst ->
    copy_out d dst sz t n !! Z.to_nat j =
      if decide (j < n) then d !! Z.to_nat (wrap sz (t + j)) else dst !! Z.to_nat j.
Proof.
  intros Hd Ht Hn Hb. unfold copy_out.
  set (c := if t + n <=? sz then n else sz - t).
  assert (Hc : 0 < c <= n /\ t + c <= sz /\ (c < n -> t + c = sz)).
  { subst c. destruct (Z.leb_spec (t + n) sz); lia. }
  assert (Hl0 : zlength (drop (Z.to_nat t) d) = sz - t)
    by (unfold zlength in *; rewrite length_drop; lia).
  assert (Hl1 : length (memcpy_at dst 0 (drop (Z.to_nat t) d) c) = length dst)
    by (apply length_memcpy_at; lia).
  destruct (Z.gtb_spec n c) as [Hgt|Hle]; unfold zlength in *; split.
  - rewrite length_memcpy_at; unfold zlength in *; lia.
  - intros j Hj. rewrite lookup_memcpy_at by (unfold zlength in *; lia).
    rewrite lookup_memcpy_at by (unfold zlength in *; lia).
    rewrite lookup_drop. unfold wrap. destruct (Z.ltb_spec (t + j) sz);
      repeat case_decide; try lia; f_equal; lia.
  - lia.
  - intros j Hj. rewrite lookup_memcpy_at by (unfold zlength in *; lia).
    rewrite lookup_drop. unfold wrap. destruct (Z.ltb_spec (t + j) sz);
      repeat case_decide; try lia; f_equal; lia.
Qed.

(** Moving the head by [n] bytes. *)
Lemma wf_advance_head rb d d' n : wf rb d -> zlength d' = size rb ->
  0 <= n <= size rb - len rb ->
  wf (mk (Some d') (size rb) (Z.land (u32 (head rb + n)) (u32 (size rb - 1)))
         (tail rb) (u32 (len rb + n))) d'.
Proof.
  intros H Hd Hn. pose proof (size_bounds _ _ H). pose proof (land_mask _ _ (u32 (head rb + n)) H) as Hm.
  destruct H. split; simpl; try done; rewrite (u32_small (len rb + n)) by lia; [lia|].
  rewrite Hm, wf_head0. pose proof (Z.mod_pos_bound (tail rb + len rb) (size rb)).
  rewrite u32_small by lia. rewrite Zplus_mod_idemp_l. f_equal. lia.
Qed.

Lemma wf_advance_tail rb d n : wf rb d -> 0 <= n <= len rb ->
  wf (mk (Some d) (size rb) (head rb) (Z.land (u32 (tail rb + n)) (u32 (size rb - 1)))
         (u32 (len rb - n))) d.
Proof.
  intros H Hn. pose proof (size_bounds _ _ H). pose proof (land_mask _ _ (u32 (tail rb + n)) H) as Hm.
  destruct H. split; simpl; try done; rewrite ?Hm, ?(u32_small (len rb - n)), ?(u32_small (tail rb + n)) by lia.
  - apply Z.mod_pos_bound; lia.
  - lia.
  - rewrite Zplus_mod_idemp_l, wf_head0. f_equal. lia.
Qed.

Lemma write_unfold rb d buf count : wf rb d -> 0 <= count ->
  let n := Z.min count (size rb - len rb) in
  ring_buffer_write rb buf count =
    if n =? 0 then (rb, 0) else
    (mk (Some (copy_in d buf (size rb) (head rb) n)) (size rb)
        (Z.land (u32 (head rb + n)) (u32 (size rb - 1))) (tail rb) (u32 (len rb + n)), n).
Proof.
  intros H Hc n. pose proof (size_bounds _ _ H). pose proof (head_wrap _ _ H) as Hh.
  destruct H. unfold ring_buffer_write, ring_buffer_space, copy_in. rewrite wf_data0.
  rewrite (u32_small (size rb - len rb)) by lia. fold n.
  unfold wrap in Hh.
  assert (0 <= head rb < size rb) by (destruct (Z.ltb_spec (tail rb + len rb) (size rb)); lia).
  destruct (Z.eqb_spec count 0).
  { subst count. replace n with 0 by lia. done. }
  rewrite (u32_small (size rb - head rb)) by lia.
  destruct (Z.eqb_spec n 0); [done|]. rewrite (u32_small (head rb + n)) by lia.
  done.
Qed.

Lemma read_unfold rb d dst count : wf rb d -> 0 <= count ->
  let n := Z.min count (len rb) in
  ring_buffer_read rb dst count =
    if n =? 0 then (rb, dst, 0) else
    (mk (Some d) (size rb) (head rb) (Z.land (u32 (tail rb + n)) (u32 (size rb - 1)))
        (u32 (len rb - n)), copy_out d dst (size rb) (tail rb) n, n).
Proof.
  intros H Hc n. pose proof (size_bounds _ _ H).
  destruct H. unfold ring_buffer_read, ring_buffer_avail, copy_out. rewrite wf_data0. fold n.
  destruct (Z.eqb_spec count 0).
  { subst count. replace n with 0 by lia. done. }
  rewrite (u32_small (size rb - tail rb)) by lia.
  destruct (Z.eqb_spec n 0); [done|]. rewrite (u32_small (tail rb + n)) by lia.
  done.
Qed.

Lemma lookup_take_zlength (l : list Z) n i :
  0 <= i < n -> take (Z.to_nat n) l !! Z.to_nat i = l !! Z.to_nat i.
Proof. intros. apply lookup_take_lt. lia. Qed.

(** [ring_buffer_write] appends to the queue: it takes as many bytes as
    are asked for and fit, no more, stores exactly these behind the bytes
    already queued (wrapping around the end of the page), and keeps the buffer
    well formed. *)
Lemma ring_buffer_write_appends rb d buf count :
  wf rb d -> 0 <= count <= zlength buf ->
  let '(rb', n) := ring_buffer_write rb buf count in
  n = Z.min count (size rb - len rb) /\
  contents rb' = contents rb ++ take (Z.to_nat n) buf /\
  size rb' = size rb /\ exists d', wf rb' d'.
Proof.
  intros H Hc. rewrite write_unfold with (1 := H) by lia.
  destruct (Z.eqb_spec (Z.min count (size rb - len rb)) 0) as [E|E].
  { split; [done|]. rewrite app_nil_r. eauto. }
  set (n := Z.min count (size rb - len rb)) in *.
  assert (Hn : 0 < n <= count /\ n <= size rb - len rb) by (destruct H; lia). clearbody n.
  pose proof (size_bounds _ _ H) as Hs. pose proof (head_wrap _ _ H) as Hh. unfold wrap in Hh.
  destruct (copy_in_spec d buf (size rb) (head rb) n) as [Hl Hlk];
    [apply H|destruct H; wrap_lia|destruct H; lia|lia|].
  assert (H' := wf_advance_head _ _ _ n H Hl ltac:(destruct H; lia)).
  split; [done|]. split; [|by eauto].
  apply (contents_eq _ _ _ H'); simpl.
  - pose proof (length_contents _ _ H). rewrite u32_small by (destruct H; lia).
    unfold zlength in *. rewrite length_app, length_take. lia.
  - rewrite u32_small by (destruct H; lia). intros i Hi.
    pose proof (length_contents _ _ H) as Hlen. unfold zlength in Hlen.
    destruct (decide (i < len rb)) as [Hlt|Hge].
    + rewrite lookup_app_l by lia. rewrite lookup_contents with (1 := H) by lia.
      destruct H. specialize (Hlk (i - len rb + size rb) ltac:(lia)).
      rewrite decide_False in Hlk by lia.
      replace (wrap (size rb) (head rb + (i - len rb + size rb)))
        with (wrap (size rb) (tail rb + i)) in Hlk; [done|].
      wrap_lia.
    + rewrite lookup_app_r by lia. replace (Z.to_nat i - length (contents rb))%nat
        with (Z.to_nat (i - len rb)) by lia.
      rewrite lookup_take_zlength by lia.
      destruct H. specialize (Hlk (i - len rb) ltac:(lia)).
      rewrite decide_True in Hlk by lia. rewrite <- Hlk. do 2 f_equal.
      wrap_lia.
Qed.

(** [ring_buffer_read] removes from the front of the queue: the oldest
    bytes, as many as are asked for and queued, arrive in order at the start of
    the destination, whose other bytes are untouched, and the rest of the queue
    is left. *)
Lemma ring_buffer_read_removes rb d dst count :
  wf rb d -> 0 <= count <= zlength dst ->
  let '(rb', dst', n) := ring_buffer_read rb dst count in
  n = Z.min count (len rb) /\
  dst' = take (Z.to_nat n) (contents rb) ++ drop (Z.to_nat n) dst /\
  contents rb' = drop (Z.to_nat n) (contents rb) /\ wf rb' d.
Proof.
  intros H Hc. rewrite read_unfold with (1 := H) by lia.
  destruct (Z.eqb_spec (Z.min count (len rb)) 0) as [E|E]; [by simpl|].
  set (n := Z.min count (len rb)) in *.
  assert (Hn : 0 < n <= count /\ n <= len rb) by (destruct H; lia). clearbody n.
  pose proof (size_bounds _ _ H) as Hs. pose proof (length_contents _ _ H) as Hlen.
  destruct (copy_out_spec d dst (size rb) (tail rb) n) as [Hl Hlk];
    [apply H|apply H|destruct H; lia|lia|].
  assert (H' := wf_advance_tail _ _ n H ltac:(lia)).
  split; [done|]. split; [|split; [|done]].
  - apply list_eq. intros j. unfold zlength in *.
    destruct (decide (Z.of_nat j < Z.of_nat (length dst))) as [Hj|Hj].
    + specialize (Hlk (Z.of_nat j) ltac:(lia)). rewrite Nat2Z.id in Hlk. rewrite Hlk.
      case_decide.
      * rewrite lookup_app_l by (rewrite length_take; lia).
        rewrite lookup_take_lt by lia. rewrite <- lookup_contents with (1 := H) by lia.
        by rewrite Nat2Z.id.
      * rewrite lookup_app_r; rewrite length_take; [|lia].
        rewrite lookup_drop. f_equal. lia.
    + rewrite !lookup_ge_None_2; [done| |lia].
      rewrite length_app, length_take, length_drop. lia.
  - apply (contents_eq _ _ _ H'); simpl; rewrite u32_small by (destruct H; lia).
    + unfold zlength in *. rewrite length_drop. lia.
    + intros i Hi. rewrite lookup_drop.
      replace (Z.to_nat n + Z.to_nat i)%nat with (Z.to_nat (n + i)) by lia.
      rewrite lookup_contents with (1 := H) by lia. do 2 f_equal.
      rewrite (land_mask _ _ _ H). destruct H. rewrite u32_small by lia.
      rewrite wrap_mod by lia. wrap_lia.
Qed.

(** [ring_buffer_pop] takes back the byte written last. *)
Lemma ring_buffer_pop_last rb d l c :
  wf rb d -> contents rb = l ++ [c] ->
  let '(rb', r) := ring_buffer_pop rb in
  r = u8 c /\ contents rb' = l /\ size rb' = size rb /\ wf rb' d.
Proof.
  intros H Hl. pose proof (length_contents _ _ H) as Hlen.
  pose proof (size_bounds _ _ H) as Hs. pose proof (head_wrap _ _ H) as Hh.
  rewrite Hl in Hlen. unfold zlength in Hlen. rewrite length_app in Hlen. simpl in Hlen.
  unfold ring_buffer_pop, ring_buffer_empty.
  destruct (Z.eqb_spec (len rb) 0); [lia|]. simpl. rewrite (land_mask _ _ _ H).
  assert (Hhd : u32 (head rb - 1) mod size rb = wrap (size rb) (tail rb + (len rb - 1))).
  { unfold u32. destruct (wf_size _ _ H) as (k & Hk & Hsz).
    rewrite Z.mod_mod_divide
      by (rewrite Hsz; exists (2 ^ (32 - k)); rewrite <- Z.pow_add_r by lia; f_equal; lia).
    destruct H. rewrite wf_head0, Zminus_mod_idemp_l, <- wrap_mod by lia. f_equal. lia. }
  rewrite Hhd. clear Hhd. rewrite (wf_data _ _ H). rewrite <- lookup_contents with (1 := H) by lia.
  rewrite Hl, lookup_app_r by lia.
  replace (Z.to_nat (len rb - 1) - length l)%nat with 0%nat by lia.
  split; [done|].
  assert (H' : wf (mk (Some d) (size rb) (wrap (size rb) (tail rb + (len rb - 1))) (tail rb)
                      (u32 (len rb - 1))) d).
  { destruct H. split; simpl; rewrite ?u32_small by lia; eauto; [lia|].
    rewrite wrap_mod by lia. done. }
  split; [|done]. apply (contents_eq _ _ _ H'); simpl; rewrite u32_small by (destruct H; lia).
  - unfold zlength. lia.
  - intros i Hi. rewrite <- lookup_contents with (1 := H) by lia.
    rewrite Hl, lookup_app_l by lia. done.
Qed.

Lemma ring_buffer_pop_empty rb d :
  wf rb d -> contents rb = [] -> ring_buffer_pop rb = (rb, -1).
Proof.
  intros H Hl. pose proof (length_contents _ _ H) as Hlen. rewrite Hl in Hlen.
  unfold ring_buffer_pop, ring_buffer_empty. by rewrite <- Hlen.
Qed.

Lemma wf_clear rb d : wf rb d -> wf (ring_buffer_clear rb) d /\ contents (ring_buffer_clear rb) = [].
Proof.
  intros H. pose proof (size_bounds _ _ H). destruct H. split.
  - split; simpl; try done; lia.
  - unfold contents, ring_buffer_clear. simpl. by destruct (data rb).
Qed.

Lemma wf_init rb page : zlength page = PAGE_SIZE ->
  wf (ring_buffer_init rb (Some page)).1 page.
Proof. intros H. split; simpl; try done. exists 12. done. Qed.

(** ** The interface of the clients *)

#[global] Instance ring_buffer_queue : ByteQueue t := {|
  bq_contents := contents;
  bq_size := size;
  bq_valid rb := exists d, wf rb d;
  bq_write := ring_buffer_write;
  bq_read rb count :=
    let '(rb', dst, n) := ring_buffer_read rb (replicate (Z.to_nat count) 0) count in
    (rb', take (Z.to_nat n) dst, n);
  bq_empty := ring_buffer_empty;
  bq_full := ring_buffer_full;
|}.

Lemma ring_buffer_read_size rb dst count : size (ring_buffer_read rb dst count).1.1 = size rb.
Proof. unfold ring_buffer_read. repeat case_match; done. Qed.

#[global] Instance ring_buffer_laws : ByteQueueLaws t.
Proof.
  split; simpl.
  - intros rb [d H]. rewrite (length_contents _ _ H). pose proof (size_bounds _ _ H). destruct H. lia.
  - intros rb buf count [d H] Hc. pose proof (ring_buffer_write_appends rb d buf count H Hc) as Hw.
    rewrite (length_contents _ _ H). by destruct (ring_buffer_write rb buf count).
  - intros rb count [d H] Hc. set (dst := replicate (Z.to_nat count) 0).
    assert (Hd : zlength dst = count) by (unfold zlength, dst; rewrite length_replicate; lia).
    pose proof (ring_buffer_read_removes rb d dst count H ltac:(lia)) as Hr.
    pose proof (ring_buffer_read_size rb dst count) as Hsz. rewrite (length_contents _ _ H).
    pose proof (length_contents _ _ H) as Hlen.
    destruct (ring_buffer_read _ _ _) as [[rb' dst'] n]. destruct Hr as (Hn & -> & -> & Hw).
    split; [done|]. split; [|eauto].
    rewrite take_app_le by (rewrite length_take; unfold zlength in *; lia).
    by rewrite take_take, Nat.min_id.
  - intros rb [d H]. unfold ring_buffer_empty. pose proof (length_contents _ _ H) as Hl.
    destruct (contents rb) eqn:E; unfold zlength in Hl; simpl in Hl.
    + by rewrite bool_decide_eq_true_2, <- Hl by done.
    + rewrite bool_decide_eq_false_2 by done. apply Z.eqb_neq. lia.
  - intros rb [d H]. unfold ring_buffer_full. by rewrite (length_contents _ _ H).
Qed.

#[global] Instance ring_buffer_store : QueueStore t := {|
  bq_new page := (ring_buffer_init (mk None 0 0 0 0) (Some page)).1;
  bq_clear := ring_buffer_clear;
  bq_space := ring_buffer_space;
|}.

#[global] Instance ring_buffer_store_laws : QueueStoreLaws t.
Proof.
  split; cbn [bq_contents bq_size bq_valid bq_new bq_clear bq_space ring_buffer_queue ring_buffer_store].
  - intros page Hp. split; [done|]. split; [done|]. exists page. by apply wf_init.
  - intros rb [d H]. destruct (wf_clear _ _ H) as [W ->]. split; [done|]. split; [done|by exists d].
  - intros rb [d H]. rewrite (length_contents _ _ H). pose proof (size_bounds _ _ H). destruct H. unfold ring_buffer_space. rewrite u32_small by lia. done.
Qed.

(** ** Refinement: a bounded byte queue *)

Inductive op :=
| Write (buf : list Z)
| Read (count : Z)
| Pop
| Clear
| Space.

Definition op_ok (o : op) : Prop :=
  match o with Read count => 0 <= count | _ => True end.

(** The specification: a list of at most [cap] bytes, and what the caller
    observes (the bytes delivered and the returned number). *)
Definition queue_step (cap : Z) (q : list Z) (o : op) : list Z * (list Z * Z) :=
  match o with
  | Write buf => let n := Z.min (zlength buf) (cap - zlength q) in
                 (q ++ take (Z.to_nat n) buf, ([], n))
  | Read count => let n := Z.min count (zlength q) in
                  (drop (Z.to_nat n) q, (take (Z.to_nat n) q, n))
  | Pop => match reverse q with
           | [] => (q, ([], -1))
           | c :: r => (reverse r, ([], u8 c))
           end
  | Clear => ([], ([], 0))
  | Space => (q, ([], cap - zlength q))
  end.

(** The same calls on the ring buffer. *)
Definition rb_step (rb : t) (o : op) : t * (list Z * Z) :=
  match o with
  | Write buf => let '(rb', n) := ring_buffer_write rb buf (zlength buf) in (rb', ([], n))
  | Read count =>
      let '(rb', dst, n) := ring_buffer_read rb (replicate (Z.to_nat count) 0) count in
      (rb', (take (Z.to_nat n) dst, n))
  | Pop => let '(rb', r) := ring_buffer_pop rb in (rb', ([], r))
  | Clear => (ring_buffer_clear rb, ([], 0))
  | Space => (rb, ([], ring_buffer_space rb))
  end.

Fixpoint run {S O R} (step : S -> O -> S * R) (s : S) (os : list O) : S * list R :=
  match os with
  | [] => (s, [])
  | o :: os' => let '(s1, r) := step s o in
                let '(s2, rs) := run step s1 os' in (s2, r :: rs)
  end.

Lemma rb_step_refines rb d o : wf rb d -> op_ok o ->
  let '(rb', r) := rb_step rb o in
  queue_step (size rb) (contents rb) o = (contents rb', r) /\
  size rb' = size rb /\ exists d', wf rb' d'.
Proof.
  intros H Ho. pose proof (length_contents _ _ H) as Hlen.
  destruct o as [buf|count| | |]; unfold rb_step, queue_step; rewrite ?Hlen.
  - pose proof (ring_buffer_write_appends rb d buf (zlength buf) H ltac:(unfold zlength; lia)).
    destruct (ring_buffer_write _ _ _) as [rb' n]. destruct H0 as (-> & -> & ? & ?). done.
  - simpl in Ho. set (dst := replicate (Z.to_nat count) 0).
    assert (Hd : zlength dst = count) by (unfold zlength, dst; rewrite length_replicate; lia).
    pose proof (ring_buffer_read_removes rb d dst count H ltac:(lia)) as Hr.
    assert (Hsz : size (ring_buffer_read rb dst count).1.1 = size rb).
    { unfold ring_buffer_read. repeat case_match; done. }
    destruct (ring_buffer_read _ _ _) as [[rb' dst'] n].
    destruct Hr as (Hn & -> & -> & Hw). split; [|eauto]. rewrite <- Hn.
    rewrite take_app_le by (rewrite length_take; unfold zlength in *; lia).
    by rewrite take_take, Nat.min_id.
  - destruct (reverse (contents rb)) as [|c r] eqn:E.
    + apply (f_equal reverse) in E. rewrite reverse_involutive in E.
      rewrite (ring_buffer_pop_empty _ _ H E). rewrite E. eauto.
    + apply (f_equal reverse) in E. rewrite reverse_involutive, reverse_cons in E.
      pose proof (ring_buffer_pop_last _ _ _ _ H E) as Hp.
      destruct (ring_buffer_pop rb). destruct Hp as (-> & -> & ? & ?). eauto.
  - destruct (wf_clear _ _ H) as [? ->]. eauto.
  - unfold ring_buffer_space. rewrite u32_small by (pose proof (size_bounds _ _ H); destruct H; lia).
    eauto.
Qed.

(** C28: the ring buffer refines a bounded FIFO byte queue: whatever sequence of
    writes, reads, pops, clears and space queries is performed on a well-formed
    buffer, the bytes delivered and the numbers returned are those of the
    abstract queue of capacity [size], and the final contents agree. *)
Theorem ring_buffer_refines_queue rb d ops :
  wf rb d -> Forall op_ok ops ->
  (run rb_step rb ops).2 = (run (queue_step (size rb)) (contents rb) ops).2 /\
  contents (run rb_step rb ops).1 = (run (queue_step (size rb)) (contents rb) ops).1.
Proof.
  intros H Hops. revert rb d H.
  induction Hops as [|o ops Ho Hops IH]; intros rb d H; [done|].
  simpl. pose proof (rb_step_refines rb d o H Ho) as Hstep.
  destruct (rb_step rb o) as [rb' r]. destruct Hstep as (-> & Hsz & d' & H').
  destruct (IH rb' d' H') as [IH1 IH2]. rewrite Hsz in IH1, IH2.
  destruct (run rb_step rb' ops), (run (queue_step (size rb)) (contents rb') ops).
  simpl in *. by subst.
Qed.

Definition example_page : list Z := replicate 8 0.
Definition example_rb : t := mk (Some example_page) 8 6 3 3.

Lemma ring_buffer_refines_queue_witness :
  (run rb_step example_rb [Write [1;2;3;4;5;6]; Read 4; Pop; Read 9]).2
    = (run (queue_step 8) [0;0;0] [Write [1;2;3;4;5;6]; Read 4; Pop; Read 9]).2.
Proof.
  refine (proj1 (ring_buffer_refines_queue example_rb example_page _ _ _)).
  - split; try done. exists 3. done.
  - repeat constructor; simpl; lia.
Defined.

End RingBuffer.
