(* ===== verification/Str.v ===== *)
(** * The memory and string functions ([lib/string.c])

    They are i386 string instructions, so the model is the machine: registers,
    three flags, a memory of bytes and the instructions the functions use, one
    iteration of a repeated instruction per step.  Each function is its program;
    a run starts with the operands in the registers the constraints name. *)
From S2P Require Import Prelude.

Module Str.

(** ** The machine *)

Inductive reg := EAX | EBX | ECX | ESI | EDI.

Record cpu := mkcpu {
  eax : Z; ebx : Z; ecx : Z; esi : Z; edi : Z;
  zf : bool; cf : bool; df : bool;
  pc : nat;
  mem : Z -> Z;
}.

Definition rd (r : reg) (c : cpu) : Z :=
  match r with EAX => eax c | EBX => ebx c | ECX => ecx c | ESI => esi c | EDI => edi c end.

Definition wr (r : reg) (v : Z) (c : cpu) : cpu :=
  let '(mkcpu a b x s d z k f p m) := c in
  match r with
  | EAX => mkcpu v b x s d z k f p m
  | EBX => mkcpu a v x s d z k f p m
  | ECX => mkcpu a b v s d z k f p m
  | ESI => mkcpu a b x v d z k f p m
  | EDI => mkcpu a b x s v z k f p m
  end.
Definition set_flags (z k : bool) (c : cpu) : cpu :=
  let '(mkcpu a b x s d _ _ f p m) := c in mkcpu a b x s d z k f p m.
Definition set_df (f : bool) (c : cpu) : cpu :=
  let '(mkcpu a b x s d z k _ p m) := c in mkcpu a b x s d z k f p m.
Definition goto (p : nat) (c : cpu) : cpu :=
  let '(mkcpu a b x s d z k f _ m) := c in mkcpu a b x s d z k f p m.
Definition next (c : cpu) : cpu := goto (S (pc c)) c.

Definition al (c : cpu) : Z := u8 (eax c).
Definition set_al (v : Z) (c : cpu) : cpu := wr EAX (eax c - al c + u8 v) c.

Definition store (a v : Z) (m : Z -> Z) : Z -> Z := fun x => if x =? u32 a then u8 v else m x.
Definition load (a : Z) (c : cpu) : Z := mem c (u32 a).
Definition set_mem (m : Z -> Z) (c : cpu) : cpu :=
  let '(mkcpu a b x s d z k f p _) := c in mkcpu a b x s d z k f p m.

(** The little-endian bytes of a value of [n] bytes. *)
Fixpoint stores (n : nat) (a v : Z) (m : Z -> Z) : Z -> Z :=
  match n with O => m | S n => stores n (a + 1) (v / 256) (store a v m) end.

(** Moving an index register by the direction flag. *)
Definition adv (r : reg) (w : Z) (c : cpu) : cpu := wr r (u32 (rd r c + (if df c then - w else w))) c.
(** The flags of [a - b] on [w] bits. *)
Definition cmp (w a b : Z) (c : cpu) : cpu := set_flags ((a - b) mod 2 ^ w =? 0) (a mod 2 ^ w <? b mod 2 ^ w) c.

(** [Stos] takes the width in bytes. *)
Inductive sop := Movsb | Stos (w : nat) | Scasb | Cmpsb | Lodsb.
Definition sexec (o : sop) (c : cpu) : cpu :=
  match o with
  | Movsb => adv EDI 1 (adv ESI 1 (set_mem (store (edi c) (load (esi c) c) (mem c)) c))
  | Stos w => adv EDI (Z.of_nat w) (set_mem (stores w (edi c) (eax c) (mem c)) c)
  | Scasb => adv EDI 1 (cmp 8 (al c) (load (edi c) c) c)
  | Cmpsb => adv EDI 1 (adv ESI 1 (cmp 8 (load (esi c) c) (load (edi c) c) c))
  | Lodsb => adv ESI 1 (set_al (load (esi c) c) c)
  end.

(** [RepWhile z o] is [repe] for [z = true] and [repne] for [false]. *)
Inductive instr :=
  | I (o : sop) | Rep (o : sop) | RepWhile (z : bool) (o : sop)
  | XorSelf (r : reg) | XorAl | TestAl
  | CmpbZero (r : reg) | CmpReg (a b : reg)
  | MovbLoad (r : reg) (disp : Z) | SubbLoad (r : reg) (disp : Z) | MovbZero (r : reg)
  | Mov (d s : reg) | Add (d s : reg) | Inc (r : reg) | Dec (r : reg) | Not (r : reg)
  | Cbtw | Cwtl | Cld | Std
  | Je (p : nat) | Jne (p : nat) | Ja (p : nat) | Jmp (p : nat) | Loop (p : nat) | Loope (p : nat).

Definition zflag (v : Z) (c : cpu) : cpu := set_flags (v =? 0) (cf c) c.
Definition branch (b : bool) (p : nat) (c : cpu) : cpu := if b then goto p c else next c.
Definition dec_ecx (c : cpu) : cpu := wr ECX (u32 (ecx c - 1)) c.
Definition sext8 (v : Z) : Z := if 128 <=? u8 v then u8 v - 256 else u8 v.
Definition sext16 (v : Z) : Z := if 32768 <=? u16 v then u16 v - 65536 else u16 v.

Definition exec (i : instr) (c : cpu) : cpu :=
  match i with
  | I o => next (sexec o c)
  | Rep o => if ecx c =? 0 then next c else dec_ecx (sexec o c)
  | RepWhile z o =>
    if ecx c =? 0 then next c else
    let c := dec_ecx (sexec o c) in if Bool.eqb (zf c) z then c else next c
  | XorSelf r => next (set_flags true false (wr r 0 c))
  | XorAl => next (set_flags true false (set_al 0 c))
  | TestAl => next (set_flags (al c =? 0) false c)
  | CmpbZero r => next (cmp 8 (load (rd r c) c) 0 c)
  | CmpReg a b => next (cmp 32 (rd a c) (rd b c) c)
  | MovbLoad r disp => next (set_al (load (rd r c + disp) c) c)
  | SubbLoad r disp => next (set_al (al c - load (rd r c + disp) c) (cmp 8 (al c) (load (rd r c + disp) c) c))
  | MovbZero r => next (set_mem (store (rd r c) 0 (mem c)) c)
  | Mov d s => next (wr d (rd s c) c)
  | Add d s => let v := u32 (rd d c + rd s c) in next (set_flags (v =? 0) (2 ^ 32 <=? rd d c + rd s c) (wr d v c))
  | Inc r => let v := u32 (rd r c + 1) in next (zflag v (wr r v c))
  | Dec r => let v := u32 (rd r c - 1) in next (zflag v (wr r v c))
  | Not r => next (wr r (2 ^ 32 - 1 - rd r c) c)
  | Cbtw => next (wr EAX (eax c - u16 (eax c) + u16 (sext8 (eax c))) c)
  | Cwtl => next (wr EAX (u32 (sext16 (eax c))) c)
  | Cld => next (set_df false c)
  | Std => next (set_df true c)
  | Je p => branch (zf c) p c
  | Jne p => branch (negb (zf c)) p c
  | Ja p => branch (negb (zf c) && negb (cf c)) p c
  | Jmp p => goto p c
  | Loop p => let c := dec_ecx c in branch (negb (ecx c =? 0)) p c
  | Loope p => let c := dec_ecx c in branch (negb (ecx c =? 0) && zf c) p c
  end.

(** A run ends when it leaves the program. *)
Fixpoint run (fuel : nat) (p : list instr) (c : cpu) : option cpu :=
  match fuel with
  | O => None
  | S n => match p !! pc c with None => Some c | Some i => run n p (exec i c) end
  end.

(** ** The functions *)

Definition memcmp : list instr := [RepWhile true Cmpsb; XorSelf EAX; MovbLoad EDI (-1); SubbLoad ESI (-1)].
Definition memchr : list instr := [RepWhile false Scasb; Je 4; XorSelf EDI; Jmp 5; Dec EDI].
Definition memcpy : list instr := [Rep Movsb].
Definition memmove : list instr := [CmpReg ESI EDI; Ja 8; Add EDI ECX; Dec EDI; Add ESI ECX; Dec ESI; Std; Jmp 9; Cld; Rep Movsb; Cld].
Definition memset : list instr := [Rep (Stos 1)].
Definition memsetw : list instr := [Rep (Stos 2)].
Definition memsetl : list instr := [Rep (Stos 4)].
Definition strcmp : list instr :=
  [XorSelf EAX; CmpbZero EDI; Je 7; I Cmpsb; Je 1; Dec EDI; Dec ESI; MovbLoad EDI 0; SubbLoad ESI 0; Cbtw; Cwtl].
Definition strncmp : list instr :=
  [XorSelf EAX; CmpbZero EDI; Je 7; I Cmpsb; Loope 1; Dec EDI; Dec ESI; MovbLoad EDI 0; SubbLoad ESI 0; Cbtw; Cwtl].
Definition strchr : list instr := [CmpbZero EDI; Je 6; I Scasb; Jne 0; Dec EDI; Jmp 7; XorSelf EDI].
Definition strrchr : list instr := [XorSelf ESI; CmpbZero EDI; Je 8; I Scasb; Jne 1; Mov ESI EDI; Dec ESI; Jmp 1].
Definition strstr : list instr :=
  [Mov EBX EDI; Mov ECX ESI; Mov EDI EBX; CmpbZero EDI; Je 13; Mov ESI ECX; I Lodsb; TestAl; Je 14; I Scasb; Je 6; Inc EBX; Jmp 2; XorSelf EBX].
Definition strcpy : list instr := [I Lodsb; TestAl; Je 5; I (Stos 1); Jmp 0].
Definition strncpy : list instr := [I Lodsb; TestAl; Je 5; I (Stos 1); Loop 0].
Definition strcat : list instr := [XorAl; I Scasb; Jne 1; Dec EDI; I Lodsb; TestAl; Je 9; I (Stos 1); Jmp 4; MovbZero EDI].
Definition strncat : list instr := [XorAl; I Scasb; Jne 1; Dec EDI; I Lodsb; TestAl; Je 9; I (Stos 1); Loop 4; MovbZero EDI].
Definition strlen : list instr := [RepWhile false Scasb; Not ECX; Dec ECX].

(** Never implemented. *)
Definition strpbrk (string1 string2 : Z) : Z := 0.
Definition strtok (string1 string2 : Z) : Z := 0.
Definition strspn (string1 string2 : Z) : Z := 0.
Definition strcspn (string1 string2 : Z) : Z := 0.

(** The state a function starts in: the direction flag is clear by the calling
    convention, the rest is what was there. *)
Definition start (a b x s d : Z) (z k : bool) (m : Z -> Z) : cpu := mkcpu a b x s d z k false 0 m.

(** ** Runs *)

Definition evals (p : list instr) (c c' : cpu) : Prop := exists n, run n p c = Some c'.

Lemma evals_step p c c' i : p !! pc c = Some i -> evals p (exec i c) c' -> evals p c c'.
Proof. intros Hi [n H]. exists (S n). simpl. by rewrite Hi. Qed.
Lemma evals_done p c : p !! pc c = None -> evals p c c.
Proof. intros H. exists 1%nat. simpl. by rewrite H. Qed.

Lemma run_det p c n m a b : run n p c = Some a -> run m p c = Some b -> a = b.
Proof.
  revert m c. induction n as [|n IH]; intros [|m] c; simpl; try done. destruct (p !! pc c); [apply IH|congruence].
Qed.

(** [step_tac] executes one instruction on a concrete state. *)
Ltac st := eapply evals_step; [reflexivity|cbn -[u8 u16 u32 Z.add Z.sub Z.mul Z.div Z.eqb Z.ltb Z.leb Z.pow Z.modulo store stores]].
Ltac halt := apply evals_done; reflexivity.

(** ** Memory *)

(** The bytes of [m] from [p] on are [l]. *)
Definition bytes_at (m : Z -> Z) (p : Z) (l : list Z) : Prop := forall i x, l !! i = Some x -> m (p + Z.of_nat i) = x.
(** A string ends with 0. *)
Record cstr (m : Z -> Z) (p : Z) (s : list Z) : Prop := {
  cs_bytes : bytes_at m p s;
  cs_end : m (p + zlength s) = 0;
  cs_chars : Forall (fun x => 0 < x < 256) s;
  cs_range : 0 <= p /\ p + zlength s < 2 ^ 32;
}.

(** [m] with [l] at [p]. *)
Definition put (p : Z) (l : list Z) (m : Z -> Z) : Z -> Z := fun x =>
  if (p <=? x) && (x <? p + zlength l) then default 0 (l !! Z.to_nat (x - p)) else m x.

Definition is_mem (m : Z -> Z) : Prop := forall x, is_u8 (m x).

(** The [n] bytes from [p] on. *)
Definition slice (m : Z -> Z) (p n : Z) : list Z := (fun i => m (p + i)) <$> seqZ 0 n.

(** ** Words *)

Lemma u32_u32 x : u32 (u32 x) = u32 x.
Proof. unfold u32. by rewrite Z.mod_mod. Qed.
Lemma u32_add_l x y : u32 (u32 x + y) = u32 (x + y).
Proof. unfold u32. by rewrite Z.add_mod_idemp_l. Qed.
Lemma u32_sub_l x y : u32 (u32 x - y) = u32 (x - y).
Proof. apply (u32_add_l x (- y)). Qed.
Lemma u8_idem x : u8 (u8 x) = u8 x.
Proof. unfold u8. by rewrite Z.mod_mod. Qed.
Lemma u8_byte x : is_u8 x -> u8 x = x.
Proof. apply u8_small. Qed.

Lemma store_eq a v m x : 0 <= a < 2 ^ 32 -> store a v m x = if x =? a then u8 v else m x.
Proof. intros Ha. unfold store. by rewrite u32_small. Qed.
Lemma store_mem a v m : is_mem m -> is_mem (store a v m).
Proof. intros Hm x. unfold store. destruct (x =? u32 a); [apply Z.mod_pos_bound; lia|apply Hm]. Qed.

(** ** Repeated moves *)

(** [dx] is 1 or -1. *)
Fixpoint copy (dx : Z) (n : nat) (s d : Z) (m : Z -> Z) : Z -> Z :=
  match n with O => m | S n => copy dx n (s + dx) (d + dx) (store d (m (u32 s)) m) end.

Lemma rep_movsb p i c' n : p !! i = Some (Rep Movsb) -> forall a b s d z k f m, Z.of_nat n < 2 ^ 32 ->
  let dx := if f : bool then -1 else 1 in
  evals p (mkcpu a b 0 (u32 (s + dx * Z.of_nat n)) (u32 (d + dx * Z.of_nat n)) z k f (S i) (copy dx n s d m)) c' ->
  evals p (mkcpu a b (Z.of_nat n) (u32 s) (u32 d) z k f i m) c'.
Proof.
  intros Hi. induction n as [|n IH]; intros a b s d z k f m Hn dx H.
  - eapply evals_step; [exact Hi|]. cbn -[u32]. by rewrite !Z.mul_0_r, !Z.add_0_r in H.
  - eapply evals_step; [exact Hi|]. cbn [exec ecx]. rewrite (proj2 (Z.eqb_neq _ _)) by lia.
    cbn -[u32 Z.of_nat store]. unfold load. cbn -[u32 Z.of_nat store]. rewrite u32_u32, !u32_add_l.
    replace (u32 (Z.of_nat (S n) - 1)) with (Z.of_nat n) by (rewrite u32_small; lia).
    assert (Est : store (u32 d) (m (u32 s)) m = store d (m (u32 s)) m) by (unfold store; by rewrite u32_u32). rewrite Est.
    assert (Edx : (if f then Z.opp 1 else 1) = dx) by done. rewrite Edx. apply (IH a b (s + dx) (d + dx) z k f); [lia|].
    fold dx. replace (s + dx + dx * Z.of_nat n) with (s + dx * Z.of_nat (S n)) by lia.
    replace (d + dx + dx * Z.of_nat n) with (d + dx * Z.of_nat (S n)) by lia. exact H.
Qed.

Lemma rep_movsb_at p i c' a b n s d s' d' z k f m : p !! i = Some (Rep Movsb) -> 0 <= n < 2 ^ 32 -> s' = u32 s -> d' = u32 d ->
  let dx := if f : bool then -1 else 1 in
  evals p (mkcpu a b 0 (u32 (s + dx * n)) (u32 (d + dx * n)) z k f (S i) (copy dx (Z.to_nat n) s d m)) c' ->
  evals p (mkcpu a b n s' d' z k f i m) c'.
Proof.
  intros Hi Hn -> -> dx H. rewrite <- (Z2Nat.id n) by lia. apply (rep_movsb p i c' (Z.to_nat n) Hi); [lia|].
  fold dx. by rewrite Z2Nat.id by lia.
Qed.

Definition moved (m : Z -> Z) (d s n x : Z) : Z := if (d <=? x) && (x <? d + n) then m (s + (x - d)) else m x.

Ltac cases := repeat match goal with
  | |- context [?a <=? ?b] => destruct (Z.leb_spec a b)
  | |- context [?a <? ?b] => destruct (Z.ltb_spec a b)
  | |- context [?a =? ?b] => destruct (Z.eqb_spec a b)
  end; cbn [andb orb negb]; try lia.

Lemma copy_fwd n : forall s d m x, is_mem m -> 0 <= s -> s + Z.of_nat n <= 2 ^ 32 -> 0 <= d -> d + Z.of_nat n <= 2 ^ 32 ->
  d <= s \/ s + Z.of_nat n <= d -> copy 1 n s d m x = moved m d s (Z.of_nat n) x.
Proof.
  induction n as [|n IH]; intros s d m x Hm H1 H2 H3 H4 H5; cbn [copy]; [unfold moved; by cases|].
  rewrite IH by (lia || by apply store_mem). unfold moved. rewrite u32_small by lia. rewrite !store_eq by lia. rewrite u8_byte by apply Hm.
  cases; f_equal; lia.
Qed.

Lemma copy_bwd n : forall s d m x, is_mem m -> 0 <= s -> s + Z.of_nat n <= 2 ^ 32 -> 0 <= d -> d + Z.of_nat n <= 2 ^ 32 ->
  s <= d -> copy (-1) n (s + Z.of_nat n - 1) (d + Z.of_nat n - 1) m x = moved m d s (Z.of_nat n) x.
Proof.
  induction n as [|n IH]; intros s d m x Hm H1 H2 H3 H4 H5; cbn [copy]; [unfold moved; by cases|].
  replace (s + Z.of_nat (S n) - 1 + -1) with (s + Z.of_nat n - 1) by lia. replace (d + Z.of_nat (S n) - 1 + -1) with (d + Z.of_nat n - 1) by lia.
  rewrite IH by (lia || by apply store_mem). unfold moved. rewrite u32_small by lia. rewrite !store_eq by lia. rewrite u8_byte by apply Hm.
  cases; f_equal; lia.
Qed.

(** [n] bytes moved from [s] to [d], and a state ready for the next function. *)
Definition has_moved (p : list instr) (n s d : Z) (c : cpu) : Prop :=
  exists c', evals p c c' /\ df c' = false /\ forall x, mem c' x = moved (mem c) d s n x.

Section moves.
Context (a b n s d : Z) (z k : bool) (m : Z -> Z).
Hypothesis (Hm : is_mem m) (Hn : 0 <= n < 2 ^ 32).
Hypothesis (Hs : 0 <= s < 2 ^ 32 /\ s + n <= 2 ^ 32) (Hd : 0 <= d < 2 ^ 32 /\ d + n <= 2 ^ 32).

Lemma memcpy_ok : d <= s \/ s + n <= d -> has_moved memcpy n s d (start a b n s d z k m).
Proof using Hm Hn Hs Hd.
  intros Ho. assert (En : Z.of_nat (Z.to_nat n) = n) by lia. eexists. split; [|split; [|intros x]].
  - unfold start. eapply (rep_movsb_at _ _ _ _ _ n s d); [reflexivity|lia|by rewrite u32_small by lia..|]. halt.
  - done.
  - cbn [mem start]. by rewrite copy_fwd, En by (rewrite ?En; done || lia).
Qed.

Lemma memmove_ok : has_moved memmove n s d (start a b n s d z k m).
Proof using Hm Hn Hs Hd.
  assert (En : Z.of_nat (Z.to_nat n) = n) by lia. unfold start.
  assert (Ecmp : forall x y, 0 <= x < 2 ^ 32 -> 0 <= y < 2 ^ 32 -> negb ((x - y) mod 2 ^ 32 =? 0) && negb (x mod 2 ^ 32 <? y mod 2 ^ 32) = (y <? x)).
  { intros x y Hx Hy. rewrite (Z.mod_small x), (Z.mod_small y) by lia. destruct (Z.ltb_spec y x), (Z.ltb_spec x y); [lia|..].
    - rewrite Z.mod_small by lia. by rewrite (proj2 (Z.eqb_neq _ _)) by lia.
    - rewrite andb_comm. done.
    - replace (x - y) with 0 by lia. done. }
  destruct (Z.ltb_spec d s) as [Hds|Hds].
  - eexists. split; [|split; [|intros x]].
    + st. st. rewrite Ecmp, (proj2 (Z.ltb_lt _ _)) by lia. st.
      eapply (rep_movsb_at _ _ _ _ _ n s d); [reflexivity|lia|by rewrite u32_small by lia..|]. st. halt.
    + done.
    + cbn [mem]. by rewrite copy_fwd, En by (rewrite ?En; done || lia).
  - eexists. split; [|split; [|intros x]].
    + st. st. rewrite Ecmp, (proj2 (Z.ltb_ge _ _)) by lia. unfold branch. cbn -[u32]. st. st. st. st. st. st.
      eapply (rep_movsb_at _ _ _ _ _ n (s + n - 1) (d + n - 1)); [reflexivity|lia|by rewrite u32_sub_l..|]. st. halt.
    + done.
    + cbn [mem]. rewrite <- En at 2 3. rewrite copy_bwd, En by (rewrite ?En; done || lia). done.
Qed.
End moves.

(** ** Types *)

(** Registers hold 32 bits and memory holds bytes. *)
Record cpu_ok (c : cpu) : Prop := {
  ok_reg r : is_u32 (rd r c);
  ok_mem : is_mem (mem c);
}.

Lemma u8_range x : 0 <= u8 x < 2 ^ 8.
Proof. apply Z.mod_pos_bound. lia. Qed.
Lemma u16_range x : 0 <= u16 x < 2 ^ 16.
Proof. apply Z.mod_pos_bound. lia. Qed.

Lemma wr_ok r v c : cpu_ok c -> is_u32 v -> cpu_ok (wr r v c).
Proof. intros [Hr Hm] Hv. destruct c. split; [|by destruct r]. intros q. specialize (Hr q). by destruct r, q. Qed.
Lemma flags_ok z k c : cpu_ok c -> cpu_ok (set_flags z k c).
Proof. intros [Hr Hm]. destruct c. split; [intros q; by specialize (Hr q); destruct q|done]. Qed.
Lemma set_df_ok f c : cpu_ok c -> cpu_ok (set_df f c).
Proof. intros [Hr Hm]. destruct c. split; [intros q; by specialize (Hr q); destruct q|done]. Qed.
Lemma goto_ok p c : cpu_ok c -> cpu_ok (goto p c).
Proof. intros [Hr Hm]. destruct c. split; [intros q; by specialize (Hr q); destruct q|done]. Qed.
Lemma set_mem_ok m c : cpu_ok c -> is_mem m -> cpu_ok (set_mem m c).
Proof. intros [Hr _] Hm. destruct c. split; [intros q; by specialize (Hr q); destruct q|done]. Qed.
Lemma al_high c : cpu_ok c -> 0 <= eax c - al c /\ eax c - al c + 255 < 2 ^ 32.
Proof. intros [Hr _]. specialize (Hr EAX). cbn in Hr. unfold al, u8, is_u32 in *. Z.div_mod_to_equations. lia. Qed.
Lemma set_al_ok v c : cpu_ok c -> cpu_ok (set_al v c).
Proof. intros Hc. apply wr_ok; [done|]. pose proof (al_high c Hc). pose proof (u8_range v). unfold is_u32. lia. Qed.
Lemma stores_mem n : forall a v m, is_mem m -> is_mem (stores n a v m).
Proof. induction n; intros; simpl; [done|]. apply IHn. by apply store_mem. Qed.
Lemma adv_ok r w c : cpu_ok c -> cpu_ok (adv r w c).
Proof. intros Hc. apply wr_ok; [done|]. apply u32_range. Qed.
Lemma u32_is x : is_u32 (u32 x).
Proof. apply u32_range. Qed.
Lemma sext_high c : cpu_ok c -> is_u32 (eax c - u16 (eax c) + u16 (sext8 (eax c))).
Proof.
  intros [Hr _]. specialize (Hr EAX). cbn in Hr. pose proof (u16_range (sext8 (eax c))).
  set (y := u16 (sext8 _)) in *. clearbody y. unfold is_u32, u16 in *. Z.div_mod_to_equations. lia.
Qed.

Create HintDb cpu.
#[local] Hint Resolve wr_ok flags_ok set_df_ok goto_ok set_mem_ok set_al_ok adv_ok u32_is store_mem stores_mem ok_reg ok_mem sext_high : cpu.

Lemma sexec_ok o c : cpu_ok c -> cpu_ok (sexec o c).
Proof. intros Hc. destruct o; cbn [sexec]; unfold cmp; eauto 8 with cpu. Qed.
Lemma next_ok c : cpu_ok c -> cpu_ok (next c).
Proof. apply goto_ok. Qed.
Lemma dec_ecx_ok c : cpu_ok c -> cpu_ok (dec_ecx c).
Proof. intros Hc. apply wr_ok; [done|apply u32_range]. Qed.
Lemma branch_ok b p c : cpu_ok c -> cpu_ok (branch b p c).
Proof. intros Hc. destruct b; by apply goto_ok. Qed.
#[local] Hint Resolve sexec_ok next_ok dec_ecx_ok branch_ok : cpu.

Lemma exec_ok i c : cpu_ok c -> cpu_ok (exec i c).
Proof.
  intros Hc. destruct i; cbn [exec]; unfold cmp, zflag; cbv zeta; try (eauto 8 with cpu; fail).
  - destruct (ecx c =? 0); eauto with cpu.
  - destruct (ecx c =? 0); [|destruct (eqb _ _)]; eauto with cpu.
  - apply next_ok, flags_ok, wr_ok; [done|]. unfold is_u32. lia.
  - apply next_ok, wr_ok; [done|]. pose proof (ok_reg _ Hc r) as H. unfold is_u32 in *. lia.
Qed.

Lemma cpu_run_ok p : forall n c c', cpu_ok c -> run n p c = Some c' -> cpu_ok c'.
Proof.
  induction n as [|n IH]; intros c c' Hc; cbn [run]; [done|]. destruct (p !! pc c) as [i|]; [|by intros [= <-]].
  apply IH. by apply exec_ok.
Qed.

(** ** Repeated stores *)

Lemma stores_at n : forall a v m x, 0 <= a -> a + Z.of_nat n <= 2 ^ 32 ->
  stores n a v m x = if (a <=? x) && (x <? a + Z.of_nat n) then u8 (v / 256 ^ (x - a)) else m x.
Proof.
  induction n as [|n IH]; intros a v m x Ha Hn; cbn [stores]; [by cases|].
  rewrite IH by lia. rewrite store_eq by lia. cases.
  - f_equal. rewrite Z.div_div by lia. f_equal. rewrite <- (Z.pow_1_r 256) at 1. rewrite <- Z.pow_add_r by lia. f_equal. lia.
  - subst x. rewrite Z.sub_diag. by rewrite Z.div_1_r.
Qed.

(** [n] values of [w] bytes stored from [d] on. *)
Definition filled (w : nat) (m : Z -> Z) (d v n x : Z) : Z :=
  if (d <=? x) && (x <? d + n * Z.of_nat w) then u8 (v / 256 ^ ((x - d) mod Z.of_nat w)) else m x.

Lemma rep_stos w p i c' n : (0 < w)%nat -> p !! i = Some (Rep (Stos w)) -> forall a b s d z k m, Z.of_nat n < 2 ^ 32 ->
  0 <= d -> d + Z.of_nat n * Z.of_nat w <= 2 ^ 32 ->
  (forall m', (forall x, m' x = filled w m d a (Z.of_nat n) x) ->
     evals p (mkcpu a b 0 s (u32 (d + Z.of_nat n * Z.of_nat w)) z k false (S i) m') (c' m')) ->
  exists m', (forall x, m' x = filled w m d a (Z.of_nat n) x) /\ evals p (mkcpu a b (Z.of_nat n) s (u32 d) z k false i m) (c' m').
Proof.
  intros Hw Hi. induction n as [|n IH]; intros a b s d z k m Hn H1 H2 H.
  - assert (E : forall x, m x = filled w m d a 0 x) by (intros x; unfold filled; by cases).
    exists m. split; [done|]. eapply evals_step; [exact Hi|]. cbn -[u32]. specialize (H m E). by rewrite Z.mul_0_l, Z.add_0_r in H.
  - set (m1 := stores w d a m). assert (Ef : forall x, filled w m1 (d + Z.of_nat w) a (Z.of_nat n) x = filled w m d a (Z.of_nat (S n)) x).
    { intros x. unfold filled, m1. rewrite stores_at by nia.
      replace ((x - (d + Z.of_nat w)) mod Z.of_nat w) with ((x - d) mod Z.of_nat w)
        by (rewrite <- (Z.mod_add (x - (d + Z.of_nat w)) 1) by lia; f_equal; lia).
      destruct (Z.leb_spec (d + Z.of_nat w) x), (Z.ltb_spec x (d + Z.of_nat w + Z.of_nat n * Z.of_nat w)),
        (Z.leb_spec d x), (Z.ltb_spec x (d + Z.of_nat (S n) * Z.of_nat w)), (Z.ltb_spec x (d + Z.of_nat w)); cbn [andb]; try nia; try done.
      rewrite Z.mod_small by lia. done. }
    destruct (IH a b s (d + Z.of_nat w) z k m1) as (m' & Hm' & E); [lia|lia|nia| |].
    + intros m' Hm'. replace (d + Z.of_nat w + Z.of_nat n * Z.of_nat w) with (d + Z.of_nat (S n) * Z.of_nat w) by lia.
      apply H. intros x. by rewrite Hm', Ef.
    + exists m'. split; [intros x; by rewrite Hm', Ef|]. eapply evals_step; [exact Hi|]. cbn [exec ecx].
      rewrite (proj2 (Z.eqb_neq _ _)) by lia. cbn -[u32 Z.of_nat stores]. rewrite u32_add_l.
      replace (u32 (Z.of_nat (S n) - 1)) with (Z.of_nat n) by (rewrite u32_small; lia).
      assert (Est : stores w (u32 d) a m = m1) by (destruct (Z.eq_dec d (2 ^ 32)); [nia|by rewrite u32_small by lia]).
      rewrite Est. exact E.
Qed.

Lemma memset_ok w n a b s d z k m : (0 < w)%nat -> 0 <= n < 2 ^ 32 -> 0 <= d < 2 ^ 32 -> d + n * Z.of_nat w <= 2 ^ 32 ->
  exists c', evals [Rep (Stos w)] (start a b n s d z k m) c' /\ forall x, mem c' x = filled w m d a n x.
Proof.
  intros Hw Hn Hd Hr. set (p := [Rep (Stos w)]).
  destruct (rep_stos w p 0 (fun m' => mkcpu a b 0 s (u32 (d + Z.of_nat (Z.to_nat n) * Z.of_nat w)) z k false 1 m') (Z.to_nat n) Hw eq_refl a b s d z k m)
    as (m' & Hm' & E); [lia|lia|rewrite Z2Nat.id by lia; lia|intros; halt|].
  rewrite Z2Nat.id in E by lia. rewrite Z2Nat.id in Hm' by lia. rewrite u32_small in E by lia. by eexists.
Qed.

(** ** Strings *)

Lemma cstr_cons m p x s : cstr m p (x :: s) <-> m p = x /\ 0 < x < 256 /\ 0 <= p /\ cstr m (p + 1) s.
Proof.
  unfold bytes_at. split.
  - intros [B E C R]. apply Forall_cons in C as [Cx C]. rewrite zlength_cons in *. pose proof (zlength_nonneg s).
    split; [rewrite <- (Z.add_0_r p); exact (B 0%nat x eq_refl)|]. split; [done|]. split; [lia|]. constructor; [|rewrite <- E; f_equal; lia|done|lia].
    intros i y Hi. rewrite <- (B (S i) y Hi). f_equal. lia.
  - intros (E1 & Hx & Hp & [B E C R]). constructor; rewrite ?zlength_cons; [|rewrite <- E; f_equal; lia|by constructor|lia].
    intros [|i] y Hi; [injection Hi as <-; by rewrite Z.add_0_r|]. rewrite <- (B i y Hi). f_equal. lia.
Qed.
Lemma cstr_nil m p : cstr m p [] <-> m p = 0 /\ 0 <= p < 2 ^ 32.
Proof.
  split.
  - intros [B E C R]. rewrite Z.add_0_r in *. done.
  - intros [E R]. constructor; [by intros ? ?|by rewrite Z.add_0_r|done|rewrite Z.add_0_r; done].
Qed.
Lemma cstr_range m p s : cstr m p s -> 0 <= p < 2 ^ 32.
Proof. intros [_ _ _ R]. pose proof (zlength_nonneg s). lia. Qed.

Lemma al_set a v : u8 (a - u8 a + u8 v) = u8 v.
Proof. unfold u8. Z.div_mod_to_equations. lia. Qed.
Lemma cmp8_zf x y : is_u8 x -> is_u8 y -> ((x - y) mod 2 ^ 8 =? 0) = (x =? y).
Proof. unfold is_u8. intros Hx Hy. destruct (Z.eqb_spec x y) as [->|Hne]; [by rewrite Z.sub_diag|]. apply Z.eqb_neq. Z.div_mod_to_equations. lia. Qed.
Lemma cmp8_zero x : is_u8 x -> ((x - 0) mod 2 ^ 8 =? 0) = (x =? 0).
Proof. intros Hx. by apply cmp8_zf. Qed.
Lemma zero_u8 : is_u8 0.
Proof. unfold is_u8. lia. Qed.

Section scans.
Context (m : Z -> Z) (Hm : is_mem m).

Lemma strlen_loop s : forall p a b k x z f, cstr m p s -> u8 a = 0 -> zlength s < k -> k < 2 ^ 32 -> exists f',
  forall c', evals strlen (mkcpu a b (k - zlength s - 1) x (u32 (p + zlength s + 1)) true f' false 1 m) c' ->
  evals strlen (mkcpu a b k x p z f false 0 m) c'.
Proof using Hm.
  induction s as [|y s IH]; intros p a b k x z f Hc Ha Hk Hr.
  - apply cstr_nil in Hc as [E R]. eexists. intros c' H. change (zlength []) with 0 in *.
    eapply evals_step; [reflexivity|]. cbn [exec ecx]. rewrite (proj2 (Z.eqb_neq _ _)) by lia.
    cbn -[u8 u32 Z.add Z.sub Z.modulo Z.eqb Z.ltb Z.pow]. unfold al, load. cbn [eax mem edi]. rewrite Ha, (u32_small p), E by lia.
    change ((0 - 0) mod 2 ^ 8 =? 0) with true. cbn [eqb]. rewrite (u32_small (k - 1)) by lia.
    rewrite Z.sub_0_r, Z.add_0_r in H. cbn -[u8 u32 Z.add Z.sub Z.modulo Z.eqb Z.ltb Z.pow]. exact H.
  - pose proof (cstr_range _ _ _ Hc) as Hp. apply cstr_cons in Hc as (E & Hy & _ & Hc). rewrite zlength_cons in *. pose proof (zlength_nonneg s).
    destruct (IH (p + 1) a b (k - 1) x false (0 mod 2 ^ 8 <? y mod 2 ^ 8) Hc Ha) as [f' H']; [lia|lia|]. exists f'. intros c' Hev.
    eapply evals_step; [reflexivity|]. cbn [exec ecx]. rewrite (proj2 (Z.eqb_neq _ _)) by lia.
    cbn -[u8 u32 Z.add Z.sub Z.modulo Z.eqb Z.ltb Z.pow]. unfold al, load. cbn [eax mem edi]. rewrite Ha, (u32_small p), E by lia.
    rewrite cmp8_zf by (unfold is_u8; lia). rewrite (proj2 (Z.eqb_neq 0 y)) by lia. cbn [eqb].
    rewrite (u32_small (k - 1)), (u32_small (p + 1)) by (pose proof (cstr_range _ _ _ Hc); lia). apply H'.
    replace (k - 1 - zlength s - 1) with (k - (zlength s + 1) - 1) by lia. replace (p + 1 + zlength s + 1) with (p + (zlength s + 1) + 1) by lia. exact Hev.
Qed.

(** [strlen] is the length of the string. *)
Lemma strlen_ok p s b x z k : cstr m p s -> zlength s < 2 ^ 32 - 1 -> exists c',
  evals strlen (start 0 b (2 ^ 32 - 1) x p z k m) c' /\ ecx c' = zlength s /\ mem c' = m.
Proof using Hm.
  intros Hc Hl. pose proof (zlength_nonneg s). destruct (strlen_loop s p 0 b (2 ^ 32 - 1) x z k Hc eq_refl Hl ltac:(lia)) as [f' H'].
  eexists. split; [apply H'; st; st; halt|]. split; [|done]. cbn [ecx]. rewrite u32_small; lia.
Qed.

(** ** Comparison *)

(** The difference of the first characters that differ, as a signed byte. *)
Fixpoint cmp_ref (s t : list Z) : Z :=
  match s, t with
  | [], _ => sext8 (0 - hd 0 t)
  | a :: s, [] => sext8 a
  | a :: s, b :: t => if a =? b then cmp_ref s t else sext8 (a - b)
  end.

(** The last four instructions turn the difference of two bytes into an [int]. *)
Lemma cmp_end (p : list instr) x y a b n s d z k : (p = strcmp \/ p = strncmp) -> is_u8 a -> 0 <= s < 2 ^ 32 -> 0 <= d < 2 ^ 32 -> m d = x -> m s = y -> exists c',
  evals p (mkcpu a b n s d z k false 7 m) c' /\ eax c' = u32 (sext8 (x - y)) /\ mem c' = m.
Proof using Hm.
  intros Hp Ha Hs Hd Hx Hy. pose proof (Hm d) as Hxr. pose proof (Hm s) as Hyr. rewrite Hx in Hxr. rewrite Hy in Hyr.
  eexists. split.
  - destruct Hp as [-> | ->]; st; st; st; st; halt.
  - split; [|done]. cbn [eax]. unfold load. cbn [mem]. rewrite !Z.add_0_r, (u32_small d), (u32_small s), Hx, Hy by lia.
    unfold al. cbn [eax]. rewrite !al_set, (u8_byte a Ha), Z.sub_diag, Z.add_0_l, (u8_byte x Hxr), ?(u8_byte x Hxr), Z.sub_diag, Z.add_0_l.
    pose proof (u8_range (x - y)). unfold sext16, sext8, u16. rewrite u8_idem. set (e := u8 (x - y)) in *. clearbody e.
    rewrite (Z.mod_small e) by lia. rewrite Z.sub_diag, Z.add_0_l, !Z.mod_mod by lia. f_equal.
    destruct (Z.leb_spec 128 e) as [|]; rewrite ?(Z.mod_small e) by lia; [|cases].
    replace ((e - 256) mod 2 ^ 16) with (e - 256 + 65536) by (Z.div_mod_to_equations; lia). cases.
Qed.

(** The loop compares one character and stands before its branch. *)
Lemma cmp_step (p : list instr) x pt ps b n z k c' : (p = strcmp \/ p = strncmp) -> 0 <= ps < 2 ^ 32 -> 0 <= pt < 2 ^ 32 -> m ps = x -> x <> 0 ->
  evals p (mkcpu 0 b n (u32 (pt + 1)) (u32 (ps + 1)) (m pt =? x) (m pt mod 2 ^ 8 <? x mod 2 ^ 8) false 4 m) c' ->
  evals p (mkcpu 0 b n pt ps z k false 1 m) c'.
Proof using Hm.
  intros Hp Rs Rt Es Hx H. rewrite <- (cmp8_zf (m pt) x) in H by (rewrite <- ?Es; apply Hm).
  assert (E0 : ((x - 0) mod 2 ^ 8 =? 0) = false) by (rewrite cmp8_zero by (rewrite <- Es; apply Hm); by apply Z.eqb_neq).
  destruct Hp as [-> | ->]; st; unfold load; cbn [mem]; rewrite (u32_small ps), Es, E0 by lia; st; st; unfold load; cbn [mem];
    rewrite (u32_small pt), (u32_small ps), Es by lia; exact H.
Qed.

(** The end of the first string. *)
Lemma cmp_stop (p : list instr) t pt ps b n z k : (p = strcmp \/ p = strncmp) -> 0 <= ps < 2 ^ 32 -> 0 <= pt < 2 ^ 32 -> m ps = 0 -> m pt = hd 0 t -> exists c',
  evals p (mkcpu 0 b n pt ps z k false 1 m) c' /\ eax c' = u32 (sext8 (0 - hd 0 t)) /\ mem c' = m.
Proof using Hm.
  intros Hp Rs Rt Es Et. destruct (cmp_end p 0 (hd 0 t) 0 b n pt ps true false) as (c' & E & Ha & Hmem); try done.
  exists c'. split; [|done]. destruct Hp as [-> | ->]; st; unfold load; cbn [mem]; rewrite (u32_small ps), Es by lia; st; exact E.
Qed.

(** The last characters compared. *)
Lemma cmp_differ (p : list instr) x t pt ps b n z k : (p = strcmp \/ p = strncmp) -> 0 <= ps < 2 ^ 32 -> 0 <= pt < 2 ^ 32 -> 0 <= n < 2 ^ 32 ->
  ps + 1 < 2 ^ 32 -> m ps = x -> m pt = hd 0 t -> exists c',
  evals p (mkcpu 0 b n (u32 (pt + 1)) (u32 (ps + 1)) z k false 5 m) c' /\ eax c' = u32 (sext8 (x - hd 0 t)) /\ mem c' = m.
Proof using Hm.
  intros Hp Rs Rt Rn Rs' Es Et. destruct (cmp_end p x (hd 0 t) 0 b n pt ps (pt =? 0) k) as (c' & E & Ha & Hmem); try done.
  exists c'. split; [|done]. assert (E1 : u32 (u32 (pt + 1) - 1) = pt) by (rewrite u32_sub_l; replace (pt + 1 - 1) with pt by lia; by apply u32_small).
  assert (E2 : u32 (u32 (ps + 1) - 1) = ps) by (rewrite u32_sub_l; replace (ps + 1 - 1) with ps by lia; by apply u32_small).
  destruct Hp as [-> | ->]; st; st; rewrite E1, E2; exact E.
Qed.

Lemma hd_char pt t : cstr m pt t -> m pt = hd 0 t.
Proof. intros Ht. destruct t as [|y t]; [by apply cstr_nil in Ht as []|by apply cstr_cons in Ht as []]. Qed.

Lemma strcmp_loop s : forall t ps pt b n z k, cstr m ps s -> cstr m pt t -> 0 <= n < 2 ^ 32 -> exists c',
  evals strcmp (mkcpu 0 b n pt ps z k false 1 m) c' /\ eax c' = u32 (cmp_ref s t) /\ mem c' = m.
Proof using Hm.
  induction s as [|x s IH]; intros t ps pt b n z k Hs Ht Rn; pose proof (cstr_range _ _ _ Hs) as Rs; pose proof (cstr_range _ _ _ Ht) as Rt.
  - apply cstr_nil in Hs as [Es _]. apply (cmp_stop strcmp t); try done; [by left|by apply hd_char].
  - apply cstr_cons in Hs as (Es & Hx & _ & Hs). pose proof (cstr_range _ _ _ Hs) as Rs'.
    destruct (Z.eq_dec (m pt) x) as [Ept|Hne].
    + destruct t as [|y t]; [apply cstr_nil in Ht as [Et _]; lia|]. apply cstr_cons in Ht as (Et & Hy & _ & Ht). pose proof (cstr_range _ _ _ Ht) as Rt'.
      destruct (IH t (ps + 1) (pt + 1) b n true (m pt mod 2 ^ 8 <? x mod 2 ^ 8) Hs Ht Rn) as (c' & E & Ha & Hmem).
      exists c'. split; [|cbn [cmp_ref]; rewrite (proj2 (Z.eqb_eq x y)) by lia; done].
      apply (cmp_step strcmp x); [by left|lia|lia|done|lia|]. rewrite (proj2 (Z.eqb_eq _ _) Ept), !u32_small by lia. st. exact E.
    + destruct (cmp_differ strcmp x t pt ps b n false (m pt mod 2 ^ 8 <? x mod 2 ^ 8)) as (c' & E & Ha & Hmem); try done; [by left|lia|by apply hd_char|].
      exists c'. split; [|split; [|done]].
      * apply (cmp_step strcmp x); [by left|lia|lia|done|lia|]. rewrite (proj2 (Z.eqb_neq _ _) Hne). st. exact E.
      * rewrite Ha. pose proof (hd_char _ _ Ht). destruct t as [|y t]; cbn [cmp_ref hd] in *; [by rewrite Z.sub_0_r|]. rewrite (proj2 (Z.eqb_neq x y)); [done|lia].
Qed.

Lemma strncmp_one num b : Z.of_nat (S num) < 2 ^ 32 ->
  (num <> 0%nat -> forall s t ps pt z k, cstr m ps s -> cstr m pt t -> exists c',
     evals strncmp (mkcpu 0 b (Z.of_nat num) pt ps z k false 1 m) c' /\ eax c' = u32 (cmp_ref (take num s) (take num t)) /\ mem c' = m) ->
  forall s t ps pt z k, cstr m ps s -> cstr m pt t -> exists c',
    evals strncmp (mkcpu 0 b (Z.of_nat (S num)) pt ps z k false 1 m) c' /\
    eax c' = u32 (cmp_ref (take (S num) s) (take (S num) t)) /\ mem c' = m.
Proof using Hm.
  intros Rn IH s t ps pt z k Hs Ht. pose proof (cstr_range _ _ _ Hs) as Rs. pose proof (cstr_range _ _ _ Ht) as Rt.
  pose proof (hd_char _ _ Ht) as Ehd. assert (Eu : u32 (Z.of_nat (S num) - 1) = Z.of_nat num) by (rewrite u32_small; lia).
  destruct s as [|x s].
  { apply cstr_nil in Hs as [Es _]. assert (Eh : hd 0 (take (S num) t) = hd 0 t) by (by destruct t).
    rewrite <- Eh in Ehd. by apply (cmp_stop strncmp); [right|..]. }
  apply cstr_cons in Hs as (Es & Hx & _ & Hs). pose proof (cstr_range _ _ _ Hs) as Rs'.
  destruct (Z.eq_dec (m pt) x) as [Ept|Hne].
  - destruct t as [|y t]; [apply cstr_nil in Ht as [Et _]; lia|]. apply cstr_cons in Ht as (Et & Hy & _ & Ht). pose proof (cstr_range _ _ _ Ht) as Rt'.
    cbn [take cmp_ref]. rewrite (proj2 (Z.eqb_eq x y)) by lia. destruct (decide (num = 0%nat)) as [->|Hnum].
    + destruct (cmp_differ strncmp x [y] pt ps b 0 true (m pt mod 2 ^ 8 <? x mod 2 ^ 8)) as (c' & E & Ha & Hmem); try done; [by right|lia|].
      exists c'. split; [|split; [|done]].
      * apply (cmp_step strncmp x); [by right|lia|lia|done|lia|]. rewrite (proj2 (Z.eqb_eq _ _) Ept). st. rewrite Eu. exact E.
      * rewrite Ha. cbn [hd take cmp_ref]. by replace (x - y) with (0 - 0) by lia.
    + destruct (IH Hnum s t (ps + 1) (pt + 1) true (m pt mod 2 ^ 8 <? x mod 2 ^ 8) Hs Ht) as (c' & E & Ha & Hmem).
      exists c'. split; [|done]. apply (cmp_step strncmp x); [by right|lia|lia|done|lia|]. rewrite (proj2 (Z.eqb_eq _ _) Ept). st.
      rewrite Eu, (proj2 (Z.eqb_neq _ _)) by lia. rewrite !u32_small by lia. exact E.
  - destruct (cmp_differ strncmp x t pt ps b (Z.of_nat num) false (m pt mod 2 ^ 8 <? x mod 2 ^ 8)) as (c' & E & Ha & Hmem); try done; [by right|lia|lia|].
    exists c'. split; [|split; [|done]].
    + apply (cmp_step strncmp x); [by right|lia|lia|done|lia|]. rewrite (proj2 (Z.eqb_neq _ _) Hne). st. rewrite Eu, andb_false_r. exact E.
    + rewrite Ha. destruct t as [|y t]; cbn [cmp_ref hd take] in *; [by rewrite Z.sub_0_r|]. rewrite (proj2 (Z.eqb_neq x y)); [done|lia].
Qed.

Lemma strncmp_loop num b : Z.of_nat (S num) < 2 ^ 32 -> forall s t ps pt z k, cstr m ps s -> cstr m pt t -> exists c',
  evals strncmp (mkcpu 0 b (Z.of_nat (S num)) pt ps z k false 1 m) c' /\
  eax c' = u32 (cmp_ref (take (S num) s) (take (S num) t)) /\ mem c' = m.
Proof using Hm.
  induction num as [|num IH]; intros Rn; (apply strncmp_one; [done|]); [done|]. intros _. apply IH. lia.
Qed.
End scans.

(** ** What the comparisons mean *)

Definition chars (s : list Z) : Prop := Forall (fun x => 0 < x < 256) s.
Definition ascii (s : list Z) : Prop := Forall (fun x => 0 < x < 128) s.

(** The dictionary order. *)
Fixpoint lex_lt (s t : list Z) : bool :=
  match s, t with
  | _, [] => false
  | [], _ :: _ => true
  | a :: s, b :: t => if a =? b then lex_lt s t else a <? b
  end.

Lemma sext8_zero x y : is_u8 x -> is_u8 y -> sext8 (x - y) = 0 <-> x = y.
Proof.
  unfold is_u8, sext8, u8. intros Hx Hy. split; [|intros ->; rewrite Z.sub_diag; done].
  destruct (Z.leb_spec 128 ((x - y) mod 2 ^ 8)); Z.div_mod_to_equations; lia.
Qed.
Lemma sext8_ascii x y : 0 <= x < 128 -> 0 <= y < 128 -> sext8 (x - y) = x - y.
Proof. unfold sext8, u8. intros Hx Hy. destruct (Z.leb_spec 128 ((x - y) mod 2 ^ 8)); Z.div_mod_to_equations; lia. Qed.

Lemma cmp_ref_zero s : forall t, chars s -> chars t -> cmp_ref s t = 0 <-> s = t.
Proof.
  induction s as [|x s IH]; intros [|y t] Hs Ht; cbn [cmp_ref hd].
  - done.
  - apply Forall_cons in Ht as [Hy _]. rewrite (sext8_zero 0 y) by (unfold is_u8; lia). split; [lia|done].
  - apply Forall_cons in Hs as [Hx _]. rewrite <- (Z.sub_0_r x) at 1. rewrite (sext8_zero x 0) by (unfold is_u8; lia). split; [lia|done].
  - apply Forall_cons in Hs as [Hx Hs]. apply Forall_cons in Ht as [Hy Ht]. destruct (Z.eqb_spec x y) as [->|Hne].
    + rewrite IH by done. split; [by intros ->|by intros [=]].
    + rewrite sext8_zero by (unfold is_u8; lia). split; [done|by intros [=]].
Qed.

Lemma cmp_ref_ascii s : forall t, ascii s -> ascii t -> (cmp_ref s t <? 0) = lex_lt s t.
Proof.
  induction s as [|x s IH]; intros [|y t] Hs Ht; cbn [cmp_ref lex_lt hd]; try done.
  - apply Forall_cons in Ht as [Hy _]. rewrite sext8_ascii by lia. apply Z.ltb_lt. lia.
  - apply Forall_cons in Hs as [Hx _]. rewrite <- (Z.sub_0_r x), sext8_ascii by lia. apply Z.ltb_ge. lia.
  - apply Forall_cons in Hs as [Hx Hs]. apply Forall_cons in Ht as [Hy Ht]. destruct (Z.eqb_spec x y) as [->|Hne]; [by apply IH|].
    rewrite sext8_ascii by lia. cases; done.
Qed.

(** ** Copies *)

Lemma cstr_frame m m' p s : cstr m p s -> (forall x, p <= x <= p + zlength s -> m' x = m x) -> cstr m' p s.
Proof.
  intros [B E C R] H. pose proof (zlength_nonneg s). constructor; [|rewrite H; [done|lia]|done|done].
  intros i x Hi. rewrite H; [by apply B|]. apply lookup_lt_Some in Hi. unfold zlength in *. lia.
Qed.

Lemma put_nil d m x : put d [] m x = m x.
Proof. unfold put. change (zlength []) with 0. by cases. Qed.
Lemma put_cons d y s m x : 0 <= d < 2 ^ 32 -> is_u8 y -> put (d + 1) s (store d y m) x = put d (y :: s) m x.
Proof.
  intros Hd Hy. unfold put. rewrite zlength_cons. pose proof (zlength_nonneg s). rewrite store_eq by done. rewrite u8_byte by done.
  destruct (Z.eq_dec x d) as [->|Hne].
  - rewrite Z.eqb_refl, Z.sub_diag. by cases.
  - rewrite (proj2 (Z.eqb_neq x d)) by done. destruct (Z.leb_spec (d + 1) x), (Z.leb_spec d x); try lia; cbn [andb]; [|done].
    destruct (Z.ltb_spec x (d + 1 + zlength s)), (Z.ltb_spec x (d + (zlength s + 1))); try lia.
    replace (Z.to_nat (x - d)) with (S (Z.to_nat (x - (d + 1)))) by lia. done.
Qed.
Lemma put_ext d s m m' : (forall x, m x = m' x) -> forall x, put d s m x = put d s m' x.
Proof. intros H x. unfold put. by rewrite H. Qed.

(** The loops of the copies start at [i] and end at [i + 5]; [lim] is [None] for
    a [jmp] and the count for a [loop]. *)
Section copies.
Context (p : list instr) (i : nat) (lim : bool).
Hypothesis (P0 : p !! i = Some (I Lodsb)) (P1 : p !! (i + 1)%nat = Some TestAl) (P2 : p !! (i + 2)%nat = Some (Je (i + 5))).
Hypothesis (P3 : p !! (i + 3)%nat = Some (I (Stos 1))) (P4 : p !! (i + 4)%nat = Some (if lim then Loop i else Jmp i)).

Definition limit (n : Z) (s : list Z) : list Z := if lim then take (Z.to_nat n) s else s.

Ltac go H := eapply evals_step; [rewrite ?Nat.add_succ_r, ?Nat.add_0_r in *; exact H|cbn -[u8 u32 Z.add Z.sub Z.eqb Z.ltb Z.leb Z.pow Z.modulo store Nat.add]].

Lemma copy_loop s : forall m ps d a b n z k, is_mem m -> cstr m ps s -> 0 <= d -> d + zlength s <= 2 ^ 32 ->
  d + zlength s <= ps \/ ps + zlength s < d -> (lim = true -> 0 < n < 2 ^ 32) -> exists a' n' x' z' k' m',
  (forall x, m' x = put d (limit n s) m x) /\ is_mem m' /\
  forall c', evals p (mkcpu a' b n' x' (u32 (d + zlength (limit n s))) z' k' false (i + 5) m') c' ->
             evals p (mkcpu a b n ps (u32 d) z k false i m) c'.
Proof using P0 P1 P2 P3 P4.
  replace (i + 5)%nat with (S (S (S (S (S i))))) in * by lia. replace (i + 4)%nat with (S (S (S (S i)))) in * by lia.
  replace (i + 3)%nat with (S (S (S i))) in * by lia. replace (i + 2)%nat with (S (S i)) in * by lia. replace (i + 1)%nat with (S i) in * by lia.
  induction s as [|y s IH]; intros m ps d a b n z k Hm Hs Hd Hr Hdis Hn; pose proof (cstr_range _ _ _ Hs) as Rs.
  - apply cstr_nil in Hs as [Es _]. assert (El : limit n [] = []) by (unfold limit; destruct lim; by rewrite ?take_nil). rewrite El.
    eexists _, n, _, true, false, m. split; [intros x; by rewrite put_nil|]. split; [done|]. intros c' H.
    eapply evals_step; [exact P0|]. cbn -[u8 u32]. unfold load, al. cbn [mem]. rewrite (u32_small ps), Es by lia.
    eapply evals_step; [exact P1|]. cbn -[u8 u32]. unfold al. cbn [eax]. rewrite al_set.
    eapply evals_step; [exact P2|]. cbn -[u8 u32]. change (zlength []) with 0 in H. rewrite Z.add_0_r in H. exact H.
  - pose proof Hs as Hs0. apply cstr_cons in Hs as (Es & Hy & _ & Hs). rewrite zlength_cons in *. pose proof (zlength_nonneg s) as Hz.
    assert (Hyu : is_u8 y) by (unfold is_u8; lia).
    assert (Hs' : cstr (store d y m) (ps + 1) s).
    { apply (cstr_frame m); [done|]. intros x Hx. rewrite store_eq by lia. cases; done. }
    assert (Hend : exists n1, (forall c', evals p (mkcpu (a - u8 a + y) b n1 (u32 (ps + 1)) (u32 (d + 1)) false false false
        (if lim then if n - 1 =? 0 then S (S (S (S (S i)))) else i else i) (store d y m)) c' -> evals p (mkcpu a b n ps (u32 d) z k false i m) c') /\
        (lim = true -> n1 = n - 1) /\ (lim = false -> n1 = n)).
    { exists (if lim then n - 1 else n). split; [|by destruct lim]. intros c' H.
      eapply evals_step; [exact P0|]. cbn -[u8 u32]. unfold load, al. cbn [mem]. rewrite (u32_small ps), Es, (u8_byte y) by (done || lia).
      eapply evals_step; [exact P1|]. cbn -[u8 u32]. unfold al. cbn [eax].
      assert (Ea : u8 (a - u8 a + y) = y) by (rewrite <- (u8_byte y) at 1 by done; rewrite al_set; by apply u8_byte).
      rewrite Ea, (proj2 (Z.eqb_neq y 0)) by lia.
      eapply evals_step; [exact P2|]. cbn -[u8 u32].
      eapply evals_step; [exact P3|]. cbn -[u8 u32 store].
      assert (Est : store (u32 d) (a - u8 a + y) m = store d y m).
      { unfold store. rewrite u32_u32, Ea, (u8_byte y) by done. done. }
      rewrite Est, u32_add_l. eapply evals_step; [exact P4|]. destruct lim; cbn -[u8 u32 store]; [|exact H].
      specialize (Hn eq_refl). rewrite (u32_small (n - 1)) by lia. by destruct (n - 1 =? 0). }
    destruct Hend as (n1 & Hgo & Hl1 & Hl0).
    destruct (lim && (n - 1 =? 0)) eqn:Estop.
    + apply andb_true_iff in Estop as [El En]. apply Z.eqb_eq in En. rewrite El, En in Hgo. change (0 =? 0) with true in Hgo. cbv iota in Hgo.
      assert (Elim : limit n (y :: s) = [y]) by (unfold limit; rewrite El; replace (Z.to_nat n) with 1%nat by lia; by destruct s).
      rewrite Elim. eexists _, n1, _, false, false, (store d y m).
      split; [|split; [by apply store_mem|]].
      * intros x. rewrite <- put_cons by (done || lia). by rewrite put_nil.
      * intros c' H. apply Hgo. exact H.
    + destruct (IH (store d y m) (ps + 1) (d + 1) (a - u8 a + y) b n1 false false) as (a' & n' & x' & z' & k' & m' & Hm' & Hmm & E); try done.
      * by apply store_mem.
      * lia.
      * lia.
      * lia.
      * intros El. specialize (Hn El). rewrite (Hl1 El). rewrite El in Estop. simpl in Estop. lia.
      * assert (Elim : limit n (y :: s) = y :: limit n1 s).
        { unfold limit. destruct lim eqn:El; [|done]. rewrite (Hl1 eq_refl). specialize (Hn eq_refl).
          replace (Z.to_nat n) with (S (Z.to_nat (n - 1))) by lia. done. }
        exists a', n', x', z', k', m'. rewrite Elim, zlength_cons. split; [|split; [done|]].
        { intros x. rewrite Hm'. apply put_cons; [lia|done]. }
        intros c' H. apply Hgo. assert (Ei : (if lim then if n - 1 =? 0 then S (S (S (S (S i)))) else i else i) = i).
        { destruct lim; [|done]. simpl in Estop. by rewrite Estop. }
        rewrite Ei, (u32_small (ps + 1)) by (pose proof (cstr_range _ _ _ Hs); lia). apply E.
        replace (d + 1 + zlength (limit n1 s)) with (d + (zlength (limit n1 s) + 1)) by lia. exact H.
Qed.
End copies.

(** [strcpy] copies the characters and not the 0 that ends them. *)
Lemma strcpy_ok m ps d s a b n z k : is_mem m -> cstr m ps s -> 0 <= d < 2 ^ 32 -> d + zlength s <= 2 ^ 32 ->
  d + zlength s <= ps \/ ps + zlength s < d -> exists c', evals strcpy (start a b n ps d z k m) c' /\ forall x, mem c' x = put d s m x.
Proof.
  intros Hm Hs Hd Hr Hdis. destruct (copy_loop strcpy 0 false eq_refl eq_refl eq_refl eq_refl eq_refl s m ps d a b n z k)
    as (a' & n' & x' & z' & k' & m' & Hm' & _ & E); [done|done|lia|done|done|done|].
  exists (mkcpu a' b n' x' (u32 (d + zlength s)) z' k' false 5 m'). split; [|exact Hm']. rewrite (u32_small d) in E by lia. apply E. halt.
Qed.

(** [strncpy] copies at most [n] characters, and neither ends nor pads them. *)
Lemma strncpy_ok m ps d s a b n z k : is_mem m -> cstr m ps s -> 0 <= d < 2 ^ 32 -> d + zlength s <= 2 ^ 32 ->
  d + zlength s <= ps \/ ps + zlength s < d -> 0 < n < 2 ^ 32 -> exists c',
  evals strncpy (start a b n ps d z k m) c' /\ forall x, mem c' x = put d (take (Z.to_nat n) s) m x.
Proof.
  intros Hm Hs Hd Hr Hdis Hn. destruct (copy_loop strncpy 0 true eq_refl eq_refl eq_refl eq_refl eq_refl s m ps d a b n z k)
    as (a' & n' & x' & z' & k' & m' & Hm' & _ & E); [done|done|lia|done|done|done|].
  exists (mkcpu a' b n' x' (u32 (d + zlength (take (Z.to_nat n) s))) z' k' false 5 m'). split; [|exact Hm']. rewrite (u32_small d) in E by lia. apply E. halt.
Qed.

(** ** Searches *)

(** The address of the first [c] of the characters at [p], or 0. *)
Fixpoint find_char (c : Z) (s : list Z) (p : Z) : Z :=
  match s with [] => 0 | y :: s => if c =? y then p else find_char c s (p + 1) end.
(** The last one, or [acc]. *)
Fixpoint find_last (c : Z) (s : list Z) (p acc : Z) : Z :=
  match s with [] => acc | y :: s => find_last c s (p + 1) (if c =? y then p else acc) end.
Fixpoint prefix_of (t s : list Z) : bool :=
  match t, s with
  | [], _ => true
  | _, [] => false
  | a :: t, b :: s => (a =? b) && prefix_of t s
  end.
(** The address of the first occurrence of [t], which is never the end of [s]. *)
Fixpoint find_string (t s : list Z) (p : Z) : Z :=
  match s with [] => 0 | _ :: s' => if prefix_of t s then p else find_string t s' (p + 1) end.

Section searches.
Context (m : Z -> Z) (Hm : is_mem m).

Ltac rd_zero p E := unfold load; cbn [mem]; rewrite (u32_small p), E by lia.

Lemma strchr_ok s : forall p a b n x z k, cstr m p s -> exists c',
  evals strchr (mkcpu a b n x p z k false 0 m) c' /\ edi c' = find_char (u8 a) s p /\ mem c' = m.
Proof using Hm.
  induction s as [|y s IH]; intros p a b n x z k Hs; pose proof (cstr_range _ _ _ Hs) as Rs.
  - apply cstr_nil in Hs as [Es _]. eexists. split; [st; rd_zero p Es; st; st; halt|]. done.
  - apply cstr_cons in Hs as (Es & Hy & _ & Hs). pose proof (cstr_range _ _ _ Hs) as Rs'. cbn [find_char].
    assert (E0 : ((y - 0) mod 2 ^ 8 =? 0) = false) by (rewrite cmp8_zero by (unfold is_u8; lia); apply Z.eqb_neq; lia).
    assert (E1 : ((u8 a - y) mod 2 ^ 8 =? 0) = (u8 a =? y)) by (apply cmp8_zf; [apply u8_range|unfold is_u8; lia]).
    destruct (IH (p + 1) a b n x false (u8 a mod 2 ^ 8 <? y mod 2 ^ 8) Hs) as (c' & E & Hr & Hmem).
    destruct (Z.eqb_spec (u8 a) y) as [Ey|Hne].
    + eexists. split; [st; rd_zero p Es; rewrite E0; st; st; rd_zero p Es; unfold al; cbn [eax]; rewrite E1; st; st; st; halt|].
      split; [|done]. cbn [edi]. rewrite u32_sub_l. replace (p + 1 - 1) with p by lia. apply u32_small. lia.
    + exists c'. split; [|done]. st. rd_zero p Es. rewrite E0. st. st. rd_zero p Es. unfold al. cbn [eax]. rewrite E1, (u32_small (p + 1)) by lia. st. exact E.
Qed.

Lemma strrchr_loop s : forall p a b n acc z k, cstr m p s -> exists c',
  evals strrchr (mkcpu a b n acc p z k false 1 m) c' /\ esi c' = find_last (u8 a) s p acc /\ mem c' = m.
Proof using Hm.
  induction s as [|y s IH]; intros p a b n acc z k Hs; pose proof (cstr_range _ _ _ Hs) as Rs.
  - apply cstr_nil in Hs as [Es _]. eexists. split; [st; rd_zero p Es; st; halt|]. done.
  - apply cstr_cons in Hs as (Es & Hy & _ & Hs). pose proof (cstr_range _ _ _ Hs) as Rs'. cbn [find_last].
    assert (E0 : ((y - 0) mod 2 ^ 8 =? 0) = false) by (rewrite cmp8_zero by (unfold is_u8; lia); apply Z.eqb_neq; lia).
    assert (E1 : ((u8 a - y) mod 2 ^ 8 =? 0) = (u8 a =? y)) by (apply cmp8_zf; [apply u8_range|unfold is_u8; lia]).
    assert (Ep : u32 (p + 1 - 1) = p) by (replace (p + 1 - 1) with p by lia; apply u32_small; lia).
    destruct (IH (p + 1) a b n (if u8 a =? y then p else acc) (if u8 a =? y then p =? 0 else false) (u8 a mod 2 ^ 8 <? y mod 2 ^ 8) Hs) as (c' & E & Hr & Hmem).
    exists c'. split; [|done]. st. rd_zero p Es. rewrite E0. st. st. rd_zero p Es. unfold al. cbn [eax]. rewrite E1, (u32_small (p + 1)) by lia.
    destruct (u8 a =? y); st; [|exact E]. st. st. rewrite Ep. st. exact E.
Qed.

Lemma strrchr_ok s p a b n x z k : cstr m p s -> exists c',
  evals strrchr (start a b n x p z k m) c' /\ esi c' = find_last (u8 a) s p 0 /\ mem c' = m.
Proof using Hm. intros Hs. destruct (strrchr_loop s p a b n 0 true false Hs) as (c' & E & H). exists c'. split; [|done]. st. exact E. Qed.

(** One attempt of [strstr] ends the search or comes to the next position. *)
Lemma strstr_try t : forall s q r a bx cx z k, cstr m q s -> cstr m r t -> exists a' q' r' z' k',
  forall c', evals strstr (mkcpu a' bx cx r' q' z' k' false (if prefix_of t s then 14 else 11) m) c' ->
             evals strstr (mkcpu a bx cx r q z k false 6 m) c'.
Proof using Hm.
  induction t as [|x t IH]; intros s q r a bx cx z k Hs Ht; pose proof (cstr_range _ _ _ Hs) as Rs; pose proof (cstr_range _ _ _ Ht) as Rt.
  - apply cstr_nil in Ht as [Et _]. cbn [prefix_of]. eexists _, q, _, true, false. intros c' H. st. unfold al. cbn [eax]. rd_zero r Et.
    st. unfold al. cbn [eax]. rewrite al_set. st. exact H.
  - apply cstr_cons in Ht as (Et & Hx & _ & Ht). pose proof (cstr_range _ _ _ Ht) as Rt'. pose proof (hd_char m _ _ Hs) as Eh.
    assert (Ea : forall v, u8 (a - u8 a + x) = u8 v -> u8 v = x) by (intros v <-; rewrite <- (u8_byte x) at 1 by (unfold is_u8; lia); rewrite al_set; apply u8_byte; unfold is_u8; lia).
    specialize (Ea _ eq_refl).
    assert (Hgo : forall c', evals strstr (mkcpu (a - u8 a + x) bx cx (u32 (r + 1)) (u32 (q + 1)) (x =? hd 0 s) (x mod 2 ^ 8 <? hd 0 s mod 2 ^ 8) false 10 m) c' ->
      evals strstr (mkcpu a bx cx r q z k false 6 m) c').
    { intros c' H. st. unfold al. cbn [eax]. rd_zero r Et. rewrite (u8_byte x) by (unfold is_u8; lia).
      st. unfold al. cbn [eax]. rewrite Ea, (proj2 (Z.eqb_neq x 0)) by lia. st. st. rd_zero q Eh. unfold al. cbn [eax]. rewrite Ea.
      rewrite cmp8_zf by (unfold is_u8; rewrite <- ?Eh; try apply Hm; lia). exact H. }
    destruct s as [|y s].
    + cbn [hd prefix_of] in *. exists (a - u8 a + x), (u32 (q + 1)), (u32 (r + 1)), false, (x mod 2 ^ 8 <? 0 mod 2 ^ 8). intros c' H. apply Hgo.
      rewrite (proj2 (Z.eqb_neq x 0)) by lia. st. exact H.
    + apply cstr_cons in Hs as (Es & Hy & _ & Hs). pose proof (cstr_range _ _ _ Hs) as Rs'. cbn [hd prefix_of] in *. destruct (Z.eqb_spec x y) as [->|Hne]; cbn [andb].
      * destruct (IH s (q + 1) (r + 1) (a - u8 a + y) bx cx true (y mod 2 ^ 8 <? y mod 2 ^ 8) Hs Ht) as (a' & q' & r' & z' & k' & E).
        exists a', q', r', z', k'. intros c' H. apply Hgo. st. rewrite !u32_small by lia. by apply E.
      * exists (a - u8 a + x), (u32 (q + 1)), (u32 (r + 1)), false, (x mod 2 ^ 8 <? y mod 2 ^ 8). intros c' H. apply Hgo. st. exact H.
Qed.

Lemma strstr_loop t r : cstr m r t -> forall s p a x d z k, cstr m p s -> exists c',
  evals strstr (mkcpu a p r x d z k false 2 m) c' /\ ebx c' = find_string t s p /\ mem c' = m.
Proof using Hm.
  intros Ht. induction s as [|y s IH]; intros p a x d z k Hs; pose proof (cstr_range _ _ _ Hs) as Rs.
  - apply cstr_nil in Hs as [Es _]. eexists. split; [st; st; rd_zero p Es; st; st; halt|]. done.
  - pose proof Hs as Hs0. apply cstr_cons in Hs as (Es & Hy & _ & Hs). pose proof (cstr_range _ _ _ Hs) as Rs'.
    assert (E0 : ((y - 0) mod 2 ^ 8 =? 0) = false) by (rewrite cmp8_zero by (unfold is_u8; lia); apply Z.eqb_neq; lia).
    destruct (strstr_try t (y :: s) p r a p r false (y mod 2 ^ 8 <? 0 mod 2 ^ 8) Hs0 Ht) as (a' & q' & r' & z' & k' & E).
    change (find_string t (y :: s) p) with (if prefix_of t (y :: s) then p else find_string t s (p + 1)).
    destruct (prefix_of t (y :: s)).
    + eexists. split; [st; st; rd_zero p Es; rewrite E0; st; st; apply E; halt|]. done.
    + destruct (IH (p + 1) a' r' q' (p + 1 =? 0) k' Hs) as (c' & E' & Hr & Hmem). exists c'. split; [|done].
      st. st. rd_zero p Es. rewrite E0. st. st. apply E. st. rewrite (u32_small (p + 1)) by lia. st. exact E'.
Qed.

Lemma strstr_ok s t p r a b n z k : cstr m p s -> cstr m r t -> exists c',
  evals strstr (start a b n r p z k m) c' /\ ebx c' = find_string t s p /\ mem c' = m.
Proof using Hm. intros Hs Ht. destruct (strstr_loop t r Ht s p a r p z k Hs) as (c' & E & H). exists c'. split; [|done]. st. st. exact E. Qed.

(** Bytes that are not a string. *)
Lemma bytes_at_cons p x l : bytes_at m p (x :: l) <-> m p = x /\ bytes_at m (p + 1) l.
Proof.
  split.
  - intros H. split; [rewrite <- (Z.add_0_r p); exact (H 0%nat x eq_refl)|]. intros i y Hi. rewrite <- (H (S i) y Hi). f_equal. lia.
  - intros [E H] [|i] y Hi; [injection Hi as <-; by rewrite Z.add_0_r|]. rewrite <- (H i y Hi). f_equal. lia.
Qed.

Lemma memchr_loop l : forall p a b x z k, bytes_at m p l -> 0 <= p -> p + zlength l < 2 ^ 32 -> l <> [] -> exists c',
  evals memchr (mkcpu a b (zlength l) x p z k false 0 m) c' /\ edi c' = find_char (u8 a) l p /\ mem c' = m.
Proof using Hm.
  induction l as [|y l IH]; intros p a b x z k Hb Hp Hr Hne; [done|]. apply bytes_at_cons in Hb as [Ey Hb].
  rewrite zlength_cons in *. pose proof (zlength_nonneg l). pose proof (Hm p) as Hpm. rewrite Ey in Hpm.
  assert (E1 : ((u8 a - y) mod 2 ^ 8 =? 0) = (u8 a =? y)) by (apply cmp8_zf; [apply u8_range|done]).
  assert (Ep : u32 (p + 1 - 1) = p) by (replace (p + 1 - 1) with p by lia; apply u32_small; lia). cbn [find_char].
  assert (Hgo : forall c', evals memchr (mkcpu a b (zlength l) x (p + 1) (u8 a =? y) (u8 a mod 2 ^ 8 <? y mod 2 ^ 8) false (if u8 a =? y then 1 else 0) m) c' ->
    evals memchr (mkcpu a b (zlength l + 1) x p z k false 0 m) c').
  { intros c' Hc. eapply evals_step; [reflexivity|]. cbn [exec ecx]. rewrite (proj2 (Z.eqb_neq _ _)) by lia.
    cbn -[u8 u32 Z.add Z.sub Z.modulo Z.eqb Z.ltb Z.pow]. rd_zero p Ey. unfold al. cbn [eax]. rewrite E1, (u32_small (p + 1)), (u32_small (zlength l + 1 - 1)) by lia.
    replace (zlength l + 1 - 1) with (zlength l) by lia. by destruct (u8 a =? y). }
  destruct (Z.eqb_spec (u8 a) y) as [Ea|Hna].
  - eexists. split; [apply Hgo; st; st; halt|]. split; [|done]. cbn [edi]. exact Ep.
  - destruct (decide (l = [])) as [->|Hl].
    + eexists. split; [apply Hgo; st; st; st; st; halt|]. done.
    + destruct (IH (p + 1) a b x false (u8 a mod 2 ^ 8 <? y mod 2 ^ 8) Hb) as (c' & E & Hres & Hmem); [lia|lia|done|].
      exists c'. split; [|done]. apply Hgo. exact E.
Qed.

(** [memcmp] gives the difference of two bytes as an unsigned byte. *)
Fixpoint memcmp_ref (l l' : list Z) : Z :=
  match l, l' with
  | a :: l, b :: l' => if (a =? b) && negb (bool_decide (l = [])) then memcmp_ref l l' else u8 (a - b)
  | _, _ => 0
  end.

Lemma memcmp_loop l : forall l' p q a b z k, bytes_at m p l -> bytes_at m q l' -> length l = length l' -> l <> [] ->
  0 <= p -> p + zlength l < 2 ^ 32 -> 0 <= q -> q + zlength l < 2 ^ 32 -> exists c',
  evals memcmp (mkcpu a b (zlength l) q p z k false 0 m) c' /\ eax c' = memcmp_ref l l' /\ mem c' = m.
Proof using Hm.
  induction l as [|x l IH]; intros l' p q a b z k Hp Hq Hlen Hne R1 R2 R3 R4; [done|]. destruct l' as [|y l']; [done|].
  apply bytes_at_cons in Hp as [Ex Hp]. apply bytes_at_cons in Hq as [Ey Hq]. rewrite zlength_cons in *. pose proof (zlength_nonneg l).
  pose proof (Hm p) as Hx. rewrite Ex in Hx. pose proof (Hm q) as Hy. rewrite Ey in Hy. cbn [memcmp_ref]. injection Hlen as Hlen.
  assert (E1 : ((y - x) mod 2 ^ 8 =? 0) = (x =? y)) by (rewrite cmp8_zf by done; apply Z.eqb_sym).
  assert (Hgo : forall c', evals memcmp (mkcpu a b (zlength l) (q + 1) (p + 1) (x =? y) (y mod 2 ^ 8 <? x mod 2 ^ 8) false (if x =? y then 0 else 1) m) c' ->
    evals memcmp (mkcpu a b (zlength l + 1) q p z k false 0 m) c').
  { intros c' Hc. eapply evals_step; [reflexivity|]. cbn [exec ecx]. rewrite (proj2 (Z.eqb_neq _ _)) by lia.
    cbn -[u8 u32 Z.add Z.sub Z.modulo Z.eqb Z.ltb Z.pow]. unfold load. cbn [mem]. rewrite (u32_small p), (u32_small q), Ex, Ey, E1 by lia.
    rewrite (u32_small (p + 1)), (u32_small (q + 1)), (u32_small (zlength l + 1 - 1)) by lia.
    replace (zlength l + 1 - 1) with (zlength l) by lia. by destruct (x =? y). }
  assert (Hend : forall z' k', exists c', evals memcmp (mkcpu a b (zlength l) (q + 1) (p + 1) z' k' false 1 m) c' /\ eax c' = u8 (x - y) /\ mem c' = m).
  { intros z' k'. eexists. split; [st; st; st; halt|]. split; [|done]. cbn [eax]. unfold al, load. cbn [eax mem].
    replace (p + 1 + -1) with p by lia. replace (q + 1 + -1) with q by lia. rewrite (u32_small p), (u32_small q), Ex, Ey by lia.
    change (u8 0) with 0. rewrite Z.sub_0_r, Z.add_0_l, (u8_byte (u8 x)) by apply u8_range. rewrite (u8_byte x) by done. lia. }
  destruct ((x =? y) && negb (bool_decide (l = []))) eqn:Hc.
  - apply andb_true_iff in Hc as [Exy Hl]. apply negb_true_iff, bool_decide_eq_false in Hl.
    destruct (IH l' (p + 1) (q + 1) a b true (y mod 2 ^ 8 <? x mod 2 ^ 8) Hp Hq) as (c' & E & Hres & Hmem); [lia|done|lia..|].
    exists c'. split; [|done]. apply Hgo. rewrite Exy. exact E.
  - destruct (Hend (x =? y) (y mod 2 ^ 8 <? x mod 2 ^ 8)) as (c' & E & Hres & Hmem). exists c'. split; [|done]. apply Hgo.
    destruct (x =? y); [|exact E]. simpl in Hc. apply negb_false_iff, bool_decide_eq_true in Hc. rewrite Hc in *. change (zlength []) with 0 in *.
    eapply evals_step; [reflexivity|]. cbn -[u8 u32 Z.add Z.sub Z.modulo Z.eqb Z.ltb Z.pow]. exact E.
Qed.
End searches.

(** ** Concatenation *)

Lemma put_snoc d s y m x : 0 <= d -> d + zlength s < 2 ^ 32 -> is_u8 y -> store (d + zlength s) y (put d s m) x = put d (s ++ [y]) m x.
Proof.
  intros Hd Hr Hy. pose proof (zlength_nonneg s). rewrite store_eq, u8_byte by (done || lia). unfold put. rewrite zlength_app.
  change (zlength [y]) with 1. destruct (Z.eqb_spec x (d + zlength s)) as [->|Hne].
  - rewrite (proj2 (Z.leb_le _ _)), (proj2 (Z.ltb_lt _ _)) by lia. cbn [andb].
    replace (Z.to_nat (d + zlength s - d)) with (length s) by (unfold zlength; lia). by rewrite list_lookup_middle.
  - destruct (Z.leb_spec d x); cbn [andb]; [|done].
    destruct (Z.ltb_spec x (d + zlength s)), (Z.ltb_spec x (d + (zlength s + 1))); try lia.
    rewrite lookup_app_l by (unfold zlength in *; lia). done.
Qed.

Section concat.
Context (p : list instr) (lim : bool).
Hypothesis Hp : p = if lim then strncat else strcat.

Lemma scan_to_end m (Hm : is_mem m) t : forall d a b n x z k, cstr m d t -> u8 a = 0 -> exists a' z' k', forall c',
  evals p (mkcpu a' b n x (u32 (d + zlength t)) z' k' false 4 m) c' -> evals p (mkcpu a b n x d z k false 1 m) c'.
Proof using Hp.
  induction t as [|y t IH]; intros d a b n x z k Ht Ha; pose proof (cstr_range _ _ _ Ht) as Rt.
  - apply cstr_nil in Ht as [Et _]. exists a, (u32 (d + 1 - 1) =? 0), (0 mod 2 ^ 8 <? 0 mod 2 ^ 8). intros c' H. change (zlength []) with 0 in H.
    replace (d + 1 - 1) with (d + 0) in * by lia.
    destruct lim; rewrite Hp in *; st; unfold load, al; cbn [mem eax]; rewrite Ha, (u32_small d), Et by lia; change ((0 - 0) mod 2 ^ 8 =? 0) with true; st; st;
      rewrite u32_sub_l; replace (d + 1 - 1) with (d + 0) by lia; exact H.
  - apply cstr_cons in Ht as (Et & Hy & _ & Ht). pose proof (cstr_range _ _ _ Ht) as Rt'. rewrite zlength_cons.
    destruct (IH (d + 1) a b n x false (0 mod 2 ^ 8 <? y mod 2 ^ 8) Ht Ha) as (a' & z' & k' & E).
    exists a', z', k'. intros c' H. replace (d + (zlength t + 1)) with (d + 1 + zlength t) in H by lia. apply E in H.
    assert (E0 : ((0 - y) mod 2 ^ 8 =? 0) = false) by (rewrite cmp8_zf by (unfold is_u8; lia); apply Z.eqb_neq; lia).
    destruct lim; rewrite Hp in *; st; unfold load, al; cbn [mem eax]; rewrite Ha, (u32_small d), Et, E0, (u32_small (d + 1)) by lia; st; exact H.
Qed.

Lemma concat_ok m ps d s t a b n z k : is_mem m -> cstr m ps s -> cstr m d t -> d + zlength t + zlength s < 2 ^ 32 ->
  d + zlength t + zlength s < ps \/ ps + zlength s < d + zlength t -> (lim = true -> 0 < n < 2 ^ 32) -> exists c',
  evals p (start a b n ps d z k m) c' /\ forall x, mem c' x = put (d + zlength t) (limit lim n s ++ [0]) m x.
Proof using Hp.
  intros Hm Hs Ht Hr Hdis Hn. pose proof (zlength_nonneg s). pose proof (zlength_nonneg t). pose proof (cstr_range _ _ _ Ht) as Rt.
  set (a0 := a - u8 a + u8 0). assert (Ha0 : u8 a0 = 0) by (unfold a0; by rewrite al_set).
  destruct (scan_to_end m Hm t d a0 b n ps true false Ht Ha0) as (a1 & z1 & k1 & E1).
  destruct (copy_loop p 4 lim) with (s := s) (m := m) (ps := ps) (d := d + zlength t) (a := a1) (b := b) (n := n) (z := z1) (k := k1)
    as (a' & n' & x' & z' & k' & m' & Hm' & _ & E); try done; try lia; try (destruct lim; by rewrite Hp).
  set (e := u32 (d + zlength t + zlength (limit lim n s))). exists (mkcpu a' b n' x' e z' k' false 10 (store e 0 m')). split.
  - unfold start. assert (Hx : forall c', evals p (mkcpu a0 b n ps d true false false 1 m) c' -> evals p (mkcpu a b n ps d z k false 0 m) c').
    { intros c' Hc. destruct lim; rewrite Hp in *; st; exact Hc. }
    apply Hx, E1, E. fold e. destruct lim; rewrite Hp in *; st; halt.
  - intros x. cbn [mem]. assert (Hl : zlength (limit lim n s) <= zlength s).
    { unfold limit. destruct lim; [|lia]. unfold zlength. rewrite length_take. lia. }
    pose proof (zlength_nonneg (limit lim n s)). assert (Ee : e = d + zlength t + zlength (limit lim n s)) by (apply u32_small; lia).
    rewrite Ee, <- put_snoc by (unfold is_u8; lia). unfold store. by rewrite Hm'.
Qed.
End concat.

(** ** Memory for the witnesses *)

Definition ex_mem (l : list Z) : Z -> Z := put 4096 l (fun _ => 170).

Lemma ex_mem_ok l : Forall is_u8 l -> is_mem (ex_mem l).
Proof.
  intros Hl x. unfold ex_mem, put. destruct (_ && _); [|unfold is_u8; lia].
  destruct (l !! Z.to_nat (x - 4096)) eqn:E; simpl; [|unfold is_u8; lia]. by eapply Forall_lookup_1.
Qed.

(** A decision procedure for strings in a concrete memory. *)
Fixpoint cstr_b (m : Z -> Z) (p : Z) (s : list Z) : bool :=
  match s with
  | [] => (m p =? 0) && (0 <=? p) && (p <? 2 ^ 32)
  | x :: s => (m p =? x) && (0 <? x) && (x <? 256) && (0 <=? p) && cstr_b m (p + 1) s
  end.
Lemma cstr_b_ok m s : forall p, cstr_b m p s = true -> cstr m p s.
Proof.
  induction s as [|x s IH]; intros p; cbn [cstr_b]; rewrite ?andb_true_iff.
  - intros [[E1 E2] E3]. apply cstr_nil. lia.
  - intros [[[[E1 E2] E3] E4] E5]. apply cstr_cons. split; [lia|]. split; [lia|]. split; [lia|]. by apply IH.
Qed.

Definition ex_strings : Z -> Z := ex_mem [97; 98; 99; 0; 97; 98; 100; 0; 98; 99; 0].
Lemma ex_strings_ok : is_mem ex_strings.
Proof. apply ex_mem_ok. repeat constructor; unfold is_u8; lia. Qed.

(** ** Properties *)

(** C32: [memmove] ends, with the direction flag clear again, and leaves at the
    destination the bytes the source held before, for every overlap; [memcpy]
    does the same where the destination does not start inside the source, and
    the fills store the little-endian bytes of their value. *)
Theorem memory_functions_exact a b n s d z k m : is_mem m -> 0 <= n < 2 ^ 32 -> 0 <= s < 2 ^ 32 /\ s + n <= 2 ^ 32 -> 0 <= d < 2 ^ 32 /\ d + n <= 2 ^ 32 ->
  has_moved memmove n s d (start a b n s d z k m) /\
  (d <= s \/ s + n <= d -> has_moved memcpy n s d (start a b n s d z k m)) /\
  (exists c', evals memset (start a b n s d z k m) c' /\ forall x, mem c' x = filled 1 m d a n x) /\
  (d + n * 2 <= 2 ^ 32 -> exists c', evals memsetw (start a b n s d z k m) c' /\ forall x, mem c' x = filled 2 m d a n x) /\
  (d + n * 4 <= 2 ^ 32 -> exists c', evals memsetl (start a b n s d z k m) c' /\ forall x, mem c' x = filled 4 m d a n x).
Proof.
  intros Hm Hn Hs Hd. split; [by apply memmove_ok|]. split; [by apply memcpy_ok|].
  split; [|split; intros H]; apply memset_ok; lia.
Qed.

(** [strcmp] ends with 0 for equal strings and for no others, and with the
    sign of the dictionary order for strings of 7-bit characters; [strncmp] does
    the same with the first [n] characters, for [n] from 1 on.  The sign is wrong
    for the characters 1 and 200. *)
Theorem string_comparisons_exact m s t ps pt a b n z k : is_mem m -> cstr m ps s -> cstr m pt t -> 0 < n < 2 ^ 32 ->
  let num := Z.to_nat n in
  (exists c' r, evals strcmp (start a b n pt ps z k m) c' /\ mem c' = m /\ eax c' = u32 r /\
     (r = 0 <-> s = t) /\ (ascii s -> ascii t -> (r <? 0) = lex_lt s t)) /\
  (exists c' r, evals strncmp (start a b n pt ps z k m) c' /\ mem c' = m /\ eax c' = u32 r /\
     (r = 0 <-> take num s = take num t) /\ (ascii s -> ascii t -> (r <? 0) = lex_lt (take num s) (take num t))) /\
  lex_lt [1] [200] = true /\ cmp_ref [1] [200] = 57.
Proof.
  intros Hm Hs Ht Hn num. split; [|split; [|done]].
  - destruct (strcmp_loop m Hm s t ps pt b n true false Hs Ht ltac:(lia)) as (c' & E & Hr & Hmem). exists c', (cmp_ref s t).
    split; [st; exact E|]. split; [done|]. split; [done|]. split; [|by apply cmp_ref_ascii]. apply cmp_ref_zero; [apply Hs|apply Ht].
  - destruct num as [|num'] eqn:En; [lia|]. assert (En' : n = Z.of_nat (S num')) by lia.
    destruct (strncmp_loop m Hm num' b ltac:(lia) s t ps pt true false Hs Ht) as (c' & E & Hr & Hmem). exists c', (cmp_ref (take (S num') s) (take (S num') t)).
    split; [st; rewrite En'; exact E|]. split; [done|]. split; [done|].
    split; [apply cmp_ref_zero; apply Forall_take; [apply Hs|apply Ht]|]. intros. by apply cmp_ref_ascii; apply Forall_take.
Qed.

(** the searches return the address of what they look for, or 0, and the
    length of a string is counted up to its end. *)
Theorem string_searches_exact m s t p q a b n x z k : is_mem m -> cstr m p s -> cstr m q t -> zlength s < 2 ^ 32 - 1 ->
  (exists c', evals strlen (start 0 b (2 ^ 32 - 1) x p z k m) c' /\ ecx c' = zlength s /\ mem c' = m) /\
  (exists c', evals strchr (start a b n x p z k m) c' /\ edi c' = find_char (u8 a) s p /\ mem c' = m) /\
  (exists c', evals strrchr (start a b n x p z k m) c' /\ esi c' = find_last (u8 a) s p 0 /\ mem c' = m) /\
  (exists c', evals strstr (start a b n q p z k m) c' /\ ebx c' = find_string t s p /\ mem c' = m).
Proof.
  intros Hm Hs Ht Hl. split; [by apply strlen_ok|]. split; [by apply strchr_ok|]. split; [by apply strrchr_ok|]. by apply strstr_ok.
Qed.

(** [strcpy] copies the characters of its source but not the 0 that ends it,
    so a destination that held a longer string keeps that string's tail;
    [strcat] does end its result. *)
Theorem strcpy_unterminated m s old ps d a b n z k : is_mem m -> cstr m ps s -> cstr m d old -> zlength s <= zlength old ->
  d + zlength old < ps \/ ps + zlength s < d -> exists c',
  evals strcpy (start a b n ps d z k m) c' /\ cstr (mem c') d (s ++ drop (length s) old).
Proof.
  intros Hm Hs Ho Hl Hdis. pose proof (cs_range _ _ _ Ho) as Ro. pose proof (zlength_nonneg s).
  destruct (strcpy_ok m ps d s a b n z k Hm Hs) as (c' & E & Hmem); [lia|lia|lia|]. exists c'. split; [exact E|].
  assert (Hlen : zlength (s ++ drop (length s) old) = zlength old) by (unfold zlength in *; rewrite length_app, length_drop; lia).
  constructor; [|rewrite Hlen, Hmem; unfold put; rewrite (proj2 (Z.ltb_ge _ _)), andb_false_r by lia; apply (cs_end _ _ _ Ho)| |rewrite Hlen; apply (cs_range _ _ _ Ho)].
  - intros i x Hi. rewrite Hmem. unfold put. destruct (decide (i < length s)%nat) as [Hlt|Hge].
    + rewrite lookup_app_l in Hi by done. rewrite (proj2 (Z.leb_le _ _)), (proj2 (Z.ltb_lt _ _)) by (unfold zlength; lia). cbn [andb].
      replace (Z.to_nat (d + Z.of_nat i - d)) with i by lia. by rewrite Hi.
    + rewrite lookup_app_r, lookup_drop in Hi by lia. rewrite (proj2 (Z.ltb_ge _ _)), andb_false_r by (unfold zlength; lia).
      apply (cs_bytes _ _ _ Ho). rewrite <- Hi. f_equal. lia.
  - apply Forall_app. split; [apply Hs|]. apply Forall_drop, Ho.
Qed.

Lemma memory_functions_exact_witness :
  has_moved memmove 3 4096 4097 (start 0 0 3 4096 4097 true false ex_strings) /\
  (mem <$> run 20 memmove (start 0 0 3 4096 4097 true false ex_strings)) ≫= (fun m => Some (m <$> [4096; 4097; 4098; 4099; 4100])) = Some [97; 97; 98; 99; 97].
Proof.
  split; [|vm_compute; reflexivity].
  apply (memory_functions_exact 0 0 3 4096 4097 true false ex_strings ex_strings_ok); lia.
Defined.

Lemma string_comparisons_exact_witness :
  (eax <$> run 20 strcmp (start 0 0 2 4100 4096 true false ex_strings)) = Some (2 ^ 32 - 1) /\
  (eax <$> run 20 strncmp (start 0 0 2 4100 4096 true false ex_strings)) = Some 0 /\
  exists c' r, evals strcmp (start 0 0 2 4100 4096 true false ex_strings) c' /\ eax c' = u32 r /\ (r = 0 <-> [97; 98; 99] = [97; 98; 100]).
Proof.
  split; [vm_compute; reflexivity|]. split; [vm_compute; reflexivity|].
  destruct (string_comparisons_exact ex_strings [97; 98; 99] [97; 98; 100] 4096 4100 0 0 2 true false ex_strings_ok) as ((c' & r & H1 & _ & H2 & H3 & _) & _).
  - apply cstr_b_ok. vm_compute. reflexivity.
  - apply cstr_b_ok. vm_compute. reflexivity.
  - lia.
  - exists c', r. split; [exact H1|]. split; [exact H2|exact H3].
Defined.

Lemma string_searches_exact_witness :
  (ebx <$> run 60 strstr (start 0 0 0 4104 4096 true false ex_strings)) = Some 4097 /\
  exists c', evals strlen (start 0 0 (2 ^ 32 - 1) 4104 4096 true false ex_strings) c' /\ ecx c' = 3.
Proof.
  split; [vm_compute; reflexivity|].
  destruct (string_searches_exact ex_strings [97; 98; 99] [98; 99] 4096 4104 0 0 0 4104 true false ex_strings_ok) as ((c' & H1 & H2 & _) & _).
  - apply cstr_b_ok. vm_compute. reflexivity.
  - apply cstr_b_ok. vm_compute. reflexivity.
  - vm_compute. reflexivity.
  - exists c'. split; [exact H1|exact H2].
Defined.

Lemma strcpy_unterminated_witness : exists c',
  evals strcpy (start 0 0 0 4104 4096 true false ex_strings) c' /\ cstr (mem c') 4096 [98; 99; 99].
Proof.
  destruct (strcpy_unterminated ex_strings [98; 99] [97; 98; 99] 4104 4096 0 0 0 true false ex_strings_ok) as (c' & H1 & H2).
  - apply cstr_b_ok. vm_compute. reflexivity.
  - apply cstr_b_ok. vm_compute. reflexivity.
  - vm_compute. discriminate.
  - left. vm_compute. reflexivity.
  - exists c'. split; [exact H1|exact H2].
Defined.

End Str.
