(* ===== verification/Crc32.v ===== *)
(** * CRC-32 ([lib/crc32.c])

    The reflected CRC-32 that protects GPT metadata, with the two facts its
    users rely on: it can be computed piecewise, and it separates any two
    buffers that differ in a single byte. *)
From S2P Require Import Prelude.

Module Crc32.

Definition POLY : Z := 0xedb88320.

(** [~x] on [uint32_t]. *)
Definition not32 (x : Z) : Z := Z.lxor x (Z.ones 32).

(** One round of the inner loop:
    [crc = (crc >> 1) ^ (0xedb88320 & (0 - (crc & 1)))]. *)
Definition crc_bit (crc : Z) : Z :=
  Z.lxor (Z.shiftr crc 1) (Z.land POLY (u32 (0 - Z.land crc 1))).

(** The body of the outer loop: mix in a byte, then eight rounds. *)
Definition crc_byte (crc b : Z) : Z := Nat.iter 8 crc_bit (Z.lxor crc b).

Definition crc32 (crc : Z) (buf : list Z) : Z :=
  not32 (foldl crc_byte (not32 crc) buf).

Example crc32_check : crc32 0 [49;50;51;52;53;54;55;56;57] = 0xcbf43926.
Proof. vm_compute. reflexivity. Qed.

(** ** Range *)

Lemma lxor_range x y n : 0 <= n -> 0 <= x < 2 ^ n -> 0 <= y < 2 ^ n -> 0 <= Z.lxor x y < 2 ^ n.
Proof.
  intros Hn Hx Hy. split; [apply Z.lxor_nonneg; lia|].
  destruct (Z.eq_dec (Z.lxor x y) 0) as [->|Hz]; [apply Z.pow_pos_nonneg; lia|].
  apply Z.log2_lt_pow2; [pose proof (proj2 (Z.lxor_nonneg x y)); lia|].
  pose proof (Z.log2_lxor x y ltac:(lia) ltac:(lia)) as Hl.
  assert (Hb : forall z, 0 <= z < 2 ^ n -> z = 0 \/ Z.log2 z < n).
  { intros z Hz'. destruct (Z.eq_dec z 0); [by left|right]. apply Z.log2_lt_pow2; lia. }
  assert (0 < n \/ n = 0) as [Hpos| ->] by lia.
  - destruct (Hb x Hx) as [->|], (Hb y Hy) as [->|]; simpl in *; lia.
  - assert (x = 0) by lia. assert (y = 0) by lia. subst. done.
Qed.

Lemma not32_range x : is_u32 x -> is_u32 (not32 x).
Proof. intros H. apply lxor_range; [lia|done|]. change (Z.ones 32) with 4294967295. lia. Qed.

Lemma not32_involutive x : not32 (not32 x) = x.
Proof. unfold not32. by rewrite Z.lxor_assoc, Z.lxor_nilpotent, Z.lxor_0_r. Qed.

(** The mask [0 - (crc & 1)] selects the polynomial when the low bit is set. *)
Lemma crc_bit_odd crc : crc_bit crc = Z.lxor (Z.shiftr crc 1) (if Z.odd crc then POLY else 0).
Proof.
  unfold crc_bit. change (Z.land crc 1) with (Z.land crc (Z.ones 1)).
  rewrite Z.land_ones by lia.
  change (2 ^ 1) with 2. rewrite Zmod_odd. by destruct (Z.odd crc).
Qed.

Lemma crc_bit_range x : is_u32 x -> is_u32 (crc_bit x).
Proof.
  intros H. rewrite crc_bit_odd. unfold is_u32 in *. apply lxor_range; [lia| |].
  - rewrite Z.shiftr_div_pow2 by lia. change (2 ^ 1) with 2.
    split; [apply Z.div_pos; lia|]. apply Z.div_lt_upper_bound; lia.
  - destruct (Z.odd x); unfold POLY; lia.
Qed.

(** Two values below [2^31] never differ by the polynomial, whose top bit is
    set, so a round loses nothing. *)
Lemma crc_bit_inj x y : is_u32 x -> is_u32 y -> crc_bit x = crc_bit y -> x = y.
Proof.
  intros Hx Hy. rewrite !crc_bit_odd. intros E.
  assert (Ht : forall z, is_u32 z -> Z.testbit (Z.shiftr z 1) 31 = false).
  { intros z Hz. rewrite Z.shiftr_spec by lia. apply Z.testbit_false; [lia|].
    rewrite Z.div_small by (unfold is_u32 in Hz; lia). done. }
  assert (Ho : Z.odd x = Z.odd y).
  { apply (f_equal (fun z => Z.testbit z 31)) in E.
    rewrite !Z.lxor_spec, !Ht in E by done.
    by destruct (Z.odd x), (Z.odd y). }
  rewrite Ho in E. apply (f_equal (fun z => Z.lxor z (if Z.odd y then POLY else 0))) in E.
  rewrite !Z.lxor_assoc, !Z.lxor_nilpotent, !Z.lxor_0_r in E.
  rewrite !Z.shiftr_div_pow2 in E by lia. change (2 ^ 1) with 2 in E.
  rewrite <- !Z.div2_div in E. pose proof (Zdiv2_odd_eqn x). pose proof (Zdiv2_odd_eqn y).
  rewrite Ho in *. lia.
Qed.

Lemma crc_bits_range n x : is_u32 x -> is_u32 (Nat.iter n crc_bit x).
Proof. intros H. induction n; simpl; [done|by apply crc_bit_range]. Qed.

Lemma crc_bits_inj n x y : is_u32 x -> is_u32 y ->
  Nat.iter n crc_bit x = Nat.iter n crc_bit y -> x = y.
Proof.
  intros Hx Hy. induction n as [|n IH]; simpl; [done|]. intros E.
  apply IH, crc_bit_inj; [by apply crc_bits_range..|done].
Qed.

Lemma crc_mix_range crc b : is_u32 crc -> is_u8 b -> is_u32 (Z.lxor crc b).
Proof. unfold is_u32, is_u8. intros. apply lxor_range; lia. Qed.

Lemma crc_byte_eq crc b : crc_byte crc b = Nat.iter 8 crc_bit (Z.lxor crc b).
Proof. reflexivity. Qed.

Lemma crc_byte_range crc b : is_u32 crc -> is_u8 b -> is_u32 (crc_byte crc b).
Proof. intros. by apply crc_bits_range, crc_mix_range. Qed.

Lemma crc_byte_inj_state c1 c2 b : is_u32 c1 -> is_u32 c2 -> is_u8 b ->
  crc_byte c1 b = crc_byte c2 b -> c1 = c2.
Proof.
  intros ?? Hb E. rewrite !crc_byte_eq in E. apply crc_bits_inj in E; [|by apply crc_mix_range..].
  apply (f_equal (fun z => Z.lxor z b)) in E.
  by rewrite !Z.lxor_assoc, !Z.lxor_nilpotent, !Z.lxor_0_r in E.
Qed.

Lemma crc_byte_inj_byte c a b : is_u32 c -> is_u8 a -> is_u8 b ->
  crc_byte c a = crc_byte c b -> a = b.
Proof.
  intros ??? E. rewrite !crc_byte_eq in E. apply crc_bits_inj in E; [|by apply crc_mix_range..].
  apply (f_equal (Z.lxor c)) in E.
  by rewrite <- !Z.lxor_assoc, !Z.lxor_nilpotent, !Z.lxor_0_l in E.
Qed.

Lemma crc_fold_range l c : is_u32 c -> Forall is_u8 l -> is_u32 (foldl crc_byte c l).
Proof.
  intros Hc Hl. revert c Hc. induction Hl; intros c Hc; simpl; [done|].
  apply IHHl. by apply crc_byte_range.
Qed.

Lemma crc_fold_inj l c1 c2 : is_u32 c1 -> is_u32 c2 -> Forall is_u8 l ->
  foldl crc_byte c1 l = foldl crc_byte c2 l -> c1 = c2.
Proof.
  intros H1 H2 Hl. revert c1 c2 H1 H2. induction Hl; intros c1 c2 H1 H2 E; simpl in *; [done|].
  apply IHHl in E; [|by apply crc_byte_range..]. by apply crc_byte_inj_state in E.
Qed.

Lemma crc32_range c l : is_u32 c -> Forall is_u8 l -> is_u32 (crc32 c l).
Proof. intros. by apply not32_range, crc_fold_range; [apply not32_range|]. Qed.

(** Two buffers that differ in one byte have different checksums. *)
Lemma crc32_one_byte c l1 a b l2 :
  is_u32 c -> Forall is_u8 l1 -> Forall is_u8 l2 -> is_u8 a -> is_u8 b ->
  crc32 c (l1 ++ a :: l2) = crc32 c (l1 ++ b :: l2) -> a = b.
Proof.
  intros Hc H1 H2 Ha Hb E. unfold crc32 in E.
  apply (f_equal not32) in E. rewrite !not32_involutive, !foldl_app in E. simpl in E.
  assert (is_u32 (foldl crc_byte (not32 c) l1)) by (apply crc_fold_range; [by apply not32_range|done]).
  apply crc_fold_inj in E; [|by apply crc_byte_range..|done].
  by apply crc_byte_inj_byte in E.
Qed.

(** the checksum of a buffer can be computed piece by piece, feeding the
    checksum so far to the next call, and it stays a 32-bit value. *)
Theorem crc32_incremental c l1 l2 :
  is_u32 c -> Forall is_u8 l1 -> Forall is_u8 l2 ->
  crc32 (crc32 c l1) l2 = crc32 c (l1 ++ l2) /\ is_u32 (crc32 c (l1 ++ l2)).
Proof.
  intros. split; [|by apply crc32_range; [|apply Forall_app]].
  unfold crc32. by rewrite not32_involutive, foldl_app.
Qed.

Lemma crc32_incremental_witness :
  crc32 (crc32 0 [49;50;51]) [52;53] = crc32 0 ([49;50;51] ++ [52;53]) /\
  is_u32 (crc32 0 ([49;50;51] ++ [52;53])).
Proof.
  apply (crc32_incremental 0 [49;50;51] [52;53]); repeat constructor; done.
Defined.

End Crc32.
