(* ===== verification/Gpt.v ===== *)
(** * GUID partition tables ([fs/block/gpt.c], [include/fs/gpt.h])

    Header validation, the primary/backup choice and the partition entry array.
    The block driver's [read_sectors] callback is a parameter: it returns the
    bytes of [nr] sectors, or [None] for a non-zero return value. *)
From S2P Require Import Prelude Crc32.
Import Crc32.

Module Gpt.

Definition GPT_SECTOR_SIZE : Z := 512.
Definition GPT_MAX_PARTITION_ENTRIES : Z := 256.
Definition GPT_MAX_ENTRY_SIZE : Z := 4096.

Definition read_le32 (p : list Z) (off : Z) : Z := le32 p off.
Definition read_le64 (p : list Z) (off : Z) : Z := le64 p off.

(** [struct gpt_header_info]. *)
Record gpt_header_info := mkhdr {
  header_size : Z;
  header_crc : Z;
  current_lba : Z;
  backup_lba : Z;
  first_usable_lba : Z;
  last_usable_lba : Z;
  entries_lba : Z;
  num_entries : Z;
  entry_size : Z;
  entries_crc : Z;
}.

(** "EFI PART" *)
Definition signature : list Z := [69;70;73;32;80;65;82;84].

Definition decode_header (sector : list Z) : gpt_header_info :=
  mkhdr (read_le32 sector 12) (read_le32 sector 16) (read_le64 sector 24)
        (read_le64 sector 32) (read_le64 sector 40) (read_le64 sector 48)
        (read_le64 sector 72) (read_le32 sector 80) (read_le32 sector 84)
        (read_le32 sector 88).

Definition entries_bytes (h : gpt_header_info) : Z := u64 (num_entries h * entry_size h).
Definition entries_sectors (h : gpt_header_info) : Z :=
  u64 (entries_bytes h + GPT_SECTOR_SIZE - 1) / GPT_SECTOR_SIZE.

(** The header with its CRC field zeroed: [memcpy] and [memset (header + 16, 0, 4)]. *)
Definition zero_crc_field (header : list Z) : list Z := memcpy_at header 16 [0;0;0;0] 4.

(** [gpt_parse_header]: [inl] is the error returned, [inr] the header. *)
Definition gpt_parse_header (sector : list Z) (header_lba disk_sectors : Z)
  : Z + gpt_header_info :=
  if negb (bool_decide (take 8 sector = signature)) then inl (- EINVAL) else
  let h := decode_header sector in
  if (header_size h <? 92) || (header_size h >? GPT_SECTOR_SIZE) then inl (- EINVAL) else
  if negb (current_lba h =? header_lba) then inl (- EINVAL) else
  if (backup_lba h <=? current_lba h) || (backup_lba h >=? disk_sectors) then inl (- EINVAL) else
  if (first_usable_lba h <? 1) || (first_usable_lba h >? last_usable_lba h) then inl (- EINVAL) else
  if last_usable_lba h >=? disk_sectors then inl (- EINVAL) else
  if (num_entries h =? 0) || (num_entries h >? GPT_MAX_PARTITION_ENTRIES) then inl (- EINVAL) else
  if (entry_size h <? 128) || (entry_size h >? GPT_MAX_ENTRY_SIZE) then inl (- EINVAL) else
  if (entries_lba h >=? disk_sectors)
     || (entries_sectors h >? u64 (disk_sectors - entries_lba h)) then inl (- EINVAL) else
  let header := zero_crc_field (take (Z.to_nat (header_size h)) sector) in
  if negb (crc32 0 header =? header_crc h) then inl (- EINVAL) else
  inr h.

(** The loop of [gpt_has_protective_mbr] over the four slots. *)
Definition gpt_has_protective_mbr (sector : list Z) : bool :=
  existsb (fun i => byte_at sector (446 + i * 16 + 4) =? 0xee) [0;1;2;3].

(** [struct gpt_partition]. *)
Record gpt_partition := mkpart {
  first_lba : Z;
  last_lba : Z;
  type_guid : list Z;
  unique_guid : list Z;
  attrs : Z;
  present : bool;
}.

Definition zero_part : gpt_partition := mkpart 0 0 (replicate 16 0) (replicate 16 0) 0 false.

(** The [continue] conditions of the entry loop, negated. *)
Definition entry_accepted (h : gpt_header_info) (disk_sectors : Z) (entry : list Z) : bool :=
  let first := read_le64 entry 32 in
  let last := read_le64 entry 40 in
  if (first =? 0) && (last =? 0) then false else
  if first >? last then false else
  if (first <? first_usable_lba h) || (last >? last_usable_lba h) then false else
  if last >=? disk_sectors then false else
  let nr_sectors := u64 (last - first + 1) in
  negb ((last >? 0xffffffff) || (nr_sectors >? 0x7fffffff)).

Definition entry_at (entries : list Z) (h : gpt_header_info) (i : nat) : list Z :=
  drop (Z.to_nat (Z.of_nat i * entry_size h)) entries.

Definition decode_entry (entry : list Z) : gpt_partition :=
  mkpart (read_le64 entry 32) (read_le64 entry 40) (take 16 entry)
         (take 16 (drop 16 entry)) (read_le64 entry 48) true.

(** One iteration of the loop over the entry array. *)
Definition gpt_parse_entry (entries : list Z) (h : gpt_header_info) (disk_sectors max_parts : Z)
  (st : list gpt_partition * Z) (i : nat) : list gpt_partition * Z :=
  let entry := entry_at entries h i in
  if negb (entry_accepted h disk_sectors entry) then st else
  let nr_parts := u32 (st.2 + 1) in
  if Z.of_nat i >=? max_parts then (st.1, nr_parts) else
  (<[i := decode_entry entry]> st.1, nr_parts).

Section parse.
Context (read_sectors : Z -> Z -> option (list Z)).

Definition gpt_load_header (lba disk_sectors : Z) : Z + gpt_header_info :=
  match read_sectors lba 1 with
  | None => inl (- EIO)
  | Some sector => gpt_parse_header sector lba disk_sectors
  end.

(** [gpt_parse]: the return value with [*parts] and [*nr_parts].  [null_arg]
    says that one of the pointer arguments is NULL; [kmalloc_ok] whether
    [kmalloc] finds memory for the entry array. *)
Definition gpt_parse (null_arg : bool) (kmalloc_ok : Z -> bool) (disk_sectors : Z)
  (parts : list gpt_partition) (max_parts nr_parts : Z) : Z * list gpt_partition * Z :=
  if null_arg || (disk_sectors <? 2) then (- EINVAL, parts, nr_parts) else
  let parts := replicate (Z.to_nat max_parts) zero_part in
  match read_sectors 0 1 with
  | None => (- EIO, parts, 0)
  | Some sector =>
    if negb ((byte_at sector 510 =? 0x55) && (byte_at sector 511 =? 0xaa))
    then (- ENOENT, parts, 0) else
    if negb (gpt_has_protective_mbr sector) then (- ENOENT, parts, 0) else
    let hdr := match gpt_load_header 1 disk_sectors with
               | inr h => inr h
               | inl _ => gpt_load_header (disk_sectors - 1) disk_sectors
               end in
    match hdr with
    | inl _ => (- ENOENT, parts, 0)
    | inr h =>
      if negb (kmalloc_ok (u32 (entries_bytes h))) then (- ENOMEM, parts, 0) else
      match read_sectors (entries_lba h) (u32 (entries_sectors h)) with
      | None => (- EIO, parts, 0)
      | Some entries =>
        if negb (crc32 0 (take (Z.to_nat (u32 (entries_bytes h))) entries) =? entries_crc h)
        then (- ENOENT, parts, 0) else
        let '(parts', nr) := foldl (gpt_parse_entry entries h disk_sectors max_parts) (parts, 0)
                               (seq 0 (Z.to_nat (num_entries h))) in
        (0, parts', nr)
      end
    end
  end.
End parse.

(** ** Headers *)

(** What an accepted header satisfies. *)
Record valid_header (sector : list Z) (lba disk_sectors : Z) (h : gpt_header_info) : Prop := {
  vh_decode : h = decode_header sector;
  vh_sig : take 8 sector = signature;
  vh_size : 92 <= header_size h <= 512;
  vh_lba : current_lba h = lba;
  vh_backup : lba < backup_lba h < disk_sectors;
  vh_usable : 1 <= first_usable_lba h <= last_usable_lba h;
  vh_last : last_usable_lba h < disk_sectors;
  vh_num : 1 <= num_entries h <= 256;
  vh_esize : 128 <= entry_size h <= 4096;
  vh_entries : entries_lba h < disk_sectors /\
               entries_sectors h <= u64 (disk_sectors - entries_lba h);
  vh_crc : crc32 0 (zero_crc_field (take (Z.to_nat (header_size h)) sector)) = header_crc h;
}.

Ltac bool_to_prop :=
  repeat match goal with
  | H : negb _ = true |- _ => apply negb_true_iff in H
  | H : negb _ = false |- _ => apply negb_false_iff in H
  | H : orb _ _ = false |- _ => apply orb_false_iff in H as [? ?]
  | H : andb _ _ = true |- _ => apply andb_true_iff in H as [? ?]
  | H : bool_decide _ = true |- _ => apply bool_decide_eq_true in H
  | H : (_ =? _) = true |- _ => apply Z.eqb_eq in H
  | H : (_ =? _) = false |- _ => apply Z.eqb_neq in H
  end.

Lemma gpt_parse_header_valid sector lba disk_sectors h : Forall is_u8 sector ->
  gpt_parse_header sector lba disk_sectors = inr h -> valid_header sector lba disk_sectors h.
Proof.
  intros Hb. unfold gpt_parse_header, GPT_SECTOR_SIZE, GPT_MAX_PARTITION_ENTRIES, GPT_MAX_ENTRY_SIZE.
  pose proof (le32_range sector 80 Hb) as Hn. intros E.
  repeat (case_match; [discriminate|]). injection E as <-. bool_to_prop.
  change (le32 sector 80) with (num_entries (decode_header sector)) in Hn. unfold is_u32 in Hn.
  split; try lia; done.
Qed.

Lemma valid_header_parse sector lba disk_sectors h :
  valid_header sector lba disk_sectors h -> gpt_parse_header sector lba disk_sectors = inr h.
Proof.
  intros []. unfold gpt_parse_header, GPT_SECTOR_SIZE, GPT_MAX_PARTITION_ENTRIES, GPT_MAX_ENTRY_SIZE.
  rewrite <- vh_decode0. rewrite bool_decide_true by done.
  repeat match goal with
  | |- (if ?c then _ else _) = _ =>
    let E := fresh in assert (E : c = false) by lia; rewrite E; clear E
  end.
  done.
Qed.

(** A header read at its own last LBA has no room for a larger [backup_lba]. *)
Lemma valid_header_not_last sector disk_sectors h :
  ~ valid_header sector (disk_sectors - 1) disk_sectors h.
Proof. intros []. lia. Qed.

(** ** One corrupted byte *)

Implicit Types (l sector entries : list Z).

Lemma zlength_take_header sector n : zlength sector = 512 -> 0 <= n <= 512 ->
  zlength (take (Z.to_nat n) sector) = n.
Proof. unfold zlength. rewrite length_take. lia. Qed.

Lemma zero_crc_lookup l j : 20 <= zlength l ->
  zero_crc_field l !! j = if decide (16 <= Z.of_nat j < 20) then Some 0 else l !! j.
Proof.
  intros H. unfold zero_crc_field.
  rewrite lookup_memcpy_at by (unfold zlength in *; simpl; lia).
  change (16 + 4) with 20. case_decide; [|done].
  destruct (j - Z.to_nat 16)%nat as [|[|[|[|k]]]] eqn:E; try done. lia.
Qed.

Lemma length_zero_crc l : 20 <= zlength l -> length (zero_crc_field l) = length l.
Proof. intros. unfold zero_crc_field. apply length_memcpy_at; unfold zlength in *; simpl; lia. Qed.

Lemma zero_crc_insert l i b : 20 <= zlength l -> ~ 16 <= Z.of_nat i < 20 ->
  zero_crc_field (<[i:=b]> l) = <[i:=b]> (zero_crc_field l).
Proof.
  intros H Hi. apply list_eq. intros j.
  rewrite zero_crc_lookup by (unfold zlength in *; rewrite length_insert; lia).
  rewrite !list_lookup_insert, zero_crc_lookup, length_zero_crc by done.
  repeat case_decide; destruct_and?; try done; lia.
Qed.

Lemma zero_crc_bytes l : 20 <= zlength l -> Forall is_u8 l -> Forall is_u8 (zero_crc_field l).
Proof.
  intros Hl H. apply Forall_lookup_2. intros j x. rewrite zero_crc_lookup by done.
  case_decide; [|by eapply Forall_lookup_1]. intros [= <-]. unfold is_u8. lia.
Qed.

(** The checksum of a buffer changes with any one of its bytes. *)
Lemma crc32_insert l i a b : Forall is_u8 l -> is_u8 b -> l !! i = Some a ->
  crc32 0 (<[i:=b]> l) = crc32 0 l -> a = b.
Proof.
  intros Hl Hb Hi E.
  assert (Hlt := lookup_lt_Some _ _ _ Hi).
  rewrite insert_take_drop in E by done.
  rewrite <- (take_drop_middle l i a Hi) in E at 3.
  symmetry. eapply (crc32_one_byte 0 (take i l) b a (drop (S i) l)); try done.
  - by apply Forall_take.
  - by apply Forall_drop.
  - by eapply Forall_lookup_1 in Hl.
Qed.

Lemma decode_insert_size sector i b : ~ 12 <= Z.of_nat i < 16 ->
  header_size (decode_header (<[i:=b]> sector)) = header_size (decode_header sector).
Proof.
  intros H. unfold decode_header, read_le32, le32. simpl.
  rewrite !byte_at_insert_ne by lia. done.
Qed.

Lemma decode_insert_crc sector i b : ~ 16 <= Z.of_nat i < 20 ->
  header_crc (decode_header (<[i:=b]> sector)) = header_crc (decode_header sector).
Proof.
  intros H. unfold decode_header, read_le32, le32. simpl.
  rewrite !byte_at_insert_ne by lia. done.
Qed.

(** The checksum field itself cannot absorb a changed byte either. *)
Lemma decode_insert_crc_inj sector i b a : Forall is_u8 sector -> is_u8 b ->
  16 <= Z.of_nat i < 20 -> sector !! i = Some a ->
  header_crc (decode_header (<[i:=b]> sector)) = header_crc (decode_header sector) -> a = b.
Proof.
  intros Hs Hb Hi Ha E. unfold decode_header, read_le32 in E. simpl in E.
  assert (Hs' : Forall is_u8 (<[i:=b]> sector)) by (by apply Forall_insert).
  rewrite !le32_eq in E by done.
  change (16 + 1) with 17 in E. change (16 + 2) with 18 in E. change (16 + 3) with 19 in E.
  assert (Hlt := lookup_lt_Some _ _ _ Ha).
  assert (Hself : byte_at (<[i:=b]> sector) (Z.of_nat i) = b).
  { unfold byte_at. by rewrite Nat2Z.id, list_lookup_insert_eq. }
  assert (Hold : byte_at sector (Z.of_nat i) = a).
  { unfold byte_at. by rewrite Nat2Z.id, Ha. }
  assert (Hi' : Z.of_nat i = 16 \/ Z.of_nat i = 17 \/ Z.of_nat i = 18 \/ Z.of_nat i = 19) by lia.
  destruct Hi' as [Hi'|[Hi'|[Hi'|Hi']]]; rewrite Hi' in Hself, Hold;
    rewrite Hself, Hold in E; rewrite !byte_at_insert_ne in E by lia; lia.
Qed.

(** a GPT header protects itself: when a sector is accepted as a header,
    changing any single byte of the [header_size] bytes it covers (the length
    field aside) makes [gpt_parse_header] reject it, whatever the new value and
    wherever the sector was read. *)
Theorem gpt_header_corruption_detected sector lba ds h i a b lba' ds' :
  Forall is_u8 sector -> zlength sector = 512 ->
  gpt_parse_header sector lba ds = inr h ->
  sector !! i = Some a -> is_u8 b -> a <> b ->
  Z.of_nat i < header_size h -> ~ 12 <= Z.of_nat i < 16 ->
  ~ exists h', gpt_parse_header (<[i:=b]> sector) lba' ds' = inr h'.
Proof.
  intros Hs Hl Hp Ha Hb Hne Hi H12 [h' Hp'].
  apply gpt_parse_header_valid in Hp; [|done].
  apply gpt_parse_header_valid in Hp'; [|by apply Forall_insert].
  destruct Hp as [-> _ Hsz _ _ _ _ _ _ _ Hcrc], Hp' as [-> _ Hsz' _ _ _ _ _ _ _ Hcrc'].
  apply Hne. rewrite decode_insert_size in Hcrc' by done.
  set (n := header_size (decode_header sector)) in *.
  pose proof (zlength_take_header sector n Hl ltac:(lia)) as Hlt.
  destruct (decide (16 <= Z.of_nat i < 20)) as [Hin|Hout].
  - eapply decode_insert_crc_inj; [done..|]. rewrite <- Hcrc, <- Hcrc'. f_equal.
    apply list_eq. intros j.
    assert (Hl' : zlength (<[i:=b]> sector) = 512) by (unfold zlength in *; by rewrite length_insert).
    pose proof (zlength_take_header _ n Hl' ltac:(lia)).
    rewrite !zero_crc_lookup by lia.
    case_decide; [done|]. destruct (decide (j < Z.to_nat n)%nat).
    + rewrite !lookup_take_lt by lia. by rewrite list_lookup_insert_ne by lia.
    + by rewrite !lookup_take_ge by lia.
  - rewrite decode_insert_crc, <- Hcrc in Hcrc' by done.
    rewrite take_insert_lt in Hcrc' by lia.
    rewrite zero_crc_insert in Hcrc' by (done || lia).
    eapply crc32_insert; [..|exact Hcrc'].
    + apply zero_crc_bytes; [lia|by apply Forall_take].
    + done.
    + rewrite zero_crc_lookup by lia. rewrite decide_False by done. by rewrite lookup_take_lt by lia.
Qed.

(** ** The entry array *)

(** Reference result of the entry loop: slot [i] holds entry [i] when the entry
    is acceptable and zeros otherwise. *)
Definition ref_part entries h ds (i : nat) : gpt_partition :=
  if entry_accepted h ds (entry_at entries h i) then decode_entry (entry_at entries h i)
  else zero_part.

Definition ref_parts entries h ds (m n : nat) : list gpt_partition :=
  (fun i => if decide (i < n)%nat then ref_part entries h ds i else zero_part) <$> seq 0 m.

Definition ref_count entries h ds (n : nat) : Z :=
  zlength (filter (fun i => entry_accepted h ds (entry_at entries h i) = true) (seq 0 n)).

Lemma ref_parts_lookup entries h ds m n i : (i < m)%nat ->
  ref_parts entries h ds m n !! i =
    Some (if decide (i < n)%nat then ref_part entries h ds i else zero_part).
Proof. intros. unfold ref_parts. by rewrite list_lookup_fmap, lookup_seq_lt. Qed.

Lemma length_ref_parts entries h ds m n : length (ref_parts entries h ds m n) = m.
Proof. unfold ref_parts. by rewrite length_fmap, length_seq. Qed.

Lemma ref_parts_0 entries h ds m : ref_parts entries h ds m 0 = replicate m zero_part.
Proof.
  apply list_eq. intros i. destruct (decide (i < m)%nat).
  - by rewrite ref_parts_lookup, lookup_replicate_2.
  - by rewrite !lookup_ge_None_2; rewrite ?length_replicate, ?length_ref_parts; try lia.
Qed.

Lemma ref_parts_S entries h ds m n :
  ref_parts entries h ds m (S n) = <[n := ref_part entries h ds n]> (ref_parts entries h ds m n).
Proof.
  apply list_eq. intros i. destruct (decide (i < m)%nat).
  - rewrite list_lookup_insert, length_ref_parts, !ref_parts_lookup by done.
    repeat case_decide; destruct_and?; subst; try done; lia.
  - by rewrite !lookup_ge_None_2; rewrite ?length_insert, ?length_ref_parts; try lia.
Qed.

Lemma ref_count_bound entries h ds n : 0 <= ref_count entries h ds n <= Z.of_nat n.
Proof.
  unfold ref_count, zlength. pose proof (length_filter (fun i => entry_accepted h ds (entry_at entries h i) = true) (seq 0 n)).
  rewrite length_seq in H. lia.
Qed.

Lemma parse_entries_ref entries h ds max_parts n :
  0 <= max_parts -> Z.of_nat n < 2 ^ 32 ->
  foldl (gpt_parse_entry entries h ds max_parts) (replicate (Z.to_nat max_parts) zero_part, 0) (seq 0 n)
  = (ref_parts entries h ds (Z.to_nat max_parts) n, ref_count entries h ds n).
Proof.
  intros Hm. induction n as [|n IH]; intros Hn.
  { by rewrite ref_parts_0. }
  rewrite seq_S, foldl_app, IH by lia. simpl.
  rewrite ref_parts_S. unfold gpt_parse_entry. simpl.
  assert (Hc : ref_count entries h ds (S n) =
    if entry_accepted h ds (entry_at entries h n) then ref_count entries h ds n + 1
    else ref_count entries h ds n).
  { unfold ref_count, zlength. rewrite seq_S, filter_app, length_app, filter_cons, filter_nil. simpl.
    destruct (entry_accepted _ _ _); simpl; lia. }
  rewrite Hc. unfold ref_part. destruct (entry_accepted h ds (entry_at entries h n)) eqn:Ea; simpl.
  - pose proof (ref_count_bound entries h ds n). rewrite u32_small by lia.
    destruct (Z.geb_spec (Z.of_nat n) max_parts); [|done].
    rewrite list_insert_ge; [done|]. rewrite length_ref_parts. lia.
  - f_equal. symmetry. apply list_eq. intros i.
    rewrite list_lookup_insert. case_decide as Hd; [|done]. destruct Hd as [-> Hlt].
    rewrite length_ref_parts in Hlt. rewrite ref_parts_lookup, decide_False by lia. done.
Qed.

Record part_ok (h : gpt_header_info) (ds : Z) (p : gpt_partition) : Prop := {
  po_usable : first_usable_lba h <= first_lba p;
  po_order : first_lba p <= last_lba p;
  po_last : last_lba p <= last_usable_lba h;
  po_disk : last_lba p < ds;
  po_u32 : last_lba p < 2 ^ 32;
  po_size : last_lba p - first_lba p + 1 < 2 ^ 31;
}.

Lemma entry_accepted_ok h ds entry : Forall is_u8 entry ->
  entry_accepted h ds entry = true -> part_ok h ds (decode_entry entry).
Proof.
  intros Hb. unfold entry_accepted. intros E.
  pose proof (le64_range entry 32 Hb). pose proof (le64_range entry 40 Hb).
  unfold decode_entry, read_le64 in *. set (f := le64 entry 32) in *. set (l := le64 entry 40) in *.
  unfold is_u64 in *.
  repeat (case_match; [discriminate|]). bool_to_prop.
  rewrite u64_small in * by lia. split; simpl; lia.
Qed.

(** The ways [gpt_parse] reaches the end. *)
Lemma gpt_parse_zero read na km ds parts0 mp nr0 parts nr :
  0 <= mp -> (forall lba n l, read lba n = Some l -> Forall is_u8 l) ->
  gpt_parse read na km ds parts0 mp nr0 = (0, parts, nr) ->
  exists sector h entries,
    read 1 1 = Some sector /\ valid_header sector 1 ds h /\
    read (entries_lba h) (u32 (entries_sectors h)) = Some entries /\
    crc32 0 (take (Z.to_nat (u32 (entries_bytes h))) entries) = entries_crc h /\
    parts = ref_parts entries h ds (Z.to_nat mp) (Z.to_nat (num_entries h)) /\
    nr = ref_count entries h ds (Z.to_nat (num_entries h)).
Proof.
  intros Hmp Hbytes. unfold gpt_parse.
  case_match; [done|]. destruct (read 0 1); [|done].
  do 2 (case_match; [done|]).
  assert (Hlh : forall lba h, gpt_load_header read lba ds = inr h ->
    exists sector, read lba 1 = Some sector /\ valid_header sector lba ds h).
  { intros lba h. unfold gpt_load_header. destruct (read lba 1) as [sector|] eqn:E; [|done].
    intros Hp. exists sector. split; [done|]. eapply gpt_parse_header_valid; eauto. }
  set (hdr := match gpt_load_header read 1 ds with inl _ => _ | inr _ => _ end).
  destruct hdr as [e|h] eqn:Eh; [done|].
  assert (Hh : exists sector, read 1 1 = Some sector /\ valid_header sector 1 ds h).
  { subst hdr. destruct (gpt_load_header read 1 ds) as [e1|h1] eqn:E1.
    - destruct (Hlh _ _ Eh) as (s2 & _ & Hv). by destruct (valid_header_not_last _ _ _ Hv).
    - injection Eh as <-. by apply Hlh. }
  destruct Hh as (sector & Hr & Hv).
  case_match; [done|].
  destruct (read (entries_lba h) (u32 (entries_sectors h))) as [entries|] eqn:Ee; [|done].
  case_match; [done|]. bool_to_prop.
  rewrite parse_entries_ref by (destruct Hv; lia).
  intros [= <- <-]. by exists sector, h, entries.
Qed.

(** when [gpt_parse] succeeds, the table comes from a valid header at LBA 1
    and an entry array with the announced checksum; slot [i] of the result is
    entry [i] of the array when that entry is acceptable and zero otherwise,
    [*nr_parts] counts the acceptable entries, and every partition reported
    lies inside the usable area of the disk and fits the kernel's sector
    arithmetic. *)
Theorem gpt_parse_partitions read na km ds parts0 mp nr0 parts nr :
  0 <= mp -> (forall lba n l, read lba n = Some l -> Forall is_u8 l) ->
  gpt_parse read na km ds parts0 mp nr0 = (0, parts, nr) ->
  exists sector h entries,
    read 1 1 = Some sector /\ valid_header sector 1 ds h /\
    crc32 0 (take (Z.to_nat (u32 (entries_bytes h))) entries) = entries_crc h /\
    parts = ref_parts entries h ds (Z.to_nat mp) (Z.to_nat (num_entries h)) /\
    nr = ref_count entries h ds (Z.to_nat (num_entries h)) /\
    forall i p, parts !! i = Some p -> present p = true -> part_ok h ds p.
Proof.
  intros Hmp Hb Hp. destruct (gpt_parse_zero _ _ _ _ _ _ _ _ _ Hmp Hb Hp)
    as (sector & h & entries & Hr & Hv & He & Hc & -> & ->).
  exists sector, h, entries. repeat (split; [done|]).
  intros i p Hi Hpr. pose proof (lookup_lt_Some _ _ _ Hi) as Hlt. rewrite length_ref_parts in Hlt.
  rewrite ref_parts_lookup in Hi by done. injection Hi as <-.
  case_decide; [|done]. unfold ref_part in *.
  destruct (entry_accepted h ds _) eqn:Ea; [|done].
  apply entry_accepted_ok; [|done]. unfold entry_at. by apply Forall_drop, (Hb _ _ _ He).
Qed.

(** the fallback to the backup header never helps: the backup sits in the
    last sector of the disk, where the check that [backup_lba] exceeds
    [current_lba] and is on the disk cannot hold, so a disk whose primary
    header is unreadable or damaged is never recognised as GPT. *)
Theorem gpt_backup_never_used read na km ds parts0 mp nr0 :
  0 <= mp -> (forall lba n l, read lba n = Some l -> Forall is_u8 l) ->
  (forall h, gpt_load_header read 1 ds <> inr h) ->
  (gpt_parse read na km ds parts0 mp nr0).1.1 <> 0.
Proof.
  intros Hmp Hb Hprim Hz.
  destruct (gpt_parse read na km ds parts0 mp nr0) as [[r parts] nr] eqn:E. simpl in Hz. subst r.
  destruct (gpt_parse_zero _ _ _ _ _ _ _ _ _ Hmp Hb E) as (sector & h & _ & Hr & Hv & _).
  apply (Hprim h). unfold gpt_load_header. rewrite Hr. by apply valid_header_parse.
Qed.

(** ** A concrete disk *)

Fixpoint le_bytes (n : nat) (x : Z) : list Z :=
  match n with O => [] | S n => x mod 256 :: le_bytes n (x / 256) end.

Definition put (l : list Z) (off : Z) (bs : list Z) : list Z := memcpy_at l off bs (zlength bs).

Definition blank : list Z := replicate 512 0.

Definition example_mbr : list Z := put (put blank 450 [0xee]) 510 [0x55; 0xaa].

Definition example_entries : list Z :=
  put (put (put blank 0 (replicate 16 7)) 32 (le_bytes 8 40)) 40 (le_bytes 8 50).

(** A header of [n] entries of 128 bytes at LBA [cur], its alternate at [alt]. *)
Definition make_header (cur alt n : Z) : list Z :=
  let h := put (put (put (put (put (put (put (put (put blank 0 signature) 12 (le_bytes 4 92))
    24 (le_bytes 8 cur)) 32 (le_bytes 8 alt)) 40 (le_bytes 8 34)) 48 (le_bytes 8 60))
    72 (le_bytes 8 2)) 80 (le_bytes 4 n)) 84 (le_bytes 4 128) in
  let h := put h 88 (le_bytes 4 (crc32 0 (take (Z.to_nat (n * 128)) example_entries))) in
  put h 16 (le_bytes 4 (crc32 0 (take 92 h))).

(** 64 sectors: protective MBR, primary header, entries, backup header. *)
Definition example_disk (primary : list Z) (lba n : Z) : option (list Z) :=
  if lba =? 0 then Some example_mbr else
  if lba =? 1 then Some primary else
  if lba =? 2 then Some example_entries else
  if lba =? 63 then Some (make_header 63 1 1) else None.

Definition u8b (x : Z) : bool := (0 <=? x) && (x <? 256).

Lemma u8b_all l : forallb u8b l = true -> Forall is_u8 l.
Proof.
  intros H. apply Forall_forall. intros x Hx. rewrite forallb_forall in H.
  specialize (H x (proj1 (list_elem_of_In _ _) Hx)). unfold u8b, is_u8 in *. lia.
Qed.

Lemma example_disk_bytes primary : Forall is_u8 primary ->
  forall lba n l, example_disk primary lba n = Some l -> Forall is_u8 l.
Proof.
  intros Hp lba n l. unfold example_disk.
  repeat case_match; intros [= <-]; try done; by apply u8b_all; vm_compute.
Qed.

Lemma gpt_header_corruption_detected_witness :
  ~ exists h', gpt_parse_header (<[24%nat:=2]> (make_header 1 63 1)) 1 64 = inr h'.
Proof.
  apply (gpt_header_corruption_detected (make_header 1 63 1) 1 64
           (decode_header (make_header 1 63 1)) 24%nat 1 2 1 64).
  - by apply u8b_all; vm_compute.
  - by vm_compute.
  - by vm_compute.
  - by vm_compute.
  - by vm_compute.
  - lia.
  - by vm_compute.
  - lia.
Defined.

Lemma gpt_parse_partitions_witness :
  exists sector h entries,
    example_disk (make_header 1 63 1) 1 1 = Some sector /\ valid_header sector 1 64 h /\
    crc32 0 (take (Z.to_nat (u32 (entries_bytes h))) entries) = entries_crc h /\
    [decode_entry example_entries; zero_part] =
      ref_parts entries h 64 2 (Z.to_nat (num_entries h)) /\
    1 = ref_count entries h 64 (Z.to_nat (num_entries h)) /\
    forall i p, [decode_entry example_entries; zero_part] !! i = Some p ->
      present p = true -> part_ok h 64 p.
Proof.
  apply (gpt_parse_partitions (example_disk (make_header 1 63 1)) false (fun _ => true) 64 [] 2 0
           [decode_entry example_entries; zero_part] 1).
  - lia.
  - apply example_disk_bytes. by apply u8b_all; vm_compute.
  - by vm_compute.
Defined.

(** The primary header is wiped, the backup is intact: the table is lost. *)
Lemma gpt_backup_never_used_witness :
  (gpt_parse (example_disk blank) false (fun _ => true) 64 [] 2 0).1.1 <> 0.
Proof.
  apply gpt_backup_never_used.
  - lia.
  - apply example_disk_bytes. by apply u8b_all; vm_compute.
  - intros h. by vm_compute.
Defined.

(** The backup header of that disk is what the table format asks for: signature,
    size, checksum, its own LBA, and an alternate at LBA 1. *)
Lemma example_backup_header_intact :
  let s := make_header 63 1 1 in let h := decode_header s in
  take 8 s = signature /\ header_size h = 92 /\ current_lba h = 63 /\ backup_lba h = 1 /\
  crc32 0 (zero_crc_field (take 92 s)) = header_crc h.
Proof. by vm_compute. Qed.

(** The entry buffer has [entries_bytes] bytes, but whole sectors are read into
    it: an accepted header with a single 128-byte entry makes the driver store
    512 bytes in a buffer of 128. *)
Lemma gpt_entries_buffer_overflow :
  exists sector h, gpt_parse_header sector 1 64 = inr h /\
    entries_bytes h = 128 /\ entries_sectors h * GPT_SECTOR_SIZE = 512.
Proof. exists (make_header 1 63 1), (decode_header (make_header 1 63 1)). by vm_compute. Qed.

End Gpt.
