(* ===== verification/Hd.v ===== *)
(** * SATA disks: partition discovery and block requests ([fs/block/ahci.c])

    How a disk found by [hd_init] gets its partitions (GPT, else MBR with the
    chain of extended boot records) and how a block request on a minor number
    becomes a request on absolute sectors.  The command engine itself
    ([ahci_issue_command]: registers, DMA and interrupts) is a parameter,
    [issue lba], the 512 bytes of sector [lba] or [None] on an error. *)
From S2P Require Import Prelude Gpt.

Module Hd.

Definition HD_SECTOR_SIZE : Z := 512.
Definition HD_MAX_PARTITIONS : Z := 16.
Definition HD_MINORS_PER_DISK : Z := 17.
Definition HD_MAX_DISKS : Z := 6.
Definition EOVERFLOW : Z := 75.

(** [struct hd_partition]. *)
Record hd_partition := mkpart {
  start_sector : Z;
  nr_sectors : Z;
  present : bool;
}.

(** [struct hd_disk] without its port. *)
Record hd_disk := mkdisk {
  total_sectors : Z;
  partitions : list hd_partition;
  disk_present : bool;
}.

Definition no_partition : hd_partition := mkpart 0 0 false.

Definition set_partitions (d : hd_disk) (ps : list hd_partition) : hd_disk :=
  mkdisk (total_sectors d) ps (disk_present d).

Definition hd_add_partition (disk : hd_disk) (minor start nr : Z) : hd_disk :=
  if (minor =? 0) || (minor >? HD_MAX_PARTITIONS) then disk else
  let index := Z.to_nat (minor - 1) in
  match partitions disk !! index with
  | None => disk
  | Some p =>
    if present p then disk else
    if (start >=? total_sectors disk) || (nr >? u64 (total_sectors disk - start)) then disk else
    set_partitions disk (<[index := mkpart start nr true]> (partitions disk))
  end.

Section parse.
Context (issue : Z -> option (list Z)).

(** [nr] single-sector commands; an error aborts the transfer. *)
Fixpoint read_sectors (lba : Z) (nr : nat) : option (list Z) :=
  match nr with
  | O => Some []
  | S nr' => match issue lba with
             | None => None
             | Some s => match read_sectors (u64 (lba + 1)) nr' with
                         | None => None
                         | Some rest => Some (s ++ rest)
                         end
             end
  end.

Definition ahci_read_sectors_poll (lba nr : Z) : option (list Z) := read_sectors lba (Z.to_nat nr).

Definition ahci_gpt_read_sectors (lba nr : Z) : option (list Z) := ahci_read_sectors_poll lba nr.

Definition boot_signature (sector : list Z) : bool :=
  (byte_at sector 510 =? 0x55) && (byte_at sector 511 =? 0xaa).

(** The loop of [hd_parse_ebr]; [n] is the number of iterations left. *)
Fixpoint ebr_loop (n : nat) (disk : hd_disk) (extended_base ebr logical_minor : Z) : hd_disk :=
  match n with
  | O => disk
  | S n' =>
    if logical_minor >? HD_MAX_PARTITIONS then disk else
    if ebr >=? total_sectors disk then disk else
    match ahci_read_sectors_poll ebr 1 with
    | None => disk
    | Some sector =>
      if negb (boot_signature sector) then disk else
      let type0 := byte_at sector (446 + 4) in
      let type1 := byte_at sector (446 + 16 + 4) in
      let start0 := le32 sector (446 + 8) in
      let nr0 := le32 sector (446 + 12) in
      let next_ebr := le32 sector (446 + 16 + 8) in
      let absolute_start := u64 (ebr + start0) in
      let '(disk', minor') :=
        if negb (type0 =? 0) && negb (start0 =? 0) && negb (nr0 =? 0) then
          if (absolute_start <? total_sectors disk)
             && (nr0 <=? u64 (total_sectors disk - absolute_start))
          then (hd_add_partition disk logical_minor absolute_start nr0, logical_minor + 1)
          else (disk, logical_minor)
        else (disk, logical_minor) in
      if (type1 =? 0) || (next_ebr =? 0) then disk' else
      let ebr' := u64 (extended_base + next_ebr) in
      if ebr' >=? total_sectors disk' then disk' else
      ebr_loop n' disk' extended_base ebr' minor'
    end
  end.

Definition hd_parse_ebr (disk : hd_disk) (extended_base : Z) : hd_disk :=
  ebr_loop (Z.to_nat HD_MAX_PARTITIONS) disk extended_base extended_base 5.

(** One of the four slots of the MBR: the disk and [extended_base]. *)
Definition mbr_slot (sector : list Z) (st : hd_disk * Z) (i : Z) : hd_disk * Z :=
  let '(disk, extended_base) := st in
  let type := byte_at sector (446 + i * 16 + 4) in
  let start := le32 sector (446 + i * 16 + 8) in
  let nr := le32 sector (446 + i * 16 + 12) in
  if (type =? 0) || (start =? 0) || (nr =? 0) then st else
  if u64 (start + nr) >? total_sectors disk then st else
  if type =? 0xee then st else
  if (type =? 0x05) || (type =? 0x0f) || (type =? 0x85) then
    (disk, if extended_base =? 0 then start else extended_base)
  else (hd_add_partition disk (i + 1) start nr, extended_base).

Definition hd_parse_mbr (disk : hd_disk) : hd_disk :=
  match ahci_read_sectors_poll 0 1 with
  | None => disk
  | Some sector =>
    if negb (boot_signature sector) then disk else
    let '(disk', extended_base) := foldl (mbr_slot sector) (disk, 0) [0;1;2;3] in
    if extended_base =? 0 then disk' else hd_parse_ebr disk' extended_base
  end.

Definition gpt_slot (disk : hd_disk) (ip : nat * Gpt.gpt_partition) : hd_disk :=
  let '(i, p) := ip in
  if negb (Gpt.present p) then disk else
  hd_add_partition disk (Z.of_nat i + 1) (Gpt.first_lba p)
    (u64 (Gpt.last_lba p - Gpt.first_lba p + 1)).

(** [hd_parse_gpt]: the error and the disk. *)
Definition hd_parse_gpt (kmalloc_ok : Z -> bool) (disk : hd_disk) : Z * hd_disk :=
  let '(error, parts, _) :=
    Gpt.gpt_parse ahci_gpt_read_sectors false kmalloc_ok (total_sectors disk) [] HD_MAX_PARTITIONS 0 in
  if negb (error =? 0) then (error, disk) else
  (0, foldl gpt_slot disk (zip (seq 0 (Z.to_nat HD_MAX_PARTITIONS)) parts)).

(** The end of the probe loop of [hd_init] for a disk of [total] sectors. *)
Definition hd_setup_disk (kmalloc_ok : Z -> bool) (total : Z) : hd_disk :=
  let disk := mkdisk total (replicate (Z.to_nat HD_MAX_PARTITIONS) no_partition) false in
  let '(error, disk) := hd_parse_gpt kmalloc_ok disk in
  let disk := if negb (error =? 0) then hd_parse_mbr disk else disk in
  mkdisk (total_sectors disk) (partitions disk) true.

End parse.

(** ** Requests *)

Definition hd_get_disk (hd_disks : list hd_disk) (minor : Z) : option (hd_disk * Z) :=
  let disk_index := minor / HD_MINORS_PER_DISK in
  if disk_index >=? HD_MAX_DISKS then None else
  match hd_disks !! Z.to_nat disk_index with
  | Some disk => if negb (disk_present disk) then None else Some (disk, minor mod HD_MINORS_PER_DISK)
  | None => None
  end.

(** The partition selected by [part]: its start and its limit. *)
Definition hd_window (disk : hd_disk) (part : Z) : Z + (Z * Z) :=
  if part =? 0 then inr (0, total_sectors disk) else
  if part >? HD_MAX_PARTITIONS then inl (- ENOENT) else
  match partitions disk !! Z.to_nat (part - 1) with
  | Some p => if negb (present p) then inl (- ENOENT) else inr (start_sector p, nr_sectors p)
  | None => inl (- ENOENT)
  end.

Definition hd_range (disk : hd_disk) (part sector nr : Z) : Z + (Z * Z) :=
  match hd_window disk part with
  | inl e => inl e
  | inr (start, limit) =>
    if (sector >=? limit) || (nr >? u64 (limit - sector)) then inl (- EINVAL)
    else inr (start, limit)
  end.

(** [hd_read] and [hd_write] up to the transfer: the error, or the absolute
    sectors [(lba, nr)] handed to the port. *)
Definition hd_request (hd_disks : list hd_disk) (minor sector nr : Z) : Z + (Z * Z) :=
  match hd_get_disk hd_disks minor with
  | None => inl (- ENODEV)
  | Some (disk, part) =>
    match hd_range disk part sector nr with
    | inl e => inl e
    | inr (start, _) => inr (u64 (start + sector), nr)
    end
  end.

Definition hd_get_info (hd_disks : list hd_disk) (minor : Z) : Z + (Z * Z) :=
  match hd_get_disk hd_disks minor with
  | None => inl (- ENODEV)
  | Some (disk, part) =>
    match hd_window disk part with
    | inl e => inl e
    | inr (_, sectors) =>
      if sectors >? 0x7fffffff then inl (- EOVERFLOW) else inr (HD_SECTOR_SIZE, sectors)
    end
  end.

(** ** Invariant: every partition is inside its disk *)

Definition part_inside (total : Z) (p : hd_partition) : Prop :=
  present p = true -> 0 <= start_sector p /\ 0 <= nr_sectors p /\
                      start_sector p + nr_sectors p <= total.

Record disk_ok (d : hd_disk) : Prop := {
  dk_total : 0 <= total_sectors d < 2 ^ 48;
  dk_len : length (partitions d) = 16%nat;
  dk_parts : Forall (part_inside (total_sectors d)) (partitions d);
}.

(** Partitions are only ever added: what a slot holds stays. *)
Definition extends (d d' : hd_disk) : Prop :=
  total_sectors d' = total_sectors d /\
  forall i p, partitions d !! i = Some p -> present p = true -> partitions d' !! i = Some p.

#[export] Instance extends_preorder : PreOrder extends.
Proof.
  split.
  - by intros d.
  - intros d1 d2 d3 [E1 H1] [E2 H2]. split; [congruence|auto].
Qed.

Lemma hd_add_partition_ok disk minor start nr :
  disk_ok disk -> 0 <= minor -> 0 <= start -> 0 <= nr ->
  disk_ok (hd_add_partition disk minor start nr) /\
  extends disk (hd_add_partition disk minor start nr).
Proof.
  intros H Hm Hs Hn. unfold hd_add_partition.
  case_match; [done|].
  destruct (partitions disk !! Z.to_nat (minor - 1)) as [p|] eqn:Ep; [|done].
  destruct (present p) eqn:Epr; [done|].
  case_match eqn:Er; [done|]. apply orb_false_iff in Er as [Er1 Er2].
  destruct H as [Ht Hl Hp].
  rewrite u64_small in Er2 by lia. split.
  - split; simpl; [done|by rewrite length_insert|].
    apply Forall_insert; [done|]. intros _. simpl. lia.
  - split; [done|]. simpl. intros i q Hi Hq.
    rewrite list_lookup_insert_ne; [done|]. intros <-. congruence.
Qed.

Section parse_ok.
Context (issue : Z -> option (list Z)).
Context (issue_bytes : forall lba l, issue lba = Some l -> Forall is_u8 l).

Lemma read_sectors_bytes nr lba l : read_sectors issue lba nr = Some l -> Forall is_u8 l.
Proof.
  revert lba l. induction nr as [|nr IH]; intros lba l; simpl; [by intros [= <-]|].
  destruct (issue lba) as [s|] eqn:Es; [|done].
  destruct (read_sectors issue (u64 (lba + 1)) nr) as [r|] eqn:Er; [|done].
  intros [= <-]. apply Forall_app. eauto.
Qed.

Lemma ebr_loop_ok n disk base ebr minor :
  disk_ok disk -> 0 <= minor ->
  disk_ok (ebr_loop issue n disk base ebr minor) /\ extends disk (ebr_loop issue n disk base ebr minor).
Proof.
  revert disk ebr minor. induction n as [|n IH]; intros disk ebr minor H Hm; simpl; [done|].
  do 2 (case_match; [done|]).
  destruct (ahci_read_sectors_poll issue ebr 1) as [sector|] eqn:Es; [|done].
  case_match; [done|].
  pose proof (le32_range sector (446 + 12) (read_sectors_bytes _ _ _ Es)) as Hnr. unfold is_u32 in Hnr.
  pose proof (u64_range (ebr + le32 sector (446 + 8))) as Hst.
  set (c := negb (byte_at sector (446 + 4) =? 0) && _ && _). clearbody c.
  set (st := if c then _ else _).
  assert (Hst' : disk_ok st.1 /\ extends disk st.1 /\ 0 <= st.2).
  { subst st. destruct c; [|done]. case_match; [|done]. simpl.
    destruct (hd_add_partition_ok disk minor (u64 (ebr + le32 sector (446 + 8)))
      (le32 sector (446 + 12)) H Hm); [lia..|]. split; [done|]. split; [done|lia]. }
  destruct st as [disk' minor']. simpl in Hst'. destruct Hst' as (Hd' & He' & Hm').
  do 2 (case_match; [done|]).
  destruct (IH disk' (u64 (base + le32 sector (446 + 16 + 8))) minor' Hd' Hm') as [IH1 IH2].
  split; [done|]. by etrans.
Qed.

Lemma mbr_slot_ok sector st i : Forall is_u8 sector -> 0 <= i -> disk_ok st.1 ->
  disk_ok (mbr_slot sector st i).1 /\ extends st.1 (mbr_slot sector st i).1.
Proof.
  intros Hb Hi H. destruct st as [disk base]. unfold mbr_slot.
  pose proof (le32_range sector (446 + i * 16 + 8) Hb). pose proof (le32_range sector (446 + i * 16 + 12) Hb).
  unfold is_u32 in *. simpl in H.
  do 4 (case_match; [done|]). simpl. apply hd_add_partition_ok; [done|lia..].
Qed.

Lemma hd_parse_mbr_ok disk : disk_ok disk ->
  disk_ok (hd_parse_mbr issue disk) /\ extends disk (hd_parse_mbr issue disk).
Proof.
  intros H. unfold hd_parse_mbr. destruct (ahci_read_sectors_poll issue 0 1) as [sector|] eqn:Es; [|done].
  pose proof (read_sectors_bytes _ _ _ Es) as Hb. case_match; [done|].
  assert (Hf : forall l st, Forall (Z.le 0) l -> disk_ok st.1 ->
    disk_ok (foldl (mbr_slot sector) st l).1 /\ extends st.1 (foldl (mbr_slot sector) st l).1).
  { intros l st Hl. revert st. induction Hl as [|i l Hi Hl IH]; intros st Hst; simpl; [done|].
    destruct (mbr_slot_ok sector st i Hb Hi Hst) as [H1 H2].
    destruct (IH _ H1) as [H3 H4]. split; [done|]. by etrans. }
  destruct (Hf [0;1;2;3] (disk, 0)) as [H1 H2]; [by repeat constructor|done|].
  destruct (foldl _ _ _) as [disk' base]. simpl in *.
  case_match; [done|]. destruct (ebr_loop_ok (Z.to_nat HD_MAX_PARTITIONS) disk' base base 5 H1); [lia|].
  split; [done|]. by etrans.
Qed.

Lemma hd_parse_gpt_ok km disk : disk_ok disk -> disk_ok (hd_parse_gpt issue km disk).2.
Proof.
  intros H. unfold hd_parse_gpt.
  destruct (Gpt.gpt_parse _ _ _ _ _ _ _) as [[error parts] nr] eqn:Eg.
  destruct (Z.eqb_spec error 0) as [->|]; cbn [negb]; [|done]. unfold snd.
  assert (Hp : forall i p, parts !! i = Some p -> Gpt.present p = true -> 0 <= Gpt.first_lba p).
  { apply Gpt.gpt_parse_zero in Eg as (s & h & entries & _ & Hv & He & _ & -> & _);
      [|done|intros; by eapply read_sectors_bytes].
    intros i p Hi Hpr. pose proof (lookup_lt_Some _ _ _ Hi) as Hlt. rewrite Gpt.length_ref_parts in Hlt.
    rewrite Gpt.ref_parts_lookup in Hi by done. injection Hi as <-.
    case_decide; [|done]. unfold Gpt.ref_part in *.
    destruct (Gpt.entry_accepted _ _ _) eqn:Ea; [|done].
    simpl. unfold Gpt.read_le64. apply le64_range. unfold Gpt.entry_at. apply Forall_drop.
    by eapply read_sectors_bytes. }
  assert (Hf : forall l d, disk_ok d ->
    (forall i p, (i, p) ∈ l -> Gpt.present p = true -> 0 <= Gpt.first_lba p) ->
    disk_ok (foldl gpt_slot d l)).
  { induction l as [|[i p] l IH]; intros d Hd Hl; simpl; [done|].
    apply IH; [|set_solver]. unfold gpt_slot.
    destruct (Gpt.present p) eqn:Epr; simpl; [|done].
    apply hd_add_partition_ok; [done|lia| |].
    - apply (Hl i); [set_solver|done].
    - apply u64_range. }
  apply Hf; [done|]. intros i p Hin.
  apply list_elem_of_lookup in Hin as [j Hj]. apply lookup_zip_with_Some in Hj as (i' & p' & [= -> ->] & _ & Hj).
  by eapply Hp.
Qed.

Lemma hd_setup_disk_ok km total : 0 <= total < 2 ^ 48 -> disk_ok (hd_setup_disk issue km total).
Proof.
  intros Ht. unfold hd_setup_disk.
  set (d0 := mkdisk total _ false).
  assert (H0 : disk_ok d0).
  { split; [done|done|]. apply Forall_replicate. by intros [=]. }
  pose proof (hd_parse_gpt_ok km d0 H0) as H1.
  destruct (hd_parse_gpt issue km d0) as [e d1]. simpl in H1.
  assert (H2 : disk_ok (if negb (e =? 0) then hd_parse_mbr issue d1 else d1)).
  { case_match; [by apply hd_parse_mbr_ok|done]. }
  by destruct H2; split.
Qed.

End parse_ok.

(** The window of a minor lies on the disk. *)
Lemma hd_window_ok disk part start limit : disk_ok disk -> 0 <= part ->
  hd_window disk part = inr (start, limit) ->
  0 <= start /\ 0 <= limit /\ start + limit <= total_sectors disk.
Proof.
  intros [Ht Hl Hp] Hpart. unfold hd_window.
  destruct (Z.eqb_spec part 0).
  - intros [= <- <-]. lia.
  - case_match; [done|]. destruct (partitions disk !! _) as [p|] eqn:Ep; [|done].
    destruct (present p) eqn:Epr; [|done]. intros [= <- <-].
    rewrite Forall_lookup in Hp. apply (Hp _ _ Ep Epr).
Qed.

(** a request on a partition stays in that partition, and a partition stays
    on its disk.  For any disk contents (GPT, MBR, EBR chain, or garbage), when
    [hd_read]/[hd_write] on a minor of a disk set up by [hd_init] is accepted,
    the sectors submitted to the controller are those asked for, relative to
    the start of the minor's window, and none is outside that window or the
    disk; the 64-bit sector arithmetic never wraps. *)
Theorem hd_request_contained issue km total disks minor sector nr disk part lba n :
  (forall lba l, issue lba = Some l -> Forall is_u8 l) -> 0 <= total < 2 ^ 48 ->
  0 <= sector < 2 ^ 32 -> 0 <= nr < 2 ^ 32 -> 0 <= minor ->
  hd_get_disk disks minor = Some (disk, part) -> disk = hd_setup_disk issue km total ->
  hd_request disks minor sector nr = inr (lba, n) ->
  exists start limit, hd_window disk part = inr (start, limit) /\
    lba = start + sector /\ n = nr /\ start <= lba /\ lba + nr <= start + limit /\
    start + limit <= total_sectors disk.
Proof.
  intros Hb Ht Hs Hn Hm Hg Hd. unfold hd_request. rewrite Hg.
  pose proof (hd_setup_disk_ok issue Hb km total Ht) as Hok. rewrite <- Hd in Hok. clear Hd.
  assert (0 <= part).
  { unfold hd_get_disk in Hg. repeat case_match; try done. injection Hg as _ <-.
    apply Z.mod_pos_bound. done. }
  unfold hd_range. destruct (hd_window disk part) as [e|[start limit]] eqn:Ew; [done|].
  destruct (hd_window_ok _ _ _ _ Hok ltac:(done) Ew) as (? & ? & ?).
  destruct ((sector >=? limit) || _) eqn:Er; [done|]. apply orb_false_iff in Er as [Er1 Er2].
  destruct Hok as [Htot _ _]. rewrite u64_small in Er2 by lia.
  intros [= <- <-]. rewrite u64_small by lia. exists start, limit. repeat split; lia || done.
Qed.

(** A disk with one primary MBR partition of 100 sectors at sector 63. *)
Definition example_issue (lba : Z) : option (list Z) :=
  if lba =? 0 then
    Some (Gpt.put (Gpt.put (Gpt.put Gpt.blank 450 [0x83]) 454 [63;0;0;0;100;0;0;0]) 510 [0x55;0xaa])
  else Some Gpt.blank.

Definition example_hd : hd_disk := hd_setup_disk example_issue (fun _ => true) 1000.

Lemma hd_request_contained_witness :
  exists start limit, hd_window example_hd 1 = inr (start, limit) /\
    73 = start + 10 /\ 90 = 90 /\ start <= 73 /\ 73 + 90 <= start + limit /\
    start + limit <= total_sectors example_hd.
Proof.
  apply (hd_request_contained example_issue (fun _ => true) 1000 [example_hd] 1 10 90
           example_hd 1 73 90); try lia.
  - intros lba l. unfold example_issue. case_match; intros [= <-];
      by apply Gpt.u8b_all; vm_compute.
  - by vm_compute.
  - done.
  - by vm_compute.
Defined.

End Hd.
