(* ===== verification/PageAlloc.v ===== *)
(** * Buddy page allocator ([mm/page_alloc.c])

    The free lists of the eleven orders and the buddy bitmaps, with
    [alloc_pages], [free_pages] and [expand] step for step, every assertion
    included ([None] when one fails).  A [struct page] is its page frame number;
    a free list is the list of the pages linked in it, head first; a bitmap is
    the bit string it stores. *)
From S2P Require Import Prelude.

Module PageAlloc.

Definition MAX_ORDER : nat := 11.

Definition ORDER_PAGES (order : nat) : Z := 2 ^ Z.of_nat order.
Definition ORDER_MASK (order : nat) : Z := ORDER_PAGES order - 1.

(** [free_area[]], indexed by the order. *)
Record t := mk {
  free_list : nat -> list Z;
  map : nat -> Z;
}.

Section buddy.
Context (max_pfn : Z).

Definition map_size (order : nat) : Z := Z.shiftr max_pfn (Z.of_nat order + 1).

(** [__free_area_bitmap_bits] *)
Definition free_area_bitmap_bits (order : nat) : Z :=
  Z.shiftl (Z.shiftr (map_size order + 31) 5) 5.

Definition set_list (s : t) (order : nat) (l : list Z) : t :=
  mk (<[order := l]> (free_list s)) (map s).

Definition change_bit (s : t) (order : nat) (nr : Z) : t :=
  mk (free_list s) (<[order := Z.lxor (map s order) (Z.shiftl 1 nr)]> (map s)).

Definition linked (s : t) (page : Z) : bool :=
  existsb (fun o => bool_decide (page ∈ free_list s o)) (seq 0 MAX_ORDER).

(** [__free_list_del]: the assertions say that the page is linked in some free
    list; it is unlinked from that list. *)
Definition free_list_del (s : t) (page : Z) : option t :=
  assert! linked s page ;;
  Some (mk (fun o => filter (fun q => q <> page) (free_list s o)) (map s)).

(** [__free_list_add] *)
Definition free_list_add (s : t) (page : Z) (order : nat) : option t :=
  assert! (order <? MAX_ORDER)%nat ;;
  assert! 0 <=? page ;;
  assert! page <? max_pfn ;;
  assert! Z.land page (ORDER_MASK order) =? 0 ;;
  Some (set_list s order (free_list s order ++ [page])).

(** The search loop of [alloc_pages]: the first non-empty order from [n], or
    [None] after the last one. *)
Fixpoint find_order (fuel : nat) (s : t) (n : nat) : option nat :=
  match free_list s n with
  | _ :: _ => Some n
  | [] => if (n =? MAX_ORDER - 1)%nat then None else
          match fuel with
          | O => None
          | S fuel' => find_order fuel' s (S n)
          end
  end.

(** The split loop of [alloc_pages], for the block [page] of order [order + d]. *)
Fixpoint split_loop (d : nat) (order : nat) (page : Z) (s : t) : option t :=
  let n := (order + d)%nat in
  let nr := Z.shiftr page (Z.of_nat n + 1) in
  assert! nr <? free_area_bitmap_bits n ;;
  let s := change_bit s n nr in
  match d with
  | O => Some s
  | S d' =>
    match free_list_add s (page + ORDER_PAGES (order + d')) (order + d') with
    | None => None
    | Some s' => split_loop d' order page s'
    end
  end.

(** [alloc_pages]: the new state and the page ([None] for NULL). *)
Definition alloc_pages (s : t) (order : nat) : option (t * option Z) :=
  assert! (order <? MAX_ORDER)%nat ;;
  match find_order MAX_ORDER s order with
  | None => Some (s, None)
  | Some n =>
    match free_list s n with
    | [] => None
    | page :: _ =>
      assert! 0 <=? page ;;
      assert! page <? max_pfn ;;
      assert! Z.land page (ORDER_MASK n) =? 0 ;;
      match free_list_del s page with
      | None => None
      | Some s1 =>
        match split_loop (n - order) order page s1 with
        | None => None
        | Some s2 => Some (s2, Some page)
        end
      end
    end
  end.

(** [expand]: unlinks the buddy of [page] and returns the lower of the pair. *)
Definition expand (s : t) (page : Z) (order : nat) : option (t * Z) :=
  assert! (order <? MAX_ORDER - 1)%nat ;;
  assert! 0 <=? page ;;
  assert! page <? max_pfn ;;
  assert! Z.land page (ORDER_MASK order) =? 0 ;;
  let res := Z.shiftl (Z.shiftr page (Z.of_nat order + 1)) (Z.of_nat order + 1) in
  assert! (page =? res) || (page =? res + ORDER_PAGES order) ;;
  let buddy := if page =? res then page + ORDER_PAGES order else page - ORDER_PAGES order in
  match free_list_del s buddy with
  | None => None
  | Some s' => Some (s', res)
  end.

(** The merge loop of [free_pages] with the final [__free_list_add];
    [d] is [MAX_ORDER - 1 - order]. *)
Fixpoint merge_loop (d : nat) (order : nat) (page : Z) (s : t) : option t :=
  let nr := Z.shiftr page (Z.of_nat order + 1) in
  assert! nr <? free_area_bitmap_bits order ;;
  let old := Z.testbit (map s order) nr in
  let s := change_bit s order nr in
  if negb old then free_list_add s page order else
  if (order =? MAX_ORDER - 1)%nat then free_list_add s page order else
  match d with
  | O => None
  | S d' =>
    match expand s page order with
    | None => None
    | Some (s', page') => merge_loop d' (S order) page' s'
    end
  end.

Definition free_pages (s : t) (page : Z) (order : nat) : option t :=
  assert! (order <? MAX_ORDER)%nat ;;
  assert! 0 <=? page ;;
  assert! page <? max_pfn ;;
  assert! Z.land page (ORDER_MASK order) =? 0 ;;
  merge_loop (MAX_ORDER - 1 - order) order page s.

Definition alloc_page (s : t) : option (t * option Z) := alloc_pages s 0.
Definition free_page (s : t) (page : Z) : option t := free_pages s page 0.

(** The state before the memory map is handed to the allocator: empty lists and
    cleared bitmaps. *)
Definition empty_areas : t := mk (fun _ => []) (fun _ => 0).

(** [free_page] on every page of a range, as the loops of [page_alloc_init] do. *)
Fixpoint free_range (n : nat) (pfn : Z) (s : t) : option t :=
  match n with
  | O => Some s
  | S n' => match free_page s pfn with
            | None => None
            | Some s' => free_range n' (pfn + 1) s'
            end
  end.

(** ** Invariant *)

(** [page] heads a block of order [order] inside memory. *)
Record block (order : nat) (page : Z) : Prop := {
  b_order : (order < MAX_ORDER)%nat;
  b_lo : 0 <= page;
  b_hi : page + ORDER_PAGES order <= max_pfn;
  b_aligned : (ORDER_PAGES order | page);
}.

Definition apart (o : nat) (p : Z) (o' : nat) (p' : Z) : Prop :=
  p + ORDER_PAGES o <= p' \/ p' + ORDER_PAGES o' <= p.

(** The bit of a pair of buddies is set when exactly one of them is free. *)
Definition bit_ok (s : t) (o : nat) (nr : Z) : Prop :=
  Z.testbit (map s o) nr =
    xorb (bool_decide (2 * nr * ORDER_PAGES o ∈ free_list s o))
         (bool_decide ((2 * nr + 1) * ORDER_PAGES o ∈ free_list s o)).

(** The list part of the invariant. *)
Record lists_ok (s : t) : Prop := {
  lo_block : forall o p, p ∈ free_list s o -> block o p;
  lo_nodup : forall o, NoDup (free_list s o);
  lo_apart : forall o p o' p', p ∈ free_list s o -> p' ∈ free_list s o' ->
               (o = o' /\ p = p') \/ apart o p o' p';
  lo_merged : forall o nr, (o < MAX_ORDER - 1)%nat ->
               2 * nr * ORDER_PAGES o ∈ free_list s o ->
               (2 * nr + 1) * ORDER_PAGES o ∈ free_list s o -> False;
}.

Record inv (s : t) : Prop := {
  i_lists : lists_ok s;
  i_bits : forall o nr, (o < MAX_ORDER)%nat -> 0 <= nr -> bit_ok s o nr;
}.

(** A block that is not on any list and overlaps none of the free blocks. *)
Record held (s : t) (o : nat) (p : Z) : Prop := {
  h_block : block o p;
  h_apart : forall o' p', p' ∈ free_list s o' -> apart o p o' p';
}.

(** The pages an allocation can come from. *)
Definition free (s : t) (x : Z) : Prop :=
  exists o p, p ∈ free_list s o /\ p <= x < p + ORDER_PAGES o.

Definition in_block (o : nat) (p x : Z) : Prop := p <= x < p + ORDER_PAGES o.

(** The bitmaps are large enough for every block of the machine. *)
Definition bitmaps_cover : Prop :=
  forall o p, block o p -> Z.shiftr p (Z.of_nat o + 1) < free_area_bitmap_bits o.

(** ** Blocks and alignment *)

Lemma ORDER_PAGES_pos o : 0 < ORDER_PAGES o.
Proof. unfold ORDER_PAGES. apply Z.pow_pos_nonneg; lia. Qed.

Lemma ORDER_PAGES_S o : ORDER_PAGES (S o) = 2 * ORDER_PAGES o.
Proof. unfold ORDER_PAGES. rewrite Nat2Z.inj_succ, Z.pow_succ_r by lia. done. Qed.

Lemma ORDER_PAGES_divide o o' : (o <= o')%nat -> (ORDER_PAGES o | ORDER_PAGES o').
Proof.
  intros. unfold ORDER_PAGES. exists (2 ^ Z.of_nat (o' - o)).
  rewrite <- Z.pow_add_r by lia. f_equal. lia.
Qed.

Lemma aligned_mask o p : Z.land p (ORDER_MASK o) = 0 <-> (ORDER_PAGES o | p).
Proof.
  unfold ORDER_MASK. replace (ORDER_PAGES o - 1) with (Z.ones (Z.of_nat o))
    by (rewrite Z.ones_equiv; done).
  rewrite Z.land_ones by lia. pose proof (ORDER_PAGES_pos o). unfold ORDER_PAGES in *.
  rewrite Z.mod_divide by lia. done.
Qed.

Lemma shiftr_pair o p : Z.shiftr p (Z.of_nat o + 1) = p / (2 * ORDER_PAGES o).
Proof.
  rewrite Z.shiftr_div_pow2, Z.pow_add_r by lia. unfold ORDER_PAGES. f_equal. lia.
Qed.

(** A block is the lower or the upper one of its pair. *)
Lemma pair_cases o p : (ORDER_PAGES o | p) ->
  let nr := Z.shiftr p (Z.of_nat o + 1) in
  p = 2 * nr * ORDER_PAGES o \/ p = (2 * nr + 1) * ORDER_PAGES o.
Proof.
  intros [k ->]. simpl. rewrite shiftr_pair. pose proof (ORDER_PAGES_pos o).
  rewrite Z.div_mul_cancel_r by lia.
  pose proof (Z.div_mod k 2 ltac:(lia)). pose proof (Z.mod_pos_bound k 2 ltac:(lia)).
  assert (k = 2 * (k / 2) \/ k = 2 * (k / 2) + 1) as [E|E] by lia; [left|right]; nia.
Qed.

Lemma shiftr_lower o nr : Z.shiftr (2 * nr * ORDER_PAGES o) (Z.of_nat o + 1) = nr.
Proof.
  rewrite shiftr_pair. pose proof (ORDER_PAGES_pos o).
  replace (2 * nr * ORDER_PAGES o) with (nr * (2 * ORDER_PAGES o)) by lia.
  apply Z.div_mul. lia.
Qed.

Lemma shiftr_upper o nr : Z.shiftr ((2 * nr + 1) * ORDER_PAGES o) (Z.of_nat o + 1) = nr.
Proof.
  rewrite shiftr_pair. pose proof (ORDER_PAGES_pos o).
  replace ((2 * nr + 1) * ORDER_PAGES o) with (ORDER_PAGES o + nr * (2 * ORDER_PAGES o)) by lia.
  rewrite Z.div_add, Z.div_small by lia. lia.
Qed.

Lemma block_nonneg_pair o p : block o p -> 0 <= Z.shiftr p (Z.of_nat o + 1).
Proof. intros []. rewrite shiftr_pair. apply Z.div_pos; [done|]. pose proof (ORDER_PAGES_pos o). lia. Qed.

Lemma block_lower_half o p : block (S o) p -> block o p.
Proof.
  intros []. pose proof (ORDER_PAGES_pos o). rewrite ORDER_PAGES_S in *.
  split; try lia. eapply Z.divide_trans; [|exact b_aligned0]. exists 2. lia.
Qed.

Lemma block_upper_half o p : block (S o) p -> block o (p + ORDER_PAGES o).
Proof.
  intros H. pose proof (block_lower_half _ _ H) as []. destruct H. pose proof (ORDER_PAGES_pos o).
  rewrite ORDER_PAGES_S in *. split; try lia.
  apply Z.divide_add_r; [done|]. apply Z.divide_refl.
Qed.

(** The halves of a block form one pair. *)
Lemma halves_pair o p : block (S o) p ->
  let nr := Z.shiftr p (Z.of_nat o + 1) in
  p = 2 * nr * ORDER_PAGES o /\ p + ORDER_PAGES o = (2 * nr + 1) * ORDER_PAGES o.
Proof.
  intros [_ _ _ [k ->]]. simpl. rewrite shiftr_pair, ORDER_PAGES_S.
  pose proof (ORDER_PAGES_pos o). rewrite Z.div_mul by lia. lia.
Qed.

(** ** Membership bits *)

Definition pair_bit (s : t) (o : nat) (nr : Z) : bool :=
  xorb (bool_decide (2 * nr * ORDER_PAGES o ∈ free_list s o))
       (bool_decide ((2 * nr + 1) * ORDER_PAGES o ∈ free_list s o)).

(** All the bits are right, except that of pair [nr] of order [o] when [b]. *)
Definition bits_but (s : t) (o : nat) (nr : Z) (b : bool) : Prop :=
  forall o' nr', (o' < MAX_ORDER)%nat -> 0 <= nr' ->
    Z.testbit (map s o') nr' = xorb (pair_bit s o' nr') (b && bool_decide (o' = o /\ nr' = nr)).

Lemma bits_but_false s o nr :
  bits_but s o nr false <-> forall o nr, (o < MAX_ORDER)%nat -> 0 <= nr -> bit_ok s o nr.
Proof.
  unfold bits_but, bit_ok. simpl. setoid_rewrite xorb_false_r. done.
Qed.

Lemma testbit_toggle m nr k : 0 <= nr -> 0 <= k ->
  Z.testbit (Z.lxor m (Z.shiftl 1 nr)) k = xorb (Z.testbit m k) (bool_decide (k = nr)).
Proof.
  intros Hn Hk. rewrite Z.lxor_spec. f_equal.
  rewrite Z.shiftl_1_l. case_bool_decide as E.
  - subst. by apply Z.pow2_bits_true.
  - by apply Z.pow2_bits_false.
Qed.

(** Toggling a bit and changing the membership of one of its blocks have the
    same effect on the agreement of bits and lists. *)
Lemma bits_but_change s o nr b : 0 <= nr ->
  bits_but s o nr b -> bits_but (change_bit s o nr) o nr (negb b).
Proof.
  intros Hnr H o' nr' Ho Hn. simpl. unfold pair_bit. simpl.
  specialize (H o' nr' Ho Hn). unfold pair_bit in H.
  destruct (decide (o = o')) as [<-|Hne].
  - rewrite fn_lookup_insert, testbit_toggle, H by done.
    destruct (decide (nr' = nr)) as [->|Hn'].
    + rewrite (bool_decide_eq_true_2 (nr = nr)), (bool_decide_eq_true_2 (o = o /\ nr = nr)) by done.
      rewrite xorb_assoc. f_equal. by destruct b.
    + rewrite (bool_decide_eq_false_2 (nr' = nr)), (bool_decide_eq_false_2 (o = o /\ nr' = nr))
        by (intros ?; destruct_and?; done).
      by rewrite !andb_false_r, xorb_false_r.
  - rewrite fn_lookup_insert_ne, H by done.
    rewrite (bool_decide_eq_false_2 (o' = o /\ nr' = nr)) by (intros ?; destruct_and?; congruence).
    by rewrite !andb_false_r.
Qed.

(** [s'] is [s] with the membership of block [(o, p)] inverted. *)
Record flipped (s s' : t) (o : nat) (p : Z) : Prop := {
  fl_map : map s' = map s;
  fl_same : forall o' q, (o', q) <> (o, p) -> (q ∈ free_list s' o' <-> q ∈ free_list s o');
  fl_flip : p ∈ free_list s' o <-> ~ p ∈ free_list s o;
}.

Lemma bits_but_flip s s' o p b : (ORDER_PAGES o | p) -> flipped s s' o p ->
  bits_but s o (Z.shiftr p (Z.of_nat o + 1)) b ->
  bits_but s' o (Z.shiftr p (Z.of_nat o + 1)) (negb b).
Proof.
  intros Hp [Hm Hs Hf] H o' nr' Ho Hn. rewrite Hm, (H o' nr' Ho Hn).
  set (nr := Z.shiftr p _). pose proof (ORDER_PAGES_pos o') as Hpos.
  unfold pair_bit.
  destruct (decide (o' = o /\ nr' = nr)) as [[-> ->]|Hne].
  - rewrite (bool_decide_eq_true_2 (o = o /\ nr = nr)), !andb_true_r by done.
    destruct (pair_cases o p Hp) as [E|E]; fold nr in E.
    + assert (H1 : bool_decide (2 * nr * ORDER_PAGES o ∈ free_list s' o) =
                   negb (bool_decide (2 * nr * ORDER_PAGES o ∈ free_list s o)))
        by (rewrite <- bool_decide_not, <- E; by apply bool_decide_ext).
      assert (H2 : bool_decide ((2 * nr + 1) * ORDER_PAGES o ∈ free_list s' o) =
                   bool_decide ((2 * nr + 1) * ORDER_PAGES o ∈ free_list s o))
        by (apply bool_decide_ext, Hs; intros [=]; lia).
      rewrite H1, H2. clear H1 H2.
      generalize (bool_decide (2 * nr * ORDER_PAGES o ∈ free_list s o)).
      generalize (bool_decide ((2 * nr + 1) * ORDER_PAGES o ∈ free_list s o)).
      by intros [] []; destruct b.
    + assert (H1 : bool_decide ((2 * nr + 1) * ORDER_PAGES o ∈ free_list s' o) =
                   negb (bool_decide ((2 * nr + 1) * ORDER_PAGES o ∈ free_list s o)))
        by (rewrite <- bool_decide_not, <- E; by apply bool_decide_ext).
      assert (H2 : bool_decide (2 * nr * ORDER_PAGES o ∈ free_list s' o) =
                   bool_decide (2 * nr * ORDER_PAGES o ∈ free_list s o))
        by (apply bool_decide_ext, Hs; intros [=]; lia).
      rewrite H1, H2. clear H1 H2.
      generalize (bool_decide (2 * nr * ORDER_PAGES o ∈ free_list s o)).
      generalize (bool_decide ((2 * nr + 1) * ORDER_PAGES o ∈ free_list s o)).
      by intros [] []; destruct b.
  - rewrite (bool_decide_eq_false_2 (o' = o /\ nr' = nr)), !andb_false_r by done.
    assert (Hx : forall q, Z.shiftr q (Z.of_nat o' + 1) = nr' ->
      bool_decide (q ∈ free_list s o') = bool_decide (q ∈ free_list s' o')).
    { intros q Hq. symmetry. apply bool_decide_ext, Hs. intros [= -> ->]. by apply Hne. }
    f_equal. f_equal; apply Hx; [apply shiftr_lower|apply shiftr_upper].
Qed.

(** ** The list operations *)

Lemma held_not_in s o p o' : held s o p -> ~ p ∈ free_list s o'.
Proof.
  intros [Hb Ha] Hin. specialize (Ha _ _ Hin). unfold apart in Ha.
  pose proof (ORDER_PAGES_pos o). pose proof (ORDER_PAGES_pos o'). lia.
Qed.

Lemma block_asserts o p : block o p ->
  (o <? MAX_ORDER)%nat = true /\ (0 <=? p) = true /\ (p <? max_pfn) = true /\
  (Z.land p (ORDER_MASK o) =? 0) = true.
Proof.
  intros []. pose proof (ORDER_PAGES_pos o). repeat split.
  - by apply Nat.ltb_lt.
  - lia.
  - lia.
  - apply Z.eqb_eq. by apply aligned_mask.
Qed.

Lemma elem_set_list s o l o' q :
  q ∈ free_list (set_list s o l) o' <-> if decide (o = o') then q ∈ l else q ∈ free_list s o'.
Proof. unfold set_list, insert, fn_insert. simpl. by case_decide. Qed.

Lemma free_list_add_ok s o p : lists_ok s -> held s o p ->
  ((o < MAX_ORDER - 1)%nat -> pair_bit s o (Z.shiftr p (Z.of_nat o + 1)) = false) ->
  exists s', free_list_add s p o = Some s' /\ lists_ok s' /\ flipped s s' o p /\
    forall o' q, q ∈ free_list s' o' <-> q ∈ free_list s o' \/ (o' = o /\ q = p).
Proof.
  intros Hl Hh Hpair. pose proof (h_block _ _ _ Hh) as Hb.
  destruct (block_asserts _ _ Hb) as (E1 & E2 & E3 & E4).
  unfold free_list_add. rewrite E1, E2, E3, E4. eexists. split; [done|].
  assert (Hmem : forall o' q, q ∈ free_list (set_list s o (free_list s o ++ [p])) o' <->
    q ∈ free_list s o' \/ (o' = o /\ q = p)).
  { intros o' q. rewrite elem_set_list. case_decide as E; [subst|naive_solver].
    rewrite elem_of_app, list_elem_of_singleton. naive_solver. }
  pose proof (held_not_in _ _ _ o Hh) as Hni.
  split; [|split; [|done]].
  - destruct Hl as [Hlb Hln Hla Hlm]. split.
    + intros o' q. rewrite Hmem. intros [?|[-> ->]]; [by apply Hlb|done].
    + intros o'. unfold set_list, insert, fn_insert. simpl. case_decide; [subst|done].
      apply NoDup_app. repeat split; [done| |apply NoDup_singleton].
      intros q Hq ->%list_elem_of_singleton. done.
    + intros o1 p1 o2 p2. rewrite !Hmem. intros [H1|[-> ->]] [H2|[-> ->]]; [by apply Hla| | |by left].
      * right. destruct (h_apart _ _ _ Hh _ _ H1); [by right|by left].
      * right. by apply Hh.
    + intros o' nr Ho. rewrite !Hmem. pose proof (ORDER_PAGES_pos o').
      intros [H1|[-> E]] [H2|[E' E'']]; [by eapply Hlm|subst o'| |lia].
      * specialize (Hpair Ho). rewrite <- E'', shiftr_upper in Hpair.
        unfold pair_bit in Hpair. rewrite bool_decide_eq_true_2, bool_decide_eq_false_2 in Hpair by
          (done || (rewrite E''; done)). done.
      * specialize (Hpair Ho). rewrite <- E, shiftr_lower in Hpair.
        unfold pair_bit in Hpair. rewrite bool_decide_eq_false_2, bool_decide_eq_true_2 in Hpair by
          (done || (rewrite E; done)). done.
  - split; [done| |].
    + intros o' q Hne. rewrite Hmem. naive_solver.
    + rewrite Hmem. naive_solver.
Qed.

Lemma free_list_del_ok s o p : lists_ok s -> p ∈ free_list s o ->
  exists s', free_list_del s p = Some s' /\ lists_ok s' /\ held s' o p /\ flipped s s' o p /\
    forall o' q, q ∈ free_list s' o' <-> q ∈ free_list s o' /\ q <> p.
Proof.
  intros Hl Hin. pose proof (lo_block _ Hl _ _ Hin) as Hb.
  assert (Hlk : linked s p = true).
  { unfold linked. apply existsb_exists. exists o. split.
    - apply in_seq. destruct Hb. lia.
    - by apply bool_decide_eq_true. }
  unfold free_list_del. rewrite Hlk. eexists. split; [done|].
  assert (Hmem : forall o' q, q ∈ filter (fun q => q <> p) (free_list s o') <->
    q ∈ free_list s o' /\ q <> p).
  { intros. rewrite list_elem_of_filter. naive_solver. }
  destruct Hl as [Hlb Hln Hla Hlm]. split; [|split; [|split]]; simpl.
  - split; simpl.
    + intros o' q. rewrite Hmem. naive_solver.
    + intros o'. by apply NoDup_filter.
    + intros o1 p1 o2 p2. rewrite !Hmem. naive_solver.
    + intros o' nr Ho. rewrite !Hmem. naive_solver.
  - split; [done|]. simpl. intros o' p'. rewrite Hmem. intros [H1 H2].
    destruct (Hla _ _ _ _ Hin H1) as [[-> ->]|]; done.
  - split; [done| |]; simpl.
    + intros o' q Hne. rewrite Hmem. split; [by intros [? _]|]. intros Hq. split; [done|].
      intros ->. destruct (Hla _ _ _ _ Hin Hq) as [[-> _]|Ha]; [done|].
      unfold apart in Ha. pose proof (ORDER_PAGES_pos o). pose proof (ORDER_PAGES_pos o'). lia.
    + rewrite Hmem. naive_solver.
  - intros. by rewrite Hmem.
Qed.

Lemma lists_ok_change s o nr : lists_ok s -> lists_ok (change_bit s o nr).
Proof. by intros []. Qed.

Lemma held_change s o nr o' p : held s o' p -> held (change_bit s o nr) o' p.
Proof. by intros []. Qed.

Lemma held_lower s o p : held s (S o) p -> held s o p.
Proof.
  intros [Hb Ha]. split; [by apply block_lower_half|].
  intros o' p' Hin. specialize (Ha _ _ Hin). unfold apart in *.
  rewrite ORDER_PAGES_S in Ha. pose proof (ORDER_PAGES_pos o). lia.
Qed.

Lemma held_upper s o p : held s (S o) p -> held s o (p + ORDER_PAGES o).
Proof.
  intros [Hb Ha]. split; [by apply block_upper_half|].
  intros o' p' Hin. specialize (Ha _ _ Hin). unfold apart in *.
  rewrite ORDER_PAGES_S in Ha. pose proof (ORDER_PAGES_pos o). lia.
Qed.

(** ** The loops *)

Lemma free_add s s' o p :
  (forall o' q, q ∈ free_list s' o' <-> q ∈ free_list s o' \/ (o' = o /\ q = p)) ->
  forall x, free s' x <-> free s x \/ in_block o p x.
Proof.
  intros Hm x. unfold free, in_block. setoid_rewrite Hm. split.
  - intros (o' & q & [Hin|[-> ->]] & Hx); [left; eauto|by right].
  - intros [(o' & q & Hin & Hx)|Hx]; eauto 10.
Qed.

Lemma free_del s s' o p : lists_ok s -> p ∈ free_list s o ->
  (forall o' q, q ∈ free_list s' o' <-> q ∈ free_list s o' /\ q <> p) ->
  forall x, free s x <-> free s' x \/ in_block o p x.
Proof.
  intros Hl Hin Hm x. unfold free, in_block. setoid_rewrite Hm. split.
  - intros (o' & q & Hq & Hx). destruct (decide (q = p)) as [->|]; [right|left; eauto].
    destruct (lo_apart _ Hl _ _ _ _ Hin Hq) as [[<- _]|Ha]; [done|].
    unfold apart in Ha. pose proof (ORDER_PAGES_pos o). pose proof (ORDER_PAGES_pos o'). lia.
  - intros [(o' & q & [Hq _] & Hx)|Hx]; eauto.
Qed.

Lemma held_not_free s o p x : held s o p -> in_block o p x -> ~ free s x.
Proof.
  intros [_ Ha] Hx (o' & p' & Hin & Hx'). specialize (Ha _ _ Hin).
  unfold apart, in_block in *. lia.
Qed.

Lemma held_buddy_bit s o p : held s o p -> (o < MAX_ORDER)%nat ->
  pair_bit s o (Z.shiftr p (Z.of_nat o + 1)) =
    bool_decide ((if bool_decide (p = 2 * Z.shiftr p (Z.of_nat o + 1) * ORDER_PAGES o)
                  then p + ORDER_PAGES o else p - ORDER_PAGES o) ∈ free_list s o).
Proof.
  intros Hh Ho. pose proof (held_not_in _ _ _ o Hh) as Hni.
  destruct (h_block _ _ _ Hh) as [_ _ _ Ha]. set (nr := Z.shiftr p _).
  pose proof (ORDER_PAGES_pos o). unfold pair_bit.
  destruct (pair_cases o p Ha) as [E|E]; fold nr in E; rewrite <- E.
  - rewrite (bool_decide_eq_true_2 (p = p)), (bool_decide_eq_false_2 (p ∈ _)) by done.
    simpl. by replace ((2 * nr + 1) * ORDER_PAGES o) with (p + ORDER_PAGES o) by lia.
  - rewrite (bool_decide_eq_false_2 (p ∈ _)), xorb_false_r by done.
    rewrite (bool_decide_eq_false_2 (p = 2 * nr * ORDER_PAGES o)) by lia.
    by replace (2 * nr * ORDER_PAGES o) with (p - ORDER_PAGES o) by lia.
Qed.

Lemma split_loop_ok d o p s : bitmaps_cover -> (o + d < MAX_ORDER)%nat ->
  lists_ok s -> held s (o + d) p ->
  bits_but s (o + d) (Z.shiftr p (Z.of_nat (o + d) + 1)) true ->
  exists s', split_loop d o p s = Some s' /\ inv s' /\ held s' o p /\
    forall x, free s' x \/ in_block o p x <-> free s x \/ in_block (o + d) p x.
Proof.
  intros Hcov. revert s. induction d as [|d IH]; intros s Ho Hl Hh Hbits; simpl.
  - rewrite Nat.add_0_r in *.
    rewrite (proj2 (Z.ltb_lt _ _) (Hcov _ _ (h_block _ _ _ Hh))).
    pose proof (block_nonneg_pair _ _ (h_block _ _ _ Hh)).
    apply bits_but_change in Hbits; [|done]. simpl in Hbits.
    eexists. split; [done|]. split; [|split; [by apply held_change|done]].
    split; [by apply lists_ok_change|by eapply bits_but_false].
  - replace (o + S d)%nat with (S (o + d)) in * by lia.
    rewrite (proj2 (Z.ltb_lt _ _) (Hcov _ _ (h_block _ _ _ Hh))).
    pose proof (block_nonneg_pair _ _ (h_block _ _ _ Hh)).
    apply bits_but_change in Hbits; [|done]. simpl in Hbits.
    set (s1 := change_bit s _ _) in *.
    assert (Hl1 : lists_ok s1) by (by apply lists_ok_change).
    assert (Hh1 : held s1 (S (o + d)) p) by (by apply held_change).
    assert (Hb1 : bits_but s1 (o + d) (Z.shiftr p (Z.of_nat (o + d) + 1)) false)
      by (eapply bits_but_false, bits_but_false, Hbits).
    pose proof (held_upper _ _ _ Hh1) as Hup. pose proof (held_lower _ _ _ Hh1) as Hlow.
    destruct (halves_pair _ _ (h_block _ _ _ Hh)) as [Ep Eq].
    assert (Epair : Z.shiftr (p + ORDER_PAGES (o + d)) (Z.of_nat (o + d) + 1)
                    = Z.shiftr p (Z.of_nat (o + d) + 1)) by (rewrite Eq; apply shiftr_upper).
    destruct (free_list_add_ok s1 (o + d) (p + ORDER_PAGES (o + d)) Hl1 Hup)
      as (s2 & -> & Hl2 & Hfl & Hmem).
    { intros _. rewrite Epair. unfold pair_bit. rewrite <- Ep, <- Eq.
      by rewrite !bool_decide_eq_false_2 by (by eapply held_not_in). }
    pose proof (bits_but_flip s1 s2 _ _ false (b_aligned _ _ (h_block _ _ _ Hup)) Hfl) as Hb2.
    rewrite Epair in Hb2. specialize (Hb2 Hb1). simpl in Hb2.
    assert (Hh2 : held s2 (o + d) p).
    { split; [by apply Hlow|]. intros o' q. rewrite Hmem. intros [Hq|[-> ->]]; [by apply Hlow|].
      unfold apart. lia. }
    destruct (IH s2 ltac:(lia) Hl2 Hh2 Hb2) as (s' & -> & Hinv & Hheld & Hfree).
    exists s'. split; [done|]. split; [done|]. split; [done|].
    intros x. rewrite Hfree. rewrite (free_add s1 s2 _ _ Hmem).
    unfold in_block. rewrite ORDER_PAGES_S. pose proof (ORDER_PAGES_pos (o + d)).
    change (free s1 x) with (free s x). intuition lia.
Qed.

Lemma find_order_spec fuel s n : (n < MAX_ORDER)%nat -> (MAX_ORDER <= n + fuel)%nat ->
  match find_order fuel s n with
  | Some m => (n <= m < MAX_ORDER)%nat /\ free_list s m <> []
  | None => forall m, (n <= m < MAX_ORDER)%nat -> free_list s m = []
  end.
Proof.
  unfold MAX_ORDER. revert n. induction fuel as [|fuel IH]; intros n Hn Hf; [lia|]. simpl.
  destruct (free_list s n) eqn:E; [|rewrite E; split; [lia|done]].
  destruct (Nat.eqb_spec n 10) as [->|Hne].
  { intros m Hm. assert (m = 10)%nat as -> by lia. done. }
  specialize (IH (S n) ltac:(lia) ltac:(lia)). destruct (find_order fuel s (S n)).
  - destruct IH. split; [lia|done].
  - intros m Hm. destruct (decide (m = n)) as [->|]; [done|]. apply IH. lia.
Qed.

Lemma alloc_pages_ok s o : bitmaps_cover -> inv s -> (o < MAX_ORDER)%nat ->
  exists s' r, alloc_pages s o = Some (s', r) /\ inv s' /\
    match r with
    | Some p => held s' o p /\ (forall x, free s' x \/ in_block o p x <-> free s x)
    | None => s' = s /\ forall m, (o <= m < MAX_ORDER)%nat -> free_list s m = []
    end.
Proof.
  intros Hcov [Hl Hbits] Ho. unfold alloc_pages. rewrite (proj2 (Nat.ltb_lt _ _) Ho).
  pose proof (find_order_spec MAX_ORDER s o Ho ltac:(lia)) as Hf.
  destruct (find_order MAX_ORDER s o) as [n|]; [|by exists s, None].
  destruct Hf as [Hn Hne]. destruct (free_list s n) as [|p l] eqn:E; [done|].
  assert (Hin : p ∈ free_list s n) by (rewrite E; left).
  destruct (block_asserts _ _ (lo_block _ Hl _ _ Hin)) as (_ & -> & -> & ->).
  destruct (free_list_del_ok s n p Hl Hin) as (s1 & -> & Hl1 & Hh1 & Hfl & Hmem).
  assert (Hb1 := bits_but_flip s s1 n p false (b_aligned _ _ (h_block _ _ _ Hh1)) Hfl
                   (proj2 (bits_but_false _ _ _) Hbits)). simpl in Hb1.
  replace n with (o + (n - o))%nat in Hh1, Hb1 by lia.
  destruct (split_loop_ok (n - o) o p s1 Hcov ltac:(lia) Hl1 Hh1 Hb1)
    as (s2 & -> & Hinv & Hh2 & Hfree).
  exists s2, (Some p). split; [done|]. split; [done|]. split; [done|].
  intros x. rewrite Hfree. symmetry. replace (o + (n - o))%nat with n by lia.
  by apply free_del.
Qed.

(** One round of the merge loop, after the bit has been toggled: either the
    block is added, or its buddy is taken off and the pair is held. *)
Lemma merge_step o p s : lists_ok s ->
  (forall o nr, (o < MAX_ORDER)%nat -> 0 <= nr -> bit_ok s o nr) -> held s o p ->
  let nr := Z.shiftr p (Z.of_nat o + 1) in
  let s1 := change_bit s o nr in
  ((o = MAX_ORDER - 1)%nat \/ Z.testbit (map s o) nr = false ->
    exists s', free_list_add s1 p o = Some s' /\ inv s' /\
      forall x, free s' x <-> free s x \/ in_block o p x) /\
  ((o < MAX_ORDER - 1)%nat -> Z.testbit (map s o) nr = true ->
    exists s' res, expand s1 p o = Some (s', res) /\ inv s' /\ held s' (S o) res /\
      forall x, free s' x \/ in_block (S o) res x <-> free s x \/ in_block o p x).
Proof.
  intros Hl Hbits Hh nr s1.
  pose proof (h_block _ _ _ Hh) as Hb. pose proof (block_nonneg_pair _ _ Hb) as Hnr. fold nr in Hnr.
  pose proof (b_order _ _ Hb) as Ho.
  assert (Hold : Z.testbit (map s o) nr = pair_bit s o nr) by (by apply Hbits).
  rewrite Hold.
  assert (Hb1 : bits_but s1 o nr true) by (by apply (bits_but_change s o nr false), bits_but_false).
  assert (Hl1 : lists_ok s1) by (by apply lists_ok_change).
  assert (Hh1 : held s1 o p) by (by apply held_change).
  split.
  - intros Hcase.
    destruct (free_list_add_ok s1 o p Hl1 Hh1) as (s' & -> & Hl' & Hfl & Hmem).
    { intros Hlt. fold nr. destruct Hcase as [->|E]; [lia|exact E]. }
    exists s'. split; [done|]. split.
    + split; [done|]. eapply (bits_but_false s' o nr).
      by apply (bits_but_flip s1 s' o p true (b_aligned _ _ Hb) Hfl).
    + by apply (free_add s1).
  - intros Hlt Hbit. destruct (block_asserts _ _ Hb) as (_ & E2 & E3 & E4).
    unfold expand. rewrite (proj2 (Nat.ltb_lt _ _) Hlt), E2, E3, E4.
    assert (Eres : Z.shiftl (Z.shiftr p (Z.of_nat o + 1)) (Z.of_nat o + 1) = 2 * nr * ORDER_PAGES o).
    { fold nr. rewrite Z.shiftl_mul_pow2, Z.pow_add_r by lia. unfold ORDER_PAGES. lia. }
    rewrite Eres. pose proof (ORDER_PAGES_pos o) as Hpos.
    pose proof (held_buddy_bit s o p Hh Ho) as Hbb. fold nr in Hbb. rewrite Hbb in Hbit. clear Hbb.
    apply bool_decide_eq_true in Hbit.
    assert (Hchk : (p =? 2 * nr * ORDER_PAGES o) || (p =? 2 * nr * ORDER_PAGES o + ORDER_PAGES o) = true).
    { destruct (pair_cases o p (b_aligned _ _ Hb)) as [E|E]; fold nr in E; lia. }
    rewrite Hchk.
    set (buddy := if bool_decide _ then _ else _) in Hbit.
    assert (Hbud : (if p =? 2 * nr * ORDER_PAGES o then p + ORDER_PAGES o else p - ORDER_PAGES o) = buddy).
    { subst buddy. case_bool_decide; destruct (Z.eqb_spec p (2 * nr * ORDER_PAGES o)); done. }
    rewrite Hbud. clear Hbud.
    assert (Hpb : (p = 2 * nr * ORDER_PAGES o /\ buddy = (2 * nr + 1) * ORDER_PAGES o) \/
                  (p = (2 * nr + 1) * ORDER_PAGES o /\ buddy = 2 * nr * ORDER_PAGES o)).
    { subst buddy. destruct (pair_cases o p (b_aligned _ _ Hb)) as [E|E]; fold nr in E;
        case_bool_decide; lia. }
    clearbody buddy.
    destruct (free_list_del_ok s1 o buddy Hl1 Hbit) as (s2 & -> & Hl2 & Hh2 & Hfl & Hmem).
    exists s2, (2 * nr * ORDER_PAGES o). split; [done|].
    assert (Epair : Z.shiftr buddy (Z.of_nat o + 1) = nr).
    { destruct Hpb as [[_ ->]|[_ ->]]; [apply shiftr_upper|apply shiftr_lower]. }
    split; [|split].
    + split; [done|]. eapply (bits_but_false s2 o nr).
      pose proof (bits_but_flip s1 s2 o buddy true (b_aligned _ _ (h_block _ _ _ Hh2)) Hfl) as Hf.
      rewrite Epair in Hf. by apply Hf.
    + split.
      * destruct Hb, (h_block _ _ _ Hh2). unfold MAX_ORDER in *.
        split; rewrite ?ORDER_PAGES_S; [unfold MAX_ORDER; lia|lia|lia|exists nr; lia].
      * intros o' q Hq. pose proof (h_apart _ _ _ Hh2 _ _ Hq) as A2.
        apply Hmem in Hq as [Hq _]. pose proof (h_apart _ _ _ Hh1 _ _ Hq) as A1.
        unfold apart in *. rewrite ORDER_PAGES_S. pose proof (ORDER_PAGES_pos o'). lia.
    + intros x. change (free s x) with (free s1 x). rewrite (free_del s1 s2 o buddy Hl1 Hbit Hmem).
      unfold in_block. rewrite ORDER_PAGES_S. intuition lia.
Qed.

Lemma merge_loop_ok d o p s : bitmaps_cover -> (o + d = MAX_ORDER - 1)%nat ->
  inv s -> held s o p ->
  exists s', merge_loop d o p s = Some s' /\ inv s' /\
    forall x, free s' x <-> free s x \/ in_block o p x.
Proof.
  intros Hcov. revert o p s. induction d as [|d IH]; intros o p s Ho [Hl Hbits] Hh;
    pose proof (h_block _ _ _ Hh) as Hb; pose proof (block_nonneg_pair _ _ Hb) as Hnr;
    pose proof (b_order _ _ Hb) as Hom;
    assert (Hstep := merge_step o p s Hl Hbits Hh); cbv zeta in Hstep; cbn [merge_loop];
    rewrite (proj2 (Z.ltb_lt _ _) (Hcov _ _ Hb));
    destruct (Z.testbit (map s o) _); cbn [negb].
  - assert (o = MAX_ORDER - 1)%nat as -> by lia. rewrite Nat.eqb_refl.
    destruct Hstep as [Hstep _]. apply Hstep. by left.
  - destruct Hstep as [Hstep _]. apply Hstep. by right.
  - destruct (Nat.eqb_spec o (MAX_ORDER - 1)) as [->|Hne].
    { destruct Hstep as [Hstep _]. apply Hstep. by left. }
    destruct Hstep as [_ Hstep].
    destruct (Hstep ltac:(lia) eq_refl) as (s' & res & -> & Hinv & Hh' & Hfree).
    destruct (IH (S o) res s' ltac:(lia) Hinv Hh') as (s2 & -> & Hinv2 & Hfree2).
    exists s2. split; [done|]. split; [done|]. intros x. rewrite Hfree2. apply Hfree.
  - destruct Hstep as [Hstep _]. apply Hstep. by right.
Qed.

Lemma free_pages_ok s o p : bitmaps_cover -> inv s -> held s o p ->
  exists s', free_pages s p o = Some s' /\ inv s' /\ forall x, free s' x <-> free s x \/ in_block o p x.
Proof.
  intros Hcov Hinv Hh. pose proof (h_block _ _ _ Hh) as Hb.
  destruct (block_asserts _ _ Hb) as (E1 & E2 & E3 & E4).
  unfold free_pages. rewrite E1, E2, E3, E4. apply Nat.ltb_lt in E1. unfold MAX_ORDER in *.
  apply merge_loop_ok; [done|unfold MAX_ORDER; lia|done|done].
Qed.

Lemma free_range_ok n pfn s : bitmaps_cover -> inv s ->
  0 <= pfn -> pfn + Z.of_nat n <= max_pfn ->
  (forall x, pfn <= x < pfn + Z.of_nat n -> ~ free s x) ->
  exists s', free_range n pfn s = Some s' /\ inv s' /\
    forall x, free s' x <-> free s x \/ pfn <= x < pfn + Z.of_nat n.
Proof.
  intros Hcov. revert pfn s. induction n as [|n IH]; intros pfn s Hinv Hlo Hhi Hnf; simpl.
  { exists s. split; [done|]. split; [done|]. intros x. intuition lia. }
  assert (Hh : held s 0 pfn).
  { split.
    - split; [unfold MAX_ORDER; lia|done| |apply Z.divide_1_l]. change (ORDER_PAGES 0) with 1. lia.
    - intros o' p' Hin. unfold apart. change (ORDER_PAGES 0) with 1.
      destruct (decide (p' <= pfn < p' + ORDER_PAGES o')); [|lia].
      destruct (Hnf pfn ltac:(lia)). by exists o', p'. }
  destruct (free_pages_ok s 0 pfn Hcov Hinv Hh) as (s1 & E & Hinv1 & Hf1).
  unfold free_page. rewrite E. unfold in_block in Hf1. change (ORDER_PAGES 0) with 1 in Hf1.
  destruct (IH (pfn + 1) s1 Hinv1 ltac:(lia) ltac:(lia)) as (s' & -> & Hinv' & Hf').
  { intros x Hx. rewrite Hf1. intros [Hf|]; [|lia]. by apply (Hnf x); [lia|]. }
  exists s'. split; [done|]. split; [done|]. intros x. rewrite Hf', Hf1. intuition lia.
Qed.

Lemma inv_empty : inv empty_areas.
Proof.
  split.
  - split; simpl; try by (intros; exfalso; eapply not_elem_of_nil).
    intros. constructor.
  - intros o nr _ _. unfold bit_ok, empty_areas. cbn [map free_list].
    rewrite Z.bits_0, !bool_decide_eq_false_2 by apply not_elem_of_nil. done.
Qed.

(** Memories whose size is a multiple of the largest pair have large enough
    bitmaps. *)
Lemma bitmaps_cover_multiple : (2048 | max_pfn) -> 0 <= max_pfn -> bitmaps_cover.
Proof.
  intros Hd Hm o p [Ho Hlo Hhi _]. unfold free_area_bitmap_bits, map_size.
  rewrite !shiftr_pair. set (P := 2 * ORDER_PAGES o). pose proof (ORDER_PAGES_pos o).
  assert (HP : (P | max_pfn)).
  { etrans; [|exact Hd]. unfold P. rewrite <- ORDER_PAGES_S.
    change 2048 with (ORDER_PAGES 11). apply ORDER_PAGES_divide. unfold MAX_ORDER in Ho. lia. }
  destruct HP as [m Em]. rewrite Em at 1. rewrite Z.div_mul by lia.
  assert (p / P < m) by (apply Z.div_lt_upper_bound; lia).
  rewrite Z.shiftl_mul_pow2, Z.shiftr_div_pow2 by lia. change (2 ^ 5) with 32.
  pose proof (Z.div_mod (m + 31) 32 ltac:(lia)). pose proof (Z.mod_pos_bound (m + 31) 32 ltac:(lia)).
  lia.
Qed.

(** ** Clients of the allocator *)

Inductive op :=
| Alloc (order : nat)
| Free (i : nat).

Definition op_ok (o : op) : Prop :=
  match o with Alloc order => (order < MAX_ORDER)%nat | Free _ => True end.

(** The allocator together with the blocks its clients hold. *)
Definition client_step (st : t * list (nat * Z)) (o : op) : option (t * list (nat * Z)) :=
  let '(s, owned) := st in
  match o with
  | Alloc order =>
    match alloc_pages s order with
    | None => None
    | Some (s', Some p) => Some (s', (order, p) :: owned)
    | Some (s', None) => Some (s', owned)
    end
  | Free i =>
    match owned !! i with
    | None => Some st
    | Some (order, p) => match free_pages s p order with
                         | None => None
                         | Some s' => Some (s', delete i owned)
                         end
    end
  end.

Fixpoint client_run (st : t * list (nat * Z)) (ops : list op) : option (t * list (nat * Z)) :=
  match ops with
  | [] => Some st
  | o :: ops' => match client_step st o with None => None | Some st' => client_run st' ops' end
  end.

Definition owned_page (owned : list (nat * Z)) (x : Z) : Prop :=
  exists o p, (o, p) ∈ owned /\ in_block o p x.

Record sys_ok (st : t * list (nat * Z)) : Prop := {
  so_inv : inv st.1;
  so_held : forall o p, (o, p) ∈ st.2 -> held st.1 o p;
  so_apart : ForallOrdPairs (fun b b' => apart b.1 b.2 b'.1 b'.2) st.2;
}.

Lemma apart_sym o p o' p' : apart o p o' p' -> apart o' p' o p.
Proof. unfold apart. tauto. Qed.

(** Blocks that cover the same pages as before stay apart from the rest. *)
Lemma held_frame s s' o p : held s o p ->
  (forall x, free s' x -> free s x \/ ~ in_block o p x) -> held s' o p.
Proof.
  intros [Hb Ha] Hf. split; [done|]. intros o' p' Hin. unfold apart, in_block in *.
  pose proof (ORDER_PAGES_pos o). pose proof (ORDER_PAGES_pos o').
  destruct (decide (p + ORDER_PAGES o <= p' \/ p' + ORDER_PAGES o' <= p)) as [|Hn]; [done|].
  set (x := Z.max p p').
  assert (Hfx : free s' x) by (exists o', p'; split; [done|lia]).
  destruct (Hf x Hfx) as [(o2 & p2 & Hin2 & Hx)|]; [|lia].
  specialize (Ha _ _ Hin2). lia.
Qed.

Lemma apart_free_block o p o' p' : apart o p o' p' -> forall x, in_block o p x -> ~ in_block o' p' x.
Proof. unfold apart, in_block. lia. Qed.

Lemma forall_ord_pairs_delete {A} (R : A -> A -> Prop) (l : list A) i x :
  (forall a b, R a b -> R b a) -> ForallOrdPairs R l -> l !! i = Some x ->
  ForallOrdPairs R (delete i l) /\ forall y, y ∈ delete i l -> R x y.
Proof.
  intros Hsym Hl. revert i. induction Hl as [|a l Ha Hl IH]; intros i Hi; [done|].
  rewrite Forall_forall in Ha. destruct i as [|i]; simpl in *.
  - injection Hi as ->. split; [done|]. intros y Hy. by apply Ha.
  - destruct (IH i Hi) as [IH1 IH2]. split.
    + constructor; [|done]. apply Forall_forall. intros y Hy.
      apply Ha. by eapply list_elem_of_delete_inv.
    + intros y [->|Hy]%elem_of_cons; [|auto].
      apply Hsym, Ha. by eapply list_elem_of_lookup_2.
Qed.

Lemma client_alloc_ok s owned order : bitmaps_cover -> sys_ok (s, owned) -> (order < MAX_ORDER)%nat ->
  exists st', client_step (s, owned) (Alloc order) = Some st' /\ sys_ok st' /\
    forall x, free st'.1 x \/ owned_page st'.2 x <-> free s x \/ owned_page owned x.
Proof.
  intros Hcov [Hinv Hheld Hap] Ho. simpl in *.
  destruct (alloc_pages_ok s order Hcov Hinv Ho) as (s' & [p|] & -> & Hinv' & Hr).
  - destruct Hr as [Hh Hf]. exists (s', (order, p) :: owned). split; [done|]. split.
    + split; simpl; [done| |].
      * intros o q [[= -> ->]|Hin]%elem_of_cons; [done|].
        apply (held_frame s); [by apply Hheld|]. intros x Hx. left. apply Hf. by left.
      * constructor; [|done]. apply Forall_forall. intros [o q] Hin. simpl.
        specialize (Hheld _ _ Hin).
        destruct (decide (apart order p o q)) as [|Hn]; [done|]. exfalso. unfold apart in Hn.
        pose proof (ORDER_PAGES_pos o). pose proof (ORDER_PAGES_pos order).
        apply (held_not_free s o q (Z.max p q) Hheld); [unfold in_block; lia|].
        apply Hf. right. unfold in_block. lia.
    + intros x. simpl. rewrite <- Hf. unfold owned_page. setoid_rewrite elem_of_cons.
      split.
      * intros [?|(o & q & [[= -> ->]|Hin] & Hx)]; [tauto|tauto|]. right. eauto.
      * intros [[?|Hx]|(o & q & Hin & Hx)]; [tauto| |]; right; eauto 10.
  - destruct Hr as [-> _]. by exists (s, owned).
Qed.

Lemma client_free_ok s owned i : bitmaps_cover -> sys_ok (s, owned) ->
  exists st', client_step (s, owned) (Free i) = Some st' /\ sys_ok st' /\
    forall x, free st'.1 x \/ owned_page st'.2 x <-> free s x \/ owned_page owned x.
Proof.
  intros Hcov [Hinv Hheld Hap]. simpl in *.
  destruct (owned !! i) as [[order p]|] eqn:Ei; [|by exists (s, owned)].
  assert (Hin : (order, p) ∈ owned) by (by eapply list_elem_of_lookup_2).
  destruct (free_pages_ok s order p Hcov Hinv (Hheld _ _ Hin)) as (s' & -> & Hinv' & Hf).
  destruct (forall_ord_pairs_delete _ owned i (order, p) (fun a b => apart_sym _ _ _ _) Hap Ei)
    as [Hap' Hpx].
  exists (s', delete i owned). split; [done|]. split.
  - split; simpl; [done| |done].
    intros o q Hq. specialize (Hpx _ Hq). simpl in Hpx.
    apply list_elem_of_delete_inv in Hq. apply (held_frame s); [by apply Hheld|].
    intros x [?|Hx]%Hf; [by left|]. right. by eapply apart_free_block.
  - intros x. simpl. rewrite Hf. unfold owned_page.
    setoid_rewrite (delete_Permutation owned i _ Ei) at 2.
    setoid_rewrite elem_of_cons. split.
    + intros [[?|Hx]|(o & q & Hq & Hx)]; [tauto| |]; right; eauto 10.
    + intros [?|(o & q & [[= -> ->]|Hq] & Hx)]; [tauto|tauto|]. right. eauto.
Qed.

(** ** Properties *)


(** A fully free aligned run is covered by one free block. *)
Lemma free_run_covered s o p : inv s -> block o p -> (forall x, in_block o p x -> free s x) ->
  exists o' p', (o <= o' < MAX_ORDER)%nat /\ p' ∈ free_list s o' /\
    p' <= p /\ p + ORDER_PAGES o <= p' + ORDER_PAGES o'.
Proof.
  intros [Hl _]. revert p. induction o as [|o IH]; intros p Hb Hfree.
  - destruct (Hfree p) as (o' & p' & Hin & Hx); [unfold in_block; change (ORDER_PAGES 0) with 1; lia|].
    exists o', p'. change (ORDER_PAGES 0) with 1. destruct (lo_block _ Hl _ _ Hin). repeat split; lia || done.
  - pose proof (ORDER_PAGES_pos o) as Hpos. destruct (halves_pair _ _ Hb) as [Ep Eq].
    set (nr := Z.shiftr p (Z.of_nat o + 1)) in *.
    destruct (IH p (block_lower_half _ _ Hb)) as (o1 & p1 & Ho1 & Hin1 & H1).
    { intros x Hx. apply Hfree. unfold in_block in *. rewrite ORDER_PAGES_S. lia. }
    destruct (IH (p + ORDER_PAGES o) (block_upper_half _ _ Hb)) as (o2 & p2 & Ho2 & Hin2 & H2).
    { intros x Hx. apply Hfree. unfold in_block in *. rewrite ORDER_PAGES_S. lia. }
    assert (Hnest : forall o' p', (S o <= o')%nat -> p' ∈ free_list s o' ->
      (exists y, in_block o' p' y /\ in_block (S o) p y) ->
      p' <= p /\ p + ORDER_PAGES (S o) <= p' + ORDER_PAGES o').
    { intros o' p' Ho' Hin (y & Hy1 & Hy2). unfold in_block in *.
      destruct (lo_block _ Hl _ _ Hin) as [_ _ _ [k' ->]], (b_aligned _ _ Hb) as [k Ek].
      destruct (ORDER_PAGES_divide (S o) o' Ho') as [m Em]. rewrite Em in *.
      pose proof (ORDER_PAGES_pos (S o)) as HP. rewrite Ek in *. set (P := ORDER_PAGES (S o)) in *.
      assert (A : k' * m < k + 1) by (apply (Z.mul_lt_mono_pos_r P); lia).
      assert (B : k < (k' + 1) * m) by (apply (Z.mul_lt_mono_pos_r P); lia).
      split; nia. }
    destruct (decide (S o <= o1)%nat) as [Hbig|Hsmall1].
    { exists o1, p1.
      destruct (Hnest o1 p1 Hbig Hin1) as [? ?]; [exists p; unfold in_block; rewrite ORDER_PAGES_S; lia|].
      rewrite ORDER_PAGES_S in *. repeat split; done || lia. }
    destruct (decide (S o <= o2)%nat) as [Hbig|Hsmall2].
    { exists o2, p2.
      destruct (Hnest o2 p2 Hbig Hin2) as [? ?];
        [exists (p + ORDER_PAGES o); unfold in_block; rewrite ORDER_PAGES_S; lia|].
      rewrite ORDER_PAGES_S in *. repeat split; done || lia. }
    assert (o1 = o) as -> by lia. assert (o2 = o) as -> by lia.
    assert (p1 = p) as -> by lia. assert (p2 = p + ORDER_PAGES o) as -> by lia.
    destruct Hb as [Hom _ _ _]. rewrite Ep in Hin1. rewrite Eq in Hin2.
    destruct (lo_merged _ Hl o nr ltac:(unfold MAX_ORDER in *; lia) Hin1 Hin2).
Qed.

(** [alloc_pages] returns NULL only when it must: if it fails for an order,
    then every naturally aligned run of that many pages contains a page that is
    not free, so eager merging leaves no avoidable fragmentation. *)
Theorem alloc_pages_null_only_if_full s order s' :
  inv s -> alloc_pages s order = Some (s', None) ->
  s' = s /\ forall p, block order p -> ~ (forall x, in_block order p x -> free s x).
Proof.
  intros Hinv. unfold alloc_pages. destruct (Nat.ltb_spec order MAX_ORDER) as [Ho|]; [|done].
  pose proof (find_order_spec MAX_ORDER s order Ho ltac:(lia)) as Hf.
  destruct (find_order MAX_ORDER s order) as [n|].
  { destruct (free_list s n); [done|]. repeat (case_match; try done). }
  intros [= <-]. split; [done|]. intros p Hb Hfree.
  destruct (free_run_covered s order p Hinv Hb Hfree) as (o' & p' & Ho' & Hin & _).
  rewrite (Hf o' ltac:(lia)) in Hin. by apply not_elem_of_nil in Hin.
Qed.

(** a bitmap word is missing when the number of page frames leaves an
    unpaired last page just past a full bitmap word: with [64 k + 1] frames,
    freeing the last page (as [page_alloc_init] does) fails an assertion. *)
Theorem last_page_panics s k : max_pfn = 64 * k + 1 -> free_page s (64 * k) = None.
Proof.
  intros Hm. unfold free_page, free_pages.
  destruct (Nat.ltb_spec 0 MAX_ORDER); [|done]. repeat (case_match; [|done]).
  change (MAX_ORDER - 1 - 0)%nat with 10%nat. cbn [merge_loop].
  rewrite (proj2 (Z.ltb_ge _ _)); [done|].
  unfold free_area_bitmap_bits, map_size. rewrite Hm. change (Z.of_nat 0 + 1) with 1.
  rewrite Z.shiftl_mul_pow2, !Z.shiftr_div_pow2 by lia. change (2 ^ 1) with 2. change (2 ^ 5) with 32.
  replace ((64 * k + 1) / 2) with (32 * k) by (apply (Z.div_unique _ _ _ 1); lia).
  replace ((32 * k + 31) / 32) with k by (apply (Z.div_unique _ _ _ 31); lia).
  replace (64 * k / 2) with (32 * k) by (apply (Z.div_unique _ _ _ 0); lia). lia.
Qed.

End buddy.

(** ** Witnesses: a machine of 2048 pages *)

Definition example_st : t * list (nat * Z) := (empty_areas, [(10%nat, 1024); (10%nat, 0)]).

Lemma example_cover : bitmaps_cover 2048.
Proof. apply bitmaps_cover_multiple; [apply Z.divide_refl|lia]. Qed.

Lemma example_sys_ok : sys_ok 2048 example_st.
Proof.
  assert (Hb : forall p, p = 0 \/ p = 1024 -> block 2048 10 p).
  { intros p Hp. change (ORDER_PAGES 10) with 1024.
    split; [unfold MAX_ORDER; lia|lia|change (ORDER_PAGES 10) with 1024; lia|].
    destruct Hp as [->| ->]; [by exists 0|by exists 1]. }
  split; simpl.
  - apply inv_empty.
  - intros o p Hin. split; [|intros ? ? Hq; by apply not_elem_of_nil in Hq].
    repeat (apply elem_of_cons in Hin as [[= -> ->]|Hin]; [apply Hb; lia|]).
    by apply not_elem_of_nil in Hin.
  - constructor; [constructor; [right; by vm_compute|constructor]|repeat constructor].
Qed.


Lemma alloc_pages_null_only_if_full_witness :
  empty_areas = empty_areas /\
  forall p, block 2048 3 p -> ~ (forall x, in_block 3 p x -> free empty_areas x).
Proof.
  apply (alloc_pages_null_only_if_full 2048 empty_areas 3 empty_areas); [apply inv_empty|reflexivity].
Defined.

(** 8193 frames, one more than the 32 MB the kernel asks for. *)
Lemma last_page_panics_witness : free_page 8193 empty_areas 8192 = None.
Proof. apply (last_page_panics 8193 empty_areas 128). reflexivity. Defined.

End PageAlloc.
