(* ===== verification/Kmalloc.v ===== *)
(** * The small-block allocator ([mm/kmalloc.c])

    Buckets of boards of equal blocks on top of a source of pages, built as
    the kernel builds it (CONFIG_KMALLOC_DEBUG: every block has a header with a
    magic number and a red zone behind it).  Memory is the headers of the
    boards and of the blocks, by address; touching a header that is not there
    (not of the heap, or given back) is [None], as is a failed assertion. *)
From S2P Require Import Prelude PageAlloc.

Module Kmalloc.

Definition BOARD_HEADER : Z := 16.
Definition KMALLOC_USER_OFFSET : Z := 16.
Definition KMALLOC_REDZONE_SIZE : Z := 4.
Definition KMALLOC_MAGIC_ALLOC : Z := 0x6d6b616c.
Definition KMALLOC_MAGIC_FREED : Z := 0x6d6b6672.
Definition KMALLOC_REDZONE_VALUE : Z := 0x7265647a.

(** ** The source of pages *)

(** [pages_alloc] and [pages_free]; [None]: an assertion fails.  [pages_held]
    are the runs handed out: order and address. *)
Class PageSource (P : Type) := {
  pages_alloc : nat -> P -> option (option Z * P);
  pages_free : Z -> nat -> P -> option P;
  pages_held : P -> list (nat * Z);
  pages_ok : P -> Prop;
}.

Definition span (o : nat) : Z := 4096 * 2 ^ Z.of_nat o.
Definition runs_apart (x y : nat * Z) : Prop := x.2 + span x.1 <= y.2 \/ y.2 + span y.1 <= x.2.

(** What the buckets rely on. *)
Class PageSourceLaws (P : Type) `{PageSource P} := {
  ps_address p o a : pages_ok p -> (o, a) ∈ pages_held p -> 0 < a /\ a + span o <= 2 ^ 32;
  ps_apart p o a l : pages_ok p -> pages_held p ≡ₚ (o, a) :: l -> forall x, x ∈ l -> runs_apart (o, a) x;
  ps_alloc p o : pages_ok p -> (o < 11)%nat -> exists r p', pages_alloc o p = Some (r, p') /\ pages_ok p' /\
    match r with Some a => pages_held p' ≡ₚ (o, a) :: pages_held p | None => p' = p end;
  ps_free p o a : pages_ok p -> (o, a) ∈ pages_held p ->
    exists p', pages_free a o p = Some p' /\ pages_ok p' /\ pages_held p ≡ₚ (o, a) :: pages_held p';
}.

(** ** Boards and blocks *)

Record block_header := mkblock {
  magic : Z;
  owner : Z;
  size : Z;
  board : Z;
  bnext : option Z;
  redzone : Z;   (* the word behind the user's bytes *)
}.
Record board_header := mkboard {
  nfree : Z;
  firstfree : option Z;
  bucket : nat;
  next : option Z;
}.
Record bucket_desc := mkbucket { order : nat; block_size : Z; nblocks : Z }.

Definition buckets : list bucket_desc := [
  mkbucket 0 34 120; mkbucket 0 60 68; mkbucket 0 120 34; mkbucket 0 255 16; mkbucket 0 510 8; mkbucket 0 1020 4;
  mkbucket 0 2040 2; mkbucket 0 (4096 - 16) 1; mkbucket 1 (8192 - 16) 1; mkbucket 2 (16384 - 16) 1;
  mkbucket 3 (32768 - 16) 1; mkbucket 4 (65536 - 16) 1; mkbucket 5 (131072 - 16) 1; mkbucket 6 (262144 - 16) 1 ].

(** [heads]: the field [firstfree] of every bucket. *)
Record heap := mkheap {
  heads : list (option Z);
  boards : gmap Z board_header;
  blocks : gmap Z block_header;
}.
Definition empty_heap : heap := mkheap (repeat None 14) ∅ ∅.

Definition set_head (b : nat) (x : option Z) (h : heap) : heap := mkheap (<[b := x]> (heads h)) (boards h) (blocks h).
Definition set_board (a : Z) (x : board_header) (h : heap) : heap := mkheap (heads h) (<[a := x]> (boards h)) (blocks h).
Definition set_block (f : Z) (x : block_header) (h : heap) : heap := mkheap (heads h) (boards h) (<[f := x]> (blocks h)).

Definition link_block (a : Z) (n : option Z) : block_header := mkblock 0 0 0 a n 0.

(** The loop of [alloc_board]. *)
Fixpoint link_blocks (n : nat) (a f bs : Z) (B : gmap Z block_header) : gmap Z block_header :=
  match n with
  | O => <[f := link_block a None]> B
  | S n' => link_blocks n' a (f + bs) bs (<[f := link_block a (Some (f + bs))]> B)
  end.

Definition slots (a : Z) (d : bucket_desc) : list Z :=
  (fun i => a + BOARD_HEADER + i * block_size d) <$> seqZ 0 (nblocks d).

(** The search for the bucket; the addition is on 32 bits. *)
Fixpoint find_bucket (l : list bucket_desc) (b : nat) (sz : Z) : option (nat * bucket_desc) :=
  match l with
  | [] => None
  | d :: l' => if block_size d - KMALLOC_USER_OFFSET >=? u32 (sz + KMALLOC_REDZONE_SIZE) then Some (b, d)
               else find_bucket l' (S b) sz
  end.

(** The red zone of a size that wraps falls on the header itself: the [k] low
    bytes of [block->board] stay. *)
Definition write_redzone (sz : Z) (x : block_header) : block_header :=
  if sz + KMALLOC_REDZONE_SIZE <? 2 ^ 32 then mkblock (magic x) (owner x) (size x) (board x) (bnext x) KMALLOC_REDZONE_VALUE
  else let k := 2 ^ (8 * (sz - (2 ^ 32 - 4))) in
       mkblock (magic x) (owner x) (size x) (board x mod k + u32 (KMALLOC_REDZONE_VALUE * k)) (bnext x) (redzone x).

Section kmalloc.
Context {P : Type} `{PageSource P}.

Definition alloc_board (b : nat) (d : bucket_desc) (h : heap) (p : P) : option (option Z * heap * P) :=
  '(r, p) ← pages_alloc (order d) p;
  match r with
  | None => Some (None, h, p)
  | Some a =>
    let x := mkboard (nblocks d) (Some (a + BOARD_HEADER)) b (default None (heads h !! b)) in
    Some (Some a, mkheap (heads h) (<[a := x]> (boards h))
                    (link_blocks (Z.to_nat (nblocks d) - 1) a (a + BOARD_HEADER) (block_size d) (blocks h)), p)
  end.

(** The pages go back, and with them the headers in them. *)
Definition free_board (a : Z) (d : bucket_desc) (h : heap) (p : P) : option (heap * P) :=
  p ← pages_free a (order d) p;
  Some (mkheap (heads h) (delete a (boards h)) (foldr delete (blocks h) (slots a d)), p).

(** Taking the first block of the first board of bucket [b]. *)
Definition take_block (me sz : Z) (b : nat) (a : Z) (h : heap) : option (heap * Z) :=
  x ← boards h !! a;
  f ← firstfree x;
  k ← blocks h !! f;
  let k := mkblock KMALLOC_MAGIC_ALLOC me sz (board k) (bnext k) (redzone k) in
  let h := if nfree x - 1 =? 0 then set_head b (next x) h else h in
  let h := set_board a (mkboard (nfree x - 1) (bnext k) (bucket x) (next x)) h in
  Some (set_block f (write_redzone sz k) h, f + KMALLOC_USER_OFFSET).

Definition kmalloc (me sz : Z) (h : heap) (p : P) : option (heap * P * option Z) :=
  if sz =? 0 then Some (h, p, None) else
  match find_bucket buckets 0 sz with
  | None => Some (h, p, None)
  | Some (b, d) =>
    '(r, h, p) ← match default None (heads h !! b) with
                 | Some a => Some (Some a, h, p)
                 | None => '(r, h, p) ← alloc_board b d h p; Some (r, set_head b r h, p)
                 end;
    match r with
    | None => Some (h, p, None)
    | Some a => '(h, ptr) ← take_block me sz b a h; Some (h, p, Some ptr)
    end
  end.

(** The [memset] of a block whose size wraps runs over the whole memory: [None]. *)
Definition kfree (ptr : Z) (h : heap) (p : P) : option (heap * P) :=
  let f := ptr - KMALLOC_USER_OFFSET in
  k ← blocks h !! f;
  assert! magic k =? KMALLOC_MAGIC_ALLOC ;;
  assert! redzone k =? KMALLOC_REDZONE_VALUE ;;
  assert! size k + KMALLOC_REDZONE_SIZE <? 2 ^ 32 ;;
  x ← boards h !! board k;
  d ← buckets !! bucket x;
  let a := board k in
  let h := set_block f (mkblock KMALLOC_MAGIC_FREED (owner k) (size k) a (firstfree x) (redzone k)) h in
  let x := mkboard (nfree x + 1) (Some f) (bucket x) (next x) in
  let '(h, x) :=
    if nfree x =? 1
    then let x := mkboard (nfree x) (firstfree x) (bucket x) (default None (heads h !! bucket x)) in
         (set_head (bucket x) (Some a) h, x)
    else (h, x) in
  let h := set_board a x h in
  if nfree x =? nblocks d then free_board a d (set_head (bucket x) (next x) h) p else Some (h, p).

End kmalloc.

(** ** The buddy allocator is such a source *)

Definition KERNEL_BASE : Z := 0x80000000.
Definition page_address (pfn : Z) : Z := KERNEL_BASE + 4096 * pfn.

(** The allocator with the blocks its clients hold. *)
#[global] Instance buddy_source (max_pfn : Z) : PageSource (PageAlloc.t * list (nat * Z)) := {
  pages_alloc o st :=
    match PageAlloc.alloc_pages max_pfn st.1 o with
    | Some (s, Some pfn) => Some (Some (page_address pfn), (s, (o, pfn) :: st.2))
    | Some (s, None) => Some (None, (s, st.2))
    | None => None
    end;
  pages_free a o st :=
    let pfn := (a - KERNEL_BASE) / 4096 in
    match PageAlloc.free_pages max_pfn st.1 pfn o with
    | Some s => Some (s, filter (fun x => x <> (o, pfn)) st.2)
    | None => None
    end;
  pages_held st := (fun x => (x.1, page_address x.2)) <$> st.2;
  pages_ok st := PageAlloc.sys_ok max_pfn st;
}.

Lemma span_pages o : span o = 4096 * PageAlloc.ORDER_PAGES o.
Proof. done. Qed.

Lemma span_pos o : 0 < span o.
Proof. unfold span. pose proof (Z.pow_pos_nonneg 2 (Z.of_nat o)). lia. Qed.

Lemma runs_apart_sym x y : runs_apart x y -> runs_apart y x.
Proof. unfold runs_apart. tauto. Qed.

Lemma pairs_perm {A} (R : A -> A -> Prop) l x l' : (forall a b, R a b -> R b a) -> ForallOrdPairs R l -> l ≡ₚ x :: l' ->
  forall y, y ∈ l' -> R x y.
Proof.
  intros Hs Hl E y Hy. assert (Hx : x ∈ l) by (rewrite E; left). apply list_elem_of_lookup in Hx as [i Hi].
  destruct (PageAlloc.forall_ord_pairs_delete R l i x Hs Hl Hi) as [_ Hd]. apply Hd.
  rewrite (delete_Permutation l i x Hi) in E. apply Permutation.Permutation_cons_inv in E. by rewrite E.
Qed.

Section buddy.
Context (max_pfn : Z) (Hcover : PageAlloc.bitmaps_cover max_pfn) (Hmax : max_pfn <= 2 ^ 19).
Let vir (x : nat * Z) : nat * Z := (x.1, page_address x.2).

Lemma vir_apart x y : PageAlloc.apart x.1 x.2 y.1 y.2 -> runs_apart (vir x) (vir y).
Proof. unfold PageAlloc.apart, runs_apart, vir, page_address. simpl. rewrite !span_pages. lia. Qed.

Lemma vir_pairs l : ForallOrdPairs (fun b b' => PageAlloc.apart b.1 b.2 b'.1 b'.2) l -> ForallOrdPairs runs_apart (vir <$> l).
Proof.
  induction 1 as [|x l Hx _ IH]; [constructor|]. constructor; [|done]. apply Forall_fmap.
  eapply Forall_impl; [exact Hx|]. intros y. apply vir_apart.
Qed.

Lemma apart_irrefl o p o' : ~ PageAlloc.apart o p o' p.
Proof. unfold PageAlloc.apart. pose proof (PageAlloc.ORDER_PAGES_pos o). pose proof (PageAlloc.ORDER_PAGES_pos o'). lia. Qed.

(** Removing a held block by value is removing it once. *)
Lemma filter_held l i o q : ForallOrdPairs (fun b b' => PageAlloc.apart b.1 b.2 b'.1 b'.2) l -> l !! i = Some (o, q) ->
  filter (fun x => x <> (o, q)) l = delete i l.
Proof.
  intros Hl Hi. revert i Hi. induction Hl as [|x l Hx Hl IH]; intros i Hi; [done|].
  rewrite Forall_forall in Hx. destruct i as [|i]; simpl in Hi.
  - injection Hi as ->. rewrite filter_cons_False by (intros H; by apply H). simpl.
    apply filter_absent. intros Hy. specialize (Hx _ Hy). by apply apart_irrefl in Hx.
  - rewrite filter_cons_True; [by rewrite (IH i)|]. intros ->.
    specialize (Hx _ (list_elem_of_lookup_2 _ _ _ Hi)). by apply apart_irrefl in Hx.
Qed.

Lemma page_address_back q : (page_address q - KERNEL_BASE) / 4096 = q.
Proof. unfold page_address. replace (KERNEL_BASE + 4096 * q - KERNEL_BASE) with (q * 4096) by lia. apply Z.div_mul. lia. Qed.

#[global] Instance buddy_laws : @PageSourceLaws _ (buddy_source max_pfn).
Proof using Hcover Hmax.
  split.
  - intros [s l] o a O Hin. simpl in *. apply list_elem_of_fmap in Hin as ([o' q] & [= -> ->] & Hin).
    destruct (PageAlloc.so_held _ _ O o' q Hin) as [[_ Hlo Hhi _] _]. rewrite span_pages.
    unfold page_address, KERNEL_BASE. lia.
  - intros [s l] o a l' O E x Hx. simpl in *.
    apply (pairs_perm runs_apart (vir <$> l) _ l' runs_apart_sym); [apply vir_pairs, O|exact E|exact Hx].
  - intros [s l] o O Ho. simpl in *. destruct (PageAlloc.client_alloc_ok max_pfn s l o Hcover O Ho) as (st & E & O' & _).
    simpl in E. destruct (PageAlloc.alloc_pages max_pfn s o) as [[s' [q|]]|] eqn:Ea; [| |done]; injection E as <-.
    + eexists _, _. split; [done|]. by split.
    + eexists _, _. split; [done|]. split; [done|].
      unfold PageAlloc.alloc_pages in Ea. repeat case_match; try done. by injection Ea as <-.
  - intros [s l] o a O Hin. simpl in *. apply list_elem_of_fmap in Hin as ([o' q] & [= -> ->] & Hin).
    apply list_elem_of_lookup in Hin as [i Hi]. rewrite page_address_back.
    destruct (PageAlloc.client_free_ok max_pfn s l i Hcover O) as (st & E & O' & _). simpl in E. rewrite Hi in E.
    destruct (PageAlloc.free_pages max_pfn s q o') as [s'|] eqn:Ef; [|done]. injection E as <-.
    eexists. split; [done|]. rewrite (filter_held l i o' q) by (apply O || done). split; [done|]. simpl.
    change (((fun x => (x.1, page_address x.2)) <$> l) ≡ₚ vir (o', q) :: (vir <$> delete i l)).
    rewrite (delete_Permutation l i _ Hi) at 1. done.
Qed.
End buddy.

(** ** The heap invariant *)

Fixpoint fchain (B : gmap Z block_header) (l : list Z) : Prop :=
  match l with
  | [] => True
  | f :: l' => (exists k, B !! f = Some k /\ bnext k = head l') /\ fchain B l'
  end.
Fixpoint bchain (B : gmap Z board_header) (l : list Z) : Prop :=
  match l with
  | [] => True
  | a :: l' => (exists x, B !! a = Some x /\ next x = head l') /\ bchain B l'
  end.

(** A block in use, the user's bytes from [f + 16] on: [M] is what is allocated. *)
Definition used (M : gmap Z Z) (d : bucket_desc) (f : Z) (k : block_header) : Prop :=
  magic k = KMALLOC_MAGIC_ALLOC /\ redzone k = KMALLOC_REDZONE_VALUE /\ M !! (f + KMALLOC_USER_OFFSET) = Some (size k) /\
  0 < size k /\ size k + KMALLOC_REDZONE_SIZE <= block_size d - KMALLOC_USER_OFFSET.

Record board_ok (B : gmap Z block_header) (held : list (nat * Z)) (M : gmap Z Z) (Fa : list Z) (a : Z)
  (x : board_header) (d : bucket_desc) : Prop := {
  bo_bucket : buckets !! bucket x = Some d;
  bo_held : (order d, a) ∈ held;
  bo_nfree : nfree x = zlength Fa;
  bo_first : firstfree x = head Fa;
  bo_nodup : NoDup Fa;
  bo_sub f : f ∈ Fa -> f ∈ slots a d;
  bo_chain : fchain B Fa;
  bo_slots f : f ∈ slots a d -> exists k, B !! f = Some k /\ board k = a /\ (f ∉ Fa -> used M d f k);
}.

Lemma fchain_agree B B' l : (forall f, f ∈ l -> B' !! f = B !! f) -> fchain B l -> fchain B' l.
Proof.
  induction l as [|f l IH]; simpl; [done|]. intros E [(k & Hk & Hn) Hc]. split.
  - exists k. split; [|done]. rewrite E by left. done.
  - apply IH; [|done]. intros g Hg. apply E. by right.
Qed.

Lemma board_ok_frame B B' held held' M M' Fa a x d : board_ok B held M Fa a x d ->
  (forall f, f ∈ slots a d -> B' !! f = B !! f) ->
  (forall f, f ∈ slots a d -> M' !! (f + KMALLOC_USER_OFFSET) = M !! (f + KMALLOC_USER_OFFSET)) ->
  (order d, a) ∈ held' -> board_ok B' held' M' Fa a x d.
Proof.
  intros [] EB EM Hh. split; try done.
  - eapply fchain_agree; [|done]. intros f Hf. by apply EB, bo_sub0.
  - intros f Hf. destruct (bo_slots0 f Hf) as (k & Hk & Hb & Hu). exists k. rewrite EB by done.
    split_and!; try done. intros Hn. destruct (Hu Hn) as (? & ? & ? & ?). unfold used. by rewrite EM.
Qed.

Section heap.
Context {P : Type} `{PageSourceLaws P}.

Record heap_ok (h : heap) (p : P) (M : gmap Z Z) (F : Z -> list Z) (L : nat -> list Z) : Prop := {
  hk_pages : pages_ok p;
  hk_heads b : (b < 14)%nat -> heads h !! b = Some (head (L b));
  hk_chain b : bchain (boards h) (L b);
  hk_nodup b : NoDup (L b);
  hk_list b a : a ∈ L b -> exists x, boards h !! a = Some x /\ bucket x = b /\ nfree x <> 0;
  hk_listed a x : boards h !! a = Some x -> nfree x <> 0 -> a ∈ L (bucket x);
  hk_board a x : boards h !! a = Some x -> exists d, board_ok (blocks h) (pages_held p) M (F a) a x d;
  hk_blocks f k : blocks h !! f = Some k -> exists x d, boards h !! board k = Some x /\ buckets !! bucket x = Some d /\
                  f ∈ slots (board k) d;
  hk_live ptr sz : M !! ptr = Some sz -> exists k, blocks h !! (ptr - KMALLOC_USER_OFFSET) = Some k /\
                   ptr - KMALLOC_USER_OFFSET ∉ F (board k);
}.

Lemma bchain_agree B B' l : (forall a, a ∈ l -> next <$> B' !! a = next <$> B !! a) -> bchain B l -> bchain B' l.
Proof.
  induction l as [|a l IH]; simpl; [done|]. intros E [(x & Hx & Hn) Hc]. split.
  - pose proof (E a ltac:(left)) as Ea. rewrite Hx in Ea. destruct (B' !! a) as [y|]; [|done]. injection Ea as Ea.
    exists y. by rewrite Ea.
  - apply IH; [|done]. intros g Hg. apply E. by right.
Qed.

(** A block belongs to one board. *)
Lemma slot_board h p M F L a x d f k : heap_ok h p M F L -> boards h !! a = Some x -> buckets !! bucket x = Some d ->
  f ∈ slots a d -> blocks h !! f = Some k -> board k = a.
Proof.
  intros O Hx Hd Hf Hk. destruct (hk_board _ _ _ _ _ O a x Hx) as [d' B].
  assert (d' = d) as -> by (pose proof (bo_bucket _ _ _ _ _ _ _ B); congruence).
  destruct (bo_slots _ _ _ _ _ _ _ B f Hf) as (k' & ? & ? & _). congruence.
Qed.

(** ** Taking a block *)

Section take.
Context (h : heap) (p : P) (M : gmap Z Z) (F : Z -> list Z) (L : nat -> list Z) (O : heap_ok h p M F L)
  (me sz : Z) (b : nat) (d : bucket_desc) (a : Z) (rest : list Z)
  (Hd : buckets !! b = Some d) (HL : L b = a :: rest) (Hsz : 0 < sz)
  (Hfit : sz + KMALLOC_REDZONE_SIZE <= block_size d - KMALLOC_USER_OFFSET) (Hbs : block_size d <= 2 ^ 32).

Lemma take_facts : exists x f fs k, boards h !! a = Some x /\ bucket x = b /\ next x = head rest /\ F a = f :: fs /\
  firstfree x = Some f /\ nfree x = zlength (F a) /\ blocks h !! f = Some k /\ board k = a /\ bnext k = head fs /\
  board_ok (blocks h) (pages_held p) M (F a) a x d /\ f ∈ slots a d /\ M !! (f + KMALLOC_USER_OFFSET) = None.
Proof using O Hd HL.
  destruct (hk_list _ _ _ _ _ O b a) as (x & Hx & Hb & Hn); [rewrite HL; left|].
  destruct (hk_board _ _ _ _ _ O a x Hx) as [d' B].
  assert (d' = d) as -> by (pose proof (bo_bucket _ _ _ _ _ _ _ B); congruence).
  pose proof (hk_chain _ _ _ _ _ O b) as C. rewrite HL in C. destruct C as [(x' & Hx' & Hnx) _].
  rewrite Hx in Hx'. injection Hx' as <-.
  pose proof (bo_nfree _ _ _ _ _ _ _ B) as Hnf. pose proof (bo_first _ _ _ _ _ _ _ B) as Hff.
  pose proof (bo_chain _ _ _ _ _ _ _ B) as Fc.
  destruct (F a) as [|f fs] eqn:EF; [by rewrite Hnf in Hn|]. destruct Fc as [(k & Hk & Hkn) _].
  assert (Hin : f ∈ slots a d) by (apply (bo_sub _ _ _ _ _ _ _ B); left).
  exists x, f, fs, k. split_and!; try done.
  - exact (slot_board h p M F L a x d f k O Hx (bo_bucket _ _ _ _ _ _ _ B) Hin Hk).
  - destruct (M !! _) eqn:EM; [|done]. destruct (hk_live _ _ _ _ _ O _ _ EM) as (k' & Hk' & Hnot).
    replace (f + KMALLOC_USER_OFFSET - KMALLOC_USER_OFFSET) with f in * by lia. rewrite Hk in Hk'. injection Hk' as <-.
    pose proof (slot_board h p M F L a x d f k O Hx (bo_bucket _ _ _ _ _ _ _ B) Hin Hk) as Eb. rewrite Eb, EF in Hnot. destruct Hnot. left.
Qed.

Lemma take_block_ok : exists h' f, take_block me sz b a h = Some (h', f + KMALLOC_USER_OFFSET) /\ f ∈ F a /\
  M !! (f + KMALLOC_USER_OFFSET) = None /\ f ∈ slots a d /\
  exists F' L', heap_ok h' p (<[f + KMALLOC_USER_OFFSET := sz]> M) F' L'.
Proof using All.
  destruct take_facts as (x & f & fs & k & Hx & Hxb & Hnx & EF & Hff & Hnf & Hk & Hbk & Hkn & B & Hin & HM).
  unfold take_block. rewrite Hx. simpl. rewrite Hff. simpl. rewrite Hk. simpl.
  eexists _, f. split; [done|]. split; [rewrite EF; left|]. split; [done|]. split; [done|].
  rewrite EF, zlength_cons in Hnf. pose proof (zlength_nonneg fs) as Hfs.
  set (k' := write_redzone sz _).
  assert (Ek' : k' = mkblock KMALLOC_MAGIC_ALLOC me sz a (bnext k) KMALLOC_REDZONE_VALUE).
  { unfold k', write_redzone. unfold KMALLOC_USER_OFFSET, KMALLOC_REDZONE_SIZE in *.
    replace (sz + 4 <? 2 ^ 32) with true by lia. simpl. by rewrite Hbk. }
  set (x' := mkboard (nfree x - 1) (bnext k) (bucket x) (next x)).
  set (L' := <[b := if nfree x - 1 =? 0 then rest else a :: rest]> L).
  exists (<[a := fs]> F), L'.
  pose proof (bo_nodup _ _ _ _ _ _ _ B) as N. rewrite EF in N. apply NoDup_cons in N as [Nf N].
  assert (Hsub : forall b' a', a' ∈ L' b' -> a' ∈ L b').
  { intros b' a'. unfold L'. destruct (decide (b' = b)) as [->|]; [|by rewrite fn_lookup_insert_ne].
    rewrite fn_lookup_insert, HL. destruct (_ =? _); [|done]. intros. by right. }
  assert (Hother : forall a0 x0 d0 f0, a0 <> a -> boards h !! a0 = Some x0 -> buckets !! bucket x0 = Some d0 ->
    f0 ∈ slots a0 d0 -> f0 <> f).
  { intros a0 x0 d0 f0 Hne Hx0 Hd0 Hf0 ->. pose proof (slot_board _ _ _ _ _ _ _ _ _ _ O Hx0 Hd0 Hf0 Hk). congruence. }
  pose proof (hk_nodup _ _ _ _ _ O b) as NL. rewrite HL in NL. apply NoDup_cons in NL as [NL NR].
  replace (if nfree x - 1 =? 0 then set_head b (next x) h else h) with
    (mkheap (if nfree x - 1 =? 0 then <[b := next x]> (heads h) else heads h) (boards h) (blocks h))
    by (destruct (_ =? _); by destruct h).
  split; simpl.
  - apply O.
  - intros b' Hb'. unfold L'. destruct (decide (b' = b)) as [->|Hne].
    + rewrite fn_lookup_insert. pose proof (hk_heads _ _ _ _ _ O b Hb') as Hh. rewrite HL in Hh.
      destruct (_ =? _); [|done]. rewrite list_lookup_insert_eq by (by eapply lookup_lt_Some). by rewrite Hnx.
    + rewrite fn_lookup_insert_ne by done. rewrite <- (hk_heads _ _ _ _ _ O b' Hb').
      destruct (_ =? _); [|done]. by rewrite list_lookup_insert_ne by done.
  - intros b'. apply (bchain_agree (boards h)).
    + intros a' Ha'. destruct (decide (a' = a)) as [->|]; [by rewrite lookup_insert_eq, Hx|by rewrite lookup_insert_ne].
    + unfold L'. destruct (decide (b' = b)) as [->|]; [|by rewrite fn_lookup_insert_ne; [apply O|]].
      rewrite fn_lookup_insert. pose proof (hk_chain _ _ _ _ _ O b) as C. rewrite HL in C. destruct (_ =? _); [|done]. by destruct C.
  - intros b'. unfold L'. destruct (decide (b' = b)) as [->|]; [|by rewrite fn_lookup_insert_ne; [apply O|]].
    rewrite fn_lookup_insert. destruct (_ =? _); [done|]. by apply NoDup_cons.
  - intros b' a' Ha'. destruct (hk_list _ _ _ _ _ O b' a' (Hsub _ _ Ha')) as (x0 & Hx0 & Hb0 & Hn0).
    destruct (decide (a' = a)) as [->|Hne]; [|exists x0; by rewrite lookup_insert_ne].
    assert (x0 = x) as -> by congruence. exists x'. rewrite lookup_insert_eq. split_and!; try done. simpl.
    intros E0. unfold L' in Ha'. rewrite <- Hb0, Hxb, fn_lookup_insert in Ha'.
    replace (nfree x - 1 =? 0) with true in Ha' by lia. done.
  - intros a' x0 Hx0 Hn0. destruct (decide (a' = a)) as [->|Hne].
    + rewrite lookup_insert_eq in Hx0. injection Hx0 as <-. simpl in *. unfold L'. rewrite Hxb, fn_lookup_insert.
      replace (nfree x - 1 =? 0) with false by lia. left.
    + rewrite lookup_insert_ne in Hx0 by done. pose proof (hk_listed _ _ _ _ _ O a' x0 Hx0 Hn0) as Hl.
      unfold L'. destruct (decide (bucket x0 = b)) as [E|]; [|by rewrite fn_lookup_insert_ne].
      rewrite E, fn_lookup_insert. rewrite E, HL in Hl. apply elem_of_cons in Hl as [->|Hl]; [done|].
      destruct (_ =? _); [done|by right].
  - intros a' x0 Hx0. destruct (decide (a' = a)) as [->|Hne].
    + rewrite lookup_insert_eq in Hx0. injection Hx0 as <-. exists d. rewrite fn_lookup_insert.
      destruct B as [B1 B2 B3 B4 B5 B6 B7 B8]. rewrite EF in *. split; simpl; try done.
      * lia.
      * intros g Hg. apply B6. by right.
      * destruct B7 as [_ B7]. apply (fchain_agree (blocks h)); [|done]. intros g Hg.
        rewrite lookup_insert_ne; [done|]. intros ->. by apply Nf.
      * intros g Hg. destruct (decide (g = f)) as [->|Hgf].
        { exists k'. rewrite lookup_insert_eq, Ek'. split_and!; try done. intros _. unfold used. simpl.
          by rewrite lookup_insert_eq. }
        rewrite lookup_insert_ne by done. destruct (B8 g Hg) as (kg & Hkg & Hbg & Hu). exists kg. split_and!; try done.
        intros Hng. unfold used. rewrite lookup_insert_ne by lia. apply Hu. by intros [->|]%elem_of_cons.
    + rewrite lookup_insert_ne in Hx0 by done. destruct (hk_board _ _ _ _ _ O a' x0 Hx0) as [d0 B0]. exists d0.
      rewrite fn_lookup_insert_ne by done. pose proof (bo_bucket _ _ _ _ _ _ _ B0) as Hd0.
      apply (board_ok_frame _ _ _ _ _ _ _ _ _ _ B0).
      * intros g Hg. rewrite lookup_insert_ne; [done|]. intros E. by apply (Hother a' x0 d0 g Hne Hx0 Hd0 Hg).
      * intros g Hg. rewrite lookup_insert_ne; [done|]. intros E. apply (Hother a' x0 d0 g Hne Hx0 Hd0 Hg). lia.
      * apply B0.
  - intros g kg Hg. assert (Hold : exists kg', blocks h !! g = Some kg' /\ board kg' = board kg).
    { destruct (decide (g = f)) as [->|]; [|rewrite lookup_insert_ne in Hg by done; by exists kg].
      rewrite lookup_insert_eq in Hg. injection Hg as <-. exists k. rewrite Ek'. done. }
    destruct Hold as (kg' & Hkg' & <-). destruct (hk_blocks _ _ _ _ _ O g kg' Hkg') as (x0 & d0 & Hx0 & Hd0 & Hs).
    destruct (decide (board kg' = a)) as [E|]; [|exists x0, d0; by rewrite lookup_insert_ne].
    exists x', d0. rewrite E, lookup_insert_eq. rewrite E in Hx0, Hs. split_and!; try done. simpl. congruence.
  - intros ptr s0 Hp. destruct (decide (ptr = f + KMALLOC_USER_OFFSET)) as [->|Hne].
    + replace (f + KMALLOC_USER_OFFSET - KMALLOC_USER_OFFSET) with f by lia. exists k'. rewrite lookup_insert_eq. split; [done|].
      rewrite Ek'. simpl. by rewrite fn_lookup_insert.
    + rewrite lookup_insert_ne in Hp by done. destruct (hk_live _ _ _ _ _ O ptr s0 Hp) as (k0 & Hk0 & Hnot).
      exists k0. rewrite lookup_insert_ne by lia. split; [done|].
      destruct (decide (board k0 = a)) as [E|]; [|by rewrite fn_lookup_insert_ne].
      rewrite E, fn_lookup_insert. rewrite E, EF in Hnot. intros H'. apply Hnot. by right.
Qed.
End take.

(** ** A new board *)

(** The table is sound: a board of every bucket fits its pages. *)
Definition bucket_sound (d : bucket_desc) : bool :=
  (0 <? block_size d) && (1 <=? nblocks d) && (BOARD_HEADER + nblocks d * block_size d <=? span (order d)) && (order d <? 11)%nat
  && (block_size d <=? 2 ^ 32).

Lemma buckets_sound b d : buckets !! b = Some d ->
  0 < block_size d <= 2 ^ 32 /\ 1 <= nblocks d /\ BOARD_HEADER + nblocks d * block_size d <= span (order d) /\ (order d < 11)%nat /\ (b < 14)%nat.
Proof.
  intros Hd. assert (A : forallb bucket_sound buckets = true) by (vm_compute; reflexivity).
  rewrite forallb_forall in A. specialize (A d ltac:(apply list_elem_of_In; by eapply list_elem_of_lookup_2)).
  unfold bucket_sound in A. apply lookup_lt_Some in Hd. change (length buckets) with 14%nat in Hd.
  apply andb_prop in A as [[[[A1 A2]%andb_prop A3]%andb_prop A4%Nat.ltb_lt]%andb_prop A5]. lia.
Qed.

Lemma elem_slots a d f : f ∈ slots a d <-> exists i, 0 <= i < nblocks d /\ f = a + BOARD_HEADER + i * block_size d.
Proof.
  unfold slots. rewrite list_elem_of_fmap. split.
  - intros (i & -> & Hi). apply elem_of_seqZ in Hi. exists i. split; [lia|done].
  - intros (i & Hi & ->). exists i. split; [done|]. apply elem_of_seqZ. lia.
Qed.

Lemma slots_nodup a d : 0 < block_size d -> NoDup (slots a d).
Proof. intros. unfold slots. apply NoDup_fmap_2; [intros i j E; nia|apply NoDup_seqZ]. Qed.

Lemma link_other n a bs g : forall f B, (forall i, 0 <= i <= Z.of_nat n -> g <> f + i * bs) -> link_blocks n a f bs B !! g = B !! g.
Proof.
  induction n as [|n IH]; intros f B Hg; simpl.
  - rewrite lookup_insert_ne; [done|]. specialize (Hg 0). lia.
  - rewrite IH.
    + rewrite lookup_insert_ne; [done|]. specialize (Hg 0). lia.
    + intros i Hi. specialize (Hg (i + 1) ltac:(lia)). intros ->. apply Hg. ring.
Qed.

Lemma link_lookup n a bs : 0 < bs -> forall f B i, 0 <= i <= Z.of_nat n ->
  link_blocks n a f bs B !! (f + i * bs) = Some (link_block a (if i =? Z.of_nat n then None else Some (f + (i + 1) * bs))).
Proof.
  intros Hbs. induction n as [|n IH]; intros f B i Hi; cbn [link_blocks].
  - replace i with 0 by lia. rewrite Z.mul_0_l, Z.add_0_r, lookup_insert_eq. done.
  - destruct (decide (i = 0)) as [->|Hi0].
    + rewrite Z.mul_0_l, Z.add_0_r, link_other by (intros j Hj; pose proof (Z.mul_nonneg_nonneg j bs); lia). rewrite lookup_insert_eq.
      rewrite (proj2 (Z.eqb_neq 0 (Z.of_nat (S n)))) by lia. by rewrite Z.mul_1_l.
    + replace (f + i * bs) with (f + bs + (i - 1) * bs) by ring. rewrite IH by lia.
      do 2 f_equal. destruct (Z.eqb_spec (i - 1) (Z.of_nat n)), (Z.eqb_spec i (Z.of_nat (S n))); try lia; [done|]. f_equal. ring.
Qed.

Lemma fchain_slots B base bs last m : forall j, (forall i, j <= i < j + Z.of_nat m ->
    exists k, B !! (base + i * bs) = Some k /\ bnext k = if i =? last then None else Some (base + (i + 1) * bs)) ->
  j + Z.of_nat m = last + 1 -> fchain B ((fun i => base + i * bs) <$> seqZ j (Z.of_nat m)).
Proof.
  induction m as [|m IH]; intros j Hk Hl; [done|]. rewrite seqZ_cons by lia. cbn [fmap list_fmap fchain].
  destruct (Hk j ltac:(lia)) as (k & Hb & Hn). split.
  - exists k. split; [done|]. rewrite Hn. destruct m as [|m].
    + replace (j =? last) with true by lia. replace (Z.pred _) with 0 by lia. done.
    + replace (j =? last) with false by lia. rewrite seqZ_cons by lia. cbn [fmap list_fmap head]. f_equal; lia.
  - replace (Z.pred (Z.of_nat (S m))) with (Z.of_nat m) by lia. apply IH; [|lia]. intros i Hi. apply Hk. lia.
Qed.

Lemma slot_span a d f : 0 < block_size d -> BOARD_HEADER + nblocks d * block_size d <= span (order d) -> f ∈ slots a d ->
  a + BOARD_HEADER <= f /\ f + block_size d <= a + span (order d).
Proof. intros Hbs Hs (i & Hi & ->)%elem_slots. unfold BOARD_HEADER in *. nia. Qed.

(** The blocks of two boards are apart. *)
Lemma slots_apart h p M F L a x d a' d' f : heap_ok h p M F L -> boards h !! a = Some x -> buckets !! bucket x = Some d ->
  (forall y, y ∈ pages_held p -> runs_apart (order d', a') y) -> (exists b, buckets !! b = Some d') -> f ∈ slots a' d' -> f ∉ slots a d.
Proof.
  intros O Hx Hd Hap [b' Hd'] Hf Hf'. destruct (buckets_sound _ _ Hd) as (? & ? & ? & ? & _).
  destruct (buckets_sound _ _ Hd') as (? & ? & ? & ? & _).
  destruct (hk_board _ _ _ _ _ O a x Hx) as [d0 B].
  assert (d0 = d) as -> by (pose proof (bo_bucket _ _ _ _ _ _ _ B); congruence).
  pose proof (Hap _ (bo_held _ _ _ _ _ _ _ B)) as A. unfold runs_apart in A. simpl in A.
  apply slot_span in Hf; [|lia|lia]. apply slot_span in Hf'; [|lia|lia]. unfold BOARD_HEADER in *. lia.
Qed.

Lemma alloc_board_ok h p M F L b d : heap_ok h p M F L -> buckets !! b = Some d -> L b = [] ->
  exists r h' p', ('(r, h, p) ← alloc_board b d h p; Some (r, set_head b r h, p)) = Some (r, h', p') /\
    match r with
    | None => heap_ok h' p' M F L /\ pages_alloc (order d) p = Some (None, p)
    | Some a => exists F' L', heap_ok h' p' M F' L' /\ L' b = [a]
    end.
Proof.
  intros O Hd HL. destruct (buckets_sound _ _ Hd) as (Hbs & Hnb & Hfit & Ho & Hb).
  destruct (ps_alloc p (order d) (hk_pages _ _ _ _ _ O) Ho) as (r & p' & E & Op & Hr).
  pose proof (hk_heads _ _ _ _ _ O b Hb) as Hh. rewrite HL in Hh. simpl in Hh.
  unfold alloc_board. rewrite E. simpl. destruct r as [a|].
  2:{ subst p'. eexists None, _, p. split; [done|]. split; [|done].
      replace (set_head b None h) with h; [done|]. destruct h. unfold set_head. simpl in *. by rewrite list_insert_id. }
  rewrite Hh. simpl. eexists (Some a), _, p'. split; [done|].
  assert (Hap : forall y, y ∈ pages_held p -> runs_apart (order d, a) y) by (by apply (ps_apart p' (order d) a)).
  assert (Hnew : boards h !! a = None).
  { destruct (boards h !! a) as [x|] eqn:Ex; [|done]. destruct (hk_board _ _ _ _ _ O a x Ex) as [d0 B].
    pose proof (Hap _ (bo_held _ _ _ _ _ _ _ B)) as A. unfold runs_apart in A. simpl in A.
    pose proof (span_pos (order d)). pose proof (span_pos (order d0)). lia. }
  set (BL := link_blocks _ _ _ _ _). set (x := mkboard (nblocks d) (Some (a + BOARD_HEADER)) b None).
  assert (Hout : forall g, g ∉ slots a d -> BL !! g = blocks h !! g).
  { intros g Hg. apply link_other. intros i Hi ->. apply Hg, elem_slots. exists i. split; lia. }
  assert (Hin : forall i, 0 <= i < nblocks d -> BL !! (a + BOARD_HEADER + i * block_size d) =
    Some (link_block a (if i =? nblocks d - 1 then None else Some (a + BOARD_HEADER + (i + 1) * block_size d)))).
  { intros i Hi. unfold BL. rewrite link_lookup by lia. by replace (Z.of_nat (Z.to_nat (nblocks d) - 1)) with (nblocks d - 1) by lia. }
  assert (Hold : forall g k, blocks h !! g = Some k -> g ∉ slots a d).
  { intros g k Hg Hs. destruct (hk_blocks _ _ _ _ _ O g k Hg) as (x0 & d0 & Hx0 & Hd0 & Hs0).
    exact (slots_apart h p M F L _ x0 d0 a d g O Hx0 Hd0 Hap (ex_intro _ b Hd) Hs Hs0). }
  exists (<[a := slots a d]> F), (<[b := [a]]> L). split; [|apply fn_lookup_insert].
  assert (HLa : forall b', a ∉ L b').
  { intros b' Ha. destruct (hk_list _ _ _ _ _ O b' a Ha) as (x0 & Hx0 & _). congruence. }
  split; simpl.
  - done.
  - intros b' Hb'. destruct (decide (b' = b)) as [->|].
    + rewrite fn_lookup_insert. apply list_lookup_insert_eq. by eapply lookup_lt_Some.
    + rewrite fn_lookup_insert_ne, list_lookup_insert_ne by done. by apply O.
  - intros b'. destruct (decide (b' = b)) as [->|].
    + rewrite fn_lookup_insert. split; [|done]. exists x. by rewrite lookup_insert_eq.
    + rewrite fn_lookup_insert_ne by done. apply (bchain_agree (boards h)); [|apply O].
      intros a' Ha'. rewrite lookup_insert_ne; [done|]. intros <-. by apply (HLa b').
  - intros b'. destruct (decide (b' = b)) as [->|]; [rewrite fn_lookup_insert|rewrite fn_lookup_insert_ne by done; apply O].
    apply NoDup_singleton.
  - intros b' a'. destruct (decide (b' = b)) as [->|].
    + rewrite fn_lookup_insert. intros ->%list_elem_of_singleton. exists x. rewrite lookup_insert_eq. split_and!; try done. simpl. lia.
    + rewrite fn_lookup_insert_ne by done. intros Ha'. destruct (hk_list _ _ _ _ _ O b' a' Ha') as (x0 & Hx0 & ?).
      exists x0. rewrite lookup_insert_ne; [done|]. congruence.
  - intros a' x0 Hx0 Hn0. destruct (decide (a' = a)) as [->|].
    + rewrite lookup_insert_eq in Hx0. injection Hx0 as <-. simpl. rewrite fn_lookup_insert. left.
    + rewrite lookup_insert_ne in Hx0 by done. pose proof (hk_listed _ _ _ _ _ O a' x0 Hx0 Hn0) as Hl.
      destruct (decide (bucket x0 = b)) as [Eb|]; [|by rewrite fn_lookup_insert_ne].
      rewrite Eb, HL in Hl. by apply elem_of_nil in Hl.
  - intros a' x0 Hx0. destruct (decide (a' = a)) as [->|Hne].
    + rewrite lookup_insert_eq in Hx0. injection Hx0 as <-. exists d. rewrite fn_lookup_insert. split; simpl; try done.
      * rewrite Hr. left.
      * unfold slots, zlength. rewrite length_fmap, length_seqZ. lia.
      * unfold slots. rewrite seqZ_cons by lia. cbn [fmap list_fmap head]. by rewrite Z.mul_0_l, Z.add_0_r.
      * apply slots_nodup. lia.
      * unfold slots. rewrite <- (Z2Nat.id (nblocks d)) by lia. apply (fchain_slots _ _ _ (nblocks d - 1)); [|lia].
        intros i Hi. eexists. split; [apply Hin; lia|done].
      * intros f Hf. pose proof Hf as (i & Hi & Ef)%elem_slots. eexists. split; [rewrite Ef; by apply Hin|]. split; [done|]. done.
    + rewrite lookup_insert_ne in Hx0 by done. destruct (hk_board _ _ _ _ _ O a' x0 Hx0) as [d0 B0]. exists d0.
      rewrite fn_lookup_insert_ne by done. apply (board_ok_frame _ _ _ _ _ _ _ _ _ _ B0); try done.
      * intros f Hf. apply Hout. intros Hs. pose proof (bo_bucket _ _ _ _ _ _ _ B0) as Hd0.
        exact (slots_apart h p M F L a' x0 d0 a d f O Hx0 Hd0 Hap (ex_intro _ b Hd) Hs Hf).
      * rewrite Hr. right. apply B0.
  - intros g k Hg. destruct (decide (g ∈ slots a d)) as [Hs|Hs].
    + pose proof Hs as (i & Hi & Eg)%elem_slots. rewrite Eg, Hin in Hg by done. injection Hg as <-. exists x, d.
      simpl. by rewrite lookup_insert_eq.
    + rewrite Hout in Hg by done. destruct (hk_blocks _ _ _ _ _ O g k Hg) as (x0 & d0 & Hx0 & ?).
      exists x0, d0. rewrite lookup_insert_ne; [done|]. congruence.
  - intros ptr sz Hp. destruct (hk_live _ _ _ _ _ O ptr sz Hp) as (k & Hk & Hnot). exists k.
    rewrite Hout by (by eapply Hold). split; [done|]. rewrite fn_lookup_insert_ne; [done|].
    intros E'. destruct (hk_blocks _ _ _ _ _ O _ k Hk) as (x0 & d0 & Hx0 & _). congruence.
Qed.

(** ** Putting a block back *)

Section put.
Context (h : heap) (p : P) (M : gmap Z Z) (F : Z -> list Z) (L : nat -> list Z) (O : heap_ok h p M F L)
  (f sz : Z) (k : block_header) (HM : M !! (f + KMALLOC_USER_OFFSET) = Some sz) (Hk : blocks h !! f = Some k).
Let a := board k.

Lemma put_facts : exists x d, boards h !! a = Some x /\ board_ok (blocks h) (pages_held p) M (F a) a x d /\ f ∈ slots a d /\
  (f ∉ F a) /\ used M d f k.
Proof using O HM Hk.
  destruct (hk_live _ _ _ _ _ O _ _ HM) as (k' & Hk' & Hn).
  replace (f + KMALLOC_USER_OFFSET - KMALLOC_USER_OFFSET) with f in * by lia. rewrite Hk in Hk'. injection Hk' as <-.
  destruct (hk_blocks _ _ _ _ _ O f k Hk) as (x & d & Hx & Hd & Hs). exists x, d.
  destruct (hk_board _ _ _ _ _ O (board k) x Hx) as [d' B].
  assert (d' = d) as -> by (pose proof (bo_bucket _ _ _ _ _ _ _ B); congruence). split_and!; try done.
  destruct (bo_slots _ _ _ _ _ _ _ B f Hs) as (k' & Hk' & _ & Hu). rewrite Hk in Hk'. injection Hk' as <-. by apply Hu.
Qed.

Definition put_list (x : board_header) : nat -> list Z :=
  if nfree x =? 0 then <[bucket x := a :: L (bucket x)]> L else L.
Definition put_board (x : board_header) : board_header :=
  mkboard (nfree x + 1) (Some f) (bucket x) (if nfree x =? 0 then head (L (bucket x)) else next x).
Definition put_heap (x : board_header) : heap :=
  mkheap (if nfree x =? 0 then <[bucket x := Some a]> (heads h) else heads h) (<[a := put_board x]> (boards h))
    (<[f := mkblock KMALLOC_MAGIC_FREED (owner k) (size k) a (firstfree x) (redzone k)]> (blocks h)).

Lemma put_ok x : boards h !! a = Some x ->
  heap_ok (put_heap x) p (delete (f + KMALLOC_USER_OFFSET) M) (<[a := f :: F a]> F) (put_list x) /\
  a ∈ put_list x (bucket x).
Proof using O HM Hk.
  intros Hx. destruct put_facts as (x0 & d & Hx0 & B & Hs & Hn & U). rewrite Hx in Hx0. injection Hx0 as <-.
  pose proof B as [B1 B2 B3 B4 B5 B6 B7 B8]. pose proof (zlength_nonneg (F a)) as Hlen.
  destruct (buckets_sound _ _ B1) as (_ & _ & _ & _ & Hb).
  assert (Hla : nfree x <> 0 -> a ∈ L (bucket x)) by (by apply O).
  assert (Hnla : nfree x = 0 -> forall b, a ∉ L b).
  { intros E b' Ha. destruct (hk_list _ _ _ _ _ O b' a Ha) as (x0 & Hx0 & _ & ?). congruence. }
  assert (Hother : forall a0 x0 d0 f0, a0 <> a -> boards h !! a0 = Some x0 -> buckets !! bucket x0 = Some d0 ->
    f0 ∈ slots a0 d0 -> f0 <> f).
  { intros a0 x0 d0 f0 Hne Hx0 Hd0 Hf0 ->. pose proof (slot_board _ _ _ _ _ _ _ _ _ _ O Hx0 Hd0 Hf0 Hk). by unfold a in Hne. }
  assert (Hsame : forall b, b <> bucket x \/ nfree x <> 0 -> put_list x b = L b).
  { intros b' Hb'. unfold put_list. destruct (Z.eqb_spec (nfree x) 0); [|done]. apply fn_lookup_insert_ne. naive_solver. }
  assert (Hpush : nfree x = 0 -> put_list x (bucket x) = a :: L (bucket x)).
  { intros E. unfold put_list. rewrite E. apply fn_lookup_insert. }
  split; [split; simpl|].
  - apply O.
  - intros b' Hb'. pose proof (hk_heads _ _ _ _ _ O b' Hb') as Hh. destruct (Z.eqb_spec (nfree x) 0) as [E|E].
    + destruct (decide (b' = bucket x)) as [->|Hne].
      * rewrite Hpush by done. apply list_lookup_insert_eq. by eapply lookup_lt_Some.
      * rewrite Hsame, list_lookup_insert_ne by auto. done.
    + by rewrite Hsame by auto.
  - intros b'. assert (C : bchain (<[a:=put_board x]> (boards h)) (L b')).
    { apply (bchain_agree (boards h)); [|apply O]. intros a' Ha'. destruct (decide (a' = a)) as [->|]; [|by rewrite lookup_insert_ne].
      rewrite lookup_insert_eq, Hx. simpl. destruct (Z.eqb_spec (nfree x) 0) as [E|]; [|done]. by destruct (Hnla E b'). }
    destruct (decide (nfree x = 0)) as [E|E]; [|by rewrite Hsame by auto].
    destruct (decide (b' = bucket x)) as [->|]; [|by rewrite Hsame by auto]. rewrite Hpush by done. split; [|done].
    exists (put_board x). rewrite lookup_insert_eq. split; [done|]. simpl. by rewrite E.
  - intros b'. destruct (decide (nfree x = 0)) as [E|E]; [|rewrite Hsame by auto; apply O].
    destruct (decide (b' = bucket x)) as [->|]; [|rewrite Hsame by auto; apply O]. rewrite Hpush by done.
    apply NoDup_cons. split; [by apply Hnla|apply O].
  - intros b' a' Ha'. destruct (decide (a' = a)) as [->|Hne].
    + exists (put_board x). rewrite lookup_insert_eq. split; [done|]. simpl. split; [|lia].
      destruct (decide (nfree x = 0)) as [E|E].
      * destruct (decide (b' = bucket x)) as [->|]; [done|]. rewrite Hsame in Ha' by auto. by apply Hnla in Ha'.
      * rewrite Hsame in Ha' by auto. destruct (hk_list _ _ _ _ _ O b' a Ha') as (x1 & ? & ? & _). congruence.
    + rewrite lookup_insert_ne by done. apply O. destruct (decide (nfree x = 0)) as [E|E]; [|by rewrite Hsame in Ha' by auto].
      destruct (decide (b' = bucket x)) as [->|]; [|by rewrite Hsame in Ha' by auto]. rewrite Hpush in Ha' by done.
      by apply elem_of_cons in Ha' as [->|].
  - intros a' x0 Hx0 Hn0. destruct (decide (a' = a)) as [->|Hne].
    + rewrite lookup_insert_eq in Hx0. injection Hx0 as <-. simpl. destruct (decide (nfree x = 0)) as [E|E].
      * rewrite Hpush by done. left.
      * rewrite Hsame by auto. by apply Hla.
    + rewrite lookup_insert_ne in Hx0 by done. pose proof (hk_listed _ _ _ _ _ O a' x0 Hx0 Hn0) as Hl.
      destruct (decide (nfree x = 0)) as [E|E]; [|by rewrite Hsame by auto].
      destruct (decide (bucket x0 = bucket x)) as [Eb|]; [|by rewrite Hsame by auto]. rewrite Eb in Hl |- *.
      rewrite Hpush by done. by right.
  - intros a' x0 Hx0. destruct (decide (a' = a)) as [->|Hne].
    + rewrite lookup_insert_eq in Hx0. injection Hx0 as <-. exists d. rewrite fn_lookup_insert. split; simpl; try done.
      * rewrite zlength_cons. lia.
      * by apply NoDup_cons.
      * intros g [->|Hg]%elem_of_cons; [done|by apply B6].
      * split; [exists (mkblock KMALLOC_MAGIC_FREED (owner k) (size k) a (firstfree x) (redzone k)); by rewrite lookup_insert_eq|].
        apply (fchain_agree (blocks h)); [|done]. intros g Hg. rewrite lookup_insert_ne; [done|]. by intros ->.
      * intros g Hg. destruct (decide (g = f)) as [->|Hgf].
        { eexists. rewrite lookup_insert_eq. split; [done|]. split; [done|]. intros Hng. destruct Hng. left. }
        destruct (B8 g Hg) as (kg & Hkg & Hbg & Hu). exists kg. rewrite lookup_insert_ne by done. split_and!; try done.
        intros Hng. unfold used. rewrite lookup_delete_ne by lia. apply Hu. intros Hin. apply Hng. by right.
    + rewrite lookup_insert_ne in Hx0 by done. destruct (hk_board _ _ _ _ _ O a' x0 Hx0) as [d0 B0]. exists d0.
      rewrite fn_lookup_insert_ne by done. pose proof (bo_bucket _ _ _ _ _ _ _ B0) as Hd0.
      apply (board_ok_frame _ _ _ _ _ _ _ _ _ _ B0).
      * intros g Hg. rewrite lookup_insert_ne; [done|]. intros E. by apply (Hother a' x0 d0 g Hne Hx0 Hd0 Hg).
      * intros g Hg. rewrite lookup_delete_ne; [done|]. intros E. apply (Hother a' x0 d0 g Hne Hx0 Hd0 Hg). lia.
      * apply B0.
  - intros g kg Hg. assert (Hold : exists kg', blocks h !! g = Some kg' /\ board kg' = board kg).
    { destruct (decide (g = f)) as [->|]; [|rewrite lookup_insert_ne in Hg by done; by exists kg].
      rewrite lookup_insert_eq in Hg. injection Hg as <-. by exists k. }
    destruct Hold as (kg' & Hkg' & <-). destruct (hk_blocks _ _ _ _ _ O g kg' Hkg') as (x0 & d0 & Hx0 & Hd0 & Hs0).
    destruct (decide (board kg' = a)) as [E|]; [|exists x0, d0; by rewrite lookup_insert_ne].
    exists (put_board x), d0. rewrite E, lookup_insert_eq. rewrite E in Hx0, Hs0. split_and!; try done. simpl. congruence.
  - intros ptr s0 [Hne Hp]%lookup_delete_Some. destruct (hk_live _ _ _ _ _ O ptr s0 Hp) as (k0 & Hk0 & Hnot).
    exists k0. rewrite lookup_insert_ne by lia. split; [done|].
    destruct (decide (board k0 = a)) as [E|]; [|by rewrite fn_lookup_insert_ne].
    rewrite E, fn_lookup_insert. rewrite E in Hnot. intros [?|?]%elem_of_cons; [lia|done].
  - destruct (decide (nfree x = 0)) as [E|E]; [rewrite Hpush by done; left|rewrite Hsame by auto; by apply Hla].
Qed.
End put.

(** ** Giving a board back *)

Lemma all_free h p M F L a x d : heap_ok h p M F L -> boards h !! a = Some x -> board_ok (blocks h) (pages_held p) M (F a) a x d ->
  nfree x = nblocks d -> forall f, f ∈ slots a d -> f ∈ F a.
Proof.
  intros O Hx B Hn f Hf. destruct (buckets_sound _ _ (bo_bucket _ _ _ _ _ _ _ B)) as (_ & Hnb & _).
  assert (E : F a ≡ₚ slots a d).
  { apply submseteq_length_Permutation.
    - apply NoDup_submseteq; [apply B|]. intros g Hg. by apply (bo_sub _ _ _ _ _ _ _ B).
    - pose proof (bo_nfree _ _ _ _ _ _ _ B) as E. rewrite Hn in E. unfold zlength in E.
      unfold slots. rewrite length_fmap, length_seqZ. lia. }
  by rewrite E.
Qed.

Lemma lookup_foldr_delete {A} (l : list Z) (m : gmap Z A) i y : foldr delete m l !! i = Some y <-> (i ∉ l) /\ m !! i = Some y.
Proof.
  induction l as [|a l IH]; simpl.
  - split; [|by intros [_ ?]]. intros. split; [|done]. by intros ?%elem_of_nil.
  - rewrite lookup_delete_Some, IH, not_elem_of_cons. naive_solver.
Qed.

Lemma drop_ok h p M F L a x d rest : heap_ok h p M F L -> boards h !! a = Some x -> buckets !! bucket x = Some d ->
  L (bucket x) = a :: rest -> nfree x = nblocks d ->
  exists h' p' L', free_board a d (set_head (bucket x) (next x) h) p = Some (h', p') /\ heap_ok h' p' M F L' /\
    pages_held p ≡ₚ (order d, a) :: pages_held p'.
Proof.
  intros O Hx Hd HL Hn. destruct (hk_board _ _ _ _ _ O a x Hx) as [d' B].
  assert (d' = d) as -> by (pose proof (bo_bucket _ _ _ _ _ _ _ B); congruence).
  destruct (ps_free p (order d) a (hk_pages _ _ _ _ _ O) (bo_held _ _ _ _ _ _ _ B)) as (p' & E & Op & Hperm).
  unfold free_board. rewrite E. simpl. eexists _, p', (<[bucket x := rest]> L). split; [done|]. split; [|done].
  pose proof (all_free _ _ _ _ _ _ _ _ O Hx B Hn) as Hall.
  pose proof (hk_chain _ _ _ _ _ O (bucket x)) as C. rewrite HL in C. destruct C as [(x1 & Hx1 & Hnx) C].
  rewrite Hx in Hx1. injection Hx1 as <-.
  pose proof (hk_nodup _ _ _ _ _ O (bucket x)) as N. rewrite HL in N. apply NoDup_cons in N as [Na N].
  assert (Hsub : forall b' a', a' ∈ (<[bucket x := rest]> L) b' -> a' ∈ L b' /\ a' <> a).
  { intros b' a' Ha'. destruct (decide (b' = bucket x)) as [->|Hne].
    - rewrite fn_lookup_insert in Ha'. rewrite HL. split; [by right|]. by intros ->.
    - rewrite fn_lookup_insert_ne in Ha' by done. split; [done|]. intros ->.
      destruct (hk_list _ _ _ _ _ O b' a Ha') as (x1 & ? & ? & _). congruence. }
  assert (Hfar : forall a0 x0 d0 g, a0 <> a -> boards h !! a0 = Some x0 -> buckets !! bucket x0 = Some d0 -> g ∈ slots a0 d0 -> g ∉ slots a d).
  { intros a0 x0 d0 g Hne Hx0 Hd0 Hg Hg'. destruct (hk_board _ _ _ _ _ O a0 x0 Hx0) as [d1 B0].
    assert (d1 = d0) as -> by (pose proof (bo_bucket _ _ _ _ _ _ _ B0); congruence).
    destruct (bo_slots _ _ _ _ _ _ _ B0 g Hg) as (k0 & Hk0 & Hb0 & _).
    destruct (bo_slots _ _ _ _ _ _ _ B g Hg') as (k1 & Hk1 & Hb1 & _). congruence. }
  split; simpl.
  - done.
  - intros b' Hb'. pose proof (hk_heads _ _ _ _ _ O b' Hb') as Hh. destruct (decide (b' = bucket x)) as [->|].
    + rewrite fn_lookup_insert, list_lookup_insert_eq by (by eapply lookup_lt_Some). by rewrite Hnx.
    + by rewrite fn_lookup_insert_ne, list_lookup_insert_ne by done.
  - intros b'. apply (bchain_agree (boards h)).
    + intros a' Ha'. destruct (Hsub b' a' Ha') as [_ Hne]. by rewrite lookup_delete_ne.
    + destruct (decide (b' = bucket x)) as [->|]; [by rewrite fn_lookup_insert|rewrite fn_lookup_insert_ne by done; apply O].
  - intros b'. destruct (decide (b' = bucket x)) as [->|]; [by rewrite fn_lookup_insert|rewrite fn_lookup_insert_ne by done; apply O].
  - intros b' a' Ha'. destruct (Hsub b' a' Ha') as [Hl Hne]. rewrite lookup_delete_ne by done. by apply O.
  - intros a' x0 [Hne Hx0]%lookup_delete_Some Hn0. pose proof (hk_listed _ _ _ _ _ O a' x0 Hx0 Hn0) as Hl.
    destruct (decide (bucket x0 = bucket x)) as [Eb|]; [|by rewrite fn_lookup_insert_ne].
    rewrite Eb in Hl |- *. rewrite fn_lookup_insert. rewrite HL in Hl. apply elem_of_cons in Hl as [|]; [congruence|done].
  - intros a' x0 [Hne Hx0]%lookup_delete_Some. destruct (hk_board _ _ _ _ _ O a' x0 Hx0) as [d0 B0]. exists d0.
    apply (board_ok_frame _ _ _ _ _ _ _ _ _ _ B0); try done.
    + intros g Hg. destruct (bo_slots _ _ _ _ _ _ _ B0 g Hg) as (kg & Hkg & _). rewrite Hkg.
      apply lookup_foldr_delete. split; [|done].
      apply (Hfar a' x0 d0 g); [congruence|done|by apply B0|done].
    + pose proof (bo_held _ _ _ _ _ _ _ B0) as Hh. rewrite Hperm in Hh. apply elem_of_cons in Hh as [[= _ Ea]|Hh]; [congruence|done].
  - intros g k [Hg Hk]%lookup_foldr_delete. destruct (hk_blocks _ _ _ _ _ O g k Hk) as (x0 & d0 & Hx0 & Hd0 & Hs).
    exists x0, d0. rewrite lookup_delete_ne; [done|]. intros E'. rewrite <- E', Hx in Hx0. injection Hx0 as <-.
    rewrite Hd in Hd0. injection Hd0 as <-. by rewrite <- E' in Hs.
  - intros ptr s0 Hp. destruct (hk_live _ _ _ _ _ O ptr s0 Hp) as (k & Hk & Hnot). exists k.
    split; [|done]. apply lookup_foldr_delete. split; [|done]. intros Hs.
    destruct (bo_slots _ _ _ _ _ _ _ B _ Hs) as (k1 & Hk1 & Hb1 & _). rewrite Hk in Hk1. injection Hk1 as <-.
    apply Hnot. rewrite Hb1. by apply Hall.
Qed.

(** ** The whole operations *)

(** The heap is sound and [M] is what is allocated: pointer and size. *)
Definition heap_live (h : heap) (p : P) (M : gmap Z Z) : Prop := exists F L, heap_ok h p M F L.

(** What the callers rely on: the user's bytes and the red zones of two
    allocations do not meet, and lie in pages the heap holds. *)
Record allocations (p : P) (M : gmap Z Z) : Prop := {
  al_apart q sz q' sz' : M !! q = Some sz -> M !! q' = Some sz' -> q <> q' ->
    q + sz + KMALLOC_REDZONE_SIZE <= q' \/ q' + sz' + KMALLOC_REDZONE_SIZE <= q;
  al_held q sz : M !! q = Some sz -> 0 < sz /\
    exists o a, (o, a) ∈ pages_held p /\ a <= q /\ q + sz + KMALLOC_REDZONE_SIZE <= a + span o;
}.

Lemma live_block h p M F L q sz : heap_ok h p M F L -> M !! q = Some sz -> exists k x d, blocks h !! (q - KMALLOC_USER_OFFSET) = Some k /\
  boards h !! board k = Some x /\ board_ok (blocks h) (pages_held p) M (F (board k)) (board k) x d /\
  (q - KMALLOC_USER_OFFSET ∈ slots (board k) d) /\ used M d (q - KMALLOC_USER_OFFSET) k /\ size k = sz.
Proof.
  intros O Hq. destruct (hk_live _ _ _ _ _ O q sz Hq) as (k & Hk & _). exists k.
  assert (Hq' : M !! (q - KMALLOC_USER_OFFSET + KMALLOC_USER_OFFSET) = Some sz) by (by rewrite Z.sub_add).
  destruct (put_facts h p M F L O _ sz k Hq' Hk) as (x & d & Hx & B & Hs & _ & U). exists x, d. split_and!; try done.
  destruct U as (_ & _ & U & _). congruence.
Qed.

Lemma held_apart p o a o' a' : pages_ok p -> (o, a) ∈ pages_held p -> (o', a') ∈ pages_held p -> a <> a' -> runs_apart (o, a) (o', a').
Proof.
  intros Op H1 H2 Hne. pose proof H1 as H1'. apply elem_of_Permutation in H1' as [l Hl]. apply (ps_apart p o a l Op Hl).
  rewrite Hl in H2. apply elem_of_cons in H2 as [[= _ E]|]; [congruence|done].
Qed.

Lemma heap_live_allocations h p M : heap_live h p M -> allocations p M.
Proof.
  intros (F & L & O). split.
  - intros q sz q' sz' Hq Hq' Hne. destruct (live_block _ _ _ _ _ q sz O Hq) as (k & x & d & Hk & Hx & B & Hs & U & <-).
    destruct (live_block _ _ _ _ _ q' sz' O Hq') as (k' & x' & d' & Hk' & Hx' & B' & Hs' & U' & <-).
    destruct (buckets_sound _ _ (bo_bucket _ _ _ _ _ _ _ B)) as (Hbs & _ & Hfit & _).
    destruct (buckets_sound _ _ (bo_bucket _ _ _ _ _ _ _ B')) as (Hbs' & _ & Hfit' & _).
    destruct U as (_ & _ & _ & _ & U), U' as (_ & _ & _ & _ & U'). unfold KMALLOC_USER_OFFSET in *.
    destruct (decide (board k = board k')) as [E|Hb].
    + rewrite <- E in *. rewrite Hx in Hx'. injection Hx' as <-.
      assert (d' = d) as -> by (pose proof (bo_bucket _ _ _ _ _ _ _ B); pose proof (bo_bucket _ _ _ _ _ _ _ B'); congruence).
      apply elem_slots in Hs as (i & Hi & Ei), Hs' as (j & Hj & Ej). unfold KMALLOC_REDZONE_SIZE in *.
      assert (i < j \/ j < i) as [C|C] by (destruct (Z.lt_trichotomy i j) as [|[->|]]; [by left|lia|by right]); nia.
    + pose proof (held_apart p _ _ _ _ (hk_pages _ _ _ _ _ O) (bo_held _ _ _ _ _ _ _ B) (bo_held _ _ _ _ _ _ _ B') Hb) as A.
      apply slot_span in Hs, Hs'; try lia. unfold runs_apart, BOARD_HEADER in *. simpl in A. lia.
  - intros q sz Hq. destruct (live_block _ _ _ _ _ q sz O Hq) as (k & x & d & Hk & Hx & B & Hs & U & <-).
    destruct (buckets_sound _ _ (bo_bucket _ _ _ _ _ _ _ B)) as (Hbs & _ & Hfit & _).
    destruct U as (_ & _ & _ & U0 & U). split; [done|]. exists (order d), (board k). split; [apply B|].
    apply slot_span in Hs; [|lia|lia]. unfold KMALLOC_USER_OFFSET, BOARD_HEADER in *. lia.
Qed.

Lemma find_bucket_spec l b0 sz : match find_bucket l b0 sz with
  | Some (b, d) => exists i, b = (b0 + i)%nat /\ l !! i = Some d /\ u32 (sz + KMALLOC_REDZONE_SIZE) <= block_size d - KMALLOC_USER_OFFSET
  | None => Forall (fun d => block_size d - KMALLOC_USER_OFFSET < u32 (sz + KMALLOC_REDZONE_SIZE)) l
  end.
Proof.
  revert b0. induction l as [|d l IH]; intros b0; simpl; [constructor|].
  destruct (_ >=? _) eqn:E; [exists 0%nat; split_and!; [lia|done|lia]|]. specialize (IH (S b0)).
  destruct (find_bucket l (S b0) sz) as [[b d']|].
  - destruct IH as (i & -> & ? & ?). exists (S i). split_and!; [lia|done|done].
  - constructor; [lia|done].
Qed.

(** The board a request is served from: the first one of the bucket, or a new one. *)
Lemma get_board h p M F L b d : heap_ok h p M F L -> buckets !! b = Some d ->
  exists r h' p', match default None (heads h !! b) with
                  | Some a => Some (Some a, h, p)
                  | None => '(r, h, p) ← alloc_board b d h p; Some (r, set_head b r h, p)
                  end = Some (r, h', p') /\
    match r with
    | None => heap_ok h' p' M F L /\ pages_alloc (order d) p = Some (None, p)
    | Some a => exists F' L' rest, heap_ok h' p' M F' L' /\ L' b = a :: rest
    end.
Proof.
  intros O Hd. destruct (buckets_sound _ _ Hd) as (_ & _ & _ & _ & Hb). rewrite (hk_heads _ _ _ _ _ O b Hb). simpl.
  destruct (L b) as [|a rest] eqn:EL; simpl.
  - destruct (alloc_board_ok h p M F L b d O Hd EL) as (r & h' & p' & E & Hr). exists r, h', p'. split; [done|].
    destruct r; [|done]. destruct Hr as (F' & L' & ? & ?). by exists F', L', [].
  - exists (Some a), h, p. split; [done|]. by exists F, L, rest.
Qed.

Lemma kmalloc_spec h p M me sz : heap_live h p M -> 0 <= sz < 2 ^ 32 - 4 ->
  exists h' p' r, kmalloc me sz h p = Some (h', p', r) /\
    match r with
    | Some ptr => M !! ptr = None /\ heap_live h' p' (<[ptr := sz]> M)
    | None => heap_live h' p' M /\ (sz = 0 \/ 262108 < sz \/ exists o, pages_alloc o p = Some (None, p))
    end.
Proof.
  intros (F & L & O) Hsz. unfold kmalloc. destruct (Z.eqb_spec sz 0) as [->|Hz].
  { exists h, p, None. split; [done|]. split; [by exists F, L|by left]. }
  pose proof (find_bucket_spec buckets 0 sz) as Hf. rewrite u32_small in Hf by (unfold KMALLOC_REDZONE_SIZE; lia).
  destruct (find_bucket buckets 0 sz) as [[b d]|].
  - destruct Hf as (i & -> & Hd & Hfit). simpl in *. destruct (buckets_sound _ _ Hd) as (Hbs & _).
    destruct (get_board h p M F L i d O Hd) as (r & h1 & p1 & -> & Hr). simpl. destruct r as [a|].
    + destruct Hr as (F1 & L1 & rest & O1 & HL).
      destruct (take_block_ok h1 p1 M F1 L1 O1 me sz i d a rest Hd HL) as (h' & f & -> & _ & HM & _ & F' & L' & O'); [lia|lia|lia|].
      simpl. exists h', p1, (Some (f + KMALLOC_USER_OFFSET)). split; [done|]. split; [done|]. by exists F', L'.
    + destruct Hr as [O1 Hr]. exists h1, p1, None. split; [done|]. split; [by exists F, L|]. right. right. by exists (order d).
  - exists h, p, None. split; [done|]. split; [by exists F, L|]. right. left.
    rewrite Forall_forall in Hf. specialize (Hf (mkbucket 6 (262144 - 16) 1) ltac:(apply list_elem_of_In; vm_compute; tauto)).
    unfold KMALLOC_USER_OFFSET, KMALLOC_REDZONE_SIZE in Hf. simpl in Hf. lia.
Qed.

(** Freeing keeps the list of boards when the board that becomes fully free is
    the first of its bucket, or was fully used. *)
Definition frees_first (h : heap) (ptr : Z) : bool :=
  match blocks h !! (ptr - KMALLOC_USER_OFFSET) with
  | Some k =>
    match boards h !! board k with
    | Some x =>
      match buckets !! bucket x with
      | Some d => negb (nfree x + 1 =? nblocks d) || (nfree x =? 0) || bool_decide (heads h !! bucket x = Some (Some (board k)))
      | None => false
      end
    | None => false
    end
  | None => false
  end.

Lemma kfree_put h p M F L ptr sz : heap_ok h p M F L -> M !! ptr = Some sz -> exists k x d,
  blocks h !! (ptr - KMALLOC_USER_OFFSET) = Some k /\ boards h !! board k = Some x /\ buckets !! bucket x = Some d /\
  let h1 := put_heap h L (ptr - KMALLOC_USER_OFFSET) k x in let x1 := put_board L (ptr - KMALLOC_USER_OFFSET) x in
  kfree ptr h p = if nfree x + 1 =? nblocks d then free_board (board k) d (set_head (bucket x) (next x1) h1) p else Some (h1, p).
Proof.
  intros O HM. destruct (live_block _ _ _ _ _ ptr sz O HM) as (k & x & d & Hk & Hx & B & Hs & U & _).
  exists k, x, d. pose proof (bo_bucket _ _ _ _ _ _ _ B) as Hd. split_and!; try done. cbv zeta.
  destruct U as (U1 & U2 & _ & _ & U3). destruct (buckets_sound _ _ Hd) as (Hbs & _ & _ & _ & Hb).
  assert ((size k + KMALLOC_REDZONE_SIZE <? 2 ^ 32) = true) as Hw by (unfold KMALLOC_USER_OFFSET in U3; lia).
  unfold kfree. rewrite Hk. cbn [mbind option_bind]. rewrite U1, U2, Hw, !Z.eqb_refl, Hx. cbn [mbind option_bind]. rewrite Hd. simpl. unfold put_heap, put_board. rewrite U2.
  pose proof (hk_heads _ _ _ _ _ O (bucket x) Hb) as Hh.
  replace (nfree x + 1 =? 1) with (nfree x =? 0) by (destruct (Z.eqb_spec (nfree x) 0), (Z.eqb_spec (nfree x + 1) 1); lia || done).
  destruct (nfree x =? 0) eqn:E; simpl; [by rewrite Hh|done].
Qed.

Lemma kfree_spec h p M ptr sz : heap_live h p M -> M !! ptr = Some sz -> frees_first h ptr = true ->
  exists h' p', kfree ptr h p = Some (h', p') /\ heap_live h' p' (delete ptr M).
Proof.
  intros (F & L & O) HM Hf. destruct (kfree_put _ _ _ _ _ _ _ O HM) as (k & x & d & Hk & Hx & Hd & E). rewrite E. clear E.
  set (f := ptr - KMALLOC_USER_OFFSET) in *. assert (HM' : M !! (f + KMALLOC_USER_OFFSET) = Some sz) by (unfold f; by rewrite Z.sub_add).
  destruct (put_ok h p M F L O f sz k HM' Hk x Hx) as [O1 Hin]. replace (f + KMALLOC_USER_OFFSET) with ptr in O1 by (unfold f; lia).
  unfold frees_first in Hf. fold f in Hf. rewrite Hk, Hx, Hd in Hf.
  destruct (Z.eqb_spec (nfree x + 1) (nblocks d)) as [En|En]; [|eexists _, p; split; [done|]; by eexists _, _].
  assert (HL : exists rest, put_list L k x (bucket x) = board k :: rest).
  { unfold put_list. destruct (Z.eqb_spec (nfree x) 0) as [E0|E0]; [rewrite fn_lookup_insert; eauto|]. simpl in Hf.
    apply bool_decide_eq_true in Hf. destruct (buckets_sound _ _ Hd) as (_ & _ & _ & _ & Hb).
    rewrite (hk_heads _ _ _ _ _ O _ Hb) in Hf. injection Hf as Hf. destruct (L (bucket x)) as [|a l]; [done|].
    injection Hf as ->. eauto. }
  destruct HL as [rest HL].
  destruct (drop_ok _ _ _ _ _ (board k) (put_board L f x) d rest O1) as (h' & p' & L' & E & O' & _); try done.
  - simpl. apply lookup_insert_eq.
  - exists h', p'. split; [exact E|]. by eexists _, _.
Qed.

Lemma chain_next B front a rest c : bchain B (front ++ a :: rest) -> last front = Some c -> exists y, B !! c = Some y /\ next y = Some a.
Proof.
  intros C E. apply last_Some in E as [l ->]. rewrite <- app_assoc in C. simpl in C.
  induction l as [|z l IH]; [by destruct C as [C _]|]. destruct C as [_ C]. by apply IH.
Qed.

(** The boards of a bucket, as [kmalloc] would come to them. *)
Fixpoint walk (fuel : nat) (B : gmap Z board_header) (cur : option Z) : list Z :=
  match fuel, cur with
  | S n, Some a => a :: match B !! a with Some x => walk n B (next x) | None => [] end
  | _, _ => []
  end.
Definition bucket_boards (h : heap) (b : nat) : list Z := walk (S (base.size (boards h))) (boards h) (default None (heads h !! b)).

Lemma walk_chain B l : forall n, bchain B l -> (length l < n)%nat -> walk n B (head l) = l.
Proof.
  induction l as [|a l IH]; intros n C Hn; destruct n as [|n]; simpl in Hn; try lia; [done|].
  destruct C as [(x & Hx & Hnx) C]. simpl. rewrite Hx, Hnx. by rewrite IH by (done || lia).
Qed.

Lemma bucket_boards_list h p M F L b : heap_ok h p M F L -> (b < 14)%nat -> bucket_boards h b = L b.
Proof.
  intros O Hb. unfold bucket_boards. rewrite (hk_heads _ _ _ _ _ O b Hb). simpl default.
  apply walk_chain; [apply O|]. apply Nat.lt_succ_r, nodup_size; [apply O|].
  intros a Ha. destruct (hk_list _ _ _ _ _ O b a Ha) as (x & Hx & _). by exists x.
Qed.

(** ** The claims *)

(** when the block freed completes a board that is not the first of its
    bucket, all the boards before it are dropped from the bucket although they
    have free blocks, and the last of them still points to the board that has
    been given back; so the next time that one becomes free its bucket starts
    with memory that is not the heap's. *)
Theorem kfree_drops_boards h p M ptr sz k x d front rest :
  heap_live h p M -> M !! ptr = Some sz -> blocks h !! (ptr - KMALLOC_USER_OFFSET) = Some k ->
  boards h !! board k = Some x -> buckets !! bucket x = Some d -> nfree x <> 0 -> nfree x + 1 = nblocks d ->
  bucket_boards h (bucket x) = front ++ board k :: rest -> front <> [] ->
  exists h' p', kfree ptr h p = Some (h', p') /\ heads h' !! bucket x = Some (head rest) /\ boards h' !! board k = None /\
    (forall c, c ∈ front -> exists y, boards h' !! c = Some y /\ nfree y <> 0 /\ bucket y = bucket x) /\
    exists c y, last front = Some c /\ boards h' !! c = Some y /\ next y = Some (board k).
Proof.
  intros (F & L & O) HM Hk Hx Hd Hnz Hn HL Hfront.
  rewrite (bucket_boards_list _ _ _ _ _ _ O) in HL by apply (buckets_sound _ _ Hd). destruct (kfree_put _ _ _ _ _ _ _ O HM) as (k' & x' & d' & Hk' & Hx' & Hd' & E).
  rewrite Hk in Hk'. injection Hk' as <-. rewrite Hx in Hx'. injection Hx' as <-. rewrite Hd in Hd'. injection Hd' as <-.
  rewrite E. clear E. rewrite Hn, Z.eqb_refl. destruct (buckets_sound _ _ Hd) as (_ & _ & _ & _ & Hb).
  destruct (hk_board _ _ _ _ _ O (board k) x Hx) as [d0 B].
  assert (d0 = d) as -> by (pose proof (bo_bucket _ _ _ _ _ _ _ B); congruence).
  destruct (ps_free p (order d) (board k) (hk_pages _ _ _ _ _ O) (bo_held _ _ _ _ _ _ _ B)) as (p' & E & _).
  pose proof (hk_chain _ _ _ _ _ O (bucket x)) as C. pose proof (hk_nodup _ _ _ _ _ O (bucket x)) as N. rewrite HL in C, N.
  assert (Hnx : next x = head rest).
  { clear - C Hx. induction front as [|c front IH]; [|apply IH; apply C]. destruct C as [(y & Hy & Hn) _]. congruence. }
  assert (Hne : forall c, c ∈ front -> c <> board k).
  { intros c Hc ->. apply NoDup_app in N as (_ & N & _). apply (N _ Hc). left. }
  unfold free_board. rewrite E. simpl. eexists _, p'. split; [done|]. unfold put_board, put_heap. simpl.
  rewrite (proj2 (Z.eqb_neq (nfree x) 0)) by done. simpl. split; [|split; [apply lookup_delete_eq|split]].
  - rewrite list_lookup_insert_eq; [by rewrite Hnx|]. pose proof (hk_heads _ _ _ _ _ O (bucket x) Hb). by eapply lookup_lt_Some.
  - intros c Hc. destruct (hk_list _ _ _ _ _ O (bucket x) c) as (y & Hy & Hyb & Hyn).
    { rewrite HL. apply elem_of_app. by left. }
    exists y. rewrite lookup_delete_ne, lookup_insert_ne by (intros Ec; by apply (Hne c Hc)). done.
  - destruct (last front) as [c|] eqn:El; [|by apply last_None in El].
    destruct (chain_next _ _ _ _ _ C El) as (y & Hy & Hny). exists c, y. split; [done|].
    assert (c ∈ front) by (apply last_Some in El as [l ->]; apply elem_of_app; right; left).
    rewrite lookup_delete_ne, lookup_insert_ne by (intros Ec; by apply (Hne c)). done.
Qed.

(** A free that is not of the first kind does this to the bucket, and no list of
    allocations describes the heap any more. *)
Definition dropped (h : heap) (ptr : Z) (h' : heap) : Prop :=
  exists k x front c y rest, blocks h !! (ptr - KMALLOC_USER_OFFSET) = Some k /\ boards h !! board k = Some x /\
    bucket_boards h (bucket x) = front ++ board k :: rest /\ heads h' !! bucket x = Some (head rest) /\
    boards h' !! board k = None /\ last front = Some c /\ boards h' !! c = Some y /\ next y = Some (board k) /\
    (forall c, c ∈ front -> exists y, boards h' !! c = Some y /\ nfree y <> 0 /\ bucket y = bucket x).

Lemma dropped_not_live h ptr h' p M : dropped h ptr h' -> ~ heap_live h' p M.
Proof.
  intros (k & x & front & c & y & rest & _ & _ & _ & _ & Hnone & Hlast & Hy & Hny & Hfront) (F & L & O).
  assert (Hc : c ∈ front) by (apply last_Some in Hlast as [l ->]; apply elem_of_app; right; left).
  destruct (Hfront c Hc) as (y' & Hy' & Hn & _). rewrite Hy in Hy'. injection Hy' as <-.
  pose proof (hk_listed _ _ _ _ _ O c y Hy Hn) as Hin. pose proof (hk_chain _ _ _ _ _ O (bucket y)) as C.
  assert (Hk : board k ∈ L (bucket y)).
  { clear -Hin C Hy Hny. revert Hin C. generalize (L (bucket y)). intros l Hin C.
    apply list_elem_of_split in Hin as (l1 & l2 & ->). induction l1 as [|z l1 IH].
    - destruct C as [(y' & Hy' & Hn') _]. assert (y' = y) as -> by congruence. destruct l2 as [|z l2]; [simpl in Hn'; congruence|].
      simpl in Hn'. right. assert (board k = z) as -> by congruence. left.
    - destruct C as [_ C]. right. apply IH, C. }
  destruct (hk_list _ _ _ _ _ O _ _ Hk) as (z & Hz & _). congruence.
Qed.

Lemma kfree_drops h p M ptr sz : heap_live h p M -> M !! ptr = Some sz -> frees_first h ptr = false ->
  exists h' p', kfree ptr h p = Some (h', p') /\ dropped h ptr h'.
Proof.
  intros O HM Hf. pose proof O as (F & L & Ok). destruct (live_block _ _ _ _ _ ptr sz Ok HM) as (k & x & d & Hk & Hx & B & _).
  pose proof (bo_bucket _ _ _ _ _ _ _ B) as Hd. unfold frees_first in Hf. rewrite Hk, Hx, Hd in Hf.
  apply orb_false_iff in Hf as [Hf Hh]. apply orb_false_iff in Hf as [Hn Hz]. apply negb_false_iff in Hn.
  apply bool_decide_eq_false in Hh. apply Z.eqb_eq in Hn. apply Z.eqb_neq in Hz.
  destruct (buckets_sound _ _ Hd) as (_ & _ & _ & _ & Hb). rewrite (hk_heads _ _ _ _ _ Ok _ Hb) in Hh.
  pose proof (hk_listed _ _ _ _ _ Ok _ _ Hx Hz) as Hin. apply list_elem_of_split in Hin as (front & rest & HL).
  assert (Hbb := bucket_boards_list _ _ _ _ _ _ Ok Hb). rewrite HL in Hbb.
  assert (Hne : front <> []) by (intros ->; by rewrite HL in Hh).
  destruct (kfree_drops_boards h p M ptr sz k x d front rest) as (h' & p' & E & H1 & H2 & H3 & c & y & H4 & H5 & H6); try done.
  exists h', p'. split; [done|]. by exists k, x, front, c, y, rest.
Qed.

(** What a request gets whose size and red zone do not fit in 32 bits: a block
    of 34 bytes, its board pointer overwritten by the red zone. *)
Definition short_block (h : heap) (ptr sz : Z) : Prop :=
  let k := 2 ^ (8 * (sz - (2 ^ 32 - 4))) in
  exists a x y, boards h !! a = Some x /\ bucket x = 0%nat /\ ptr - KMALLOC_USER_OFFSET ∈ slots a (mkbucket 0 34 120) /\
    blocks h !! (ptr - KMALLOC_USER_OFFSET) = Some y /\ size y = sz /\
    board y = a mod k + u32 (KMALLOC_REDZONE_VALUE * k).

Lemma kmalloc_wraps h p M me sz : heap_live h p M -> 2 ^ 32 - 4 <= sz < 2 ^ 32 -> exists h' p' r, kmalloc me sz h p = Some (h', p', r) /\
  match r with
  | Some ptr => M !! ptr = None /\ short_block h' ptr sz /\ kfree ptr h' p' = None
  | None => heap_live h' p' M /\ pages_alloc 0 p = Some (None, p)
  end.
Proof.
  intros (F & L & O) Hsz. unfold kmalloc. replace (sz =? 0) with false by lia.
  assert (find_bucket buckets 0 sz = Some (0%nat, mkbucket 0 34 120)) as ->.
  { assert (u32 (sz + KMALLOC_REDZONE_SIZE) = sz - (2 ^ 32 - 4)) as E.
    { unfold u32, KMALLOC_REDZONE_SIZE. rewrite <- (Z.mod_small (sz - (2 ^ 32 - 4)) (2 ^ 32)) by lia.
      rewrite <- (Z_mod_plus_full (sz - (2 ^ 32 - 4)) 1). f_equal. lia. }
    unfold buckets, find_bucket. rewrite E. unfold block_size, KMALLOC_USER_OFFSET. by replace (34 - 16 >=? _) with true by lia. }
  destruct (get_board h p M F L 0 (mkbucket 0 34 120) O eq_refl) as (r & h1 & p1 & -> & Hr). cbn [mbind option_bind]. destruct r as [a|].
  - destruct Hr as (F1 & L1 & rest & O1 & HL).
    destruct (take_facts h1 p1 M F1 L1 O1 0 (mkbucket 0 34 120) a rest eq_refl HL)
      as (x & f & fs & k & Hx & Hxb & _ & _ & Hff & _ & Hk & Hbk & _ & _ & Hin & HM).
    unfold take_block. rewrite Hx. cbn [mbind option_bind]. rewrite Hff. cbn [mbind option_bind]. rewrite Hk. cbn [mbind option_bind].
    eexists _, _, _. split; [done|]. split; [done|].
    unfold write_redzone. replace (sz + KMALLOC_REDZONE_SIZE <? 2 ^ 32) with false by (unfold KMALLOC_REDZONE_SIZE; lia). split.
    + exists a, (mkboard (nfree x - 1) (bnext k) (bucket x) (next x)). eexists. rewrite Z.add_simpl_r. simpl.
      split; [by rewrite lookup_insert_eq|]. split; [done|]. split; [done|]. split; [apply lookup_insert_eq|]. split; [done|].
      cbn [board]. by rewrite Hbk.
    + unfold kfree. rewrite Z.add_simpl_r. cbn [set_block blocks]. rewrite lookup_insert_eq. cbn [mbind option_bind magic size redzone].
      rewrite Z.eqb_refl. destruct (_ =? _); [|done].
      by replace (sz + KMALLOC_REDZONE_SIZE <? 2 ^ 32) with false by (unfold KMALLOC_REDZONE_SIZE; lia).
  - exists h1, p1, None. destruct Hr as [O1 Hr]. split; [done|]. split; [by exists F, L|done].
Qed.

(** C9: on top of any source of pages that hands out disjoint runs, the
    allocator refines a map of allocations for as long as the code keeps one.  A
    request below [2^32 - 4] bytes returns fresh memory of the size asked, apart
    from all other allocations with their red zones and inside held pages, or
    NULL only when it is empty, larger than the largest bucket, or the pages
    have run out; a larger request, whose size wraps, gets a block of 34 bytes
    with a ruined header.  A free of any allocation fails no assertion and
    touches no foreign memory.  It removes exactly that allocation when the
    board of the block does not become completely free, was full, or is the
    first of its bucket; in the one other case the boards in front of it are
    dropped, and no set of allocations describes the heap any more. *)
Theorem kmalloc_refines h p M : heap_live h p M ->
  (forall me sz, 0 <= sz < 2 ^ 32 -> exists h' p' r, kmalloc me sz h p = Some (h', p', r) /\
    match r with
    | Some ptr => M !! ptr = None /\
        if sz <? 2 ^ 32 - 4 then heap_live h' p' (<[ptr := sz]> M) /\ allocations p' (<[ptr := sz]> M)
        else short_block h' ptr sz /\ kfree ptr h' p' = None
    | None => heap_live h' p' M /\ (sz = 0 \/ 262108 < sz < 2 ^ 32 - 4 \/ exists o, pages_alloc o p = Some (None, p))
    end) /\
  (forall ptr sz, M !! ptr = Some sz -> exists h' p', kfree ptr h p = Some (h', p') /\
    if frees_first h ptr then heap_live h' p' (delete ptr M)
    else dropped h ptr h' /\ forall M', ~ heap_live h' p' M').
Proof.
  intros O. split.
  - intros me sz Hsz. destruct (Z.ltb_spec sz (2 ^ 32 - 4)) as [Hs|Hs].
    + destruct (kmalloc_spec h p M me sz O) as (h' & p' & r & E & Hr); [lia|]. exists h', p', r.
      split; [done|]. destruct r as [ptr|].
      * destruct Hr as [? Hl]. split_and!; try done. by eapply heap_live_allocations.
      * destruct Hr as [Hl Hr]. split; [done|]. destruct Hr as [|[]]; [by left|right; left; lia|by right; right].
    + destruct (kmalloc_wraps h p M me sz O) as (h' & p' & r & E & Hr); [lia|]. exists h', p', r. split; [done|].
      destruct r as [ptr|]; [done|]. destruct Hr. split; [done|]. right. right. by exists 0%nat.
  - intros ptr sz HM. destruct (frees_first h ptr) eqn:Hf; [by apply (kfree_spec h p M ptr sz)|].
    destruct (kfree_drops h p M ptr sz O HM Hf) as (h' & p' & E & D). exists h', p'. split; [done|]. split; [done|].
    intros M'. by apply (dropped_not_live h ptr).
Qed.

(** a request of [2^32 - 4] bytes is served, with a block of 34 bytes, and
    its red zone overwrites the pointer of the block to its board. *)
Theorem kmalloc_size_wraps h p M me : heap_live h p M -> exists h' p' r, kmalloc me (2 ^ 32 - 4) h p = Some (h', p', r) /\
  match r with
  | Some ptr => exists k, blocks h' !! (ptr - KMALLOC_USER_OFFSET) = Some k /\ board k = KMALLOC_REDZONE_VALUE
  | None => pages_alloc 0 p = Some (None, p)
  end.
Proof.
  intros (F & L & O). unfold kmalloc. change (2 ^ 32 - 4 =? 0) with false. cbv iota.
  change (find_bucket buckets 0 (2 ^ 32 - 4)) with (Some (0%nat, mkbucket 0 34 120)). cbv iota beta.
  destruct (get_board h p M F L 0 (mkbucket 0 34 120) O eq_refl) as (r & h1 & p1 & -> & Hr). simpl. destruct r as [a|].
  - destruct Hr as (F1 & L1 & rest & O1 & HL).
    destruct (take_facts h1 p1 M F1 L1 O1 0 (mkbucket 0 34 120) a rest eq_refl HL) as (x & f & fs & k & Hx & _ & _ & _ & Hff & _ & Hk & _).
    unfold take_block. rewrite Hx. simpl. rewrite Hff. simpl. rewrite Hk. simpl. eexists _, _, _. split; [done|].
    simpl. rewrite Z.add_simpl_r, lookup_insert_eq. eexists. split; [done|]. simpl. by rewrite Z.mod_1_r.
  - exists h1, p1, None. by destruct Hr.
Qed.

(** ** Runs *)

Inductive request := Malloc (me sz : Z) | Free (ptr : Z).

(** [None] also when a request is not one [kmalloc_refines] speaks of. *)
Definition serve (o : request) (st : heap * P * gmap Z Z) : option (heap * P * gmap Z Z) :=
  let '(h, p, M) := st in
  match o with
  | Malloc me sz =>
    assert! (0 <=? sz) && (sz <? 2 ^ 32 - 4) ;;
    '(h, p, r) ← kmalloc me sz h p;
    Some (h, p, match r with Some ptr => <[ptr := sz]> M | None => M end)
  | Free ptr =>
    assert! bool_decide (is_Some (M !! ptr)) && frees_first h ptr ;;
    '(h, p) ← kfree ptr h p;
    Some (h, p, delete ptr M)
  end.
Fixpoint serve_all (l : list request) (st : heap * P * gmap Z Z) : option (heap * P * gmap Z Z) :=
  match l with [] => Some st | o :: l' => st ← serve o st; serve_all l' st end.

Lemma serve_live l : forall st st', heap_live st.1.1 st.1.2 st.2 -> serve_all l st = Some st' -> heap_live st'.1.1 st'.1.2 st'.2.
Proof.
  induction l as [|o l IH]; intros [[h p] M] st' O; [by intros [= <-]|]. cbn [serve_all].
  destruct (serve o (h, p, M)) as [st1|] eqn:E; [|done]. simpl. apply IH. simpl in O. destruct o as [me sz|ptr]; simpl in E.
  - destruct (_ && _) eqn:Hsz; [|done]. destruct (kmalloc_spec h p M me sz O ltac:(lia)) as (h' & p' & r & Ek & Hr).
    rewrite Ek in E. simpl in E. injection E as <-. simpl. destruct r; apply Hr.
  - destruct (bool_decide _ && frees_first h ptr) eqn:Hf; [|done]. apply andb_prop in Hf as [Hf1 Hf2].
    apply bool_decide_eq_true in Hf1 as [sz HM]. destruct (kfree_spec h p M ptr sz O HM Hf2) as (h' & p' & Ek & Hl).
    rewrite Ek in E. simpl in E. by injection E as <-.
Qed.

Lemma empty_live p : pages_ok p -> heap_live empty_heap p ∅.
Proof.
  intros Op. exists (fun _ => []), (fun _ => []). split; try done.
  - intros b Hb. simpl. by do 14 (destruct b as [|b]; [done|]); lia.
  - intros. apply NoDup_nil. done.
  - by intros b a ?%elem_of_nil.
Qed.
End heap.

(** ** Witnesses: a machine of 2048 pages, half of them free *)

#[local] Existing Instance buddy_source.
Definition M2048 : PageSource (PageAlloc.t * list (nat * Z)) := buddy_source 2048.
Lemma laws2048 : @PageSourceLaws _ M2048.
Proof. apply buddy_laws; [apply PageAlloc.example_cover|lia]. Qed.
#[local] Existing Instance M2048 | 0.
#[local] Existing Instance laws2048.

Definition source0 : PageAlloc.t * list (nat * Z) :=
  default PageAlloc.example_st (PageAlloc.client_step 2048 PageAlloc.example_st (PageAlloc.Free 1)).
Lemma source0_ok : @pages_ok _ M2048 source0.
Proof.
  unfold source0.
  destruct (PageAlloc.client_free_ok 2048 PageAlloc.empty_areas [(10%nat, 1024); (10%nat, 0)] 1
    PageAlloc.example_cover PageAlloc.example_sys_ok) as (st & E & O & _).
  unfold PageAlloc.example_st. by rewrite E.
Qed.

Lemma kmalloc_size_wraps_witness : exists h' p' r, @kmalloc _ M2048 1 (2 ^ 32 - 4) empty_heap source0 = Some (h', p', r) /\
  match r with
  | Some ptr => exists k, blocks h' !! (ptr - KMALLOC_USER_OFFSET) = Some k /\ board k = KMALLOC_REDZONE_VALUE
  | None => @pages_alloc _ M2048 0 source0 = Some (None, source0)
  end.
Proof. apply (kmalloc_size_wraps empty_heap source0 ∅). apply (empty_live _ source0_ok). Defined.

(** Two boards of two blocks; one block of each is free. *)
Definition requests : list request :=
  [Malloc 1 2000; Malloc 1 2000; Malloc 1 2000; Malloc 1 2000; Free 2147483680; Free 2147487776].
Definition served : heap * (PageAlloc.t * list (nat * Z)) * gmap Z Z :=
  default (empty_heap, source0, ∅) (@serve_all _ M2048 requests (empty_heap, source0, ∅)).

Lemma served_live : heap_live served.1.1 served.1.2 served.2.
Proof.
  unfold served. destruct (@serve_all _ M2048 requests (empty_heap, source0, ∅)) as [st|] eqn:E.
  - simpl. eapply serve_live; [|exact E]. apply (empty_live _ source0_ok).
  - apply (empty_live _ source0_ok).
Qed.

Definition served_block : block_header := default (link_block 0 None) (blocks served.1.1 !! 2147485704).
Definition served_board : board_header := default (mkboard 0 None 0 None) (boards served.1.1 !! board served_block).

(** A request on the empty heap, and the two kinds of free. *)
Lemma kmalloc_refines_witness :
  (exists h' p' r, @kmalloc _ M2048 1 2000 empty_heap source0 = Some (h', p', r) /\
    match r with
    | Some ptr => (∅ : gmap Z Z) !! ptr = None /\
        if 2000 <? 2 ^ 32 - 4 then heap_live h' p' (<[ptr := 2000]> ∅) /\ allocations p' (<[ptr := 2000]> ∅)
        else short_block h' ptr 2000 /\ @kfree _ M2048 ptr h' p' = None
    | None => heap_live h' p' ∅ /\ (2000 = 0 \/ 262108 < 2000 < 2 ^ 32 - 4 \/ exists o, @pages_alloc _ M2048 o source0 = Some (None, source0))
    end) /\
  frees_first served.1.1 2147485720 = false /\
  exists h' p', @kfree _ M2048 2147485720 served.1.1 served.1.2 = Some (h', p') /\
    if frees_first served.1.1 2147485720 then heap_live h' p' (delete 2147485720 served.2)
    else dropped served.1.1 2147485720 h' /\ forall M', ~ heap_live h' p' M'.
Proof.
  split; [|split].
  - apply (kmalloc_refines empty_heap source0 ∅ (empty_live _ source0_ok)). lia.
  - vm_compute. reflexivity.
  - apply (proj2 (kmalloc_refines served.1.1 served.1.2 served.2 served_live) 2147485720 2000). vm_compute. reflexivity.
Defined.

Lemma kfree_drops_boards_witness : bucket_boards served.1.1 6 = [2147487744; 2147483648] /\
  exists h' p', @kfree _ M2048 2147485720 served.1.1 served.1.2 = Some (h', p') /\
    heads h' !! bucket served_board = Some (head []) /\ boards h' !! board served_block = None /\
    (forall c, c ∈ [2147487744] -> exists y, boards h' !! c = Some y /\ nfree y <> 0 /\ bucket y = bucket served_board) /\
    exists c y, last [2147487744] = Some c /\ boards h' !! c = Some y /\ next y = Some (board served_block).
Proof.
  split; [vm_compute; reflexivity|].
  apply (kfree_drops_boards served.1.1 served.1.2 served.2 2147485720 2000 served_block served_board (mkbucket 0 2040 2)
    [2147487744] [] served_live); [vm_compute; reflexivity..| | | | ]; vm_compute; done.
Defined.

(** When the dropped board becomes free, the next request goes to memory that
    is no longer the heap's. *)
Lemma dropped_board_dangles :
  match @kfree _ M2048 2147485720 served.1.1 served.1.2 with
  | Some (h, p) => match @kfree _ M2048 2147489816 h p with
                   | Some (h, p) => heads h !! 6%nat = Some (Some 2147483648) /\ boards h = ∅ /\ kmalloc 1 2000 h p = None
                   | None => False
                   end
  | None => False
  end.
Proof. vm_compute. done. Qed.

End Kmalloc.
