(* ===== verification/Vma.v ===== *)
(** * Memory areas of an address space ([mm/mm.c], [include/mm/mm.h])

    The sorted list of [vm_area_struct]s of a process and the system calls that
    change it: [mmap], [munmap], [mprotect], [brk], with the reference counts of
    the mapped files.  The list operations keep the assertions of the code
    ([None] when one fails), and every [kmalloc] has an answer of its own.  The share ring, the page tables and the
    [vm_ops] hooks (which only write pages back) are not part of the state. *)
From S2P Require Import Prelude.
From Stdlib Require Import Sorted.

Module Vma.

(** ** Data *)

Definition VM_READ : Z := 1.
Definition VM_WRITE : Z := 2.
Definition VM_EXEC : Z := 4.
Definition VM_SHARED : Z := 8.
Definition VM_GROWSDOWN : Z := 256.
Definition VM_PROT : Z := 7.

Definition MAP_SHARED : Z := 1.
Definition MAP_PRIVATE : Z := 2.
Definition MAP_TYPE : Z := 15.
Definition MAP_FIXED : Z := 16.
Definition MAP_ANONYMOUS : Z := 32.
Definition PROT_WRITE : Z := 2.

Definition PG_PRESENT : Z := 1.
Definition PG_RW : Z := 2.
Definition PG_USER : Z := 4.

Definition NR_OPEN : Z := 256.

(** [struct vm_area_struct]; files and inodes are identified by numbers. *)
Record vma := mkvma {
  vm_start : Z;
  vm_end : Z;
  vm_flags : Z;
  vm_page_prot : Z;
  vm_offset : Z;
  vm_file : option nat;
  vm_inode : option nat;
}.

(** The reference a VMA owns: of its file, else of its inode. *)
Inductive ref := RFile (f : nat) | RInode (i : nat).

#[export] Instance ref_eq_dec : EqDecision ref.
Proof. solve_decision. Defined.

Definition vma_ref (v : vma) : option ref :=
  match vm_file v with
  | Some f => Some (RFile f)
  | None => match vm_inode v with Some i => Some (RInode i) | None => None end
  end.

(** The address space and the reference counts. *)
Record mm := mkmm {
  mmap : list vma;
  refs : ref -> Z;
}.

Definition set_mmap (m : mm) (l : list vma) : mm := mkmm l (refs m).

(** [if (vm_file) fref else if (vm_inode) iref], and the same for [put]. *)
Definition ref_add (m : mm) (v : vma) (d : Z) : mm :=
  match vma_ref v with
  | None => m
  | Some r => mkmm (mmap m) (<[r := refs m r + d]> (refs m))
  end.
Definition get_ref (m : mm) (v : vma) : mm := ref_add m v 1.
Definition put_ref (m : mm) (v : vma) : mm := ref_add m v (-1).

(** ** List operations *)

(** [merge_mmap]: absorbs neighbours that are anonymous, private and alike. *)
Definition mergeable (p1 p2 : vma) : bool :=
  (vm_end p1 =? vm_start p2) && (vm_flags p1 =? vm_flags p2) &&
  (Z.land (vm_flags p1) VM_SHARED =? 0) &&
  bool_decide (vm_file p1 = None) && bool_decide (vm_file p2 = None) &&
  bool_decide (vm_inode p1 = None) && bool_decide (vm_inode p2 = None).

Definition set_end (v : vma) (e : Z) : vma :=
  mkvma (vm_start v) e (vm_flags v) (vm_page_prot v) (vm_offset v) (vm_file v) (vm_inode v).

(** The loop with [p1] and the areas after it. *)
Fixpoint merge_from (p1 : vma) (l : list vma) : list vma :=
  match l with
  | [] => [p1]
  | p2 :: l' => if mergeable p1 p2 then merge_from (set_end p1 (vm_end p2)) l'
                else p1 :: merge_from p2 l'
  end.

Definition merge_mmap (l : list vma) : list vma :=
  match l with [] => [] | p1 :: l' => merge_from p1 l' end.

(** [find_vma]: the first area that ends above [addr], with the areas that
    follow it through [vm_next]. *)
Fixpoint find_vma_from (l : list vma) (addr : Z) : list vma :=
  match l with
  | [] => []
  | v :: l' => if vm_end v >? addr then l else find_vma_from l' addr
  end.

Definition find_vma (l : list vma) (addr : Z) : option vma := head (find_vma_from l addr).

Definition find_vma_intersection (l : list vma) (start_addr end_addr : Z) : option vma :=
  match find_vma l start_addr with
  | None => None
  | Some v => if end_addr <=? vm_start v then None else Some v
  end.

Definition get_vm_size (l : list vma) : Z :=
  foldl (fun n v => u32 (n + u32 (vm_end v - vm_start v))) 0 l.

Definition page_aligned (x : Z) : bool := PAGE_ALIGN x =? x.

(** [verify_vm]: its assertions as a check. *)
Fixpoint verify_vm (l : list vma) : bool :=
  match l with
  | [] => true
  | v :: l' => (vm_start v <? vm_end v) && page_aligned (vm_start v) && page_aligned (vm_end v) &&
               match l' with w :: _ => vm_end v <=? vm_start w | [] => true end && verify_vm l'
  end.

(** The search loop of [insert_vm_struct_locked]. *)
Fixpoint insert_loop (l : list vma) (v : vma) : option (list vma) :=
  match l with
  | [] => Some [v]
  | mpnt :: l' =>
    if vm_start mpnt >? vm_start v then
      assert! vm_start mpnt >=? vm_end v ;; Some (v :: l)
    else
      assert! vm_end mpnt <=? vm_start v ;;
      match insert_loop l' v with None => None | Some r => Some (mpnt :: r) end
  end.

Definition insert_vm_struct (m : mm) (v : vma) : option mm :=
  match insert_loop (mmap m) v with
  | None => None
  | Some l => assert! verify_vm l ;; Some (set_mmap m l)
  end.

(** ** Unmapping *)

(** The answers to the requests for memory, in order: whether it is found.  A
    schedule that has run out says yes. *)
Definition answer (ks : list bool) : bool := default true (head ks).

(** [unmap_fixup m vma addr len]: [vma] is off the list; what is left of it
    outside [addr, addr+len) goes back as new areas, each with a [kmalloc] of
    its own, whose result the code asserts. *)
Definition unmap_fixup (ks : list bool) (m : mm) (v : vma) (addr len : Z) : option (mm * list bool) :=
  let e := u32 (addr + len) in
  if (addr =? vm_start v) && (e =? vm_end v) then Some (put_ref m v, ks) else
  let split :=
    if e =? vm_end v then Some (m, set_end v addr, ks)
    else if addr =? vm_start v then
      Some (m, mkvma e (vm_end v) (vm_flags v) (vm_page_prot v)
                 (u32 (vm_offset v + u32 (e - vm_start v))) (vm_file v) (vm_inode v), ks)
    else
      assert! answer ks ;;
      let mpnt := mkvma e (vm_end v) (vm_flags v) (vm_page_prot v)
                    (u32 (vm_offset v + u32 (e - vm_start v))) (vm_file v) (vm_inode v) in
      match insert_vm_struct (get_ref m mpnt) mpnt with
      | None => None
      | Some m' => Some (m', set_end v addr, tail ks)
      end in
  match split with
  | None => None
  | Some (m1, v1, ks) =>
    assert! answer ks ;;
    match insert_vm_struct (get_ref m1 v1) v1 with
    | None => None
    | Some m2 => Some (put_ref m2 v1, tail ks)
    end
  end.

(** The loop of [do_munmap] that moves the areas overlapping [addr, stop) to
    the free list, which is built last in, first out. *)
Fixpoint unlink (addr stop : Z) (l free : list vma) : list vma * list vma :=
  match l with
  | [] => ([], free)
  | v :: l' =>
    if vm_start v >=? stop then (l, free)
    else if vm_end v <=? addr then let '(k, f) := unlink addr stop l' free in (v :: k, f)
    else unlink addr stop l' (v :: free)
  end.

Fixpoint unmap_freed (ks : list bool) (addr len : Z) (m : mm) (free : list vma) : option (mm * list bool) :=
  match free with
  | [] => Some (m, ks)
  | v :: free' =>
    let start := Z.max addr (vm_start v) in
    let stop := Z.min (u32 (addr + len)) (vm_end v) in
    match unmap_fixup ks m v start (u32 (stop - start)) with
    | None => None
    | Some (m', ks) => unmap_freed ks addr len m' free'
    end
  end.

(** The result comes with what is left of the schedule. *)
Definition do_munmap (ks : list bool) (m : mm) (addr len : Z) : option (mm * Z * list bool) :=
  if negb (page_offset addr =? 0) || (addr >? KERNEL_BASE) || (len >? u32 (KERNEL_BASE - addr))
  then Some (m, - EINVAL, ks) else
  let len := PAGE_ALIGN len in
  if len =? 0 then Some (m, 0, ks) else
  let '(kept, free) := unlink addr (u32 (addr + len)) (mmap m) [] in
  match unmap_freed ks addr len (set_mmap m kept) free with
  | None => None
  | Some (m', ks) => Some (m', 0, ks)
  end.

(** ** Mapping *)

Definition get_page_prot (flags : Z) : Z :=
  if negb (Z.land flags VM_WRITE =? 0) then Z.lor (Z.lor PG_PRESENT PG_USER) PG_RW
  else if negb (Z.land flags VM_READ =? 0) || negb (Z.land flags VM_EXEC =? 0)
       then Z.lor PG_PRESENT PG_USER
       else PG_PRESENT.

(** The loop of [get_unmapped_area_locked]; 0 when there is no room. *)
Fixpoint unmapped_loop (l : list vma) (addr len : Z) : Z :=
  if u32 (KERNEL_BASE - len) <? addr then 0 else
  match l with
  | [] => addr
  | v :: l' =>
    if addr >? vm_end v then unmapped_loop l' addr len
    else if u32 (addr + len) >? vm_start v then unmapped_loop l' (vm_end v) len
    else addr
  end.

Definition get_unmapped_area (l : list vma) (addr len : Z) : Z :=
  if len >? KERNEL_BASE then 0 else
  let addr := if addr =? 0 then KERNEL_BASE / 2 else addr in
  unmapped_loop l (PAGE_ALIGN addr) len.

(** What [do_mmap] sees of an open file: its identity, the identity of its
    inode, [f_mode], and the outcome of the [f_op->mmap] hook on a set of
    [vm_flags]: the error, or 0 when the hook has taken a reference of the file
    and stored file and inode in the area. *)
Record file := mkfile {
  f_id : nat;
  f_inode : nat;
  f_mode : Z;
  f_op_mmap : option (Z -> Z);
}.

(** [alloc_vma] *)
Definition alloc_vma (addr len prot flags off : Z) (has_file : bool) : vma :=
  let fl := Z.land prot VM_PROT in
  let fl := if negb (Z.land flags VM_GROWSDOWN =? 0) then Z.lor fl VM_GROWSDOWN else fl in
  let fl := if Z.land flags MAP_TYPE =? MAP_SHARED then Z.lor fl VM_SHARED else fl in
  mkvma addr (u32 (addr + len)) fl (get_page_prot fl) (if has_file then off else 0) None None.

Definition attach (v : vma) (f : file) : vma :=
  mkvma (vm_start v) (vm_end v) (vm_flags v) (vm_page_prot v) (vm_offset v)
        (Some (f_id f)) (Some (f_inode f)).

(** [file->f_op->mmap (inode, file, vma)]: the area and the error. *)
Definition call_mmap (f : file) (v : vma) : vma * Z :=
  match f_op_mmap f with
  | None => (v, - ENODEV)
  | Some hook => let error := hook (vm_flags v) in
                 if error =? 0 then (attach v f, 0) else (v, error)
  end.

(** The argument checks of [do_mmap] after the file lookup and the rounding of
    [len]: 0, or the error. *)
Definition mmap_check (addr len prot flags off : Z) (fl : option file) : Z :=
  if len =? 0 then - EINVAL else
  if (addr >? KERNEL_BASE) || (len >? KERNEL_BASE) || (addr >? KERNEL_BASE - len) then - EINVAL else
  if negb (Z.land flags MAP_FIXED =? 0) && negb (page_offset addr =? 0) then - EINVAL else
  let file_error :=
    match fl with
    | None => 0
    | Some f =>
      match f_op_mmap f with
      | None => - ENODEV
      | Some _ => if negb (page_offset off =? 0) then - EINVAL
                  else if u32 (off + len) <? off then - EINVAL else 0
      end
    end in
  if negb (file_error =? 0) then file_error else
  let ty := Z.land flags MAP_TYPE in
  if ty =? MAP_SHARED then
    match fl with
    | Some f => if negb (Z.land prot PROT_WRITE =? 0) && (Z.land (f_mode f) 2 =? 0) then - EACCES
                else if Z.land (f_mode f) 1 =? 0 then - EACCES else 0
    | None => 0
    end
  else if ty =? MAP_PRIVATE then
    match fl with Some f => if Z.land (f_mode f) 1 =? 0 then - EACCES else 0 | None => 0 end
  else - EINVAL.

(** Insertion of the new area, file hook first, and merging. *)
Definition map_area (m : mm) (v : vma) (fl : option file) : option (mm * Z) :=
  let '(v', error) := match fl with None => (v, 0) | Some f => call_mmap f v end in
  if negb (error =? 0) then Some (m, error) else
  let m' := match fl with None => m | Some _ => get_ref m v' end in
  match insert_vm_struct m' v' with
  | None => None
  | Some m'' => Some (set_mmap m'' (merge_mmap (mmap m'')), vm_start v)
  end.

(** [do_mmap]; [fd_file] is [current->files->fd[fd]].  The result is the
    address or the negated error. *)
Definition do_mmap (ks : list bool) (fd_file : Z -> option file)
  (m : mm) (addr len prot flags fd off : Z) : option (mm * Z) :=
  let anon := negb (Z.land flags MAP_ANONYMOUS =? 0) in
  if anon && negb (fd =? 2 ^ 32 - 1) then Some (m, - EINVAL) else
  let fl := if anon then None else if fd >=? NR_OPEN then None else fd_file fd in
  if negb anon && bool_decide (fl = None) then Some (m, - EBADF) else
  let len := PAGE_ALIGN len in
  let error := mmap_check addr len prot flags off fl in
  if negb (error =? 0) then Some (m, error) else
  if Z.land flags MAP_FIXED =? 0 then
    let addr := get_unmapped_area (mmap m) addr len in
    if addr =? 0 then Some (m, - ENOMEM) else
    if negb (answer ks) then Some (m, - ENOMEM) else
    map_area m (alloc_vma addr len prot flags off (bool_decide (is_Some fl))) fl
  else
    if negb (answer ks) then Some (m, - ENOMEM) else
    match do_munmap (tail ks) m addr len with
    | None => None
    | Some (m', _, _) => map_area m' (alloc_vma addr len prot flags off (bool_decide (is_Some fl))) fl
    end.

(** ** Protection, synchronisation, heap *)

(** [sys_mprotect]: every area that overlaps the range gets the protection as
    a whole. *)
Definition protect (vma_prot : Z) (v : vma) : vma :=
  let fl := Z.lor (Z.ldiff (vm_flags v) VM_PROT) vma_prot in
  mkvma (vm_start v) (vm_end v) fl (get_page_prot fl) (vm_offset v) (vm_file v) (vm_inode v).

Fixpoint mprotect_loop (start stop vma_prot : Z) (l : list vma) : list vma :=
  match l with
  | [] => []
  | v :: l' =>
    if vm_start v >=? stop then l
    else (if vm_end v <=? start then v else protect vma_prot v) :: mprotect_loop start stop vma_prot l'
  end.

Definition sys_mprotect (m : mm) (addr len prot : Z) : mm * Z :=
  let vma_prot := Z.land prot VM_PROT in
  if (addr >? KERNEL_BASE) || (len >? u32 (KERNEL_BASE - addr)) then (m, - EINVAL) else
  let start := Z.land addr PAGE_MASK in
  let len := PAGE_ALIGN len in
  if len =? 0 then (m, 0) else
  (set_mmap m (mprotect_loop start (u32 (start + len)) vma_prot (mmap m)), 0).

(** [sys_msync]: the result and the calls of [vm_ops->sync] as area, start and
    length.  [can_sync] says which areas have the hook. *)
Definition MS_ASYNC : Z := 1.
Definition MS_INVALIDATE : Z := 2.
Definition MS_SYNC : Z := 4.

Fixpoint msync_loop (can_sync : vma -> bool) (stop cursor : Z) (l : list vma)
  : list (vma * Z * Z) * Z :=
  match l with
  | v :: l' =>
    if vm_start v <? stop then
      if vm_start v >? cursor then ([], - ENOMEM) else
      let start := Z.max cursor (vm_start v) in
      let e := Z.min stop (vm_end v) in
      let calls := if can_sync v && negb (Z.land (vm_flags v) VM_SHARED =? 0)
                      && negb (Z.land (vm_flags v) VM_WRITE =? 0)
                   then [(v, start, u32 (e - start))] else [] in
      let '(more, r) := msync_loop can_sync stop (Z.max cursor (vm_end v)) l' in
      (calls ++ more, r)
    else ([], if cursor <? stop then - ENOMEM else 0)
  | [] => ([], if cursor <? stop then - ENOMEM else 0)
  end.

Definition sys_msync (can_sync : vma -> bool) (l : list vma) (addr len flags : Z)
  : list (vma * Z * Z) * Z :=
  if negb (page_offset addr =? 0) then ([], - EINVAL) else
  if (addr >? KERNEL_BASE) || (len >? u32 (KERNEL_BASE - addr)) then ([], - EINVAL) else
  if negb (Z.ldiff flags (Z.lor (Z.lor MS_ASYNC MS_INVALIDATE) MS_SYNC) =? 0)
     || (negb (Z.land flags MS_SYNC =? 0) && negb (Z.land flags MS_ASYNC =? 0))
  then ([], - EINVAL) else
  if len =? 0 then ([], 0) else
  let stop := u32 (addr + PAGE_ALIGN len) in
  msync_loop can_sync stop addr (find_vma_from l addr).

(** The fields of [mm_struct] and of the task that [sys_brk] reads. *)
Record heap := mkheap {
  h_mm : mm;
  start_brk : Z;
  brk : Z;
  end_code : Z;
  rlim_data : Z;
}.

Definition set_brk (h : heap) (m : mm) (b : Z) : heap :=
  mkheap m (start_brk h) b (end_code h) (rlim_data h).

Definition sys_brk (ks : list bool) (h : heap) (b : Z) : option (heap * Z) :=
  if b =? 0 then Some (h, brk h) else
  assert! b >=? start_brk h ;;
  let newbrk := PAGE_ALIGN b in
  let oldbrk := PAGE_ALIGN (brk h) in
  if oldbrk =? newbrk then Some (set_brk h (h_mm h) b, b) else
  if b <? brk h then
    match do_munmap ks (h_mm h) newbrk (u32 (oldbrk - newbrk)) with
    | None => None
    | Some (m', err, _) => if negb (err =? 0) then Some (set_brk h m' (brk h), err)
                        else Some (set_brk h m' b, b)
    end
  else if u32 (b - end_code h) >? rlim_data h then Some (h, - ENOMEM) else
  match find_vma_intersection (mmap (h_mm h)) oldbrk (u32 (newbrk + PAGE_SIZE)) with
  | Some _ => Some (h, - ENOMEM)
  | None =>
    match do_mmap ks (fun _ => None) (h_mm h) oldbrk (u32 (newbrk - oldbrk))
            VM_PROT (Z.lor (Z.lor MAP_FIXED MAP_PRIVATE) MAP_ANONYMOUS) (2 ^ 32 - 1) 0 with
    | None => None
    | Some (m', addr) => if s32 addr <? 0 then Some (set_brk h m' (brk h), s32 addr)
                         else Some (set_brk h m' b, b)
    end
  end.

(** ** fork and exit *)

(** [exit_mmap]: the list is emptied and every reference given back. *)
Definition exit_mmap (m : mm) : mm := foldl put_ref (set_mmap m []) (mmap m).

(** [dup_mmap] copies the list [l] of the parent to a child; [kmallocs] are
    the outcomes of the allocations. The references are global. *)
Fixpoint dup_loop (kmallocs : nat -> bool) (l : list vma) (child : mm) : mm * Z :=
  match l with
  | [] => (child, 0)
  | v :: l' =>
    if kmallocs (length (mmap child)) then
      dup_loop kmallocs l' (set_mmap (get_ref child v) (mmap child ++ [v]))
    else (exit_mmap child, - ENOMEM)
  end.

Definition dup_mmap (kmallocs : nat -> bool) (parent : mm) : mm * Z :=
  dup_loop kmallocs (mmap parent) (mkmm [] (refs parent)).

(** ** Invariant and views *)

Record vma_ok (v : vma) : Prop := {
  vo_lo : 0 <= vm_start v;
  vo_ne : vm_start v < vm_end v;
  vo_hi : vm_end v <= KERNEL_BASE;
  vo_as : aligned (vm_start v);
  vo_ae : aligned (vm_end v);
}.

Definition before (a b : vma) : Prop := vm_end a <= vm_start b.
Definition disjoint_vma (a b : vma) : Prop := before a b \/ before b a.

(** The list invariant: page-aligned, non-empty areas of user space, sorted
    and disjoint. *)
Definition wf (l : list vma) : Prop := Forall vma_ok l /\ StronglySorted before l.

Definition covers (v : vma) (x : Z) : Prop := vm_start v <= x < vm_end v.

(** What an address is mapped to: flags, file, inode and offset in it. *)
Record attr := mkattr {
  a_flags : Z;
  a_file : option nat;
  a_inode : option nat;
  a_offset : option Z;
}.

Definition attr_at (v : vma) (x : Z) : attr :=
  mkattr (vm_flags v) (vm_file v) (vm_inode v)
    (match vma_ref v with Some _ => Some (u32 (vm_offset v + (x - vm_start v))) | None => None end).

(** The abstract address space: [x] is mapped with attributes [a]. *)
Definition maps (l : list vma) (x : Z) (a : attr) : Prop :=
  exists v, v ∈ l /\ covers v x /\ attr_at v x = a.

Definition mapped (l : list vma) (x : Z) : Prop := exists v, v ∈ l /\ covers v x.

(** The number of areas that own a reference [r]. *)
Definition owns (r : ref) (v : vma) : Z := if decide (vma_ref v = Some r) then 1 else 0.
Fixpoint nrefs (l : list vma) (r : ref) : Z :=
  match l with [] => 0 | v :: l' => owns r v + nrefs l' r end.

(** References of [r] that are not owned by an area of the list. *)
Definition others (m : mm) (r : ref) : Z := refs m r - nrefs (mmap m) r.

Lemma nrefs_perm l l' r : l ≡ₚ l' -> nrefs l r = nrefs l' r.
Proof. induction 1; simpl; lia. Qed.

Lemma nrefs_app l l' r : nrefs (l ++ l') r = nrefs l r + nrefs l' r.
Proof. induction l; simpl; lia. Qed.

Lemma refs_ref_add m v d r : refs (ref_add m v d) r = refs m r + d * owns r v.
Proof.
  unfold ref_add, owns. destruct (vma_ref v) as [q|].
  - simpl. destruct (decide (Some q = Some r)) as [[= ->]|Hne].
    + rewrite fn_lookup_insert. lia.
    + rewrite fn_lookup_insert_ne by congruence. lia.
  - rewrite decide_False by done. lia.
Qed.

Lemma mmap_ref_add m v d : mmap (ref_add m v d) = mmap m.
Proof. unfold ref_add. by destruct (vma_ref v). Qed.

Lemma maps_perm l l' x a : l ≡ₚ l' -> maps l x a <-> maps l' x a.
Proof. intros H. unfold maps. by setoid_rewrite H. Qed.

Lemma maps_cons v l x a : maps (v :: l) x a <-> (covers v x /\ attr_at v x = a) \/ maps l x a.
Proof. unfold maps. setoid_rewrite elem_of_cons. naive_solver. Qed.

Lemma maps_mapped l x : mapped l x <-> exists a, maps l x a.
Proof. unfold mapped, maps. naive_solver. Qed.

Lemma wf_elem l v : wf l -> v ∈ l -> vma_ok v.
Proof. intros [H _] Hv. rewrite Forall_forall in H. by apply H. Qed.

Lemma wf_cons_inv v l : wf (v :: l) -> vma_ok v /\ wf l /\ (forall w, w ∈ l -> before v w).
Proof.
  intros [Hf Hs]. apply Forall_cons in Hf as [Hv Hf]. inversion_clear Hs as [|? ? Hs' Hb].
  split; [done|]. split; [done|]. intros w Hw. rewrite Forall_forall in Hb.
  by apply Hb.
Qed.

Lemma wf_cons v l : vma_ok v -> wf l -> (forall w, w ∈ l -> before v w) -> wf (v :: l).
Proof.
  intros Hv [Hf Hs] Hb. split; [by constructor|]. constructor; [done|].
  apply Forall_forall. intros w Hw. by apply Hb.
Qed.

Lemma maps_app l l' x a : maps (l ++ l') x a <-> maps l x a \/ maps l' x a.
Proof. unfold maps. setoid_rewrite elem_of_app. naive_solver. Qed.

Lemma wf_disjoint l v w : wf l -> v ∈ l -> w ∈ l -> v <> w -> disjoint_vma v w.
Proof.
  induction l as [|u l IH]; [by intros _ ?%not_elem_of_nil|].
  intros (Hu & Hl & Hb)%wf_cons_inv [->|Hv]%elem_of_cons [->|Hw]%elem_of_cons Hne; [done| | |].
  - left. by apply Hb.
  - right. by apply Hb.
  - by apply IH.
Qed.

Lemma wf_nil : wf [].
Proof. split; constructor. Qed.

Lemma page_aligned_true x : 0 <= x <= KERNEL_BASE -> aligned x -> page_aligned x = true.
Proof.
  intros Hx Ha. unfold page_aligned. apply Z.eqb_eq. unfold KERNEL_BASE, aligned in *.
  destruct (PAGE_ALIGN_spec x ltac:(lia)) as [H1 H2]. unfold aligned in H2.
  apply Z.mod_divide in Ha as [k Ha]; [|lia]. apply Z.mod_divide in H2 as [j H2]; [|lia]. lia.
Qed.

Lemma wf_verify l : wf l -> verify_vm l = true.
Proof.
  induction l as [|v l IH]; intros H; [done|].
  apply wf_cons_inv in H as (Hv & Hl & Hb). simpl. rewrite IH by done. destruct Hv.
  rewrite !page_aligned_true, (proj2 (Z.ltb_lt _ _)) by (done || lia). simpl. rewrite andb_true_r.
  destruct l as [|w l]; [done|]. apply Z.leb_le. apply Hb. left.
Qed.

(** ** Insertion *)

Lemma insert_loop_ok l v : wf l -> vma_ok v -> (forall w, w ∈ l -> disjoint_vma v w) ->
  exists l', insert_loop l v = Some l' /\ wf l' /\ l' ≡ₚ v :: l.
Proof.
  intros Hl Hv Hd. induction l as [|m l IH].
  { exists [v]. split; [done|]. split; [|done]. apply wf_cons; [done|apply wf_nil|]. intros w []%not_elem_of_nil. }
  pose proof Hl as Hml. apply wf_cons_inv in Hl as (Hm & Hl & Hb). simpl.
  assert (Hdm : disjoint_vma v m) by (apply Hd; left).
  unfold disjoint_vma, before in Hdm. destruct (Z.gtb_spec (vm_start m) (vm_start v)) as [Hgt|Hle].
  - destruct (Z.geb_spec (vm_start m) (vm_end v)) as [Hge|Hlt]; [|destruct Hm, Hv; lia].
    eexists. split; [done|]. split; [|done]. apply wf_cons; [done|done|].
    intros w [->|Hw]%elem_of_cons; unfold before; [lia|]. specialize (Hb _ Hw).
    unfold before in Hb. destruct Hm. lia.
  - destruct (Z.leb_spec (vm_end m) (vm_start v)) as [Hle2|Hlt]; [|destruct Hm, Hv; lia].
    destruct IH as (l' & -> & Hl' & Hp); [done|intros w Hw; apply Hd; by right|].
    exists (m :: l'). split; [done|]. split.
    + apply wf_cons; [done|done|]. intros w. rewrite Hp. intros [->|Hw]%elem_of_cons; [done|by apply Hb].
    + rewrite Hp. constructor.
Qed.

Lemma insert_vm_struct_ok m v : wf (mmap m) -> vma_ok v ->
  (forall w, w ∈ mmap m -> disjoint_vma v w) ->
  exists m', insert_vm_struct m v = Some m' /\ wf (mmap m') /\ mmap m' ≡ₚ v :: mmap m /\
             refs m' = refs m.
Proof.
  intros Hl Hv Hd. destruct (insert_loop_ok _ _ Hl Hv Hd) as (l' & E & Hl' & Hp).
  unfold insert_vm_struct. rewrite E, wf_verify by done. by eexists.
Qed.

(** ** Merging *)

Lemma mergeable_spec p1 p2 : mergeable p1 p2 = true ->
  vm_end p1 = vm_start p2 /\ vm_flags p1 = vm_flags p2 /\
  vm_file p1 = None /\ vm_file p2 = None /\ vm_inode p1 = None /\ vm_inode p2 = None.
Proof.
  unfold mergeable. rewrite !andb_true_iff, !bool_decide_eq_true, !Z.eqb_eq. tauto.
Qed.

Lemma merge_from_ok p1 l : wf (p1 :: l) ->
  wf (merge_from p1 l) /\ (forall x a, maps (merge_from p1 l) x a <-> maps (p1 :: l) x a) /\
  (forall r, nrefs (merge_from p1 l) r = nrefs (p1 :: l) r) /\
  (forall w, w ∈ merge_from p1 l -> vm_start p1 <= vm_start w).
Proof.
  revert p1. induction l as [|p2 l IH]; intros p1 H; simpl.
  { repeat split; try apply H; try done. intros w ->%list_elem_of_singleton. lia. }
  pose proof H as H0. apply wf_cons_inv in H as (H1 & H2 & Hb).
  apply wf_cons_inv in H2 as (H2 & Hl & Hb2).
  destruct (mergeable p1 p2) eqn:E.
  - apply mergeable_spec in E as (Ee & Ef & F1 & F2 & I1 & I2).
    set (p := set_end p1 (vm_end p2)).
    assert (Hp : wf (p :: l)).
    { apply wf_cons; [|done|].
      - destruct H1, H2. split; simpl; try done; lia.
      - intros w Hw. apply (Hb2 _ Hw). }
    destruct (IH p Hp) as (W & M & N & S). split; [done|]. split; [|split; [|done]].
    + intros x a. rewrite M, !maps_cons.
      assert (Hcov : covers p x <-> covers p1 x \/ covers p2 x)
        by (unfold covers, p; simpl; destruct H1, H2; lia).
      assert (Ha1 : attr_at p x = attr_at p1 x) by done.
      assert (Ha2 : attr_at p2 x = attr_at p1 x)
        by (unfold attr_at, vma_ref; rewrite F1, F2, I1, I2, Ef; done).
      rewrite Hcov, Ha1, Ha2. tauto.
    + intros r. rewrite N. simpl. unfold owns, vma_ref. simpl. rewrite F1, F2, I1, I2.
      by rewrite !decide_False by done.
  - destruct (IH p2 (wf_cons _ _ H2 Hl Hb2)) as (W & M & N & S). split; [|split; [|split]].
    + apply wf_cons; [done|done|]. intros w Hw. specialize (S _ Hw).
      assert (before p1 p2) by (apply Hb; left). unfold before in *. lia.
    + intros x a. by rewrite maps_cons, M, !maps_cons.
    + intros r. simpl. rewrite N. done.
    + intros w [->|Hw]%elem_of_cons; [lia|]. specialize (S _ Hw).
      assert (before p1 p2) by (apply Hb; left). unfold before in *. destruct H1. lia.
Qed.

Lemma merge_mmap_ok l : wf l ->
  wf (merge_mmap l) /\ (forall x a, maps (merge_mmap l) x a <-> maps l x a) /\
  (forall r, nrefs (merge_mmap l) r = nrefs l r).
Proof.
  intros H. destruct l as [|p l]; [done|]. destruct (merge_from_ok p l H) as (? & ? & ? & _). done.
Qed.

(** ** Unmapping *)

Definition overlaps (addr stop : Z) (v : vma) : Prop := vm_start v < stop /\ addr < vm_end v.

Lemma unlink_ok addr stop l free : wf l ->
  let '(k, f) := unlink addr stop l free in
  wf k /\ k ++ f ≡ₚ l ++ free /\
  (forall w, w ∈ k <-> w ∈ l /\ ~ overlaps addr stop w) /\
  (forall w, w ∈ f <-> w ∈ free \/ (w ∈ l /\ overlaps addr stop w)) /\
  (ForallOrdPairs disjoint_vma free -> (forall v w, v ∈ l -> w ∈ free -> disjoint_vma v w) ->
   ForallOrdPairs disjoint_vma f).
Proof.
  revert free. induction l as [|v l IH]; intros free H; simpl.
  { split; [done|]. split; [done|]. split; [|split; [|done]]; intros w; rewrite elem_of_nil; tauto. }
  pose proof H as H0. apply wf_cons_inv in H as (Hv & Hl & Hb).
  destruct (Z.geb_spec (vm_start v) stop) as [Hge|Hlt].
  - split; [done|]. split; [done|].
    assert (Hno : forall w, w ∈ v :: l -> ~ overlaps addr stop w).
    { intros w [->|Hw]%elem_of_cons [? _]; [lia|]. specialize (Hb _ Hw). unfold before in Hb.
      destruct Hv. lia. }
    split; [|split; [|done]]; intros w; naive_solver.
  - destruct (Z.leb_spec (vm_end v) addr) as [Hle|Hgt].
    + specialize (IH free Hl). destruct (unlink addr stop l free) as [k f].
      destruct IH as (Wk & P & K & F & D). split; [|split; [|split; [|split]]].
      * apply wf_cons; [done|done|]. intros w Hw%K. apply Hb, Hw.
      * simpl. by rewrite P.
      * intros w. rewrite !elem_of_cons, K. unfold overlaps. split; [|naive_solver].
        intros [->|[? ?]]; [split; [by left|lia]|split; [by right|done]].
      * intros w. rewrite F, elem_of_cons. unfold overlaps. split; [naive_solver|].
        intros [?|[[->|?] ?]]; [by left|lia|naive_solver].
      * intros Hf Hd. apply D; [done|]. intros; apply Hd; [by right|done].
    + specialize (IH (v :: free) Hl). destruct (unlink addr stop l (v :: free)) as [k f].
      destruct IH as (Wk & P & K & F & D). split; [done|]. split; [|split; [|split]].
      * rewrite P. by rewrite Permutation_middle.
      * intros w. rewrite K, elem_of_cons. unfold overlaps. split; [naive_solver|].
        intros [[->|?] ?]; [lia|done].
      * intros w. rewrite F, !elem_of_cons. unfold overlaps. split; [|naive_solver].
        intros [[->|?]|[? ?]]; [right; split; [by left|lia]|by left|naive_solver].
      * intros Hf Hd. apply D.
        -- constructor; [|done]. apply Forall_forall. intros w Hw.
           apply Hd; [left|done].
        -- intros w u Hw [->|Hu]%elem_of_cons; [right; by apply Hb|apply Hd; [by right|done]].
Qed.

(** [v] without the addresses [[s, e)]. *)
Definition clipped (v : vma) (s e x : Z) (a : attr) : Prop :=
  covers v x /\ ~ (s <= x < e) /\ attr_at v x = a.

(** The part of [v] above [e]. *)
Definition upper_part (v : vma) (e : Z) : vma :=
  mkvma e (vm_end v) (vm_flags v) (vm_page_prot v)
    (u32 (vm_offset v + u32 (e - vm_start v))) (vm_file v) (vm_inode v).

Lemma vma_ref_set_end v e : vma_ref (set_end v e) = vma_ref v.
Proof. done. Qed.

Lemma attr_upper v e x : attr_at (upper_part v e) x = attr_at v x.
Proof.
  unfold attr_at, upper_part, vma_ref. simpl. f_equal.
  destruct (match vm_file v with Some f => _ | None => _ end); [|done]. f_equal.
  unfold u32. rewrite Zplus_mod_idemp_r, Zplus_mod_idemp_l. f_equal. lia.
Qed.

Lemma maps_clip_end v addr x a : addr <= vm_end v ->
  covers (set_end v addr) x /\ attr_at (set_end v addr) x = a <-> clipped v addr (vm_end v) x a.
Proof. intros. unfold clipped, covers, attr_at, set_end. simpl. intuition lia. Qed.

Lemma maps_clip_start v e x a : vm_start v <= e ->
  covers (upper_part v e) x /\ attr_at (upper_part v e) x = a <-> clipped v (vm_start v) e x a.
Proof. intros. rewrite attr_upper. unfold clipped, covers. simpl. intuition lia. Qed.

Lemma vma_ok_set_end v e : vma_ok v -> vm_start v < e <= vm_end v -> aligned e -> vma_ok (set_end v e).
Proof. intros [] ? ?. split; simpl; try done; lia. Qed.

Lemma vma_ok_upper v e : vma_ok v -> vm_start v <= e < vm_end v -> aligned e -> vma_ok (upper_part v e).
Proof. intros [] ? ?. split; simpl; try done; lia. Qed.

(** Inserting a piece [p] of [v], with its reference. *)
Lemma insert_piece m v p : wf (mmap m) -> vma_ok p ->
  vm_start v <= vm_start p -> vm_end p <= vm_end v ->
  (forall w, w ∈ mmap m -> disjoint_vma p w) ->
  exists m', insert_vm_struct (get_ref m p) p = Some m' /\ wf (mmap m') /\
    mmap m' ≡ₚ p :: mmap m /\ (forall r, others m' r = others m r).
Proof.
  intros Hl Hp Hs He Hd. unfold get_ref.
  destruct (insert_vm_struct_ok (ref_add m p 1) p) as (m' & E & Hl' & HP & Hr);
    rewrite ?mmap_ref_add in *; [done..|].
  exists m'. split; [done|]. split; [done|]. split; [done|]. intros r.
  unfold others. rewrite (nrefs_perm _ _ r HP), Hr, refs_ref_add. simpl. lia.
Qed.

Lemma others_put_ref m v r : others (put_ref m v) r = others m r - owns r v.
Proof. unfold others, put_ref. rewrite mmap_ref_add, refs_ref_add. lia. Qed.

Lemma disjoint_sub v p w : disjoint_vma v w -> vm_start v <= vm_start p -> vm_end p <= vm_end v ->
  disjoint_vma p w.
Proof. unfold disjoint_vma, before. lia. Qed.

(** The last steps of [unmap_fixup]: re-inserting the remaining piece [v1]. *)
Lemma fixup_tail m v v1 : wf (mmap m) -> vma_ok v1 -> vma_ref v1 = vma_ref v ->
  vm_start v <= vm_start v1 -> vm_end v1 <= vm_end v ->
  (forall w, w ∈ mmap m -> disjoint_vma v1 w) ->
  exists m2, insert_vm_struct (get_ref m v1) v1 = Some m2 /\
    wf (mmap (put_ref m2 v1)) /\ mmap (put_ref m2 v1) ≡ₚ v1 :: mmap m /\
    (forall r, others (put_ref m2 v1) r = others m r - owns r v).
Proof.
  intros Hl Hv1 Href Hs He Hd.
  destruct (insert_piece m v v1 Hl Hv1 Hs He Hd) as (m2 & -> & Hl2 & HP & Ho).
  exists m2. split; [done|]. unfold put_ref at 1 2. rewrite !mmap_ref_add.
  split; [done|]. split; [done|]. intros r. rewrite others_put_ref, Ho. unfold owns.
  by rewrite Href.
Qed.

(** ** Memory for the pieces *)

(** The next [n] requests find memory. *)
Definition granted (n : nat) (ks : list bool) : bool := forallb id (take n ks).

Lemma granted_nil n : granted n [] = true.
Proof. by destruct n. Qed.

Lemma granted_S n ks : granted (S n) ks = answer ks && granted n (tail ks).
Proof. unfold granted, answer. destruct ks; [by destruct n|done]. Qed.

Lemma granted_add a b ks : granted (a + b) ks = granted a ks && granted b (drop a ks).
Proof.
  revert ks. induction a as [|a IH]; intros ks; [done|]. change (S a + b)%nat with (S (a + b)). rewrite !granted_S, IH.
  rewrite <- andb_assoc. f_equal. f_equal. destruct ks; simpl; [by rewrite drop_nil|done].
Qed.

Lemma drop_S_tail {A} n (l : list A) : drop (S n) l = drop n (tail l).
Proof. destruct l; simpl; [by rewrite drop_nil|done]. Qed.

(** The areas that are made when [s, e) is cut out of [v], and out of a list. *)
Definition pieces (s e : Z) (v : vma) : nat :=
  ((if (vm_start v <? s)%Z then 1 else 0) + (if (e <? vm_end v)%Z then 1 else 0))%nat.
Definition pieces_of (s e : Z) (l : list vma) : nat := sum_list_with (pieces s e) l.

Lemma pieces_of_perm s e l l' : l ≡ₚ l' -> pieces_of s e l = pieces_of s e l'.
Proof. unfold pieces_of. intros H. induction H; simpl in *; lia. Qed.

#[export] Instance overlaps_dec s e v : Decision (overlaps s e v).
Proof. unfold overlaps. apply _. Defined.

(** The requests of [do_munmap]. *)
Definition munmap_needs (m : mm) (addr len : Z) : nat :=
  if PAGE_ALIGN len =? 0 then 0%nat
  else pieces_of addr (addr + PAGE_ALIGN len) (filter (overlaps addr (addr + PAGE_ALIGN len)) (mmap m)).

Lemma unmap_fixup_ok ks m v s e : wf (mmap m) -> vma_ok v ->
  (forall w, w ∈ mmap m -> disjoint_vma v w) ->
  vm_start v <= s -> s < e -> e <= vm_end v -> aligned s -> aligned e ->
  if granted (pieces s e v) ks then
    exists m' rest, unmap_fixup ks m v s (u32 (e - s)) = Some (m', drop (pieces s e v) ks) /\ wf (mmap m') /\
    mmap m' ≡ₚ rest ++ mmap m /\
    (forall p, p ∈ rest -> vm_start v <= vm_start p /\ vm_end p <= vm_end v) /\
    (forall x a, maps rest x a <-> clipped v s e x a) /\
    (forall r, others m' r = others m r - owns r v)
  else unmap_fixup ks m v s (u32 (e - s)) = None.
Proof.
  intros Hl Hv Hd Hs Hse He As Ae. pose proof Hv as []. unfold KERNEL_BASE in *.
  unfold unmap_fixup. rewrite (u32_small (e - s)), (u32_small (s + (e - s))) by lia.
  replace (s + (e - s)) with e by lia. fold (upper_part v e). unfold pieces.
  destruct (Z.eqb_spec e (vm_end v)) as [->|Hne], (Z.eqb_spec s (vm_start v)) as [->|Hns];
    rewrite ?Z.ltb_irrefl; rewrite ?(proj2 (Z.ltb_lt (vm_start v) s)) by lia;
    rewrite ?(proj2 (Z.ltb_lt e (vm_end v))) by lia; cbn [andb Nat.add]; rewrite ?granted_S.
  - exists (put_ref m v), []. split; [done|]. unfold put_ref at 1 2. rewrite !mmap_ref_add.
    split; [done|]. split; [done|]. split; [by intros p ?%not_elem_of_nil|].
    split; [|intros r; apply others_put_ref].
    intros x a. unfold maps, clipped, covers. split; [|lia]. intros (? & ?%not_elem_of_nil & _). done.
  - destruct (answer ks); [|done]. cbn [andb granted take forallb].
    destruct (fixup_tail m v (set_end v s)) as (m2 & -> & Hl' & HP & Ho);
      [done|apply vma_ok_set_end; [done|lia|done]|done|simpl; lia|simpl; lia| |].
    { intros w Hw. apply (disjoint_sub v); [by apply Hd|simpl; lia..]. }
    exists (put_ref m2 (set_end v s)), [set_end v s]. rewrite drop_S_tail. split; [done|]. split; [done|]. split; [done|].
    split; [intros p ->%list_elem_of_singleton; simpl; lia|]. split; [|done].
    intros x a. rewrite maps_cons, maps_clip_end by lia. unfold maps.
    setoid_rewrite elem_of_nil. naive_solver.
  - destruct (answer ks); [|done]. cbn [andb granted take forallb].
    destruct (fixup_tail m v (upper_part v e)) as (m2 & -> & Hl' & HP & Ho);
      [done|apply vma_ok_upper; [done|lia|done]|done|simpl; lia|simpl; lia| |].
    { intros w Hw. apply (disjoint_sub v); [by apply Hd|simpl; lia..]. }
    exists (put_ref m2 (upper_part v e)), [upper_part v e]. rewrite drop_S_tail. split; [done|]. split; [done|]. split; [done|].
    split; [intros p ->%list_elem_of_singleton; simpl; lia|]. split; [|done].
    intros x a. rewrite maps_cons, maps_clip_start by lia. unfold maps.
    setoid_rewrite elem_of_nil. naive_solver.
  - destruct (answer ks); [|done]. cbn [andb].
    destruct (insert_piece m v (upper_part v e) Hl) as (m1 & -> & Hl1 & HP1 & Ho1);
      [apply vma_ok_upper; [done|lia|done]|simpl; lia|simpl; lia| |].
    { intros w Hw. apply (disjoint_sub v); [by apply Hd|simpl; lia..]. }
    destruct (answer (tail ks)); [|done]. cbn [andb granted take forallb].
    destruct (fixup_tail m1 v (set_end v s)) as (m2 & -> & Hl' & HP & Ho);
      [done|apply vma_ok_set_end; [done|lia|done]|done|simpl; lia|simpl; lia| |].
    { intros w. rewrite HP1. intros [->|Hw]%elem_of_cons; [left; unfold before; simpl; lia|].
      apply (disjoint_sub v); [by apply Hd|simpl; lia..]. }
    exists (put_ref m2 (set_end v s)), [set_end v s; upper_part v e]. rewrite !drop_S_tail. split; [done|]. split; [done|].
    split; [by rewrite HP, HP1|].
    split; [intros p [->| ->%list_elem_of_singleton]%elem_of_cons; simpl; lia|].
    split; [|intros r; by rewrite Ho, Ho1].
    intros x a. rewrite !maps_cons, attr_upper. unfold maps at 1, clipped, covers, attr_at at 1. simpl.
    setoid_rewrite elem_of_nil. fold (attr_at v x). unfold vma_ref at 1. simpl.
    split; [|intros ([? ?] & ? & ?); destruct (decide (x < s)); [left|right; left]; split; lia || done].
    intros [[? ?]|[[? ?]|(? & [] & _)]]; (split; [lia|]); (split; [lia|done]).
Qed.

(** What the freed areas looked like outside the unmapped range. *)
Lemma unmap_freed_ok ks free m addr len :
  wf (mmap m) -> aligned addr -> aligned len -> 0 <= addr -> 0 < len -> addr + len <= KERNEL_BASE ->
  Forall vma_ok free -> ForallOrdPairs disjoint_vma free ->
  (forall v, v ∈ free -> overlaps addr (addr + len) v) ->
  (forall v w, v ∈ free -> w ∈ mmap m -> disjoint_vma v w) ->
  let n := pieces_of addr (addr + len) free in
  if granted n ks then
    exists m', unmap_freed ks addr len m free = Some (m', drop n ks) /\ wf (mmap m') /\
    (forall x a, maps (mmap m') x a <->
       maps (mmap m) x a \/ (maps free x a /\ ~ (addr <= x < addr + len))) /\
    (forall r, others m' r = others m r - nrefs free r)
  else unmap_freed ks addr len m free = None.
Proof.
  intros Hl Aa Al Ha Hlen Hk Hok Hap. revert m ks Hl.
  induction Hap as [|v free Hv Hap IH]; intros m ks Hl Hov Hd; cbn [unmap_freed nrefs].
  { exists m. split; [done|]. split; [done|]. split; [|intros; lia]. intros x a. unfold maps.
    setoid_rewrite elem_of_nil. naive_solver. }
  apply Forall_cons in Hok as [Hvok Hok]. unfold KERNEL_BASE in *.
  rewrite (u32_small (addr + len)) by lia.
  set (s := Z.max addr (vm_start v)). set (e := Z.min (addr + len) (vm_end v)).
  destruct (Hov v ltac:(left)) as [Ho1 Ho2]. pose proof Hvok as [].
  assert (Aal : aligned (addr + len)).
  { unfold aligned in *. rewrite Z.add_mod, Aa, Al by lia. done. }
  assert (Ep : pieces_of addr (addr + len) (v :: free) = (pieces s e v + pieces_of addr (addr + len) free)%nat).
  { unfold pieces_of. cbn [sum_list_with]. f_equal. unfold pieces.
    f_equal; subst s e;
      repeat match goal with |- context [Z.ltb ?a ?b] => destruct (Z.ltb_spec a b) end; lia || done. }
  cbv zeta. rewrite Ep, granted_add. clear Ep.
  assert (Hfix := unmap_fixup_ok ks m v s e Hl Hvok). ospecialize (Hfix _ _ _ _ _ _).
  { intros w Hw. apply Hd; [left|done]. } { lia. } { lia. } { lia. }
  { subst s. destruct (Z.max_spec addr (vm_start v)) as [[_ ->]|[_ ->]]; done. }
  { subst e. destruct (Z.min_spec (addr + len) (vm_end v)) as [[_ ->]|[_ ->]]; done. }
  destruct (granted (pieces s e v) ks); [|by rewrite Hfix]. cbn [andb].
  destruct Hfix as (m1 & rest & -> & Hl1 & HP & Hpc & Hmaps & Hoth).
  rewrite Forall_forall in Hv. specialize (IH Hok m1 (drop (pieces s e v) ks) Hl1). ospecialize (IH _ _).
  { intros w Hw. apply Hov. by right. }
  { intros w u Hw. rewrite HP. intros [Hu|Hu]%elem_of_app.
    - destruct (Hpc _ Hu) as [? ?]. specialize (Hv _ Hw). unfold disjoint_vma, before in *. lia.
    - apply Hd; [by right|done]. }
  cbv zeta in IH. destruct (granted (pieces_of addr (addr + len) free) _); [|done].
  destruct IH as (m' & E & Hl' & Hm' & Ho'). exists m'. split; [by rewrite E, drop_drop|]. split; [done|]. split.
  - intros x a. rewrite Hm', (maps_perm _ _ x a HP). unfold maps at 1. setoid_rewrite elem_of_app.
    rewrite maps_cons.
    assert (Hcl : clipped v s e x a <-> (covers v x /\ attr_at v x = a) /\ ~ (addr <= x < addr + len)).
    { unfold clipped, covers. subst s e. split; [intros ([? ?] & ? & ?)|intros [[[? ?] ?] ?]];
        repeat split; lia || done. }
    rewrite <- Hmaps in Hcl. unfold maps in *. split.
    + intros [(w & [Hw|Hw] & Hx)|[Hf ?]]; [|by left; exists w|tauto].
      right. destruct Hcl as [Hcl _]. destruct Hcl as [? ?]; [by exists w|tauto].
    + intros [(w & Hw & Hx)|[[Hvx|Hf] Hn]]; [left; exists w; tauto| |tauto].
      destruct Hcl as [_ Hcl]. destruct Hcl as (w & Hw & Hx); [tauto|]. left. exists w. tauto.
  - intros r. rewrite Ho', Hoth. lia.
Qed.

(** What is cut out of the kept areas and the freed ones. *)
Lemma needs_freed l k f s e : k ++ f ≡ₚ l -> (forall v, v ∈ k -> ~ overlaps s e v) -> (forall v, v ∈ f -> overlaps s e v) ->
  pieces_of s e (filter (overlaps s e) l) = pieces_of s e f.
Proof.
  intros P K F. apply pieces_of_perm. rewrite <- P, filter_app.
  assert (filter (overlaps s e) k = []) as ->.
  { clear P. induction k as [|v k IH]; [done|]. rewrite filter_cons_False by (apply K; left).
    apply IH. intros w Hw. apply K. by right. }
  simpl. clear P. induction f as [|v f IH]; [done|]. rewrite filter_cons_True by (apply F; left).
  apply perm_skip, IH. intros w Hw. apply F. by right.
Qed.

(** The range is aligned and of user space. *)
Definition good_range (addr len : Z) : Prop := aligned addr /\ addr + len <= KERNEL_BASE.

#[export] Instance good_range_dec addr len : Decision (good_range addr len).
Proof. unfold good_range, aligned. apply _. Defined.

(** A successful [do_munmap]. *)
Definition unmapped (m m' : mm) (addr len : Z) : Prop :=
  wf (mmap m') /\ (forall q, others m' q = others m q) /\
  forall x a, maps (mmap m') x a <-> maps (mmap m) x a /\ ~ (addr <= x < addr + PAGE_ALIGN len).

Lemma do_munmap_ok ks m addr len : wf (mmap m) -> is_u32 addr -> is_u32 len ->
  if decide (good_range addr len) then
    let n := munmap_needs m addr len in
    if granted n ks then exists m', do_munmap ks m addr len = Some (m', 0, drop n ks) /\ unmapped m m' addr len
    else do_munmap ks m addr len = None
  else do_munmap ks m addr len = Some (m, - EINVAL, ks).
Proof.
  intros Hl Ha Hn. unfold is_u32 in *. unfold do_munmap, good_range. rewrite page_offset_mod. unfold aligned.
  destruct (Z.eqb_spec (addr mod 4096) 0) as [Aa|Aa]; cbn [negb orb].
  2: { by rewrite decide_False by tauto. }
  destruct (Z.gtb_spec addr KERNEL_BASE) as [Hg|Hg]; cbn [orb].
  { by rewrite decide_False by lia. }
  assert (Hk : u32 (KERNEL_BASE - addr) = KERNEL_BASE - addr) by (apply u32_small; unfold KERNEL_BASE in *; lia).
  rewrite Hk. destruct (Z.gtb_spec len (KERNEL_BASE - addr)) as [Hg2|Hg2].
  { by rewrite decide_False by lia. }
  rewrite decide_True by lia. unfold munmap_needs.
  destruct (PAGE_ALIGN_spec len) as [HL AL]; [unfold KERNEL_BASE in *; lia|].
  destruct (Z.eqb_spec (PAGE_ALIGN len) 0) as [E0|E0]; cbv zeta.
  { cbn. exists m. split; [done|]. split; [done|]. split; [done|]. rewrite E0. intros. naive_solver lia. }
  assert (Hal : addr + PAGE_ALIGN len <= KERNEL_BASE).
  { unfold KERNEL_BASE, aligned in *. apply Z.mod_divide in Aa as [i ->]; [|lia].
    apply Z.mod_divide in AL as [j Ej]; [|lia]. lia. }
  rewrite (u32_small (addr + PAGE_ALIGN len)) by (unfold KERNEL_BASE in *; lia).
  pose proof (unlink_ok addr (addr + PAGE_ALIGN len) (mmap m) [] Hl) as HU.
  destruct (unlink addr (addr + PAGE_ALIGN len) (mmap m) []) as [k f].
  destruct HU as (Wk & P & K & F & D). rewrite app_nil_r in P.
  assert (Hdis : forall v w, v ∈ f -> w ∈ k -> disjoint_vma v w).
  { intros v w [Hv|[Hv Hov]]%F [Hw Hno]%K; [by apply not_elem_of_nil in Hv|].
    by apply (wf_disjoint (mmap m)); [..|intros ->]. }
  assert (Hfok : Forall vma_ok f).
  { apply Forall_forall. intros v [Hv|[Hv _]]%F; [by apply not_elem_of_nil in Hv|].
    by apply (wf_elem (mmap m)). }
  assert (Hov : forall v, v ∈ f -> overlaps addr (addr + PAGE_ALIGN len) v).
  { intros v [Hv|[_ Hv]]%F; [by apply not_elem_of_nil in Hv|done]. }
  rewrite (needs_freed (mmap m) k f) by (done || intros v [_ ?]%K; done).
  pose proof (unmap_freed_ok ks f (set_mmap m k) addr (PAGE_ALIGN len)) as HF. ospecialize (HF _ _ _ _ _ _ _ _ _ _).
  { done. } { done. } { done. } { lia. } { lia. } { done. } { done. }
  { apply D; [constructor|]. intros v w _ Hw. by apply not_elem_of_nil in Hw. } { done. } { done. }
  cbv zeta in HF. destruct (granted _ ks); [|by rewrite HF]. destruct HF as (m' & -> & Hl' & Hm & Ho).
  exists m'. split; [done|]. split; [done|]. split.
  { intros q. rewrite Ho. unfold others, set_mmap. simpl. rewrite <- (nrefs_perm _ _ q P), nrefs_app. lia. }
  intros x a. rewrite Hm. simpl. rewrite <- (maps_perm _ _ x a P), maps_app. split; [|tauto].
  intros [Hx|Hx]; [|tauto]. split; [tauto|]. intros Hr. destruct Hx as (v & [Hv Hno]%K & Hc & _).
  apply Hno. unfold overlaps, covers in *. lia.
Qed.

(** ** Finding room *)

(** No address of [[a, a+len)] is mapped. *)
Definition gap (l : list vma) (a len : Z) : Prop := forall v, v ∈ l -> ~ overlaps a (a + len) v.

Lemma gap_cons v l a len : gap (v :: l) a len <-> ~ overlaps a (a + len) v /\ gap l a len.
Proof. unfold gap. setoid_rewrite elem_of_cons. naive_solver. Qed.

Lemma gap_unmapped l a len : wf l -> 0 < len ->
  gap l a len <-> (forall x, a <= x < a + len -> ~ mapped l x).
Proof.
  intros Hl Hlen. split.
  - intros H x Hx (v & Hv & Hc). apply (H v Hv). unfold overlaps, covers in *. lia.
  - intros H v Hv [H1 H2]. apply (H (Z.max a (vm_start v))).
    + pose proof (vo_ne _ (wf_elem _ _ Hl Hv)). lia.
    + exists v. split; [done|]. pose proof (vo_ne _ (wf_elem _ _ Hl Hv)). unfold covers. lia.
Qed.

Lemma unmapped_loop_ok l addr len : wf l -> 0 < addr <= KERNEL_BASE -> aligned addr ->
  0 < len <= KERNEL_BASE ->
  let r := unmapped_loop l addr len in
  (r = 0 /\ (forall a, addr <= a -> a + len <= KERNEL_BASE -> ~ gap l a len)) \/
  (addr <= r /\ r + len <= KERNEL_BASE /\ aligned r /\ gap l r len).
Proof.
  revert addr. induction l as [|v l IH]; intros addr Hl Ha Aa Hn; simpl;
    rewrite (u32_small (KERNEL_BASE - len)) by (unfold KERNEL_BASE in *; lia);
    (destruct (Z.ltb_spec (KERNEL_BASE - len) addr); [left; split; [done|]; intros; lia|]).
  { right. split; [lia|]. split; [lia|]. split; [done|]. intros v Hv. by apply not_elem_of_nil in Hv. }
  apply wf_cons_inv in Hl as (Hv & Hl & Hb). pose proof Hv as [].
  destruct (Z.gtb_spec addr (vm_end v)).
  - destruct (IH addr Hl Ha Aa Hn) as [[-> Hz]|(? & ? & ? & ?)].
    + left. split; [done|]. intros a ? ? [_ ?]%gap_cons. by apply (Hz a).
    + right. rewrite gap_cons. unfold overlaps. repeat split; try done. lia.
  - rewrite (u32_small (addr + len)) by (unfold KERNEL_BASE in *; lia).
    destruct (Z.gtb_spec (addr + len) (vm_start v)).
    + destruct (IH (vm_end v) Hl ltac:(lia) vo_ae0 Hn) as [[-> Hz]|(? & ? & ? & ?)].
      * left. split; [done|]. intros a ? ? [Hno ?]%gap_cons. unfold overlaps in Hno.
        apply (Hz a); [lia|done|done].
      * right. rewrite gap_cons. unfold overlaps. repeat split; try done; lia.
    + right. rewrite gap_cons. unfold overlaps. repeat split; try done; try lia.
      intros w Hw [? ?]. specialize (Hb _ Hw). unfold before in Hb. lia.
Qed.

(** The lowest address [get_unmapped_area] considers for a hint. *)
Definition search_base (addr : Z) : Z := if addr =? 0 then KERNEL_BASE / 2 else PAGE_ALIGN addr.

Lemma get_unmapped_area_ok l addr len : wf l -> 0 <= addr <= KERNEL_BASE -> 0 < len <= KERNEL_BASE ->
  let r := get_unmapped_area l addr len in
  (r = 0 /\ (forall a, search_base addr <= a -> a + len <= KERNEL_BASE -> ~ gap l a len)) \/
  (0 < r /\ search_base addr <= r /\ r + len <= KERNEL_BASE /\ aligned r /\ gap l r len).
Proof.
  intros Hl Ha Hn. unfold get_unmapped_area, search_base.
  destruct (Z.gtb_spec len KERNEL_BASE); [lia|].
  set (a' := if addr =? 0 then KERNEL_BASE / 2 else addr).
  assert (Ha' : 0 < a' <= KERNEL_BASE).
  { unfold a'. destruct (Z.eqb_spec addr 0); [|lia]. by vm_compute. }
  replace (if addr =? 0 then KERNEL_BASE / 2 else PAGE_ALIGN addr) with (PAGE_ALIGN a').
  2: { unfold a'. by destruct (addr =? 0). }
  clearbody a'. destruct (PAGE_ALIGN_spec a') as [H1 H2]; [unfold KERNEL_BASE in *; lia|].
  assert (PAGE_ALIGN a' <= KERNEL_BASE).
  { unfold KERNEL_BASE, aligned in *. apply Z.mod_divide in H2 as [j Ej]; [|lia]. lia. }
  destruct (unmapped_loop_ok l (PAGE_ALIGN a') len Hl) as [[? ?]|?]; [lia|done|lia|by left|].
  right. split; [lia|]. done.
Qed.

(** ** Mapping *)

(** What the new area of [do_mmap] maps its addresses to. *)
Definition new_attr (prot flags off : Z) (fl : option file) (r x : Z) : attr :=
  let v := alloc_vma r 0 prot flags off (bool_decide (is_Some fl)) in
  mkattr (vm_flags v) (f_id <$> fl) (f_inode <$> fl) (match fl with Some _ => Some (u32 (off + (x - r))) | None => None end).

Definition hook_errors (fl : option file) : Prop :=
  forall f hook flags, fl = Some f -> f_op_mmap f = Some hook -> - 4096 < hook flags <= 0.

Lemma map_area_ok m prot flags off fl a len :
  wf (mmap m) -> 0 <= a -> 0 < len -> a + len <= KERNEL_BASE -> aligned a -> aligned len ->
  gap (mmap m) a len -> hook_errors fl ->
  exists m' r, map_area m (alloc_vma a len prot flags off (bool_decide (is_Some fl))) fl = Some (m', r) /\
    wf (mmap m') /\ (forall q, others m' q = others m q) /\
    (- 4096 < r < 0 /\ m' = m \/
     r = a /\ forall x at', maps (mmap m') x at' <->
        (a <= x < a + len /\ at' = new_attr prot flags off fl a x) \/ maps (mmap m) x at').
Proof.
  intros Hl Ha Hlen Hk Aa Al Hg Hh.
  set (v := alloc_vma a len prot flags off (bool_decide (is_Some fl))).
  assert (Hend : u32 (a + len) = a + len) by (apply u32_small; unfold KERNEL_BASE in *; lia).
  assert (Haal : aligned (a + len)) by (unfold aligned in *; rewrite Z.add_mod, Aa, Al by lia; done).
  assert (Hv : vma_ok v) by (split; simpl; rewrite ?Hend; try done; lia).
  (* any area with the range of [v] can be inserted and merged *)
  assert (Hins : forall m0 w, mmap m0 = mmap m -> vm_start w = a -> vm_end w = a + len -> vma_ok w ->
     (forall q, refs m0 q = refs m q + owns q w) ->
     (forall x, attr_at w x = new_attr prot flags off fl a x) ->
     exists m2, insert_vm_struct m0 w = Some m2 /\ wf (merge_mmap (mmap m2)) /\
       (forall q, others (set_mmap m2 (merge_mmap (mmap m2))) q = others m q) /\
       forall x at', maps (merge_mmap (mmap m2)) x at' <->
        (a <= x < a + len /\ at' = new_attr prot flags off fl a x) \/ maps (mmap m) x at').
  { intros m0 w E0 Es Ee Hw Hr Hat.
    destruct (insert_vm_struct_ok m0 w) as (m2 & E & Hl2 & HP & Hrf); [by rewrite E0|done| |].
    { rewrite E0. intros u Hu. specialize (Hg u Hu). unfold overlaps, disjoint_vma, before in *. lia. }
    destruct (merge_mmap_ok _ Hl2) as (Wm & Mm & Nm). exists m2. split; [done|]. split; [done|]. split.
    - intros q. unfold others, set_mmap. simpl. rewrite Nm, (nrefs_perm _ _ q HP), Hrf, Hr, E0. simpl. lia.
    - intros x at'. rewrite Mm, (maps_perm _ _ x at' HP), maps_cons, E0, Hat. unfold covers.
      rewrite Es, Ee. naive_solver. }
  unfold map_area. destruct fl as [f|].
  - unfold call_mmap. destruct (f_op_mmap f) as [hook|] eqn:Ehook.
    2: { exists m, (- ENODEV). split; [done|]. split; [done|]. split; [done|]. by left. }
    destruct (Z.eqb_spec (hook (vm_flags v)) 0) as [E0|E0].
    + change (negb (0 =? 0)) with false. cbv iota.
      destruct (Hins (get_ref m (attach v f)) (attach v f)) as (m2 & -> & W2 & O2 & M2);
        [apply mmap_ref_add|done|done|by destruct Hv| |done|].
      * intros q. unfold get_ref. rewrite refs_ref_add. lia.
      * eexists _, a. split; [done|]. split; [done|]. split; [done|]. right. done.
    + rewrite (proj2 (Z.eqb_neq _ _) E0). cbn [negb].
      exists m, (hook (vm_flags v)). split; [done|]. split; [done|]. split; [done|]. left.
      split; [|done]. specialize (Hh f hook (vm_flags v) eq_refl Ehook). lia.
  - change (negb (0 =? 0)) with false. cbv iota.
    destruct (Hins m v) as (m2 & -> & W2 & O2 & M2); [done|done|done|done| |done|].
    * intros q. unfold owns, vma_ref, v. simpl. lia.
    * eexists _, a. split; [done|]. split; [done|]. split; [done|]. right. done.
Qed.

Lemma mmap_check_ok addr len prot flags off fl : is_u32 addr -> is_u32 len ->
  - 4096 < mmap_check addr len prot flags off fl < 0 \/
  (mmap_check addr len prot flags off fl = 0 /\ 0 < len <= KERNEL_BASE /\ addr + len <= KERNEL_BASE /\
   (Z.land flags MAP_FIXED <> 0 -> aligned addr)).
Proof.
  unfold is_u32, mmap_check, aligned, EINVAL, EACCES, ENODEV. rewrite page_offset_mod. intros Ha Hn.
  destruct (Z.eqb_spec len 0); [lia|].
  destruct (Z.gtb_spec addr KERNEL_BASE), (Z.gtb_spec len KERNEL_BASE),
    (Z.gtb_spec addr (KERNEL_BASE - len)); simpl; try lia.
  destruct (Z.eqb_spec (Z.land flags MAP_FIXED) 0), (Z.eqb_spec (addr mod 4096) 0); simpl; try lia.
  all: destruct fl as [f|]; [destruct (f_op_mmap f)|];
    repeat match goal with |- context [if ?b then _ else _] => destruct b end; simpl; lia.
Qed.

(** The file [do_mmap] maps: none for anonymous memory. *)
Definition mmap_file (fd_file : Z -> option file) (flags fd : Z) : option file :=
  if negb (Z.land flags MAP_ANONYMOUS =? 0) then None
  else if fd >=? NR_OPEN then None else fd_file fd.

(** The outcome of mapping [L] bytes: an error, which changes nothing unless
    the hook of the file failed after [MAP_FIXED] had cleared the range, or an
    address whose range is replaced by the new area. *)
Definition mapped_as (m m' : mm) (r addr L prot flags off : Z) (fl : option file) : Prop :=
  - 4096 < r < 0 /\ (m' = m \/ Z.land flags MAP_FIXED <> 0 /\ fl <> None /\
    forall x a, maps (mmap m') x a <-> maps (mmap m) x a /\ ~ (addr <= x < addr + L)) \/
  0 <= r /\ aligned r /\ 0 < L /\ r + L <= KERNEL_BASE /\
  (Z.land flags MAP_FIXED <> 0 -> r = addr) /\
  (Z.land flags MAP_FIXED = 0 -> search_base addr <= r /\ gap (mmap m) r L) /\
  forall x a, maps (mmap m') x a <->
    (r <= x < r + L /\ a = new_attr prot flags off fl r x) \/
    (maps (mmap m) x a /\ ~ (r <= x < r + L)).

(** The memory [do_mmap] asks for has been found: the area itself and, with
    [MAP_FIXED], the pieces of what was there. *)
Definition mmap_granted (ks : list bool) (m : mm) (addr L flags : Z) : bool :=
  answer ks && ((Z.land flags MAP_FIXED =? 0) || granted (munmap_needs m addr L) (tail ks)).

Lemma do_mmap_ok ks fd_file m addr len prot flags fd off :
  wf (mmap m) -> is_u32 addr -> is_u32 len -> hook_errors (fd_file fd) ->
  match do_mmap ks fd_file m addr len prot flags fd off with
  | Some (m', r) => wf (mmap m') /\ (forall q, others m' q = others m q) /\
      mapped_as m m' r addr (PAGE_ALIGN len) prot flags off (mmap_file fd_file flags fd) /\
      (0 <= r -> mmap_granted ks m addr (PAGE_ALIGN len) flags = true) /\ (answer ks = false -> m' = m)
  | None => Z.land flags MAP_FIXED <> 0 /\ answer ks = true /\
      mmap_granted ks m addr (PAGE_ALIGN len) flags = false
  end.
Proof.
  intros Hl Ha Hn Hh.
  assert (Herr : forall r fl, - 4096 < r < 0 -> wf (mmap m) /\
    (forall q, others m q = others m q) /\ mapped_as m m r addr (PAGE_ALIGN len) prot flags off fl /\
    (0 <= r -> mmap_granted ks m addr (PAGE_ALIGN len) flags = true) /\ (answer ks = false -> m = m)).
  { intros r fl Hr. split; [done|]. split; [done|]. split; [left; auto|]. split; [lia|done]. }
  unfold do_mmap. fold (mmap_file fd_file flags fd).
  assert (Hh' : hook_errors (mmap_file fd_file flags fd)).
  { unfold mmap_file. destruct (negb _); [done|]. destruct (fd >=? NR_OPEN); done. }
  set (fl := mmap_file fd_file flags fd) in *.
  destruct (_ && negb (fd =? 2 ^ 32 - 1)); [by apply Herr|].
  destruct (_ && bool_decide (fl = None)); [by apply Herr|].
  destruct (PAGE_ALIGN_aligned len) as [AL HL]. set (L := PAGE_ALIGN len) in *.
  destruct (mmap_check_ok addr L prot flags off fl Ha HL) as [He|(-> & HL1 & HaL & Hfx)].
  { rewrite (proj2 (Z.eqb_neq _ 0)) by lia. by apply Herr. }
  cbn [negb Z.eqb]. clearbody L fl. unfold is_u32 in *. unfold mmap_granted in *.
  destruct (Z.eqb_spec (Z.land flags MAP_FIXED) 0) as [Hf|Hf].
  - destruct (get_unmapped_area_ok (mmap m) addr L Hl) as [[-> _]|(H1 & H2 & H3 & H4 & H5)];
      [lia|lia|by apply Herr|].
    set (a := get_unmapped_area (mmap m) addr L) in *. clearbody a.
    rewrite (proj2 (Z.eqb_neq a 0)) by lia. destruct (answer ks); [|by apply Herr]. cbn [negb].
    destruct (map_area_ok m prot flags off fl a L) as (m' & r & -> & W & O & Hr); [done|lia|lia|done..|].
    split; [done|]. split; [done|]. split; [|done].
    destruct Hr as [[? ->]|[-> Hm]]; [by left; auto|].
    right. split; [lia|]. split; [done|]. split; [lia|]. split; [done|]. split; [done|]. split; [done|].
    intros x at'. rewrite Hm. split; [|tauto]. intros [?|Hx]; [by left|]. right. split; [done|].
    intros Hr. apply (proj1 (gap_unmapped (mmap m) a L Hl ltac:(lia)) H5 x Hr), maps_mapped. eauto.
  - destruct (answer ks); [|by apply Herr]. cbn [negb andb orb].
    pose proof (do_munmap_ok (tail ks) m addr L Hl Ha HL) as HM.
    rewrite decide_True in HM by (split; [by apply Hfx|lia]). cbv zeta in HM.
    destruct (granted _ (tail ks)); [|by rewrite HM]. destruct HM as (m1 & -> & W1 & O1 & M1).
    assert (EL : PAGE_ALIGN L = L).
    { apply Z.eqb_eq. apply page_aligned_true; [lia|done]. } rewrite EL in M1.
    assert (Hg : gap (mmap m1) addr L).
    { apply gap_unmapped; [done|lia|]. intros x Hx (a & [_ ?]%M1)%maps_mapped. done. }
    destruct (map_area_ok m1 prot flags off fl addr L) as (m' & r & E & W & O & Hr);
      [done|lia|lia|done|by apply Hfx|done..|]. rewrite E.
    split; [done|]. split; [intros q; by rewrite O|]. split; [|done].
    destruct Hr as [[? ->]|[-> Hm]].
    + left. split; [done|]. right. split; [done|]. split; [|done].
      intros ->. unfold map_area in E. destruct (insert_vm_struct m1 _); simplify_eq/=. lia.
    + right. split; [lia|]. split; [by apply Hfx|]. split; [lia|]. split; [lia|].
      split; [done|]. split; [by intros|]. intros x a. by rewrite Hm, M1.
Qed.

(** ** Heap, protection, fork *)

Lemma find_vma_intersection_none l s e : wf l ->
  find_vma_intersection l s e = None -> forall v, v ∈ l -> ~ overlaps s e v.
Proof.
  unfold find_vma_intersection, find_vma. induction l as [|v l IH]; intros Hl H w Hw;
    [by apply not_elem_of_nil in Hw|].
  apply wf_cons_inv in Hl as (Hv & Hl & Hb). simpl in H. unfold overlaps.
  destruct (Z.gtb_spec (vm_end v) s) as [Hgt|Hle]; simpl in H.
  - destruct (Z.leb_spec e (vm_start v)) as [He|He]; [|done].
    apply elem_of_cons in Hw as [->|Hw]; [lia|]. specialize (Hb _ Hw). unfold before in Hb.
    destruct Hv. lia.
  - apply elem_of_cons in Hw as [->|Hw]; [lia|]. by apply IH.
Qed.

(** Attributes of heap memory. *)
Definition heap_attr : attr := mkattr VM_PROT None None None.

(** What [sys_brk] promises when it moves the end of the heap from [h] to [b]. *)
Definition brk_moved (h h' : heap) (b : Z) : Prop :=
  brk h' = b /\ start_brk h' = start_brk h /\ end_code h' = end_code h /\ rlim_data h' = rlim_data h /\
  b <= KERNEL_BASE /\
  (b < brk h -> forall x a, maps (mmap (h_mm h')) x a <->
     maps (mmap (h_mm h)) x a /\ ~ (PAGE_ALIGN b <= x < PAGE_ALIGN (brk h))) /\
  (brk h <= b -> forall x a, maps (mmap (h_mm h')) x a <->
     (PAGE_ALIGN (brk h) <= x < PAGE_ALIGN b /\ a = heap_attr) \/ maps (mmap (h_mm h)) x a) /\
  (PAGE_ALIGN (brk h) < PAGE_ALIGN b -> b - end_code h <= rlim_data h /\
     forall x, PAGE_ALIGN (brk h) <= x < PAGE_ALIGN b + PAGE_SIZE -> ~ mapped (mmap (h_mm h)) x).

Lemma align_mono x y : 0 <= x <= y -> y <= KERNEL_BASE -> PAGE_ALIGN x <= PAGE_ALIGN y.
Proof.
  unfold KERNEL_BASE. intros. destruct (PAGE_ALIGN_spec x) as [? Hx]; [lia|].
  destruct (PAGE_ALIGN_spec y) as [? Hy]; [lia|]. unfold aligned in *.
  apply Z.mod_divide in Hx as [i Ei]; [|lia]. apply Z.mod_divide in Hy as [j Ej]; [|lia]. lia.
Qed.

Lemma align_le_base x : 0 <= x <= KERNEL_BASE -> x <= PAGE_ALIGN x <= KERNEL_BASE.
Proof.
  intros H. pose proof (align_mono x KERNEL_BASE ltac:(lia) ltac:(lia)) as H1.
  change (PAGE_ALIGN KERNEL_BASE) with KERNEL_BASE in H1.
  destruct (PAGE_ALIGN_spec x); unfold KERNEL_BASE in *; lia.
Qed.

(** Growing: the part of [sys_brk] that maps the new pages. *)
Lemma brk_grow m lo n : wf (mmap m) -> 0 < lo <= KERNEL_BASE -> aligned lo -> is_u32 n -> aligned n ->
  exists m' r, do_mmap [] (fun _ => None) m lo n VM_PROT
      (Z.lor (Z.lor MAP_FIXED MAP_PRIVATE) MAP_ANONYMOUS) (2 ^ 32 - 1) 0 = Some (m', r) /\
    wf (mmap m') /\ (forall q, others m' q = others m q) /\
    (- 4096 < r < 0 /\ m' = m \/
     r = lo /\ lo + n <= KERNEL_BASE /\ forall x a, maps (mmap m') x a <->
       (lo <= x < lo + n /\ a = heap_attr) \/ (maps (mmap m) x a /\ ~ (lo <= x < lo + n))).
Proof.
  intros Hl Hlo Al Hn An. unfold is_u32, KERNEL_BASE in *.
  pose proof (do_mmap_ok [] (fun _ => None) m lo n VM_PROT
     (Z.lor (Z.lor MAP_FIXED MAP_PRIVATE) MAP_ANONYMOUS) (2 ^ 32 - 1) 0 Hl ltac:(unfold is_u32; lia) Hn ltac:(by intros ? ? ? ?)) as K.
  destruct (do_mmap _ _ m lo n _ _ _ _) as [[m' r]|].
  2: { destruct K as (_ & _ & K). unfold mmap_granted in K. rewrite orb_true_intro in K; [done|]. right. by rewrite granted_nil. }
  destruct K as (W & O & HM & _).
  exists m', r. split; [done|]. split; [done|]. split; [done|].
  assert (EL : PAGE_ALIGN n = n \/ KERNEL_BASE < PAGE_ALIGN n \/ PAGE_ALIGN n <= 0).
  { destruct (decide (n <= 2 ^ 32 - 4096)) as [Hs|Hs].
    - left. destruct (PAGE_ALIGN_spec n) as [? HA]; [lia|]. unfold aligned in *.
      apply Z.mod_divide in HA as [i Ei]; [|lia]. apply Z.mod_divide in An as [j Ej]; [|lia]. lia.
    - exfalso. unfold aligned in An. apply Z.mod_divide in An as [j Ej]; [|lia]. lia. }
  destruct HM as [(Hr & [->|(_ & [] & _)])|(H0 & Ar & HL & HK & Hf & _ & HM)]; [by left|done|].
  right. rewrite (Hf ltac:(done)) in *. destruct EL as [EL|[?|?]]; [|unfold KERNEL_BASE in *; lia|lia].
  rewrite EL in HM, HK. split; [done|]. split; [done|]. intros x a. rewrite HM.
  change (new_attr _ _ _ _ lo x) with heap_attr. done.
Qed.

(** Above user space the rounded break is too large or has wrapped to 0. *)
Lemma align_above_base b : KERNEL_BASE < b < 2 ^ 32 -> PAGE_ALIGN b > KERNEL_BASE \/ PAGE_ALIGN b = 0.
Proof.
  intros H. destruct (decide (b <= 2 ^ 32 - 4096)).
  - destruct (PAGE_ALIGN_spec b); unfold KERNEL_BASE in *; lia.
  - right. unfold PAGE_ALIGN, PAGE_SIZE. replace (u32 (b + 4096 - 1)) with (b + 4095 - 2 ^ 32).
    + unfold KERNEL_BASE in *. rewrite land_page_mask by lia. rewrite Z.mod_small; lia.
    + unfold u32. replace (b + 4096 - 1) with (b + 4095 - 2 ^ 32 + 1 * 2 ^ 32) by lia.
      rewrite Z_mod_plus_full, Z.mod_small; lia.
Qed.

(** The wrapped size of the new pages is the true one when they fit. *)
Lemma brk_size_fits lo b : 0 < lo <= KERNEL_BASE -> is_u32 b ->
  (b <= KERNEL_BASE -> lo <= PAGE_ALIGN b) -> lo + u32 (PAGE_ALIGN b - lo) <= KERNEL_BASE ->
  b <= KERNEL_BASE /\ u32 (PAGE_ALIGN b - lo) = PAGE_ALIGN b - lo.
Proof.
  unfold is_u32. intros Hlo Hb Hle HK. destruct (PAGE_ALIGN_aligned b) as [_ Hnb]. unfold is_u32 in Hnb.
  destruct (decide (b <= KERNEL_BASE)) as [|Hn]; [split; [done|apply u32_small; lia]|].
  destruct (align_above_base b ltac:(lia)) as [Hx|Hx].
  - rewrite u32_small in HK by lia. lia.
  - rewrite Hx in HK. unfold u32 in HK. replace (0 - lo) with (2 ^ 32 - lo + (-1) * 2 ^ 32) in HK by lia.
    rewrite Z_mod_plus_full, Z.mod_small in HK; unfold KERNEL_BASE in *; lia.
Qed.

Lemma sys_brk_ok h b : wf (mmap (h_mm h)) -> 0 < start_brk h <= brk h -> brk h <= KERNEL_BASE ->
  is_u32 b -> 0 <= end_code h <= start_brk h -> start_brk h <= b ->
  exists h' r, sys_brk [] h b = Some (h', r) /\ wf (mmap (h_mm h')) /\
    (forall q, others (h_mm h') q = others (h_mm h) q) /\
    (- 4096 < r < 0 /\ h' = h \/ r = b /\ brk_moved h h' b).
Proof.
  intros Hl Hs Hk Hb Hc Hsb. unfold sys_brk. unfold is_u32 in Hb.
  destruct (Z.eqb_spec b 0) as [|Hb0]; [lia|]. destruct (Z.geb_spec b (start_brk h)) as [_|]; [|lia].
  destruct (align_le_base (brk h)) as [Ho1 Ho2]; [lia|].
  destruct (PAGE_ALIGN_aligned (brk h)) as [Ao _]. destruct (PAGE_ALIGN_aligned b) as [An Hnb].
  unfold is_u32 in Hnb.
  assert (Hbn : b <= KERNEL_BASE -> b <= PAGE_ALIGN b <= KERNEL_BASE)
    by (intros; apply align_le_base; lia).
  pose proof (fun H => brk_size_fits (PAGE_ALIGN (brk h)) b H Hb) as Hfit.
  pose proof (align_above_base b) as Hbig.
  pose proof (align_mono b (brk h)) as Hmono1. pose proof (align_mono (brk h) b) as Hmono2.
  set (lo := PAGE_ALIGN (brk h)) in *. set (hi := PAGE_ALIGN b) in *.
  destruct (Z.eqb_spec lo hi) as [Ee|Ee].
  { exists (set_brk h (h_mm h) b), b. split; [done|]. split; [done|]. split; [done|]. right.
    assert (b <= KERNEL_BASE) by (destruct (decide (b <= KERNEL_BASE)); [done|]; lia).
    split; [done|]. repeat split; try done; try (fold lo; fold hi); try lia;
      simpl; fold lo; fold hi; intros; intuition (lia || auto). }
  destruct (Z.ltb_spec b (brk h)) as [Hlt|Hge].
  - assert (Hsz : u32 (lo - hi) = lo - hi) by (apply u32_small; unfold KERNEL_BASE in *; lia).
    rewrite Hsz.
    assert (Asz : aligned (lo - hi)).
    { unfold aligned in *. rewrite Zminus_mod, Ao, An. done. }
    pose proof (do_munmap_ok [] (h_mm h) hi (lo - hi) Hl ltac:(unfold is_u32; lia)
      ltac:(unfold is_u32, KERNEL_BASE in *; lia)) as K.
    rewrite decide_True in K by (split; [done|lia]). cbv zeta in K. rewrite granted_nil in K.
    destruct K as (m' & -> & W & O & HM).
    exists (set_brk h m' b), b. split; [done|]. split; [done|]. split; [done|]. right. split; [done|].
    assert (EL : PAGE_ALIGN (lo - hi) = lo - hi).
    { apply Z.eqb_eq, page_aligned_true; [lia|done]. }
    rewrite EL in HM. replace (hi + (lo - hi)) with lo in HM by lia.
    do 5 (split; [done || lia|]). fold lo hi. split; [done|]. split; lia.
  - destruct (Z.gtb_spec (u32 (b - end_code h)) (rlim_data h)) as [Hr|Hr].
    { exists h, (- ENOMEM). split; [done|]. split; [done|]. split; [done|]. by left. }
    destruct (find_vma_intersection (mmap (h_mm h)) lo (u32 (hi + PAGE_SIZE))) eqn:Ef.
    { exists h, (- ENOMEM). split; [done|]. split; [done|]. split; [done|]. by left. }
    destruct (brk_grow (h_mm h) lo (u32 (hi - lo))) as (m' & r & -> & W & O & HM);
      [done|lia|done|apply u32_range| |].
    { unfold aligned, u32 in *. rewrite Z.mod_mod_divide by (by exists (2 ^ 20)).
      rewrite Zminus_mod, Ao, An. done. }
    destruct HM as [[Hr0 ->]|(-> & HK & HM)].
    { rewrite s32_small by lia. rewrite (proj2 (Z.ltb_lt _ _)) by lia. exists h, r.
      split; [by destruct h|]. split; [done|]. split; [done|]. by left. }
    destruct (Hfit ltac:(lia)) as [HbK Hu]; [lia|done|]. rewrite Hu in HK, HM.
    replace (lo + (hi - lo)) with hi in * by lia.
    rewrite s32_small by (unfold KERNEL_BASE in *; lia).
    rewrite (proj2 (Z.ltb_ge _ _)) by lia.
    rewrite u32_small in Ef by (unfold KERNEL_BASE, PAGE_SIZE in *; lia).
    pose proof (find_vma_intersection_none _ _ _ Hl Ef) as Hno.
    assert (Hfree : forall x, lo <= x < hi + PAGE_SIZE -> ~ mapped (mmap (h_mm h)) x).
    { intros x Hx (v & Hv & Hcv). apply (Hno v Hv). unfold overlaps, covers in *. lia. }
    exists (set_brk h m' b), b. split; [done|]. split; [done|]. split; [done|]. right. split; [done|].
    do 5 (split; [done || lia|]). fold lo hi. split; [lia|]. split.
    + intros _ x a. unfold set_brk. cbn [h_mm]. rewrite HM. split; [tauto|]. intros [?|Hx]; [by left|].
      right. split; [done|]. intros Hr1. apply (Hfree x); [unfold PAGE_SIZE; lia|].
      apply maps_mapped. eauto.
    + intros _. split; [|done]. rewrite u32_small in Hr by (unfold KERNEL_BASE in *; lia). lia.
Qed.

Lemma mprotect_loop_map start stop prot l : wf l ->
  mprotect_loop start stop prot l = map (fun v => if decide (overlaps start stop v) then protect prot v else v) l.
Proof.
  induction l as [|v l IH]; intros Hl; [done|]. simpl.
  apply wf_cons_inv in Hl as (Hv & Hl & Hb). unfold overlaps.
  destruct (Z.geb_spec (vm_start v) stop).
  - rewrite decide_False by (simpl; lia). f_equal. clear IH. symmetry.
    rewrite <- (map_id l) at 2. apply map_ext_in. intros w Hw%list_elem_of_In.
    specialize (Hb _ Hw). unfold before in Hb. rewrite decide_False; [done|]. destruct Hv. lia.
  - rewrite IH by done. f_equal. destruct (Z.leb_spec (vm_end v) start).
    + by rewrite decide_False by lia.
    + by rewrite decide_True by lia.
Qed.

Lemma wf_map l f : (forall v, vm_start (f v) = vm_start v /\ vm_end (f v) = vm_end v) ->
  wf l -> wf (map f l).
Proof.
  intros Hf. induction l as [|v l IH]; intros Hl; [apply wf_nil|].
  apply wf_cons_inv in Hl as (Hv & Hl & Hb). simpl. destruct (Hf v) as [E1 E2].
  apply wf_cons; [destruct Hv; split; rewrite ?E1, ?E2; done|by apply IH|].
  intros w (u & -> & Hu)%list_elem_of_fmap. destruct (Hf u) as [E3 E4]. specialize (Hb u Hu).
  unfold before in *. lia.
Qed.

Lemma nrefs_map l f q : (forall v, vma_ref (f v) = vma_ref v) -> nrefs (map f l) q = nrefs l q.
Proof. intros Hf. induction l as [|v l IH]; [done|]. simpl. unfold owns. by rewrite Hf, IH. Qed.

(** The areas [sys_msync] writes back. *)
Definition syncable (can_sync : vma -> bool) (v : vma) : Prop :=
  can_sync v = true /\ Z.land (vm_flags v) VM_SHARED <> 0 /\ Z.land (vm_flags v) VM_WRITE <> 0.

Lemma syncable_spec cs v :
  cs v && negb (Z.land (vm_flags v) VM_SHARED =? 0) && negb (Z.land (vm_flags v) VM_WRITE =? 0) = true <->
  syncable cs v.
Proof. unfold syncable. rewrite !andb_true_iff, !negb_true_iff, !Z.eqb_neq. tauto. Qed.

Definition in_call (c : vma * Z * Z) (x : Z) : Prop :=
  c.1.2 <= x < c.1.2 + c.2 /\ covers c.1.1 x.

Definition msync_spec (cs : vma -> bool) (l : list vma) (cursor stop : Z)
  (calls : list (vma * Z * Z)) (r : Z) : Prop :=
  (r = 0 /\ (forall x, cursor <= x < stop -> mapped l x) /\
   (forall v x, v ∈ l -> covers v x -> cursor <= x < stop -> syncable cs v ->
      exists c, c ∈ calls /\ c.1.1 = v /\ in_call c x) \/
   r = - ENOMEM /\ exists x, cursor <= x < stop /\ ~ mapped l x) /\
  (forall c, c ∈ calls -> syncable cs c.1.1 /\ c.1.1 ∈ l /\
     forall x, c.1.2 <= x < c.1.2 + c.2 -> cursor <= x < stop /\ covers c.1.1 x).

Lemma msync_spec_nil cs l cursor stop : (forall w, w ∈ l -> stop <= vm_start w) ->
  msync_spec cs l cursor stop [] (if cursor <? stop then - ENOMEM else 0).
Proof.
  intros Hl. split; [|by intros c ?%not_elem_of_nil].
  destruct (Z.ltb_spec cursor stop).
  - right. split; [done|]. exists cursor. split; [lia|]. intros (v & Hv & Hc).
    specialize (Hl v Hv). unfold covers in Hc. lia.
  - left. split; [done|]. split; [lia|]. intros; lia.
Qed.

Lemma mapped_cons v l x : mapped (v :: l) x <-> covers v x \/ mapped l x.
Proof. unfold mapped. setoid_rewrite elem_of_cons. naive_solver. Qed.

Lemma find_from_ok l addr : wf l -> exists pre, l = pre ++ find_vma_from l addr /\
  wf (find_vma_from l addr) /\ (forall v, v ∈ pre -> vm_end v <= addr) /\
  (forall v, v ∈ find_vma_from l addr -> addr < vm_end v).
Proof.
  induction l as [|v l IH]; intros Hl; simpl.
  { exists []. split; [done|]. split; [done|]. split; by intros ? ?%not_elem_of_nil. }
  pose proof Hl as Hl0. apply wf_cons_inv in Hl as (Hv & Hl & Hb).
  destruct (Z.gtb_spec (vm_end v) addr).
  - exists []. split; [done|]. split; [done|]. split; [by intros ? ?%not_elem_of_nil|].
    intros w [->|Hw]%elem_of_cons; [lia|]. specialize (Hb w Hw). unfold before in Hb.
    pose proof (vo_ne _ (wf_elem _ _ Hl Hw)). lia.
  - destruct (IH Hl) as (pre & E & Hw & Hp & Hg). exists (v :: pre). split; [simpl; by rewrite <- E|].
    split; [done|]. split; [|done]. intros w [->|Hin]%elem_of_cons; [lia|by apply Hp].
Qed.

(** One more area in front, from [cursor] on. *)
Lemma msync_spec_cons cs v l cursor stop more r b :
  (b = true <-> syncable cs v) -> wf (v :: l) -> vm_start v <= cursor < vm_end v -> cursor < stop ->
  msync_spec cs l (vm_end v) stop more r ->
  msync_spec cs (v :: l) cursor stop
    ((if b then [(v, cursor, Z.min stop (vm_end v) - cursor)] else []) ++ more) r.
Proof.
  intros Hsy (Hv & Hl & Hb)%wf_cons_inv Hc Hcs [Hr Hcalls].
  split.
  - destruct Hr as [(-> & Hm & Hall)|(-> & x & Hx & Hn)].
    + left. split; [done|]. split.
      * intros x Hx. rewrite mapped_cons. unfold covers.
        destruct (decide (x < vm_end v)); [left; lia|right; apply Hm; lia].
      * intros w x [->|Hw]%elem_of_cons Hcv Hx Hs.
        -- exists (v, cursor, Z.min stop (vm_end v) - cursor). rewrite (proj2 Hsy Hs). unfold in_call, covers in *.
           split; [by left|]. simpl. split; [done|]. lia.
        -- assert (vm_end v <= x) by (specialize (Hb w Hw); unfold before, covers in *; lia).
           destruct (Hall w x Hw Hcv ltac:(lia) Hs) as (c & Hce & ?). exists c.
           split; [by apply elem_of_app; right|done].
    + right. split; [done|]. exists x. split; [lia|]. rewrite mapped_cons. intros [Hcv|?]; [|done].
      unfold covers in Hcv. lia.
  - intros c [Hin1|Hin1]%elem_of_app.
    + destruct b; [|by apply not_elem_of_nil in Hin1]. apply list_elem_of_singleton in Hin1 as ->.
      simpl. split; [by apply Hsy|]. split; [left|]. intros x Hx. unfold covers. lia.
    + destruct (Hcalls c Hin1) as (? & ? & Hx). split; [done|]. split; [by right|].
      intros x Hxx. specialize (Hx x Hxx) as [? ?]. split; [lia|done].
Qed.

(** Areas below [cursor] in front change nothing. *)
Lemma msync_spec_app cs pre l cursor stop calls r :
  (forall v, v ∈ pre -> vm_end v <= cursor) -> msync_spec cs l cursor stop calls r ->
  msync_spec cs (pre ++ l) cursor stop calls r.
Proof.
  intros Hpre [Hr Hcalls].
  assert (Hm : forall x, cursor <= x -> mapped (pre ++ l) x <-> mapped l x).
  { intros x Hx. unfold mapped. setoid_rewrite elem_of_app. split; [|naive_solver].
    intros (v & [Hv|Hv] & Hc); [|eauto]. specialize (Hpre v Hv). unfold covers in Hc. lia. }
  split.
  - destruct Hr as [(-> & H1 & H2)|(-> & x & Hx & Hn)].
    + left. split; [done|]. split; [intros x Hx; apply Hm; [lia|auto]|].
      intros v x [Hv|Hv]%elem_of_app Hc Hx Hs; [|eauto]. specialize (Hpre v Hv). unfold covers in Hc. lia.
    + right. split; [done|]. exists x. split; [done|]. by rewrite Hm by lia.
  - intros c Hc. destruct (Hcalls c Hc) as (? & ? & ?). split; [done|]. split; [|done].
    apply elem_of_app. by right.
Qed.

Lemma msync_loop_ok cs l cursor stop : wf l -> 0 <= cursor -> stop <= KERNEL_BASE ->
  (forall w, w ∈ l -> cursor < vm_end w /\ (cursor < stop \/ cursor <= vm_start w)) ->
  msync_spec cs l cursor stop (msync_loop cs stop cursor l).1 (msync_loop cs stop cursor l).2.
Proof.
  revert cursor. induction l as [|v l IH]; intros cursor Hl Hc Hs Hend; simpl.
  { apply msync_spec_nil. by intros w ?%not_elem_of_nil. }
  pose proof Hl as Hl0. apply wf_cons_inv in Hl as (Hv & Hl & Hb). pose proof Hv as [].
  destruct (Z.ltb_spec (vm_start v) stop) as [Hlt|Hge].
  2: { apply msync_spec_nil. intros w [->|Hw]%elem_of_cons; [lia|]. specialize (Hb _ Hw).
       unfold before in Hb. lia. }
  destruct (Z.gtb_spec (vm_start v) cursor) as [Hgt|Hle].
  { split; [|by intros c ?%not_elem_of_nil]. right. split; [done|]. exists cursor. split; [lia|].
    intros (w & [->|Hw]%elem_of_cons & Hcv); unfold covers in Hcv; [lia|]. specialize (Hb _ Hw).
    unfold before in Hb. lia. }
  destruct (Hend v) as [Hcv Hcs]; [left|]. assert (Hcs' : cursor < stop) by lia. clear Hcs.
  rewrite (Z.max_l cursor (vm_start v)), (Z.max_r cursor (vm_end v)) by lia.
  rewrite (u32_small (Z.min stop (vm_end v) - cursor)) by (unfold KERNEL_BASE in *; lia).
  destruct (IH (vm_end v) Hl) as [Hr Hcalls]; [lia|done| |].
  { intros w Hw. specialize (Hb w Hw). unfold before in Hb.
    pose proof (vo_ne _ (wf_elem _ _ Hl Hw)). lia. }
  destruct (msync_loop cs stop (vm_end v) l) as [more r]. cbn [fst snd] in *.
  apply msync_spec_cons; [apply syncable_spec|done|lia|done|done].
Qed.

Lemma foldl_put_ref l m : mmap (foldl put_ref m l) = mmap m /\
  forall q, refs (foldl put_ref m l) q = refs m q - nrefs l q.
Proof.
  revert m. induction l as [|v l IH]; intros m; simpl; [split; [done|intros; lia]|].
  destruct (IH (put_ref m v)) as [-> Hr]. unfold put_ref at 1. rewrite mmap_ref_add. split; [done|].
  intros q. rewrite Hr. unfold put_ref. rewrite refs_ref_add. lia.
Qed.

Lemma exit_mmap_ok m : mmap (exit_mmap m) = [] /\ forall q, refs (exit_mmap m) q = others m q.
Proof. unfold exit_mmap, others. destruct (foldl_put_ref (mmap m) (set_mmap m [])) as [-> Hr]. done. Qed.

Lemma dup_loop_ok ks l child : let '(c, e) := dup_loop ks l child in
  (e = 0 /\ mmap c = mmap child ++ l /\ forall q, others c q = others child q) \/
  (e = - ENOMEM /\ (exists n, ks n = false) /\ mmap c = [] /\ forall q, others c q = others child q).
Proof.
  revert child. induction l as [|v l IH]; intros child; simpl; [left; by rewrite app_nil_r|].
  destruct (ks (length (mmap child))) eqn:E.
  - specialize (IH (set_mmap (get_ref child v) (mmap child ++ [v]))).
    destruct (dup_loop ks l _) as [c e].
    assert (Ho : forall q, others (set_mmap (get_ref child v) (mmap child ++ [v])) q = others child q).
    { intros q. unfold others, set_mmap, get_ref. cbn [refs mmap]. rewrite refs_ref_add, nrefs_app. simpl. lia. }
    destruct IH as [(-> & -> & H)|(-> & ? & -> & H)]; [left|right].
    + simpl. rewrite <- app_assoc. split; [done|]. split; [done|]. intros q. by rewrite H.
    + split; [done|]. split; [done|]. split; [done|]. intros q. by rewrite H.
  - right. destruct (exit_mmap_ok child) as [-> Hr]. split; [done|]. split; [by eexists|]. split; [done|].
    intros q. unfold others at 1. rewrite Hr. destruct (exit_mmap_ok child) as [-> _]. simpl. lia.
Qed.

(** ** The properties of the system calls *)

(** C13: [do_munmap] rejects exactly the unaligned and the out-of-range requests,
    without a change.  Otherwise it needs memory for one new area at each side
    of the range on which it leaves a part of an area ([munmap_needs]).  When
    the answers of [kmalloc] grant it, it removes exactly the addresses of the
    pages of the range, keeps flags, files and offsets of every other address,
    keeps the list sorted and disjoint, and leaves every reference count equal to
    the references of the areas plus the foreign ones; when one of them does not,
    the assertion on it stops the machine, and no other assertion can fail. *)
Theorem do_munmap_exact ks m addr len : wf (mmap m) -> is_u32 addr -> is_u32 len ->
  if decide (aligned addr /\ addr + len <= KERNEL_BASE) then
    let n := munmap_needs m addr len in
    if granted n ks then exists m', do_munmap ks m addr len = Some (m', 0, drop n ks) /\ wf (mmap m') /\
      (forall q, others m' q = others m q) /\
      forall x a, maps (mmap m') x a <-> maps (mmap m) x a /\ ~ (addr <= x < addr + PAGE_ALIGN len)
    else do_munmap ks m addr len = None
  else do_munmap ks m addr len = Some (m, - EINVAL, ks).
Proof. apply do_munmap_ok. Qed.

(** C10: [do_mmap]: on success the returned range is page-aligned user memory that
    maps exactly to the requested attributes, at the requested address with
    [MAP_FIXED] and in a former gap without, and every other address keeps its
    mapping; an error changes nothing, except that a failing file hook after
    [MAP_FIXED] leaves the range unmapped; the list stays well formed and the
    reference counts exact.  Without memory for the area itself nothing
    changes; an assertion fails exactly when there is memory for it and, with
    [MAP_FIXED], not for the pieces of the areas that it cuts. *)
Theorem do_mmap_exact ks fd_file m addr len prot flags fd off :
  wf (mmap m) -> is_u32 addr -> is_u32 len -> hook_errors (fd_file fd) ->
  match do_mmap ks fd_file m addr len prot flags fd off with
  | Some (m', r) => wf (mmap m') /\ (forall q, others m' q = others m q) /\
      mapped_as m m' r addr (PAGE_ALIGN len) prot flags off (mmap_file fd_file flags fd) /\
      (0 <= r -> mmap_granted ks m addr (PAGE_ALIGN len) flags = true) /\ (answer ks = false -> m' = m)
  | None => Z.land flags MAP_FIXED <> 0 /\ answer ks = true /\
      mmap_granted ks m addr (PAGE_ALIGN len) flags = false
  end.
Proof. apply do_mmap_ok. Qed.

(** [get_unmapped_area] returns an aligned address at or above the hint
    whose range is unmapped user space, and returns 0 only when there is no
    such address. *)
Theorem get_unmapped_area_complete l addr len :
  wf l -> 0 <= addr <= KERNEL_BASE -> 0 < len <= KERNEL_BASE ->
  let r := get_unmapped_area l addr len in
  (r = 0 <-> forall a, search_base addr <= a -> a + len <= KERNEL_BASE ->
                exists x, a <= x < a + len /\ mapped l x) /\
  (r <> 0 -> search_base addr <= r /\ r + len <= KERNEL_BASE /\ aligned r /\
             forall x, r <= x < r + len -> ~ mapped l x).
Proof.
  intros Hl Ha Hn r. pose proof (get_unmapped_area_ok l addr len Hl Ha Hn) as H. fold r in H.
  clearbody r. destruct H as [[-> H0]|(H1 & H2 & H3 & H4 & H5)].
  - split; [|done]. split; [|done]. intros _ a Hs Hk.
    destruct (decide (Exists (overlaps a (a + len)) l)) as [He|He].
    + apply Exists_exists in He as (v & Hv & Ho1 & Ho2). pose proof (vo_ne _ (wf_elem _ _ Hl Hv)).
      exists (Z.max a (vm_start v)). split; [lia|]. exists v. unfold covers. split; [done|lia].
    + destruct (H0 a Hs Hk). intros v Hv Ho. apply He, Exists_exists. eauto.
  - pose proof (proj1 (gap_unmapped l r len Hl ltac:(lia)) H5) as Hfree. split; [|done].
    split; [lia|]. intros Hx. destruct (Hx r H2 H3) as (x & ? & ?). by destruct (Hfree x).
Qed.

(** [sys_brk] at or above [start_brk], when memory is found, fails no assertion; it either
    returns an error and changes nothing, or moves the end of the heap: the
    pages between the old and the new break are unmapped, or mapped as fresh
    heap memory after a check of the limit and of a free guard page above. *)
Theorem sys_brk_moves_heap h b : wf (mmap (h_mm h)) -> 0 < start_brk h <= brk h -> brk h <= KERNEL_BASE ->
  is_u32 b -> 0 <= end_code h <= start_brk h -> start_brk h <= b ->
  exists h' r, sys_brk [] h b = Some (h', r) /\ wf (mmap (h_mm h')) /\
    (forall q, others (h_mm h') q = others (h_mm h) q) /\
    (- 4096 < r < 0 /\ h' = h \/ r = b /\ brk_moved h h' b).
Proof. intros. by apply sys_brk_ok. Qed.

(** [sys_brk] with a nonzero address below the start of the heap, which
    any program can pass, fails the assertion that stops the machine. *)
Theorem sys_brk_below_start_panics ks h b : b <> 0 -> b < start_brk h -> sys_brk ks h b = None.
Proof.
  intros H0 Hb. unfold sys_brk. rewrite (proj2 (Z.eqb_neq _ _) H0).
  destruct (Z.geb_spec b (start_brk h)); [lia|done].
Qed.

(** [sys_mprotect] keeps the list well formed and the references, and gives
    the new protection to exactly the areas that overlap the pages from the one
    of [addr] on. *)
Theorem sys_mprotect_areas m addr len prot : wf (mmap m) -> is_u32 addr -> is_u32 len ->
  addr + len <= KERNEL_BASE ->
  let '(m', r) := sys_mprotect m addr len prot in
  let start := addr - addr mod 4096 in
  r = 0 /\ wf (mmap m') /\ (forall q, others m' q = others m q) /\
  mmap m' = map (fun v => if decide (overlaps start (start + PAGE_ALIGN len) v /\ PAGE_ALIGN len <> 0)
                          then protect (Z.land prot VM_PROT) v else v) (mmap m).
Proof.
  intros Hl Ha Hn Hk. unfold is_u32 in *. unfold sys_mprotect.
  assert (E : u32 (KERNEL_BASE - addr) = KERNEL_BASE - addr)
    by (apply u32_small; unfold KERNEL_BASE in *; lia).
  rewrite E. destruct (Z.gtb_spec addr KERNEL_BASE), (Z.gtb_spec len (KERNEL_BASE - addr)); simpl; try lia.
  destruct (Z.eqb_spec (PAGE_ALIGN len) 0) as [E0|E0]; simpl.
  { repeat split; try apply Hl. symmetry. rewrite <- (map_id (mmap m)) at 2. apply map_ext.
    intros v. by rewrite decide_False by tauto. }
  rewrite land_page_mask by lia. pose proof (Z.mod_pos_bound addr 4096 ltac:(lia)).
  pose proof (Z.mod_le addr 4096 ltac:(lia) ltac:(lia)).
  destruct (PAGE_ALIGN_spec len) as [? ?]; [unfold KERNEL_BASE in *; lia|].
  rewrite u32_small by (unfold KERNEL_BASE in *; lia). rewrite mprotect_loop_map by done.
  split; [done|]. split; [|split].
  - apply wf_map; [|done]. intros v. by case_decide.
  - intros q. unfold others. simpl. f_equal. apply nrefs_map. intros v. by case_decide.
  - apply map_ext. intros v. apply decide_ext. split; [by split|by intros []].
Qed.

(** [sys_msync] on a valid request succeeds exactly when the range is
    fully mapped; the ranges it writes back lie in the request and in shared
    writable areas, and on success they cover every such address of it. *)
Theorem sys_msync_complete cs l addr len flags : wf l -> is_u32 addr -> is_u32 len ->
  aligned addr -> addr + len <= KERNEL_BASE -> 0 < len ->
  flags ∈ [0; MS_ASYNC; MS_SYNC; MS_INVALIDATE; MS_ASYNC + MS_INVALIDATE; MS_SYNC + MS_INVALIDATE] ->
  let '(calls, r) := sys_msync cs l addr len flags in
  msync_spec cs l addr (addr + PAGE_ALIGN len) calls r.
Proof.
  intros Hl Ha Hn Aa Hk Hlen Hf. unfold is_u32 in *. unfold sys_msync. rewrite page_offset_mod.
  unfold aligned in Aa. rewrite Aa. cbn [Z.eqb negb].
  assert (E : u32 (KERNEL_BASE - addr) = KERNEL_BASE - addr)
    by (apply u32_small; unfold KERNEL_BASE in *; lia).
  rewrite E. destruct (Z.gtb_spec addr KERNEL_BASE), (Z.gtb_spec len (KERNEL_BASE - addr)); cbn [orb]; try lia.
  assert (Hfl : negb (Z.ldiff flags (Z.lor (Z.lor MS_ASYNC MS_INVALIDATE) MS_SYNC) =? 0) ||
    negb (Z.land flags MS_SYNC =? 0) && negb (Z.land flags MS_ASYNC =? 0) = false).
  { rewrite !elem_of_cons, elem_of_nil in Hf. unfold MS_ASYNC, MS_SYNC, MS_INVALIDATE in *.
    destruct Hf as [->|[->|[->|[->|[->|[->|[]]]]]]]; reflexivity. }
  rewrite Hfl. destruct (Z.eqb_spec len 0); [lia|].
  destruct (PAGE_ALIGN_spec len) as [? AL]; [unfold KERNEL_BASE in *; lia|].
  assert (addr + PAGE_ALIGN len <= KERNEL_BASE).
  { unfold KERNEL_BASE, aligned in *. apply Z.mod_divide in Aa as [i ->]; [|lia].
    apply Z.mod_divide in AL as [j Ej]; [|lia]. lia. }
  rewrite u32_small by (unfold KERNEL_BASE in *; lia).
  destruct (find_from_ok l addr Hl) as (pre & El & Hl' & Hpre & Hgt).
  pose proof (msync_loop_ok cs (find_vma_from l addr) addr (addr + PAGE_ALIGN len)) as HL.
  destruct (msync_loop cs (addr + PAGE_ALIGN len) addr (find_vma_from l addr)) as [calls r].
  rewrite El. apply msync_spec_app; [done|]. apply HL; [done|lia|done|].
  intros w Hw. split; [by apply Hgt|lia].
Qed.

(** [dup_mmap] gives the child a copy of the list with one reference more
    per area, or on a failed allocation an empty list and the original
    reference counts; in either case [exit_mmap] of the child restores the
    reference counts of before. *)
Theorem dup_mmap_then_exit ks m :
  let '(c, e) := dup_mmap ks m in
  ((e = 0 /\ mmap c = mmap m /\ forall q, refs c q = refs m q + nrefs (mmap m) q) \/
   (e = - ENOMEM /\ (exists n, ks n = false) /\ mmap c = [] /\ forall q, refs c q = refs m q)) /\
  mmap (exit_mmap c) = [] /\ forall q, refs (exit_mmap c) q = refs m q.
Proof.
  unfold dup_mmap. pose proof (dup_loop_ok ks (mmap m) (mkmm [] (refs m))) as H.
  destruct (dup_loop ks (mmap m) _) as [c e]. destruct (exit_mmap_ok c) as [E1 E2].
  destruct H as [(-> & Hm & Ho)|(-> & Hk & Hm & Ho)]; (split; [|split; [done|]]).
  - left. split; [done|]. split; [done|]. intros q. specialize (Ho q). unfold others in Ho.
    rewrite Hm in Ho. simpl in Ho. lia.
  - intros q. rewrite E2, Ho. unfold others. simpl. lia.
  - right. split; [done|]. split; [done|]. split; [done|]. intros q. specialize (Ho q). unfold others in Ho.
    rewrite Hm in Ho. simpl in Ho. lia.
  - intros q. rewrite E2, Ho. unfold others. simpl. lia.
Qed.

(** ** Concrete instances *)

(** Code from file 1, a shared mapping of file 2, and anonymous memory. *)
Definition ex_list : list vma :=
  [ mkvma 0x1000 0x4000 (VM_READ + VM_EXEC) 5 0x2000 (Some 1%nat) (Some 7%nat);
    mkvma 0x6000 0x8000 (VM_READ + VM_WRITE + VM_SHARED) 7 0 (Some 2%nat) (Some 8%nat);
    mkvma 0x8000 0x9000 (VM_READ + VM_WRITE) 7 0 None None ].
Definition ex_mm : mm := mkmm ex_list (fun _ => 3).

Lemma ex_wf : wf ex_list.
Proof.
  unfold ex_list. repeat (apply wf_cons; [split; vm_compute; (done || discriminate || idtac)| |]);
    try apply wf_nil.
  all: intros w Hw; rewrite ?elem_of_cons, ?elem_of_nil in Hw; destruct_or?; subst; try done; unfold before; simpl; lia.
Qed.

(** A hole over the ends of two areas, made with the memory for both ends and
    without that for the second; a hole in the middle of one area likewise. *)
Lemma do_munmap_exact_witness : wf ex_list /\
  (exists m', do_munmap [] ex_mm 0x2000 0x4800 = Some (m', 0, []) /\ wf (mmap m') /\
    (forall q, others m' q = others ex_mm q)) /\
  do_munmap [true; false] ex_mm 0x2000 0x4800 = None /\
  (exists m', do_munmap [true; true; false] ex_mm 0x2000 0x1000 = Some (m', 0, [false]) /\ wf (mmap m')).
Proof.
  split; [exact ex_wf|].
  assert (U : forall x, 0 <= x < 2 ^ 32 -> is_u32 x) by done. split; [|split].
  - pose proof (do_munmap_exact [] ex_mm 0x2000 0x4800 ex_wf (U 0x2000 ltac:(lia)) (U 0x4800 ltac:(lia))) as H.
    rewrite decide_True in H by (split; [reflexivity|unfold KERNEL_BASE; lia]).
    destruct H as (m' & E & W & O & _). exists m'. done.
  - pose proof (do_munmap_exact [true; false] ex_mm 0x2000 0x4800 ex_wf (U 0x2000 ltac:(lia)) (U 0x4800 ltac:(lia))) as H.
    rewrite decide_True in H by (split; [reflexivity|unfold KERNEL_BASE; lia]). exact H.
  - pose proof (do_munmap_exact [true; true; false] ex_mm 0x2000 0x1000 ex_wf (U 0x2000 ltac:(lia)) (U 0x1000 ltac:(lia))) as H.
    rewrite decide_True in H by (split; [reflexivity|unfold KERNEL_BASE; lia]).
    destruct H as (m' & E & W & _). exists m'. done.
Defined.

(** A file over the start of an area; with memory, without any, and without
    memory for what is left of that area. *)
Definition ex_mmap (ks : list bool) : option (mm * Z) :=
  do_mmap ks (fun _ => Some (mkfile 9 9 3 (Some (fun _ => 0)))) ex_mm 0x5000 0x1001 3 (MAP_FIXED + MAP_SHARED) 4 0x1000.

Lemma ex_hook : hook_errors (Some (mkfile 9 9 3 (Some (fun _ => 0)))).
Proof. intros f hook fl [= <-] [= <-]. lia. Qed.

Lemma do_mmap_exact_witness :
  (exists m', ex_mmap [] = Some (m', 0x5000) /\ forall q, others m' q = others ex_mm q) /\
  snd <$> ex_mmap [false] = Some (- ENOMEM) /\ ex_mmap [true; false] = None.
Proof.
  assert (U : forall x, 0 <= x < 2 ^ 32 -> is_u32 x) by done.
  split; [|split; vm_compute; reflexivity].
  assert (E2 : snd <$> ex_mmap [] = Some 0x5000) by (vm_compute; reflexivity).
  pose proof (do_mmap_exact [] (fun _ => Some (mkfile 9 9 3 (Some (fun _ => 0)))) ex_mm
      0x5000 0x1001 3 (MAP_FIXED + MAP_SHARED) 4 0x1000 ex_wf (U 0x5000 ltac:(lia)) (U 0x1001 ltac:(lia)) ex_hook) as H.
  fold (ex_mmap []) in H. destruct (ex_mmap []) as [[m' r]|]; [|discriminate E2].
  injection E2 as ->. exists m'. split; [reflexivity|]. exact (proj1 (proj2 H)).
Defined.

Lemma get_unmapped_area_complete_witness :
  get_unmapped_area ex_list 0x3000 0x2000 = 0x4000 /\ (forall x, 0x4000 <= x < 0x6000 -> ~ mapped ex_list x).
Proof.
  split; [reflexivity|].
  destruct (get_unmapped_area_complete ex_list 0x3000 0x2000 ex_wf) as [_ H];
    [unfold KERNEL_BASE; lia..|].
  change (get_unmapped_area ex_list 0x3000 0x2000) with 0x4000 in H. by destruct H as (_ & _ & _ & H).
Defined.

Definition ex_heap : heap := mkheap ex_mm 0xa000 0xa800 0x4000 0x100000.

Lemma sys_brk_moves_heap_witness :
  exists h' r, sys_brk [] ex_heap 0xc123 = Some (h', r) /\ r = 0xc123 /\ wf (mmap (h_mm h')).
Proof.
  destruct (sys_brk_moves_heap ex_heap 0xc123 ex_wf) as (h' & r & E & W & _);
    [unfold is_u32, KERNEL_BASE; simpl; lia..|].
  exists h', r. split; [exact E|]. split; [|exact W].
  assert (E2 : snd <$> sys_brk [] ex_heap 0xc123 = Some 0xc123) by (vm_compute; reflexivity).
  rewrite E in E2. simpl in E2. congruence.
Defined.

Lemma sys_brk_below_start_panics_witness : sys_brk [] ex_heap 1 = None.
Proof. apply sys_brk_below_start_panics; [lia|simpl; lia]. Defined.

Lemma sys_mprotect_areas_witness :
  let '(m', r) := sys_mprotect ex_mm 0x6ffc 0x1000 1 in r = 0 /\ wf (mmap m').
Proof.
  pose proof (sys_mprotect_areas ex_mm 0x6ffc 0x1000 1 ex_wf) as H.
  destruct (sys_mprotect ex_mm 0x6ffc 0x1000 1) as [m' r].
  destruct H as (Hr & W & _); [unfold is_u32, KERNEL_BASE; lia..|]. split; [exact Hr|exact W].
Defined.

Lemma sys_msync_complete_witness :
  let '(calls, r) := sys_msync (fun _ => true) ex_list 0x7000 0x1800 MS_SYNC in
  msync_spec (fun _ => true) ex_list 0x7000 (0x7000 + PAGE_ALIGN 0x1800) calls r /\
  map (fun c => (c.1.2, c.2)) calls = [(0x7000, 0x1000)] /\ r = 0.
Proof.
  pose proof (sys_msync_complete (fun _ => true) ex_list 0x7000 0x1800 MS_SYNC ex_wf) as H.
  destruct (sys_msync (fun _ => true) ex_list 0x7000 0x1800 MS_SYNC) as [calls r] eqn:E.
  split; [apply H; try (unfold is_u32, KERNEL_BASE; lia); [reflexivity|]|].
  - rewrite !elem_of_cons. auto.
  - vm_compute in E. injection E as <- <-. by vm_compute.
Defined.

End Vma.
