(* ===== verification/Sched.v ===== *)
(** * The SMP scheduler ([kernel/sched.c], [kernel/fork.c], [kernel/exit.c])

    Run queues, task states and the current task of every CPU, with the
    operations that change them: [wake_up_process], [schedule] (with its
    migration of signalled sleepers), [sched_set_cpus_allowed], the time slice
    of the timer interrupt, [fork] and the state change of [send_sig].  Each
    operation runs under [scheduler_lock], so a run of the machine is a sequence
    of steps; what happens between two steps is arbitrary code. *)
From S2P Require Import Prelude.
From Stdlib Require Import FunctionalExtensionality.

Module Sched.

(** ** Data *)

Definition TASK_RUNNING : Z := 0.
Definition TASK_INTERRUPTIBLE : Z := 1.
Definition TASK_UNINTERRUPTIBLE : Z := 2.
Definition TASK_ZOMBIE : Z := 4.
Definition TASK_STOPPED : Z := 8.
Definition DEF_COUNTER : Z := 10.
Definition NR_CPUS : nat := 8.

(** A task: the idle task of a CPU, or one of the task list. *)
Inductive tid := Idle (cpu : nat) | Task (n : nat).

#[export] Instance tid_eq_dec : EqDecision tid.
Proof. solve_decision. Defined.

Definition smp_idle_task (cpu : nat) : tid := Idle cpu.

(** The fields of [task_struct] the scheduler uses, the run queues and
    [cpu_info[].current_task].  [pending] is [signal_pending]. *)
Record sched := mksched {
  tasks : list tid;
  state : tid -> Z;
  counter : tid -> Z;
  cpu : tid -> nat;
  cpus_allowed : tid -> Z;
  pending : tid -> bool;
  runqueue : nat -> list tid;
  cur : nat -> tid;
}.

Definition set_state (s : sched) (p : tid) (v : Z) : sched :=
  mksched (tasks s) (<[p := v]> (state s)) (counter s) (cpu s) (cpus_allowed s) (pending s) (runqueue s) (cur s).
Definition set_counter (s : sched) (f : tid -> Z) : sched :=
  mksched (tasks s) (state s) f (cpu s) (cpus_allowed s) (pending s) (runqueue s) (cur s).
Definition set_cpu (s : sched) (p : tid) (c : nat) : sched :=
  mksched (tasks s) (state s) (counter s) (<[p := c]> (cpu s)) (cpus_allowed s) (pending s) (runqueue s) (cur s).
Definition set_allowed (s : sched) (p : tid) (m : Z) : sched :=
  mksched (tasks s) (state s) (counter s) (cpu s) (<[p := m]> (cpus_allowed s)) (pending s) (runqueue s) (cur s).
Definition set_pending (s : sched) (p : tid) (b : bool) : sched :=
  mksched (tasks s) (state s) (counter s) (cpu s) (cpus_allowed s) (<[p := b]> (pending s)) (runqueue s) (cur s).
Definition set_rq (s : sched) (f : nat -> list tid) : sched :=
  mksched (tasks s) (state s) (counter s) (cpu s) (cpus_allowed s) (pending s) f (cur s).
Definition set_cur (s : sched) (c : nat) (p : tid) : sched :=
  mksched (tasks s) (state s) (counter s) (cpu s) (cpus_allowed s) (pending s) (runqueue s) (<[c := p]> (cur s)).

Section sched.
(** [nr_cpu_ids] and [online_cpu_mask ()]. *)
Context (nr_cpu_ids : nat) (online : Z).

(** ** Run queues *)

(** [p->run_list.next != NULL]: the task is linked somewhere. *)
Definition task_on_runqueue (s : sched) (p : tid) : bool :=
  existsb (fun c => bool_decide (p ∈ runqueue s c)) (seq 0 nr_cpu_ids).

Definition enqueue_task (s : sched) (c : nat) (p : tid) : sched :=
  set_rq s (<[c := runqueue s c ++ [p]]> (runqueue s)).

Definition dequeue_task (s : sched) (p : tid) : sched :=
  set_rq s (fun c => filter (fun q => q <> p) (runqueue s c)).

(** [select_task_cpu]: the shortest queue among the allowed CPUs; no best CPU
    (-1 in the code) is [None]. *)
Definition select_step (s : sched) (allowed : Z) (b : option nat * Z) (c : nat) : option nat * Z :=
  if negb (Z.testbit allowed (Z.of_nat c)) then b else
  let len := zlength (runqueue s c) in
  if len <? b.2 then (Some c, len) else b.

Definition select_task_cpu (s : sched) (p : tid) : nat :=
  let allowed := Z.land (cpus_allowed s p) online in
  let allowed := if allowed =? 0 then 1 else allowed in
  match (foldl (select_step s allowed) (None, Z.of_nat NR_CPUS + 1) (seq 0 nr_cpu_ids)).1 with
  | Some c => c
  | None => cpu s p
  end.

Definition wake_up_process (s : sched) (p : tid) : sched :=
  if negb (state s p =? TASK_RUNNING) then
    let s1 := set_state s p TASK_RUNNING in
    if task_on_runqueue s1 p then s1 else enqueue_task s1 (cpu s1 p) p
  else if task_on_runqueue s p then s else enqueue_task s (cpu s p) p.

(** ** [schedule] *)

(** The outgoing task. *)
Definition resolve_current (s : sched) (me idle : tid) : sched :=
  if negb (state s me =? TASK_RUNNING) && bool_decide (me <> idle) then
    if (state s me =? TASK_INTERRUPTIBLE) && pending s me then set_state s me TASK_RUNNING
    else if task_on_runqueue s me then dequeue_task s me else s
  else s.

(** The scan for sleeping tasks with a pending signal. *)
Definition wake_signalled (me : tid) (s : sched) (p : tid) : sched :=
  if bool_decide (p = me) || negb (state s p =? TASK_INTERRUPTIBLE) || negb (pending s p) then s else
  let s1 := set_state s p TASK_RUNNING in
  if task_on_runqueue s1 p then s1 else
  let target := select_task_cpu s1 p in
  enqueue_task (set_cpu s1 p target) target p.

(** The second look at the outgoing task. *)
Definition recheck_current (s : sched) (c : nat) (me : tid) : sched :=
  if (state s me =? TASK_INTERRUPTIBLE) && pending s me then
    let s1 := set_state s me TASK_RUNNING in
    if task_on_runqueue s1 me then s1 else enqueue_task s1 c me
  else s.

Definition pick_step (s : sched) (b : tid * Z) (p : tid) : tid * Z :=
  if counter s p >? b.2 then (p, counter s p) else b.

Definition pick_next (s : sched) (idle : tid) (rq : list tid) : tid * Z :=
  foldl (pick_step s) (idle, -100) rq.

Definition refill (s : sched) : sched :=
  set_counter s (fun p => if bool_decide (p ∈ tasks s) then DEF_COUNTER else counter s p).

(** [schedule] on the CPU [k]; [late] says that a signal for the outgoing task
    arrives during the scan.  [None]: the assertion of [_switch_to] fails. *)
Definition schedule (s : sched) (k : nat) (late : bool) : option sched :=
  let me := cur s k in
  let c := cpu s me in
  let idle := smp_idle_task c in
  let s1 := resolve_current s me idle in
  let s2 := foldl (wake_signalled me) s1 (tasks s1) in
  let s3 := if late then set_pending s2 me true else s2 in
  let s4 := recheck_current s3 c me in
  let '(next, best) := pick_next s4 idle (runqueue s4 c) in
  let s5 := if best =? 0 then refill s4 else s4 in
  if bool_decide (next = me) then Some s5 else
  let s6 := set_cur s5 (cpu s5 next) next in
  assert! bool_decide (cur s6 k = next) ;; Some s6.

(** ** Other operations *)

(** [sched_set_cpus_allowed], called on the CPU [k]. *)
Definition sched_set_cpus_allowed (s : sched) (k : nat) (p : tid) (mask : Z) : sched * Z :=
  let allowed := Z.land mask online in
  if allowed =? 0 then (s, - EINVAL) else
  if bool_decide (p = cur s k) && negb (Z.testbit allowed (Z.of_nat (cpu s p))) then (s, - EINVAL) else
  let s1 := set_allowed s p allowed in
  if negb (Z.testbit allowed (Z.of_nat (cpu s p))) && negb (state s p =? TASK_RUNNING) then
    match list_find (fun c => Z.testbit allowed (Z.of_nat c)) (seq 0 nr_cpu_ids) with
    | Some (_, c) => (set_cpu s1 p c, 0)
    | None => (s1, 0)
    end
  else (s1, 0).

(** The time slice of the task that runs on [k] ([do_timer]). *)
Definition tick (s : sched) (k : nat) : sched :=
  let p := cur s k in
  if counter s p >? 0 then set_counter s (<[p := counter s p - 1]> (counter s)) else s.

(** The scheduling fields of the child in [do_fork], and its wake-up. *)
Definition fork_task (s : sched) (k : nat) (p : tid) : sched :=
  let me := cur s k in
  let s1 := mksched (tasks s ++ [p]) (<[p := TASK_UNINTERRUPTIBLE]> (state s))
              (<[me := Z.shiftr (counter s me) 1]> (<[p := Z.shiftr (counter s me + 1) 1]> (counter s)))
              (<[p := cpu s me]> (cpu s)) (<[p := online]> (cpus_allowed s)) (<[p := false]> (pending s))
              (runqueue s) (cur s) in
  wake_up_process s1 p.

(** The state change of [send_sig] for [SIGKILL] and [SIGCONT]. *)
Definition send_sig_continue (s : sched) (p : tid) : sched :=
  if state s p =? TASK_STOPPED then set_state s p TASK_RUNNING else s.

(** ** The invariant *)

Definition is_task (p : tid) : Prop := match p with Idle _ => False | Task _ => True end.

(** [core s]: every queued task is a runnable task of the list, queued once, on
    the queue of its CPU. *)
Record core (s : sched) : Prop := {
  c_nodup : forall c, NoDup (runqueue s c);
  c_queued : forall c p, p ∈ runqueue s c -> (c < nr_cpu_ids)%nat /\ cpu s p = c /\ p ∈ tasks s;
  c_tasks : forall p, p ∈ tasks s -> is_task p /\ (cpu s p < nr_cpu_ids)%nat;
  c_idle : forall c, cpu s (Idle c) = c;
  c_runnable : forall p, p ∈ tasks s -> state s p = TASK_RUNNING -> p ∈ runqueue s (cpu s p);
}.

(** The task of the CPU [k]: idle, or one of the task list that was placed on [k]. *)
Definition on_cpu (s : sched) (k : nat) : Prop :=
  cur s k = Idle k \/ (cur s k ∈ tasks s /\ cpu s (cur s k) = k).

(** The full invariant between two operations: in addition a running task is
    still queued on its CPU, and only it may be queued without being runnable. *)
Record inv (s : sched) : Prop := {
  i_core : core s;
  i_cur : forall k, (k < nr_cpu_ids)%nat -> cur s k = Idle k \/ cur s k ∈ runqueue s k;
  i_sleep : forall c p, p ∈ runqueue s c -> state s p = TASK_RUNNING \/ cur s c = p;
  i_idle_state : forall c, state s (Idle c) = TASK_RUNNING;
}.

(** Inside [schedule] on [k], once the outgoing task is resolved: every task
    queued on [k] is runnable; the outgoing task may be queued or not. *)
Record mid (k : nat) (s : sched) : Prop := {
  m_core : core s;
  m_cur : forall j, (j < nr_cpu_ids)%nat -> j <> k -> cur s j = Idle j \/ cur s j ∈ runqueue s j;
  m_me : on_cpu s k;
  m_sleep : forall c p, p ∈ runqueue s c -> state s p = TASK_RUNNING \/ (c <> k /\ cur s c = p);
  m_idle_state : forall c, state s (Idle c) = TASK_RUNNING;
}.

Lemma task_on_runqueue_spec s p : core s ->
  task_on_runqueue s p = true <-> p ∈ runqueue s (cpu s p).
Proof.
  intros H. unfold task_on_runqueue. rewrite existsb_exists. split.
  - intros (c & _ & Hin%bool_decide_eq_true). by destruct (c_queued _ H _ _ Hin) as (_ & -> & _).
  - intros Hin. exists (cpu s p). destruct (c_queued _ H _ _ Hin) as (Hc & _).
    split; [apply in_seq; lia|by apply bool_decide_eq_true].
Qed.

Lemma queued_here s c p : core s -> p ∈ runqueue s c -> cpu s p = c.
Proof. intros H Hin. apply (c_queued _ H _ _ Hin). Qed.

Lemma idle_not_queued s c k : core s -> Idle k ∉ runqueue s c.
Proof. intros H Hin. destruct (c_queued _ H _ _ Hin) as (_ & _ & Ht). by destruct (c_tasks _ H _ Ht). Qed.

(** Queueing a task that is on no queue. *)
Lemma enqueue_queue s c p j : runqueue (enqueue_task s c p) j =
  if decide (j = c) then runqueue s c ++ [p] else runqueue s j.
Proof.
  unfold enqueue_task, set_rq. simpl. case_decide as Hd.
  - subst. by rewrite fn_lookup_insert.
  - by rewrite fn_lookup_insert_ne.
Qed.

Lemma in_enqueue s c p j q : q ∈ runqueue (enqueue_task s c p) j <->
  q ∈ runqueue s j \/ (j = c /\ q = p).
Proof.
  rewrite enqueue_queue. case_decide as Hd; [subst; rewrite elem_of_app, list_elem_of_singleton|]; naive_solver.
Qed.

(** Making the task [p] runnable and queueing it on [c], the common step of
    [wake_up_process], of the scan and of the second look. *)
Definition activate (s : sched) (p : tid) (c : nat) : sched :=
  enqueue_task (set_cpu (set_state s p TASK_RUNNING) p c) c p.

Lemma state_set s p v q : state (set_state s p v) q = if decide (q = p) then v else state s q.
Proof.
  unfold set_state. simpl. case_decide; [subst; by rewrite fn_lookup_insert|by rewrite fn_lookup_insert_ne].
Qed.

Lemma cpu_set s p c q : cpu (set_cpu s p c) q = if decide (q = p) then c else cpu s q.
Proof.
  unfold set_cpu. simpl. case_decide; [subst; by rewrite fn_lookup_insert|by rewrite fn_lookup_insert_ne].
Qed.

Lemma set_cpu_same s p : set_cpu s p (cpu s p) = s.
Proof.
  destruct s. unfold set_cpu. simpl. f_equal. apply functional_extensionality. intros q.
  unfold insert, fn_insert. by case_decide; subst.
Qed.

Lemma core_set_state s p v : core s -> (v = TASK_RUNNING -> p ∈ tasks s -> p ∈ runqueue s (cpu s p)) ->
  core (set_state s p v).
Proof.
  intros [] Hv. split; try done. intros q Hq. rewrite state_set. simpl.
  case_decide; [subst; intros ->; auto|auto].
Qed.

Lemma core_activate s p c : core s -> p ∈ tasks s -> p ∉ runqueue s (cpu s p) -> (c < nr_cpu_ids)%nat ->
  core (activate s p c).
Proof.
  intros H Hp Hn Hc. assert (Hno : forall j, p ∉ runqueue s j).
  { intros j Hj. by rewrite (queued_here _ _ _ H Hj) in Hn. }
  split; unfold activate.
  - intros j. rewrite enqueue_queue. case_decide; [|apply (c_nodup _ H)]. apply NoDup_app.
    split; [apply (c_nodup _ H)|]. split; [|apply NoDup_singleton].
    intros x Hx ->%list_elem_of_singleton. by apply (Hno c).
  - intros j q. rewrite in_enqueue. cbn [enqueue_task set_rq cpu tasks]. rewrite cpu_set.
    intros [Hq|[-> ->]]; [|by rewrite decide_True by done].
    case_decide; [subst; by destruct (Hno j)|by apply (c_queued _ H)].
  - intros q. cbn [enqueue_task set_rq cpu tasks set_state]. intros Hq. rewrite cpu_set.
    case_decide; [subst; split; [by apply (c_tasks _ H)|done]|by apply (c_tasks _ H)].
  - intros j. cbn [enqueue_task set_rq cpu]. rewrite cpu_set. case_decide; [|apply (c_idle _ H)].
    subst. by destruct (c_tasks _ H _ Hp).
  - intros q. cbn [enqueue_task set_rq cpu tasks state]. rewrite cpu_set.
    change (state (set_cpu (set_state s p TASK_RUNNING) p c) q) with (state (set_state s p TASK_RUNNING) q).
    rewrite state_set. intros Hq Hr. apply in_enqueue. case_decide; [subst; auto|].
    left. by apply (c_runnable _ H).
Qed.

Lemma core_dequeue s p : core s -> state s p <> TASK_RUNNING -> core (dequeue_task s p).
Proof.
  intros H Hp. split; unfold dequeue_task; cbn [set_rq cpu tasks state runqueue].
  - intros c. apply NoDup_filter, (c_nodup _ H).
  - intros c q [_ Hq]%list_elem_of_filter. by apply (c_queued _ H).
  - apply (c_tasks _ H).
  - apply (c_idle _ H).
  - intros q Hq Hr. apply list_elem_of_filter. split; [congruence|]. by apply (c_runnable _ H).
Qed.

(** The queues and current tasks of other CPUs after [activate]. *)
Lemma activate_frame s p c :
  (forall j q, q ∈ runqueue (activate s p c) j <-> q ∈ runqueue s j \/ (j = c /\ q = p)) /\
  cur (activate s p c) = cur s /\ tasks (activate s p c) = tasks s /\
  (forall q, q <> p -> cpu (activate s p c) q = cpu s q) /\
  (forall q, state (activate s p c) q = if decide (q = p) then TASK_RUNNING else state s q).
Proof.
  unfold activate. split; [intros j q; by rewrite in_enqueue|]. split; [done|]. split; [done|]. split.
  - intros q Hq. cbn [enqueue_task set_rq cpu]. by rewrite cpu_set, decide_False by done.
  - intros q. apply state_set.
Qed.

(** [wake_up_process] and the scan queue a task in the same way. *)
Lemma wake_up_process_eq s p : core s -> p ∈ tasks s ->
  wake_up_process s p = (if decide (p ∈ runqueue s (cpu s p)) then set_state s p TASK_RUNNING
                         else activate s p (cpu s p)) \/
  (wake_up_process s p = s /\ state s p = TASK_RUNNING).
Proof.
  intros H Hp. unfold wake_up_process. destruct (Z.eqb_spec (state s p) TASK_RUNNING) as [E|E]; simpl.
  - pose proof (c_runnable _ H p Hp E) as Hr.
    rewrite (proj2 (task_on_runqueue_spec s p H)) by done. by right.
  - left. change (task_on_runqueue (set_state s p TASK_RUNNING) p) with (task_on_runqueue s p).
    case_decide as Hin.
    + by rewrite (proj2 (task_on_runqueue_spec s p H)).
    + destruct (task_on_runqueue s p) eqn:Et; [by apply task_on_runqueue_spec in Et|].
      unfold activate. pose proof (set_cpu_same (set_state s p TASK_RUNNING) p) as E2.
      change (cpu (set_state s p TASK_RUNNING) p) with (cpu s p) in E2. by rewrite E2.
Qed.

Lemma wake_up_process_inv s p : inv s -> p ∈ tasks s -> inv (wake_up_process s p).
Proof.
  intros H Hp. pose proof (i_core _ H) as Hc.
  destruct (wake_up_process_eq s p Hc Hp) as [->|[-> _]]; [|done]. case_decide as Hin.
  - split; [by apply core_set_state|apply (i_cur _ H)| |].
    + intros c q Hq. rewrite state_set. case_decide; [by left|by apply (i_sleep _ H)].
    + intros c. rewrite state_set. case_decide; [done|apply (i_idle_state _ H)].
  - destruct (activate_frame s p (cpu s p)) as (F1 & F2 & F3 & F4 & F5).
    destruct (c_tasks _ Hc p Hp) as [Ht Hlt]. split; [by apply core_activate| | |].
    + intros k Hk. rewrite F2. destruct (i_cur _ H k Hk); [by left|right; apply F1; by left].
    + intros c q. rewrite F1, F5, F2. case_decide; [by left|]. intros [Hq|[_ ?]]; [|done].
      by apply (i_sleep _ H).
    + intros c. rewrite F5. case_decide; [done|apply (i_idle_state _ H)].
Qed.

(** ** The steps of [schedule] *)

Lemma on_cpu_frame s s' k : cur s' = cur s -> tasks s' = tasks s ->
  cpu s' (cur s k) = cpu s (cur s k) -> on_cpu s k -> on_cpu s' k.
Proof. unfold on_cpu. intros -> -> ->. done. Qed.

Lemma inv_on_cpu s k : inv s -> (k < nr_cpu_ids)%nat -> on_cpu s k.
Proof.
  intros H Hk. destruct (i_cur _ H k Hk) as [E|Hin]; [by left|]. right.
  destruct (c_queued _ (i_core _ H) _ _ Hin) as (_ & ? & ?). done.
Qed.

Lemma on_cpu_cpu s k : core s -> on_cpu s k -> cpu s (cur s k) = k.
Proof. intros H [->|[_ ?]]; [apply (c_idle _ H)|done]. Qed.

Lemma resolve_mid s k : inv s -> (k < nr_cpu_ids)%nat ->
  mid k (resolve_current s (cur s k) (Idle k)) /\
  cur (resolve_current s (cur s k) (Idle k)) = cur s /\
  (state s (cur s k) <> TASK_RUNNING ->
   (state s (cur s k) = TASK_INTERRUPTIBLE -> pending s (cur s k) = false) ->
   cur s k ∉ runqueue (resolve_current s (cur s k) (Idle k)) k).
Proof.
  intros H Hk. pose proof (i_core _ H) as Hc. set (me := cur s k).
  pose proof (inv_on_cpu s k H Hk) as Hme.
  (* a task queued without being runnable is the current one of its CPU *)
  assert (Hother : forall c q, q ∈ runqueue s c -> q <> me -> state s q = TASK_RUNNING \/ (c <> k /\ cur s c = q)).
  { intros c q Hq Hne. destruct (i_sleep _ H c q Hq) as [?|Hcur]; [by left|right].
    split; [|done]. intros ->. by subst me. }
  unfold resolve_current. destruct (Z.eqb_spec (state s me) TASK_RUNNING) as [E|E]; simpl.
  { split; [|done]. split; [done|intros; by apply (i_cur _ H)|done| |apply (i_idle_state _ H)].
    intros c q Hq. destruct (decide (q = me)) as [->|Hne]; [by left|by apply Hother]. }
  assert (Hmt : me ∈ tasks s /\ cpu s me = k).
  { destruct Hme as [Ei|?]; [|done]. fold me in Ei. rewrite Ei in E. by rewrite (i_idle_state _ H) in E. }
  destruct Hmt as [Hmt Hmk].
  rewrite bool_decide_eq_true_2 by (intros ->; by destruct (c_tasks _ Hc _ Hmt)).
  simpl. destruct ((state s me =? TASK_INTERRUPTIBLE) && pending s me) eqn:Ep.
  - apply andb_true_iff in Ep as [Ei Ep]. apply Z.eqb_eq in Ei.
    destruct (i_cur _ H k Hk) as [Ec|Hin]; [fold me in Ec; rewrite Ec in Hmt; by destruct (c_tasks _ Hc _ Hmt)|].
    fold me in Hin. split; [|split; [done|intros _ Hf; rewrite Hf in Ep; done]].
    split; [apply core_set_state; [done|by rewrite Hmk]|intros; by apply (i_cur _ H)|by right| |].
    + intros c q Hq. rewrite state_set. case_decide; [by left|by apply Hother].
    + intros c. rewrite state_set. case_decide; [done|apply (i_idle_state _ H)].
  - assert (Hm : mid k (dequeue_task s me)).
    { split; [by apply core_dequeue| | | |apply (i_idle_state _ H)].
      - intros j Hj Hne. destruct (i_cur _ H j Hj) as [?|Hin]; [by left|right].
        apply list_elem_of_filter. split; [|done]. intros Heq. apply Hne.
        rewrite <- (queued_here _ _ _ Hc Hin). change (cur (dequeue_task s me) j) with (cur s j) in *. congruence.
      - by right.
      - intros c q [Hne Hq]%list_elem_of_filter. by apply Hother. }
    destruct (task_on_runqueue s me) eqn:Et.
    + split; [done|]. split; [done|]. intros _ _ [? _]%list_elem_of_filter. done.
    + assert (Hno : forall c, me ∉ runqueue s c).
      { intros c Hin. pose proof (queued_here _ _ _ Hc Hin) as Heq. rewrite <- Heq in Hin.
        apply (task_on_runqueue_spec s me Hc) in Hin. congruence. }
      split; [|split; [done|intros _ _; apply Hno]].
      split; [done|intros; by apply (i_cur _ H)|by right| |apply (i_idle_state _ H)].
      intros c q Hq. apply Hother; [done|]. intros ->. by apply (Hno c).
Qed.

(** The CPU [select_task_cpu] finds has the shortest queue of the allowed
    ones, unless every allowed queue has more than [NR_CPUS] tasks. *)
Definition selected (s : sched) (allowed : Z) (cs : list nat) (b : option nat * Z) : Prop :=
  match b.1 with
  | None => b.2 = Z.of_nat NR_CPUS + 1 /\
      forall c, c ∈ cs -> Z.testbit allowed (Z.of_nat c) = true -> b.2 <= zlength (runqueue s c)
  | Some c => c ∈ cs /\ Z.testbit allowed (Z.of_nat c) = true /\ b.2 = zlength (runqueue s c) /\
      b.2 <= Z.of_nat NR_CPUS /\
      forall c', c' ∈ cs -> Z.testbit allowed (Z.of_nat c') = true -> b.2 <= zlength (runqueue s c')
  end.

Lemma select_step_ok s allowed cs b c : selected s allowed cs b ->
  selected s allowed (cs ++ [c]) (select_step s allowed b c).
Proof.
  unfold select_step. destruct (Z.testbit allowed (Z.of_nat c)) eqn:Ea; simpl.
  - destruct (Z.ltb_spec (zlength (runqueue s c)) b.2) as [Hlt|Hge]; unfold selected; simpl.
    + intros H. split; [apply elem_of_app; right; by left|]. split; [done|]. split; [done|].
      destruct (b.1) as [c0|].
      * destruct H as (_ & _ & _ & ? & H). split; [lia|].
        intros c' [Hc| ->%list_elem_of_singleton]%elem_of_app Ha; [specialize (H c' Hc Ha)|]; lia.
      * destruct H as [? H]. split; [lia|].
        intros c' [Hc| ->%list_elem_of_singleton]%elem_of_app Ha; [specialize (H c' Hc Ha)|]; lia.
    + destruct (b.1) as [c0|].
      * intros (? & ? & ? & ? & H). rewrite elem_of_app. split; [by left|]. repeat (split; [done|]).
        intros c' [Hc| ->%list_elem_of_singleton]%elem_of_app Ha; [by apply H|lia].
      * intros [? H]. split; [done|].
        intros c' [Hc| ->%list_elem_of_singleton]%elem_of_app Ha; [by apply H|lia].
  - unfold selected. destruct (b.1) as [c0|].
    + intros (? & ? & ? & ? & H). rewrite elem_of_app. split; [by left|]. repeat (split; [done|]).
      intros c' [Hc| ->%list_elem_of_singleton]%elem_of_app Ha; [by apply H|congruence].
    + intros [? H]. split; [done|].
      intros c' [Hc| ->%list_elem_of_singleton]%elem_of_app Ha; [by apply H|congruence].
Qed.

Lemma select_fold s allowed cs cs0 b : selected s allowed cs0 b ->
  selected s allowed (cs0 ++ cs) (foldl (select_step s allowed) b cs).
Proof.
  revert cs0 b. induction cs as [|c cs IH]; intros cs0 b H; simpl; [by rewrite app_nil_r|].
  specialize (IH _ _ (select_step_ok _ _ _ _ c H)). by rewrite <- app_assoc in IH.
Qed.

(** The mask [select_task_cpu] searches. *)
Definition allowed_mask (s : sched) (p : tid) : Z :=
  let a := Z.land (cpus_allowed s p) online in if a =? 0 then 1 else a.

Lemma select_task_cpu_ok s p :
  (exists len, selected s (allowed_mask s p) (seq 0 nr_cpu_ids) (Some (select_task_cpu s p), len)) \/
  (select_task_cpu s p = cpu s p /\
   forall c, (c < nr_cpu_ids)%nat -> Z.testbit (allowed_mask s p) (Z.of_nat c) = true ->
     Z.of_nat NR_CPUS < zlength (runqueue s c)).
Proof.
  unfold select_task_cpu. fold (allowed_mask s p).
  pose proof (select_fold s (allowed_mask s p) (seq 0 nr_cpu_ids) [] (None, Z.of_nat NR_CPUS + 1)) as H.
  destruct (foldl _ _ _) as [[c|] len]; simpl in *.
  - left. exists len. apply H. split; [done|]. by intros ? ?%not_elem_of_nil.
  - right. split; [done|]. intros c Hc Ha. destruct H as [-> H].
    + split; [done|]. by intros ? ?%not_elem_of_nil.
    + specialize (H c). rewrite elem_of_seq in H. specialize (H ltac:(lia) Ha). lia.
Qed.

Lemma select_task_cpu_lt s p : core s -> p ∈ tasks s -> (select_task_cpu s p < nr_cpu_ids)%nat.
Proof.
  intros H Hp. destruct (select_task_cpu_ok s p) as [(len & Hc & _)|[-> _]].
  - apply elem_of_seq in Hc. lia.
  - by apply (c_tasks _ H).
Qed.

(** A step that makes a sleeping task runnable, on a queue of any CPU unless it
    is queued already, keeps [mid]. *)
Lemma mid_set_running k s p : mid k s -> p ∈ runqueue s (cpu s p) -> mid k (set_state s p TASK_RUNNING).
Proof.
  intros [] Hin. split; [by apply core_set_state|done|done| |].
  - intros c q Hq. rewrite state_set. case_decide; [by left|by apply m_sleep0].
  - intros c. rewrite state_set. by case_decide.
Qed.

Lemma mid_activate k s p c : mid k s -> p ∈ tasks s -> p ∉ runqueue s (cpu s p) -> (c < nr_cpu_ids)%nat ->
  (p = cur s k -> c = k) -> mid k (activate s p c).
Proof.
  intros H Hp Hn Hc Hpk. destruct (activate_frame s p c) as (F1 & F2 & F3 & F4 & F5).
  pose proof (m_core _ _ H) as Hcore. split; [by apply core_activate| | | |].
  - intros j Hj Hne. rewrite F2. destruct (m_cur _ _ H j Hj Hne); [by left|right; apply F1; by left].
  - destruct (decide (p = cur s k)) as [->|Hne].
    + right. rewrite F2, F3. split; [done|]. rewrite (Hpk eq_refl). unfold activate.
      cbn [enqueue_task set_rq cpu]. by rewrite cpu_set, decide_True.
    + eapply (on_cpu_frame s); [done|done|by apply F4|apply (m_me _ _ H)].
  - intros j q. rewrite F1, F5, F2. case_decide; [by left|]. intros [Hq|[_ ?]]; [|done].
    by apply (m_sleep _ _ H).
  - intros j. rewrite F5. case_decide; [done|apply (m_idle_state _ _ H)].
Qed.

Lemma mid_set_pending k s p b : mid k s -> mid k (set_pending s p b).
Proof. intros []. split; try done. destruct m_core0. by split. Qed.

Lemma wake_signalled_spec k s p : mid k s -> p ∈ tasks s ->
  mid k (wake_signalled (cur s k) s p) /\ cur (wake_signalled (cur s k) s p) = cur s /\
  tasks (wake_signalled (cur s k) s p) = tasks s /\ pending (wake_signalled (cur s k) s p) = pending s /\
  (forall q, state (wake_signalled (cur s k) s p) q =
     if decide (q = p /\ p <> cur s k /\ state s p = TASK_INTERRUPTIBLE /\ pending s p = true)
     then TASK_RUNNING else state s q).
Proof.
  intros H Hp. pose proof (m_core _ _ H) as Hc. unfold wake_signalled.
  destruct (bool_decide (p = cur s k) || _ || _) eqn:E.
  { do 4 (split; [done|]). intros q. rewrite decide_False; [done|]. intros (-> & Hne & Hs & Hpe).
    rewrite Hs, Hpe, bool_decide_eq_false_2 in E by done. done. }
  apply orb_false_iff in E as [[E1%bool_decide_eq_false E2%negb_false_iff%Z.eqb_eq]%orb_false_iff E3%negb_false_iff].
  assert (Hst : forall q (s' : sched), (forall q, state s' q = if decide (q = p) then TASK_RUNNING else state s q) ->
     state s' q = if decide (q = p /\ p <> cur s k /\ state s p = TASK_INTERRUPTIBLE /\ pending s p = true)
     then TASK_RUNNING else state s q).
  { intros q s' ->. apply decide_ext. tauto. }
  change (task_on_runqueue (set_state s p TASK_RUNNING) p) with (task_on_runqueue s p).
  destruct (task_on_runqueue s p) eqn:Et.
  - apply task_on_runqueue_spec in Et; [|done]. split; [by apply mid_set_running|]. do 3 (split; [done|]).
    intros q. apply Hst. apply state_set.
  - assert (Hn : p ∉ runqueue s (cpu s p)).
    { intros Hin. apply (task_on_runqueue_spec _ _ Hc) in Hin. congruence. }
    fold (activate s p (select_task_cpu (set_state s p TASK_RUNNING) p)).
    assert (Hlt : (select_task_cpu (set_state s p TASK_RUNNING) p < nr_cpu_ids)%nat).
    { change (select_task_cpu (set_state s p TASK_RUNNING) p) with (select_task_cpu s p).
      by apply select_task_cpu_lt. }
    destruct (activate_frame s p (select_task_cpu (set_state s p TASK_RUNNING) p)) as (F1 & F2 & F3 & F4 & F5).
    split; [by apply mid_activate|]. do 3 (split; [done|]). intros q. by apply Hst.
Qed.

Lemma scan_spec k s l : mid k s -> (forall p, p ∈ l -> p ∈ tasks s) ->
  let s' := foldl (wake_signalled (cur s k)) s l in
  mid k s' /\ cur s' = cur s /\ tasks s' = tasks s /\ pending s' = pending s /\
  (forall q, state s' q = if decide (q ∈ l /\ q <> cur s k /\ state s q = TASK_INTERRUPTIBLE /\ pending s q = true)
     then TASK_RUNNING else state s q).
Proof.
  revert s. induction l as [|p l IH]; intros s H Hl; cbn [foldl].
  { do 4 (split; [done|]). intros q. rewrite decide_False; [done|]. by intros [?%not_elem_of_nil _]. }
  destruct (wake_signalled_spec k s p H) as (H1 & E1 & E2 & E3 & E4); [apply Hl; left|].
  destruct (IH (wake_signalled (cur s k) s p) H1) as (H2 & F1 & F2 & F3 & F4).
  { intros q Hq. rewrite E2. apply Hl. by right. }
  rewrite E1 in *. split; [done|]. split; [done|]. rewrite F2, F3, E2, E3. do 2 (split; [done|]).
  intros q. rewrite F4, E3, E4.
  destruct (decide (q = p)) as [->|Hne].
  - repeat case_decide; try done; rewrite ?elem_of_cons in *; naive_solver.
  - rewrite (decide_False (P := q = p /\ _)) by tauto. apply decide_ext. rewrite elem_of_cons. tauto.
Qed.

Lemma recheck_spec k s : mid k s ->
  mid k (recheck_current s k (cur s k)) /\ cur (recheck_current s k (cur s k)) = cur s /\
  tasks (recheck_current s k (cur s k)) = tasks s /\
  (forall q, state (recheck_current s k (cur s k)) q =
     if decide (q = cur s k /\ state s q = TASK_INTERRUPTIBLE /\ pending s q = true)
     then TASK_RUNNING else state s q).
Proof.
  intros H. pose proof (m_core _ _ H) as Hc. unfold recheck_current.
  destruct ((state s (cur s k) =? TASK_INTERRUPTIBLE) && pending s (cur s k)) eqn:E.
  2: { do 3 (split; [done|]). intros q. rewrite decide_False; [done|]. intros (-> & Hs & Hp).
       by rewrite Hs, Hp in E. }
  apply andb_true_iff in E as [E1%Z.eqb_eq E2].
  assert (Hme : cur s k ∈ tasks s /\ cpu s (cur s k) = k).
  { destruct (m_me _ _ H) as [Ei|?]; [|done]. rewrite Ei in E1. by rewrite (m_idle_state _ _ H) in E1. }
  destruct Hme as [Hmt Hmk].
  assert (Hst : forall q (s' : sched), state s' q = (if decide (q = cur s k) then TASK_RUNNING else state s q) ->
     state s' q = if decide (q = cur s k /\ state s q = TASK_INTERRUPTIBLE /\ pending s q = true)
     then TASK_RUNNING else state s q).
  { intros q s' ->. apply decide_ext. split; [by intros ->|tauto]. }
  change (task_on_runqueue (set_state s (cur s k) TASK_RUNNING) (cur s k)) with (task_on_runqueue s (cur s k)).
  destruct (task_on_runqueue s (cur s k)) eqn:Et.
  - apply task_on_runqueue_spec in Et; [|done]. split; [by apply mid_set_running|]. do 2 (split; [done|]).
    intros q. apply Hst, state_set.
  - assert (Hn : cur s k ∉ runqueue s (cpu s (cur s k))).
    { intros Hin. apply (task_on_runqueue_spec _ _ Hc) in Hin. congruence. }
    pose proof (set_cpu_same (set_state s (cur s k) TASK_RUNNING) (cur s k)) as Ecpu.
    change (cpu (set_state s (cur s k) TASK_RUNNING) (cur s k)) with (cpu s (cur s k)) in Ecpu.
    rewrite Hmk in Ecpu. rewrite <- Ecpu. fold (activate s (cur s k) k).
    destruct (activate_frame s (cur s k) k) as (F1 & F2 & F3 & F4 & F5).
    split; [apply mid_activate; try done; rewrite <- Hmk; by apply (c_tasks _ Hc)|].
    do 2 (split; [done|]). intros q. by apply Hst.
Qed.

Lemma pick_next_spec s idle rq : let '(next, best) := pick_next s idle rq in
  (next = idle /\ best = -100 /\ forall p, p ∈ rq -> counter s p <= -100) \/
  (next ∈ rq /\ best = counter s next /\ forall p, p ∈ rq -> counter s p <= best).
Proof.
  unfold pick_next.
  assert (G : forall l l0 b,
    ((b.1 = idle /\ b.2 = -100 /\ forall p, p ∈ l0 -> counter s p <= -100) \/
     (b.1 ∈ l0 /\ b.2 = counter s b.1 /\ forall p, p ∈ l0 -> counter s p <= b.2)) ->
    let b' := foldl (pick_step s) b l in
    (b'.1 = idle /\ b'.2 = -100 /\ forall p, p ∈ l0 ++ l -> counter s p <= -100) \/
    (b'.1 ∈ l0 ++ l /\ b'.2 = counter s b'.1 /\ forall p, p ∈ l0 ++ l -> counter s p <= b'.2)).
  { intros l. induction l as [|p l IH]; intros l0 b Hb; simpl; [by rewrite app_nil_r|].
    specialize (IH (l0 ++ [p]) (pick_step s b p)). rewrite <- app_assoc in IH. apply IH.
    unfold pick_step. destruct (Z.gtb_spec (counter s p) b.2) as [Hg|Hg].
    - right. simpl. rewrite elem_of_app. split; [right; by left|]. split; [done|].
      intros q [Hq| ->%list_elem_of_singleton]%elem_of_app; [|lia].
      destruct Hb as [(_ & ? & Hb)|(_ & ? & Hb)]; specialize (Hb q Hq); lia.
    - destruct Hb as [(? & ? & Hb)|(? & ? & Hb)]; [left|right; rewrite elem_of_app].
      + repeat (split; [done|]). intros q [Hq| ->%list_elem_of_singleton]%elem_of_app; [auto|lia].
      + split; [by left|]. split; [done|]. intros q [Hq| ->%list_elem_of_singleton]%elem_of_app; [auto|lia]. }
  specialize (G rq [] (idle, -100)). destruct (foldl _ _ _) as [next best]. simpl in G. apply G.
  left. split; [done|]. split; [done|]. by intros ? ?%not_elem_of_nil.
Qed.

(** The choice of [next] turns [mid] into the invariant. *)
Lemma mid_finish k s s' next : mid k s -> (k < nr_cpu_ids)%nat -> next = Idle k \/ next ∈ runqueue s k ->
  tasks s' = tasks s -> state s' = state s -> cpu s' = cpu s -> runqueue s' = runqueue s ->
  cur s' k = next -> (forall j, j <> k -> cur s' j = cur s j) -> inv s'.
Proof.
  intros [] Hk Hn Et Es Ec Er Ek Ej. split.
  - destruct m_core0. split; intros *; rewrite ?Et, ?Es, ?Ec, ?Er; auto.
  - intros j Hj. rewrite Er. destruct (decide (j = k)) as [->|Hne]; [by rewrite Ek|].
    rewrite Ej by done. by apply m_cur0.
  - intros c p. rewrite Er, Es. intros Hp. destruct (m_sleep0 c p Hp) as [?|[Hne ?]]; [by left|right].
    by rewrite Ej.
  - intros c. by rewrite Es.
Qed.

Lemma scan_counter me s l : counter (foldl (wake_signalled me) s l) = counter s.
Proof.
  revert s. induction l as [|p l IH]; intros s; [done|]. cbn [foldl]. rewrite IH.
  unfold wake_signalled. destruct (_ || _ || _); [done|]. by destruct (task_on_runqueue _ p).
Qed.

Lemma resolve_frame s me idle :
  counter (resolve_current s me idle) = counter s /\ tasks (resolve_current s me idle) = tasks s /\
  pending (resolve_current s me idle) = pending s /\
  forall q, q <> me -> state (resolve_current s me idle) q = state s q.
Proof.
  unfold resolve_current. destruct (_ && bool_decide _); [|done].
  destruct (_ && pending s me).
  - do 3 (split; [done|]). intros q Hq. by rewrite state_set, decide_False.
  - by destruct (task_on_runqueue s me).
Qed.

(** What [schedule] does: [inv] is kept, the signalled sleepers are made
    runnable, and the next task has the largest time slice of the queue. *)
Definition scheduled (s : sched) (k : nat) (late : bool) (s' : sched) : Prop :=
  inv s' /\ tasks s' = tasks s /\ (forall j, j <> k -> cur s' j = cur s j) /\
  (forall p, p ∈ tasks s -> state s p = TASK_INTERRUPTIBLE -> pending s p = true -> state s' p = TASK_RUNNING) /\
  (state s (cur s k) <> TASK_RUNNING ->
   (state s (cur s k) = TASK_INTERRUPTIBLE -> pending s (cur s k) = false /\ late = false) ->
   cur s' k <> cur s k) /\
  (forall p, p ∈ runqueue s' k -> cur s' k = Idle k /\ counter s p <= -100 \/
     cur s' k ∈ runqueue s' k /\ counter s p <= counter s (cur s' k)).

(** The state [schedule] chooses the next task in. *)
Lemma schedule_prepare s k (late : bool) : inv s -> (k < nr_cpu_ids)%nat ->
  let me := cur s k in
  let s2 := foldl (wake_signalled me) (resolve_current s me (Idle k)) (tasks (resolve_current s me (Idle k))) in
  let s4 := recheck_current (if late then set_pending s2 me true else s2) k me in
  mid k s4 /\ cur s4 = cur s /\ tasks s4 = tasks s /\ counter s4 = counter s /\
  (forall p, p ∈ tasks s -> state s p = TASK_INTERRUPTIBLE -> pending s p = true -> state s4 p = TASK_RUNNING) /\
  (state s me <> TASK_RUNNING ->
   (state s me = TASK_INTERRUPTIBLE -> pending s me = false /\ late = false) -> state s4 me <> TASK_RUNNING).
Proof.
  intros H Hk me. destruct (resolve_mid s k H Hk) as (M1 & C1 & _). fold me in M1, C1.
  destruct (resolve_frame s me (Idle k)) as (R1 & R2 & R3 & R4).
  assert (Rme : state s me <> TASK_RUNNING -> (state s me = TASK_INTERRUPTIBLE -> pending s me = false) ->
     state (resolve_current s me (Idle k)) me = state s me).
  { intros Hr Hi. unfold resolve_current. destruct (_ && bool_decide _); [|done].
    destruct (Z.eqb_spec (state s me) TASK_INTERRUPTIBLE) as [Ei|Ei]; simpl;
      [rewrite (Hi Ei); simpl|]; by destruct (task_on_runqueue s me). }
  assert (Rint : state s me = TASK_INTERRUPTIBLE -> pending s me = true -> me ∈ tasks s ->
     state (resolve_current s me (Idle k)) me = TASK_RUNNING).
  { intros E Ep Hm. unfold resolve_current. rewrite E, Ep.
    rewrite (bool_decide_eq_true_2 (me <> Idle k)) by (intros Heq; rewrite Heq in Hm; by destruct (c_tasks _ (i_core _ H) _ Hm)).
    simpl. by rewrite fn_lookup_insert. }
  set (s1 := resolve_current s me (Idle k)) in *. clearbody s1.
  destruct (scan_spec k s1 (tasks s1) M1) as (M2 & C2 & T2 & P2 & S2); [done|].
  rewrite C1 in *. fold me in M2, C2, T2, P2, S2. pose proof (scan_counter me s1 (tasks s1)) as K2.
  set (s2 := foldl (wake_signalled me) s1 (tasks s1)) in *. clearbody s2.
  intros s2'. subst s2'.
  assert (M3 : mid k (if late then set_pending s2 me true else s2)) by (destruct late; [by apply mid_set_pending|done]).
  set (s3 := if late then set_pending s2 me true else s2) in *.
  assert (E3 : cur s3 = cur s /\ tasks s3 = tasks s /\ counter s3 = counter s /\ state s3 = state s2 /\
               pending s3 me = late || pending s me).
  { subst s3. destruct late; simpl; rewrite ?C2, ?T2, ?K2, ?R1, ?R2, ?fn_lookup_insert, ?P2, ?R3; done. }
  clearbody s3. destruct E3 as (C3 & T3 & K3 & S3 & P3).
  destruct (recheck_spec k s3 M3) as (M4 & C4 & T4 & S4). rewrite C3 in M4, C4, T4, S4. fold me in M4, C4, T4, S4.
  intros s4. split; [done|]. split; [by subst s4; rewrite C4|]. split; [by subst s4; rewrite T4|]. split.
  { subst s4. rewrite <- K3. unfold recheck_current. destruct (_ && _); [|done]. by destruct (task_on_runqueue _ me). }
  unfold s4. clear s4. split.
  - intros p Hp Ei Ep. rewrite S4, S3, S2. destruct (decide (p = me)) as [->|Hne].
    + rewrite Rint by done. repeat case_decide; done.
    + rewrite R4, R3, R2 by done. rewrite (decide_True (P := p ∈ tasks s /\ p <> me /\ state s p = TASK_INTERRUPTIBLE /\ pending s p = true)) by done. by case_decide.
  - intros Hr Hi. rewrite S4, S3, S2. rewrite (decide_False (P := me ∈ tasks s1 /\ me <> me /\ state s1 me = TASK_INTERRUPTIBLE /\ pending s1 me = true)) by tauto.
    rewrite Rme by (done || tauto). rewrite decide_False; [done|].
    intros (_ & Ei & Ep). destruct (Hi Ei) as [Hp ->]. rewrite P3, Hp in Ep. done.
Qed.

Lemma schedule_ok s k (late : bool) : inv s -> (k < nr_cpu_ids)%nat ->
  exists s', schedule s k late = Some s' /\ scheduled s k late s'.
Proof.
  intros H Hk. unfold schedule. pose proof (inv_on_cpu s k H Hk) as Hon.
  rewrite (on_cpu_cpu s k (i_core _ H) Hon). unfold smp_idle_task.
  destruct (schedule_prepare s k late H Hk) as (M & Ec & Et & Ek & Hsig & Hpark).
  set (s4 := recheck_current _ k (cur s k)) in *. clearbody s4.
  pose proof (pick_next_spec s4 (Idle k) (runqueue s4 k)) as Hpick.
  destruct (pick_next s4 (Idle k) (runqueue s4 k)) as [next best].
  assert (Hnext : next = Idle k \/ next ∈ runqueue s4 k) by (destruct Hpick as [[? _]|[? _]]; auto).
  assert (Hncpu : cpu s4 next = k).
  { destruct Hnext as [->|Hin]; [apply (c_idle _ (m_core _ _ M))|by eapply queued_here; [apply (m_core _ _ M)|]]. }
  set (s5 := if best =? 0 then refill s4 else s4).
  assert (E5 : tasks s5 = tasks s4 /\ state s5 = state s4 /\ cpu s5 = cpu s4 /\ runqueue s5 = runqueue s4 /\ cur s5 = cur s4).
  { subst s5. by destruct (best =? 0). }
  clearbody s5. destruct E5 as (T5 & S5 & C5 & Q5 & U5).
  assert (Hend : forall s', tasks s' = tasks s4 -> state s' = state s4 -> cpu s' = cpu s4 ->
     runqueue s' = runqueue s4 -> cur s' k = next -> (forall j, j <> k -> cur s' j = cur s4 j) -> scheduled s k late s').
  { intros s' T S C Q U V. split; [by eapply mid_finish|]. split; [by rewrite T|].
    split; [intros j Hj; by rewrite V, Ec|]. split; [intros p; rewrite S; apply Hsig|]. split.
    - intros Hr Hi Heq. rewrite U in Heq. specialize (Hpark Hr Hi). rewrite <- Heq in Hpark.
      destruct Hnext as [->|Hin]; [by rewrite (m_idle_state _ _ M) in Hpark|].
      destruct (m_sleep _ _ M k next Hin) as [?|[? _]]; done.
    - intros p. rewrite Q, U, <- Ek. intros Hp.
      destruct Hpick as [(-> & -> & Hm)|(? & -> & Hm)]; [left|right]; auto. }
  destruct (bool_decide (next = cur s k)) eqn:E.
  - apply bool_decide_eq_true in E. exists s5. split; [done|]. apply Hend; try done; rewrite U5, Ec; done.
  - rewrite C5, Hncpu. assert (Ecur : cur (set_cur s5 k next) k = next) by (unfold set_cur; cbn [cur]; by rewrite fn_lookup_insert).
    cbv zeta. rewrite Ecur, (bool_decide_eq_true_2 (next = next)) by done.
    eexists. split; [done|]. apply Hend; try done.
    intros j Hj. unfold set_cur. cbn [cur]. rewrite fn_lookup_insert_ne by done. by rewrite U5.
Qed.

(** ** The machine *)

Inductive event :=
  | EvSchedule (k : nat) (late : bool)
  | EvState (k : nat) (st : Z)       (* the current task of [k] sets its state *)
  | EvWake (p : tid)
  | EvSignal (p : tid) (b : bool)    (* a signal becomes pending, or is taken *)
  | EvTick (k : nat)
  | EvFork (k : nat) (p : tid)
  | EvAffinity (k : nat) (p : tid) (mask : Z)
  | EvContinue (p : tid).            (* SIGCONT or SIGKILL for a stopped task *)

(** [p] runs on some CPU. *)
Definition running (s : sched) (p : tid) : Prop := exists k, (k < nr_cpu_ids)%nat /\ cur s k = p.

Inductive step : sched -> event -> sched -> Prop :=
  | st_schedule s k late s' : (k < nr_cpu_ids)%nat -> schedule s k late = Some s' ->
      step s (EvSchedule k late) s'
  | st_state s k st : (k < nr_cpu_ids)%nat -> is_task (cur s k) ->
      step s (EvState k st) (set_state s (cur s k) st)
  | st_wake s p : p ∈ tasks s -> step s (EvWake p) (wake_up_process s p)
  | st_signal s p b : step s (EvSignal p b) (set_pending s p b)
  | st_tick s k : (k < nr_cpu_ids)%nat -> step s (EvTick k) (tick s k)
  | st_fork s k p : (k < nr_cpu_ids)%nat -> is_task p -> p ∉ tasks s ->
      step s (EvFork k p) (fork_task s k p)
  | st_affinity s k p mask : (k < nr_cpu_ids)%nat -> p ∈ tasks s ->
      step s (EvAffinity k p mask) (sched_set_cpus_allowed s k p mask).1
  | st_continue s p : step s (EvContinue p) (send_sig_continue s p).

(** The two operations the invariant does not survive: changing the CPU of a
    task that is about to sleep on another CPU, and continuing a stopped task
    that has left its CPU. *)
Definition benign (s : sched) (e : event) : Prop :=
  match e with
  | EvAffinity k p _ => p = cur s k \/ state s p = TASK_RUNNING \/ ~ running s p
  | EvContinue p => state s p = TASK_STOPPED -> running s p
  | _ => True
  end.

Definition boot : sched :=
  mksched [] (fun _ => TASK_RUNNING) (fun p => match p with Idle O => DEF_COUNTER | _ => 0 end)
    (fun p => match p with Idle c => c | Task _ => O end) (fun _ => 1) (fun _ => false) (fun _ => []) Idle.

Inductive reach : sched -> Prop :=
  | reach_boot : reach boot
  | reach_step s e s' : reach s -> step s e s' -> benign s e -> reach s'.

Lemma inv_set_counter s f : inv s -> inv (set_counter s f).
Proof. intros [[] ? ? ?]. split; [by split|done..]. Qed.

Lemma inv_set_pending s p b : inv s -> inv (set_pending s p b).
Proof. intros [[] ? ? ?]. split; [by split|done..]. Qed.

Lemma inv_set_allowed s p m : inv s -> inv (set_allowed s p m).
Proof. intros [[] ? ? ?]. split; [by split|done..]. Qed.

Lemma running_queued s p : inv s -> p ∈ tasks s -> running s p -> p ∈ runqueue s (cpu s p).
Proof.
  intros H Hp (k & Hk & <-). destruct (i_cur _ H k Hk) as [E|Hin].
  - rewrite E in Hp. by destruct (c_tasks _ (i_core _ H) _ Hp).
  - by rewrite (queued_here _ _ _ (i_core _ H) Hin).
Qed.

Lemma inv_set_state_current s k st : inv s -> (k < nr_cpu_ids)%nat -> is_task (cur s k) ->
  inv (set_state s (cur s k) st).
Proof.
  intros H Hk Ht. pose proof (i_core _ H) as Hc.
  destruct (i_cur _ H k Hk) as [E|Hin]; [by rewrite E in Ht|]. pose proof (queued_here _ _ _ Hc Hin) as Hcpu.
  split; [apply core_set_state; [done|by rewrite Hcpu]|apply (i_cur _ H)| |].
  - intros c q Hq. rewrite state_set. change (cur (set_state s (cur s k) st) c) with (cur s c).
    case_decide as Hd; [|by apply (i_sleep _ H)]. right. subst q.
    by rewrite <- (queued_here _ _ _ Hc Hq), Hcpu.
  - intros c. rewrite state_set. case_decide as Hd; [by rewrite <- Hd in Ht|apply (i_idle_state _ H)].
Qed.

Lemma inv_fork s k p : inv s -> (k < nr_cpu_ids)%nat -> is_task p -> p ∉ tasks s -> inv (fork_task s k p).
Proof.
  intros H Hk Ht Hp. pose proof (i_core _ H) as Hc. unfold fork_task.
  assert (Hme : cpu s (cur s k) = k) by (apply on_cpu_cpu; [done|by apply inv_on_cpu]).
  assert (Hno : forall c, p ∉ runqueue s c) by (intros c Hin; by destruct (c_queued _ Hc _ _ Hin) as (_ & _ & ?)).
  apply wake_up_process_inv; [|simpl; rewrite elem_of_app; right; by left].
  split; [split|..]; simpl; intros *; rewrite ?elem_of_app, ?list_elem_of_singleton.
  - apply (c_nodup _ Hc).
  - intros Hq. destruct (c_queued _ Hc _ _ Hq) as (? & ? & ?).
    rewrite fn_lookup_insert_ne by (intros ->; by apply (Hno c)). auto.
  - intros [Hq| ->].
    + rewrite fn_lookup_insert_ne by (intros ->; done). by apply (c_tasks _ Hc).
    + rewrite fn_lookup_insert, Hme. done.
  - rewrite fn_lookup_insert_ne by (intros ->; done). apply (c_idle _ Hc).
  - intros [Hq| ->].
    + rewrite !fn_lookup_insert_ne by (intros ->; done). by apply (c_runnable _ Hc).
    + by rewrite fn_lookup_insert.
  - apply (i_cur _ H).
  - intros Hq. rewrite fn_lookup_insert_ne by (intros ->; by apply (Hno c)). by apply (i_sleep _ H).
  - rewrite fn_lookup_insert_ne by (intros ->; done). apply (i_idle_state _ H).
Qed.

Lemma inv_affinity s k p mask : inv s -> p ∈ tasks s ->
  p = cur s k \/ state s p = TASK_RUNNING \/ ~ running s p -> inv (sched_set_cpus_allowed s k p mask).1.
Proof.
  intros H Hp Hb. unfold sched_set_cpus_allowed.
  destruct (Z.land mask online =? 0); [done|].
  destruct (bool_decide (p = cur s k) && negb (Z.testbit (Z.land mask online) (Z.of_nat (cpu s p)))) eqn:E; [done|].
  destruct (negb _ && negb (state s p =? TASK_RUNNING)) eqn:E2; [|by apply inv_set_allowed].
  destruct (list_find _ _) as [[i c]|] eqn:Ef; [|by apply inv_set_allowed]. cbn [fst].
  apply andb_true_iff in E2 as [E2 E3%negb_true_iff%Z.eqb_neq].
  assert (Hn : ~ running s p).
  { destruct Hb as [->|[?|?]]; [|done|done]. by rewrite bool_decide_eq_true_2, E2 in E by done. }
  assert (Hno : forall j, p ∉ runqueue s j).
  { intros j Hin. destruct (i_sleep _ H j p Hin) as [?|Hcur]; [done|]. apply Hn. exists j. split; [|done].
    by apply (c_queued _ (i_core _ H) _ _ Hin). }
  assert (Hc : (c < nr_cpu_ids)%nat).
  { apply list_find_Some in Ef as (Hi & _ & _). apply list_elem_of_lookup_2, elem_of_seq in Hi. lia. }
  apply (inv_set_allowed _ p (Z.land mask online)) in H. set (s1 := set_allowed s p (Z.land mask online)) in *.
  pose proof (i_core _ H) as Hcore.
  split; [split|..]; cbn [set_cpu tasks state runqueue cur]; intros *; rewrite ?cpu_set.
  - apply (c_nodup _ Hcore).
  - intros Hq. rewrite decide_False by (intros ->; by apply (Hno c0)). by apply (c_queued _ Hcore).
  - intros Hq. split; [by apply (c_tasks _ Hcore)|]. destruct (decide _); [done|by apply (c_tasks _ Hcore)].
  - rewrite decide_False; [apply (c_idle _ Hcore)|]. intros <-. by destruct (c_tasks _ Hcore (Idle c0) Hp).
  - intros Hq Hr. rewrite decide_False by (intros ->; by apply E3). by apply (c_runnable _ Hcore).
  - apply (i_cur _ H).
  - apply (i_sleep _ H).
  - apply (i_idle_state _ H).
Qed.

Lemma inv_continue s p : inv s -> (state s p = TASK_STOPPED -> running s p) -> inv (send_sig_continue s p).
Proof.
  intros H Hr. unfold send_sig_continue. destruct (Z.eqb_spec (state s p) TASK_STOPPED) as [E|E]; [|done].
  destruct (Hr E) as (k & Hk & <-). apply inv_set_state_current; [done|done|].
  destruct (cur s k) eqn:Ec; [|done]. by rewrite (i_idle_state _ H) in E.
Qed.

Lemma reach_inv s : (0 < nr_cpu_ids)%nat -> reach s -> inv s.
Proof.
  intros Hn. induction 1 as [|s e s' _ IH Hstep Hb].
  - split; [split|..]; cbn [boot tasks state cpu runqueue cur]; intros *;
      [constructor|by intros ?%not_elem_of_nil..|done|by intros ?%not_elem_of_nil|by left|
       by intros ?%not_elem_of_nil|done].
  - destruct Hstep as [s k late s' Hk E|s k st Hk Ht|s p Hp|s p b|s k Hk|s k p Hk Ht Hp|s k p mask Hk Hp|s p].
    + destruct (schedule_ok s k late IH Hk) as (s'' & E' & Hs). rewrite E in E'. injection E' as <-. apply Hs.
    + by apply inv_set_state_current.
    + by apply wake_up_process_inv.
    + by apply inv_set_pending.
    + unfold tick. destruct (_ >? 0); [by apply inv_set_counter|done].
    + by apply inv_fork.
    + by apply inv_affinity.
    + by apply inv_continue.
Qed.

(** ** A continued task that was parked *)

(** Runnable for the bookkeeping, but on no queue and on no CPU. *)
Definition lost (s : sched) (p : tid) : Prop :=
  is_task p /\ p ∈ tasks s /\ state s p = TASK_RUNNING /\
  (forall c, p ∉ runqueue s c) /\ (forall k, cur s k <> p).

Lemma mk_lost s s' p : lost s p -> tasks s' = tasks s -> cur s' = cur s ->
  state s' p = TASK_RUNNING -> (forall c, p ∈ runqueue s' c -> p ∈ runqueue s c) -> lost s' p.
Proof.
  intros (Ht & Hin & _ & Hr & Hc) E1 E2 Hs Hq. split; [done|]. rewrite E1, E2.
  split; [done|]. split; [done|]. split; [|done]. intros c Hx. by apply (Hr c), Hq.
Qed.

Lemma set_state_lost s q v p : lost s p -> q <> p \/ v = TASK_RUNNING -> lost (set_state s q v) p.
Proof.
  intros H Hq. apply (mk_lost s); try done. rewrite state_set. destruct H as (_ & _ & Hs & _).
  case_decide; [|done]. subst. by destruct Hq.
Qed.

Lemma enqueue_lost s c q p : lost s p -> q <> p -> lost (enqueue_task s c q) p.
Proof.
  intros H Hq. apply (mk_lost s); try done; [apply H|]. intros j. rewrite in_enqueue. intros [?|[_ ?]]; done.
Qed.

(** [schedule] keeps everything about a runnable task that it does not run. *)
Lemma wake_signalled_lost me s q p : lost s p -> lost (wake_signalled me s q) p.
Proof.
  intros H. pose proof H as (_ & _ & Hs & _). unfold wake_signalled.
  destruct (Z.eqb_spec (state s q) TASK_INTERRUPTIBLE) as [E|E]; [|rewrite orb_true_r; done].
  assert (q <> p) by (intros ->; by rewrite Hs in E). destruct (_ || _ || _); [done|].
  destruct (task_on_runqueue _ q); [by apply set_state_lost; [|right]|].
  apply enqueue_lost; [|done]. by apply (set_state_lost s q TASK_RUNNING); [|right].
Qed.

Lemma scan_lost me l s p : lost s p -> lost (foldl (wake_signalled me) s l) p.
Proof. revert s. induction l as [|q l IH]; intros s H; [done|]. cbn [foldl]. apply IH. by apply wake_signalled_lost. Qed.

Lemma resolve_lost s me idle p : lost s p -> p <> me -> lost (resolve_current s me idle) p.
Proof.
  intros H Hne. unfold resolve_current.
  destruct (_ && bool_decide _); [|done]. destruct (_ && pending s me); [by apply set_state_lost; [|right]|].
  destruct (task_on_runqueue s me); [|done]. apply (mk_lost s); try done; [apply H|].
  by intros c [_ Hx]%list_elem_of_filter.
Qed.

Lemma recheck_lost s c me p : lost s p -> p <> me -> lost (recheck_current s c me) p.
Proof.
  intros H Hne. unfold recheck_current. destruct (_ && pending s me); [|done].
  destruct (task_on_runqueue _ me); [|apply enqueue_lost; [|congruence]]; by apply set_state_lost; [|right].
Qed.

Lemma schedule_lost s k late s' p : lost s p -> schedule s k late = Some s' -> lost s' p.
Proof.
  intros H. unfold schedule. assert (Hne : p <> cur s k) by (intros ->; destruct H as (_ & _ & _ & _ & H); by apply (H k)).
  set (idle := smp_idle_task (cpu s (cur s k))). set (c := cpu s (cur s k)).
  pose proof (scan_lost (cur s k) (tasks (resolve_current s (cur s k) idle)) _ _ (resolve_lost s (cur s k) idle p H Hne)) as H2.
  set (s2 := foldl _ _ _) in *. clearbody s2.
  assert (H3 : lost (if late then set_pending s2 (cur s k) true else s2) p) by (by destruct late).
  apply (recheck_lost _ c (cur s k)) in H3; [|done]. set (s4 := recheck_current _ c _) in *. clearbody s4.
  pose proof (pick_next_spec s4 idle (runqueue s4 c)) as Hp.
  destruct (pick_next s4 idle (runqueue s4 c)) as [next best].
  assert (Hnp : next <> p).
  { destruct H3 as (Ht & _ & _ & Hr & _). destruct Hp as [(-> & _)|(Hin & _)]; intros Heq; subst p; [done|].
    by apply (Hr c). }
  set (s5 := if best =? 0 then refill s4 else s4).
  assert (H5 : lost s5 p) by (subst s5; by destruct (best =? 0)). clearbody s5.
  destruct (bool_decide (next = cur s k)); [by intros [= <-]|]. cbv zeta.
  destruct (bool_decide _); [|done]. intros [= <-]. destruct H5 as (? & ? & ? & ? & Hc).
  repeat (split; [done|]). intros j. unfold set_cur. cbn [cur].
  destruct (decide (j = cpu s5 next)) as [->|Hj]; [by rewrite fn_lookup_insert|by rewrite fn_lookup_insert_ne].
Qed.

Lemma wake_up_process_lost s q p : lost s p -> q <> p -> lost (wake_up_process s q) p.
Proof.
  intros H Hne. unfold wake_up_process.
  destruct (negb _); destruct (task_on_runqueue _ q); try done;
    try apply enqueue_lost; try done; by apply set_state_lost; [|right].
Qed.

Lemma step_lost s e s' p : lost s p -> step s e s' -> e <> EvWake p -> lost s' p.
Proof.
  intros H Hstep He. pose proof H as (Ht & Hin & Hs & Hr & Hc).
  destruct Hstep as [s k late s' Hk E|s k st Hk Hk'|s q Hq|s q b|s k Hk|s k q Hk Hq Hnq|s k q mask Hk Hq|s q].
  - by eapply schedule_lost.
  - apply set_state_lost; [done|]. left. apply Hc.
  - apply wake_up_process_lost; [done|congruence].
  - done.
  - unfold tick. by destruct (_ >? 0).
  - assert (q <> p) by congruence. apply wake_up_process_lost; [|done].
    split; [done|]. simpl. split; [apply elem_of_app; by left|]. by rewrite fn_lookup_insert_ne.
  - unfold sched_set_cpus_allowed. destruct (_ =? 0); [done|]. destruct (_ && _); [done|].
    destruct (_ && _); [|done]. by destruct (list_find _ _) as [[? ?]|].
  - unfold send_sig_continue. destruct (_ =? _); [|done]. by apply set_state_lost; [|right].
Qed.

(** Runs whose events satisfy [P]. *)
Inductive steps (P : event -> Prop) : sched -> sched -> Prop :=
  | steps_refl s : steps P s s
  | steps_cons s e s' s'' : step s e s' -> P e -> steps P s' s'' -> steps P s s''.

(** C19: on any run of the machine in which every event is [benign], [schedule]
    never fails its assertion, no task runs on two CPUs, and every runnable task
    is queued on the CPU it belongs to and nowhere else.  Two events are not
    benign, and break it: changing the affinity of a task that has marked itself
    sleeping and still runs on another CPU, and continuing a stopped task that
    has left its CPU. *)
Theorem sched_safe s : (0 < nr_cpu_ids)%nat -> reach s ->
  (forall k late, (k < nr_cpu_ids)%nat -> schedule s k late <> None) /\
  (forall j k, (j < nr_cpu_ids)%nat -> (k < nr_cpu_ids)%nat -> cur s j = cur s k -> j = k) /\
  (forall p, p ∈ tasks s -> state s p = TASK_RUNNING ->
     forall c, p ∈ runqueue s c <-> c = cpu s p) /\
  (forall c, NoDup (runqueue s c)).
Proof.
  intros Hn Hr. pose proof (reach_inv s Hn Hr) as H. pose proof (i_core _ H) as Hc.
  split; [|split; [|split]].
  - intros k late Hk. destruct (schedule_ok s k late H Hk) as (s' & -> & _). done.
  - intros j k Hj Hk E. pose proof (on_cpu_cpu s j Hc (inv_on_cpu s j H Hj)) as Ej.
    pose proof (on_cpu_cpu s k Hc (inv_on_cpu s k H Hk)) as Ek. congruence.
  - intros p Hp Hs c. split; [intros Hin; symmetry; by eapply queued_here|].
    intros ->. by apply (c_runnable _ Hc).
  - apply (c_nodup _ Hc).
Qed.

(** [schedule] makes every interruptible sleeper with a pending signal
    runnable, takes a sleeping task off the CPU, leaves the other CPUs alone,
    and gives the CPU to a queued task with the largest time slice, to the idle
    task only when nothing is queued. *)
Theorem schedule_choice s k late : (0 < nr_cpu_ids)%nat -> reach s -> (k < nr_cpu_ids)%nat ->
  (forall p, 0 <= counter s p) ->
  exists s', schedule s k late = Some s' /\
    (forall p, p ∈ tasks s -> state s p = TASK_INTERRUPTIBLE -> pending s p = true -> state s' p = TASK_RUNNING) /\
    (state s (cur s k) <> TASK_RUNNING ->
     (state s (cur s k) = TASK_INTERRUPTIBLE -> pending s (cur s k) = false /\ late = false) ->
     cur s' k <> cur s k) /\
    (forall j, j <> k -> cur s' j = cur s j) /\
    (cur s' k = Idle k <-> runqueue s' k = []) /\
    (forall p, p ∈ runqueue s' k -> cur s' k ∈ runqueue s' k /\ counter s p <= counter s (cur s' k)).
Proof.
  intros Hn Hr Hk Hcnt. pose proof (reach_inv s Hn Hr) as H.
  destruct (schedule_ok s k late H Hk) as (s' & E & H' & _ & Hj & Hsig & Hpark & Hmax).
  exists s'. do 4 (split; [done|]). split.
  - split; intros Heq.
    + destruct (runqueue s' k) as [|p l] eqn:El; [done|].
      destruct (Hmax p ltac:(left)) as [[_ ?]|[Hin _]]; [specialize (Hcnt p); lia|].
      rewrite Heq, <- El in Hin. by apply idle_not_queued in Hin; [|apply (i_core _ H')].
    + destruct (i_cur _ H' k Hk) as [?|Hin]; [done|]. rewrite Heq in Hin. by apply not_elem_of_nil in Hin.
  - intros p Hp. destruct (Hmax p Hp) as [[_ ?]|?]; [specialize (Hcnt p); lia|done].
Qed.

(** a stopped task that has left its CPU and is sent SIGCONT or SIGKILL
    becomes runnable but is queued nowhere, and no run without an explicit
    [wake_up_process] of it (which nothing performs for a stopped task) ever
    gives it a CPU again. *)
Theorem sigcont_loses_stopped_task s p s' : (0 < nr_cpu_ids)%nat -> reach s -> p ∈ tasks s ->
  state s p = TASK_STOPPED -> (forall k, cur s k <> p) ->
  steps (fun e => e <> EvWake p) (send_sig_continue s p) s' ->
  state s' p = TASK_RUNNING /\ (forall c, p ∉ runqueue s' c) /\ (forall k, cur s' k <> p).
Proof.
  intros Hn Hr Hp Hs Hc Hsteps. pose proof (reach_inv s Hn Hr) as H.
  assert (Hlost : lost (send_sig_continue s p) p).
  { unfold send_sig_continue. rewrite Hs. simpl. split; [by apply (c_tasks _ (i_core _ H))|].
    split; [done|]. split; [by rewrite state_set, decide_True|]. split; [|done].
    intros c Hin. destruct (i_sleep _ H c p Hin) as [?|?]; [by rewrite Hs in *|by apply (Hc c)]. }
  clear Hs Hc. induction Hsteps as [s1|s1 e s2 s3 Hstep He _ IH].
  - destruct Hlost as (_ & _ & ? & ? & ?). done.
  - apply IH. by eapply step_lost.
Qed.

(** An executable form of [step]. *)
Definition exec (s : sched) (e : event) : option sched :=
  match e with
  | EvSchedule k late => if (k <? nr_cpu_ids)%nat then schedule s k late else None
  | EvState k st => match cur s k with
                    | Idle _ => None
                    | Task _ => if (k <? nr_cpu_ids)%nat then Some (set_state s (cur s k) st) else None
                    end
  | EvWake p => if bool_decide (p ∈ tasks s) then Some (wake_up_process s p) else None
  | EvSignal p b => Some (set_pending s p b)
  | EvTick k => if (k <? nr_cpu_ids)%nat then Some (tick s k) else None
  | EvFork k (Task n) => if (k <? nr_cpu_ids)%nat && bool_decide (Task n ∉ tasks s)
                         then Some (fork_task s k (Task n)) else None
  | EvFork _ (Idle _) => None
  | EvAffinity k p mask => if (k <? nr_cpu_ids)%nat && bool_decide (p ∈ tasks s)
                           then Some (sched_set_cpus_allowed s k p mask).1 else None
  | EvContinue p => Some (send_sig_continue s p)
  end.

Lemma exec_step s e s' : exec s e = Some s' -> step s e s'.
Proof.
  destruct e as [k late|k st|p|p b|k|k [c|n]|k p mask|p]; simpl; try done.
  - destruct (Nat.ltb_spec k nr_cpu_ids); [|done]. by constructor.
  - destruct (cur s k) eqn:E; [done|]. destruct (Nat.ltb_spec k nr_cpu_ids); [|done].
    intros [= <-]. rewrite <- E. constructor; [done|by rewrite E].
  - case_bool_decide; [|done]. intros [= <-]. by constructor.
  - intros [= <-]. constructor.
  - destruct (Nat.ltb_spec k nr_cpu_ids); [|done]. intros [= <-]. by constructor.
  - destruct (Nat.ltb_spec k nr_cpu_ids); [|done]. case_bool_decide; [|done]. intros [= <-]. by constructor.
  - destruct (Nat.ltb_spec k nr_cpu_ids); [|done]. case_bool_decide; [|done]. intros [= <-]. by constructor.
  - intros [= <-]. constructor.
Qed.

Fixpoint run (s : sched) (l : list event) : option sched :=
  match l with
  | [] => Some s
  | e :: l' => match exec s e with None => None | Some s' => run s' l' end
  end.

Lemma run_steps s l s' : run s l = Some s' -> steps (fun _ => True) s s'.
Proof.
  revert s. induction l as [|e l IH]; intros s; simpl; [intros [= <-]; constructor|].
  destruct (exec s e) as [s1|] eqn:E; [|done]. intros H. econstructor; [by apply exec_step|done|by apply IH].
Qed.

(** Events that are benign whatever the state. *)
Definition always_benign (e : event) : bool :=
  match e with EvAffinity _ _ _ | EvContinue _ => false | _ => true end.

Lemma run_reach s l s' : reach s -> forallb always_benign l = true -> run s l = Some s' -> reach s'.
Proof.
  revert s. induction l as [|e l IH]; intros s Hr; simpl; [by intros _ [= <-]|].
  intros [He Hl]%andb_true_iff. destruct (exec s e) as [s1|] eqn:E; [|done]. apply IH; [|done].
  eapply reach_step; [done|by apply exec_step|by destruct e].
Qed.

End sched.

(** ** The affinity race *)

(** Two CPUs; task 2 runs on CPU 0, task 1 is moved to CPU 1 by a signal; task 2
    marks itself sleeping, and before it reaches [schedule] task 1 changes the
    affinity of task 2. *)
Definition race : list event :=
  [EvFork 0 (Task 1); EvFork 0 (Task 2); EvSchedule 0 false; EvState 0 TASK_INTERRUPTIBLE;
   EvSchedule 0 false; EvSignal (Task 1) true; EvSchedule 0 false; EvSchedule 1 false;
   EvSignal (Task 1) false; EvState 0 TASK_INTERRUPTIBLE; EvAffinity 1 (Task 2) 2].

(** [sched_set_cpus_allowed] moves a task that is about to sleep but still
    runs on its CPU; the machine then reaches a state in which [schedule] uses
    the run queue of the wrong CPU and fails the assertion [current == n]. *)
Theorem affinity_race_fails_assertion :
  exists s, steps 2 3 (fun _ => True) boot s /\
    cur s 0%nat = Task 2 /\ cur s 1%nat = Task 1 /\ schedule 2 3 s 0 false = None.
Proof.
  exists (default boot (run 2 3 boot race)). split; [|split; [|split]]; try (by vm_compute).
  apply (run_steps 2 3 boot race). destruct (run 2 3 boot race) eqn:E; [done|].
  assert (H : is_Some (run 2 3 boot race)) by (vm_compute; by eexists). rewrite E in H. by destruct H.
Qed.

(** ** Concrete runs *)

Definition ex_trace : list event :=
  [EvFork 0 (Task 1); EvFork 0 (Task 2); EvSchedule 0 false; EvTick 0; EvState 0 TASK_STOPPED; EvSchedule 0 false].
Definition ex_state : sched := default boot (run 2 3 boot ex_trace).

Lemma ex_run : run 2 3 boot ex_trace = Some ex_state.
Proof.
  unfold ex_state. destruct (run 2 3 boot ex_trace) eqn:E; [done|].
  assert (H : is_Some (run 2 3 boot ex_trace)) by (vm_compute; by eexists). rewrite E in H. by destruct H.
Qed.

Lemma ex_reach : reach 2 3 ex_state.
Proof. apply (run_reach 2 3 boot ex_trace); [constructor|done|apply ex_run]. Qed.

Lemma sched_safe_witness :
  cur ex_state 0%nat = Task 2 /\ (forall c, NoDup (runqueue ex_state c)).
Proof. split; [by vm_compute|]. apply (sched_safe 2 3 ex_state); [lia|exact ex_reach]. Defined.

Lemma schedule_choice_witness :
  exists s', schedule 2 3 ex_state 0 false = Some s' /\ (cur s' 0%nat = Idle 0 <-> runqueue s' 0%nat = []).
Proof.
  destruct (schedule_choice 2 3 ex_state 0 false) as (s' & E & _ & _ & _ & H & _).
  - lia.
  - exact ex_reach.
  - lia.
  - intros [[|c]|[|[|[|n]]]]; vm_compute; done.
  - exists s'. split; [exact E|exact H].
Defined.

Lemma sigcont_loses_stopped_task_witness :
  state ex_state (Task 1) = TASK_STOPPED /\
  state (send_sig_continue ex_state (Task 1)) (Task 1) = TASK_RUNNING /\
  Task 1 ∉ runqueue (send_sig_continue ex_state (Task 1)) 0%nat.
Proof.
  split; [by vm_compute|].
  destruct (sigcont_loses_stopped_task 2 3 ex_state (Task 1) (send_sig_continue ex_state (Task 1)))
    as (H1 & H2 & _).
  - lia.
  - exact ex_reach.
  - vm_compute. left.
  - by vm_compute.
  - intros [|[|k]]; vm_compute; done.
  - constructor.
  - split; [exact H1|exact (H2 0%nat)].
Defined.

End Sched.
