(* ===== verification/Pipe.v ===== *)
(** * Pipes and FIFOs ([fs/pipe.c], the pipe part of [fs/file.c])

    The critical sections of [pipe_read], [pipe_write], [fifo_open], of the
    release methods and of [copy_fd], as functions on the pipe, and the system
    of any number of threads that run them: a blocked call queues itself and
    sleeps ([sleep_on]), a wake-up makes every sleeper of a queue runnable, and
    a thread that runs again leaves the queue and goes on.  Every step is one
    critical section, so a run is a sequence of events in any order.  What the
    first opener of a FIFO does before it takes the lock is a layer of its own
    around that system: two of them at once break it. *)
From S2P Require Import Prelude.
From S2P Require Import ByteQueue.
From S2P Require Import RingBuffer.
From stdpp Require Import fin_sets.
#[local] Open Scope Z_scope.

Module Pipe.

Definition ENXIO : Z := 6.
Definition ESPIPE : Z := 29.
Definition ERESTARTSYS : Z := 512.
Definition ENFILE : Z := 23.
Definition NR_FILE : Z := 1024.
Definition POLLIN : Z := 1.
Definition POLLOUT : Z := 4.
Definition POLLHUP : Z := 16.

(** The access mode of a descriptor: [f_mode] 1, 2 and 3. *)
Inductive mode := MRead | MWrite | MBoth.

#[export] Instance mode_eq_dec : EqDecision mode.
Proof. solve_decision. Defined.

Definition can_read (m : mode) : bool := match m with MWrite => false | _ => true end.
Definition can_write (m : mode) : bool := match m with MRead => false | _ => true end.

Section pipe.
Context {Q : Type} {BQ : ByteQueue Q} {BQL : ByteQueueLaws Q}.

(** [struct pipe_inode_info] without its queues and lock; the counters are
    [unsigned]. *)
Record pipe := mkpipe {
  rb : Q;
  n_reader : Z;
  n_writer : Z;
}.

Definition inc (n : Z) : Z := u32 (n + 1).
Definition dec (n : Z) : Z := u32 (n - 1).

(** Which wait queues a section wakes: [wait_read], [wait_write]. *)
Record wakes := mkwakes { wk_read : bool; wk_write : bool }.
Definition wake_none := mkwakes false false.
Definition wake_readers := mkwakes true false.
Definition wake_writers := mkwakes false true.
Definition wake_both := mkwakes true true.

(** ** Critical sections *)

(** [pipe_read]: the result and the bytes, or [None] to sleep. *)
Definition pipe_read (p : pipe) (count : Z) (nonblock : bool) : pipe * option (Z * list Z) * wakes :=
  if bq_empty (rb p) then
    if n_writer p =? 0 then (p, Some (0, []), wake_none)
    else if nonblock then (p, Some (- EAGAIN, []), wake_none)
    else (p, None, wake_none)
  else
    let '(q, out, n) := bq_read (rb p) count in
    (mkpipe q (n_reader p) (n_writer p), Some (n, out), wake_writers).

(** [pipe_write]; with no reader the caller also gets [SIGPIPE]. *)
Definition pipe_write (p : pipe) (buf : list Z) (count : Z) (nonblock : bool) : pipe * option Z * wakes :=
  if n_reader p =? 0 then (p, Some (- EPIPE), wake_none)
  else if bq_full (rb p) then
    if nonblock then (p, Some (- EAGAIN), wake_none) else (p, None, wake_none)
  else
    let '(q, n) := bq_write (rb p) buf count in
    (mkpipe q (n_reader p) (n_writer p), Some n, wake_readers).

(** [pipe_read_release], [pipe_write_release] with their assertions, and
    [fifo_rdwr_release]. *)
Definition release (p : pipe) (m : mode) : option (pipe * wakes) :=
  match m with
  | MRead => assert! n_reader p >? 0 ;; Some (mkpipe (rb p) (dec (n_reader p)) (n_writer p), wake_writers)
  | MWrite => assert! n_writer p >? 0 ;; Some (mkpipe (rb p) (n_reader p) (dec (n_writer p)), wake_readers)
  | MBoth => Some (mkpipe (rb p) (if n_reader p =? 0 then 0 else dec (n_reader p))
                     (if n_writer p =? 0 then 0 else dec (n_writer p)), wake_both)
  end.

(** [copy_fd]: the child's descriptor counts too. *)
Definition copy_fd (p : pipe) (m : mode) : pipe :=
  mkpipe (rb p) (if can_read m then inc (n_reader p) else n_reader p)
         (if can_write m then inc (n_writer p) else n_writer p).

(** [init_pipe_inode_info]; the argument is what [page_alloc] gives. *)
Definition init_pipe_inode_info `{QueueStore Q} (page : option (list Z)) : option pipe :=
  match page with None => None | Some pg => Some (mkpipe (bq_new pg) 1 1) end.

(** What [fifo_open] does without the lock when [I_Pipe] is not set; the wait
    queues are reset with it. *)
Definition fifo_first `{QueueStore Q} (page : option (list Z)) : option pipe :=
  match init_pipe_inode_info page with None => None | Some p => Some (mkpipe (rb p) 0 0) end.

(** [fifo_open] from the lock up to its end or its [sleep_on] ([None]). *)
Definition fifo_open (p : pipe) (m : mode) (nonblock : bool) : pipe * option Z * wakes :=
  match m with
  | MBoth => (mkpipe (rb p) (inc (n_reader p)) (inc (n_writer p)), Some 0, wake_both)
  | MRead =>
      (mkpipe (rb p) (inc (n_reader p)) (n_writer p),
       if (n_writer p =? 0) && negb nonblock then None else Some 0, wake_writers)
  | MWrite =>
      if n_reader p =? 0 then
        if nonblock then (mkpipe (rb p) (n_reader p) (dec (inc (n_writer p))), Some (- ENXIO), wake_readers)
        else (mkpipe (rb p) (n_reader p) (inc (n_writer p)), None, wake_readers)
      else (mkpipe (rb p) (n_reader p) (inc (n_writer p)), Some 0, wake_readers)
  end.

(** The rest of [fifo_open] after the sleep. *)
Definition fifo_open_finish (p : pipe) (m : mode) (signal : bool) : pipe * Z * wakes :=
  if negb signal then (p, 0, wake_none) else
  match m with
  | MRead => (mkpipe (rb p) (dec (n_reader p)) (n_writer p), - ERESTARTSYS, wake_writers)
  | _ => (mkpipe (rb p) (n_reader p) (dec (n_writer p)), - ERESTARTSYS, wake_readers)
  end.

Definition pipe_read_poll (p : pipe) : Z :=
  if negb (bq_empty (rb p)) then POLLIN else if n_writer p =? 0 then POLLHUP else 0.
Definition pipe_write_poll (p : pipe) : Z :=
  if n_reader p =? 0 then POLLHUP else if negb (bq_full (rb p)) then POLLOUT else 0.

(** ** Threads *)

Inductive call :=
  | CRead (count : nat) (nonblock : bool)
  | CWrite (buf : list Z) (nonblock : bool)
  | COpen (m : mode) (nonblock : bool).

(** Where a thread is: outside, about to enter the critical section, asleep in
    the wait queue of its call, made runnable but still queued, or past
    [out_wait_queue] in [fifo_open]. *)
Inductive status := Idle | Trying (c : call) | Asleep (c : call) | Woken (c : call) | Finishing (c : call).

(** The queue a call sleeps in: [true] is [wait_read]. *)
Definition on_read_queue (c : call) : bool :=
  match c with CRead _ _ => true | CWrite _ _ => false | COpen m _ => can_read m end.

(** The system.  [ends] counts the open descriptors of each mode, [opening_r]
    and [opening_w] are the threads inside a blocked [fifo_open], [pending] is
    [signal & ~blocked], and [written]/[delivered] record the bytes that went
    in and out. *)
Record sys := mksys {
  pip : pipe;
  thr : nat -> status;
  wait_read : list nat;
  wait_write : list nat;
  pending : nat -> bool;
  ends : mode -> Z;
  opening_r : gset nat;
  opening_w : gset nat;
  written : list Z;
  delivered : list Z;
}.

(** [wake_up_interruptible] on a queue. *)
Definition wake_queue (b : bool) (q : list nat) (f : nat -> status) (t : nat) : status :=
  if b && bool_decide (t ∈ q) then match f t with Asleep c => Woken c | st => st end else f t.

Definition wake_up (w : wakes) (s : sys) : sys :=
  mksys (pip s) (wake_queue (wk_write w) (wait_write s) (wake_queue (wk_read w) (wait_read s) (thr s)))
    (wait_read s) (wait_write s) (pending s) (ends s) (opening_r s) (opening_w s) (written s) (delivered s).

Definition set_thr (s : sys) (t : nat) (st : status) : sys :=
  mksys (pip s) (<[t := st]> (thr s)) (wait_read s) (wait_write s) (pending s) (ends s)
    (opening_r s) (opening_w s) (written s) (delivered s).
Definition set_pipe (s : sys) (p : pipe) : sys :=
  mksys p (thr s) (wait_read s) (wait_write s) (pending s) (ends s)
    (opening_r s) (opening_w s) (written s) (delivered s).
Definition add_end (s : sys) (m : mode) (d : Z) : sys :=
  mksys (pip s) (thr s) (wait_read s) (wait_write s) (pending s) (<[m := ends s m + d]> (ends s))
    (opening_r s) (opening_w s) (written s) (delivered s).
Definition set_opening (s : sys) (r w : gset nat) : sys :=
  mksys (pip s) (thr s) (wait_read s) (wait_write s) (pending s) (ends s) r w (written s) (delivered s).
Definition log (s : sys) (w d : list Z) : sys :=
  mksys (pip s) (thr s) (wait_read s) (wait_write s) (pending s) (ends s) (opening_r s) (opening_w s)
    (written s ++ w) (delivered s ++ d).

(** [sleep_on]: queue first, then sleep. *)
Definition sleep_on (s : sys) (t : nat) (c : call) : sys :=
  let s' := set_thr s t (Asleep c) in
  if on_read_queue c then
    mksys (pip s') (thr s') (wait_read s' ++ [t]) (wait_write s') (pending s') (ends s')
      (opening_r s') (opening_w s') (written s') (delivered s')
  else
    mksys (pip s') (thr s') (wait_read s') (wait_write s' ++ [t]) (pending s') (ends s')
      (opening_r s') (opening_w s') (written s') (delivered s').

Definition out_wait_queue (s : sys) (t : nat) : sys :=
  mksys (pip s) (thr s) (filter (fun u => u <> t) (wait_read s)) (filter (fun u => u <> t) (wait_write s))
    (pending s) (ends s) (opening_r s) (opening_w s) (written s) (delivered s).

(** The open files the counters stand for; [NR_FILE] bounds them. *)
Definition nfiles (s : sys) : Z :=
  ends s MRead + ends s MWrite + ends s MBoth + Z.of_nat (size (opening_r s)) + Z.of_nat (size (opening_w s)).

(** ** Events *)

Inductive event :=
  | EvStart (t : nat) (c : call)
  | EvRun (t : nat)                 (* the critical section of the call *)
  | EvSignal (t : nat) (b : bool)
  | EvSignalWake (t : nat)          (* [schedule] finds the pending signal *)
  | EvLeave (t : nat)               (* the woken thread runs: [out_wait_queue] *)
  | EvFinish (t : nat)              (* the rest of [fifo_open] *)
  | EvClose (m : mode)
  | EvFork (m : mode).

Inductive result := Disabled | Panic | Next (s : sys).

Definition run_call (s : sys) (t : nat) (c : call) : sys :=
  match c with
  | CRead count nb =>
    if pending s t then set_thr s t Idle else
    let '(p', r, w) := pipe_read (pip s) (Z.of_nat count) nb in
    match r with
    | None => sleep_on s t c
    | Some (_, out) => set_thr (wake_up w (log (set_pipe s p') [] out)) t Idle
    end
  | CWrite buf nb =>
    if pending s t then set_thr s t Idle else
    let '(p', r, w) := pipe_write (pip s) buf (zlength buf) nb in
    match r with
    | None => sleep_on s t c
    | Some n => set_thr (wake_up w (log (set_pipe s p') (take (Z.to_nat n) buf) [])) t Idle
    end
  | COpen m nb =>
    let '(p', r, w) := fifo_open (pip s) m nb in
    let s1 := wake_up w (set_pipe s p') in
    match r with
    | None => sleep_on (if can_read m then set_opening s1 ({[t]} ∪ opening_r s1) (opening_w s1)
                        else set_opening s1 (opening_r s1) ({[t]} ∪ opening_w s1)) t c
    | Some e => set_thr (if e =? 0 then add_end s1 m 1 else s1) t Idle
    end
  end.

Definition exec (s : sys) (e : event) : result :=
  match e with
  | EvStart t c => match thr s t with
                   | Idle => Next (set_thr s t (Trying c))
                   | _ => Disabled
                   end
  | EvRun t => match thr s t with
               | Trying (COpen m nb) => if nfiles s <? NR_FILE then Next (run_call s t (COpen m nb)) else Disabled
               | Trying c => Next (run_call s t c)
               | _ => Disabled
               end
  | EvSignal t b => Next (mksys (pip s) (thr s) (wait_read s) (wait_write s) (<[t := b]> (pending s))
                            (ends s) (opening_r s) (opening_w s) (written s) (delivered s))
  | EvSignalWake t => match thr s t with
                      | Asleep c => if pending s t then Next (set_thr s t (Woken c)) else Disabled
                      | _ => Disabled
                      end
  | EvLeave t => match thr s t with
                 | Woken (COpen m nb) => Next (set_thr (out_wait_queue s t) t (Finishing (COpen m nb)))
                 | Woken c => Next (set_thr (out_wait_queue s t) t (Trying c))
                 | _ => Disabled
                 end
  | EvFinish t => match thr s t with
                  | Finishing (COpen m nb) =>
                    let '(p', r, w) := fifo_open_finish (pip s) m (pending s t) in
                    let s1 := wake_up w (set_pipe s p') in
                    let s2 := set_opening s1 (opening_r s1 ∖ {[t]}) (opening_w s1 ∖ {[t]}) in
                    Next (set_thr (if r =? 0 then add_end s2 m 1 else s2) t Idle)
                  | _ => Disabled
                  end
  | EvClose m => if ends s m >? 0 then
                   match release (pip s) m with
                   | None => Panic
                   | Some (p', w) => Next (wake_up w (add_end (set_pipe s p') m (-1)))
                   end
                 else Disabled
  | EvFork m => if (ends s m >? 0) && (nfiles s <? NR_FILE)
                then Next (add_end (set_pipe s (copy_fd (pip s) m)) m 1) else Disabled
  end.

Inductive reach (s0 : sys) : sys -> Prop :=
  | reach_refl : reach s0 s0
  | reach_step s e s' : reach s0 s -> exec s e = Next s' -> reach s0 s'.

(** ** Invariant *)

Definition queue (s : sys) (c : call) : list nat := if on_read_queue c then wait_read s else wait_write s.
Definition wk (w : wakes) (c : call) : bool := if on_read_queue c then wk_read w else wk_write w.

(** Why a call sleeps. *)
Definition blocked (p : pipe) (c : call) : Prop :=
  match c with
  | CRead _ _ => bq_contents (rb p) = [] /\ n_writer p <> 0
  | CWrite _ _ => zlength (bq_contents (rb p)) = bq_size (rb p) /\ n_reader p <> 0
  | COpen MRead _ => n_writer p = 0
  | COpen MWrite _ => n_reader p = 0
  | COpen MBoth _ => False
  end.

(** A thread inside a blocked [fifo_open]. *)
Definition opening (st : status) (m : mode) : Prop :=
  match st with
  | Asleep (COpen m' _) | Woken (COpen m' _) | Finishing (COpen m' _) => m' = m
  | _ => False
  end.

(** Every sleeper is in its queue and has a reason to sleep; the openers are
    the threads inside [fifo_open]. *)
Record threads (s : sys) : Prop := {
  t_queued : forall t c, thr s t = Asleep c -> t ∈ queue s c;
  t_blocked : forall t c, thr s t = Asleep c -> blocked (pip s) c;
  t_opr : forall t, t ∈ opening_r s <-> opening (thr s t) MRead;
  t_opw : forall t, t ∈ opening_w s <-> opening (thr s t) MWrite;
  t_both : forall t, ~ opening (thr s t) MBoth;
}.

(** The counters are the descriptors, and no byte is lost, invented or
    reordered. *)
Record counts (s : sys) : Prop := {
  k_valid : bq_valid (rb (pip s));
  k_fifo : written s = delivered s ++ bq_contents (rb (pip s));
  k_ends : forall m, 0 <= ends s m;
  k_bound : nfiles s <= NR_FILE;
  k_reader : n_reader (pip s) = ends s MRead + ends s MBoth + Z.of_nat (size (opening_r s));
  k_writer : n_writer (pip s) = ends s MWrite + ends s MBoth + Z.of_nat (size (opening_w s));
}.

Lemma threads_ext s s' : threads s -> thr s' = thr s -> pip s' = pip s -> wait_read s' = wait_read s ->
  wait_write s' = wait_write s -> opening_r s' = opening_r s -> opening_w s' = opening_w s -> threads s'.
Proof.
  intros H1 E1 E2 E3 E4 E5 E6. destruct s, s'. simpl in *. subst. destruct H1. by split.
Qed.

(** A wake-up changes sleepers to woken threads, and every sleeper of a woken
    queue. *)
Lemma wake_thr s w t :
  thr (wake_up w s) t = thr s t \/ exists c, thr s t = Asleep c /\ thr (wake_up w s) t = Woken c.
Proof.
  unfold wake_up, wake_queue. simpl. destruct (thr s t) eqn:E; repeat case_match; eauto; congruence.
Qed.

Lemma wake_asleep s w t c : t ∈ queue s c -> wk w c = true -> thr s t = Asleep c ->
  thr (wake_up w s) t = Woken c.
Proof.
  unfold wake_up, wake_queue, queue, wk. simpl. intros Hq Hw ->.
  destruct (on_read_queue c); rewrite Hw; simpl.
  - rewrite (bool_decide_eq_true_2 (t ∈ wait_read s)) by done. by destruct (_ && _).
  - rewrite (bool_decide_eq_true_2 (t ∈ wait_write s)) by done. by destruct (_ && _).
Qed.

(** The section that turns [p] into [p'] wakes every call whose reason to sleep
    is gone. *)
Definition covers (p p' : pipe) (w : wakes) : Prop :=
  forall c, blocked p c -> blocked p' c \/ wk w c = true.

Lemma opening_woken c m : opening (Woken c) m <-> opening (Asleep c) m.
Proof. done. Qed.

Lemma threads_wake s p' w : threads s -> covers (pip s) p' w -> threads (wake_up w (set_pipe s p')).
Proof.
  intros H Hc.
  assert (Ho : forall t m, opening (thr (wake_up w (set_pipe s p')) t) m <-> opening (thr s t) m).
  { intros t m. destruct (wake_thr (set_pipe s p') w t) as [->|(c & E & ->)]; [done|].
    simpl in E. rewrite E. apply opening_woken. }
  assert (Hs : forall t c, thr (wake_up w (set_pipe s p')) t = Asleep c -> thr s t = Asleep c /\ wk w c = false).
  { intros t c E. destruct (wake_thr (set_pipe s p') w t) as [Ee|(c' & _ & Ee)]; rewrite E in Ee; [|done].
    simpl in Ee. split; [done|]. destruct (wk w c) eqn:Ew; [|done].
    rewrite (wake_asleep (set_pipe s p') w t c) in E; [done| |done|done]. by apply (t_queued _ H). }
  split.
  - intros t c [E _]%Hs. by apply (t_queued _ H).
  - intros t c [E Ew]%Hs. destruct (Hc c) as [?|?]; [by apply (t_blocked _ H t)|done|congruence].
  - intros t. rewrite Ho. apply (t_opr _ H).
  - intros t. rewrite Ho. apply (t_opw _ H).
  - intros t. rewrite Ho. apply (t_both _ H).
Qed.

Lemma thr_set s t st u : thr (set_thr s t st) u = if decide (u = t) then st else thr s u.
Proof.
  unfold set_thr. simpl. case_decide; [subst; by rewrite fn_lookup_insert|by rewrite fn_lookup_insert_ne].
Qed.

(** Moving one thread to a state that does not sleep, with the openers. *)
Lemma threads_set s t st r w : threads s -> (forall c, st <> Asleep c) -> ~ opening st MBoth ->
  (forall u, u ∈ r <-> if decide (u = t) then opening st MRead else u ∈ opening_r s) ->
  (forall u, u ∈ w <-> if decide (u = t) then opening st MWrite else u ∈ opening_w s) ->
  threads (set_opening (set_thr s t st) r w).
Proof.
  intros H Hna Hb Hr Hw.
  split; intros u; change (thr (set_opening (set_thr s t st) r w) u) with (thr (set_thr s t st) u);
    rewrite thr_set; cbn [set_opening opening_r opening_w].
  - intros c. case_decide; [intros E; by apply Hna in E|apply (t_queued _ H)].
  - intros c. case_decide; [intros E; by apply Hna in E|apply (t_blocked _ H)].
  - rewrite Hr. case_decide; [done|apply (t_opr _ H)].
  - rewrite Hw. case_decide; [done|apply (t_opw _ H)].
  - case_decide; [done|apply (t_both _ H)].
Qed.

(** The same when neither the old nor the new state is inside [fifo_open]. *)
Lemma threads_set_plain s t st : threads s -> (forall c, st <> Asleep c) ->
  (forall m, opening st m <-> opening (thr s t) m) -> threads (set_thr s t st).
Proof.
  intros H Hna Ho. apply (threads_ext (set_opening (set_thr s t st) (opening_r s) (opening_w s))); try done.
  apply threads_set; [done|done| |intros u; case_decide; [|done]; subst|intros u; case_decide; [|done]; subst].
  - rewrite Ho. apply (t_both _ H).
  - rewrite Ho. apply (t_opr _ H).
  - rewrite Ho. apply (t_opw _ H).
Qed.

(** Going to sleep, the openers given. *)
Lemma threads_sleep s t c r w : threads s -> blocked (pip s) c ->
  (forall u, u ∈ r <-> if decide (u = t) then opening (Asleep c) MRead else u ∈ opening_r s) ->
  (forall u, u ∈ w <-> if decide (u = t) then opening (Asleep c) MWrite else u ∈ opening_w s) ->
  threads (sleep_on (set_opening s r w) t c).
Proof.
  intros H Hb Hr Hw.
  assert (Ethr : forall u, thr (sleep_on (set_opening s r w) t c) u = if decide (u = t) then Asleep c else thr s u).
  { intros u. unfold sleep_on. destruct (on_read_queue c); apply (thr_set (set_opening s r w)). }
  assert (Epip : pip (sleep_on (set_opening s r w) t c) = pip s) by (unfold sleep_on; by destruct (on_read_queue c)).
  assert (Eq : forall u d, u ∈ queue s d \/ (u = t /\ d = c) -> u ∈ queue (sleep_on (set_opening s r w) t c) d).
  { intros u d. unfold sleep_on, queue. intros Hu.
    destruct (on_read_queue c) eqn:E1, (on_read_queue d) eqn:E2; simpl; rewrite ?elem_of_app, ?list_elem_of_singleton;
      destruct Hu as [?|[-> ->]]; (tauto || congruence). }
  split; intros u.
  - intros d. rewrite Ethr. case_decide; [intros [= <-]; apply Eq; by right|].
    intros E. apply Eq. left. by apply (t_queued _ H).
  - intros d. rewrite Ethr, Epip. case_decide; [by intros [= <-]|apply (t_blocked _ H)].
  - replace (opening_r (sleep_on (set_opening s r w) t c)) with r by (unfold sleep_on; by destruct (on_read_queue c)).
    rewrite Hr, Ethr. case_decide; [done|apply (t_opr _ H)].
  - replace (opening_w (sleep_on (set_opening s r w) t c)) with w by (unfold sleep_on; by destruct (on_read_queue c)).
    rewrite Hw, Ethr. case_decide; [done|apply (t_opw _ H)].
  - rewrite Ethr. case_decide; [|apply (t_both _ H)]. destruct c as [| |[]]; simpl in *; done || by intros ?.
Qed.

(** ** The sections wake whom they must *)

Lemma covers_refl p w : covers p p w.
Proof. intros c Hc. by left. Qed.

(** What a section keeps: the counters are equal and the queue valid. *)
Definition same_counters (p p' : pipe) : Prop :=
  n_reader p' = n_reader p /\ n_writer p' = n_writer p /\ bq_valid (rb p').

Lemma pipe_read_ok p (count : nat) nb : bq_valid (rb p) ->
  let '(p', r, w) := pipe_read p (Z.of_nat count) nb in
  covers p p' w /\ same_counters p p' /\
  match r with
  | None => p' = p /\ blocked p (CRead count nb)
  | Some (_, out) => bq_contents (rb p) = out ++ bq_contents (rb p')
  end.
Proof.
  intros Hv. unfold pipe_read. rewrite bq_empty_spec by done. case_bool_decide as He.
  - destruct (Z.eqb_spec (n_writer p) 0); [|destruct nb]; (split; [apply covers_refl|split; [done|]]);
      simpl; rewrite ?app_nil_l; done.
  - pose proof (bq_read_spec (rb p) (Z.of_nat count) Hv ltac:(lia)) as Hr. destruct (bq_read (rb p) _) as [[q out] n].
    destruct Hr as (_ & -> & Hd & _ & Hq). split; [|split; [done|simpl; rewrite Hd; by rewrite take_drop]].
    intros [? ?|? ?|[] ?]; simpl; try (by left); [tauto|by right].
Qed.

Lemma pipe_write_ok p buf nb : bq_valid (rb p) ->
  let '(p', r, w) := pipe_write p buf (zlength buf) nb in
  covers p p' w /\ same_counters p p' /\
  match r with
  | None => p' = p /\ blocked p (CWrite buf nb)
  | Some n => bq_contents (rb p') = bq_contents (rb p) ++ take (Z.to_nat n) buf
  end.
Proof.
  intros Hv. unfold pipe_write. rewrite bq_full_spec by done. destruct (Z.eqb_spec (n_reader p) 0) as [Er|Er].
  { split; [apply covers_refl|]. split; [done|]. simpl. by rewrite app_nil_r. }
  destruct (Z.eqb_spec (zlength (bq_contents (rb p))) (bq_size (rb p))) as [E|E].
  - destruct nb; (split; [apply covers_refl|split; [done|]]); simpl; rewrite ?app_nil_r; done.
  - pose proof (bq_write_spec (rb p) buf (zlength buf) Hv) as Hw.
    destruct (bq_write (rb p) buf (zlength buf)) as [q n].
    destruct Hw as (_ & Hd & _ & Hq); [unfold zlength; lia|]. split; [|done].
    intros [? ?|? ?|[] ?]; simpl; try (by left); [by right|tauto].
Qed.

Definition in_range (n : Z) : Prop := 0 <= n < 2 ^ 32 - 1.

Lemma inc_ok n : in_range n -> inc n = n + 1.
Proof. unfold in_range, inc. intros. apply u32_small. lia. Qed.

Lemma dec_ok n : 0 < n < 2 ^ 32 -> dec n = n - 1.
Proof. unfold dec. intros. apply u32_small. lia. Qed.

Lemma release_ok p m : in_range (n_reader p) -> in_range (n_writer p) ->
  (can_read m = true -> 0 < n_reader p) -> (can_write m = true -> 0 < n_writer p) ->
  exists p' w, release p m = Some (p', w) /\ covers p p' w /\ rb p' = rb p /\
    n_reader p' = n_reader p - Z.b2z (can_read m) /\ n_writer p' = n_writer p - Z.b2z (can_write m).
Proof.
  unfold in_range. intros Hr Hw Hr0 Hw0. destruct m; simpl in *.
  - specialize (Hr0 eq_refl). destruct (Z.gtb_spec (n_reader p) 0); [|lia]. eexists _, _. split; [done|]. simpl.
    rewrite dec_ok by lia. repeat split; try lia. intros [? ?|? ?|[] ?]; simpl; try (by left); by right.
  - specialize (Hw0 eq_refl). destruct (Z.gtb_spec (n_writer p) 0); [|lia]. eexists _, _. split; [done|]. simpl.
    rewrite dec_ok by lia. repeat split; try lia. intros [? ?|? ?|[] ?]; simpl; try (by left); by right.
  - specialize (Hr0 eq_refl). specialize (Hw0 eq_refl). eexists _, _. split; [done|]. simpl.
    rewrite !(proj2 (Z.eqb_neq _ 0)) by lia. rewrite !dec_ok by lia. repeat split; try lia.
    intros [? ?|? ?|[] ?]; simpl; try done; by right.
Qed.

Lemma copy_fd_ok p m : in_range (n_reader p) -> in_range (n_writer p) ->
  (can_read m = true -> 0 < n_reader p) -> (can_write m = true -> 0 < n_writer p) ->
  covers p (copy_fd p m) wake_none /\ rb (copy_fd p m) = rb p /\
  n_reader (copy_fd p m) = n_reader p + Z.b2z (can_read m) /\
  n_writer (copy_fd p m) = n_writer p + Z.b2z (can_write m).
Proof.
  unfold in_range. intros Hr Hw Hr0 Hw0. unfold copy_fd. simpl.
  rewrite !inc_ok by (unfold in_range; lia). split; [|split; [done|destruct m; simpl; lia]].
  intros [? ?|? ?|m' ?]; simpl.
  - intros [? ?]. left. split; [done|]. destruct (can_write m); lia.
  - intros [? ?]. left. split; [done|]. destruct (can_read m); lia.
  - destruct m'; [intros ?; left; destruct (can_write m); [specialize (Hw0 eq_refl)|]; lia| |done].
    intros ?; left; destruct (can_read m); [specialize (Hr0 eq_refl)|]; lia.
Qed.

Lemma fifo_open_ok p m nb : in_range (n_reader p) -> in_range (n_writer p) ->
  let '(p', r, w) := fifo_open p m nb in
  covers p p' w /\ rb p' = rb p /\
  match r with
  | None => blocked p' (COpen m nb) /\ m <> MBoth /\
      n_reader p' = n_reader p + Z.b2z (can_read m) /\ n_writer p' = n_writer p + Z.b2z (can_write m)
  | Some 0 => n_reader p' = n_reader p + Z.b2z (can_read m) /\ n_writer p' = n_writer p + Z.b2z (can_write m)
  | Some _ => n_reader p' = n_reader p /\ n_writer p' = n_writer p
  end.
Proof.
  intros Hr Hw. destruct m; simpl.
  - rewrite inc_ok by done. split; [|split; [done|]].
    + intros [? ?|? ?|[] ?]; simpl; try (by left); by right.
    + destruct (Z.eqb_spec (n_writer p) 0), nb; simpl; repeat split; (done || lia).
  - rewrite inc_ok by done. unfold in_range in *. destruct (Z.eqb_spec (n_reader p) 0); [destruct nb|].
    + rewrite dec_ok by lia. replace (n_writer p + 1 - 1) with (n_writer p) by lia.
      destruct p; simpl in *. split; [apply covers_refl|]. done.
    + split; [|split; [done|simpl; repeat split; (done || lia)]]. intros [? ?|? ?|[] ?]; simpl; try (by left); by right.
    + split; [|split; [done|simpl; lia]]. intros [? ?|? ?|[] ?]; simpl; try (by left); by right.
  - rewrite !inc_ok by done. split; [|split; [done|simpl; lia]]. intros [? ?|? ?|[] ?]; simpl; try done; by right.
Qed.

Lemma fifo_open_finish_ok p m sig : in_range (n_reader p) -> in_range (n_writer p) -> m <> MBoth ->
  (can_read m = true -> 0 < n_reader p) -> (can_write m = true -> 0 < n_writer p) ->
  let '(p', r, w) := fifo_open_finish p m sig in
  covers p p' w /\ rb p' = rb p /\
  (r = 0 /\ p' = p \/
   r <> 0 /\ n_reader p' = n_reader p - Z.b2z (can_read m) /\ n_writer p' = n_writer p - Z.b2z (can_write m)).
Proof.
  unfold in_range. intros Hr Hw Hm Hr0 Hw0. unfold fifo_open_finish. destruct sig; simpl.
  2: { split; [apply covers_refl|]. split; [done|]. by left. }
  destruct m; simpl in *; [specialize (Hr0 eq_refl)|specialize (Hw0 eq_refl)|done];
    rewrite dec_ok by lia; (split; [|split; [done|right; split; [done|lia]]]);
    intros [? ?|? ?|[] ?]; simpl; try (by left); by right.
Qed.

(** ** Every event keeps the invariant *)

Lemma counts_ext s s' : counts s -> pip s' = pip s -> ends s' = ends s -> opening_r s' = opening_r s ->
  opening_w s' = opening_w s -> written s' = written s -> delivered s' = delivered s -> counts s'.
Proof.
  intros H1 E1 E2 E3 E4 E5 E6. destruct s, s'. simpl in *. subst. destruct H1. by split.
Qed.

(** A section that keeps the counters and accounts for the bytes. *)
Lemma counts_section s p' w out : counts s -> same_counters (pip s) p' ->
  written s ++ w = (delivered s ++ out) ++ bq_contents (rb p') ->
  counts (log (set_pipe s p') w out).
Proof.
  intros [] (E1 & E2 & E3) Hf. split; simpl; try done; rewrite ?E1, ?E2; done.
Qed.

(** Descriptors and openers change together with the counters. *)
Lemma counts_ends s p' e r w : counts s -> rb p' = rb (pip s) ->
  (forall m, 0 <= e m) ->
  n_reader p' = e MRead + e MBoth + Z.of_nat (size r) ->
  n_writer p' = e MWrite + e MBoth + Z.of_nat (size w) ->
  e MRead + e MWrite + e MBoth + Z.of_nat (size r) + Z.of_nat (size w) <= NR_FILE ->
  counts (mksys p' (thr s) (wait_read s) (wait_write s) (pending s) e r w (written s) (delivered s)).
Proof. intros [] Er He E1 E2 Hb. split; simpl; rewrite ?Er; done. Qed.

Lemma counts_range s : counts s -> in_range (n_reader (pip s)) /\ in_range (n_writer (pip s)) /\
  (forall m, 0 < ends s m -> (can_read m = true -> 0 < n_reader (pip s)) /\ (can_write m = true -> 0 < n_writer (pip s))).
Proof.
  intros []. pose proof (k_ends0 MRead). pose proof (k_ends0 MWrite). pose proof (k_ends0 MBoth).
  unfold in_range, nfiles, NR_FILE in *. split; [lia|]. split; [lia|].
  intros [] He; simpl; split; intros; (done || lia).
Qed.

Definition inv (s : sys) : Prop := threads s /\ counts s.

Lemma inv_run_read s t count nb : inv s -> thr s t = Trying (CRead count nb) ->
  inv (run_call s t (CRead count nb)).
Proof.
  intros [Ht Hk] E. unfold run_call. destruct (pending s t).
  { split; [|by apply (counts_ext s)]. apply threads_set_plain; [done|done|]. intros m. by rewrite E. }
  pose proof (pipe_read_ok (pip s) count nb (k_valid _ Hk)) as H.
  destruct (pipe_read (pip s) (Z.of_nat count) nb) as [[p' r] w]. destruct H as (Hc & Hs & Hr).
  destruct r as [[n out]|].
  - split.
    + apply threads_set_plain; [|done|].
      * apply (threads_ext (wake_up w (set_pipe s p'))); try done. by apply threads_wake.
      * intros m. destruct (wake_thr (log (set_pipe s p') [] out) w t) as [->|(c & Ec & _)]; simpl in *; [by rewrite E|congruence].
    + apply (counts_ext (log (set_pipe s p') [] out)); try done. apply counts_section; [done|done|].
      rewrite app_nil_r, (k_fifo _ Hk), Hr. by rewrite app_assoc.
  - destruct Hr as [-> Hb]. split.
    + apply (threads_sleep s t (CRead count nb) (opening_r s) (opening_w s)); [done|done| |];
        intros u; case_decide; try done; subst; [rewrite (t_opr _ Ht)|rewrite (t_opw _ Ht)]; by rewrite E.
    + by apply (counts_ext s).
Qed.

Lemma inv_run_write s t buf nb : inv s -> thr s t = Trying (CWrite buf nb) ->
  inv (run_call s t (CWrite buf nb)).
Proof.
  intros [Ht Hk] E. unfold run_call. destruct (pending s t).
  { split; [|by apply (counts_ext s)]. apply threads_set_plain; [done|done|]. intros m. by rewrite E. }
  pose proof (pipe_write_ok (pip s) buf nb (k_valid _ Hk)) as H.
  destruct (pipe_write (pip s) buf (zlength buf) nb) as [[p' r] w]. destruct H as (Hc & Hs & Hr).
  destruct r as [n|].
  - split.
    + apply threads_set_plain; [|done|].
      * apply (threads_ext (wake_up w (set_pipe s p'))); try done. by apply threads_wake.
      * intros m. destruct (wake_thr (log (set_pipe s p') (take (Z.to_nat n) buf) []) w t) as [->|(c & Ec & _)];
          simpl in *; [by rewrite E|congruence].
    + apply (counts_ext (log (set_pipe s p') (take (Z.to_nat n) buf) [])); try done. apply counts_section; [done|done|].
      by rewrite app_nil_r, (k_fifo _ Hk), Hr, app_assoc.
  - destruct Hr as [-> Hb]. split.
    + apply (threads_sleep s t (CWrite buf nb) (opening_r s) (opening_w s)); [done|done| |];
        intros u; case_decide; try done; subst; [rewrite (t_opr _ Ht)|rewrite (t_opw _ Ht)]; by rewrite E.
    + by apply (counts_ext s).
Qed.

Lemma size_insert (t : nat) (X : gset nat) : t ∉ X -> Z.of_nat (size ({[t]} ∪ X)) = Z.of_nat (size X) + 1.
Proof. intros. rewrite size_union by set_solver. rewrite size_singleton. lia. Qed.

Lemma size_remove (t : nat) (X : gset nat) :
  Z.of_nat (size (X ∖ {[t]})) = Z.of_nat (size X) - (if decide (t ∈ X) then 1 else 0).
Proof.
  case_decide as Hin.
  - assert (E : size X = S (size (X ∖ {[t]}))).
    { rewrite size_difference by set_solver. rewrite size_singleton.
      assert (size X <> 0%nat) by (rewrite size_non_empty_iff; set_solver). lia. }
    lia.
  - rewrite difference_disjoint_L by set_solver. lia.
Qed.

(** One more descriptor of mode [m], or one more opener. *)
Lemma ends_add (e : mode -> Z) m d m' : (<[m := e m + d]> e) m' = e m' + (if decide (m' = m) then d else 0).
Proof. case_decide; [subst; by rewrite fn_lookup_insert|rewrite fn_lookup_insert_ne by done; lia]. Qed.

Lemma not_opening s t st : threads s -> thr s t = st -> (forall m, ~ opening st m) ->
  (t ∉ opening_r s) /\ (t ∉ opening_w s).
Proof. intros H E Hn. rewrite (t_opr _ H), (t_opw _ H), E. split; apply Hn. Qed.

Lemma inv_run_open s t m nb : inv s -> thr s t = Trying (COpen m nb) -> nfiles s < NR_FILE ->
  inv (run_call s t (COpen m nb)).
Proof.
  intros [Ht Hk] E Hf. destruct (counts_range s Hk) as (Hr & Hw & _).
  pose proof (fifo_open_ok (pip s) m nb Hr Hw) as H. unfold run_call.
  destruct (fifo_open (pip s) m nb) as [[p' r] w]. destruct H as (Hc & Hrb & Hres).
  pose proof (threads_wake s p' w Ht Hc) as Ht1.
  assert (Eo : thr (wake_up w (set_pipe s p')) t = Trying (COpen m nb)).
  { destruct (wake_thr (set_pipe s p') w t) as [->|(c & Ec & _)]; simpl in *; congruence. }
  destruct (not_opening s t _ Ht E) as [Hno_r Hno_w]; [by intros m' ?|].
  pose proof Hk as [K1 K2 K3 K4 K5 K6]. unfold nfiles in *. destruct r as [e|].
  - split.
    + apply threads_set_plain; [|done|].
      * destruct (e =? 0); [|done]. by apply (threads_ext (wake_up w (set_pipe s p'))).
      * intros m'. destruct (e =? 0); [change (thr (add_end (wake_up w (set_pipe s p')) m 1) t) with (thr (wake_up w (set_pipe s p')) t)|];
          by rewrite Eo.
    + destruct (Z.eqb_spec e 0) as [->|He].
      * destruct Hres as [E1 E2].
        apply (counts_ext (mksys p' (thr s) (wait_read s) (wait_write s) (pending s) (<[m := ends s m + 1]> (ends s))
                  (opening_r s) (opening_w s) (written s) (delivered s))); try done.
        apply counts_ends; try done; rewrite ?ends_add; try rewrite E1; try rewrite E2;
          [intros m'; rewrite ends_add; specialize (K3 m'); case_decide; lia|..]; destruct m; simpl; lia.
      * assert (n_reader p' = n_reader (pip s) /\ n_writer p' = n_writer (pip s)) as [E1 E2] by (by destruct e).
        apply (counts_ext (mksys p' (thr s) (wait_read s) (wait_write s) (pending s) (ends s)
                  (opening_r s) (opening_w s) (written s) (delivered s))); try done.
        apply counts_ends; rewrite ?E1, ?E2; done.
  - destruct Hres as (Hb & Hm & E1 & E2). split.
    + destruct m; [| |done]; simpl.
      * apply threads_sleep; [done|done| |]; intros u; simpl; case_decide; subst; set_solver.
      * apply threads_sleep; [done|done| |]; intros u; simpl; case_decide; subst; set_solver.
    + apply (counts_ext (mksys p' (thr s) (wait_read s) (wait_write s) (pending s) (ends s)
                  (if can_read m then {[t]} ∪ opening_r s else opening_r s)
                  (if can_read m then opening_w s else {[t]} ∪ opening_w s) (written s) (delivered s)));
        try (by destruct m).
      apply counts_ends; try done; rewrite ?E1, ?E2; destruct m; simpl; try done;
        rewrite ?(size_insert t) by done; lia.
Qed.

Lemma inv_finish s t m nb : inv s -> thr s t = Finishing (COpen m nb) ->
  let '(p', r, w) := fifo_open_finish (pip s) m (pending s t) in
  let s1 := wake_up w (set_pipe s p') in
  let s2 := set_opening s1 (opening_r s1 ∖ {[t]}) (opening_w s1 ∖ {[t]}) in
  inv (set_thr (if r =? 0 then add_end s2 m 1 else s2) t Idle).
Proof.
  intros [Ht Hk] E. destruct (counts_range s Hk) as (Hr & Hw & _).
  assert (Hm : m <> MBoth) by (intros ->; apply (t_both _ Ht t); by rewrite E).
  assert (Ho : t ∈ opening_r s <-> m = MRead) by (rewrite (t_opr _ Ht), E; done).
  assert (Ho' : t ∈ opening_w s <-> m = MWrite) by (rewrite (t_opw _ Ht), E; done).
  pose proof Hk as [K1 K2 K3 K4 K5 K6]. unfold nfiles in K4.
  pose proof (size_remove t (opening_r s)) as S1. pose proof (size_remove t (opening_w s)) as S2.
  assert (Hpos : (can_read m = true -> 0 < n_reader (pip s)) /\ (can_write m = true -> 0 < n_writer (pip s))).
  { pose proof (K3 MRead). pose proof (K3 MWrite). pose proof (K3 MBoth).
    destruct m; [|..|done]; split; intros; try done.
    - rewrite decide_True in S1 by (by apply Ho). lia.
    - rewrite decide_True in S2 by (by apply Ho'). lia. }
  pose proof (fifo_open_finish_ok (pip s) m (pending s t) Hr Hw Hm (proj1 Hpos) (proj2 Hpos)) as H.
  destruct (fifo_open_finish (pip s) m (pending s t)) as [[p' r] w]. destruct H as (Hc & Hrb & Hres).
  cbv zeta. pose proof (threads_wake s p' w Ht Hc) as Ht1.
  set (e := if r =? 0 then <[m := ends s m + 1]> (ends s) else ends s).
  split.
  - apply (threads_ext (set_opening (set_thr (wake_up w (set_pipe s p')) t Idle) (opening_r s ∖ {[t]}) (opening_w s ∖ {[t]})));
      try (by destruct (r =? 0)).
    apply threads_set; [done|done|by intros ?| |]; intros u; simpl;
      rewrite elem_of_difference, elem_of_singleton; destruct (decide (u = t)); tauto.
  - apply (counts_ext (mksys p' (thr s) (wait_read s) (wait_write s) (pending s) e
             (opening_r s ∖ {[t]}) (opening_w s ∖ {[t]}) (written s) (delivered s)));
      try (unfold e; by destruct (r =? 0)).
    unfold e. destruct m; [| |done]; simpl in *.
    + rewrite decide_True in S1 by (by apply Ho). rewrite decide_False in S2 by (intros Hx; by apply Ho' in Hx).
      destruct Hres as [[-> ->]|(Hr0 & E1 & E2)]; [|rewrite (proj2 (Z.eqb_neq _ _) Hr0)];
        rewrite ?Z.eqb_refl; apply counts_ends; try done; rewrite ?ends_add; simpl; try lia.
      intros m'. simpl. rewrite ends_add. specialize (K3 m'). case_decide; lia.
    + rewrite decide_False in S1 by (intros Hx; by apply Ho in Hx). rewrite decide_True in S2 by (by apply Ho').
      destruct Hres as [[-> ->]|(Hr0 & E1 & E2)]; [|rewrite (proj2 (Z.eqb_neq _ _) Hr0)];
        rewrite ?Z.eqb_refl; apply counts_ends; try done; rewrite ?ends_add; simpl; try lia.
      intros m'. simpl. rewrite ends_add. specialize (K3 m'). case_decide; lia.
Qed.


Lemma exec_inv s e : inv s -> exec s e <> Panic /\ forall s', exec s e = Next s' -> inv s'.
Proof.
  intros Hinv. pose proof Hinv as [Ht Hk]. destruct e as [t c|t|t b|t|t|t|m|m]; simpl.
  - destruct (thr s t) eqn:E; (split; [done|]); intros s' [= <-]. split; [|by apply (counts_ext s)].
    apply threads_set_plain; [done|done|]. intros m. by rewrite E.
  - destruct (thr s t) as [|c|c|c|c] eqn:E; try done. destruct c as [count nb|buf nb|m nb].
    + split; [done|]. intros s' [= <-]. by apply inv_run_read.
    + split; [done|]. intros s' [= <-]. by apply inv_run_write.
    + destruct (Z.ltb_spec (nfiles s) NR_FILE); (split; [done|]); [|done]. intros s' [= <-]. by apply inv_run_open.
  - split; [done|]. intros s' [= <-]. split; [by apply (threads_ext s)|by apply (counts_ext s)].
  - destruct (thr s t) as [|c|c|c|c] eqn:E; try done. destruct (pending s t); (split; [done|]); [|done].
    intros s' [= <-]. split; [|by apply (counts_ext s)]. apply threads_set_plain; [done|done|].
    intros m. by rewrite E.
  - destruct (thr s t) as [|c|c|c|c] eqn:E; try done.
    assert (Hout : threads (out_wait_queue s t)).
    { split; try apply Ht. intros u d Eu. pose proof (t_queued _ Ht u d Eu) as Hq. unfold queue in *. simpl in *.
      assert (u <> t) by congruence.
      destruct (on_read_queue d); by apply list_elem_of_filter. }
    destruct c as [count nb|buf nb|m nb]; (split; [done|]); intros s' [= <-];
      (split; [|by apply (counts_ext s)]);
      (apply threads_set_plain; [done|done|]; intros m'; simpl; by rewrite E).
  - destruct (thr s t) as [|c|c|c|c] eqn:E; try done. destruct c as [count nb|buf nb|m nb]; try done.
    pose proof (inv_finish s t m nb Hinv E) as H.
    destruct (fifo_open_finish (pip s) m (pending s t)) as [[p' r] w]. split; [done|]. by intros s' [= <-].
  - destruct (Z.gtb_spec (ends s m) 0) as [Hm|Hm]; [|done].
    destruct (counts_range s Hk) as (Hr & Hw & Hpos). destruct (Hpos m ltac:(lia)) as [Hp1 Hp2].
    destruct (release_ok (pip s) m Hr Hw Hp1 Hp2) as (p' & w & -> & Hc & Hrb & E1 & E2).
    split; [done|]. intros s' [= <-]. pose proof Hk as [K1 K2 K3 K4 K5 K6]. unfold nfiles in K4. split.
    + apply (threads_ext (wake_up w (set_pipe s p'))); try done. by apply threads_wake.
    + apply (counts_ext (mksys p' (thr s) (wait_read s) (wait_write s) (pending s) (<[m := ends s m + -1]> (ends s))
                  (opening_r s) (opening_w s) (written s) (delivered s))); try done.
      apply counts_ends; try done; rewrite ?ends_add; try rewrite E1; try rewrite E2;
        [intros m'; rewrite ends_add; specialize (K3 m'); case_decide; subst; lia|..]; destruct m; simpl; lia.
  - destruct (Z.gtb_spec (ends s m) 0) as [Hm|Hm]; [|done]. simpl.
    destruct (Z.ltb_spec (nfiles s) NR_FILE) as [Hf|Hf]; [|done].
    destruct (counts_range s Hk) as (Hr & Hw & Hpos). destruct (Hpos m ltac:(lia)) as [Hp1 Hp2].
    destruct (copy_fd_ok (pip s) m Hr Hw Hp1 Hp2) as (Hc & Hrb & E1 & E2).
    split; [done|]. intros s' [= <-]. pose proof Hk as [K1 K2 K3 K4 K5 K6]. unfold nfiles in *. split.
    + pose proof (threads_wake s (copy_fd (pip s) m) wake_none Ht Hc) as Hw1.
      by apply (threads_ext (wake_up wake_none (set_pipe s (copy_fd (pip s) m)))).
    + apply (counts_ext (mksys (copy_fd (pip s) m) (thr s) (wait_read s) (wait_write s) (pending s) (<[m := ends s m + 1]> (ends s))
                  (opening_r s) (opening_w s) (written s) (delivered s))); try done.
      apply counts_ends; try done; rewrite ?ends_add; try rewrite E1; try rewrite E2;
        [intros m'; rewrite ends_add; specialize (K3 m'); case_decide; subst; lia|..]; destruct m; simpl; lia.
Qed.

Lemma pipe_reach_inv s0 s : inv s0 -> reach s0 s -> inv s.
Proof. intros H0. induction 1 as [|s e s' _ IH E]; [done|]. by apply (exec_inv s e). Qed.

(** The states a pipe starts in: after [do_pipe] (one descriptor of each end),
    or a FIFO nobody has opened. *)
Definition start (q : Q) (e : mode -> Z) : sys :=
  mksys (mkpipe q (e MRead + e MBoth) (e MWrite + e MBoth)) (fun _ => Idle) [] [] (fun _ => false) e ∅ ∅ [] [].

Lemma start_inv q e : bq_valid q -> bq_contents q = [] -> (forall m, 0 <= e m) ->
  e MRead + e MWrite + e MBoth <= NR_FILE -> inv (start q e).
Proof.
  intros Hv Hc He Hb. split.
  { split; simpl; try done; [intros t; by rewrite elem_of_empty..|by intros t ?]. }
  split; unfold nfiles; cbn [start pip rb n_reader n_writer ends opening_r opening_w written delivered];
    rewrite ?size_empty; try done; lia.
Qed.

(** ** The first open of a FIFO *)

Section fifo.
Context {QS : QueueStore Q} {QSL : QueueStoreLaws Q}.

(** [I_Pipe], the openers that have found it clear and have not yet
    initialised the pipe, and the pipe with its threads. *)
Record fifo := mkfifo {
  i_pipe : bool;
  initing : nat -> option (mode * bool);
  inside : sys;
}.

Inductive fevent :=
  | FInside (e : event)
  | FOpen (t : nat) (m : mode) (nonblock : bool)     (* the test of [I_Pipe] *)
  | FInit (t : nat) (page : option (list Z)).        (* the initialisation *)

Inductive fresult := FDisabled | FPanic | FNext (f : fifo).

Definition set_initing (f : fifo) (t : nat) (x : option (mode * bool)) : fifo :=
  mkfifo (i_pipe f) (<[t := x]> (initing f)) (inside f).

(** The thread an event starts; an open starts with [FOpen]. *)
Definition starts_call (f : fifo) (e : event) : bool :=
  match e with
  | EvStart _ (COpen _ _) => false
  | EvStart t _ => i_pipe f && bool_decide (initing f t = None)
  | _ => true
  end.

(** The reset of the queues, the buffer and the counts under threads that may be
    inside; a failed one takes the page from them. *)
Definition fexec (f : fifo) (e : fevent) : fresult :=
  match e with
  | FInside e =>
    if negb (starts_call f e) then FDisabled else
    match exec (inside f) e with
    | Disabled => FDisabled
    | Panic => FPanic
    | Next s => FNext (mkfifo (i_pipe f) (initing f) s)
    end
  | FOpen t m nb =>
    match thr (inside f) t, initing f t with
    | Idle, None => if i_pipe f then FNext (mkfifo (i_pipe f) (initing f) (set_thr (inside f) t (Trying (COpen m nb))))
                    else FNext (set_initing f t (Some (m, nb)))
    | _, _ => FDisabled
    end
  | FInit t page =>
    match initing f t with
    | None => FDisabled
    | Some (m, nb) =>
      match fifo_first page with
      | None => if i_pipe f then FPanic else FNext (set_initing f t None)
      | Some p =>
        let s := inside f in
        let s := mksys p (thr s) [] [] (pending s) (ends s) (opening_r s) (opening_w s) (written s) (delivered s) in
        FNext (mkfifo true (<[t := None]> (initing f)) (set_thr s t (Trying (COpen m nb))))
      end
    end
  end.

(** A page is 4096 bytes; and no other opener has initialised the pipe since the
    test of [I_Pipe], which nothing in the code prevents. *)
Definition alone (f : fifo) (e : fevent) : Prop :=
  match e with
  | FInit _ page => i_pipe f = false /\ (forall pg, page = Some pg -> zlength pg = PAGE_SIZE)
  | _ => True
  end.

Inductive freach (f0 : fifo) : fifo -> Prop :=
  | freach_refl : freach f0 f0
  | freach_step f e f' : freach f0 f -> fexec f e = FNext f' -> alone f e -> freach f0 f'.

(** A pipe with descriptors [e] for its ends (one of each after [do_pipe]), and
    a FIFO that nobody has opened. *)
Definition fstart (f : fifo) : Prop :=
  exists q e, initing f = (fun _ => None) /\ inside f = start q e /\
    if i_pipe f then bq_valid q /\ bq_contents q = [] /\ (forall m, 0 <= e m) /\ e MRead + e MWrite + e MBoth <= NR_FILE
    else e = (fun _ => 0).

(** Before the first open nobody is inside. *)
Definition untouched (s : sys) : Prop :=
  (forall t, thr s t = Idle) /\ (forall m, ends s m = 0) /\ opening_r s = ∅ /\ opening_w s = ∅ /\
  written s = [] /\ delivered s = [].

Definition finv (f : fifo) : Prop :=
  (forall t, initing f t <> None -> thr (inside f) t = Idle) /\
  if i_pipe f then inv (inside f) else untouched (inside f).

Lemma fstart_inv f : fstart f -> finv f.
Proof.
  intros (q & e & Hi & Hs & H). split; [by rewrite Hi|]. rewrite Hs. destruct (i_pipe f).
  - destruct H as (? & ? & ? & ?). by apply start_inv.
  - subst e. by repeat split.
Qed.

(** A step of another thread, or of one that is not initialising. *)
Lemma exec_idle s e s' t : exec s e = Next s' -> (forall c, e <> EvStart t c) -> thr s t = Idle -> thr s' t = Idle.
Proof.
  assert (Hw : forall w (x : sys) u, thr x u = Idle -> thr (wake_up w x) u = Idle).
  { intros w x u Hu. destruct (wake_thr x w u) as [->|(c & Ec & _)]; congruence. }
  assert (Hset : forall (x : sys) u st, thr x t = Idle -> u <> t -> thr (set_thr x u st) t = Idle).
  { intros x u st Hx Hu. rewrite thr_set. by rewrite decide_False. }
  intros E Hne Hi. destruct e as [u c|u|u b|u|u|u|m|m]; simpl in E.
  - destruct (thr s u) eqn:Eu; try done. injection E as <-. apply Hset; [done|]. intros ->. by apply (Hne c).
  - destruct (thr s u) eqn:Eu; try done. assert (u <> t) by congruence.
    assert (Hrun : thr (run_call s u c) t = Idle).
    { destruct c as [n nb|buf nb|m nb]; unfold run_call.
      - destruct (pending s u); [by apply Hset|]. destruct (pipe_read _ _ _) as [[p' [[k out]|]] w].
        + by apply Hset; [apply Hw|].
        + unfold sleep_on. simpl. rewrite fn_lookup_insert_ne by done. done.
      - destruct (pending s u); [by apply Hset|]. destruct (pipe_write _ _ _ _) as [[p' [k|]] w].
        + by apply Hset; [apply Hw|].
        + unfold sleep_on. simpl. rewrite fn_lookup_insert_ne by done. done.
      - destruct (fifo_open _ _ _) as [[p' [k|]] w].
        + apply Hset; [|done]. destruct (k =? 0); by apply (Hw w (set_pipe s p')).
        + assert (Hx : thr (wake_up w (set_pipe s p')) t = Idle) by (by apply Hw).
          destruct (can_read m) eqn:Em; unfold sleep_on; simpl; rewrite Em; simpl; by rewrite fn_lookup_insert_ne. }
    destruct c as [| |]; [by injection E as <-..|]. destruct (_ <? _); [|done]. by injection E as <-.
  - by injection E as <-.
  - destruct (thr s u) eqn:Eu; try done. destruct (pending s u); [|done]. injection E as <-. apply Hset; congruence.
  - destruct (thr s u) as [| | |c|] eqn:Eu; try done. assert (u <> t) by congruence.
    destruct c; injection E as <-; by apply Hset.
  - destruct (thr s u) as [| | | |c] eqn:Eu; try done. assert (u <> t) by congruence. destruct c as [| |m nb]; try done.
    destruct (fifo_open_finish _ _ _) as [[p' r] w]. injection E as <-. apply Hset; [|done].
    destruct (r =? 0); by apply (Hw w (set_pipe s p')).
  - destruct (_ >? 0); [|done]. destruct (release _ _) as [[p' w]|]; [|done]. injection E as <-. by apply Hw.
  - destruct (_ && _); [|done]. by injection E as <-.
Qed.

(** Nothing happens inside before the first open. *)
Lemma exec_untouched s e : untouched s -> (forall t c, e <> EvStart t c) -> exec s e <> Panic /\ forall s', exec s e = Next s' -> untouched s'.
Proof.
  intros (H1 & H2 & H3) Hne. destruct e as [u c|u|u b|u|u|u|m|m]; simpl; rewrite ?H1, ?H2; try done.
  - by destruct (Hne u c).
  - split; [done|]. intros s' [= <-]. exact (conj H1 (conj H2 H3)).
Qed.

Lemma fexec_inv f e : finv f -> alone f e -> fexec f e <> FPanic /\ forall f', fexec f e = FNext f' -> finv f'.
Proof.
  intros [Hi Hf] Ha. destruct e as [e|t m nb|t page]; simpl.
  - destruct (starts_call f e) eqn:Es; simpl; [|done].
    assert (Hne : forall t, initing f t <> None -> forall c, e <> EvStart t c).
    { intros t Ht c ->. destruct c; simpl in Es; try done; apply andb_prop in Es as [_ Es]; by apply bool_decide_eq_true in Es. }
    assert (H : exec (inside f) e <> Panic /\ forall s', exec (inside f) e = Next s' -> if i_pipe f then inv s' else untouched s').
    { destruct (i_pipe f) eqn:Ep; [by apply exec_inv|]. apply exec_untouched; [done|].
      intros t c ->. unfold starts_call in Es. rewrite Ep in Es. by destruct c. }
    destruct H as [H1 H2]. destruct (exec (inside f) e) as [| |s'] eqn:E; try done. split; [done|].
    intros f' [= <-]. split; simpl; [|by apply H2].
    intros t Ht. eapply exec_idle; [exact E|by apply Hne|by apply Hi].
  - destruct (thr (inside f) t) eqn:Et; try done. destruct (initing f t) eqn:En; [done|].
    destruct (i_pipe f) eqn:Ep; (split; [done|]); intros f' [= <-]; (split; simpl; [|rewrite ?Ep]).
    + intros u Hu. rewrite fn_lookup_insert_ne by congruence. by apply Hi.
    + destruct Hf as [Ht Hk]. split; [|by apply (counts_ext (inside f))].
      apply threads_set_plain; [done|done|]. intros m'. by rewrite Et.
    + intros u Hu. destruct (decide (u = t)) as [->|]; [done|]. rewrite fn_lookup_insert_ne in Hu by done. by apply Hi.
    + done.
  - destruct Ha as [Ep Hpg]. rewrite Ep in *. destruct (initing f t) as [[m nb]|] eqn:En; [|done].
    assert (Hothers : forall u, (<[t := None]> (initing f)) u <> None -> initing f u <> None /\ u <> t).
    { intros u Hu. destruct (decide (u = t)) as [->|]; [by rewrite fn_lookup_insert in Hu|].
      by rewrite fn_lookup_insert_ne in Hu. }
    unfold fifo_first, init_pipe_inode_info. destruct page as [pg|]; simpl; (split; [done|]); intros f' [= <-].
    + destruct (bq_new_spec pg (Hpg pg eq_refl)) as (Q1 & Q2 & Q3). destruct Hf as (H1 & H2 & H3 & H4 & H5 & H6).
      split; simpl. { intros u [_ Hu]%Hothers. by rewrite fn_lookup_insert_ne. }
      split.
      * apply threads_set_plain; [|done|]; simpl; [|intros m'; by rewrite H1].
        split; simpl; intros u; rewrite ?H1, ?H3, ?H4, ?elem_of_empty; simpl; (done || tauto).
      * split; unfold nfiles; simpl; rewrite ?H2, ?H3, ?H4, ?H5, ?H6, ?size_empty; try done; try lia.
        intros m'. by rewrite H2.
    + split; simpl; [|by rewrite Ep]. intros u [Hu _]%Hothers. by apply Hi.
Qed.

Lemma freach_inv f0 f : fstart f0 -> freach f0 f -> finv f.
Proof. intros H0. induction 1 as [|f e f' _ IH E Ha]; [by apply fstart_inv|]. by apply (fexec_inv f e). Qed.


(** C21: no wake-up is ever lost, on a pipe or on a FIFO that one opener [alone]
    initialises.  A thread that sleeps in [pipe_read] does so on an empty buffer
    with a writer left, one in [pipe_write] on a full buffer with a reader left,
    one in [fifo_open] while the other side is missing, and is in the queue of its
    call; so a reader and a writer never sleep at the same time. *)
Theorem pipe_no_lost_wakeup f0 f : fstart f0 -> freach f0 f ->
  let s := inside f in
  (forall t c, thr s t = Asleep c -> blocked (pip s) c /\ t ∈ queue s c) /\
  (forall t u n b nb nb', thr s t = Asleep (CRead n nb) -> thr s u <> Asleep (CWrite b nb')).
Proof.
  intros H0 Hr s. destruct (freach_inv f0 f H0 Hr) as [_ Hi]. fold s in Hi. destruct (i_pipe f).
  2: { destruct Hi as [Hi _]. split; [intros t c|intros t u n b nb nb']; by rewrite Hi. }
  destruct Hi as [Ht Hk].
  split; [intros t c E; split; [by apply (t_blocked _ Ht t)|by apply (t_queued _ Ht)]|].
  intros t u n b nb nb' E1 E2. apply (t_blocked _ Ht) in E1 as [E1 _]. apply (t_blocked _ Ht) in E2 as [E2 _].
  destruct (bq_bounds _ (k_valid _ Hk)) as [Hs _]. rewrite E1 in E2. unfold zlength in E2. simpl in E2. lia.
Qed.

End fifo.

(** the poll methods tell what a call would do: [POLLIN] when a read
    returns bytes, [POLLHUP] when it returns the end of file, nothing when it
    would sleep; [POLLOUT], [POLLHUP] and nothing likewise for a write that takes
    bytes, fails with [EPIPE], or would sleep.  A read delivers as many bytes as
    it can from the front of the buffer. *)
Theorem pipe_poll_agrees p (count : nat) buf nb : bq_valid (rb p) -> (0 < count)%nat -> buf <> [] ->
  let '(p', r, _) := pipe_read p (Z.of_nat count) nb in
  let '(_, w, _) := pipe_write p buf (zlength buf) nb in
  (pipe_read_poll p = POLLIN <-> exists n out, r = Some (n, out) /\ 0 < n) /\
  (pipe_read_poll p = POLLHUP <-> r = Some (0, [])) /\
  (pipe_read_poll p = 0 <-> r = (if nb then Some (- EAGAIN, []) else None)) /\
  (pipe_write_poll p = POLLOUT <-> exists n, w = Some n /\ 0 < n) /\
  (pipe_write_poll p = POLLHUP <-> w = Some (- EPIPE)) /\
  (pipe_write_poll p = 0 <-> w = (if nb then Some (- EAGAIN) else None)) /\
  (forall n out, r = Some (n, out) -> 0 < n ->
     n = Z.min (Z.of_nat count) (zlength (bq_contents (rb p))) /\
     out = take (Z.to_nat n) (bq_contents (rb p))).
Proof.
  intros Hv Hc Hbuf. destruct (bq_bounds _ Hv) as [Hsz Hle].
  assert (Hlb : 0 < zlength buf) by (unfold zlength; destruct buf; simpl; [done|lia]).
  unfold pipe_read, pipe_write, pipe_read_poll, pipe_write_poll.
  rewrite bq_empty_spec, bq_full_spec by done.
  pose proof (bq_read_spec (rb p) (Z.of_nat count) Hv ltac:(lia)) as Hr.
  pose proof (bq_write_spec (rb p) buf (zlength buf) Hv ltac:(lia)) as Hw.
  destruct (bq_read (rb p) (Z.of_nat count)) as [[q out] n]. destruct (bq_write (rb p) buf (zlength buf)) as [q' m].
  destruct Hr as (Hn & Hout & _), Hw as (Hm & _).
  assert (Hcn : bq_contents (rb p) <> [] -> 0 < n).
  { intros Hne. destruct (bq_contents (rb p)); [done|]. unfold zlength in Hn. simpl in Hn. lia. }
  assert (Hfm : zlength (bq_contents (rb p)) <> bq_size (rb p) -> 0 < m) by lia.
  unfold POLLIN, POLLHUP, POLLOUT, EAGAIN, EPIPE.
  case_bool_decide as Hemp; destruct (Z.eqb_spec (n_writer p) 0), (Z.eqb_spec (n_reader p) 0),
    (Z.eqb_spec (zlength (bq_contents (rb p))) (bq_size (rb p))), nb; simpl;
    try specialize (Hcn Hemp); try specialize (Hfm ltac:(done));
    repeat split; intros; destruct_and?; simplify_eq; try done; try lia; naive_solver lia.
Qed.

End pipe.

(** ** [do_pipe] *)

(** The outcome: the return value, the descriptor table, and what the call has
    taken and not given back: references of the new inode, file structures. *)
Record outcome := mkoutcome {
  o_ret : Z;
  o_fd : list (option nat);
  o_inode : nat;
  o_files : nat;
}.

(** The search loop: the descriptors found before the end of the table. *)
Fixpoint free_fds (want : nat) (fd : nat) (table : list (option nat)) : list nat :=
  match want, table with
  | O, _ | _, [] => []
  | S w, None :: tl => fd :: free_fds w (S fd) tl
  | S w, Some _ :: tl => free_fds (S w) (S fd) tl
  end.

(** [do_pipe] on the table [current->files->fd]; the arguments are the outcomes
    of [get_pipe_inode], [init_pipe_inode_info] and [get_two_empty_files] (the
    numbers of the two file structures). *)
Definition do_pipe (inode : bool) (init_error : Z) (files : option (nat * nat)) (table : list (option nat)) : outcome :=
  if negb inode then mkoutcome (- ENFILE) table 0 0 else
  if negb (init_error =? 0) then mkoutcome init_error table 0 0 else
  match files with
  | None => mkoutcome (- ENFILE) table 0 0
  | Some (f0, f1) =>
    match free_fds 2 0 table with
    | [fd0; fd1] => mkoutcome 0 (<[fd1 := Some f1]> (<[fd0 := Some f0]> table)) 2 2
    | _ => mkoutcome (- EMFILE) table 1 2
    end
  end.

Lemma free_fds_spec w fd table :
  let l := free_fds w fd table in
  (length l <= w)%nat /\
  (forall x, x ∈ l -> (fd <= x)%nat /\ table !! (x - fd)%nat = Some None) /\ NoDup l /\
  ((length l < w)%nat -> forall i, table !! i = Some None -> (fd + i)%nat ∈ l).
Proof.
  revert w fd. induction table as [|[f|] tl IH]; intros [|w] fd; simpl;
    try (split; [lia|]; split; [by intros x ?%not_elem_of_nil|]; split; [constructor|]; intros; (lia || done)).
  - destruct (IH (S w) (S fd)) as (H1 & H2 & H3 & H4). split; [done|]. split; [|split; [done|]].
    + intros x Hx. destruct (H2 x Hx) as [? E]. split; [lia|]. by replace (x - fd)%nat with (S (x - S fd)) by lia.
    + intros Hl [|i] Hi; [done|]. rewrite Nat.add_succ_r. by apply (H4 Hl i).
  - destruct (IH w (S fd)) as (H1 & H2 & H3 & H4). split; [simpl; lia|]. split; [|split].
    + intros x [->|Hx]%elem_of_cons; [by rewrite Nat.sub_diag|]. destruct (H2 x Hx) as [? E]. split; [lia|].
      by replace (x - fd)%nat with (S (x - S fd)) by lia.
    + constructor; [|done]. intros Hx. destruct (H2 _ Hx). lia.
    + simpl. intros Hl [|i] Hi; [rewrite Nat.add_0_r; left|]. right. rewrite Nat.add_succ_r. apply (H4 ltac:(lia) i Hi).
Qed.

(** with an inode and two file structures at hand, [do_pipe] installs the
    files in two distinct free descriptors when there are two; when there are
    not, it fails with EMFILE and keeps the inode and both file structures,
    which nothing can release any more (the clean-up code is never reached). *)
Theorem do_pipe_emfile_leaks f0 f1 table :
  let o := do_pipe true 0 (Some (f0, f1)) table in
  (o_ret o = 0 /\ o_inode o = 2%nat /\ o_files o = 2%nat /\
   exists a b, a <> b /\ table !! a = Some None /\ table !! b = Some None /\
     o_fd o = <[b := Some f1]> (<[a := Some f0]> table)) \/
  (o_ret o = - EMFILE /\ o_fd o = table /\ o_inode o = 1%nat /\ o_files o = 2%nat /\
   forall a b, table !! a = Some None -> table !! b = Some None -> a = b).
Proof.
  cbv zeta. unfold do_pipe. simpl. destruct (free_fds_spec 2 0 table) as (Hlen & Hfree & Hnd & Hall).
  destruct (free_fds 2 0 table) as [|a [|b [|c l]]]; simpl in *; try lia.
  - right. do 4 (split; [done|]). intros a b Ha Hb. by apply (Hall ltac:(lia) a), not_elem_of_nil in Ha.
  - right. do 4 (split; [done|]). intros x y Hx%(Hall ltac:(lia)) Hy%(Hall ltac:(lia)).
    apply list_elem_of_singleton in Hx, Hy. lia.
  - left. do 3 (split; [done|]). exists a, b.
    destruct (Hfree a ltac:(left)) as [_ Ea]. destruct (Hfree b ltac:(right; left)) as [_ Eb].
    rewrite Nat.sub_0_r in *. inversion_clear Hnd as [|? ? Hn _]. split; [|done].
    intros ->. apply Hn. left.
Qed.

(** ** Concrete instances *)

Definition ex_queue : RingBuffer.t := RingBuffer.mk (Some (replicate 8 0)) 8 0 0 0.
Lemma ex_queue_valid : bq_valid ex_queue.
Proof. exists (replicate 8 0). split; try done. by exists 3. Qed.

(** Runs; [None]: a step that is not enabled, or a failed assertion. *)
Fixpoint run_events {Q} `{ByteQueue Q, QueueStore Q} (f : fifo (Q:=Q)) (l : list fevent) : option (fifo (Q:=Q)) :=
  match l with
  | [] => Some f
  | e :: l' => match fexec f e with FNext f' => run_events f' l' | _ => None end
  end.

(** [alone], as a check. *)
Definition alone_check {Q} `{ByteQueue Q, QueueStore Q} (f : fifo (Q:=Q)) (e : fevent) : bool :=
  match e with
  | FInit _ (Some pg) => negb (i_pipe f) && (zlength pg =? PAGE_SIZE)
  | FInit _ None => negb (i_pipe f)
  | _ => true
  end.
Fixpoint run_alone {Q} `{ByteQueue Q, QueueStore Q} (f : fifo (Q:=Q)) (l : list fevent) : option (fifo (Q:=Q)) :=
  match l with
  | [] => Some f
  | e :: l' => if alone_check f e then match fexec f e with FNext f' => run_alone f' l' | _ => None end else None
  end.

Lemma run_alone_reach {Q} `{ByteQueue Q, QueueStore Q} (f0 f : fifo (Q:=Q)) l f' :
  freach f0 f -> run_alone f l = Some f' -> freach f0 f'.
Proof.
  revert f. induction l as [|e l IH]; intros f Hr; simpl; [by intros [= <-]|].
  destruct (alone_check f e) eqn:Ha; [|done]. destruct (fexec f e) as [| |f1] eqn:E; try done. apply IH.
  eapply freach_step; [exact Hr|exact E|]. destruct e as [|t m nb|t [pg|]]; simpl in *; try done.
  - apply andb_prop in Ha as [H1 H2]. apply negb_true_iff in H1. split; [done|]. intros ? [= <-]. lia.
  - apply negb_true_iff in Ha. by split.
Qed.

(** A FIFO: a reader opens it first and sleeps, a writer comes, the bytes
    arrive, and the reader sleeps again. *)
Definition ex_page : list Z := replicate 4096 0.
Definition ex_fresh : fifo (Q:=RingBuffer.t) := mkfifo false (fun _ => None) (start ex_queue (fun _ => 0)).
Definition ex_events : list fevent :=
  [FOpen 1 MRead false; FInit 1 (Some ex_page); FInside (EvRun 1);
   FOpen 2 MWrite false; FInside (EvRun 2); FInside (EvLeave 1); FInside (EvFinish 1);
   FInside (EvStart 1 (CRead 4 false)); FInside (EvRun 1); FInside (EvStart 2 (CWrite [10; 11; 12] false));
   FInside (EvRun 2); FInside (EvLeave 1); FInside (EvRun 1);
   FInside (EvStart 3 (CRead 1 false)); FInside (EvRun 3)].
Definition ex_fifo : fifo (Q:=RingBuffer.t) := default ex_fresh (run_alone ex_fresh ex_events).

Lemma ex_fresh_start : fstart ex_fresh.
Proof. by exists ex_queue, (fun _ => 0). Qed.

Lemma ex_fifo_reach : freach ex_fresh ex_fifo.
Proof.
  apply (run_alone_reach _ ex_fresh ex_events); [constructor|]. unfold ex_fifo.
  destruct (run_alone ex_fresh ex_events) eqn:E; [done|].
  assert (H : is_Some (run_alone ex_fresh ex_events)) by (vm_compute; by eexists).
  rewrite E in H. by destruct H.
Qed.


Lemma pipe_no_lost_wakeup_witness :
  thr (inside ex_fifo) 3%nat = Asleep (CRead 1 false) /\ bq_contents (rb (pip (inside ex_fifo))) = [].
Proof.
  assert (E : thr (inside ex_fifo) 3%nat = Asleep (CRead 1 false)) by (by vm_compute).
  split; [exact E|].
  apply (pipe_no_lost_wakeup ex_fresh ex_fifo ex_fresh_start ex_fifo_reach) in E. apply E.
Defined.

(** Two openers find [I_Pipe] clear; the first goes to sleep in its open, then the
    second initialises the pipe again.  The sleeper is in no queue any more and
    not counted, so that the second sleeps as well, for ever. *)
Definition race_events : list fevent :=
  [FOpen 1 MRead false; FOpen 2 MWrite false; FInit 1 (Some ex_page); FInside (EvRun 1);
   FInit 2 (Some ex_page); FInside (EvRun 2)].

(** The first has opened and closes again: the assertion fails. *)
Definition race_close : list fevent :=
  [FOpen 1 MRead true; FOpen 2 MWrite false; FInit 1 (Some ex_page); FInside (EvRun 1); FInit 2 (Some ex_page)].

Lemma first_open_race :
  match run_events ex_fresh race_events with
  | Some f => thr (inside f) 1%nat = Asleep (COpen MRead false) /\ thr (inside f) 2%nat = Asleep (COpen MWrite false) /\
              wait_read (inside f) = []
  | None => False
  end /\
  match run_events ex_fresh race_close with
  | Some f => ends (inside f) MRead = 1 /\ fexec f (FInside (EvClose MRead)) = FPanic
  | None => False
  end.
Proof. split; vm_compute; done. Qed.

Lemma pipe_poll_agrees_witness :
  pipe_read_poll (mkpipe ex_queue 1 0) = POLLHUP /\
  (pipe_read (mkpipe ex_queue 1 0) 5 false).1.2 = Some (0, []).
Proof.
  pose proof (pipe_poll_agrees (mkpipe ex_queue 1 0) 5 [7] false ex_queue_valid ltac:(lia) ltac:(done)) as H.
  destruct (pipe_read (mkpipe ex_queue 1 0) (Z.of_nat 5) false) as [[p' r] w] eqn:E.
  destruct (pipe_write (mkpipe ex_queue 1 0) [7] (zlength [7]) false) as [[q' u] v].
  destruct H as (_ & H & _). split; [reflexivity|]. change 5 with (Z.of_nat 5). rewrite E. simpl. apply H. reflexivity.
Defined.

End Pipe.
