(* ===== verification/Sync.v ===== *)
(** * Semaphores and futexes ([kernel/semaphore.c], [kernel/futex.c])

    Both put sleepers in a wait queue that a sleeper leaves only when it runs
    again; a wake-up only makes it runnable.  The semaphore is a step system
    over any number of threads, the futex queues are lists of waiters. *)
From S2P Require Import Prelude.

Module Semaphore.

(** A semaphore with the threads that have passed [down] and the wait queue;
    the flag of a queued thread says that it has been made runnable. *)
Record sem := mksem {
  count : Z;
  inside : list nat;
  wait : list (nat * bool);
}.

Definition sema_init (val : Z) : sem := mksem val [] [].

Definition down (s : sem) (t : nat) : sem :=
  let c := count s - 1 in
  if c <? 0 then mksem c (inside s) (wait s ++ [(t, false)])
  else mksem c (t :: inside s) (wait s).

(** [wake_up_1st]: the first queued thread, whether it sleeps or not. *)
Definition wake_up_1st (q : list (nat * bool)) : list (nat * bool) :=
  match q with [] => [] | (t, _) :: q' => (t, true) :: q' end.

Definition up (s : sem) : sem :=
  let c := count s + 1 in
  mksem c (inside s) (if c <=? 0 then wake_up_1st (wait s) else wait s).

(** The end of [sleep_on] when the thread at position [i] runs again:
    [out_wait_queue], and [down] returns. *)
Definition leave (s : sem) (i : nat) : option sem :=
  match wait s !! i with
  | Some (t, true) => Some (mksem (count s) (t :: inside s) (delete i (wait s)))
  | _ => None
  end.

(** The thread at position [i] of [inside] leaves its critical section. *)
Definition exit_section (s : sem) (i : nat) : option sem :=
  match inside s !! i with
  | Some _ => Some (up (mksem (count s) (delete i (inside s)) (wait s)))
  | None => None
  end.

(** ** As a lock: [up] by a thread that has passed [down] *)

Inductive lock_step : sem -> sem -> Prop :=
  | ls_down s t : lock_step s (down s t)
  | ls_leave s i s' : leave s i = Some s' -> lock_step s s'
  | ls_exit s i s' : exit_section s i = Some s' -> lock_step s s'.

Definition awake (q : list (nat * bool)) : nat := length (filter (fun x => x.2 = true) q).

(** [n] threads may pass; what is counted is inside or queued, and a queued
    thread is woken only when there is room. *)
Record inv (n : nat) (s : sem) : Prop := {
  i_count : count s = Z.of_nat n - Z.of_nat (length (inside s)) - Z.of_nat (length (wait s));
  i_room : (length (inside s) + awake (wait s) <= n)%nat;
}.

(** For a mutex: when a thread sleeps, one is inside or on its way. *)
Definition served (s : sem) : Prop :=
  (exists t, (t, false) ∈ wait s) -> (0 < length (inside s) + awake (wait s))%nat.

Lemma awake_app q q' : awake (q ++ q') = (awake q + awake q')%nat.
Proof. unfold awake. by rewrite filter_app, length_app. Qed.

Lemma awake_cons t b q : awake ((t, b) :: q) = ((if b then 1 else 0) + awake q)%nat.
Proof. unfold awake. rewrite filter_cons. by destruct b. Qed.

Lemma awake_le q : (awake q <= length q)%nat.
Proof. unfold awake. apply length_filter. Qed.

Lemma awake_snoc q t : awake (q ++ [(t, false)]) = awake q.
Proof. rewrite awake_app, awake_cons. simpl. unfold awake at 2. simpl. lia. Qed.

Lemma awake_split (q : list (nat * bool)) (i t : nat) (b : bool) : q !! i = Some (t, b) ->
  awake q = ((if b then 1 else 0) + awake (delete i q))%nat.
Proof.
  intros H. rewrite <- (take_drop_middle _ _ _ H) at 1. rewrite awake_app, awake_cons.
  rewrite delete_take_drop, awake_app. lia.
Qed.

Lemma awake_wake_1st q : q <> [] -> (awake (wake_up_1st q) <= S (awake q))%nat /\ (0 < awake (wake_up_1st q))%nat.
Proof. destruct q as [|[t b] q]; [done|]. intros _. simpl. rewrite !awake_cons. destruct b; lia. Qed.

Lemma length_wake_1st q : length (wake_up_1st q) = length q.
Proof. by destruct q as [|[t b] q]. Qed.

Lemma lookup_length_pos {A} (l : list A) i x : l !! i = Some x -> length (delete i l) = (length l - 1)%nat /\ (0 < length l)%nat.
Proof. intros H. pose proof (lookup_lt_Some _ _ _ H). rewrite length_delete by eauto. lia. Qed.

Lemma lock_step_inv n s s' : inv n s -> (n = 1%nat -> served s) -> lock_step s s' ->
  inv n s' /\ (n = 1%nat -> served s').
Proof.
  intros [Hc Hr] Hs Hstep. pose proof (awake_le (wait s)). destruct Hstep as [s t|s i s' E|s i s' E].
  - unfold down. destruct (Z.ltb_spec (count s - 1) 0) as [Hlt|Hge].
    + split; [split; simpl; rewrite ?length_app, ?awake_snoc; simpl; lia|].
      intros Hn. specialize (Hs Hn). intros _. simpl. rewrite awake_snoc.
      destruct (wait s) as [|[u b] q] eqn:Eq; [simpl in *; lia|].
      destruct b; [rewrite awake_cons; lia|]. cut (0 < length (inside s) + awake ((u, false) :: q))%nat; [lia|].
      rewrite <- Eq in *. apply Hs. exists u. rewrite Eq. left.
    + split; [split; simpl; lia|]. intros Hn _. simpl. lia.
  - unfold leave in E. destruct (wait s !! i) as [[t [|]]|] eqn:El; [|done..]. injection E as <-.
    destruct (lookup_length_pos _ _ _ El) as [Hd Hp]. pose proof (awake_split _ _ _ _ El) as Ha. simpl in Ha.
    split; [split; simpl; rewrite ?Hd; lia|]. intros _ _. simpl. lia.
  - unfold exit_section in E. destruct (inside s !! i) as [t|] eqn:El; [|done]. injection E as <-.
    destruct (lookup_length_pos _ _ _ El) as [Hd Hp]. unfold up. simpl.
    destruct (Z.leb_spec (count s + 1) 0) as [Hle|Hgt].
    + assert (Hne : wait s <> []) by (intros Eq; rewrite Eq in *; simpl in *; lia).
      destruct (awake_wake_1st _ Hne) as [H1 H2].
      split; [split; simpl; rewrite ?length_wake_1st, ?Hd; lia|]. intros _ _. simpl. lia.
    + split; [split; simpl; rewrite ?Hd; lia|]. intros Hn [u Hu]. simpl in *.
      assert (0 < length (wait s))%nat by (destruct (wait s); [by apply not_elem_of_nil in Hu|simpl; lia]). lia.
Qed.

Inductive lock_reach (n : nat) : sem -> Prop :=
  | lr_init : lock_reach n (sema_init (Z.of_nat n))
  | lr_step s s' : lock_reach n s -> lock_step s s' -> lock_reach n s'.

(** C31: a semaphore used as a lock with [n] permits lets at most [n] threads in
    in any run; and with one permit, as every semaphore of the kernel has, no
    wake-up is lost: while a thread sleeps, another one is inside or already
    made runnable to get in. *)
Theorem semaphore_lock n s : lock_reach n s ->
  (length (inside s) <= n)%nat /\
  (n = 1%nat -> (exists t, (t, false) ∈ wait s) -> inside s <> [] \/ exists t, (t, true) ∈ wait s).
Proof.
  intros H. assert (Hi : inv n s /\ (n = 1%nat -> served s)).
  { induction H as [|s s' _ [IH1 IH2] Hst]; [|by apply (lock_step_inv n s)].
    split; [split; simpl; [lia|unfold awake; simpl; lia]|]. intros _ [t Ht]. by apply not_elem_of_nil in Ht. }
  destruct Hi as [[Hc Hr] Hs]. split; [lia|]. intros Hn Hsl. specialize (Hs Hn Hsl).
  destruct (inside s); [|by left]. right. simpl in Hs.
  destruct (filter (fun x => x.2 = true) (wait s)) as [|[t b] l] eqn:E; unfold awake in Hs; rewrite E in Hs; [simpl in Hs; lia|].
  assert (Hin : (t, b) ∈ filter (fun x => x.2 = true) (wait s)) by (rewrite E; left).
  apply list_elem_of_filter in Hin as [Hb Hin]. simpl in Hb. subst b. by exists t.
Qed.

(** as a counting semaphore it loses wake-ups: after two [down]s on
    [init_MUTEX_LOCKED] and two [up]s before the first sleeper has run, the
    second sleeper is not woken, and once the first has left the queue nobody
    is left to wake it although the count says that nobody waits. *)
Theorem semaphore_counting_loses_wakeup t1 t2 :
  let s := up (up (down (down (sema_init 0) t1) t2)) in
  count s = 0 /\ wait s = [(t1, true); (t2, false)] /\
  exists s', leave s 0 = Some s' /\ count s' = 0 /\ wait s' = [(t2, false)].
Proof. cbv zeta. split; [done|]. split; [done|]. eexists. done. Qed.

Definition ex_lock : sem := mksem (-1) [1%nat] [(2%nat, false)].

Lemma ex_lock_reach : lock_reach 1 ex_lock.
Proof.
  change ex_lock with (down (down (sema_init 1) 1) 2).
  apply (lr_step 1 (down (sema_init 1) 1)); [|constructor].
  apply (lr_step 1 (sema_init (Z.of_nat 1))); constructor.
Qed.

Lemma semaphore_lock_witness : (length (inside ex_lock) <= 1)%nat.
Proof. apply (semaphore_lock 1 ex_lock ex_lock_reach). Defined.

End Semaphore.

Module Futex.

Definition FUTEX_HASH_SIZE : Z := 64.
Definition TASK_INTERRUPTIBLE : Z := 1.

(** A queued waiter: its task, the user address it waits on, the address space
    the address belongs to, and whether the task still sleeps. *)
Record waiter := mkwaiter {
  w_task : nat;
  w_uaddr : Z;
  w_mm : nat;
  w_asleep : bool;
}.

Definition futex_hash (addr : Z) : Z := Z.land (Z.shiftr addr 2) (FUTEX_HASH_SIZE - 1).

Abbreviation buckets := (Z -> list waiter).

Definition wake (w : waiter) : waiter := mkwaiter (w_task w) (w_uaddr w) (w_mm w) false.

(** The loop of [wake_matching]: [woke] have been woken of [nr]. *)
Fixpoint wake_loop (q : list waiter) (uaddr nr woke : Z) : list waiter * Z :=
  match q with
  | [] => ([], woke)
  | w :: q' =>
    if (w_uaddr w =? uaddr) && w_asleep w then
      if woke + 1 >=? nr then (wake w :: q', woke + 1)
      else let '(q'', n) := wake_loop q' uaddr nr (woke + 1) in (wake w :: q'', n)
    else let '(q'', n) := wake_loop q' uaddr nr woke in (w :: q'', n)
  end.

Definition wake_matching (q : list waiter) (uaddr nr : Z) : list waiter * Z :=
  wake_loop q uaddr (if nr <=? 0 then 0x7fffffff else nr) 0.

Definition futex_wake (b : buckets) (uaddr nr_wake : Z) : buckets * Z :=
  let h := futex_hash uaddr in
  let '(q, n) := wake_matching (b h) uaddr nr_wake in (<[h := q]> b, n).

(** [futex_wait] up to [schedule]: the error, or 0 with the caller queued. *)
Definition futex_wait (b : buckets) (task mm : nat) (uaddr : Z) (word val : Z) (timeout readable : bool)
  : buckets * Z :=
  if timeout then (b, - 38) else
  if negb readable then (b, - EFAULT) else
  if negb (word =? val) then (b, - EAGAIN) else
  let h := futex_hash uaddr in
  (<[h := b h ++ [mkwaiter task uaddr mm true]]> b, 0).

(** After [schedule]: [out_wait_queue] and the result. *)
Definition futex_wait_end (b : buckets) (task : nat) (uaddr : Z) (signal : bool) : buckets * Z :=
  let h := futex_hash uaddr in
  (<[h := filter (fun w => w_task w <> task) (b h)]> b, if signal then - EINTR else 0).

(** The waiters a wake-up may take, in queue order. *)
Definition candidates (q : list waiter) (uaddr : Z) : list waiter :=
  filter (fun w => w_uaddr w = uaddr /\ w_asleep w = true) q.

(** Waking the first [k] candidates of a queue and nothing else. *)
Fixpoint wake_first (k : nat) (uaddr : Z) (q : list waiter) : list waiter :=
  match q with
  | [] => []
  | w :: q' => if decide (w_uaddr w = uaddr /\ w_asleep w = true) then
                 match k with O => q | S k' => wake w :: wake_first k' uaddr q' end
               else w :: wake_first k uaddr q'
  end.

Lemma wake_first_0 uaddr q : wake_first 0 uaddr q = q.
Proof. induction q as [|w q IH]; simpl; [done|]. case_decide; [done|by rewrite IH]. Qed.

Lemma wake_loop_ok q uaddr nr woke : woke < nr ->
  wake_loop q uaddr nr woke =
    (wake_first (Z.to_nat (nr - woke)) uaddr q,
     woke + Z.min (nr - woke) (zlength (candidates q uaddr))).
Proof.
  revert woke. induction q as [|w q IH]; intros woke Hlt; cbn [wake_loop wake_first].
  { unfold candidates, zlength. simpl. f_equal. lia. }
  unfold candidates in *. rewrite filter_cons.
  assert (Eb : (w_uaddr w =? uaddr) && w_asleep w = bool_decide (w_uaddr w = uaddr /\ w_asleep w = true)).
  { apply eq_true_iff_eq. rewrite andb_true_iff, Z.eqb_eq, bool_decide_eq_true. done. }
  rewrite Eb. case_bool_decide as Hm.
  - rewrite !decide_True by done.
    destruct (Z.geb_spec (woke + 1) nr) as [Hge|Hge].
    + replace (Z.to_nat (nr - woke)) with 1%nat by lia. rewrite wake_first_0. f_equal.
      unfold zlength. simpl. lia.
    + rewrite IH by lia. replace (Z.to_nat (nr - woke)) with (S (Z.to_nat (nr - (woke + 1)))) by lia.
      f_equal. unfold zlength. simpl. lia.
  - rewrite !decide_False by done. by rewrite IH by lia.
Qed.

(** [futex_wake] wakes exactly the longest-waiting sleepers on the given
    address, as many as asked for and present (all of them for a non-positive
    count), returns how many, and touches no other waiter and no other bucket. *)
Theorem futex_wake_fifo b uaddr nr :
  let '(b', n) := futex_wake b uaddr nr in
  let k := if nr <=? 0 then 0x7fffffff else nr in
  n = Z.min k (zlength (candidates (b (futex_hash uaddr)) uaddr)) /\
  b' (futex_hash uaddr) = wake_first (Z.to_nat k) uaddr (b (futex_hash uaddr)) /\
  (forall h, h <> futex_hash uaddr -> b' h = b h).
Proof.
  unfold futex_wake, wake_matching. set (k := if nr <=? 0 then 0x7fffffff else nr).
  assert (Hk : 0 < k) by (unfold k; destruct (Z.leb_spec nr 0); lia).
  rewrite wake_loop_ok by done. rewrite Z.sub_0_r. split; [lia|].
  rewrite fn_lookup_insert. split; [done|]. intros h Hh. by rewrite fn_lookup_insert_ne.
Qed.

(** waiters are matched by user address alone: when two processes wait at
    the same virtual address, a wake-up of one thread in the second process is
    consumed by the waiter of the first, and the intended one sleeps on. *)
Theorem futex_wake_other_process uaddr t1 t2 m1 m2 : m1 <> m2 ->
  let '(b1, r1) := futex_wait (fun _ => []) t1 m1 uaddr 0 0 false true in
  let '(b2, r2) := futex_wait b1 t2 m2 uaddr 0 0 false true in
  let '(b3, n) := futex_wake b2 uaddr 1 in
  r1 = 0 /\ r2 = 0 /\ n = 1 /\
  b3 (futex_hash uaddr) = [mkwaiter t1 uaddr m1 false; mkwaiter t2 uaddr m2 true].
Proof.
  intros _. unfold futex_wait. cbn [negb Z.eqb]. cbv zeta. unfold futex_wake, wake_matching.
  generalize (futex_hash uaddr). intros h. rewrite !fn_lookup_insert. simpl. rewrite Z.eqb_refl. simpl.
  by rewrite fn_lookup_insert.
Qed.

Lemma futex_wake_other_process_witness :
  let '(b1, r1) := futex_wait (fun _ => []) 1 10 0x1000 0 0 false true in
  let '(b2, r2) := futex_wait b1 2 20 0x1000 0 0 false true in
  let '(b3, n) := futex_wake b2 0x1000 1 in
  r1 = 0 /\ r2 = 0 /\ n = 1 /\
  b3 (futex_hash 0x1000) = [mkwaiter 1 0x1000 10 false; mkwaiter 2 0x1000 20 true].
Proof. apply (futex_wake_other_process 0x1000 1 2 10 20). lia. Defined.

End Futex.
