(* ===== verification/Logbuf.v ===== *)
(** * The kernel log ([kernel/logbuf.c], [include/logbuf.h])

    A byte ring of [LOG_BUF_LEN] bytes that holds variable-length records, the
    oldest being dropped to make room.  The model keeps the bytes, and the
    theorems show that they always encode the most recent records that fit, and
    that the readers return exactly these. *)
From S2P Require Import Prelude.

Module Logbuf.

Definition LOG_BUF_LEN : Z := 16384.
Definition LOG_LINE_MAX : Z := 1024.
Definition HZ : Z := 100.

(** [offsetof (struct log_record, text)] for i386: 4 + 2 + 2 + 4 + 8. *)
Definition LOG_RECORD_HEADER : Z := 20.

(** [struct log_record] with its text. *)
Record log_record := mkrec {
  prio : Z;
  flags : Z;
  seqno : Z;
  usec : Z;
  text : list Z;
}.

(** The static variables of the file. *)
Record log := mklog {
  log_buf : list Z;
  log_head : Z;
  log_tail : Z;
  log_count : Z;
  log_used : Z;
  log_next_seq : Z;
}.

(** ** Bytes *)

Fixpoint le_bytes (n : nat) (x : Z) : list Z :=
  match n with O => [] | S n' => x mod 256 :: le_bytes n' (x / 256) end.

(** The header in memory, with the length of the text. *)
Definition enc_header (len : Z) (r : log_record) : list Z :=
  le_bytes 4 len ++ le_bytes 2 (prio r) ++ le_bytes 2 (flags r) ++ le_bytes 4 (seqno r) ++ le_bytes 8 (usec r).

(** A header read back: the length and the fields. *)
Record header := mkhdr { h_len : Z; h_prio : Z; h_flags : Z; h_seq : Z; h_usec : Z }.

Definition dec_header (l : list Z) : header :=
  mkhdr (le32 l 0) (le16 l 4) (le16 l 6) (le32 l 8) (le64 l 12).

Definition record_size (len : Z) : Z := u32 (u32 (LOG_RECORD_HEADER + len) + 1).

Definition copy_to_log (buf : list Z) (off : Z) (src : list Z) (len : Z) : list Z :=
  let off := off mod LOG_BUF_LEN in
  let first := if LOG_BUF_LEN - off >? len then len else LOG_BUF_LEN - off in
  let buf1 := memcpy_at buf off src first in
  if len >? first then memcpy_at buf1 0 (drop (Z.to_nat first) src) (len - first) else buf1.

Definition copy_from_log (buf : list Z) (off len : Z) : list Z :=
  let off := off mod LOG_BUF_LEN in
  let first := if LOG_BUF_LEN - off >? len then len else LOG_BUF_LEN - off in
  sub_bytes buf off first ++ (if len >? first then sub_bytes buf 0 (len - first) else []).

(** ** Records in the ring *)

Definition read_header (buf : list Z) (off : Z) : header := dec_header (copy_from_log buf off LOG_RECORD_HEADER).

Definition drop_oldest_locked (s : log) : log :=
  if log_count s =? 0 then s else
  let size := record_size (h_len (read_header (log_buf s) (log_tail s))) in
  mklog (log_buf s) (log_head s) (u32 (log_tail s + size) mod LOG_BUF_LEN) (u32 (log_count s - 1))
    (u32 (log_used s - size)) (log_next_seq s).

Definition oldest_seq_locked (s : log) : Z :=
  if log_count s =? 0 then log_next_seq s else h_seq (read_header (log_buf s) (log_tail s)).

(** The loop of [find_seq_locked]: [n] records are left from [cur] on. *)
Fixpoint find_seq_loop (buf : list Z) (seq : Z) (n : nat) (cur : Z) : option Z :=
  match n with
  | O => None
  | S n' => let h := read_header buf cur in
            if h_seq h =? seq then Some cur
            else find_seq_loop buf seq n' (u32 (cur + record_size (h_len h)) mod LOG_BUF_LEN)
  end.

Definition find_seq_locked (s : log) (seq : Z) : option Z :=
  find_seq_loop (log_buf s) seq (Z.to_nat (log_count s)) (log_tail s).

Definition logbuf_init (buf : list Z) : log := mklog buf 0 0 0 0 0.

(** The loop that makes room; every round drops a record. *)
Fixpoint make_room (fuel : nat) (s : log) (total : Z) : log :=
  match fuel with
  | O => s
  | S f => if negb (log_count s =? 0) && (u32 (LOG_BUF_LEN - log_used s) <? total)
           then make_room f (drop_oldest_locked s) total else s
  end.

(** [logbuf_store]: [time] is [jiffies]; an empty text is ignored.  A text is
    cut at [LOG_LINE_MAX], so a record never exceeds the buffer. *)
Definition logbuf_store (s : log) (p : Z) (txt : list Z) (time : Z) : log :=
  let len := zlength txt in
  if len =? 0 then s else
  let len := if len >? LOG_LINE_MAX then LOG_LINE_MAX else len in
  let total := LOG_RECORD_HEADER + len + 1 in
  let s1 := make_room (Z.to_nat (log_count s)) s total in
  let r := mkrec (u16 p) 0 (log_next_seq s1) (u64 (u64 (time * 1000000) / HZ)) txt in
  let buf1 := copy_to_log (log_buf s1) (log_head s1) (enc_header len r) LOG_RECORD_HEADER in
  let text_off := u32 (log_head s1 + LOG_RECORD_HEADER) in
  let buf2 := copy_to_log buf1 text_off txt len in
  let buf3 := copy_to_log buf2 (u32 (text_off + len)) [0] 1 in
  mklog buf3 (u32 (log_head s1 + total) mod LOG_BUF_LEN) (log_tail s1) (u32 (log_count s1 + 1))
    (u32 (log_used s1 + total)) (u32 (log_next_seq s1 + 1)).

Definition logbuf_clear (s : log) : log := mklog (log_buf s) 0 0 0 0 0.

(** ** Formatting *)

(** The digits of [value], most significant first: the loops of [append_u32]
    and [append_u64]; [n] is the size of the digit buffer. *)
Fixpoint digits (n : nat) (value : Z) (acc : list Z) : list Z :=
  match n with
  | O => acc
  | S n' => let acc' := (48 + value mod 10) :: acc in
            if value / 10 =? 0 then acc' else digits n' (value / 10) acc'
  end.
Definition append_u32 (value : Z) : list Z := digits 10 value [].
Definition append_u64 (value : Z) : list Z := digits 20 value [].
Definition append_u64_fixed (value : Z) (n : nat) : list Z :=
  let d := append_u64 value in replicate (n - length d) 48 ++ d.

(** [format_kmsg_line] and [format_syslog_line]. *)
Definition format_kmsg_line (h : header) (txt : list Z) : list Z :=
  append_u32 (h_prio h) ++ [44] ++ append_u32 (h_seq h) ++ [44] ++ append_u64 (h_usec h) ++ [44]
  ++ append_u32 (h_flags h) ++ [59; 32] ++ txt ++ [10].

Definition format_syslog_line (h : header) (txt : list Z) : list Z :=
  [60] ++ append_u32 (h_prio h) ++ [91] ++ append_u64 (h_usec h / 1000000) ++ [46]
  ++ append_u64_fixed (h_usec h mod 1000000) 6 ++ [93; 32] ++ txt ++ [10].

(** ** Reading *)

Definition read_text (buf : list Z) (off : Z) (h : header) : list Z :=
  copy_from_log buf (u32 (off + LOG_RECORD_HEADER)) (h_len h).

(** The bytes put into a buffer of [size] bytes, and the next number. *)
Definition read_record_locked (s : log) (off size : Z) : list Z * Z :=
  let h := read_header (log_buf s) off in
  let line := format_kmsg_line h (read_text (log_buf s) off h) in
  (take (Z.to_nat size) line, u32 (h_seq h + 1)).

Inductive read_result := RNone | RErr (e : Z) | RLine (out : list Z) (next_seq : Z).

Definition read_seq_locked (s : log) (seq size : Z) : read_result :=
  if (log_count s =? 0) || (seq =? log_next_seq s) then RNone else
  if s32 (u32 (seq - oldest_seq_locked s)) <? 0 then RErr (- EPIPE) else
  match find_seq_locked s seq with
  | None => RErr (- EPIPE)
  | Some off => let '(out, next) := read_record_locked s off size in RLine out next
  end.

(** The syslog loop: all lines from the record at [off] on, while there is room. *)
Fixpoint syslog_loop (buf : list Z) (n : nat) (off : Z) (size : Z) : list Z :=
  match n with
  | O => []
  | S n' =>
    if size <=? 0 then [] else
    let h := read_header buf off in
    let line := format_syslog_line h (read_text buf off h) in
    let out := take (Z.to_nat size) line in
    out ++ syslog_loop buf n' (u32 (off + record_size (h_len h)) mod LOG_BUF_LEN) (size - zlength out)
  end.

Definition logbuf_format_syslog (s : log) (size : Z) (clear : bool) : list Z * log :=
  (syslog_loop (log_buf s) (Z.to_nat (log_count s)) (log_tail s) size,
   if clear then logbuf_clear s else s).

Fixpoint syslog_len_loop (buf : list Z) (n : nat) (off : Z) : Z :=
  match n with
  | O => 0
  | S n' =>
    let h := read_header buf off in
    zlength (format_syslog_line h (read_text buf off h))
    + syslog_len_loop buf n' (u32 (off + record_size (h_len h)) mod LOG_BUF_LEN)
  end.

Definition logbuf_formatted_syslog_len (s : log) : Z :=
  syslog_len_loop (log_buf s) (Z.to_nat (log_count s)) (log_tail s).

Definition logbuf_console_loglevel (cur : Z) (set : bool) (level : Z) : Z * Z :=
  if set then if (level <? 1) || (level >? 8) then (cur, cur) else (level, 0) else (cur, cur).

(** ** Windows of the ring *)

(** The [n] bytes from [off] on, around the end of the buffer. *)
Definition win (buf : list Z) (off n : Z) : list Z :=
  map (fun k => byte_at buf ((off + Z.of_nat k) mod LOG_BUF_LEN)) (seq 0 (Z.to_nat n)).

Lemma LOG_BUF_LEN_pos : 0 < LOG_BUF_LEN.
Proof. done. Qed.

(** Room for a record of the maximal size, and offsets far from 2^32. *)
Lemma LOG_BUF_LEN_range : 2048 <= LOG_BUF_LEN <= 2 ^ 20.
Proof. done. Qed.

#[local] Opaque LOG_BUF_LEN.

Lemma length_win buf off n : length (win buf off n) = Z.to_nat n.
Proof. unfold win. by rewrite length_map, length_seq. Qed.

Lemma lookup_win buf off n i : (i < Z.to_nat n)%nat ->
  win buf off n !! i = Some (byte_at buf ((off + Z.of_nat i) mod LOG_BUF_LEN)).
Proof.
  intros Hi. unfold win. rewrite list_lookup_fmap. rewrite lookup_seq_lt by done. done.
Qed.

Lemma list_eq_byte (l l' : list Z) : length l = length l' ->
  (forall i, (i < length l)%nat -> l !! i = l' !! i) -> l = l'.
Proof.
  intros Hl He. apply list_eq. intros i. destruct (decide (i < length l)%nat); [by apply He|].
  by rewrite !lookup_ge_None_2 by lia.
Qed.

Lemma win_app buf off a b : 0 <= a -> 0 <= b -> win buf off (a + b) = win buf off a ++ win buf (off + a) b.
Proof.
  intros Ha Hb. apply list_eq_byte.
  { rewrite length_app, !length_win. lia. }
  intros i. rewrite length_win. intros Hi. rewrite lookup_win by done.
  destruct (decide (i < Z.to_nat a)%nat).
  - rewrite lookup_app_l by (by rewrite length_win). by rewrite lookup_win.
  - rewrite lookup_app_r by (rewrite length_win; lia). rewrite length_win, lookup_win by lia.
    do 2 f_equal. f_equal. lia.
Qed.

Lemma win_mod buf off n : win buf (off mod LOG_BUF_LEN) n = win buf off n.
Proof.
  apply list_eq_byte; [by rewrite !length_win|]. intros i. rewrite length_win. intros Hi.
  rewrite !lookup_win by done. by rewrite Zplus_mod_idemp_l.
Qed.

Lemma win_ext buf buf' off n :
  (forall k, 0 <= k < n -> byte_at buf ((off + k) mod LOG_BUF_LEN) = byte_at buf' ((off + k) mod LOG_BUF_LEN)) ->
  win buf off n = win buf' off n.
Proof.
  intros H. apply list_eq_byte; [by rewrite !length_win|]. intros i. rewrite length_win. intros Hi.
  rewrite !lookup_win by done. f_equal. apply H. lia.
Qed.

Lemma lookup_byte_at (l : list Z) i : 0 <= i < zlength l -> l !! Z.to_nat i = Some (byte_at l i).
Proof.
  intros H. unfold byte_at, zlength in *. destruct (lookup_lt_is_Some_2 l (Z.to_nat i)) as [x E]; [lia|].
  by rewrite E.
Qed.

Lemma byte_at_lookup (l : list Z) i x : 0 <= i -> l !! Z.to_nat i = Some x -> byte_at l i = x.
Proof. intros _ H. unfold byte_at. by rewrite H. Qed.

Lemma lookup_sub_bytes (l : list Z) off n i : 0 <= off -> (i < Z.to_nat n)%nat ->
  sub_bytes l off n !! i = l !! (Z.to_nat off + i)%nat.
Proof. intros Ho Hi. unfold sub_bytes. rewrite lookup_take_lt by done. by rewrite lookup_drop. Qed.

Lemma length_sub_bytes (l : list Z) off n : 0 <= off -> 0 <= n -> off + n <= zlength l ->
  length (sub_bytes l off n) = Z.to_nat n.
Proof. unfold zlength, sub_bytes. intros. rewrite length_take, length_drop. lia. Qed.

Section ring.
Context (buf : list Z) (Hlen : zlength buf = LOG_BUF_LEN).

Lemma sub_bytes_win off n : 0 <= off -> 0 <= n -> off + n <= LOG_BUF_LEN -> sub_bytes buf off n = win buf off n.
Proof.
  intros Ho Hn Hon. apply list_eq_byte; [rewrite length_sub_bytes, length_win by lia; done|].
  rewrite length_sub_bytes by lia. intros i Hi. rewrite lookup_sub_bytes, lookup_win by lia.
  rewrite Z.mod_small by lia. replace (Z.to_nat off + i)%nat with (Z.to_nat (off + Z.of_nat i)) by lia.
  apply lookup_byte_at. lia.
Qed.

Lemma copy_from_log_win off n : 0 <= n <= LOG_BUF_LEN -> copy_from_log buf off n = win buf off n.
Proof.
  intros Hn. pose proof LOG_BUF_LEN_pos as HL. unfold copy_from_log.
  pose proof (Z.mod_pos_bound off LOG_BUF_LEN HL) as Ho. rewrite <- (win_mod buf off).
  set (o := off mod LOG_BUF_LEN) in *. clearbody o.
  destruct (Z.gtb_spec (LOG_BUF_LEN - o) n) as [H1|H1].
  - destruct (Z.gtb_spec n n); [lia|]. rewrite app_nil_r. apply sub_bytes_win; lia.
  - destruct (Z.gtb_spec n (LOG_BUF_LEN - o)) as [H2|H2].
    + rewrite !sub_bytes_win by lia. replace n with ((LOG_BUF_LEN - o) + (n - (LOG_BUF_LEN - o))) at 2 by lia.
      rewrite win_app by lia. f_equal. rewrite <- (win_mod buf (o + _)).
      replace (o + (LOG_BUF_LEN - o)) with (0 + 1 * LOG_BUF_LEN) by lia. by rewrite Z_mod_plus_full, Z.mod_0_l by lia.
    + rewrite app_nil_r. replace (LOG_BUF_LEN - o) with n by lia. apply sub_bytes_win; lia.
Qed.

(** Every byte after a copy into the ring. *)
Lemma copy_to_log_byte off src n : 0 <= n <= LOG_BUF_LEN -> n <= zlength src ->
  zlength (copy_to_log buf off src n) = LOG_BUF_LEN /\
  forall j, 0 <= j < LOG_BUF_LEN ->
    byte_at (copy_to_log buf off src n) j =
      if decide ((j - off) mod LOG_BUF_LEN < n) then byte_at src ((j - off) mod LOG_BUF_LEN) else byte_at buf j.
Proof.
  intros Hn Hs. pose proof LOG_BUF_LEN_pos as HL. unfold copy_to_log.
  pose proof (Z.mod_pos_bound off LOG_BUF_LEN HL) as Ho.
  assert (Hmod : forall j, (j - off) mod LOG_BUF_LEN = (j - off mod LOG_BUF_LEN) mod LOG_BUF_LEN)
    by (intros j; by rewrite Zminus_mod_idemp_r).
  set (o := off mod LOG_BUF_LEN) in *. clearbody o.
  assert (Hm : forall j, 0 <= j < LOG_BUF_LEN ->
     (j - o) mod LOG_BUF_LEN = if decide (o <= j) then j - o else j - o + LOG_BUF_LEN).
  { intros j Hj. case_decide; [apply Z.mod_small; lia|].
    rewrite <- (Z_mod_plus_full _ 1), Z.mod_small; lia. }
  assert (Hby : forall (d : list Z) o' src' n' j, 0 <= o' -> 0 <= n' -> o' + n' <= zlength d -> n' <= zlength src' -> 0 <= j ->
     byte_at (memcpy_at d o' src' n') j = if decide (o' <= j < o' + n') then byte_at src' (j - o') else byte_at d j).
  { intros d o' src' n' j ? ? ? ? ?. unfold byte_at at 1. rewrite lookup_memcpy_at by done.
    rewrite Z2Nat.id by lia. case_decide; [|done]. unfold byte_at. do 2 f_equal. lia. }
  assert (Hzl : forall (d : list Z) o' src' n', 0 <= o' -> 0 <= n' -> o' + n' <= zlength d -> n' <= zlength src' ->
     zlength (memcpy_at d o' src' n') = zlength d).
  { intros. unfold zlength in *. rewrite length_memcpy_at; done. }
  destruct (Z.gtb_spec (LOG_BUF_LEN - o) n) as [H1|H1].
  { destruct (Z.gtb_spec n n); [lia|]. split; [rewrite Hzl; lia|]. intros j Hj.
    rewrite Hmod, Hby, Hm by lia. repeat case_decide; try lia; done. }
  destruct (Z.gtb_spec n (LOG_BUF_LEN - o)) as [H2|H2].
  - assert (Hd : n - (LOG_BUF_LEN - o) <= zlength (drop (Z.to_nat (LOG_BUF_LEN - o)) src)).
    { unfold zlength in *. rewrite length_drop. lia. }
    split; [rewrite !Hzl; rewrite ?Hzl; lia|]. intros j Hj. rewrite Hmod.
    rewrite Hby by (rewrite ?Hzl; lia). rewrite Hby, Hm by lia.
    assert (Hdr : forall i, 0 <= i -> byte_at (drop (Z.to_nat (LOG_BUF_LEN - o)) src) i = byte_at src (LOG_BUF_LEN - o + i)).
    { intros i Hi. unfold byte_at. rewrite lookup_drop. do 2 f_equal. lia. }
    repeat case_decide; try lia; rewrite ?Hdr by lia; try (f_equal; lia); done.
  - split; [rewrite Hzl; lia|]. intros j Hj. rewrite Hmod, Hby, Hm by lia.
    repeat case_decide; try lia; try (f_equal; lia); done.
Qed.

Lemma win_copy_same off src n : 0 <= n <= LOG_BUF_LEN -> n <= zlength src ->
  win (copy_to_log buf off src n) off n = take (Z.to_nat n) src.
Proof.
  intros Hn Hs. pose proof LOG_BUF_LEN_pos as HL. destruct (copy_to_log_byte off src n Hn Hs) as [_ Hb].
  apply list_eq_byte; [rewrite length_win, length_take; unfold zlength in *; lia|].
  intros i. rewrite length_win. intros Hi. rewrite lookup_win, lookup_take_lt by lia.
  rewrite Hb by (apply Z.mod_pos_bound; lia).
  assert (E : ((off + Z.of_nat i) mod LOG_BUF_LEN - off) mod LOG_BUF_LEN = Z.of_nat i).
  { rewrite Zminus_mod_idemp_l. replace (off + Z.of_nat i - off) with (Z.of_nat i) by lia.
    apply Z.mod_small. lia. }
  rewrite E, decide_True by lia. symmetry.
  rewrite <- (Nat2Z.id i) at 1. apply lookup_byte_at. lia.
Qed.

Lemma win_copy_other off src n o m d : 0 <= n -> n <= zlength src -> 0 <= m -> 0 <= d ->
  off mod LOG_BUF_LEN = (o + m + d) mod LOG_BUF_LEN -> m + d + n <= LOG_BUF_LEN ->
  win (copy_to_log buf off src n) o m = win buf o m.
Proof.
  intros Hn Hs Hm Hd Eo Hb. pose proof LOG_BUF_LEN_pos as HL.
  destruct (copy_to_log_byte off src n ltac:(lia) Hs) as [_ Hby].
  apply win_ext. intros k Hk. rewrite Hby by (apply Z.mod_pos_bound; lia).
  rewrite decide_False; [done|]. rewrite Zminus_mod_idemp_l, Zminus_mod, Eo, <- Zminus_mod.
  replace (o + k - (o + m + d)) with (k - m - d) by lia.
  rewrite <- (Z_mod_plus_full _ 1), Z.mod_small; lia.
Qed.
End ring.

(** ** Encoded records *)

Record rec_ok (r : log_record) : Prop := {
  ro_text : 0 < zlength (text r) <= LOG_LINE_MAX;
  ro_prio : 0 <= prio r < 2 ^ 16;
  ro_flags : 0 <= flags r < 2 ^ 16;
  ro_seq : is_u32 (seqno r);
  ro_usec : is_u64 (usec r);
}.

Definition enc (r : log_record) : list Z := enc_header (zlength (text r)) r ++ text r ++ [0].
Definition bytes (rs : list log_record) : list Z := concat (map enc rs).

Definition header_of (r : log_record) : header :=
  mkhdr (zlength (text r)) (prio r) (flags r) (seqno r) (usec r).

Lemma length_enc_header n r : length (enc_header n r) = 20%nat.
Proof. done. Qed.

Lemma zlength_enc r : zlength (enc r) = LOG_RECORD_HEADER + zlength (text r) + 1.
Proof. unfold enc, zlength. rewrite !length_app, length_enc_header. simpl. unfold LOG_RECORD_HEADER. lia. Qed.

Lemma byte_mod x : is_u8 (x mod 256).
Proof. unfold is_u8. pose proof (Z.mod_pos_bound x 256). lia. Qed.

Lemma enc_header_u8 n r : Forall is_u8 (enc_header n r).
Proof. unfold enc_header, le_bytes. simpl. repeat constructor; apply byte_mod. Qed.

Lemma bytes_4 x : is_u32 x -> x mod 256 + (x / 256) mod 256 * 2 ^ 8 + (x / 256 / 256) mod 256 * 2 ^ 16
  + (x / 256 / 256 / 256) mod 256 * 2 ^ 24 = x.
Proof. unfold is_u32. intros. Z.to_euclidean_division_equations. lia. Qed.

Lemma bytes_2 x : 0 <= x < 2 ^ 16 -> x mod 256 + (x / 256) mod 256 * 2 ^ 8 = x.
Proof. intros. Z.to_euclidean_division_equations. lia. Qed.

Lemma bytes_4_low x : 0 <= x -> x mod 256 + (x / 256) mod 256 * 2 ^ 8 + (x / 256 / 256) mod 256 * 2 ^ 16
  + (x / 256 / 256 / 256) mod 256 * 2 ^ 24 = x mod 2 ^ 32.
Proof. intros. Z.to_euclidean_division_equations. lia. Qed.

Lemma dec_enc_header n r : is_u32 n -> rec_ok r ->
  dec_header (enc_header n r) = mkhdr n (prio r) (flags r) (seqno r) (usec r).
Proof.
  intros Hn []. pose proof (enc_header_u8 n r) as Hu. unfold dec_header. f_equal.
  - rewrite le32_eq by done. unfold byte_at, enc_header. simpl. by apply bytes_4.
  - rewrite le16_eq by done. unfold byte_at, enc_header. simpl. by apply bytes_2.
  - rewrite le16_eq by done. unfold byte_at, enc_header. simpl. by apply bytes_2.
  - rewrite le32_eq by done. unfold byte_at, enc_header. simpl. by apply bytes_4.
  - unfold le64. pose proof (le32_range (enc_header n r) 12 Hu) as Hr. unfold is_u32 in Hr.
    rewrite lor_shiftl_add by (done || lia). rewrite !le32_eq by done. unfold byte_at, enc_header. simpl.
    unfold is_u64 in *. set (x := usec r) in *. clearbody x.
    rewrite bytes_4_low by lia.
    set (y := x / 256 / 256 / 256 / 256).
    assert (Hy : y = x / 2 ^ 32) by (unfold y; rewrite !Z.div_div by lia; done).
    rewrite bytes_4 by (unfold is_u32; rewrite Hy; split; [apply Z.div_pos|apply Z.div_lt_upper_bound]; lia).
    rewrite Hy. pose proof (Z.div_mod x (2 ^ 32)). lia.
Qed.

(** The readers at the start of an encoded record. *)
Lemma at_record buf off r rest n : zlength buf = LOG_BUF_LEN -> 0 <= off < LOG_BUF_LEN -> rec_ok r ->
  n <= LOG_BUF_LEN -> win buf off n = enc r ++ rest ->
  read_header buf off = header_of r /\ read_text buf off (header_of r) = text r /\
  record_size (zlength (text r)) = zlength (enc r) /\
  win buf (u32 (off + zlength (enc r)) mod LOG_BUF_LEN) (n - zlength (enc r)) = rest /\
  zlength (enc r) <= n.
Proof.
  intros Hb Ho Hr Hn E. pose proof LOG_BUF_LEN_range as HL. pose proof (ro_text _ Hr) as Ht.
  unfold LOG_LINE_MAX in Ht. pose proof (zlength_enc r) as Hz. unfold LOG_RECORD_HEADER in Hz.
  assert (Hle : zlength (enc r) <= n).
  { apply (f_equal length) in E. rewrite length_win, length_app in E. unfold zlength in *. lia. }
  replace n with (20 + (zlength (text r) + (1 + (n - zlength (enc r))))) in E by lia.
  assert (Ee : enc r ++ rest = enc_header (zlength (text r)) r ++ text r ++ [0] ++ rest)
    by (unfold enc; by rewrite <- !app_assoc).
  rewrite !win_app, Ee in E by lia.
  apply app_inj_1 in E as [E1 E]; [|by rewrite length_win].
  apply app_inj_1 in E as [E2 E]; [|rewrite length_win; unfold zlength; lia].
  apply app_inj_1 in E as [_ E]; [|by rewrite length_win].
  split; [|split; [|split; [|split; [|done]]]].
  - unfold read_header, LOG_RECORD_HEADER. rewrite copy_from_log_win, E1 by (done || lia).
    apply dec_enc_header; [unfold is_u32; lia|done].
  - unfold read_text, LOG_RECORD_HEADER. simpl. rewrite u32_small by lia.
    rewrite copy_from_log_win by (done || lia). done.
  - unfold record_size, LOG_RECORD_HEADER. rewrite !u32_small by (rewrite ?u32_small; lia). lia.
  - rewrite u32_small by lia. rewrite win_mod. rewrite <- E. f_equal. lia.
Qed.

(** ** The representation *)

(** [s] holds the records [rs], oldest first. *)
Record repr (s : log) (rs : list log_record) : Prop := {
  r_len : zlength (log_buf s) = LOG_BUF_LEN;
  r_count : log_count s = zlength rs;
  r_used : log_used s = zlength (bytes rs);
  r_fit : log_used s <= LOG_BUF_LEN;
  r_tail : 0 <= log_tail s < LOG_BUF_LEN;
  r_head : log_head s = (log_tail s + log_used s) mod LOG_BUF_LEN;
  r_bytes : win (log_buf s) (log_tail s) (log_used s) = bytes rs;
  r_ok : Forall rec_ok rs;
  r_next : is_u32 (log_next_seq s);
  r_seq : forall i r, rs !! i = Some r -> seqno r = u32 (log_next_seq s - zlength rs + Z.of_nat i);
}.

Lemma bytes_cons r rs : bytes (r :: rs) = enc r ++ bytes rs.
Proof. done. Qed.

(** Every record takes at least [LOG_RECORD_HEADER + 2] bytes, so the count is
    far from the word size. *)
Lemma zlength_bytes rs : Forall rec_ok rs -> zlength rs <= zlength (bytes rs).
Proof.
  induction 1 as [|r rs Hr _ IH]; [done|]. rewrite bytes_cons, zlength_app, zlength_cons, zlength_enc.
  destruct Hr. unfold LOG_RECORD_HEADER. lia.
Qed.

Lemma repr_bounds s rs : repr s rs -> zlength rs <= zlength (bytes rs) <= LOG_BUF_LEN /\ LOG_BUF_LEN <= 2 ^ 20.
Proof.
  intros []. pose proof (zlength_bytes _ r_ok0). pose proof LOG_BUF_LEN_range. lia.
Qed.

Lemma drop_oldest_ok s r rs : repr s (r :: rs) ->
  repr (drop_oldest_locked s) rs /\ log_next_seq (drop_oldest_locked s) = log_next_seq s.
Proof.
  intros H. destruct (repr_bounds _ _ H) as [Hb HL]. pose proof H as [].
  rewrite bytes_cons in *. rewrite zlength_app, zlength_cons in *.
  apply Forall_cons in r_ok0 as [Hr Hok]. unfold drop_oldest_locked.
  assert (Hc : 0 <= zlength rs) by (unfold zlength; lia).
  assert (Hb2 : 0 <= zlength (bytes rs)) by (unfold zlength; lia).
  rewrite (proj2 (Z.eqb_neq _ 0)) by lia.
  destruct (at_record (log_buf s) (log_tail s) r (bytes rs) (log_used s)) as (E1 & _ & E2 & E3 & E4);
    try done; try lia.
  rewrite E1. cbn [h_len header_of]. rewrite E2. split; [|done].
  pose proof (ro_text _ Hr). pose proof (zlength_enc r). unfold LOG_RECORD_HEADER in *.
  rewrite (u32_small (log_count s - 1)), (u32_small (log_used s - zlength (enc r))) by lia.
  split; cbn [log_buf log_head log_tail log_count log_used log_next_seq]; try done; try lia.
  - apply Z.mod_pos_bound, LOG_BUF_LEN_pos.
  - rewrite (u32_small (log_tail s + _)) by lia. rewrite r_head0, Zplus_mod_idemp_l. f_equal. lia.
  - intros i r' Hi. rewrite (r_seq0 (S i) r') by done. f_equal. lia.
Qed.

(** The records that stay when [total] bytes are needed. *)
Fixpoint trim (rs : list log_record) (total : Z) : list log_record :=
  match rs with
  | [] => []
  | _ :: rs' => if LOG_BUF_LEN - zlength (bytes rs) <? total then trim rs' total else rs
  end.

Lemma make_room_ok rs s total : repr s rs -> 0 <= total ->
  repr (make_room (length rs) s total) (trim rs total) /\
  log_next_seq (make_room (length rs) s total) = log_next_seq s.
Proof.
  revert s. induction rs as [|r rs IH]; intros s H Ht; [done|]. cbn [length make_room trim].
  destruct (repr_bounds _ _ H) as [Hb HL]. pose proof H as []. rewrite r_used0 in *.
  assert (Hc : 0 <= zlength rs) by (unfold zlength; lia). rewrite zlength_cons in r_count0.
  rewrite zlength_cons in Hb. rewrite (proj2 (Z.eqb_neq _ 0)) by lia. cbn [negb andb].
  rewrite (u32_small (LOG_BUF_LEN - zlength (bytes (r :: rs)))) by lia.
  destruct (Z.ltb_spec (LOG_BUF_LEN - zlength (bytes (r :: rs))) total); [|done].
  destruct (drop_oldest_ok s r rs H) as [Hd En]. destruct (IH _ Hd Ht) as [H1 H2].
  split; [done|]. by rewrite H2.
Qed.

Lemma trim_room rs total : total <= LOG_BUF_LEN -> zlength (bytes (trim rs total)) <= LOG_BUF_LEN - total.
Proof.
  intros Ht. induction rs as [|r rs IH]; cbn [trim]; [unfold zlength; simpl; lia|].
  destruct (Z.ltb_spec (LOG_BUF_LEN - zlength (bytes (r :: rs))) total); [done|lia].
Qed.

(** Appending one record of [total] bytes at [head], in the three copies. *)
Lemma append_bytes buf tail used r txt len : zlength buf = LOG_BUF_LEN -> 0 <= used -> 0 < len <= zlength txt ->
  used + (LOG_RECORD_HEADER + len + 1) <= LOG_BUF_LEN -> 0 <= tail < LOG_BUF_LEN ->
  let head := (tail + used) mod LOG_BUF_LEN in
  let buf1 := copy_to_log buf head (enc_header len r) LOG_RECORD_HEADER in
  let buf2 := copy_to_log buf1 (u32 (head + LOG_RECORD_HEADER)) txt len in
  let buf3 := copy_to_log buf2 (u32 (u32 (head + LOG_RECORD_HEADER) + len)) [0] 1 in
  zlength buf3 = LOG_BUF_LEN /\
  win buf3 tail (used + (LOG_RECORD_HEADER + len + 1)) =
    win buf tail used ++ enc_header len r ++ take (Z.to_nat len) txt ++ [0].
Proof.
  intros Hb Hu Hlen Hfit Ht head buf1 buf2 buf3. pose proof LOG_BUF_LEN_range as HL. unfold LOG_RECORD_HEADER in *.
  assert (Hh : 0 <= head < LOG_BUF_LEN) by (apply Z.mod_pos_bound; lia).
  assert (Hhm : head mod LOG_BUF_LEN = (tail + used) mod LOG_BUF_LEN) by (unfold head; by rewrite Z.mod_mod by lia).
  assert (B2 : buf2 = copy_to_log buf1 (head + 20) txt len) by (unfold buf2; by rewrite u32_small by lia).
  assert (B3 : buf3 = copy_to_log buf2 (head + 20 + len) [0] 1)
    by (unfold buf3; by rewrite (u32_small (head + 20)), u32_small by lia).
  assert (B1 : buf1 = copy_to_log buf head (enc_header len r) 20) by done.
  assert (Hhd : zlength (enc_header len r) = 20) by (unfold zlength; by rewrite length_enc_header).
  assert (Hshift : forall k, (head + k) mod LOG_BUF_LEN = (tail + used + k) mod LOG_BUF_LEN).
  { intros k. by rewrite <- Zplus_mod_idemp_l, Hhm, Zplus_mod_idemp_l. }
  clearbody buf3 buf2 buf1 head.
  destruct (copy_to_log_byte buf Hb head (enc_header len r) 20) as [L1 _]; [lia|lia|]. rewrite <- B1 in L1.
  destruct (copy_to_log_byte buf1 L1 (head + 20) txt len) as [L2 _]; [lia|lia|]. rewrite <- B2 in L2.
  destruct (copy_to_log_byte buf2 L2 (head + 20 + len) [0] 1) as [L3 _]; [lia|done|]. rewrite <- B3 in L3.
  split; [done|]. rewrite !win_app by lia. rewrite <- app_assoc.
  assert (E0 : win buf3 tail used = win buf tail used).
  { rewrite B3. rewrite (win_copy_other buf2 L2 _ _ _ tail used (20 + len)); try (done || lia).
    2: { rewrite <- Z.add_assoc, Hshift. f_equal. }
    rewrite B2. rewrite (win_copy_other buf1 L1 _ _ _ tail used 20); try (done || lia).
    rewrite B1. apply (win_copy_other buf Hb _ _ _ tail used 0); try (done || lia). rewrite Hhm. f_equal. lia. }
  assert (Eo : forall b k n, win b (tail + used + k) n = win b (head + k) n).
  { intros b k n. rewrite <- (win_mod b (tail + used + k)), <- (win_mod b (head + k)). by rewrite Hshift. }
  assert (E1 : win buf3 (tail + used) 20 = enc_header len r).
  { replace (tail + used) with (tail + used + 0) by lia. rewrite Eo.
    rewrite B3. rewrite (win_copy_other buf2 L2 _ _ _ (head + 0) 20 len); try (done || lia); [|f_equal; lia].
    rewrite B2. rewrite (win_copy_other buf1 L1 _ _ _ (head + 0) 20 0); try (done || lia); [|f_equal; lia].
    rewrite B1. rewrite Z.add_0_r, (win_copy_same buf Hb) by lia. done. }
  assert (E2 : win buf3 (tail + (used + 20)) len = take (Z.to_nat len) txt).
  { replace (tail + (used + 20)) with (tail + used + 20) by lia. rewrite Eo.
    rewrite B3. rewrite (win_copy_other buf2 L2 _ _ _ (head + 20) len 0); try (done || lia); [|f_equal; lia].
    rewrite B2. rewrite (win_copy_same buf1 L1) by lia. done. }
  assert (E3 : win buf3 (tail + (used + (20 + len))) 1 = [0]).
  { replace (tail + (used + (20 + len))) with (tail + used + (20 + len)) by lia. rewrite Eo.
    rewrite B3. rewrite Z.add_assoc, (win_copy_same buf2 L2) by (done || lia). done. }
  replace (tail + used + (20 + len)) with (tail + (used + (20 + len))) by lia.
  replace (tail + used + 20) with (tail + (used + 20)) by lia. by rewrite E0, E1, E2, E3.
Qed.

(** The record [logbuf_store] appends. *)
Definition stored (next : Z) (p : Z) (txt : list Z) (time : Z) : log_record :=
  mkrec (u16 p) 0 next (u64 (u64 (time * 1000000) / HZ)) (take (Z.to_nat LOG_LINE_MAX) txt).

Lemma stored_ok next p txt time : is_u32 next -> txt <> [] -> rec_ok (stored next p txt time).
Proof.
  intros Hn Ht. split; cbn [stored prio flags seqno usec text]; try done.
  - assert (0 < length txt)%nat by (destruct txt; [done|simpl; lia]).
    unfold zlength, LOG_LINE_MAX. rewrite length_take. lia.
  - unfold u16. apply Z.mod_pos_bound. lia.
  - apply u64_range.
Qed.

Definition spec_store (rs : list log_record) (next p : Z) (txt : list Z) (time : Z) : list log_record * Z :=
  match txt with
  | [] => (rs, next)
  | _ => let r := stored next p txt time in (trim rs (zlength (enc r)) ++ [r], u32 (next + 1))
  end.

Lemma trim_suffix rs total : exists pre, rs = pre ++ trim rs total.
Proof.
  induction rs as [|r rs [pre IH]]; cbn [trim]; [by exists []|].
  destruct (_ <? total); [exists (r :: pre); simpl; by rewrite <- IH|by exists []].
Qed.

Lemma repr_length s rs : repr s rs -> Z.to_nat (log_count s) = length rs.
Proof. intros []. rewrite r_count0. unfold zlength. lia. Qed.

Lemma cut_length (txt : list Z) : txt <> [] ->
  let len := if zlength txt >? LOG_LINE_MAX then LOG_LINE_MAX else zlength txt in
  0 < len <= LOG_LINE_MAX /\ len <= zlength txt /\
  take (Z.to_nat len) txt = take (Z.to_nat LOG_LINE_MAX) txt.
Proof.
  intros Ht. assert (0 < length txt)%nat by (destruct txt; [done|simpl; lia]).
  unfold zlength, LOG_LINE_MAX. destruct (Z.gtb_spec (Z.of_nat (length txt)) 1024); (split; [lia|]); (split; [lia|]).
  - done.
  - by rewrite !take_ge by lia.
Qed.

Lemma u32_shift x n i : u32 (u32 (x + 1) - (n + 1) + i) = u32 (x - n + i).
Proof.
  unfold u32. replace ((x + 1) mod 2 ^ 32 - (n + 1) + i) with ((x + 1) mod 2 ^ 32 + (i - n - 1)) by lia.
  rewrite Zplus_mod_idemp_l. f_equal. lia.
Qed.

(** The state after the copies represents one record more. *)
Lemma repr_append s rs r len buf next : repr s rs -> rec_ok r -> log_next_seq s = next -> seqno r = next ->
  zlength (text r) = len -> zlength (enc r) = 21 + len -> zlength (bytes rs) <= LOG_BUF_LEN - zlength (enc r) ->
  zlength buf = LOG_BUF_LEN ->
  win buf (log_tail s) (log_used s + zlength (enc r)) = win (log_buf s) (log_tail s) (log_used s) ++ enc r ->
  repr (mklog buf (u32 (log_head s + zlength (enc r)) mod LOG_BUF_LEN) (log_tail s) (u32 (log_count s + 1))
    (u32 (log_used s + zlength (enc r))) (u32 (next + 1))) (rs ++ [r]).
Proof.
  intros H Hr <- Hseq Hzt Hrp Hroom Hb Hw. pose proof LOG_BUF_LEN_range as HL.
  pose proof (repr_bounds _ _ H) as [Hb1 _]. pose proof H as [L1 C1 U1 F1 T1 D1 B1 O1 N1 S1].
  assert (Hts : 0 <= zlength rs) by (unfold zlength; lia). pose proof (ro_text _ Hr) as Ht.
  assert (Hh : 0 <= log_head s < LOG_BUF_LEN) by (rewrite D1; apply Z.mod_pos_bound; lia).
  assert (Ebytes : bytes (rs ++ [r]) = bytes rs ++ enc r).
  { unfold bytes. rewrite map_app, concat_app. simpl. by rewrite app_nil_r. }
  rewrite (u32_small (log_head s + _)), (u32_small (log_count s + 1)), (u32_small (log_used s + _)) by lia.
  split; cbn [log_buf log_head log_tail log_count log_used log_next_seq]; rewrite ?Ebytes, ?zlength_app; try done; try lia.
  - rewrite C1. unfold zlength. simpl. lia.
  - rewrite D1, Zplus_mod_idemp_l. f_equal. lia.
  - by rewrite Hw, B1.
  - apply Forall_app. split; [done|]. by constructor.
  - apply u32_range.
  - intros i r' Hi. change (zlength [r]) with 1. rewrite u32_shift.
    destruct (decide (i < length rs)%nat).
    + rewrite lookup_app_l in Hi by done. by apply S1.
    + rewrite lookup_app_r in Hi by lia. destruct (i - length rs)%nat as [|k] eqn:Ek; [|done].
      simpl in Hi. injection Hi as <-. rewrite Hseq.
      replace (log_next_seq s - zlength rs + Z.of_nat i) with (log_next_seq s) by (unfold zlength; lia).
      symmetry. by apply u32_small.
Qed.

Lemma logbuf_store_ok s rs p txt time : repr s rs ->
  repr (logbuf_store s p txt time) (spec_store rs (log_next_seq s) p txt time).1 /\
  log_next_seq (logbuf_store s p txt time) = (spec_store rs (log_next_seq s) p txt time).2.
Proof.
  intros H. unfold logbuf_store, spec_store. destruct txt as [|c txt']; [done|].
  assert (Hne : c :: txt' <> []) by done. set (txt := c :: txt') in *. clearbody txt.
  assert (Hz : 0 < zlength txt) by (unfold zlength; destruct txt; simpl; [done|lia]).
  rewrite (proj2 (Z.eqb_neq _ 0)) by lia. pose proof LOG_BUF_LEN_range as HL.
  destruct (cut_length txt Hne) as (Hl1 & Hl2 & Htxt).
  set (len := if zlength txt >? LOG_LINE_MAX then LOG_LINE_MAX else zlength txt) in *.
  clearbody len. unfold LOG_LINE_MAX in Hl1. rewrite (repr_length _ _ H).
  set (r := stored (log_next_seq s) p txt time).
  assert (Hr : rec_ok r) by (apply stored_ok; [apply (r_next _ _ H)|done]).
  assert (Hzt : zlength (text r) = len).
  { unfold r. cbn [stored text]. rewrite <- Htxt. unfold zlength in *. rewrite length_take. lia. }
  assert (Etot : LOG_RECORD_HEADER + len + 1 = zlength (enc r)) by (by rewrite zlength_enc, Hzt).
  assert (Hrp : zlength (enc r) = 21 + len) by (unfold LOG_RECORD_HEADER in Etot; lia).
  rewrite Etot. destruct (make_room_ok rs s (zlength (enc r)) H) as [H1 En]; [lia|].
  pose proof (trim_room rs (zlength (enc r)) ltac:(lia)) as Hroom.
  set (s1 := make_room (length rs) s (zlength (enc r))) in *. clearbody s1.
  set (ts := trim rs (zlength (enc r))) in *. clearbody ts. rewrite En.
  pose proof (repr_bounds _ _ H1) as [Hb1 _]. pose proof H1 as [L1 C1 U1 F1 T1 D1 B1 O1 N1 S1].
  assert (Hts : 0 <= zlength ts) by (unfold zlength; lia).
  destruct (append_bytes (log_buf s1) (log_tail s1) (log_used s1) r txt len) as [L3 B3]; try done; try lia.
  rewrite <- D1 in L3, B3. rewrite Etot in B3.
  assert (Eh : enc_header len r = enc_header len (mkrec (u16 p) 0 (log_next_seq s) (u64 (u64 (time * 1000000) / HZ)) txt)) by done.
  rewrite Eh in L3, B3.
  cbn [fst snd]. split; [|done]. apply (repr_append s1 ts r len); try done.
  - rewrite B3. unfold enc. rewrite Hzt, Htxt. rewrite Eh. done.
Qed.


(** ** The readers *)

Definition kmsg_line (r : log_record) : list Z := format_kmsg_line (header_of r) (text r).
Definition syslog_line (r : log_record) : list Z := format_syslog_line (header_of r) (text r).

(** Records [rs] lie in the ring from [cur] on, in [n] bytes. *)
Record at_ring (buf : list Z) (cur n : Z) (rs : list log_record) : Prop := {
  a_len : zlength buf = LOG_BUF_LEN;
  a_cur : 0 <= cur < LOG_BUF_LEN;
  a_fit : n <= LOG_BUF_LEN;
  a_ok : Forall rec_ok rs;
  a_win : win buf cur n = bytes rs;
}.

Lemma repr_at_ring s rs : repr s rs -> at_ring (log_buf s) (log_tail s) (log_used s) rs.
Proof. intros []. by split. Qed.

Lemma at_ring_cons buf cur n r rs : at_ring buf cur n (r :: rs) ->
  read_header buf cur = header_of r /\ read_text buf cur (header_of r) = text r /\
  at_ring buf (u32 (cur + record_size (h_len (header_of r))) mod LOG_BUF_LEN) (n - zlength (enc r)) rs.
Proof.
  intros [H1 H2 H3 H4 H5]. apply Forall_cons in H4 as [Hr Hok]. rewrite bytes_cons in H5.
  destruct (at_record buf cur r (bytes rs) n H1 H2 Hr H3 H5) as (E1 & E2 & E3 & E4 & E5).
  split; [done|]. split; [done|]. cbn [h_len header_of]. rewrite E3. split; try done.
  - apply Z.mod_pos_bound, LOG_BUF_LEN_pos.
  - pose proof (zlength_enc r). unfold LOG_RECORD_HEADER in *. destruct Hr. lia.
Qed.

Lemma find_seq_loop_ok buf seq rs cur n : at_ring buf cur n rs ->
  match list_find (fun r => seqno r = seq) rs with
  | None => find_seq_loop buf seq (length rs) cur = None
  | Some (_, r) => exists off n' rest, find_seq_loop buf seq (length rs) cur = Some off /\ at_ring buf off n' (r :: rest)
  end.
Proof.
  revert cur n. induction rs as [|r rs IH]; intros cur n H; [done|]. cbn [find_seq_loop length list_find].
  destruct (at_ring_cons _ _ _ _ _ H) as (E1 & _ & H1). rewrite E1. cbn [h_seq header_of].
  destruct (Z.eqb_spec (seqno r) seq) as [E|E].
  - rewrite decide_True by done. by exists cur, n, rs.
  - rewrite decide_False by done. specialize (IH _ _ H1). by destruct (list_find _ rs) as [[i r']|].
Qed.

(** What a reader of record number [seq] gets from the log [rs]. *)
Definition spec_read (rs : list log_record) (next seq size : Z) : read_result :=
  if bool_decide (rs = []) || (seq =? next) then RNone else
  match list_find (fun r => seqno r = seq) rs with
  | Some (_, r) => RLine (take (Z.to_nat size) (kmsg_line r)) (u32 (seq + 1))
  | None => RErr (- EPIPE)
  end.

Lemma oldest_ok s r rs : repr s (r :: rs) -> oldest_seq_locked s = seqno r.
Proof.
  intros H. unfold oldest_seq_locked. rewrite (r_count _ _ H), zlength_cons.
  assert (0 <= zlength rs) by (unfold zlength; lia). rewrite (proj2 (Z.eqb_neq _ 0)) by lia.
  by destruct (at_ring_cons _ _ _ _ _ (repr_at_ring _ _ H)) as (-> & _).
Qed.

Lemma read_seq_ok s rs seq size : repr s rs -> read_seq_locked s seq size = spec_read rs (log_next_seq s) seq size.
Proof.
  intros H. unfold read_seq_locked, spec_read. destruct rs as [|r rs].
  { by rewrite (r_count _ _ H). }
  destruct (repr_bounds _ _ H) as [Hb HL]. rewrite (r_count _ _ H), zlength_cons in *.
  assert (Hz : 0 <= zlength rs) by (unfold zlength; lia). rewrite (proj2 (Z.eqb_neq _ 0)) by lia.
  rewrite bool_decide_eq_false_2 by done. cbn [orb]. destruct (Z.eqb_spec seq (log_next_seq s)); [done|].
  rewrite (oldest_ok s r rs H). pose proof (find_seq_loop_ok (log_buf s) seq (r :: rs) _ _ (repr_at_ring _ _ H)) as Hf.
  unfold find_seq_locked. rewrite (repr_length _ _ H).
  destruct (list_find (fun r => seqno r = seq) (r :: rs)) as [[i q]|] eqn:El.
  - destruct Hf as (off & n' & rest & -> & Ha).
    apply list_find_Some in El as (Hi & Hq & _). pose proof (lookup_lt_Some _ _ _ Hi) as Hlt. simpl in Hlt.
    pose proof (r_seq _ _ H i q Hi) as Eq. pose proof (r_seq _ _ H 0%nat r eq_refl) as E0.
    rewrite zlength_cons in Eq, E0.
    assert (Ed : u32 (seq - seqno r) = Z.of_nat i).
    { rewrite <- Hq, Eq, E0. unfold u32. rewrite <- Zminus_mod.
      replace (_ - _) with (Z.of_nat i) by lia. apply Z.mod_small. unfold zlength in *. lia. }
    rewrite Ed, s32_small by (unfold zlength in *; lia). rewrite (proj2 (Z.ltb_ge _ _)) by lia.
    unfold read_record_locked. destruct (at_ring_cons _ _ _ _ _ Ha) as (-> & -> & _).
    cbn [h_seq header_of]. by rewrite Hq.
  - rewrite Hf. by destruct (_ <? 0).
Qed.

Lemma syslog_loop_ok buf rs cur n size : at_ring buf cur n rs ->
  syslog_loop buf (length rs) cur size = take (Z.to_nat size) (concat (map syslog_line rs)).
Proof.
  revert cur n size. induction rs as [|r rs IH]; intros cur n size H; cbn [length syslog_loop map concat].
  { by rewrite take_nil. }
  destruct (at_ring_cons _ _ _ _ _ H) as (E1 & E2 & H1). rewrite E1, E2.
  destruct (Z.leb_spec size 0) as [Hs|Hs]; [by rewrite Z2Nat.nonpos|].
  rewrite (IH _ _ _ H1), take_app. fold (syslog_line r). f_equal. f_equal.
  unfold zlength. rewrite length_take. lia.
Qed.

Lemma syslog_len_ok buf rs cur n : at_ring buf cur n rs ->
  syslog_len_loop buf (length rs) cur = zlength (concat (map syslog_line rs)).
Proof.
  revert cur n. induction rs as [|r rs IH]; intros cur n H; cbn [length syslog_len_loop map concat]; [done|].
  destruct (at_ring_cons _ _ _ _ _ H) as (E1 & E2 & H1). rewrite E1, E2, (IH _ _ H1), zlength_app. done.
Qed.

(** ** Runs *)

Inductive op :=
  | Store (p : Z) (txt : list Z) (time : Z)
  | Clear.

Definition log_step (s : log) (o : op) : log :=
  match o with Store p txt time => logbuf_store s p txt time | Clear => logbuf_clear s end.

(** The abstract log: the records and the next number. *)
Definition spec_step (a : list log_record * Z) (o : op) : list log_record * Z :=
  match o with Store p txt time => spec_store a.1 a.2 p txt time | Clear => ([], 0) end.

Lemma repr_clear s buf : zlength buf = LOG_BUF_LEN -> repr (mklog buf 0 0 0 0 s) [] <-> is_u32 s.
Proof.
  intros Hb. pose proof LOG_BUF_LEN_range. split; [intros []; done|]. intros Hs.
  split; cbn [log_buf log_head log_tail log_count log_used log_next_seq]; try done; try lia.
Qed.

Lemma run_repr ops s a : repr s a.1 -> log_next_seq s = a.2 ->
  repr (foldl log_step s ops) (foldl spec_step a ops).1 /\ log_next_seq (foldl log_step s ops) = (foldl spec_step a ops).2.
Proof.
  revert s a. induction ops as [|o ops IH]; intros s a H E; [done|]. cbn [foldl]. apply IH.
  - destruct o as [p txt time|]; cbn [log_step spec_step].
    + rewrite <- E. by apply logbuf_store_ok.
    + apply repr_clear; [apply (r_len _ _ H)|done].
  - destruct o as [p txt time|]; cbn [log_step spec_step]; [|done]. rewrite <- E. by apply logbuf_store_ok.
Qed.

(** C29: after any sequence of messages and clears the ring encodes exactly the
    records of the abstract log, in which a message is appended with the next
    sequence number (cut at [LOG_LINE_MAX] bytes) after dropping as many of the
    oldest records as its size requires, and no more. *)
Theorem logbuf_holds_recent buf ops : zlength buf = LOG_BUF_LEN ->
  let s := foldl log_step (logbuf_init buf) ops in
  let a := foldl spec_step ([], 0) ops in
  win (log_buf s) (log_tail s) (log_used s) = bytes a.1 /\
  log_count s = zlength a.1 /\ log_used s = zlength (bytes a.1) /\ log_used s <= LOG_BUF_LEN /\
  log_next_seq s = a.2 /\
  (forall i r, a.1 !! i = Some r -> rec_ok r /\ seqno r = u32 (a.2 - zlength a.1 + Z.of_nat i)).
Proof.
  intros Hb s a. destruct (run_repr ops (logbuf_init buf) ([], 0)) as [H E]; [by apply repr_clear|done|].
  fold s a in H, E. pose proof H as []. split; [done|]. split; [done|]. split; [done|]. split; [done|]. split; [done|].
  intros i r Hi. rewrite <- E. split; [by eapply Forall_lookup_1 in r_ok0|by apply r_seq0].
Qed.

(** the readers agree with the abstract log: a reader gets the formatted
    record of the number it asks for when that is still held, an end-of-log when
    it is the next one, and EPIPE when it was dropped; the syslog functions
    return the formatted lines of all held records, cut to the buffer, and their
    exact length. *)
Theorem logbuf_readers_exact buf ops seq size clear : zlength buf = LOG_BUF_LEN ->
  let s := foldl log_step (logbuf_init buf) ops in
  let a := foldl spec_step ([], 0) ops in
  read_seq_locked s seq size = spec_read a.1 a.2 seq size /\
  (logbuf_format_syslog s size clear).1 = take (Z.to_nat size) (concat (map syslog_line a.1)) /\
  logbuf_formatted_syslog_len s = zlength (concat (map syslog_line a.1)).
Proof.
  intros Hb s a. destruct (run_repr ops (logbuf_init buf) ([], 0)) as [H E]; [by apply repr_clear|done|].
  fold s a in H, E. rewrite <- E. split; [by apply read_seq_ok|].
  unfold logbuf_format_syslog, logbuf_formatted_syslog_len. cbn [fst]. rewrite (repr_length _ _ H).
  split; [by eapply syslog_loop_ok, repr_at_ring|by eapply syslog_len_ok, repr_at_ring].
Qed.

(** ** A concrete log *)

Definition ex_buf : list Z := replicate (Z.to_nat LOG_BUF_LEN) 0.
Definition ex_ops : list op := [Store 6 [104; 105] 250; Store 3 [111; 107] 251].

Lemma ex_buf_len : zlength ex_buf = LOG_BUF_LEN.
Proof. unfold zlength, ex_buf. rewrite length_replicate. pose proof LOG_BUF_LEN_pos. lia. Qed.

Lemma logbuf_holds_recent_witness :
  let s := foldl log_step (logbuf_init ex_buf) ex_ops in
  log_count s = 2 /\ log_next_seq s = 2.
Proof.
  destruct (logbuf_holds_recent ex_buf ex_ops ex_buf_len) as (_ & H1 & _ & _ & H2 & _).
  split; [rewrite H1|rewrite H2]; by vm_compute.
Defined.

Lemma logbuf_readers_exact_witness :
  let s := foldl log_step (logbuf_init ex_buf) ex_ops in
  read_seq_locked s 0 100 = RLine [54;44;48;44;50;53;48;48;48;48;48;44;48;59;32;104;105;10] 1.
Proof.
  destruct (logbuf_readers_exact ex_buf ex_ops 0 100 false ex_buf_len) as (H & _).
  cbv zeta in *. rewrite H. by vm_compute.
Defined.

End Logbuf.
