(* ===== verification/Bitmap.v ===== *)
(** * Bitmaps on disk blocks ([include/lib/bitops.h], [lib/bitops.c])

    A bitmap is the bytes of its buffer.  The bit instructions address bit [nr]
    as bit [nr mod 8] of byte [nr / 8]; [find_first_zero_bit] scans 32-bit
    words. *)
From S2P Require Import Prelude.

Module Bitmap.

Definition test_bit (nr : Z) (buf : list Z) : bool := Z.testbit (byte_at buf (nr / 8)) (nr mod 8).

Definition set_bit (nr : Z) (buf : list Z) : list Z :=
  <[Z.to_nat (nr / 8) := Z.lor (byte_at buf (nr / 8)) (Z.shiftl 1 (nr mod 8))]> buf.

Definition clear_bit (nr : Z) (buf : list Z) : list Z :=
  <[Z.to_nat (nr / 8) := Z.ldiff (byte_at buf (nr / 8)) (Z.shiftl 1 (nr mod 8))]> buf.

Definition test_and_clear_bit (nr : Z) (buf : list Z) : bool * list Z :=
  (test_bit nr buf, clear_bit nr buf).

(** [repe scasl] against all ones: the offset of the first of [n] words from
    byte [off] that is not all ones. *)
Fixpoint scasl (n : nat) (buf : list Z) (off : Z) : option Z :=
  match n with
  | O => None
  | S n' => if le32 buf off =? 0xffffffff then scasl n' buf (off + 4) else Some off
  end.

(** [bsfl]: the lowest set bit of [w], from bit [i] on, [n] bits. *)
Fixpoint bsfl (n : nat) (w i : Z) : Z :=
  match n with
  | O => i
  | S n' => if Z.testbit w i then i else bsfl n' w (i + 1)
  end.

Definition find_first_zero_bit (buf : list Z) (size : Z) : Z :=
  match scasl (Z.to_nat (Z.shiftr (u32 (size + 31)) 5)) buf 0 with
  | None => -1
  | Some off =>
    let bit := off * 8 + bsfl 32 (Z.lxor 0xffffffff (le32 buf off)) 0 in
    if bit >=? size then -1 else bit
  end.

(** ** Bits of bytes and words *)

Lemma u8_testbit_high b i : is_u8 b -> 8 <= i -> Z.testbit b i = false.
Proof.
  unfold is_u8. intros Hb Hi. rewrite <- (Z.mod_small b (2 ^ 8)) by lia.
  apply Z.mod_pow2_bits_high. lia.
Qed.

Lemma u8_of_bits b : (forall i, 8 <= i -> Z.testbit b i = false) -> 0 <= b -> is_u8 b.
Proof.
  intros H Hb. unfold is_u8. split; [done|].
  rewrite <- (Z.lor_0_r b). replace b with (b mod 2 ^ 8).
  - rewrite Z.lor_0_r. apply Z.mod_pos_bound. lia.
  - apply Z.bits_inj'. intros i Hi. destruct (Z.ltb_spec i 8).
    + by rewrite Z.mod_pow2_bits_low by lia.
    + rewrite Z.mod_pow2_bits_high by lia. by rewrite H.
Qed.

Lemma le32_testbit buf off i : Forall is_u8 buf -> 0 <= i < 32 ->
  Z.testbit (le32 buf off) i = Z.testbit (byte_at buf (off + i / 8)) (i mod 8).
Proof.
  intros Hb Hi. unfold le32. rewrite !Z.lor_spec, !Z.shiftl_spec by lia.
  pose proof (Z.div_mod i 8 ltac:(lia)) as Ei. pose proof (Z.mod_pos_bound i 8 ltac:(lia)).
  assert (Hneg : forall b k, k < 0 -> Z.testbit b k = false) by (intros; by apply Z.testbit_neg_r).
  assert (Hhigh : forall o k, 8 <= k -> Z.testbit (byte_at buf o) k = false)
    by (intros; apply u8_testbit_high; [by apply byte_at_range|done]).
  assert (Hq : i / 8 = 0 \/ i / 8 = 1 \/ i / 8 = 2 \/ i / 8 = 3) by lia.
  destruct Hq as [E|[E|[E|E]]]; rewrite E in *.
  - rewrite (Hneg _ (i - 8)), (Hneg _ (i - 16)), (Hneg _ (i - 24)) by lia.
    rewrite !orb_false_r. f_equal; [f_equal|]; lia.
  - rewrite (Hhigh _ i), (Hneg _ (i - 16)), (Hneg _ (i - 24)) by lia.
    rewrite !orb_false_r. simpl. f_equal. lia.
  - rewrite (Hhigh _ i), (Hhigh _ (i - 8)), (Hneg _ (i - 24)) by lia.
    rewrite !orb_false_r. simpl. f_equal. lia.
  - rewrite (Hhigh _ i), (Hhigh _ (i - 8)), (Hhigh _ (i - 16)) by lia.
    simpl. f_equal. lia.
Qed.

(** The bits of a word are the bits of the bitmap. *)
Lemma word_bit buf w i : Forall is_u8 buf -> 0 <= i < 32 ->
  Z.testbit (le32 buf (4 * w)) i = test_bit (32 * w + i) buf.
Proof.
  intros Hb Hi. rewrite le32_testbit by done. unfold test_bit.
  replace ((32 * w + i) / 8) with (4 * w + i / 8).
  - f_equal. rewrite Z.add_mod by lia. replace (32 * w) with (4 * w * 8) by lia.
    by rewrite Z.mod_mul, Z.add_0_l, Z.mod_mod by lia.
  - replace (32 * w + i) with (i + 4 * w * 8) by lia. rewrite Z.div_add by lia. lia.
Qed.

Lemma word_full buf w : Forall is_u8 buf ->
  le32 buf (4 * w) = 0xffffffff <-> forall i, 0 <= i < 32 -> test_bit (32 * w + i) buf = true.
Proof.
  intros Hb. change 0xffffffff with (Z.ones 32). split.
  - intros E i Hi. rewrite <- word_bit, E by done. apply Z.ones_spec_low. lia.
  - intros H. apply Z.bits_inj'. intros i Hi. destruct (Z.ltb_spec i 32).
    + rewrite word_bit, H, Z.ones_spec_low by (done || lia). done.
    + rewrite Z.ones_spec_high by lia. pose proof (le32_range buf (4 * w) Hb) as Hr.
      unfold is_u32 in Hr. rewrite <- (Z.mod_small (le32 buf (4 * w)) (2 ^ 32)) by lia.
      apply Z.mod_pow2_bits_high. lia.
Qed.

Lemma bsfl_spec n w i : 0 <= i ->
  (exists k, i <= k < i + Z.of_nat n /\ Z.testbit w k = true) ->
  let r := bsfl n w i in
  i <= r < i + Z.of_nat n /\ Z.testbit w r = true /\ forall k, i <= k < r -> Z.testbit w k = false.
Proof.
  revert i. induction n as [|n IH]; intros i Hi (k & Hk & Ek); [lia|].
  cbn [bsfl]. destruct (Z.testbit w i) eqn:E; cbn zeta.
  - repeat split; try lia. done.
  - assert (k <> i) by congruence.
    destruct (IH (i + 1) ltac:(lia)) as (H1 & H2 & H3); [exists k; split; [lia|done]|].
    split; [lia|]. split; [done|]. intros k' Hk'. destruct (decide (k' = i)) as [->|]; [done|].
    apply H3. lia.
Qed.

Lemma scasl_spec n buf w : Forall is_u8 buf -> 0 <= w ->
  match scasl n buf (4 * w) with
  | None => forall i, 32 * w <= i < 32 * (w + Z.of_nat n) -> test_bit i buf = true
  | Some off => exists v, off = 4 * v /\ w <= v < w + Z.of_nat n /\
      (forall i, 32 * w <= i < 32 * v -> test_bit i buf = true) /\
      exists i, 0 <= i < 32 /\ test_bit (32 * v + i) buf = false
  end.
Proof.
  intros Hb. revert w. induction n as [|n IH]; intros w Hw; cbn [scasl]; [intros; lia|].
  destruct (Z.eqb_spec (le32 buf (4 * w)) 0xffffffff) as [E|E].
  - assert (Hfull : forall i, 32 * w <= i < 32 * (w + 1) -> test_bit i buf = true).
    { intros i Hi. replace i with (32 * w + (i - 32 * w)) by lia.
      apply (proj1 (word_full buf w Hb)); [done|lia]. }
    specialize (IH (w + 1) ltac:(lia)). replace (4 * (w + 1)) with (4 * w + 4) in IH by lia.
    destruct (scasl n buf (4 * w + 4)) as [off|].
    + destruct IH as (v & -> & Hv & H1 & H2). exists v. split; [done|]. split; [lia|].
      split; [|done]. intros i Hi.
      destruct (decide (i < 32 * (w + 1))); [apply Hfull; lia|apply H1; lia].
    + intros i Hi. destruct (decide (i < 32 * (w + 1))); [apply Hfull; lia|apply IH; lia].
  - exists w. split; [done|]. split; [lia|]. split; [intros; lia|].
    destruct (bool_decide (Forall (fun i => test_bit (32 * w + i) buf = true) (seqZ 0 32))) eqn:Ed.
    + apply bool_decide_eq_true in Ed. rewrite Forall_forall in Ed. exfalso. apply E.
      apply word_full; [done|]. intros i Hi. apply Ed. apply elem_of_seqZ. lia.
    + apply bool_decide_eq_false in Ed. apply not_Forall_Exists in Ed; [|intros ?; apply _].
      apply Exists_exists in Ed as (i & Hi & Hn). apply elem_of_seqZ in Hi.
      exists i. split; [lia|]. simpl in Hn. by apply not_true_is_false in Hn.
Qed.

(** ** The search *)

(** [find_first_zero_bit] finds the first clear bit below [size], or there is none. *)
Lemma find_first_zero_bit_spec buf size : Forall is_u8 buf -> 0 <= size < 2 ^ 32 - 31 ->
  let r := find_first_zero_bit buf size in
  (r = -1 /\ forall i, 0 <= i < size -> test_bit i buf = true) \/
  (0 <= r < size /\ test_bit r buf = false /\ forall i, 0 <= i < r -> test_bit i buf = true).
Proof.
  intros Hb Hs. unfold find_first_zero_bit. rewrite u32_small, Z.shiftr_div_pow2 by lia.
  change (2 ^ 5) with 32.
  pose proof (scasl_spec (Z.to_nat ((size + 31) / 32)) buf 0 Hb ltac:(lia)) as H.
  change (4 * 0) with 0 in H. pose proof (Z.div_mod (size + 31) 32 ltac:(lia)).
  pose proof (Z.mod_pos_bound (size + 31) 32 ltac:(lia)).
  destruct (scasl _ buf 0) as [off|]; cbn zeta.
  - destruct H as (v & -> & Hv & Hlow & i & Hi & Ei).
    destruct (bsfl_spec 32 (Z.lxor 0xffffffff (le32 buf (4 * v))) 0 ltac:(lia)) as (Hr0 & Hr1 & Hr2).
    { exists i. split; [lia|]. rewrite Z.lxor_spec, word_bit, Ei by done.
      change 0xffffffff with (Z.ones 32). by rewrite Z.ones_spec_low by lia. }
    set (r := bsfl 32 _ 0) in *. clearbody r.
    assert (Hbits : forall k, 0 <= k < 32 ->
      Z.testbit (Z.lxor 0xffffffff (le32 buf (4 * v))) k = negb (test_bit (32 * v + k) buf)).
    { intros k Hk. rewrite Z.lxor_spec, word_bit by done. change 0xffffffff with (Z.ones 32).
      rewrite Z.ones_spec_low by lia. by destruct (test_bit _ _). }
    replace (4 * v * 8 + r) with (32 * v + r) by lia.
    assert (Hr : test_bit (32 * v + r) buf = false) by (rewrite Hbits in Hr1 by lia; by apply negb_true_iff in Hr1).
    assert (Hbelow : forall k, 0 <= k < 32 * v + r -> test_bit k buf = true).
    { intros k Hk. destruct (decide (k < 32 * v)); [apply Hlow; lia|].
      specialize (Hr2 (k - 32 * v) ltac:(lia)). rewrite Hbits in Hr2 by lia.
      replace (32 * v + (k - 32 * v)) with k in Hr2 by lia. by apply negb_false_iff in Hr2. }
    destruct (Z.geb_spec (32 * v + r) size).
    + left. split; [done|]. intros k Hk. apply Hbelow. lia.
    + right. split; [lia|]. by split.
  - left. split; [done|]. intros k Hk. apply H. lia.
Qed.

(** ** Changing a bit *)

Section change.
Context (buf : list Z) (nr : Z).
Hypothesis Hnr : 0 <= nr < 8 * zlength buf.

Lemma bit_byte_lt : (Z.to_nat (nr / 8) < length buf)%nat.
Proof. unfold zlength in *. pose proof (Z.div_lt_upper_bound nr 8 (zlength buf)). unfold zlength in *. lia. Qed.

(** Replacing the byte of [nr] by one that differs at that bit only. *)
Lemma test_bit_update b v i : 0 <= i ->
  (forall k, 0 <= k < 8 -> Z.testbit b k = if decide (k = nr mod 8) then v else Z.testbit (byte_at buf (nr / 8)) k) ->
  test_bit i (<[Z.to_nat (nr / 8) := b]> buf) = if decide (i = nr) then v else test_bit i buf.
Proof.
  intros Hi Hbits. unfold test_bit. pose proof bit_byte_lt.
  pose proof (Z.mod_pos_bound i 8 ltac:(lia)). pose proof (Z.mod_pos_bound nr 8 ltac:(lia)).
  pose proof (Z.div_mod i 8 ltac:(lia)). pose proof (Z.div_mod nr 8 ltac:(lia)).
  pose proof (Z.div_pos i 8 Hi ltac:(lia)). pose proof (Z.div_pos nr 8 ltac:(lia) ltac:(lia)).
  destruct (decide (i / 8 = nr / 8)) as [E|E].
  - rewrite E. unfold byte_at at 1. rewrite list_lookup_insert_eq by done. simpl.
    rewrite Hbits by done. destruct (decide (i mod 8 = nr mod 8)), (decide (i = nr)); done || lia || congruence.
  - rewrite byte_at_insert_ne by lia. rewrite decide_False by congruence. done.
Qed.

Lemma byte_u8 : Forall is_u8 buf -> is_u8 (byte_at buf (nr / 8)).
Proof. intros. by apply byte_at_range. Qed.

Lemma one_bit k : 0 <= k < 8 ->
  Z.testbit (Z.shiftl 1 (nr mod 8)) k = bool_decide (k = nr mod 8).
Proof.
  intros Hk. pose proof (Z.mod_pos_bound nr 8 ltac:(lia)). rewrite Z.shiftl_1_l, Z.pow2_bits_eqb by lia.
  destruct (Z.eqb_spec (nr mod 8) k); [by rewrite bool_decide_eq_true_2 by lia|].
  by rewrite bool_decide_eq_false_2 by lia.
Qed.

Lemma test_set_bit i : 0 <= i -> test_bit i (set_bit nr buf) = if decide (i = nr) then true else test_bit i buf.
Proof.
  intros Hi. apply test_bit_update; [done|]. intros k Hk. rewrite Z.lor_spec, one_bit by done.
  destruct (decide (k = nr mod 8)) as [->|]; [by rewrite bool_decide_eq_true_2, orb_true_r|].
  by rewrite bool_decide_eq_false_2, orb_false_r.
Qed.

Lemma test_clear_bit i : 0 <= i -> test_bit i (clear_bit nr buf) = if decide (i = nr) then false else test_bit i buf.
Proof.
  intros Hi. apply test_bit_update; [done|]. intros k Hk. rewrite Z.ldiff_spec, one_bit by done.
  destruct (decide (k = nr mod 8)) as [->|]; [by rewrite bool_decide_eq_true_2, andb_false_r|].
  by rewrite bool_decide_eq_false_2, andb_true_r.
Qed.

Lemma set_bit_u8 : Forall is_u8 buf -> Forall is_u8 (set_bit nr buf).
Proof.
  intros Hb. apply Forall_insert; [done|]. pose proof (byte_u8 Hb) as Hu.
  pose proof (Z.mod_pos_bound nr 8 ltac:(lia)).
  apply u8_of_bits.
  - intros i Hi. rewrite Z.lor_spec, (u8_testbit_high _ _ Hu Hi), Z.shiftl_1_l, Z.pow2_bits_eqb by lia.
    simpl. apply Z.eqb_neq. lia.
  - apply Z.lor_nonneg. unfold is_u8 in Hu. split; [lia|]. apply Z.shiftl_nonneg. lia.
Qed.

Lemma clear_bit_u8 : Forall is_u8 buf -> Forall is_u8 (clear_bit nr buf).
Proof.
  intros Hb. apply Forall_insert; [done|]. pose proof (byte_u8 Hb) as Hu.
  apply u8_of_bits.
  - intros i Hi. by rewrite Z.ldiff_spec, (u8_testbit_high _ _ Hu Hi).
  - apply Z.ldiff_nonneg. unfold is_u8 in Hu. left. lia.
Qed.
End change.

Lemma length_set_bit nr buf : length (set_bit nr buf) = length buf.
Proof. apply length_insert. Qed.

Lemma length_clear_bit nr buf : length (clear_bit nr buf) = length buf.
Proof. apply length_insert. Qed.

End Bitmap.
