(* ===== verification/Console.v ===== *)
(** * The console: screen, escape sequences, foreground switch ([fs/char/console.c])

    A console holds 25 rows of 80 cells.  Bytes written to it are printed or, as
    escape sequences, move the cursor, erase, scroll and set attributes.  The
    drawing primitives check their range here: [Overflow] is a write outside the
    screen buffer, and [Hang] is the console lock taken a second time. *)
From S2P Require Import Prelude.
From Stdlib Require Import Ascii.

Module Console.

Definition N_COL : Z := 80.
Definition N_ROW : Z := 25.
Definition NUM_CONSOLE : nat := 6.
Definition ESC_BUF_SIZE : Z := 64.
Definition SCREEN_BUF_SIZE : Z := 2000.

Definition chr (a : ascii) : Z := Z.of_N (N_of_ascii a).
Arguments chr _%_char_scope.

(** Colours. *)
Definition Black : Z := 0.
Definition Blue : Z := 1.
Definition Green : Z := 2.
Definition Cyan : Z := 3.
Definition Red : Z := 4.
Definition Magenta : Z := 5.
Definition Light_Gray : Z := 7.
Definition Yellow : Z := 14.
Definition White : Z := 15.

(** ** Outcomes *)

Inductive outcome (A : Type) := Done (a : A) | Overflow | Hang.
Arguments Done {A}.
Arguments Overflow {A}.
Arguments Hang {A}.

Definition obind {A B} (m : outcome A) (k : A -> outcome B) : outcome B :=
  match m with Done a => k a | Overflow => Overflow | Hang => Hang end.

Declare Scope console_scope.
Notation "x <~ m ;; k" := (obind m (fun x => k))
  (at level 100, m at next level, k at level 200, right associativity) : console_scope.
Open Scope console_scope.

(** ** State *)

(** [enum esc_state]; [ESC] is [ESCAPE], the control-sequence and G0/G1 states keep their names. *)
Inductive esc_state :=
  | NORMAL | ESCAPE | CSI | CSI_Q | CSI_X | CSI_I | CHARSET_G0 | CHARSET_G1
  | CSI_BAD | OSC | OSC_ST | DCS | DCS_ST.

(** The fields that the alternate screen saves and restores. *)
Record view := mkview {
  pos_x : Z; pos_y : Z;
  save_x : Z; save_y : Z;
  scr_start : Z; scr_end : Z;
  g0 : Z; g1 : Z;
  pgc : Z;
  fg_color : Z; bg_color : Z;
  cursor_hidden : bool; color_inverted : bool; bold : bool;
}.

(** [struct console], with the VGA memory and the hardware cursor it is shown
    on when [present]; [esc_buf] is the string stored; [echo] says that the
    terminal of the console is open and echoes, [winsize] its size. *)
Record console := mkcon {
  mem : list Z;
  video : list Z;
  present : bool;
  hw_cursor : Z;
  vw : view;
  orig_mem : list Z;
  orig : view;
  pending_wrap : bool;
  esc_buf : list Z;
  state : esc_state;
  cursor_app : bool;
  keypad_app : bool;
  echo : bool;
  winsize : Z * Z;
  replies : list Z;
}.

Definition set_vw (v : view) (c : console) : console :=
  mkcon (mem c) (video c) (present c) (hw_cursor c) v (orig_mem c) (orig c) (pending_wrap c) (esc_buf c)
    (state c) (cursor_app c) (keypad_app c) (echo c) (winsize c) (replies c).
Definition set_screen (m v : list Z) (c : console) : console :=
  mkcon m v (present c) (hw_cursor c) (vw c) (orig_mem c) (orig c) (pending_wrap c) (esc_buf c)
    (state c) (cursor_app c) (keypad_app c) (echo c) (winsize c) (replies c).
Definition set_hw (p : Z) (c : console) : console :=
  mkcon (mem c) (video c) (present c) p (vw c) (orig_mem c) (orig c) (pending_wrap c) (esc_buf c)
    (state c) (cursor_app c) (keypad_app c) (echo c) (winsize c) (replies c).
Definition set_orig (m : list Z) (v : view) (c : console) : console :=
  mkcon (mem c) (video c) (present c) (hw_cursor c) (vw c) m v (pending_wrap c) (esc_buf c)
    (state c) (cursor_app c) (keypad_app c) (echo c) (winsize c) (replies c).
Definition set_pending (b : bool) (c : console) : console :=
  mkcon (mem c) (video c) (present c) (hw_cursor c) (vw c) (orig_mem c) (orig c) b (esc_buf c)
    (state c) (cursor_app c) (keypad_app c) (echo c) (winsize c) (replies c).
Definition set_esc (l : list Z) (c : console) : console :=
  mkcon (mem c) (video c) (present c) (hw_cursor c) (vw c) (orig_mem c) (orig c) (pending_wrap c) l
    (state c) (cursor_app c) (keypad_app c) (echo c) (winsize c) (replies c).
Definition set_state (st : esc_state) (c : console) : console :=
  mkcon (mem c) (video c) (present c) (hw_cursor c) (vw c) (orig_mem c) (orig c) (pending_wrap c) (esc_buf c)
    st (cursor_app c) (keypad_app c) (echo c) (winsize c) (replies c).
Definition set_kbd (cur pad : bool) (c : console) : console :=
  mkcon (mem c) (video c) (present c) (hw_cursor c) (vw c) (orig_mem c) (orig c) (pending_wrap c) (esc_buf c)
    (state c) cur pad (echo c) (winsize c) (replies c).
Definition add_reply (l : list Z) (c : console) : console :=
  mkcon (mem c) (video c) (present c) (hw_cursor c) (vw c) (orig_mem c) (orig c) (pending_wrap c) (esc_buf c)
    (state c) (cursor_app c) (keypad_app c) (echo c) (winsize c) (replies c ++ l).

Definition at_pos (y x : Z) (v : view) : view :=
  mkview x y (save_x v) (save_y v) (scr_start v) (scr_end v) (g0 v) (g1 v) (pgc v) (fg_color v) (bg_color v)
    (cursor_hidden v) (color_inverted v) (bold v).
Definition saved_at (y x : Z) (v : view) : view :=
  mkview (pos_x v) (pos_y v) x y (scr_start v) (scr_end v) (g0 v) (g1 v) (pgc v) (fg_color v) (bg_color v)
    (cursor_hidden v) (color_inverted v) (bold v).
Definition region (a b : Z) (v : view) : view :=
  mkview (pos_x v) (pos_y v) (save_x v) (save_y v) a b (g0 v) (g1 v) (pgc v) (fg_color v) (bg_color v)
    (cursor_hidden v) (color_inverted v) (bold v).
Definition charsets (a b : Z) (v : view) : view :=
  mkview (pos_x v) (pos_y v) (save_x v) (save_y v) (scr_start v) (scr_end v) a b (pgc v) (fg_color v) (bg_color v)
    (cursor_hidden v) (color_inverted v) (bold v).
Definition graphic (p : Z) (v : view) : view :=
  mkview (pos_x v) (pos_y v) (save_x v) (save_y v) (scr_start v) (scr_end v) (g0 v) (g1 v) p (fg_color v) (bg_color v)
    (cursor_hidden v) (color_inverted v) (bold v).
Definition colors (f b : Z) (inv bd : bool) (v : view) : view :=
  mkview (pos_x v) (pos_y v) (save_x v) (save_y v) (scr_start v) (scr_end v) (g0 v) (g1 v) (pgc v) f b
    (cursor_hidden v) inv bd.
Definition hidden (h : bool) (v : view) : view :=
  mkview (pos_x v) (pos_y v) (save_x v) (save_y v) (scr_start v) (scr_end v) (g0 v) (g1 v) (pgc v) (fg_color v)
    (bg_color v) h (color_inverted v) (bold v).

Definition px (c : console) : Z := pos_x (vw c).
Definition py (c : console) : Z := pos_y (vw c).
Definition goto (y x : Z) (c : console) : console := set_vw (at_pos y x (vw c)) c.

(** ** Drawing *)

(** [memsetw] and [memmove] on a screen, in cells. *)
Definition memsetw (a n v : Z) (l : list Z) : outcome (list Z) :=
  if (0 <=? a) && (0 <=? n) && (a + n <=? SCREEN_BUF_SIZE)
  then Done (take (Z.to_nat a) l ++ replicate (Z.to_nat n) v ++ drop (Z.to_nat (a + n)) l) else Overflow.
Definition memmove (dst src n : Z) (l : list Z) : outcome (list Z) :=
  if (0 <=? dst) && (0 <=? src) && (0 <=? n) && (dst + n <=? SCREEN_BUF_SIZE) && (src + n <=? SCREEN_BUF_SIZE)
  then Done (memcpy_at l dst (drop (Z.to_nat src) l) n) else Overflow.

(** The same drawing on the buffer and, when it is shown, on the VGA memory. *)
Definition draw (f : list Z -> outcome (list Z)) (c : console) : outcome console :=
  m <~ f (mem c) ;;
  v <~ (if present c then f (video c) else Done (video c)) ;;
  Done (set_screen m v c).

(** A character with its DEC line-drawing meaning, as a code page 437 byte. *)
Definition dec_table : list (Z * Z) :=
  [(chr "q", 0xC4); (chr "x", 0xB3); (chr "l", 0xDA); (chr "k", 0xBF); (chr "m", 0xC0); (chr "j", 0xD9);
   (chr "t", 0xC3); (chr "u", 0xB4); (chr "v", 0xC1); (chr "w", 0xC2); (chr "n", 0xC5); (chr "a", 0xB1);
   (chr "`", 0x04); (chr "f", 0xF8); (chr "g", 0xF1); (chr "h", 0x23); (chr "i", 0x07); (chr "o", 0x2D);
   (chr "p", 0x2D); (chr "r", 0x5F); (chr "s", 0x5F); (chr "y", 0x3C); (chr "z", 0x3E); (chr "{", 0xE3);
   (chr "|", 0xF0); (chr "}", 0x9C); (chr "~", 0xFA)].
Definition translate_dec_to_cp437 (c : Z) : Z :=
  match find (fun p => p.1 =? c) dec_table with Some (_, g) => g | None => c end.

Definition makec (c : console) (ch : Z) : Z :=
  let v := vw c in
  let bg := if color_inverted v then fg_color v else bg_color v in
  let fg := if color_inverted v then bg_color v else fg_color v in
  let fg := if bold v && (fg <? 8) then fg + 8 else fg in
  u16 (Z.lor (Z.shiftl (Z.lor (Z.shiftl bg 4) fg) 8) ch).
Definition SPACE (c : console) : Z := makec c 32.

Definition hide_cursor (c : console) : console := set_vw (hidden true (vw c)) c.
Definition show_cursor (c : console) : console := set_vw (hidden false (vw c)) c.

Definition move_cursor (c : console) : console :=
  if present c then set_hw (u16 (N_COL * py c + px c)) c else c.

(** [y] and [x] are [int]. *)
Definition set_pos (y x : Z) (c : console) : console :=
  move_cursor (goto (Z.min (Z.max y 0) (N_ROW - 1)) (Z.min (Z.max x 0) (N_COL - 1)) c).

Definition erase_screen (row_start row_end : Z) (c : console) : outcome console :=
  draw (memsetw (N_COL * row_start) (u32 (N_COL * (row_end + 1 - row_start))) (SPACE c)) c.
Definition clear_screen (c : console) : outcome console := erase_screen 0 (N_ROW - 1) c.

(** The range clipped to the row, cell by cell. *)
Definition __erase_line (s e : Z) (c : console) : outcome console :=
  if (s >? e) || (s >? N_COL - 1) || (e <? 0) then Done c else
  let s := if s <? 0 then 0 else s in
  let e := if e >? N_COL - 1 then N_COL - 1 else e in
  draw (memsetw (N_COL * py c + s) (e + 1 - s) (SPACE c)) c.
Definition erase_line (c : console) : outcome console := __erase_line 0 (N_COL - 1) c.
Definition erase_line_left (c : console) : outcome console := __erase_line 0 (s32 (px c)) c.
Definition erase_line_right (c : console) : outcome console := __erase_line (s32 (px c)) (N_COL - 1) c.

Definition in_scrolling_region (c : console) (x : Z) : bool :=
  (scr_start (vw c) <=? x) && (x <=? scr_end (vw c)).

Definition __scroll (s e : Z) (up : bool) (c : console) : outcome console :=
  if (s >? e) || negb (in_scrolling_region c s) || negb (in_scrolling_region c e) then Done c else
  c <~ (if s <? e then
          let size := (e - s) * N_COL in
          let src := if up then s + 1 else s in
          let dst := if up then s else s + 1 in
          draw (memmove (dst * N_COL) (src * N_COL) size) c
        else Done c) ;;
  draw (memsetw ((if up then e else s) * N_COL) N_COL (SPACE c)) c.

Definition delete_one_char (y x : Z) (c : console) : outcome console :=
  if x >=? N_COL then Done c else
  let s := y * N_COL + x in
  let e := y * N_COL + (N_COL - 1) in
  c <~ (if s <? e then draw (memmove s (s + 1) (e - s)) c else Done c) ;;
  draw (memsetw e 1 (SPACE c)) c.

Definition insert_one_char (y x : Z) (c : console) : outcome console :=
  if x >=? N_COL then Done c else
  let s := y * N_COL + x in
  let e := y * N_COL + (N_COL - 1) in
  c <~ (if s <? e then draw (memmove (s + 1) s (e - s)) c else Done c) ;;
  draw (memsetw s 1 (SPACE c)) c.

Definition can_rep (c : Z) : bool := (0x20 <=? c) && (c <=? 0x7E) || (0x80 <=? c) && (c <=? 0xFE).

(** ** Printing *)

(** The line feed that a pending wrap performs before the next character. *)
Definition do_wrap (ch : Z) (c : console) : outcome console :=
  if pending_wrap c then
    c <~ (if negb (ch =? 10) && negb (ch =? 13) then
            let y := u32 (py c + 1) in
            if y =? u32 (scr_end (vw c) + 1) then
              let c := goto (scr_end (vw c)) 0 c in
              __scroll (scr_start (vw c)) (scr_end (vw c)) true c
            else Done (goto y 0 c)
          else Done c) ;;
    Done (set_pending false c)
  else Done c.

Definition newline (c : console) : outcome console :=
  let y := u32 (py c + 1) in
  if y =? u32 (scr_end (vw c) + 1) then
    let c := goto (scr_end (vw c)) (px c) c in
    __scroll (scr_start (vw c)) (scr_end (vw c)) true c
  else if y >? N_ROW - 1 then Done (goto (N_ROW - 1) (px c) c)
  else Done (goto y (px c) c).

(** A glyph at the cursor. *)
Definition put_glyph (ch : Z) (translate : bool) (c : console) : outcome console :=
  let x := if translate && (g0 (vw c) =? chr "0") then translate_dec_to_cp437 ch else ch in
  let c := if can_rep x then set_vw (graphic x (vw c)) c else c in
  c <~ draw (memsetw (N_COL * py c + px c) 1 (makec c x)) c ;;
  Done (goto (py c) (u32 (px c + 1)) c).

Definition after_char (c : console) : console :=
  let c := if px c >=? N_COL then set_pending true (goto (py c) N_COL c) else c in
  move_cursor c.

Definition write_char (ch : Z) (translate : bool) (c : console) : outcome console :=
  c <~ do_wrap ch c ;;
  if ch =? 9 then Done (after_char (goto (py c) (Z.land (u32 (px c + 8)) 0xfffffff8) c)) else
  if ch =? 13 then Done (after_char (goto (py c) 0 c)) else
  if ch =? 10 then c <~ newline c ;; Done (after_char c) else
  if ch =? 8 then (if px c =? 0 then Done c else Done (after_char (goto (py c) (px c - 1) c))) else
  if ch >=? 32 then c <~ put_glyph ch translate c ;; Done (after_char c) else
  Done (after_char c).

(** ** Arguments of control sequences *)

Definition UINT_MAX : Z := 2 ^ 32 - 1.

Definition is_digit (c : Z) : bool := (chr "0" <=? c) && (c <=? chr "9").

Definition simple_atou (s : list Z) : Z :=
  if (zlength s <? 1) || (zlength s >? 6) then UINT_MAX else
  if forallb is_digit s then foldl (fun res d => res * 10 + d - chr "0") 0 s else UINT_MAX.

(** The digits up to a [;] or the end: the argument and what follows. *)
Fixpoint scan_arg (s : list Z) : option (list Z * list Z) :=
  match s with
  | [] => Some ([], [])
  | c :: s' =>
    if c =? chr ";" then Some ([], s') else
    if is_digit c then option_map (fun r => (c :: r.1, r.2)) (scan_arg s') else None
  end.
Definition get_esc_arg (s : list Z) : option (list Z * list Z) :=
  match scan_arg s with
  | Some (arg, rest) => if bool_decide (arg = []) then None else Some (arg, rest)
  | None => None
  end.

Definition get_esc_uint_1 (s : list Z) : option (Z * list Z) :=
  match get_esc_arg s with
  | None => None
  | Some (arg, rest) => let a := simple_atou arg in if a =? UINT_MAX then None else Some (a, rest)
  end.
Definition get_esc_uint_2 (s : list Z) : option (Z * Z) :=
  match get_esc_uint_1 s with
  | None => None
  | Some (a, rest) => match get_esc_uint_1 rest with None => None | Some (b, _) => Some (a, b) end
  end.

(** The single argument, or its default. *)
Definition arg_or (d : Z) (c : console) : Z :=
  match get_esc_uint_1 (esc_buf c) with Some (n, _) => n | None => d end.

(** The arguments a loop over [get_esc_arg] sees. *)
Fixpoint all_args (fuel : nat) (s : list Z) : list Z :=
  match fuel with
  | O => []
  | S f => match get_esc_arg s with
           | None => []
           | Some (arg, rest) => simple_atou arg :: all_args f rest
           end
  end.
Definition args (c : console) : list Z := all_args (S (length (esc_buf c))) (esc_buf c).

(** [reset_esc_buf], [into_esc_buf] (1 when the buffer is full). *)
Definition reset_esc_buf (c : console) : console := set_esc [] c.
Definition into_esc_buf (ch : Z) (c : console) : bool * console :=
  if zlength (esc_buf c) >=? ESC_BUF_SIZE - 4 then (true, c) else (false, set_esc (esc_buf c ++ [ch]) c).

Fixpoint repeat (n : nat) (f : console -> outcome console) (c : console) : outcome console :=
  match n with O => Done c | S n' => c <~ f c ;; repeat n' f c end.

(** ** Control sequences *)

(** Set the cursor. *)
Definition csi_H (c : console) : console :=
  let '(y, x) := match get_esc_uint_2 (esc_buf c) with Some p => p | None => (1, 1) end in
  set_pos (s32 (u32 (y - 1))) (s32 (u32 (x - 1))) c.

(** Move it. *)
Definition csi_ABCD (ch : Z) (c : console) : console :=
  let count := arg_or 1 c in
  let c :=
    if ch =? chr "A" then
      let y := u32 (py c - count) in goto (if y >? N_ROW - 1 then 0 else y) (px c) c
    else if ch =? chr "B" then
      let y := u32 (py c + count) in goto (if y >? N_ROW - 1 then N_ROW - 1 else y) (px c) c
    else if ch =? chr "C" then
      let x := u32 (px c + count) in goto (py c) (if x >? N_COL - 1 then N_COL - 1 else x) c
    else if ch =? chr "D" then
      let x := u32 (px c - count) in goto (py c) (if x >? N_COL - 1 then 0 else x) c
    else c in
  move_cursor c.

Definition csi_G (c : console) : console := set_pos (s32 (py c)) (s32 (u32 (arg_or 1 c - 1))) c.

Definition csi_d (ch : Z) (c : console) : console :=
  let n := arg_or 1 c in
  let n := if ch =? chr "e" then u32 (py c + n) else n in
  set_pos (s32 (u32 (n - 1))) (s32 (px c)) c.

Definition csi_s (c : console) : console := set_vw (saved_at (py c) (px c) (vw c)) c.
Definition csi_u (c : console) : console := move_cursor (goto (save_y (vw c)) (save_x (vw c)) c).

(** Attributes. *)
Definition set_fg (f : Z) (v : view) : view := colors f (bg_color v) (color_inverted v) (bold v) v.
Definition set_bg (b : Z) (v : view) : view := colors (fg_color v) b (color_inverted v) (bold v) v.

Definition sgr_colors : list Z := [Black; Red; Green; Yellow; Blue; Magenta; Cyan; White].

Definition do_csi_m (action : Z) (c : console) : console :=
  let v := vw c in
  if action =? 0 then set_vw (colors Light_Gray Black false false v) c else
  if action =? 1 then set_vw (colors (fg_color v) (bg_color v) (color_inverted v) true v) c else
  if action =? 7 then set_vw (colors (fg_color v) (bg_color v) true (bold v) v) c else
  if action =? 27 then set_vw (colors (fg_color v) (bg_color v) false (bold v) v) c else
  if (30 <=? action) && (action <=? 37) then set_vw (set_fg (nth (Z.to_nat (action - 30)) sgr_colors 0) v) c else
  if action =? 39 then set_vw (set_fg Light_Gray v) c else
  if (40 <=? action) && (action <=? 47) then set_vw (set_bg (nth (Z.to_nat (action - 40)) sgr_colors 0) v) c else
  if action =? 49 then set_vw (set_bg Black v) c else c.

Definition csi_m (c : console) : console :=
  match args c with [] => do_csi_m 0 c | l => foldl (fun c a => do_csi_m a c) c l end.

(** Erase in the screen and in the line. *)
Definition csi_J (c : console) : outcome console :=
  let m := arg_or 0 c in
  if m =? 0 then erase_screen (py c) (N_ROW - 1) c else
  if m =? 1 then erase_screen 0 (py c) c else
  if m =? 2 then c <~ clear_screen c ;; Done (set_vw (graphic 0 (vw c)) c) else Done c.

Definition csi_K (c : console) : outcome console :=
  let m := arg_or 0 c in
  if m =? 0 then erase_line_right c else
  if m =? 1 then erase_line_left c else
  if m =? 2 then erase_line c else Done c.

(** Insert and delete lines and characters. *)
Definition csi_L (c : console) : outcome console :=
  if negb (in_scrolling_region c (py c)) then Done c else
  c <~ repeat (Z.to_nat (arg_or 1 c)) (fun c => __scroll (py c) (scr_end (vw c)) false c) c ;;
  Done (set_pos (s32 (py c)) 0 c).
Definition csi_M (c : console) : outcome console :=
  if negb (in_scrolling_region c (py c)) then Done c else
  c <~ repeat (Z.to_nat (arg_or 1 c)) (fun c => __scroll (py c) (scr_end (vw c)) true c) c ;;
  Done (set_pos (s32 (py c)) 0 c).
Definition csi_P (c : console) : outcome console :=
  repeat (Z.to_nat (arg_or 1 c)) (fun c => delete_one_char (py c) (px c) c) c.
Definition csi_X (c : console) : outcome console :=
  __erase_line (s32 (px c)) (s32 (u32 (px c + arg_or 1 c - 1))) c.
Definition csi_at (c : console) : outcome console :=
  repeat (Z.to_nat (arg_or 1 c)) (fun c => insert_one_char (py c) (px c) c) c.

(** [%d] of a number below 2^16, and [tty_receive_s]: the terminal echoes what it
    receives through the console, which already holds its lock. *)
Fixpoint decimal (n : nat) (x : Z) (acc : list Z) : list Z :=
  match n with
  | O => acc
  | S n' => let acc := (chr "0" + x mod 10) :: acc in if x <? 10 then acc else decimal n' (x / 10) acc
  end.
Definition put_d (x : Z) : list Z := decimal 10 x [].

Definition tty_receive_s (l : list Z) (c : console) : outcome console :=
  if echo c then Hang else Done (add_reply l c).

Definition csi_n (c : console) : outcome console :=
  match get_esc_uint_1 (esc_buf c) with
  | Some (6, _) =>
    tty_receive_s ([27; chr "["] ++ put_d (winsize c).1 ++ [chr ";"] ++ put_d (winsize c).2 ++ [chr "R"]) c
  | _ => Done c
  end.
Definition csi_c (c : console) : outcome console :=
  tty_receive_s [27; chr "["; chr "?"; chr "6"; chr "c"] c.

(** ** Resets and the alternate screen *)

Definition soft_view (v : view) : view :=
  mkview (pos_x v) (pos_y v) 0 0 0 (N_ROW - 1) (chr "B") (chr "B") 0 Light_Gray Black false false false.
Definition console_soft_reset (c : console) : console := set_pending false (set_vw (soft_view (vw c)) c).

(** The buffer is cleared, the VGA memory is not. *)
Definition console_reset (c : console) : outcome console :=
  let c := goto 0 0 (console_soft_reset c) in
  m <~ memsetw 0 SCREEN_BUF_SIZE (SPACE c) (mem c) ;;
  Done (set_state NORMAL (set_esc [] (set_kbd false false (set_screen m (video c) c)))).

Definition reset_screen (c : console) : outcome console :=
  c <~ clear_screen c ;;
  c <~ console_reset c ;;
  Done (move_cursor c).

Definition show_screen (c : console) : console :=
  if present c then move_cursor (set_screen (mem c) (mem c) c) else c.

Definition use_alt_screen_buffer (c : console) : outcome console :=
  let c := set_orig (mem c) (vw c) c in
  let c := console_soft_reset c in
  m <~ memsetw 0 SCREEN_BUF_SIZE (SPACE c) (mem c) ;;
  Done (show_screen (goto 0 0 (set_screen m (video c) c))).

Definition use_normal_screen_buffer (c : console) : console :=
  show_screen (set_vw (orig c) (set_screen (orig_mem c) (video c) c)).

(** Private modes. *)
Definition mode_l (action : Z) (c : console) : console :=
  if action =? 1 then set_kbd false (keypad_app c) c else
  if action =? 25 then hide_cursor c else
  if action =? 1049 then use_normal_screen_buffer (set_vw (graphic 0 (vw c)) c) else c.
Definition mode_h (action : Z) (c : console) : outcome console :=
  if action =? 1 then Done (set_kbd true (keypad_app c) c) else
  if action =? 25 then Done (show_cursor c) else
  if action =? 1049 then use_alt_screen_buffer c else Done c.
Fixpoint run_modes (l : list Z) (c : console) : outcome console :=
  match l with [] => Done c | a :: l' => c <~ mode_h a c ;; run_modes l' c end.
Definition csi_q (ch : Z) (c : console) : outcome console :=
  if ch =? chr "l" then Done (foldl (fun c a => mode_l a c) c (args c)) else
  if ch =? chr "h" then run_modes (args c) c else Done c.

(** The scrolling region. *)
Definition csi_r (c : console) : console :=
  let '(s, e) := match get_esc_uint_2 (esc_buf c) with Some p => p | None => (1, N_ROW) end in
  if (1 <=? s) && (s <=? e) && (e <=? N_ROW) then set_vw (region (s - 1) (e - 1) (vw c)) c else c.

Definition csi_b (c : console) : outcome console :=
  if pgc (vw c) =? 0 then Done c else
  let p := pgc (vw c) in
  repeat (Z.to_nat (arg_or 1 c)) (write_char p false) c.

Definition csi_S (c : console) : outcome console :=
  if negb (in_scrolling_region c (py c)) then Done c else
  repeat (Z.to_nat (arg_or 1 c)) (fun c => __scroll (scr_start (vw c)) (scr_end (vw c)) true c) c.

(** ** The state machine *)

Definition isc (ch : Z) (a : ascii) : bool := ch =? chr a.
Arguments isc _ _%_char_scope.

(** A complete control sequence. *)
Definition csi (ch : Z) (c : console) : outcome console :=
  match state c with
  | CSI_X => Done c
  | CSI_Q => csi_q ch c
  | CSI_I => Done (if isc ch "p" then console_soft_reset c else c)
  | _ =>
    if isc ch "H" || isc ch "f" then Done (csi_H c) else
    if isc ch "A" || isc ch "B" || isc ch "C" || isc ch "D" || isc ch "E" || isc ch "F" then Done (csi_ABCD ch c) else
    if isc ch "G" then Done (csi_G c) else
    if isc ch "d" || isc ch "e" then Done (csi_d ch c) else
    if isc ch "s" then Done (csi_s c) else
    if isc ch "u" then Done (csi_u c) else
    if isc ch "m" then Done (csi_m c) else
    if isc ch "J" then csi_J c else
    if isc ch "K" then csi_K c else
    if isc ch "L" then csi_L c else
    if isc ch "M" then csi_M c else
    if isc ch "P" then csi_P c else
    if isc ch "X" then csi_X c else
    if isc ch "@" then csi_at c else
    if isc ch "n" then csi_n c else
    if isc ch "c" then csi_c c else
    if isc ch "r" then Done (csi_r c) else
    if isc ch "b" then csi_b c else
    if isc ch "S" then csi_S c else
    Done c     (* l, h, t and unknown sequences *)
  end.

(** Index and reverse index. *)
Definition esc_D (c : console) : outcome console :=
  let y := u32 (py c + 1) in
  c <~ (if y =? u32 (scr_end (vw c) + 1) then
          __scroll (scr_start (vw c)) (scr_end (vw c)) true (goto (scr_end (vw c)) (px c) c)
        else Done (goto (if y =? N_ROW then N_ROW - 1 else y) (px c) c)) ;;
  Done (move_cursor c).
Definition esc_M (c : console) : outcome console :=
  let y := u32 (py c - 1) in
  c <~ (if y =? u32 (scr_start (vw c) - 1) then
          __scroll (scr_start (vw c)) (scr_end (vw c)) false (goto (scr_start (vw c)) (px c) c)
        else Done (goto (if y =? UINT_MAX then 0 else y) (px c) c)) ;;
  Done (move_cursor c).

(** The byte after an escape.  [ESC )] falls through to the full reset. *)
Definition escape (ch : Z) (c : console) : outcome console :=
  if ch =? 27 then Done c else
  if isc ch "[" then Done (set_state CSI (reset_esc_buf c)) else
  if isc ch "]" then Done (set_state OSC (reset_esc_buf c)) else
  if isc ch "P" then Done (set_state DCS (reset_esc_buf c)) else
  if isc ch "(" then Done (set_state CHARSET_G0 c) else
  if isc ch ")" then c <~ reset_screen (set_state CHARSET_G1 c) ;; Done (set_state NORMAL c) else
  if isc ch "c" then c <~ reset_screen c ;; Done (set_state NORMAL c) else
  if isc ch "=" then Done (set_state NORMAL (set_kbd (cursor_app c) true c)) else
  if isc ch ">" then Done (set_state NORMAL (set_kbd (cursor_app c) false c)) else
  if isc ch "7" then Done (set_state NORMAL (csi_s c)) else
  if isc ch "8" then Done (set_state NORMAL (csi_u c)) else
  if isc ch "D" then c <~ esc_D c ;; Done (set_state NORMAL c) else
  if isc ch "M" then c <~ esc_M c ;; Done (set_state NORMAL c) else
  Done (set_state NORMAL c).

Definition charset (ch : Z) : bool := isc ch "0" || isc ch "A" || isc ch "B".
Definition isalpha (ch : Z) : bool :=
  (chr "a" <=? ch) && (ch <=? chr "z") || (chr "A" <=? ch) && (ch <=? chr "Z").

(** A byte of a control sequence. *)
Definition csi_byte (ch : Z) (c : console) : outcome console :=
  if isalpha ch || isc ch "@" then c <~ csi ch c ;; Done (set_state NORMAL c) else
  let '(full, c) := into_esc_buf ch c in
  Done (if full then set_state CSI_BAD c else c).

(** The states other than [NORMAL] printing. *)
Definition sequence_byte (ch : Z) (c : console) : outcome console :=
  match state c with
  | NORMAL => Done (set_state ESCAPE c)
  | ESCAPE => escape ch c
  | CHARSET_G0 => Done (set_state NORMAL (if charset ch then set_vw (charsets ch (g1 (vw c)) (vw c)) c else c))
  | CHARSET_G1 => Done (set_state NORMAL (if charset ch then set_vw (charsets (g0 (vw c)) ch (vw c)) c else c))
  | CSI =>
    if isc ch "?" then Done (set_state CSI_Q c) else
    if isc ch ">" then Done (set_state CSI_X c) else
    if isc ch "!" then Done (set_state CSI_I c) else csi_byte ch c
  | CSI_I | CSI_Q | CSI_X => csi_byte ch c
  | CSI_BAD => Done (if isalpha ch then set_state NORMAL c else if ch =? 27 then set_state ESCAPE c else c)
  | OSC => Done (if ch =? 7 then set_state NORMAL c else if ch =? 27 then set_state OSC_ST c else c)
  | OSC_ST => Done (set_state NORMAL c)
  | DCS => Done (if ch =? 27 then set_state DCS_ST c else c)
  | DCS_ST => Done (set_state NORMAL c)
  end.

Definition is_normal (st : esc_state) : bool := match st with NORMAL => true | _ => false end.

Definition console_write_char (c : console) (ch : Z) : outcome console :=
  if ch =? 0 then Done c else
  if is_normal (state c) && negb (ch =? 27) then write_char ch true c else
  c <~ sequence_byte ch c ;;
  Done (set_pending false c).

(** The loop of [console_write]. *)
Fixpoint console_write (c : console) (buf : list Z) : outcome console :=
  match buf with [] => Done c | ch :: buf' => c <~ console_write_char c ch ;; console_write c buf' end.

(** ** The table of consoles *)

(** The consoles, the one in the foreground and the VGA memory with its cursor
    register; [fbcon] is [fbcon_enabled]. *)
Record consoles := mkcons {
  console_table : list console;
  fg_console : nat;
  vga : list Z;
  vga_cursor : Z;
  fbcon : bool;
}.

(** The console [k] as it works, on the VGA memory when it is shown there. *)
Definition on_screen (s : consoles) (k : nat) (c : console) : console :=
  mkcon (mem c) (vga s) (bool_decide (k = fg_console s) && negb (fbcon s)) (vga_cursor s) (vw c) (orig_mem c) (orig c)
    (pending_wrap c) (esc_buf c) (state c) (cursor_app c) (keypad_app c) (echo c) (winsize c) (replies c).
Definition detach (s : consoles) (k : nat) (c : console) : consoles :=
  mkcons (<[k := c]> (console_table s)) (fg_console s) (video c) (hw_cursor c) (fbcon s).

Definition write_console (s : consoles) (k : nat) (buf : list Z) : outcome consoles :=
  match console_table s !! k with
  | None => Overflow
  | Some c => c <~ console_write (on_screen s k c) buf ;; Done (detach s k c)
  end.

(** [switch_fg_console]; [None]: the assertion fails. *)
Definition switch_fg_console (s : consoles) (i : nat) : option consoles :=
  assert! bool_decide (i < NUM_CONSOLE)%nat ;;
  if bool_decide (i = fg_console s) then Some s else
  match console_table s !! i with
  | None => None
  | Some c =>
    let s := mkcons (console_table s) i (vga s) (vga_cursor s) (fbcon s) in
    let c := show_screen (on_screen s i c) in
    Some (detach s i (set_state NORMAL (set_esc [] c)))
  end.

(** [console_sync]: the screen the firmware left; [pos] is the cursor register. *)
Definition console_sync (s : consoles) (k : nat) (pos : Z) : consoles :=
  if fbcon s then s else
  match console_table s !! k with
  | None => s
  | Some c => let c := on_screen s k c in
              detach s k (goto (pos / N_COL) (pos - pos / N_COL * N_COL) (set_screen (vga s) (video c) c))
  end.

(** [console_snapshot_foreground] *)
Definition console_snapshot_foreground (s : consoles) : option (list Z * Z * Z * bool) :=
  c ← console_table s !! fg_console s;
  Some (mem c, py c, px c, cursor_hidden (vw c)).

End Console.
