(* ===== verification/ConsoleSafe.v ===== *)
(** * The console stays inside its screen

    The well-formedness invariant of a console, the precise condition under
    which a byte is harmless, and the theorem that a stream of harmless bytes is
    written without leaving the screen.  Every drawing primitive and every
    control sequence keeps the invariant. *)
From Stdlib Require Import Ascii String.
From S2P Require Import Prelude Console.
Import Console.
#[local] Open Scope list_scope.
#[local] Open Scope Z_scope.

Module ConsoleSafe.

Create HintDb console.

(** ** Weakest preconditions of outcomes *)

Definition wp {A} (o : outcome A) (Q : A -> Prop) : Prop :=
  match o with Done a => Q a | _ => False end.

Lemma wp_bind {A B} (m : outcome A) (k : A -> outcome B) Q :
  wp m (fun a => wp (k a) Q) -> wp (obind m k) Q.
Proof. by destruct m. Qed.

Lemma wp_mono {A} (m : outcome A) (P Q : A -> Prop) : wp m P -> (forall a, P a -> Q a) -> wp m Q.
Proof. destruct m; simpl; auto. Qed.

Lemma wp_bind_mono {A B} (m : outcome A) (k : A -> outcome B) P Q :
  wp m P -> (forall a, P a -> wp (k a) Q) -> wp (obind m k) Q.
Proof. intros H1 H2. apply wp_bind. eapply wp_mono; eauto. Qed.

Lemma wp_done {A} (o : outcome A) Q : wp o Q -> exists a, o = Done a /\ Q a.
Proof. destruct o; simpl; [eauto|done..]. Qed.

(** ** The invariant *)

Record wf_view (v : view) : Prop := {
  wv_x : 0 <= pos_x v <= 80;
  wv_y : 0 <= pos_y v < 25;
  wv_sx : 0 <= save_x v <= 80;
  wv_sy : 0 <= save_y v < 25;
  wv_region : 0 <= scr_start v <= scr_end v;
  wv_end : scr_end v < 25;
}.

Record wf (c : console) : Prop := {
  wf_mem : zlength (mem c) = SCREEN_BUF_SIZE;
  wf_video : zlength (video c) = SCREEN_BUF_SIZE;
  wf_orig_mem : zlength (orig_mem c) = SCREEN_BUF_SIZE;
  wf_vw : wf_view (vw c);
  wf_orig : wf_view (orig c);
}.

(** Printing [ch] here would leave the screen: a wrap on the last row outside
    the scrolling region, or a glyph past the end of the last row. *)
Definition hazard_char (c : console) (ch : Z) : bool :=
  if pending_wrap c
  then negb (ch =? 10) && negb (ch =? 13) && (py c =? N_ROW - 1) && negb (scr_end (vw c) =? N_ROW - 1)
  else (32 <=? ch) && (px c =? N_COL) && (py c =? N_ROW - 1).

Definition hazard (c : console) (ch : Z) : bool :=
  match state c with
  | NORMAL => negb (ch =? 27) && hazard_char c ch
  | CSI => isc ch "b" && negb (pgc (vw c) =? 0)
           && (negb (scr_end (vw c) =? N_ROW - 1) || hazard_char c (pgc (vw c)))
  | _ => false
  end.

(** The byte asks for a report or an identification, ESC [ 6 n or ESC [ c, of a
    console whose terminal echoes. *)
Definition asks_echoed (c : console) (ch : Z) : bool :=
  echo c && match state c with
            | CSI => isc ch "c" ||
                     isc ch "n" && match get_esc_uint_1 (esc_buf c) with Some (6, _) => true | _ => false end
            | _ => false
            end.

(** Some byte of the stream does. *)
Fixpoint stuck (c : console) (buf : list Z) : bool :=
  match buf with
  | [] => false
  | ch :: buf' => asks_echoed c ch ||
                  match console_write_char c ch with Done c' => stuck c' buf' | _ => false end
  end.

(** No byte of the stream is harmful where it is written. *)
Fixpoint careful (c : console) (buf : list Z) : bool :=
  match buf with
  | [] => true
  | ch :: buf' => negb (hazard c ch) &&
                  match console_write_char c ch with Done c' => careful c' buf' | _ => true end
  end.

(** ** Drawing *)

Definition fits (f : list Z -> outcome (list Z)) : Prop :=
  forall l, zlength l = SCREEN_BUF_SIZE -> wp (f l) (fun l' => zlength l' = SCREEN_BUF_SIZE).

Lemma memsetw_fits a n v : 0 <= a -> 0 <= n -> a + n <= SCREEN_BUF_SIZE -> fits (memsetw a n v).
Proof.
  intros Ha Hn Hs l Hl. unfold memsetw.
  replace ((0 <=? a) && (0 <=? n) && (a + n <=? SCREEN_BUF_SIZE)) with true by (symmetry; lia).
  simpl. unfold zlength in *. rewrite !length_app, length_take, length_drop, length_replicate. lia.
Qed.

Lemma memmove_fits dst src n : 0 <= dst -> 0 <= src -> 0 <= n ->
  dst + n <= SCREEN_BUF_SIZE -> src + n <= SCREEN_BUF_SIZE -> fits (memmove dst src n).
Proof.
  intros Hd Hr Hn Hs1 Hs2 l Hl. unfold memmove.
  replace (_ && _) with true by (symmetry; lia).
  simpl. unfold zlength in *. rewrite length_memcpy_at; unfold zlength; rewrite ?length_drop; lia.
Qed.

(** What drawing leaves alone. *)
Definition redrawn (c c' : console) : Prop := c' = set_screen (mem c') (video c') c.

Lemma redrawn_vw c c' : redrawn c c' -> vw c' = vw c.
Proof. intros ->. done. Qed.

Lemma redrawn_refl c : redrawn c c.
Proof. by destruct c. Qed.

Lemma redrawn_trans c1 c2 c3 : redrawn c1 c2 -> redrawn c2 c3 -> redrawn c1 c3.
Proof. intros H1 H2. unfold redrawn in *. rewrite H2 at 1. rewrite H1 at 1. done. Qed.

(** The postcondition of a function that only draws. *)
Definition drew (c c' : console) : Prop := wf c' /\ redrawn c c'.

Lemma drew_refl c : wf c -> drew c c.
Proof. split; [done|apply redrawn_refl]. Qed.

Lemma drew_bind c (m : outcome console) (k : console -> outcome console) Q :
  wp m (drew c) -> (forall c', wf c' -> redrawn c c' -> wp (k c') (drew c')) ->
  (forall c', drew c c' -> Q c') -> wp (obind m k) Q.
Proof.
  intros H1 H2 HQ. eapply wp_bind_mono; [exact H1|]. intros c1 [W1 R1].
  eapply wp_mono; [by apply H2|]. intros c2 [W2 R2]. apply HQ. split; [done|].
  by eapply redrawn_trans.
Qed.

Lemma draw_wf f c : wf c -> fits f -> wp (draw f c) (drew c).
Proof.
  intros W Hf. unfold draw. pose proof (Hf _ (wf_mem _ W)) as H1. pose proof (Hf _ (wf_video _ W)) as H2.
  destruct (f (mem c)) as [m| |]; simpl in *; [|done..].
  assert (Hd : forall v, zlength v = SCREEN_BUF_SIZE -> drew c (set_screen m v c))
    by (intros v Hv; split; [destruct W; by split|done]).
  destruct (present c).
  - destruct (f (video c)); simpl in *; auto.
  - simpl. apply Hd, W.
Qed.

Ltac view_facts W :=
  let V := fresh "V" in pose proof (wf_vw _ W) as V; destruct V as [? ? ? ? ? ?].
Ltac fold_pos := unfold px, py in *; unfold SCREEN_BUF_SIZE, N_COL, N_ROW in *.

Lemma erase_screen_wf a b c : wf c -> 0 <= a <= b -> b < 25 -> wp (erase_screen a b c) (drew c).
Proof.
  intros W Ha Hb. unfold erase_screen. apply draw_wf; [done|]. fold_pos.
  rewrite u32_small by lia. apply memsetw_fits; unfold SCREEN_BUF_SIZE; lia.
Qed.

Lemma erase_line_wf s e c : wf c -> wp (__erase_line s e c) (drew c).
Proof.
  intros W. unfold __erase_line. destruct (_ || _) eqn:G; [by apply drew_refl|].
  view_facts W. apply draw_wf; [done|]. fold_pos.
  destruct (s <? 0) eqn:?, (e >? 80 - 1) eqn:?; apply memsetw_fits; unfold SCREEN_BUF_SIZE; lia.
Qed.

Lemma scroll_wf s e up c : wf c -> wp (__scroll s e up c) (drew c).
Proof.
  intros W. unfold __scroll. destruct (_ || _) eqn:G; [by apply drew_refl|].
  view_facts W. unfold in_scrolling_region in G.
  eapply drew_bind; [|intros c' W' R|done].
  - destruct (s <? e) eqn:E; [|by apply drew_refl].
    apply draw_wf; [done|]. fold_pos. destruct up; apply memmove_fits; unfold SCREEN_BUF_SIZE; lia.
  - apply draw_wf; [done|]. fold_pos. destruct up; apply memsetw_fits; unfold SCREEN_BUF_SIZE; lia.
Qed.

Lemma delete_one_char_wf y x c : wf c -> 0 <= y < 25 -> 0 <= x -> wp (delete_one_char y x c) (drew c).
Proof.
  intros W Hy Hx. unfold delete_one_char. destruct (x >=? N_COL) eqn:E; [by apply drew_refl|]. fold_pos.
  eapply drew_bind; [|intros c' W' R|done].
  - destruct (_ <? _) eqn:E2; [|by apply drew_refl]. apply draw_wf; [done|].
    apply memmove_fits; unfold SCREEN_BUF_SIZE; lia.
  - apply draw_wf; [done|]. apply memsetw_fits; unfold SCREEN_BUF_SIZE; lia.
Qed.

Lemma insert_one_char_wf y x c : wf c -> 0 <= y < 25 -> 0 <= x -> wp (insert_one_char y x c) (drew c).
Proof.
  intros W Hy Hx. unfold insert_one_char. destruct (x >=? N_COL) eqn:E; [by apply drew_refl|]. fold_pos.
  eapply drew_bind; [|intros c' W' R|done].
  - destruct (_ <? _) eqn:E2; [|by apply drew_refl]. apply draw_wf; [done|].
    apply memmove_fits; unfold SCREEN_BUF_SIZE; lia.
  - apply draw_wf; [done|]. apply memsetw_fits; unfold SCREEN_BUF_SIZE; lia.
Qed.

(** ** Moving the cursor *)

Lemma wf_set_vw v c : wf c -> wf_view v -> wf (set_vw v c).
Proof. intros W V. destruct W. by split. Qed.

Lemma wf_goto y x c : wf c -> 0 <= y < 25 -> 0 <= x <= 80 -> wf (goto y x c).
Proof. intros W Hy Hx. apply wf_set_vw; [done|]. destruct (wf_vw _ W). by split. Qed.

Lemma wf_move_cursor c : wf c -> wf (move_cursor c).
Proof. intros W. unfold move_cursor. destruct (present c); [|done]. destruct W. by split. Qed.

Lemma wf_set_pos y x c : wf c -> wf (set_pos y x c).
Proof. intros W. apply wf_move_cursor, wf_goto; fold_pos; [done|lia..]. Qed.

Lemma wf_set_pending b c : wf c -> wf (set_pending b c).
Proof. intros W. destruct W. by split. Qed.

Lemma wf_set_state b c : wf c -> wf (set_state b c).
Proof. intros W. destruct W. by split. Qed.

Lemma wf_set_esc l c : wf c -> wf (set_esc l c).
Proof. intros W. destruct W. by split. Qed.

Lemma wf_set_kbd a b c : wf c -> wf (set_kbd a b c).
Proof. intros W. destruct W. by split. Qed.

Lemma wf_add_reply l c : wf c -> wf (add_reply l c).
Proof. intros W. destruct W. by split. Qed.

(** The setters of the view other than the cursor keep it well formed. *)
Lemma wf_attrs v f b inv bd : wf_view v -> wf_view (colors f b inv bd v).
Proof. intros []. by split. Qed.

Lemma wf_graphic v p : wf_view v -> wf_view (graphic p v).
Proof. intros []. by split. Qed.

Lemma wf_hidden v h : wf_view v -> wf_view (hidden h v).
Proof. intros []. by split. Qed.

Lemma wf_charsets v a b : wf_view v -> wf_view (charsets a b v).
Proof. intros []. by split. Qed.

Lemma wf_soft_view v : wf_view v -> wf_view (soft_view v).
Proof. intros []. by split. Qed.

#[export] Hint Resolve wf_move_cursor wf_set_pos wf_set_pending wf_set_state wf_set_esc wf_set_kbd
  wf_add_reply wf_set_vw wf_vw wf_orig wf_attrs wf_graphic wf_hidden wf_charsets wf_soft_view : console.

(** ** Printing *)

(** Between characters: a cursor past the last column waits to wrap. *)
Definition parked (c : console) : Prop := px c = N_COL -> pending_wrap c = true \/ py c < N_ROW - 1.

Lemma hazard_char_parked c ch : wf c -> scr_end (vw c) = N_ROW - 1 -> parked c -> hazard_char c ch = false.
Proof.
  intros W He Hp. view_facts W. unfold hazard_char, parked in *.
  destruct (pending_wrap c); [rewrite He; fold_pos; lia|].
  destruct (px c =? N_COL) eqn:E; [|by rewrite andb_false_r].
  destruct Hp as [?|?]; [lia|done|]. lia.
Qed.

Lemma do_wrap_wf ch c : wf c -> hazard_char c ch = false ->
  wp (do_wrap ch c) (fun c' => wf c' /\ pending_wrap c' = false /\
    scr_end (vw c') = scr_end (vw c) /\ (32 <= ch -> px c' = N_COL -> py c' < N_ROW - 1)).
Proof.
  intros W H. unfold do_wrap, hazard_char in *. view_facts W.
  destruct (pending_wrap c) eqn:P; [|simpl; split_and!; auto; fold_pos; lia].
  destruct (negb (ch =? 10) && negb (ch =? 13)) eqn:E.
  - eapply wp_bind_mono with (P := fun c' => wf c' /\ scr_end (vw c') = scr_end (vw c) /\ px c' = 0).
    + fold_pos. rewrite !u32_small by lia.
      destruct (pos_y (vw c) + 1 =? scr_end (vw c) + 1) eqn:E2.
      * eapply wp_mono; [apply scroll_wf, wf_goto; [done|lia..]|].
        intros c' [W' R]. unfold px. by rewrite (redrawn_vw _ _ R).
      * cbn [wp]. split; [apply wf_goto; [done|lia..]|done].
    + intros c' (W' & He & Hx). cbn [wp]. split_and!; [by apply wf_set_pending|done|done|].
      intros _ Hx'. unfold px in *. cbn in Hx'. rewrite Hx in Hx'. done.
  - simpl. split_and!; [by apply wf_set_pending|done|done|].
    intros Hc. lia.
Qed.

Lemma after_char_wf c y x : wf c -> 0 <= y < 25 -> 0 <= x ->
  let c' := after_char (goto y x c) in
  wf c' /\ scr_end (vw c') = scr_end (vw c) /\ parked c'.
Proof.
  intros W Hy Hx. unfold after_char. change (px (goto y x c)) with x.
  change (goto (py (goto y x c)) N_COL (goto y x c)) with (goto y N_COL c).
  assert (Hm : forall c1, wf c1 -> scr_end (vw c1) = scr_end (vw c) -> parked c1 ->
    let c' := move_cursor c1 in wf c' /\ scr_end (vw c') = scr_end (vw c) /\ parked c').
  { intros c1 W1 E1 P1. split_and!; [by apply wf_move_cursor|..]; unfold move_cursor; by destruct (present c1). }
  unfold N_COL. destruct (x >=? 80) eqn:E.
  - apply Hm; [by apply wf_set_pending, wf_goto|done|by left].
  - apply Hm; [apply wf_goto; [done|lia..]|done|]. unfold parked, px, N_COL. simpl. lia.
Qed.

Lemma goto_self c : goto (py c) (px c) c = c.
Proof. destruct c as [? ? ? ? v]. by destruct v. Qed.

Lemma after_char_wf_here c : wf c -> wf (after_char c) /\ scr_end (vw (after_char c)) = scr_end (vw c) /\ parked (after_char c).
Proof.
  intros W. view_facts W. pose proof (after_char_wf c (py c) (px c) W ltac:(unfold py; lia) ltac:(unfold px; lia)) as G.
  by rewrite goto_self in G.
Qed.

Definition printed (c c' : console) : Prop := wf c' /\ scr_end (vw c') = scr_end (vw c) /\ parked c'.

Lemma write_char_wf ch tr c : wf c -> hazard_char c ch = false -> wp (write_char ch tr c) (printed c).
Proof.
  intros W H. unfold write_char. eapply wp_bind_mono; [by apply do_wrap_wf|].
  intros c1 (W1 & Hp & He & Hx). unfold printed. rewrite <- He. clear H He W.
  pose proof (wf_vw _ W1) as V. destruct V as [Vx Vy Vsx Vsy Vr Ve].
  assert (Hpos : 0 <= py c1 < 25 /\ 0 <= px c1 <= 80) by (by unfold py, px).
  destruct (ch =? 9) eqn:E9.
  { apply after_char_wf; [done|lia|]. apply Z.land_nonneg. left. apply u32_range. }
  destruct (ch =? 13) eqn:E13; [by apply after_char_wf; [|lia..]|].
  destruct (ch =? 10) eqn:E10.
  { eapply wp_bind_mono with (P := fun c' => wf c' /\ scr_end (vw c') = scr_end (vw c1)).
    - unfold newline. fold_pos. rewrite !u32_small by lia.
      destruct (pos_y (vw c1) + 1 =? scr_end (vw c1) + 1) eqn:E2.
      + eapply wp_mono; [apply scroll_wf, wf_goto; [done|lia..]|].
        intros c' [W' R]. by rewrite (redrawn_vw _ _ R).
      + destruct (_ >? _) eqn:E3; cbn [wp]; (split; [apply wf_goto; [done|lia..]|done]).
    - intros c' [W' E']. cbn [wp]. rewrite <- E'. by apply after_char_wf_here. }
  destruct (ch =? 8) eqn:E8.
  { destruct (px c1 =? 0) eqn:E0; [|apply after_char_wf; [done|lia..]].
    cbn [wp]. split_and!; [done..|]. unfold parked. fold_pos. lia. }
  destruct (ch >=? 32) eqn:E32.
  - unfold put_glyph. set (x := if _ && _ then _ else _). clearbody x.
    set (c2 := if can_rep x then _ else _).
    assert (H2 : wf c2 /\ px c2 = px c1 /\ py c2 = py c1 /\ scr_end (vw c2) = scr_end (vw c1)).
    { unfold c2. destruct (can_rep x); [|done]. split; [|done]. apply wf_set_vw, wf_graphic; [done|apply W1]. }
    clearbody c2. destruct H2 as (W2 & Hx2 & Hy2 & He2).
    apply wp_bind. eapply wp_bind_mono.
    + apply (draw_wf _ c2 W2), memsetw_fits; fold_pos; rewrite ?Hx2, ?Hy2; lia.
    + intros c3 [W3 R3]. cbn [wp]. rewrite <- He2, <- (redrawn_vw _ _ R3).
      apply after_char_wf; [done| |apply u32_range].
      unfold py. rewrite (redrawn_vw _ _ R3). unfold py in Hy2. rewrite Hy2. fold_pos. lia.
  - cbn [wp]. by apply after_char_wf_here.
Qed.

(** ** Loops *)

Lemma repeat_inv (I : console -> Prop) n f c :
  (forall c, I c -> wp (f c) I) -> I c -> wp (repeat n f c) I.
Proof.
  intros Hf. revert c. induction n as [|n IH]; intros c Hc; [done|].
  simpl. eapply wp_bind_mono; [by apply Hf|]. auto.
Qed.

Lemma drew_wf c o : wp o (drew c) -> wp o wf.
Proof. intros H. eapply wp_mono; [exact H|]. by intros c' []. Qed.

Lemma repeat_wf n f c : (forall c, wf c -> wp (f c) (drew c)) -> wf c -> wp (repeat n f c) wf.
Proof. intros Hf. apply repeat_inv. intros c' W'. eapply drew_wf; eauto. Qed.

Lemma foldl_wf {A} (f : console -> A -> console) l c :
  (forall c a, wf c -> wf (f c a)) -> wf c -> wf (foldl f c l).
Proof. intros Hf. revert c. induction l; simpl; auto. Qed.

(** ** Control sequences *)

Lemma csi_H_wf c : wf c -> wf (csi_H c).
Proof. intros W. unfold csi_H. destruct (get_esc_uint_2 _) as [[y x]|]; by apply wf_set_pos. Qed.

Lemma csi_ABCD_wf ch c : wf c -> wf (csi_ABCD ch c).
Proof.
  intros W. unfold csi_ABCD. apply wf_move_cursor. view_facts W.
  repeat match goal with |- context [ch =? ?x] => destruct (ch =? x) end; [..|done];
    fold_pos; apply wf_goto; try done; unfold px, py; try lia;
    (destruct (_ >? _) eqn:?; [lia|]; pose proof (u32_range (pos_y (vw c) - arg_or 1 c));
     pose proof (u32_range (pos_y (vw c) + arg_or 1 c)); pose proof (u32_range (pos_x (vw c) - arg_or 1 c));
     pose proof (u32_range (pos_x (vw c) + arg_or 1 c)); lia).
Qed.

Lemma csi_s_wf c : wf c -> wf (csi_s c).
Proof. intros W. unfold csi_s. apply wf_set_vw; [done|]. destruct (wf_vw _ W). by split. Qed.

Lemma csi_u_wf c : wf c -> wf (csi_u c).
Proof. intros W. view_facts W. apply wf_move_cursor, wf_goto; done. Qed.

Lemma do_csi_m_wf c a : wf c -> wf (do_csi_m a c).
Proof.
  intros W. unfold do_csi_m, set_fg, set_bg.
  repeat match goal with |- wf (if ?b then _ else _) => destruct b end; auto with console.
Qed.

Lemma csi_m_wf c : wf c -> wf (csi_m c).
Proof.
  intros W. unfold csi_m. destruct (args c) as [|a l]; [by apply do_csi_m_wf|].
  apply foldl_wf; [|done]. intros. by apply do_csi_m_wf.
Qed.

Lemma csi_J_wf c : wf c -> wp (csi_J c) wf.
Proof.
  intros W. view_facts W. unfold csi_J, clear_screen.
  destruct (_ =? 0); [eapply drew_wf, erase_screen_wf; fold_pos; [done|lia..]|].
  destruct (_ =? 1); [eapply drew_wf, erase_screen_wf; fold_pos; [done|lia..]|].
  destruct (_ =? 2); [|done].
  eapply wp_bind_mono; [apply erase_screen_wf; fold_pos; [done|lia..]|].
  intros c' [W' _]. simpl. auto with console.
Qed.

Lemma csi_K_wf c : wf c -> wp (csi_K c) wf.
Proof.
  intros W. unfold csi_K, erase_line, erase_line_left, erase_line_right.
  repeat case_match; try done; eapply drew_wf, erase_line_wf; done.
Qed.

Lemma csi_L_wf c : wf c -> wp (csi_L c) wf.
Proof.
  intros W. unfold csi_L. destruct (negb _); [done|].
  eapply wp_bind_mono; [apply repeat_wf; [|done]; intros; by apply scroll_wf|].
  intros. simpl. auto with console.
Qed.

Lemma csi_M_wf c : wf c -> wp (csi_M c) wf.
Proof.
  intros W. unfold csi_M. destruct (negb _); [done|].
  eapply wp_bind_mono; [apply repeat_wf; [|done]; intros; by apply scroll_wf|].
  intros. simpl. auto with console.
Qed.

Lemma csi_P_wf c : wf c -> wp (csi_P c) wf.
Proof.
  intros W. unfold csi_P. apply repeat_wf; [|done]. intros c' W'. view_facts W'.
  apply delete_one_char_wf; fold_pos; [done|lia..].
Qed.

Lemma csi_at_wf c : wf c -> wp (csi_at c) wf.
Proof.
  intros W. unfold csi_at. apply repeat_wf; [|done]. intros c' W'. view_facts W'.
  apply insert_one_char_wf; fold_pos; [done|lia..].
Qed.

Lemma csi_S_wf c : wf c -> wp (csi_S c) wf.
Proof.
  intros W. unfold csi_S. destruct (negb _); [done|].
  apply repeat_wf; [|done]. intros. by apply scroll_wf.
Qed.

Lemma csi_r_wf c : wf c -> wf (csi_r c).
Proof.
  intros W. unfold csi_r. set (p := match get_esc_uint_2 _ with Some _ => _ | None => _ end).
  clearbody p. destruct p as [s e].
  destruct (_ && _) eqn:E; [|done]. apply wf_set_vw; [done|]. destruct (wf_vw _ W). fold_pos.
  split; simpl; lia.
Qed.

Lemma csi_b_wf c : wf c ->
  negb (pgc (vw c) =? 0) && (negb (scr_end (vw c) =? N_ROW - 1) || hazard_char c (pgc (vw c))) = false ->
  wp (csi_b c) wf.
Proof.
  intros W H. unfold csi_b. destruct (pgc (vw c) =? 0); [done|]. simpl in H.
  apply orb_false_iff in H as [He Hh]. set (p := pgc (vw c)) in *. clearbody p.
  eapply wp_mono with (P := fun c' => (wf c' /\ scr_end (vw c') = N_ROW - 1) /\ hazard_char c' p = false);
    [|by intros ? [[]]].
  apply repeat_inv.
  - clear c W He Hh. intros c [[W He] Hh]. eapply wp_mono; [by apply write_char_wf|].
    intros c' (W' & E' & Hp). rewrite He in E'. split; [done|]. by apply hazard_char_parked.
  - split; [split; [done|lia]|done].
Qed.

Lemma tty_receive_s_wf l c : wf c -> echo c = false -> wp (tty_receive_s l c) wf.
Proof. intros W E. unfold tty_receive_s. rewrite E. simpl. auto with console. Qed.

Lemma csi_n_wf c : wf c -> asks_echoed (set_state CSI c) (chr "n") = false -> wp (csi_n c) wf.
Proof.
  intros W H. unfold asks_echoed in H. cbn in H. unfold csi_n. repeat case_match; try done.
  apply tty_receive_s_wf; [done|]. by rewrite andb_true_r in H.
Qed.

Lemma csi_c_wf c : wf c -> asks_echoed (set_state CSI c) (chr "c") = false -> wp (csi_c c) wf.
Proof. intros W H. apply tty_receive_s_wf; [done|]. unfold asks_echoed in H. cbn in H. by rewrite andb_true_r in H. Qed.

(** The answer is echoed through the console whose lock the write holds. *)
Lemma asked_hangs c ch : asks_echoed c ch = true -> console_write_char c ch = Hang.
Proof.
  unfold asks_echoed. intros [He H]%andb_true_iff. unfold console_write_char, sequence_byte.
  destruct (state c) eqn:Es; try done.
  assert (Hc : ch = chr "c" \/ ch = chr "n" /\ exists l, get_esc_uint_1 (esc_buf c) = Some (6, l)).
  { apply orb_true_iff in H as [H|[H1 H2]%andb_true_iff]; [left; by apply Z.eqb_eq|right].
    split; [by apply Z.eqb_eq|]. repeat case_match; try done. eauto. }
  destruct Hc as [->|(-> & l & Hl)]; unfold csi_byte, csi; rewrite Es; cbn -[get_esc_uint_1].
  - unfold csi_c, tty_receive_s. by rewrite He.
  - unfold csi_n, tty_receive_s. by rewrite Hl, He.
Qed.

(** ** Resets and screens *)

Lemma soft_reset_wf c : wf c -> wf (console_soft_reset c).
Proof. intros W. unfold console_soft_reset. auto with console. Qed.

Lemma wf_set_screen m v c : wf c -> zlength m = SCREEN_BUF_SIZE -> zlength v = SCREEN_BUF_SIZE ->
  wf (set_screen m v c).
Proof. intros W. destruct W. by split. Qed.

Lemma memsetw_full_wf v l (k : list Z -> outcome console) : zlength l = SCREEN_BUF_SIZE ->
  (forall m, zlength m = SCREEN_BUF_SIZE -> wp (k m) wf) -> wp (obind (memsetw 0 SCREEN_BUF_SIZE v l) k) wf.
Proof.
  intros Hl Hk. eapply wp_bind_mono; [apply memsetw_fits; [done|by unfold SCREEN_BUF_SIZE..|done]|]. auto.
Qed.

Lemma console_reset_wf c : wf c -> wp (console_reset c) wf.
Proof.
  intros W. unfold console_reset. set (c1 := goto 0 0 (console_soft_reset c)).
  assert (W1 : wf c1) by (apply wf_goto; [by apply soft_reset_wf|lia..]).
  apply memsetw_full_wf; [apply W1|]. intros m Hm. cbn [wp].
  apply wf_set_state, wf_set_esc, wf_set_kbd, wf_set_screen; [done..|apply W1].
Qed.

Lemma reset_screen_wf c : wf c -> wp (reset_screen c) wf.
Proof.
  intros W. unfold reset_screen, clear_screen.
  eapply wp_bind_mono; [apply erase_screen_wf; fold_pos; [done|lia..]|]. intros c1 [W1 _].
  eapply wp_bind_mono; [by apply console_reset_wf|]. intros c2 W2. by apply wf_move_cursor.
Qed.

Lemma show_screen_wf c : wf c -> wf (show_screen c).
Proof.
  intros W. unfold show_screen. destruct (present c); [|done].
  apply wf_move_cursor, wf_set_screen; [done|apply W..].
Qed.

Lemma use_alt_wf c : wf c -> wp (use_alt_screen_buffer c) wf.
Proof.
  intros W. unfold use_alt_screen_buffer.
  assert (W1 : wf (console_soft_reset (set_orig (mem c) (vw c) c))).
  { apply soft_reset_wf. destruct W. by split. }
  apply memsetw_full_wf; [apply W1|]. intros m Hm. cbn [wp].
  apply show_screen_wf, wf_goto; [|lia..]. apply wf_set_screen; [done..|apply W1].
Qed.

Lemma use_normal_wf c : wf c -> wf (use_normal_screen_buffer c).
Proof. intros W. apply show_screen_wf, wf_set_vw; [apply wf_set_screen; [done|apply W..]|apply W]. Qed.

Lemma csi_q_wf ch c : wf c -> wp (csi_q ch c) wf.
Proof.
  intros W. unfold csi_q. destruct (ch =? _).
  - cbn [wp]. apply foldl_wf; [|done]. clear. intros c a W. unfold mode_l, hide_cursor.
    repeat case_match; auto with console. apply use_normal_wf. auto with console.
  - destruct (ch =? _); [|done]. generalize (args c). intros l. revert c W.
    induction l as [|a l IH]; intros c W; [done|]. simpl.
    eapply wp_bind_mono with (P := wf); [|auto].
    unfold mode_h, show_cursor. repeat case_match; simpl; auto with console. by apply use_alt_wf.
Qed.

Lemma csi_wf ch c : wf c -> hazard c ch = false -> asks_echoed c ch = false ->
  match state c with CSI | CSI_Q | CSI_X | CSI_I => True | _ => False end -> wp (csi ch c) wf.
Proof.
  intros W H He Hs. unfold csi. destruct (state c) eqn:Es; try done; cycle 1.
  - by apply csi_q_wf.
  - simpl. case_match; by auto using soft_reset_wf.
  - assert (Hb : isc ch "b" = true -> wp (csi_b c) wf).
    { intros Eb. apply csi_b_wf; [done|]. unfold hazard in H. by rewrite Es, Eb in H. }
    assert (En : isc ch "n" = true -> wp (csi_n c) wf).
    { intros ->%Z.eqb_eq. apply csi_n_wf; [done|]. unfold asks_echoed in *. by rewrite Es in He. }
    assert (Ec : isc ch "c" = true -> wp (csi_c c) wf).
    { intros ->%Z.eqb_eq. apply csi_c_wf; [done|]. unfold asks_echoed in *. by rewrite Es in He. }
    clear He.
    repeat match goal with |- wp (if ?b then _ else _) wf => destruct b eqn:? end; cbn [wp];
      eauto using csi_H_wf, csi_ABCD_wf, csi_s_wf, csi_u_wf, csi_m_wf, csi_J_wf, csi_K_wf, csi_L_wf, csi_M_wf,
        csi_P_wf, csi_at_wf, csi_r_wf, csi_S_wf, drew_wf, erase_line_wf with console.
Qed.

Lemma esc_D_wf c : wf c -> wp (esc_D c) wf.
Proof.
  intros W. view_facts W. unfold esc_D. apply wp_bind_mono with (P := wf); [|intros; simpl; auto with console].
  fold_pos. rewrite !u32_small by lia.
  destruct (pos_y (vw c) + 1 =? scr_end (vw c) + 1) eqn:E.
  - eapply drew_wf, scroll_wf, wf_goto; [done|lia..].
  - simpl. destruct (_ =? 25) eqn:E2; apply wf_goto; try done; lia.
Qed.

Lemma esc_M_wf c : wf c -> wp (esc_M c) wf.
Proof.
  intros W. view_facts W. unfold esc_M. apply wp_bind_mono with (P := wf); [|intros; simpl; auto with console].
  fold_pos. destruct (u32 (pos_y (vw c) - 1) =? _) eqn:E.
  - eapply drew_wf, scroll_wf, wf_goto; [done|lia..].
  - simpl. destruct (u32 (pos_y (vw c) - 1) =? UINT_MAX) eqn:E2; apply wf_goto; try done; try lia.
    unfold UINT_MAX, u32 in *. destruct (decide (pos_y (vw c) = 0)) as [E0|].
    + rewrite E0 in E2. done.
    + rewrite Z.mod_small; lia.
Qed.

Lemma escape_wf ch c : wf c -> wp (escape ch c) wf.
Proof.
  intros W. unfold escape, reset_esc_buf.
  repeat match goal with |- wp (if ?b then _ else _) wf => destruct b end; cbn [wp]; auto with console;
    try (apply wp_bind_mono with (P := wf); [|intros; simpl; auto with console]);
    auto using csi_s_wf, csi_u_wf, esc_D_wf, esc_M_wf, reset_screen_wf with console.
Qed.

Lemma csi_byte_wf ch c : wf c -> hazard c ch = false -> asks_echoed c ch = false ->
  match state c with CSI | CSI_Q | CSI_X | CSI_I => True | _ => False end -> wp (csi_byte ch c) wf.
Proof.
  intros W H He Hs. unfold csi_byte. destruct (_ || _).
  - eapply wp_bind_mono; [by apply csi_wf|]. intros. simpl. auto with console.
  - unfold into_esc_buf. destruct (_ >=? _); simpl; auto with console.
Qed.

Lemma console_write_char_wf c ch : wf c -> hazard c ch = false -> asks_echoed c ch = false ->
  wp (console_write_char c ch) wf.
Proof.
  intros W H He. unfold console_write_char. destruct (ch =? 0); [done|].
  destruct (is_normal (state c) && negb (ch =? 27)) eqn:E.
  - unfold hazard in H. destruct (state c) eqn:Es; try done. simpl in E. rewrite E in H.
    eapply wp_mono; [by apply write_char_wf|]. by intros ? [].
  - eapply wp_bind_mono with (P := wf); [|intros; simpl; auto with console]. clear E.
    assert (Hb : match state c with CSI | CSI_Q | CSI_X | CSI_I => True | _ => False end ->
                 wp (csi_byte ch c) wf) by (intros; by apply csi_byte_wf).
    unfold sequence_byte. destruct (state c);
      repeat match goal with |- context [if ?b then _ else _] => destruct b end; cbn [wp];
      auto using escape_wf with console.
Qed.

Lemma console_write_ok c buf : wf c -> careful c buf = true ->
  if stuck c buf then console_write c buf = Hang else wp (console_write c buf) wf.
Proof.
  revert c. induction buf as [|ch buf IH]; intros c W H; [done|]. simpl in *.
  apply andb_true_iff in H as [H1 H2]. apply negb_true_iff in H1.
  destruct (asks_echoed c ch) eqn:He; simpl; [by rewrite asked_hangs|].
  pose proof (console_write_char_wf c ch W H1 He) as H3.
  destruct (console_write_char c ch) as [c'| |]; simpl in *; [|done..].
  exact (IH _ H3 H2).
Qed.

Lemma console_write_wf c buf : wf c -> careful c buf = true -> stuck c buf = false -> wp (console_write c buf) wf.
Proof. intros W H E. pose proof (console_write_ok c buf W H) as K. by rewrite E in K. Qed.

(** ** The bounds *)

(** A glyph fits where the hazard says that it does. *)
Lemma put_glyph_overflow ch tr c : 80 * py c + px c >= 2000 -> put_glyph ch tr c = Overflow.
Proof.
  intros H. unfold put_glyph. set (x := if _ && _ then _ else _). clearbody x.
  set (c2 := if can_rep x then _ else _).
  assert (E : py c2 = py c /\ px c2 = px c) by (unfold c2; by destruct (can_rep x)).
  clearbody c2. destruct E as [E1 E2]. unfold draw, memsetw.
  replace (_ && _) with false; [done|]. symmetry. unfold N_COL, SCREEN_BUF_SIZE. rewrite E1, E2. lia.
Qed.

Lemma write_char_printable ch tr c : 32 <= ch -> write_char ch tr c =
  obind (do_wrap ch c) (fun c => obind (put_glyph ch tr c) (fun c => Done (after_char c))).
Proof.
  intros H. unfold write_char. destruct (do_wrap ch c) as [c1| |]; simpl; [|done..].
  repeat match goal with |- context [ch =? ?x] => destruct (Z.eqb_spec ch x); [lia|] end.
  by replace (ch >=? 32) with true by (symmetry; lia).
Qed.

Lemma write_char_overflow ch tr c : wf c -> 32 <= ch -> hazard_char c ch = true -> write_char ch tr c = Overflow.
Proof.
  intros W Hc H. view_facts W. rewrite write_char_printable by done. unfold hazard_char, do_wrap in *.
  destruct (pending_wrap c) eqn:P; simpl in H |- *.
  - replace (negb (ch =? 10) && negb (ch =? 13)) with true in * by (symmetry; lia). fold_pos.
    rewrite !u32_small by lia.
    replace (pos_y (vw c) + 1 =? scr_end (vw c) + 1) with false by (symmetry; lia). simpl.
    rewrite put_glyph_overflow; [done|]. unfold py, px. simpl. lia.
  - rewrite put_glyph_overflow; [done|]. fold_pos. lia.
Qed.

(** The first console when the machine starts, on a blank screen. *)
Definition start_view : view := mkview 0 0 0 0 0 0 0 0 0 0 0 false false false.
Definition start_console : console :=
  let blank := replicate 2000 0 in
  let c := mkcon blank blank true 0 start_view blank start_view false [] NORMAL false false false (25, 80) [] in
  match console_reset c with Done c => c | _ => c end.

Lemma start_console_wf : wf start_console.
Proof. split; try done; split; simpl; lia. Qed.

(** The same with its terminal open, which echoes. *)
Definition echoing : console :=
  let c := start_console in
  mkcon (mem c) (video c) (present c) (hw_cursor c) (vw c) (orig_mem c) (orig c) (pending_wrap c) (esc_buf c)
    (state c) (cursor_app c) (keypad_app c) true (winsize c) (replies c).

Lemma echoing_wf : wf echoing.
Proof. split; try done; split; simpl; lia. Qed.

Definition text (s : string) : list Z := map chr (String.list_ascii_of_string s).
Arguments text _%_string_scope.

(** ESC [ 25 ; 1 H, a line of x, ESC [ m. *)
Definition bottom_line : list Z :=
  27 :: text "[25;1H" ++ replicate 80 (chr "x") ++ 27 :: text "[m".
(** Lines in a region, wrapped and scrolled, a repeat, an alternate screen and back. *)
Definition session : list Z :=
  27 :: text "[5;20r" ++ 27 :: text "[20;70H" ++ replicate 100 (chr "x") ++ 27 :: text "[3T" ++ 27 :: text "[r" ++
  text "ab" ++ 27 :: text "[99b" ++ 27 :: text "[?1049h" ++ text "alt" ++ 27 :: text "[?1049l" ++ 27 :: text "c".



(** the hazard is exact for the characters that print: in the normal state
    a printable byte writes outside the screen when it meets the hazard, and is
    written and leaves the console well formed when it does not. *)
Theorem printable_overflow_iff (c : console) (ch : Z) :
  wf c -> state c = NORMAL -> 32 <= ch ->
  if hazard c ch then console_write_char c ch = Overflow
  else exists c', console_write_char c ch = Done c' /\ wf c'.
Proof.
  intros W Hs Hc. destruct (hazard c ch) eqn:H.
  - unfold console_write_char. unfold hazard in H. rewrite Hs in *.
    apply andb_true_iff in H as [H1 H2]. replace (ch =? 0) with false by (symmetry; lia). simpl. rewrite H1.
    by apply write_char_overflow.
  - apply wp_done, console_write_char_wf; [done..|]. unfold asks_echoed. by rewrite Hs, andb_false_r.
Qed.

(** A full last line, an attribute sequence, one more character. *)
Lemma printable_overflow_iff_witness :
  exists c, console_write start_console bottom_line = Done c /\ wf c /\ state c = NORMAL /\
            console_write_char c (chr "x") = Overflow.
Proof.
  pose proof start_console_wf as W.
  assert (Hc : careful start_console bottom_line = true) by (vm_compute; reflexivity).
  pose proof (console_write_wf _ _ W Hc ltac:(vm_compute; reflexivity)) as Wc.
  destruct (console_write start_console bottom_line) as [c| |] eqn:E; [|destruct Wc..].
  vm_compute in E. exists c. split; [reflexivity|]. split; [exact Wc|].
  assert (Hs : state c = NORMAL) by (injection E as <-; reflexivity).
  split; [exact Hs|]. pose proof (printable_overflow_iff c (chr "x") Wc Hs ltac:(done)) as H.
  assert (Hh : hazard c (chr "x") = true) by (injection E as <-; vm_compute; reflexivity).
  rewrite Hh in H. exact H.
Defined.

End ConsoleSafe.
