(* ===== verification/ConsoleScreen.v ===== *)
(** * What the console shows

    Printed text lies where the cursor was, line insertion and deletion move the
    rows of the scrolling region, a decimal cursor address puts the cursor where
    it says, and the VGA memory shows the screen of the foreground console. *)
From Stdlib Require Import Ascii String.
From S2P Require Import Prelude Console ConsoleSafe.
Import Console ConsoleSafe.
#[local] Open Scope list_scope.
#[local] Open Scope Z_scope.

Module ConsoleScreen.

(** ** Cells *)

Definition cell (l : list Z) (i j : Z) : Z := byte_at l (80 * i + j).

Lemma memsetw_cell a n v l k : zlength l = SCREEN_BUF_SIZE -> 0 <= a -> 0 <= n -> a + n <= SCREEN_BUF_SIZE ->
  0 <= k < SCREEN_BUF_SIZE ->
  wp (memsetw a n v l) (fun l' => byte_at l' k = if decide (a <= k < a + n) then v else byte_at l k).
Proof.
  intros Hl Ha Hn Hs Hk. unfold memsetw. replace (_ && _) with true by (symmetry; lia). simpl.
  unfold byte_at, zlength, SCREEN_BUF_SIZE in *.
  destruct (decide (k < a)) as [L|L].
  - rewrite lookup_app_l by (rewrite length_take; lia). rewrite lookup_take_lt by lia.
    by destruct (decide (a <= k < a + n)); [lia|].
  - rewrite lookup_app_r by (rewrite length_take; lia). rewrite length_take.
    destruct (decide (a <= k < a + n)).
    + rewrite lookup_app_l by (rewrite length_replicate; lia).
      rewrite lookup_replicate_2 by lia. done.
    + rewrite lookup_app_r by (rewrite length_replicate; lia). rewrite length_replicate, lookup_drop.
      do 2 f_equal. lia.
Qed.

Lemma memmove_cell dst src n l k : zlength l = SCREEN_BUF_SIZE -> 0 <= dst -> 0 <= src -> 0 <= n ->
  dst + n <= SCREEN_BUF_SIZE -> src + n <= SCREEN_BUF_SIZE -> 0 <= k < SCREEN_BUF_SIZE ->
  wp (memmove dst src n l) (fun l' =>
    byte_at l' k = if decide (dst <= k < dst + n) then byte_at l (k - dst + src) else byte_at l k).
Proof.
  intros Hl Hd Hs Hn H1 H2 Hk. unfold memmove. replace (_ && _) with true by (symmetry; lia). simpl.
  unfold byte_at, SCREEN_BUF_SIZE in *.
  rewrite lookup_memcpy_at; [|unfold zlength in *; rewrite ?length_drop; lia..].
  rewrite Z2Nat.id by lia. destruct (decide _); [|done]. rewrite lookup_drop. do 2 f_equal. lia.
Qed.

(** Drawing on a screen of the right size: the buffer's new cells. *)
Lemma draw_mem f c : wf c -> fits f ->
  wp (draw f c) (fun c' => drew c c' /\ f (mem c) = Done (mem c')).
Proof.
  intros W Hf. pose proof (draw_wf f c W Hf) as H. unfold draw in *.
  destruct (f (mem c)) as [m| |]; simpl in *; [|done..].
  destruct (if present c then _ else _) as [v| |]; simpl in *; [|done..]. done.
Qed.

Lemma draw_memsetw a n v c : wf c -> 0 <= a -> 0 <= n -> a + n <= SCREEN_BUF_SIZE ->
  wp (draw (memsetw a n v) c) (fun c' => drew c c' /\ forall k, 0 <= k < SCREEN_BUF_SIZE ->
    byte_at (mem c') k = if decide (a <= k < a + n) then v else byte_at (mem c) k).
Proof.
  intros W Ha Hn Hs. eapply wp_mono; [apply draw_mem; [done|by apply memsetw_fits]|].
  intros c' [D E]. split; [done|]. intros k Hk.
  pose proof (memsetw_cell a n v (mem c) k (wf_mem _ W) Ha Hn Hs Hk) as H. by rewrite E in H.
Qed.

Lemma draw_memmove dst src n c : wf c -> 0 <= dst -> 0 <= src -> 0 <= n ->
  dst + n <= SCREEN_BUF_SIZE -> src + n <= SCREEN_BUF_SIZE ->
  wp (draw (memmove dst src n) c) (fun c' => drew c c' /\ forall k, 0 <= k < SCREEN_BUF_SIZE ->
    byte_at (mem c') k = if decide (dst <= k < dst + n) then byte_at (mem c) (k - dst + src) else byte_at (mem c) k).
Proof.
  intros W Hd Hr Hn H1 H2. eapply wp_mono; [apply draw_mem; [done|by apply memmove_fits]|].
  intros c' [D E]. split; [done|]. intros k Hk.
  pose proof (memmove_cell dst src n (mem c) k (wf_mem _ W) Hd Hr Hn H1 H2 Hk) as H. by rewrite E in H.
Qed.

(** ** Scrolling *)

(** The rows from [s] to [e], one up or one down, with a blank row. *)
Definition scrolled (s e : Z) (up : bool) (blank : Z) (scr : Z -> Z -> Z) (i j : Z) : Z :=
  if (s <=? i) && (i <=? e) then
    (if up then if i =? e then blank else scr (i + 1) j else if i =? s then blank else scr (i - 1) j)
  else scr i j.

Lemma makec_drew c c' ch : drew c c' -> makec c' ch = makec c ch.
Proof. intros [_ R]. unfold makec. by rewrite (redrawn_vw _ _ R). Qed.

Lemma SPACE_drew c c' : drew c c' -> SPACE c' = SPACE c.
Proof. apply makec_drew. Qed.

Lemma scroll_spec s e up c : wf c -> scr_start (vw c) <= s <= e -> e <= scr_end (vw c) ->
  wp (__scroll s e up c) (fun c' => drew c c' /\ forall i j, 0 <= i < 25 -> 0 <= j < 80 ->
    cell (mem c') i j = scrolled s e up (SPACE c) (cell (mem c)) i j).
Proof.
  intros W Hs He. view_facts W. unfold __scroll, in_scrolling_region.
  replace (_ || _) with false by (symmetry; lia).
  eapply wp_bind_mono with (P := fun c1 => drew c c1 /\ forall i j, 0 <= i < 25 -> 0 <= j < 80 ->
     (if up then i <> e else i <> s) ->
     cell (mem c1) i j = scrolled s e up (SPACE c) (cell (mem c)) i j).
  - destruct (Z.ltb_spec s e) as [L|L].
    + eapply wp_mono; [apply draw_memmove; fold_pos; [done|destruct up; unfold SCREEN_BUF_SIZE; lia..]|].
      intros c1 [D H]. split; [done|]. intros i j Hi Hj Hn. unfold cell, scrolled, SCREEN_BUF_SIZE in *.
      rewrite H by lia. fold_pos.
      destruct up; destruct (decide _); destruct (Z.leb_spec s i), (Z.leb_spec i e); simpl; try lia; try done;
        (destruct (_ =? _) eqn:?; [lia|]); f_equal; lia.
    + simpl. split; [by apply drew_refl|]. intros i j Hi Hj Hn. unfold scrolled.
      destruct up; destruct (Z.leb_spec s i), (Z.leb_spec i e); simpl; try done; lia.
  - intros c1 [D H]. pose proof D as [W1 R1].
    eapply wp_mono; [apply draw_memsetw; fold_pos; [done|destruct up; unfold SCREEN_BUF_SIZE; lia..]|].
    intros c2 [D2 H2]. destruct D2 as [W2 R2]. split; [split; [done|by eapply redrawn_trans]|].
    intros i j Hi Hj. unfold cell at 1. unfold SCREEN_BUF_SIZE in H2. rewrite H2 by lia. fold_pos.
    rewrite (SPACE_drew _ _ D).
    destruct (decide _).
    + unfold scrolled. replace ((s <=? i) && (i <=? e)) with true by (symmetry; destruct up; lia).
      destruct up; (destruct (_ =? _) eqn:?; [done|lia]).
    + apply H; [done..|]. destruct up; lia.
Qed.

(** Line by line: [n] rows up or down. *)
Definition shifted (s e n : Z) (up : bool) (blank : Z) (scr : Z -> Z -> Z) (i j : Z) : Z :=
  if (s <=? i) && (i <=? e) then
    (if up then if i + n >? e then blank else scr (i + n) j else if i - n <? s then blank else scr (i - n) j)
  else scr i j.

Lemma repeat_scroll n s e up (f : console -> outcome console) c :
  wf c -> scr_start (vw c) <= s <= e -> e <= scr_end (vw c) ->
  (forall c', drew c c' -> f c' = __scroll s e up c') ->
  wp (repeat n f c) (fun c' => drew c c' /\ forall i j, 0 <= i < 25 -> 0 <= j < 80 ->
    cell (mem c') i j = shifted s e (Z.of_nat n) up (SPACE c) (cell (mem c)) i j).
Proof.
  revert c. induction n as [|n IH]; intros c W Hs He Hf.
  - simpl. split; [by apply drew_refl|]. intros i j Hi Hj. unfold shifted.
    destruct ((s <=? i) && (i <=? e)) eqn:E; [|done].
    destruct up; rewrite ?Z.add_0_r, ?Z.sub_0_r.
    + destruct (i >? e) eqn:?; [lia|done].
    + destruct (i <? s) eqn:?; [lia|done].
  - cbn [repeat]. rewrite Hf by (by apply drew_refl).
    eapply wp_bind_mono; [by apply scroll_spec|]. intros c1 [D1 H1]. pose proof D1 as [W1 R1].
    eapply wp_mono; [apply IH; rewrite ?(redrawn_vw _ _ R1); try done|].
    { intros c' [W' R']. apply Hf. split; [done|]. by eapply redrawn_trans. }
    intros c2 [[W2 R2] H2]. split; [split; [done|by eapply redrawn_trans]|].
    intros i j Hi Hj. view_facts W. rewrite H2 by done. rewrite (SPACE_drew _ _ D1). unfold shifted. destruct ((s <=? i) && (i <=? e)) eqn:E.
    + destruct up.
      * destruct (Z.gtb_spec (i + Z.of_nat n) e), (Z.gtb_spec (i + Z.of_nat (S n)) e); try (exfalso; lia); try done;
          rewrite H1 by lia; unfold scrolled; replace (_ && _) with true by (symmetry; lia).
        -- by replace (_ =? _) with true by (symmetry; lia).
        -- replace (_ =? _) with false by (symmetry; lia). f_equal; lia.
      * destruct (Z.ltb_spec (i - Z.of_nat n) s), (Z.ltb_spec (i - Z.of_nat (S n)) s); try (exfalso; lia); try done;
          rewrite H1 by lia; unfold scrolled; replace (_ && _) with true by (symmetry; lia).
        -- by replace (_ =? _) with true by (symmetry; lia).
        -- replace (_ =? _) with false by (symmetry; lia). f_equal; lia.
    + rewrite H1 by lia. unfold scrolled. by rewrite E.
Qed.

(** ** Decimal arguments *)

Definition atou_step (res d : Z) : Z := res * 10 + d - chr "0".

Lemma decimal_spec m : forall k x acc, (1 <= m <= k)%nat -> 0 <= x < 10 ^ Z.of_nat m ->
  exists ds, decimal k x acc = ds ++ acc /\ Forall (fun d => is_digit d = true) ds /\
             (1 <= length ds <= m)%nat /\
             forall r, foldl atou_step r ds = r * 10 ^ zlength ds + x.
Proof.
  induction m as [|m IH]; intros k x acc Hk Hx; [lia|]. destruct k as [|k]; [lia|].
  assert (D : is_digit (chr "0" + x mod 10) = true)
    by (pose proof (Z.mod_pos_bound x 10); unfold is_digit; change (chr "0") with 48; change (chr "9") with 57; lia).
  cbn [decimal]. destruct (Z.ltb_spec x 10).
  - exists [chr "0" + x mod 10]. split_and!; simpl; auto; try lia.
    intros r. unfold atou_step. rewrite Z.mod_small by lia. unfold zlength. simpl. lia.
  - destruct m as [|m]; [simpl in Hx; lia|].
    destruct (IH k (x / 10) ((chr "0" + x mod 10) :: acc)) as (ds & E & F & L & V); [lia| |].
    { rewrite Nat2Z.inj_succ, Z.pow_succ_r in Hx by lia.
      split; [apply Z.div_pos; lia|apply Z.div_lt_upper_bound; lia]. }
    exists (ds ++ [chr "0" + x mod 10]). split_and!.
    + by rewrite E, <- app_assoc.
    + apply Forall_app. auto.
    + rewrite length_app. simpl. lia.
    + rewrite length_app. simpl. lia.
    + intros r. rewrite foldl_app, V. simpl. unfold atou_step, zlength. rewrite length_app. simpl.
      rewrite Nat2Z.inj_add, Z.pow_add_r by lia. simpl. pose proof (Z.div_mod x 10). lia.
Qed.

Lemma put_d_spec x : 0 <= x < 10 ^ 6 ->
  Forall (fun d => is_digit d = true) (put_d x) /\ 1 <= zlength (put_d x) <= 6 /\ simple_atou (put_d x) = x.
Proof.
  intros Hx. destruct (decimal_spec 6 10 x [] ltac:(lia) Hx) as (ds & E & F & L & V).
  unfold put_d. rewrite E, app_nil_r. unfold zlength. split_and!; [done|lia..|].
  unfold simple_atou, zlength. replace (_ || _) with false by (symmetry; lia).
  replace (forallb is_digit ds) with true.
  - exact (V 0).
  - symmetry. apply forallb_forall. intros d Hd. rewrite Forall_forall in F. apply F. by apply list_elem_of_In.
Qed.

Lemma scan_arg_digits ds rest : Forall (fun d => is_digit d = true) ds ->
  (rest = [] \/ exists r, rest = chr ";" :: r) ->
  scan_arg (ds ++ rest) = Some (ds, match rest with [] => [] | _ :: r => r end).
Proof.
  intros F Hr. induction F as [|d ds Hd F IH].
  - destruct Hr as [->|[r ->]]; done.
  - simpl. destruct (Z.eqb_spec d (chr ";")) as [->|]; [done|]. by rewrite Hd, IH.
Qed.

Lemma get_esc_uint_1_put x rest : 0 <= x < 10 ^ 6 -> (rest = [] \/ exists r, rest = chr ";" :: r) ->
  get_esc_uint_1 (put_d x ++ rest) = Some (x, match rest with [] => [] | _ :: r => r end).
Proof.
  intros Hx Hr. destruct (put_d_spec x Hx) as (F & L & A). unfold get_esc_uint_1, get_esc_arg.
  rewrite scan_arg_digits by done. rewrite bool_decide_eq_false_2.
  - rewrite A. unfold UINT_MAX. destruct (Z.eqb_spec x (2 ^ 32 - 1)); [lia|done].
  - intros E. rewrite E in L. unfold zlength in L. simpl in L. lia.
Qed.

(** ** Feeding a control sequence *)

Definition param (ch : Z) : bool := is_digit ch || (ch =? chr ";").

Lemma csi_feed bytes : forall c, state c = CSI -> pending_wrap c = false ->
  Forall (fun b => param b = true) bytes -> zlength (esc_buf c) + zlength bytes <= 60 ->
  console_write c bytes = Done (set_esc (esc_buf c ++ bytes) c).
Proof.
  unfold zlength. induction bytes as [|b bytes IH]; intros c Hs Hp F L.
  - simpl. rewrite app_nil_r. by destruct c.
  - inversion F as [|? ? Hb F']; subst. cbn [length] in L.
    assert (Hb' : 48 <= b <= 59) by (unfold param, is_digit in Hb; change (chr "0") with 48 in Hb;
      change (chr "9") with 57 in Hb; change (chr ";") with 59 in Hb; lia).
    assert (E : console_write_char c b = Done (set_esc (esc_buf c ++ [b]) c)).
    { unfold console_write_char, sequence_byte, csi_byte, into_esc_buf, isalpha, isc, zlength, ESC_BUF_SIZE.
      rewrite Hs. cbv [chr N_of_ascii N_of_digits Z.of_N N.add N.mul Pos.add Pos.mul is_normal]. simpl.
      repeat match goal with |- context [b =? ?x] => replace (b =? x) with false by (symmetry; lia) end.
      repeat match goal with |- context [?x <=? b] => replace (x <=? b) with false by (symmetry; lia) end.
      simpl. replace (_ >=? _) with false by (symmetry; lia). simpl. destruct c; simpl in *. by subst. }
    cbn [console_write]. rewrite E. cbn [obind]. rewrite IH; [|done..|].
    + simpl. rewrite <- app_assoc. simpl. by destruct c.
    + simpl. rewrite length_app. simpl. lia.
Qed.

Lemma console_write_app l1 l2 c :
  console_write c (l1 ++ l2) = obind (console_write c l1) (fun c => console_write c l2).
Proof.
  revert c. induction l1 as [|ch l1 IH]; intros c; simpl; [done|].
  destruct (console_write_char c ch); simpl; auto.
Qed.

(** An escape sequence in the normal state is its control function. *)
Lemma csi_run c bytes fin : state c = NORMAL -> Forall (fun b => param b = true) bytes ->
  zlength bytes <= 60 -> (isalpha fin || isc fin "@") = true ->
  console_write c (27 :: chr "[" :: bytes ++ [fin]) =
    obind (csi fin (set_esc bytes (set_state CSI (set_pending false c))))
      (fun c => Done (set_pending false (set_state NORMAL c))).
Proof.
  intros Hs F L Hf. cbn [console_write].
  set (c0 := set_esc [] (set_state CSI (set_pending false c))).
  assert (E0 : obind (console_write_char c 27) (fun c => console_write_char c (chr "[")) = Done c0).
  { destruct c; simpl in Hs; subst; reflexivity. }
  transitivity (obind (obind (console_write_char c 27) (fun c => console_write_char c (chr "[")))
                  (fun c => console_write c (bytes ++ [fin]))).
  { by destruct (console_write_char c 27). }
  rewrite E0. cbn [obind]. rewrite console_write_app, csi_feed; [|done..|unfold zlength in *; simpl; lia]. cbn [obind console_write].
  unfold console_write_char. replace (fin =? 0) with false
    by (symmetry; unfold isalpha, isc in Hf; change (chr "@") with 64 in Hf; change (chr "a") with 97 in Hf;
        change (chr "A") with 65 in Hf; lia).
  cbn [is_normal state set_esc c0 set_state andb]. unfold sequence_byte. cbn [state set_esc c0 set_state].
  assert (Hx : isc fin "?" = false /\ isc fin ">" = false /\ isc fin "!" = false).
  { unfold isalpha, isc in *. change (chr "@") with 64 in Hf; change (chr "a") with 97 in Hf;
      change (chr "A") with 65 in Hf. change (chr "?") with 63. change (chr ">") with 62. change (chr "!") with 33. lia. }
  destruct Hx as (-> & -> & ->). unfold csi_byte. rewrite Hf. simpl. fold c0.
  destruct (csi fin _); reflexivity.
Qed.

(** ** Printing on a line *)

(** A console about to print unmapped text at the cursor. *)
Record typing (c : console) : Prop := {
  ty_wf : wf c;
  ty_normal : state c = NORMAL;
  ty_pending : pending_wrap c = false;
  ty_g0 : g0 (vw c) <> chr "0";
}.

(** The attributes that a character is drawn with. *)
Definition same_attrs (c c' : console) : Prop := forall ch, makec c' ch = makec c ch.

Lemma after_char_mem c : mem (after_char c) = mem c /\ py (after_char c) = py c /\ state (after_char c) = state c /\
  same_attrs c (after_char c) /\ g0 (vw (after_char c)) = g0 (vw c) /\
  px (after_char c) = Z.min (px c) 80 /\ pending_wrap (after_char c) = (px c >=? 80) || pending_wrap c.
Proof.
  unfold after_char, move_cursor, same_attrs, N_COL.
  destruct (px c >=? 80) eqn:E; case_match; split_and!; try done; unfold px in *; simpl in *; lia.
Qed.

Lemma print_one c ch : typing c -> px c < 80 -> 32 <= ch <= 126 ->
  exists c', console_write_char c ch = Done c' /\ wf c' /\ state c' = NORMAL /\ g0 (vw c') = g0 (vw c) /\
    same_attrs c c' /\ py c' = py c /\ px c' = px c + 1 /\ pending_wrap c' = (px c + 1 =? 80) /\
    forall i j, 0 <= i < 25 -> 0 <= j < 80 ->
      cell (mem c') i j = if decide (i = py c /\ j = px c) then makec c ch else cell (mem c) i j.
Proof.
  intros [W Hs Hp Hg] Hx Hc. view_facts W.
  unfold console_write_char. rewrite Hs. replace (ch =? 0) with false by (symmetry; lia).
  replace (ch =? 27) with false by (symmetry; lia). simpl.
  rewrite write_char_printable by lia. unfold do_wrap. rewrite Hp. cbn [obind].
  unfold put_glyph. replace (g0 (vw c) =? chr "0") with false by (symmetry; lia). simpl.
  replace (can_rep ch) with true by (unfold can_rep; lia).
  set (c1 := set_vw (graphic ch (vw c)) c).
  assert (W1 : wf c1) by (apply wf_set_vw, wf_graphic; [done|apply W]).
  change (px c1) with (px c). change (py c1) with (py c). change (makec c1 ch) with (makec c ch).
  assert (D : wp (draw (memsetw (N_COL * py c + px c) 1 (makec c ch)) c1) (fun c' => drew c1 c' /\
     forall k, 0 <= k < SCREEN_BUF_SIZE -> byte_at (mem c') k =
       if decide (N_COL * py c + px c <= k < N_COL * py c + px c + 1) then makec c ch else byte_at (mem c1) k))
    by (apply draw_memsetw; unfold px, py, N_COL, SCREEN_BUF_SIZE in *; [done|lia..]).
  apply wp_done in D as (c2 & E2 & [[W2 R2] M2]).
  rewrite E2. cbn [obind].
  assert (E : vw c2 = graphic ch (vw c) /\ state c2 = state c /\ pending_wrap c2 = false)
    by (rewrite R2; split_and!; done).
  destruct E as (Ev & Es & Ep).
  assert (Exy : px c2 = px c /\ py c2 = py c) by (unfold px, py; rewrite Ev; done). destruct Exy as [Ex Ey].
  set (c3 := goto (py c2) (u32 (px c2 + 1)) c2).
  assert (E3 : px c3 = px c + 1 /\ py c3 = py c).
  { unfold c3. unfold px at 1, py at 2. simpl. rewrite Ex, u32_small; [done|unfold px in *; lia]. }
  destruct E3 as [E3x E3y]. destruct (after_char_mem c3) as (Am & Ay & As & Aa & Ag & Ax & Ap).
  assert (W3 : wf c3).
  { unfold c3. rewrite Ex, Ey, u32_small by (unfold px in *; lia). apply wf_goto; unfold px, py in *; [done|lia..]. }
  exists (after_char c3). split; [done|]. split; [by apply after_char_wf_here|].
  assert (E3 : state c3 = NORMAL /\ g0 (vw c3) = g0 (vw c) /\ pending_wrap c3 = false).
  { split_and!; [by rewrite <- Hs, <- Es|unfold c3; simpl; by rewrite Ev|done]. }
  destruct E3 as (S3 & G3 & P3). rewrite As, Ag, Ay, Ax, Ap, E3x, E3y, P3, orb_false_r.
  split_and!; [done..| |done|lia|lia|].
  - intros d. rewrite Aa. unfold makec, c3. cbn [vw goto set_vw at_pos color_inverted bold fg_color bg_color].
    by rewrite Ev.
  - intros i j Hi Hj. rewrite Am. change (mem c3) with (mem c2). unfold cell, SCREEN_BUF_SIZE in *.
    rewrite M2 by lia. unfold N_COL, px, py in *.
    destruct (decide _) as [A|A], (decide _) as [B|B]; try done; lia.
Qed.

Lemma print_line text : forall c, typing c -> px c < 80 -> Forall (fun ch => 32 <= ch <= 126) text ->
  px c + zlength text <= 80 ->
  exists c', console_write c text = Done c' /\ wf c' /\ py c' = py c /\ px c' = px c + zlength text /\
    pending_wrap c' = (px c + zlength text =? 80) /\ same_attrs c c' /\
    forall i j, 0 <= i < 25 -> 0 <= j < 80 ->
      cell (mem c') i j = if decide (i = py c /\ px c <= j < px c + zlength text)
                          then makec c (byte_at text (j - px c)) else cell (mem c) i j.
Proof.
  unfold zlength. induction text as [|ch text IH]; intros c T Hx F L.
  - exists c. simpl. rewrite Z.add_0_r. split; [done|]. split; [apply T|]. split_and!; try done.
    + rewrite (ty_pending _ T). symmetry. lia.
    + intros i j Hi Hj. destruct (decide _); [lia|done].
  - inversion F as [|? ? Hc F']; subst.
    destruct (print_one c ch T Hx Hc) as (c1 & E1 & W1 & S1 & G1 & A1 & Y1 & X1 & P1 & M1).
    cbn [length] in L. cbn [console_write]. rewrite E1. cbn [obind].
    destruct text as [|ch2 text].
    + exists c1. simpl. split_and!; try done. intros i j Hi Hj. rewrite M1 by done.
      destruct (decide _) as [B|B], (decide _) as [D|D]; try done; try lia.
      destruct B as [_ ->]. by rewrite Z.sub_diag.
    + cbn [length] in L. destruct (IH c1) as (c2 & E2 & W2 & Y2 & X2 & P2 & A2 & M2).
      * split; [done..|rewrite P1; lia|rewrite G1; exact (ty_g0 _ T)].
      * lia.
      * done.
      * cbn [length]. lia.
      * exists c2. cbn [length] in *. split; [done|]. split; [done|].
        split; [congruence|]. split; [lia|]. split; [rewrite P2; f_equal; lia|].
        split; [intros d; by rewrite A2, A1|].
        intros i j Hi Hj. rewrite M2 by done. rewrite Y1, X1.
        destruct (decide (i = py c /\ px c + 1 <= j < _)) as [B|B].
        -- rewrite decide_True by lia. rewrite A1. f_equal. unfold byte_at.
           replace (Z.to_nat (j - px c)) with (S (Z.to_nat (j - (px c + 1)))) by lia. done.
        -- rewrite M1 by done. destruct (decide (i = py c /\ j = px c)) as [D|D].
           ++ rewrite decide_True by lia. f_equal. destruct D as [_ ->]. by rewrite Z.sub_diag.
           ++ rewrite decide_False by lia. done.
Qed.

(** ** The VGA memory *)

(** When an operation returns, [Q] holds. *)
Definition wlp {A} (o : outcome A) (Q : A -> Prop) : Prop := match o with Done a => Q a | _ => True end.

Lemma wlp_bind {A B} (m : outcome A) (k : A -> outcome B) P Q :
  wlp m P -> (forall a, P a -> wlp (k a) Q) -> wlp (obind m k) Q.
Proof. destruct m; simpl; auto. Qed.

(** The memory follows the buffer of a console that is shown, and is left alone
    by one that is not. *)
Definition shows (c c' : console) : Prop :=
  present c' = present c /\
  if present c then video c = mem c -> video c' = mem c'
  else video c' = video c /\ hw_cursor c' = hw_cursor c.

Lemma shows_refl c : shows c c.
Proof. split; [done|]. by destruct (present c). Qed.

Lemma shows_trans c1 c2 c3 : shows c1 c2 -> shows c2 c3 -> shows c1 c3.
Proof.
  intros [P1 H1] [P2 H2]. split; [congruence|]. rewrite P1 in H2. destruct (present c1); [auto|].
  destruct H1, H2; split; congruence.
Qed.

Lemma wlp_shows c1 c2 o : shows c1 c2 -> wlp o (shows c2) -> wlp o (shows c1).
Proof. intros H1 H2. destruct o; simpl in *; try done. by eapply shows_trans. Qed.

Lemma draw_shows f c : wlp (draw f c) (shows c).
Proof.
  unfold draw. destruct (f (mem c)) as [m| |] eqn:E; simpl; try done.
  destruct (present c) eqn:P.
  - destruct (f (video c)) as [v| |] eqn:E2; simpl; try done. split; [done|]. rewrite P. simpl. congruence.
  - simpl. split; [done|]. by rewrite P.
Qed.

Lemma move_cursor_shows c c' : shows c c' -> shows c (move_cursor c').
Proof.
  intros [P H]. unfold move_cursor. destruct (present c') eqn:E; [|split; [congruence|exact H]].
  split; [by simpl; congruence|]. assert (E' : present c = true) by congruence. rewrite E' in *. exact H.
Qed.

Lemma show_screen_shows c m v : shows c (show_screen (set_vw v (set_screen m (video c) c))).
Proof.
  unfold show_screen, move_cursor. simpl. destruct (present c) eqn:E; simpl; rewrite ?E; split; simpl; by rewrite ?E.
Qed.

Lemma shows_same c c' : present c' = present c -> video c' = video c -> hw_cursor c' = hw_cursor c ->
  mem c' = mem c -> shows c c'.
Proof. intros P V H M. split; [done|]. destruct (present c); [congruence|done]. Qed.

(** A step that only sets fields of the console. *)
Ltac keeps := solve [apply shows_refl | assumption | apply shows_same; reflexivity
                     | apply move_cursor_shows; first [assumption | apply shows_same; reflexivity]].
Ltac keep_step := first
  [ keeps
  | apply draw_shows
  | match goal with
    | |- wlp (obind _ _) _ => eapply wlp_bind; [|let H := fresh in intros ? H; eapply wlp_shows; [exact H|]]
    | |- wlp (if ?b then _ else _) _ => destruct b
    | |- wlp (Done _) _ => cbn [wlp]
    | |- wlp Hang _ => exact I
    | |- shows _ (if ?b then _ else _) => destruct b
    end ].

Lemma erase_line_shows s e c : wlp (__erase_line s e c) (shows c).
Proof. unfold __erase_line. repeat keep_step. Qed.

Lemma scroll_shows s e up c : wlp (__scroll s e up c) (shows c).
Proof. unfold __scroll. cbv zeta. repeat keep_step. Qed.

Lemma delete_one_char_shows y x c : wlp (delete_one_char y x c) (shows c).
Proof. unfold delete_one_char. cbv zeta. repeat keep_step. Qed.

Lemma insert_one_char_shows y x c : wlp (insert_one_char y x c) (shows c).
Proof. unfold insert_one_char. cbv zeta. repeat keep_step. Qed.

Lemma goto_scroll_shows y x s e up c : wlp (__scroll s e up (goto y x c)) (shows c).
Proof. apply (scroll_shows s e up (goto y x c)). Qed.

Lemma do_wrap_shows ch c : wlp (do_wrap ch c) (shows c).
Proof. unfold do_wrap. cbv zeta. repeat first [apply goto_scroll_shows | keep_step]. Qed.

Lemma after_char_shows c c' : shows c c' -> shows c (after_char c').
Proof. intros H. unfold after_char. apply move_cursor_shows. by destruct (_ >=? _). Qed.

Lemma put_glyph_shows ch tr c : wlp (put_glyph ch tr c) (shows c).
Proof.
  unfold put_glyph. cbv zeta. set (x := if _ && _ then _ else _). set (c1 := if can_rep x then _ else _).
  eapply wlp_shows with (c2 := c1); [unfold c1; destruct (can_rep x); keeps|].
  repeat keep_step.
Qed.

Lemma write_char_shows ch tr c : wlp (write_char ch tr c) (shows c).
Proof.
  unfold write_char. eapply wlp_bind; [apply do_wrap_shows|]. intros c1 H1. eapply wlp_shows; [exact H1|].
  repeat first [apply after_char_shows; keeps | apply put_glyph_shows | keep_step].
  unfold newline. cbv zeta. repeat first [apply goto_scroll_shows | keep_step].
Qed.

Lemma repeat_shows n f c : (forall c, wlp (f c) (shows c)) -> wlp (repeat n f c) (shows c).
Proof.
  intros Hf. revert c. induction n as [|n IH]; intros c; simpl; [apply shows_refl|].
  eapply wlp_bind; [apply Hf|]. intros c' H. eapply wlp_shows; [exact H|]. apply IH.
Qed.

Lemma use_alt_shows c : wlp (use_alt_screen_buffer c) (shows c).
Proof.
  unfold use_alt_screen_buffer. cbv zeta. destruct (memsetw _ _ _ _) as [m| |]; simpl; try done.
  exact (show_screen_shows (console_soft_reset (set_orig (mem c) (vw c) c)) m _).
Qed.

Lemma csi_q_shows ch c : wlp (csi_q ch c) (shows c).
Proof.
  unfold csi_q. destruct (ch =? _); [|destruct (ch =? _)]; [| |apply shows_refl]; generalize (args c); intros l.
  - cbn [wlp]. revert c. induction l as [|a l IH]; intros c; simpl; [apply shows_refl|].
    eapply shows_trans; [|apply IH]. unfold mode_l, use_normal_screen_buffer, hide_cursor.
    repeat match goal with |- shows _ (if ?b then _ else _) => destruct b end; try keeps.
    exact (show_screen_shows (set_vw (graphic 0 (vw c)) c) (orig_mem c) (orig c)).
  - revert c. induction l as [|a l IH]; intros c; simpl; [apply shows_refl|].
    eapply wlp_bind; [|intros c' H; eapply wlp_shows; [exact H|apply IH]].
    unfold mode_h. repeat first [apply use_alt_shows | keep_step].
Qed.

Lemma csi_m_shows c : shows c (csi_m c).
Proof.
  assert (H : forall a c, shows c (do_csi_m a c)).
  { intros a c'. unfold do_csi_m. cbv zeta.
    repeat match goal with |- shows _ (if ?b then _ else _) => destruct b end; keeps. }
  unfold csi_m. destruct (args c) as [|a l]; [apply H|]. generalize (a :: l). clear a l. intros l.
  revert c. induction l as [|a l IH]; intros c; simpl; [apply shows_refl|].
  eapply shows_trans; [apply H|apply IH].
Qed.

Lemma csi_pos_shows c : shows c (csi_H c) /\ shows c (csi_r c).
Proof.
  unfold csi_H, csi_r. split; destruct (get_esc_uint_2 (esc_buf c)) as [[a b]|]; unfold set_pos; try keeps;
    (destruct (_ && _); keeps).
Qed.

Lemma csi_ABCD_shows ch c : shows c (csi_ABCD ch c).
Proof.
  unfold csi_ABCD. apply move_cursor_shows. cbv zeta.
  repeat match goal with |- shows _ (if ?b then _ else _) => destruct b end; keeps.
Qed.

Lemma csi_n_shows c : wlp (csi_n c) (shows c).
Proof. unfold csi_n, tty_receive_s. repeat case_match; cbn [wlp]; try keeps; done. Qed.

Lemma csi_shows ch c : wlp (csi ch c) (shows c).
Proof.
  unfold csi. destruct (state c); try apply csi_q_shows;
    repeat match goal with |- wlp (if ?b then _ else _) _ => destruct b end; cbn [wlp];
    try keeps;
    try apply csi_m_shows; try apply csi_pos_shows; try apply csi_ABCD_shows; try apply csi_n_shows;
    unfold csi_G, csi_d, csi_s, csi_u, csi_J, csi_K, csi_L, csi_M, csi_P, csi_X, csi_at, csi_c,
      csi_r, csi_b, csi_S, tty_receive_s, clear_screen, erase_screen, erase_line, erase_line_left, erase_line_right,
      set_pos; cbv zeta;
    repeat first
      [ apply scroll_shows | apply erase_line_shows | apply delete_one_char_shows | apply insert_one_char_shows
      | apply write_char_shows | apply repeat_shows; intros ? | keep_step ].
Qed.

(** A full reset of a console that is shown, with other than the default
    attributes: the buffer is cleared with the default ones, the VGA memory was
    with the old. *)
Definition default_space : Z := 0x0720.
Definition discolours (c : console) (ch : Z) : bool :=
  match state c with
  | ESCAPE => present c && (isc ch ")" || isc ch "c") && negb (SPACE c =? default_space)
  | _ => false
  end.

Fixpoint faithful (c : console) (buf : list Z) : bool :=
  match buf with
  | [] => true
  | ch :: buf' => negb (discolours c ch) &&
                  match console_write_char c ch with Done c' => faithful c' buf' | _ => true end
  end.

Lemma memsetw_twice v l : match memsetw 0 SCREEN_BUF_SIZE v l with Done l' => memsetw 0 SCREEN_BUF_SIZE v l' = Done l' | _ => False end.
Proof.
  assert (E : forall l, memsetw 0 SCREEN_BUF_SIZE v l = Done (replicate 2000 v ++ drop 2000 l)) by reflexivity.
  rewrite !E. reflexivity.
Qed.

Lemma console_reset_shows c m : m = mem c \/ present c = false -> memsetw 0 SCREEN_BUF_SIZE default_space m = Done m ->
  wlp (c' <~ console_reset (set_screen m (video c) c) ;; Done (move_cursor c')) (shows c).
Proof.
  intros Hm E. unfold console_reset. cbv zeta. set (c1 := goto 0 0 _).
  change (SPACE c1) with default_space. change (mem c1) with m. rewrite E. cbn [obind wlp].
  apply move_cursor_shows. split; [done|]. simpl. destruct Hm as [->|P].
  - by destruct (present c).
  - by rewrite P.
Qed.

Lemma reset_screen_shows c : (present c = true -> SPACE c = default_space) -> wlp (reset_screen c) (shows c).
Proof.
  intros HS. unfold reset_screen, clear_screen, erase_screen.
  change (u32 (N_COL * (N_ROW - 1 + 1 - 0))) with SCREEN_BUF_SIZE. change (N_COL * 0) with 0.
  set (f := memsetw 0 SCREEN_BUF_SIZE (SPACE c)).
  eapply wlp_bind with (P := fun c1 => shows c c1 /\ f (mem c1) = Done (mem c1)).
  - pose proof (draw_shows f c) as D. unfold draw in *.
    pose proof (memsetw_twice (SPACE c) (mem c)) as Hm. fold f in Hm.
    destruct (f (mem c)) as [m| |]; [|destruct Hm..]. cbn [obind] in *.
    destruct (if present c then _ else _); cbn [obind wlp] in *; done.
  - intros c1 [H1 E1]. eapply wlp_shows; [exact H1|]. pose proof H1 as [P1 _].
    destruct (present c1) eqn:P.
    + unfold f in E1. rewrite HS in E1 by congruence.
      assert (Ec : c1 = set_screen (mem c1) (video c1) c1) by (by destruct c1). rewrite Ec.
      exact (console_reset_shows c1 (mem c1) (or_introl eq_refl) E1).
    + unfold console_reset. cbv zeta. destruct (memsetw _ _ _ _) as [m| |]; cbn [obind wlp]; try done.
      apply move_cursor_shows. split; [done|]. by rewrite P.
Qed.

Lemma escape_shows ch c : present c && (isc ch ")" || isc ch "c") && negb (SPACE c =? default_space) = false ->
  wlp (escape ch c) (shows c).
Proof.
  intros H. unfold escape, esc_D, esc_M. cbv zeta.
  repeat match goal with |- wlp (if ?b then _ else _) _ => destruct b eqn:? end; try solve [cbn [wlp]; keeps].
  - eapply wlp_bind; [apply (reset_screen_shows (set_state CHARSET_G1 c))|].
    + intros P. change (SPACE (set_state CHARSET_G1 c)) with (SPACE c).
      change (present (set_state CHARSET_G1 c)) with (present c) in P. rewrite P in H. simpl in H. lia.
    + intros c' H'. cbn [wlp]. eapply shows_trans; [|eapply shows_trans; [exact H'|keeps]]. keeps.
  - eapply wlp_bind; [apply reset_screen_shows; intros P; rewrite P, orb_true_r in H; simpl in H; lia|].
    intros c' H'. cbn [wlp]. eapply shows_trans; [exact H'|keeps].
  - repeat first [apply goto_scroll_shows | keep_step].
  - repeat first [apply goto_scroll_shows | keep_step].
Qed.

Lemma console_write_char_shows c ch : discolours c ch = false -> wlp (console_write_char c ch) (shows c).
Proof.
  intros H. unfold console_write_char. destruct (ch =? 0); [apply shows_refl|].
  destruct (_ && _); [apply write_char_shows|].
  eapply wlp_bind; [|intros c' H'; cbn [wlp]; eapply shows_trans; [exact H'|keeps]].
  assert (Hb : wlp (csi_byte ch c) (shows c)).
  { unfold csi_byte, into_esc_buf. destruct (_ || _).
    - eapply wlp_bind; [apply csi_shows|]. intros c' H'. cbn [wlp]. eapply shows_trans; [exact H'|keeps].
    - destruct (_ >=? _); cbn [wlp]; keeps. }
  unfold sequence_byte. unfold discolours in H. destruct (state c); try exact Hb; try (apply escape_shows; exact H);
    repeat match goal with |- context [if ?b then _ else _] => destruct b end; cbn [wlp]; first [exact Hb|keeps].
Qed.

Lemma console_write_shows buf : forall c, faithful c buf = true -> wlp (console_write c buf) (shows c).
Proof.
  induction buf as [|ch buf IH]; intros c H; simpl; [apply shows_refl|]. simpl in H.
  apply andb_true_iff in H as [H1 H2]. apply negb_true_iff in H1.
  pose proof (console_write_char_shows c ch H1) as H3. destruct (console_write_char c ch) as [c'| |]; simpl in *; try done.
  eapply wlp_shows; [exact H3|]. by apply IH.
Qed.

(** A console that is not shown is always faithful. *)
Lemma absent_faithful buf : forall c, present c = false -> faithful c buf = true.
Proof.
  induction buf as [|ch buf IH]; intros c P; simpl; [done|].
  assert (D : discolours c ch = false) by (unfold discolours; rewrite P; by destruct (state c)).
  rewrite D. simpl. pose proof (console_write_char_shows c ch D) as H.
  destruct (console_write_char c ch) as [c'| |]; try done. apply IH. destruct H. congruence.
Qed.

(** ESC [ y ; x H *)
Definition cursor_address (y x : Z) : list Z :=
  27 :: chr "[" :: (put_d y ++ chr ";" :: put_d x) ++ [chr "H"].

(** ** The theorems *)

(** text that fits on the line is printed at the cursor: the bytes are the
    characters of the cells from the cursor on, with the current attributes, no
    other cell changes, and the cursor stands behind the text, waiting to wrap
    when the line is full. *)
Theorem text_printed (c : console) (text : list Z) :
  typing c -> px c < 80 -> Forall (fun ch => 32 <= ch <= 126) text -> px c + zlength text <= 80 ->
  exists c', console_write c text = Done c' /\ wf c' /\
    py c' = py c /\ px c' = px c + zlength text /\ pending_wrap c' = (px c + zlength text =? 80) /\
    forall i j, 0 <= i < 25 -> 0 <= j < 80 ->
      cell (mem c') i j = if decide (i = py c /\ px c <= j < px c + zlength text)
                          then makec c (byte_at text (j - px c)) else cell (mem c) i j.
Proof.
  intros T Hx F L. destruct (print_line text c T Hx F L) as (c' & E & W & Y & X & P & _ & M). eauto 10.
Qed.

Lemma text_printed_witness :
  typing start_console /\
  exists c', console_write start_console (text "login: ") = Done c' /\ wf c' /\ px c' = 7 /\
    cell (mem c') 0 6 = 0x0720 /\ cell (mem c') 0 4 = 0x076e.
Proof.
  assert (T : typing start_console) by (split; [apply start_console_wf|done..]). split; [exact T|].
  destruct (text_printed start_console (text "login: ") T) as (c' & E & W & Y & X & P & M).
  - reflexivity.
  - repeat constructor; done.
  - unfold zlength. simpl. change (px start_console) with 0. lia.
  - exists c'. split; [exact E|]. split; [exact W|]. split; [exact X|]. split; rewrite M by lia; reflexivity.
Defined.

(** a decimal cursor address is read back: for all numbers of up to six
    digits, ESC [ y ; x H puts the cursor on row y - 1 and column x - 1, clipped
    to the screen, changes no cell and ends in the normal state. *)
Theorem cursor_addressed (c : console) (y x : Z) :
  state c = NORMAL -> 0 <= y < 10 ^ 6 -> 0 <= x < 10 ^ 6 ->
  exists c', console_write c (cursor_address y x) = Done c' /\
    py c' = Z.min (Z.max (y - 1) 0) 24 /\ px c' = Z.min (Z.max (x - 1) 0) 79 /\
    mem c' = mem c /\ state c' = NORMAL.
Proof.
  intros Hs Hy Hx. destruct (put_d_spec y Hy) as (Fy & Ly & _). destruct (put_d_spec x Hx) as (Fx & Lx & _).
  assert (Fp : forall ds, Forall (fun d => is_digit d = true) ds -> Forall (fun b => param b = true) ds)
    by (intros ds Fd; eapply Forall_impl; [exact Fd|]; unfold param; intros d ->; done).
  unfold cursor_address. rewrite csi_run; [|done| | |done].
  - set (c1 := set_esc _ _). change (csi (chr "H") c1) with (Done (csi_H c1)). cbn [obind].
    eexists. split; [reflexivity|]. unfold csi_H.
    change (esc_buf c1) with (put_d y ++ chr ";" :: put_d x). unfold get_esc_uint_2.
    rewrite get_esc_uint_1_put by eauto. rewrite <- (app_nil_r (put_d x)), get_esc_uint_1_put by eauto.
    assert (E : forall z, 0 <= z < 10 ^ 6 -> s32 (u32 (z - 1)) = z - 1).
    { intros z Hz. unfold s32, u32. rewrite Zplus_mod_idemp_l, Z.mod_small by lia. lia. }
    rewrite !E by done. unfold set_pos, move_cursor.
    destruct (present _); cbn; done.
  - apply Forall_app. split; [by apply Fp|]. constructor; [done|by apply Fp].
  - unfold zlength in *. rewrite length_app. cbn [length]. lia.
Qed.

Lemma cursor_addressed_witness :
  exists c', console_write start_console (27 :: text "[12;40H") = Done c' /\ py c' = 11 /\ px c' = 39.
Proof.
  destruct (cursor_addressed start_console 12 40 eq_refl ltac:(lia) ltac:(lia)) as (c' & E & Y & X & _).
  exists c'. split; [exact E|]. split; [exact Y|exact X].
Defined.

(** ESC [ n M and ESC [ n L move lines: with the cursor on row r inside the
    scrolling region, which ends on row e, deleting n lines puts what was n rows
    lower on every row from r to e, inserting what was n rows higher, the rows
    without a source become blank, the others stay, and the cursor goes to
    the first column. *)
Theorem lines_moved (c : console) (n : Z) (up : bool) :
  wf c -> state c = NORMAL -> in_scrolling_region c (py c) = true -> 0 <= n < 10 ^ 6 ->
  exists c', console_write c (27 :: chr "[" :: put_d n ++ [if up then chr "M" else chr "L"]) = Done c' /\
    py c' = py c /\ px c' = 0 /\
    forall i j, 0 <= i < 25 -> 0 <= j < 80 ->
      cell (mem c') i j = shifted (py c) (scr_end (vw c)) n up (SPACE c) (cell (mem c)) i j.
Proof.
  intros W Hs Hr Hn. destruct (put_d_spec n Hn) as (F & L & _). view_facts W.
  rewrite csi_run; [|done| |lia|by destruct up].
  2: { eapply Forall_impl; [exact F|]. unfold param. intros d ->. done. }
  set (c1 := set_esc _ _). assert (W1 : wf c1) by (apply wf_set_esc, wf_set_state, wf_set_pending, W).
  assert (Ea : arg_or 1 c1 = n).
  { unfold arg_or. change (esc_buf c1) with (put_d n). rewrite <- (app_nil_r (put_d n)), get_esc_uint_1_put by auto. done. }
  assert (E : csi (if up then chr "M" else chr "L") c1 =
    (c2 <~ repeat (Z.to_nat n) (fun c => __scroll (py c) (scr_end (vw c)) up c) c1 ;; Done (set_pos (s32 (py c2)) 0 c2))).
  { rewrite <- Ea. destruct up; unfold csi; cbn [state c1 set_esc set_state]; unfold csi_L, csi_M;
      change (in_scrolling_region c1 (py c1)) with (in_scrolling_region c (py c)); by rewrite Hr. }
  unfold in_scrolling_region in Hr.
  assert (D := repeat_scroll (Z.to_nat n) (py c) (scr_end (vw c)) up
    (fun c => __scroll (py c) (scr_end (vw c)) up c) c1 W1).
  apply wp_done in D as (c2 & E2 & [[W2 R2] M2]); [| |done|].
  2: { change (vw c1) with (vw c). lia. }
  2: { intros c' [_ R']. unfold py. by rewrite (redrawn_vw _ _ R'). }
  assert (Ey : py c2 = py c) by (unfold py; rewrite (redrawn_vw _ _ R2); done).
  rewrite E, E2. cbn [obind]. eexists. split; [reflexivity|].
  rewrite Ey, s32_small by (unfold py; lia). unfold set_pos, move_cursor, N_ROW, N_COL.
  rewrite Z2Nat.id in M2 by lia.
  destruct (present _); (split_and!; [unfold py in *; cbn; lia|reflexivity|exact M2]).
Qed.

Lemma lines_moved_witness :
  exists c, console_write start_console (text "one" ++ [13; 10] ++ text "two" ++ 27 :: text "[H") = Done c /\
    wf c /\ exists c', console_write c (27 :: text "[1M") = Done c' /\ cell (mem c') 0 1 = 0x0777 /\
                      cell (mem c') 1 1 = 0x0720.
Proof.
  pose proof (console_write_wf start_console (text "one" ++ [13; 10] ++ text "two" ++ 27 :: text "[H")
    start_console_wf ltac:(vm_compute; reflexivity) ltac:(vm_compute; reflexivity)) as W.
  destruct (console_write start_console _) as [c| |] eqn:E; [|destruct W..].
  exists c. split; [reflexivity|]. split; [exact W|]. vm_compute in E. injection E as <-.
  destruct (lines_moved _ 1 true W eq_refl eq_refl ltac:(lia)) as (c' & E' & _ & _ & M).
  exists c'. split; [exact E'|]. split; rewrite M by lia; reflexivity.
Defined.

(** A write to a console or a switch of the foreground.  What is written to the
    foreground never resets it with other than the default attributes. *)
Inductive console_step : consoles -> consoles -> Prop :=
  | step_write s k c buf s' :
      console_table s !! k = Some c ->
      (k = fg_console s -> faithful (on_screen s k c) buf = true) ->
      write_console s k buf = Done s' -> console_step s s'
  | step_switch s i s' : switch_fg_console s i = Some s' -> console_step s s'.

(** The VGA memory is the buffer of the console in the foreground. *)
Definition shown (s : consoles) : Prop :=
  fbcon s = false -> forall c, console_table s !! fg_console s = Some c -> vga s = mem c.

Lemma on_screen_write s k c buf : (k = fg_console s -> faithful (on_screen s k c) buf = true) ->
  wlp (console_write (on_screen s k c) buf) (shows (on_screen s k c)).
Proof.
  intros Hf. apply console_write_shows. destruct (decide (k = fg_console s)) as [E|E]; [auto|].
  apply absent_faithful. simpl. by rewrite bool_decide_eq_false_2.
Qed.

Lemma shown_write s k c buf s' : console_table s !! k = Some c ->
  (k = fg_console s -> faithful (on_screen s k c) buf = true) ->
  write_console s k buf = Done s' -> shown s -> shown s' /\
    (k <> fg_console s -> vga s' = vga s /\ vga_cursor s' = vga_cursor s).
Proof.
  intros Hk Hf. unfold write_console. rewrite Hk. pose proof (on_screen_write s k c buf Hf) as H.
  destruct (console_write (on_screen s k c) buf) as [c'| |]; try done. intros [= <-] Hs. destruct H as [P V].
  simpl in P, V. unfold shown. cbn [detach fbcon console_table fg_console vga vga_cursor].
  destruct (bool_decide (k = fg_console s) && negb (fbcon s)) eqn:B.
  - apply andb_true_iff in B as [B1 B2]. apply bool_decide_eq_true in B1. subst k. split; [|done].
    intros Hb c0 H0. rewrite list_lookup_insert_eq in H0 by (by apply lookup_lt_Some in Hk). injection H0 as <-.
    apply V, (Hs Hb _ Hk).
  - destruct V as [V1 V2]. split; [|done]. intros Hb c0 H0. rewrite Hb, andb_true_r in B.
    apply bool_decide_eq_false in B. rewrite list_lookup_insert_ne in H0 by done. rewrite V1. exact (Hs Hb _ H0).
Qed.

Lemma shown_switch s i s' : switch_fg_console s i = Some s' -> shown s -> shown s'.
Proof.
  unfold switch_fg_console. case_bool_decide; [|done]. case_bool_decide; [by intros [= <-]|].
  destruct (console_table s !! i) as [c|] eqn:Hi; [|done]. intros [= <-] _ Hb c0.
  cbn [detach fg_console console_table fbcon vga on_screen] in *. intros Hc.
  rewrite list_lookup_insert_eq in Hc by (by apply lookup_lt_Some in Hi). injection Hc as <-.
  unfold show_screen, on_screen, move_cursor. cbn. rewrite bool_decide_eq_true_2, Hb by done. done.
Qed.

(** C18: what the VGA memory shows is the buffer of the foreground console,
    through every sequence of writes to any of the consoles and of foreground
    switches, as long as no write resets the foreground console ([ESC c], or
    [ESC )] which falls through to it) while its attributes are not the default
    ones: that case is left out of the steps, and the lemma at the end of the
    file shows that it leaves other colours on the screen than in the buffer. *)
Theorem vga_shows_foreground (s s' : consoles) :
  shown s -> rtc console_step s s' -> shown s'.
Proof.
  intros H Hr. induction Hr as [s|s1 s2 s3 H1 H2 IH]; [done|]. apply IH.
  destruct H1 as [s k c buf s' Hk Hf E|s i s' E].
  - by apply (shown_write s k c buf s' Hk Hf E H).
  - by apply (shown_switch s i s').
Qed.

Definition two_consoles : consoles :=
  mkcons [start_console; start_console] 0 (mem start_console) 0 false.

Lemma vga_shows_foreground_witness :
  shown two_consoles /\ exists s, rtc console_step two_consoles s /\ shown s /\ fg_console s = 1%nat /\
    cell (vga s) 0 0 = 0x0762.
Proof.
  assert (H : shown two_consoles) by (intros _ c [= <-]; reflexivity). split; [exact H|].
  assert (E : match write_console two_consoles 1 (text "b") with
    | Done s1 => match switch_fg_console s1 1 with
                 | Some s2 => fg_console s2 = 1%nat /\ cell (vga s2) 0 0 = 0x0762
                 | None => False
                 end
    | _ => False
    end) by (vm_compute; split; reflexivity).
  destruct (write_console two_consoles 1 (text "b")) as [s1| |] eqn:W; [|destruct E..].
  destruct (switch_fg_console s1 1) as [s2|] eqn:S; [|destruct E]. destruct E as [F C]. exists s2.
  assert (R : rtc console_step two_consoles s2).
  { eapply rtc_l; [eapply (step_write two_consoles 1); [reflexivity|done|exact W]|].
    eapply rtc_l; [by apply step_switch with (i := 1%nat)|]. apply rtc_refl. }
  split; [exact R|]. split; [exact (vga_shows_foreground _ _ H R)|]. split; [exact F|exact C].
Defined.

(** the console cannot answer while its terminal echoes: a report request
    (ESC [ 6 n) or an identification request (ESC [ c) written in the normal state
    never returns, because the answer is echoed through the console whose lock
    the write holds. *)
Theorem report_hangs (c : console) :
  state c = NORMAL -> echo c = true ->
  console_write c (27 :: text "[6n") = Hang /\ console_write c (27 :: text "[c") = Hang.
Proof.
  intros Hs He. split.
  - change (27 :: text "[6n") with (27 :: chr "[" :: [chr "6"] ++ [chr "n"]).
    rewrite csi_run; [|done|by repeat constructor|done|done].
    set (c1 := set_esc _ _). change (csi (chr "n") c1) with (csi_n c1). unfold csi_n.
    change (get_esc_uint_1 (esc_buf c1)) with (Some (6, [] : list Z)). cbv beta iota zeta.
    unfold tty_receive_s. change (echo c1) with (echo c). by rewrite He.
  - change (27 :: text "[c") with (27 :: chr "[" :: [] ++ [chr "c"]).
    rewrite csi_run; [|done..]. set (c1 := set_esc _ _). change (csi (chr "c") c1) with (csi_c c1).
    unfold csi_c, tty_receive_s. change (echo c1) with (echo c). by rewrite He.
Qed.

Lemma report_hangs_witness : echo echoing = true /\ console_write echoing (27 :: text "[c") = Hang.
Proof. split; [reflexivity|]. exact (proj2 (report_hangs echoing eq_refl eq_refl)). Defined.

(** A reset with a red background leaves a red screen over a blank buffer. *)
Lemma reset_discolours :
  match console_write start_console (27 :: text "[41m" ++ 27 :: text "c") with
  | Done c => cell (video c) 0 0 = 0x4720 /\ cell (mem c) 0 0 = 0x0720
  | _ => False
  end.
Proof. vm_compute. split; reflexivity. Qed.

End ConsoleScreen.
