(* ===== verification/Tty.v ===== *)
(** * The terminal: line discipline, reads and writes ([fs/char/tty.c])

    The input queue of a terminal is a ring buffer; a driver is a state and its
    write function.  Both implementations of the line discipline are here: the
    one for interrupts, which echoes through the driver, and the atomic one of
    the pseudo terminals, which echoes into a bounded output buffer. *)
From S2P Require Import Prelude ByteQueue RingBuffer.

Module Tty.

Import RingBuffer (ring_buffer_write, ring_buffer_read, ring_buffer_pop, ring_buffer_full, ring_buffer_empty,
  ring_buffer_avail, ring_buffer_space, ring_buffer_clear).

(** ** Modes ([include/fs/tty/termios.h]) *)

Definition INLCR : Z := 0x40.
Definition IGNCR : Z := 0x80.
Definition ICRNL : Z := 0x100.
Definition OPOST : Z := 0x1.
Definition ONLCR : Z := 0x4.
Definition ISIG : Z := 0x1.
Definition ICANON : Z := 0x2.
Definition ECHO : Z := 0x8.
Definition ECHOE : Z := 0x10.
Definition ECHOK : Z := 0x20.
Definition TOSTOP : Z := 0x100.
Definition ECHOCTL : Z := 0x200.

Definition VINTR : Z := 0.
Definition VQUIT : Z := 1.
Definition VERASE : Z := 2.
Definition VEOF : Z := 4.
Definition VSUSP : Z := 10.
Definition VEOL : Z := 11.

Definition SIGHUP : Z := 1.
Definition SIGINT : Z := 2.
Definition SIGQUIT : Z := 3.
Definition SIGTSTP : Z := 20.
Definition SIGTTIN : Z := 21.
Definition SIGTTOU : Z := 22.

Definition ERESTARTSYS : Z := 512.

(** [struct termios]; the fields marked unused are left out. *)
Record termios := mktermios {
  c_iflag : Z;
  c_oflag : Z;
  c_cflag : Z;
  c_lflag : Z;
  c_cc : list Z;
}.

Definition NCCS : nat := 32.
Definition default_termios : termios :=
  mktermios ICRNL (Z.lor OPOST ONLCR) 0
    (Z.lor ISIG (Z.lor ICANON (Z.lor ECHO (Z.lor ECHOE (Z.lor ECHOK ECHOCTL)))))
    ([3; 28; 127; 21; 4; 0; 0; 0; 17; 19; 26; 0] ++ replicate 20 0).

Definition has (flags m : Z) : bool := negb (Z.land flags m =? 0).
Definition cc (t : termios) (i : Z) : Z := byte_at (c_cc t) i.

(** [struct tty_struct]; the wait queues are the [effect]s below. *)
Record tty := mktty {
  session : Z;
  pgrp : Z;
  tios : termios;
  winsize : Z * Z;
  read_buf : RingBuffer.t;
  count : Z;
  initialized : bool;
  hung_up : bool;
}.

Definition set_read_buf (rb : RingBuffer.t) (y : tty) : tty :=
  mktty (session y) (pgrp y) (tios y) (winsize y) rb (count y) (initialized y) (hung_up y).

(** What an operation does besides changing the terminal. *)
Inductive effect :=
  | Kill_pg (pg sig : Z) (priv : bool)
  | Wake_read | Wake_input | Wake_write | Wake_master.

(** ** Output *)

Definition tty_output_char (t : termios) (c : Z) : list Z :=
  (if has (c_oflag t) OPOST && (c =? 10) && has (c_oflag t) ONLCR then [13] else []) ++ [c].

Section driver.
(** The driver's state and its [write]: the number of bytes taken, or an error. *)
Context {D : Type} (write : D -> list Z -> D * Z).

Definition tty_put_c (t : termios) (d : D) (c : Z) : D * Z :=
  let output := tty_output_char t c in
  let '(d, written) := write d output in
  (d, if written <? 0 then written else if written =? zlength output then 0 else - EAGAIN).

Fixpoint tty_put_s (t : termios) (d : D) (s : list Z) : D :=
  match s with [] => d | c :: s' => tty_put_s t (tty_put_c t d c).1 s' end.

(** ** Input *)

(** The signal of a control character. *)
Definition signal_of (t : termios) (c : Z) : option Z :=
  if negb (has (c_lflag t) ISIG) then None else
  if c =? cc t VINTR then Some SIGINT else
  if c =? cc t VQUIT then Some SIGQUIT else
  if c =? cc t VSUSP then Some SIGTSTP else None.

(** Carriage return and newline; [None]: the byte is ignored. *)
Definition map_input (t : termios) (c : Z) : option Z :=
  if c =? 13 then
    (if has (c_iflag t) IGNCR then None else Some (if has (c_iflag t) ICRNL then 10 else c))
  else if (c =? 10) && has (c_iflag t) INLCR then Some 13 else Some c.

Definition control (c : Z) : bool :=
  (0 <=? c) && (c <=? 31) && negb (c =? 9) && negb (c =? 10) && negb (c =? 13).

(** From [tail_1]: the echo of [c]; [popped] is the byte erased, or -1. *)
Definition echo_c (t : termios) (c popped : Z) (d : D) : D :=
  if negb (has (c_lflag t) ECHO) then d else
  if (c =? cc t VERASE) && has (c_lflag t) ECHOE then
    (if negb (popped =? -1) then tty_put_s t d [8; 32; 8] else d)
  else if has (c_lflag t) ECHOCTL && control c then
    (tty_put_c t (tty_put_c t d 94).1 (c + 0x40)).1
  else if has (c_lflag t) ECHOCTL && (c =? 127) then tty_put_s t d [94; 63]
  else (tty_put_c t d c).1.

(** A byte that makes the line available. *)
Definition wakes_reader (t : termios) (c : Z) : bool :=
  if has (c_lflag t) ICANON then (c =? cc t VEOF) || (c =? 10) || (c =? 13) || (c =? cc t VEOL) else true.

Definition tty_receive_c (d : D) (y : tty) (c : Z) : D * tty * list effect * Z :=
  if count y =? 0 then (d, y, [], - EIO) else
  let t := tios y in
  match signal_of t c with
  | Some sig => (echo_c t c (-1) d, y, [Kill_pg (pgrp y) sig false], 0)
  | None =>
    match map_input t c with
    | None => (d, y, [], 0)
    | Some c =>
      if has (c_lflag t) ICANON && (c =? cc t VERASE) then
        let '(rb, popped) := ring_buffer_pop (read_buf y) in
        (echo_c t c popped d, set_read_buf rb y, [], 0)
      else if ring_buffer_full (read_buf y) then (d, y, [], - EAGAIN)
      else
        let '(rb, _) := ring_buffer_write (read_buf y) [c] 1 in
        (echo_c t c (-1) d, set_read_buf rb y, if wakes_reader t c then [Wake_read] else [], 0)
    end
  end.

Fixpoint tty_receive_s (d : D) (y : tty) (s : list Z) : D * tty * list effect :=
  match s with
  | [] => (d, y, [])
  | c :: s' => let '(d, y, e, _) := tty_receive_c d y c in
               let '(d, y, e') := tty_receive_s d y s' in (d, y, e ++ e')
  end.

(** ** Writing *)

Definition tty_check (y : tty) (is_ctty : bool) (my_pgrp : Z) : Z * list effect :=
  if hung_up y then (- EIO, []) else
  if is_ctty && has (c_lflag (tios y)) TOSTOP && negb (my_pgrp =? pgrp y)
  then (- ERESTARTSYS, [Kill_pg my_pgrp SIGTTOU true]) else (0, []).

(** The result of a write, or where it sleeps: [i] bytes are done, and [done]
    bytes of [output], what the next one became. *)
Inductive write_result := WRet (n : Z) | WSleep (i : Z) (output : list Z) (done : Z).

(** One pass of the inner loop: [None] when the machine stops because the driver
    wrote too much; no result when the byte is out. *)
Definition write_one (nonblock pending : bool) (i : Z) (output : list Z) (done : Z) (d : D)
    : option (D * option write_result) :=
  if done <? zlength output then
    let '(d, n) := write d (drop (Z.to_nat done) output) in
    if n <? 0 then Some (d, Some (WRet (if i =? 0 then n else i))) else
    assert! n <=? zlength output - done ;;
    let done := done + n in
    if done =? zlength output then Some (d, None) else
    if nonblock then Some (d, Some (WRet (if i =? 0 then - EAGAIN else i))) else
    if (done =? 0) && pending then Some (d, Some (WRet (if i =? 0 then - ERESTARTSYS else i))) else
    Some (d, Some (WSleep i output done))
  else Some (d, None).

(** The bytes from number [i] on. *)
Fixpoint write_from (t : termios) (nonblock pending : bool) (i : Z) (buf : list Z) (d : D)
    : option (D * write_result) :=
  match buf with
  | [] => Some (d, WRet i)
  | c :: buf' =>
    match write_one nonblock pending i (tty_output_char t c) 0 d with
    | None => None
    | Some (d, Some r) => Some (d, r)
    | Some (d, None) => write_from t nonblock pending (i + 1) buf' d
    end
  end.

(** A sleeping write that is woken: the rest of [output], then [rest]. *)
Definition write_resume (t : termios) (nonblock pending : bool) (i : Z) (output : list Z) (done : Z)
    (rest : list Z) (d : D) : option (D * write_result) :=
  match write_one nonblock pending i output done d with
  | None => None
  | Some (d, Some r) => Some (d, r)
  | Some (d, None) => write_from t nonblock pending (i + 1) rest d
  end.

Definition tty_write (y : tty) (is_ctty : bool) (my_pgrp : Z) (nonblock pending : bool) (buf : list Z) (d : D)
    : option (D * write_result * list effect) :=
  let '(err, e) := tty_check y is_ctty my_pgrp in
  if negb (err =? 0) then Some (d, WRet err, e) else
  match write_from (tios y) nonblock pending 0 buf d with
  | None => None
  | Some (d, r) => Some (d, r, e)
  end.
End driver.

(** ** The atomic line discipline *)

(** The bytes echoed for [c], before output processing. *)
Definition echo_bytes (t : termios) (lflag c popped : Z) : list Z :=
  if negb (has lflag ECHO) then [] else
  if (c =? cc t VERASE) && has lflag ECHOE then (if negb (popped =? -1) then [8; 32; 8] else [])
  else if has lflag ECHOCTL && (control c || (c =? 127)) then [94; if c =? 127 then 63 else c + 0x40]
  else [c].

Record received := mkreceived {
  r_tty : tty;
  r_output : RingBuffer.t;
  r_full : bool;
  r_wake : bool;
  r_signal : option (Z * Z);
  r_ret : Z;
}.

(** What becomes of the byte: the byte, the input queue, the byte erased or -1,
    whether it is queued, whether it wakes_reader readers, the local modes. *)
Definition atomic_input (y : tty) (c : Z) : Z * RingBuffer.t * Z * bool * bool * Z :=
  let t := tios y in
  let rb := read_buf y in
  let lflag := c_lflag t in
  match signal_of t c with
  | Some _ => (c, rb, -1, false, false, lflag)
  | None =>
    match map_input t c with
    | None => (c, rb, -1, false, false, Z.land lflag (Z.lnot ECHO))
    | Some c =>
      if has lflag ICANON && (c =? cc t VERASE) then
        (if ring_buffer_empty rb then (c, rb, -1, false, false, lflag)
         else let '(rb, p) := ring_buffer_pop rb in (c, rb, p, false, false, lflag))
      else (c, rb, -1, true, wakes_reader t c, lflag)
    end
  end.

Definition tty_receive_c_atomic (y : tty) (c : Z) (output : RingBuffer.t) : received :=
  if (count y =? 0) || hung_up y then mkreceived y output false false None (- EIO) else
  let '(c', rb, popped, push, wake, lflag) := atomic_input y c in
  if push && ring_buffer_full rb then mkreceived y output false false None (- EAGAIN) else
  let processed := mjoin (map (tty_output_char (tios y)) (echo_bytes (tios y) lflag c' popped)) in
  if ring_buffer_space output <? zlength processed then
    let rb := if negb (popped =? -1) then (ring_buffer_write rb [popped] 1).1 else rb in
    mkreceived (set_read_buf rb y) output true false None (- EAGAIN)
  else
    let rb := if push then (ring_buffer_write rb [c'] 1).1 else rb in
    let output := if negb (zlength processed =? 0) then (ring_buffer_write output processed (zlength processed)).1
                  else output in
    mkreceived (set_read_buf rb y) output false wake
      (match signal_of (tios y) c with Some sig => Some (pgrp y, sig) | None => None end) 0.

(** ** Reading *)

(** The scan of the queue for a delimiter: [n] bytes seen, [p] the next. *)
Fixpoint canon_scan (fuel : nat) (rb : RingBuffer.t) (t : termios) (p n : Z) : Z :=
  match fuel with
  | O => 0
  | S f =>
    if p =? RingBuffer.head rb then 0 else
    let ch := match RingBuffer.data rb with Some d => u8 (byte_at d p) | None => 0 end in
    let p := Z.land (u32 (p + 1)) (u32 (RingBuffer.size rb - 1)) in
    let n := n + 1 in
    if (ch =? 10) || (ch =? cc t VEOF) || (ch =? cc t VEOL) then n else canon_scan f rb t p n
  end.
Definition get_n_canon_read (rb : RingBuffer.t) (t : termios) : Z :=
  if ring_buffer_full rb then ring_buffer_avail rb
  else canon_scan (Z.to_nat (RingBuffer.size rb)) rb t (RingBuffer.tail rb) 0.

Definition get_n_read (y : tty) : Z :=
  if has (c_lflag (tios y)) ICANON then get_n_canon_read (read_buf y) (tios y) else ring_buffer_avail (read_buf y).

Inductive read_result := RRet (n : Z) (out : list Z) | RSleep.

(** A byte as [char]. *)
Definition s8 (b : Z) : Z := if b <? 128 then b else b - 256.

(** One pass of [tty_read] of [cnt] bytes; [before] is the user byte in front of
    the buffer, which the code looks at when it has read nothing.
    [None]: the assertion fails. *)
Definition tty_read (y : tty) (is_ctty : bool) (my_pgrp : Z) (nonblock pending : bool) (cnt before : Z)
    : option (tty * read_result * list effect) :=
  if is_ctty && negb (my_pgrp =? pgrp y) then Some (y, RRet (- ERESTARTSYS) [], [Kill_pg my_pgrp SIGTTIN true]) else
  if pending then Some (y, RRet (- ERESTARTSYS) [], []) else
  let n := get_n_read y in
  if n =? 0 then
    (if hung_up y then Some (y, RRet 0 [], [])
     else if nonblock then Some (y, RRet (- EAGAIN) [], []) else Some (y, RSleep, []))
  else
    let n := Z.min n cnt in
    let '(rb, out, m) := ring_buffer_read (read_buf y) (replicate (Z.to_nat n) 0) n in
    assert! n =? m ;;
    let last := if n =? 0 then s8 before else s8 (byte_at out (n - 1)) in
    Some (set_read_buf rb y, RRet (if last =? cc (tios y) VEOF then n - 1 else n) out, [Wake_input]).

(** ** Opening, closing, polling *)

Definition set_count (n : Z) (y : tty) : tty :=
  mktty (session y) (pgrp y) (tios y) (winsize y) (read_buf y) n (initialized y) (hung_up y).

(** [tty_bind_file] without a bind function. *)
Definition tty_bind_file (y : tty) : tty * Z :=
  if negb (initialized y) then (y, - EINVAL) else (set_count (count y + 1) y, 0).

Definition tty_release (y : tty) : option tty :=
  assert! 0 <? count y ;;
  let y := set_count (count y - 1) y in
  Some (if count y =? 0 then set_read_buf (ring_buffer_clear (read_buf y)) y else y).

Definition POLLIN : Z := 1.
Definition POLLOUT : Z := 4.
Definition POLLHUP : Z := 0x10.

Definition tty_poll (y : tty) : Z :=
  if count y <? 1 then POLLHUP else
  if hung_up y then Z.lor POLLIN POLLHUP else
  if 0 <? get_n_read y then Z.lor POLLOUT POLLIN else POLLOUT.

(** [tty_init_struct]: [rb] is the new input queue, or the error of its page. *)
Definition tty_init_struct (rb : RingBuffer.t + Z) (rows cols : Z) : tty + Z :=
  match rb with
  | inr err => inr err
  | inl rb => inl (mktty 0 0 default_termios (rows, cols) rb 0 false false)
  end.

(** ** Ring buffers as queues *)

Import RingBuffer (contents).
Definition valid (rb : RingBuffer.t) : Prop := exists d, RingBuffer.wf rb d.
Definition room (rb : RingBuffer.t) : Z := RingBuffer.size rb - zlength (contents rb).

Lemma room_nonneg rb : valid rb -> 0 <= room rb.
Proof.
  intros [d H]. unfold room. rewrite (RingBuffer.length_contents _ _ H). destruct H. lia.
Qed.

Lemma full_room rb : valid rb -> ring_buffer_full rb = (room rb =? 0).
Proof.
  intros [d H]. unfold ring_buffer_full, room. rewrite (RingBuffer.length_contents _ _ H).
  destruct (Z.eqb_spec (RingBuffer.len rb) (RingBuffer.size rb)), (Z.eqb_spec (RingBuffer.size rb - RingBuffer.len rb) 0);
    lia || done.
Qed.

Lemma space_room rb : valid rb -> ring_buffer_space rb = room rb.
Proof.
  intros [d H]. unfold ring_buffer_space, room. rewrite (RingBuffer.length_contents _ _ H).
  pose proof (RingBuffer.size_bounds _ _ H). destruct H. apply u32_small. lia.
Qed.

Lemma avail_contents rb : valid rb -> ring_buffer_avail rb = zlength (contents rb).
Proof. intros [d H]. unfold ring_buffer_avail. by rewrite (RingBuffer.length_contents _ _ H). Qed.

Lemma write_fits rb l : valid rb -> zlength l <= room rb ->
  let '(rb', n) := ring_buffer_write rb l (zlength l) in
  n = zlength l /\ contents rb' = contents rb ++ l /\ valid rb' /\ room rb' = room rb - zlength l.
Proof.
  intros [d H] Hl. pose proof (RingBuffer.ring_buffer_write_appends rb d l (zlength l) H) as W.
  unfold room in *. rewrite (RingBuffer.length_contents _ _ H) in *.
  destruct (ring_buffer_write rb l (zlength l)) as [rb' n].
  destruct W as (Hn & Hc & Hs & W); [unfold zlength; lia|].
  assert (n = zlength l) by lia. subst n. rewrite H0 in Hc. unfold zlength in Hc at 1. rewrite Nat2Z.id, firstn_all in Hc.
  split_and!; [done|done|done|]. rewrite Hs, Hc. pose proof (RingBuffer.length_contents _ _ H).
  unfold zlength in *. rewrite length_app. lia.
Qed.

Lemma pop_last rb l c : valid rb -> contents rb = l ++ [c] ->
  let '(rb', r) := ring_buffer_pop rb in r = u8 c /\ contents rb' = l /\ valid rb' /\ RingBuffer.size rb' = RingBuffer.size rb.
Proof.
  intros [d H] E. pose proof (RingBuffer.ring_buffer_pop_last rb d l c H E) as W.
  destruct (ring_buffer_pop rb) as [rb' r]. destruct W as (? & ? & ? & ?). split_and!; try done. by exists d.
Qed.

Lemma pop_empty rb : valid rb -> contents rb = [] -> ring_buffer_pop rb = (rb, -1).
Proof. intros [d H]. apply (RingBuffer.ring_buffer_pop_empty rb d H). Qed.

Lemma empty_contents rb : valid rb -> ring_buffer_empty rb = bool_decide (contents rb = []).
Proof. intros H. exact (bq_empty_spec rb H). Qed.

Lemma read_removes rb n : valid rb -> 0 <= n <= zlength (contents rb) ->
  let '(rb', out, m) := ring_buffer_read rb (replicate (Z.to_nat n) 0) n in
  m = n /\ out = take (Z.to_nat n) (contents rb) /\ contents rb' = drop (Z.to_nat n) (contents rb) /\
  valid rb' /\ RingBuffer.size rb' = RingBuffer.size rb.
Proof.
  intros [d H] Hn. pose proof (RingBuffer.ring_buffer_read_removes rb d (replicate (Z.to_nat n) 0) n H) as W.
  pose proof (RingBuffer.ring_buffer_read_size rb (replicate (Z.to_nat n) 0) n) as S.
  rewrite <- (RingBuffer.length_contents _ _ H) in W.
  destruct (ring_buffer_read rb (replicate (Z.to_nat n) 0) n) as [[rb' out] m].
  destruct W as (Hm & -> & Hc & W); [unfold zlength; rewrite length_replicate; lia|].
  assert (m = n) by lia. subst m. rewrite H0 in *. split_and!; try done; [|by exists d].
  rewrite drop_ge by (rewrite length_replicate; lia). apply app_nil_r.
Qed.

(** ** Both line disciplines *)

(** The driver that fills the output buffer of a pseudo terminal. *)
Definition ring_put (o : RingBuffer.t) (l : list Z) : RingBuffer.t * Z := ring_buffer_write o l (zlength l).

Definition output_of (t : termios) (s : list Z) : list Z := mjoin (map (tty_output_char t) s).

Lemma output_of_cons t c s : output_of t (c :: s) = tty_output_char t c ++ output_of t s.
Proof. done. Qed.

Lemma output_of_app t s1 s2 : output_of t (s1 ++ s2) = output_of t s1 ++ output_of t s2.
Proof. unfold output_of. rewrite map_app. apply join_app. Qed.

Lemma put_c_ring t o c : valid o -> zlength (tty_output_char t c) <= room o ->
  let o' := (tty_put_c ring_put t o c).1 in
  contents o' = contents o ++ tty_output_char t c /\ valid o' /\ room o' = room o - zlength (tty_output_char t c).
Proof.
  intros V L. unfold tty_put_c, ring_put. pose proof (write_fits o (tty_output_char t c) V L) as W.
  destruct (ring_buffer_write o _ _) as [o' n]. simpl. by destruct W as (_ & W).
Qed.

Lemma put_s_ring t s : forall o, valid o -> zlength (output_of t s) <= room o ->
  contents (tty_put_s ring_put t o s) = contents o ++ output_of t s.
Proof.
  induction s as [|c s IH]; intros o V L; [by rewrite app_nil_r|].
  rewrite output_of_cons, zlength_app in L. pose proof (zlength_nonneg (output_of t s)).
  destruct (put_c_ring t o c V) as (E & V' & R); [lia|]. cbn [tty_put_s].
  rewrite IH by (done || lia). by rewrite E, <- app_assoc, <- output_of_cons.
Qed.

(** The echo through a driver with room is the echo of the atomic discipline. *)
Lemma echo_ring t c popped o : valid o -> zlength (output_of t (echo_bytes t (c_lflag t) c popped)) <= room o ->
  contents (echo_c ring_put t c popped o) = contents o ++ output_of t (echo_bytes t (c_lflag t) c popped).
Proof.
  intros V. unfold echo_c, echo_bytes.
  destruct (negb (has (c_lflag t) ECHO)); [by rewrite app_nil_r|].
  destruct (_ && has (c_lflag t) ECHOE); [destruct (negb _); [by apply put_s_ring|by rewrite app_nil_r]|].
  destruct (has (c_lflag t) ECHOCTL); simpl.
  - destruct (control c) eqn:C; simpl.
    + intros L. assert ((c =? 127) = false) as -> by (unfold control in C; lia).
      replace (c =? 127) with false in L by (unfold control in C; lia).
      exact (put_s_ring t [94; c + 64] o V L).
    + destruct (c =? 127) eqn:E; intros L; [exact (put_s_ring t [94; 63] o V L)|exact (put_s_ring t [c] o V L)].
  - intros L. exact (put_s_ring t [c] o V L).
Qed.

Lemma has_cleared x m : has (Z.land x (Z.lnot m)) m = false.
Proof.
  unfold has. rewrite <- Z.land_assoc, (Z.land_comm (Z.lnot m)), Z.land_lnot_diag, Z.land_0_r. done.
Qed.

(** A terminal that is open and whose queue is a ring buffer. *)
Record ready (y : tty) : Prop := {
  rd_valid : valid (read_buf y);
  rd_bytes : Forall is_u8 (contents (read_buf y));
  rd_count : 0 < count y;
  rd_hung : hung_up y = false;
}.

Lemma set_read_buf_self y : set_read_buf (read_buf y) y = y.
Proof. by destruct y. Qed.

Definition signal_effect (s : option (Z * Z)) : list effect :=
  match s with Some (pg, sig) => [Kill_pg pg sig false] | None => [] end.

(** What the echo in the atomic discipline amounts to. *)
Lemma echo_step t c popped o : valid o ->
  zlength (output_of t (echo_bytes t (c_lflag t) c popped)) <= room o ->
  let l := output_of t (echo_bytes t (c_lflag t) c popped) in
  contents (echo_c ring_put t c popped o) =
    contents (if negb (zlength l =? 0) then (ring_buffer_write o l (zlength l)).1 else o).
Proof.
  intros V L l. rewrite echo_ring by done. fold l in L |- *. pose proof (write_fits o l V L) as W.
  destruct (Z.eqb_spec (zlength l) 0) as [E|E]; simpl.
  - unfold zlength in E. assert (l = []) as -> by (apply nil_length_inv; lia). apply app_nil_r.
  - destruct (ring_buffer_write o l (zlength l)). simpl. by destruct W as (_ & -> & _).
Qed.

Lemma disciplines_agree_spec (y : tty) (c : Z) (out : RingBuffer.t) :
  ready y -> valid out ->
  let r := tty_receive_c_atomic y c out in
  let '(out', y', e, ret) := tty_receive_c ring_put out y c in
  (r_ret r = 0 -> ret = 0 /\ y' = r_tty r /\ contents out' = contents (r_output r) /\
                  e = signal_effect (r_signal r) ++ (if r_wake r then [Wake_read] else [])) /\
  (r_ret r <> 0 -> r_full r = false -> r_ret r = - EAGAIN /\ ret = - EAGAIN /\ y' = y /\ out' = out).
Proof.
  intros Y V. unfold tty_receive_c_atomic, tty_receive_c. pose proof (rd_count _ Y). rewrite (rd_hung _ Y).
  replace (count y =? 0) with false by (symmetry; lia). cbn [orb]. unfold atomic_input.
  destruct (signal_of (tios y) c) as [sig|] eqn:Es.
  { cbn [andb]. fold (output_of (tios y) (echo_bytes (tios y) (c_lflag (tios y)) c (-1))).
    set (l := output_of _ _). rewrite space_room by done.
    destruct (Z.ltb_spec (room out) (zlength l)); simpl; [split; [unfold EAGAIN; lia|done]|]. split; [|done]. intros _.
    rewrite set_read_buf_self. split_and!; try done. by apply echo_step. }
  destruct (map_input (tios y) c) as [c'|] eqn:Em.
  2: { cbn [andb]. unfold echo_bytes. rewrite has_cleared. cbn [negb map mjoin list_join]. rewrite space_room by done.
       pose proof (room_nonneg _ V). change (zlength []) with 0. destruct (Z.ltb_spec (room out) 0); [lia|].
       simpl. split; [|done]. intros _. by rewrite set_read_buf_self. }
  destruct (has (c_lflag (tios y)) ICANON && (c' =? cc (tios y) VERASE)) eqn:Ee.
  - assert (E : exists rb p, ring_buffer_pop (read_buf y) = (rb, p) /\
      (if ring_buffer_empty (read_buf y) then (c', read_buf y, -1, false, false, c_lflag (tios y))
       else let '(rb, p) := ring_buffer_pop (read_buf y) in (c', rb, p, false, false, c_lflag (tios y))) =
      (c', rb, p, false, false, c_lflag (tios y))).
    { rewrite empty_contents by apply Y. case_bool_decide as Hc; [|by destruct (ring_buffer_pop _); eauto].
      rewrite pop_empty by (done || apply Y). eauto. }
    destruct E as (rb & p & Ep & ->). rewrite Ep. cbn [andb].
    fold (output_of (tios y) (echo_bytes (tios y) (c_lflag (tios y)) c' p)). set (l := output_of _ _).
    rewrite space_room by done. destruct (Z.ltb_spec (room out) (zlength l)); simpl; [split; [unfold EAGAIN; lia|done]|].
    split; [|done]. intros _. split_and!; try done. by apply echo_step.
  - cbn [andb]. destruct (ring_buffer_full (read_buf y)) eqn:Ef; simpl; [split; [unfold EAGAIN; lia|done]|].
    fold (output_of (tios y) (echo_bytes (tios y) (c_lflag (tios y)) c' (-1))). set (l := output_of _ _).
    rewrite space_room by done. destruct (ring_buffer_write (read_buf y) [c'] 1) as [rb n] eqn:Ew. simpl.
    destruct (Z.ltb_spec (room out) (zlength l)); simpl; [split; [unfold EAGAIN; lia|done]|]. split; [|done].
    intros _. split_and!; try done. by apply echo_step.
Qed.

(** ** Lines *)

Definition delim (t : termios) (c : Z) : bool := (c =? 10) || (c =? cc t VEOF) || (c =? cc t VEOL).

(** The length of the first line, delimiter included; 0 when no line is complete. *)
Fixpoint line_len (t : termios) (l : list Z) : Z :=
  match l with
  | [] => 0
  | c :: l' => if delim t c then 1 else let n := line_len t l' in if n =? 0 then 0 else n + 1
  end.

Lemma line_len_range t l : 0 <= line_len t l <= zlength l.
Proof.
  unfold zlength. induction l as [|c l IH]; simpl; [lia|]. destruct (delim t c); [lia|].
  destruct (_ =? 0) eqn:E; lia.
Qed.

Lemma line_len_line t a c l : forallb (fun x => negb (delim t x)) a = true -> delim t c = true ->
  line_len t (a ++ c :: l) = zlength a + 1.
Proof.
  unfold zlength. intros Ha Hc. induction a as [|x a IH]; simpl in *; [by rewrite Hc|].
  apply andb_true_iff in Ha as [Hx Ha]. apply negb_true_iff in Hx. rewrite Hx, IH by done.
  destruct (_ =? 0) eqn:E; lia.
Qed.

Lemma line_len_none t a : forallb (fun x => negb (delim t x)) a = true -> line_len t a = 0.
Proof.
  induction a as [|x a IH]; simpl; [done|]. intros [Hx Ha]%andb_true_iff. apply negb_true_iff in Hx.
  by rewrite Hx, IH.
Qed.

Lemma canon_scan_spec rb d t : RingBuffer.wf rb d -> Forall is_u8 (contents rb) ->
  RingBuffer.len rb < RingBuffer.size rb ->
  forall fuel k, 0 <= k <= RingBuffer.len rb -> RingBuffer.len rb - k <= Z.of_nat fuel ->
  canon_scan fuel rb t (RingBuffer.wrap (RingBuffer.size rb) (RingBuffer.tail rb + k)) k =
    let n := line_len t (drop (Z.to_nat k) (contents rb)) in if n =? 0 then 0 else k + n.
Proof.
  intros W F Hf. pose proof (RingBuffer.length_contents _ _ W) as Hl. pose proof (RingBuffer.size_bounds _ _ W) as Hs.
  pose proof (RingBuffer.head_wrap _ _ W) as Hh. destruct (RingBuffer.wf_tail _ _ W) as [T1 T2].
  destruct (RingBuffer.wf_len _ _ W) as [L1 L2].
  assert (Hend : forall k, k = RingBuffer.len rb -> line_len t (drop (Z.to_nat k) (contents rb)) = 0).
  { intros k ->. rewrite drop_ge by (unfold zlength in Hl; lia). done. }
  induction fuel as [|f IH]; intros k Hk Hfuel.
  { simpl. by rewrite Hend by lia. }
  cbn [canon_scan]. rewrite Hh.
  destruct (Z.eqb_spec (RingBuffer.wrap (RingBuffer.size rb) (RingBuffer.tail rb + k))
              (RingBuffer.wrap (RingBuffer.size rb) (RingBuffer.tail rb + RingBuffer.len rb))) as [E|E].
  { assert (k = RingBuffer.len rb).
    { unfold RingBuffer.wrap in E. destruct (Z.ltb_spec (RingBuffer.tail rb + k) (RingBuffer.size rb)),
        (Z.ltb_spec (RingBuffer.tail rb + RingBuffer.len rb) (RingBuffer.size rb)); lia. }
    by rewrite Hend. }
  assert (Hk' : k < RingBuffer.len rb) by (destruct (decide (k = RingBuffer.len rb)) as [->|]; [done|lia]).
  pose proof (RingBuffer.lookup_contents _ _ k W ltac:(lia)) as Hc.
  destruct (contents rb !! Z.to_nat k) as [c|] eqn:Ec; [|apply lookup_ge_None in Ec; unfold zlength in Hl; lia].
  rewrite (RingBuffer.wf_data _ _ W). unfold byte_at. rewrite <- Hc. cbn [from_option id].
  assert (Hu : u8 c = c).
  { rewrite Forall_lookup in F. apply u8_small. exact (F _ _ Ec). }
  rewrite Hu.
  rewrite (drop_S _ c) by done. cbn [line_len]. unfold delim.
  assert (Hp : Z.land (u32 (RingBuffer.wrap (RingBuffer.size rb) (RingBuffer.tail rb + k) + 1)) (u32 (RingBuffer.size rb - 1))
               = RingBuffer.wrap (RingBuffer.size rb) (RingBuffer.tail rb + (k + 1))).
  { rewrite (RingBuffer.land_mask _ _ _ W).
    assert (0 <= RingBuffer.wrap (RingBuffer.size rb) (RingBuffer.tail rb + k) < RingBuffer.size rb)
      by (unfold RingBuffer.wrap; destruct (Z.ltb_spec (RingBuffer.tail rb + k) (RingBuffer.size rb)); lia).
    rewrite u32_small, RingBuffer.wrap_mod by lia. unfold RingBuffer.wrap in *. clear -Hk' L2 T1 T2 H.
    destruct (Z.ltb_spec (RingBuffer.tail rb + k) (RingBuffer.size rb));
      repeat match goal with |- context [?a <? ?b] => destruct (Z.ltb_spec a b) end; lia. }
  rewrite Hp. destruct ((c =? 10) || (c =? cc t VEOF) || (c =? cc t VEOL)); [done|].
  rewrite IH by lia. replace (Z.to_nat (k + 1)) with (S (Z.to_nat k)) by lia.
  pose proof (line_len_range t (drop (S (Z.to_nat k)) (contents rb))).
  set (m := line_len t _) in *. cbn zeta. clearbody m. destruct (Z.eqb_spec m 0); [by simpl|].
  destruct (Z.eqb_spec (m + 1) 0); lia.
Qed.

(** What a read may take, on the queue. *)
Lemma get_n_canon_read_spec rb t : valid rb -> Forall is_u8 (contents rb) ->
  get_n_canon_read rb t = if room rb =? 0 then zlength (contents rb) else line_len t (contents rb).
Proof.
  intros V F. pose proof V as [d W]. unfold get_n_canon_read. rewrite full_room by done.
  rewrite avail_contents by done. destruct (Z.eqb_spec (room rb) 0) as [E|E]; [done|].
  pose proof (RingBuffer.length_contents _ _ W) as Hl. destruct (RingBuffer.wf_len _ _ W), (RingBuffer.wf_tail _ _ W).
  unfold room in E.
  assert (Et : RingBuffer.wrap (RingBuffer.size rb) (RingBuffer.tail rb + 0) = RingBuffer.tail rb).
  { unfold RingBuffer.wrap. rewrite Z.add_0_r. by destruct (Z.ltb_spec (RingBuffer.tail rb) (RingBuffer.size rb)); [|lia]. }
  rewrite <- Et. rewrite (canon_scan_spec rb d t W F) by lia. cbn zeta. change (Z.to_nat 0) with O. rewrite drop_0.
  destruct (_ =? 0) eqn:E0; lia.
Qed.

Definition readable (y : tty) : Z :=
  if has (c_lflag (tios y)) ICANON
  then if room (read_buf y) =? 0 then zlength (contents (read_buf y)) else line_len (tios y) (contents (read_buf y))
  else zlength (contents (read_buf y)).

Lemma get_n_read_spec y : valid (read_buf y) -> Forall is_u8 (contents (read_buf y)) -> get_n_read y = readable y.
Proof.
  intros V F. unfold get_n_read, readable. destruct (has _ _).
  - by apply get_n_canon_read_spec.
  - by apply avail_contents.
Qed.

Lemma readable_range y : 0 <= readable y <= zlength (contents (read_buf y)).
Proof.
  unfold readable. pose proof (line_len_range (tios y) (contents (read_buf y))).
  pose proof (zlength_nonneg (contents (read_buf y))). repeat case_match; lia.
Qed.

(** A read by a process in the foreground without a pending signal. *)
Lemma tty_read_spec y nonblock cnt before pg : ready y -> pg = pgrp y -> 0 <= cnt ->
  let n := Z.min (readable y) cnt in
  if readable y =? 0
  then tty_read y true pg nonblock false cnt before = Some (y, if nonblock then RRet (- EAGAIN) [] else RSleep, [])
  else exists rb, tty_read y true pg nonblock false cnt before =
         Some (set_read_buf rb y,
               RRet (if (if n =? 0 then s8 before else s8 (byte_at (take (Z.to_nat n) (contents (read_buf y))) (n - 1)))
                        =? cc (tios y) VEOF then n - 1 else n) (take (Z.to_nat n) (contents (read_buf y))),
               [Wake_input]) /\
       valid rb /\ contents rb = drop (Z.to_nat n) (contents (read_buf y)) /\
       RingBuffer.size rb = RingBuffer.size (read_buf y).
Proof.
  intros Y -> Hc n. unfold tty_read. rewrite Z.eqb_refl. cbn [andb negb].
  rewrite get_n_read_spec by apply Y. destruct (readable y =? 0) eqn:E.
  { rewrite (rd_hung _ Y). by destruct nonblock. }
  pose proof (readable_range y). fold n.
  pose proof (read_removes (read_buf y) n (rd_valid _ Y) ltac:(lia)) as R.
  destruct (ring_buffer_read (read_buf y) (replicate (Z.to_nat n) 0) n) as [[rb out] m].
  destruct R as (-> & -> & Hd & V & S). rewrite Z.eqb_refl. exists rb. split_and!; done.
Qed.

(** ** Typing *)

Lemma receive_push {D} (write : D -> list Z -> D * Z) d y c c' : ready y ->
  signal_of (tios y) c = None -> map_input (tios y) c = Some c' ->
  has (c_lflag (tios y)) ICANON && (c' =? cc (tios y) VERASE) = false -> is_u8 c' -> 1 <= room (read_buf y) ->
  exists d' rb, tty_receive_c write d y c =
      (d', set_read_buf rb y, if wakes_reader (tios y) c' then [Wake_read] else [], 0) /\
    contents rb = contents (read_buf y) ++ [c'] /\ room rb = room (read_buf y) - 1 /\
    RingBuffer.size rb = RingBuffer.size (read_buf y) /\ ready (set_read_buf rb y).
Proof.
  intros Y Hs Hm He Hu Hr. unfold tty_receive_c. pose proof (rd_count _ Y).
  replace (count y =? 0) with false by (symmetry; lia). rewrite Hs, Hm, He, full_room by apply Y.
  replace (room (read_buf y) =? 0) with false by (symmetry; lia).
  pose proof (write_fits (read_buf y) [c'] (rd_valid _ Y) ltac:(unfold zlength; simpl; lia)) as W.
  change (zlength [c']) with 1 in W. destruct (ring_buffer_write (read_buf y) [c'] 1) as [rb n].
  destruct W as (_ & E & V & R). eexists _, rb. split; [reflexivity|]. split_and!; try done.
  - unfold room in R. rewrite E, zlength_app in R. unfold zlength in R at 2. simpl in R. lia.
  - split; try done; try apply Y. simpl. rewrite E. apply Forall_app. split; [apply Y|by apply Forall_singleton].
Qed.

Lemma receive_erase {D} (write : D -> list Z -> D * Z) d y c : ready y ->
  signal_of (tios y) c = None -> map_input (tios y) c = Some c ->
  has (c_lflag (tios y)) ICANON && (c =? cc (tios y) VERASE) = true ->
  exists d' rb, tty_receive_c write d y c = (d', set_read_buf rb y, [], 0) /\
    contents rb = removelast (contents (read_buf y)) /\
    RingBuffer.size rb = RingBuffer.size (read_buf y) /\ ready (set_read_buf rb y).
Proof.
  intros Y Hs Hm He. unfold tty_receive_c. pose proof (rd_count _ Y).
  replace (count y =? 0) with false by (symmetry; lia). rewrite Hs, Hm, He.
  destruct (contents (read_buf y)) as [|b l _] eqn:E using rev_ind.
  - rewrite pop_empty by (done || apply Y). exists (echo_c write (tios y) c (-1) d), (read_buf y). split; [done|]. rewrite set_read_buf_self.
    by rewrite E.
  - pose proof (pop_last (read_buf y) l b (rd_valid _ Y) E) as P.
    destruct (ring_buffer_pop (read_buf y)) as [rb p]. destruct P as (_ & E' & V & S).
    eexists _, rb. split; [reflexivity|]. split_and!; try done.
    + by rewrite removelast_last.
    + split; try done; try apply Y. simpl. rewrite E'. pose proof (rd_bytes _ Y) as F. rewrite E in F.
      by apply Forall_app in F as [F _].
Qed.

(** Keys that the line discipline queues as they are, and the erase key. *)
Definition ordinary (t : termios) (k : Z) : Prop :=
  is_u8 k /\ signal_of t k = None /\ map_input t k = Some k /\ delim t k = false /\ k <> 13 /\ k <> cc t VERASE.
Definition eraser (t : termios) (k : Z) : Prop :=
  k = cc t VERASE /\ signal_of t k = None /\ map_input t k = Some k.

(** The line editor: what a sequence of keys makes of a line. *)
Fixpoint edit (t : termios) (line keys : list Z) : list Z :=
  match keys with
  | [] => line
  | k :: ks => edit t (if k =? cc t VERASE then removelast line else line ++ [k]) ks
  end.

Lemma removelast_zlength {A} (l : list A) : zlength (removelast l) <= zlength l.
Proof.
  unfold zlength. induction l as [|a l IH] using rev_ind; [done|]. rewrite removelast_last, length_app. lia.
Qed.

Lemma receive_keys {D} (write : D -> list Z -> D * Z) keys : forall d y, ready y ->
  has (c_lflag (tios y)) ICANON = true -> Forall (fun k => ordinary (tios y) k \/ eraser (tios y) k) keys ->
  zlength (contents (read_buf y)) + zlength keys <= RingBuffer.size (read_buf y) ->
  exists d' rb, tty_receive_s write d y keys = (d', set_read_buf rb y, []) /\ ready (set_read_buf rb y) /\
    contents rb = edit (tios y) (contents (read_buf y)) keys /\
    RingBuffer.size rb = RingBuffer.size (read_buf y) /\
    zlength (contents rb) <= zlength (contents (read_buf y)) + zlength keys.
Proof.
  induction keys as [|k ks IH]; intros d y Y Hi F L.
  - exists d, (read_buf y). rewrite set_read_buf_self. split_and!; try done. unfold zlength. simpl. lia.
  - rewrite zlength_cons in *. pose proof (zlength_nonneg ks). inversion F as [|? ? Hk F']; subst. cbn [tty_receive_s edit].
    destruct Hk as [(Hu & Hs & Hm & Hd & Hr & He)|(He & Hs & Hm)].
    + destruct (receive_push write d y k k) as (d1 & rb & E & C & R & S & Y1); try done.
      * rewrite Hi. simpl. lia.
      * unfold room. lia.
      * assert (Hw : wakes_reader (tios y) k = false).
        { unfold wakes_reader. rewrite Hi. unfold delim in Hd. lia. }
        rewrite Hw in E. rewrite E.
        destruct (IH d1 (set_read_buf rb y) Y1 Hi F') as (d2 & rb2 & E2 & Y2 & C2 & S2 & L2).
        { simpl. rewrite C, S, zlength_app. change (zlength [k]) with 1. lia. }
        rewrite E2. exists d2, rb2. simpl in C2, S2, L2 |- *. split_and!; try done.
        -- rewrite C2, C. by replace (k =? cc (tios y) VERASE) with false by (symmetry; lia).
        -- congruence.
        -- rewrite C, zlength_app in L2. change (zlength [k]) with 1 in L2. lia.
    + destruct (receive_erase write d y k) as (d1 & rb & E & C & S & Y1); try done.
      { rewrite Hi, He. simpl. lia. }
      rewrite E. pose proof (removelast_zlength (contents (read_buf y))).
      destruct (IH d1 (set_read_buf rb y) Y1 Hi F') as (d2 & rb2 & E2 & Y2 & C2 & S2 & L2).
      { simpl. rewrite C, S. lia. }
      rewrite E2. exists d2, rb2. simpl in C2, S2, L2 |- *. split_and!; try done.
      * rewrite C2, C. by replace (k =? cc (tios y) VERASE) with true by (symmetry; lia).
      * congruence.
      * rewrite C in L2. lia.
Qed.

Lemma edit_plain t keys : forall line, Forall (fun k => ordinary t k \/ eraser t k) keys ->
  forallb (fun x => negb (delim t x)) line = true -> forallb (fun x => negb (delim t x)) (edit t line keys) = true.
Proof.
  induction keys as [|k ks IH]; intros line F L; [done|]. inversion F as [|? ? Hk F']; subst. simpl.
  apply IH; [done|]. destruct (Z.eqb_spec k (cc t VERASE)) as [E|E].
  - destruct line as [|b l _] using rev_ind; [done|]. rewrite removelast_last. rewrite forallb_app in L.
    by apply andb_true_iff in L as [L _].
  - rewrite forallb_app, L. simpl. destruct Hk as [(_ & _ & _ & Hd & _)|[He _]]; [by rewrite Hd|done].
Qed.

Lemma receive_s_app {D} (write : D -> list Z -> D * Z) a b : forall d y,
  tty_receive_s write d y (a ++ b) =
    let '(d1, y1, e1) := tty_receive_s write d y a in
    let '(d2, y2, e2) := tty_receive_s write d1 y1 b in (d2, y2, e1 ++ e2).
Proof.
  induction a as [|c a IH]; intros d y; simpl.
  - by destruct (tty_receive_s write d y b) as [[? ?] ?].
  - destruct (tty_receive_c write d y c) as [[[d1 y1] e1] r1]. rewrite IH.
    destruct (tty_receive_s write d1 y1 a) as [[d2 y2] e2].
    destruct (tty_receive_s write d2 y2 b) as [[d3 y3] e3]. by rewrite app_assoc.
Qed.

(** ** Output *)

Section output.
Context {D : Type} (write : D -> list Z -> D * Z) (inv : D -> Prop) (sent : D -> list Z).

(** A driver, in the states of its invariant, takes a prefix of what it is given,
    or fails and takes nothing. *)
Definition driver_ok : Prop := forall d l, inv d -> let '(d', n) := write d l in
  inv d' /\ n <= zlength l /\ sent d' = sent d ++ take (Z.to_nat n) l.

Context (Hd : driver_ok).

Lemma write_one_spec nonblock pending i out d : inv d -> 0 <= i -> 0 < zlength out ->
  match write_one write nonblock pending i out 0 d with
  | None => False
  | Some (d', None) => inv d' /\ sent d' = sent d ++ out
  | Some (d', Some r) => inv d' /\ exists k, 0 <= k < zlength out /\ sent d' = sent d ++ take (Z.to_nat k) out /\
      match r with
      | WRet n => n = i \/ i = 0 /\ n < 0
      | WSleep i' out' done => i' = i /\ out' = out /\ done = k /\ nonblock = false
      end
  end.
Proof.
  intros I Hi Ho. unfold write_one. replace (0 <? zlength out) with true by (symmetry; lia). rewrite drop_0.
  pose proof (Hd d out I) as H. destruct (write d out) as [d' n]. destruct H as (I' & Hn & Hs).
  destruct (Z.ltb_spec n 0) as [Hneg|Hneg].
  - split; [done|]. exists 0. split; [lia|]. split; [by rewrite Hs; f_equal; destruct n|].
    destruct (Z.eqb_spec i 0); [right; lia|by left].
  - replace (n <=? zlength out - 0) with true by (symmetry; lia). rewrite Z.add_0_l.
    destruct (Z.eqb_spec n (zlength out)) as [->|Hne].
    { split; [done|]. rewrite Hs. f_equal. unfold zlength. by rewrite Nat2Z.id, firstn_all. }
    assert (K : 0 <= n < zlength out) by lia.
    destruct nonblock.
    { split; [done|]. exists n. split; [done|]. split; [done|].
      destruct (Z.eqb_spec i 0); [right; unfold EAGAIN; lia|by left]. }
    destruct ((n =? 0) && pending); (split; [done|]); exists n; (split; [done|]); (split; [done|]); [|lia || done].
    destruct (Z.eqb_spec i 0); [right; unfold ERESTARTSYS; lia|by left].
Qed.

(** Where a write of [buf] that began at byte [i] stops: [m] bytes are out, and
    [k] bytes of what the next became. *)
Definition stops (i : Z) (t : termios) (nonblock : bool) (buf sent0 sent1 : list Z) (r : write_result) : Prop :=
  exists m k, 0 <= m <= zlength buf /\ 0 <= k /\ (m = zlength buf -> k = 0) /\
    sent1 = sent0 ++ output_of t (take (Z.to_nat m) buf) ++ take (Z.to_nat k) (tty_output_char t (byte_at buf m)) /\
    match r with
    | WRet n => (n = i + m \/ i + m = 0 /\ n < 0) /\ (m = zlength buf -> n = i + m)
    | WSleep i' out done => i' = i + m /\ out = tty_output_char t (byte_at buf m) /\ done = k /\ nonblock = false /\
                            m < zlength buf /\ k < zlength out
    end.

Lemma output_char_length t c : 0 < zlength (tty_output_char t c).
Proof. unfold tty_output_char. rewrite zlength_app. pose proof (zlength_nonneg (if has (c_oflag t) OPOST && (c =? 10) && has (c_oflag t) ONLCR then [13] else [])). unfold zlength at 2. simpl. lia. Qed.

Lemma write_from_spec t nonblock pending buf : forall i d, inv d -> 0 <= i ->
  exists d' r, write_from write t nonblock pending i buf d = Some (d', r) /\ inv d' /\
    stops i t nonblock buf (sent d) (sent d') r.
Proof.
  induction buf as [|c buf IH]; intros i d I Hi; simpl.
  { exists d, (WRet i). split; [done|]. split; [done|]. exists 0, 0. simpl. rewrite !app_nil_r. split_and!; try done; lia. }
  pose proof (write_one_spec nonblock pending i (tty_output_char t c) d I Hi (output_char_length t c)) as H.
  destruct (write_one write nonblock pending i (tty_output_char t c) 0 d) as [[d1 [r|]]|]; [| |done].
  - destruct H as (I1 & k & Hk & Hs & Hr). exists d1, r. split; [done|]. split; [done|]. exists 0, k. rewrite zlength_cons.
    pose proof (zlength_nonneg buf). split_and!; try lia; try done.
    destruct r as [n|i' out dn].
    + split; [destruct Hr as [->|[-> Hn]]; [left|right]; lia|lia].
    + destruct Hr as (-> & -> & -> & ->). change (byte_at (c :: buf) 0) with c. split_and!; lia || done.
  - destruct H as [I1 H]. destruct (IH (i + 1) d1 I1 ltac:(lia)) as (d2 & r & E & I2 & m & k & Hm & Hk & Hmk & Hs & Hr).
    exists d2, r. split; [done|]. split; [done|]. exists (m + 1), k. rewrite zlength_cons.
    assert (Eb : byte_at (c :: buf) (m + 1) = byte_at buf m).
    { unfold byte_at. by replace (Z.to_nat (m + 1)) with (S (Z.to_nat m)) by lia. }
    rewrite Eb. split; [lia|]. split; [done|]. split; [intros; apply Hmk; lia|]. split.
    + rewrite Hs, H. replace (Z.to_nat (m + 1)) with (S (Z.to_nat m)) by lia. cbn [take].
      rewrite output_of_cons, <- !app_assoc. done.
    + destruct r as [n|i' out dn].
      * destruct Hr as [Hr Hr']. split; [destruct Hr; [left|right]; lia|intros; lia].
      * destruct Hr as (-> & -> & -> & -> & Hm' & Hk'). split_and!; lia || done.
Qed.

End output.

(** ** The theorems *)

Ltac small_bytes := repeat first [apply Forall_nil_2 | apply Forall_cons_2; [unfold is_u8; lia|]].

(** An open terminal with the default modes and a queue of 16 bytes. *)
Definition ex_ring (l : list Z) : RingBuffer.t :=
  RingBuffer.mk (Some (l ++ replicate (16 - length l) 0)) 16 (zlength l) 0 (zlength l).
Definition ex_tty (l : list Z) : tty := mktty 1 7 default_termios (25, 80) (ex_ring l) 1 true false.

Lemma ex_ring_valid l : zlength l < 16 -> valid (ex_ring l).
Proof.
  intros L. exists (l ++ replicate (16 - length l) 0). pose proof (zlength_nonneg l). split; simpl; try done.
  - by exists 4.
  - rewrite zlength_app. unfold zlength in *. rewrite length_replicate. lia.
  - lia.
  - rewrite Z.mod_small; lia.
Qed.

Lemma ex_tty_ready l : zlength l < 16 -> Forall is_u8 l -> ready (ex_tty l) /\ contents (ex_ring l) = l.
Proof.
  intros L F.
  assert (E : contents (ex_ring l) = l).
  { unfold contents, ex_ring. simpl. rewrite drop_0, <- app_assoc.
    unfold zlength. rewrite Nat2Z.id. by rewrite take_app_length. }
  split; [|done]. split; [by apply ex_ring_valid| |done|done].
  change (Forall is_u8 (contents (ex_ring l))). by rewrite E.
Qed.

(** C25: the two line disciplines agree.  When the atomic one accepts a byte, the
    interrupt one, echoing through a driver that fills the same output buffer,
    leaves the same terminal, the same output, the same signal and the same
    wake-up of readers; when the atomic one refuses a byte because the input
    queue is full, the other refuses it too and both change nothing. *)
Theorem line_disciplines_agree (y : tty) (c : Z) (out : RingBuffer.t) :
  ready y -> valid out ->
  let r := tty_receive_c_atomic y c out in
  let '(out', y', e, ret) := tty_receive_c ring_put out y c in
  (r_ret r = 0 -> ret = 0 /\ y' = r_tty r /\ contents out' = contents (r_output r) /\
                  e = signal_effect (r_signal r) ++ (if r_wake r then [Wake_read] else [])) /\
  (r_ret r <> 0 -> r_full r = false -> r_ret r = - EAGAIN /\ ret = - EAGAIN /\ y' = y /\ out' = out).
Proof. apply disciplines_agree_spec. Qed.

Lemma line_disciplines_agree_witness :
  let r := tty_receive_c_atomic (ex_tty [104; 105]) 127 (ex_ring []) in
  let '(out', y', e, ret) := tty_receive_c ring_put (ex_ring []) (ex_tty [104; 105]) 127 in
  r_ret r = 0 /\ y' = r_tty r /\ contents out' = [8; 32; 8] /\ contents (read_buf y') = [104].
Proof.
  assert (Y : ready (ex_tty [104; 105])) by (apply ex_tty_ready; [done|small_bytes]).
  pose proof (line_disciplines_agree (ex_tty [104; 105]) 127 (ex_ring []) Y (ex_ring_valid [] ltac:(done))) as H.
  destruct (tty_receive_c ring_put (ex_ring []) (ex_tty [104; 105]) 127) as [[[out' y'] e] ret].
  destruct H as [H _]. specialize (H eq_refl). destruct H as (_ & Hy & Ho & _).
  split; [reflexivity|]. split; [exact Hy|]. rewrite Ho, Hy. split; reflexivity.
Defined.

(** a typed line is read as it was edited: in canonical mode, with an empty
    queue, keys (characters and erasures) followed by a newline make exactly the
    line that a line editor makes of them available, with one wake-up at the
    newline, and a read with a large enough buffer returns it, newline included,
    and leaves the queue empty. *)
Theorem line_edited {D} (write : D -> list Z -> D * Z) (d : D) (y : tty) (keys : list Z) (cnt before : Z) :
  ready y -> has (c_lflag (tios y)) ICANON = true -> contents (read_buf y) = [] ->
  Forall (fun k => ordinary (tios y) k \/ eraser (tios y) k) keys ->
  zlength keys + 1 < RingBuffer.size (read_buf y) ->
  signal_of (tios y) 10 = None -> map_input (tios y) 10 = Some 10 -> cc (tios y) VERASE <> 10 ->
  cc (tios y) VEOF <> 10 -> zlength keys + 1 <= cnt ->
  exists d' y', tty_receive_s write d y (keys ++ [10]) = (d', y', [Wake_read]) /\
    exists y'', tty_read y' true (pgrp y) false false cnt before =
      Some (y'', RRet (zlength (edit (tios y) [] keys) + 1) (edit (tios y) [] keys ++ [10]), [Wake_input]) /\
    contents (read_buf y'') = [].
Proof.
  intros Y Hi H0 F L Hs Hm He Hf Hc.
  assert (Z0 : zlength (contents (read_buf y)) = 0) by (by rewrite H0).
  destruct (receive_keys write keys d y Y Hi F) as (d1 & rb1 & E1 & Y1 & C1 & S1 & L1); [lia|].
  rewrite H0 in C1. destruct (receive_push write d1 (set_read_buf rb1 y) 10 10 Y1 Hs Hm) as (d2 & rb2 & E2 & C2 & R2 & S2 & Y2).
  { change (tios (set_read_buf rb1 y)) with (tios y). rewrite Hi. cbn [andb]. lia. } { done. }
  { unfold room. simpl. lia. }
  assert (Hw : wakes_reader (tios (set_read_buf rb1 y)) 10 = true).
  { unfold wakes_reader. simpl. by rewrite Hi, orb_true_r. }
  rewrite Hw in E2. exists d2, (set_read_buf rb2 y). split.
  { rewrite receive_s_app, E1. cbn [tty_receive_s]. rewrite E2. done. }
  simpl in C2, S2. set (line := edit (tios y) [] keys) in *.
  assert (P : forallb (fun x => negb (delim (tios y) x)) line = true) by (by apply edit_plain).
  assert (Zl : zlength (contents rb2) = zlength line + 1) by (rewrite C2, C1, zlength_app; done).
  clearbody line.
  assert (Hl : readable (set_read_buf rb2 y) = zlength line + 1).
  { unfold readable. simpl. rewrite Hi. unfold room. rewrite S2, S1.
    destruct (Z.eqb_spec (RingBuffer.size (read_buf y) - zlength (contents rb2)) 0) as [E|_]; [rewrite Zl in E; rewrite C1 in L1; lia|].
    rewrite C2, C1. apply line_len_line; [done|]. unfold delim. by rewrite Z.eqb_refl. }
  pose proof (zlength_nonneg keys) as K.
  pose proof (tty_read_spec (set_read_buf rb2 y) false cnt before (pgrp y) Y2 eq_refl ltac:(lia)) as R.
  cbn zeta in R. rewrite Hl in R. pose proof (zlength_nonneg line). rewrite C1 in L1.
  replace (zlength line + 1 =? 0) with false in R by (symmetry; lia).
  rewrite Z.min_l in R by lia. destruct R as (rb3 & R & V3 & C3 & _). simpl in R, C3.
  exists (set_read_buf rb3 (set_read_buf rb2 y)). split.
  - rewrite R. replace (zlength line + 1 =? 0) with false by (symmetry; lia). rewrite <- Zl.
    unfold zlength at 1 2 3 5. rewrite Nat2Z.id, firstn_all, C2, C1.
    replace (byte_at (line ++ [10]) (Z.of_nat (length (line ++ [10])) - 1)) with 10.
    + change (s8 10) with 10. replace (10 =? cc (tios y) VEOF) with false by (symmetry; lia).
      reflexivity.
    + unfold byte_at. rewrite length_app. simpl. rewrite lookup_app_r by lia.
      by replace (Z.to_nat (Z.of_nat (length line + 1) - 1) - length line)%nat with 0%nat by lia.
  - simpl. rewrite C3, drop_ge; [done|]. unfold zlength in *. lia.
Qed.

Lemma line_edited_witness :
  exists y', tty_receive_s (fun d l => (d ++ l, zlength l)) [] (ex_tty []) ([108; 120; 127; 115] ++ [10]) =
    ([108; 120; 8; 32; 8; 115; 13; 10], y', [Wake_read]) /\
  exists y'', tty_read y' true 7 false false 80 0 = Some (y'', RRet 3 [108; 115; 10], [Wake_input]).
Proof.
  destruct (ex_tty_ready [] ltac:(done) ltac:(constructor)) as [Y E].
  destruct (line_edited (fun d l => (d ++ l, zlength l)) [] (ex_tty []) [108; 120; 127; 115] 80 0 Y) as (d' & y' & E1 & y'' & E2 & _);
    try done.
  - repeat apply Forall_cons_2; try apply Forall_nil_2; first [left; by repeat split|right; by repeat split].
  - exists y'. split; [|exists y''; exact E2].
    assert (Hd : (tty_receive_s (fun d l => (d ++ l, zlength l)) [] (ex_tty []) ([108; 120; 127; 115] ++ [10])).1.1
                 = [108; 120; 8; 32; 8; 115; 13; 10]) by reflexivity.
    rewrite E1 in Hd |- *. simpl in Hd. by rewrite Hd.
Defined.


Lemma tty_write_spec {D} (write : D -> list Z -> D * Z) (inv : D -> Prop) (sent : D -> list Z)
    (y : tty) (is_ctty : bool) (pg : Z) (nonblock pending : bool) (buf : list Z) (d : D) :
  driver_ok write inv sent -> inv d -> (tty_check y is_ctty pg).1 = 0 ->
  exists d' r, tty_write write y is_ctty pg nonblock pending buf d = Some (d', r, []) /\ inv d' /\
    stops 0 (tios y) nonblock buf (sent d) (sent d') r.
Proof.
  intros Hd I Hc. unfold tty_write.
  assert (E : tty_check y is_ctty pg = (0, [])).
  { unfold tty_check in *. repeat case_match; try done. }
  rewrite E. simpl.
  destruct (write_from_spec write inv sent Hd (tios y) nonblock pending buf 0 d I ltac:(lia)) as (d' & r & E' & I' & S).
  rewrite E'. eauto 6.
Qed.

(** a write puts out exactly the processed bytes, in order: with any driver
    that keeps an invariant and takes a prefix of what it is given or fails, the
    write never stops the machine, what the driver sent is the output of the bytes the result counts
    and possibly the start of the next one's, everything when all is written,
    and a write that sleeps knows exactly what is left of the byte it is at. *)
Theorem tty_write_output {D} (write : D -> list Z -> D * Z) (inv : D -> Prop) (sent : D -> list Z)
    (y : tty) (is_ctty : bool) (pg : Z) (nonblock pending : bool) (buf : list Z) (d : D) :
  driver_ok write inv sent -> inv d -> (tty_check y is_ctty pg).1 = 0 ->
  exists d' r, tty_write write y is_ctty pg nonblock pending buf d = Some (d', r, []) /\ inv d' /\
    stops 0 (tios y) nonblock buf (sent d) (sent d') r.
Proof. apply tty_write_spec. Qed.

(** A driver with room for five bytes. *)
Definition five (d l : list Z) : list Z * Z :=
  let n := Z.min (zlength l) (5 - zlength d) in (d ++ take (Z.to_nat n) l, n).

Lemma five_ok : driver_ok five (fun _ => True) id.
Proof. intros d l _. simpl. split; [done|]. split; [lia|done]. Qed.

Lemma tty_write_output_witness :
  exists d' r, tty_write five (ex_tty []) false 7 false false [97; 10; 98; 10; 99] [] = Some (d', r, []) /\
    d' = [97; 13; 10; 98; 13] /\ r = WSleep 3 [13; 10] 1 /\
    stops 0 default_termios false [97; 10; 98; 10; 99] [] d' r.
Proof.
  destruct (tty_write_output five (fun _ => True) id (ex_tty []) false 7 false false [97; 10; 98; 10; 99] [] five_ok I eq_refl)
    as (d' & r & E & _ & S).
  assert (E' : tty_write five (ex_tty []) false 7 false false [97; 10; 98; 10; 99] [] =
    Some ([97; 13; 10; 98; 13], WSleep 3 [13; 10] 1, [])) by reflexivity.
  rewrite E in E'. injection E' as -> ->. exists [97; 13; 10; 98; 13], (WSleep 3 [13; 10] 1).
  split; [exact E|]. split; [reflexivity|]. split; [reflexivity|exact S].
Defined.

(** poll tells the truth about reads: for an open terminal and a reader in
    the foreground without pending signals, poll reports input exactly when a
    non-blocking read does not answer EAGAIN, and exactly when a blocking one
    does not sleep. *)
Theorem poll_predicts_read (y : tty) (cnt before : Z) :
  ready y -> 0 <= cnt ->
  (has (tty_poll y) POLLIN = false <-> tty_read y true (pgrp y) true false cnt before = Some (y, RRet (- EAGAIN) [], [])) /\
  (has (tty_poll y) POLLIN = false <-> exists y' e, tty_read y true (pgrp y) false false cnt before = Some (y', RSleep, e)).
Proof.
  intros Y Hc.
  assert (P : has (tty_poll y) POLLIN = (0 <? readable y)).
  { unfold tty_poll. pose proof (rd_count _ Y). replace (count y <? 1) with false by (symmetry; lia).
    rewrite (rd_hung _ Y), get_n_read_spec by apply Y. by destruct (0 <? readable y). }
  pose proof (readable_range y).
  pose proof (tty_read_spec y true cnt before (pgrp y) Y eq_refl Hc) as R1.
  pose proof (tty_read_spec y false cnt before (pgrp y) Y eq_refl Hc) as R2.
  cbn zeta in R1, R2. rewrite P. destruct (Z.eqb_spec (readable y) 0) as [E|E].
  - rewrite E in *. simpl in *. rewrite R1, R2. split; (split; [intros _; eauto|done]).
  - destruct R1 as (rb1 & -> & _), R2 as (rb2 & -> & _).
    replace (0 <? readable y) with true by (symmetry; lia).
    split; (split; [done|]); [intros [=]|intros (y' & e & [=])].
Qed.

Lemma poll_predicts_read_witness :
  tty_read (ex_tty [104]) true 7 true false 80 0 = Some (ex_tty [104], RRet (- EAGAIN) [], []) /\
  has (tty_poll (ex_tty [104; 10])) POLLIN = true.
Proof.
  assert (Y : ready (ex_tty [104])) by (apply ex_tty_ready; [done|small_bytes]).
  split; [|reflexivity]. apply (poll_predicts_read (ex_tty [104]) 80 0 Y ltac:(lia)). reflexivity.
Defined.

(** a full line stalls its reader: once the queue of a canonical terminal is
    full without a complete line, bytes that are not signals or erasures are
    refused, newlines included, and none of them wakes_reader the reader that fell
    asleep before, although a read would now return the whole queue. *)
Theorem full_line_stalls {D} (write : D -> list Z -> D * Z) (d : D) (y : tty) (keys : list Z) :
  ready y -> has (c_lflag (tios y)) ICANON = true -> room (read_buf y) = 0 ->
  Forall (fun k => signal_of (tios y) k = None /\
                   forall k', map_input (tios y) k = Some k' -> k' <> cc (tios y) VERASE) keys ->
  tty_receive_s write d y keys = (d, y, []) /\ get_n_read y = zlength (contents (read_buf y)).
Proof.
  intros Y Hi Hr F. split.
  - induction F as [|k ks [Hs Hm] F IH]; [done|]. simpl.
    assert (E : exists r, tty_receive_c write d y k = (d, y, [], r)).
    { unfold tty_receive_c. pose proof (rd_count _ Y). replace (count y =? 0) with false by (symmetry; lia).
      rewrite Hs. destruct (map_input (tios y) k) as [k'|]; [|eauto].
      specialize (Hm k' eq_refl). rewrite Hi. replace (k' =? cc (tios y) VERASE) with false by (symmetry; lia).
      simpl. rewrite full_room by apply Y. rewrite Hr. simpl. eauto. }
    destruct E as [r ->]. by rewrite IH.
  - rewrite get_n_read_spec by apply Y. unfold readable. by rewrite Hi, Hr.
Qed.

(** Sixteen characters: the last one fills the queue and wakes_reader nobody, and the
    newline that follows is refused. *)
Lemma full_line_stalls_witness :
  let put := fun (d l : list Z) => (d ++ l, zlength l) in
  exists d y, tty_receive_s put [] (ex_tty []) (replicate 16 120) = (d, y, []) /\ ready y /\
    get_n_read (ex_tty []) = 0 /\ get_n_read y = 16 /\ tty_receive_s put d y [10; 10; 13] = (d, y, []).
Proof.
  intros put.
  destruct (ex_tty_ready [] ltac:(done) ltac:(constructor)) as [Y E].
  destruct (receive_keys put (replicate 16 120) [] (ex_tty []) Y eq_refl) as (d & rb & R & Y' & C & S & _).
  { repeat apply Forall_cons_2; try apply Forall_nil_2; left; by repeat split. }
  { reflexivity. }
  exists d, (set_read_buf rb (ex_tty [])). split; [exact R|]. split; [exact Y'|]. split; [reflexivity|].
  assert (Hc : contents rb = replicate 16 120) by (rewrite C; reflexivity).
  destruct (full_line_stalls put d (set_read_buf rb (ex_tty [])) [10; 10; 13] Y' eq_refl) as [H1 H2].
  - unfold room. simpl. rewrite S, Hc. reflexivity.
  - repeat apply Forall_cons_2; try apply Forall_nil_2; (split; [reflexivity|intros k' [= <-]; done]).
  - split; [|exact H1]. rewrite H2. simpl. by rewrite Hc.
Defined.

(** The erase key takes back the newline of a finished line. *)
Lemma erase_reopens_line {D} (write : D -> list Z -> D * Z) d y l : ready y ->
  has (c_lflag (tios y)) ICANON = true -> contents (read_buf y) = l ++ [10] -> room (read_buf y) <> 0 ->
  forallb (fun x => negb (delim (tios y) x)) l = true -> eraser (tios y) (cc (tios y) VERASE) ->
  exists d' y', tty_receive_c write d y (cc (tios y) VERASE) = (d', y', [], 0) /\
    get_n_read y = zlength l + 1 /\ get_n_read y' = 0.
Proof.
  intros Y Hi Hc Hr Hl (_ & Hs & Hm).
  destruct (receive_erase write d y _ Y Hs Hm) as (d' & rb & E & C & S & Y').
  { by rewrite Hi, Z.eqb_refl. }
  exists d', (set_read_buf rb y). split; [done|]. rewrite Hc, removelast_last in C.
  rewrite !get_n_read_spec by (apply Y || apply Y'). unfold readable. simpl. rewrite Hi, C, Hc. split.
  - destruct (Z.eqb_spec (room (read_buf y)) 0); [done|]. apply line_len_line; [done|]. reflexivity.
  - unfold room. rewrite C, S. pose proof (room_nonneg _ (rd_valid _ Y)) as R. unfold room in R, Hr.
    rewrite Hc, zlength_app in R, Hr. change (zlength [10]) with 1 in R, Hr.
    destruct (Z.eqb_spec (RingBuffer.size (read_buf y) - zlength l) 0); [lia|]. by apply line_len_none.
Qed.

End Tty.
