(* ===== verification/Pty.v ===== *)
(** * Pseudo terminals ([fs/char/pty.c])

    A pair joins a terminal, whose driver is [pty_write], to the output buffer
    that its master reads.  The pairs are a fixed table; [master_open] and
    [slave_open] count the open files of the two sides. *)
From S2P Require Import Prelude ByteQueue RingBuffer Tty.
Import Tty.
Import RingBuffer (contents, ring_buffer_write, ring_buffer_read, ring_buffer_full, ring_buffer_empty, ring_buffer_space).

Module Pty.

Definition NR_PTYS : nat := 32.

Inductive pty_state := PTY_FREE | PTY_ALLOCATED.

(** [struct pty_pair]; its number is its place in the table. *)
Record pair := mkpair {
  slave : tty;
  output : RingBuffer.t;
  state : pty_state;
  master_open : Z;
  slave_open : Z;
  slave_locked : bool;
}.

Definition set_slave (y : tty) (p : pair) : pair :=
  mkpair y (output p) (state p) (master_open p) (slave_open p) (slave_locked p).
Definition set_output (o : RingBuffer.t) (p : pair) : pair :=
  mkpair (slave p) o (state p) (master_open p) (slave_open p) (slave_locked p).
Definition set_pty_state (s : pty_state) (p : pair) : pair :=
  mkpair (slave p) (output p) s (master_open p) (slave_open p) (slave_locked p).
Definition set_open (m s : Z) (p : pair) : pair :=
  mkpair (slave p) (output p) (state p) m s (slave_locked p).
Definition set_locked (l : bool) (p : pair) : pair :=
  mkpair (slave p) (output p) (state p) (master_open p) (slave_open p) l.

Definition is_free (s : pty_state) : bool := match s with PTY_FREE => true | PTY_ALLOCATED => false end.

(** ** The driver of the slave *)

Definition pty_write (p : pair) (buf : list Z) : pair * Z :=
  if master_open p =? 0 then (p, - EIO) else
  let '(o, n) := ring_buffer_write (output p) buf (zlength buf) in (set_output o p, n).

(** ** Opening and closing *)

Definition ENOSPC : Z := 28.

Definition pty_bind_slave (p : pair) : pair * Z :=
  if is_free (state p) || (master_open p =? 0) || slave_locked p then (p, - EIO) else
  (set_slave (set_count (count (slave p) + 1) (slave p)) (set_open (master_open p) (slave_open p + 1) p), 0).

(** [pty_dup_open]: another file on the side of an open one. *)
Definition dup_master (p : pair) : pair * Z :=
  if is_free (state p) || (master_open p =? 0) then (p, - EIO) else
  (set_open (master_open p + 1) (slave_open p) p, 0).
Definition dup_slave (p : pair) : pair * Z :=
  if is_free (state p) then (p, - EIO) else
  (set_slave (set_count (count (slave p) + 1) (slave p)) (set_open (master_open p) (slave_open p + 1) p), 0).

(** [pty_master_open]: a free pair is taken under [pty_lock], then set up under
    its own lock. *)
Fixpoint find_free (ptys : list pair) : option nat :=
  match ptys with
  | [] => None
  | p :: l => if is_free (state p) then Some O else option_map S (find_free l)
  end.

Definition fresh_slave (y : tty) : tty :=
  mktty 0 0 default_termios (winsize y) (RingBuffer.ring_buffer_clear (read_buf y)) 1 (initialized y) false.
Definition setup_pair (p : pair) : pair :=
  mkpair (fresh_slave (slave p)) (RingBuffer.ring_buffer_clear (output p)) (state p) 1 0 true.

(** The two halves of [pty_release] under the lock of the pair: whether the pair
    becomes free afterwards, and what is signalled. *)
Definition release_master (p : pair) : option (pair * bool * list effect) :=
  assert! 0 <? master_open p ;;
  let p := set_open (master_open p - 1) (slave_open p) p in
  if master_open p =? 0 then
    assert! 0 <? count (slave p) ;;
    let y := slave p in
    let y := mktty (session y) (pgrp y) (tios y) (winsize y) (RingBuffer.ring_buffer_clear (read_buf y))
               (count y - 1) (initialized y) true in
    Some (set_slave y p, slave_open p =? 0,
          [Wake_read; Wake_write] ++
          (if 0 <? pgrp y then [Kill_pg (pgrp y) SIGHUP true; Kill_pg (pgrp y) 18 true] else []))
  else Some (p, false, []).

Definition release_slave (p : pair) : option (pair * bool * list effect) :=
  assert! 0 <? slave_open p ;;
  let p := set_open (master_open p) (slave_open p - 1) p in
  assert! 0 <? count (slave p) ;;
  let p := set_slave (set_count (count (slave p) - 1) (slave p)) p in
  Some (p, (master_open p =? 0) && (slave_open p =? 0),
        if slave_open p =? 0 then [Wake_master; Wake_input] else []).

(** ** The master's side *)

Inductive master_result := MRet (n : Z) (out : list Z) | MSleep.

Definition pty_master_read (p : pair) (nonblock pending : bool) (cnt : Z) : pair * master_result * list effect :=
  if negb (ring_buffer_empty (output p)) then
    let '(o, out, n) := ring_buffer_read (output p) (replicate (Z.to_nat cnt) 0) cnt in
    (set_output o p, MRet n (take (Z.to_nat n) out), [Wake_write; Wake_master])
  else if slave_open p =? 0 then (p, MRet (- EIO) [], [])
  else if nonblock then (p, MRet (- EAGAIN) [], [])
  else if pending then (p, MRet (- ERESTARTSYS) [], [])
  else (p, MSleep, []).

(** One attempt at one byte: the error and whether the output was full. *)
Definition master_write_one (p : pair) (c : Z) : pair * Z * bool * list effect :=
  let r := tty_receive_c_atomic (slave p) c (output p) in
  (set_output (r_output r) (set_slave (r_tty r) p), r_ret r, r_full r,
   if r_ret r =? 0 then (if r_wake r then [Wake_read] else []) ++ [Wake_master] ++ signal_effect (r_signal r) else []).

(** A write of the master, or byte [i] at which it sleeps, on its own queue when
    the output is full. *)
Inductive master_write_result := MWRet (n : Z) | MWSleep (i : Z) (full : bool).

Fixpoint master_write_from (p : pair) (nonblock pending : bool) (i : Z) (buf : list Z)
    : pair * master_write_result * list effect :=
  match buf with
  | [] => (p, MWRet i, [])
  | c :: buf' =>
    if slave_open p =? 0 then (p, MWRet (if i =? 0 then - EIO else i), []) else
    let '(p, err, full, e) := master_write_one p c in
    if err =? - EAGAIN then
      (if nonblock then (p, MWRet (if i =? 0 then - EAGAIN else i), e)
       else if pending then (p, MWRet (if i =? 0 then - ERESTARTSYS else i), e)
       else (p, MWSleep i full, e))
    else if negb (err =? 0) then (p, MWRet (if i =? 0 then err else i), e)
    else let '(p, r, e') := master_write_from p nonblock pending (i + 1) buf' in (p, r, e ++ e')
  end.
Definition pty_master_write (p : pair) (nonblock pending : bool) (buf : list Z) :=
  master_write_from p nonblock pending 0 buf.

Definition POLLERR : Z := 8.

Definition pty_master_poll (p : pair) : Z :=
  Z.lor
    (if negb (ring_buffer_empty (output p)) then POLLIN
     else if slave_open p =? 0 then Z.lor POLLERR POLLHUP else 0)
    (if negb (slave_open p =? 0) &&
        (negb (hung_up (slave p)) && negb (ring_buffer_full (read_buf (slave p))) &&
         (ring_buffer_space (output p) >=? 3))
     then POLLOUT else 0).

(** The controls of the master; [arg] is the [int] read from the user. *)
Inductive master_ioctl := TIOCGPTN | TIOCSPTLCK (arg : Z).
Definition pty_master_ioctl (number : nat) (p : pair) (c : master_ioctl) : pair * Z :=
  match c with
  | TIOCGPTN => (p, Z.of_nat number)
  | TIOCSPTLCK arg => (set_locked (negb (arg =? 0)) p, 0)
  end.

(** ** The files on the pairs *)

(** A pair with the files open on it: [gm] of the master, [gs] of the slave; an
    open between taking the pair and setting it up, and a release between
    dropping the last file and freeing the pair. *)
Record slot := mkslot { pr : pair; gm : nat; gs : nat; opening : bool; freeing : bool }.

Definition set_pr (p : pair) (x : slot) : slot := mkslot p (gm x) (gs x) (opening x) (freeing x).

(** The critical sections, in any interleaving: [None] is a failed assertion. *)
Inductive section :=
  | Take                (* pty_master_open: a free pair *)
  | Setup (k : nat)     (* pty_master_open: the set-up *)
  | Bind (k : nat) | Dup_master (k : nat) | Dup_slave (k : nat)
  | Unlock (k : nat)    (* TIOCSPTLCK *)
  | Release_master (k : nat) | Release_slave (k : nat)
  | Make_free (k : nat).

Definition at_slot (s : list slot) (k : nat) (f : slot -> option slot) : option (list slot) :=
  match s !! k with
  | None => Some s
  | Some x => option_map (fun x => <[k := x]> s) (f x)
  end.

(** A section that runs in a state in which no thread can run it changes nothing. *)
Definition run_section (s : list slot) (c : section) : option (list slot) :=
  match c with
  | Take => match find_free (map pr s) with
            | None => Some s
            | Some k => at_slot s k (fun x => Some (mkslot (set_pty_state PTY_ALLOCATED (pr x)) (gm x) (gs x) true (freeing x)))
            end
  | Setup k => at_slot s k (fun x => Some
      (if opening x then mkslot (setup_pair (pr x)) (S (gm x)) (gs x) false (freeing x) else x))
  | Bind k => at_slot s k (fun x => let '(p, err) := pty_bind_slave (pr x) in
      Some (if err =? 0 then mkslot p (gm x) (S (gs x)) (opening x) (freeing x) else set_pr p x))
  | Dup_master k => at_slot s k (fun x => if (gm x =? 0)%nat then Some x else
      let '(p, err) := dup_master (pr x) in
      Some (if err =? 0 then mkslot p (S (gm x)) (gs x) (opening x) (freeing x) else set_pr p x))
  | Dup_slave k => at_slot s k (fun x => if (gs x =? 0)%nat then Some x else
      let '(p, err) := dup_slave (pr x) in
      Some (if err =? 0 then mkslot p (gm x) (S (gs x)) (opening x) (freeing x) else set_pr p x))
  | Unlock k => at_slot s k (fun x => Some (if (gm x =? 0)%nat then x else set_pr (pty_master_ioctl k (pr x) (TIOCSPTLCK 0)).1 x))
  | Release_master k => at_slot s k (fun x => if (gm x =? 0)%nat then Some x else
      match release_master (pr x) with
      | None => None
      | Some (p, reusable, _) => Some (mkslot p (pred (gm x)) (gs x) (opening x) (reusable || freeing x))
      end)
  | Release_slave k => at_slot s k (fun x => if (gs x =? 0)%nat then Some x else
      match release_slave (pr x) with
      | None => None
      | Some (p, reusable, _) => Some (mkslot p (gm x) (pred (gs x)) (opening x) (reusable || freeing x))
      end)
  | Make_free k => at_slot s k (fun x => Some
      (if freeing x then mkslot (set_pty_state PTY_FREE (pr x)) (gm x) (gs x) (opening x) false else x))
  end.

Fixpoint run_sections (s : list slot) (l : list section) : option (list slot) :=
  match l with
  | [] => Some s
  | c :: l' => match run_section s c with None => None | Some s' => run_sections s' l' end
  end.

(** ** The counts of open files *)

Definition has_files (x : slot) : bool := negb ((gm x =? 0) && (gs x =? 0))%nat.

Record slot_ok (x : slot) : Prop := {
  so_master : master_open (pr x) = Z.of_nat (gm x);
  so_slave : slave_open (pr x) = Z.of_nat (gs x);
  so_count : count (slave (pr x)) = Z.of_nat (gs x) + if (gm x =? 0)%nat then 0 else 1;
  so_free : is_free (state (pr x)) = negb (has_files x || opening x || freeing x);
  so_opening : opening x = true -> has_files x = false /\ freeing x = false;
  so_freeing : freeing x = true -> has_files x = false;
}.

Lemma at_slot_ok s k f : Forall slot_ok s ->
  (forall x, slot_ok x -> exists x', f x = Some x' /\ slot_ok x') ->
  exists s', at_slot s k f = Some s' /\ Forall slot_ok s' /\ length s' = length s.
Proof.
  intros F Hf. unfold at_slot. destruct (s !! k) as [x|] eqn:E; [|eauto].
  destruct (Hf x) as (x' & -> & O); [rewrite Forall_lookup in F; eauto|].
  simpl. eexists. split; [done|]. split; [by apply Forall_insert|apply length_insert].
Qed.

Lemma find_free_spec l k : find_free l = Some k -> exists p, l !! k = Some p /\ is_free (state p) = true.
Proof.
  revert k. induction l as [|p l IH]; intros k; simpl; [done|]. destruct (is_free (state p)) eqn:E.
  - intros [= <-]. eauto.
  - destruct (find_free l) as [j|]; [|done]. intros [= <-]. simpl. by apply IH.
Qed.

Ltac slot_cases x :=
  destruct x as [p gm0 gs0 op fr]; destruct p as [y o st mo so lk];
  unfold has_files, pty_bind_slave, dup_master, dup_slave, release_master, release_slave, set_pr, set_slave, set_open,
    set_pty_state, setup_pair, fresh_slave, set_count, set_locked, pty_master_ioctl in *; simpl in *; subst.

Ltac close_slot := split; unfold has_files; simpl; rewrite ?andb_false_r in *; simpl in *; try done; try lia; try naive_solver.

Lemma run_section_ok s c : Forall slot_ok s ->
  exists s', run_section s c = Some s' /\ Forall slot_ok s' /\ length s' = length s.
Proof.
  intros F. destruct c as [|k|k|k|k|k|k|k|k]; simpl.
  - destruct (find_free (map pr s)) as [k|] eqn:E; [|eauto].
    apply find_free_spec in E as (p & Hp & Hfree). rewrite list_lookup_fmap in Hp.
    unfold at_slot. destruct (s !! k) as [x|] eqn:Ex; [|done]. simpl in Hp. injection Hp as <-.
    eexists. split; [reflexivity|]. split; [|apply length_insert]. apply Forall_insert; [done|].
    rewrite Forall_lookup in F. destruct (F _ _ Ex) as [H1 H2 H3 H4 H5 H6]. rewrite Hfree in H4.
    slot_cases x. destruct gm0, gs0, op, fr; simpl in *; try done; split; simpl; try done; auto.
  - apply at_slot_ok; [done|]. intros x [H1 H2 H3 H4 H5 H6]. eexists. split; [reflexivity|].
    destruct (opening x) eqn:Eo; [|split; try done; rewrite Eo; done].
    destruct (H5 eq_refl) as [Hf Hr]. slot_cases x. destruct gm0, gs0; try done.
  - apply at_slot_ok; [done|]. intros x [H1 H2 H3 H4 H5 H6]. slot_cases x.
    destruct (is_free st || (Z.of_nat gm0 =? 0) || lk) eqn:E; simpl; eexists; (split; [reflexivity|]).
    + by split.
    + destruct gm0; [rewrite orb_true_r in E; done|]. destruct st; [done|]. simpl in *.
      close_slot.
  - apply at_slot_ok; [done|]. intros x [H1 H2 H3 H4 H5 H6]. slot_cases x.
    destruct gm0; simpl; [eexists; split; [reflexivity|]; by split|].
    destruct (is_free st) eqn:E; simpl; eexists; (split; [reflexivity|]); close_slot.
  - apply at_slot_ok; [done|]. intros x [H1 H2 H3 H4 H5 H6]. slot_cases x.
    destruct gs0; simpl; [eexists; split; [reflexivity|]; by split|].
    destruct (is_free st) eqn:E; simpl; eexists; (split; [reflexivity|]); close_slot.
  - apply at_slot_ok; [done|]. intros x [H1 H2 H3 H4 H5 H6]. eexists. split; [reflexivity|]. slot_cases x.
    destruct gm0; by split.
  - apply at_slot_ok; [done|]. intros x [H1 H2 H3 H4 H5 H6]. slot_cases x.
    destruct gm0 as [|gm0]; simpl; [eexists; split; [reflexivity|]; by split|]. simpl in *.
    destruct op; [destruct (H5 eq_refl); done|]. destruct fr; [specialize (H6 eq_refl); done|].
    destruct (Z.eqb_spec (Z.of_nat (S gm0) - 1) 0) as [E|E].
    + assert (gm0 = 0%nat) by lia. subst. rewrite H3. replace (0 <? Z.of_nat gs0 + 1) with true by (symmetry; lia).
      simpl. eexists. split; [reflexivity|]. destruct gs0; close_slot.
    + eexists. split; [reflexivity|]. destruct gm0; [lia|]. close_slot.
  - apply at_slot_ok; [done|]. intros x [H1 H2 H3 H4 H5 H6]. slot_cases x.
    destruct gs0 as [|gs0]; simpl; [eexists; split; [reflexivity|]; by split|]. rewrite andb_false_r in *. simpl in *.
    destruct op; [destruct (H5 eq_refl); done|]. destruct fr; [specialize (H6 eq_refl); done|].
    assert (Hc : (0 <? count y) = true) by (apply Z.ltb_lt; rewrite H3; destruct gm0; cbn [Nat.eqb]; lia).
    assert (Em : (Z.of_nat gm0 =? 0) = (gm0 =? 0)%nat) by (by destruct gm0).
    assert (Eg : (Z.of_nat (S gs0) - 1 =? 0) = (gs0 =? 0)%nat) by (destruct gs0; [done|apply Z.eqb_neq; lia]).
    rewrite Hc, Em, Eg.
    eexists. split; [reflexivity|]. destruct gm0, gs0; close_slot.
  - apply at_slot_ok; [done|]. intros x [H1 H2 H3 H4 H5 H6]. eexists. split; [reflexivity|].
    destruct (freeing x) eqn:Ef; [|split; try done; rewrite Ef; done].
    specialize (H6 eq_refl). slot_cases x. destruct gm0, gs0, op; try done. destruct (H5 eq_refl). done.
Qed.


Lemma run_sections_ok l : forall s, Forall slot_ok s ->
  exists s', run_sections s l = Some s' /\ Forall slot_ok s' /\ length s' = length s.
Proof.
  induction l as [|c l IH]; intros s F; simpl; [eauto|].
  destruct (run_section_ok s c F) as (s1 & -> & F1 & L1). destruct (IH s1 F1) as (s2 & E & F2 & L2).
  exists s2. split; [done|]. split; [done|congruence].
Qed.

(** The table after [pty_init], with the pages of its queues. *)
Definition boot_pair (in_page out_page : list Z) : pair :=
  mkpair (mktty 0 0 default_termios (24, 80) (RingBuffer.mk (Some in_page) PAGE_SIZE 0 0 0) 0 true false)
    (RingBuffer.mk (Some out_page) PAGE_SIZE 0 0 0) PTY_FREE 0 0 false.
Definition boot_slots (in_page out_page : list Z) : list slot :=
  replicate NR_PTYS (mkslot (boot_pair in_page out_page) 0 0 false false).

(** ** Data *)

(** A pair whose two sides are open and whose queues are ring buffers. *)
Record linked (p : pair) : Prop := {
  ln_ready : ready (slave p);
  ln_output : valid (output p);
  ln_master : 0 < master_open p;
  ln_slave : 0 < slave_open p;
}.

Lemma tty_output_char_length t c : zlength (tty_output_char t c) <= 2 /\ (c <> 10 -> zlength (tty_output_char t c) = 1).
Proof.
  unfold tty_output_char. destruct (has (c_oflag t) OPOST); destruct (Z.eqb_spec c 10); destruct (has (c_oflag t) ONLCR);
    unfold zlength; simpl; lia.
Qed.

Lemma echo_bytes_length t lflag c popped : zlength (output_of t (echo_bytes t lflag c popped)) <= 3.
Proof.
  assert (E1 : forall a, output_of t [a] = tty_output_char t a) by (intros a; apply app_nil_r).
  assert (E2 : forall a b, output_of t [a; b] = tty_output_char t a ++ tty_output_char t b).
  { intros a b. by rewrite output_of_cons, E1. }
  unfold echo_bytes. destruct (negb (has lflag ECHO)); [done|]. destruct (_ && has lflag ECHOE).
  { destruct (negb _); [|done]. rewrite output_of_cons, E2, !zlength_app.
    rewrite !(proj2 (tty_output_char_length t _)) by done. done. }
  destruct (has lflag ECHOCTL); simpl.
  - destruct (control c || (c =? 127)) eqn:E.
    + rewrite E2, zlength_app, (proj2 (tty_output_char_length t 94)) by done.
      pose proof (proj1 (tty_output_char_length t (if c =? 127 then 63 else c + 0x40))). lia.
    + rewrite E1. pose proof (proj1 (tty_output_char_length t c)). lia.
  - rewrite E1. pose proof (proj1 (tty_output_char_length t c)). lia.
Qed.

(** With room for three bytes of echo and one of input, every byte is taken. *)
Lemma receive_accepts p c : linked p -> 0 < room (read_buf (slave p)) -> 3 <= room (output p) ->
  r_ret (tty_receive_c_atomic (slave p) c (output p)) = 0.
Proof.
  intros L Hi Ho. pose proof (ln_ready _ L) as Y. pose proof (rd_count _ Y). unfold tty_receive_c_atomic.
  rewrite (rd_hung _ Y). replace (count (slave p) =? 0) with false by (symmetry; lia). cbn [orb].
  destruct (atomic_input (slave p) c) as [[[[[c' rb] popped] push] wake] lflag] eqn:E.
  assert (Hf : push = true -> ring_buffer_full rb = false).
  { intros ->. unfold atomic_input in E. repeat case_match; simplify_eq.
    rewrite full_room by apply Y. lia. }
  replace (push && ring_buffer_full rb) with false by (destruct push; [by rewrite Hf|done]).
  fold (output_of (tios (slave p)) (echo_bytes (tios (slave p)) lflag c' popped)).
  pose proof (echo_bytes_length (tios (slave p)) lflag c' popped). rewrite space_room by apply L.
  destruct (Z.ltb_spec (room (output p)) (zlength (output_of (tios (slave p)) (echo_bytes (tios (slave p)) lflag c' popped))));
    [lia|done].
Qed.

(** The driver of a slave whose master is open. *)
Definition linked_out (p : pair) : Prop := valid (output p) /\ 0 < master_open p.

Lemma write_prefix rb l : valid rb ->
  let '(rb', n) := ring_buffer_write rb l (zlength l) in
  valid rb' /\ 0 <= n <= zlength l /\ contents rb' = contents rb ++ take (Z.to_nat n) l.
Proof.
  intros [d W]. pose proof (RingBuffer.ring_buffer_write_appends rb d l (zlength l) W ltac:(pose proof (zlength_nonneg l); lia)) as H.
  pose proof (RingBuffer.wf_len _ _ W). pose proof (zlength_nonneg l).
  destruct (ring_buffer_write rb l (zlength l)) as [rb' n]. destruct H as (-> & C & _ & V). split; [done|]. split; [lia|done].
Qed.

Lemma pty_driver_ok : driver_ok pty_write linked_out (fun p => contents (output p)).
Proof.
  intros p l [V M]. unfold pty_write. replace (master_open p =? 0) with false by (symmetry; lia).
  pose proof (write_prefix (output p) l V) as H. destruct (ring_buffer_write _ _ _) as [o n].
  destruct H as (V' & Hn & C). split; [done|]. split; [lia|done].
Qed.

Lemma master_read_spec p nonblock pending cnt : valid (output p) -> contents (output p) <> [] -> 0 <= cnt ->
  let n := Z.min cnt (zlength (contents (output p))) in
  exists o, pty_master_read p nonblock pending cnt =
    (set_output o p, MRet n (take (Z.to_nat n) (contents (output p))), [Wake_write; Wake_master]) /\
    contents o = drop (Z.to_nat n) (contents (output p)).
Proof.
  intros V Hne Hc n. unfold pty_master_read. rewrite empty_contents by done. rewrite bool_decide_eq_false_2 by done.
  simpl. destruct V as [d W]. pose proof (RingBuffer.ring_buffer_read_removes (output p) d (replicate (Z.to_nat cnt) 0) cnt W) as R.
  rewrite <- (RingBuffer.length_contents _ _ W) in R.
  destruct (ring_buffer_read (output p) (replicate (Z.to_nat cnt) 0) cnt) as [[o out] m].
  destruct R as (-> & -> & C & _); [unfold zlength; rewrite length_replicate; lia|]. fold n in C |- *.
  exists o. split; [|done]. rewrite take_app_le; [by rewrite take_take, Nat.min_id|].
  rewrite length_take. unfold n, zlength. lia.
Qed.

(** ** The theorems *)

(** C22: the open counts are exact and no assertion of a release can fail: in
    every interleaving of the critical sections of opens, duplications, unlocks
    and releases of both sides, the counts of a pair are the numbers of files
    open on it, the terminal counts its slaves and one for the master, and a
    pair is free, to be handed out by the next open of the multiplexer, exactly
    when it has no file and no open or release is under way. *)
Theorem pty_files_exact (in_page out_page : list Z) (l : list section) :
  exists s, run_sections (boot_slots in_page out_page) l = Some s /\ length s = NR_PTYS /\ Forall slot_ok s.
Proof.
  destruct (run_sections_ok l (boot_slots in_page out_page)) as (s & E & F & L).
  - apply Forall_replicate. by split.
  - exists s. split; [done|]. split; [|done]. by rewrite L; unfold boot_slots; rewrite length_replicate.
Qed.

(** poll on the master tells the truth: when it reports room, a write of any
    one byte is taken at once; when it reports neither input nor an error, a
    non-blocking read answers EAGAIN, and when it reports input, a read returns
    bytes. *)
Theorem master_poll_truth (p : pair) (c cnt : Z) (pending : bool) :
  linked p -> 0 < cnt ->
  (has (pty_master_poll p) POLLOUT = true -> (pty_master_write p true pending [c]).1.2 = MWRet 1) /\
  (has (pty_master_poll p) POLLIN = false -> (pty_master_read p true pending cnt).1.2 = MRet (- EAGAIN) []) /\
  (has (pty_master_poll p) POLLIN = true ->
     exists n out, (pty_master_read p true pending cnt).1.2 = MRet n out /\ 0 < n /\ n = zlength out).
Proof.
  intros L Hc. pose proof (ln_ready _ L) as Y. pose proof (ln_slave _ L) as Hs.
  unfold pty_master_poll. replace (slave_open p =? 0) with false by (symmetry; lia). cbn [negb].
  rewrite (rd_hung _ Y), empty_contents by apply L. rewrite full_room by apply Y. rewrite space_room by apply L.
  split; [|split].
  - intros H. assert (Hr : 0 < room (read_buf (slave p)) /\ 3 <= room (output p)).
    { pose proof (room_nonneg _ (rd_valid _ Y)). destruct (Z.eqb_spec (room (read_buf (slave p))) 0);
        destruct (Z.geb_spec (room (output p)) 3); try lia; case_bool_decide; done. }
    unfold pty_master_write. simpl. replace (slave_open p =? 0) with false by (symmetry; lia).
    unfold master_write_one. rewrite receive_accepts by (done || lia). done.
  - intros H. unfold pty_master_read. rewrite empty_contents by apply L. case_bool_decide.
    + simpl. replace (slave_open p =? 0) with false by (symmetry; lia). done.
    + exfalso. revert H. simpl. by destruct (_ && _).
  - intros H. case_bool_decide as Hne; [exfalso; revert H; simpl; by destruct (_ && _)|].
    destruct (master_read_spec p true pending cnt (ln_output _ L) Hne ltac:(lia)) as (o & E & _).
    rewrite E. eexists _, _. split; [reflexivity|].
    assert (0 < zlength (contents (output p))) by (unfold zlength; destruct (contents (output p)); [done|simpl; lia]).
    split; [lia|]. unfold zlength at 2. rewrite length_take. unfold zlength. lia.
Qed.

Definition ex_pair (input out : list Z) : pair := mkpair (ex_tty input) (ex_ring out) PTY_ALLOCATED 1 1 false.

Lemma ex_pair_linked input out : zlength input < 16 -> zlength out < 16 -> Forall is_u8 input -> linked (ex_pair input out).
Proof. intros Hi Ho F. split; [by apply ex_tty_ready|by apply ex_ring_valid|done|done]. Qed.

Lemma master_poll_truth_witness :
  linked (ex_pair [104] []) /\ (pty_master_write (ex_pair [104] []) true false [10]).1.2 = MWRet 1 /\
  (pty_master_read (ex_pair [104] []) true false 80).1.2 = MRet (- EAGAIN) [].
Proof.
  assert (L : linked (ex_pair [104] [])) by (apply ex_pair_linked; [done|done|small_bytes]). split; [exact L|].
  destruct (master_poll_truth (ex_pair [104] []) 10 80 false L ltac:(lia)) as (H1 & H2 & _).
  split; [apply H1; reflexivity|apply H2; reflexivity].
Defined.

(** what the slave writes reaches the master: after a write of the slave to an
    empty output buffer, a read of the master returns the first [cnt] bytes of
    what is out, which is the processed form of the bytes that the write counts
    and the part of the next byte that it reports. *)
Theorem slave_output_reaches_master (p : pair) (buf : list Z) (cnt : Z) (nonblock pending : bool) :
  linked p -> contents (output p) = [] -> 0 <= cnt ->
  exists p' r, tty_write pty_write (slave p) true (pgrp (slave p)) nonblock pending buf p = Some (p', r, []) /\
    stops 0 (tios (slave p)) nonblock buf [] (contents (output p')) r /\
    (contents (output p') <> [] ->
       let n := Z.min cnt (zlength (contents (output p'))) in
       exists o, pty_master_read p' nonblock pending cnt =
         (set_output o p', MRet n (take (Z.to_nat n) (contents (output p'))), [Wake_write; Wake_master]) /\
       contents o = drop (Z.to_nat n) (contents (output p'))).
Proof.
  intros L H0 Hc. pose proof (ln_ready _ L) as Y.
  destruct (tty_write_spec pty_write linked_out (fun p => contents (output p)) (slave p) true (pgrp (slave p))
              nonblock pending buf p pty_driver_ok) as (p' & r & E & [V _] & S).
  - split; apply L.
  - unfold tty_check. rewrite (rd_hung _ Y), Z.eqb_refl. cbn [negb]. by rewrite andb_false_r.
  - rewrite H0 in S. exists p', r. split; [done|]. split; [done|]. intros Hne. by apply master_read_spec.
Qed.

Lemma slave_output_reaches_master_witness :
  exists p', tty_write pty_write (ex_tty []) true 7 true false [104; 10] (ex_pair [] []) = Some (p', WRet 2, []) /\
    (pty_master_read p' true false 80).1.2 = MRet 3 [104; 13; 10].
Proof.
  assert (L : linked (ex_pair [] [])) by (apply ex_pair_linked; [done|done|constructor]).
  destruct (slave_output_reaches_master (ex_pair [] []) [104; 10] 80 true false L eq_refl ltac:(lia)) as (p' & r & E & _ & R).
  assert (E' : tty_write pty_write (slave (ex_pair [] [])) true (pgrp (slave (ex_pair [] []))) true false [104; 10] (ex_pair [] []) =
    Some (ex_pair [] [104; 13; 10], WRet 2, [])) by reflexivity.
  rewrite E in E'. injection E' as -> ->. exists (ex_pair [] [104; 13; 10]). split; [exact E|].
  destruct (R ltac:(done)) as (o & -> & _). reflexivity.
Defined.

End Pty.
