(* ===== verification/Process.v ===== *)
(** * Processes: the task tree, exit and wait, signals, sessions
    ([kernel/fork.c], [kernel/exit.c], [kernel/sys.c], [fs/char/tty.c])

    A task is known by its pid, which is never given twice.  The pointers to
    parent, youngest child and siblings are kept apart from the other fields;
    [order] is the circular list of all tasks from [init_task] on.  Exit is
    several steps, as other processors see it. *)
From S2P Require Import Prelude.

Module Process.

(** ** Constants *)

Definition EPERM : Z := 1.
Definition ESRCH : Z := 3.
Definition ECHILD : Z := 10.
Definition ENOTTY : Z := 25.

Definition SIGHUP : Z := 1.
Definition SIGKILL : Z := 9.
Definition SIGCHLD : Z := 17.
Definition SIGCONT : Z := 18.
Definition SIGSTOP : Z := 19.
Definition SIGTSTP : Z := 20.
Definition SIGTTIN : Z := 21.
Definition SIGTTOU : Z := 22.
Definition SIGWINCH : Z := 28.

Definition SIG_DFL : Z := 0.
Definition SIG_IGN : Z := 1.

Definition CLONE_THREAD : Z := 0x10000.

(** ** State *)

Inductive tstate := RUNNING | INTERRUPTIBLE | UNINTERRUPTIBLE | ZOMBIE | STOPPED.
#[global] Instance tstate_eq_dec : EqDecision tstate.
Proof. solve_decision. Defined.

(** How far a task is in [do_exit] and in the switch that leaves it for good. *)
Inductive phase := Alive | Leaving | Exiting | Reparented | Zombied | Coded | Parked.
#[global] Instance phase_eq_dec : EqDecision phase.
Proof. solve_decision. Defined.

(** The fields of [struct task_struct] used here; [phs] is not in the code. *)
Record task := mktask {
  pgrp : Z; session : Z; tgid : Z;
  state : tstate;
  exit_code : Z; exit_signal : Z;
  signal : Z; blocked : Z;
  handlers : list Z;
  leader : bool; did_exec : bool; parked : bool;
  ctty : option nat;
  phs : phase;
}.

Record links := mklinks {
  p_pptr : Z;
  p_cptr : option Z;
  p_osptr : option Z;
  p_ysptr : option Z;
}.

(** The session and the foreground group of a terminal. *)
Record term := mkterm { t_session : Z; t_pgrp : Z }.

(** A task that has taken its session off a terminal, and still has to take the
    terminal off the tasks of the session: the terminal, the session, and the
    group to hang up. *)
Record detachment := mkdetach { d_tty : nat; d_session : Z; d_pgrp : Z }.
#[global] Instance detachment_eq_dec : EqDecision detachment.
Proof. solve_decision. Defined.

(** [pend]: the tasks that are between the two lock sections of
    [tty_detach_session]. *)
Record sys := mksys {
  tasks : gmap Z task;
  tree : gmap Z links;
  order : list Z;
  last_pid : Z;
  terms : list term;
  pend : gmap Z detachment;
}.

Definition init_task : Z := 0.
(** [init_task.next_task] *)
Definition init (s : sys) : Z := match order s with i :: _ => i | [] => init_task end.

Definition set_tasks (m : gmap Z task) (s : sys) : sys := mksys m (tree s) (order s) (last_pid s) (terms s) (pend s).
Definition set_tree (m : gmap Z links) (s : sys) : sys := mksys (tasks s) m (order s) (last_pid s) (terms s) (pend s).
Definition set_order (l : list Z) (s : sys) : sys := mksys (tasks s) (tree s) l (last_pid s) (terms s) (pend s).
Definition set_last_pid (n : Z) (s : sys) : sys := mksys (tasks s) (tree s) (order s) n (terms s) (pend s).
Definition set_terms (l : list term) (s : sys) : sys := mksys (tasks s) (tree s) (order s) (last_pid s) l (pend s).
Definition set_pend (m : gmap Z detachment) (s : sys) : sys :=
  mksys (tasks s) (tree s) (order s) (last_pid s) (terms s) m.
Definition upd (i : Z) (f : task -> task) (s : sys) : sys := set_tasks (alter f i (tasks s)) s.

Definition set_ids (pg se : Z) (ld : bool) (t : task) : task :=
  mktask pg se (tgid t) (state t) (exit_code t) (exit_signal t) (signal t) (blocked t) (handlers t) ld (did_exec t)
    (parked t) (ctty t) (phs t).
Definition set_ctty (c : option nat) (t : task) : task :=
  mktask (pgrp t) (session t) (tgid t) (state t) (exit_code t) (exit_signal t) (signal t) (blocked t) (handlers t)
    (leader t) (did_exec t) (parked t) c (phs t).
Definition set_run (st : tstate) (code sig : Z) (t : task) : task :=
  mktask (pgrp t) (session t) (tgid t) st code (exit_signal t) sig (blocked t) (handlers t) (leader t) (did_exec t)
    (parked t) (ctty t) (phs t).
Definition set_phase (p : phase) (t : task) : task :=
  mktask (pgrp t) (session t) (tgid t) (state t) (exit_code t) (exit_signal t) (signal t) (blocked t) (handlers t)
    (leader t) (did_exec t) (parked t) (ctty t) p.
Definition set_exec (t : task) : task :=
  mktask (pgrp t) (session t) (tgid t) (state t) (exit_code t) (exit_signal t) (signal t) (blocked t) (handlers t)
    (leader t) true (parked t) (ctty t) (phs t).
Definition set_exit_signal (n : Z) (t : task) : task :=
  mktask (pgrp t) (session t) (tgid t) (state t) (exit_code t) n (signal t) (blocked t) (handlers t) (leader t)
    (did_exec t) (parked t) (ctty t) (phs t).
Definition set_parked (t : task) : task :=
  mktask (pgrp t) (session t) (tgid t) (state t) (exit_code t) (exit_signal t) (signal t) (blocked t) (handlers t)
    (leader t) (did_exec t) true (ctty t) (phs t).

(** ** Signals *)

Definition sigbit (sig : Z) : Z := Z.shiftl 1 (sig - 1).
Definition handler (t : task) (sig : Z) : Z := default SIG_DFL (handlers t !! Z.to_nat (sig - 1)).

(** [send_sig] under the lock of the task. *)
Definition post_sig (sig : Z) (t : task) : task :=
  if decide (state t = ZOMBIE) then t else
  let t := if (sig =? SIGKILL) || (sig =? SIGCONT)
           then set_run (if decide (state t = STOPPED) then RUNNING else state t) 0
                  (Z.ldiff (signal t) (Z.lor (sigbit SIGSTOP) (Z.lor (sigbit SIGTSTP) (Z.lor (sigbit SIGTTIN) (sigbit SIGTTOU))))) t
           else t in
  let t := if (SIGSTOP <=? sig) && (sig <=? SIGTTOU)
           then set_run (state t) (exit_code t) (Z.ldiff (signal t) (sigbit SIGCONT)) t else t in
  if (handler t sig =? SIG_IGN) && negb (sig =? SIGCHLD) then t else
  if (handler t sig =? SIG_DFL) && ((sig =? SIGCONT) || (sig =? SIGCHLD) || (sig =? SIGWINCH)) then t else
  set_run (state t) (exit_code t) (Z.lor (signal t) (sigbit sig)) t.

Definition send_sig (sig : Z) (i : Z) (s : sys) : sys * Z :=
  if bool_decide (tasks s !! i = None) || (u32 sig >? 32) then (s, - EINVAL) else
  if sig =? 0 then (s, 0) else (upd i (post_sig sig) s, 0).

(** Sending to every task that satisfies [p], in the order of the list: the
    number of successes and the last error. *)
Fixpoint send_all (l : list Z) (p : Z -> task -> bool) (sig cnt res : Z) (s : sys) : sys * Z * Z :=
  match l with
  | [] => (s, cnt, res)
  | i :: l' =>
    if match tasks s !! i with Some t => p i t | None => false end then
      let '(s, err) := send_sig sig i s in
      if negb (err =? 0) then send_all l' p sig cnt err s else send_all l' p sig (cnt + 1) res s
    else send_all l' p sig cnt res s
  end.

Definition kill_group (p : Z -> task -> bool) (sig : Z) (s : sys) : sys * Z :=
  let '(s, cnt, res) := send_all (order s) p sig 0 (- ESRCH) s in (s, if cnt =? 0 then res else 0).

Definition bad_sig (sig : Z) : bool := (sig <? 0) || (sig >? 32).

Definition kill_pg (pg sig : Z) (s : sys) : sys * Z :=
  if bad_sig sig || (pg <=? 0) then (s, - EINVAL) else kill_group (fun _ t => pgrp t =? pg) sig s.
Definition kill_sl (se sig : Z) (s : sys) : sys * Z :=
  if bad_sig sig || (se <=? 0) then (s, - EINVAL) else kill_group (fun _ t => (session t =? se) && leader t) sig s.
Definition kill_proc (pid sig : Z) (s : sys) : sys * Z :=
  if bad_sig sig then (s, - EINVAL) else
  if bool_decide (pid ∈ order s) then send_sig sig pid s else (s, - ESRCH).

Fixpoint send_others (l : list Z) (me sig cnt res : Z) (s : sys) : sys * Z * Z :=
  match l with
  | [] => (s, cnt, res)
  | i :: l' =>
    if (i >? 1) && negb (i =? me) then
      let '(s, err) := send_sig sig i s in
      send_others l' me sig (cnt + 1) (if err =? - EPERM then res else err) s
    else send_others l' me sig cnt res s
  end.

(** [me] is the current task; no task has pid 0 on the list. *)
Definition sys_kill (me pid sig : Z) (s : sys) : sys * Z :=
  match tasks s !! me with
  | None => (s, - ESRCH)
  | Some t =>
    if pid =? 0 then kill_pg (pgrp t) sig s else
    if pid =? -1 then let '(s, cnt, res) := send_others (order s) me sig 0 0 s in (s, if cnt =? 0 then - ESRCH else res) else
    if pid <? 0 then kill_pg (- pid) sig s else kill_proc pid sig s
  end.

(** ** The tree *)

Definition alter_link (i : Z) (f : links -> links) (T : gmap Z links) : gmap Z links := alter f i T.
Definition set_pptr (x : Z) (l : links) := mklinks x (p_cptr l) (p_osptr l) (p_ysptr l).
Definition set_cptr (x : option Z) (l : links) := mklinks (p_pptr l) x (p_osptr l) (p_ysptr l).
Definition set_osptr (x : option Z) (l : links) := mklinks (p_pptr l) (p_cptr l) x (p_ysptr l).
Definition set_ysptr (x : option Z) (l : links) := mklinks (p_pptr l) (p_cptr l) (p_osptr l) x.

(** [p->f = x] for a pointer that may be NULL: the write happens only when it is not. *)
Definition alter_opt (o : option Z) (f : links -> links) (T : gmap Z links) : gmap Z links :=
  match o with Some i => alter f i T | None => T end.

Definition cptr_of (T : gmap Z links) (i : Z) : option Z := T !! i ≫= p_cptr.
Definition osptr_of (T : gmap Z links) (i : Z) : option Z := T !! i ≫= p_osptr.
Definition ysptr_of (T : gmap Z links) (i : Z) : option Z := T !! i ≫= p_ysptr.
Definition pptr_of (T : gmap Z links) (i : Z) : Z := default init_task (p_pptr <$> T !! i).

(** [SET_LINKS] for the new task [p] of parent [par]. *)
Definition SET_LINKS (p par : Z) (T : gmap Z links) : gmap Z links :=
  let os := cptr_of T par in
  let T := <[p := mklinks par None os None]> T in
  let T := alter_opt os (set_ysptr (Some p)) T in
  alter (set_cptr (Some p)) par T.

Definition REMOVE_LINKS (p : Z) (T : gmap Z links) : gmap Z links :=
  let T := alter_opt (osptr_of T p) (set_ysptr (ysptr_of T p)) T in
  match ysptr_of T p with
  | Some y => alter (set_osptr (osptr_of T p)) y T
  | None => alter (set_cptr (osptr_of T p)) (pptr_of T p) T
  end.

(** One child of [cur] moves to [ini] ([do_exit]). *)
Definition move_child (cur ini p : Z) (T : gmap Z links) : gmap Z links :=
  let T := alter (set_cptr (osptr_of T p)) cur T in
  let T := alter (set_ysptr None) p T in
  let T := alter (set_pptr ini) p T in
  let T := alter (set_osptr (cptr_of T ini)) p T in
  let T := alter_opt (osptr_of T p) (set_ysptr (Some p)) T in
  alter (set_cptr (Some p)) ini T.

(** ** Orphaned groups *)

Fixpoint any_task (l : list Z) (p : Z -> task -> bool) (s : sys) : bool :=
  match l with
  | [] => false
  | i :: l' => match tasks s !! i with Some t => p i t | None => false end || any_task l' p s
  end.

Definition is_orphaned_pgrp (pg : Z) (s : sys) : bool :=
  negb (any_task (order s) (fun i t =>
    let par := pptr_of (tree s) i in
    (pgrp t =? pg) && negb (bool_decide (state t = ZOMBIE)) && negb (par =? 1) &&
    match tasks s !! par with Some pt => negb (pgrp pt =? pg) && (session pt =? session t) | None => false end) s).
Definition has_stopped_jobs (pg : Z) (s : sys) : bool :=
  any_task (order s) (fun _ t => (pgrp t =? pg) && bool_decide (state t = STOPPED)) s.

Definition hang_up (pg : Z) (s : sys) : sys := (kill_pg pg SIGCONT (kill_pg pg SIGHUP s).1).1.

(** [notify_parent]; the wake-up of the waiting parent is not part of the state. *)
Definition notify_parent (p : Z) (s : sys) : sys :=
  let s := if pptr_of (tree s) p =? init s then upd p (set_exit_signal SIGCHLD) s else s in
  match tasks s !! p with
  | Some t => (send_sig (exit_signal t) (pptr_of (tree s) p) s).1
  | None => s
  end.

(** ** Fork and clone *)

(** What the child starts with, a copy of [current] but for these fields.
    [thread]: CLONE_THREAD. *)
Definition child_task (t : task) (pid : Z) (thread : bool) : task :=
  mktask (pgrp t) (session t) (if thread then tgid t else pid) RUNNING (exit_code t) (if thread then 0 else SIGCHLD)
    0 (blocked t) (handlers t) false false false (ctty t) Alive.

(** [do_fork] and [do_clone]: [err] is the error of the allocations and copies
    that come before the pid, after which nothing fails ([early]), or after it. *)
Definition do_clone (me flags : Z) (early late : Z) (s : sys) : sys * Z :=
  match tasks s !! me with
  | None => (s, - ESRCH)
  | Some t =>
    if negb (early =? 0) then (s, early) else
    let pid := last_pid s + 1 in
    let s := set_last_pid pid s in
    if negb (late =? 0) then (s, late) else
    let s := set_tasks (<[pid := child_task t pid (negb (Z.land flags CLONE_THREAD =? 0))]> (tasks s)) s in
    let s := set_tree (SET_LINKS pid me (tree s)) s in
    (set_order (order s ++ [pid]) s, pid)
  end.

(** ** Terminals and sessions *)

(** [current->tty != NULL && current->tty != tty], and the like. *)
Definition is_ctty (t : task) (k : nat) : bool := bool_decide (ctty t = Some k).

Definition tty_set_controlling (me : Z) (k : nat) (s : sys) : sys * Z :=
  match tasks s !! me, terms s !! k with
  | Some t, Some y =>
    if negb (leader t) then (s, - EPERM) else
    if negb (bool_decide (ctty t = None)) && negb (is_ctty t k) then (s, - EPERM) else
    if negb (t_session y =? 0) && negb (t_session y =? session t) then (s, - EPERM) else
    (set_terms (<[k := mkterm (session t) (pgrp t)]> (terms s)) (upd me (set_ctty (Some k)) s), 0)
  | _, _ => (s, 0)
  end.

Definition tty_try_set_controlling (me : Z) (k : nat) (noctty : bool) (s : sys) : sys :=
  match tasks s !! me, terms s !! k with
  | Some t, Some y =>
    if negb noctty && leader t && bool_decide (ctty t = None) && (t_session y =? 0)
    then (tty_set_controlling me k s).1 else s
  | _, _ => s
  end.

(** The loop of [tty_detach_session]. *)
Fixpoint drop_ctty (l : list Z) (k : nat) (se : Z) (s : sys) : sys :=
  match l with
  | [] => s
  | i :: l' => drop_ctty l' k se
      (match tasks s !! i with
       | Some t => if (session t =? se) && is_ctty t k then upd i (set_ctty None) s else s
       | None => s
       end)
  end.

(** The first lock section of [tty_detach_session], by [me]. *)
Definition tty_detach_session (me : Z) (k : nat) (se : Z) (s : sys) : sys :=
  match terms s !! k with
  | None => s
  | Some y =>
    if negb (t_session y =? se) then s else
    set_pend (<[me := mkdetach k se (t_pgrp y)]> (pend s)) (set_terms (<[k := mkterm 0 0]> (terms s)) s)
  end.

(** The second, with the signals sent after it. *)
Definition detach_tasks (me : Z) (s : sys) : sys :=
  match pend s !! me with
  | None => s
  | Some d =>
    let s := set_pend (delete me (pend s)) (drop_ctty (order s) (d_tty d) (d_session d) s) in
    if d_pgrp d >? 0 then hang_up (d_pgrp d) s else s
  end.

(** [pty_master_open], on the terminal of the free pair it takes. *)
Definition pty_reset_tty (k : nat) (s : sys) : sys := set_terms (<[k := mkterm 0 0]> (terms s)) s.

(** [session_of_pgrp] *)
Fixpoint session_of_pgrp (l : list Z) (pg fallback : Z) (s : sys) : Z :=
  match l with
  | [] => fallback
  | i :: l' =>
    match tasks s !! i with
    | Some t =>
      if session t <=? 0 then session_of_pgrp l' pg fallback s else
      if pgrp t =? pg then session t else
      session_of_pgrp l' pg (if i =? pg then session t else fallback) s
    | None => session_of_pgrp l' pg fallback s
    end
  end.

(** The controls of [tty_ioctl_tty] on sessions and groups; [ok] is the result of
    [verify_area], [arg] the group read from the user. *)
Inductive ctl := TIOCSCTTY | TIOCNOTTY | TIOCGPGRP | TIOCSPGRP (arg : Z) | TIOCGSID.

(** The new state, the error and the value put to the user. *)
Definition tty_ioctl_tty (me : Z) (k : nat) (c : ctl) (ok : Z) (s : sys) : sys * Z * Z :=
  match tasks s !! me, terms s !! k with
  | Some t, Some y =>
    if is_ctty t k && (match c with TIOCSPGRP _ => false | _ => true end) && negb (pgrp t =? t_pgrp y)
    then ((kill_pg (pgrp t) SIGTTOU s).1, - 512, 0) else
    match c with
    | TIOCSCTTY => let '(s, err) := tty_set_controlling me k s in (s, err, 0)
    | TIOCNOTTY => if negb (is_ctty t k) then (s, - ENOTTY, 0) else (tty_detach_session me k (session t) s, 0, 0)
    | TIOCGPGRP => if negb (is_ctty t k) then (s, - ENOTTY, 0) else if negb (ok =? 0) then (s, ok, 0) else (s, 0, t_pgrp y)
    | TIOCGSID => if negb (is_ctty t k) then (s, - ENOTTY, 0) else if negb (ok =? 0) then (s, ok, 0) else (s, 0, t_session y)
    | TIOCSPGRP arg =>
      if negb (is_ctty t k) then (s, - ENOTTY, 0) else
      if negb (ok =? 0) then (s, ok, 0) else
      if negb (t_session y =? session t) then (s, - ENOTTY, 0) else
      if arg <? 0 then (s, - EINVAL, 0) else
      if negb (session_of_pgrp (order s) arg (-1) s =? t_session y) then (s, - EPERM, 0) else
      (set_terms (<[k := mkterm (t_session y) arg]> (terms s)) s, 0, 0)
    end
  | _, _ => (s, 0, 0)
  end.

Definition sys_setsid (me : Z) (s : sys) : sys * Z :=
  match tasks s !! me with
  | None => (s, - ESRCH)
  | Some t => if leader t then (s, - EPERM) else (upd me (fun t => set_ids me me true (set_ctty None t)) s, me)
  end.

Definition sys_getpgid (me pid : Z) (s : sys) : Z :=
  match tasks s !! (if pid =? 0 then me else pid) with
  | Some t => if (pid =? 0) || bool_decide (pid ∈ order s) then pgrp t else - ESRCH
  | None => - ESRCH
  end.

Definition sys_setpgid (me pid pgid : Z) (s : sys) : sys * Z :=
  match tasks s !! me with
  | None => (s, - ESRCH)
  | Some c =>
    let pid := if pid =? 0 then me else pid in
    let pgid := if pgid =? 0 then pid else pgid in
    if pgid <? 0 then (s, - EINVAL) else
    match (if bool_decide (pid ∈ order s) then tasks s !! pid else None) with
    | None => (s, - ESRCH)
    | Some t =>
      let mine := pptr_of (tree s) pid =? me in
      if mine && negb (session t =? session c) then (s, - EPERM) else
      if mine && did_exec t then (s, - EACCES) else
      if negb mine && negb (pid =? me) then (s, - ESRCH) else
      if leader t then (s, - EPERM) else
      if negb (pgid =? pid) && negb (any_task (order s) (fun _ x => (pgrp x =? pgid) && (session x =? session c)) s)
      then (s, - EPERM) else
      (upd pid (fun t => set_ids pgid (session t) (leader t) t) s, 0)
    end
  end.

(** ** Exit *)

(** The first part, up to the first lock section of the detachment; [None]: init
    exits and the machine stops. *)
Definition exit_begin (me : Z) (s : sys) : option sys :=
  if me =? init_task then Some s else
  assert! negb (me =? init s) ;;
  match tasks s !! me with
  | None => Some s
  | Some t =>
    let s := match ctty t with Some k => if leader t then tty_detach_session me k (session t) s else s | None => s end in
    Some (upd me (set_phase Leaving) s)
  end.

(** Is our own group about to become orphaned? *)
Definition exit_orphan (me : Z) (s : sys) : sys :=
  match tasks s !! me with
  | None => s
  | Some t =>
    let s :=
      match tasks s !! pptr_of (tree s) me with
      | Some pt =>
        if negb (pgrp pt =? pgrp t) && (session pt =? session t) && is_orphaned_pgrp (pgrp t) s && has_stopped_jobs (pgrp t) s
        then hang_up (pgrp t) s else s
      | None => s
      end in
    upd me (set_phase Exiting) s
  end.

(** Giving the children to init, under the lock of the task list. *)
Definition adopt (me p : Z) (s : sys) : sys :=
  let s := set_tree (move_child me (init s) p (tree s)) s in
  match tasks s !! p, tasks s !! me with
  | Some t, Some c =>
    let s := if decide (state t = ZOMBIE) then notify_parent p s else s in
    if negb (pgrp t =? pgrp c) && (session t =? session c) && is_orphaned_pgrp (pgrp t) s && has_stopped_jobs (pgrp t) s
    then hang_up (pgrp t) s else s
  | _, _ => s
  end.
Fixpoint exit_children (fuel : nat) (me : Z) (s : sys) : option sys :=
  match fuel with
  | O => None
  | S f => match cptr_of (tree s) me with
           | None => Some (upd me (set_phase Reparented) s)
           | Some p => exit_children f me (adopt me p s)
           end
  end.

(** The end of [do_exit], and the switch away from the task ([_switch_to]). *)
Definition exit_zombie (me : Z) (s : sys) : sys :=
  upd me (fun t => set_phase Zombied (set_run ZOMBIE (exit_code t) (signal t) t)) s.
Definition exit_status (me code : Z) (s : sys) : sys :=
  upd me (fun t => set_phase Coded (set_run (state t) code (signal t) t)) s.
Definition park (me : Z) (s : sys) : sys := notify_parent me (upd me (fun t => set_phase Parked (set_parked t)) s).

(** ** Waiting *)

Inductive waited :=
  | Reaped (pid status : Z)
  | Stopped_child (pid status : Z)
  | Nothing_yet
  | No_child.

Definition wants (me_pgrp pid i : Z) (t : task) : bool :=
  if pid >? 0 then i =? pid else if pid =? 0 then pgrp t =? me_pgrp else if pid =? -1 then true else pgrp t =? - pid.

(** The scan of the children of [sys_waitpid], from [cur] on. *)
Fixpoint wait_scan (fuel : nat) (me_pgrp pid : Z) (cur : option Z) (flag : bool) (s : sys) : option (sys * waited) :=
  match fuel with
  | O => None
  | S f =>
    match cur with
    | None => Some (s, if flag then Nothing_yet else No_child)
    | Some i =>
      match tasks s !! i with
      | None => None
      | Some t =>
        let next := osptr_of (tree s) i in
        if negb (wants me_pgrp pid i t) then wait_scan f me_pgrp pid next flag s else
        match state t with
        | STOPPED =>
          if exit_code t =? 0 then wait_scan f me_pgrp pid next true s
          else Some (upd i (fun t => set_run STOPPED 0 (signal t) t) s, Stopped_child i (exit_code t))
        | ZOMBIE =>
          let s := set_tree (delete i (REMOVE_LINKS i (tree s))) s in
          let s := set_order (filter (fun j => j <> i) (order s)) s in
          Some (set_tasks (delete i (tasks s)) s, Reaped i (exit_code t))
        | _ => wait_scan f me_pgrp pid next true s
        end
      end
    end
  end.
Definition sys_waitpid (me pid : Z) (s : sys) : option (sys * waited) :=
  match tasks s !! me with
  | None => Some (s, No_child)
  | Some t => wait_scan (S (size (tasks s))) (pgrp t) pid (cptr_of (tree s) me) false s
  end.

(** ** Runs *)

(** What a task does next; a step that its phase does not allow is not taken.
    [Sctty]: TIOCSCTTY past the check at the head of [tty_ioctl_tty], which is not
    under the lock.  [Detach]: the second part of [tty_detach_session], which comes before anything
    else the task does.  [Pty_open]: a pair of pseudo terminals is opened. *)
Inductive event :=
  | Clone (me flags early late : Z)
  | Exec (me : Z)
  | Setsid (me : Z) | Setpgid (me pid pgid : Z)
  | Ioctl (me : Z) (k : nat) (c : ctl) | Open_tty (me : Z) (k : nat) (noctty : bool)
  | Sctty (me : Z) (k : nat) | Detach (me : Z) | Pty_open (me : Z) (k : nat)
  | Kill (me pid sig : Z)
  | Stop (me sig : Z)
  | Exit_begin (me : Z) | Exit_orphan (me : Z) | Exit_children (me : Z) | Exit_zombie (me : Z) | Exit_status (me code : Z) | Park (me : Z)
  | Waitpid (me pid : Z).

Definition who (e : event) : Z :=
  match e with
  | Clone i _ _ _ | Exec i | Setsid i | Setpgid i _ _ | Ioctl i _ _ | Open_tty i _ _ | Kill i _ _ | Stop i _
  | Sctty i _ | Detach i | Pty_open i _ | Exit_begin i | Exit_orphan i | Exit_children i | Exit_zombie i | Exit_status i _ | Park i | Waitpid i _ => i
  end.
Definition when (e : event) : phase :=
  match e with
  | Exit_orphan _ => Leaving | Exit_children _ => Exiting | Exit_zombie _ => Reparented | Exit_status _ _ => Zombied | Park _ => Coded
  | _ => Alive
  end.

Definition do_event (e : event) (s : sys) : option sys :=
  match e with
  | Clone me flags early late => Some (do_clone me flags early late s).1
  | Exec me => Some (upd me set_exec s)
  | Setsid me => Some (sys_setsid me s).1
  | Setpgid me pid pgid => Some (sys_setpgid me pid pgid s).1
  | Ioctl me k c => Some (tty_ioctl_tty me k c 0 s).1.1
  | Open_tty me k noctty => Some (tty_try_set_controlling me k noctty s)
  | Sctty me k => Some (tty_set_controlling me k s).1
  | Detach me => Some (detach_tasks me s)
  | Pty_open me k => Some (pty_reset_tty k s)
  | Kill me pid sig => Some (sys_kill me pid sig s).1
  | Stop me sig => Some (upd me (fun t => set_run STOPPED sig (signal t) t) s)
  | Exit_begin me => exit_begin me s
  | Exit_orphan me => Some (exit_orphan me s)
  | Exit_children me => exit_children (S (size (tasks s))) me s
  | Exit_zombie me => Some (exit_zombie me s)
  | Exit_status me code => Some (exit_status me code s)
  | Park me => Some (park me s)
  | Waitpid me pid => fst <$> sys_waitpid me pid s
  end.

Definition enabled (e : event) (t : task) (s : sys) : bool :=
  match e with
  | Detach me => bool_decide (is_Some (pend s !! me))
  | _ => bool_decide (phs t = when e) && bool_decide (pend s !! who e = None)
  end.

Definition step (e : event) (s : sys) : option sys :=
  match tasks s !! who e with
  | None => Some s
  | Some t => if enabled e t s then do_event e s else Some s
  end.

Fixpoint run (l : list event) (s : sys) : option sys :=
  match l with [] => Some s | e :: l' => s ← step e s; run l' s end.

End Process.
