(* ===== verification/ProcessTree.v ===== *)
(** * The task tree: the children of every task as a list, behind the pointers
    of [SET_LINKS], [REMOVE_LINKS] and [do_exit] *)
From S2P Require Import Prelude Process.

Module ProcessTree.
Import Process.

(** ** The forest behind the pointers *)

(** The fields that hold a sibling list together. *)
Definition core (k : links) : Z * option Z * option Z := (p_pptr k, p_osptr k, p_ysptr k).

(** From [cur] on, the older siblings are [l]: children of [par], doubly linked. *)
Fixpoint chain (T : gmap Z links) (par : Z) (prev cur : option Z) (l : list Z) : Prop :=
  match l with
  | [] => cur = None
  | c :: l' => cur = Some c /\ exists k, T !! c = Some k /\ p_pptr k = par /\ p_ysptr k = prev /\
               chain T par (Some c) (p_osptr k) l'
  end.

(** [K i] are the children of [i], youngest first.  The list of [x] is the one a
    running [do_exit] is emptying: its first child may still point to the one
    moved before it. *)
Record lists_at (x : Z) (pv : option Z) (T : gmap Z links) (K : Z -> list Z) : Prop := {
  fo_kids i k : T !! i = Some k -> chain T i (if decide (i = x) then pv else None) (p_cptr k) (K i);
  fo_out i : T !! i = None -> K i = [];
  fo_nodup i : NoDup (K i);
  fo_lt i c : c ∈ K i -> 0 <= i < c;
}.
(** Every task but the first is a child of its parent. *)
Definition placed (T : gmap Z links) (K : Z -> list Z) : Prop :=
  forall i k, T !! i = Some k -> i <> 0 -> i ∈ K (p_pptr k).
Definition forest (T : gmap Z links) (K : Z -> list Z) : Prop := lists_at 0 None T K /\ placed T K.

Definition fupd (K : Z -> list Z) (i : Z) (l : list Z) : Z -> list Z := fun j => if decide (j = i) then l else K j.

Lemma fupd_eq K i l : fupd K i l i = l.
Proof. unfold fupd. by rewrite decide_True. Qed.
Lemma fupd_ne K i j l : j <> i -> fupd K i l j = K j.
Proof. intros. unfold fupd. by rewrite decide_False. Qed.

Lemma chain_agree T T' par l : forall prev cur,
  (forall c, c ∈ l -> core <$> T' !! c = core <$> T !! c) -> chain T par prev cur l -> chain T' par prev cur l.
Proof.
  induction l as [|c l IH]; intros prev cur H; simpl; [done|]. intros (-> & k & Hk & Hp & Hy & Hc). split; [done|].
  pose proof (H c ltac:(left)) as Hcore. rewrite Hk in Hcore. destruct (T' !! c) as [k'|] eqn:E; [|done].
  simpl in Hcore. unfold core in Hcore. injection Hcore as E1 E2 E3. exists k'. rewrite E1, E2, E3. split_and!; try done.
  apply IH; [|done]. intros c' Hc'. apply H. by right.
Qed.

Lemma chain_in T par l : forall prev cur c, chain T par prev cur l -> c ∈ l -> exists k, T !! c = Some k /\ p_pptr k = par.
Proof.
  induction l as [|a l IH]; intros prev cur c; simpl; [by intros _ ?%elem_of_nil|].
  intros (-> & k & Hk & Hp & _ & Hc). rewrite elem_of_cons. intros [->|Hin]; [eauto|]. by eapply IH.
Qed.

Lemma chain_head T par prev cur l : chain T par prev cur l -> cur = head l.
Proof. destruct l; simpl; [done|]. by intros [-> _]. Qed.

(** The first element forgets who was before it. *)
Lemma chain_set_ysptr T par prev prev' cur l : NoDup l -> chain T par prev cur l ->
  chain (alter_opt cur (set_ysptr prev') T) par prev' cur l.
Proof.
  destruct l as [|c l]; simpl; [done|]. intros [Hc _]%NoDup_cons (-> & k & Hk & Hp & Hy & H). split; [done|].
  exists (set_ysptr prev' k). cbn [alter_opt]. rewrite lookup_alter_eq, Hk. split_and!; try done. simpl.
  eapply chain_agree; [|exact H]. intros c' Hc'. rewrite lookup_alter_ne; [done|]. by intros ->.
Qed.

Lemma core_set_cptr T i x c : core <$> (alter (set_cptr x) i T : gmap Z links) !! c = core <$> T !! c.
Proof.
  destruct (decide (c = i)) as [->|]; [|by rewrite lookup_alter_ne].
  rewrite lookup_alter_eq. by destruct (T !! i).
Qed.

Lemma alter_opt_ne o f (T : gmap Z links) c : o <> Some c -> alter_opt o f T !! c = T !! c.
Proof. destruct o; simpl; [|done]. intros H. apply lookup_alter_ne. congruence. Qed.

Lemma alter_opt_cptr o x (T : gmap Z links) c :
  p_cptr <$> alter_opt o (set_ysptr x) T !! c = p_cptr <$> T !! c.
Proof.
  destruct o as [i|]; simpl; [|done]. destruct (decide (c = i)) as [->|]; [|by rewrite lookup_alter_ne].
  rewrite lookup_alter_eq. by destruct (T !! i).
Qed.

Lemma alter_opt_pptr o x (T : gmap Z links) c :
  p_pptr <$> alter_opt o (set_ysptr x) T !! c = p_pptr <$> T !! c.
Proof.
  destruct o as [i|]; simpl; [|done]. destruct (decide (c = i)) as [->|]; [|by rewrite lookup_alter_ne].
  rewrite lookup_alter_eq. by destruct (T !! i).
Qed.

Section forest_facts.
Context (x : Z) (pv : option Z) (T : gmap Z links) (K : Z -> list Z) (F : lists_at x pv T K).

Lemma kid_lookup i c : c ∈ K i -> exists k, T !! c = Some k /\ p_pptr k = i.
Proof.
  intros Hc. destruct (T !! i) as [ki|] eqn:E.
  - eapply chain_in; [by apply F|done].
  - rewrite (fo_out _ _ _ _ F i E) in Hc. by apply elem_of_nil in Hc.
Qed.

Lemma kid_unique i j c : c ∈ K i -> c ∈ K j -> i = j.
Proof.
  intros Hi Hj. destruct (kid_lookup i c Hi) as (k & Hk & <-). destruct (kid_lookup j c Hj) as (k' & Hk' & <-). congruence.
Qed.

Lemma cptr_head i k : T !! i = Some k -> p_cptr k = head (K i).
Proof. intros H. eapply chain_head. by apply F. Qed.

End forest_facts.

Lemma lists_ext x pv T K K' : (forall i, K i = K' i) -> lists_at x pv T K -> lists_at x pv T K'.
Proof. intros E [F1 F2 F3 F4]. split; intros i; try intros c; rewrite <- ?E; auto. Qed.

Lemma lists_none x y T K : lists_at x None T K -> lists_at y None T K.
Proof.
  intros F. split; try apply F. intros i k H. pose proof (fo_kids _ _ _ _ F i k H) as C.
  destruct (decide (i = x)), (decide (i = y)); done.
Qed.

(** A chain does not see changes to the youngest child, nor to a task outside it. *)
Lemma chain_set_cptr T i y par prev cur l : chain T par prev cur l -> chain (alter (set_cptr y) i T) par prev cur l.
Proof. apply chain_agree. intros. apply core_set_cptr. Qed.

Lemma chain_outside T T' par prev cur l : (forall c, c ∈ l -> T' !! c = T !! c) ->
  chain T par prev cur l -> chain T' par prev cur l.
Proof. intros H. apply chain_agree. intros c Hc. by rewrite H. Qed.

Lemma head_in {A} (l : list A) a : head l = Some a -> a ∈ l.
Proof. destruct l; simpl; [done|]. intros [= ->]. left. Qed.

(** Taking a new child at the head of the list of [par]: [p] is in no list and
    already points to its parent and to the old head. *)
Section push.
Context (x : Z) (pv : option Z) (T T1 : gmap Z links) (K : Z -> list Z) (p par : Z) (kp : links).
Context (F : lists_at x pv T K) (Hpar : is_Some (T !! par)) (Hx : par <> x) (H0 : 0 <= par < p)
  (Hfresh : forall i, p ∉ K i)
  (Hsame : forall c, c <> p -> T1 !! c = T !! c) (Hp : T1 !! p = Some kp)
  (Hpp : p_pptr kp = par) (Ho : p_osptr kp = head (K par)) (Hy : p_ysptr kp = None)
  (Hk : chain T p (if decide (p = x) then pv else None) (p_cptr kp) (K p)).

Definition pushed : gmap Z links :=
  alter (set_cptr (Some p)) par (alter_opt (head (K par)) (set_ysptr (Some p)) T1).
Local Abbreviation T2 := (alter_opt (head (K par)) (set_ysptr (Some p)) T1).

Lemma push_head h : head (K par) = Some h -> h <> p /\ h ∈ K par.
Proof. intros E. pose proof (head_in _ _ E). split; [|done]. intros ->. by apply (Hfresh par). Qed.

Lemma push_p : T2 !! p = Some kp.
Proof. rewrite alter_opt_ne; [done|]. intros E. by destruct (push_head _ E). Qed.

Lemma push_other i c : i <> par -> c ∈ K i -> T2 !! c = T !! c.
Proof.
  intros Hi Hc. assert (c <> p) by (intros ->; by apply (Hfresh i)).
  rewrite alter_opt_ne; [by apply Hsame|]. intros E. destruct (push_head _ E) as [_ Hin].
  apply Hi. by eapply (kid_unique _ _ _ _ F).
Qed.

Lemma push_pptr c : c <> p -> p_pptr <$> pushed !! c = p_pptr <$> T !! c.
Proof.
  intros Hc. unfold pushed. destruct (decide (c = par)) as [->|Hcp].
  - rewrite lookup_alter_eq. rewrite <- option_fmap_compose. change (p_pptr ∘ set_cptr (Some p)) with p_pptr.
    by rewrite alter_opt_pptr, Hsame.
  - by rewrite lookup_alter_ne, alter_opt_pptr, Hsame.
Qed.

Lemma push_lists : lists_at x pv pushed (fupd K par (p :: K par)).
Proof.
  destruct Hpar as [kpar Hkp]. split.
  - intros i k Hi. apply chain_set_cptr. destruct (decide (i = par)) as [->|Hip].
    + unfold pushed in Hi. rewrite lookup_alter_eq in Hi. destruct (T2 !! par) as [k2|] eqn:E; [|done].
      injection Hi as <-. rewrite fupd_eq, decide_False by done. simpl. split; [done|]. exists kp.
      split; [apply push_p|]. split_and!; try done. rewrite Ho.
      apply (chain_set_ysptr T1 par None); [apply F|].
      apply (chain_outside T); [intros c Hc; apply Hsame; intros ->; by apply (Hfresh par)|].
      pose proof (fo_kids _ _ _ _ F par kpar Hkp) as C. rewrite decide_False in C by done.
      by rewrite (cptr_head _ _ _ _ F par kpar Hkp) in C.
    + unfold pushed in Hi. rewrite lookup_alter_ne in Hi by done. rewrite fupd_ne by done.
      apply (chain_outside T); [intros c Hc; by apply (push_other i)|].
      destruct (decide (i = p)) as [->|Hipp].
      * rewrite push_p in Hi. by injection Hi as <-.
      * assert (E : p_cptr <$> T2 !! i = p_cptr <$> T !! i) by (by rewrite alter_opt_cptr, Hsame).
        rewrite Hi in E. destruct (T !! i) as [k'|] eqn:E'; [|done]. simpl in E. injection E as ->. by apply F.
  - intros i Hi. destruct (decide (i = par)) as [->|Hip].
    + pose proof (push_pptr par ltac:(lia)) as E. rewrite Hi, Hkp in E. done.
    + rewrite fupd_ne by done. apply F. destruct (decide (i = p)) as [->|Hipp].
      * exfalso. unfold pushed in Hi. rewrite lookup_alter_ne, push_p in Hi by lia. done.
      * pose proof (push_pptr i Hipp) as E. rewrite Hi in E. by destruct (T !! i).
  - intros i. unfold fupd. destruct (decide (i = par)); [|apply F]. constructor; [apply Hfresh|apply F].
  - intros i c. unfold fupd. destruct (decide (i = par)) as [->|]; [|apply F].
    rewrite elem_of_cons. intros [->|?]; [done|]. by apply F.
Qed.

Lemma push_placed : (forall i k, T !! i = Some k -> i <> 0 -> i <> p -> i ∈ K (p_pptr k)) ->
  placed pushed (fupd K par (p :: K par)).
Proof.
  intros HP i k Hi Hi0. unfold fupd. destruct (decide (i = p)) as [->|Hip].
  - unfold pushed in Hi. rewrite lookup_alter_ne, push_p in Hi by lia. injection Hi as <-.
    rewrite decide_True by done. left.
  - pose proof (push_pptr i Hip) as E. rewrite Hi in E. destruct (T !! i) as [k'|] eqn:E'; [|done].
    simpl in E. injection E as ->. pose proof (HP i k' E' Hi0 Hip).
    destruct (decide (p_pptr k' = par)) as [Ep|]; [|done]. right. by rewrite Ep in H.
Qed.
End push.

Lemma SET_LINKS_forest T K p par : forest T K -> T !! p = None -> is_Some (T !! par) -> 0 <= par < p ->
  forest (SET_LINKS p par T) (fupd K par (p :: K par)).
Proof.
  intros [F P] Hp [kpar Hpar] H0.
  assert (Hfresh : forall i, p ∉ K i).
  { intros i Hi. destruct (kid_lookup _ _ _ _ F i p Hi) as (k & Hk & _). congruence. }
  assert (Hos : cptr_of T par = head (K par)).
  { unfold cptr_of. rewrite Hpar. simpl. by apply (cptr_head _ _ _ _ F). }
  unfold SET_LINKS. rewrite Hos.
  set (T1 := <[p:=_]> T). set (kp := mklinks par None (head (K par)) None) in *.
  assert (Hs : forall c, c <> p -> T1 !! c = T !! c) by (intros c Hc; by apply lookup_insert_ne).
  assert (Hkp : T1 !! p = Some kp) by apply lookup_insert_eq.
  assert (Hc : chain T p (if decide (p = -1) then None else None) (p_cptr kp) (K p)).
  { rewrite (fo_out _ _ _ _ F p Hp). by destruct (decide _). }
  assert (Hm : forall y, par <> y -> chain T p (if decide (p = y) then None else None) (p_cptr kp) (K p)).
  { intros y _. rewrite (fo_out _ _ _ _ F p Hp). by destruct (decide _). }
  split.
  - apply (lists_none (par - 1)). apply (push_lists (par - 1) None T T1 K p par kp); eauto; try done; try lia.
    + by apply (lists_none 0).
    + apply Hm. lia.
  - eapply (push_placed T T1 K p par kp); eauto; try done; try lia.
Qed.

(** Taking the youngest child of [me] off the list of [me]. *)
Lemma pop_lists me pv T K p l : lists_at me pv T K -> K me = p :: l ->
  lists_at me (Some p) (alter (set_cptr (osptr_of T p)) me T) (fupd K me l).
Proof.
  intros F HK. assert (Hin : forall i c, c ∈ fupd K me l i -> c ∈ K i).
  { intros i c. unfold fupd. destruct (decide (i = me)) as [->|]; [|done]. rewrite HK. by right. }
  split.
  - intros i k Hi. apply chain_set_cptr. destruct (decide (i = me)) as [->|Hne].
    + rewrite lookup_alter_eq in Hi. destruct (T !! me) as [km|] eqn:E; [|done]. injection Hi as <-.
      rewrite fupd_eq. pose proof (fo_kids _ _ _ _ F me km E) as C. rewrite HK in C. simpl in C.
      destruct C as (_ & kp & Hp & _ & _ & C). simpl. unfold osptr_of. by rewrite Hp.
    + rewrite lookup_alter_ne in Hi by done. rewrite fupd_ne by done.
      pose proof (fo_kids _ _ _ _ F i k Hi) as C. by rewrite decide_False in C.
  - intros i Hi. destruct (decide (i = me)) as [->|Hne].
    + rewrite lookup_alter_eq in Hi. destruct (T !! me) eqn:E; [done|]. pose proof (fo_out _ _ _ _ F me E). congruence.
    + rewrite lookup_alter_ne in Hi by done. rewrite fupd_ne by done. by apply F.
  - intros i. unfold fupd. destruct (decide (i = me)) as [->|]; [|apply F].
    pose proof (fo_nodup _ _ _ _ F me) as N. rewrite HK in N. by apply NoDup_cons in N as [_ N].
  - intros i c Hc. apply F. by apply Hin.
Qed.

Lemma alter_pptr (g : links -> links) i (T : gmap Z links) c : (forall k, p_pptr (g k) = p_pptr k) ->
  p_pptr <$> alter g i T !! c = p_pptr <$> T !! c.
Proof.
  intros H. destruct (decide (c = i)) as [->|]; [|by rewrite lookup_alter_ne].
  rewrite lookup_alter_eq. destruct (T !! i); simpl; [by rewrite H|done].
Qed.

Section move.
Context (me ini p : Z) (l : list Z) (pv : option Z) (T : gmap Z links) (K : Z -> list Z)
  (F : lists_at me pv T K) (P : placed T K) (HK : K me = p :: l) (Hini : is_Some (T !! ini)) (Hne : ini <> me)
  (Hlt : 0 <= ini < p).

Definition moved : Z -> list Z := fupd (fupd K me l) ini (p :: K ini).

Local Abbreviation Ta := (alter (set_cptr (osptr_of T p)) me T).

Lemma move_as_push : exists T1 kp kp0, T !! p = Some kp0 /\
  move_child me ini p T = pushed T1 (fupd K me l) p ini /\ (forall c, c <> p -> T1 !! c = Ta !! c) /\
  T1 !! p = Some kp /\ p_pptr kp = ini /\ p_osptr kp = head (K ini) /\ p_ysptr kp = None /\ p_cptr kp = p_cptr kp0.
Proof using F HK Hini Hlt Hne.
  assert (Hp : p ∈ K me) by (rewrite HK; left).
  destruct (kid_lookup _ _ _ _ F me p Hp) as (kp0 & Hkp & Hpp). pose proof (fo_lt _ _ _ _ F me p Hp).
  destruct Hini as [ki Hki].
  set (T1 := alter (set_osptr (head (K ini))) p (alter (set_pptr ini) p (alter (set_ysptr None) p Ta))).
  exists T1, (mklinks ini (p_cptr kp0) (head (K ini)) None), kp0. split; [done|].
  assert (E1 : T1 !! p = Some (mklinks ini (p_cptr kp0) (head (K ini)) None)).
  { unfold T1. rewrite !lookup_alter_eq, lookup_alter_ne by lia. by rewrite Hkp. }
  assert (Hh : cptr_of (alter (set_pptr ini) p (alter (set_ysptr None) p Ta)) ini = head (K ini)).
  { unfold cptr_of. rewrite !lookup_alter_ne by lia. rewrite Hki. simpl. by apply (cptr_head _ _ _ _ F). }
  split_and!; try done.
  - unfold move_child. rewrite Hh. fold T1. unfold osptr_of at 1. rewrite E1. unfold pushed. by rewrite fupd_ne by done.
  - intros c Hc. unfold T1. by rewrite !lookup_alter_ne by done.
Qed.

Lemma move_fresh i : p ∉ fupd K me l i.
Proof using F HK.
  assert (Hp : p ∈ K me) by (rewrite HK; left). pose proof (fo_nodup _ _ _ _ F me) as N. rewrite HK in N.
  apply NoDup_cons in N as [N _]. unfold fupd. destruct (decide (i = me)); [done|].
  intros Hi. by pose proof (kid_unique _ _ _ _ F _ _ _ Hi Hp).
Qed.

Lemma move_child_lists : lists_at me (Some p) (move_child me ini p T) moved.
Proof using All.
  destruct move_as_push as (T1 & kp & kp0 & Hkp0 & -> & Hs & Hkp & Hpp & Ho & Hy & Hc).
  assert (Hp : p ∈ K me) by (rewrite HK; left). pose proof (fo_lt _ _ _ _ F me p Hp).
  unfold moved. rewrite <- (fupd_ne K me ini l) at 1 by done.
  apply (push_lists me (Some p) Ta T1 _ p ini kp); try done.
  - by apply (pop_lists me pv).
  - by rewrite lookup_alter_ne.
  - exact move_fresh.
  - by rewrite fupd_ne.
  - rewrite Hc, fupd_ne, decide_False by lia. apply chain_set_cptr.
    pose proof (fo_kids _ _ _ _ F p kp0 Hkp0) as C. by rewrite decide_False in C by lia.
Qed.

Lemma move_child_placed : placed (move_child me ini p T) moved.
Proof using All.
  destruct move_as_push as (T1 & kp & kp0 & Hkp0 & -> & Hs & Hkp & Hpp & Ho & Hy & Hc).
  unfold moved. rewrite <- (fupd_ne K me ini l) at 1 by done.
  apply (push_placed Ta T1 _ p ini kp); try done; [exact move_fresh|].
  intros i k Hi Hi0 Hip. assert (E : p_pptr <$> Ta !! i = p_pptr <$> T !! i) by by apply alter_pptr.
  rewrite Hi in E. destruct (T !! i) as [k'|] eqn:E'; [|done]. injection E as ->.
  pose proof (P i k' E' Hi0) as Hk. unfold fupd. destruct (decide (p_pptr k' = me)) as [Em|]; [|done].
  rewrite Em, HK in Hk. apply elem_of_cons in Hk as [->|]; done.
Qed.
End move.

(** ** Reaping *)

Definition unlinked (p : Z) (T : gmap Z links) : gmap Z links :=
  delete p (alter_opt (ysptr_of T p) (set_osptr (osptr_of T p)) (alter_opt (osptr_of T p) (set_ysptr (ysptr_of T p)) T)).

Lemma chain_mid T par p l2 l1 : forall prev cur, chain T par prev cur (l1 ++ p :: l2) ->
  exists k, T !! p = Some k /\ p_pptr k = par /\ p_ysptr k = (match last l1 with Some a => Some a | None => prev end) /\
  chain T par (Some p) (p_osptr k) l2.
Proof.
  induction l1 as [|a l1 IH]; intros prev cur; simpl.
  - intros (_ & k & ? & ? & ? & ?). by exists k.
  - intros (_ & k & _ & _ & _ & C). destruct (IH _ _ C) as (k' & ? & ? & Hy & ?). exists k'. split_and!; try done.
    rewrite Hy. destruct l1 as [|b l1]; [done|]. change (last (a :: b :: l1)) with (last (b :: l1)).
    destruct (last (b :: l1)) eqn:E; [done|by apply last_None in E].
Qed.

Lemma last_in {A} (l : list A) a : last l = Some a -> a ∈ l.
Proof. intros H. apply last_Some in H as [l' ->]. apply elem_of_app. right. by left. Qed.

Lemma unlinked_ne p T c : c <> p -> osptr_of T p <> Some c -> ysptr_of T p <> Some c -> unlinked p T !! c = T !! c.
Proof. intros ? ? ?. unfold unlinked. rewrite lookup_delete_ne by done. by rewrite !alter_opt_ne. Qed.

Lemma chain_remove T par p l2 l1 : forall prev cur,
  NoDup (l1 ++ p :: l2) -> (forall y, prev = Some y -> y ∉ l1 ++ p :: l2) -> chain T par prev cur (l1 ++ p :: l2) ->
  chain (unlinked p T) par prev (match l1 with [] => osptr_of T p | _ => cur end) (l1 ++ l2).
Proof.
  induction l1 as [|a l1 IH]; intros prev cur N Hprev C.
  - destruct C as (_ & k & Hk & Hp & Hy & C). simpl in *. apply NoDup_cons in N as [Np N].
    assert (Eo : osptr_of T p = p_osptr k) by (unfold osptr_of; by rewrite Hk).
    assert (Ey : ysptr_of T p = prev) by (unfold ysptr_of; by rewrite Hk).
    unfold unlinked. rewrite Eo, Ey.
    eapply chain_outside; [|by apply (chain_set_ysptr T par (Some p) prev)].
    intros c Hc. rewrite lookup_delete_ne by (by intros ->).
    apply alter_opt_ne. intros E. apply (Hprev c E). by right.
  - pose proof (chain_mid T par p l2 (a :: l1) prev cur C) as (kp & Hkp & _ & Hy & C2).
    destruct C as (-> & k & Hk & Hp & Hya & C). simpl in N. apply NoDup_cons in N as [Na N].
    assert (Ha : forall y, Some a = Some y -> y ∉ l1 ++ p :: l2) by (by intros y [= <-]).
    pose proof (IH _ _ N Ha C) as C'.
    assert (Eo : osptr_of T p = p_osptr kp) by (unfold osptr_of; by rewrite Hkp).
    assert (Ey : ysptr_of T p = p_ysptr kp) by (unfold ysptr_of; by rewrite Hkp).
    assert (Hao : osptr_of T p <> Some a).
    { rewrite Eo, (chain_head _ _ _ _ _ C2). intros E. apply Na, elem_of_app. right. right. by apply head_in. }
    assert (Hap : a <> p) by (intros ->; apply Na, elem_of_app; right; by left).
    split; [done|]. destruct l1 as [|b l1].
    + exists (set_osptr (osptr_of T p) k). split_and!; try done. unfold unlinked.
      rewrite lookup_delete_ne by done. rewrite Ey, Hy. cbn [last alter_opt].
      rewrite lookup_alter_eq, alter_opt_ne by done. by rewrite Hk.
    + exists k. split_and!; try done. rewrite unlinked_ne; try done. rewrite Ey, Hy.
      change (last (a :: b :: l1)) with (last (b :: l1)).
      destruct (last (b :: l1)) as [z|] eqn:E; [|by apply last_None in E].
      intros [= ->]. apply Na, elem_of_app. left. by apply last_in.
Qed.

Lemma filter_out (p : Z) l1 l2 : NoDup (l1 ++ p :: l2) -> filter (fun j => j <> p) (l1 ++ p :: l2) = l1 ++ l2.
Proof.
  intros N. apply NoDup_app in N as (N1 & N2 & N3). apply NoDup_cons in N3 as [N3 _].
  rewrite filter_app, filter_cons_False by (intros H; by apply H). rewrite !filter_absent; [done|done|].
  intros Hp. apply (N2 p Hp). by left.
Qed.

Lemma alter_opt_field {B} (g : links -> B) f o (T : gmap Z links) c :
  (forall k, g (f k) = g k) -> g <$> alter_opt o f T !! c = g <$> T !! c.
Proof.
  intros H. destruct o as [i|]; simpl; [|done]. destruct (decide (c = i)) as [->|]; [|by rewrite lookup_alter_ne].
  rewrite lookup_alter_eq. destruct (T !! i); simpl; [by rewrite H|done].
Qed.

Lemma unlinked_field {B} (g : links -> B) p T c :
  (forall x k, g (set_osptr x k) = g k) -> (forall x k, g (set_ysptr x k) = g k) -> c <> p ->
  g <$> unlinked p T !! c = g <$> T !! c.
Proof. intros. unfold unlinked. rewrite lookup_delete_ne by done. by rewrite !alter_opt_field. Qed.

Section reap.
Context (T : gmap Z links) (K : Z -> list Z) (p par : Z) (F : forest T K) (Hp : p ∈ K par) (Hkids : K p = []).

Definition reaped : Z -> list Z := fupd K par (filter (fun j => j <> p) (K par)).

Lemma reap_facts : exists l1 l2 kp kpar, K par = l1 ++ p :: l2 /\ T !! p = Some kp /\ T !! par = Some kpar /\
  p_pptr kp = par /\ osptr_of T p = head l2 /\ ysptr_of T p = last l1 /\ chain T par None (p_cptr kpar) (l1 ++ p :: l2) /\
  NoDup (l1 ++ p :: l2).
Proof using F Hp.
  destruct F as [L P]. destruct (T !! par) as [kpar|] eqn:Epar; [|rewrite (fo_out _ _ _ _ L par Epar) in Hp; by apply elem_of_nil in Hp].
  pose proof (fo_nodup _ _ _ _ L par) as N. pose proof (fo_kids _ _ _ _ L par kpar Epar) as C.
  replace (if decide (par = 0) then None else None : option Z) with (@None Z) in C by (by destruct (decide (par = 0))).
  apply list_elem_of_split in Hp as (l1 & l2 & E). rewrite E in *.
  destruct (chain_mid _ _ _ _ _ _ _ C) as (kp & Hk & Hpp & Hy & C2).
  exists l1, l2, kp, kpar. split_and!; try done.
  - unfold osptr_of. rewrite Hk. by apply (chain_head _ _ _ _ _ C2).
  - unfold ysptr_of. rewrite Hk. simpl. rewrite Hy. by destruct (last l1).
Qed.

Lemma reap_shape : delete p (REMOVE_LINKS p T) =
  match ysptr_of T p with Some _ => unlinked p T | None => alter (set_cptr (osptr_of T p)) par (unlinked p T) end.
Proof using F Hp.
  destruct reap_facts as (l1 & l2 & kp & kpar & EK & Hk & Hkpar & Hpp & Ho & Hy & C & N).
  assert (Hop : osptr_of T p <> Some p).
  { rewrite Ho. intros E. apply NoDup_app in N as (_ & _ & N). apply NoDup_cons in N as [N _]. by apply N, head_in. }
  assert (par < p) by (destruct F as [L _]; by apply (fo_lt _ _ _ _ L)).
  unfold REMOVE_LINKS, ysptr_of, osptr_of, pptr_of. rewrite !alter_opt_ne by done.
  fold (ysptr_of T p) (osptr_of T p). rewrite Hk. simpl. rewrite Hpp.
  unfold unlinked. destruct (ysptr_of T p) as [y|]; simpl; [done|]. by rewrite delete_alter_ne by lia.
Qed.

Lemma reap_ends : unlinked p T !! p = None.
Proof. apply lookup_delete_eq. Qed.

Lemma reap_other i c : i <> par -> c ∈ K i -> unlinked p T !! c = T !! c.
Proof using F Hp.
  intros Hi Hc. destruct reap_facts as (l1 & l2 & kp & kpar & EK & _ & _ & _ & Ho & Hy & _ & _). destruct F as [L _].
  assert (Hout : forall j, j ∈ K par -> c <> j).
  { intros j Hj ->. by pose proof (kid_unique _ _ _ _ L _ _ _ Hc Hj). }
  apply unlinked_ne; [by apply Hout| |].
  - rewrite Ho. intros E. apply (Hout c); [|done]. rewrite EK. apply elem_of_app. right. right. by apply head_in.
  - rewrite Hy. intros E. apply (Hout c); [|done]. rewrite EK. apply elem_of_app. left. by apply last_in.
Qed.

(** The tree after [REMOVE_LINKS] and [free_task_struct]. *)
Lemma reap_lookup i k : delete p (REMOVE_LINKS p T) !! i = Some k ->
  i <> p /\ exists k0, T !! i = Some k0 /\ p_pptr k = p_pptr k0 /\
  p_cptr k = if decide (i = par) then match ysptr_of T p with Some _ => p_cptr k0 | None => osptr_of T p end else p_cptr k0.
Proof using F Hp.
  intros Hi. assert (Hip : i <> p) by (intros ->; by rewrite lookup_delete_eq in Hi). split; [done|].
  assert (Ep : p_pptr <$> unlinked p T !! i = p_pptr <$> T !! i) by by apply unlinked_field.
  assert (Ec : p_cptr <$> unlinked p T !! i = p_cptr <$> T !! i) by by apply unlinked_field.
  rewrite reap_shape in Hi. destruct (T !! i) as [k0|] eqn:E0.
  - exists k0. split; [done|]. destruct (unlinked p T !! i) as [k1|] eqn:E1; [|done].
    injection Ep as Ep. injection Ec as Ec.
    destruct (ysptr_of T p); [rewrite Hi in E1; injection E1 as ->; destruct (decide (i = par)); done|].
    destruct (decide (i = par)) as [->|].
    + rewrite lookup_alter_eq, E1 in Hi. by injection Hi as <-.
    + rewrite lookup_alter_ne, E1 in Hi by done. by injection Hi as <-.
  - destruct (unlinked p T !! i) as [k1|] eqn:E1; [done|]. destruct (ysptr_of T p); [congruence|].
    destruct (decide (i = par)) as [->|]; [rewrite lookup_alter_eq, E1 in Hi|rewrite lookup_alter_ne, E1 in Hi by done]; done.
Qed.

Lemma reap_none i : delete p (REMOVE_LINKS p T) !! i = None -> i = p \/ T !! i = None.
Proof using F Hp.
  intros Hi. destruct (decide (i = p)) as [|Hip]; [by left|right].
  assert (Ep : p_pptr <$> unlinked p T !! i = p_pptr <$> T !! i) by by apply unlinked_field.
  rewrite reap_shape in Hi. destruct (ysptr_of T p); [rewrite Hi in Ep; by destruct (T !! i)|].
  destruct (decide (i = par)) as [->|]; [rewrite lookup_alter_eq in Hi|rewrite lookup_alter_ne in Hi by done];
    destruct (unlinked p T !! _); try done; by destruct (T !! _).
Qed.

Lemma REMOVE_LINKS_forest : forest (delete p (REMOVE_LINKS p T)) reaped.
Proof using All.
  destruct reap_facts as (l1 & l2 & kp & kpar & EK & Hk & Hkpar & Hpp & Ho & Hy & C & N). pose proof F as [L P].
  assert (Hsub : forall i c, c ∈ reaped i -> c ∈ K i).
  { intros i c. unfold reaped, fupd. destruct (decide (i = par)) as [->|]; [|done]. by intros [_ ?]%list_elem_of_filter. }
  split; [split|].
  - intros i k Hi. destruct (reap_lookup i k Hi) as (Hip & k0 & Hk0 & _ & Ec). rewrite reap_shape.
    assert (Hc : chain (unlinked p T) i (if decide (i = 0) then None else None) (p_cptr k) (reaped i)).
    { unfold reaped, fupd. destruct (decide (i = par)) as [->|Hne].
      - rewrite EK, filter_out by done.
        replace (if decide (par = 0) then None else None : option Z) with (@None Z) by (by destruct (decide (par = 0))).
        rewrite Hkpar in Hk0. injection Hk0 as <-.
        pose proof (chain_remove T par p l2 l1 None _ N ltac:(done) C) as CR. rewrite Ec, Hy.
        destruct l1 as [|a l1]; [done|]. by destruct (last (a :: l1)) eqn:E; [|apply last_None in E].
      - rewrite Ec. apply (chain_outside T); [intros c Hc; by apply (reap_other i)|]. by apply L. }
    destruct (ysptr_of T p); [done|]. by apply chain_set_cptr.
  - intros i Hi. destruct (reap_none i Hi) as [->|Hn].
    + destruct (reaped p) as [|c l] eqn:E; [done|]. pose proof (Hsub p c ltac:(rewrite E; left)) as Hc.
      rewrite Hkids in Hc. by apply elem_of_nil in Hc.
    + destruct (reaped i) as [|c l] eqn:E; [done|]. pose proof (Hsub i c ltac:(rewrite E; left)) as Hc.
      rewrite (fo_out _ _ _ _ L i Hn) in Hc. by apply elem_of_nil in Hc.
  - intros i. unfold reaped, fupd. destruct (decide (i = par)); [|apply L]. apply NoDup_filter, L.
  - intros i c Hc. apply L. by apply Hsub.
  - intros i k Hi Hi0. destruct (reap_lookup i k Hi) as (Hip & k0 & Hk0 & -> & _). pose proof (P i k0 Hk0 Hi0).
    unfold reaped, fupd. destruct (decide (p_pptr k0 = par)) as [E|]; [|done]. apply list_elem_of_filter. by rewrite E in H.
Qed.
End reap.

End ProcessTree.
