(* ===== verification/ProcessRun.v ===== *)
(** * Runs of the process layer against lists of children; what waiting
    reports; which terminal controls whom *)
From S2P Require Import Prelude Process ProcessTree.
From Stdlib Require Import Sorting.Sorted.

Module ProcessRun.
Import Process ProcessTree.

(** ** What a step leaves alone *)

Definition life (t : task) : phase * bool := (phs t, bool_decide (state t = ZOMBIE)).
(** What no signal changes. *)
Definition ids (t : task) : (phase * bool) * Z * Z * bool * option nat := (life t, pgrp t, session t, leader t, ctty t).

Record keeps {A} (f : task -> A) (s s' : sys) : Prop := {
  kp_tree : tree s' = tree s;
  kp_order : order s' = order s;
  kp_last : last_pid s' = last_pid s;
  kp_tasks i : f <$> tasks s' !! i = f <$> tasks s !! i;
}.

#[global] Instance keeps_preorder {A} (f : task -> A) : PreOrder (keeps f).
Proof.
  split; [by split|]. intros s1 s2 s3 [] []. split; congruence.
Qed.

Lemma keeps_upd {A} (f : task -> A) i g s : (forall t, tasks s !! i = Some t -> f (g t) = f t) -> keeps f s (upd i g s).
Proof.
  intros H. split; try done. intros j. simpl. destruct (decide (j = i)) as [->|]; [|by rewrite lookup_alter_ne].
  rewrite lookup_alter_eq. destruct (tasks s !! i) as [t|] eqn:E; [|done]. simpl. by rewrite (H t).
Qed.

Lemma keeps_map {A B} (f : task -> A) (h : A -> B) s s' : keeps f s s' -> keeps (fun t => h (f t)) s s'.
Proof.
  intros []. split; try done. intros i. specialize (kp_tasks0 i).
  destruct (tasks s' !! i), (tasks s !! i); try done. simpl in *. congruence.
Qed.

Lemma keeps_life s s' : keeps ids s s' -> keeps life s s'.
Proof. intros H. exact (keeps_map ids (fun x => x.1.1.1.1) s s' H). Qed.

(** A step that only sends signals. *)
Definition signalled (s s' : sys) : Prop := keeps ids s s' /\ (terms s', pend s') = (terms s, pend s).
#[global] Instance signalled_preorder : PreOrder signalled.
Proof. split; [by split|]. intros s1 s2 s3 [] []. split; [by transitivity s2|congruence]. Qed.

Lemma post_sig_ids sig t : ids (post_sig sig t) = ids t.
Proof.
  unfold post_sig. destruct (decide (state t = ZOMBIE)); [done|].
  assert (Hs : forall st code sg, (st = ZOMBIE <-> state t = ZOMBIE) -> ids (set_run st code sg t) = ids t).
  { intros st code sg H. unfold ids, life. simpl. by rewrite (bool_decide_ext _ _ H). }
  repeat case_match; simpl; unfold ids, life; simpl; try done; repeat case_match; try done;
    repeat (rewrite bool_decide_false; [|done]); done.
Qed.

Lemma send_sig_signals sig i s : signalled s (send_sig sig i s).1.
Proof.
  unfold send_sig. repeat case_match; try done. split; [|done]. apply keeps_upd. intros. apply post_sig_ids.
Qed.

Lemma send_all_signals p sig l : forall cnt res s, signalled s (send_all l p sig cnt res s).1.1.
Proof.
  induction l as [|i l IH]; intros cnt res s; simpl; [done|].
  destruct (match tasks s !! i with Some t => p i t | None => false end); [|apply IH].
  pose proof (send_sig_signals sig i s) as H. destruct (send_sig sig i s) as [s1 err]. simpl in H.
  destruct (negb _); (etransitivity; [exact H|apply IH]).
Qed.

Lemma send_others_signals me sig l : forall cnt res s, signalled s (send_others l me sig cnt res s).1.1.
Proof.
  induction l as [|i l IH]; intros cnt res s; simpl; [done|]. destruct (_ && _); [|apply IH].
  pose proof (send_sig_signals sig i s) as H. destruct (send_sig sig i s) as [s1 err]. simpl in H.
  etransitivity; [exact H|apply IH].
Qed.

Lemma kill_group_signals p sig s : signalled s (kill_group p sig s).1.
Proof.
  unfold kill_group. pose proof (send_all_signals p sig (order s) 0 (- ESRCH) s) as H.
  by destruct (send_all _ _ _ _ _ _) as [[s1 cnt] res].
Qed.

Lemma kill_pg_signals pg sig s : signalled s (kill_pg pg sig s).1.
Proof. unfold kill_pg. destruct (_ || _); [done|apply kill_group_signals]. Qed.

Lemma hang_up_signals pg s : signalled s (hang_up pg s).
Proof. unfold hang_up. etransitivity; apply kill_pg_signals. Qed.

Lemma sys_kill_signals me pid sig s : signalled s (sys_kill me pid sig s).1.
Proof.
  unfold sys_kill. destruct (tasks s !! me); [|done]. destruct (pid =? 0); [apply kill_pg_signals|].
  destruct (pid =? -1).
  - pose proof (send_others_signals me sig (order s) 0 0 s) as H. by destruct (send_others _ _ _ _ _ _) as [[s1 cnt] res].
  - destruct (pid <? 0); [apply kill_pg_signals|]. unfold kill_proc. destruct (bad_sig sig); [done|].
    destruct (bool_decide _); [apply send_sig_signals|done].
Qed.

Lemma notify_parent_signals p s : signalled s (notify_parent p s).
Proof.
  unfold notify_parent. set (s1 := if _ =? _ then _ else s).
  assert (H : signalled s s1).
  { unfold s1. destruct (_ =? _); [|done]. split; [|done]. by apply keeps_upd. }
  destruct (tasks s1 !! p); [|done]. etransitivity; [exact H|apply send_sig_signals].
Qed.

(** Signals after the tree has been changed to [T]. *)
Definition moved_to (T : gmap Z links) (s s' : sys) : Prop := signalled (set_tree T s) s'.

Lemma adopt_moves me p s : moved_to (move_child me (init s) p (tree s)) s (adopt me p s).
Proof.
  unfold moved_to, adopt. set (s1 := set_tree _ s). destruct (tasks s1 !! p) as [t|]; [|done].
  destruct (tasks s1 !! me) as [c|]; [|done].
  set (s2 := if decide _ then _ else s1).
  assert (H : signalled s1 s2) by (unfold s2; destruct (decide _); [apply notify_parent_signals|done]).
  destruct (_ && _); [|done]. etransitivity; [exact H|apply hang_up_signals].
Qed.

(** [do_exit] gives all the children of [me] to init. *)
Definition given_up (K : Z -> list Z) (me ini : Z) : Z -> list Z := fupd (fupd K me []) ini (rev (K me) ++ K ini).

Lemma given_up_moved K me ini p l i : K me = p :: l -> ini <> me ->
  given_up (moved me ini p l K) me ini i = given_up K me ini i.
Proof.
  intros E Hne. unfold given_up, moved, fupd. destruct (decide (me = ini)); [congruence|].
  rewrite (decide_True (P := ini = ini)) by done. rewrite (decide_True (P := me = me)) by done.
  rewrite E. simpl. rewrite <- app_assoc. simpl. destruct (decide (i = ini)), (decide (i = me)); done.
Qed.

Lemma placed_ext T K K' : (forall i, K i = K' i) -> placed T K -> placed T K'.
Proof. intros E P i k Hi Hi0. rewrite <- E. by eapply P. Qed.

Definition has {A} (m : gmap Z A) (i : Z) : Prop := is_Some (m !! i).

Lemma has_alter {A} (f : A -> A) j (m : gmap Z A) i : has (alter f j m) i <-> has m i.
Proof. apply lookup_alter_is_Some. Qed.
Lemma has_alter_opt f o T i : has (alter_opt o f T) i <-> has T i.
Proof. destruct o; [apply has_alter|done]. Qed.
Lemma has_move me ini p T i : has (move_child me ini p T) i <-> has T i.
Proof. unfold move_child. by rewrite !has_alter, ?has_alter_opt, !has_alter. Qed.
Lemma has_REMOVE p T i : has (REMOVE_LINKS p T) i <-> has T i.
Proof. unfold REMOVE_LINKS. by destruct (ysptr_of _ p); rewrite has_alter, has_alter_opt. Qed.
Lemma has_SET p par T i : has (SET_LINKS p par T) i <-> i = p \/ has T i.
Proof.
  unfold SET_LINKS. rewrite has_alter, has_alter_opt. unfold has. rewrite lookup_insert_is_Some.
  destruct (decide (p = i)); naive_solver.
Qed.
Lemma has_delete {A} p (m : gmap Z A) i : has (delete p m) i <-> i <> p /\ has m i.
Proof. unfold has. rewrite lookup_delete_is_Some. naive_solver. Qed.

(** The loop of [do_exit]: it ends, and the children change hands in order. *)
Lemma exit_children_spec me ini l : forall pv K s fuel, lists_at me pv (tree s) K -> placed (tree s) K -> K me = l ->
  init s = ini -> has (tree s) ini -> has (tree s) me -> 0 <= ini < me -> (length l < fuel)%nat ->
  exists s1, exit_children fuel me s = Some (upd me (set_phase Reparented) s1) /\
    forest (tree s1) (given_up K me ini) /\ signalled (set_tree (tree s1) s) s1 /\ forall i, has (tree s1) i <-> has (tree s) i.
Proof.
  induction l as [|p l IH]; intros pv K s fuel F P HK Hi Hini [km Hme] Hlt Hf; destruct fuel as [|fuel]; simpl in Hf; try lia.
  - assert (Ec : cptr_of (tree s) me = None).
    { unfold cptr_of. rewrite Hme. simpl. rewrite (cptr_head _ _ _ _ F me km Hme). by rewrite HK. }
    exists s. simpl. rewrite Ec. split; [done|]. split; [|split; [by destruct s|done]].
    assert (E : forall i, K i = given_up K me ini i).
    { intros i. unfold given_up, fupd. rewrite HK. simpl. destruct (decide (i = ini)), (decide (i = me)); congruence. }
    split; [|by eapply placed_ext]. apply (lists_ext _ _ _ K _ E). destruct F as [F1 F2 F3 F4]. split; try done.
    intros i k Hk. pose proof (F1 i k Hk) as C. destruct (decide (i = me)) as [->|].
    + rewrite HK in *. simpl in *. by destruct (decide (me = 0)).
    + by destruct (decide (i = 0)).
  - assert (Hp : p ∈ K me) by (rewrite HK; left). pose proof (fo_lt _ _ _ _ F me p Hp).
    assert (Ec : cptr_of (tree s) me = Some p).
    { unfold cptr_of. rewrite Hme. simpl. rewrite (cptr_head _ _ _ _ F me km Hme). by rewrite HK. }
    simpl. rewrite Ec. destruct (adopt_moves me p s) as [A At]. rewrite Hi in A, At.
    assert (Et : tree (adopt me p s) = move_child me ini p (tree s)) by apply A.
    destruct (IH (Some p) (moved me ini p l K) (adopt me p s) fuel) as (s1 & Ex & Fo & [Sg St] & Hd); try rewrite Et; try lia.
    + eapply move_child_lists; eauto; lia.
    + eapply move_child_placed; eauto; lia.
    + unfold moved. rewrite fupd_ne by lia. apply fupd_eq.
    + unfold init. by rewrite (kp_order _ _ _ A).
    + by apply has_move.
    + apply has_move. by exists km.
    + exists s1. split; [done|]. split; [|split].
      * destruct Fo as [Fo1 Fo2]. assert (E : forall i, given_up (moved me ini p l K) me ini i = given_up K me ini i).
        { intros i. apply given_up_moved; [done|lia]. }
        split; [by apply (lists_ext _ _ _ _ _ E)|by apply (placed_ext _ _ _ E)].
      * split; [|by rewrite St]. destruct A as [A1 A2 A3 A4], Sg as [S1 S2 S3 S4]. simpl in *.
        split; simpl; try congruence.
      * intros i. by rewrite Hd, Et, has_move.
Qed.

(** ** The invariant *)

(** The children of such a task have been given up. *)
Definition gone (p : phase) : bool := match p with Alive | Leaving | Exiting => false | _ => true end.
Definition dead (p : phase) : bool := match p with Alive | Leaving | Exiting | Reparented => false | _ => true end.

Record tree_ok (s : sys) (K : Z -> list Z) : Prop := {
  to_forest : forest (tree s) K;
  to_dom i : has (tree s) i <-> has (tasks s) i;
  to_root i : i = 0 \/ i = 1 -> exists t, tasks s !! i = Some t /\ phs t = Alive;
  to_sorted : StronglySorted Z.lt (order s);
  to_order i : i ∈ order s <-> has (tasks s) i /\ i <> 0;
  to_pids i : has (tasks s) i -> 0 <= i <= last_pid s;
  to_gone i t : tasks s !! i = Some t -> gone (phs t) = true -> K i = [];
  to_dead i t : tasks s !! i = Some t -> bool_decide (state t = ZOMBIE) = dead (phs t);
}.

Lemma tree_ok_init s K : tree_ok s K -> init s = 1.
Proof.
  intros O. destruct (to_root _ _ O 1 (or_intror eq_refl)) as (t & H1 & _).
  assert (Hin : 1 ∈ order s) by (apply (to_order _ _ O); split; [by exists t|done]).
  pose proof (to_sorted _ _ O) as S. pose proof (to_order _ _ O) as Q. unfold init.
  destruct (order s) as [|i l]; [by apply elem_of_nil in Hin|].
  apply StronglySorted_inv in S as [_ S]. apply elem_of_cons in Hin as [|Hin]; [done|].
  rewrite Forall_forall in S. pose proof (S 1 Hin).
  destruct (proj1 (Q i) ltac:(left)) as [Hi Hi0]. pose proof (to_pids _ _ O i Hi). lia.
Qed.

Lemma tree_ok_ext s K K' : (forall i, K i = K' i) -> tree_ok s K -> tree_ok s K'.
Proof.
  intros E [[F P] ? ? ? ? ? G ?]. split; try done.
  - split; [by apply (lists_ext _ _ _ _ _ E)|by apply (placed_ext _ _ _ E)].
  - intros i t. rewrite <- E. by apply G.
Qed.

Lemma keeps_has s s' {A} (f : task -> A) i : keeps f s s' -> has (tasks s') i <-> has (tasks s) i.
Proof.
  intros [_ _ _ H]. specialize (H i). unfold has. destruct (tasks s' !! i), (tasks s !! i); try done; split; eauto.
Qed.

(** What [tree_ok] needs of the tasks: a step that keeps the phases, and the
    zombies, keeps it. *)
Lemma keeps_back {A} (f : task -> A) s s' i t : keeps f s s' -> tasks s' !! i = Some t ->
  exists t0, tasks s !! i = Some t0 /\ f t = f t0.
Proof.
  intros [_ _ _ H] E. specialize (H i). rewrite E in H. destruct (tasks s !! i) as [t0|]; [|done]. exists t0.
  split; [done|]. simpl in H. congruence.
Qed.
Lemma keeps_forth {A} (f : task -> A) s s' i t : keeps f s s' -> tasks s !! i = Some t ->
  exists t', tasks s' !! i = Some t' /\ f t' = f t.
Proof.
  intros [_ _ _ H] E. specialize (H i). rewrite E in H. destruct (tasks s' !! i) as [t0|]; [|done]. exists t0.
  split; [done|]. simpl in H. congruence.
Qed.

Lemma tree_ok_keeps s s' K : keeps life s s' -> tree_ok s K -> tree_ok s' K.
Proof.
  intros L O. pose proof L as [E1 E2 E3 _]. split.
  - rewrite E1. apply O.
  - intros i. rewrite E1, (keeps_has _ _ _ i L). apply O.
  - intros i Hi. destruct (to_root _ _ O i Hi) as (t & Ht & Ha). destruct (keeps_forth _ _ _ i t L Ht) as (t' & Ht' & E).
    exists t'. split; [done|]. injection E as E _. congruence.
  - rewrite E2. apply O.
  - intros i. rewrite E2, (keeps_has _ _ _ i L). apply O.
  - intros i Hi. rewrite E3. apply (to_pids _ _ O). by apply (keeps_has _ _ _ i L).
  - intros i t Ht G. destruct (keeps_back _ _ _ i t L Ht) as (t0 & Ht0 & E). injection E as E _.
    apply (to_gone _ _ O i t0); congruence.
  - intros i t Ht. destruct (keeps_back _ _ _ i t L Ht) as (t0 & Ht0 & E). injection E as E1' E2'.
    rewrite E2', E1'. by apply (to_dead _ _ O i).
Qed.

(** Moving one task, not one of the first two, to a later phase. *)
Lemma tree_ok_upd s K me g t : tree_ok s K -> tasks s !! me = Some t -> me <> 0 -> me <> 1 ->
  (gone (phs (g t)) = true -> K me = []) -> bool_decide (state (g t) = ZOMBIE) = dead (phs (g t)) ->
  tree_ok (upd me g s) K.
Proof.
  intros O Ht H0 H1 Hg Hd.
  assert (Hh : forall i, has (tasks (upd me g s)) i <-> has (tasks s) i) by (intros i; apply has_alter).
  assert (Hl : forall i t', tasks (upd me g s) !! i = Some t' -> (i = me /\ t' = g t) \/ tasks s !! i = Some t').
  { intros i t' Hi. simpl in Hi. destruct (decide (i = me)) as [->|]; [|rewrite lookup_alter_ne in Hi by done; by right].
    left. rewrite lookup_alter_eq, Ht in Hi. by injection Hi. }
  split; try apply O.
  - intros i. rewrite Hh. apply O.
  - intros i Hi. simpl. rewrite lookup_alter_ne by lia. by apply O.
  - intros i. rewrite Hh. apply O.
  - intros i. rewrite Hh. apply O.
  - intros i t' [[-> ->]|Hi]%Hl; [done|]. by apply O.
  - intros i t' [[-> ->]|Hi]%Hl; [done|]. by eapply O.
Qed.

(** ** Operations that leave the tree alone *)

Lemma signalled_life s s' : signalled s s' -> keeps life s s'.
Proof. intros [H _]. by apply keeps_life. Qed.

Lemma keeps_terms {A} (f : task -> A) l s s' : keeps f s s' -> keeps f s (set_terms l s').
Proof. by intros []. Qed.

Lemma tty_set_controlling_life me k s : keeps life s (tty_set_controlling me k s).1.
Proof. unfold tty_set_controlling. repeat case_match; try done. simpl. by apply keeps_terms, keeps_upd. Qed.

Lemma drop_ctty_keeps {A} (f : task -> A) k se l : (forall t, f (set_ctty None t) = f t) ->
  forall s, keeps f s (drop_ctty l k se s).
Proof.
  intros Hf. induction l as [|i l IH]; intros s; simpl; [done|]. etransitivity; [|apply IH].
  destruct (tasks s !! i) as [t|]; [|done]. destruct (_ && _); [|done]. by apply keeps_upd.
Qed.

Lemma drop_ctty_terms k se l : forall s, terms (drop_ctty l k se s) = terms s.
Proof.
  induction l as [|i l IH]; intros s; simpl; [done|]. rewrite IH. destruct (tasks s !! i); [|done]. by destruct (_ && _).
Qed.

Lemma keeps_pend {A} (f : task -> A) m s s' : keeps f s s' -> keeps f s (set_pend m s').
Proof. by intros []. Qed.

Lemma tty_detach_keeps {A} (f : task -> A) me k se s : keeps f s (tty_detach_session me k se s).
Proof.
  unfold tty_detach_session. destruct (terms s !! k) as [y|]; [|done]. destruct (negb _); [done|].
  by apply keeps_pend, keeps_terms.
Qed.

Lemma detach_tasks_life me s : keeps life s (detach_tasks me s).
Proof.
  unfold detach_tasks. destruct (pend s !! me) as [d|]; [|done].
  assert (H : keeps life s (set_pend (delete me (pend s)) (drop_ctty (order s) (d_tty d) (d_session d) s)))
    by by apply keeps_pend, drop_ctty_keeps.
  destruct (_ >? 0); [|done]. etransitivity; [exact H|]. apply signalled_life, hang_up_signals.
Qed.

Lemma tty_ioctl_life me k c ok s : keeps life s (tty_ioctl_tty me k c ok s).1.1.
Proof.
  unfold tty_ioctl_tty. destruct (tasks s !! me) as [t|]; [|done]. destruct (terms s !! k) as [y|]; [|done].
  destruct (_ && _); [apply signalled_life, kill_pg_signals|].
  destruct c; repeat case_match; try done; simpl; [|apply tty_detach_keeps].
  match goal with E : tty_set_controlling _ _ _ = _ |- _ => pose proof (tty_set_controlling_life me k s) as H'; by rewrite E in H' end.
Qed.

Lemma tty_try_life me k noctty s : keeps life s (tty_try_set_controlling me k noctty s).
Proof. unfold tty_try_set_controlling. repeat case_match; try done. apply tty_set_controlling_life. Qed.

Lemma sys_setsid_life me s : keeps life s (sys_setsid me s).1.
Proof. unfold sys_setsid. repeat case_match; try done. by apply keeps_upd. Qed.

Lemma sys_setpgid_life me pid pg s : keeps life s (sys_setpgid me pid pg s).1.
Proof. unfold sys_setpgid. repeat case_match; try done; simpl; by apply keeps_upd. Qed.

(** ** Operations on the tree *)

Lemma sorted_snoc (l : list Z) x : StronglySorted Z.lt l -> (forall i, i ∈ l -> i < x) -> StronglySorted Z.lt (l ++ [x]).
Proof.
  induction l as [|a l IH]; intros S H; simpl; [by repeat constructor|].
  apply StronglySorted_inv in S as [S A]. constructor.
  - apply IH; [done|]. intros i Hi. apply H. by right.
  - apply Forall_app. split; [done|]. constructor; [|done]. apply H. by left.
Qed.

Lemma sorted_filter (P : Z -> Prop) `{!forall x, Decision (P x)} (l : list Z) :
  StronglySorted Z.lt l -> StronglySorted Z.lt (filter P l).
Proof.
  induction l as [|a l IH]; intros S; [done|]. apply StronglySorted_inv in S as [S A].
  destruct (decide (P a)); [rewrite filter_cons_True by done|rewrite filter_cons_False by done; auto].
  constructor; [auto|]. rewrite Forall_forall in A |- *. intros x [_ Hx]%list_elem_of_filter. auto.
Qed.

Lemma do_clone_ok s K me flags t : tree_ok s K -> tasks s !! me = Some t -> phs t = Alive ->
  do_clone me flags 0 0 s = ((do_clone me flags 0 0 s).1, last_pid s + 1) /\
  tree_ok (do_clone me flags 0 0 s).1 (fupd K me (last_pid s + 1 :: K me)).
Proof.
  intros O Ht Ha. unfold do_clone. rewrite Ht. simpl. split; [done|].
  set (pid := last_pid s + 1). set (ch := child_task t pid _).
  assert (Hme : has (tasks s) me) by by exists t.
  pose proof (to_pids _ _ O me Hme) as Hb.
  assert (Hnew : tasks s !! pid = None).
  { destruct (tasks s !! pid) eqn:E; [|done]. pose proof (to_pids _ _ O pid ltac:(by eexists)). lia. }
  assert (HnewT : tree s !! pid = None).
  { destruct (tree s !! pid) eqn:E; [|done]. pose proof (proj1 (to_dom _ _ O pid) ltac:(by eexists)) as [? H]. congruence. }
  assert (Hh : forall i, has (<[pid:=ch]> (tasks s)) i <-> i = pid \/ has (tasks s) i).
  { intros i. unfold has. rewrite lookup_insert_is_Some. destruct (decide (pid = i)); naive_solver. }
  assert (HK : K pid = []).
  { destruct (to_forest _ _ O) as [F _]. by apply (fo_out _ _ _ _ F). }
  split; simpl.
  - apply SET_LINKS_forest; [apply O|done|by apply O|lia].
  - intros i. rewrite has_SET, Hh. by rewrite (to_dom _ _ O i).
  - intros i Hi. rewrite lookup_insert_ne; [by apply O|].
    intros ->. destruct (to_root _ _ O i Hi) as (? & ? & _). congruence.
  - apply sorted_snoc; [apply O|]. intros i Hi. apply (to_order _ _ O) in Hi as [Hi _].
    pose proof (to_pids _ _ O i Hi). lia.
  - intros i. rewrite elem_of_app, list_elem_of_singleton, Hh, (to_order _ _ O). split; [|naive_solver].
    intros [[? ?]| ->]; [naive_solver|]. split; [by left|lia].
  - intros i [->|Hi]%Hh; [lia|]. pose proof (to_pids _ _ O i Hi). lia.
  - intros i t' Hi Hg. destruct (decide (i = pid)) as [->|].
    + rewrite lookup_insert_eq in Hi. by injection Hi as <-.
    + rewrite lookup_insert_ne in Hi by done. rewrite fupd_ne; [by apply (to_gone _ _ O i t')|]. intros ->. rewrite Ht in Hi. injection Hi as ->.
      by rewrite Ha in Hg.
  - intros i t' Hi. destruct (decide (i = pid)) as [->|].
    + rewrite lookup_insert_eq in Hi. by injection Hi as <-.
    + rewrite lookup_insert_ne in Hi by done. by apply (to_dead _ _ O i t').
Qed.

Lemma tree_ok_last_pid s K n : tree_ok s K -> last_pid s <= n -> tree_ok (set_last_pid n s) K.
Proof. intros [? ? ? ? ? P ? ?] H. split; try done. intros i Hi. pose proof (P i Hi). simpl. lia. Qed.

(** ** Waiting *)

Definition wanted (pg pid : Z) (s : sys) (i : Z) : bool :=
  match tasks s !! i with Some t => wants pg pid i t | None => false end.
(** A zombie, or a stopped task not reported yet. *)
Definition ready (pg pid : Z) (s : sys) (i : Z) : bool :=
  wanted pg pid s i &&
  match tasks s !! i with
  | Some t => bool_decide (state t = ZOMBIE) || (bool_decide (state t = STOPPED) && negb (exit_code t =? 0))
  | None => false
  end.

(** What [waitpid] is to report about the children [l], youngest first. *)
Definition wait_report (pg pid : Z) (seen : bool) (l : list Z) (s : sys) : waited :=
  match find (ready pg pid s) l with
  | Some i =>
    match tasks s !! i with
    | Some t => if decide (state t = ZOMBIE) then Reaped i (exit_code t) else Stopped_child i (exit_code t)
    | None => No_child
    end
  | None => if seen || existsb (wanted pg pid s) l then Nothing_yet else No_child
  end.

Definition reap (i : Z) (s : sys) : sys :=
  mksys (delete i (tasks s)) (delete i (REMOVE_LINKS i (tree s))) (filter (fun j => j <> i) (order s)) (last_pid s) (terms s) (pend s).
Definition wait_effect (w : waited) (s : sys) : sys :=
  match w with
  | Reaped i _ => reap i s
  | Stopped_child i _ => upd i (fun t => set_run STOPPED 0 (signal t) t) s
  | _ => s
  end.

Lemma wait_scan_spec pg pid s par l : forall prev cur seen fuel, chain (tree s) par prev cur l ->
  (forall i, i ∈ l -> has (tasks s) i) -> (length l < fuel)%nat ->
  wait_scan fuel pg pid cur seen s = Some (wait_effect (wait_report pg pid seen l s) s, wait_report pg pid seen l s).
Proof.
  induction l as [|i l IH]; intros prev cur seen fuel C H Hf; destruct fuel as [|fuel]; simpl in Hf; try lia.
  - simpl in C. subst cur. unfold wait_report. simpl. rewrite orb_false_r. by destruct seen.
  - destruct C as (-> & k & Hk & _ & _ & C). destruct (H i ltac:(left)) as [t Ht].
    assert (En : osptr_of (tree s) i = p_osptr k) by (unfold osptr_of; by rewrite Hk).
    assert (IH' : forall seen', wait_scan fuel pg pid (p_osptr k) seen' s =
      Some (wait_effect (wait_report pg pid seen' l s) s, wait_report pg pid seen' l s)).
    { intros seen'. eapply IH; [done| |lia]. intros j Hj. apply H. by right. }
    simpl wait_scan. rewrite Ht, En.
    assert (Hskip : forall seen', ready pg pid s i = false -> seen' = seen || wanted pg pid s i ->
      wait_report pg pid seen (i :: l) s = wait_report pg pid seen' l s).
    { intros seen' Hr ->. unfold wait_report. simpl. rewrite Hr. by rewrite orb_assoc. }
    assert (Hr : ready pg pid s i = wants pg pid i t && (bool_decide (state t = ZOMBIE) ||
      (bool_decide (state t = STOPPED) && negb (exit_code t =? 0)))).
    { unfold ready, wanted. by rewrite Ht. }
    assert (Hw : wanted pg pid s i = wants pg pid i t) by (unfold wanted; by rewrite Ht).
    assert (Hstop : ready pg pid s i = true -> wait_report pg pid seen (i :: l) s =
      if decide (state t = ZOMBIE) then Reaped i (exit_code t) else Stopped_child i (exit_code t)).
    { intros E. unfold wait_report. simpl. by rewrite E, Ht. }
    destruct (wants pg pid i t) eqn:Ew; simpl negb; cbv iota.
    + destruct (state t) eqn:Es; simpl in Hr;
        try (rewrite (Hskip true Hr) by (rewrite Hw; by rewrite orb_true_r); by apply IH').
      * rewrite (Hstop Hr). done.
      * destruct (exit_code t =? 0) eqn:Ec.
        { rewrite (Hskip true Hr) by (rewrite Hw; by rewrite orb_true_r). apply IH'. }
        rewrite (Hstop Hr). done.
    + rewrite (Hskip seen Hr) by (by rewrite Hw, orb_false_r). apply IH'.
Qed.

Lemma kids_tasks s K i : tree_ok s K -> forall c, c ∈ K i -> has (tasks s) c.
Proof.
  intros O c Hc. apply (to_dom _ _ O). destruct (to_forest _ _ O) as [F _].
  destruct (kid_lookup _ _ _ _ F i c Hc) as (k & Hk & _). by exists k.
Qed.

Lemma kids_size s K i : tree_ok s K -> (length (K i) < S (size (tasks s)))%nat.
Proof.
  intros O. apply Nat.lt_succ_r, nodup_size; [apply (to_forest _ _ O)|]. by apply kids_tasks.
Qed.

(** [sys_waitpid] reports the first child, youngest first, that is ready. *)
Lemma sys_waitpid_spec s K me pid t : tree_ok s K -> tasks s !! me = Some t ->
  sys_waitpid me pid s = Some (wait_effect (wait_report (pgrp t) pid false (K me) s) s, wait_report (pgrp t) pid false (K me) s).
Proof.
  intros O Ht. unfold sys_waitpid. rewrite Ht. destruct (to_forest _ _ O) as [F P].
  destruct (proj2 (to_dom _ _ O me) ltac:(by exists t)) as [k Hk].
  pose proof (fo_kids _ _ _ _ F me k Hk) as C.
  replace (cptr_of (tree s) me) with (p_cptr k) by (unfold cptr_of; by rewrite Hk).
  eapply wait_scan_spec; [exact C|by apply kids_tasks|by apply kids_size].
Qed.

Lemma find_ready pg pid s l i : find (ready pg pid s) l = Some i -> i ∈ l /\ ready pg pid s i = true.
Proof. intros H. apply find_some in H as [H1 H2]. split; [by apply list_elem_of_In|done]. Qed.

(** A reaped child was a child, and a zombie. *)
Lemma report_reaped pg pid seen l s i c : wait_report pg pid seen l s = Reaped i c ->
  i ∈ l /\ exists t, tasks s !! i = Some t /\ state t = ZOMBIE /\ exit_code t = c.
Proof.
  unfold wait_report. destruct (find _ l) as [j|] eqn:E; [|by destruct (_ || _)].
  apply find_ready in E as [E _]. destruct (tasks s !! j) as [t|] eqn:Ht; [|done].
  destruct (decide (state t = ZOMBIE)); [|done]. intros [= <- <-]. split; [done|]. by exists t.
Qed.

Lemma reap_ok s K me i t : tree_ok s K -> i ∈ K me -> tasks s !! i = Some t -> state t = ZOMBIE ->
  tree_ok (reap i s) (fupd K me (filter (fun j => j <> i) (K me))).
Proof.
  intros O Hi Ht Hz. assert (Hd : dead (phs t) = true).
  { rewrite <- (to_dead _ _ O i t Ht). by apply bool_decide_eq_true. }
  assert (Hg : K i = []) by (apply (to_gone _ _ O i t Ht); by destruct (phs t)).
  assert (Hsub : forall j, K j = [] -> fupd K me (filter (fun j => j <> i) (K me)) j = []).
  { intros j E. unfold fupd. destruct (decide (j = me)) as [->|]; [by rewrite E|done]. }
  split; simpl.
  - apply REMOVE_LINKS_forest; [apply O|done|done].
  - intros j. rewrite !has_delete, has_REMOVE. by rewrite (to_dom _ _ O j).
  - intros j Hj. destruct (to_root _ _ O j Hj) as (t' & Ht' & Ha). exists t'. split; [|done].
    rewrite lookup_delete_ne; [done|]. intros ->. rewrite Ht' in Ht. injection Ht as ->. by rewrite Ha in Hd.
  - apply sorted_filter, O.
  - intros j. rewrite list_elem_of_filter, has_delete, (to_order _ _ O). naive_solver.
  - intros j [_ Hj]%has_delete. by apply O.
  - intros j t' [_ Hj]%lookup_delete_Some Hg'. apply Hsub. by eapply (to_gone _ _ O j).
  - intros j t' [_ Hj]%lookup_delete_Some. by apply (to_dead _ _ O j).
Qed.

Lemma keeps_set_tree {A} (f : task -> A) T s : keeps f (set_tree T s) s -> tree s = T.
Proof. by intros []. Qed.

Lemma exit_children_ok s K me t : tree_ok s K -> tasks s !! me = Some t -> phs t = Exiting ->
  exists s', exit_children (S (size (tasks s))) me s = Some s' /\ tree_ok s' (given_up K me 1).
Proof.
  intros O Ht Hp. assert (Hme : has (tasks s) me) by by exists t.
  assert (H01 : me <> 0 /\ me <> 1).
  { split; intros ->; [destruct (to_root _ _ O 0 ltac:(lia)) as (? & ? & ?)|destruct (to_root _ _ O 1 ltac:(lia)) as (? & ? & ?)]; congruence. }
  destruct H01 as [H0 H1]. pose proof (to_pids _ _ O me Hme) as Hb. destruct (to_forest _ _ O) as [F P].
  destruct (exit_children_spec me 1 (K me) None K s (S (size (tasks s)))) as (s1 & E & Fo & [Sg St] & Hd); try done; try lia.
  - by apply (lists_none 0).
  - by apply (tree_ok_init s K).
  - apply O. destruct (to_root _ _ O 1 ltac:(lia)) as (t1 & ? & _). by exists t1.
  - by apply O.
  - by apply (kids_size s K).
  - exists (upd me (set_phase Reparented) s1). split; [done|]. apply keeps_life in Sg.
    destruct (keeps_forth _ _ _ me t Sg Ht) as (t1 & Ht1 & El). injection El as El1 El2.
    assert (Hg1 : given_up K me 1 me = []) by (unfold given_up; rewrite fupd_ne by done; apply fupd_eq).
    assert (O1 : tree_ok s1 (given_up K me 1)).
    { pose proof Sg as [_ E2 E3 _]. simpl in E2, E3. split; try done.
      - intros i. rewrite Hd, (keeps_has _ _ _ i Sg). apply O.
      - intros i Hi. destruct (to_root _ _ O i Hi) as (t' & Ht' & Ha).
        destruct (keeps_forth _ _ _ i t' Sg Ht') as (t2 & ? & E'). exists t2. split; [done|]. injection E'. congruence.
      - rewrite E2. apply O.
      - intros i. rewrite E2, (keeps_has _ _ _ i Sg). apply O.
      - intros i Hi. rewrite E3. apply O. by apply (keeps_has _ _ _ i Sg).
      - intros i t' Hi Hg. destruct (keeps_back _ _ _ i t' Sg Hi) as (t0 & Ht0 & E'). injection E' as E' _.
        simpl in Ht0. destruct (decide (i = me)) as [->|]; [done|]. destruct (decide (i = 1)) as [->|].
        { destruct (to_root _ _ O 1 ltac:(lia)) as (? & ? & ?). rewrite E' in Hg. simplify_eq. by rewrite H2 in Hg. }
        unfold given_up. rewrite !fupd_ne by done. apply (to_gone _ _ O i t0); [done|]. by rewrite <- E'.
      - intros i t' Hi. destruct (keeps_back _ _ _ i t' Sg Hi) as (t0 & Ht0 & E'). injection E' as E1' E2'.
        rewrite E2', E1'. by apply (to_dead _ _ O i). }
    apply (tree_ok_upd s1 _ me _ t1 O1 Ht1); try done.
    simpl. rewrite El2. rewrite (to_dead _ _ O me t Ht). by rewrite Hp.
Qed.

(** ** The refinement *)

(** What a step does to the lists of children. *)
Definition kids_after (e : event) (s : sys) (K : Z -> list Z) : Z -> list Z :=
  match tasks s !! who e with
  | Some t =>
    if enabled e t s then
      match e with
      | Clone me _ early late => if (early =? 0) && (late =? 0) then fupd K me (last_pid s + 1 :: K me) else K
      | Exit_children me => given_up K me 1
      | Waitpid me pid =>
        match wait_report (pgrp t) pid false (K me) s with
        | Reaped c _ => fupd K me (filter (fun j => j <> c) (K me))
        | _ => K
        end
      | _ => K
      end
    else K
  | None => K
  end.

Lemma exit_begin_ok s K me t : tree_ok s K -> tasks s !! me = Some t -> phs t = Alive -> me <> 1 ->
  exists s', exit_begin me s = Some s' /\ tree_ok s' K.
Proof.
  intros O Ht Ha H1. unfold exit_begin. destruct (me =? init_task) eqn:E0; [by exists s|].
  rewrite (tree_ok_init s K O). replace (me =? 1) with false by lia. simpl. rewrite Ht.
  set (s1 := match ctty t with Some _ => _ | None => s end).
  assert (L1 : keeps life s s1).
  { unfold s1. destruct (ctty t); [|done]. destruct (leader t); [apply tty_detach_keeps|done]. }
  eexists. split; [done|]. destruct (keeps_forth _ _ _ me t L1 Ht) as (t2 & Ht2 & E). injection E as E1 E2.
  apply (tree_ok_upd s1 K me _ t2); try done; [by apply (tree_ok_keeps s)|unfold init_task in E0; lia|].
  simpl. rewrite E2, (to_dead _ _ O me t Ht). by rewrite Ha.
Qed.

Lemma exit_orphan_ok s K me t : tree_ok s K -> tasks s !! me = Some t -> phs t = Leaving -> me <> 0 -> me <> 1 ->
  tree_ok (exit_orphan me s) K.
Proof.
  intros O Ht Ha H0 H1. unfold exit_orphan. rewrite Ht. set (s2 := match tasks s !! _ with Some _ => _ | None => s end).
  assert (L2 : keeps life s s2).
  { unfold s2. destruct (tasks s !! pptr_of (tree s) me); [|done]. destruct (_ && _); [|done]. apply signalled_life, hang_up_signals. }
  destruct (keeps_forth _ _ _ me t L2 Ht) as (t2 & Ht2 & E). injection E as E1 E2.
  apply (tree_ok_upd s2 K me _ t2); try done; [by apply (tree_ok_keeps s)|].
  simpl. rewrite E2, (to_dead _ _ O me t Ht). by rewrite Ha.
Qed.

(** A step is taken in its phase. *)
Lemma enabled_phase e t s : enabled e t s = true -> (exists me, e = Detach me) \/ phs t = when e.
Proof. destruct e; simpl; rewrite ?andb_true_iff, ?bool_decide_eq_true; intros H; (right; by destruct H) || (left; by eexists). Qed.

Ltac same_tree := right; eexists; split; [done|]; eapply tree_ok_keeps; [|done].

(** Every step is made, but init's exit, and keeps the lists. *)
Lemma step_ok s K e : tree_ok s K ->
  (e = Exit_begin 1 /\ step e s = None) \/ exists s', step e s = Some s' /\ tree_ok s' (kids_after e s K).
Proof.
  intros O. unfold step, kids_after. destruct (tasks s !! who e) as [t|] eqn:Ht; [|right; by exists s].
  destruct (enabled e t s) eqn:Hen; [|right; by exists s]. apply enabled_phase in Hen as [[me ->]|Hp].
  { right. eexists. split; [done|]. eapply tree_ok_keeps; [|exact O]. apply detach_tasks_life. }
  assert (Hlater : when e <> Alive -> who e <> 0 /\ who e <> 1).
  { intros Ha. split; intros E; rewrite E in Ht;
      [destruct (to_root _ _ O 0 ltac:(lia)) as (? & ? & ?)|destruct (to_root _ _ O 1 ltac:(lia)) as (? & ? & ?)]; congruence. }
  destruct e as [me fl ea la|me|me|me pid pg|me k c|me k n|me k|me|me k|me pid sig|me sig|me|me|me|me|me code|me|me pid]; simpl in *.
  - right. eexists. split; [done|]. destruct (ea =? 0) eqn:E1; simpl.
    + destruct (la =? 0) eqn:E2; simpl.
      * replace ea with 0 by lia. replace la with 0 by lia. by apply (do_clone_ok s K me fl t).
      * unfold do_clone. rewrite Ht, E1, E2. simpl. apply tree_ok_last_pid; [done|lia].
    + unfold do_clone. by rewrite Ht, E1.
  - same_tree. by apply keeps_upd.
  - same_tree. apply sys_setsid_life.
  - same_tree. apply sys_setpgid_life.
  - same_tree. apply tty_ioctl_life.
  - same_tree. apply tty_try_life.
  - same_tree. apply tty_set_controlling_life.
  - same_tree. apply detach_tasks_life.
  - same_tree. by apply keeps_terms.
  - same_tree. apply signalled_life, sys_kill_signals.
  - same_tree. apply keeps_upd. intros t' Ht'. rewrite Ht in Ht'. injection Ht' as <-. unfold life. simpl.
    rewrite (to_dead _ _ O me t Ht), Hp. done.
  - destruct (decide (me = 1)) as [->|]; [left|right; by eapply exit_begin_ok].
    split; [done|]. unfold exit_begin. simpl. by rewrite (tree_ok_init s K O).
  - right. eexists. split; [done|]. destruct Hlater as [Hl0 Hl1]; [done|]. by eapply exit_orphan_ok.
  - right. by eapply exit_children_ok.
  - right. eexists. split; [done|]. destruct Hlater as [Hl0 Hl1]; [done|]. eapply (tree_ok_upd s K me _ t); try done.
    simpl. intros _. apply (to_gone _ _ O me t Ht). by rewrite Hp.
  - right. eexists. split; [done|]. destruct Hlater as [Hl0 Hl1]; [done|]. eapply (tree_ok_upd s K me _ t); try done.
    + simpl. intros _. apply (to_gone _ _ O me t Ht). by rewrite Hp.
    + simpl. rewrite (to_dead _ _ O me t Ht). by rewrite Hp.
  - right. eexists. split; [done|]. destruct Hlater as [Hl0 Hl1]; [done|]. unfold park.
    eapply tree_ok_keeps; [apply signalled_life, notify_parent_signals|]. eapply (tree_ok_upd s K me _ t); try done.
    + simpl. intros _. apply (to_gone _ _ O me t Ht). by rewrite Hp.
    + simpl. rewrite (to_dead _ _ O me t Ht). by rewrite Hp.
  - right. rewrite (sys_waitpid_spec s K me pid t O Ht). simpl. eexists. split; [done|].
    destruct (wait_report (pgrp t) pid false (K me) s) as [c st|c st| |] eqn:E; simpl; try done.
    + destruct (report_reaped _ _ _ _ _ _ _ E) as (Hin & t' & Ht' & Hz & _). by eapply reap_ok.
    + eapply tree_ok_keeps; [|done]. apply keeps_upd. intros t' Ht'. unfold life. simpl.
      unfold wait_report in E. destruct (find _ _) as [j|]; [|by destruct (_ || _)]. destruct (tasks s !! j) as [tj|] eqn:Ej; [|done].
      destruct (decide (state tj = ZOMBIE)) as [|Hz]; [done|]. injection E as <- _. rewrite Ej in Ht'. injection Ht' as <-.
      rewrite bool_decide_false by done. done.
Qed.

(** ** From the start *)

Definition task0 : task := mktask 0 0 0 RUNNING 0 0 0 0 [] false false false None Alive.
Definition start (ts : list term) : sys := mksys {[ 0 := task0 ]} {[ 0 := mklinks 0 None None None ]} [] 0 ts ∅.
(** [mario] starts init, the first process. *)
Definition boot (ts : list term) : sys := (do_clone 0 0 0 0 (start ts)).1.
Definition kids0 : Z -> list Z := fupd (fun _ => []) 0 [1].

Lemma boot_tasks ts : tasks (boot ts) = <[1:=child_task task0 1 false]> {[ 0 := task0 ]}.
Proof. reflexivity. Qed.
Lemma boot_tree ts : tree (boot ts) = SET_LINKS 1 0 {[ 0 := mklinks 0 None None None ]}.
Proof. reflexivity. Qed.

Lemma boot_ok ts : tree_ok (boot ts) kids0.
Proof.
  assert (Ht : forall i t, tasks (boot ts) !! i = Some t -> (i = 0 \/ i = 1) /\ phs t = Alive /\ state t = RUNNING).
  { intros i t. rewrite boot_tasks. destruct (decide (i = 1)) as [->|].
    - rewrite lookup_insert_eq. intros [= <-]. split_and!; try done. by right.
    - rewrite lookup_insert_ne by done. intros [<- <-]%lookup_singleton_Some. split_and!; try done. by left. }
  assert (Hh : forall i, has (tasks (boot ts)) i <-> i = 0 \/ i = 1).
  { intros i. split; [intros [t [Hi _]%Ht]; done|]. intros [-> | ->]; rewrite boot_tasks; eexists; [|apply lookup_insert_eq].
    rewrite lookup_insert_ne by done. apply lookup_singleton_eq. }
  split.
  - rewrite boot_tree. apply (SET_LINKS_forest _ (fun _ => []) 1 0); [|done|by eexists|lia].
    split; [split|by intros i k [<- <-]%lookup_singleton_Some ?]; try done.
    + intros i k [<- <-]%lookup_singleton_Some. done.
    + intros; by apply NoDup_nil.
    + by intros i c ?%elem_of_nil.
  - intros i. rewrite Hh, boot_tree, has_SET. unfold has. rewrite lookup_singleton_is_Some. split; naive_solver.
  - intros i Hi. destruct (proj2 (Hh i) Hi) as [t E]. exists t. split; [done|]. by apply (Ht i).
  - repeat constructor.
  - intros i. rewrite Hh. change (order (boot ts)) with [1]. rewrite list_elem_of_singleton. lia.
  - intros i. rewrite Hh. change (last_pid (boot ts)) with 1. lia.
  - intros i t (_ & Ha & _)%Ht. by rewrite Ha.
  - intros i t (_ & Ha & Hs)%Ht. rewrite Ha, Hs. done.
Qed.

Fixpoint kids_run (l : list event) (s : sys) (K : Z -> list Z) : Z -> list Z :=
  match l with
  | [] => K
  | e :: l' => match step e s with Some s' => kids_run l' s' (kids_after e s K) | None => K end
  end.

Lemma run_ok l : forall s K, tree_ok s K ->
  match run l s with Some s' => tree_ok s' (kids_run l s K) | None => Exit_begin 1 ∈ l end.
Proof.
  induction l as [|e l IH]; intros s K O; simpl; [done|].
  destruct (step_ok s K e O) as [[-> ->]|(s' & -> & O')]; simpl; [left|].
  specialize (IH s' _ O'). destruct (run l s'); [done|]. by right.
Qed.

(** The children of every task after the events [l]. *)
Definition kids (l : list event) (ts : list term) : Z -> list Z := kids_run l (boot ts) kids0.

Lemma run_kids l ts s : run l (boot ts) = Some s -> tree_ok s (kids l ts).
Proof. intros E. pose proof (run_ok l _ _ (boot_ok ts)) as H. by rewrite E in H. Qed.

(** ** The claims *)


(** C27: in every state reached from boot, [sys_waitpid] ends and reports the
    first child, youngest first, that is wanted and is a zombie (then reaped) or
    stopped and not reported yet, else that there is one to wait for or none. *)
Theorem waitpid_exact ts l s me t pid :
  run l (boot ts) = Some s -> tasks s !! me = Some t ->
  let w := wait_report (pgrp t) pid false (kids l ts me) s in sys_waitpid me pid s = Some (wait_effect w s, w).
Proof. intros E Ht. apply sys_waitpid_spec; [by apply run_kids|done]. Qed.

(** A shell, its job stopped, and a zombie. *)
Definition some_events : list event :=
  [Clone 1 0 0 0; Setsid 2; Clone 2 0 0 0; Clone 2 0 0 0; Setpgid 2 4 4; Stop 4 SIGTSTP;
   Exit_begin 3; Exit_orphan 3; Exit_children 3; Exit_zombie 3].
Definition state_of (l : list event) : sys := default (boot []) (run l (boot [])).

Lemma waitpid_exact_witness :
  sys_waitpid 2 (-1) (state_of some_events) =
  Some (wait_effect (Stopped_child 4 SIGTSTP) (state_of some_events), Stopped_child 4 SIGTSTP).
Proof.
  exact (waitpid_exact [] some_events (state_of some_events) 2 _ (-1) ltac:(vm_compute; reflexivity) ltac:(vm_compute; reflexivity)).
Defined.

Lemma find_pid pg c s l : c ∈ l -> 0 < c -> ready pg c s c = true -> find (ready pg c s) l = Some c.
Proof.
  intros Hin Hc Hr. destruct (find (ready pg c s) l) as [j|] eqn:E.
  - apply find_ready in E as [_ E]. unfold ready, wanted in E. destruct (tasks s !! j); [|done].
    unfold wants in E. replace (c >? 0) with true in E by lia. f_equal. apply andb_prop in E as [E _]. lia.
  - pose proof (find_none _ _ E c) as H. rewrite Hr in H. apply list_elem_of_In in Hin. by specialize (H Hin).
Qed.

(** a child that has become a zombie but has neither stored its exit code nor
    left its stack can be reaped: [sys_waitpid] does not look at [parked], gives
    the old code, frees the task, and the code the child then stores is lost. *)
Theorem zombie_reaped_too_early ts l s me t c tc code :
  run l (boot ts) = Some s -> tasks s !! me = Some t -> c ∈ kids l ts me -> 0 < c ->
  tasks s !! c = Some tc -> phs tc = Zombied ->
  sys_waitpid me c s = Some (reap c s, Reaped c (exit_code tc)) /\ step (Exit_status c code) (reap c s) = Some (reap c s).
Proof.
  intros E Ht Hin Hc Htc Hp. pose proof (run_kids _ _ _ E) as O.
  pose proof (to_dead _ _ O c tc Htc) as Hz. rewrite Hp in Hz. simpl in Hz. apply bool_decide_eq_true in Hz.
  assert (Hr : ready (pgrp t) c s c = true).
  { unfold ready, wanted, wants. rewrite Htc, Hz. replace (c >? 0) with true by lia. by rewrite Z.eqb_refl. }
  split.
  - rewrite (sys_waitpid_spec _ _ me c t O Ht). unfold wait_report. rewrite (find_pid _ _ _ _ Hin Hc Hr).
    rewrite Htc. by rewrite decide_True.
  - unfold step. simpl. by rewrite lookup_delete_eq.
Qed.

Lemma zombie_reaped_too_early_witness :
  sys_waitpid 2 3 (state_of some_events) = Some (reap 3 (state_of some_events), Reaped 3 0) /\
  step (Exit_status 3 256) (reap 3 (state_of some_events)) = Some (reap 3 (state_of some_events)).
Proof.
  replace (Reaped 3 0) with (Reaped 3 (exit_code (default task0 (tasks (state_of some_events) !! 3))))
    by (vm_compute; reflexivity).
  apply (zombie_reaped_too_early [] some_events (state_of some_events) 2
    (default task0 (tasks (state_of some_events) !! 2)) 3 (default task0 (tasks (state_of some_events) !! 3)) 256);
    try (vm_compute; reflexivity). vm_compute. right. left.
Defined.

Lemma not_orphaned me pg s t pt : me ∈ order s -> tasks s !! me = Some t -> state t <> ZOMBIE -> pgrp t = pg ->
  pptr_of (tree s) me <> 1 -> tasks s !! pptr_of (tree s) me = Some pt -> pgrp pt <> pg -> session pt = session t ->
  is_orphaned_pgrp pg s = false.
Proof.
  intros Hin Ht Hz Hg H1 Hpt Hgp Hse. unfold is_orphaned_pgrp. apply negb_false_iff.
  induction (order s) as [|i l IH]; [by apply elem_of_nil in Hin|]. simpl. apply elem_of_cons in Hin as [<-|Hin].
  - rewrite Ht, Hpt, bool_decide_false by done. apply orb_true_intro. left.
    replace (pgrp t =? pg) with true by lia. replace (pptr_of (tree s) me =? 1) with false by lia.
    replace (pgrp pt =? pg) with false by lia. replace (session pt =? session t) with true by lia. done.
  - rewrite (IH Hin). apply orb_true_r.
Qed.

(** a task whose parent is not init never hangs up its own group when it
    exits, although the group may lose with it its only member with a parent
    outside, and have stopped jobs: [is_orphaned_pgrp] still counts the exiting
    task, whose state changes later. *)
Theorem own_group_never_hung_up ts l s me t :
  run l (boot ts) = Some s -> tasks s !! me = Some t -> phs t = Leaving -> me <> 0 -> pptr_of (tree s) me <> 1 ->
  exit_orphan me s = upd me (set_phase Exiting) s.
Proof.
  intros E Ht Ha H0 Hpar. pose proof (run_kids _ _ _ E) as O. unfold exit_orphan. rewrite Ht.
  destruct (tasks s !! pptr_of (tree s) me) as [pt|] eqn:Ept; [|done].
  destruct (negb (pgrp pt =? pgrp t) && (session pt =? session t)) eqn:Ec; [|done]. simpl.
  rewrite (not_orphaned me (pgrp t) s t pt); try done; try lia.
  - apply (to_order _ _ O). split; [by exists t|done].
  - rewrite <- (bool_decide_eq_true (state t = ZOMBIE)). rewrite (to_dead _ _ O me t Ht). by rewrite Ha.
Qed.

(** The job of the shell 2 is 3 and its stopped child 4, in group 3. *)
Definition job_events : list event :=
  [Clone 1 0 0 0; Setsid 2; Clone 2 0 0 0; Setpgid 2 3 3; Clone 3 0 0 0; Stop 4 SIGTSTP; Exit_begin 3].

Lemma own_group_never_hung_up_witness : let s := state_of job_events in let t := default task0 (tasks s !! 3) in
  has_stopped_jobs (pgrp t) s = true /\ exit_orphan 3 s = upd 3 (set_phase Exiting) s.
Proof.
  split; [vm_compute; reflexivity|].
  apply (own_group_never_hung_up [] job_events _ 3 (default task0 (tasks (state_of job_events) !! 3))); try (vm_compute; reflexivity); try lia. vm_compute. discriminate.
Defined.

End ProcessRun.
