(* ===== verification/ProcessTty.v ===== *)
(** * Sessions and their controlling terminals *)
From S2P Require Import Prelude Process ProcessTree ProcessRun.

Module ProcessTty.
Import Process ProcessTree ProcessRun.

(** Some task has taken the session [se] off terminal [k], and has not come to
    its tasks yet. *)
Definition detaching (s : sys) (k : nat) (se : Z) : Prop :=
  exists j d, pend s !! j = Some d /\ d_tty d = k /\ d_session d = se.

(** A terminal with a session is the controlling terminal of the live leader of
    that session; a task with a controlling terminal belongs to the session of
    the terminal, unless that session is being taken off the terminal. *)
Record tty_ok (s : sys) : Prop := {
  ty_idle t : tasks s !! 0 = Some t -> session t = 0 /\ ctty t = None;
  ty_task i t k : tasks s !! i = Some t -> ctty t = Some k ->
    exists y, terms s !! k = Some y /\ session t <> 0 /\ (t_session y = session t \/ detaching s k (session t));
  ty_leader i t : tasks s !! i = Some t -> leader t = true -> session t = i /\ i <> 0;
  ty_term k y : terms s !! k = Some y -> t_session y <> 0 ->
    exists t, tasks s !! t_session y = Some t /\ leader t = true /\ ctty t = Some k /\ phs t = Alive;
  ty_pend k y se : terms s !! k = Some y -> detaching s k se -> se <> 0 /\ t_session y <> se;
}.

(** What the invariant sees of a task. *)
Definition tv (t : task) : phase * Z * bool * option nat := (phs t, session t, leader t, ctty t).

Lemma tty_ok_keeps s s' : keeps tv s s' -> (forall k, t_session <$> terms s' !! k = t_session <$> terms s !! k) ->
  pend s' = pend s -> tty_ok s -> tty_ok s'.
Proof.
  intros Kp Ht Hp O.
  assert (Hb : forall k y, terms s' !! k = Some y -> exists y0, terms s !! k = Some y0 /\ t_session y = t_session y0).
  { intros k y H. specialize (Ht k). rewrite H in Ht. destruct (terms s !! k) as [y'|]; [|done]. injection Ht as Ht. eauto. }
  assert (Hd : forall k se, detaching s' k se <-> detaching s k se) by (intros; unfold detaching; by rewrite Hp).
  split.
  - intros t H. destruct (keeps_back _ _ _ _ _ Kp H) as (t0 & H0 & E). injection E as E1 E2 E3 E4.
    rewrite E2, E4. by apply O.
  - intros i t k H Hc. destruct (keeps_back _ _ _ _ _ Kp H) as (t0 & H0 & E). injection E as E1 E2 E3 E4.
    destruct (ty_task _ O i t0 k) as (y & Hy & Hn & Hs); [done|congruence|]. specialize (Ht k). rewrite Hy in Ht.
    destruct (terms s' !! k) as [y'|]; [|done]. injection Ht as Ht. exists y'. rewrite Hd, Ht, E2. done.
  - intros i t H Hl. destruct (keeps_back _ _ _ _ _ Kp H) as (t0 & H0 & E). injection E as E1 E2 E3 E4.
    rewrite E2. apply (ty_leader _ O i t0); [done|congruence].
  - intros k y (y0 & H & ->)%Hb Hn. destruct (ty_term _ O k y0 H Hn) as (t0 & H0 & Hl & Hc & Ha).
    destruct (keeps_forth _ _ _ _ _ Kp H0) as (t & H1 & E). injection E as E1 E2 E3 E4. exists t.
    split_and!; congruence.
  - intros k y se (y0 & H & ->)%Hb Hde%Hd. by apply (ty_pend _ O k).
Qed.

Lemma tty_ok_signalled s s' : signalled s s' -> tty_ok s -> tty_ok s'.
Proof.
  intros [Kp [= Et Ep]]. apply tty_ok_keeps; [|by rewrite Et|done]. exact (keeps_map ids (fun x => (x.1.1.1.1.1, x.1.1.2, x.1.2, x.2)) s s' Kp).
Qed.

Lemma tty_ok_upd s i g : (forall t, tasks s !! i = Some t -> tv (g t) = tv t) -> tty_ok s -> tty_ok (upd i g s).
Proof. intros H. apply tty_ok_keeps; [by apply keeps_upd|done|done]. Qed.

(** ** Dropping a terminal *)

Ltac fmap_some := cbn [fmap option_fmap option_map].

Lemma drop_ctty_lookup k se l : forall s i, NoDup l -> tasks (drop_ctty l k se s) !! i =
  (fun t => if decide (i ∈ l /\ session t = se /\ ctty t = Some k) then set_ctty None t else t) <$> tasks s !! i.
Proof.
  induction l as [|a l IH]; intros s i N; cbn [drop_ctty].
  - destruct (tasks s !! i) as [t|]; [|done]. fmap_some. rewrite decide_False; [done|].
    intros [H _]. by apply elem_of_nil in H.
  - apply NoDup_cons in N as [Na N]. rewrite IH by done. destruct (decide (i = a)) as [->|Hne].
    + destruct (tasks s !! a) as [t|] eqn:E; [|by rewrite E].
      destruct ((session t =? se) && is_ctty t k) eqn:Ec.
      * unfold upd. cbn [tasks set_tasks]. rewrite lookup_alter_eq, E. fmap_some. rewrite decide_False by (intros [? _]; done).
        rewrite decide_True; [done|]. apply andb_prop in Ec as [E1 E2]. apply bool_decide_eq_true in E2.
        split_and!; [left|lia|done].
      * rewrite E. fmap_some. rewrite decide_False by (intros [? _]; done). rewrite decide_False; [done|].
        intros (_ & <- & Hc). unfold is_ctty in Ec. rewrite Hc, Z.eqb_refl, bool_decide_true in Ec; done.
    + assert (Eq : tasks (match tasks s !! a with Some t => if (session t =? se) && is_ctty t k then upd a (set_ctty None) s else s | None => s end)
        !! i = tasks s !! i).
      { destruct (tasks s !! a); [|done]. destruct (_ && _); [|done]. simpl. by rewrite lookup_alter_ne. }
      rewrite Eq. destruct (tasks s !! i) as [t|]; [|done]. fmap_some. f_equal.
      assert (Hiff : (i ∈ a :: l /\ session t = se /\ ctty t = Some k) <-> (i ∈ l /\ session t = se /\ ctty t = Some k)).
      { rewrite elem_of_cons. naive_solver. }
      destruct (decide (i ∈ l /\ _)) as [H|H]; [by rewrite decide_True by by apply Hiff|].
      by rewrite decide_False by by rewrite Hiff.
Qed.

Lemma sorted_nodup l : Sorted.StronglySorted Z.lt l -> NoDup l.
Proof.
  induction l as [|a l IH]; intros S; [by apply NoDup_nil|]. apply Sorted.StronglySorted_inv in S as [S A].
  apply NoDup_cons. split; [|auto]. intros H. rewrite Forall_forall in A. specialize (A a H). lia.
Qed.

(** The first section: the terminal has no session, and a detachment begins. *)
Lemma tty_ok_detach s me k se t : tty_ok s -> pend s !! me = None -> tasks s !! me = Some t -> ctty t = Some k ->
  session t = se -> tty_ok (tty_detach_session me k se s).
Proof.
  intros T Hp Ht Hc <-. unfold tty_detach_session. destruct (terms s !! k) as [y|] eqn:Hy; [|done].
  destruct (t_session y =? session t) eqn:E; [|done]. simpl.
  assert (Hk : (k < length (terms s))%nat) by by eapply lookup_lt_Some.
  assert (Hn : session t <> 0) by by destruct (ty_task _ T me t k Ht Hc) as (? & _ & ? & _).
  set (s' := set_pend _ _).
  assert (Hd : forall k' se', detaching s k' se' -> detaching s' k' se').
  { intros k' se' (j & d & Hj & H). exists j, d. split; [|done]. simpl. rewrite lookup_insert_ne; [done|]. congruence. }
  assert (Hd' : forall k' se', detaching s' k' se' -> (k' = k /\ se' = session t) \/ detaching s k' se').
  { intros k' se' (j & d & Hj & <- & <-). simpl in Hj. apply lookup_insert_Some in Hj as [[_ <-]|[_ Hj]]; [by left|].
    right. by exists j, d. }
  split; simpl.
  - apply T.
  - intros i t' k' Hi Hc'. destruct (ty_task _ T i t' k' Hi Hc') as (y' & Hy' & Hn' & Hs).
    destruct (decide (k' = k)) as [->|].
    + exists (mkterm 0 0). rewrite list_lookup_insert_eq by done. split_and!; try done. right.
      destruct Hs as [Hs|Hs]; [|by apply Hd]. rewrite Hy in Hy'. injection Hy' as <-.
      exists me, (mkdetach k (session t) (t_pgrp y)). simpl. rewrite lookup_insert_eq. split_and!; try done. lia.
    + exists y'. rewrite list_lookup_insert_ne by done. split_and!; try done. destruct Hs; auto.
  - apply T.
  - intros k' y' H Hz. destruct (decide (k' = k)) as [->|].
    + rewrite list_lookup_insert_eq in H by done. by injection H as <-.
    + rewrite list_lookup_insert_ne in H by done. by apply (ty_term _ T).
  - intros k' y' se' H Hde. destruct (decide (k' = k)) as [->|].
    + rewrite list_lookup_insert_eq in H by done. injection H as <-. simpl.
      apply Hd' in Hde as [[_ ->]|Hde]; [by split; [|apply not_eq_sym]|].
      destruct (ty_pend _ T k y se' Hy Hde). by split; [|apply not_eq_sym].
    + rewrite list_lookup_insert_ne in H by done. apply Hd' in Hde as [[? _]|Hde]; [done|]. by apply (ty_pend _ T k').
Qed.

(** ** The other operations *)

(** One task changes: what it must still satisfy. *)
Lemma tty_ok_change s i g t : tty_ok s -> tasks s !! i = Some t -> i <> 0 ->
  (forall k, ctty (g t) = Some k -> ctty t = Some k /\ session (g t) = session t) ->
  (leader (g t) = true -> session (g t) = i) ->
  (leader t = true -> ctty t <> None -> phs t = Alive -> leader (g t) = true /\ ctty (g t) = ctty t /\ phs (g t) = Alive) ->
  tty_ok (upd i g s).
Proof.
  intros T Ht Hi H1 H2 H3.
  assert (L : forall j t', tasks (upd i g s) !! j = Some t' -> (j = i /\ t' = g t) \/ (j <> i /\ tasks s !! j = Some t')).
  { intros j t' H. simpl in H. destruct (decide (j = i)) as [->|]; [|rewrite lookup_alter_ne in H by done; by right].
    left. rewrite lookup_alter_eq, Ht in H. by injection H. }
  split.
  - intros t' [[? _]|[_ H]]%L; [done|]. by apply T.
  - intros j t' k [[-> ->]|[_ H]]%L Hc; [|by apply (ty_task _ T j)].
    destruct (H1 k Hc) as [Hc' ->]. by apply (ty_task _ T i).
  - intros j t' [[-> ->]|[_ H]]%L Hl; [by split; [apply H2|]|]. by apply (ty_leader _ T).
  - intros k y Hy Hn. destruct (ty_term _ T k y Hy Hn) as (t0 & H0 & Hl & Hc & Ha). simpl.
    destruct (decide (t_session y = i)) as [E|]; [|rewrite lookup_alter_ne by done; by exists t0].
    rewrite E, Ht in H0. injection H0 as <-. rewrite E. destruct (H3 Hl) as (? & ? & ?); [congruence|done|].
    exists (g t). rewrite lookup_alter_eq, Ht. split_and!; try done. congruence.
  - intros k y se Hy Hd. exact (ty_pend _ T k y se Hy Hd).
Qed.

(** The second section: every task of the session loses the terminal. *)
Lemma detach_tasks_tty s K me : tree_ok s K -> tty_ok s -> tty_ok (detach_tasks me s).
Proof.
  intros O T. unfold detach_tasks. destruct (pend s !! me) as [[k se pg]|] eqn:Hp; [|done]. simpl.
  set (s1 := set_pend _ _). enough (T1 : tty_ok s1).
  { destruct (pg >? 0); [|done]. eapply tty_ok_signalled; [apply hang_up_signals|done]. }
  assert (Hde : detaching s k se) by (by exists me, (mkdetach k se pg)).
  assert (Hb : forall i t, tasks s1 !! i = Some t -> exists t0, tasks s !! i = Some t0 /\ phs t = phs t0 /\ session t = session t0 /\
    leader t = leader t0 /\ (ctty t = ctty t0 /\ (ctty t0 = Some k -> session t0 <> se) \/ ctty t = None)).
  { intros i t H. simpl in H. rewrite drop_ctty_lookup in H by apply sorted_nodup, O.
    destruct (tasks s !! i) as [t0|] eqn:E; [|done]. injection H as <-. exists t0.
    destruct (decide _) as [Hd|Hd]; split_and!; try done; [by right|left]. split; [done|]. intros Hc Hs. apply Hd.
    split_and!; [|done|done]. apply (to_order _ _ O). split; [by exists t0|]. intros ->.
    destruct (ty_idle _ T t0 E). congruence. }
  assert (Hd : forall k' se', detaching s1 k' se' -> detaching s k' se').
  { intros k' se' (j & d & Hj & H). change (pend s1) with (delete me (pend s)) in Hj. apply lookup_delete_Some in Hj as [_ Hj]. by exists j, d. }
  assert (Hd' : forall k' se', detaching s k' se' -> (k' = k /\ se' = se) \/ detaching s1 k' se').
  { intros k' se' (j & d & Hj & Hk & Hs). destruct (decide (j = me)) as [->|]; [left|right].
    - rewrite Hp in Hj. injection Hj as <-. done.
    - exists j, d. simpl. by rewrite lookup_delete_ne. }
  assert (Et : terms s1 = terms s) by (simpl; by rewrite drop_ctty_terms).
  split.
  - intros t (t0 & H0 & _ & -> & _ & Hc)%Hb. destruct (ty_idle _ T t0 H0) as [-> E]. split; [done|]. destruct Hc as [[-> _]|]; done.
  - intros i t k' (t0 & H0 & _ & Es & _ & [[Ec Hns]|Ec])%Hb Hc; rewrite Ec in Hc; [|done].
    destruct (ty_task _ T i t0 k' H0 Hc) as (y & Hy & Hn & Hs). exists y. rewrite Et, Es. split_and!; try done.
    destruct Hs as [Hs|Hs]; [by left|]. apply Hd' in Hs as [[-> E]|Hs]; [|by right]. by destruct (Hns Hc).
  - intros i t (t0 & H0 & _ & -> & -> & _)%Hb. by apply (ty_leader _ T).
  - intros k' y H Hz. rewrite Et in H. destruct (ty_term _ T k' y H Hz) as (t0 & H0 & Hl & Hc & Ha).
    exists t0. split_and!; try done. simpl. rewrite drop_ctty_lookup by apply sorted_nodup, O. rewrite H0. simpl.
    rewrite decide_False; [done|]. intros (_ & Hs & Hc'). assert (k' = k) as -> by congruence.
    destruct (ty_leader _ T _ t0 H0 Hl) as [E _]. destruct (ty_pend _ T k y se H Hde). congruence.
  - intros k' y se' H Hde'%Hd. rewrite Et in H. by apply (ty_pend _ T k').
Qed.

Lemma do_clone_tty s me flags early late K : tree_ok s K -> tty_ok s -> tty_ok (do_clone me flags early late s).1.
Proof.
  intros O T. unfold do_clone. destruct (tasks s !! me) as [t|] eqn:Ht; [|done]. destruct (early =? 0); [|done].
  destruct (late =? 0); [|by destruct T]. simpl. set (pid := last_pid s + 1). set (c := child_task t pid _).
  pose proof (to_pids _ _ O me ltac:(by exists t)) as Hb.
  assert (Hnew : tasks s !! pid = None).
  { destruct (tasks s !! pid) eqn:E; [|done]. pose proof (to_pids _ _ O pid ltac:(by eexists)). lia. }
  split; simpl.
  - intros t'. rewrite lookup_insert_ne by lia. apply T.
  - intros i t' k H Hc. apply lookup_insert_Some in H as [[<- <-]|[_ H]]; [|by apply (ty_task _ T i)].
    by apply (ty_task _ T me t k).
  - intros i t' H Hl. apply lookup_insert_Some in H as [[<- <-]|[_ H]]; [done|]. by apply (ty_leader _ T).
  - intros k y Hy Hn. destruct (ty_term _ T k y Hy Hn) as (t0 & H0 & ?). exists t0. split; [|done].
    rewrite lookup_insert_ne; [done|]. congruence.
  - intros k y se Hy Hd. exact (ty_pend _ T k y se Hy Hd).
Qed.

Lemma sys_setsid_tty s me : me <> 0 -> tty_ok s -> tty_ok (sys_setsid me s).1.
Proof.
  intros H0 T. unfold sys_setsid. destruct (tasks s !! me) as [t|] eqn:Ht; [|done].
  destruct (leader t) eqn:El; [done|]. simpl.
  apply (tty_ok_change s me _ t); try done. congruence.
Qed.

(** The session of [me] is not just being taken off [k]. *)
Definition settled (me : Z) (k : nat) (s : sys) : Prop := forall t, tasks s !! me = Some t -> ~ detaching s k (session t).

Lemma tty_set_controlling_tty s me k : tty_ok s -> (forall t, tasks s !! me = Some t -> phs t = Alive) -> settled me k s ->
  tty_ok (tty_set_controlling me k s).1.
Proof.
  intros T Ha Hst. unfold tty_set_controlling. destruct (tasks s !! me) as [t|] eqn:Ht; [|done].
  destruct (terms s !! k) as [y|] eqn:Hy; [|done]. destruct (leader t) eqn:El; [|done]. simpl.
  destruct (negb (bool_decide _) && negb (is_ctty t k)) eqn:E1; [done|].
  destruct (negb (t_session y =? 0) && negb (t_session y =? session t)) eqn:E2; [done|]. simpl.
  destruct (ty_leader _ T me t Ht El) as [Hs H0]. specialize (Ha t eq_refl). specialize (Hst t Ht).
  assert (Hfree : ctty t = None \/ ctty t = Some k).
  { unfold is_ctty in E1. apply andb_false_iff in E1 as [E|E]; apply negb_false_iff, bool_decide_eq_true in E; auto. }
  assert (Hy' : t_session y = 0 \/ t_session y = me) by lia.
  assert (Hk : (k < length (terms s))%nat) by by eapply lookup_lt_Some.
  assert (L : forall j t', alter (set_ctty (Some k)) me (tasks s) !! j = Some t' ->
    (j = me /\ t' = set_ctty (Some k) t) \/ (j <> me /\ tasks s !! j = Some t')).
  { intros j t' H. destruct (decide (j = me)) as [->|]; [|rewrite lookup_alter_ne in H by done; by right].
    left. rewrite lookup_alter_eq, Ht in H. by injection H. }
  split; simpl.
  - intros t' [[? _]|[_ H]]%L; [done|]. by apply T.
  - intros j t' k' [[-> ->]|[Hj H]]%L Hc.
    + injection Hc as <-. exists (mkterm (session t) (pgrp t)). rewrite list_lookup_insert_eq by done. split_and!; simpl; [done|lia|by left].
    + destruct (ty_task _ T j t' k' H Hc) as (y' & Hy0 & Hn & Hs'). destruct (decide (k' = k)) as [->|].
      * exists (mkterm (session t) (pgrp t)). rewrite list_lookup_insert_eq by done. rewrite Hy in Hy0. injection Hy0 as <-.
        split_and!; simpl; try done. destruct Hs' as [Hs'|Hs']; [left; lia|by right].
      * exists y'. by rewrite list_lookup_insert_ne by done.
  - intros j t' [[-> ->]|[Hj H]]%L Hl; [by split|]. by apply (ty_leader _ T).
  - intros k' y' H Hn. destruct (decide (k' = k)) as [->|Hne].
    + rewrite list_lookup_insert_eq in H by done. injection H as <-. simpl in *. rewrite Hs.
      exists (set_ctty (Some k) t). by rewrite lookup_alter_eq, Ht.
    + rewrite list_lookup_insert_ne in H by done. destruct (ty_term _ T k' y' H Hn) as (t0 & Ht0 & Hl & Hc & Hp).
      destruct (decide (t_session y' = me)) as [E|]; [|exists t0; by rewrite lookup_alter_ne].
      exfalso. rewrite E, Ht in Ht0. injection Ht0 as <-. destruct Hfree; congruence.
  - intros k' y' se H Hd. destruct (decide (k' = k)) as [->|Hne].
    + rewrite list_lookup_insert_eq in H by done. injection H as <-. simpl.
      destruct (ty_pend _ T k y se Hy Hd) as [Hn _]. split; [done|]. intros <-. by apply Hst.
    + rewrite list_lookup_insert_ne in H by done. by apply (ty_pend _ T k').
Qed.

Lemma tty_ioctl_tty_ok s me k c ok : tty_ok s -> pend s !! me = None -> (forall t, tasks s !! me = Some t -> phs t = Alive) ->
  (c = TIOCSCTTY -> settled me k s) -> tty_ok (tty_ioctl_tty me k c ok s).1.1.
Proof.
  intros T Hp Ha Hst. unfold tty_ioctl_tty. destruct (tasks s !! me) as [t|] eqn:Ht; [|done].
  destruct (terms s !! k) as [y|] eqn:Hy; [|done]. destruct (_ && _).
  { eapply tty_ok_signalled; [apply kill_pg_signals|done]. }
  destruct c as [| | |arg|].
  - pose proof (tty_set_controlling_tty s me k T) as H. rewrite Ht in H. specialize (H Ha (Hst eq_refl)).
    by destruct (tty_set_controlling me k s) as [s1 err].
  - unfold is_ctty. destruct (decide (ctty t = Some k)) as [Hc|Hc]; [|by rewrite bool_decide_false].
    rewrite bool_decide_true by done. simpl. by apply (tty_ok_detach s me k _ t).
  - by repeat case_match.
  - unfold is_ctty. destruct (decide (ctty t = Some k)) as [Hc|Hc]; [|by rewrite bool_decide_false].
    rewrite bool_decide_true by done. simpl. repeat case_match; simpl; try done. apply (tty_ok_keeps s); [by apply keeps_terms| |done|done].
    intros k'. simpl. destruct (decide (k' = k)) as [->|]; [|by rewrite list_lookup_insert_ne].
    rewrite list_lookup_insert_eq by (by eapply lookup_lt_Some). by rewrite Hy.
  - by repeat case_match.
Qed.

(** Steps of a task that is not [Alive]. *)
Lemma tty_ok_later s me g : tty_ok s -> me <> 0 -> (forall t, tasks s !! me = Some t -> phs t <> Alive) ->
  (forall t, (session (g t), leader (g t), ctty (g t)) = (session t, leader t, ctty t)) -> tty_ok (upd me g s).
Proof.
  intros T H0 Ha Hg. destruct (tasks s !! me) as [t|] eqn:Ht; [|apply tty_ok_upd; [congruence|done]].
  specialize (Hg t). injection Hg as E1 E2 E3. specialize (Ha t eq_refl).
  apply (tty_ok_change s me _ t); try done.
  - intros k. rewrite E1, E3. done.
  - rewrite E1, E2. intros Hl. by destruct (ty_leader _ T me t Ht Hl).
Qed.

(** A leader that leaves has no terminal of its own any more, but the one that is
    just being taken off its session. *)
Lemma exit_begin_tty s me s' : tty_ok s -> pend s !! me = None -> (forall t, tasks s !! me = Some t -> phs t = Alive) ->
  exit_begin me s = Some s' -> tty_ok s'.
Proof.
  intros T Hp Ha. unfold exit_begin. destruct (me =? init_task) eqn:E0; [by intros [= <-]|].
  destruct (negb _); [|done]. destruct (tasks s !! me) as [t|] eqn:Ht; [|by intros [= <-]]. intros [= <-].
  set (s1 := match ctty t with Some _ => _ | None => s end).
  assert (Hs1 : tty_ok s1 /\ tasks s1 = tasks s /\ forall k, leader t = true -> ctty t = Some k ->
    forall y, terms s1 !! k = Some y -> t_session y <> me).
  { unfold s1. destruct (ctty t) as [k|] eqn:Ec; [|by split_and!]. destruct (leader t) eqn:El; [|by split_and!].
    split; [by apply (tty_ok_detach s me k _ t)|]. unfold tty_detach_session.
    destruct (ty_leader _ T me t Ht El) as [Es Hn]. destruct (terms s !! k) as [y|] eqn:Hy.
    2:{ split; [done|]. intros k' _ [= <-] y. by rewrite Hy. }
    destruct (t_session y =? session t) eqn:E; simpl.
    - split; [done|]. intros k' _ [= <-] y'. rewrite list_lookup_insert_eq by (by eapply lookup_lt_Some).
      intros [= <-]. simpl. lia.
    - split; [done|]. intros k' _ [= <-] y'. rewrite Hy. intros [= <-]. lia. }
  destruct Hs1 as (T1 & Et & Hk). rewrite <- Et in Ht.
  assert (Hi : me <> 0) by (unfold init_task in E0; lia).
  split; simpl.
  - intros t'. rewrite lookup_alter_ne by done. apply T1.
  - intros i t' k. destruct (decide (i = me)) as [->|]; [|rewrite lookup_alter_ne by done; apply (ty_task _ T1)].
    rewrite lookup_alter_eq, Ht. intros [= <-]. apply (ty_task _ T1 me t k Ht).
  - intros i t'. destruct (decide (i = me)) as [->|]; [|rewrite lookup_alter_ne by done; apply (ty_leader _ T1)].
    rewrite lookup_alter_eq, Ht. intros [= <-]. apply (ty_leader _ T1 me t Ht).
  - intros k y Hy Hn. destruct (ty_term _ T1 k y Hy Hn) as (t0 & H0 & Hl & Hc & Hph).
    destruct (decide (t_session y = me)) as [E|]; [|exists t0; by rewrite lookup_alter_ne].
    exfalso. rewrite E, Ht in H0. injection H0 as <-. by apply (Hk k Hl Hc y).
  - exact (ty_pend _ T1).
Qed.

Lemma exit_orphan_tty s me : tty_ok s -> me <> 0 -> (forall t, tasks s !! me = Some t -> phs t <> Alive) -> tty_ok (exit_orphan me s).
Proof.
  intros T H0 Ha. unfold exit_orphan. destruct (tasks s !! me) as [t|] eqn:Ht; [|done].
  set (s2 := match tasks s !! _ with Some _ => _ | None => s end).
  assert (S2 : signalled s s2).
  { unfold s2. destruct (tasks s !! pptr_of (tree s) me); [|done]. destruct (_ && _); [|done]. apply hang_up_signals. }
  apply tty_ok_later; [by apply (tty_ok_signalled s)|done| |done].
  intros t' Ht'. destruct S2 as [Sg _]. destruct (keeps_back _ _ _ _ _ Sg Ht') as (t0 & H & E). injection E as -> _.
  rewrite Ht in H. by apply Ha.
Qed.

Lemma exit_children_tty fuel me : forall s s', tty_ok s -> me <> 0 -> (forall t, tasks s !! me = Some t -> phs t <> Alive) ->
  exit_children fuel me s = Some s' -> tty_ok s'.
Proof.
  induction fuel as [|fuel IH]; intros s s' T H0 Ha; [done|]. cbn [exit_children].
  destruct (cptr_of (tree s) me) as [p|].
  - destruct (adopt_moves me p s) as [Sg St]. apply IH; [|done|].
    + apply (tty_ok_signalled (set_tree (move_child me (init s) p (tree s)) s)); [by split|by destruct T].
    + intros t Ht. destruct (keeps_back _ _ _ _ _ Sg Ht) as (t0 & Ht0 & E). injection E as E _. rewrite E. by apply Ha.
  - intros [= <-]. by apply tty_ok_later.
Qed.

Lemma reap_tty s i t : tty_ok s -> tasks s !! i = Some t -> phs t <> Alive -> tty_ok (reap i s).
Proof.
  intros T Ht Ha. split; simpl.
  - intros t' [_ H]%lookup_delete_Some. by apply T.
  - intros j t' k [_ H]%lookup_delete_Some. by apply (ty_task _ T j).
  - intros j t' [_ H]%lookup_delete_Some. by apply (ty_leader _ T).
  - intros k y Hy Hn. destruct (ty_term _ T k y Hy Hn) as (t0 & H0 & Hl & Hc & Hp). exists t0.
    rewrite lookup_delete_ne; [done|]. congruence.
  - exact (ty_pend _ T).
Qed.

Lemma sys_waitpid_tty s K me pid s' w : tree_ok s K -> tty_ok s -> sys_waitpid me pid s = Some (s', w) -> tty_ok s'.
Proof.
  intros O T. destruct (tasks s !! me) as [t|] eqn:Ht; [|unfold sys_waitpid; rewrite Ht; by intros [= <- _]].
  rewrite (sys_waitpid_spec s K me pid t O Ht). intros [= <- _].
  destruct (wait_report (pgrp t) pid false (K me) s) as [c st|c st| |] eqn:E; simpl; try done.
  - destruct (report_reaped _ _ _ _ _ _ _ E) as (_ & tc & Hc & Hz & _). eapply reap_tty; [done|done|].
    intros Ha. pose proof (to_dead _ _ O c tc Hc) as D. rewrite Ha, Hz in D. done.
  - by apply tty_ok_upd.
Qed.

(** No task is between the sections of a detachment of the session [se] from [k]. *)
Definition not_detaching (k : nat) (se : Z) (s : sys) : bool :=
  bool_decide (map_Forall (fun _ d => ~ (d_tty d = k /\ d_session d = se)) (pend s)).

(** The idle task, which is in no session, only forks; a pair of pseudo terminals
    is opened when its terminal has no session; and no task takes a terminal
    between the lock sections of a detachment of its session from it. *)
Definition calm (e : event) (s : sys) : bool :=
  match e with
  | Clone _ _ _ _ => true
  | _ => negb (who e =? 0)
  end &&
  match e with
  | Ioctl me k TIOCSCTTY | Open_tty me k _ | Sctty me k =>
    match tasks s !! me with Some t => not_detaching k (session t) s | None => true end
  | Pty_open _ k => match terms s !! k with Some y => t_session y =? 0 | None => true end
  | _ => true
  end.

Lemma calm_settled me k s : match tasks s !! me with Some t => not_detaching k (session t) s | None => true end = true -> settled me k s.
Proof.
  intros H t Ht (j & d & Hj & Hd). rewrite Ht in H. apply bool_decide_eq_true in H. exact (H j d Hj Hd).
Qed.

Lemma step_tty s K e s' : tree_ok s K -> tty_ok s -> calm e s = true -> step e s = Some s' -> tty_ok s'.
Proof.
  intros O T Hi. unfold step. destruct (tasks s !! who e) as [t|] eqn:Ht; [|by intros [= <-]].
  destruct (enabled e t s) eqn:Hen; [|by intros [= <-]].
  assert (Ha : when e = Alive -> phs t = when e -> forall t', tasks s !! who e = Some t' -> phs t' = Alive) by (intros; congruence).
  assert (Hn : when e <> Alive -> phs t = when e -> forall t', tasks s !! who e = Some t' -> phs t' <> Alive) by (intros; congruence).
  apply andb_prop in Hi as [Hi0 Hc].
  destruct e as [me fl ea la|me|me|me pid pg|me k c|me k n|me k|me|me k|me pid sig|me sig|me|me|me|me|me code|me|me pid]; simpl in *;
    try (apply andb_prop in Hen as [Hp1%bool_decide_eq_true Hp2%bool_decide_eq_true]); try (apply negb_true_iff, Z.eqb_neq in Hi0);
    try (intros [= <-]).
  - by apply (do_clone_tty s me _ _ _ K).
  - by apply tty_ok_upd.
  - by apply sys_setsid_tty.
  - unfold sys_setpgid. repeat case_match; try done; simpl; by apply tty_ok_upd.
  - apply tty_ioctl_tty_ok; [done|done|by apply Ha|]. intros ->. by apply calm_settled.
  - assert (T' : tty_ok (tty_set_controlling me k s).1) by (apply tty_set_controlling_tty; [done|by apply Ha|by apply calm_settled]).
    unfold tty_try_set_controlling. by repeat case_match.
  - apply tty_set_controlling_tty; [done|by apply Ha|by apply calm_settled].
  - by apply (detach_tasks_tty s K).
  - apply (tty_ok_keeps s); [by apply keeps_terms| |done|done]. intros k'. simpl.
    destruct (decide (k' = k)) as [->|]; [|by rewrite list_lookup_insert_ne].
    destruct (terms s !! k) as [y|] eqn:Hy; [|by rewrite list_insert_ge, Hy by by apply lookup_ge_None].
    rewrite list_lookup_insert_eq by (by eapply lookup_lt_Some). simpl. f_equal. lia.
  - eapply tty_ok_signalled; [apply sys_kill_signals|done].
  - by apply tty_ok_upd.
  - apply (exit_begin_tty s me); auto.
  - apply exit_orphan_tty; [done|done|by apply Hn].
  - by apply (exit_children_tty (S (size (tasks s))) me s), Hn.
  - apply tty_ok_later; try done; by apply Hn.
  - apply tty_ok_later; try done; by apply Hn.
  - eapply tty_ok_signalled; [apply notify_parent_signals|]. apply tty_ok_later; try done; by apply Hn.
  - destruct (sys_waitpid me pid s) as [[s1 w]|] eqn:E; [|done]. intros [= <-]. by eapply sys_waitpid_tty.
Qed.

Lemma boot_tty n : tty_ok (boot (repeat (mkterm 0 0) n)).
Proof.
  split.
  - intros t [= <-]. done.
  - intros i t k. rewrite boot_tasks. intros [[<- <-]|[_ [<- <-]%lookup_singleton_Some]]%lookup_insert_Some; done.
  - intros i t. rewrite boot_tasks. intros [[<- <-]|[_ [<- <-]%lookup_singleton_Some]]%lookup_insert_Some; done.
  - intros k y Hy. change (terms (boot (repeat (mkterm 0 0) n))) with (repeat (mkterm 0 0) n) in Hy.
    apply list_elem_of_lookup_2, list_elem_of_In, repeat_spec in Hy. by subst.
  - intros k y se _ (j & d & Hj & _). change (pend (boot (repeat (mkterm 0 0) n))) with (∅ : gmap Z detachment) in Hj.
    by rewrite lookup_empty in Hj.
Qed.

(** The conditions of [calm] along a run. *)
Fixpoint calm_run (l : list event) (s : sys) : bool :=
  match l with
  | [] => true
  | e :: l' => calm e s && match step e s with Some s' => calm_run l' s' | None => true end
  end.

Lemma run_tty l : forall s K s', tree_ok s K -> tty_ok s -> calm_run l s = true -> run l s = Some s' ->
  tty_ok s' /\ exists K', tree_ok s' K'.
Proof.
  induction l as [|e l IH]; intros s K s' O T Hl; simpl in *; [intros [= <-]; split; [done|by exists K]|].
  apply andb_prop in Hl as [He Hl]. destruct (step_ok s K e O) as [[_ ->]|(s1 & E & O1)]; [done|].
  rewrite E in Hl |- *. simpl. apply (IH _ _ _ O1); [|exact Hl]. exact (step_tty s K e s1 O T He E).
Qed.


(** A shell and its job; the job takes the terminal off the session. *)
Definition tty_events : list event :=
  [Clone 1 0 0 0; Setsid 2; Open_tty 2 0 false; Clone 2 0 0 0; Ioctl 3 0 TIOCNOTTY].


(** A pair of pseudo terminals reopened under a session: the leader 2 of the
    first session and the leader 3 of another have the same terminal. *)
Definition reopen_events : list event :=
  [Clone 1 0 0 0; Clone 1 0 0 0; Setsid 2; Open_tty 2 0 false; Pty_open 1 0; Setsid 3; Open_tty 3 0 false].

Definition final (l : list event) : sys := default (boot []) (run l (boot (repeat (mkterm 0 0) 1))).

Lemma reopened_pair_shared : let s := final reopen_events in
  ctty <$> tasks s !! 2 = Some (Some 0%nat) /\ leader <$> tasks s !! 2 = Some true /\ session <$> tasks s !! 2 = Some 2 /\
  terms s = [mkterm 3 3] /\ pend s = ∅.
Proof. by vm_compute. Qed.

(** A leader takes its terminal again while its job takes it off the session: the
    terminal keeps the session although nobody has it. *)
Definition retake_events : list event := tty_events ++ [Sctty 2 0; Detach 3].

Lemma retaken_terminal_lost : let s := final retake_events in
  terms s = [mkterm 2 2] /\ ctty <$> tasks s !! 2 = Some None /\ pend s = ∅.
Proof. by vm_compute. Qed.

End ProcessTty.
