(* ===== verification/Ext2.v ===== *)
(** * ext2: the mounted file system and its block I/O ([fs/ext2/buffer.c], [include/fs/ext2/ext2.h])

    The state every ext2 operation works on: the device as 512-byte sectors, the
    in-memory superblock with its group descriptors, the semaphore [s_sem], the
    number of kmalloc'ed buffers the operation holds, and a schedule of faults:
    each allocation or device request takes the next entry, so a theorem for
    every schedule covers every way memory or the device can fail.  The
    operations are written in the error monad [M], as the code threads [error]. *)
From S2P Require Import Prelude.

Module Ext2.

(** ** On-disk integers *)

Definition ext2_read16 (p : list Z) (off : Z) : Z := le16 p off.
Definition ext2_read32 (p : list Z) (off : Z) : Z := le32 p off.

Definition ext2_write16 (p : list Z) (off value : Z) : list Z :=
  memcpy_at p off [Z.land value 0xff; Z.shiftr (u16 value) 8] 2.

Definition ext2_write32 (p : list Z) (off value : Z) : list Z :=
  memcpy_at p off [Z.land value 0xff; Z.land (Z.shiftr value 8) 0xff;
                   Z.land (Z.shiftr value 16) 0xff; Z.land (Z.shiftr value 24) 0xff] 4.

(** ** State *)

(** A request that fails does so with an error [-e]; a failed write leaves
    [torn] in the place of the data. *)
Inductive fault := Fine | Fails (e : positive) (torn : list Z).

(** [struct ext2_sb_info]; [group_desc] is the table of 32-byte descriptors. *)
Record sb_info := mksb {
  block_size : Z;
  first_data_block : Z;
  blocks_count : Z;
  inodes_count : Z;
  free_blocks_count : Z;
  free_inodes_count : Z;
  blocks_per_group : Z;
  inodes_per_group : Z;
  nr_groups : Z;
  inode_size : Z;
  desc_per_block : Z;
  group_desc : list (list Z);
  readonly : bool;
}.

Record fs := mkfs {
  disk : Z -> list Z;
  sb : sb_info;
  s_sem : bool;       (* held *)
  s_dirty : bool;     (* SB_Dirty *)
  bufs : Z;
  faults : list fault;
}.

Definition set_disk (d : Z -> list Z) (s : fs) : fs :=
  mkfs d (sb s) (s_sem s) (s_dirty s) (bufs s) (faults s).
Definition set_sb (i : sb_info) (s : fs) : fs :=
  mkfs (disk s) i (s_sem s) (s_dirty s) (bufs s) (faults s).
Definition set_sem (b : bool) (s : fs) : fs :=
  mkfs (disk s) (sb s) b (s_dirty s) (bufs s) (faults s).
Definition set_dirty (s : fs) : fs :=
  mkfs (disk s) (sb s) (s_sem s) true (bufs s) (faults s).
Definition set_bufs (n : Z) (s : fs) : fs :=
  mkfs (disk s) (sb s) (s_sem s) (s_dirty s) n (faults s).
Definition set_faults (l : list fault) (s : fs) : fs :=
  mkfs (disk s) (sb s) (s_sem s) (s_dirty s) (bufs s) l.

Definition set_free_blocks (n : Z) (i : sb_info) : sb_info :=
  mksb (block_size i) (first_data_block i) (blocks_count i) (inodes_count i) n (free_inodes_count i)
    (blocks_per_group i) (inodes_per_group i) (nr_groups i) (inode_size i) (desc_per_block i)
    (group_desc i) (readonly i).
Definition set_free_inodes (n : Z) (i : sb_info) : sb_info :=
  mksb (block_size i) (first_data_block i) (blocks_count i) (inodes_count i) (free_blocks_count i) n
    (blocks_per_group i) (inodes_per_group i) (nr_groups i) (inode_size i) (desc_per_block i)
    (group_desc i) (readonly i).
Definition set_group_desc (l : list (list Z)) (i : sb_info) : sb_info :=
  mksb (block_size i) (first_data_block i) (blocks_count i) (inodes_count i) (free_blocks_count i)
    (free_inodes_count i) (blocks_per_group i) (inodes_per_group i) (nr_groups i) (inode_size i)
    (desc_per_block i) l (readonly i).

(** ** The error monad *)

Inductive res (A : Type) := Ok (a : A) | Er (e : Z).
Arguments Ok {A}.
Arguments Er {A}.

(** Computations over a state [S]; [M] is the one over the file system. *)
Definition ST (S A : Type) : Type := S -> res A * S.
Definition ret {S A} (a : A) : ST S A := fun s => (Ok a, s).
Definition fail {S A} (e : Z) : ST S A := fun s => (Er e, s).
Definition bind {S A B} (m : ST S A) (k : A -> ST S B) : ST S B :=
  fun s => match m s with (Ok a, s') => k a s' | (Er e, s') => (Er e, s') end.
(** A call whose error the caller handles itself. *)
Definition try {S A} (m : ST S A) : ST S (res A) := fun s => let '(r, s') := m s in (Ok r, s').
Definition lift {S A} (r : res A) : ST S A := fun s => (r, s).
Definition modify {S} (f : S -> S) : ST S unit := fun s => (Ok tt, f s).

Definition M (A : Type) : Type := ST fs A.
Definition get_sb : M sb_info := fun s => (Ok (sb s), s).

Declare Scope ext2_scope.
Delimit Scope ext2_scope with ext2.
Notation "x <~ m ;; k" := (bind m (fun x => k))
  (at level 100, m at next level, k at level 200, right associativity) : ext2_scope.
Notation "m ;~ k" := (bind m (fun _ => k))
  (at level 100, k at level 200, right associativity) : ext2_scope.
Open Scope ext2_scope.

(** ** Services *)

Definition next_fault (s : fs) : fault * fs :=
  match faults s with [] => (Fine, s) | f :: l => (f, set_faults l s) end.

(** A buffer: its address is not observed, its content is set by its first use. *)
Definition kmalloc : M unit := fun s =>
  match next_fault s with
  | (Fine, s) => (Ok tt, set_bufs (bufs s + 1) s)
  | (Fails _ _, s) => (Er (- ENOMEM), s)
  end.
Definition kfree : M unit := modify (fun s => set_bufs (bufs s - 1) s).
Definition down : M unit := modify (set_sem true).
Definition up : M unit := modify (set_sem false).

Definition read_sectors (d : Z -> list Z) (sector nr : Z) : list Z :=
  concat (map d (seqZ sector nr)).
Definition write_sectors (d : Z -> list Z) (sector nr : Z) (buf : list Z) : Z -> list Z :=
  fun x => if (sector <=? x) && (x <? sector + nr) then sub_bytes buf ((x - sector) * 512) 512 else d x.

Definition blkdev_read (sector nr : Z) : M (list Z) := fun s =>
  match next_fault s with
  | (Fine, s) => (Ok (read_sectors (disk s) sector nr), s)
  | (Fails e _, s) => (Er (Z.neg e), s)
  end.
Definition blkdev_write (sector nr : Z) (buf : list Z) : M unit := fun s =>
  match next_fault s with
  | (Fine, s) => (Ok tt, set_disk (write_sectors (disk s) sector nr buf) s)
  | (Fails e torn, s) => (Er (Z.neg e), set_disk (write_sectors (disk s) sector nr torn) s)
  end.

(** ** Block I/O *)

Definition ext2_read_block (block : Z) : M (list Z) :=
  i <~ get_sb ;;
  if block_size i =? 0 then fail (- EINVAL) else
  if block >=? blocks_count i then fail (- EINVAL) else
  let sec_per_block := block_size i / 512 in
  blkdev_read (u32 (block * sec_per_block)) sec_per_block.

Definition ext2_write_block (block : Z) (buf : list Z) : M unit :=
  i <~ get_sb ;;
  if block_size i =? 0 then fail (- EINVAL) else
  if block >=? blocks_count i then fail (- EINVAL) else
  let sec_per_block := block_size i / 512 in
  blkdev_write (u32 (block * sec_per_block)) sec_per_block buf ;~
  modify set_dirty.

(** ** Running the monad *)

Section run.
Context {S A B : Type}.
Lemma bind_ok (m : ST S A) (k : A -> ST S B) s a s' : m s = (Ok a, s') -> bind m k s = k a s'.
Proof. intros E. unfold bind. by rewrite E. Qed.
Lemma bind_er (m : ST S A) (k : A -> ST S B) s e s' : m s = (Er e, s') -> bind m k s = (Er e, s').
Proof. intros E. unfold bind. by rewrite E. Qed.
Lemma bind_ret (a : A) (k : A -> ST S B) s : bind (ret a) k s = k a s.
Proof. done. Qed.
Lemma bind_try (m : ST S A) (k : res A -> ST S B) s r s' : m s = (r, s') -> bind (try m) k s = k r s'.
Proof. intros E. unfold bind, try. by rewrite E. Qed.
End run.

Lemma kmalloc_ok s : faults s = [] -> kmalloc s = (Ok tt, set_bufs (bufs s + 1) s).
Proof. intros E. unfold kmalloc, next_fault. by rewrite E. Qed.

(** ** Reading back what was written *)

Lemma byte_at_memcpy dst off src n i :
  0 <= off -> 0 <= n -> off + n <= zlength dst -> n <= zlength src -> 0 <= i ->
  byte_at (memcpy_at dst off src n) i = if decide (off <= i < off + n) then byte_at src (i - off) else byte_at dst i.
Proof.
  intros. unfold byte_at. rewrite lookup_memcpy_at, Z2Nat.id by done.
  destruct (decide (off <= i < off + n)); [|done]. by rewrite Z2Nat.inj_sub by done.
Qed.

Lemma land_ff x : Z.land x 0xff = x mod 2 ^ 8.
Proof. change 0xff with (Z.ones 8). by rewrite Z.land_ones by lia. Qed.

Lemma write16_bytes p off v i : 0 <= off -> off + 2 <= zlength p -> 0 <= i ->
  byte_at (ext2_write16 p off v) i =
    if decide (i = off) then v mod 2 ^ 8 else if decide (i = off + 1) then u16 v / 2 ^ 8 else byte_at p i.
Proof.
  intros. unfold ext2_write16. rewrite byte_at_memcpy by (unfold zlength in *; simpl; lia).
  rewrite land_ff, Z.shiftr_div_pow2 by lia.
  destruct (decide (i = off)) as [->|]; [rewrite decide_True by lia; by rewrite Z.sub_diag|].
  destruct (decide (i = off + 1)) as [->|]; [rewrite decide_True by lia|by rewrite decide_False by lia].
  by replace (off + 1 - off) with 1 by lia.
Qed.

Lemma read_write16 p off v : 0 <= off -> off + 2 <= zlength p -> 0 <= v < 2 ^ 16 ->
  le16 (ext2_write16 p off v) off = v.
Proof.
  intros Ho Hl Hv. unfold le16. rewrite !write16_bytes by lia.
  rewrite decide_True by done. rewrite (decide_False (P := off + 1 = off)), decide_True by lia.
  unfold u16. rewrite (Z.mod_small v (2 ^ 16)) by lia.
  pose proof (Z.mod_pos_bound v (2 ^ 8) ltac:(lia)). rewrite lor_shiftl_add by lia.
  pose proof (Z.div_mod v (2 ^ 8) ltac:(lia)). lia.
Qed.

Lemma read32_write16 p off v o : 0 <= off -> off + 2 <= zlength p -> 0 <= o -> o + 4 <= off \/ off + 2 <= o ->
  le32 (ext2_write16 p off v) o = le32 p o.
Proof. intros. unfold le32. rewrite !write16_bytes by lia. by rewrite !decide_False by lia. Qed.

Lemma write32_bytes p off v i : 0 <= off -> off + 4 <= zlength p -> 0 <= i ->
  byte_at (ext2_write32 p off v) i =
    if decide (off <= i < off + 4) then (v / 2 ^ (8 * (i - off))) mod 2 ^ 8 else byte_at p i.
Proof.
  intros. unfold ext2_write32. rewrite byte_at_memcpy by (unfold zlength in *; simpl; lia).
  rewrite !land_ff, !Z.shiftr_div_pow2 by lia.
  destruct (decide (off <= i < off + 4)); [|done].
  assert (Hi : i - off = 0 \/ i - off = 1 \/ i - off = 2 \/ i - off = 3) by lia.
  destruct Hi as [E|[E|[E|E]]]; rewrite E; [|done..].
  change (2 ^ (8 * 0)) with 1. by rewrite Z.div_1_r.
Qed.

Lemma write16_u8 p off v : 0 <= off -> off + 2 <= zlength p -> Forall is_u8 p -> Forall is_u8 (ext2_write16 p off v).
Proof.
  intros Ho Hl Hp. unfold ext2_write16, memcpy_at. apply Forall_app. split; [by apply Forall_take|].
  apply Forall_app. split; [|by apply Forall_drop]. apply Forall_take.
  rewrite land_ff, Z.shiftr_div_pow2 by lia. unfold u16, is_u8.
  pose proof (Z.mod_pos_bound v (2 ^ 16) ltac:(lia)).
  pose proof (Z.div_lt_upper_bound (v mod 2 ^ 16) (2 ^ 8) (2 ^ 8) ltac:(lia)).
  pose proof (Z.div_pos (v mod 2 ^ 16) (2 ^ 8)).
  repeat constructor; try apply Z.mod_pos_bound; lia.
Qed.

Lemma write32_u8 p off v : Forall is_u8 p -> Forall is_u8 (ext2_write32 p off v).
Proof.
  intros Hp. unfold ext2_write32, memcpy_at. apply Forall_app. split; [by apply Forall_take|].
  apply Forall_app. split; [|by apply Forall_drop]. apply Forall_take.
  rewrite !land_ff. unfold is_u8. repeat constructor; apply Z.mod_pos_bound; lia.
Qed.

Lemma length_write16 p off v : 0 <= off -> off + 2 <= zlength p -> length (ext2_write16 p off v) = length p.
Proof. intros. apply length_memcpy_at; unfold zlength in *; simpl; lia. Qed.

Lemma length_write32 p off v : 0 <= off -> off + 4 <= zlength p -> length (ext2_write32 p off v) = length p.
Proof. intros. apply length_memcpy_at; unfold zlength in *; simpl; lia. Qed.

Lemma read_write32 p off v : 0 <= off -> off + 4 <= zlength p -> 0 <= v < 2 ^ 32 ->
  le32 (ext2_write32 p off v) off = v.
Proof.
  intros Ho Hl Hv. unfold le32. rewrite !write32_bytes by lia.
  rewrite !decide_True by lia. rewrite Z.sub_diag.
  replace (off + 1 - off) with 1 by lia. replace (off + 2 - off) with 2 by lia.
  replace (off + 3 - off) with 3 by lia.
  change (2 ^ (8 * 0)) with 1. rewrite Z.div_1_r.
  change (2 ^ (8 * 1)) with 256. change (2 ^ (8 * 2)) with 65536. change (2 ^ (8 * 3)) with 16777216.
  change (2 ^ 8) with 256.
  set (a := v mod 256). set (b := (v / 256) mod 256). set (c := (v / 65536) mod 256). set (d := (v / 16777216) mod 256).
  assert (0 <= a < 256) by (apply Z.mod_pos_bound; lia). assert (0 <= b < 256) by (apply Z.mod_pos_bound; lia).
  assert (0 <= c < 256) by (apply Z.mod_pos_bound; lia). assert (0 <= d < 256) by (apply Z.mod_pos_bound; lia).
  rewrite (lor_shiftl_add a b 8), (lor_shiftl_add _ c 16), (lor_shiftl_add _ d 24) by lia.
  subst a b c d. Z.div_mod_to_equations. lia.
Qed.

Lemma read_write32_ne p off v o : 0 <= off -> off + 4 <= zlength p -> 0 <= o -> o + 4 <= off \/ off + 4 <= o ->
  le32 (ext2_write32 p off v) o = le32 p o.
Proof. intros. unfold le32. rewrite !write32_bytes by lia. by rewrite !decide_False by lia. Qed.

(** ** The device as blocks *)

Definition spb (i : sb_info) : Z := block_size i / 512.

(** The content of a block. *)
Definition blk (s : fs) (b : Z) : list Z := read_sectors (disk s) (b * spb (sb s)) (spb (sb s)).

(** What a successful [ext2_write_block] does. *)
Definition put_block (b : Z) (buf : list Z) (s : fs) : fs :=
  set_dirty (set_disk (write_sectors (disk s) (b * spb (sb s)) (spb (sb s)) buf) s).

(** Block sizes and counts of a mounted file system; sector numbers do not wrap. *)
Record geom (i : sb_info) : Prop := {
  g_size : exists k, 0 <= k <= 2 /\ block_size i = 1024 * 2 ^ k;
  g_first : first_data_block i = if block_size i =? 1024 then 1 else 0;
  g_count : first_data_block i < blocks_count i;
  g_sectors : blocks_count i * spb i < 2 ^ 32;
  g_bpg : 0 < blocks_per_group i <= 8 * block_size i;
  g_groups : nr_groups i = (blocks_count i - first_data_block i + blocks_per_group i - 1) / blocks_per_group i;
  g_desc : desc_per_block i = block_size i / 32;
}.

Definition sectors_ok (d : Z -> list Z) : Prop := forall x, length (d x) = 512%nat /\ Forall is_u8 (d x).

Lemma geom_size i : geom i -> (block_size i = 1024 \/ block_size i = 2048 \/ block_size i = 4096) /\
  block_size i = 512 * spb i /\ 2 <= spb i <= 8.
Proof.
  intros Hg. destruct (g_size _ Hg) as (k & Hk & E). unfold spb. rewrite E.
  assert (Hc : k = 0 \/ k = 1 \/ k = 2) by lia.
  destruct Hc as [-> | [-> | ->]]; (split; [tauto|split; [reflexivity|]]).
  - change (1024 * 2 ^ 0 / 512) with 2. lia.
  - change (1024 * 2 ^ 1 / 512) with 4. lia.
  - change (1024 * 2 ^ 2 / 512) with 8. lia.
Qed.

Lemma sector_chunks (buf : list Z) a n :
  concat (map (fun x => sub_bytes buf ((x - a) * 512) 512) (seqZ a (Z.of_nat n))) = take (512 * n) buf.
Proof.
  induction n as [|n IH]; [by rewrite Nat.mul_0_r|].
  rewrite seqZ_S, map_app, concat_app, IH. simpl. rewrite app_nil_r.
  replace (a + Z.of_nat n - a) with (Z.of_nat n) by lia. unfold sub_bytes.
  replace (Z.to_nat (Z.of_nat n * 512)) with (512 * n)%nat by lia. change (Z.to_nat 512) with 512%nat.
  rewrite take_take_drop. f_equal. lia.
Qed.

Lemma length_sectors d a n : sectors_ok d -> length (read_sectors d a (Z.of_nat n)) = (512 * n)%nat.
Proof.
  intros Hd. unfold read_sectors. induction n as [|n IH]; [done|].
  rewrite seqZ_S, map_app, concat_app, length_app, IH. simpl.
  rewrite app_nil_r, (proj1 (Hd _)). lia.
Qed.

Lemma sectors_u8 d a n : sectors_ok d -> Forall is_u8 (read_sectors d a n).
Proof.
  intros Hd. unfold read_sectors. apply Forall_concat, Forall_map, Forall_true. intros x. apply Hd.
Qed.

Section blocks.
Context (s : fs).
Hypothesis Hg : geom (sb s).
Hypothesis Hd : sectors_ok (disk s).

Lemma length_blk b : zlength (blk s b) = block_size (sb s).
Proof.
  destruct (geom_size _ Hg) as (_ & E & Hr). unfold blk, zlength.
  rewrite <- (Z2Nat.id (spb (sb s))) at 2 by lia. rewrite length_sectors by done. lia.
Qed.

Lemma blk_u8 b : Forall is_u8 (blk s b).
Proof. by apply sectors_u8. Qed.

Lemma blk_put b buf c : 0 <= b -> 0 <= c -> zlength buf = block_size (sb s) ->
  blk (put_block b buf s) c = if decide (c = b) then buf else blk s c.
Proof.
  intros Hb Hc Hl. destruct (geom_size _ Hg) as (_ & E & Hr).
  unfold blk, put_block, read_sectors. cbn [disk sb set_dirty set_disk].
  set (n := spb (sb s)) in *. destruct (decide (c = b)) as [->|Hne].
  - transitivity (concat (map (fun x => sub_bytes buf ((x - b * n) * 512) 512) (seqZ (b * n) n))).
    + f_equal. apply map_ext_in. intros x Hx. apply list_elem_of_In, elem_of_seqZ in Hx.
      unfold write_sectors. by rewrite (proj2 (Z.leb_le _ _)), (proj2 (Z.ltb_lt _ _)) by lia.
    + rewrite <- (Z2Nat.id n) at 2 by lia. rewrite sector_chunks. apply take_ge.
      unfold zlength in Hl. lia.
  - f_equal. apply map_ext_in. intros x Hx. apply list_elem_of_In, elem_of_seqZ in Hx.
    unfold write_sectors. destruct (Z.leb_spec (b * n) x), (Z.ltb_spec x (b * n + n)); try done.
    exfalso. apply Hne. nia.
Qed.

Lemma put_block_ok b buf : 0 <= b -> zlength buf = block_size (sb s) -> Forall is_u8 buf ->
  sectors_ok (disk (put_block b buf s)).
Proof.
  intros Hb Hl Hu x. unfold put_block, write_sectors. cbn [disk set_dirty set_disk].
  destruct (geom_size _ Hg) as (_ & E & Hr). set (n := spb (sb s)) in *.
  destruct (Z.leb_spec (b * n) x), (Z.ltb_spec x (b * n + n)); try apply Hd. simpl.
  unfold sub_bytes. split.
  - rewrite length_take, length_drop. unfold zlength in Hl. lia.
  - by apply Forall_take, Forall_drop.
Qed.

Lemma read_block_ok b : faults s = [] -> 0 <= b < blocks_count (sb s) ->
  ext2_read_block b s = (Ok (blk s b), s).
Proof.
  intros Hf Hb. destruct (geom_size _ Hg) as (_ & E & Hr). pose proof (g_sectors _ Hg).
  unfold ext2_read_block, bind, get_sb.
  rewrite (proj2 (Z.eqb_neq _ _)) by lia. rewrite Z.geb_leb, (proj2 (Z.leb_gt _ _)) by lia.
  unfold blkdev_read, next_fault. rewrite Hf. fold (spb (sb s)). rewrite u32_small by nia. done.
Qed.

Lemma write_block_ok b buf : faults s = [] -> 0 <= b < blocks_count (sb s) ->
  ext2_write_block b buf s = (Ok tt, put_block b buf s).
Proof.
  intros Hf Hb. destruct (geom_size _ Hg) as (_ & E & Hr). pose proof (g_sectors _ Hg).
  unfold ext2_write_block, bind, get_sb.
  rewrite (proj2 (Z.eqb_neq _ _)) by lia. rewrite Z.geb_leb, (proj2 (Z.leb_gt _ _)) by lia.
  unfold blkdev_write, next_fault. rewrite Hf. fold (spb (sb s)). rewrite u32_small by nia. done.
Qed.
End blocks.

End Ext2.
