(* ===== verification/Ext2Balloc.v ===== *)
(** * ext2 block allocation ([fs/ext2/balloc.c])

    The block bitmaps, the free counts of the groups and of the superblock, and
    the descriptor table, in memory and on disk.  The abstract allocator is the
    set of free blocks; [abs] is the simulation relation.  What holds on a device
    without faults is proved here, the refinement for every schedule of faults
    in [Ext2Faults]. *)
From S2P Require Import Prelude Bitmap Ext2.
From stdpp Require Import fin_sets.
#[local] Open Scope Z_scope.

Module Ext2Balloc.
Import Bitmap Ext2.
#[local] Open Scope ext2_scope.

Definition EROFS : Z := 30.
Definition ENOSPC : Z := 28.

(** [sizeof (struct ext2_group_desc)] and the offsets of its fields. *)
Definition DESC_SIZE : Z := 32.
Definition bg_block_bitmap : Z := 0.
Definition bg_inode_bitmap : Z := 4.
Definition bg_inode_table : Z := 8.
Definition bg_free_blocks_count : Z := 12.
Definition bg_free_inodes_count : Z := 14.

(** [EXT2_GROUP_DESC(sb)[group]] *)
Definition group_of (i : sb_info) (g : Z) : list Z := default [] (group_desc i !! Z.to_nat g).
Definition set_group (g : Z) (d : list Z) (i : sb_info) : sb_info :=
  set_group_desc (<[Z.to_nat g := d]> (group_desc i)) i.

Definition ext2_group_start (i : sb_info) (group : Z) : Z :=
  u32 (first_data_block i + u32 (group * blocks_per_group i)).

Definition ext2_group_blocks (i : sb_info) (group : Z) : Z :=
  let start := ext2_group_start i group in
  if start >=? blocks_count i then 0 else
  let remaining := u32 (blocks_count i - start) in
  Z.min remaining (blocks_per_group i).

Definition ext2_write_group_desc (group : Z) : M unit :=
  i <~ get_sb ;;
  if group >=? nr_groups i then fail (- EINVAL) else
  let index := group mod desc_per_block i in
  let desc_block := u32 (first_data_block i + 1 + group / desc_per_block i) in
  kmalloc ;~
  r <~ try (ext2_read_block desc_block) ;;
  match r with
  | Er e => kfree ;~ fail e
  | Ok buf =>
    let buf := memcpy_at buf (index * DESC_SIZE) (group_of i group) DESC_SIZE in
    r <~ try (ext2_write_block desc_block buf) ;;
    kfree ;~
    lift r
  end.

(** The update of the descriptor of [group] and of the superblock after a
    change of the bitmap; [d] is what is added to the counts. *)
Definition count_blocks (group d : Z) (s : fs) : fs :=
  let desc := group_of (sb s) group in
  let desc' := ext2_write16 desc bg_free_blocks_count (ext2_read16 desc bg_free_blocks_count + d) in
  let i := set_group group desc' (sb s) in
  set_dirty (set_sb (set_free_blocks (u32 (free_blocks_count i + d)) i) s).

(** The body of the loop of [ext2_alloc_block] once a clear bit is found. *)
Definition alloc_bit (group start bitmap_block bit : Z) (bitmap : list Z) : M Z :=
  let bitmap := set_bit bit bitmap in
  r <~ try (ext2_write_block bitmap_block bitmap) ;;
  match r with
  | Er e =>
    let bitmap := clear_bit bit bitmap in
    _ <~ try (ext2_write_block bitmap_block bitmap) ;;
    fail e
  | Ok _ =>
    modify (count_blocks group (-1)) ;~
    ext2_write_group_desc group ;~
    ret (u32 (start + bit))
  end.

Fixpoint alloc_loop (n : nat) (k first_group : Z) : M Z :=
  match n with
  | O => fail (- ENOSPC)
  | S n' =>
    i <~ get_sb ;;
    let group := u32 (first_group + k) mod nr_groups i in
    let start := ext2_group_start i group in
    let count := ext2_group_blocks i group in
    if count =? 0 then alloc_loop n' (k + 1) first_group else
    let desc := group_of i group in
    if ext2_read16 desc bg_free_blocks_count =? 0 then alloc_loop n' (k + 1) first_group else
    let bitmap_block := ext2_read32 desc bg_block_bitmap in
    bitmap <~ ext2_read_block bitmap_block ;;
    let bit := find_first_zero_bit bitmap count in
    if bit <? 0 then alloc_loop n' (k + 1) first_group else
    alloc_bit group start bitmap_block bit bitmap
  end.

Definition first_group (i : sb_info) (goal : Z) : Z :=
  let g := if goal >=? first_data_block i
           then u32 (goal - first_data_block i) / blocks_per_group i else 0 in
  if g >=? nr_groups i then 0 else g.

(** [ext2_alloc_block] *)
Definition ext2_alloc_block (goal : Z) : M Z :=
  i <~ get_sb ;;
  if readonly i then fail (- EROFS) else
  if free_blocks_count i =? 0 then fail (- ENOSPC) else
  kmalloc ;~
  down ;~
  r <~ try (alloc_loop (Z.to_nat (nr_groups i)) 0 (first_group i goal)) ;;
  up ;~
  kfree ;~
  lift r.

(** [ext2_free_block], between [down] and [up]. *)
Definition free_bit (group bit : Z) : M unit :=
  i <~ get_sb ;;
  let bitmap_block := ext2_read32 (group_of i group) bg_block_bitmap in
  bitmap <~ ext2_read_block bitmap_block ;;
  let '(old, bitmap) := test_and_clear_bit bit bitmap in
  if negb old then fail (- EIO) else
  r <~ try (ext2_write_block bitmap_block bitmap) ;;
  match r with
  | Er e =>
    let bitmap := set_bit bit bitmap in
    _ <~ try (ext2_write_block bitmap_block bitmap) ;;
    fail e
  | Ok _ =>
    modify (count_blocks group 1) ;~
    ext2_write_group_desc group
  end.

Definition ext2_free_block (block : Z) : M unit :=
  i <~ get_sb ;;
  if readonly i then fail (- EROFS) else
  if (block <? first_data_block i) || (block >=? blocks_count i) then fail (- EINVAL) else
  let group := u32 (block - first_data_block i) / blocks_per_group i in
  if group >=? nr_groups i then fail (- EINVAL) else
  let start := ext2_group_start i group in
  let bit := u32 (block - start) in
  kmalloc ;~
  down ;~
  r <~ try (free_bit group bit) ;;
  up ;~
  kfree ;~
  lift r.

(** ** Cleanup on every path *)

(** An operation that keeps the number of buffers, and [s_sem] as it was. *)
Definition neutral {A} (m : M A) : Prop :=
  forall s, bufs (m s).2 = bufs s /\ s_sem (m s).2 = s_sem s.

(** An operation that holds [s_sem] only inside, and keeps the number of buffers. *)
Definition releases {A} (m : M A) : Prop :=
  forall s, s_sem s = false -> bufs (m s).2 = bufs s /\ s_sem (m s).2 = false.

Lemma next_fault_same s : bufs (next_fault s).2 = bufs s /\ s_sem (next_fault s).2 = s_sem s.
Proof. unfold next_fault. by destruct (faults s). Qed.

Lemma neutral_ret {A} (a : A) : neutral (ret a).
Proof. by intros s. Qed.
Lemma neutral_fail {A} e : neutral (fail (A := A) e).
Proof. by intros s. Qed.
Lemma neutral_lift {A} (r : res A) : neutral (lift r).
Proof. by intros s. Qed.
Lemma neutral_get : neutral get_sb.
Proof. by intros s. Qed.
Lemma neutral_try {A} (m : M A) : neutral m -> neutral (try m).
Proof. intros H s. specialize (H s). unfold try. by destruct (m s). Qed.
Lemma neutral_bind {A B} (m : M A) (k : A -> M B) : neutral m -> (forall a, neutral (k a)) -> neutral (bind m k).
Proof.
  intros Hm Hk s. specialize (Hm s). unfold bind. destruct (m s) as [[a|e] s']; [|done].
  destruct (Hk a s') as [-> ->]. done.
Qed.
Lemma neutral_if {A} (b : bool) (m k : M A) : neutral m -> neutral k -> neutral (if b then m else k).
Proof. by destruct b. Qed.
Lemma neutral_res {A B} (r : res A) (m : A -> M B) (k : Z -> M B) :
  (forall a, neutral (m a)) -> (forall e, neutral (k e)) -> neutral (match r with Ok a => m a | Er e => k e end).
Proof. by destruct r. Qed.
Lemma neutral_modify f : (forall s, bufs (f s) = bufs s /\ s_sem (f s) = s_sem s) -> neutral (modify f).
Proof. intros H s. apply H. Qed.

Create HintDb neutral.
#[local] Hint Resolve neutral_ret neutral_fail neutral_lift neutral_get neutral_try neutral_bind
  neutral_if neutral_res : neutral.
(** Walks through the structure of a program. *)
Ltac neutral := repeat (intros; cbv beta zeta; first [solve [eauto 2 with neutral] | apply neutral_bind
  | apply neutral_if | apply neutral_res | apply neutral_try | apply neutral_modify]).

Lemma neutral_blkdev_read a n : neutral (blkdev_read a n).
Proof.
  intros s. unfold blkdev_read. destruct (next_fault_same s) as [H1 H2].
  by destruct (next_fault s) as [[] s'].
Qed.
Lemma neutral_blkdev_write a n buf : neutral (blkdev_write a n buf).
Proof.
  intros s. unfold blkdev_write. destruct (next_fault_same s) as [H1 H2].
  by destruct (next_fault s) as [[] s'].
Qed.
#[local] Hint Resolve neutral_blkdev_read neutral_blkdev_write : neutral.

Lemma neutral_read_block b : neutral (ext2_read_block b).
Proof. unfold ext2_read_block. neutral. Qed.
Lemma neutral_write_block b buf : neutral (ext2_write_block b buf).
Proof. unfold ext2_write_block. neutral. Qed.
#[local] Hint Resolve neutral_read_block neutral_write_block : neutral.

(** An operation that frees the buffer it was given. *)
Definition consumes {A} (m : M A) : Prop :=
  forall s, bufs (m s).2 = bufs s - 1 /\ s_sem (m s).2 = s_sem s.

Lemma neutral_kmalloc {A} (k : M A) : consumes k -> neutral (kmalloc ;~ k).
Proof.
  intros Hk s. unfold bind, kmalloc. destruct (next_fault_same s) as [H1 H2].
  destruct (next_fault s) as [[|e t] s1]; simpl in *; [|done].
  destruct (Hk (set_bufs (bufs s1 + 1) s1)) as [-> ->]. simpl. split; [lia|done].
Qed.
Lemma consumes_kfree {A} (k : M A) : neutral k -> consumes (kfree ;~ k).
Proof. intros Hk s. unfold bind, kfree, modify. by destruct (Hk (set_bufs (bufs s - 1) s)) as [-> ->]. Qed.
Lemma consumes_try {A B} (m : M A) (k : res A -> M B) :
  neutral m -> (forall r, consumes (k r)) -> consumes (r <~ try m ;; k r).
Proof.
  intros Hm Hk s. specialize (Hm s). unfold bind, try. destruct (m s) as [r s'].
  destruct (Hk r s') as [-> ->]. simpl in Hm. destruct Hm as [-> ->]. done.
Qed.

Lemma neutral_write_group_desc g : neutral (ext2_write_group_desc g).
Proof.
  unfold ext2_write_group_desc. apply neutral_bind; [apply neutral_get|]. intros i.
  apply neutral_if; [apply neutral_fail|]. cbv zeta. apply neutral_kmalloc.
  apply consumes_try; [apply neutral_read_block|]. intros [buf|e].
  - apply consumes_try; [apply neutral_write_block|]. intros r. apply consumes_kfree, neutral_lift.
  - apply consumes_kfree, neutral_fail.
Qed.
#[local] Hint Resolve neutral_write_group_desc : neutral.

Lemma neutral_alloc_bit g st bb bit bm : neutral (alloc_bit g st bb bit bm).
Proof. unfold alloc_bit. neutral. Qed.
#[local] Hint Resolve neutral_alloc_bit : neutral.

Lemma neutral_alloc_loop n k fg : neutral (alloc_loop n k fg).
Proof. revert k. induction n as [|n IH]; intros k; cbn [alloc_loop]; neutral. Qed.

Lemma neutral_free_bit g bit : neutral (free_bit g bit).
Proof. unfold free_bit. neutral. Qed.

(** A critical section with a buffer. *)
Lemma releases_section {A} (m : M A) : neutral m ->
  releases (kmalloc ;~ down ;~ r <~ try m ;; up ;~ kfree ;~ lift r).
Proof.
  intros Hm s Hs. unfold bind, kmalloc. destruct (next_fault_same s) as [H1 H2].
  destruct (next_fault s) as [[|e t] s1]; simpl in *; [|by rewrite H1, H2].
  unfold try. destruct (Hm (set_sem true (set_bufs (bufs s1 + 1) s1))) as [E1 E2].
  destruct (m _) as [r s2]. simpl in *. split; [lia|done].
Qed.

Lemma neutral_releases {A} (m : M A) : neutral m -> releases m.
Proof. intros H s Hs. by destruct (H s) as [-> ->]. Qed.
Lemma releases_get {A} (k : sb_info -> M A) : (forall i, releases (k i)) -> releases (i <~ get_sb ;; k i).
Proof. intros H s Hs. by apply (H (sb s) s). Qed.
Lemma releases_if {A} (b : bool) (m k : M A) : releases m -> releases k -> releases (if b then m else k).
Proof. by destruct b. Qed.
Lemma releases_fail {A} e : releases (fail (A := A) e).
Proof. apply neutral_releases, neutral_fail. Qed.

Lemma releases_alloc_block goal : releases (ext2_alloc_block goal).
Proof.
  apply releases_get. intros i. apply releases_if; [apply releases_fail|].
  apply releases_if; [apply releases_fail|]. apply releases_section, neutral_alloc_loop.
Qed.

Lemma releases_free_block b : releases (ext2_free_block b).
Proof.
  apply releases_get. intros i. apply releases_if; [apply releases_fail|].
  apply releases_if; [apply releases_fail|]. cbv zeta. apply releases_if; [apply releases_fail|].
  apply releases_section, neutral_free_bit.
Qed.

(** ** Groups and their blocks *)

Definition bm (i : sb_info) (g : Z) : Z := ext2_read32 (group_of i g) bg_block_bitmap.
Definition db (i : sb_info) (g : Z) : Z := first_data_block i + 1 + g / desc_per_block i.
Definition start (i : sb_info) (g : Z) : Z := first_data_block i + g * blocks_per_group i.
Definition group_of_block (i : sb_info) (b : Z) : Z := (b - first_data_block i) / blocks_per_group i.
Definition bit_of_block (i : sb_info) (b : Z) : Z := (b - first_data_block i) mod blocks_per_group i.

Section geometry.
Context (i : sb_info).
Hypothesis Hg : geom i.

Lemma first_block_range : 0 <= first_data_block i <= 1.
Proof. rewrite (g_first _ Hg). destruct (_ =? _); lia. Qed.

Lemma blocks_count_bound : blocks_count i < 2 ^ 31.
Proof. pose proof (g_sectors _ Hg). destruct (geom_size _ Hg) as (_ & _ & ?). nia. Qed.

Lemma bpg_bound : 0 < blocks_per_group i <= 32768.
Proof. pose proof (g_bpg _ Hg). destruct (geom_size _ Hg) as ([?|[?|?]] & _); lia. Qed.

Lemma nr_groups_spec g : 0 <= g -> g < nr_groups i <-> start i g < blocks_count i.
Proof.
  intros H0. pose proof bpg_bound. pose proof (g_count _ Hg). rewrite (g_groups _ Hg). unfold start.
  set (b := blocks_per_group i) in *. set (n := blocks_count i - first_data_block i) in *.
  pose proof (Z.div_mod (n + b - 1) b ltac:(lia)). pose proof (Z.mod_pos_bound (n + b - 1) b ltac:(lia)).
  set (q := (n + b - 1) / b) in *. clearbody q. split; intros; nia.
Qed.

Lemma nr_groups_pos : 0 < nr_groups i.
Proof. apply nr_groups_spec; [done|]. unfold start. pose proof (g_count _ Hg). lia. Qed.

Lemma nr_groups_bound : nr_groups i < 2 ^ 31.
Proof.
  pose proof (proj1 (nr_groups_spec (nr_groups i - 1) ltac:(pose proof nr_groups_pos; lia)) ltac:(lia)) as H.
  unfold start in H. pose proof bpg_bound. pose proof blocks_count_bound. pose proof first_block_range. nia.
Qed.

Lemma group_start_eq g : 0 <= g < nr_groups i -> ext2_group_start i g = start i g.
Proof.
  intros H. pose proof (proj1 (nr_groups_spec g ltac:(lia)) ltac:(lia)) as Hlt. unfold start in *.
  pose proof bpg_bound. pose proof blocks_count_bound. pose proof first_block_range.
  unfold ext2_group_start. rewrite (u32_small (g * _)), u32_small by nia. done.
Qed.

Lemma group_blocks_eq g : 0 <= g < nr_groups i ->
  ext2_group_blocks i g = Z.min (blocks_count i - start i g) (blocks_per_group i) /\
  0 < ext2_group_blocks i g <= blocks_per_group i.
Proof.
  intros H. pose proof (proj1 (nr_groups_spec g ltac:(lia)) ltac:(lia)) as Hlt.
  pose proof bpg_bound. pose proof blocks_count_bound. pose proof first_block_range.
  unfold ext2_group_blocks. rewrite group_start_eq, Z.geb_leb, (proj2 (Z.leb_gt _ _)) by lia.
  assert (0 <= start i g) by (unfold start; nia). rewrite u32_small by lia. lia.
Qed.

Lemma block_in_group b : first_data_block i <= b < blocks_count i ->
  0 <= group_of_block i b < nr_groups i /\
  0 <= bit_of_block i b < ext2_group_blocks i (group_of_block i b) /\
  b = start i (group_of_block i b) + bit_of_block i b.
Proof.
  intros Hb. pose proof bpg_bound. unfold group_of_block, bit_of_block.
  set (n := b - first_data_block i) in *. set (p := blocks_per_group i) in *.
  pose proof (Z.div_mod n p ltac:(lia)). pose proof (Z.mod_pos_bound n p ltac:(lia)).
  pose proof (Z.div_pos n p ltac:(lia) ltac:(lia)).
  set (q := n / p) in *. set (r := n mod p) in *. clearbody q r.
  assert (Hq : q < nr_groups i) by (apply nr_groups_spec; [done|]; unfold start; fold p; nia).
  destruct (group_blocks_eq q ltac:(lia)) as [-> _]. unfold start. fold p. split; [lia|]. split; nia.
Qed.

Lemma group_in_blocks g bit : 0 <= g < nr_groups i -> 0 <= bit < ext2_group_blocks i g ->
  first_data_block i <= start i g + bit < blocks_count i /\
  group_of_block i (start i g + bit) = g /\ bit_of_block i (start i g + bit) = bit.
Proof.
  intros H Hbit. destruct (group_blocks_eq g H) as [E _]. rewrite E in Hbit. pose proof bpg_bound.
  unfold group_of_block, bit_of_block, start in *. split; [nia|].
  replace (first_data_block i + g * blocks_per_group i + bit - first_data_block i)
    with (bit + g * blocks_per_group i) by lia.
  rewrite Z.div_add, Z.mod_add, Z.div_small, Z.mod_small by lia. lia.
Qed.
End geometry.

(** ** Counting *)

Definition sumZ (f : Z -> Z) (l : list Z) : Z := foldr (fun x a => f x + a) 0 l.

Lemma sumZ_update f f' l g : NoDup l -> g ∈ l -> (forall x, x ∈ l -> x <> g -> f' x = f x) ->
  sumZ f' l = sumZ f l + (f' g - f g).
Proof.
  intros Hnd. revert g. induction Hnd as [|x l Hx Hnd IH]; intros g Hin Hf; [by apply elem_of_nil in Hin|].
  cbn [sumZ foldr]. fold (sumZ f l). fold (sumZ f' l). apply elem_of_cons in Hin as [->|Hin].
  - assert (E : sumZ f' l = sumZ f l); [|lia].
    assert (Hl : forall y, y ∈ l -> f' y = f y) by (intros y Hy; apply Hf; [by right|congruence]).
    clear - Hl. induction l as [|y l IH]; [done|]. cbn [sumZ foldr]. fold (sumZ f l). fold (sumZ f' l).
    rewrite IH, Hl; [done|by left|]. intros z Hz. apply Hl. by right.
  - rewrite (IH g) by (done || (intros; apply Hf; [by right|done])).
    rewrite (Hf x) by (by left || congruence). lia.
Qed.

Lemma sumZ_zero f l : (forall x, x ∈ l -> 0 <= f x) -> sumZ f l = 0 <-> forall x, x ∈ l -> f x = 0.
Proof.
  induction l as [|x l IH]; intros Hf; [split; [intros _ y Hy; by apply elem_of_nil in Hy|done]|].
  cbn [sumZ foldr]. fold (sumZ f l). pose proof (Hf x ltac:(by left)).
  assert (Hl : forall y, y ∈ l -> 0 <= f y) by (intros; apply Hf; by right).
  assert (Hn : 0 <= sumZ f l).
  { clear - Hl. induction l as [|y l IH]; [done|]. cbn [sumZ foldr]. fold (sumZ f l).
    pose proof (Hl y ltac:(by left)). assert (0 <= sumZ f l) by (apply IH; intros; apply Hl; by right). lia. }
  specialize (IH Hl). split.
  - intros E y [->|Hy]%elem_of_cons; [lia|]. apply IH; [lia|done].
  - intros H'. rewrite (H' x) by (by left). apply IH. intros. apply H'. by right.
Qed.

(** The number of clear bits among the first [n]. *)
Definition clear_bits (buf : list Z) (n : Z) : Z :=
  sumZ (fun i => if test_bit i buf then 0 else 1) (seqZ 0 n).

Lemma clear_bits_range buf n : 0 <= n -> 0 <= clear_bits buf n <= n.
Proof.
  intros Hn. unfold clear_bits.
  assert (H : forall l, 0 <= sumZ (fun i => if test_bit i buf then 0 else 1) l <= Z.of_nat (length l)).
  { induction l as [|x l IH]; [simpl; lia|].
    cbn [sumZ foldr length]. unfold sumZ in IH. destruct (test_bit x buf); lia. }
  specialize (H (seqZ 0 n)). rewrite length_seqZ in H. lia.
Qed.

Lemma clear_bits_zero buf n : clear_bits buf n = 0 <-> forall i, 0 <= i < n -> test_bit i buf = true.
Proof.
  unfold clear_bits. rewrite sumZ_zero by (intros x _; by destruct (test_bit x buf)).
  split; intros H i Hi.
  - specialize (H i). rewrite elem_of_seqZ in H. specialize (H ltac:(lia)). by destruct (test_bit i buf).
  - apply elem_of_seqZ in Hi. by rewrite H by lia.
Qed.

Lemma clear_bits_flip buf buf' n k : 0 <= k < n ->
  (forall i, 0 <= i -> i <> k -> test_bit i buf' = test_bit i buf) ->
  test_bit k buf' = negb (test_bit k buf) ->
  clear_bits buf' n = clear_bits buf n + (if test_bit k buf then 1 else -1).
Proof.
  intros Hk Hne Hflip. unfold clear_bits.
  rewrite (sumZ_update (fun i => if test_bit i buf then 0 else 1) _ _ k).
  - rewrite Hflip. by destruct (test_bit k buf).
  - apply NoDup_seqZ.
  - apply elem_of_seqZ. lia.
  - intros x Hx Hxk. apply elem_of_seqZ in Hx. by rewrite Hne by lia.
Qed.

(** ** The abstract allocator *)

(** A block that holds the superblock, a bitmap or a part of the descriptor table. *)
Definition meta (i : sb_info) (b : Z) : Prop :=
  b = first_data_block i \/ exists g, 0 <= g < nr_groups i /\ (b = bm i g \/ b = db i g).

(** The block bitmap of a group, and the blocks that are free according to it. *)
Definition bitmap_of (s : fs) (g : Z) : list Z := blk s (bm (sb s) g).

Definition is_free (s : fs) (b : Z) : Prop :=
  first_data_block (sb s) <= b < blocks_count (sb s) /\
  test_bit (bit_of_block (sb s) b) (bitmap_of s (group_of_block (sb s) b)) = false.

Definition free_in_group (s : fs) (g : Z) : Z :=
  clear_bits (bitmap_of s g) (ext2_group_blocks (sb s) g).

(** [abs s F]: the file system is mounted and consistent, and its free blocks
    are [F].  The tables in memory and on disk agree, the counts are exact, and
    the bitmaps and the descriptor table lie apart in blocks that are in use. *)
Record abs (s : fs) (F : gset Z) : Prop := {
  a_geom : geom (sb s);
  a_disk : sectors_ok (disk s);
  a_rw : readonly (sb s) = false;
  a_len : zlength (group_desc (sb s)) = nr_groups (sb s);
  a_desc g : 0 <= g < nr_groups (sb s) ->
    zlength (group_of (sb s) g) = DESC_SIZE /\ Forall is_u8 (group_of (sb s) g);
  a_bm g : 0 <= g < nr_groups (sb s) -> 0 <= bm (sb s) g < blocks_count (sb s);
  a_db g : 0 <= g < nr_groups (sb s) -> db (sb s) g < blocks_count (sb s);
  a_inj g g' : 0 <= g < nr_groups (sb s) -> 0 <= g' < nr_groups (sb s) ->
    bm (sb s) g = bm (sb s) g' -> g = g';
  a_apart g g' : 0 <= g < nr_groups (sb s) -> 0 <= g' < nr_groups (sb s) -> bm (sb s) g <> db (sb s) g';
  a_sync g : 0 <= g < nr_groups (sb s) ->
    sub_bytes (blk s (db (sb s) g)) ((g mod desc_per_block (sb s)) * DESC_SIZE) DESC_SIZE = group_of (sb s) g;
  a_counts g : 0 <= g < nr_groups (sb s) ->
    ext2_read16 (group_of (sb s) g) bg_free_blocks_count = free_in_group s g;
  a_total : free_blocks_count (sb s) = sumZ (free_in_group s) (seqZ 0 (nr_groups (sb s)));
  a_free b : b ∈ F <-> is_free s b;
  a_meta b : meta (sb s) b -> b ∉ F;
}.

(** A group has a free block exactly when its count says so. *)
Lemma free_in_group_zero s F g : abs s F -> 0 <= g < nr_groups (sb s) ->
  free_in_group s g = 0 <-> forall b, group_of_block (sb s) b = g -> b ∉ F.
Proof.
  intros Ha Hgr. pose proof (a_geom _ _ Ha) as Hg. unfold free_in_group. rewrite clear_bits_zero. split.
  - intros Hall b Hb Hin. apply (a_free _ _ Ha) in Hin as [Hr Ht].
    destruct (block_in_group _ Hg b Hr) as (_ & Hbit & _). rewrite Hb in *.
    rewrite Hall in Ht by done. done.
  - intros Hall bit Hbit. destruct (group_in_blocks _ Hg g bit Hgr Hbit) as (Hr & Eg & Eb).
    destruct (test_bit bit (bitmap_of s g)) eqn:Et; [done|]. destruct (Hall _ Eg).
    apply (a_free _ _ Ha). split; [done|]. by rewrite Eg, Eb.
Qed.

Lemma free_count_bound s F : abs s F -> 0 <= free_blocks_count (sb s) < 2 ^ 31.
Proof.
  intros Ha. pose proof (a_geom _ _ Ha) as Hg. rewrite (a_total _ _ Ha).
  pose proof (blocks_count_bound _ Hg). pose proof (first_block_range _ Hg).
  set (i := sb s) in *.
  assert (Hsum : forall n, (Z.of_nat n <= nr_groups i) ->
    0 <= sumZ (free_in_group s) (seqZ 0 (Z.of_nat n)) /\
    (0 < Z.of_nat n -> sumZ (free_in_group s) (seqZ 0 (Z.of_nat n))
      <= start i (Z.of_nat n - 1) + ext2_group_blocks i (Z.of_nat n - 1) - first_data_block i)).
  { assert (Hadd : forall l x, sumZ (free_in_group s) (l ++ [x]) = sumZ (free_in_group s) l + free_in_group s x).
    { induction l as [|y l IH]; intros x; cbn [sumZ foldr app]; unfold sumZ in *; [lia|]. rewrite IH. lia. }
    induction n as [|n IH]; intros Hn; [split; [done|lia]|].
    rewrite seqZ_S, Hadd, Z.add_0_l. destruct (IH ltac:(lia)) as [IH1 IH2].
    destruct (group_blocks_eq i Hg (Z.of_nat n) ltac:(lia)) as [Eb Hb].
    pose proof (clear_bits_range (bitmap_of s (Z.of_nat n)) (ext2_group_blocks i (Z.of_nat n)) ltac:(lia)) as Hc.
    change (clear_bits _ _) with (free_in_group s (Z.of_nat n)) in Hc. split; [lia|]. intros _.
    replace (Z.of_nat (S n) - 1) with (Z.of_nat n) by lia.
    destruct n as [|n].
    { change (sumZ _ (seqZ 0 (Z.of_nat 0))) with 0. unfold start. lia. }
    specialize (IH2 ltac:(lia)).
    destruct (group_blocks_eq i Hg (Z.of_nat (S n) - 1) ltac:(lia)) as [Eb' _]. unfold start in *. lia. }
  pose proof (nr_groups_pos _ Hg) as Hp. fold i in Hp.
  destruct (Hsum (Z.to_nat (nr_groups i)) ltac:(lia)) as [Hs1 Hs2]. rewrite !Z2Nat.id in * by lia.
  specialize (Hs2 Hp). destruct (group_blocks_eq i Hg (nr_groups i - 1) ltac:(lia)) as [Eb _]. lia.
Qed.

Lemma no_free_blocks s F : abs s F -> free_blocks_count (sb s) = 0 <-> F = ∅.
Proof.
  intros Ha. pose proof (a_geom _ _ Ha) as Hg. rewrite (a_total _ _ Ha), sumZ_zero.
  2:{ intros g Hgr%elem_of_seqZ. apply clear_bits_range.
      destruct (group_blocks_eq _ Hg g ltac:(lia)). lia. }
  split.
  - intros H. apply set_eq. intros b. split; [|set_solver]. intros Hb. exfalso.
    pose proof (proj1 (a_free _ _ Ha b) Hb) as [Hr _].
    destruct (block_in_group _ Hg b Hr) as (Hgr & _).
    specialize (H (group_of_block (sb s) b)). rewrite elem_of_seqZ in H.
    by apply (proj1 (free_in_group_zero s F _ Ha Hgr) (H ltac:(lia)) b).
  - intros -> g Hgr%elem_of_seqZ. apply (free_in_group_zero s ∅ g Ha ltac:(lia)). set_solver.
Qed.

(** ** One change of a bitmap *)

Lemma sub_bytes_memcpy dst off src n : 0 <= off -> 0 <= n -> off + n <= zlength dst -> n <= zlength src ->
  sub_bytes (memcpy_at dst off src n) off n = take (Z.to_nat n) (src : list Z).
Proof.
  intros. apply list_eq. intros k. unfold sub_bytes.
  destruct (decide (k < Z.to_nat n)%nat).
  - rewrite !lookup_take_lt, lookup_drop, lookup_memcpy_at by lia. rewrite decide_True by lia. f_equal. lia.
  - by rewrite !lookup_take_ge by lia.
Qed.

Lemma sub_bytes_memcpy_ne (dst : list Z) off src n o m : 0 <= off -> 0 <= n -> off + n <= zlength dst -> n <= zlength src ->
  0 <= o -> o + m <= off \/ off + n <= o ->
  sub_bytes (memcpy_at dst off src n) o m = sub_bytes dst o m.
Proof.
  intros. apply list_eq. intros k. unfold sub_bytes.
  destruct (decide (k < Z.to_nat m)%nat).
  - rewrite !lookup_take_lt, !lookup_drop, lookup_memcpy_at by lia. by rewrite decide_False by lia.
  - by rewrite !lookup_take_ge by lia.
Qed.

(** The state after a bitmap, the counts and the descriptor table are written. *)
Definition commit (g : Z) (bitmap : list Z) (d : Z) (s : fs) : fs :=
  let s1 := count_blocks g d (put_block (bm (sb s) g) bitmap s) in
  put_block (db (sb s) g)
    (memcpy_at (blk s1 (db (sb s) g)) ((g mod desc_per_block (sb s)) * DESC_SIZE) (group_of (sb s1) g) DESC_SIZE) s1.

Lemma desc_index i g : geom i -> 0 <= g ->
  0 <= g mod desc_per_block i /\ (g mod desc_per_block i) * DESC_SIZE + DESC_SIZE <= block_size i.
Proof.
  intros Hg H0. rewrite (g_desc _ Hg). unfold DESC_SIZE.
  destruct (geom_size _ Hg) as ([E|[E|E]] & _); rewrite E.
  - change (1024 / 32) with 32. pose proof (Z.mod_pos_bound g 32). lia.
  - change (2048 / 32) with 64. pose proof (Z.mod_pos_bound g 64). lia.
  - change (4096 / 32) with 128. pose proof (Z.mod_pos_bound g 128). lia.
Qed.

Lemma db_bounds i g : geom i -> 0 <= g -> 0 < db i g <= g + 2.
Proof.
  intros Hg H0. pose proof (first_block_range i Hg). unfold db.
  assert (1 <= desc_per_block i).
  { rewrite (g_desc _ Hg). destruct (geom_size _ Hg) as ([E|[E|E]] & _); rewrite E; vm_compute; discriminate. }
  pose proof (Z.div_pos g (desc_per_block i) ltac:(lia) ltac:(lia)).
  pose proof (Z.div_le_upper_bound g (desc_per_block i) g ltac:(lia) ltac:(nia)). lia.
Qed.

Lemma write_group_desc_ok s g : geom (sb s) -> sectors_ok (disk s) -> faults s = [] ->
  0 <= g < nr_groups (sb s) -> db (sb s) g < blocks_count (sb s) ->
  ext2_write_group_desc g s =
    (Ok tt, put_block (db (sb s) g)
      (memcpy_at (blk s (db (sb s) g)) ((g mod desc_per_block (sb s)) * DESC_SIZE) (group_of (sb s) g) DESC_SIZE) s).
Proof.
  intros Hg Hd Hf Hgr Hdb. pose proof (db_bounds _ g Hg ltac:(lia)).
  pose proof (blocks_count_bound _ Hg). unfold ext2_write_group_desc, bind, get_sb.
  rewrite Z.geb_leb, (proj2 (Z.leb_gt _ _)) by lia. fold (db (sb s) g).
  rewrite u32_small by lia. unfold kmalloc, next_fault. rewrite Hf. cbv beta iota.
  set (s1 := set_bufs (bufs s + 1) s).
  unfold try.
  rewrite (read_block_ok s1 Hg _ Hf (conj (Z.lt_le_incl _ _ (proj1 H)) Hdb)). cbv beta iota.
  rewrite (write_block_ok s1 Hg _ _ Hf (conj (Z.lt_le_incl _ _ (proj1 H)) Hdb)). cbv beta iota.
  cbv [kfree modify lift put_block set_dirty set_disk set_bufs s1]. cbn [disk sb s_sem s_dirty bufs faults].
  by rewrite Z.add_simpl_r.
Qed.

Section flip.
Context (s : fs) (F : gset Z).
Hypothesis Ha : abs s F.
Hypothesis Hf : faults s = [].
Context (g bit : Z).
Hypothesis Hgr : 0 <= g < nr_groups (sb s).
Hypothesis Hbit : 0 <= bit < ext2_group_blocks (sb s) g.

Let b : Z := start (sb s) g + bit.
Let used : bool := test_bit bit (bitmap_of s g).
Let bitmap' : list Z := if used then clear_bit bit (bitmap_of s g) else set_bit bit (bitmap_of s g).
Let d : Z := if used then 1 else -1.
Let s' : fs := commit g bitmap' d s.

Lemma bitmap_len h : zlength (bitmap_of s h) = block_size (sb s).
Proof. apply length_blk; [exact (a_geom _ _ Ha)|exact (a_disk _ _ Ha)]. Qed.

Lemma bit_in_bitmap : 0 <= bit < 8 * zlength (bitmap_of s g).
Proof.
  rewrite bitmap_len. pose proof (g_bpg _ (a_geom _ _ Ha)).
  destruct (group_blocks_eq _ (a_geom _ _ Ha) g Hgr). lia.
Qed.

Lemma bitmap'_len : zlength bitmap' = block_size (sb s).
Proof.
  rewrite <- (bitmap_len g). unfold bitmap', zlength.
  destruct used; [by rewrite length_clear_bit|by rewrite length_set_bit].
Qed.

Lemma bitmap'_u8 : Forall is_u8 bitmap'.
Proof.
  assert (Hu : Forall is_u8 (bitmap_of s g)) by (apply blk_u8; exact (a_disk _ _ Ha)).
  unfold bitmap'. destruct used; [by apply clear_bit_u8|by apply set_bit_u8].
Qed.

Lemma bitmap'_bits k : 0 <= k -> test_bit k bitmap' = if decide (k = bit) then negb used else test_bit k (bitmap_of s g).
Proof.
  intros Hk. pose proof bit_in_bitmap. unfold bitmap'.
  destruct used; [by rewrite test_clear_bit|by rewrite test_set_bit].
Qed.

Lemma old_count : ext2_read16 (group_of (sb s) g) bg_free_blocks_count = free_in_group s g.
Proof. by apply a_counts with F. Qed.

Lemma new_count_eq : clear_bits bitmap' (ext2_group_blocks (sb s) g) = free_in_group s g + d.
Proof.
  unfold free_in_group. rewrite (clear_bits_flip (bitmap_of s g) bitmap' _ bit Hbit).
  - done.
  - intros i Hi Hne. by rewrite bitmap'_bits, decide_False by done.
  - rewrite bitmap'_bits by lia. by rewrite decide_True.
Qed.

Lemma new_count_range : 0 <= free_in_group s g + d < 2 ^ 16.
Proof.
  rewrite <- new_count_eq. pose proof (bpg_bound _ (a_geom _ _ Ha)).
  destruct (group_blocks_eq _ (a_geom _ _ Ha) g Hgr).
  pose proof (clear_bits_range bitmap' (ext2_group_blocks (sb s) g)). lia.
Qed.

Let desc' : list Z := ext2_write16 (group_of (sb s) g) bg_free_blocks_count (free_in_group s g + d).

Lemma desc'_ok : zlength desc' = DESC_SIZE /\ Forall is_u8 desc'.
Proof.
  destruct (a_desc _ _ Ha g Hgr) as [Hl Hu]. unfold desc', bg_free_blocks_count, DESC_SIZE in *. split.
  - unfold zlength. rewrite length_write16 by lia. done.
  - apply write16_u8; [lia|lia|done].
Qed.

Lemma group_of_commit h : 0 <= h < nr_groups (sb s) ->
  group_of (sb s') h = if decide (h = g) then desc' else group_of (sb s) h.
Proof.
  intros Hh. unfold s', commit, put_block, count_blocks, group_of, set_group. cbn [sb set_dirty set_disk set_sb
    set_free_blocks set_group_desc group_desc].
  change (default [] (group_desc (sb s) !! Z.to_nat g)) with (group_of (sb s) g). rewrite old_count. fold desc'.
  pose proof (a_len _ _ Ha) as Hl. unfold zlength in Hl. destruct (decide (h = g)) as [->|Hne].
  - rewrite list_lookup_insert_eq by lia. done.
  - rewrite list_lookup_insert_ne by lia. done.
Qed.

Lemma bm_commit h : 0 <= h < nr_groups (sb s) -> bm (sb s') h = bm (sb s) h.
Proof.
  intros Hh. unfold bm. rewrite group_of_commit by done. destruct (decide (h = g)) as [->|]; [|done].
  destruct (a_desc _ _ Ha g Hgr) as [Hl _]. unfold desc', ext2_read32, bg_block_bitmap, bg_free_blocks_count, DESC_SIZE in *.
  apply read32_write16; lia.
Qed.

(** The state between the writes of the bitmap and of the descriptor. *)
Let s1 : fs := count_blocks g d (put_block (bm (sb s) g) bitmap' s).

Lemma s1_ok : geom (sb s1) /\ sectors_ok (disk s1) /\ group_of (sb s1) g = desc' /\
  forall c, 0 <= c -> blk s1 c = if decide (c = bm (sb s) g) then bitmap' else blk s c.
Proof.
  pose proof (a_geom _ _ Ha) as Hg. pose proof (a_disk _ _ Ha) as Hd. pose proof (a_bm _ _ Ha g Hgr) as Hb.
  split; [by destruct Hg|]. split; [|split].
  - apply (put_block_ok s Hg Hd); [lia|apply bitmap'_len|apply bitmap'_u8].
  - pose proof (group_of_commit g Hgr) as E. rewrite decide_True in E by done. exact E.
  - intros c Hc. apply (blk_put s Hg); [lia|done|apply bitmap'_len].
Qed.

(** The blocks after the change. *)
Lemma commit_blk c : 0 <= c ->
  blk s' c = if decide (c = db (sb s) g)
             then memcpy_at (blk s c) ((g mod desc_per_block (sb s)) * DESC_SIZE) desc' DESC_SIZE
             else if decide (c = bm (sb s) g) then bitmap' else blk s c.
Proof.
  intros Hc. pose proof (a_geom _ _ Ha) as Hg. pose proof (a_disk _ _ Ha) as Hd.
  pose proof (db_bounds _ g Hg ltac:(lia)) as Hdb. destruct (desc_index _ g Hg ltac:(lia)) as [Hi1 Hi2].
  destruct s1_ok as (H1 & H2 & H3 & H4). destruct desc'_ok as [Hdl Hdu].
  pose proof (length_blk s Hg Hd (db (sb s) g)) as Hlb. pose proof (a_apart _ _ Ha g g Hgr Hgr) as Hap.
  change s' with (put_block (db (sb s) g) (memcpy_at (blk s1 (db (sb s) g)) ((g mod desc_per_block (sb s)) * DESC_SIZE) (group_of (sb s1) g) DESC_SIZE) s1).
  rewrite (blk_put s1 H1 (db (sb s) g)); [|lia|done|].
  - rewrite H3, !H4 by lia. rewrite (decide_False (P := db (sb s) g = bm (sb s) g)) by congruence.
    by destruct (decide (c = db (sb s) g)) as [->|].
  - unfold zlength at 1. rewrite H3, H4, decide_False by (lia || congruence).
    unfold DESC_SIZE in *. rewrite length_memcpy_at by lia. exact Hlb.
Qed.

Lemma commit_disk : sectors_ok (disk s').
Proof.
  pose proof (a_geom _ _ Ha) as Hg. pose proof (a_disk _ _ Ha) as Hd.
  pose proof (db_bounds _ g Hg ltac:(lia)) as Hdb. destruct (desc_index _ g Hg ltac:(lia)) as [Hi1 Hi2].
  destruct s1_ok as (H1 & H2 & H3 & H4). destruct desc'_ok as [Hdl Hdu].
  pose proof (length_blk s1 H1 H2 (db (sb s) g)) as Hlb. change (block_size (sb s1)) with (block_size (sb s)) in Hlb.
  apply (put_block_ok s1 H1 H2); [lia| |].
  - unfold zlength at 1. change (block_size (sb s1)) with (block_size (sb s)). fold s1. rewrite H3. unfold DESC_SIZE in *.
    rewrite length_memcpy_at by lia. exact Hlb.
  - fold s1. rewrite H3. unfold memcpy_at. repeat apply Forall_app_2; try apply Forall_take; try apply Forall_drop;
      try done; by apply blk_u8.
Qed.

(** The bitmaps after the change. *)
Lemma bitmap_commit h : 0 <= h < nr_groups (sb s) ->
  bitmap_of s' h = if decide (h = g) then bitmap' else bitmap_of s h.
Proof.
  intros Hh. pose proof (a_bm _ _ Ha h Hh). unfold bitmap_of. rewrite bm_commit, commit_blk by (done || lia).
  rewrite (decide_False (P := bm (sb s) h = db (sb s) g)) by (by apply (a_apart _ _ Ha)).
  destruct (decide (h = g)) as [->|Hne]; [by rewrite decide_True|].
  rewrite decide_False; [done|]. intros E. apply Hne. by apply (a_inj _ _ Ha).
Qed.

Lemma free_in_group_commit h : 0 <= h < nr_groups (sb s) ->
  free_in_group s' h = free_in_group s h + if decide (h = g) then d else 0.
Proof.
  intros Hh. unfold free_in_group. rewrite bitmap_commit by done.
  change (ext2_group_blocks (sb s') h) with (ext2_group_blocks (sb s) h).
  destruct (decide (h = g)) as [->|]; [exact new_count_eq|lia].
Qed.

Lemma sync_commit h : 0 <= h < nr_groups (sb s) ->
  sub_bytes (blk s' (db (sb s) h)) ((h mod desc_per_block (sb s)) * DESC_SIZE) DESC_SIZE = group_of (sb s') h.
Proof.
  intros Hh. pose proof (a_geom _ _ Ha) as Hg. destruct desc'_ok as [Hdl _].
  pose proof (db_bounds _ h Hg ltac:(lia)) as Hdb.
  destruct (desc_index _ g Hg ltac:(lia)) as [Hi1 Hi2]. destruct (desc_index _ h Hg ltac:(lia)) as [Hj1 Hj2].
  pose proof (length_blk s Hg (a_disk _ _ Ha) (db (sb s) h)) as Hlb.
  rewrite group_of_commit, commit_blk by (done || lia). unfold DESC_SIZE in *.
  destruct (decide (h = g)) as [->|Hne].
  - rewrite decide_True, sub_bytes_memcpy by (done || lia). apply take_ge. unfold zlength in Hdl. lia.
  - destruct (decide (db (sb s) h = db (sb s) g)) as [E|].
    + rewrite sub_bytes_memcpy_ne; try lia; [by apply (a_sync _ _ Ha)|].
      assert (h mod desc_per_block (sb s) <> g mod desc_per_block (sb s)); [|lia].
      intros Em. apply Hne. unfold db in E.
      rewrite (Z.div_mod h (desc_per_block (sb s))), (Z.div_mod g (desc_per_block (sb s))), Em;
        [f_equal; f_equal; lia| |];
        rewrite (g_desc _ Hg); destruct (geom_size _ Hg) as ([E'|[E'|E']] & _); rewrite E'; done.
    + rewrite decide_False by (intros E; by apply (a_apart _ _ Ha g h)).
      by apply (a_sync _ _ Ha).
Qed.

Lemma total_commit : u32 (free_blocks_count (sb s) + d) = sumZ (free_in_group s') (seqZ 0 (nr_groups (sb s))).
Proof.
  assert (E : sumZ (free_in_group s') (seqZ 0 (nr_groups (sb s))) = free_blocks_count (sb s) + d).
  { rewrite (a_total _ _ Ha), (sumZ_update (free_in_group s) _ _ g).
    - rewrite free_in_group_commit, decide_True by done. lia.
    - apply NoDup_seqZ.
    - apply elem_of_seqZ. lia.
    - intros h Hh%elem_of_seqZ Hne. rewrite free_in_group_commit, decide_False by (done || lia). lia. }
  rewrite E. pose proof (free_count_bound _ _ Ha). apply u32_small. split; [|unfold d; destruct used; lia].
  rewrite <- E. assert (Hall : forall l, (forall h, h ∈ l -> 0 <= h < nr_groups (sb s)) -> 0 <= sumZ (free_in_group s') l).
  { induction l as [|h l IH]; intros Hl; [done|]. cbn [sumZ foldr]. unfold sumZ in IH.
    assert (0 <= free_in_group s' h).
    { apply clear_bits_range. change (ext2_group_blocks (sb s') h) with (ext2_group_blocks (sb s) h).
      destruct (group_blocks_eq _ (a_geom _ _ Ha) h (Hl h ltac:(by left))). lia. }
    specialize (IH (fun h' Hh' => Hl h' (list_elem_of_further _ _ _ Hh'))). lia. }
  apply Hall. intros h Hh%elem_of_seqZ. lia.
Qed.

Lemma is_free_commit c : is_free s' c <-> if decide (c = b) then used = true else is_free s c.
Proof.
  pose proof (a_geom _ _ Ha) as Hg. destruct (group_in_blocks _ Hg g bit Hgr Hbit) as (Hr & Eg & Eb).
  unfold is_free. change (first_data_block (sb s')) with (first_data_block (sb s)).
  change (blocks_count (sb s')) with (blocks_count (sb s)).
  change (bit_of_block (sb s') c) with (bit_of_block (sb s) c).
  change (group_of_block (sb s') c) with (group_of_block (sb s) c).
  destruct (decide (c = b)) as [->|Hne].
  - fold b in Eg, Eb, Hr. rewrite Eg, Eb, bitmap_commit, decide_True by done.
    rewrite bitmap'_bits, decide_True by (done || lia). rewrite negb_false_iff. tauto.
  - split; intros [Hc Ht]; (split; [done|]); destruct (block_in_group _ Hg c Hc) as (H1 & H2 & H3);
      rewrite bitmap_commit in * by done;
      (destruct (decide (group_of_block (sb s) c = g)) as [Ec|]; [|done]);
      rewrite Ec in *; rewrite bitmap'_bits, decide_False in * by (lia || (intros E; apply Hne; unfold b; lia)); done.
Qed.

Lemma meta_commit c : meta (sb s') c <-> meta (sb s) c.
Proof.
  unfold meta. change (nr_groups (sb s')) with (nr_groups (sb s)).
  change (first_data_block (sb s')) with (first_data_block (sb s)).
  split; (intros [?|(h & Hh & Hc)]; [by left|right]); exists h; rewrite bm_commit in * by done; done.
Qed.

Lemma flip_abs : (used = true -> ~ meta (sb s) b) ->
  abs s' (if used then {[b]} ∪ F else F ∖ {[b]}).
Proof.
  intros Hm. pose proof (a_geom _ _ Ha) as Hg. pose proof Ha as [].
  constructor; try change (nr_groups (sb s')) with (nr_groups (sb s)).
  - by destruct Hg.
  - exact commit_disk.
  - done.
  - unfold s', commit, put_block, count_blocks, set_group. cbn [sb set_dirty set_disk set_sb set_free_blocks set_group_desc group_desc].
    unfold zlength. by rewrite length_insert.
  - intros h Hh. rewrite group_of_commit by done. destruct (decide (h = g)); [exact desc'_ok|auto].
  - intros h Hh. rewrite bm_commit by done. by apply a_bm0.
  - intros h Hh. by apply a_db0.
  - intros h h' Hh Hh'. rewrite !bm_commit by done. auto.
  - intros h h' Hh Hh'. rewrite bm_commit by done. by apply a_apart0.
  - exact sync_commit.
  - intros h Hh. rewrite group_of_commit, free_in_group_commit by done.
    destruct (decide (h = g)) as [->|]; [|rewrite Z.add_0_r; auto].
    destruct (a_desc0 g Hgr) as [Hl _]. unfold desc', ext2_read16, bg_free_blocks_count, DESC_SIZE in *.
    apply read_write16; [lia|lia|exact new_count_range].
  - exact total_commit.
  - intros c. rewrite is_free_commit. destruct used eqn:Eu; destruct (decide (c = b)) as [->|].
    + set_solver.
    + rewrite elem_of_union, elem_of_singleton. rewrite <- a_free0. tauto.
    + set_solver.
    + rewrite elem_of_difference, elem_of_singleton. rewrite <- a_free0. tauto.
  - intros c Hc%meta_commit. destruct used eqn:Eu; [|set_solver].
    rewrite elem_of_union, elem_of_singleton. intros [->|?]; [by apply Hm|]. by apply (a_meta0 c).
Qed.

Lemma b_range : 0 <= b < 2 ^ 32.
Proof.
  pose proof (a_geom _ _ Ha) as Hg. destruct (group_in_blocks _ Hg g bit Hgr Hbit) as (Hr & _).
  fold b in Hr. pose proof (blocks_count_bound _ Hg). pose proof (first_block_range _ Hg). lia.
Qed.

Lemma write_desc_commit : ext2_write_group_desc g s1 = (Ok tt, s').
Proof.
  destruct s1_ok as (H1 & H2 & _).
  rewrite (write_group_desc_ok s1 g H1 H2 Hf Hgr); [done|]. by apply (a_db _ _ Ha).
Qed.

Lemma alloc_bit_ok : used = false ->
  alloc_bit g (start (sb s) g) (bm (sb s) g) bit (bitmap_of s g) s = (Ok b, s').
Proof.
  intros Hu. pose proof (a_geom _ _ Ha) as Hg. pose proof (a_bm _ _ Ha g Hgr).
  unfold alloc_bit. unfold bind at 1, try.
  rewrite (write_block_ok s Hg) by done. cbv beta iota.
  unfold bind at 1, modify. cbv beta iota. unfold bind, ret.
  assert (E : count_blocks g (-1) (put_block (bm (sb s) g) (set_bit bit (bitmap_of s g)) s) = s1).
  { unfold s1, d, bitmap'. by rewrite Hu. }
  rewrite E, write_desc_commit. fold b. by rewrite u32_small by exact b_range.
Qed.

Lemma free_bit_ok : used = true -> free_bit g bit s = (Ok tt, s').
Proof.
  intros Hu. pose proof (a_geom _ _ Ha) as Hg. pose proof (a_bm _ _ Ha g Hgr).
  unfold free_bit. unfold bind at 1, get_sb. cbv beta iota. fold (bm (sb s) g).
  unfold bind at 1. rewrite (read_block_ok s Hg) by done. cbv beta iota. fold (bitmap_of s g).
  unfold test_and_clear_bit. fold used. rewrite Hu. cbn [negb].
  unfold bind at 1, try. rewrite (write_block_ok s Hg) by done. cbv beta iota.
  unfold bind, modify.
  assert (E : count_blocks g 1 (put_block (bm (sb s) g) (clear_bit bit (bitmap_of s g)) s) = s1).
  { unfold s1, d, bitmap'. by rewrite Hu. }
  rewrite E. exact write_desc_commit.
Qed.

Lemma free_bit_double : used = false -> free_bit g bit s = (Er (- EIO), s).
Proof.
  intros Hu. pose proof (a_geom _ _ Ha) as Hg. pose proof (a_bm _ _ Ha g Hgr).
  unfold free_bit. unfold bind at 1, get_sb. cbv beta iota. fold (bm (sb s) g).
  unfold bind at 1. rewrite (read_block_ok s Hg) by done. cbv beta iota. fold (bitmap_of s g).
  unfold test_and_clear_bit. fold used. by rewrite Hu.
Qed.

(** Blocks that hold no metadata are not written. *)
Lemma commit_frame c : 0 <= c -> ~ meta (sb s) c -> blk s' c = blk s c.
Proof.
  intros Hc Hm. rewrite commit_blk by done. rewrite !decide_False; [done| |].
  - intros ->. apply Hm. right. exists g. tauto.
  - intros ->. apply Hm. right. exists g. tauto.
Qed.

End flip.

(** ** The search for a group *)

(** The [j]-th group of the search. *)
Definition probe (i : sb_info) (fg j : Z) : Z := u32 (fg + j) mod nr_groups i.

(** The lowest free block of a group. *)
Definition first_free_in (s : fs) (F : gset Z) (g b : Z) : Prop :=
  b ∈ F /\ group_of_block (sb s) b = g /\ forall c, c ∈ F -> group_of_block (sb s) c = g -> b <= c.

Definition same_layout (i i' : sb_info) : Prop :=
  block_size i' = block_size i /\ first_data_block i' = first_data_block i /\
  blocks_count i' = blocks_count i /\ forall c, meta i' c <-> meta i c.

Definition unchanged_outside (s s' : fs) : Prop :=
  (forall c, 0 <= c -> ~ meta (sb s) c -> blk s' c = blk s c) /\
  faults s' = faults s /\ bufs s' = bufs s /\ s_sem s' = s_sem s /\ same_layout (sb s) (sb s').

Lemma alloc_loop_ok s F fg : abs s F -> faults s = [] -> forall n k,
  (exists j b s', k <= j < k + Z.of_nat n /\ alloc_loop n k fg s = (Ok b, s') /\
     (forall j', k <= j' < j -> forall c, group_of_block (sb s) c = probe (sb s) fg j' -> c ∉ F) /\
     first_free_in s F (probe (sb s) fg j) b /\ abs s' (F ∖ {[b]}) /\ unchanged_outside s s') \/
  (alloc_loop n k fg s = (Er (- ENOSPC), s) /\
   forall j', k <= j' < k + Z.of_nat n -> forall c, group_of_block (sb s) c = probe (sb s) fg j' -> c ∉ F).
Proof.
  intros Ha Hf. pose proof (a_geom _ _ Ha) as Hg. induction n as [|n IH]; intros k.
  { right. split; [done|]. intros; lia. }
  assert (Hgr : 0 <= probe (sb s) fg k < nr_groups (sb s)) by (apply Z.mod_pos_bound, nr_groups_pos, Hg).
  cbn [alloc_loop]. unfold bind at 1 3, get_sb. cbv beta iota zeta.
  fold (probe (sb s) fg k). set (g := probe (sb s) fg k) in *.
  destruct (group_blocks_eq _ Hg g Hgr) as [_ Hcount].
  rewrite (proj2 (Z.eqb_neq _ _)) by lia. rewrite (a_counts _ _ Ha g Hgr), group_start_eq by done.
  destruct (Z.eqb_spec (free_in_group s g) 0) as [E0|E0].
  - pose proof (proj1 (free_in_group_zero s F g Ha Hgr) E0) as Hnone.
    assert (Hext : forall m, (forall j', k + 1 <= j' < m -> forall c, group_of_block (sb s) c = probe (sb s) fg j' -> c ∉ F) ->
      forall j', k <= j' < m -> forall c, group_of_block (sb s) c = probe (sb s) fg j' -> c ∉ F).
    { intros m Hm j' Hj' c Hc. destruct (decide (j' = k)) as [->|]; [by apply Hnone|].
      apply (Hm j'); [lia|done]. }
    destruct (IH (k + 1)) as [(j & b & s' & Hj & E & Hbefore & Hrest)|[E Hbefore]]; rewrite E.
    + left. exists j, b, s'. split; [lia|]. split; [done|]. split; [by apply Hext|done].
    + right. split; [done|]. replace (k + Z.of_nat (S n)) with (k + 1 + Z.of_nat n) by lia. by apply Hext.
  - left. fold (bm (sb s) g). unfold bind. rewrite (read_block_ok s Hg _ Hf (a_bm _ _ Ha g Hgr)).
    fold (bitmap_of s g).
    destruct (find_first_zero_bit_spec (bitmap_of s g) (ext2_group_blocks (sb s) g)) as [[_ Hall]|(Hr & Hclear & Hlow)].
    { apply blk_u8, (a_disk _ _ Ha). }
    { pose proof (bpg_bound _ Hg). lia. }
    { destruct E0. unfold free_in_group. by apply clear_bits_zero. }
    set (bit := find_first_zero_bit _ _) in *. clearbody bit.
    rewrite (proj2 (Z.ltb_ge _ _)) by lia.
    pose proof (flip_abs s F Ha Hf g bit Hgr Hr) as Hflip. rewrite Hclear in Hflip. specialize (Hflip ltac:(done)).
    pose proof (alloc_bit_ok s F Ha Hf g bit Hgr Hr Hclear) as E. rewrite Hclear in E. rewrite E.
    destruct (group_in_blocks _ Hg g bit Hgr Hr) as (Hrange & Eg & Eb).
    eexists k, _, _. split; [lia|]. split; [done|]. split; [intros; lia|]. split; [|split; [exact Hflip|]].
    + split; [|split; [done|]].
      * apply (a_free _ _ Ha). split; [done|]. by rewrite Eg, Eb.
      * intros c Hc Ec. fold g in Ec. apply (a_free _ _ Ha) in Hc as [Hcr Hct].
        destruct (block_in_group _ Hg c Hcr) as (_ & Hcb & Ecb). rewrite Ec in *.
        destruct (Z.le_gt_cases bit (bit_of_block (sb s) c)); [lia|].
        rewrite Hlow in Hct by lia. done.
    + pose proof (commit_frame s F Ha g bit Hgr Hr) as Hfr. pose proof (meta_commit s F Ha g bit Hgr) as Hme.
      rewrite Hclear in Hfr, Hme. by repeat split; try apply Hfr; try apply Hme.
Qed.

Lemma first_group_range i goal : geom i -> 0 <= first_group i goal < nr_groups i.
Proof.
  intros Hg. pose proof (nr_groups_pos _ Hg). pose proof (bpg_bound _ Hg). unfold first_group.
  set (g := if goal >=? first_data_block i then _ else _). destruct (Z.geb_spec g (nr_groups i)); [lia|]. split; [|lia].
  unfold g. destruct (_ >=? _); [|lia]. apply Z.div_pos; [apply u32_range|lia].
Qed.

Lemma first_group_goal i goal : geom i -> first_data_block i <= goal < blocks_count i ->
  first_group i goal = group_of_block i goal.
Proof.
  intros Hg Hgoal. destruct (block_in_group _ Hg goal Hgoal) as (Hr & _).
  pose proof (blocks_count_bound _ Hg). pose proof (first_block_range _ Hg).
  unfold first_group. cbv zeta. rewrite (Z.geb_leb goal), (proj2 (Z.leb_le (first_data_block i) goal)) by lia.
  rewrite (u32_small (goal - _)) by lia. fold (group_of_block i goal).
  by rewrite Z.geb_leb, (proj2 (Z.leb_gt _ _)) by lia.
Qed.

Lemma probe_zero i fg : geom i -> 0 <= fg < nr_groups i -> probe i fg 0 = fg.
Proof.
  intros Hg Hfg. pose proof (nr_groups_bound _ Hg). unfold probe.
  by rewrite Z.add_0_r, u32_small, Z.mod_small by lia.
Qed.

(** The search visits every group. *)
Lemma probe_all i fg g : geom i -> 0 <= fg < nr_groups i -> 0 <= g < nr_groups i ->
  exists j, 0 <= j < nr_groups i /\ probe i fg j = g.
Proof.
  intros Hg Hfg Hgr. pose proof (nr_groups_bound _ Hg). unfold probe.
  destruct (Z.le_gt_cases fg g).
  - exists (g - fg). split; [lia|]. replace (fg + (g - fg)) with g by lia.
    by rewrite u32_small, Z.mod_small by lia.
  - exists (nr_groups i + g - fg). split; [lia|]. replace (fg + (nr_groups i + g - fg)) with (g + 1 * nr_groups i) by lia.
    by rewrite u32_small, Z.mod_add, Z.mod_small by lia.
Qed.

(** Consistency does not depend on the semaphore, the buffers and the dirty flag. *)
Lemma abs_ext s s' F : disk s' = disk s -> sb s' = sb s -> abs s F -> abs s' F.
Proof. destruct s, s'. cbn. intros -> -> []. by constructor. Qed.

(** [run_section]: what a critical section with a buffer does when nothing fails. *)
Definition enter (s : fs) : fs := set_sem true (set_bufs (bufs s + 1) s).
Definition leave (s : fs) : fs := set_bufs (bufs s - 1) (set_sem false s).

Lemma run_section {A} (m : M A) s : faults s = [] ->
  (kmalloc ;~ down ;~ r <~ try m ;; up ;~ kfree ;~ lift r) s = ((m (enter s)).1, leave (m (enter s)).2).
Proof.
  intros Hf. unfold bind, kmalloc, next_fault. rewrite Hf. cbn. unfold try, enter.
  by destruct (m _).
Qed.

Lemma leave_enter s : s_sem s = false -> leave (enter s) = s.
Proof. destruct s. cbn. intros ->. unfold leave, enter, set_bufs, set_sem. cbn. by rewrite Z.add_simpl_r. Qed.

(** Writing a block that holds no metadata keeps the file system consistent. *)
Lemma abs_put s F c buf : abs s F -> 0 <= c -> ~ meta (sb s) c ->
  zlength buf = block_size (sb s) -> Forall is_u8 buf -> abs (put_block c buf s) F.
Proof.
  intros Ha Hc Hm Hl Hu. pose proof (a_geom _ _ Ha) as Hg. pose proof (a_disk _ _ Ha) as Hd.
  assert (Hblk : forall b, 0 <= b -> meta (sb s) b -> blk (put_block c buf s) b = blk s b).
  { intros b Hb Hmb. rewrite (blk_put s Hg) by done. rewrite decide_False; [done|]. by intros ->. }
  assert (Hbm : forall g, 0 <= g < nr_groups (sb s) -> bitmap_of (put_block c buf s) g = bitmap_of s g).
  { intros g Hgr. apply Hblk; [by apply (a_bm _ _ Ha)|]. right. exists g. tauto. }
  assert (Hfree : forall g, 0 <= g < nr_groups (sb s) -> free_in_group (put_block c buf s) g = free_in_group s g).
  { intros g Hgr. unfold free_in_group. by rewrite Hbm. }
  assert (Hok : sectors_ok (disk (put_block c buf s))) by (by apply put_block_ok).
  destruct Ha. constructor; try done.
  - intros g Hgr. change (sb (put_block c buf s)) with (sb s) in *. rewrite Hblk; [by apply a_sync0| |].
    + pose proof (db_bounds _ g Hg). lia.
    + right. exists g. tauto.
  - intros g Hgr. rewrite Hfree by done. by apply a_counts0.
  - change (sb (put_block c buf s)) with (sb s) in *. rewrite a_total0.
    assert (Hs : forall l, (forall g, g ∈ l -> 0 <= g < nr_groups (sb s)) ->
      sumZ (free_in_group s) l = sumZ (free_in_group (put_block c buf s)) l).
    { induction l as [|g l IH]; intros Hin; [done|]. cbn [sumZ foldr]. unfold sumZ in IH.
      rewrite IH by (intros; apply Hin; by right). by rewrite Hfree by (apply Hin; by left). }
    apply Hs. intros g Hgr%elem_of_seqZ. lia.
  - intros b. rewrite a_free0. unfold is_free. change (sb (put_block c buf s)) with (sb s).
    split; intros [Hr Ht]; (split; [done|]); destruct (block_in_group _ Hg b Hr) as (Hgr & _);
      rewrite Hbm in * by done; done.
Qed.

(** ** A small file system

    40 blocks of 1 KiB in three groups of 16 blocks; blocks 1 to 5 hold the
    superblock, the descriptors and the three bitmaps. *)

Definition ex_desc (bitmap free : Z) : list Z :=
  ext2_write16 (ext2_write32 (replicate 32 0) bg_block_bitmap bitmap) bg_free_blocks_count free.
Definition ex_descs : list (list Z) := [ex_desc 3 11; ex_desc 4 16; ex_desc 5 7].
Definition ex_block (b : Z) : list Z :=
  if b =? 2 then concat ex_descs ++ replicate 928 0
  else if b =? 3 then 31 :: replicate 1023 0
  else replicate 1024 0.
Definition ex_disk (x : Z) : list Z := sub_bytes (ex_block (x / 2)) ((x mod 2) * 512) 512.
Definition ex_sb : sb_info := mksb 1024 1 40 0 34 0 16 0 3 128 32 ex_descs false.
Definition ex_fs : fs := mkfs ex_disk ex_sb false false 0 [].
Definition ex_free : gset Z := list_to_set (seqZ 6 34).

Lemma ex_geom : geom ex_sb.
Proof. constructor; [by exists 0|..]; vm_compute; repeat split; discriminate. Qed.

Lemma ex_block_ok b : length (ex_block b) = 1024%nat /\ Forall is_u8 (ex_block b).
Proof.
  assert (Hb : forallb (fun l => (Nat.eqb (length l) 1024) && forallb (fun x => (0 <=? x) && (x <? 256)) l)
    [ex_block 2; ex_block 3; ex_block 0] = true) by (vm_compute; reflexivity).
  cbn [forallb] in Hb. rewrite !andb_true_iff in Hb. destruct Hb as ([H2 U2] & [H3 U3] & [H0 U0] & _).
  assert (Hu : forall l, forallb (fun x => (0 <=? x) && (x <? 256)) l = true -> Forall is_u8 l).
  { intros l Hl. apply Forall_forall. intros x Hx. rewrite forallb_forall in Hl.
    specialize (Hl x (proj1 (list_elem_of_In _ _) Hx)). unfold is_u8. lia. }
  unfold ex_block at 1 2. destruct (Z.eqb_spec b 2) as [->|]; [split; [by apply Nat.eqb_eq|by apply Hu]|].
  destruct (Z.eqb_spec b 3) as [->|]; [split; [by apply Nat.eqb_eq|by apply Hu]|].
  split; [by apply Nat.eqb_eq|by apply Hu].
Qed.

Lemma ex_disk_ok : sectors_ok ex_disk.
Proof.
  intros x. unfold ex_disk. destruct (ex_block_ok (x / 2)) as [Hl Hu]. unfold sub_bytes. split.
  - rewrite length_take, length_drop, Hl. pose proof (Z.mod_pos_bound x 2 ltac:(lia)). lia.
  - by apply Forall_take, Forall_drop.
Qed.

Lemma three (P : Z -> Prop) : P 0 -> P 1 -> P 2 -> forall g, 0 <= g < 3 -> P g.
Proof. intros H0 H1 H2 g Hg. assert (g = 0 \/ g = 1 \/ g = 2) as [-> | [-> | ->]] by lia; done. Qed.

Lemma three_cases g : 0 <= g < 3 -> g = 0 \/ g = 1 \/ g = 2.
Proof. lia. Qed.

Lemma ex_is_free b : b ∈ ex_free <-> is_free ex_fs b.
Proof.
  unfold ex_free. rewrite elem_of_list_to_set, elem_of_seqZ.
  assert (Hall : forallb (fun b => eqb (6 <=? b)
    (negb (test_bit (bit_of_block ex_sb b) (bitmap_of ex_fs (group_of_block ex_sb b))))) (seqZ 1 39) = true)
    by (vm_compute; reflexivity).
  rewrite forallb_forall in Hall. unfold is_free.
  change (sb ex_fs) with ex_sb. change (first_data_block ex_sb) with 1. change (blocks_count ex_sb) with 40.
  assert (Hb : 1 <= b < 40 -> test_bit (bit_of_block ex_sb b) (bitmap_of ex_fs (group_of_block ex_sb b)) = negb (6 <=? b)).
  { intros Hr. specialize (Hall b). rewrite <- list_elem_of_In, elem_of_seqZ in Hall.
    specialize (Hall ltac:(lia)). apply eqb_prop in Hall. rewrite Hall. by rewrite negb_involutive. }
  split; [intros Hr|intros [Hr Ht]].
  - split; [lia|]. rewrite Hb by lia. apply negb_false_iff. lia.
  - rewrite Hb in Ht by lia. apply negb_false_iff in Ht. lia.
Qed.

Lemma ex_abs : abs ex_fs ex_free.
Proof.
  constructor; try change (nr_groups (sb ex_fs)) with 3.
  - exact ex_geom.
  - exact ex_disk_ok.
  - done.
  - done.
  - apply three; (split; [reflexivity|]); apply Forall_forall; intros x Hx;
      apply list_elem_of_In in Hx; vm_compute in Hx; unfold is_u8; intuition lia.
  - apply three; vm_compute; (split; [discriminate|reflexivity]).
  - apply three; vm_compute; reflexivity.
  - intros g g' Hg Hg'. destruct (three_cases g Hg) as [-> | [-> | ->]];
      destruct (three_cases g' Hg') as [-> | [-> | ->]]; vm_compute; discriminate || reflexivity.
  - intros g g' Hg Hg'. destruct (three_cases g Hg) as [-> | [-> | ->]];
      destruct (three_cases g' Hg') as [-> | [-> | ->]]; vm_compute; discriminate.
  - apply three; vm_compute; reflexivity.
  - apply three; vm_compute; reflexivity.
  - vm_compute. reflexivity.
  - exact ex_is_free.
  - intros b Hb Hin. unfold ex_free in Hin. rewrite elem_of_list_to_set, elem_of_seqZ in Hin.
    destruct Hb as [-> |(g & Hg & Hb)]; [vm_compute in Hin; intuition lia|]. revert g Hg Hb. apply (three (fun g => b = bm (sb ex_fs) g \/ b = db (sb ex_fs) g -> False));
      vm_compute; intros [-> | ->]; lia.
Qed.

(** ** Properties *)

Lemma ext2_alloc_block_spec s F goal : abs s F -> faults s = [] -> s_sem s = false ->
  match ext2_alloc_block goal s with
  | (Er e, s') => e = - ENOSPC /\ F = ∅ /\ s' = s
  | (Ok b, s') => b ∈ F /\ abs s' (F ∖ {[b]}) /\ unchanged_outside s s' /\
      (first_data_block (sb s) <= goal < blocks_count (sb s) ->
       (exists c, c ∈ F /\ group_of_block (sb s) c = group_of_block (sb s) goal) ->
       first_free_in s F (group_of_block (sb s) goal) b)
  end.
Proof.
  intros Ha Hf Hs. pose proof (a_geom _ _ Ha) as Hg.
  unfold ext2_alloc_block. unfold bind at 1, get_sb. cbv beta iota. rewrite (a_rw _ _ Ha).
  destruct (Z.eqb_spec (free_blocks_count (sb s)) 0) as [E0|E0].
  { cbn. split; [done|]. split; [|done]. by apply (no_free_blocks s F Ha). }
  rewrite run_section by done. set (fg := first_group (sb s) goal).
  pose proof (first_group_range _ goal Hg) as Hfg. fold fg in Hfg.
  pose proof (nr_groups_pos _ Hg) as Hpos.
  assert (Ha1 : abs (enter s) F) by (by apply (abs_ext s)).
  destruct (alloc_loop_ok (enter s) F fg Ha1 Hf (Z.to_nat (nr_groups (sb s))) 0)
    as [(j & b & s' & Hj & E & Hbefore & Hfirst & Habs & Hout)|[E Hnone]].
  - rewrite E. cbn [fst snd]. split; [apply Hfirst|]. split; [by apply (abs_ext s')|].
    destruct Hout as (O1 & O2 & O3 & O4 & O5). split.
    + split; [exact O1|]. split; [exact O2|]. split; [|split; [by rewrite Hs|exact O5]].
      cbn. rewrite O3. cbn. lia.
    + intros Hgoal (c & Hc & Ec). rewrite <- (first_group_goal _ goal Hg Hgoal) in Ec |- *. fold fg in Ec |- *.
      destruct (decide (j = 0)) as [->|].
      * change (probe (sb (enter s)) fg 0) with (probe (sb s) fg 0) in Hfirst.
        by rewrite probe_zero in Hfirst.
      * destruct (Hbefore 0 ltac:(lia) c); [|done].
        change (probe (sb (enter s)) fg 0) with (probe (sb s) fg 0). by rewrite probe_zero.
  - exfalso. apply E0, (no_free_blocks s F Ha), set_eq. intros c. split; [|set_solver]. intros Hc.
    destruct (proj1 (a_free _ _ Ha c) Hc) as [Hr _]. destruct (block_in_group _ Hg c Hr) as (Hgr & _).
    destruct (probe_all _ fg _ Hg Hfg Hgr) as (j & Hj & Ej).
    by destruct (Hnone j ltac:(lia) c).
Qed.

Lemma ext2_free_block_spec s F b : abs s F -> faults s = [] -> s_sem s = false ->
  (~ first_data_block (sb s) <= b < blocks_count (sb s) -> ext2_free_block b s = (Er (- EINVAL), s)) /\
  (b ∈ F -> ext2_free_block b s = (Er (- EIO), s)) /\
  (first_data_block (sb s) <= b < blocks_count (sb s) -> b ∉ F -> ~ meta (sb s) b ->
    exists s', ext2_free_block b s = (Ok tt, s') /\ abs s' ({[b]} ∪ F) /\ unchanged_outside s s').
Proof.
  intros Ha Hf Hs. pose proof (a_geom _ _ Ha) as Hg.
  assert (Hin : first_data_block (sb s) <= b < blocks_count (sb s) ->
    ext2_free_block b s = let r := free_bit (group_of_block (sb s) b) (bit_of_block (sb s) b) (enter s) in (r.1, leave r.2)).
  { intros Hr. destruct (block_in_group _ Hg b Hr) as (Hgr & Hbit & Eb).
    pose proof (blocks_count_bound _ Hg). pose proof (first_block_range _ Hg). pose proof (bpg_bound _ Hg).
    pose proof (group_blocks_eq _ Hg _ Hgr).
    unfold ext2_free_block. unfold bind at 1, get_sb. cbv beta iota. rewrite (a_rw _ _ Ha).
    rewrite (proj2 (Z.ltb_ge _ _)), Z.geb_leb, (proj2 (Z.leb_gt _ _)) by lia. cbn [orb]. cbv zeta.
    rewrite (u32_small (b - first_data_block (sb s))) by lia. fold (group_of_block (sb s) b).
    rewrite Z.geb_leb, (proj2 (Z.leb_gt _ _)) by lia. rewrite group_start_eq by done.
    replace (b - start (sb s) (group_of_block (sb s) b)) with (bit_of_block (sb s) b) by lia.
    rewrite u32_small by lia. by apply run_section. }
  assert (Ha1 : abs (enter s) F) by (by apply (abs_ext s)).
  split; [|split].
  - intros Hr. unfold ext2_free_block. unfold bind at 1, get_sb. cbv beta iota. rewrite (a_rw _ _ Ha).
    destruct (Z.ltb_spec b (first_data_block (sb s))), (Z.geb_spec b (blocks_count (sb s))); try done. lia.
  - intros [Hr Ht]%(a_free _ _ Ha). destruct (block_in_group _ Hg b Hr) as (Hgr & Hbit & Eb).
    rewrite (Hin Hr). rewrite (free_bit_double (enter s) F Ha1 Hf _ _ Hgr Ht). cbn [fst snd].
    by rewrite leave_enter.
  - intros Hr Hb Hm. destruct (block_in_group _ Hg b Hr) as (Hgr & Hbit & Eb).
    assert (Hu : test_bit (bit_of_block (sb s) b) (bitmap_of s (group_of_block (sb s) b)) = true).
    { destruct (test_bit _ _) eqn:Et; [done|]. destruct Hb. by apply (a_free _ _ Ha). }
    rewrite (Hin Hr). rewrite (free_bit_ok (enter s) F Ha1 Hf _ _ Hgr Hu). cbn [fst snd].
    pose proof (flip_abs (enter s) F Ha1 Hf _ _ Hgr Hbit) as Hflip.
    pose proof (commit_frame (enter s) F Ha1 _ _ Hgr Hbit) as Hframe.
    pose proof (meta_commit (enter s) F Ha1 _ (bit_of_block (sb s) b) Hgr) as Hme.
    change (bitmap_of (enter s)) with (bitmap_of s) in *. change (sb (enter s)) with (sb s) in *.
    rewrite Hu, <- Eb in *. eexists. split; [done|]. split.
    + eapply abs_ext; [..|by apply Hflip]; done.
    + split; [exact Hframe|]. split; [done|]. split; [cbn; lia|]. split; [by rewrite Hs|].
      split; [done|]. split; [done|]. split; [done|]. exact Hme.
Qed.

(** [ext2_free_block] implements the abstract allocator: a block outside the
    file system is refused with [EINVAL], a block that is already free with
    [EIO], both without effect; a block in use that holds no metadata becomes
    free, with all tables consistent and no other block written. *)
Theorem ext2_free_block_refines s F b : abs s F -> faults s = [] -> s_sem s = false ->
  (~ first_data_block (sb s) <= b < blocks_count (sb s) -> ext2_free_block b s = (Er (- EINVAL), s)) /\
  (b ∈ F -> ext2_free_block b s = (Er (- EIO), s)) /\
  (first_data_block (sb s) <= b < blocks_count (sb s) -> b ∉ F -> ~ meta (sb s) b ->
    exists s', ext2_free_block b s = (Ok tt, s') /\ abs s' ({[b]} ∪ F) /\ unchanged_outside s s').
Proof. apply ext2_free_block_spec. Qed.

(** whatever allocation or device request fails, at any point and with any
    error, [ext2_alloc_block] and [ext2_free_block] release the lock and free
    their buffer on every path. *)
Theorem balloc_releases s goal b : s_sem s = false ->
  bufs (ext2_alloc_block goal s).2 = bufs s /\ s_sem (ext2_alloc_block goal s).2 = false /\
  bufs (ext2_free_block b s).2 = bufs s /\ s_sem (ext2_free_block b s).2 = false.
Proof.
  intros Hs. destruct (releases_alloc_block goal s Hs) as [-> ->].
  by destruct (releases_free_block b s Hs) as [-> ->].
Qed.

Lemma ext2_free_block_refines_witness :
  (~ first_data_block (sb ex_fs) <= 1 < blocks_count (sb ex_fs) -> ext2_free_block 1 ex_fs = (Er (- EINVAL), ex_fs)) /\
  (1 ∈ ex_free -> ext2_free_block 1 ex_fs = (Er (- EIO), ex_fs)) /\
  (first_data_block (sb ex_fs) <= 1 < blocks_count (sb ex_fs) -> 1 ∉ ex_free -> ~ meta (sb ex_fs) 1 ->
    exists s', ext2_free_block 1 ex_fs = (Ok tt, s') /\ abs s' ({[1]} ∪ ex_free) /\ unchanged_outside ex_fs s').
Proof. apply (ext2_free_block_refines ex_fs ex_free 1 ex_abs); reflexivity. Defined.

Lemma balloc_releases_witness :
  let s := set_faults [Fine; Fails 5 []] ex_fs in
  (ext2_alloc_block 20 s).1 = Er (- EIO) /\
  bufs (ext2_alloc_block 20 s).2 = bufs s /\ s_sem (ext2_alloc_block 20 s).2 = false /\
  bufs (ext2_free_block 7 s).2 = bufs s /\ s_sem (ext2_free_block 7 s).2 = false.
Proof.
  intros s. split; [vm_compute; reflexivity|]. apply (balloc_releases s 20 7). reflexivity.
Defined.

End Ext2Balloc.
