(* ===== verification/Ext2Faults.v ===== *)
(** * Block allocation on a device that fails ([fs/ext2/balloc.c])

    [ext2_alloc_block] under every schedule of failing allocations and requests.
    A program is strict when a fault that it meets is an error of its result,
    and runs as on a sound device when it meets none; what a fault leaves
    behind is followed through the writes. *)
From S2P Require Import Prelude Bitmap Ext2 Ext2Balloc.
From stdpp Require Import fin_sets.
#[local] Open Scope Z_scope.

Module Ext2Faults.
Import Bitmap Ext2 Ext2Balloc.
#[local] Open Scope ext2_scope.

(** ** Schedules *)

Definition failing (f : fault) : bool := match f with Fine => false | Fails _ _ => true end.
Definition failures (l : list fault) : nat := length (filter (fun f => failing f = true) l).

Lemma failures_app l l' : failures (l ++ l') = (failures l + failures l')%nat.
Proof. unfold failures. by rewrite filter_app, length_app. Qed.

(** The part of the schedule between two states. *)
Definition used_up (l : list fault) (s s' : fs) : Prop := faults s = l ++ faults s'.

Lemma used_up_trans l l' s s' s'' : used_up l s s' -> used_up l' s' s'' -> used_up (l ++ l') s s''.
Proof. unfold used_up. intros -> ->. by rewrite app_assoc. Qed.

Lemma used_up_refl s s' : faults s' = faults s -> used_up [] s s'.
Proof. unfold used_up. by intros ->. Qed.

Lemma next_fault_spec s : exists l, used_up l s (next_fault s).2 /\ (next_fault s).2 = set_faults (faults (next_fault s).2) s /\
  failures l = (if failing (next_fault s).1 then 1 else 0)%nat.
Proof.
  unfold next_fault, used_up. destruct s as [d i m y b [|[|e t] l]]; cbn; [by exists []|by exists [Fine]|by exists [Fails e t]].
Qed.

(** ** Strict programs *)

Definition strict {A} (m : M A) : Prop := forall s, exists l, used_up l s (m s).2 /\
  if failures l is O then m (set_faults [] s) = ((m s).1, set_faults [] (m s).2) else exists e, (m s).1 = Er e.

Lemma strict_pure {A} (m : M A) : (forall s, faults (m s).2 = faults s) ->
  (forall s, m (set_faults [] s) = ((m s).1, set_faults [] (m s).2)) -> strict m.
Proof. intros H1 H2 s. exists []. split; [by apply used_up_refl|apply H2]. Qed.

Lemma strict_bind {A B} (m : M A) (k : A -> M B) : strict m -> (forall a, strict (k a)) -> strict (bind m k).
Proof.
  intros Hm Hk s. destruct (Hm s) as (l & U & R). unfold bind. destruct (m s) as [[a|e] s1]; cbn [fst snd] in *.
  - destruct (failures l) eqn:El; [|by destruct R]. destruct (Hk a s1) as (l' & U' & R').
    exists (l ++ l'). split; [by eapply used_up_trans|]. rewrite failures_app, El. cbn. by rewrite R.
  - exists l. split; [done|]. destruct (failures l); [by rewrite R|by exists e].
Qed.

(** A call whose error the caller turns into an error. *)
Lemma strict_try {A B} (m : M A) (k : res A -> M B) : strict m -> (forall r, strict (k r)) ->
  (forall e s, exists e', (k (Er e) s).1 = Er e') -> strict (r <~ try m ;; k r).
Proof.
  intros Hm Hk He s. destruct (Hm s) as (l & U & R). unfold bind, try. destruct (m s) as [r s1]; cbn [fst snd] in *.
  destruct (Hk r s1) as (l' & U' & R'). exists (l ++ l'). split; [by eapply used_up_trans|]. rewrite failures_app.
  destruct (failures l) eqn:El; [cbn; by rewrite R|]. destruct R as [e ->]. apply He.
Qed.

Lemma strict_if {A} (b : bool) (m k : M A) : strict m -> strict k -> strict (if b then m else k).
Proof. by destruct b. Qed.

Lemma strict_res {A B} (r : res A) (m : A -> M B) (k : Z -> M B) :
  (forall a, strict (m a)) -> (forall e, strict (k e)) -> strict (match r with Ok a => m a | Er e => k e end).
Proof. by destruct r. Qed.

Lemma strict_ret {A} (a : A) : strict (ret a).
Proof. by apply strict_pure. Qed.
Lemma strict_fail {A} e : strict (fail (A := A) e).
Proof. by apply strict_pure. Qed.
Lemma strict_lift {A} (r : res A) : strict (lift r).
Proof. by apply strict_pure. Qed.
Lemma strict_get : strict get_sb.
Proof. by apply strict_pure. Qed.

Lemma strict_modify f : (forall s, faults (f s) = faults s) -> (forall s, f (set_faults [] s) = set_faults [] (f s)) ->
  strict (modify f).
Proof. intros H1 H2. apply strict_pure; [done|]. intros s. unfold modify. by rewrite H2. Qed.

Lemma strict_kmalloc : strict kmalloc.
Proof.
  intros s. destruct (next_fault_spec s) as (l & U & E & N). exists l. unfold kmalloc.
  destruct (next_fault s) as [[|e t] s1]; cbn [fst snd failing] in *; rewrite N; (split; [exact U|]).
  - rewrite E. done.
  - by eexists.
Qed.
Lemma strict_kfree : strict kfree.
Proof. by apply strict_modify. Qed.
Lemma strict_down : strict down.
Proof. by apply strict_modify. Qed.
Lemma strict_up : strict up.
Proof. by apply strict_modify. Qed.

Lemma strict_blkdev_read a n : strict (blkdev_read a n).
Proof.
  intros s. destruct (next_fault_spec s) as (l & U & E & N). exists l. unfold blkdev_read.
  destruct (next_fault s) as [[|e t] s1]; cbn [fst snd failing] in *; rewrite N; (split; [exact U|]).
  - rewrite E. done.
  - by eexists.
Qed.
Lemma strict_blkdev_write a n buf : strict (blkdev_write a n buf).
Proof.
  intros s. destruct (next_fault_spec s) as (l & U & E & N). exists l. unfold blkdev_write.
  destruct (next_fault s) as [[|e t] s1]; cbn [fst snd failing] in *; rewrite N; (split; [exact U|]).
  - rewrite E. done.
  - by eexists.
Qed.

Create HintDb strict.
#[local] Hint Resolve strict_ret strict_fail strict_lift strict_get strict_kmalloc strict_kfree strict_down strict_up
  strict_blkdev_read strict_blkdev_write : strict.
Ltac strict := repeat (intros; cbv beta zeta; first [solve [eauto 2 with strict] | apply strict_try
  | apply strict_bind | apply strict_if | apply strict_res | by apply strict_modify | solve [eexists; reflexivity]]).

Lemma strict_read_block b : strict (ext2_read_block b).
Proof. unfold ext2_read_block. strict. Qed.
Lemma strict_write_block b buf : strict (ext2_write_block b buf).
Proof. unfold ext2_write_block. strict. Qed.
#[local] Hint Resolve strict_read_block strict_write_block : strict.

Lemma strict_write_group_desc g : strict (ext2_write_group_desc g).
Proof. unfold ext2_write_group_desc. strict. Qed.
#[local] Hint Resolve strict_write_group_desc : strict.

Lemma strict_alloc_bit g st bb bit bm : strict (alloc_bit g st bb bit bm).
Proof.
  unfold alloc_bit. apply strict_try; [auto with strict| |].
  - intros [[]|e]; strict.
  - intros e s. unfold bind, try, fail. destruct (ext2_write_block _ _ s). by eexists.
Qed.
#[local] Hint Resolve strict_alloc_bit : strict.

Lemma strict_alloc_loop n k fg : strict (alloc_loop n k fg).
Proof. revert k. induction n as [|n IH]; intros k; cbn [alloc_loop]; strict. Qed.
#[local] Hint Resolve strict_alloc_loop : strict.

Lemma strict_alloc_block goal : strict (ext2_alloc_block goal).
Proof.
  unfold ext2_alloc_block. apply strict_bind; [apply strict_get|]. intros i.
  apply strict_if; [apply strict_fail|]. apply strict_if; [apply strict_fail|].
  apply strict_bind; [apply strict_kmalloc|]. intros _. apply strict_bind; [apply strict_down|]. intros _.
  apply strict_try; [apply strict_alloc_loop| |intros e s; by eexists].
  intros r. apply strict_bind; [apply strict_up|]. intros _. apply strict_bind; [apply strict_kfree|]. intros _.
  apply strict_lift.
Qed.

(** ** What the writes touch *)

(** The blocks other than those of [W] are as before. *)
Definition kept (W : Z -> Prop) (s s' : fs) : Prop := forall c, 0 <= c -> ~ W c -> blk s' c = blk s c.

Lemma kept_refl W s : kept W s s.
Proof. by intros c. Qed.

Lemma kept_trans W s s' s'' : kept W s s' -> kept W s' s'' -> kept W s s''.
Proof. intros H1 H2 c Hc Hn. by rewrite H2, H1. Qed.

Lemma kept_mono (W W' : Z -> Prop) s s' : kept W s s' -> (forall c, W c -> W' c) -> kept W' s s'.
Proof. intros H HW c Hc Hn. apply H; [done|]. intros Hw. by apply Hn, HW. Qed.

(** Neither the table in memory nor the disk changes. *)
Definition same (s s' : fs) : Prop := disk s' = disk s /\ sb s' = sb s.

Lemma same_kept W s s' : same s s' -> kept W s s'.
Proof. intros [Hd Hs] c _ _. unfold blk. by rewrite Hd, Hs. Qed.

Lemma same_next s : same s (next_fault s).2.
Proof. unfold next_fault, same. by destruct (faults s). Qed.

Lemma read_block_same b s : geom (sb s) -> exists l, let r := ext2_read_block b s in used_up l s r.2 /\ same s r.2 /\
  (0 <= b < blocks_count (sb s) -> forall buf, r.1 = Ok buf -> buf = blk s b).
Proof.
  intros Hg. destruct (next_fault_spec s) as (l & U & E & N). pose proof (same_next s) as [Hd Hs].
  destruct (geom_size _ Hg) as (_ & Ez & Hr). pose proof (g_sectors _ Hg).
  unfold ext2_read_block, bind, get_sb, blkdev_read. rewrite (proj2 (Z.eqb_neq _ _)) by lia.
  destruct (Z.geb_spec b (blocks_count (sb s))).
  { exists []. cbn. split; [done|]. split; [done|]. lia. }
  exists l. destruct (next_fault s) as [[|e t] s1]; cbn [fst snd] in *; (split; [done|]); (split; [done|]).
  - intros Hb buf [= <-]. unfold blk. fold (spb (sb s)). rewrite Hd, u32_small by nia. done.
  - done.
Qed.

Lemma torn_kept s b buf : geom (sb s) -> 0 <= b ->
  kept (fun c => c = b) s (set_disk (write_sectors (disk s) (b * spb (sb s)) (spb (sb s)) buf) s).
Proof.
  intros Hg Hb c Hc Hne. destruct (geom_size _ Hg) as (_ & E & Hr). unfold blk, read_sectors. cbn [disk sb set_disk].
  set (n := spb (sb s)) in *. f_equal. apply map_ext_in. intros x Hx. apply list_elem_of_In, elem_of_seqZ in Hx.
  unfold write_sectors. destruct (Z.leb_spec (b * n) x), (Z.ltb_spec x (b * n + n)); try done.
  exfalso. apply Hne. nia.
Qed.

Lemma write_block_kept b buf s : geom (sb s) -> 0 <= b < blocks_count (sb s) ->
  exists l, let r := ext2_write_block b buf s in used_up l s r.2 /\ sb r.2 = sb s /\ kept (fun c => c = b) s r.2 /\
    (r.1 = Ok tt -> failures l = O /\ disk r.2 = disk (put_block b buf s)) /\ (r.1 <> Ok tt -> failures l = 1%nat).
Proof.
  intros Hg Hb. destruct (next_fault_spec s) as (l & U & E & N).
  destruct (geom_size _ Hg) as (_ & Ez & Hr). pose proof (g_sectors _ Hg).
  unfold ext2_write_block, bind, get_sb, blkdev_write. rewrite (proj2 (Z.eqb_neq _ _)) by lia.
  rewrite Z.geb_leb, (proj2 (Z.leb_gt _ _)) by lia. fold (spb (sb s)). rewrite u32_small by nia.
  exists l. pose proof (same_next s) as [Hd Hs]. destruct (next_fault s) as [[|e t] s1]; cbn [fst snd failing modify] in *.
  - split; [done|]. split; [done|]. rewrite Hd. split; [|split; [by split|done]].
    pose proof (torn_kept s b buf Hg (proj1 Hb)) as K. intros c Hc Hn. rewrite <- (K c Hc Hn). unfold blk. cbn. by rewrite Hs.
  - split; [done|]. split; [done|]. rewrite Hd. split; [|split; [done|by intros _]].
    pose proof (torn_kept s b t Hg (proj1 Hb)) as K. intros c Hc Hn. rewrite <- (K c Hc Hn). unfold blk. cbn. by rewrite Hs.
Qed.

Lemma write_group_desc_kept g s r s' : geom (sb s) -> 0 <= g < nr_groups (sb s) -> db (sb s) g < blocks_count (sb s) ->
  ext2_write_group_desc g s = (r, s') ->
  exists l, used_up l s s' /\ sb s' = sb s /\ kept (fun c => c = db (sb s) g) s s'.
Proof.
  intros Hg Hgr Hdb Er. pose proof (db_bounds _ g Hg ltac:(lia)). pose proof (blocks_count_bound _ Hg).
  unfold ext2_write_group_desc, bind at 1, get_sb in Er. rewrite Z.geb_leb, (proj2 (Z.leb_gt _ _)) in Er by lia.
  fold (db (sb s) g) in Er. rewrite u32_small in Er by lia. cbv zeta in Er.
  destruct (next_fault_spec s) as (l & U & E & N). pose proof (same_next s) as Hsame.
  unfold bind at 1, kmalloc in Er. destruct (next_fault s) as [[|e t] s1]; cbn [fst snd] in *.
  2: { injection Er as <- <-. exists l. split; [done|]. split; [apply Hsame|by apply same_kept]. }
  set (s2 := set_bufs (bufs s1 + 1) s1) in *. assert (Hs2 : same s s2) by (destruct Hsame; by split).
  assert (Hg2 : geom (sb s2)) by (by rewrite (proj2 Hs2)).
  destruct (read_block_same (db (sb s) g) s2 Hg2) as (l2 & U2 & S2 & _). unfold bind at 1, try in Er.
  destruct (ext2_read_block (db (sb s) g) s2) as [[buf|e] s3]; cbn [fst snd] in *.
  2: { injection Er as <- <-. exists (l ++ l2). split; [by eapply used_up_trans|].
       assert (same s s3) as S3 by (destruct Hs2, S2; split; congruence). split; [apply S3|by apply same_kept]. }
  assert (same s s3) as S3 by (destruct Hs2, S2; split; congruence).
  assert (Hg3 : geom (sb s3)) by (by rewrite (proj2 S3)).
  set (out := memcpy_at _ _ _ _) in *. clearbody out.
  destruct (write_block_kept (db (sb s) g) out s3 Hg3) as (l3 & U3 & S4 & K & _); [rewrite (proj2 S3); lia|].
  unfold bind, try in Er. destruct (ext2_write_block _ out s3) as [r4 s4]; cbn [fst snd] in *. injection Er as <- <-.
  exists ((l ++ l2) ++ l3). split; [eapply used_up_trans; [by eapply used_up_trans|exact U3]|].
  split; [cbn; rewrite S4; apply S3|]. eapply kept_trans; [by apply same_kept|]. exact K.
Qed.

(** ** What a failed call leaves *)

(** [harmed F l s s']: the faults [l] of a call from [s], whose free blocks are
    [F].  Nothing has changed, or only the bitmap and descriptor blocks of one
    group: the write of the bitmap has failed, and its bits are as before
    unless the write that puts them back fails as well; or a free block
    [b] is marked as used, in the bitmap and in the counts in memory, and it is
    the write of the descriptor that has failed. *)
Definition harmed (F : gset Z) (l : list fault) (s s' : fs) : Prop :=
  same s s' \/
  exists g, 0 <= g < nr_groups (sb s) /\ kept (fun c => c = bm (sb s) g \/ c = db (sb s) g) s s' /\
    (sb s' = sb s /\ blk s' (db (sb s) g) = blk s (db (sb s) g) /\
       ((2 <= failures l)%nat \/ forall k, 0 <= k -> test_bit k (bitmap_of s' g) = test_bit k (bitmap_of s g)) \/
     exists b, b ∈ F /\ group_of_block (sb s) b = g /\ sb s' = sb (count_blocks g (-1) s) /\
       bitmap_of s' g = set_bit (bit_of_block (sb s) b) (bitmap_of s g)).

Lemma harmed_same F l l' s s1 s' : same s s1 -> harmed F l s1 s' -> (failures l <= failures l')%nat -> harmed F l' s s'.
Proof.
  intros [Hd Hs] H Hl. unfold harmed, same, kept, bitmap_of, blk, count_blocks in *. rewrite Hd, Hs in H.
  destruct H as [?|(g & Hg & K & [(H1 & H2 & H3)|H])]; [by left| |].
  - right. exists g. split; [done|]. split; [done|]. left. split; [done|]. split; [done|]. destruct H3; [left; lia|by right].
  - right. exists g. split; [done|]. split; [done|]. by right.
Qed.

Lemma alloc_bit_harm s F g bit r s' : abs s F -> 0 <= g < nr_groups (sb s) -> 0 <= bit < ext2_group_blocks (sb s) g ->
  test_bit bit (bitmap_of s g) = false ->
  alloc_bit g (start (sb s) g) (bm (sb s) g) bit (bitmap_of s g) s = (r, s') -> exists l, used_up l s s' /\ harmed F l s s'.
Proof.
  intros Ha Hgr Hbit Hclear Er. pose proof (a_geom _ _ Ha) as Hg. pose proof (a_bm _ _ Ha g Hgr) as Hbm.
  pose proof (a_apart _ _ Ha g g Hgr Hgr) as Hap. pose proof (db_bounds _ g Hg ltac:(lia)) as Hdb.
  pose proof (bitmap_len s F Ha g) as Hlen. pose proof (bit_in_bitmap s F Ha g bit Hgr Hbit) as Hin.
  set (new := set_bit bit (bitmap_of s g)).
  assert (Hnew : zlength new = block_size (sb s)) by (rewrite <- Hlen; unfold new, zlength; by rewrite length_set_bit).
  destruct (write_block_kept (bm (sb s) g) new s Hg Hbm) as (l & U & Hs & K & Hok & Her).
  unfold alloc_bit in Er. fold new in Er. unfold bind at 1, try in Er. destruct (ext2_write_block (bm (sb s) g) new s) as [[[]|e] s1] eqn:E1; cbn [fst snd] in *.
  - destruct (Hok eq_refl) as [Hl Hd]. clear Hok Her. unfold bind at 1, modify in Er. cbv beta iota in Er.
    set (s2 := count_blocks g (-1) s1) in *.
    assert (Hsb : sb s2 = sb (count_blocks g (-1) s)) by (unfold s2, count_blocks; cbn [sb set_dirty set_sb]; by rewrite Hs).
    assert (Hlay : geom (sb s2) /\ db (sb s2) g = db (sb s) g /\ blocks_count (sb s2) = blocks_count (sb s) /\
      nr_groups (sb s2) = nr_groups (sb s) /\ spb (sb s2) = spb (sb s)).
    { rewrite Hsb. split; [by destruct Hg|done]. }
    destruct Hlay as (Hg2 & Hdb2 & Hbc2 & Hn2 & Hsp2).
    destruct (ext2_write_group_desc g s2) as [r3 s3] eqn:E3.
    destruct (write_group_desc_kept g s2 r3 s3 Hg2) as (l2 & U2 & Hs2 & K2); [by rewrite Hn2|rewrite Hdb2, Hbc2; by apply (a_db _ _ Ha)|done|].
    rewrite Hdb2 in K2.
    assert (s' = s3) as ->.
    { unfold bind in Er. rewrite E3 in Er. destruct r3; by injection Er. }
    exists (l ++ l2). split; [eapply used_up_trans; [exact U|exact U2]|]. right. exists g. split; [done|].
    assert (K12 : forall c, blk s2 c = blk s1 c) by (intros c; unfold blk; by rewrite Hsp2, <- Hs).
    split.
    { intros c Hc Hn. rewrite K2 by tauto. rewrite K12. apply K; tauto. }
    right. exists (start (sb s) g + bit). destruct (group_in_blocks _ Hg g bit Hgr Hbit) as (Hr & Eg & Eb).
    split; [apply (a_free _ _ Ha); split; [done|by rewrite Eg, Eb]|]. split; [done|]. split; [by rewrite Hs2|].
    rewrite Eb. unfold bitmap_of at 1.
    assert (Ebm : bm (sb s3) g = bm (sb s) g).
    { rewrite Hs2, Hsb. pose proof (bm_commit s F Ha g bit Hgr g Hgr) as B. unfold commit in B. rewrite Hclear in B. exact B. }
    rewrite Ebm, K2, K12 by (lia || congruence).
    transitivity (blk (put_block (bm (sb s) g) new s) (bm (sb s) g)); [unfold blk; by rewrite Hd, Hs|].
    rewrite (blk_put s Hg), decide_True by (lia || done). done.
  - specialize (Her ltac:(done)). clear Hok. set (old := clear_bit bit new).
    assert (Hg1 : geom (sb s1)) by (by rewrite Hs).
    destruct (write_block_kept (bm (sb s) g) old s1 Hg1) as (l2 & U2 & Hs2 & K2 & Hok2 & Her2); [by rewrite Hs|].
    fold old in Er. unfold bind, try, fail in Er. destruct (ext2_write_block (bm (sb s) g) old s1) as [r2 s2] eqn:E2; cbn [fst snd] in *.
    injection Er as <- <-.
    exists (l ++ l2). split; [eapply used_up_trans; [exact U|exact U2]|]. right. exists g. split; [done|].
    assert (KK : kept (fun c => c = bm (sb s) g) s s2) by (by eapply kept_trans).
    split; [eapply kept_mono; [exact KK|]; tauto|]. left. split; [by rewrite Hs2|].
    split; [apply KK; [lia|congruence]|]. destruct r2 as [[]|e2].
    + right. destruct (Hok2 eq_refl) as [_ Hd2]. intros k Hk.
      assert (Ho : zlength old = block_size (sb s)) by (rewrite <- Hnew; unfold old, zlength; by rewrite length_clear_bit).
      assert (Eo : bitmap_of s2 g = old).
      { unfold bitmap_of. rewrite Hs2, Hs. transitivity (blk (put_block (bm (sb s) g) old s1) (bm (sb s) g)); [unfold blk; by rewrite Hd2, Hs2|].
        rewrite (blk_put s1 Hg1), decide_True by (lia || congruence || done). done. }
      rewrite Eo. unfold old, new. rewrite test_clear_bit by (unfold zlength in *; rewrite ?length_set_bit; lia).
      destruct (decide (k = bit)) as [->|]; [done|]. rewrite test_set_bit by lia. by rewrite decide_False.
    + left. rewrite failures_app, Her, Her2 by done. lia.
Qed.

Lemma alloc_loop_harm s F fg : abs s F -> forall n k r s', alloc_loop n k fg s = (r, s') ->
  exists l, used_up l s s' /\ harmed F l s s'.
Proof.
  intros Ha. pose proof (a_geom _ _ Ha) as Hg. induction n as [|n IH]; intros k r s' Er.
  { injection Er as <- <-. exists []. split; [done|]. left. done. }
  assert (Hgr : 0 <= probe (sb s) fg k < nr_groups (sb s)) by (apply Z.mod_pos_bound, nr_groups_pos, Hg).
  cbn [alloc_loop] in Er. unfold bind at 1, get_sb in Er. cbv beta iota zeta in Er.
  fold (probe (sb s) fg k) in Er. set (g := probe (sb s) fg k) in *.
  destruct (group_blocks_eq _ Hg g Hgr) as [_ Hcount].
  rewrite (proj2 (Z.eqb_neq _ _)) in Er by lia. rewrite (a_counts _ _ Ha g Hgr), group_start_eq in Er by done.
  destruct (Z.eqb_spec (free_in_group s g) 0) as [E0|E0]; [by eapply IH|].
  fold (bm (sb s) g) in Er. destruct (read_block_same (bm (sb s) g) s Hg) as (l & U & S & R). unfold bind at 1 in Er.
  destruct (ext2_read_block (bm (sb s) g) s) as [[buf|e] s1]; cbn [fst snd] in *.
  2: { injection Er as <- <-. exists l. split; [done|]. by left. }
  rewrite (R (a_bm _ _ Ha g Hgr) buf eq_refl) in Er. fold (bitmap_of s g) in Er.
  destruct (find_first_zero_bit_spec (bitmap_of s g) (ext2_group_blocks (sb s) g)) as [[_ Hall]|(Hr & Hclear & Hlow)].
  { apply blk_u8, (a_disk _ _ Ha). }
  { pose proof (bpg_bound _ Hg). lia. }
  { destruct E0. unfold free_in_group. by apply clear_bits_zero. }
  set (bit := find_first_zero_bit _ _) in *. clearbody bit.
  rewrite (proj2 (Z.ltb_ge _ _)) in Er by lia.
  assert (Ha1 : abs s1 F) by (apply (abs_ext s); [apply S..|done]).
  pose proof (alloc_bit_harm s1 F g bit r s' Ha1) as H. unfold bitmap_of, blk in H. destruct S as [Sd Ss]. rewrite Sd, Ss in H.
  destruct (H Hgr Hr Hclear Er) as (l2 & U2 & H2). exists (l ++ l2). split; [by eapply used_up_trans|].
  apply (harmed_same F l2 _ s s1); [done|done|]. rewrite failures_app. lia.
Qed.

Lemma section_harm {A} (m : M A) s F r s' : abs s F ->
  (forall s1 r s2, abs s1 F -> m s1 = (r, s2) -> exists l, used_up l s1 s2 /\ harmed F l s1 s2) ->
  (kmalloc ;~ down ;~ r <~ try m ;; up ;~ kfree ;~ lift r) s = (r, s') -> exists l, used_up l s s' /\ harmed F l s s'.
Proof.
  intros Ha Hm E. destruct (next_fault_spec s) as (l & U & _ & N). pose proof (same_next s) as Hsame.
  unfold bind, kmalloc in E. destruct (next_fault s) as [[|e t] s1]; cbn [fst snd] in *.
  2: { injection E as <- <-. exists l. split; [done|]. by left. }
  cbn in E. set (s2 := set_sem true (set_bufs (bufs s1 + 1) s1)) in *.
  assert (S2 : same s s2) by (destruct Hsame; by split).
  assert (Ha2 : abs s2 F) by (apply (abs_ext s); [apply S2..|done]).
  unfold try in E. destruct (m s2) as [r3 s3] eqn:E3. destruct (Hm s2 r3 s3 Ha2 E3) as (l2 & U2 & H2).
  cbn in E. injection E as <- <-. exists (l ++ l2). split; [eapply used_up_trans; [exact U|exact U2]|].
  assert (harmed F l2 s2 (set_bufs (bufs s3 - 1) (set_sem false s3))) as H3 by exact H2.
  apply (harmed_same F l2 _ s s2); [done|done|]. rewrite failures_app. lia.
Qed.

Lemma alloc_block_harm s F goal r s' : abs s F -> free_blocks_count (sb s) <> 0 -> ext2_alloc_block goal s = (r, s') ->
  exists l, used_up l s s' /\ harmed F l s s'.
Proof.
  intros Ha H0 E. unfold ext2_alloc_block, bind at 1, get_sb in E. cbv beta iota in E. rewrite (a_rw _ _ Ha) in E.
  rewrite (proj2 (Z.eqb_neq _ _)) in E by done. eapply (section_harm _ s F r s' Ha); [|exact E].
  intros s1 r1 s2 Ha1. by apply alloc_loop_harm.
Qed.

Lemma harmed_frame F l s s' : geom (sb s) -> harmed F l s s' -> forall c, 0 <= c -> ~ meta (sb s) c -> blk s' c = blk s c.
Proof.
  intros Hg [H|(g & Hgr & K & _)] c Hc Hm; [apply (same_kept (fun _ => False) s s' H c Hc); by intros []|].
  apply K; [done|]. intros Hb. apply Hm. right. by exists g.
Qed.

(** ** The refinement *)

Lemma alloc_block_ok s F goal r s' : abs s F -> s_sem s = false -> ext2_alloc_block goal s = (r, s') ->
  bufs s' = bufs s /\ s_sem s' = false /\ (forall c, 0 <= c -> ~ meta (sb s) c -> blk s' c = blk s c) /\
  exists l, used_up l s s' /\
  match r with
  | Ok b => failures l = O /\ b ∈ F /\ abs s' (F ∖ {[b]}) /\ same_layout (sb s) (sb s') /\
      (first_data_block (sb s) <= goal < blocks_count (sb s) ->
       (exists c, c ∈ F /\ group_of_block (sb s) c = group_of_block (sb s) goal) ->
       first_free_in s F (group_of_block (sb s) goal) b)
  | Er e => F = ∅ /\ e = - ENOSPC /\ s' = s \/ F <> ∅ /\ failures l <> O /\ harmed F l s s'
  end.
Proof.
  intros Ha Hs E. pose proof (a_geom _ _ Ha) as Hg. pose proof (releases_alloc_block goal s Hs) as [Hb Hsem].
  rewrite E in Hb, Hsem. cbn [snd] in *. split; [done|]. split; [done|].
  destruct (Z.eqb_spec (free_blocks_count (sb s)) 0) as [E0|E0].
  { unfold ext2_alloc_block, bind at 1, get_sb in E. cbv beta iota in E. rewrite (a_rw _ _ Ha), E0 in E.
    injection E as <- <-. split; [done|]. exists []. split; [done|]. left. split; [|done]. by apply (no_free_blocks s F Ha). }
  assert (HF : F <> ∅) by (intros EF; exact (E0 (proj2 (no_free_blocks s F Ha) EF))).
  destruct (alloc_block_harm s F goal r s' Ha E0 E) as (l & U & H).
  destruct (strict_alloc_block goal s) as (l' & U' & R). rewrite E in U', R. cbn [fst snd] in *.
  assert (l' = l) as -> by (apply (app_inv_tail (faults s')); unfold used_up in *; congruence).
  split; [by apply (harmed_frame F l)|]. exists l. split; [done|]. destruct (failures l) eqn:El.
  - pose proof (ext2_alloc_block_spec (set_faults [] s) F goal ltac:(by apply (abs_ext s)) eq_refl Hs) as K.
    rewrite R in K. destruct r as [b|e]; [|by destruct K as (_ & K & _)].
    destruct K as (K1 & K2 & K3 & K4). split; [done|]. split; [done|]. split; [by apply (abs_ext (set_faults [] s'))|].
    split; [apply K3|exact K4].
  - destruct R as [e ->]. by right.
Qed.

(** C14: [ext2_alloc_block] implements the abstract allocator, whatever
    allocations and device requests fail.  When no block is free it fails with
    [ENOSPC] and without any effect.  Else, when no fault is met, it removes one
    block from the free set, the lowest free one of the group of the goal when
    that group has one, and bitmaps, descriptors (in memory and on disk) and
    counts stay consistent; and a fault that is met always makes it fail.  What
    such a call leaves is [harmed]: no change, or one bitmap block that is as it
    was unless the write that restores it fails too, or (the write of the
    descriptor has failed) one free block that is marked as used and lost.  In
    every case the lock and the buffer are released and no block other than the
    tables is written. *)
Theorem ext2_alloc_block_refines s F goal : abs s F -> s_sem s = false ->
  let '(r, s') := ext2_alloc_block goal s in
  bufs s' = bufs s /\ s_sem s' = false /\ (forall c, 0 <= c -> ~ meta (sb s) c -> blk s' c = blk s c) /\
  exists l, used_up l s s' /\
  match r with
  | Ok b => failures l = O /\ b ∈ F /\ abs s' (F ∖ {[b]}) /\ same_layout (sb s) (sb s') /\
      (first_data_block (sb s) <= goal < blocks_count (sb s) ->
       (exists c, c ∈ F /\ group_of_block (sb s) c = group_of_block (sb s) goal) ->
       first_free_in s F (group_of_block (sb s) goal) b)
  | Er e => F = ∅ /\ e = - ENOSPC /\ s' = s \/ F <> ∅ /\ failures l <> O /\ harmed F l s s'
  end.
Proof. intros Ha Hs. destruct (ext2_alloc_block goal s) as [r s'] eqn:E. by apply (alloc_block_ok s F goal r s'). Qed.

(** The fifth request, the read of the descriptor block, fails: block 17 is lost. *)
Definition ex_failing : fs := set_faults [Fine; Fine; Fine; Fine; Fails 5 []; Fine] ex_fs.

Lemma ext2_alloc_block_refines_witness :
  (ext2_alloc_block 20 ex_fs).1 = Ok 17 /\ (ext2_alloc_block 20 ex_failing).1 = Er (- EIO) /\
  free_blocks_count (sb (ext2_alloc_block 20 ex_failing).2) = 33 /\
  (let '(r, s') := ext2_alloc_block 20 ex_failing in
   bufs s' = bufs ex_failing /\ s_sem s' = false /\ exists l, used_up l ex_failing s' /\ harmed ex_free l ex_failing s') /\
  (let '(r, s') := ext2_alloc_block 20 ex_fs in abs s' (ex_free ∖ {[17]})).
Proof.
  assert (E1 : (ext2_alloc_block 20 ex_fs).1 = Ok 17) by (vm_compute; reflexivity).
  assert (E2 : (ext2_alloc_block 20 ex_failing).1 = Er (- EIO)) by (vm_compute; reflexivity).
  split; [exact E1|]. split; [exact E2|]. split; [vm_compute; reflexivity|]. split.
  - pose proof (ext2_alloc_block_refines ex_failing ex_free 20 ltac:(by apply (abs_ext ex_fs), ex_abs) eq_refl) as H.
    destruct (ext2_alloc_block 20 ex_failing) as [r s']. cbn [fst] in E2. subst r.
    destruct H as (H1 & H2 & _ & l & U & [[H _]|(_ & _ & H)]).
    + exfalso. assert (10 ∈ ex_free) as K by (unfold ex_free; rewrite elem_of_list_to_set, elem_of_seqZ; lia).
      rewrite H in K. by apply elem_of_empty in K.
    + split; [exact H1|]. split; [exact H2|]. exists l. by split.
  - pose proof (ext2_alloc_block_refines ex_fs ex_free 20 ex_abs eq_refl) as H.
    destruct (ext2_alloc_block 20 ex_fs) as [r s']. cbn [fst] in E1. subst r.
    destruct H as (_ & _ & _ & l & _ & _ & _ & H & _). exact H.
Defined.

End Ext2Faults.
