(* ===== verification/Ext2Bmap.v ===== *)
(** * ext2 block mapping ([fs/ext2/bmap.c])

    The map from the logical blocks of a file to disk blocks: twelve direct
    pointers and trees of one, two and three levels of pointer blocks, allocated
    on demand.  The tree is described by the blocks found along paths of
    pointer indices; a lookup or an allocation changes at most the paths that
    lead to the block asked for. *)
From S2P Require Import Prelude Bitmap Ext2 Ext2Balloc.
From stdpp Require Import fin_sets.
#[local] Open Scope Z_scope.

Module Ext2Bmap.
Import Bitmap Ext2 Ext2Balloc.
#[local] Open Scope ext2_scope.

Definition EXT2_NDIR_BLOCKS : Z := 12.
Definition EXT2_IND_BLOCK : Z := 12.
Definition EXT2_DIND_BLOCK : Z := 13.
Definition EXT2_TIND_BLOCK : Z := 14.

(** What [ext2_bmap] uses of an inode: the raw pointers, the on-disk and the
    in-memory block counts and [I_Dirty]. *)
Record inode := mkinode {
  i_block : list Z;
  i_blocks : Z;
  i_nr_block : Z;
  i_dirty : bool;
}.

Definition set_i_block (l : list Z) (ino : inode) : inode :=
  mkinode l (i_blocks ino) (i_nr_block ino) (i_dirty ino).
Definition account (sectors : Z) (ino : inode) : inode :=
  mkinode (i_block ino) (u32 (i_blocks ino + sectors)) (u32 (i_nr_block ino + sectors)) true.

(** Computations on an inode of the file system. *)
Definition IM (A : Type) : Type := ST (inode * fs) A.
Definition on_fs {A} (m : M A) : IM A := fun st => let '(r, s) := m st.2 in (r, (st.1, s)).
Definition get_inode : IM inode := fun st => (Ok st.1, st).
Definition put_inode (f : inode -> inode) : IM unit := modify (fun st => (f st.1, st.2)).

Definition EXT2_ADDRS_PER_BLOCK (i : sb_info) : Z := block_size i / 4.
Definition ext2_single_start : Z := EXT2_NDIR_BLOCKS.
Definition ext2_double_start (i : sb_info) : Z := u32 (ext2_single_start + EXT2_ADDRS_PER_BLOCK i).
Definition ext2_triple_start (i : sb_info) : Z :=
  u32 (ext2_double_start i + u32 (EXT2_ADDRS_PER_BLOCK i * EXT2_ADDRS_PER_BLOCK i)).

Definition ext2_load_ptrs (block : Z) : IM (list Z) :=
  on_fs kmalloc ;~ on_fs (ext2_read_block block).
Definition ext2_store_ptrs (block : Z) (ptrs : list Z) : IM unit := on_fs (ext2_write_block block ptrs).

Definition ext2_new_block : IM Z :=
  block <~ on_fs (ext2_alloc_block 0) ;;
  r <~ try (on_fs kmalloc) ;;
  match r with
  | Er _ => _ <~ try (on_fs (ext2_free_block block)) ;; fail (- ENOMEM)
  | Ok _ =>
    i <~ on_fs get_sb ;;
    r <~ try (on_fs (ext2_write_block block (replicate (Z.to_nat (block_size i)) 0))) ;;
    on_fs kfree ;~
    match r with
    | Er e => _ <~ try (on_fs (ext2_free_block block)) ;; fail e
    | Ok _ =>
      put_inode (account (block_size i / 512)) ;~
      ret block
    end
  end.

(** The pointer at byte [off] of a buffer of pointers, and the buffer after. *)
Definition ext2_ensure_indirect (slot : list Z) (off : Z) : IM (Z * list Z) :=
  let block := ext2_read32 slot off in
  if negb (block =? 0) then ret (block, slot) else
  block <~ ext2_new_block ;;
  ret (block, ext2_write32 slot off block).

Definition ext2_ensure_data (ptrs : list Z) (index : Z) : IM (Z * list Z) :=
  let block := ext2_read32 ptrs (4 * index) in
  if negb (block =? 0) then ret (block, ptrs) else
  block <~ ext2_new_block ;;
  ret (block, ext2_write32 ptrs (4 * index) block).

(** A pointer block named by the inode itself. *)
Definition ensure_root (slot : Z) : IM Z :=
  ino <~ get_inode ;;
  x <~ ext2_ensure_indirect (i_block ino) (4 * slot) ;;
  put_inode (set_i_block x.2) ;~
  ret x.1.

(** A pointer block named by entry [index] of the pointer block [blk]. *)
Definition next_level (blk index : Z) : IM Z :=
  ptrs <~ ext2_load_ptrs blk ;;
  r <~ try (ext2_ensure_indirect ptrs (4 * index)) ;;
  match r with
  | Er e => on_fs kfree ;~ fail e
  | Ok x =>
    r <~ try (ext2_store_ptrs blk x.2) ;;
    on_fs kfree ;~
    match r with Er e => fail e | Ok _ => ret x.1 end
  end.

(** The data block named by entry [index] of the pointer block [blk]. *)
Definition last_level (blk index : Z) (create : bool) : IM Z :=
  ptrs <~ ext2_load_ptrs blk ;;
  let result := ext2_read32 ptrs (4 * index) in
  if (result =? 0) && create then
    r <~ try (x <~ ext2_ensure_data ptrs index ;; (ext2_store_ptrs blk x.2 ;~ ret x.1)) ;;
    on_fs kfree ;~
    lift r
  else
    on_fs kfree ;~
    ret result.

Definition direct_block (block : Z) (create : bool) : IM Z :=
  ino <~ get_inode ;;
  let result := ext2_read32 (i_block ino) (4 * block) in
  if negb (result =? 0) then ret result else
  if negb create then ret 0 else
  result <~ ext2_new_block ;;
  put_inode (fun ino => set_i_block (ext2_write32 (i_block ino) (4 * block) result) ino) ;~
  ret result.

Definition bmap_walk (block : Z) (create : bool) : IM Z :=
  i <~ on_fs get_sb ;;
  let per := EXT2_ADDRS_PER_BLOCK i in
  if block <? EXT2_NDIR_BLOCKS then direct_block block create else
  if block <? ext2_double_start i then
    let index := block - ext2_single_start in
    indirect <~ ensure_root EXT2_IND_BLOCK ;;
    last_level indirect index create
  else if block <? ext2_triple_start i then
    let index := block - ext2_double_start i in
    dind <~ ensure_root EXT2_DIND_BLOCK ;;
    ind_block <~ next_level dind (index / per) ;;
    last_level ind_block (index mod per) create
  else
    let index := block - ext2_triple_start i in
    tind <~ ensure_root EXT2_TIND_BLOCK ;;
    dind_block <~ next_level tind (index / (per * per)) ;;
    ind_block <~ next_level dind_block ((index / per) mod per) ;;
    last_level ind_block (index mod per) create.

(** Every error ends as 0. *)
Definition ext2_bmap (block : Z) (create : bool) : IM Z :=
  r <~ try (bmap_walk block create) ;;
  ret (match r with Ok b => b | Er _ => 0 end).

(** ** The tree of blocks

    A path lists indices from the last one back to the slot of the inode. *)

Definition state : Type := inode * fs.

Fixpoint node (st : state) (rp : list Z) : Z :=
  match rp with
  | [] => 0
  | j :: rq =>
    let buf := match rq with [] => i_block st.1 | _ => if node st rq =? 0 then [] else blk st.2 (node st rq) end in
    le32 buf (4 * j)
  end.

(** The pointers found at the end of a path. *)
Definition content (st : state) (rq : list Z) : list Z :=
  match rq with [] => i_block st.1 | _ => if node st rq =? 0 then [] else blk st.2 (node st rq) end.

Lemma node_cons st j rq : node st (j :: rq) = le32 (content st rq) (4 * j).
Proof. done. Qed.

(** The number of levels below a slot of the inode. *)
Definition depth (h : Z) : nat :=
  if h <? 12 then 1%nat else if h =? 12 then 2%nat else if h =? 13 then 3%nat else 4%nat.

Fixpoint root (rp : list Z) : Z := match rp with [] => 0 | [h] => h | _ :: rq => root rq end.

Fixpoint valid (per : Z) (rp : list Z) : Prop :=
  match rp with
  | [] => False
  | [h] => 0 <= h < 15
  | j :: rq => 0 <= j < per /\ valid per rq /\ (length rq < depth (root rq))%nat
  end.

Lemma valid_cons per j rq : rq <> [] ->
  valid per (j :: rq) <-> 0 <= j < per /\ valid per rq /\ (length rq < depth (root rq))%nat.
Proof. by destruct rq. Qed.

Definition per_of (s : fs) : Z := EXT2_ADDRS_PER_BLOCK (sb s).

(** The blocks of the file are distinct, in use and apart from the metadata. *)
Record tree_ok (st : state) (F : gset Z) : Prop := {
  t_len : zlength (i_block st.1) = 60;
  t_u8 : Forall is_u8 (i_block st.1);
  t_used rp : valid (per_of st.2) rp -> node st rp <> 0 ->
    0 < node st rp < blocks_count (sb st.2) /\ (node st rp ∉ F) /\ ~ meta (sb st.2) (node st rp);
  t_inj rp rq : valid (per_of st.2) rp -> valid (per_of st.2) rq ->
    node st rp <> 0 -> node st rp = node st rq -> rp = rq;
}.

(** A consistent file system with a file in it, and no failures to come. *)
Record good (st : state) (F : gset Z) : Prop := {
  g_abs : abs st.2 F;
  g_tree : tree_ok st F;
  g_faults : faults st.2 = [];
  g_sem : s_sem st.2 = false;
}.

(** The tree depends on the pointers, the disk and the superblock only. *)
Lemma node_ext st st' rp : i_block st'.1 = i_block st.1 -> disk st'.2 = disk st.2 -> sb st'.2 = sb st.2 ->
  node st' rp = node st rp.
Proof.
  intros Hi Hd Hs. induction rp as [|j rq IH]; [done|]. rewrite !node_cons. unfold content.
  rewrite Hi, IH. unfold blk. by rewrite Hd, Hs.
Qed.

Lemma good_ext st st' F : i_block st'.1 = i_block st.1 -> disk st'.2 = disk st.2 -> sb st'.2 = sb st.2 ->
  faults st'.2 = faults st.2 -> s_sem st'.2 = s_sem st.2 -> good st F -> good st' F.
Proof.
  intros Hi Hd Hs Hf Hm [Ha [T1 T2 T3 T4] Hf' Hm']. constructor; [by apply (abs_ext st.2)| |congruence..].
  constructor; unfold per_of in *; rewrite ?Hi, ?Hs; try done.
  - intros rp. rewrite (node_ext st st') by done. apply T3.
  - intros rp rq. rewrite !(node_ext st st') by done. apply T4.
Qed.

(** ** One new block *)

Lemma per_facts s : geom (sb s) -> 256 <= per_of s <= 1024 /\ 4 * per_of s = block_size (sb s).
Proof.
  intros Hg. unfold per_of, EXT2_ADDRS_PER_BLOCK.
  destruct (geom_size _ Hg) as ([E|[E|E]] & _); rewrite E; vm_compute; intuition discriminate.
Qed.

Lemma free_block_facts s F b : abs s F -> b ∈ F -> 0 < b < blocks_count (sb s) /\ ~ meta (sb s) b.
Proof.
  intros Ha Hb. pose proof (first_block_range _ (a_geom _ _ Ha)) as Hfb.
  assert (Hm : ~ meta (sb s) b) by (intros Hm; by apply (a_meta _ _ Ha b)).
  destruct (proj1 (a_free _ _ Ha b) Hb) as [Hr _]. split; [|done].
  assert (b <> first_data_block (sb s)); [|lia]. intros ->. apply Hm. by left.
Qed.

(** What changes when a new block [b] is hung below the path [p] at index [k]. *)
Record extends (st : state) (F : gset Z) (st' : state) (p : list Z) (k b : Z) : Prop := {
  x_in : b ∈ F;
  x_abs : abs st'.2 (F ∖ {[b]});
  x_faults : faults st'.2 = [];
  x_sem : s_sem st'.2 = false;
  x_layout : same_layout (sb st.2) (sb st'.2);
  x_zero : blk st'.2 b = replicate (Z.to_nat (block_size (sb st.2))) 0;
  x_root : i_block st'.1 = if decide (p = []) then ext2_write32 (i_block st.1) (4 * k) b else i_block st.1;
  x_ptr : p <> [] -> blk st'.2 (node st p) = ext2_write32 (blk st.2 (node st p)) (4 * k) b;
  x_same c : 0 <= c -> c <> b -> (p <> [] -> c <> node st p) -> ~ meta (sb st.2) c -> blk st'.2 c = blk st.2 c;
}.

Section extend.
Context (st : state) (F : gset Z) (st' : state) (p : list Z) (k b : Z).
Hypothesis Hgood : good st F.
Hypothesis Hv : valid (per_of st.2) (k :: p).
Hypothesis Hp : p <> [] -> node st p <> 0.
Hypothesis Hhole : node st (k :: p) = 0.
Hypothesis Hx : extends st F st' p k b.

Lemma per_same : per_of st'.2 = per_of st.2.
Proof. destruct (x_layout _ _ _ _ _ _ Hx) as (E & _). unfold per_of, EXT2_ADDRS_PER_BLOCK. by rewrite E. Qed.

Lemma content_len rq : valid (per_of st.2) rq -> node st rq <> 0 ->
  zlength (content st rq) = 4 * per_of st.2.
Proof.
  intros Hq Hn. pose proof (a_geom _ _ (g_abs _ _ Hgood)) as Hg. destruct rq as [|j rq]; [done|].
  unfold content. rewrite (proj2 (Z.eqb_neq _ _)) by done.
  rewrite length_blk by (done || exact (a_disk _ _ (g_abs _ _ Hgood))). by rewrite (proj2 (per_facts _ Hg)).
Qed.

Lemma le32_zeros n o : le32 (replicate n 0) o = 0.
Proof.
  assert (E : forall i, byte_at (replicate n 0) i = 0).
  { intros i. unfold byte_at. destruct (replicate n 0 !! Z.to_nat i) eqn:El; [|done].
    by apply lookup_replicate in El as [-> _]. }
  unfold le32. by rewrite !E.
Qed.

(** The tree after: one new leaf. *)
Lemma extend_node rp : valid (per_of st.2) rp ->
  node st' rp = if decide (rp = k :: p) then b else node st rp.
Proof.
  destruct Hgood as [Ha [T1 T2 T3 T4] _ _]. pose proof (a_geom _ _ Ha) as Hg.
  destruct (per_facts _ Hg) as [Hper Hper4].
  destruct (free_block_facts _ _ _ Ha (x_in _ _ _ _ _ _ Hx)) as [Hb Hbm].
  pose proof (blocks_count_bound _ Hg) as Hbc.
  induction rp as [|j rq IH]; intros Hrp; [done|]. rewrite !node_cons. unfold content.
  destruct rq as [|h rq].
  - rewrite (x_root _ _ _ _ _ _ Hx). destruct (decide (p = [])) as [->|Hne].
    + simpl in Hrp, Hv. destruct (decide ([j] = [k])) as [[= ->]|Hjk].
      * apply read_write32; lia.
      * assert (j <> k) by congruence. apply read_write32_ne; lia.
    + rewrite decide_False by congruence. done.
  - apply valid_cons in Hrp as (Hj & Hrq & _); [|done]. specialize (IH Hrq). rewrite IH. clear IH.
    set (q := h :: rq) in *. assert (Hq0 : q <> []) by done. clearbody q.
    destruct (decide (q = k :: p)) as [Eq|Hqne].
    + rewrite decide_False by (intros [= _ E]; rewrite E in Eq; apply (f_equal length) in Eq; simpl in Eq; lia).
      rewrite (proj2 (Z.eqb_neq b 0)) by lia. rewrite (x_zero _ _ _ _ _ _ Hx).
      rewrite Eq, Hhole. by rewrite le32_zeros.
    + destruct (Z.eqb_spec (node st q) 0) as [E0|E0].
      * rewrite decide_False; [done|]. intros [= _ E]. subst q. by apply Hp in E0.
      * destruct (T3 q Hrq E0) as (Hr & HnF & Hnm). destruct (decide (q = p)) as [->|Hqp].
        -- rewrite (x_ptr _ _ _ _ _ _ Hx) by done.
           assert (Hk : 0 <= k < per_of st.2) by (apply valid_cons in Hv as (? & _); done).
           pose proof (length_blk _ Hg (a_disk _ _ Ha) (node st p)) as Hl.
           destruct (decide (j :: p = k :: p)) as [[= ->]|Hjk].
           ++ apply read_write32; lia.
           ++ assert (j <> k) by congruence. apply read_write32_ne; lia.
        -- rewrite (decide_False (P := j :: q = k :: p)) by congruence.
           rewrite (x_same _ _ _ _ _ _ Hx); [done|lia| |..|done].
           ++ intros E. rewrite E in HnF. by apply HnF, (x_in _ _ _ _ _ _ Hx).
           ++ intros Hpn E. apply Hqp. apply T4; try done.
              by apply valid_cons in Hv as (_ & ? & _).
Qed.

Lemma extend_good : good st' (F ∖ {[b]}).
Proof.
  pose proof Hgood as [Ha [T1 T2 T3 T4] _ _]. pose proof (a_geom _ _ Ha) as Hg.
  destruct (free_block_facts _ _ _ Ha (x_in _ _ _ _ _ _ Hx)) as [Hb Hbm].
  destruct (x_layout _ _ _ _ _ _ Hx) as (L1 & L2 & L3 & L4).
  constructor; [exact (x_abs _ _ _ _ _ _ Hx)| |exact (x_faults _ _ _ _ _ _ Hx)|exact (x_sem _ _ _ _ _ _ Hx)].
  constructor; rewrite ?per_same.
  - rewrite (x_root _ _ _ _ _ _ Hx). destruct (decide (p = [])) as [->|]; [|done].
    simpl in Hv. unfold zlength in *. rewrite length_write32; unfold zlength; lia.
  - rewrite (x_root _ _ _ _ _ _ Hx). destruct (decide (p = [])); [by apply write32_u8|done].
  - intros rp Hrp. rewrite extend_node by done. rewrite L3, L4.
    destruct (decide (rp = k :: p)); [intros _; set_solver|].
    intros Hn. destruct (T3 rp Hrp Hn) as (? & ? & ?). set_solver.
  - intros rp rq Hrp Hrq. rewrite !extend_node by done.
    destruct (decide (rp = k :: p)) as [->|]; destruct (decide (rq = k :: p)) as [->|]; try done.
    + intros _ E. destruct (T3 rq Hrq) as (_ & HF & _); [lia|]. rewrite <- E in HF.
      destruct HF. exact (x_in _ _ _ _ _ _ Hx).
    + intros Hn E. destruct (T3 rp Hrp Hn) as (_ & HF & _). rewrite E in HF.
      destruct HF. exact (x_in _ _ _ _ _ _ Hx).
    + apply T4; done.
Qed.
End extend.

(** ** Progress of an operation on the path [T]

    What an operation may do to the tree: add blocks along [T], out of the free
    set, and rewrite pointer blocks of the file. *)
Record grows (T : list Z) (st : state) (F : gset Z) (st' : state) (F' : gset Z) : Prop := {
  gr_good : good st' F';
  gr_free : F' ⊆ F;
  gr_layout : same_layout (sb st.2) (sb st'.2);
  gr_bufs : bufs st'.2 = bufs st.2;
  gr_keep rp : valid (per_of st.2) rp -> node st rp <> 0 -> node st' rp = node st rp;
  gr_off rp : valid (per_of st.2) rp -> ~ rp `suffix_of` T -> node st' rp = node st rp;
  gr_frame c : 0 < c -> c ∉ F -> ~ meta (sb st.2) c ->
    (forall rp, valid (per_of st.2) rp -> (length rp < depth (root rp))%nat -> node st' rp <> c) ->
    blk st'.2 c = blk st.2 c;
}.

Lemma grows_refl T st F : good st F -> grows T st F st F.
Proof. intros Hg. by constructor. Qed.

Lemma layout_per i i' s s' : sb s = i -> sb s' = i' -> same_layout i i' -> per_of s' = per_of s.
Proof. intros <- <- (E & _). unfold per_of, EXT2_ADDRS_PER_BLOCK. by rewrite E. Qed.

Lemma grows_trans T st F st1 F1 st2 F2 :
  grows T st F st1 F1 -> grows T st1 F1 st2 F2 -> grows T st F st2 F2.
Proof.
  intros [G1 G2 G3 G4 G5 G6 G7] [H1 H2 H3 H4 H5 H6 H7].
  assert (Eper : per_of st1.2 = per_of st.2) by (by eapply layout_per). rewrite Eper in *.
  destruct G3 as (L1 & L2 & L3 & L4), H3 as (L1' & L2' & L3' & L4').
  constructor; [done|set_solver| |congruence|..].
  - split; [congruence|]. split; [congruence|]. split; [congruence|]. intros c. by rewrite L4', L4.
  - intros rp Hv Hn. rewrite H5; [by apply G5|done|]. by rewrite G5.
  - intros rp Hv Hs. by rewrite H6, G6.
  - intros c Hc HF Hm Hfree. rewrite H7; [|done|set_solver|by rewrite L4|by rewrite ?Eper].
    apply G7; try done. intros rp Hv Hlt E. apply (Hfree rp Hv Hlt). rewrite H5; try done.
    rewrite E. lia.
Qed.

(** A new block below a path that leads to [T]. *)
Lemma extends_grows T st F st' p k b : good st F -> valid (per_of st.2) (k :: p) ->
  (p <> [] -> node st p <> 0) -> node st (k :: p) = 0 -> extends st F st' p k b ->
  (k :: p) `suffix_of` T -> bufs st'.2 = bufs st.2 ->
  grows T st F st' (F ∖ {[b]}) /\ node st' (k :: p) = b /\ 0 < b.
Proof.
  intros Hg Hv Hp Hh Hx HT Hb. pose proof (extend_node st F st' p k b Hg Hv Hp Hh Hx) as Hn.
  destruct (free_block_facts _ _ _ (g_abs _ _ Hg) (x_in _ _ _ _ _ _ Hx)) as [Hbr _].
  split; [|split; [by rewrite Hn, decide_True|lia]].
  constructor.
  - by apply (extend_good st F st' p k b).
  - set_solver.
  - exact (x_layout _ _ _ _ _ _ Hx).
  - done.
  - intros rp Hrp Hnz. rewrite Hn by done. rewrite decide_False; [done|]. intros ->. congruence.
  - intros rp Hrp Hs. rewrite Hn by done. rewrite decide_False; [done|]. by intros ->.
  - intros c Hc HF Hm Hfree. apply (x_same _ _ _ _ _ _ Hx); [lia| | |done].
    + intros ->. apply HF, (x_in _ _ _ _ _ _ Hx).
    + intros Hpn E. apply valid_cons in Hv as (_ & Hvp & Hlt); [|done]. apply (Hfree p Hvp Hlt).
      rewrite Hn by done. rewrite decide_False; [done|]. intros E'. apply (f_equal length) in E'. simpl in E'. lia.
Qed.

Lemma on_fs_run {A} (m : M A) ino s r s' : m s = (r, s') -> on_fs m (ino, s) = (r, (ino, s')).
Proof. intros E. unfold on_fs. cbn [fst snd]. by rewrite E. Qed.

(** [ext2_new_block] takes a free block and clears it, or fails on a full disk. *)
Lemma new_block_ok st F : good st F ->
  (F = ∅ /\ ext2_new_block st = (Er (- ENOSPC), st)) \/
  exists b s', b ∈ F /\
    ext2_new_block st = (Ok b, (account (block_size (sb st.2) / 512) st.1, s')) /\
    abs s' (F ∖ {[b]}) /\ faults s' = [] /\ s_sem s' = false /\ bufs s' = bufs st.2 /\
    same_layout (sb st.2) (sb s') /\
    blk s' b = replicate (Z.to_nat (block_size (sb st.2))) 0 /\
    forall c, 0 <= c -> c <> b -> ~ meta (sb st.2) c -> blk s' c = blk st.2 c.
Proof.
  intros [Ha _ Hf Hs]. destruct st as [ino s]. cbn [fst snd] in *.
  pose proof (ext2_alloc_block_spec s F 0 Ha Hf Hs) as Hal.
  destruct (ext2_alloc_block 0 s) as [[b|e] s1] eqn:E.
  2:{ left. destruct Hal as (-> & -> & ->). split; [done|]. unfold ext2_new_block.
      by rewrite (bind_er _ _ _ _ _ (on_fs_run _ _ _ _ _ E)). }
  right. destruct Hal as (Hin & Ha1 & (O1 & O2 & O3 & O4 & O5) & _).
  destruct (free_block_facts _ _ _ Ha Hin) as [Hb Hbm].
  pose proof O5 as (L1 & L2 & L3 & L4). pose proof (a_geom _ _ Ha1) as Hg1. pose proof (a_disk _ _ Ha1) as Hd1.
  assert (Hz : zlength (replicate (Z.to_nat (block_size (sb s1))) 0) = block_size (sb s1)).
  { unfold zlength. rewrite length_replicate. destruct (geom_size _ Hg1) as ([Es|[Es|Es]] & _); rewrite Es; lia. }
  assert (Hu : Forall is_u8 (replicate (Z.to_nat (block_size (sb s1))) 0)).
  { apply Forall_replicate. unfold is_u8. lia. }
  exists b, (put_block b (replicate (Z.to_nat (block_size (sb s1))) 0) s1).
  split; [done|]. split; [|split; [|split; [|split; [|split; [|split; [|split]]]]]].
  - set (s2 := set_bufs (bufs s1 + 1) s1). unfold ext2_new_block.
    rewrite (bind_ok _ _ _ _ _ (on_fs_run _ _ _ _ _ E)).
    assert (Hf1 : faults s1 = []) by congruence.
    rewrite (bind_try _ _ _ _ _ (on_fs_run _ ino _ _ _ (kmalloc_ok s1 Hf1))).
    rewrite (bind_ok _ _ _ _ _ (on_fs_run get_sb ino s2 _ _ eq_refl)).
    assert (Hw : ext2_write_block b (replicate (Z.to_nat (block_size (sb s2))) 0) s2
      = (Ok tt, put_block b (replicate (Z.to_nat (block_size (sb s1))) 0) s2)).
    { apply write_block_ok; [done|done|]. change (sb s2) with (sb s1). lia. }
    rewrite (bind_try _ _ _ _ _ (on_fs_run _ ino _ _ _ Hw)).
    rewrite (bind_ok _ _ _ _ _ (on_fs_run kfree ino _ _ _ eq_refl)).
    unfold bind, put_inode, modify, ret. cbn [fst snd]. change (sb s2) with (sb s1). rewrite L1. do 3 f_equal.
    unfold put_block, set_dirty, set_disk, set_bufs, s2. cbn. by rewrite Z.add_simpl_r.
  - apply abs_put; try done; [lia|]. by rewrite L4.
  - cbn. congruence.
  - cbn. congruence.
  - cbn. congruence.
  - done.
  - rewrite (blk_put s1 Hg1), decide_True by (done || lia). by rewrite L1.
  - intros c Hc Hne Hm. rewrite (blk_put s1 Hg1), decide_False by (done || lia). by apply O1.
Qed.

(** ** The levels *)

(** A block just allocated: it was free and is cleared. *)
Definition fresh (st : state) (F : gset Z) (st' : state) (b : Z) : Prop :=
  b ∈ F /\ blk st'.2 b = replicate (Z.to_nat (block_size (sb st.2))) 0.

(** What a step promises: it grows the tree along [T] and returns the block at
    [q], or fails because no block is free any more. *)
Definition reaches (T : list Z) (st : state) (F : gset Z) (q : list Z) (x : res Z * state) : Prop :=
  exists F', grows T st F x.2 F' /\
  match x.1 with
  | Ok b => 0 < b /\ node x.2 q = b /\ (node st q = 0 -> fresh st F x.2 b)
  | Er _ => F' = ∅ /\ node x.2 q = 0
  end.

Lemma node_pos st F rp : good st F -> valid (per_of st.2) rp -> node st rp = 0 \/ 0 < node st rp.
Proof.
  intros [_ Ht _ _] Hv. destruct (Z.eqb_spec (node st rp) 0) as [E|E]; [by left|].
  right. destruct (t_used _ _ Ht rp Hv E). lia.
Qed.

(** Rewriting blocks with what they hold. *)
Lemma grows_same T st F st' : good st F -> abs st'.2 F -> faults st'.2 = [] -> s_sem st'.2 = false ->
  same_layout (sb st.2) (sb st'.2) -> bufs st'.2 = bufs st.2 -> i_block st'.1 = i_block st.1 ->
  (forall c, 0 <= c -> blk st'.2 c = blk st.2 c) ->
  grows T st F st' F /\ forall rp, valid (per_of st.2) rp -> node st' rp = node st rp.
Proof.
  intros Hg Ha Hf Hs Hl Hb Hi Hblk.
  assert (Eper : per_of st'.2 = per_of st.2) by (by eapply layout_per).
  assert (Hn : forall rp, valid (per_of st.2) rp -> node st' rp = node st rp).
  { induction rp as [|j rq IH]; intros Hv; [done|]. rewrite !node_cons. unfold content.
    destruct rq as [|h rq]; [by rewrite Hi|]. apply valid_cons in Hv as (_ & Hv & _); [|done].
    rewrite IH by done. destruct (node_pos st F (h :: rq) Hg Hv) as [-> |]; [done|].
    by rewrite Hblk by lia. }
  split; [|exact Hn]. destruct Hg as [Ha0 [T1 T2 T3 T4] Hf0 Hs0]. destruct Hl as (L1 & L2 & L3 & L4).
  constructor; try done.
  - constructor; try done. constructor; rewrite ?Eper, ?Hi; try done.
    + intros rp Hv. rewrite Hn by done. rewrite L3, L4. by apply T3.
    + intros rp rq Hv Hv'. rewrite !Hn by done. by apply T4.
  - intros rp Hv _. by apply Hn.
  - intros rp Hv _. by apply Hn.
  - intros c Hc _ _ _. apply Hblk. lia.
Qed.

(** Makes sure that entry [index] of the pointer block [blk] names a block. *)
Definition ensure_entry (blk index : Z) (ptrs : list Z) : IM Z :=
  x <~ ext2_ensure_indirect ptrs (4 * index) ;;
  (ext2_store_ptrs blk x.2 ;~ ret x.1).

Lemma store_run st F c buf : good st F -> 0 <= c < blocks_count (sb st.2) ->
  ext2_store_ptrs c buf st = (Ok tt, (st.1, put_block c buf st.2)).
Proof.
  intros [Ha _ Hf _] Hc. destruct st as [ino s]. apply on_fs_run.
  apply write_block_ok; [exact (a_geom _ _ Ha)|done|done].
Qed.

Lemma ensure_entry_ok T st F p k : good st F -> valid (per_of st.2) (k :: p) -> p <> [] ->
  node st p <> 0 -> (k :: p) `suffix_of` T ->
  reaches T st F (k :: p) (ensure_entry (node st p) k (blk st.2 (node st p)) st).
Proof.
  intros Hg Hv Hpn Hp HT. pose proof Hg as [Ha Ht Hf Hs]. pose proof (a_geom _ _ Ha) as Hgeom.
  pose proof (proj1 (valid_cons _ _ _ Hpn) Hv) as (Hk & Hvp & Hlt).
  destruct (t_used _ _ Ht p Hvp Hp) as (Hr & HnF & Hnm).
  destruct (per_facts _ Hgeom) as [Hper Hper4].
  pose proof (length_blk _ Hgeom (a_disk _ _ Ha) (node st p)) as Hlen.
  pose proof (blk_u8 st.2 (a_disk _ _ Ha) (node st p)) as Hu8.
  assert (Enode : ext2_read32 (blk st.2 (node st p)) (4 * k) = node st (k :: p)).
  { rewrite node_cons. unfold content. destruct p as [|h p]; [done|]. by rewrite (proj2 (Z.eqb_neq _ _)). }
  unfold ensure_entry, ext2_ensure_indirect. rewrite Enode.
  destruct (Z.eqb_spec (node st (k :: p)) 0) as [E0|E0]; cbn [negb].
  - destruct (new_block_ok st F Hg) as [[-> E]|(b & s' & Hin & E & Ha1 & Hf1 & Hs1 & Hb1 & Hl1 & Hz & Hsame)].
    { rewrite (bind_er _ _ _ _ _ (bind_er _ _ _ _ _ E)). exists ∅. split; [by apply grows_refl|done]. }
    destruct (free_block_facts _ _ _ Ha Hin) as [Hb Hbm].
    rewrite (bind_ok _ _ _ _ _ (bind_ok _ _ _ _ _ E)).
    set (st1 := (account _ _, s')). cbn [fst snd].
    pose proof Hl1 as (L1 & L2 & L3 & L4).
    assert (Hw : ext2_store_ptrs (node st p) (ext2_write32 (blk st.2 (node st p)) (4 * k) b) st1
      = (Ok tt, (st1.1, put_block (node st p) (ext2_write32 (blk st.2 (node st p)) (4 * k) b) s'))).
    { apply on_fs_run, write_block_ok; [exact (a_geom _ _ Ha1)|done|lia]. }
    rewrite (bind_ok _ _ _ _ _ Hw). cbn [fst snd ret].
    assert (Hwl : zlength (ext2_write32 (blk st.2 (node st p)) (4 * k) b) = block_size (sb s')).
    { unfold zlength in *. rewrite length_write32 by (unfold zlength; lia). lia. }
    set (st' := (st1.1, _)) in Hw |- *.
    assert (Hx : extends st F st' p k b).
    { constructor; unfold st'; cbn [fst snd]; try done.
      - apply abs_put; [done|lia|by rewrite L4|done|by apply write32_u8].
      - rewrite (blk_put s' (a_geom _ _ Ha1)), decide_False; [done| |lia|lia|done].
        intros ->. by destruct HnF.
      - by rewrite decide_False.
      - intros _. rewrite (blk_put s' (a_geom _ _ Ha1)), decide_True by (done || lia). done.
      - intros c Hc Hne Hnp Hm. rewrite (blk_put s' (a_geom _ _ Ha1)), decide_False; [by apply Hsame| |lia|done|done].
        by apply Hnp. }
    destruct (extends_grows T st F st' p k b) as (Hgr & Hn & Hpos); try done.
    exists (F ∖ {[b]}). split; [exact Hgr|]. split; [done|]. split; [exact Hn|].
    intros _. split; [done|]. exact (x_zero _ _ _ _ _ _ Hx).
  - rewrite bind_ret. cbn [fst snd].
    rewrite (bind_ok _ _ _ _ _ (store_run st F _ _ Hg (conj (Z.lt_le_incl _ _ (proj1 Hr)) (proj2 Hr)))).
    destruct (grows_same T st F (st.1, put_block (node st p) (blk st.2 (node st p)) st.2)) as [Hgr Hn]; try done.
    { apply abs_put; try done. lia. }
    { intros c Hc. cbn [fst snd]. rewrite (blk_put st.2 Hgeom) by (done || lia). by destruct (decide (c = node st p)) as [->|]. }
    exists F. cbn [fst snd ret]. split; [exact Hgr|]. rewrite Hn by done.
    destruct (node_pos st F (k :: p) Hg Hv); [done|]. split; [lia|]. split; [done|]. by intros ?.
Qed.

(** A computation on the pointers of block [blk], read into a buffer. *)
Definition with_ptrs (blk : Z) (k : list Z -> IM Z) : IM Z :=
  ptrs <~ ext2_load_ptrs blk ;;
  r <~ try (k ptrs) ;;
  on_fs kfree ;~
  lift r.

Lemma next_level_eq blk index st : next_level blk index st = with_ptrs blk (ensure_entry blk index) st.
Proof.
  unfold next_level, with_ptrs. destruct (ext2_load_ptrs blk st) as [[ptrs|e] st1] eqn:E.
  2:{ by rewrite !(bind_er _ _ _ _ _ E). }
  rewrite !(bind_ok _ _ _ _ _ E). unfold ensure_entry, try, bind.
  destruct (ext2_ensure_indirect ptrs (4 * index) st1) as [[x|e] st2]; [|done].
  by destruct (ext2_store_ptrs blk x.2 st2) as [[[]|e] st3].
Qed.

(** The file system with one more buffer, or one less. *)
Definition bump (d : Z) (st : state) : state := (st.1, set_bufs (bufs st.2 + d) st.2).

Lemma bump_back st : bump (-1) (bump 1 st) = st.
Proof. destruct st as [ino []]. unfold bump, set_bufs. cbn. do 2 f_equal. lia. Qed.

Lemma good_bump d st F : good st F -> good (bump d st) F.
Proof. by apply good_ext. Qed.

Lemma node_bump d st rp : node (bump d st) rp = node st rp.
Proof. by apply node_ext. Qed.

Lemma grows_bump T st F st' F' : grows T (bump 1 st) F st' F' -> grows T st F (bump (-1) st') F'.
Proof.
  intros [G1 G2 G3 G4 G5 G6 G7]. constructor; try done.
  - by apply good_bump.
  - cbn in *. lia.
  - intros rp Hv Hn. rewrite node_bump, G5 by (done || by rewrite node_bump). apply node_bump.
  - intros rp Hv Hs. rewrite node_bump, G6 by done. apply node_bump.
  - intros c Hc HF Hm Hfree. apply G7; try done. intros rp Hv Hl. rewrite <- (node_bump (-1)). by apply Hfree.
Qed.

Lemma load_run st F c : good st F -> 0 <= c < blocks_count (sb st.2) ->
  ext2_load_ptrs c st = (Ok (blk st.2 c), bump 1 st).
Proof.
  intros [Ha _ Hf _] Hc. destruct st as [ino s]. unfold ext2_load_ptrs.
  rewrite (bind_ok _ _ _ _ _ (on_fs_run _ ino _ _ _ (kmalloc_ok s Hf))).
  apply on_fs_run. change (blk (ino, s).2 c) with (blk (set_bufs (bufs s + 1) s) c).
  by apply read_block_ok; [exact (a_geom _ _ Ha)|..].
Qed.

Lemma with_ptrs_ok T st F q c k : good st F -> 0 <= c < blocks_count (sb st.2) ->
  reaches T (bump 1 st) F q (k (blk st.2 c) (bump 1 st)) -> reaches T st F q (with_ptrs c k st).
Proof.
  intros Hg Hc (F' & Hgr & Hr). unfold with_ptrs. rewrite (bind_ok _ _ _ _ _ (load_run st F c Hg Hc)).
  destruct (k (blk st.2 c) (bump 1 st)) as [r st'] eqn:E. rewrite (bind_try _ _ _ _ _ E).
  exists F'. split; [by apply grows_bump|].
  change (match r with Ok b => 0 < b /\ node (bump (-1) st') q = b /\ (node st q = 0 -> fresh st F (bump (-1) st') b)
    | Er _ => F' = ∅ /\ node (bump (-1) st') q = 0 end).
  destruct r as [b|e]; rewrite !node_bump in *; done.
Qed.

Lemma next_level_ok T st F p k : good st F -> valid (per_of st.2) (k :: p) -> p <> [] ->
  node st p <> 0 -> (k :: p) `suffix_of` T ->
  reaches T st F (k :: p) (next_level (node st p) k st).
Proof.
  intros Hg Hv Hpn Hp HT. rewrite next_level_eq.
  pose proof (proj1 (valid_cons _ _ _ Hpn) Hv) as (_ & Hvp & _).
  destruct (t_used _ _ (g_tree _ _ Hg) p Hvp Hp) as (Hr & _).
  apply with_ptrs_ok; [done|lia|]. rewrite <- (node_bump 1 st p) at 1.
  change (blk st.2 (node st p)) with (blk (bump 1 st).2 (node st p)). rewrite <- (node_bump 1 st p) at 1.
  apply ensure_entry_ok; try done; [by apply good_bump|by rewrite node_bump].
Qed.

(** The last level: with [create] a block is found or made, else only looked up. *)
Lemma last_level_ok T st F p k : good st F -> valid (per_of st.2) (k :: p) -> p <> [] ->
  node st p <> 0 -> (k :: p) `suffix_of` T ->
  reaches T st F (k :: p) (last_level (node st p) k true st) /\
  last_level (node st p) k false st = (Ok (node st (k :: p)), st).
Proof.
  intros Hg Hv Hpn Hp HT.
  pose proof (proj1 (valid_cons _ _ _ Hpn) Hv) as (_ & Hvp & _).
  destruct (t_used _ _ (g_tree _ _ Hg) p Hvp Hp) as (Hr & _).
  assert (Enode : ext2_read32 (blk st.2 (node st p)) (4 * k) = node st (k :: p)).
  { rewrite node_cons. unfold content. destruct p as [|h p]; [done|]. by rewrite (proj2 (Z.eqb_neq _ _)). }
  assert (Hload := load_run st F (node st p) Hg ltac:(lia)).
  assert (Hfound : (on_fs kfree ;~ ret (node st (k :: p))) (bump 1 st) = (Ok (node st (k :: p)), st)).
  { rewrite <- (bump_back st) at 3. done. }
  split; unfold last_level; rewrite (bind_ok _ _ _ _ _ Hload), Enode, ?andb_false_r, ?andb_true_r; [|exact Hfound].
  destruct (Z.eqb_spec (node st (k :: p)) 0) as [E0|E0].
  - assert (Hw : reaches T st F (k :: p) (with_ptrs (node st p) (ensure_entry (node st p) k) st)).
    { rewrite <- next_level_eq. by apply next_level_ok. }
    unfold with_ptrs in Hw. by rewrite (bind_ok _ _ _ _ _ Hload) in Hw.
  - rewrite Hfound. exists F. cbn [fst snd]. split; [by apply grows_refl|].
    destruct (node_pos st F (k :: p) Hg Hv); [done|]. split; [lia|]. done.
Qed.

(** A pointer of the inode. *)
Lemma root_extends T st F k : good st F -> 0 <= k < 15 -> [k] `suffix_of` T -> node st [k] = 0 ->
  (F = ∅ /\ ext2_new_block st = (Er (- ENOSPC), st)) \/
  exists b s', ext2_new_block st = (Ok b, (account (block_size (sb st.2) / 512) st.1, s')) /\
    forall st', st'.2 = s' -> i_block st'.1 = ext2_write32 (i_block st.1) (4 * k) b ->
      reaches T st F [k] (Ok b, st').
Proof.
  intros Hg Hk HT Hh. destruct (new_block_ok st F Hg) as [?|(b & s' & Hin & E & Ha1 & Hf1 & Hs1 & Hb1 & Hl1 & Hz & Hsame)];
    [by left|]. right. exists b, s'. split; [done|]. intros st' <- Hroot.
  assert (Hx : extends st F st' [] k b).
  { constructor; try done. intros c Hc Hne _ Hm. by apply Hsame. }
  destruct (extends_grows T st F st' [] k b) as (Hgr & Hn & Hpos); try done.
  exists (F ∖ {[b]}). split; [exact Hgr|]. split; [done|]. split; [exact Hn|]. by intros _.
Qed.

Lemma ensure_root_ok T st F k : good st F -> 0 <= k < 15 -> [k] `suffix_of` T ->
  reaches T st F [k] (ensure_root k st).
Proof.
  intros Hg Hk HT. unfold ensure_root. rewrite (bind_ok get_inode _ _ _ _ eq_refl).
  unfold ext2_ensure_indirect. change (ext2_read32 (i_block st.1) (4 * k)) with (node st [k]).
  destruct (Z.eqb_spec (node st [k]) 0) as [E0|E0]; cbn [negb].
  - destruct (root_extends T st F k Hg Hk HT E0) as [[-> E]|(b & s' & E & Hr)].
    + rewrite (bind_er _ _ _ _ _ (bind_er _ _ _ _ _ E)). exists ∅. split; [by apply grows_refl|done].
    + rewrite (bind_ok _ _ _ _ _ (bind_ok _ _ _ _ _ E)). cbn [fst snd]. by apply Hr.
  - rewrite bind_ret. cbn [fst snd].
    assert (E : (put_inode (set_i_block (i_block st.1)) ;~ ret (node st [k])) st = (Ok (node st [k]), st)).
    { destruct st as [[] s]. done. }
    rewrite E. exists F. cbn [fst snd]. split; [by apply grows_refl|].
    destruct (node_pos st F [k] Hg Hk); [done|]. split; [lia|]. done.
Qed.

Lemma direct_block_ok T st F k : good st F -> 0 <= k < 12 -> [k] `suffix_of` T ->
  reaches T st F [k] (direct_block k true st) /\ direct_block k false st = (Ok (node st [k]), st).
Proof.
  intros Hg Hk HT. unfold direct_block. rewrite !(bind_ok get_inode _ _ _ _ eq_refl).
  change (ext2_read32 (i_block st.1) (4 * k)) with (node st [k]).
  destruct (Z.eqb_spec (node st [k]) 0) as [E0|E0]; cbn [negb].
  - split; [|by rewrite E0]. destruct (root_extends T st F k Hg ltac:(lia) HT E0) as [[-> E]|(b & s' & E & Hr)].
    + rewrite (bind_er _ _ _ _ _ E). exists ∅. split; [by apply grows_refl|done].
    + rewrite (bind_ok _ _ _ _ _ E). by apply Hr.
  - split; [|done]. exists F. cbn [fst snd ret]. split; [by apply grows_refl|].
    destruct (node_pos st F [k] Hg ltac:(simpl; lia)); [done|]. split; [lia|]. done.
Qed.

(** ** The path of a logical block *)

Definition path_of (per n : Z) : list Z :=
  if n <? 12 then [n] else
  if n <? 12 + per then [n - 12; 12] else
  if n <? 12 + per + per * per then
    let x := n - (12 + per) in [x mod per; x / per; 13]
  else
    let x := n - (12 + per + per * per) in [x mod per; (x / per) mod per; x / (per * per); 14].

(** The number of blocks the pointers can name. *)
Definition max_blocks (per : Z) : Z := 12 + per + per * per + per * per * per.

(** What a file maps its logical block [n] to; 0 is a hole. *)
Definition fmap (st : state) (n : Z) : Z := node st (path_of (per_of st.2) n).

Section path.
Context (per : Z).
Hypothesis Hper : 0 < per.

Lemma path_valid n : 0 <= n < max_blocks per ->
  valid per (path_of per n) /\ length (path_of per n) = depth (root (path_of per n)).
Proof.
  intros Hn. unfold path_of, max_blocks in *.
  destruct (Z.ltb_spec n 12) as [|H1].
  { simpl. unfold depth. rewrite (proj2 (Z.ltb_lt n 12)) by lia. split; [lia|done]. }
  destruct (Z.ltb_spec n (12 + per)) as [|H2]; [simpl; repeat split; try lia; unfold depth; simpl; lia|].
  destruct (Z.ltb_spec n (12 + per + per * per)) as [|H3].
  - set (x := n - (12 + per)) in *. cbn zeta. pose proof (Z.mod_pos_bound x per Hper).
    pose proof (Z.div_pos x per ltac:(lia) Hper). pose proof (Z.div_lt_upper_bound x per per Hper ltac:(lia)).
    simpl. unfold depth; simpl. repeat split; try lia.
  - set (x := n - (12 + per + per * per)) in *. cbn zeta. pose proof (Z.mod_pos_bound x per Hper).
    pose proof (Z.mod_pos_bound (x / per) per Hper). pose proof (Z.div_pos x (per * per) ltac:(lia) ltac:(nia)).
    pose proof (Z.div_lt_upper_bound x (per * per) per ltac:(nia) ltac:(lia)).
    simpl. unfold depth; simpl. repeat split; try lia.
Qed.

Lemma path_inj n m : 0 <= n -> 0 <= m -> path_of per n = path_of per m -> n = m.
Proof.
  intros Hn Hm. unfold path_of.
  destruct (Z.ltb_spec n 12), (Z.ltb_spec m 12); try (intros [=]; lia);
  destruct (Z.ltb_spec n (12 + per)); try (intros [=]; lia);
  destruct (Z.ltb_spec m (12 + per)); try (intros [=]; lia);
  destruct (Z.ltb_spec n (12 + per + per * per)); try (intros [=]; lia);
  destruct (Z.ltb_spec m (12 + per + per * per)); try (intros [=]; lia); cbn zeta.
  - set (x := n - _). set (y := m - _). intros [= E1 E2].
    pose proof (Z.div_mod x per ltac:(lia)). pose proof (Z.div_mod y per ltac:(lia)).
    assert (x = y) by congruence. lia.
  - set (x := n - _). set (y := m - _). intros [= E1 E2 E3].
    rewrite <- !Z.div_div in E3 by lia.
    pose proof (Z.div_mod x per ltac:(lia)). pose proof (Z.div_mod y per ltac:(lia)).
    pose proof (Z.div_mod (x / per) per ltac:(lia)). pose proof (Z.div_mod (y / per) per ltac:(lia)).
    assert (x / per = y / per) by congruence. assert (x = y) by congruence. lia.
Qed.

(** The path of one logical block does not pass through another's. *)
Lemma path_apart n m : 0 <= n < max_blocks per -> 0 <= m < max_blocks per -> m <> n ->
  ~ path_of per m `suffix_of` path_of per n.
Proof.
  intros Hn Hm Hne [l E]. destruct (path_valid n Hn) as [_ Ln]. destruct (path_valid m Hm) as [_ Lm].
  assert (Hroot : forall l rq, rq <> [] -> root (l ++ rq) = root rq).
  { induction l0 as [|h l0 IH]; intros rq Hrq; [done|]. cbn [app root].
    destruct (l0 ++ rq) eqn:El; [|rewrite <- El; by apply IH].
    apply app_eq_nil in El as [_ ->]. done. }
  assert (Hmne : path_of per m <> []).
  { intros E'. rewrite E' in Lm. revert Lm. simpl. unfold depth. simpl. lia. }
  assert (Hlen : length (path_of per n) = length (path_of per m)).
  { rewrite Ln, Lm, E. by rewrite Hroot. }
  rewrite E, length_app in Hlen. destruct l; [|simpl in Hlen; lia].
  apply Hne, path_inj; [lia..|]. by rewrite E.
Qed.
End path.

(** ** Composing the levels *)

Lemma suffix_self (q : list Z) : q `suffix_of` q.
Proof. by exists []. Qed.

Lemma suffix_tail (l q : list Z) : q `suffix_of` l ++ q.
Proof. by exists l. Qed.


Lemma grows_mono T T' st F st' F' : T `suffix_of` T' -> grows T st F st' F' -> grows T' st F st' F'.
Proof.
  intros HT [G1 G2 G3 G4 G5 G6 G7]. constructor; try done.
  intros rp Hv Hs. apply G6; [done|]. intros ?. apply Hs. by etrans.
Qed.

(** Nothing lies below a hole. *)
Lemma node_below st l q : q <> [] -> node st q = 0 -> node st (l ++ q) = 0.
Proof.
  intros Hq Hn. induction l as [|j l IH]; [done|]. cbn [app]. rewrite node_cons. unfold content.
  destruct (l ++ q) eqn:E; [apply app_eq_nil in E as [_ ->]; done|]. by rewrite IH.
Qed.

(** A lookup: it returns what was mapped, and may only have added blocks along [T]. *)
Definition looks (T : list Z) (st : state) (F : gset Z) (q : list Z) (x : res Z * state) : Prop :=
  exists F', grows T st F x.2 F' /\ node x.2 q = node st q /\
  match x.1 with Ok b => node st q = b | Er _ => node st q = 0 end.

Lemma longer_no_suffix (l q : list Z) : l <> [] -> ~ (l ++ q) `suffix_of` q.
Proof. intros Hl Hs. apply suffix_length in Hs. rewrite length_app in Hs. destruct l; [done|simpl in Hs; lia]. Qed.

Section compose.
Context (T : list Z) (st : state) (F : gset Z) (l q : list Z).
Hypothesis Hl : l <> [].
Hypothesis Hq : q <> [].
Hypothesis Hv : valid (per_of st.2) (l ++ q).
Hypothesis HT : q `suffix_of` T.

Lemma reaches_bind m k : reaches q st F q (m st) ->
  (forall st1 F1 b, good st1 F1 -> per_of st1.2 = per_of st.2 -> 0 < b -> node st1 q = b ->
     reaches T st1 F1 (l ++ q) (k b st1)) ->
  reaches T st F (l ++ q) (bind m k st).
Proof.
  intros (F1 & Hgr & Hr) Hk. destruct (m st) as [[b|e] st1] eqn:E; cbn [fst snd] in *.
  - rewrite (bind_ok _ _ _ _ _ E). destruct Hr as (Hb & Hn & _).
    assert (Eper : per_of st1.2 = per_of st.2) by (eapply layout_per; [done|done|apply Hgr]).
    destruct (Hk st1 F1 b (gr_good _ _ _ _ _ Hgr) Eper Hb Hn) as (F2 & Hgr2 & Hr2).
    exists F2. split; [eapply grows_trans; [by eapply grows_mono|exact Hgr2]|].
    destruct (k b st1).1 as [b2|e]; [|done]. destruct Hr2 as (? & ? & Hfr). split; [done|]. split; [done|].
    intros Hz. rewrite <- (gr_off _ _ _ _ _ Hgr) in Hz by (done || by apply longer_no_suffix).
    destruct (Hfr Hz) as [Hin Hzero]. split; [by apply (gr_free _ _ _ _ _ Hgr)|].
    by rewrite <- (proj1 (gr_layout _ _ _ _ _ Hgr)).
  - rewrite (bind_er _ _ _ _ _ E). destruct Hr as [-> Hn]. exists ∅. split; [by eapply grows_mono|].
    cbn [fst snd]. split; [done|]. by apply node_below.
Qed.

Lemma looks_bind m k : reaches q st F q (m st) ->
  (forall st1 F1 b, good st1 F1 -> per_of st1.2 = per_of st.2 -> 0 < b -> node st1 q = b ->
     looks T st1 F1 (l ++ q) (k b st1)) ->
  looks T st F (l ++ q) (bind m k st).
Proof.
  intros (F1 & Hgr & Hr) Hk.
  assert (Hsame : node (m st).2 (l ++ q) = node st (l ++ q))
    by (apply (gr_off _ _ _ _ _ Hgr); [done|by apply longer_no_suffix]).
  destruct (m st) as [[b|e] st1] eqn:E; cbn [fst snd] in *.
  - rewrite (bind_ok _ _ _ _ _ E). destruct Hr as (Hb & Hn & _).
    assert (Eper : per_of st1.2 = per_of st.2) by (eapply layout_per; [done|done|apply Hgr]).
    destruct (Hk st1 F1 b (gr_good _ _ _ _ _ Hgr) Eper Hb Hn) as (F2 & Hgr2 & Hn2 & Hr2).
    exists F2. split; [eapply grows_trans; [by eapply grows_mono|exact Hgr2]|].
    rewrite Hn2. rewrite Hsame in *. done.
  - rewrite (bind_er _ _ _ _ _ E). destruct Hr as [-> Hn]. exists ∅. split; [by eapply grows_mono|].
    cbn [fst snd]. split; [done|]. rewrite <- Hsame. by apply node_below.
Qed.
End compose.

Lemma looks_done T st F q b : good st F -> node st q = b -> looks T st F q (Ok b, st).
Proof. intros. exists F. split; [by apply grows_refl|done]. Qed.

(** The last level, below the pointer block at [p]. *)
Lemma last_step st F p k b : good st F -> valid (per_of st.2) (k :: p) -> p <> [] -> 0 < b -> node st p = b ->
  reaches (k :: p) st F (k :: p) (last_level b k true st) /\
  looks (k :: p) st F (k :: p) (last_level b k false st).
Proof.
  intros Hg Hv Hp Hb <-. destruct (last_level_ok (k :: p) st F p k Hg Hv Hp ltac:(lia) (suffix_self _)) as [Hr ->].
  split; [exact Hr|by apply looks_done].
Qed.

(** An inner level, below the pointer block at [p], towards [l ++ k :: p]. *)
Lemma next_step st F l p k b f : good st F -> l <> [] -> valid (per_of st.2) (l ++ k :: p) ->
  valid (per_of st.2) (k :: p) -> p <> [] -> 0 < b -> node st p = b ->
  (forall st1 F1 b1, good st1 F1 -> per_of st1.2 = per_of st.2 -> 0 < b1 -> node st1 (k :: p) = b1 ->
    reaches (l ++ k :: p) st1 F1 (l ++ k :: p) (f true b1 st1) /\
    looks (l ++ k :: p) st1 F1 (l ++ k :: p) (f false b1 st1)) ->
  reaches (l ++ k :: p) st F (l ++ k :: p) ((b1 <~ next_level b k ;; f true b1) st) /\
  looks (l ++ k :: p) st F (l ++ k :: p) ((b1 <~ next_level b k ;; f false b1) st).
Proof.
  intros Hg Hl Hvl Hv Hp Hb <- Hf.
  pose proof (next_level_ok (k :: p) st F p k Hg Hv Hp ltac:(lia) (suffix_self _)) as Hn. split.
  - apply reaches_bind; try done; [apply suffix_tail|]. intros st1 F1 b1 H1 H2 H3 H4. by apply Hf.
  - apply looks_bind; try done; [apply suffix_tail|]. intros st1 F1 b1 H1 H2 H3 H4. by apply Hf.
Qed.

(** The first level, from the slot [k] of the inode. *)
Lemma root_step st F l k f : good st F -> l <> [] -> 0 <= k < 15 -> valid (per_of st.2) (l ++ [k]) ->
  (forall st1 F1 b1, good st1 F1 -> per_of st1.2 = per_of st.2 -> 0 < b1 -> node st1 [k] = b1 ->
    reaches (l ++ [k]) st1 F1 (l ++ [k]) (f true b1 st1) /\
    looks (l ++ [k]) st1 F1 (l ++ [k]) (f false b1 st1)) ->
  reaches (l ++ [k]) st F (l ++ [k]) ((b1 <~ ensure_root k ;; f true b1) st) /\
  looks (l ++ [k]) st F (l ++ [k]) ((b1 <~ ensure_root k ;; f false b1) st).
Proof.
  intros Hg Hl Hk Hvl Hf. pose proof (ensure_root_ok [k] st F k Hg Hk (suffix_self _)) as Hn. split.
  - apply reaches_bind; try done; [apply suffix_tail|]. intros st1 F1 b1 H1 H2 H3 H4. by apply Hf.
  - apply looks_bind; try done; [apply suffix_tail|]. intros st1 F1 b1 H1 H2 H3 H4. by apply Hf.
Qed.

(** The walk along the path of a logical block. *)
Lemma bmap_walk_ok st F n : good st F -> 0 <= n < max_blocks (per_of st.2) ->
  let T := path_of (per_of st.2) n in
  reaches T st F T (bmap_walk n true st) /\ looks T st F T (bmap_walk n false st).
Proof.
  intros Hg Hn T. pose proof (a_geom _ _ (g_abs _ _ Hg)) as Hgeom.
  destruct (per_facts _ Hgeom) as [Hper _].
  destruct (path_valid (per_of st.2) ltac:(lia) n Hn) as [Hv _].
  assert (Hget : on_fs get_sb st = (Ok (sb st.2), st)) by (by destruct st).
  unfold bmap_walk. rewrite !(bind_ok _ _ _ _ _ Hget). cbv zeta. fold (per_of st.2).
  unfold ext2_triple_start, ext2_double_start, ext2_single_start, EXT2_NDIR_BLOCKS in *. fold (per_of st.2).
  rewrite (u32_small (per_of st.2 * _)), (u32_small (12 + _)), (u32_small (12 + _ + _)) by nia.
  fold T in Hv. unfold T, path_of in *. clear T. set (per := per_of st.2) in *.
  unfold EXT2_IND_BLOCK, EXT2_DIND_BLOCK, EXT2_TIND_BLOCK.
  destruct (Z.ltb_spec n 12).
  { destruct (direct_block_ok [n] st F n Hg ltac:(lia) (suffix_self _)) as [Hr El]. split; [done|].
    rewrite El. by apply looks_done. }
  destruct (Z.ltb_spec n (12 + per)).
  { apply (root_step st F [n - 12] 12 (fun c b => last_level b (n - 12) c)); try done.
    intros st1 F1 b1 Hg1 E1 Hb1 Hn1. apply last_step; try done. by rewrite E1. }
  destruct (Z.ltb_spec n (12 + per + per * per)); cbv zeta in *.
  - set (x := n - (12 + per)) in *.
    pose proof (proj1 (proj2 (proj1 (valid_cons per (x mod per) [x / per; 13] ltac:(done)) Hv))) as Hv2.
    apply (root_step st F [x mod per; x / per] 13
      (fun c b => b1 <~ next_level b (x / per) ;; last_level b1 (x mod per) c)); try done.
    intros st1 F1 b1 Hg1 E1 Hb1 Hn1.
    apply (next_step st1 F1 [x mod per] [13] (x / per) b1 (fun c b2 => last_level b2 (x mod per) c)); rewrite ?E1; try done.
    intros st2 F2 b2 Hg2 E2 Hb2 Hn2. apply last_step; try done. by rewrite E2.
  - set (x := n - (12 + per + per * per)) in *.
    apply (root_step st F [x mod per; (x / per) mod per; x / (per * per)] 14
      (fun c b => b1 <~ next_level b (x / (per * per)) ;; b2 <~ next_level b1 ((x / per) mod per) ;; last_level b2 (x mod per) c)); try done.
    intros st1 F1 b1 Hg1 E1 Hb1 Hn1.
    pose proof (proj1 (proj2 (proj1 (valid_cons per (x mod per) [(x / per) mod per; x / (per * per); 14] ltac:(done)) Hv))) as Hv2.
    pose proof (proj1 (proj2 (proj1 (valid_cons per ((x / per) mod per) [x / (per * per); 14] ltac:(done)) Hv2))) as Hv3.
    apply (next_step st1 F1 [x mod per; (x / per) mod per] [14] (x / (per * per)) b1
      (fun c b2 => b3 <~ next_level b2 ((x / per) mod per) ;; last_level b3 (x mod per) c)); rewrite ?E1; try done.
    intros st2 F2 b2 Hg2 E2 Hb2 Hn2.
    apply (next_step st2 F2 [x mod per] [x / (per * per); 14] ((x / per) mod per) b2
      (fun c b3 => last_level b3 (x mod per) c)); rewrite ?E2, ?E1; try done.
    intros st3 F3 b3 Hg3 E3 Hb3 Hn3. apply last_step; try done. by rewrite E3, ?E2, ?E1.
Qed.

(** ** Mapping a logical block *)

(** [block] can be named by the pointers of the file. *)
Definition in_file (st : state) (n : Z) : Prop := 0 <= n < max_blocks (per_of st.2).

Lemma fmap_same_per (st st' : state) n : per_of st'.2 = per_of st.2 -> fmap st' n = node st' (path_of (per_of st.2) n).
Proof. unfold fmap. by intros ->. Qed.

(** Growing along the path of [n] leaves the other blocks where they were. *)
Lemma grows_others st F st' F' n m : good st F -> grows (path_of (per_of st.2) n) st F st' F' ->
  in_file st n -> in_file st m -> m <> n -> fmap st' m = fmap st m.
Proof.
  intros Hg Hgr Hn Hm Hne. pose proof (a_geom _ _ (g_abs _ _ Hg)) as Hgeom.
  destruct (per_facts _ Hgeom) as [Hper _].
  rewrite (fmap_same_per st st') by (eapply layout_per; [done|done|apply Hgr]).
  apply (gr_off _ _ _ _ _ Hgr); [by apply path_valid; [lia|]|]. apply path_apart; [lia|done..].
Qed.

Lemma bmap_create_spec st F n : good st F -> in_file st n ->
  exists b st' F', ext2_bmap n true st = (Ok b, st') /\
    grows (path_of (per_of st.2) n) st F st' F' /\ fmap st' n = b /\
    (fmap st n <> 0 -> b = fmap st n) /\
    (fmap st n = 0 -> if b =? 0 then F' = ∅ else fresh st F st' b).
Proof.
  intros Hg Hn. destruct (bmap_walk_ok st F n Hg Hn) as [(F' & Hgr & Hr) _].
  pose proof (a_geom _ _ (g_abs _ _ Hg)) as Hgeom. destruct (per_facts _ Hgeom) as [Hper _].
  destruct (path_valid (per_of st.2) ltac:(lia) n Hn) as [Hv _].
  pose proof (gr_keep _ _ _ _ _ Hgr _ Hv) as Hkeep.
  destruct (bmap_walk n true st) as [r st'] eqn:E. cbn [fst snd] in *.
  assert (Eper : per_of st'.2 = per_of st.2) by (eapply layout_per; [done|done|apply Hgr]).
  pose proof (fmap_same_per st st' n Eper) as Hf'. change (node st (path_of (per_of st.2) n)) with (fmap st n) in Hkeep.
  unfold ext2_bmap. rewrite (bind_try _ _ _ _ _ E).
  destruct r as [b|e]; cbn [ret].
  - destruct Hr as (Hb & Hnode & Hfresh). exists b, st', F'. split; [done|]. split; [done|]. rewrite Hf'. split; [done|]. split.
    + intros Hnz. rewrite <- Hkeep by done. done.
    + intros Hz. rewrite (proj2 (Z.eqb_neq _ _)) by lia. by apply Hfresh.
  - destruct Hr as (HF & Hnode). exists 0, st', F'. split; [done|]. split; [done|]. rewrite Hf'. split; [done|]. split.
    + intros Hnz. rewrite <- Hkeep by done. done.
    + by intros _.
Qed.

Lemma bmap_lookup_spec st F n : good st F -> in_file st n ->
  exists st' F', ext2_bmap n false st = (Ok (fmap st n), st') /\
    grows (path_of (per_of st.2) n) st F st' F' /\ fmap st' n = fmap st n.
Proof.
  intros Hg Hn. destruct (bmap_walk_ok st F n Hg Hn) as [_ (F' & Hgr & Hsame & Hr)].
  destruct (bmap_walk n false st) as [r st'] eqn:E. cbn [fst snd] in *.
  assert (Eper : per_of st'.2 = per_of st.2) by (eapply layout_per; [done|done|apply Hgr]).
  exists st', F'. unfold ext2_bmap. rewrite (bind_try _ _ _ _ _ E), (fmap_same_per st st' n Eper).
  split; [|split; [done|exact Hsame]]. unfold fmap. destruct r as [b|e]; cbn [ret]; by rewrite Hr.
Qed.

(** Distinct logical blocks have distinct disk blocks. *)
Lemma good_injective st F n m : good st F -> in_file st n -> in_file st m ->
  fmap st n <> 0 -> fmap st n = fmap st m -> n = m.
Proof.
  intros Hg Hn Hm Hnz E. pose proof (a_geom _ _ (g_abs _ _ Hg)) as Hgeom. destruct (per_facts _ Hgeom) as [Hper _].
  apply (path_inj (per_of st.2)); [lia|apply Hn|apply Hm|].
  apply (t_inj _ _ (g_tree _ _ Hg)); try done; apply path_valid; (lia || done).
Qed.

(** A lookup below a missing pointer block allocates it. *)
Lemma lookup_hole st F n : good st F -> 12 <= n < 12 + per_of st.2 -> node st [12] = 0 -> F <> ∅ ->
  node (ext2_bmap n false st).2 [12] ∈ F /\ 0 < node (ext2_bmap n false st).2 [12].
Proof.
  intros Hg Hn Hz HF. pose proof (a_geom _ _ (g_abs _ _ Hg)) as Hgeom. destruct (per_facts _ Hgeom) as [Hper _].
  destruct (root_extends [12] st F 12 Hg ltac:(lia) (suffix_self _) Hz) as [[? _]|(b & s' & E & Hr)]; [done|].
  set (st1 := (set_i_block (ext2_write32 (i_block st.1) (4 * 12) b) (account (block_size (sb st.2) / 512) st.1), s')).
  destruct (Hr st1 eq_refl eq_refl) as (F1 & Hgr & Hb & Hn1 & Hfr). cbn [fst snd] in Hgr, Hn1, Hfr. specialize (Hfr Hz) as [Hin _].
  assert (Eper : per_of st1.2 = per_of st.2) by (eapply layout_per; [done|done|apply Hgr]).
  assert (Hroot : ensure_root 12 st = (Ok b, st1)).
  { unfold ensure_root. rewrite (bind_ok get_inode _ _ _ _ eq_refl).
    unfold ext2_ensure_indirect. change (ext2_read32 (i_block st.1) (4 * 12)) with (node st [12]).
    rewrite Hz. cbn [Z.eqb negb]. by rewrite (bind_ok _ _ _ _ _ (bind_ok _ _ _ _ _ E)). }
  assert (Hlast : last_level b (n - 12) false st1 = (Ok (node st1 [n - 12; 12]), st1)).
  { assert (Hv : valid (per_of st1.2) [n - 12; 12]) by (rewrite Eper; simpl; unfold depth; simpl; repeat split; lia).
    rewrite <- Hn1 at 1.
    by destruct (last_level_ok _ st1 F1 [12] (n - 12) (gr_good _ _ _ _ _ Hgr) Hv ltac:(done) ltac:(lia) (suffix_self _)). }
  assert (Hwalk : bmap_walk n false st = (Ok (node st1 [n - 12; 12]), st1)).
  { unfold bmap_walk. assert (Hget : on_fs get_sb st = (Ok (sb st.2), st)) by (by destruct st).
    rewrite (bind_ok _ _ _ _ _ Hget). cbv zeta. unfold EXT2_NDIR_BLOCKS, ext2_double_start, ext2_single_start, EXT2_NDIR_BLOCKS.
    fold (per_of st.2). rewrite (proj2 (Z.ltb_ge _ _)) by lia. rewrite u32_small, (proj2 (Z.ltb_lt _ _)) by lia.
    by rewrite (bind_ok _ _ _ _ _ Hroot). }
  unfold ext2_bmap. rewrite (bind_try _ _ _ _ _ Hwalk). cbn [ret snd]. by rewrite Hn1.
Qed.

Fixpoint run_bmap (ops : list (Z * bool)) (st : state) : state :=
  match ops with [] => st | (n, c) :: ops' => run_bmap ops' (ext2_bmap n c st).2 end.

(** ** An empty file on the small file system *)

Definition ex_st : state := (mkinode (replicate 60 0) 0 0 false, ex_fs).

Lemma ex_st_empty rp : node ex_st rp = 0.
Proof.
  induction rp as [|j rq IH]; [done|]. rewrite node_cons. unfold content.
  destruct rq as [|h rq]; [apply le32_zeros|]. rewrite IH. apply (le32_zeros 0).
Qed.

Lemma ex_good : good ex_st ex_free.
Proof.
  constructor; [exact ex_abs| |done|done]. constructor; [done| | |].
  - apply Forall_replicate. unfold is_u8. lia.
  - intros rp _ Hn. by rewrite ex_st_empty in Hn.
  - intros rp rq _ _ Hn. by rewrite ex_st_empty in Hn.
Qed.

(** ** Properties *)

(** C5: [ext2_bmap] with [create] maps the block: it returns the block already
    mapped, or a block that was free, now cleared and mapped there, or 0 when the
    disk is full; every other logical block keeps its place, pointer and bitmap
    blocks stay consistent, no buffer leaks and no block in use other than the
    pointer blocks of this file is written. *)
Theorem ext2_bmap_create st F n : good st F -> in_file st n ->
  exists b st' F', ext2_bmap n true st = (Ok b, st') /\ good st' F' /\ F' ⊆ F /\ bufs st'.2 = bufs st.2 /\
    fmap st' n = b /\
    (fmap st n <> 0 -> b = fmap st n) /\
    (fmap st n = 0 -> if b =? 0 then F' = ∅ else fresh st F st' b) /\
    (forall m, in_file st m -> m <> n -> fmap st' m = fmap st m) /\
    (forall c, 0 < c -> c ∉ F -> ~ meta (sb st.2) c ->
       (forall rp, valid (per_of st.2) rp -> (length rp < depth (root rp))%nat -> node st' rp <> c) ->
       blk st'.2 c = blk st.2 c).
Proof.
  intros Hg Hn. destruct (bmap_create_spec st F n Hg Hn) as (b & st' & F' & E & Hgr & H1 & H2 & H3).
  exists b, st', F'. split; [done|]. split; [exact (gr_good _ _ _ _ _ Hgr)|].
  split; [exact (gr_free _ _ _ _ _ Hgr)|]. split; [exact (gr_bufs _ _ _ _ _ Hgr)|].
  split; [exact H1|]. split; [exact H2|]. split; [exact H3|]. split; [|exact (gr_frame _ _ _ _ _ Hgr)].
  intros m Hm Hne. exact (grows_others st F st' F' n m Hg Hgr Hn Hm Hne).
Qed.

(** whatever blocks of a file are looked up or created, in any order, two
    logical blocks never share a disk block, none of them is free or holds
    metadata, and a mapped block is never moved. *)
Theorem ext2_bmap_injective ops : forall st F, good st F -> Forall (fun o => in_file st o.1) ops ->
  let st' := run_bmap ops st in
  exists F', good st' F' /\ F' ⊆ F /\
    (forall n m, in_file st n -> in_file st m -> fmap st' n <> 0 -> fmap st' n = fmap st' m -> n = m) /\
    (forall n, in_file st n -> fmap st' n <> 0 -> (fmap st' n ∉ F') /\ ~ meta (sb st'.2) (fmap st' n)) /\
    (forall n, in_file st n -> fmap st n <> 0 -> fmap st' n = fmap st n).
Proof.
  induction ops as [|[n c] ops IH]; intros st F Hg Hops.
  - exists F. pose proof (a_geom _ _ (g_abs _ _ Hg)) as Hgeom. destruct (per_facts _ Hgeom) as [Hper _].
    split; [done|]. split; [done|]. split; [intros; by eapply good_injective|]. split; [|done].
    intros m Hm Hnz. destruct (path_valid (per_of st.2) ltac:(lia) m Hm) as [Hv _].
    by destruct (t_used _ _ (g_tree _ _ Hg) _ Hv Hnz) as (_ & ?).
  - apply Forall_cons in Hops as [Hn Hops]. cbn [fst] in Hn. cbn [run_bmap].
    assert (Hstep : exists F1, grows (path_of (per_of st.2) n) st F (ext2_bmap n c st).2 F1 /\
      forall m, in_file st m -> fmap st m <> 0 -> fmap (ext2_bmap n c st).2 m = fmap st m).
    { destruct c.
      - destruct (bmap_create_spec st F n Hg Hn) as (b & st1 & F1 & -> & Hgr & H1 & H2 & _). exists F1. split; [done|].
        intros m Hm Hnz. destruct (decide (m = n)) as [->|]; [rewrite <- (H2 Hnz); exact H1|].
        exact (grows_others st F st1 F1 n m Hg Hgr Hn Hm n0).
      - destruct (bmap_lookup_spec st F n Hg Hn) as (st1 & F1 & -> & Hgr & H1). exists F1. split; [done|].
        intros m Hm Hnz. destruct (decide (m = n)) as [->|]; [exact H1|].
        exact (grows_others st F st1 F1 n m Hg Hgr Hn Hm n0). }
    destruct Hstep as (F1 & Hgr & Hkeep). set (st1 := (ext2_bmap n c st).2) in *. clearbody st1.
    assert (Eper : per_of st1.2 = per_of st.2) by (eapply layout_per; [done|done|apply Hgr]).
    assert (Hin : forall m, in_file st1 m <-> in_file st m) by (intros m; unfold in_file; by rewrite Eper).
    destruct (IH st1 F1 (gr_good _ _ _ _ _ Hgr)) as (F2 & I1 & I2 & I3 & I4 & I5).
    { eapply Forall_impl; [exact Hops|]. intros o. by rewrite Hin. }
    exists F2. split; [done|]. split; [etrans; [exact I2|apply Hgr]|].
    split; [intros m m' Hm Hm'; by apply I3; apply Hin|]. split; [intros m Hm; by apply I4, Hin|].
    intros m Hm Hnz. rewrite I5; [by apply Hkeep|by apply Hin|by rewrite Hkeep].
Qed.

(** [ext2_bmap] without [create] returns what is mapped and moves nothing; but
    looking up a hole in the range of a missing pointer block takes a free block
    of the disk for that pointer block. *)
Theorem ext2_bmap_lookup st F n : good st F -> in_file st n ->
  exists st' F', ext2_bmap n false st = (Ok (fmap st n), st') /\ good st' F' /\ bufs st'.2 = bufs st.2 /\
    (forall m, in_file st m -> fmap st' m = fmap st m) /\
    (12 <= n < 12 + per_of st.2 -> node st [12] = 0 -> F <> ∅ -> node st' [12] <> 0 /\ F' ⊂ F).
Proof.
  intros Hg Hn. destruct (bmap_lookup_spec st F n Hg Hn) as (st' & F' & E & Hgr & H1). exists st', F'.
  split; [done|]. split; [exact (gr_good _ _ _ _ _ Hgr)|]. split; [exact (gr_bufs _ _ _ _ _ Hgr)|]. split.
  - intros m Hm. destruct (decide (m = n)) as [->|]; [exact H1|].
    exact (grows_others st F st' F' n m Hg Hgr Hn Hm n0).
  - intros Hr Hz HF. pose proof (a_geom _ _ (g_abs _ _ Hg)) as Hgeom. destruct (per_facts _ Hgeom) as [Hper _].
    pose proof (lookup_hole st F n Hg Hr Hz HF) as [Hin Hpos]. rewrite E in Hin, Hpos. cbn [snd] in Hin, Hpos.
    split; [lia|]. split; [exact (gr_free _ _ _ _ _ Hgr)|]. intros Hsub.
    assert (Eper : per_of st'.2 = per_of st.2) by (eapply layout_per; [done|done|apply Hgr]).
    destruct (t_used _ _ (g_tree _ _ (gr_good _ _ _ _ _ Hgr)) [12]) as (_ & HnF & _); [simpl; lia|lia|].
    by apply HnF, Hsub.
Qed.

Lemma ext2_bmap_create_witness :
  in_file ex_st 300 /\ (ext2_bmap 300 true ex_st).1 = Ok 8 /\
  exists b st' F', ext2_bmap 300 true ex_st = (Ok b, st') /\ good st' F' /\ F' ⊆ ex_free /\
    bufs st'.2 = bufs ex_st.2 /\ fmap st' 300 = b.
Proof.
  assert (Hin : in_file ex_st 300) by (unfold in_file, max_blocks; change (per_of ex_st.2) with 256; lia).
  split; [exact Hin|]. split; [vm_compute; reflexivity|].
  destruct (ext2_bmap_create ex_st ex_free 300 ex_good Hin) as (b & st' & F' & H1 & H2 & H3 & H4 & H5 & _).
  exists b, st', F'. repeat (split; [assumption|]). assumption.
Defined.

Lemma ext2_bmap_injective_witness :
  let st' := run_bmap [(0, true); (300, true); (13, false)] ex_st in
  exists F', good st' F' /\ F' ⊆ ex_free.
Proof.
  destruct (ext2_bmap_injective [(0, true); (300, true); (13, false)] ex_st ex_free ex_good) as (F' & H1 & H2 & _).
  - repeat constructor; unfold in_file, max_blocks; change (per_of ex_st.2) with 256; cbn [fst]; lia.
  - exists F'. split; assumption.
Defined.

Lemma ext2_bmap_lookup_witness :
  (ext2_bmap 13 false ex_st).1 = Ok 0 /\
  exists st' F', ext2_bmap 13 false ex_st = (Ok (fmap ex_st 13), st') /\ good st' F' /\
    node st' [12] <> 0 /\ F' ⊂ ex_free.
Proof.
  split; [vm_compute; reflexivity|].
  destruct (ext2_bmap_lookup ex_st ex_free 13 ex_good) as (st' & F' & H1 & H2 & _ & _ & H3).
  - unfold in_file, max_blocks; change (per_of ex_st.2) with 256; lia.
  - exists st', F'. destruct H3 as [H3 H4].
    + change (per_of ex_st.2) with 256; lia.
    + apply ex_st_empty.
    + intros E. apply (f_equal (fun X : gset Z => bool_decide (6 ∈ X))) in E. vm_compute in E. discriminate.
    + repeat (split; [assumption|]). assumption.
Defined.

End Ext2Bmap.
