(* ===== verification/Ext2Dir.v ===== *)
(** * ext2 directories as lists of entries ([fs/ext2/dir.c])

    A directory is a file of blocks, each filled with variable-length entries.
    Lookup, insertion, deletion and listing are modelled on the bytes of the
    blocks; the theorems are about the entries they encode.  Directories with a
    hash index (EXT2_BTREE_FL) are not treated here. *)
From S2P Require Import Prelude Bitmap Ext2 Ext2Balloc Ext2Bmap.
From stdpp Require Import fin_sets.
#[local] Open Scope Z_scope.

Module Ext2Dir.
Import Bitmap Ext2 Ext2Balloc Ext2Bmap.
#[local] Open Scope ext2_scope.

Definition ENAMETOOLONG : Z := 36.
Definition EXT2_NAME_LEN : Z := 255.

(** [(name_len + 8 + 3) & ~3] *)
Definition EXT2_DIR_REC_LEN (len : Z) : Z := Z.ldiff (len + 8 + 3) 3.

(** What the operations use of the inode of a directory. *)
Record dir := mkdir {
  d_inode : inode;
  i_size : Z;
  i_mtime : Z;      (* and [i_ctime] *)
}.
Definition set_d_inode (i : inode) (d : dir) : dir := mkdir i (i_size d) (i_mtime d).

Definition DM (A : Type) : Type := ST (dir * fs) A.
Definition on_inode {A} (m : IM A) : DM A := fun st =>
  let '(r, (i, s)) := m (d_inode st.1, st.2) in (r, (set_d_inode i st.1, s)).
Definition on_disk {A} (m : M A) : DM A := fun st => let '(r, s) := m st.2 in (r, (st.1, s)).
Definition get_dir : DM dir := fun st => (Ok st.1, st).
Definition put_dir (f : dir -> dir) : DM unit := modify (fun st => (f st.1, st.2)).

(** ** One block *)

Definition e_inode (buf : list Z) (off : Z) : Z := ext2_read32 buf off.
Definition e_rec_len (buf : list Z) (off : Z) : Z := ext2_read16 buf (off + 4).
Definition e_name_len (buf : list Z) (off : Z) : Z := byte_at buf (off + 6).
Definition e_file_type (buf : list Z) (off : Z) : Z := byte_at buf (off + 7).
Definition e_name (buf : list Z) (off len : Z) : list Z := sub_bytes buf (off + 8) len.

Definition set_byte (buf : list Z) (off v : Z) : list Z := <[Z.to_nat off := u8 v]> buf.

(** Filling in an entry; [name] has [len] bytes. *)
Definition fill_entry (buf : list Z) (off ino rec_len : Z) (name : list Z) (file_type : Z) : list Z :=
  let buf := ext2_write32 buf off ino in
  let buf := ext2_write16 buf (off + 4) rec_len in
  let buf := set_byte buf (off + 6) (zlength name) in
  let buf := set_byte buf (off + 7) file_type in
  memcpy_at buf (off + 8) name (zlength name).

Definition bad_rec (off rec_len limit : Z) : bool := (rec_len <? 8) || (off + rec_len >? limit).

(** The scan for a name that is not empty, as all are that the callers in
    [fs/namei.c] hand down ([memcmp] of no bytes looks at those in front of the two
    areas, and is taken to find them equal here). *)
Fixpoint find_from (fuel : nat) (buf name : list Z) (limit off : Z) : option Z :=
  match fuel with
  | O => None
  | S n =>
    if off >=? limit then None else
    let rec_len := e_rec_len buf off in
    if bad_rec off rec_len limit then None else
    if negb (e_inode buf off =? 0) && (e_name_len buf off =? zlength name) && bool_decide (e_name buf off (zlength name) = name)
    then Some off else find_from n buf name limit (off + rec_len)
  end.

(** The scan for room: an unused entry that is long enough, or the last entry seen. *)
Fixpoint scan_room (fuel : nat) (buf : list Z) (rec_len limit off prev_offset prev_rec : Z) : (Z * Z) + (Z * Z) :=
  match fuel with
  | O => inr (prev_offset, prev_rec)
  | S n =>
    if off >=? limit then inr (prev_offset, prev_rec) else
    let entry_rec := e_rec_len buf off in
    if bad_rec off entry_rec limit then inr (prev_offset, prev_rec) else
    if (e_inode buf off =? 0) && (entry_rec >=? rec_len) then inl (off, entry_rec)
    else scan_room n buf rec_len limit (off + entry_rec) off entry_rec
  end.

(** The block with the new entry in it, if it has room. *)
Definition insert_in_block (buf name : list Z) (ino file_type limit : Z) : option (list Z) :=
  let rec_len := EXT2_DIR_REC_LEN (zlength name) in
  match scan_room (Z.to_nat limit) buf rec_len limit 0 0 0 with
  | inl (off, entry_rec) => Some (fill_entry buf off ino entry_rec name file_type)
  | inr (prev_offset, prev_rec) =>
    if prev_rec =? 0 then None else
    let used := EXT2_DIR_REC_LEN (e_name_len buf prev_offset) in
    let new_offset := prev_offset + used in
    if new_offset + rec_len <=? limit
    then Some (fill_entry (ext2_write16 buf (prev_offset + 4) used) new_offset ino (limit - new_offset) name file_type)
    else None
  end.

Definition new_block (block_size : Z) (name : list Z) (ino file_type : Z) : list Z :=
  fill_entry (replicate (Z.to_nat block_size) 0) 0 ino block_size name file_type.

(** Some entry is not "." or "..". *)
Fixpoint busy_from (fuel : nat) (buf : list Z) (limit off : Z) : bool :=
  match fuel with
  | O => false
  | S n =>
    if off >=? limit then false else
    let rec_len := e_rec_len buf off in
    if bad_rec off rec_len limit then false else
    if negb (e_inode buf off =? 0) && negb ((e_name_len buf off =? 1) && (byte_at buf (off + 8) =? 46)) &&
       negb ((e_name_len buf off =? 2) && (byte_at buf (off + 8) =? 46) && (byte_at buf (off + 9) =? 46))
    then true else busy_from n buf limit (off + rec_len)
  end.

(** ** The directory *)

Definition limit_of (size block_size start : Z) : Z := if start + block_size >? size then size - start else block_size.

(** The buffer is given back on every path. *)
Definition with_block {A} (block : Z) (k : list Z -> DM A) : DM A :=
  on_disk kmalloc ;~
  r <~ try (on_disk (ext2_read_block block)) ;;
  match r with
  | Er e => on_disk kfree ;~ fail e
  | Ok buf => r <~ try (k buf) ;; on_disk kfree ;~ lift r
  end.

(** A loop over the mapped blocks of the directory, from block [k] on; the body
    says whether it has a result. *)
Fixpoint over_blocks {A} (fuel : nat) (k : Z) (body : Z -> Z -> DM (option A)) (none : DM A) : DM A :=
  match fuel with
  | O => none
  | S n =>
    d <~ get_dir ;;
    i <~ on_disk get_sb ;;
    if negb (k * block_size i <? i_size d) then none else
    block <~ on_inode (ext2_bmap k false) ;;
    if block =? 0 then over_blocks n (k + 1) body none else
    r <~ body block (limit_of (i_size d) (block_size i) (u32 (k * block_size i))) ;;
    match r with
    | Some a => ret a
    | None => over_blocks n (k + 1) body none
    end
  end.
Definition blocks_fuel (d : dir) : nat := Z.to_nat (i_size d) + 1.

(** [ext2_find_entry] without an index: the block and the offset. *)
Definition ext2_find_entry (name : list Z) : DM (Z * Z) :=
  d <~ get_dir ;;
  over_blocks (blocks_fuel d) 0 (fun block limit =>
    with_block block (fun buf =>
      ret (match find_from (Z.to_nat limit) buf name limit 0 with Some off => Some (block, off) | None => None end)))
    (fail (- ENOENT)).

Definition set_i_dirty (i : inode) : inode := mkinode (i_block i) (i_blocks i) (i_nr_block i) true.
Definition ext2_touch_dir (now : Z) : DM unit := put_dir (fun d => mkdir (set_i_dirty (d_inode d)) (i_size d) now).

Definition write_touch (now block : Z) (buf : list Z) : DM unit :=
  on_disk (ext2_write_block block buf) ;~ ext2_touch_dir now.

Definition ext2_add_entry_linear (now : Z) (name : list Z) (ino file_type : Z) : DM unit :=
  if zlength name >? EXT2_NAME_LEN then fail (- ENAMETOOLONG) else
  d <~ get_dir ;;
  over_blocks (blocks_fuel d) 0 (fun block limit =>
    with_block block (fun buf =>
      match insert_in_block buf name ino file_type limit with
      | Some buf' => write_touch now block buf' ;~ ret (Some tt)
      | None => ret None
      end))
    (i <~ on_disk get_sb ;;
     d <~ get_dir ;;
     block <~ on_inode (ext2_bmap (i_size d / block_size i) true) ;;
     if block =? 0 then fail (- ENOSPC) else
     on_disk kmalloc ;~
     r <~ try (on_disk (ext2_write_block block (new_block (block_size i) name ino file_type)) ;~
               put_dir (fun d => mkdir (d_inode d) (i_size d + block_size i) (i_mtime d)) ;~
               ext2_touch_dir now) ;;
     on_disk kfree ;~
     lift r).

(** Setting the inode number of the entry of a name; 0 deletes it. *)
Definition set_entry (name : list Z) (ino : Z) : DM unit :=
  p <~ ext2_find_entry name ;;
  with_block p.1 (fun buf => on_disk (ext2_write_block p.1 (ext2_write32 buf p.2 ino))).

Definition ext2_delete_entry_linear (now : Z) (name : list Z) : DM unit := set_entry name 0 ;~ ext2_touch_dir now.
Definition ext2_update_entry_inode (name : list Z) (ino : Z) : DM unit := set_entry name ino.

Definition ext2_read_entry_inode (name : list Z) : DM Z :=
  p <~ ext2_find_entry name ;;
  with_block p.1 (fun buf => ret (e_inode buf p.2)).

Definition ext2_dir_is_empty : DM bool :=
  d <~ get_dir ;;
  over_blocks (blocks_fuel d) 0 (fun block limit =>
    with_block block (fun buf => ret (if busy_from (Z.to_nat limit) buf limit 0 then Some false else None)))
    (ret true).

(** ** Listing

    [filldir] is the callback of the caller with its state; it says whether its
    buffer is full. *)

Inductive listed := More | Full | Bad.

Section readdir.
Context {D : Type} (filldir : D -> list Z -> Z -> Z -> Z -> D * bool) (filetype : bool).

Fixpoint list_block (fuel : nat) (buf : list Z) (block_start limit off pos : Z) (dirent : D) : listed * Z * D :=
  match fuel with
  | O => (More, pos, dirent)
  | S n =>
    if off >=? limit then (More, pos, dirent) else
    let rec_len := e_rec_len buf off in
    if bad_rec off rec_len limit then (Bad, pos, dirent) else
    let next := u32 (block_start + off + rec_len) in
    if e_inode buf off =? 0 then list_block n buf block_start limit (off + rec_len) next dirent else
    let '(dirent, full) := filldir dirent (e_name buf off (e_name_len buf off)) next (e_inode buf off)
                             (if filetype then e_file_type buf off else 0) in
    if full then (Full, pos, dirent) else list_block n buf block_start limit (off + rec_len) next dirent
  end.

(** The return value, the position of the file and the state of the caller. *)
Fixpoint readdir_loop (fuel : nat) (pos : Z) (dirent : D) : DM (Z * Z * D) :=
  match fuel with
  | O => ret (0, pos, dirent)
  | S n =>
    d <~ get_dir ;;
    i <~ on_disk get_sb ;;
    if negb (pos <? i_size d) then ret (0, pos, dirent) else
    let block_index := u32 (pos / block_size i) in
    let block_start := u32 (block_index * block_size i) in
    physical <~ on_inode (ext2_bmap block_index false) ;;
    if physical =? 0 then ret (- EIO, pos, dirent) else
    let limit := limit_of (i_size d) (block_size i) block_start in
    r <~ try (with_block physical (fun buf => ret (list_block (Z.to_nat limit) buf block_start limit (pos - block_start) pos dirent))) ;;
    match r with
    | Er e => ret (e, pos, dirent)
    | Ok (More, pos, dirent) => readdir_loop n pos dirent
    | Ok (Full, pos, dirent) => ret (0, pos, dirent)
    | Ok (Bad, pos, dirent) => ret (- EIO, pos, dirent)
    end
  end.

Definition ext2_readdir (pos : Z) (dirent : D) : DM (Z * Z * D) :=
  d <~ get_dir ;;
  readdir_loop (blocks_fuel d) pos dirent.
End readdir.

(** ** Entries behind the bytes *)

(** [de_body] is everything after the eight bytes of the header. *)
Record dent := mkdent { de_ino : Z; de_nlen : Z; de_type : Z; de_body : list Z }.
Definition rec_of (e : dent) : Z := 8 + zlength (de_body e).
Definition header (ino rec nlen ft : Z) : list Z := ext2_write16 (ext2_write32 [0; 0; 0; 0; 0; 0; nlen; ft] 0 ino) 4 rec.
Definition enc (e : dent) : list Z := header (de_ino e) (rec_of e) (de_nlen e) (de_type e) ++ de_body e.
Definition encs (l : list dent) : list Z := concat (enc <$> l).
Definition name_of (e : dent) : list Z := take (Z.to_nat (de_nlen e)) (de_body e).
Definition live (e : dent) : bool := negb (de_ino e =? 0).

Record wf_dent (e : dent) : Prop := {
  wd_ino : 0 <= de_ino e < 2 ^ 32;
  wd_nlen : 0 <= de_nlen e < 256;
  wd_type : 0 <= de_type e < 256;
  wd_body : Forall is_u8 (de_body e);
  wd_rec : rec_of e < 2 ^ 16;
  wd_name : live e = true -> de_nlen e <= zlength (de_body e);
}.

(** A block of [n] bytes filled by the entries [l]. *)
Record block_of (buf : list Z) (n : Z) (l : list dent) : Prop := {
  bk_bytes : buf = encs l;
  bk_len : zlength buf = n;
  bk_some : l <> [];
  bk_wf : Forall wf_dent l;
}.

Lemma encs_app l l' : encs (l ++ l') = encs l ++ encs l'.
Proof. unfold encs. by rewrite fmap_app, concat_app. Qed.
Lemma encs_cons e l : encs (e :: l) = enc e ++ encs l.
Proof. done. Qed.

Lemma header_bytes ino rec nlen ft : header ino rec nlen ft =
  [Z.land ino 0xff; Z.land (Z.shiftr ino 8) 0xff; Z.land (Z.shiftr ino 16) 0xff; Z.land (Z.shiftr ino 24) 0xff] ++
  [Z.land rec 0xff; Z.shiftr (u16 rec) 8] ++ [nlen; ft].
Proof. reflexivity. Qed.
Lemma length_header ino rec nlen ft : length (header ino rec nlen ft) = 8%nat.
Proof. done. Qed.
Lemma zlength_dent e : zlength (enc e) = rec_of e.
Proof. unfold enc, rec_of. rewrite zlength_app. unfold zlength at 1. by rewrite length_header. Qed.
Lemma rec_pos e : 8 <= rec_of e.
Proof. unfold rec_of. pose proof (zlength_nonneg (de_body e)). lia. Qed.

Lemma header_u8 ino rec nlen ft : 0 <= nlen < 256 -> 0 <= ft < 256 -> Forall is_u8 (header ino rec nlen ft).
Proof.
  intros Hn Ht. unfold header. apply write16_u8; [lia|done|]. apply write32_u8.
  repeat (apply Forall_cons; split; [unfold is_u8; lia|]). apply Forall_nil. done.
Qed.
Lemma enc_u8 e : wf_dent e -> Forall is_u8 (enc e).
Proof. intros []. apply Forall_app. split; [by apply header_u8|done]. Qed.
Lemma encs_u8 l : Forall wf_dent l -> Forall is_u8 (encs l).
Proof. intros H. apply Forall_concat, Forall_fmap. eapply Forall_impl; [exact H|apply enc_u8]. Qed.

(** Reading behind a prefix. *)
Lemma byte_at_app (A B : list Z) k : 0 <= k -> byte_at (A ++ B) (zlength A + k) = byte_at B k.
Proof.
  intros Hk. unfold byte_at, zlength. rewrite lookup_app_r by lia. do 2 f_equal. lia.
Qed.
Lemma le16_app (A B : list Z) k : 0 <= k -> le16 (A ++ B) (zlength A + k) = le16 B k.
Proof. intros Hk. unfold le16. rewrite <- Z.add_assoc, !byte_at_app by lia. done. Qed.
Lemma le32_app (A B : list Z) k : 0 <= k -> le32 (A ++ B) (zlength A + k) = le32 B k.
Proof. intros Hk. unfold le32. rewrite <- !Z.add_assoc, !byte_at_app by lia. done. Qed.
Lemma byte_at_app_l (A B : list Z) k : 0 <= k < zlength A -> byte_at (A ++ B) k = byte_at A k.
Proof. intros Hk. unfold byte_at, zlength in *. by rewrite lookup_app_l by lia. Qed.
Lemma le16_app_l (A B : list Z) k : 0 <= k -> k + 2 <= zlength A -> le16 (A ++ B) k = le16 A k.
Proof. intros. unfold le16. by rewrite !byte_at_app_l by lia. Qed.
Lemma le32_app_l (A B : list Z) k : 0 <= k -> k + 4 <= zlength A -> le32 (A ++ B) k = le32 A k.
Proof. intros. unfold le32. by rewrite !byte_at_app_l by lia. Qed.

Section entry_at.
Context (A C : list Z) (e : dent) (He : wf_dent e).

Let hdr := header (de_ino e) (rec_of e) (de_nlen e) (de_type e).

Lemma at_inode : e_inode (A ++ enc e ++ C) (zlength A) = de_ino e.
Proof using He.
  unfold e_inode, ext2_read32. rewrite <- (Z.add_0_r (zlength A)), le32_app by lia. unfold enc.
  rewrite <- app_assoc, le32_app_l by done. unfold header. fold (ext2_read32). change (le32 ?p 0) with (ext2_read32 p 0).
  rewrite read32_write16 by (done || lia). apply read_write32; [lia|done|apply He].
Qed.
Lemma at_rec_len : e_rec_len (A ++ enc e ++ C) (zlength A) = rec_of e.
Proof using He.
  unfold e_rec_len, ext2_read16. rewrite le16_app by lia. unfold enc. rewrite <- app_assoc, le16_app_l by done. unfold header.
  change (le16 ?p 4) with (ext2_read16 p 4). apply read_write16; [lia|done|]. pose proof (rec_pos e). pose proof (wd_rec _ He). lia.
Qed.
Lemma at_name_len : e_name_len (A ++ enc e ++ C) (zlength A) = de_nlen e.
Proof. unfold e_name_len. rewrite byte_at_app by lia. done. Qed.
Lemma at_file_type : e_file_type (A ++ enc e ++ C) (zlength A) = de_type e.
Proof. unfold e_file_type. rewrite byte_at_app by lia. done. Qed.
Lemma at_name n : n <= zlength (de_body e) -> e_name (A ++ enc e ++ C) (zlength A) n = take (Z.to_nat n) (de_body e).
Proof.
  intros Hn. unfold e_name, sub_bytes, enc. rewrite <- app_assoc.
  replace (Z.to_nat (zlength A + 8)) with (length A + 8)%nat by (unfold zlength; lia).
  rewrite drop_app_add. change 8%nat with (length (header (de_ino e) (rec_of e) (de_nlen e) (de_type e))) at 1.
  rewrite drop_app_length. unfold zlength in Hn. by rewrite take_app_le by lia.
Qed.
End entry_at.

(** Writing behind a prefix. *)
Lemma memcpy_app (A X C src : list Z) n o : o = zlength A -> zlength X = n -> zlength src = n ->
  memcpy_at (A ++ X ++ C) o src n = A ++ src ++ C.
Proof.
  intros -> HX Hs. unfold memcpy_at, zlength in *. rewrite Nat2Z.id, take_app_length, take_ge by lia. f_equal. f_equal.
  rewrite drop_app_add. by rewrite drop_app_length' by lia.
Qed.
Lemma set_byte_app (A C : list Z) x v o : o = zlength A -> 0 <= v < 256 -> set_byte (A ++ x :: C) o v = A ++ v :: C.
Proof.
  intros -> Hv. unfold set_byte, zlength. rewrite Nat2Z.id, u8_small by lia.
  pose proof (insert_app_r A (x :: C) 0 v) as E. by rewrite Nat.add_0_r in E.
Qed.

Lemma set_byte_at (A : list Z) x C v k : Z.of_nat (length A) = k -> 0 <= v < 256 -> set_byte (A ++ x :: C) k v = A ++ v :: C.
Proof. intros <- Hv. by apply set_byte_app. Qed.

(** The first eight bytes of an entry. *)
Lemma split8 (B : list Z) : 8 <= zlength B -> exists a b c d e f g h, B = [a; b; c; d] ++ [e; f] ++ g :: h :: drop 8 B.
Proof.
  unfold zlength. intros H. do 8 (destruct B as [|? B]; [simpl in H; lia|]). by do 8 eexists.
Qed.

Lemma fill_entry_app (A B C name : list Z) ino rec ft : zlength B = rec -> 8 + zlength name <= rec -> zlength name < 256 -> 0 <= ft < 256 ->
  fill_entry (A ++ B ++ C) (zlength A) ino rec name ft =
  A ++ enc (mkdent ino (zlength name) ft (name ++ drop (8 + length name) B)) ++ C.
Proof.
  intros HB Hr Hn Hft. pose proof (zlength_nonneg name) as Hn0.
  destruct (split8 B ltac:(lia)) as (a & b & c & d & e & f & g & h & EB).
  assert (Hbody : length (drop 8 B) = (length B - 8)%nat) by apply length_drop.
  assert (Edrop : drop (8 + length name) B = drop (length name) (drop 8 B)) by (rewrite drop_drop; f_equal; lia).
  rewrite Edrop. set (body := drop 8 B) in *. clearbody body. unfold fill_entry. rewrite EB. rewrite <- !app_assoc.
  unfold ext2_write32. rewrite (memcpy_app A [a; b; c; d]) by done.
  set (w32 := [Z.land ino 0xff; _; _; _]). unfold ext2_write16.
  rewrite (app_assoc A w32). rewrite (memcpy_app (A ++ w32) [e; f]) by (done || rewrite zlength_app; done).
  set (w16 := [Z.land rec 0xff; _]). rewrite (app_assoc (A ++ w32)).
  assert (H32 : length w32 = 4%nat) by done. assert (H16 : length w16 = 2%nat) by done.
  rewrite <- (app_comm_cons _ _ g). rewrite (set_byte_at ((A ++ w32) ++ w16) g) by (first [lia | rewrite ?length_app, H32, H16; unfold zlength; simpl; lia]).
  replace (((A ++ w32) ++ w16) ++ zlength name :: (h :: body) ++ C) with ((((A ++ w32) ++ w16) ++ [zlength name]) ++ h :: body ++ C)
    by (by rewrite <- !app_assoc).
  rewrite (set_byte_at _ h) by (first [lia | rewrite ?length_app, H32, H16; unfold zlength; simpl; lia]).
  replace (body ++ C) with (take (length name) body ++ drop (length name) body ++ C) by (by rewrite app_assoc, take_drop).
  replace (((((A ++ w32) ++ w16) ++ [zlength name]) ++ ft :: take (length name) body ++ drop (length name) body ++ C))
    with (((((A ++ w32) ++ w16) ++ [zlength name]) ++ [ft]) ++ take (length name) body ++ drop (length name) body ++ C)
    by (by rewrite <- !app_assoc).
  rewrite memcpy_app; [|unfold zlength; rewrite ?length_app, H32, H16; simpl; lia| |done].
  - unfold enc. simpl. unfold rec_of. simpl. rewrite <- !app_assoc. f_equal. f_equal.
    replace (8 + zlength (name ++ drop (length name) body)) with rec; [done|].
    rewrite zlength_app. unfold zlength in *. rewrite length_drop. lia.
  - unfold zlength in *. rewrite length_take. lia.
Qed.

(** ** The scans *)

Definition entry : Type := list Z * Z.
(** The names of a list of entries with their inode numbers. *)
Definition entries (l : list dent) : list entry := (fun e => (name_of e, de_ino e)) <$> filter (fun e => live e = true) l.

Definition matches (name : list Z) (e : dent) : bool :=
  live e && (de_nlen e =? zlength name) && bool_decide (take (length name) (de_body e) = name).

Lemma matches_name name e : wf_dent e -> matches name e = true <-> live e = true /\ name_of e = name.
Proof.
  intros W. unfold matches, name_of. rewrite !andb_true_iff, bool_decide_eq_true. split.
  - intros [[Hl Hn] Ht]. split; [done|]. replace (Z.to_nat (de_nlen e)) with (length name); [done|]. unfold zlength in Hn. lia.
  - intros [Hl <-]. pose proof (wd_name _ W Hl) as Hn. pose proof (wd_nlen _ W). unfold zlength in *.
    assert (E : length (take (Z.to_nat (de_nlen e)) (de_body e)) = Z.to_nat (de_nlen e)) by (rewrite length_take; lia).
    rewrite E. split_and!; [done|apply Z.eqb_eq; lia|done].
Qed.

Section scan.
Context (fuel0 : nat).

(** What a scan finds at the entry that follows [pre]. *)
Lemma scan_here pre e post n : Forall wf_dent (pre ++ e :: post) -> n = zlength (encs (pre ++ e :: post)) ->
  let buf := encs (pre ++ e :: post) in let off := zlength (encs pre) in
  (off >=? n) = false /\ e_rec_len buf off = rec_of e /\ bad_rec off (rec_of e) n = false /\ e_inode buf off = de_ino e /\
  e_name_len buf off = de_nlen e /\ off + rec_of e = zlength (encs (pre ++ [e])).
Proof.
  intros W -> buf off. unfold buf. rewrite encs_app, encs_cons. apply Forall_app in W as [_ W]. apply Forall_cons in W as [We _].
  pose proof (rec_pos e). pose proof (zlength_nonneg (encs post)).
  assert (E : zlength (encs pre ++ enc e ++ encs post) = off + rec_of e + zlength (encs post)).
  { rewrite (zlength_app (encs pre)), (zlength_app (enc e)), zlength_dent. unfold off. lia. }
  rewrite E. split_and!; [lia|by apply at_rec_len|unfold bad_rec; lia|by apply at_inode|by apply at_name_len|].
  rewrite encs_app, (zlength_app (encs pre)), encs_cons. change (encs []) with (@nil Z). rewrite app_nil_r, zlength_dent. done.
Qed.

Lemma scan_end l n : n = zlength (encs l) -> (zlength (encs l) >=? n) = true.
Proof. intros ->. lia. Qed.

Lemma find_from_spec name post : forall pre fuel, Forall wf_dent (pre ++ post) -> (length post < fuel)%nat ->
  match find_from fuel (encs (pre ++ post)) name (zlength (encs (pre ++ post))) (zlength (encs pre)) with
  | Some off => exists p1 e p2, post = p1 ++ e :: p2 /\ off = zlength (encs (pre ++ p1)) /\ matches name e = true /\
                Forall (fun e => matches name e = false) p1
  | None => Forall (fun e => matches name e = false) post
  end.
Proof.
  induction post as [|e post IH]; intros pre fuel W Hf; destruct fuel as [|fuel]; simpl in Hf; try lia; cbn [find_from].
  - rewrite app_nil_r, Z.geb_leb, Z.leb_refl. by apply Forall_nil.
  - destruct (scan_here pre e post _ W eq_refl) as (E1 & E2 & E3 & E4 & E5 & E6). rewrite E1, E2, E3, E4, E5, E6.
    assert (We : wf_dent e) by (apply Forall_app in W as [_ W]; by apply Forall_cons in W as [W _]).
    assert (Em : negb (de_ino e =? 0) && (de_nlen e =? zlength name) &&
      bool_decide (e_name (encs (pre ++ e :: post)) (zlength (encs pre)) (zlength name) = name) = matches name e).
    { unfold matches, live. destruct (negb (de_ino e =? 0)) eqn:El; [|done]. destruct (Z.eqb_spec (de_nlen e) (zlength name)) as [En|]; [|done].
      simpl. apply bool_decide_ext. rewrite encs_app, encs_cons, at_name by (rewrite <- En; by apply (wd_name _ We)).
      unfold zlength. by rewrite Nat2Z.id. }
    rewrite Em. destruct (matches name e) eqn:M.
    + exists [], e, post. rewrite app_nil_r. done.
    + specialize (IH (pre ++ [e]) fuel). rewrite <- app_assoc in IH. specialize (IH W ltac:(lia)).
      simpl in IH. destruct (find_from fuel _ name _ _) as [off|].
      * destruct IH as (p1 & e' & p2 & -> & -> & M' & Hn). exists (e :: p1), e', p2. rewrite <- app_assoc. split_and!; try done. by constructor.
      * by constructor.
Qed.

Lemma scan_room_spec rl post : forall pre fuel po pr, Forall wf_dent (pre ++ post) -> (length post < fuel)%nat ->
  match scan_room fuel (encs (pre ++ post)) rl (zlength (encs (pre ++ post))) (zlength (encs pre)) po pr with
  | inl (off, r) => exists p1 e p2, post = p1 ++ e :: p2 /\ off = zlength (encs (pre ++ p1)) /\ r = rec_of e /\ live e = false /\ rl <= r
  | inr (po', pr') => (post = [] /\ po' = po /\ pr' = pr) \/
                      exists p1 e, post = p1 ++ [e] /\ po' = zlength (encs (pre ++ p1)) /\ pr' = rec_of e
  end.
Proof.
  induction post as [|e post IH]; intros pre fuel po pr W Hf; destruct fuel as [|fuel]; simpl in Hf; try lia; cbn [scan_room].
  - rewrite app_nil_r, Z.geb_leb, Z.leb_refl. by left.
  - destruct (scan_here pre e post _ W eq_refl) as (E1 & E2 & E3 & E4 & E5 & E6). rewrite E1, E2, E3, E4, E6.
    destruct ((de_ino e =? 0) && (rec_of e >=? rl)) eqn:M.
    + exists [], e, post. rewrite app_nil_r. unfold live. split_and!; try done; lia.
    + specialize (IH (pre ++ [e]) fuel (zlength (encs pre)) (rec_of e)). rewrite <- app_assoc in IH. specialize (IH W ltac:(lia)).
      simpl in IH. destruct (scan_room fuel _ rl _ _ _ _) as [[off r]|[po' pr']].
      * destruct IH as (p1 & e' & p2 & -> & -> & -> & ? & ?). exists (e :: p1), e', p2. rewrite <- app_assoc. split_and!; done.
      * right. destruct IH as [(-> & -> & ->)|(p1 & e' & -> & -> & ->)].
        { exists [], e. rewrite app_nil_r. done. }
        exists (e :: p1), e'. rewrite <- app_assoc. done.
Qed.

(** The entry names neither "." nor "..". *)
Definition busy (e : dent) : bool := live e && negb (bool_decide (name_of e = [46])) && negb (bool_decide (name_of e = [46; 46])).

Lemma at_body (A C : list Z) e k : 0 <= k < zlength (de_body e) -> byte_at (A ++ enc e ++ C) (zlength A + 8 + k) = byte_at (de_body e) k.
Proof.
  intros Hk. rewrite <- Z.add_assoc, byte_at_app by lia. unfold enc. rewrite <- app_assoc. set (h := header _ _ _ _).
  pose proof (byte_at_app h (de_body e ++ C) k ltac:(lia)) as E. change (zlength h) with 8 in E. rewrite E. by apply byte_at_app_l.
Qed.

Lemma busy_here (A C : list Z) e : wf_dent e -> let buf := A ++ enc e ++ C in let off := zlength A in
  negb (e_inode buf off =? 0) && negb ((e_name_len buf off =? 1) && (byte_at buf (off + 8) =? 46)) &&
    negb ((e_name_len buf off =? 2) && (byte_at buf (off + 8) =? 46) && (byte_at buf (off + 9) =? 46)) = busy e.
Proof.
  intros We buf off. unfold buf, off. rewrite at_inode, at_name_len by done. unfold busy, live.
  destruct (Z.eqb_spec (de_ino e) 0) as [|Hi]; [done|]. cbn [negb andb].
  assert (Hl : de_nlen e <= zlength (de_body e)) by (apply (wd_name _ We); unfold live; by rewrite (proj2 (Z.eqb_neq _ _))).
  pose proof (wd_nlen _ We) as Hn. pose proof (at_body A C e 0) as E0. rewrite Z.add_0_r in E0.
  pose proof (at_body A C e 1) as E1. replace (zlength A + 8 + 1) with (zlength A + 9) in E1 by lia. unfold name_of.
  destruct (Z.eqb_spec (de_nlen e) 1) as [H1|H1].
  { rewrite H1 in *. rewrite E0 by lia. destruct (de_body e) as [|x body]; [unfold zlength in Hl; simpl in Hl; lia|]. unfold byte_at. simpl. rewrite take_0. simpl.
    destruct (Z.eqb_spec x 46) as [->|Hx]; [done|]. by rewrite !bool_decide_eq_false_2 by congruence. }
  destruct (Z.eqb_spec (de_nlen e) 2) as [H2|H2].
  { rewrite H2 in *. rewrite E0, E1 by lia. destruct (de_body e) as [|x [|y body]]; [unfold zlength in Hl; simpl in Hl; lia..|]. unfold byte_at. simpl. rewrite take_0. simpl.
    destruct (Z.eqb_spec x 46) as [->|Hx], (Z.eqb_spec y 46) as [->|Hy]; simpl; [done|by rewrite !bool_decide_eq_false_2 by congruence..]. }
  cbn [andb negb]. assert (Ht : length (take (Z.to_nat (de_nlen e)) (de_body e)) = Z.to_nat (de_nlen e)) by (unfold zlength in Hl; rewrite length_take; lia).
  rewrite !bool_decide_eq_false_2; [done|intros E; rewrite E in Ht; simpl in Ht; lia..].
Qed.

Lemma busy_from_spec post : forall pre fuel, Forall wf_dent (pre ++ post) -> (length post < fuel)%nat ->
  busy_from fuel (encs (pre ++ post)) (zlength (encs (pre ++ post))) (zlength (encs pre)) = existsb busy post.
Proof.
  induction post as [|e post IH]; intros pre fuel W Hf; destruct fuel as [|fuel]; simpl in Hf; try lia; cbn [busy_from existsb].
  - by rewrite app_nil_r, Z.geb_leb, Z.leb_refl.
  - destruct (scan_here pre e post _ W eq_refl) as (E1 & E2 & E3 & E4 & E5 & E6). rewrite E1, E2, E3.
    assert (We : wf_dent e) by (apply Forall_app in W as [_ W]; by apply Forall_cons in W as [W _]).
    pose proof (busy_here (encs pre) (encs post) e We) as B. cbv zeta in B. rewrite <- encs_cons, <- encs_app in B. rewrite B, E6.
    specialize (IH (pre ++ [e]) fuel). rewrite <- app_assoc in IH. simpl in IH. rewrite IH by (done || lia). by destruct (busy e).
Qed.
End scan.

Lemma block_fuel buf n l : block_of buf n l -> (length l < Z.to_nat n)%nat.
Proof.
  intros [-> <- Hs _]. assert (H : 8 * Z.of_nat (length l) <= zlength (encs l)).
  { clear Hs. induction l as [|e l IH]; [done|]. rewrite encs_cons, (zlength_app (enc e)), zlength_dent. pose proof (rec_pos e). simpl length. lia. }
  destruct l; [done|]. simpl length in *. lia.
Qed.

(** ** Insertion *)

Lemma rec_len_bounds len : 0 <= len -> len + 8 <= EXT2_DIR_REC_LEN len <= len + 11.
Proof.
  intros H. unfold EXT2_DIR_REC_LEN. change (Z.ldiff (len + 8 + 3) 3) with (Z.ldiff (len + 8 + 3) (Z.ones 2)).
  rewrite Z.ldiff_ones_r by lia.
  rewrite Z.shiftl_mul_pow2, Z.shiftr_div_pow2 by lia. pose proof (Z.div_mod (len + 8 + 3) (2 ^ 2) ltac:(done)).
  pose proof (Z.mod_pos_bound (len + 8 + 3) (2 ^ 2) ltac:(done)). lia.
Qed.

Lemma entries_app l l' : entries (l ++ l') = entries l ++ entries l'.
Proof. unfold entries. by rewrite filter_app, fmap_app. Qed.
Lemma entries_one e : entries [e] = if live e then [(name_of e, de_ino e)] else [].
Proof. unfold entries. destruct (live e) eqn:E; [rewrite filter_cons_True by done|rewrite filter_cons_False by (by rewrite E)]; done. Qed.

(** The entry written for a name over the bytes [B]. *)
Definition new_dent (name : list Z) (ino ft : Z) (B : list Z) : dent :=
  mkdent ino (zlength name) ft (name ++ drop (8 + length name) B).

Record wf_new (name : list Z) (ino ft : Z) : Prop := {
  wn_name : Forall is_u8 name;
  wn_len : zlength name < 256;
  wn_ino : 0 < ino < 2 ^ 32;
  wn_type : 0 <= ft < 256;
}.

Lemma new_dent_ok name ino ft B : wf_new name ino ft -> Forall is_u8 B -> 8 + zlength name <= zlength B -> zlength B < 2 ^ 16 ->
  wf_dent (new_dent name ino ft B) /\ rec_of (new_dent name ino ft B) = zlength B /\
  entries [new_dent name ino ft B] = [(name, ino)].
Proof.
  intros [] HB Hl Hr. pose proof (zlength_nonneg name).
  assert (E : rec_of (new_dent name ino ft B) = zlength B).
  { unfold rec_of, new_dent. simpl. rewrite zlength_app. unfold zlength in *. rewrite length_drop. lia. }
  split_and!; [|done|].
  - split; [simpl; lia|simpl; lia|simpl; lia| |lia|].
    + apply Forall_app. split; [done|]. by apply Forall_drop.
    + intros _. cbn [de_nlen de_body new_dent]. rewrite zlength_app. pose proof (zlength_nonneg (drop (8 + length name) B)). lia.
  - rewrite entries_one. unfold live, new_dent. simpl. destruct (Z.eqb_spec ino 0); [lia|]. simpl.
    unfold name_of. simpl. unfold zlength. by rewrite Nat2Z.id, take_app_length.
Qed.

Definition set_body (b : list Z) (e : dent) : dent := mkdent (de_ino e) (de_nlen e) (de_type e) b.

(** Shortening the last entry: its tail is left over. *)
Lemma shrink_last (A : list Z) e used : wf_dent e -> 8 + de_nlen e <= used < 2 ^ 16 -> used <= rec_of e ->
  let e' := set_body (take (Z.to_nat (used - 8)) (de_body e)) e in
  ext2_write16 (A ++ enc e) (zlength A + 4) used = A ++ enc e' ++ drop (Z.to_nat (used - 8)) (de_body e) /\
  wf_dent e' /\ rec_of e' = used /\ entries [e'] = entries [e].
Proof.
  intros W Hu Hr e'. pose proof (wd_nlen _ W) as Hnl. unfold rec_of in Hr.
  assert (Er : rec_of e' = used).
  { unfold rec_of, e'. simpl. unfold zlength in *. rewrite length_take. lia. }
  split_and!; [|split; simpl; try apply W| |]; try done.
  - unfold enc. rewrite Er. cbn [de_ino de_nlen de_type de_body set_body e']. rewrite !header_bytes.
    rewrite <- !app_assoc, take_drop. unfold ext2_write16.
    rewrite (app_assoc A). rewrite (memcpy_app (A ++ _)); [by rewrite <- app_assoc|rewrite zlength_app; done|done|done].
  - apply Forall_take, W.
  - rewrite Er. lia.
  - unfold live. simpl. intros Hl. unfold zlength in *. rewrite length_take. pose proof (wd_name _ W Hl). unfold zlength in *. lia.
  - rewrite !entries_one. unfold live, name_of, e'. simpl. destruct (negb _); [|done]. rewrite take_take. do 3 f_equal. lia.
Qed.

Lemma insert_ok buf n l name ino ft buf' : block_of buf n l -> n < 2 ^ 16 -> wf_new name ino ft ->
  insert_in_block buf name ino ft n = Some buf' -> exists l', block_of buf' n l' /\ entries l' ≡ₚ (name, ino) :: entries l.
Proof.
  intros Hb Hn Wn. pose proof (block_fuel _ _ _ Hb) as Hfuel. destruct Hb as [-> Hlen Hsome W]. unfold insert_in_block.
  pose proof (rec_len_bounds (zlength name) (zlength_nonneg name)) as Hrl. set (rl := EXT2_DIR_REC_LEN (zlength name)) in *.
  pose proof (scan_room_spec rl l [] (Z.to_nat n) 0 0 W Hfuel) as S. simpl in S. rewrite Hlen in S. change (zlength (encs [])) with 0 in S.
  destruct (scan_room _ _ _ _ _ _ _) as [[off r]|[po pr]].
  - destruct S as (p1 & e & p2 & -> & -> & -> & Hl & Hr). intros [= <-]. apply Forall_app in W as [W1 W]. apply Forall_cons in W as [We W2].
    destruct (new_dent_ok name ino ft (enc e) Wn (enc_u8 e We)) as (N1 & N2 & N3); rewrite ?zlength_dent in *; [lia|apply We|].
    rewrite encs_app, encs_cons, fill_entry_app by (rewrite ?zlength_dent; lia || apply Wn).
    fold (new_dent name ino ft (enc e)). exists (p1 ++ new_dent name ino ft (enc e) :: p2). split.
    + split; [by rewrite encs_app, encs_cons| |by destruct p1|apply Forall_app; split; [done|by constructor]].
      rewrite encs_app, encs_cons in Hlen. rewrite !(zlength_app (encs p1)), (zlength_app (enc _)), !zlength_dent in *.
      rewrite (zlength_app (enc e)), zlength_dent in Hlen. lia.
    + change (new_dent name ino ft (enc e) :: p2) with ([new_dent name ino ft (enc e)] ++ p2). change (e :: p2) with ([e] ++ p2).
      rewrite !entries_app, N3, (entries_one e), Hl. simpl. by rewrite Permutation_middle.
  - destruct S as [(-> & _)|(p1 & e & -> & -> & ->)]; [done|]. pose proof (rec_pos e).
    destruct (Z.eqb_spec (rec_of e) 0); [lia|]. apply Forall_app in W as [W1 We]. apply Forall_cons in We as [We _].
    rewrite encs_app, encs_cons in *. change (encs []) with (@nil Z) in *. rewrite app_nil_r in *.
    assert (Enl : e_name_len (encs p1 ++ enc e) (zlength (encs p1)) = de_nlen e).
    { pose proof (at_name_len (encs p1) [] e) as E. by rewrite app_nil_r in E. }
    rewrite Enl. pose proof (rec_len_bounds (de_nlen e) ltac:(apply We)) as Hu. set (used := EXT2_DIR_REC_LEN (de_nlen e)) in *.
    rewrite (zlength_app (encs p1)), zlength_dent in Hlen.
    destruct (_ <=? n) eqn:Hfit; [|done]. intros [= <-]. apply Z.leb_le in Hfit.
    pose proof (zlength_nonneg (encs p1)). pose proof (zlength_nonneg name). pose proof (wd_nlen _ We).
    destruct (shrink_last (encs p1) e used We) as (E1 & E2 & E3 & E4); [pose proof (wd_rec _ We); lia|lia|].
    rewrite E1. clear E1. set (e' := set_body _ e) in *. set (tail := drop _ (de_body e)).
    assert (Ht : zlength tail = rec_of e - used).
    { unfold tail, rec_of, zlength in *. rewrite length_drop. lia. }
    assert (Hu8 : Forall is_u8 tail) by apply Forall_drop, We.
    destruct (new_dent_ok name ino ft tail Wn Hu8) as (N1 & N2 & N3); [lia|pose proof (wd_rec _ We); lia|].
    rewrite app_assoc, <- (app_nil_r tail).
    replace (zlength (encs p1) + used) with (zlength (encs p1 ++ enc e')) by (rewrite (zlength_app (encs p1)), zlength_dent; lia).
    rewrite fill_entry_app; [|rewrite (zlength_app (encs p1)), zlength_dent; lia|rewrite (zlength_app (encs p1)), zlength_dent; lia|apply Wn|apply Wn].
    rewrite app_nil_r. fold (new_dent name ino ft tail). exists (p1 ++ [e'; new_dent name ino ft tail]). split.
    + split; [rewrite encs_app, !encs_cons, <- app_assoc; change (encs []) with (@nil Z); by rewrite ?app_nil_r| |by destruct p1|apply Forall_app; split; [done|]; apply Forall_cons; split; [done|]; apply Forall_cons; split; [done|by apply Forall_nil]].
      rewrite ?app_nil_r, <- app_assoc, (zlength_app (encs p1)), (zlength_app (enc e')), !zlength_dent. lia.
    + change [e'; new_dent name ino ft tail] with ([e'] ++ [new_dent name ino ft tail]).
      rewrite !entries_app, N3, E4. by rewrite app_assoc, Permutation_app_comm.
Qed.

Lemma first_entry_ok n name ino ft : 264 <= n < 2 ^ 16 -> wf_new name ino ft ->
  exists l, block_of (new_block n name ino ft) n l /\ entries l = [(name, ino)].
Proof.
  intros Hn Wn. pose proof (wn_len _ _ _ Wn). pose proof (zlength_nonneg name). unfold new_block. set (B := replicate _ 0).
  assert (HB : zlength B = n) by (unfold B, zlength; rewrite length_replicate; lia).
  assert (Hu : Forall is_u8 B) by (apply Forall_replicate; unfold is_u8; lia).
  destruct (new_dent_ok name ino ft B Wn Hu) as (N1 & N2 & N3); [lia|lia|]. exists [new_dent name ino ft B]. split; [|done].
  assert (E : fill_entry B 0 ino n name ft = enc (new_dent name ino ft B)).
  { pose proof (fill_entry_app [] B [] name ino n ft HB ltac:(lia) ltac:(lia) ltac:(apply Wn)) as E.
    rewrite !app_nil_r in E. exact E. }
  rewrite E. split; [|by rewrite zlength_dent, N2|done|by constructor].
  rewrite encs_cons. change (encs []) with (@nil Z). by rewrite app_nil_r.
Qed.

(** ** Lookup and deletion in a block *)

Definition set_ino (ino : Z) (e : dent) : dent := mkdent ino (de_nlen e) (de_type e) (de_body e).

Lemma write_ino (A C : list Z) e ino : ext2_write32 (A ++ enc e ++ C) (zlength A) ino = A ++ enc (set_ino ino e) ++ C.
Proof.
  unfold enc, rec_of, set_ino. cbn [de_ino de_nlen de_type de_body]. rewrite !header_bytes, <- !app_assoc. unfold ext2_write32.
  by rewrite (memcpy_app A).
Qed.

Lemma set_ino_block buf n p1 e p2 ino : block_of buf n (p1 ++ e :: p2) -> live e = true -> 0 <= ino < 2 ^ 32 ->
  block_of (ext2_write32 buf (zlength (encs p1)) ino) n (p1 ++ set_ino ino e :: p2).
Proof.
  intros [-> Hlen Hsome W] Hl Hi. apply Forall_app in W as [W1 W]. apply Forall_cons in W as [We W2].
  rewrite encs_app, encs_cons, write_ino. split; [by rewrite encs_app, encs_cons| |by destruct p1|].
  - rewrite encs_app, encs_cons, (zlength_app (encs p1)), (zlength_app (enc e)), zlength_dent in Hlen.
    rewrite (zlength_app (encs p1)), (zlength_app (enc (set_ino ino e))), zlength_dent. exact Hlen.
  - apply Forall_app. split; [done|]. constructor; [|done]. destruct We. split; try done. intros _. by apply wd_name0.
Qed.

Lemma find_ok buf n l name : block_of buf n l ->
  match find_from (Z.to_nat n) buf name n 0 with
  | Some off => exists p1 e p2, l = p1 ++ e :: p2 /\ off = zlength (encs p1) /\ live e = true /\ name_of e = name /\
      (name ∉ (entries p1).*1) /\ e_inode buf off = de_ino e /\
      forall ino, 0 <= ino < 2 ^ 32 -> block_of (ext2_write32 buf off ino) n (p1 ++ set_ino ino e :: p2)
  | None => name ∉ (entries l).*1
  end.
Proof.
  intros Hb. pose proof (block_fuel _ _ _ Hb) as Hfuel. pose proof Hb as [-> Hlen Hsome W].
  assert (Hno : forall p, Forall wf_dent p -> Forall (fun e => matches name e = false) p -> name ∉ (entries p).*1).
  { intros p Wp Hp Hin. apply list_elem_of_fmap in Hin as ([nm i] & -> & Hin). unfold entries in Hin.
    apply list_elem_of_fmap in Hin as (e & [= E1 E2] & Hin). apply list_elem_of_filter in Hin as [Hl Hin].
    rewrite Forall_forall in Wp, Hp. pose proof (Hp e Hin) as M. simpl in M.
    rewrite (proj2 (matches_name nm e (Wp e Hin))) in M by done. done. }
  pose proof (find_from_spec name l [] (Z.to_nat n) W Hfuel) as S. simpl in S. rewrite Hlen in S. change (zlength (encs [])) with 0 in S.
  destruct (find_from _ _ _ _ _) as [off|]; [|by apply Hno].
  destruct S as (p1 & e & p2 & -> & -> & M & Hp1). apply Forall_app in W as [W1 W]. apply Forall_cons in W as [We W2].
  apply (matches_name name e We) in M as [Hl Hnm]. exists p1, e, p2. split_and!; try done; [by apply Hno| |].
  - rewrite encs_app, encs_cons. by apply at_inode.
  - intros ino Hi. by apply set_ino_block.
Qed.

(** ** Listing a block *)

Section listing_block.
Context {D : Type} (filldir : D -> list Z -> Z -> Z -> Z -> D * bool) (filetype : bool).

(** The entries [es] at position [pos] are given to the caller until it has had
    enough: whether it had, the position reached and the caller's state. *)
Fixpoint deliver (pos : Z) (es : list dent) (dirent : D) : bool * Z * D :=
  match es with
  | [] => (false, pos, dirent)
  | e :: es =>
    let next := pos + rec_of e in
    if live e then
      let '(dirent, full) := filldir dirent (name_of e) next (de_ino e) (if filetype then de_type e else 0) in
      if full then (true, pos, dirent) else deliver next es dirent
    else deliver next es dirent
  end.

Lemma list_block_spec start post : forall pre fuel dirent, Forall wf_dent (pre ++ post) -> (length post < fuel)%nat ->
  0 <= start -> start + zlength (encs (pre ++ post)) < 2 ^ 32 ->
  list_block filldir filetype fuel (encs (pre ++ post)) start (zlength (encs (pre ++ post))) (zlength (encs pre)) (start + zlength (encs pre)) dirent =
  let '(full, pos, dirent') := deliver (start + zlength (encs pre)) post dirent in (if full then Full else More, pos, dirent').
Proof.
  induction post as [|e post IH]; intros pre fuel dirent W Hf H0 Hs; destruct fuel as [|fuel]; simpl in Hf; try lia; cbn [list_block deliver].
  - by rewrite app_nil_r, Z.geb_leb, Z.leb_refl.
  - destruct (scan_here pre e post _ W eq_refl) as (E1 & E2 & E3 & E4 & E5 & E6). rewrite E1, E2, E3, E4, E5.
    assert (We : wf_dent e) by (apply Forall_app in W as [_ W]; by apply Forall_cons in W as [W _]).
    assert (Eft : e_file_type (encs (pre ++ e :: post)) (zlength (encs pre)) = de_type e) by (rewrite encs_app, encs_cons; apply at_file_type).
    pose proof (zlength_nonneg (encs pre)). pose proof (rec_pos e). pose proof (zlength_nonneg (encs post)).
    rewrite (u32_small (start + zlength (encs pre) + rec_of e)); cycle 1.
    { rewrite encs_app, (zlength_app (encs pre)), encs_cons, (zlength_app (enc e)), zlength_dent in Hs. lia. }
    specialize (IH (pre ++ [e]) fuel). rewrite <- app_assoc in IH. change ([e] ++ post) with (e :: post) in IH.
    rewrite <- E6, Z.add_assoc in IH. unfold live. destruct (Z.eqb_spec (de_ino e) 0) as [Hi|Hi]; cbn [negb].
    { apply IH; (done || lia). }
    assert (Ena : e_name (encs (pre ++ e :: post)) (zlength (encs pre)) (de_nlen e) = name_of e).
    { rewrite encs_app, encs_cons. apply at_name, (wd_name _ We). unfold live. by rewrite (proj2 (Z.eqb_neq _ _)). }
    rewrite Ena, Eft. destruct (filldir _ _ _ _ _) as [dirent1 [|]]; [done|]. apply IH; (done || lia).
Qed.

Lemma deliver_app es es' : forall pos dirent, deliver pos (es ++ es') dirent =
  let '(full, pos', dirent') := deliver pos es dirent in if full : bool then (true, pos', dirent') else deliver pos' es' dirent'.
Proof.
  induction es as [|e es IH]; intros pos dirent; [done|]. cbn [app deliver]. destruct (live e); [|apply IH].
  destruct (filldir _ _ _ _ _) as [d [|]]; [done|apply IH].
Qed.

(** The listing stops at an entry, not inside one. *)
Lemma deliver_boundary es : forall pos dirent, let '(full, pos', _) := deliver pos es dirent in
  exists p1 p2, es = p1 ++ p2 /\ pos' = pos + zlength (encs p1) /\ (full = false -> p2 = []).
Proof.
  induction es as [|e es IH]; intros pos dirent; cbn [deliver]; [exists [], []; rewrite Z.add_0_r; done|].
  assert (Hstop : exists p1 p2, e :: es = p1 ++ p2 /\ pos = pos + zlength (encs p1) /\ (true = false -> p2 = [])).
  { exists [], (e :: es). rewrite Z.add_0_r. done. }
  assert (Hgo : forall dirent', let '(full, pos', _) := deliver (pos + rec_of e) es dirent' in
    exists p1 p2, e :: es = p1 ++ p2 /\ pos' = pos + zlength (encs p1) /\ (full = false -> p2 = [])).
  { intros d'. specialize (IH (pos + rec_of e) d'). destruct (deliver _ _ _) as [[full pos'] d''].
    destruct IH as (p1 & p2 & -> & -> & Hf). exists (e :: p1), p2. split; [done|]. split; [|done].
    rewrite encs_cons, (zlength_app (enc e)), zlength_dent. lia. }
  destruct (live e); [|apply Hgo]. destruct (filldir _ _ _ _ _) as [d [|]]; [exact Hstop|apply Hgo].
Qed.
End listing_block.

End Ext2Dir.
