(* ===== verification/Ext2DirRun.v ===== *)
(** * What the operations on a directory do ([fs/ext2/dir.c])

    [Ext2Dir] describes one block; here the blocks are those of a file of a
    consistent file system, and each operation is shown to do to the list of the
    (name, inode) pairs of the directory what its name says. *)
From S2P Require Import Prelude Bitmap Ext2 Ext2Balloc Ext2Bmap Ext2Dir.
From stdpp Require Import fin_sets.
#[local] Open Scope Z_scope.

Module Ext2DirRun.
Import Bitmap Ext2 Ext2Balloc Ext2Bmap Ext2Dir.
#[local] Open Scope ext2_scope.

Definition dstate : Type := dir * fs.
Definition bst (st : dstate) : state := (d_inode st.1, st.2).
Definition bs (st : dstate) : Z := block_size (sb st.2).

(** A directory whose blocks hold the entries [L], on a consistent disk with the
    free blocks [F]. *)
Record is_dir (st : dstate) (F : gset Z) (L : list (list dent)) : Prop := {
  dr_good : good (bst st) F;
  dr_size : i_size st.1 = zlength L * bs st;
  dr_small : i_size st.1 < 2 ^ 32;
  dr_max : zlength L <= max_blocks (per_of st.2);
  dr_blocks k l : L !! k = Some l ->
    fmap (bst st) (Z.of_nat k) <> 0 /\ block_of (blk st.2 (fmap (bst st) (Z.of_nat k))) (bs st) l;
}.

(** The pairs of the directory, in the order of its blocks. *)
Definition listing (L : list (list dent)) : list entry := L ≫= entries.

(** What an operation does to the rest of the disk: it takes free blocks at
    most, and writes no block in use that is not one of the directory's. *)
Record step (st : dstate) (F : gset Z) (st' : dstate) (F' : gset Z) : Prop := {
  sp_free : F' ⊆ F;
  sp_layout : same_layout (sb st.2) (sb st'.2);
  sp_bufs : bufs st'.2 = bufs st.2;
  sp_keep rp : valid (per_of st.2) rp -> node (bst st) rp <> 0 -> node (bst st') rp = node (bst st) rp;
  sp_frame c : 0 < c -> c ∉ F -> ~ meta (sb st.2) c ->
    (forall rp, valid (per_of st.2) rp -> node (bst st') rp <> c) -> blk st'.2 c = blk st.2 c;
}.

Lemma step_per st F st' F' : step st F st' F' -> per_of st'.2 = per_of st.2 /\ bs st' = bs st.
Proof. intros [_ (E & _) _ _ _]. unfold per_of, bs, EXT2_ADDRS_PER_BLOCK. by rewrite E. Qed.

Lemma step_refl st F : step st F st F.
Proof. by constructor. Qed.

Lemma step_trans st F st1 F1 st2 F2 : step st F st1 F1 -> step st1 F1 st2 F2 -> step st F st2 F2.
Proof.
  intros H1 H2. destruct (step_per _ _ _ _ H1) as [Ep _]. destruct H1 as [G1 G2 G3 G4 G5], H2 as [K1 K2 K3 K4 K5].
  rewrite Ep in *. destruct G2 as (L1 & L2 & L3 & L4), K2 as (L1' & L2' & L3' & L4'). constructor; [set_solver| |congruence|..].
  - do 3 (split; [congruence|]). intros c. by rewrite L4', L4.
  - intros rp Hv Hn. rewrite K4; [by apply G4|done|by rewrite G4].
  - intros c Hc HF Hm Hfree. rewrite K5; [|done|set_solver|by rewrite L4|by rewrite ?Ep].
    apply G5; try done. intros rp Hv E. apply (Hfree rp Hv). rewrite K4; [done|done|]. rewrite E. lia.
Qed.

Lemma good_facts st F : good st F -> geom (sb st.2) /\ 256 <= per_of st.2 <= 1024 /\ faults st.2 = [] /\ sectors_ok (disk st.2).
Proof.
  intros [Ha _ Hf _]. pose proof (a_geom _ _ Ha) as Hg. destruct (per_facts _ Hg). split_and!; try done; [lia..|apply Ha].
Qed.

Lemma dir_bs st F L : is_dir st F L -> 1024 <= bs st <= 4096.
Proof.
  intros [Hg _ _ _ _]. destruct (good_facts _ _ Hg) as (Hgeom & _). destruct (geom_size _ Hgeom) as ([E|[E|E]] & _); unfold bs; cbn [bst snd] in E; lia.
Qed.

(** A block of the directory in the tree of the file. *)
Lemma data_block st F n : good st F -> in_file st n -> fmap st n <> 0 ->
  0 < fmap st n < blocks_count (sb st.2) /\ (fmap st n ∉ F) /\ ~ meta (sb st.2) (fmap st n) /\
  (forall rp, valid (per_of st.2) rp -> (length rp < depth (root rp))%nat -> node st rp <> fmap st n).
Proof.
  intros Hg Hn Hnz. destruct (good_facts _ _ Hg) as (_ & Hper & _). destruct (path_valid (per_of st.2) ltac:(lia) n Hn) as [Hv Hl].
  destruct (t_used _ _ (g_tree _ _ Hg) _ Hv Hnz) as (? & ? & ?).
  split_and!; [unfold fmap; lia..|done|done|].
  intros rp Hvr Hlt E. assert (Er : rp = path_of (per_of st.2) n).
  { apply (t_inj _ _ (g_tree _ _ Hg)); try done. by rewrite E. }
  rewrite Er in Hlt. lia.
Qed.

Lemma grows_data T st F st' F' n : good st F -> grows T st F st' F' -> in_file st n -> fmap st n <> 0 ->
  fmap st' n = fmap st n /\ blk st'.2 (fmap st n) = blk st.2 (fmap st n).
Proof.
  intros Hg Hgr Hn Hnz. destruct (good_facts _ _ Hg) as (_ & Hper & _). destruct (path_valid (per_of st.2) ltac:(lia) n Hn) as [Hv Hl].
  assert (Ep : per_of st'.2 = per_of st.2) by (eapply layout_per; [done|done|apply Hgr]).
  assert (Ek : fmap st' n = fmap st n) by (unfold fmap; rewrite Ep; exact (gr_keep _ _ _ _ _ Hgr _ Hv Hnz)). split; [done|].
  destruct (data_block st F n Hg Hn Hnz) as (Hr & HF & Hm & _). apply (gr_frame _ _ _ _ _ Hgr); [lia|done|done|].
  destruct (data_block st' F' n (gr_good _ _ _ _ _ Hgr)) as (_ & _ & _ & Hp).
  - unfold in_file. by rewrite Ep.
  - by rewrite Ek.
  - rewrite Ep, Ek in Hp. exact Hp.
Qed.

(** Looking up blocks in between. *)
Lemma grows_step T st F F' i s : good (bst st) F -> grows T (bst st) F (i, s) F' -> step st F (set_d_inode i st.1, s) F'.
Proof.
  intros Hg [G1 G2 G3 G4 G5 G6 G7]. constructor; try done. intros c Hc HF Hm Hfree. apply G7; try done. intros rp Hv _. by apply Hfree.
Qed.

Lemma grows_dir T st F F' i s L : is_dir st F L -> grows T (bst st) F (i, s) F' -> is_dir (set_d_inode i st.1, s) F' L.
Proof.
  intros Hd Hgr. pose proof Hd as [Hg Hs Hsm Hmx Hb].
  assert (Hst := grows_step _ _ _ _ _ _ Hg Hgr). destruct (step_per _ _ _ _ Hst) as [Ep Eb].
  constructor; cbn [fst snd] in *; try done.
  - exact (gr_good _ _ _ _ _ Hgr).
  - by rewrite Eb.
  - by rewrite Ep.
  - intros k l Hk. destruct (Hb k l Hk) as [Hnz Hbl]. assert (Hin : in_file (bst st) (Z.of_nat k)).
    { unfold in_file. apply lookup_lt_Some in Hk. unfold zlength in Hmx. cbn [bst snd]. lia. }
    destruct (grows_data _ _ _ _ _ _ Hg Hgr Hin Hnz) as [E1 E2]. cbn [snd] in E2.
    change (bst (set_d_inode i st.1, s)) with (i, s). rewrite E1, Eb, E2. done.
Qed.

Lemma zlength_insert {A} k (x : A) l : zlength (<[k := x]> l) = zlength l.
Proof. unfold zlength. by rewrite length_insert. Qed.

(** ** Buffers *)

Definition dbump (d : Z) (st : dstate) : dstate := (st.1, set_bufs (bufs st.2 + d) st.2).

Lemma dbump_back st : dbump (-1) (dbump 1 st) = st.
Proof. destruct st as [i []]. unfold dbump, set_bufs. cbn. do 2 f_equal. lia. Qed.

Lemma is_dir_ext st st' F L : i_block (d_inode st'.1) = i_block (d_inode st.1) -> i_size st'.1 = i_size st.1 -> disk st'.2 = disk st.2 ->
  sb st'.2 = sb st.2 -> faults st'.2 = faults st.2 -> s_sem st'.2 = s_sem st.2 -> is_dir st F L -> is_dir st' F L.
Proof.
  intros E1 E2 E3 E4 E5 E6 [G1 G2 G3 G4 G5].
  assert (Ef : forall n, fmap (bst st') n = fmap (bst st) n).
  { intros n. unfold fmap, per_of. cbn [bst snd]. rewrite E4. by apply node_ext. }
  constructor; unfold bs, per_of, blk in *; rewrite ?E2, ?E3, ?E4; try done.
  - eapply good_ext; cycle -1; [exact G1|done..].
  - intros k l Hk. rewrite Ef. by apply G5.
Qed.

Lemma step_ext st F st1 st2 F' : i_block (d_inode st2.1) = i_block (d_inode st1.1) -> disk st2.2 = disk st1.2 ->
  sb st2.2 = sb st1.2 -> bufs st2.2 = bufs st1.2 -> step st F st1 F' -> step st F st2 F'.
Proof.
  intros E1 E2 E3 E4 [G1 G2 G3 G4 G5].
  assert (En : forall rp, node (bst st2) rp = node (bst st1) rp) by (intros; by apply node_ext).
  constructor; [done|by rewrite E3|by rewrite E4|intros rp Hv Hn; rewrite En; by apply G4|].
  intros c Hc HF Hm Hfree. unfold blk. rewrite E2, E3. apply G5; try done. intros rp Hv. rewrite <- En. by apply Hfree.
Qed.

Lemma is_dir_bump d st F L : is_dir st F L -> is_dir (dbump d st) F L.
Proof. by apply is_dir_ext. Qed.

Lemma step_bump st F st' F' : step (dbump 1 st) F st' F' -> step st F (dbump (-1) st') F'.
Proof.
  intros [G1 G2 G3 G4 G5]. assert (En : forall d st rp, node (bst (dbump d st)) rp = node (bst st) rp) by (intros; by apply node_ext).
  constructor; try done.
  - cbn in *. lia.
  - intros rp Hv Hn. rewrite En, G4, En; [done|done|by rewrite En].
  - intros c Hc HF Hm Hfree. apply G5; try done. intros rp Hv. rewrite <- (En (-1)). by apply Hfree.
Qed.

Lemma with_block_run {A} (b : Z) (k : list Z -> DM A) st F L : is_dir st F L -> 0 <= b < blocks_count (sb st.2) ->
  with_block b k st = let '(r, st') := k (blk st.2 b) (dbump 1 st) in (r, dbump (-1) st').
Proof.
  intros Hd Hb. destruct (good_facts _ _ (dr_good _ _ _ Hd)) as (Hgeom & _ & Hf & _). destruct st as [d s]. cbn [bst snd] in *.
  unfold with_block. assert (E1 : on_disk kmalloc (d, s) = (Ok tt, dbump 1 (d, s))) by (unfold on_disk; by rewrite kmalloc_ok).
  rewrite (bind_ok _ _ _ _ _ E1).
  assert (E2 : on_disk (ext2_read_block b) (dbump 1 (d, s)) = (Ok (blk s b), dbump 1 (d, s))).
  { unfold on_disk. cbn [dbump fst snd]. by rewrite read_block_ok. }
  rewrite (bind_try _ _ _ _ _ E2). destruct (k (blk s b) (dbump 1 (d, s))) as [r st'] eqn:E. rewrite (bind_try _ _ _ _ _ E).
  by destruct st'.
Qed.

(** ** Writing a block of the directory *)

Section put.
Context (st : state) (F : gset Z) (n : Z) (buf : list Z) (ino : inode).
Hypothesis (Hg : good st F) (Hn : in_file st n) (Hnz : fmap st n <> 0).
Hypothesis (Hlen : zlength buf = block_size (sb st.2)) (Hu8 : Forall is_u8 buf).
Hypothesis (Hino : i_block ino = i_block st.1).
Let st' : state := (ino, put_block (fmap st n) buf st.2).

Lemma put_node rp : valid (per_of st.2) rp -> node st' rp = node st rp.
Proof using Hg Hn Hnz Hlen Hino.
  destruct (data_block st F n Hg Hn Hnz) as (Hr & HF & Hm & Hp). destruct (good_facts _ _ Hg) as (Hgeom & _).
  induction rp as [|j rq IH]; intros Hv; [done|]. rewrite !node_cons. unfold content.
  destruct rq as [|h rq]; [by rewrite <- Hino|]. apply valid_cons in Hv as (_ & Hv & Hlt); [|done]. rewrite IH by done.
  destruct (Z.eqb_spec (node st (h :: rq)) 0) as [|E]; [done|]. destruct (t_used _ _ (g_tree _ _ Hg) _ Hv E).
  unfold st'. cbn [snd]. rewrite (blk_put st.2 Hgeom), decide_False; [done|by apply Hp|lia..|done].
Qed.

Lemma put_fmap m : in_file st m -> fmap st' m = fmap st m.
Proof using Hg Hn Hnz Hlen Hino.
  intros Hm. destruct (good_facts _ _ Hg) as (_ & Hper & _). apply put_node. apply path_valid; [|done]. change (per_of st'.2) with (per_of st.2). lia.
Qed.

Lemma put_good : good st' F.
Proof using All.
  destruct (data_block st F n Hg Hn Hnz) as (Hr & HF & Hm & Hp). pose proof Hg as [Ha [T1 T2 T3 T4] Hf Hs]. constructor; try done.
  - apply abs_put; [done|lia|done..].
  - constructor; unfold st'; cbn [fst snd]; rewrite ?Hino; try done.
    + intros rp Hv. change (per_of _) with (per_of st.2) in Hv. fold st'. rewrite put_node by done. by apply T3.
    + intros rp rq Hv Hv'. change (per_of _) with (per_of st.2) in Hv, Hv'. fold st'. rewrite !put_node by done. by apply T4.
Qed.

Lemma put_here : blk st'.2 (fmap st' n) = buf.
Proof using Hg Hn Hnz Hlen Hino.
  destruct (data_block st F n Hg Hn Hnz) as (Hr & _). destruct (good_facts _ _ Hg) as (Hgeom & _).
  rewrite (put_fmap n Hn). unfold st'. cbn [snd]. rewrite (blk_put st.2 Hgeom), decide_True; [done..|lia|lia|done].
Qed.

Lemma put_other m : in_file st m -> fmap st m <> 0 -> m <> n -> blk st'.2 (fmap st' m) = blk st.2 (fmap st m).
Proof using Hg Hn Hnz Hlen Hino.
  intros Hm Hmz Hne. destruct (data_block st F n Hg Hn Hnz) as (Hr & _). destruct (data_block st F m Hg Hm Hmz) as (Hr' & _).
  destruct (good_facts _ _ Hg) as (Hgeom & _).
  rewrite (put_fmap m Hm). unfold st'. cbn [snd]. rewrite (blk_put st.2 Hgeom), decide_False; [done| |lia|lia|done].
  intros E. by apply (good_injective _ _ _ _ Hg Hm Hn Hmz) in E.
Qed.

Lemma put_step sd d : bst sd = st -> d_inode d = ino -> step sd F (d, st'.2) F.
Proof using Hg Hn Hnz Hlen Hino.
  intros Es Ed. destruct (data_block st F n Hg Hn Hnz) as (Hr & _). destruct (good_facts _ _ Hg) as (Hgeom & Hper & _).
  assert (Est : bst (d, st'.2) = st') by (unfold bst; cbn [fst snd]; by rewrite Ed). destruct sd as [d0 s0].
  constructor; rewrite ?Est, ?Es; change (d0, s0).2 with (bst (d0, s0)).2; rewrite ?Es; try done.
  - intros rp Hv _. by apply put_node.
  - intros c Hc HcF Hcm Hfree. cbn [snd]. unfold st'. cbn [snd]. rewrite (blk_put st.2 Hgeom), decide_False; [done| |lia..|done].
    intros ->. destruct (path_valid (per_of st.2) ltac:(lia) n Hn) as [Hv _]. apply (Hfree _ Hv). by rewrite put_node.
Qed.
End put.

(** The state after a block is written and the inode set to [d]. *)
Definition put_dir_block (n : Z) (buf : list Z) (d : dir) (st : dstate) : dstate := (d, put_block (fmap (bst st) n) buf st.2).

Lemma dir_in_file st F L k : is_dir st F L -> (k < length L)%nat -> in_file (bst st) (Z.of_nat k).
Proof. intros Hd Hk. pose proof (dr_max _ _ _ Hd). unfold in_file, zlength in *. cbn [bst snd]. lia. Qed.

(** What [put_dir_block] does to the blocks of the file. *)
Lemma put_dir_facts st F n buf d : good (bst st) F -> in_file (bst st) n -> fmap (bst st) n <> 0 ->
  zlength buf = bs st -> Forall is_u8 buf -> i_block (d_inode d) = i_block (d_inode st.1) ->
  let st' := put_dir_block n buf d st in
  good (bst st') F /\ step st F st' F /\ blk st'.2 (fmap (bst st') n) = buf /\
  (forall m, in_file (bst st) m -> fmap (bst st') m = fmap (bst st) m) /\
  (forall m, in_file (bst st) m -> fmap (bst st) m <> 0 -> m <> n -> blk st'.2 (fmap (bst st') m) = blk st.2 (fmap (bst st) m)).
Proof.
  intros Hg Hn Hnz Hl Hu Ei st'. split_and!.
  - by apply (put_good (bst st) F n buf (d_inode d)).
  - by apply (put_step (bst st) F n buf (d_inode d)).
  - by apply (put_here (bst st) F n buf (d_inode d)).
  - intros m Hm. by apply (put_fmap (bst st) F n buf (d_inode d)).
  - intros m Hm Hmz Hne. by apply (put_other (bst st) F n buf (d_inode d)).
Qed.

Lemma blocks_in_file st F L m x : is_dir st F L -> L !! m = Some x -> in_file (bst st) (Z.of_nat m).
Proof. intros Hd H%lookup_lt_Some. by eapply dir_in_file. Qed.

(** A block of the directory gets other entries. *)
Lemma put_is_dir st F L k l l' buf d : is_dir st F L -> L !! k = Some l -> block_of buf (bs st) l' ->
  i_block (d_inode d) = i_block (d_inode st.1) -> i_size d = i_size st.1 ->
  is_dir (put_dir_block (Z.of_nat k) buf d st) F (<[k := l']> L) /\ step st F (put_dir_block (Z.of_nat k) buf d st) F.
Proof.
  intros Hd Hk Hbl Ei Es. pose proof Hd as [Hg Hs Hsm Hmx Hb].
  assert (Hu8 : Forall is_u8 buf) by (destruct Hbl as [-> _ _ ?]; by apply encs_u8). destruct (Hb k l Hk) as [Hnz _].
  destruct (put_dir_facts st F (Z.of_nat k) buf d Hg (blocks_in_file _ _ _ _ _ Hd Hk) Hnz (bk_len _ _ _ Hbl) Hu8 Ei) as (P1 & P2 & P3 & P4 & P5).
  split; [|done]. constructor; rewrite ?zlength_insert; cbn [fst put_dir_block]; rewrite ?Es; try done.
  intros m x Hm. assert (Hmd : exists y, L !! m = Some y).
  { apply lookup_lt_is_Some. apply lookup_lt_Some in Hm. by rewrite length_insert in Hm. }
  destruct Hmd as [y Hy]. destruct (Hb m y Hy) as [Hmnz Hmb]. pose proof (blocks_in_file _ _ _ _ _ Hd Hy) as Hin.
  split; [by rewrite P4|]. destruct (decide (m = k)) as [->|Hne].
  - rewrite list_lookup_insert_eq in Hm by (by eapply lookup_lt_Some). injection Hm as <-. by rewrite P3.
  - rewrite list_lookup_insert_ne, Hy in Hm by done. injection Hm as <-. rewrite P5; [done|done|done|lia].
Qed.

(** A new last block. *)
Lemma append_is_dir st F L l buf d : is_dir st F L -> zlength L < max_blocks (per_of st.2) -> fmap (bst st) (zlength L) <> 0 ->
  block_of buf (bs st) l -> i_block (d_inode d) = i_block (d_inode st.1) -> i_size d = i_size st.1 + bs st -> i_size d < 2 ^ 32 ->
  is_dir (put_dir_block (zlength L) buf d st) F (L ++ [l]) /\ step st F (put_dir_block (zlength L) buf d st) F.
Proof.
  intros Hd Hlt Hnz Hbl Ei Es Hsz. pose proof Hd as [Hg Hs Hsm Hmx Hb].
  assert (Hu8 : Forall is_u8 buf) by (destruct Hbl as [-> _ _ ?]; by apply encs_u8).
  assert (Hn : in_file (bst st) (zlength L)) by (unfold in_file; pose proof (zlength_nonneg L); cbn [bst snd]; lia).
  destruct (put_dir_facts st F (zlength L) buf d Hg Hn Hnz (bk_len _ _ _ Hbl) Hu8 Ei) as (P1 & P2 & P3 & P4 & P5).
  split; [|done]. assert (Hlen : zlength (L ++ [l]) = zlength L + 1) by (rewrite zlength_app; done).
  constructor; rewrite ?Hlen; cbn [fst put_dir_block]; try done.
  - rewrite Es, Hs. change (bs _) with (bs st). ring.
  - change (per_of _) with (per_of st.2). lia.
  - intros m x Hm. apply lookup_snoc_Some in Hm as [[Hml Hm]|[-> <-]].
    + destruct (Hb m x Hm) as [Hmnz Hmb]. pose proof (blocks_in_file _ _ _ _ _ Hd Hm) as Hin.
      split; [by rewrite P4|]. rewrite P5; [done|done|done|unfold zlength; lia].
    + fold (zlength L). split; [by rewrite P4|]. by rewrite P3.
Qed.

(** ** The loop over the blocks *)

Lemma on_inode_run {A} (m : IM A) st r i s : m (bst st) = (r, (i, s)) -> on_inode m st = (r, (set_d_inode i st.1, s)).
Proof. intros E. unfold on_inode, bst in *. by rewrite E. Qed.

(** Looking up a block of the directory. *)
Lemma lookup_run st F L k : is_dir st F L -> (k < length L)%nat -> exists st1 F1,
  on_inode (ext2_bmap (Z.of_nat k) false) st = (Ok (fmap (bst st) (Z.of_nat k)), st1) /\ is_dir st1 F1 L /\ step st F st1 F1 /\
  fmap (bst st1) (Z.of_nat k) = fmap (bst st) (Z.of_nat k) /\ i_size st1.1 = i_size st.1.
Proof.
  intros Hd Hk. pose proof (dir_in_file _ _ _ _ Hd Hk) as Hin.
  destruct (bmap_lookup_spec _ _ _ (dr_good _ _ _ Hd) Hin) as ([i s] & F1 & E & Hgr & Ef).
  exists (set_d_inode i st.1, s), F1. split; [exact (on_inode_run _ _ _ _ _ E)|]. split; [exact (grows_dir _ _ _ _ _ _ _ Hd Hgr)|].
  split; [exact (grows_step _ _ _ _ _ _ (dr_good _ _ _ Hd) Hgr)|]. done.
Qed.

Section loop.
Context {A : Type} (body : Z -> Z -> DM (option A)) (none : DM A).
Context (st : dstate) (F : gset Z) (L : list (list dent)).
Context (skip : list dent -> Prop) (R : nat -> list dent -> A -> dstate -> Prop).
Hypothesis Hbody : forall k l st1 F1, L !! k = Some l -> is_dir st1 F1 L -> step st F st1 F1 ->
  (skip l /\ exists st2, body (fmap (bst st1) (Z.of_nat k)) (bs st1) st1 = (Ok None, st2) /\ is_dir st2 F1 L /\ step st1 F1 st2 F1) \/
  (exists a st2, body (fmap (bst st1) (Z.of_nat k)) (bs st1) st1 = (Ok (Some a), st2) /\ R k l a st2).

Lemma over_blocks_ok todo : forall k st1 F1 fuel, drop k L = todo -> (length todo < fuel)%nat ->
  is_dir st1 F1 L -> step st F st1 F1 -> Forall skip (take k L) ->
  (exists j l a st2, L !! j = Some l /\ Forall skip (take j L) /\ over_blocks fuel (Z.of_nat k) body none st1 = (Ok a, st2) /\ R j l a st2) \/
  (Forall skip L /\ exists st2 F2, is_dir st2 F2 L /\ step st F st2 F2 /\ over_blocks fuel (Z.of_nat k) body none st1 = none st2).
Proof using Hbody.
  induction todo as [|l todo IH]; intros k st1 F1 fuel Htodo Hf Hd1 Hs1 Hsk; destruct fuel as [|fuel]; simpl in Hf; try lia;
    cbn [over_blocks]; rewrite (bind_ok get_dir _ _ _ _ eq_refl);
    (assert (Hget : on_disk get_sb st1 = (Ok (sb st1.2), st1)) by (by destruct st1)); rewrite (bind_ok _ _ _ _ _ Hget);
    pose proof (dir_bs _ _ _ Hd1) as Hbs; rewrite (dr_size _ _ _ Hd1); fold (bs st1).
  - right. assert (Hk : (length L <= k)%nat) by (apply (f_equal length) in Htodo; rewrite length_drop in Htodo; simpl in Htodo; lia).
    rewrite take_ge in Hsk by done. split; [done|]. exists st1, F1. split_and!; try done.
    rewrite (proj2 (Z.ltb_ge _ _)); [done|]. unfold zlength. nia.
  - assert (Hkl : L !! k = Some l) by (rewrite <- (Nat.add_0_r k), <- lookup_drop, Htodo; done).
    assert (Hk : (k < length L)%nat) by (by eapply lookup_lt_Some).
    rewrite (proj2 (Z.ltb_lt _ _)) by (unfold zlength; nia). cbn [negb].
    destruct (lookup_run _ _ _ _ Hd1 Hk) as (st2 & F2 & E & Hd2 & Hs2 & Ef & Esz). rewrite (bind_ok _ _ _ _ _ E).
    destruct (dr_blocks _ _ _ Hd1 k l Hkl) as [Hnz _]. rewrite (proj2 (Z.eqb_neq _ _)) by done.
    destruct (step_per _ _ _ _ Hs2) as [_ Ebs]. pose proof (dr_small _ _ _ Hd1) as Hsm. rewrite (dr_size _ _ _ Hd1) in Hsm.
    assert (El : limit_of (zlength L * bs st1) (bs st1) (u32 (Z.of_nat k * bs st1)) = bs st2).
    { unfold limit_of. unfold zlength in *. rewrite u32_small by nia. rewrite Ebs.
      destruct (Z.gtb_spec (Z.of_nat k * bs st1 + bs st1) (Z.of_nat (length L) * bs st1)); [nia|done]. }
    rewrite El, <- Ef. pose proof (step_trans _ _ _ _ _ _ Hs1 Hs2) as Hs12.
    destruct (Hbody k l st2 F2 Hkl Hd2 Hs12) as [(Hl & st3 & Eb & Hd3 & Hs3)|(a & st3 & Eb & HR)]; rewrite (bind_ok _ _ _ _ _ Eb).
    + replace (Z.of_nat k + 1) with (Z.of_nat (S k)) by lia. apply (IH (S k) st3 F2); [|lia|done|by eapply step_trans|].
      * rewrite <- (Nat.add_1_r k), <- drop_drop, Htodo. done.
      * erewrite take_S_r by done. apply Forall_app. split; [done|]. by constructor.
    + left. exists k, l, a, st3. done.
Qed.
End loop.

Lemma blocks_fuel_ok st F L : is_dir st F L -> (length (drop 0 L) < blocks_fuel st.1)%nat.
Proof.
  intros Hd. unfold blocks_fuel. rewrite (dr_size _ _ _ Hd). pose proof (dir_bs _ _ _ Hd). unfold zlength. rewrite drop_0. nia.
Qed.

(** ** What the operations do to a list of pairs *)

(** The inode number of the first entry of a name. *)
Fixpoint assoc (name : list Z) (l : list entry) : option Z :=
  match l with
  | [] => None
  | (n, x) :: l => if decide (n = name) then Some x else assoc name l
  end.

(** The first entry of a name is given another number, or removed. *)
Fixpoint set_first (name : list Z) (ino : Z) (l : list entry) : list entry :=
  match l with
  | [] => []
  | (n, x) :: l => if decide (n = name) then (if ino =? 0 then l else (n, ino) :: l) else (n, x) :: set_first name ino l
  end.

Lemma assoc_none name l : name ∉ l.*1 -> assoc name l = None.
Proof.
  induction l as [|[n x] l IH]; [done|]. simpl. intros H. rewrite not_elem_of_cons in H. destruct H.
  rewrite decide_False by congruence. by apply IH.
Qed.
Lemma assoc_mid name pre x post : name ∉ pre.*1 -> assoc name (pre ++ (name, x) :: post) = Some x.
Proof.
  induction pre as [|[n y] pre IH]; simpl; [by rewrite decide_True|]. intros H. rewrite not_elem_of_cons in H. destruct H.
  rewrite decide_False by congruence. by apply IH.
Qed.
Lemma set_first_mid name ino pre x post : name ∉ pre.*1 ->
  set_first name ino (pre ++ (name, x) :: post) = pre ++ (if ino =? 0 then [] else [(name, ino)]) ++ post.
Proof.
  induction pre as [|[n y] pre IH]; simpl; [rewrite decide_True by done; by destruct (ino =? 0)|].
  intros H. rewrite not_elem_of_cons in H. destruct H. rewrite decide_False by congruence. by rewrite IH.
Qed.
Lemma assoc_perm name l l' : name ∉ l.*1 -> forall ino, l' ≡ₚ (name, ino) :: l -> assoc name l' = Some ino.
Proof.
  intros Hn ino Hp. assert (Hin : (name, ino) ∈ l') by (rewrite Hp; by left). apply list_elem_of_split in Hin as (a & b & ->).
  apply assoc_mid. assert (Hp' : a ++ b ≡ₚ l) by (apply (Permutation_cons_inv (a := (name, ino))); rewrite <- Hp; apply Permutation_middle).
  intros Hin. apply Hn. rewrite <- Hp', fmap_app. apply elem_of_app. by left.
Qed.

Lemma listing_app L L' : listing (L ++ L') = listing L ++ listing L'.
Proof. apply bind_app. Qed.
Lemma listing_split L j l : L !! j = Some l -> listing L = listing (take j L) ++ entries l ++ listing (drop (S j) L).
Proof. intros H. rewrite <- (take_drop_middle L j l H) at 1. rewrite listing_app. done. Qed.
Lemma listing_insert L j l l' : L !! j = Some l -> listing (<[j := l']> L) = listing (take j L) ++ entries l' ++ listing (drop (S j) L).
Proof.
  intros H. rewrite insert_take_drop by (by eapply lookup_lt_Some). by rewrite listing_app.
Qed.
Lemma not_in_listing name L : Forall (fun l => name ∉ (entries l).*1) L -> name ∉ (listing L).*1.
Proof.
  induction L as [|l L IH]; intros H; [by intros ?%elem_of_nil|]. apply Forall_cons in H as [H1 H2].
  change (l :: L) with ([l] ++ L). rewrite listing_app, fmap_app, elem_of_app. unfold listing at 1. simpl. rewrite app_nil_r.
  intros [?|?]; [done|]. by apply IH.
Qed.

Lemma entries_mid name p1 e p2 : live e = true -> name_of e = name -> entries (p1 ++ e :: p2) = entries p1 ++ (name, de_ino e) :: entries p2.
Proof. intros Hl <-. change (e :: p2) with ([e] ++ p2). by rewrite !entries_app, entries_one, Hl. Qed.
Lemma entries_set name ino p1 e p2 : name_of e = name ->
  entries (p1 ++ set_ino ino e :: p2) = entries p1 ++ (if ino =? 0 then [] else [(name, ino)]) ++ entries p2.
Proof.
  intros <-. change (set_ino ino e :: p2) with ([set_ino ino e] ++ p2). rewrite !entries_app, entries_one. unfold live. simpl.
  by destruct (ino =? 0).
Qed.

(** ** Lookup *)

Section find.
Context (name : list Z) (st : dstate) (F : gset Z) (L : list (list dent)).
Hypothesis Hd : is_dir st F L.

Definition found (j : nat) (l : list dent) (r : Z * Z) (st' : dstate) : Prop :=
  exists F' p1 e p2, is_dir st' F' L /\ step st F st' F' /\ r = (fmap (bst st') (Z.of_nat j), zlength (encs p1)) /\
    l = p1 ++ e :: p2 /\ live e = true /\ name_of e = name /\ name ∉ (entries p1).*1.

Lemma find_entry_ok :
  (exists j l r st', L !! j = Some l /\ (name ∉ (listing (take j L)).*1) /\ ext2_find_entry name st = (Ok r, st') /\ found j l r st') \/
  ((name ∉ (listing L).*1) /\ exists st' F', is_dir st' F' L /\ step st F st' F' /\ ext2_find_entry name st = (Er (- ENOENT), st')).
Proof using Hd.
  unfold ext2_find_entry. rewrite (bind_ok get_dir _ _ _ _ eq_refl). set (body := fun block limit => with_block _ _).
  destruct (over_blocks_ok body (fail (- ENOENT)) st F L (fun l => name ∉ (entries l).*1) found) with
    (todo := drop 0 L) (k := 0%nat) (st1 := st) (F1 := F) (fuel := blocks_fuel st.1) as [(j & l & r & st2 & H1 & H2 & H3 & H4)|(H1 & st2 & F2 & H2 & H3 & H4)].
  - intros k l st1 F1 Hk Hd1 Hs1. destruct (dr_blocks _ _ _ Hd1 k l Hk) as [Hnz Hb].
    assert (Hkl : (k < length L)%nat) by (by eapply lookup_lt_Some).
    destruct (data_block _ _ _ (dr_good _ _ _ Hd1) (dir_in_file _ _ _ _ Hd1 Hkl) Hnz) as (Hr & _). unfold body.
    rewrite (with_block_run _ _ _ _ _ Hd1) by (cbn [bst snd] in Hr; lia). cbn [ret]. rewrite dbump_back.
    pose proof (find_ok _ _ _ name Hb) as Hf. destruct (find_from _ _ _ _ _) as [off|].
    + right. destruct Hf as (p1 & e & p2 & -> & -> & Hl & Hn & Hp1 & _). eexists _, st1. split; [done|].
      exists F1, p1, e, p2. done.
    + left. split; [done|]. exists st1. split; [done|]. split; [done|apply step_refl].
  - done.
  - by eapply blocks_fuel_ok.
  - done.
  - apply step_refl.
  - by apply Forall_nil.
  - left. exists j, l, r, st2. split_and!; try done. by apply not_in_listing.
  - right. split; [by apply not_in_listing|]. exists st2, F2. done.
Qed.
End find.

(** Reading the number of an entry. *)
Lemma read_entry_spec name st F L : is_dir st F L -> exists st' F', is_dir st' F' L /\ step st F st' F' /\
  ext2_read_entry_inode name st = (match assoc name (listing L) with Some ino => Ok ino | None => Er (- ENOENT) end, st').
Proof.
  intros Hd. unfold ext2_read_entry_inode.
  destruct (find_entry_ok name st F L Hd) as [(j & l & r & st1 & Hj & Hpre & E & F1 & p1 & e & p2 & Hd1 & Hs1 & -> & -> & Hl & Hn & Hp1)|(Hno & st1 & F1 & Hd1 & Hs1 & E)].
  - exists st1, F1. split; [done|]. split; [done|]. rewrite (bind_ok _ _ _ _ _ E). cbn [fst snd].
    destruct (dr_blocks _ _ _ Hd1 j _ Hj) as [Hnz Hb]. assert (Hkl : (j < length L)%nat) by (by eapply lookup_lt_Some).
    destruct (data_block _ _ _ (dr_good _ _ _ Hd1) (dir_in_file _ _ _ _ Hd1 Hkl) Hnz) as (Hr & _).
    rewrite (with_block_run _ _ _ _ _ Hd1) by (cbn [bst snd] in Hr; lia). cbn [ret]. rewrite dbump_back.
    rewrite (listing_split _ _ _ Hj), (entries_mid name) by done. rewrite <- app_assoc, app_assoc, <- app_comm_cons, assoc_mid.
    + rewrite (bk_bytes _ _ _ Hb), encs_app, encs_cons. rewrite at_inode; [done|].
      pose proof (bk_wf _ _ _ Hb) as W. apply Forall_app in W as [_ W]. by apply Forall_cons in W as [W _].
    + rewrite fmap_app, elem_of_app. tauto.
  - exists st1, F1. split; [done|]. split; [done|]. rewrite (bind_er _ _ _ _ _ E). by rewrite (assoc_none name).
Qed.

(** Writing the number of an entry. *)
Lemma set_entry_spec name ino st F L : is_dir st F L -> 0 <= ino < 2 ^ 32 -> exists st' F',
  match assoc name (listing L) with
  | None => set_entry name ino st = (Er (- ENOENT), st') /\ is_dir st' F' L
  | Some _ => set_entry name ino st = (Ok tt, st') /\ exists L', is_dir st' F' L' /\ zlength L' = zlength L /\ listing L' = set_first name ino (listing L)
  end /\ step st F st' F'.
Proof.
  intros Hd Hi. unfold set_entry.
  destruct (find_entry_ok name st F L Hd) as [(j & l & r & st1 & Hj & Hpre & E & F1 & p1 & e & p2 & Hd1 & Hs1 & -> & -> & Hl & Hn & Hp1)|(Hno & st1 & F1 & Hd1 & Hs1 & E)].
  - rewrite (bind_ok _ _ _ _ _ E). cbn [fst snd].
    destruct (dr_blocks _ _ _ Hd1 j _ Hj) as [Hnz Hb]. assert (Hkl : (j < length L)%nat) by (by eapply lookup_lt_Some).
    destruct (good_facts _ _ (dr_good _ _ _ Hd1)) as (Hgeom & _ & Hf & _).
    destruct (data_block _ _ _ (dr_good _ _ _ Hd1) (dir_in_file _ _ _ _ Hd1 Hkl) Hnz) as (Hr & _). cbn [bst snd] in Hr, Hf, Hgeom.
    rewrite (with_block_run _ _ _ _ _ Hd1) by lia. set (b := fmap (bst st1) _) in *. set (buf := ext2_write32 _ _ _).
    assert (Hb' : block_of buf (bs st1) (p1 ++ set_ino ino e :: p2)).
    { by apply set_ino_block. }
    assert (Ew : on_disk (ext2_write_block b buf) (dbump 1 st1) = (Ok tt, (st1.1, put_block b buf (set_bufs (bufs st1.2 + 1) st1.2)))).
    { destruct st1 as [d1 s1]. unfold on_disk. cbn [dbump fst snd] in *. rewrite write_block_ok; [done|done..|cbn; lia]. }
    rewrite Ew. destruct (put_is_dir st1 F1 L j _ _ buf st1.1 Hd1 Hj Hb' eq_refl eq_refl) as [Hd2 Hs2].
    eexists _, F1. rewrite (listing_split _ _ _ Hj), (entries_mid name) by done. rewrite <- app_assoc, app_assoc, <- app_comm_cons.
    assert (Hpre' : name ∉ (listing (take j L) ++ entries p1).*1) by (rewrite fmap_app, elem_of_app; tauto).
    rewrite assoc_mid by done. split; [split; [done|]|].
    + eexists. split; [eapply is_dir_ext; cycle -1; [exact Hd2|done..]|]. split; [by rewrite zlength_insert|].
      rewrite (listing_insert _ _ _ _ Hj), (entries_set name) by done. rewrite set_first_mid by done. by rewrite <- !app_assoc.
    + eapply step_trans; [exact Hs1|]. eapply step_ext; cycle -1; [exact Hs2|try done; cbn; lia..].
  - exists st1, F1. rewrite (bind_er _ _ _ _ _ E), (assoc_none name) by done. done.
Qed.

(** ** Insertion *)

Definition touched (now : Z) (d : dir) : dir := mkdir (set_i_dirty (d_inode d)) (i_size d) now.

(** A write to the block of the directory while a buffer is held. *)
Lemma write_run st F L n buf : is_dir st F L -> in_file (bst st) n -> fmap (bst st) n <> 0 ->
  on_disk (ext2_write_block (fmap (bst st) n) buf) (dbump 1 st) = (Ok tt, dbump 1 (put_dir_block n buf st.1 st)).
Proof.
  intros Hd Hn Hnz. destruct (good_facts _ _ (dr_good _ _ _ Hd)) as (Hgeom & _ & Hf & _).
  destruct (data_block _ _ _ (dr_good _ _ _ Hd) Hn Hnz) as (Hr & _). destruct st as [d s]. unfold on_disk. cbn [dbump fst snd bst] in *.
  rewrite write_block_ok; [done|done|done|cbn; lia].
Qed.

(** The result of adding a pair to the directory. *)
Definition added (name : list Z) (ino : Z) (st : dstate) (F : gset Z) (L : list (list dent)) (x : res unit * dstate) : Prop :=
  exists F' L', is_dir x.2 F' L' /\ step st F x.2 F' /\ zlength L' <= zlength L + 1 /\
  match x.1 with
  | Ok _ => listing L' ≡ₚ (name, ino) :: listing L
  | Er e => e = - ENOSPC /\ L' = L /\ F' = ∅
  end.

Section add.
Context (now : Z) (name : list Z) (ino ft : Z).
Hypothesis Hnew : wf_new name ino ft.

Lemma add_in_block st F L k l buf : is_dir st F L -> L !! k = Some l ->
  insert_in_block (blk st.2 (fmap (bst st) (Z.of_nat k))) name ino ft (bs st) = Some buf -> exists st',
  with_block (fmap (bst st) (Z.of_nat k)) (fun _ => write_touch now (fmap (bst st) (Z.of_nat k)) buf ;~ ret (Some tt)) st = (Ok (Some tt), st') /\
  added name ino st F L (Ok tt, st').
Proof using Hnew.
  intros Hd Hk Hins. destruct (dr_blocks _ _ _ Hd k l Hk) as [Hnz Hb]. pose proof (blocks_in_file _ _ _ _ _ Hd Hk) as Hin.
  destruct (data_block _ _ _ (dr_good _ _ _ Hd) Hin Hnz) as (Hr & _). pose proof (dir_bs _ _ _ Hd) as Hbs.
  destruct (insert_ok _ _ _ _ _ _ _ Hb ltac:(lia) Hnew Hins) as (l' & Hb' & Hp).
  rewrite (with_block_run _ _ _ _ _ Hd) by (cbn [bst snd] in Hr; lia).
  assert (Ew : write_touch now (fmap (bst st) (Z.of_nat k)) buf (dbump 1 st) =
               (Ok tt, dbump 1 (put_dir_block (Z.of_nat k) buf (touched now st.1) st))).
  { unfold write_touch. by rewrite (bind_ok _ _ _ _ _ (write_run _ _ _ _ buf Hd Hin Hnz)). }
  rewrite (bind_ok _ _ _ _ _ Ew).
  cbn [ret]. rewrite dbump_back. eexists. split; [done|].
  destruct (put_is_dir st F L k l l' buf (touched now st.1) Hd Hk Hb' eq_refl eq_refl) as [Hd' Hs'].
  exists F, (<[k := l']> L). split; [exact Hd'|]. split; [exact Hs'|]. split; [rewrite zlength_insert; lia|]. cbn [fst].
  rewrite (listing_insert _ _ _ _ Hk), (listing_split _ _ _ Hk), Hp. simpl. symmetry. apply Permutation_middle.
Qed.

(** A new block at the end. *)
Lemma add_at_end st F L : is_dir st F L -> zlength L < max_blocks (per_of st.2) -> i_size st.1 + bs st < 2 ^ 32 ->
  added name ino st F L
    ((i <~ on_disk get_sb ;;
      d <~ get_dir ;;
      block <~ on_inode (ext2_bmap (i_size d / block_size i) true) ;;
      if block =? 0 then fail (- ENOSPC) else
      on_disk kmalloc ;~
      r <~ try (on_disk (ext2_write_block block (new_block (block_size i) name ino ft)) ;~
                put_dir (fun d => mkdir (d_inode d) (i_size d + block_size i) (i_mtime d)) ;~
                ext2_touch_dir now) ;;
      on_disk kfree ;~
      lift r) st).
Proof using Hnew.
  intros Hd Hmax Hsz. pose proof (dir_bs _ _ _ Hd) as Hbs.
  assert (Hget : on_disk get_sb st = (Ok (sb st.2), st)) by (by destruct st). rewrite (bind_ok _ _ _ _ _ Hget).
  rewrite (bind_ok get_dir _ _ _ _ eq_refl), (dr_size _ _ _ Hd). fold (bs st). rewrite Z.div_mul by lia.
  assert (Hin : in_file (bst st) (zlength L)) by (unfold in_file; pose proof (zlength_nonneg L); cbn [bst snd]; lia).
  destruct (bmap_create_spec _ _ _ (dr_good _ _ _ Hd) Hin) as (b & [i s] & F1 & E & Hgr & Hb & Hkeep & Hnew0).
  rewrite (bind_ok _ _ _ _ _ (on_inode_run _ _ _ _ _ E)).
  pose proof (grows_dir _ _ _ _ _ _ _ Hd Hgr) as Hd1. pose proof (grows_step _ _ _ _ _ _ (dr_good _ _ _ Hd) Hgr) as Hs1.
  set (st1 := (set_d_inode i st.1, s)) in *. change (i, s) with (bst st1) in Hb. destruct (step_per _ _ _ _ Hs1) as [Ep Eb].
  destruct (Z.eqb_spec b 0) as [Hz|Hz].
  - exists F1, L. split; [done|]. split; [done|]. split; [lia|]. split; [done|]. split; [done|].
    destruct (Z.eq_dec (fmap (bst st) (zlength L)) 0) as [H0|H0]; [|rewrite (Hkeep H0) in Hz; done].
    by apply Hnew0.
  - assert (Hin1 : in_file (bst st1) (zlength L)).
    { unfold in_file. change (per_of (bst st1).2) with (per_of st1.2). rewrite Ep. exact Hin. }
    assert (Hnz : fmap (bst st1) (zlength L) <> 0) by (by rewrite Hb).
    destruct (good_facts _ _ (dr_good _ _ _ Hd1)) as (_ & _ & Hf & _). rewrite <- Hb.
    assert (Hk : on_disk kmalloc st1 = (Ok tt, dbump 1 st1)) by (unfold on_disk; by rewrite kmalloc_ok).
    rewrite (bind_ok _ _ _ _ _ Hk). fold (bs st). set (buf := new_block (bs st) name ino ft).
    set (d' := touched now (mkdir (d_inode st1.1) (i_size st1.1 + bs st) (i_mtime st1.1))).
    assert (Hw : (on_disk (ext2_write_block (fmap (bst st1) (zlength L)) buf) ;~
                put_dir (fun d => mkdir (d_inode d) (i_size d + bs st) (i_mtime d)) ;~
                ext2_touch_dir now) (dbump 1 st1) = (Ok tt, dbump 1 (put_dir_block (zlength L) buf d' st1))).
    { by rewrite (bind_ok _ _ _ _ _ (write_run _ _ _ _ buf Hd1 Hin1 Hnz)). }
    rewrite (bind_try _ _ _ _ _ Hw). unfold bind at 1. cbn [on_disk kfree modify lift]. unfold on_disk.
    destruct (first_entry_ok (bs st) name ino ft ltac:(lia) Hnew) as (l & Hbl & El). fold buf in Hbl.
    destruct (append_is_dir st1 F1 L l buf d' Hd1) as [Hd2 Hs2]; try done; [by rewrite Ep|by rewrite Eb|by rewrite Eb|].
    exists F1, (L ++ [l]). cbn [fst snd]. split; [|split; [|split]].
    + eapply is_dir_ext; cycle -1; [exact Hd2|done..].
    + eapply step_ext; cycle -1; [eapply step_trans; [exact Hs1|exact Hs2]|try done; cbn; lia..].
    + rewrite zlength_app. done.
    + rewrite listing_app. unfold listing at 2. simpl. rewrite app_nil_r, El. symmetry. apply Permutation_cons_append.
Qed.


Lemma added_trans st F L st1 F1 x : step st F st1 F1 -> added name ino st1 F1 L x -> added name ino st F L x.
Proof. intros Hs (F2 & L2 & Hd & Hs2 & Hx). exists F2, L2. split; [done|]. split; [by eapply step_trans|done]. Qed.

Lemma add_entry_spec st F L : is_dir st F L -> zlength L < max_blocks (per_of st.2) -> i_size st.1 + bs st < 2 ^ 32 ->
  added name ino st F L (ext2_add_entry_linear now name ino ft st).
Proof using Hnew.
  intros Hd Hmax Hsz. unfold ext2_add_entry_linear. pose proof (wn_len _ _ _ Hnew) as Hlen.
  destruct (Z.gtb_spec (zlength name) EXT2_NAME_LEN) as [|_]; [unfold EXT2_NAME_LEN in *; lia|].
  rewrite (bind_ok get_dir _ _ _ _ eq_refl). set (body := fun block limit => with_block _ _). set (none := bind (on_disk get_sb) _).
  destruct (over_blocks_ok body none st F L (fun _ => True) (fun _ _ _ st' => added name ino st F L (Ok tt, st'))) with
    (todo := drop 0 L) (k := 0%nat) (st1 := st) (F1 := F) (fuel := blocks_fuel st.1) as [(j & l & [] & st2 & H1 & H2 & H3 & H4)|(H1 & st2 & F2 & H2 & H3 & H4)].
  - intros k l st1 F1 Hk Hd1 Hs1. unfold body.
    destruct (insert_in_block (blk st1.2 (fmap (bst st1) (Z.of_nat k))) name ino ft (bs st1)) as [buf|] eqn:E.
    + right. destruct (add_in_block st1 F1 L k l buf Hd1 Hk E) as (st2 & E2 & Ha). exists tt, st2. split; [|by eapply added_trans].
      rewrite <- E2. destruct (dr_blocks _ _ _ Hd1 k l Hk) as [Hnz _].
      destruct (data_block _ _ _ (dr_good _ _ _ Hd1) (blocks_in_file _ _ _ _ _ Hd1 Hk) Hnz) as (Hr & _).
      rewrite !(with_block_run _ _ _ _ _ Hd1) by (cbn [bst snd] in Hr; lia). by rewrite E.
    + left. split; [done|]. exists st1. destruct (dr_blocks _ _ _ Hd1 k l Hk) as [Hnz _].
      destruct (data_block _ _ _ (dr_good _ _ _ Hd1) (blocks_in_file _ _ _ _ _ Hd1 Hk) Hnz) as (Hr & _).
      rewrite (with_block_run _ _ _ _ _ Hd1) by (cbn [bst snd] in Hr; lia). rewrite E. cbn [ret]. rewrite dbump_back.
      split; [done|]. split; [done|apply step_refl].
  - done.
  - by eapply blocks_fuel_ok.
  - done.
  - apply step_refl.
  - by apply Forall_nil.
  - change 0 with (Z.of_nat 0). rewrite H3. exact H4.
  - change 0 with (Z.of_nat 0). rewrite H4. eapply added_trans; [exact H3|]. destruct (step_per _ _ _ _ H3) as [Ep Eb].
    apply add_at_end; [done|by rewrite Ep|]. rewrite (dr_size _ _ _ H2), Eb, <- (dr_size _ _ _ Hd). done.
Qed.
End add.

(** ** Emptiness *)

Lemma dir_is_empty_spec st F L : is_dir st F L -> exists st' F', is_dir st' F' L /\ step st F st' F' /\
  ext2_dir_is_empty st = (Ok (forallb (fun l => negb (existsb busy l)) L), st').
Proof.
  intros Hd. unfold ext2_dir_is_empty. rewrite (bind_ok get_dir _ _ _ _ eq_refl). set (body := fun block limit => with_block _ _).
  destruct (over_blocks_ok body (ret true) st F L (fun l => existsb busy l = false)
      (fun _ l a st' => exists F', is_dir st' F' L /\ step st F st' F' /\ a = false /\ existsb busy l = true)) with
    (todo := drop 0 L) (k := 0%nat) (st1 := st) (F1 := F) (fuel := blocks_fuel st.1)
    as [(j & l & a & st2 & H1 & H2 & H3 & F2 & H4 & H5 & -> & H6)|(H1 & st2 & F2 & H2 & H3 & H4)].
  - intros k l st1 F1 Hk Hd1 Hs1. unfold body. destruct (dr_blocks _ _ _ Hd1 k l Hk) as [Hnz Hb].
    destruct (data_block _ _ _ (dr_good _ _ _ Hd1) (blocks_in_file _ _ _ _ _ Hd1 Hk) Hnz) as (Hr & _).
    rewrite (with_block_run _ _ _ _ _ Hd1) by (cbn [bst snd] in Hr; lia). cbn [ret]. rewrite dbump_back.
    pose proof (busy_from_spec l [] (Z.to_nat (bs st1)) (bk_wf _ _ _ Hb) (block_fuel _ _ _ Hb)) as Eb. simpl in Eb.
    change (zlength (encs [])) with 0 in Eb. rewrite <- (bk_bytes _ _ _ Hb), (bk_len _ _ _ Hb) in Eb. rewrite Eb.
    destruct (existsb busy l) eqn:Eq; [right|left].
    + exists false, st1. split; [done|]. exists F1. done.
    + split; [done|]. exists st1. split; [done|]. split; [done|apply step_refl].
  - done.
  - by eapply blocks_fuel_ok.
  - done.
  - apply step_refl.
  - by apply Forall_nil.
  - exists st2, F2. split; [done|]. split; [done|]. change 0 with (Z.of_nat 0). rewrite H3. do 2 f_equal. symmetry.
    apply not_true_iff_false. rewrite forallb_forall. intros Hall. apply list_elem_of_lookup_2, list_elem_of_In in H1.
    specialize (Hall l H1). by rewrite H6 in Hall.
  - exists st2, F2. split; [done|]. split; [done|]. change 0 with (Z.of_nat 0). rewrite H4. unfold ret. do 2 f_equal. symmetry.
    apply forallb_forall. intros l Hl. rewrite Forall_forall in H1. by rewrite (H1 l) by (by apply list_elem_of_In).
Qed.

(** ** Listing *)

(** Where a position of the file is: before [p2] in the first block of [todo]. *)
Definition at_pos (b : Z) (k : Z) (todo : list (list dent)) (pos : Z) (es : list dent) : Prop :=
  match todo with
  | [] => pos = k * b /\ es = []
  | l :: rest => exists p1 p2, l = p1 ++ p2 /\ p2 <> [] /\ pos = k * b + zlength (encs p1) /\ es = p2 ++ mjoin rest
  end.

(** Every boundary between entries is such a position. *)
Lemma at_pos_exists b L : (forall l, l ∈ L -> zlength (encs l) = b /\ l <> []) -> forall i pre post, mjoin L = pre ++ post ->
  exists k, (k <= length L)%nat /\ at_pos b (i + Z.of_nat k) (drop k L) (i * b + zlength (encs pre)) post.
Proof.
  induction L as [|l L IH]; intros HL i pre post E.
  - simpl in E. symmetry in E. apply app_eq_nil in E as [-> ->]. exists 0%nat. split; [done|]. simpl. change (zlength (encs [])) with 0. lia || (split; [lia|done]).
  - destruct (HL l ltac:(by left)) as [Hl Hne]. simpl in E. apply app_eq_app in E as [m [[-> ->]|[-> E]]].
    + destruct (decide (m = [])) as [->|Hm].
      * rewrite app_nil_r in *. destruct (IH ltac:(intros; apply HL; by right) (i + 1) [] (mjoin L) eq_refl) as (k & Hk & Ha).
        exists (S k). split; [simpl; lia|]. simpl. change (zlength (encs [])) with 0 in Ha.
        replace (i + Z.of_nat (S k)) with (i + 1 + Z.of_nat k) by lia.
        replace (i * b + zlength (encs pre)) with ((i + 1) * b + 0) by lia. exact Ha.
      * exists 0%nat. split; [lia|]. simpl. exists pre, m. rewrite Z.add_0_r. done.
    + destruct (IH ltac:(intros; apply HL; by right) (i + 1) m post E) as (k & Hk & Ha). exists (S k). split; [simpl; lia|].
      replace (i + Z.of_nat (S k)) with (i + 1 + Z.of_nat k) by lia. simpl drop. rewrite encs_app, (zlength_app (encs l)).
      replace (i * b + (zlength (encs l) + zlength (encs m))) with ((i + 1) * b + zlength (encs m)) by lia. exact Ha.
Qed.

Section readdir.
Context {D : Type} (filldir : D -> list Z -> Z -> Z -> Z -> D * bool) (filetype : bool).
Context (st : dstate) (F : gset Z) (L : list (list dent)).

Lemma readdir_block k p1 p2 st1 F1 dirent : is_dir st1 F1 L -> L !! k = Some (p1 ++ p2) ->
  let start := Z.of_nat k * bs st1 in
  with_block (fmap (bst st1) (Z.of_nat k))
    (fun buf => ret (list_block filldir filetype (Z.to_nat (bs st1)) buf start (bs st1) (zlength (encs p1)) (start + zlength (encs p1)) dirent)) st1 =
  (let '(full, pos, dirent') := deliver filldir filetype (start + zlength (encs p1)) p2 dirent in Ok (if full : bool then Full else More, pos, dirent'), st1).
Proof.
  intros Hd Hk start. destruct (dr_blocks _ _ _ Hd k _ Hk) as [Hnz Hb]. pose proof (block_fuel _ _ _ Hb) as Hf.
  destruct (data_block _ _ _ (dr_good _ _ _ Hd) (blocks_in_file _ _ _ _ _ Hd Hk) Hnz) as (Hr & _).
  rewrite (with_block_run _ _ _ _ _ Hd) by (cbn [bst snd] in Hr; lia). cbn [ret]. rewrite dbump_back.
  pose proof (dir_bs _ _ _ Hd). pose proof (dr_small _ _ _ Hd) as Hsm. rewrite (dr_size _ _ _ Hd) in Hsm.
  assert (Hkl : (k < length L)%nat) by (by eapply lookup_lt_Some).
  pose proof (list_block_spec filldir filetype start p2 p1 (Z.to_nat (bs st1)) dirent (bk_wf _ _ _ Hb)) as E.
  rewrite <- (bk_bytes _ _ _ Hb), (bk_len _ _ _ Hb) in E. rewrite E; [by destruct (deliver _ _ _ _ _) as [[[] ?] ?]|..].
  - rewrite length_app in Hf. lia.
  - unfold start. nia.
  - unfold start, zlength in *. nia.
Qed.

Lemma readdir_ok todo : forall k pos es st1 F1 fuel dirent, drop k L = todo -> (k <= length L)%nat -> (length todo < fuel)%nat ->
  is_dir st1 F1 L -> step st F st1 F1 -> at_pos (bs st1) (Z.of_nat k) todo pos es ->
  exists st2 F2, is_dir st2 F2 L /\ step st F st2 F2 /\ readdir_loop filldir filetype fuel pos dirent st1 =
    (let '(_, pos', dirent') := deliver filldir filetype pos es dirent in Ok (0, pos', dirent'), st2).
Proof.
  induction todo as [|l todo IH]; intros k pos es st1 F1 fuel dirent Htodo Hkl Hf Hd1 Hs1 Hpos; destruct fuel as [|fuel]; simpl in Hf; try lia;
    cbn [readdir_loop]; rewrite (bind_ok get_dir _ _ _ _ eq_refl);
    (assert (Hget : on_disk get_sb st1 = (Ok (sb st1.2), st1)) by (by destruct st1)); rewrite (bind_ok _ _ _ _ _ Hget);
    pose proof (dir_bs _ _ _ Hd1) as Hbs; rewrite (dr_size _ _ _ Hd1); fold (bs st1).
  - destruct Hpos as [-> ->]. assert (Hk : (length L <= k)%nat) by (apply (f_equal length) in Htodo; rewrite length_drop in Htodo; simpl in Htodo; lia).
    rewrite (proj2 (Z.ltb_ge _ _)) by (unfold zlength; nia). exists st1, F1. done.
  - destruct Hpos as (p1 & p2 & -> & Hne & -> & ->).
    assert (Hk : L !! k = Some (p1 ++ p2)) by (rewrite <- (Nat.add_0_r k), <- lookup_drop, Htodo; done).
    assert (Hlt : (k < length L)%nat) by (by eapply lookup_lt_Some).
    destruct (lookup_run _ _ _ _ Hd1 Hlt) as (st2 & F2 & E & Hd2 & Hs2 & Ef & Esz). destruct (step_per _ _ _ _ Hs2) as [_ Ebs].
    assert (Hlen : zlength (encs p1) + zlength (encs p2) = bs st2).
    { destruct (dr_blocks _ _ _ Hd2 k _ Hk) as [_ Hb]. rewrite <- (bk_len _ _ _ Hb), (bk_bytes _ _ _ Hb), encs_app. symmetry. apply zlength_app. }
    assert (Hp2 : 0 < zlength (encs p2)).
    { destruct p2 as [|e p2]; [done|]. rewrite encs_cons, (zlength_app (enc e)), zlength_dent. pose proof (rec_pos e). pose proof (zlength_nonneg (encs p2)). lia. }
    pose proof (zlength_nonneg (encs p1)). pose proof (dr_small _ _ _ Hd1) as Hsm. rewrite (dr_size _ _ _ Hd1) in Hsm. unfold zlength in Hsm.
    rewrite (proj2 (Z.ltb_lt _ _)) by (unfold zlength in *; nia). cbn [negb].
    assert (Ediv : (Z.of_nat k * bs st1 + zlength (encs p1)) / bs st1 = Z.of_nat k).
    { rewrite Z.div_add_l by lia. rewrite Z.div_small by lia. lia. }
    rewrite Ediv, !u32_small by (unfold zlength in *; nia). rewrite (bind_ok _ _ _ _ _ E).
    destruct (dr_blocks _ _ _ Hd1 k _ Hk) as [Hnz _]. rewrite (proj2 (Z.eqb_neq _ _)) by done.
    assert (El : limit_of (zlength L * bs st1) (bs st1) (Z.of_nat k * bs st1) = bs st2).
    { unfold limit_of. unfold zlength in *. rewrite Ebs.
      destruct (Z.gtb_spec (Z.of_nat k * bs st1 + bs st1) (Z.of_nat (length L) * bs st1)); [nia|done]. }
    rewrite El, <- Ef, <- Ebs. replace (Z.of_nat k * bs st2 + zlength (encs p1) - Z.of_nat k * bs st2) with (zlength (encs p1)) by lia.
    pose proof (readdir_block k p1 p2 st2 F2 dirent Hd2 Hk) as Eb. cbv zeta in Eb. rewrite (bind_try _ _ _ _ _ Eb). clear Eb.
    pose proof (step_trans _ _ _ _ _ _ Hs1 Hs2) as Hs12.
    pose proof (deliver_boundary filldir filetype p2 (Z.of_nat k * bs st2 + zlength (encs p1)) dirent) as Hbd.
    rewrite deliver_app. destruct (deliver filldir filetype _ p2 dirent) as [[[|] pos'] dirent']; cbn [ret].
    { exists st2, F2. done. }
    destruct Hbd as (q1 & q2 & -> & -> & Hq). rewrite (Hq eq_refl), app_nil_r in *.
    apply (IH (S k) _ (mjoin todo) st2 F2); [rewrite <- (Nat.add_1_r k), <- drop_drop, Htodo; done|lia|lia|done|done|].
    replace (Z.of_nat k * bs st2 + zlength (encs p1) + zlength (encs q1)) with (Z.of_nat (S k) * bs st2) by lia.
    destruct todo as [|l todo]; [done|]. exists [], l. split; [done|]. split; [|by rewrite Z.add_0_r].
    assert (Hk' : L !! S k = Some l) by (rewrite <- (Nat.add_0_r (S k)), <- lookup_drop, <- (Nat.add_1_r k), <- drop_drop, Htodo; done).
    apply (bk_some _ _ _ (proj2 (dr_blocks _ _ _ Hd2 _ _ Hk'))).
Qed.

Lemma readdir_spec pre post dirent : is_dir st F L -> mjoin L = pre ++ post ->
  exists st2 F2, is_dir st2 F2 L /\ step st F st2 F2 /\ ext2_readdir filldir filetype (zlength (encs pre)) dirent st =
    (let '(_, pos', dirent') := deliver filldir filetype (zlength (encs pre)) post dirent in Ok (0, pos', dirent'), st2).
Proof.
  intros Hd E. destruct (at_pos_exists (bs st) L) with (i := 0) (pre := pre) (post := post) as (k & Hk & Ha); [|done|].
  - intros l Hl. apply list_elem_of_lookup in Hl as [m Hm]. destruct (dr_blocks _ _ _ Hd m l Hm) as [_ Hb].
    rewrite <- (bk_len _ _ _ Hb), (bk_bytes _ _ _ Hb). split; [done|apply Hb].
  - unfold ext2_readdir. rewrite (bind_ok get_dir _ _ _ _ eq_refl). apply (readdir_ok (drop k L) k) with (F1 := F); try done.
    + pose proof (blocks_fuel_ok _ _ _ Hd) as Hf. rewrite drop_0 in Hf. rewrite length_drop. lia.
Qed.
End readdir.

(** ** A directory as a list of pairs *)

Inductive dop :=
  | Lookup (name : list Z)
  | Add (name : list Z) (ino file_type : Z)
  | Delete (name : list Z)
  | Update (name : list Z) (ino : Z)
  | IsEmpty.

(** The result is a number where the operation has one, and 0 otherwise. *)
Definition exec (now : Z) (o : dop) : DM Z :=
  match o with
  | Lookup name => ext2_read_entry_inode name
  | Add name ino ft => ext2_add_entry_linear now name ino ft ;~ ret 0
  | Delete name => ext2_delete_entry_linear now name ;~ ret 0
  | Update name ino => ext2_update_entry_inode name ino ;~ ret 0
  | IsEmpty => b <~ ext2_dir_is_empty ;; ret (Z.b2z b)
  end.

Definition dots (name : list Z) : bool := bool_decide (name = [46]) || bool_decide (name = [46; 46]).

(** What it promises; only insertion may fail for want of space. *)
Inductive spec : dop -> list entry -> res Z -> list entry -> Prop :=
  | SpecLookup name l : spec (Lookup name) l (match assoc name l with Some ino => Ok ino | None => Er (- ENOENT) end) l
  | SpecAdd name ino ft l l' : zlength name <= 255 -> l' ≡ₚ (name, ino) :: l -> spec (Add name ino ft) l (Ok 0) l'
  | SpecAddFull name ino ft l : zlength name <= 255 -> spec (Add name ino ft) l (Er (- ENOSPC)) l
  | SpecAddLong name ino ft l : 255 < zlength name -> spec (Add name ino ft) l (Er (- ENAMETOOLONG)) l
  | SpecDelete name l : name ∈ l.*1 -> spec (Delete name) l (Ok 0) (set_first name 0 l)
  | SpecDeleteNone name l : name ∉ l.*1 -> spec (Delete name) l (Er (- ENOENT)) l
  | SpecUpdate name ino l : name ∈ l.*1 -> spec (Update name ino) l (Ok 0) (set_first name ino l)
  | SpecUpdateNone name ino l : name ∉ l.*1 -> spec (Update name ino) l (Er (- ENOENT)) l
  | SpecEmpty l : spec IsEmpty l (Ok (Z.b2z (forallb (fun e => dots e.1) l))) l.

(** Arguments the callers pass: bytes, and inode numbers that fit. *)
Definition wf_op (o : dop) : Prop :=
  match o with
  | Add name ino ft => Forall is_u8 name /\ 0 < ino < 2 ^ 32 /\ 0 <= ft < 256
  | Update _ ino => 0 <= ino < 2 ^ 32
  | _ => True
  end.

Lemma assoc_some name l : name ∈ l.*1 <-> is_Some (assoc name l).
Proof.
  induction l as [|[n x] l IH]; simpl; [split; [by intros ?%elem_of_nil|by intros [? ?]]|].
  rewrite elem_of_cons. destruct (decide (n = name)) as [->|Hne]; [split; [by eexists|by left]|]. rewrite <- IH. split; [intros [?|?]; congruence || done|by right].
Qed.

Lemma empty_listing L : forallb (fun l => negb (existsb busy l)) L = forallb (fun e => dots e.1) (listing L).
Proof.
  induction L as [|l L IH]; [done|]. change (listing (l :: L)) with (entries l ++ listing L). rewrite forallb_app. simpl. rewrite IH. f_equal. clear. induction l as [|e l IH]; [done|]. change (e :: l) with ([e] ++ l).
  rewrite entries_app, forallb_app, <- IH, entries_one. simpl. unfold busy. destruct (live e); simpl; [|done].
  unfold dots. destruct (bool_decide (name_of e = [46])), (bool_decide (name_of e = [46; 46])); simpl; by destruct (existsb busy l).
Qed.

Lemma touch_is_dir now st F L : is_dir st F L -> is_dir (touched now st.1, st.2) F L.
Proof. by apply is_dir_ext. Qed.

(** How far the directory can still grow. *)
Definition room (n : nat) (st : dstate) (L : list (list dent)) : Prop :=
  zlength L + Z.of_nat n <= max_blocks (per_of st.2) /\ (zlength L + Z.of_nat n) * bs st < 2 ^ 32.

Definition exec_ok (o : dop) (st : dstate) (F : gset Z) (L : list (list dent)) (x : res Z * dstate) : Prop :=
  exists F' L', is_dir x.2 F' L' /\ step st F x.2 F' /\ zlength L' <= zlength L + 1 /\ spec o (listing L) x.1 (listing L').

Lemma exec_set now name ino o st F L : (forall l, name ∈ l.*1 -> spec o l (Ok 0) (set_first name ino l)) ->
  (forall l, name ∉ l.*1 -> spec o l (Er (- ENOENT)) l) -> is_dir st F L -> 0 <= ino < 2 ^ 32 ->
  exec_ok o st F L ((set_entry name ino ;~ ret 0) st) /\ exec_ok o st F L (((set_entry name ino ;~ ext2_touch_dir now) ;~ ret 0) st).
Proof.
  intros H1 H2 Hd Hi. destruct (set_entry_spec name ino st F L Hd Hi) as (st' & F' & Hx & Hs).
  pose proof (assoc_some name (listing L)) as Ha. destruct (assoc name (listing L)) as [y|].
  - destruct Hx as (E & L' & Hd' & Hlen & El). assert (Hin : name ∈ (listing L).*1) by (by apply Ha).
    split.
    + rewrite (bind_ok _ _ _ _ _ E). exists F', L'. split_and!; [done|done|lia|]. cbn [ret fst]. rewrite El. by apply H1.
    + rewrite (bind_ok _ _ _ _ _ (bind_ok _ _ _ _ _ E)). exists F', L'. split; [by apply touch_is_dir|].
      split; [eapply step_ext; cycle -1; [exact Hs|done..]|]. split; [lia|]. cbn. rewrite El. by apply H1.
  - destruct Hx as (E & Hd'). assert (Hin : name ∉ (listing L).*1) by (intros ?%Ha; by apply is_Some_None in H).
    split.
    + rewrite (bind_er _ _ _ _ _ E). exists F', L. split_and!; try done; [lia|by apply H2].
    + rewrite (bind_er _ _ _ _ _ (bind_er _ _ _ _ _ E)). exists F', L. split_and!; try done; [lia|by apply H2].
Qed.

Lemma exec_spec now o st F L : is_dir st F L -> wf_op o -> room 1 st L -> exec_ok o st F L (exec now o st).
Proof.
  intros Hd Hw [Hr1 Hr2]. destruct o as [name|name ino ft|name|name ino|]; cbn [exec].
  - destruct (read_entry_spec name st F L Hd) as (st' & F' & Hd' & Hs & ->). exists F', L. split_and!; [done|done|lia|constructor].
  - destruct Hw as (Hw1 & Hw2 & Hw3). destruct (Z_le_gt_dec (zlength name) 255) as [Hl|Hl].
    + assert (Hn : wf_new name ino ft) by (constructor; [done|lia|done|done]).
      destruct (add_entry_spec now name ino ft Hn st F L Hd) as (F' & L' & Hd' & Hs & Hlen & Hx); [lia|rewrite (dr_size _ _ _ Hd); lia|].
      destruct (ext2_add_entry_linear now name ino ft st) as [[u|e] st'] eqn:E; cbn [fst snd] in *.
      * rewrite (bind_ok _ _ _ _ _ E). exists F', L'. split_and!; try done. by constructor.
      * rewrite (bind_er _ _ _ _ _ E). destruct Hx as (-> & -> & _). exists F', L. split_and!; try done. by constructor.
    + unfold ext2_add_entry_linear. destruct (Z.gtb_spec (zlength name) EXT2_NAME_LEN) as [_|]; [|unfold EXT2_NAME_LEN in *; lia].
      exists F, L. split_and!; [done|apply step_refl|lia|constructor; lia].
  - apply (exec_set now name 0 (Delete name)); try done; [by constructor|by constructor].
  - apply (exec_set now name ino (Update name ino)); try done; [by constructor|by constructor].
  - destruct (dir_is_empty_spec st F L Hd) as (st' & F' & Hd' & Hs & E). rewrite (bind_ok _ _ _ _ _ E). exists F', L.
    split_and!; [done|done|lia|]. cbn [ret fst]. rewrite empty_listing. constructor.
Qed.

(** A sequence of operations, and what it promises. *)
Fixpoint run_dir (now : Z) (ops : list dop) (st : dstate) : list (res Z) * dstate :=
  match ops with
  | [] => ([], st)
  | o :: ops => let '(r, st) := exec now o st in let '(rs, st) := run_dir now ops st in (r :: rs, st)
  end.
Fixpoint spec_run (ops : list dop) (l : list entry) (rs : list (res Z)) (l' : list entry) : Prop :=
  match ops, rs with
  | [], [] => l' = l
  | o :: ops, r :: rs => exists l1, spec o l r l1 /\ spec_run ops l1 rs l'
  | _, _ => False
  end.

Lemma run_dir_spec now ops : forall st F L, is_dir st F L -> Forall wf_op ops -> room (length ops) st L ->
  let x := run_dir now ops st in
  exists F' L', is_dir x.2 F' L' /\ step st F x.2 F' /\ spec_run ops (listing L) x.1 (listing L').
Proof.
  induction ops as [|o ops IH]; intros st F L Hd Hw Hr; cbn [run_dir].
  - exists F, L. split_and!; [done|apply step_refl|done].
  - apply Forall_cons in Hw as [Hw Hws]. destruct Hr as [Hr1 Hr2]. simpl length in Hr1, Hr2. pose proof (dir_bs _ _ _ Hd).
    destruct (exec_spec now o st F L Hd Hw) as (F1 & L1 & Hd1 & Hs1 & Hl1 & Hx); [split; nia|].
    destruct (exec now o st) as [r st1]. cbn [fst snd] in *. destruct (step_per _ _ _ _ Hs1) as [Ep Eb].
    destruct (IH st1 F1 L1 Hd1 Hws) as (F2 & L2 & Hd2 & Hs2 & Hx2); [split; rewrite ?Ep, ?Eb; nia|].
    destruct (run_dir now ops st1) as [rs st2]. exists F2, L2. split_and!; [done|by eapply step_trans|]. by exists (listing L1).
Qed.

(** ** An empty directory on the small file system *)

Definition ex_dir : dstate := (mkdir (mkinode (replicate 60 0) 0 0 false) 0 0, ex_fs).

Lemma ex_is_dir : is_dir ex_dir ex_free [].
Proof. constructor; [exact ex_good|done|done|done|]. intros k l H. by rewrite lookup_nil in H. Qed.

Definition ex_ops : list dop :=
  [IsEmpty; Add [46] 2 2; IsEmpty; Add [97; 98] 12 1; Lookup [97; 98]; IsEmpty; Update [97; 98] 13; Lookup [97; 98]; Delete [97; 98];
   Lookup [97; 98]; Add (replicate 256 97) 9 1; Delete [98]].

Lemma ex_ops_wf : Forall wf_op ex_ops.
Proof.

  unfold ex_ops. repeat constructor; simpl; unfold is_u8; lia.
Qed.

Definition ex_listed : dstate := (run_dir 7 [Add [46] 2 2; Add [97; 98] 12 1; Add [99] 13 1; Delete [97; 98]] ex_dir).2.
Definition ex_filldir (l : list entry) (name : list Z) (_ ino _ : Z) : list entry * bool := (l ++ [(name, ino)], false).

(** ** Properties *)


(** reading a directory from the start of any entry gives the callback, in
    order, every entry in use from there on until the callback has had enough,
    and leaves the position at the start of an entry: the refused one, or the end
    of the directory; the directory itself stays as it is. *)
Theorem ext2_readdir_delivers {D} (filldir : D -> list Z -> Z -> Z -> Z -> D * bool) filetype st F L pre post dirent :
  is_dir st F L -> mjoin L = pre ++ post ->
  exists st' F' full p1 p2 dirent', is_dir st' F' L /\ step st F st' F' /\ post = p1 ++ p2 /\ (full = false -> p2 = []) /\
    deliver filldir filetype (zlength (encs pre)) post dirent = (full, zlength (encs (pre ++ p1)), dirent') /\
    ext2_readdir filldir filetype (zlength (encs pre)) dirent st = (Ok (0, zlength (encs (pre ++ p1)), dirent'), st').
Proof.
  intros Hd E. destruct (readdir_spec filldir filetype st F L pre post dirent Hd E) as (st' & F' & Hd' & Hs & Er).
  pose proof (deliver_boundary filldir filetype post (zlength (encs pre)) dirent) as Hb.
  destruct (deliver filldir filetype (zlength (encs pre)) post dirent) as [[full pos] dirent']. destruct Hb as (p1 & p2 & -> & -> & Hf).
  exists st', F', full, p1, p2, dirent'. rewrite encs_app, (zlength_app (encs pre)). done.
Qed.


Lemma ext2_readdir_delivers_witness :
  (ext2_readdir ex_filldir true 0 [] ex_listed).1 = Ok (0, 1024, [([46], 2); ([99], 13)]) /\
  exists F' L, is_dir ex_listed F' L /\ exists st' full p1 p2 dirent', mjoin L = p1 ++ p2 /\
    ext2_readdir ex_filldir true 0 [] ex_listed = (Ok (0, zlength (encs p1), dirent'), st') /\ (full = false -> p2 = []).
Proof.
  split; [vm_compute; reflexivity|].
  destruct (run_dir_spec 7 [Add [46] 2 2; Add [97; 98] 12 1; Add [99] 13 1; Delete [97; 98]] ex_dir ex_free [] ex_is_dir) as (F & L & Hd & _).
  - repeat constructor; simpl; unfold is_u8; lia.
  - split; vm_compute; [discriminate|reflexivity].
  - exists F, L. split; [exact Hd|].
    destruct (ext2_readdir_delivers ex_filldir true ex_listed F L [] (mjoin L) [] Hd eq_refl) as (st' & F' & full & p1 & p2 & d' & _ & _ & E & Hf & _ & Er).
    exists st', full, p1, p2, d'. split; [exact E|]. split; [exact Er|exact Hf].
Defined.

End Ext2DirRun.
