(* ===== verification/Timer.v ===== *)
(** * Timers ([kernel/timer.c], the tick of [kernel/time.c])

    The pending timers are a ring of [list_head]s through [timer_head], the
    first member of each [struct timer_list].  The real timer of a task lives in
    its task struct, so [do_fork] copies its links and [free_task_struct] takes
    its memory away; a computation that touches memory that is gone is [None]. *)
From Stdlib Require Import Sorting.Sorted.
From S2P Require Import Prelude.

Module Timer.

Definition HZ : Z := 100.
Definition SIGALRM : Z := 14.
Definition SIGVTALRM : Z := 26.
Definition SIGPROF : Z := 27.
Definition ITIMER_REAL : Z := 0.
Definition ITIMER_VIRTUAL : Z := 1.
Definition ITIMER_PROF : Z := 2.

(** ** State *)

(** The address of [timer_head]; a timer has the address of its list head. *)
Definition timer_head : Z := 1.

Inductive tfun := It_real | Process_timeout.

Record timer := mktimer { expires : Z; data : Z; fn : tfun }.

(** The interval timers of a task; its [real_timer] has the address of the task. *)
Record itimers := mkit {
  it_real_value : Z; it_prof_value : Z; it_virt_value : Z;
  it_real_incr : Z; it_prof_incr : Z; it_virt_incr : Z;
}.

(** What the callbacks and the tick do to tasks. *)
Inductive event := Signal (sig p : Z) | Wake (p : Z).

#[export] Instance event_eq_dec : EqDecision event.
Proof. solve_decision. Defined.

Record st := mkst {
  jiffies : Z;
  nx : gmap Z Z;       (* [list.next] by address; 0 is NULL *)
  pv : gmap Z Z;       (* [list.prev] *)
  timers : gmap Z timer;
  tasks : gmap Z itimers;
  log : list event;    (* the newest last *)
}.

Definition set_jiffies (j : Z) (s : st) : st := mkst j (nx s) (pv s) (timers s) (tasks s) (log s).
Definition set_nx (m : gmap Z Z) (s : st) : st := mkst (jiffies s) m (pv s) (timers s) (tasks s) (log s).
Definition set_pv (m : gmap Z Z) (s : st) : st := mkst (jiffies s) (nx s) m (timers s) (tasks s) (log s).
Definition set_timers (m : gmap Z timer) (s : st) : st := mkst (jiffies s) (nx s) (pv s) m (tasks s) (log s).
Definition set_tasks (m : gmap Z itimers) (s : st) : st := mkst (jiffies s) (nx s) (pv s) (timers s) m (log s).
Definition emit (e : event) (s : st) : st := mkst (jiffies s) (nx s) (pv s) (timers s) (tasks s) (log s ++ [e]).

(** ** Lists *)

(** Writing a member of a list head that is there. *)
Definition put_next (a v : Z) (s : st) : option st := _ ← nx s !! a; Some (set_nx (<[a := v]> (nx s)) s).
Definition put_prev (a v : Z) (s : st) : option st := _ ← pv s !! a; Some (set_pv (<[a := v]> (pv s)) s).

Definition __list_add (new prev next : Z) (s : st) : option st :=
  s ← put_prev next new s; s ← put_next new next s; s ← put_prev new prev s; put_next prev new s.
Definition list_add_tail (new head : Z) (s : st) : option st := prev ← pv s !! head; __list_add new prev head s.
Definition __list_del (prev next : Z) (s : st) : option st := s ← put_prev next prev s; put_next prev next s.
Definition list_del (entry : Z) (s : st) : option st :=
  prev ← pv s !! entry; next ← nx s !! entry; __list_del prev next s.

(** ** Timers *)

Definition set_expires (t e : Z) (s : st) : option st :=
  x ← timers s !! t; Some (set_timers (<[t := mktimer e (data x) (fn x)]> (timers s)) s).

(** The place before which a timer that expires at [e] goes. *)
Fixpoint place (fuel : nat) (s : st) (e tmp : Z) : option Z :=
  match fuel with
  | O => None
  | S n =>
    if tmp =? timer_head then Some tmp else
    t ← timers s !! tmp; if e <? expires t then Some tmp else next ← nx s !! tmp; place n s e next
  end.

(** A walk visits every list head once at most. *)
Definition walk_fuel (s : st) : nat := size (nx s).

Definition add_timer (timer : Z) (s : st) : option st :=
  x ← timers s !! timer;
  let e := s32 (expires x + jiffies s) in
  s ← set_expires timer e s;
  first ← nx s !! timer_head; tmp ← place (walk_fuel s) s e first;
  list_add_tail timer tmp s.

Definition timer_in_list (timer : Z) (s : st) : option bool := n ← nx s !! timer; Some (negb (n =? 0)).

Definition __del_timer (timer : Z) (s : st) : option st :=
  s ← list_del timer s; s ← put_next timer 0 s;
  x ← timers s !! timer;
  let e := s32 (expires x - jiffies s) in
  set_expires timer (if e <? 0 then 0 else e) s.

Definition del_timer (timer : Z) (s : st) : option (bool * st) :=
  b ← timer_in_list timer s;
  if b : bool then s ← __del_timer timer s; Some (true, s) else Some (false, s).

Definition it_real_fun (p : Z) (s : st) : option st :=
  t ← tasks s !! p;
  let s := emit (Signal SIGALRM p) s in
  if it_real_incr t =? 0 then Some s else
  s ← set_expires p (it_real_incr t) s; add_timer p s.

Definition call (f : tfun) (d : Z) (s : st) : option st :=
  match f with It_real => it_real_fun d s | Process_timeout => Some (emit (Wake d) s) end.

(** The loop of the bottom half; [None] is also a loop that goes on. *)
Fixpoint run_timer_list (fuel : nat) (s : st) : option st :=
  match fuel with
  | O => None
  | S n =>
    t ← nx s !! timer_head;
    if t =? timer_head then Some s else
    x ← timers s !! t;
    if expires x >? jiffies s then Some s else
    s ← __del_timer t s; s ← call (fn x) (data x) s; run_timer_list n s
  end.

(** ** Interval timers *)

Record timeval := mktv { tv_sec : Z; tv_usec : Z }.
Record itimerval := mkitv { it_interval : timeval; it_value : timeval }.

Definition tvtojiffies (v : timeval) : Z :=
  let usec := Z.quot (s32 (tv_usec v + 1000000 / HZ - 1)) (1000000 / HZ) in
  s32 (s32 (HZ * tv_sec v) + usec).
Definition jiffiestotv (j : Z) : timeval := mktv (Z.quot j HZ) (Z.rem j HZ * (1000000 / HZ)).

Definition _getitimer (current which : Z) (s : st) : option ((Z + itimerval) * st) :=
  t ← tasks s !! current;
  if which =? ITIMER_REAL then
    '(b, s) ← del_timer current s;
    if b : bool then
      x ← timers s !! current; let val := expires x in
      s ← add_timer current s; Some (inr (mkitv (jiffiestotv (it_real_incr t)) (jiffiestotv val)), s)
    else Some (inr (mkitv (jiffiestotv (it_real_incr t)) (jiffiestotv 0)), s)
  else if which =? ITIMER_VIRTUAL then Some (inr (mkitv (jiffiestotv (it_virt_incr t)) (jiffiestotv (it_virt_value t))), s)
  else if which =? ITIMER_PROF then Some (inr (mkitv (jiffiestotv (it_prof_incr t)) (jiffiestotv (it_prof_value t))), s)
  else Some (inl (- EINVAL), s).

Definition put_task (p : Z) (t : itimers) (s : st) : st := set_tasks (<[p := t]> (tasks s)) s.

Definition set_real (i j : Z) (current : Z) (s : st) : option st :=
  '(_, s) ← del_timer current s;
  t ← tasks s !! current;
  let s := put_task current (mkit j (it_prof_value t) (it_virt_value t) i (it_prof_incr t) (it_virt_incr t)) s in
  if j =? 0 then Some s else s ← set_expires current j s; add_timer current s.

(** The result, and the old value where it was asked for. *)
Definition _setitimer (current which : Z) (value : itimerval) (want_old : bool) (s : st) : option ((Z * option itimerval) * st) :=
  let set old s :=
    let i := tvtojiffies (it_interval value) in
    let j := tvtojiffies (it_value value) in
    if which =? ITIMER_REAL then s ← set_real i j current s; Some ((0, old), s)
    else t ← tasks s !! current;
      let j := if j =? 0 then 0 else s32 (j + 1) in
      if which =? ITIMER_VIRTUAL then
        Some ((0, old), put_task current (mkit (it_real_value t) (it_prof_value t) j (it_real_incr t) (it_prof_incr t) i) s)
      else if which =? ITIMER_PROF then
        Some ((0, old), put_task current (mkit (it_real_value t) j (it_virt_value t) (it_real_incr t) i (it_virt_incr t)) s)
      else Some ((- EINVAL, old), s) in
  if want_old then
    '(r, s) ← _getitimer current which s;
    match r with inl _ => Some ((- EINVAL, None), s) | inr v => set (Some v) s end
  else set None s.

Definition sys_alarm (current seconds : Z) (s : st) : option (Z * st) :=
  '((_, old), s) ← _setitimer current ITIMER_REAL (mkitv (mktv 0 0) (mktv seconds 0)) true s;
  match old with
  | Some v => Some (s32 (tv_sec (it_value v) + Z.quot (tv_usec (it_value v)) 1000000), s)
  | None => None
  end.

(** The user's memory is the caller's; [value] and [old] are what was read and
    whether there is room for the old value. *)
Definition sys_getitimer (current which : Z) (s : st) : option ((Z * option itimerval) * st) :=
  '(r, s) ← _getitimer current which s; Some (match r with inl e => (e, None) | inr v => (0, Some v) end, s).
Definition sys_setitimer (current which : Z) (value : option itimerval) (old : bool) (s : st) : option ((Z * option itimerval) * st) :=
  _setitimer current which (default (mkitv (mktv 0 0) (mktv 0 0)) value) old s.

(** ** Sleeping *)

Definition MAX_JIFFY_OFFSET : Z := 2 ^ 31 - 2.
Record timespec := mkts { ts_sec : Z; ts_nsec : Z }.

Definition timespec_to_jiffies (v : timespec) : Z :=
  if u32 (ts_sec v) >=? MAX_JIFFY_OFFSET / HZ then MAX_JIFFY_OFFSET else
  let nsec := Z.quot (s32 (ts_nsec v + 1000000000 / HZ - 1)) (1000000000 / HZ) in
  u32 (HZ * u32 (ts_sec v) + nsec).
Definition jiffies_to_timespec (j : Z) : timespec := mkts (j / HZ) ((j mod HZ) * (1000000000 / HZ)).

(** [schedule_timeout] up to the switch to another task and from there on; the
    timer is on the stack, at [timer]. *)
Definition sleep_begin (current timer timeout : Z) (s : st) : option st :=
  add_timer timer (set_nx (<[timer := 0]> (nx s)) (set_pv (<[timer := 0]> (pv s)) (set_timers (<[timer := mktimer timeout current Process_timeout]> (timers s)) s))).
Definition sleep_end (timer : Z) (s : st) : option (Z * st) :=
  '(_, s) ← del_timer timer s; x ← timers s !! timer;
  Some (expires x, set_nx (delete timer (nx s)) (set_pv (delete timer (pv s)) (set_timers (delete timer (timers s)) s))).

(** [sys_nanosleep]: the timeout for [schedule_timeout], or an error; and the
    result for what [schedule_timeout] gave. *)
Definition nanosleep_timeout (t : timespec) : Z + Z :=
  if (ts_nsec t >=? 1000000000) || (ts_nsec t <? 0) || (ts_sec t <? 0) then inl (- EINVAL) else
  inr (u32 (timespec_to_jiffies t + Z.b2z (negb (ts_sec t =? 0) || negb (ts_nsec t =? 0)))).
Definition nanosleep_result (expire : Z) : Z * option timespec :=
  if u32 expire =? 0 then (0, None) else (- EINTR, Some (jiffies_to_timespec (u32 expire))).

(** ** Tasks and ticks *)

(** What [do_fork] and [do_clone] do to the timers: the task struct is copied,
    with the list head in it. *)
Definition fork_timers (current p : Z) (s : st) : option st :=
  n ← nx s !! current; v ← pv s !! current; x ← timers s !! current;
  Some (set_nx (<[p := n]> (nx s)) (set_pv (<[p := v]> (pv s))
    (set_timers (<[p := mktimer (expires x) p (fn x)]> (timers s)) (put_task p (mkit 0 0 0 0 0 0) s)))).

(** The memory of a task is given back; no timer is stopped before. *)
Definition free_task_struct (p : Z) (s : st) : st :=
  set_nx (delete p (nx s)) (set_pv (delete p (pv s)) (set_timers (delete p (timers s)) (set_tasks (delete p (tasks s)) s))).

(** The time accounts of a task, and whether the bottom half is asked for. *)
Record acct := mkacct { utime : Z; stime : Z; counter : Z; need_resched : bool; pit_bh : bool }.

Definition account (userland : bool) (a : acct) : acct :=
  if userland then mkacct (s32 (utime a + 1)) (stime a) (counter a) (need_resched a) (pit_bh a)
  else mkacct (utime a) (s32 (stime a + 1)) (counter a) (need_resched a) (pit_bh a).
Definition use_slice (a : acct) : acct :=
  if counter a >? 0 then mkacct (utime a) (stime a) (counter a - 1) (need_resched a || (counter a - 1 =? 0)) (pit_bh a) else a.
Definition mark_bh (a : acct) : acct := mkacct (utime a) (stime a) (counter a) (need_resched a) true.

(** One step of a virtual or profiling timer: its value, and whether it went off. *)
Definition itimer_step (value incr : Z) : Z * bool :=
  if value =? 0 then (value, false) else
  let v := s32 (value - 1) in if v =? 0 then (incr, true) else (v, false).

(** [irq_PIT]: the accounts of the current task, and the state. *)
Definition irq_PIT (current : Z) (is_init userland : bool) (a : acct) (s : st) : option (acct * st) :=
  let s := set_jiffies (s32 (jiffies s + 1)) s in
  let a := account userland a in
  if is_init then Some (mark_bh (mkacct (utime a) (stime a) (counter a) true (pit_bh a)), s) else
  let a := use_slice a in
  t ← tasks s !! current;
  let '(v, vf) := if userland then itimer_step (it_virt_value t) (it_virt_incr t) else (it_virt_value t, false) in
  let s := if vf : bool then emit (Signal SIGVTALRM current) s else s in
  let '(q, pf) := itimer_step (it_prof_value t) (it_prof_incr t) in
  let s := if pf : bool then emit (Signal SIGPROF current) s else s in
  Some (mark_bh a, put_task current (mkit (it_real_value t) q v (it_real_incr t) (it_prof_incr t) (it_virt_incr t)) s).

(** ** The ring as a list *)

(** Consecutive heads of [l] point at each other. *)
Fixpoint chain (n p : gmap Z Z) (l : list Z) : Prop :=
  match l with
  | a :: (b :: _) as t => n !! a = Some b /\ p !! b = Some a /\ chain n p t
  | _ => True
  end.

Definition expiry (m : gmap Z timer) (t : Z) : Z := from_option expires 0 (m !! t).

(** Where [add_timer] puts a timer: behind those that expire with it. *)
Fixpoint ins (m : gmap Z timer) (e t : Z) (l : list Z) : list Z :=
  match l with
  | [] => [t]
  | x :: l' => if e <? expiry m x then t :: l else x :: ins m e t l'
  end.

(** The timers that have expired at [j]. *)
Fixpoint due (m : gmap Z timer) (j : Z) (l : list Z) : list Z :=
  match l with [] => [] | x :: l' => if expiry m x <=? j then x :: due m j l' else [] end.

(** What a timer does when it goes off. *)
Definition fires (m : gmap Z timer) (t : Z) : option event :=
  x ← m !! t; Some (match fn x with It_real => Signal SIGALRM (data x) | Process_timeout => Wake (data x) end).

(** The pending timers are [l], in the order in which they expire. *)
Record wf (s : st) (l : list Z) : Prop := {
  wf_chain : chain (nx s) (pv s) (timer_head :: l ++ [timer_head]);
  wf_nodup : NoDup (timer_head :: l);
  wf_null : nx s !! 0 = None;
  wf_timers : forall t, is_Some (timers s !! t) <-> t <> timer_head /\ is_Some (nx s !! t);
  wf_prev : forall t, is_Some (nx s !! t) <-> is_Some (pv s !! t);
  wf_idle : forall t, t <> timer_head -> t ∉ l -> is_Some (nx s !! t) -> nx s !! t = Some 0;
  wf_order : StronglySorted (fun a b => expiry (timers s) a <= expiry (timers s) b) l;
  wf_real : forall t x, timers s !! t = Some x -> fn x = It_real -> data x = t /\ is_Some (tasks s !! t);
  wf_task : forall t, is_Some (tasks s !! t) -> exists x, timers s !! t = Some x /\ fn x = It_real;
}.

Lemma chain_split n p l1 x l2 : chain n p (l1 ++ x :: l2) <-> chain n p (l1 ++ [x]) /\ chain n p (x :: l2).
Proof.
  induction l1 as [|a l1 IH]; [simpl; tauto|].
  destruct l1 as [|b l1]; simpl in *; tauto.
Qed.

Lemma chain_cons2 n p a b l : chain n p (a :: b :: l) <-> n !! a = Some b /\ p !! b = Some a /\ chain n p (b :: l).
Proof. done. Qed.

Lemma chain_frame n p n' p' l :
  (forall x, x ∈ removelast l -> n' !! x = n !! x) -> (forall x, x ∈ tail l -> p' !! x = p !! x) ->
  chain n p l -> chain n' p' l.
Proof.
  induction l as [|a [|b l] IH]; [done..|]. intros Hn Hp (A & B & C). cbn [chain].
  rewrite (Hn a) by (cbn; set_solver). rewrite (Hp b) by (cbn; set_solver).
  split_and!; [done..|]. apply IH; [| |done].
  - intros x Hx. apply Hn. change (removelast (a :: b :: l)) with (a :: removelast (b :: l)). set_solver.
  - intros x Hx. apply Hp. cbn in *. set_solver.
Qed.

Lemma removelast_app1 {A} (l : list A) x : removelast (l ++ [x]) = l.
Proof. rewrite removelast_app by done. cbn. by rewrite app_nil_r. Qed.

Lemma elem_of_removelast (x : Z) l : x ∈ removelast l -> x ∈ l.
Proof.
  destruct (decide (l = [])) as [->|H]; [done|].
  destruct (exists_last H) as (A & y & ->). rewrite removelast_app1. set_solver.
Qed.

Lemma snoc_exists (x : Z) l : exists A y, x :: l = A ++ [y].
Proof. destruct (exists_last (l := x :: l)) as (A & y & E); [done|]. by exists A, y. Qed.

(** Putting [t] between [p] and [n], and taking it out. *)
Lemma chain_put n p A a b B t :
  chain n p (A ++ a :: b :: B) -> a ∉ A -> a ∉ removelast (b :: B) -> b ∉ tail (A ++ [a]) -> b ∉ B ->
  t ∉ A ++ a :: b :: B ->
  chain (<[a := t]> (<[t := b]> n)) (<[t := a]> (<[b := t]> p)) (A ++ a :: t :: b :: B).
Proof.
  intros H Ha Ha' Hb Hb' Ht. apply chain_split in H as (H1 & H2 & H2' & H3).
  apply not_elem_of_app in Ht as [Ht1 Ht2]. apply not_elem_of_cons in Ht2 as [Ht2 Ht3].
  apply not_elem_of_cons in Ht3 as [Ht3 Ht4].
  apply chain_split. rewrite !chain_cons2. split_and!.
  - eapply chain_frame; [| |exact H1].
    + intros x Hx. rewrite removelast_app1 in Hx. rewrite !lookup_insert_ne; [done|set_solver..].
    + intros x Hx. rewrite !lookup_insert_ne; [done|set_solver|].
      intros <-. destruct A as [|c A]; cbn in Hx; set_solver.
  - by rewrite lookup_insert_eq.
  - by rewrite lookup_insert_eq.
  - rewrite lookup_insert_ne by done. by rewrite lookup_insert_eq.
  - by rewrite lookup_insert_ne, lookup_insert_eq by done.
  - eapply chain_frame; [| |exact H3].
    + intros x Hx. rewrite !lookup_insert_ne; [done| |set_solver].
      intros <-. apply elem_of_removelast in Hx. set_solver.
    + intros x Hx. cbn in Hx. rewrite !lookup_insert_ne; [done|set_solver..].
Qed.

Lemma chain_cut n p A a t b B :
  chain n p (A ++ a :: t :: b :: B) -> a ∉ A -> a ∉ removelast (b :: B) -> b ∉ tail (A ++ [a]) -> b ∉ B ->
  t ∉ A ++ a :: b :: B ->
  chain (<[t := 0]> (<[a := b]> n)) (<[b := a]> p) (A ++ a :: b :: B).
Proof.
  intros H Ha Ha' Hb Hb' Ht. apply chain_split in H as (H1 & H2 & H2' & H3 & H3' & H4).
  apply not_elem_of_app in Ht as [Ht1 Ht2]. apply not_elem_of_cons in Ht2 as [Ht2 Ht3].
  apply not_elem_of_cons in Ht3 as [Ht3 Ht4].
  apply chain_split. rewrite !chain_cons2. split_and!.
  - eapply chain_frame; [| |exact H1].
    + intros x Hx. rewrite removelast_app1 in Hx. rewrite !lookup_insert_ne; [done|set_solver..].
    + intros x Hx. rewrite lookup_insert_ne; [done|set_solver].
  - by rewrite lookup_insert_ne, lookup_insert_eq by done.
  - by rewrite lookup_insert_eq.
  - eapply chain_frame; [| |exact H4].
    + intros x Hx. rewrite !lookup_insert_ne; [done|set_solver|].
      intros <-. apply elem_of_removelast in Hx. set_solver.
    + intros x Hx. cbn in Hx. rewrite lookup_insert_ne; [done|set_solver].
Qed.

(** The head before and after a place in the ring. *)
Lemma ring_place l1 l2 : NoDup (timer_head :: l1 ++ l2) ->
  exists A a b B, timer_head :: l1 = A ++ [a] /\ l2 ++ [timer_head] = b :: B /\
    (a ∉ A) /\ (a ∉ removelast (b :: B)) /\ (b ∉ tail (A ++ [a])) /\ (b ∉ B).
Proof.
  intros N. destruct (snoc_exists timer_head l1) as (A & a & E).
  assert (exists b B, l2 ++ [timer_head] = b :: B) as (b & B & E2) by (destruct l2; cbn; eauto).
  exists A, a, b, B. rewrite <- E2, removelast_app1, <- E. cbn [tail].
  pose proof N as N'. change (timer_head :: l1 ++ l2) with ((timer_head :: l1) ++ l2) in N'. rewrite E in N'.
  apply NoDup_app in N' as (N4 & N5 & _). apply NoDup_app in N4 as (_ & N4 & _).
  apply NoDup_cons in N as [N0 N]. apply not_elem_of_app in N0 as [N0 N0'].
  apply NoDup_app in N as (_ & N2 & N3).
  split_and!; [done..| | | |].
  - intros H. apply (N4 a); set_solver.
  - apply N5; set_solver.
  - destruct l2 as [|c l2]; cbn in E2; inversion E2; subst; [done|].
    intros H. apply (N2 b H). set_solver.
  - destruct l2 as [|c l2]; cbn in E2; inversion E2; subst; [apply not_elem_of_nil|].
    apply NoDup_cons in N3 as [N3 _]. set_solver.
Qed.

(** ** Inserting *)

Lemma ins_perm m e t l : ins m e t l ≡ₚ t :: l.
Proof.
  induction l as [|x l IH]; cbn; [done|]. destruct (e <? expiry m x); [done|].
  rewrite IH. apply Permutation_swap.
Qed.

Lemma elem_of_ins m e t l x : x ∈ ins m e t l <-> x = t \/ x ∈ l.
Proof. rewrite ins_perm. apply elem_of_cons. Qed.

Lemma ins_ext m m' e t l : (forall x, x ∈ l -> expiry m x = expiry m' x) -> ins m e t l = ins m' e t l.
Proof.
  induction l as [|x l IH]; intros H; cbn; [done|]. rewrite (H x) by set_solver.
  rewrite IH by set_solver. done.
Qed.

Lemma expiry_insert_ne m t x a : a <> t -> expiry (<[t := x]> m) a = expiry m a.
Proof. intros H. unfold expiry. by rewrite lookup_insert_ne. Qed.

Lemma expiry_insert_eq m t x : expiry (<[t := x]> m) t = expires x.
Proof. unfold expiry. by rewrite lookup_insert_eq. Qed.

Lemma sorted_ext m m' l : (forall x, x ∈ l -> expiry m x = expiry m' x) ->
  StronglySorted (fun a b => expiry m a <= expiry m b) l -> StronglySorted (fun a b => expiry m' a <= expiry m' b) l.
Proof.
  intros H. induction 1 as [|x l S IH F]; constructor.
  - apply IH. set_solver.
  - rewrite Forall_forall in *. intros y Hy. rewrite <- !H by set_solver. by apply F.
Qed.

Lemma ins_sorted m t l :
  StronglySorted (fun a b => expiry m a <= expiry m b) l ->
  StronglySorted (fun a b => expiry m a <= expiry m b) (ins m (expiry m t) t l).
Proof.
  induction 1 as [|x l S IH F]; cbn; [by repeat constructor|].
  destruct (Z.ltb_spec (expiry m t) (expiry m x)) as [C|C].
  - constructor; [by constructor|]. constructor; [lia|].
    eapply Forall_impl; [exact F|]. cbn. lia.
  - constructor; [done|]. rewrite ins_perm. by constructor.
Qed.

Lemma place_ok s e l fuel : chain (nx s) (pv s) (l ++ [timer_head]) ->
  timer_head ∉ l -> (forall t, t ∈ l -> is_Some (timers s !! t)) -> (length l < fuel)%nat ->
  exists l1 l2, l = l1 ++ l2 /\ (forall t, ins (timers s) e t l = l1 ++ t :: l2) /\
    place fuel s e (hd timer_head l) = Some (hd timer_head l2).
Proof.
  revert fuel. induction l as [|x l IH]; intros [|fuel] Hc Hh Ht Hf; cbn in Hf; try lia.
  - by exists [], [].
  - cbn [hd place ins]. destruct (Z.eqb_spec x timer_head) as [->|_]; [set_solver|].
    destruct (Ht x) as [y Hy]; [set_solver|]. rewrite Hy. cbn [mbind option_bind].
    assert (He : expiry (timers s) x = expires y) by (unfold expiry; by rewrite Hy).
    destruct (e <? expires y) eqn:E.
    + exists [], (x :: l). split_and!; [done| |done]. intros t. cbn. by rewrite He, E.
    + assert (nx s !! x = Some (hd timer_head l) /\ chain (nx s) (pv s) (l ++ [timer_head])) as [Hn Hc'].
      { destruct l as [|z l]; cbn in *; tauto. }
      destruct (IH fuel) as (l1 & l2 & -> & Hi & Hp); [done|set_solver..|lia|].
      exists (x :: l1), l2. split_and!; [done| |].
      * intros t. cbn. by rewrite He, E, <- Hi.
      * by rewrite Hn.
Qed.

(** ** Adding and deleting refine insertion and removal *)

Lemma is_Some_insert {A} (m : gmap Z A) k v t : is_Some (m !! k) -> is_Some (<[k := v]> m !! t) <-> is_Some (m !! t).
Proof.
  intros H. destruct (decide (t = k)) as [->|E]; [rewrite lookup_insert_eq; split; eauto|].
  by rewrite lookup_insert_ne.
Qed.

#[local] Arguments chain : simpl never.

(** Everything but the ring itself. *)
Definition same_but_ring (s s' : st) : Prop :=
  jiffies s' = jiffies s /\ timers s' = timers s /\ tasks s' = tasks s /\ log s' = log s.

Lemma chain_is_Some n p l : chain n p l -> (forall x, x ∈ removelast l -> is_Some (n !! x)) /\ (forall x, x ∈ tail l -> is_Some (p !! x)).
Proof.
  induction l as [|a [|b l] IH]; [intros; set_solver..|].
  rewrite chain_cons2. intros (A & B & C). destruct (IH C) as [I J].
  change (removelast (a :: b :: l)) with (a :: removelast (b :: l)). cbn [tail] in *.
  split; intros x [->|Hx]%elem_of_cons; eauto.
Qed.

Lemma ring_fresh l1 l2 A a b B t : timer_head :: l1 = A ++ [a] -> l2 ++ [timer_head] = b :: B ->
  t ∉ timer_head :: l1 ++ l2 -> (t ∉ A ++ a :: b :: B) /\ t <> a /\ t <> b.
Proof.
  intros E1 E2 Ht. assert (t ∉ A ++ a :: b :: B).
  { change (A ++ a :: b :: B) with (A ++ [a] ++ b :: B). rewrite app_assoc, <- E1, <- E2. clear -Ht. set_solver. }
  split_and!; [done|intros ->..]; clear -H; set_solver.
Qed.

Lemma list_add_tail_ok s l1 l2 t :
  chain (nx s) (pv s) (timer_head :: l1 ++ l2 ++ [timer_head]) -> NoDup (timer_head :: l1 ++ l2) ->
  t ∉ timer_head :: l1 ++ l2 -> is_Some (nx s !! t) -> is_Some (pv s !! t) ->
  exists s', list_add_tail t (hd timer_head l2) s = Some s' /\ same_but_ring s s' /\
    chain (nx s') (pv s') (timer_head :: l1 ++ t :: l2 ++ [timer_head]) /\
    (forall x, is_Some (nx s' !! x) <-> is_Some (nx s !! x)) /\ (forall x, is_Some (pv s' !! x) <-> is_Some (pv s !! x)) /\
    (forall x, x ∉ timer_head :: l1 ++ t :: l2 -> nx s' !! x = nx s !! x).
Proof.
  intros Hc N Ht Hn Hp. destruct (ring_place _ _ N) as (A & a & b & B & E1 & E2 & F1 & F2 & F3 & F4).
  pose proof (chain_is_Some _ _ _ Hc) as [In Ip].
  replace (timer_head :: l1 ++ l2 ++ [timer_head]) with (A ++ a :: b :: B) in *
    by (rewrite <- E2; change (A ++ [a] ++ l2 ++ [timer_head] = (timer_head :: l1) ++ l2 ++ [timer_head]); rewrite E1; by rewrite <- app_assoc).
  assert (hd timer_head l2 = b) as -> by (destruct l2; cbn in E2; by inversion E2).
  assert (Hcut := Hc). apply chain_split in Hcut as (_ & Ea & Eb & _).
  pose proof (ring_fresh _ _ _ _ _ _ _ E1 E2 Ht) as (Ht' & Nta & Ntb).
  pose proof (chain_put _ _ _ _ _ _ _ Hc F1 F2 F3 F4 Ht') as Hnew.
  destruct Hn as [n0 Hn]. destruct Hp as [p0 Hp].
  unfold list_add_tail, __list_add, put_prev, put_next. rewrite Eb. cbn. rewrite Hn. cbn.
  rewrite lookup_insert_ne by done. rewrite Hp. cbn. rewrite lookup_insert_ne by done. rewrite Ea. cbn.
  eexists. split_and!; [done|done| | | |].
  - cbn [nx pv set_nx set_pv]. change (timer_head :: l1 ++ t :: l2 ++ [timer_head]) with ((timer_head :: l1) ++ t :: l2 ++ [timer_head]).
    rewrite E1, E2, <- app_assoc. exact Hnew.
  - intros x. cbn. rewrite !is_Some_insert; [done|eauto..]. rewrite lookup_insert_ne by done. eauto.
  - intros x. cbn. rewrite !is_Some_insert; [done|eauto..]. rewrite lookup_insert_ne by done. eauto.
  - intros x Hx. cbn. rewrite !lookup_insert_ne; [done|clear -Hx; set_solver|].
    intros <-. apply Hx. change (a ∈ (timer_head :: l1) ++ t :: l2). rewrite E1. clear. set_solver.
Qed.

(** The links around a timer in the ring, and the ring without it. *)
Lemma ring_cut n p l1 t l2 :
  chain n p (timer_head :: l1 ++ t :: l2 ++ [timer_head]) -> NoDup (timer_head :: l1 ++ t :: l2) ->
  exists a b, n !! a = Some t /\ n !! t = Some b /\ p !! t = Some a /\ p !! b = Some t /\ t <> a /\ t <> b /\
    a ∈ timer_head :: l1 ++ l2 /\ b ∈ timer_head :: l1 ++ l2 /\
    chain (<[t := 0]> (<[a := b]> n)) (<[b := a]> p) (timer_head :: l1 ++ l2 ++ [timer_head]).
Proof.
  intros Hc N.
  assert (N' : NoDup (timer_head :: l1 ++ l2) /\ t ∉ timer_head :: l1 ++ l2).
  { change (NoDup ((timer_head :: l1) ++ t :: l2)) in N. change (NoDup ((timer_head :: l1) ++ l2) /\ t ∉ (timer_head :: l1) ++ l2).
    rewrite <- Permutation_middle in N. by apply NoDup_cons in N as [? ?]. }
  destruct N' as [N' Ht].
  destruct (ring_place _ _ N') as (A & a & b & B & E1 & E2 & F1 & F2 & F3 & F4).
  assert (Er : timer_head :: l1 ++ l2 ++ [timer_head] = A ++ a :: b :: B).
  { rewrite <- E2. change (A ++ [a] ++ l2 ++ [timer_head]) with (A ++ [a] ++ l2 ++ [timer_head]).
    change ((timer_head :: l1) ++ l2 ++ [timer_head] = A ++ [a] ++ l2 ++ [timer_head]). rewrite E1. by rewrite <- app_assoc. }
  replace (timer_head :: l1 ++ t :: l2 ++ [timer_head]) with (A ++ a :: t :: b :: B) in *
    by (rewrite <- E2; change (A ++ [a] ++ t :: l2 ++ [timer_head] = (timer_head :: l1) ++ t :: l2 ++ [timer_head]); rewrite E1; by rewrite <- app_assoc).
  pose proof (ring_fresh _ _ _ _ _ _ _ E1 E2 Ht) as (Ht' & Nta & Ntb).
  assert (Hcut := Hc). apply chain_split in Hcut as (_ & Ea & Ea' & Eb & Eb' & _).
  exists a, b. split_and!; [done..| | |].
  - change (a ∈ (timer_head :: l1) ++ l2). rewrite E1. clear. set_solver.
  - assert (b ∈ l2 ++ [timer_head]) as H by (rewrite E2; clear; set_solver). clear -H. set_solver.
  - rewrite Er. by apply chain_cut.
Qed.

Lemma list_cut_ok s l1 l2 t :
  chain (nx s) (pv s) (timer_head :: l1 ++ t :: l2 ++ [timer_head]) -> NoDup (timer_head :: l1 ++ t :: l2) ->
  exists s', (s ← list_del t s; put_next t 0 s) = Some s' /\ same_but_ring s s' /\
    chain (nx s') (pv s') (timer_head :: l1 ++ l2 ++ [timer_head]) /\ nx s' !! t = Some 0 /\
    (forall x, is_Some (nx s' !! x) <-> is_Some (nx s !! x)) /\ (forall x, is_Some (pv s' !! x) <-> is_Some (pv s !! x)) /\
    (forall x, x ∉ timer_head :: l1 ++ t :: l2 -> nx s' !! x = nx s !! x).
Proof.
  intros Hc N. destruct (ring_cut _ _ _ _ _ Hc N) as (a & b & Ea & Eb & Ea' & Eb' & Nta & Ntb & Ia & Ib & Hnew).
  unfold list_del, __list_del, put_prev, put_next. rewrite Ea', Eb. cbn. rewrite Eb'. cbn. rewrite Ea. cbn.
  rewrite lookup_insert_ne by done. rewrite Eb. cbn.
  eexists. split_and!; [done|done|exact Hnew| | | |].
  - cbn. by rewrite lookup_insert_eq.
  - intros x. cbn. rewrite !is_Some_insert; [done|eauto..]. rewrite lookup_insert_ne by done. eauto.
  - intros x. cbn. rewrite !is_Some_insert; [done|eauto..].
  - intros x Hx. cbn. rewrite !lookup_insert_ne; [done| |clear -Hx; set_solver]. intros <-. clear -Hx Ia. set_solver.
Qed.

Lemma walk_fuel_ok s l : wf s l -> (length l < walk_fuel s)%nat.
Proof.
  intros W. unfold walk_fuel. rewrite <- size_dom.
  change (length l < size (dom (nx s)))%nat with (length (timer_head :: l) <= size (dom (nx s)))%nat.
  rewrite <- (size_list_to_set (C := gset Z)) by apply W. apply subseteq_size.
  intros x Hx%elem_of_list_to_set. apply elem_of_dom.
  apply (chain_is_Some _ _ _ (wf_chain _ _ W)). change (x ∈ removelast ((timer_head :: l) ++ [timer_head])).
  by rewrite removelast_app1.
Qed.

Lemma wf_first s l : wf s l -> nx s !! timer_head = Some (hd timer_head l).
Proof. intros [H _ _ _ _ _ _ _ _]. destruct l; apply chain_cons2 in H; apply H. Qed.

Lemma wf_pending s l t : wf s l -> t ∈ l -> exists n, nx s !! t = Some n /\ n <> 0.
Proof.
  intros W Ht. pose proof (wf_null _ _ W) as H0. apply wf_chain in W as H.
  apply list_elem_of_split in Ht as (l1 & l2 & ->).
  rewrite <- app_assoc, app_comm_cons in H. apply chain_split in H as [_ H].
  destruct l2 as [|y l2]; cbn [app] in H; apply chain_cons2 in H as (H & _); eexists; (split; [exact H|]).
  - done.
  - intros ->. pose proof (chain_is_Some _ _ _ (wf_chain _ _ W)) as [I _].
    destruct (I 0) as [z Hz]; [|congruence]. change (timer_head :: (l1 ++ t :: 0 :: l2) ++ [timer_head]) with ((timer_head :: l1 ++ t :: 0 :: l2) ++ [timer_head]).
    rewrite removelast_app1. clear. set_solver.
Qed.

Lemma wf_timer s l t : wf s l -> t ∈ l -> is_Some (timers s !! t).
Proof.
  intros W Ht. apply (wf_timers _ _ W). destruct (wf_pending _ _ _ W Ht) as (n & Hn & _).
  split; [|eauto]. intros ->. pose proof (wf_nodup _ _ W) as N. apply NoDup_cons in N as [N _]. done.
Qed.

Lemma add_timer_ok s l t x : wf s l -> timers s !! t = Some x -> t ∉ l ->
  let e := s32 (expires x + jiffies s) in
  exists s', add_timer t s = Some s' /\ wf s' (ins (timers s) e t l) /\
    timers s' = <[t := mktimer e (data x) (fn x)]> (timers s) /\
    jiffies s' = jiffies s /\ tasks s' = tasks s /\ log s' = log s.
Proof.
  intros W Hx Ht e. unfold add_timer, set_expires. rewrite Hx. cbn [mbind option_bind].
  fold e. set (s1 := set_timers _ s).
  destruct (proj1 (wf_timers _ _ W t) ltac:(eauto)) as [Nth Hnt].
  assert (Hext : forall a, a ∈ l -> expiry (timers s1) a = expiry (timers s) a).
  { intros a Ha. apply expiry_insert_ne. intros ->. done. }
  destruct (place_ok s1 e l (walk_fuel s1)) as (l1 & l2 & -> & Hi & Hp).
  - pose proof (wf_chain _ _ W) as H. apply (chain_split _ _ [] timer_head) in H as [_ H].
    destruct l; apply chain_cons2 in H; apply H.
  - pose proof (wf_nodup _ _ W) as N. by apply NoDup_cons in N as [N _].
  - intros a Ha. cbn. rewrite is_Some_insert by eauto. by apply (wf_timer s l).
  - by apply (walk_fuel_ok s).
  - change (nx s1) with (nx s). rewrite (wf_first _ _ W). cbn [mbind option_bind]. rewrite Hp. cbn [mbind option_bind].
    destruct (list_add_tail_ok s1 l1 l2 t) as (s' & -> & (Sj & Sm & St & Sl) & Hc & En & Ep & Fr).
    + pose proof (wf_chain _ _ W) as H. by rewrite <- app_assoc in H.
    + apply W.
    + apply not_elem_of_cons. done.
    + done.
    + by apply (wf_prev _ _ W).
    + change (timers s1) with (<[t := mktimer e (data x) (fn x)]> (timers s)) in Sm.
      exists s'. rewrite <- (ins_ext _ _ _ _ _ Hext), Hi. split_and!; [done| |done..].
      assert (Hperm : l1 ++ t :: l2 ≡ₚ t :: l1 ++ l2) by (symmetry; apply Permutation_middle).
      assert (Hdom : forall a, is_Some (timers s' !! a) <-> is_Some (timers s !! a)).
      { intros a. rewrite Sm. apply is_Some_insert. eauto. }
      constructor; rewrite ?St.
      * by rewrite <- app_assoc.
      * rewrite Hperm, Permutation_swap. apply NoDup_cons. split; [apply not_elem_of_cons; done|apply W].
      * apply eq_None_not_Some. rewrite En. apply eq_None_not_Some, W.
      * intros a. rewrite Hdom, En. apply W.
      * intros a. rewrite En, Ep. apply W.
      * intros a Ha Hl Hs. rewrite Fr; [|apply not_elem_of_cons; done].
        apply (wf_idle _ _ W); [done| |by apply En]. clear -Hl. set_solver.
      * assert (He : expiry (timers s') t = e) by (rewrite Sm; apply expiry_insert_eq).
        rewrite <- Hi, (ins_ext _ (timers s')), <- He by (intros; by rewrite Sm).
        apply ins_sorted. eapply sorted_ext; [|apply W]. intros a Ha. rewrite <- Hext by done. by rewrite Sm.
      * intros a y Ha Hf. rewrite Sm in Ha. destruct (decide (a = t)) as [->|Hat].
        { rewrite lookup_insert_eq in Ha. inversion Ha; subst y. by apply (wf_real _ _ W _ x). }
        rewrite lookup_insert_ne in Ha by done. by apply (wf_real _ _ W _ y).
      * intros a Ha. rewrite Sm. destruct (wf_task _ _ W a Ha) as (y & Hy & Hf).
        destruct (decide (a = t)) as [->|Hat]; [|rewrite lookup_insert_ne by done; eauto].
        rewrite lookup_insert_eq. eexists. split; [done|]. by assert (y = x) as -> by congruence.
Qed.

Definition remaining (x : timer) (j : Z) : Z := Z.max 0 (s32 (expires x - j)).

Lemma sorted_remove (R : Z -> Z -> Prop) l1 t l2 : StronglySorted R (l1 ++ t :: l2) -> StronglySorted R (l1 ++ l2).
Proof.
  induction l1 as [|a l1 IH]; cbn; intros H; inversion H; subst; [done|].
  constructor; [by apply IH|]. rewrite !Forall_app, Forall_cons in *. tauto.
Qed.

Lemma wf_del s s1 l1 l2 t x e :
  wf s (l1 ++ t :: l2) -> timers s !! t = Some x -> same_but_ring s s1 ->
  chain (nx s1) (pv s1) (timer_head :: l1 ++ l2 ++ [timer_head]) -> nx s1 !! t = Some 0 ->
  (forall a, is_Some (nx s1 !! a) <-> is_Some (nx s !! a)) -> (forall a, is_Some (pv s1 !! a) <-> is_Some (pv s !! a)) ->
  (forall a, a ∉ timer_head :: l1 ++ t :: l2 -> nx s1 !! a = nx s !! a) ->
  wf (set_timers (<[t := mktimer e (data x) (fn x)]> (timers s)) s1) (l1 ++ l2).
Proof.
  intros W Hx (Sj & Sm & St & Sl) Hc H0 En Ep Fr.
  pose proof (wf_nodup _ _ W) as N. apply NoDup_cons in N as [N1 N]. rewrite <- Permutation_middle in N1, N.
  apply NoDup_cons in N as [N2 N].
  constructor; cbn [nx pv timers tasks set_timers]; rewrite ?St.
  - by rewrite <- app_assoc.
  - apply NoDup_cons. split; [|done]. clear -N1. set_solver.
  - apply eq_None_not_Some. rewrite En. apply eq_None_not_Some, W.
  - intros a. rewrite is_Some_insert by eauto. rewrite En. apply W.
  - intros a. rewrite En, Ep. apply W.
  - intros a Ha Hl Hs. destruct (decide (a = t)) as [->|Hat]; [done|].
    assert (Hal : a ∉ l1 ++ t :: l2) by (rewrite <- Permutation_middle; clear -Hl Hat; set_solver).
    rewrite Fr by (apply not_elem_of_cons; done). apply (wf_idle _ _ W); [done..|]. by apply En.
  - eapply sorted_ext; [|eapply sorted_remove, W]. intros a Ha. cbn. rewrite expiry_insert_ne; [done|]. intros ->. done.
  - intros a y Ha Hf. destruct (decide (a = t)) as [->|Hat].
    { rewrite lookup_insert_eq in Ha. inversion Ha; subst y. by apply (wf_real _ _ W _ x). }
    rewrite lookup_insert_ne in Ha by done. by apply (wf_real _ _ W _ y).
  - intros a Ha. destruct (wf_task _ _ W a Ha) as (y & Hy & Hf).
    destruct (decide (a = t)) as [->|Hat]; [|rewrite lookup_insert_ne by done; eauto].
    rewrite lookup_insert_eq. eexists. split; [done|]. by assert (y = x) as -> by congruence.
Qed.

Lemma __del_timer_ok s l1 l2 t x : wf s (l1 ++ t :: l2) -> timers s !! t = Some x ->
  exists s', __del_timer t s = Some s' /\ wf s' (l1 ++ l2) /\
    timers s' = <[t := mktimer (remaining x (jiffies s)) (data x) (fn x)]> (timers s) /\
    jiffies s' = jiffies s /\ tasks s' = tasks s /\ log s' = log s.
Proof.
  intros W Hx. destruct (list_cut_ok s l1 l2 t) as (s1 & E & S & R).
  { pose proof (wf_chain _ _ W) as H. by rewrite <- app_assoc in H. }
  { apply W. }
  pose proof S as (Sj & Sm & St & Sl). unfold __del_timer, set_expires.
  destruct (list_del t s) as [s0|]; cbn [mbind option_bind] in *; [|done]. rewrite E. cbn [mbind option_bind].
  rewrite Sm, Hx. cbn [mbind option_bind]. rewrite Sj.
  assert ((if s32 (expires x - jiffies s) <? 0 then 0 else s32 (expires x - jiffies s)) = remaining x (jiffies s)) as ->.
  { unfold remaining. destruct (Z.ltb_spec (s32 (expires x - jiffies s)) 0); lia. }
  eexists. split; [done|]. split_and!; [|done..]. eapply wf_del; [done|done|done|apply R ..].
Qed.

Lemma filter_one (t : Z) (l1 l2 : list Z) : t ∉ l1 ++ l2 -> filter (fun a => a <> t) (l1 ++ t :: l2) = l1 ++ l2.
Proof.
  intros [H1 H2]%not_elem_of_app. rewrite filter_app, filter_cons_False, !filter_absent by (auto; tauto). done.
Qed.

Lemma del_timer_ok s l t x : wf s l -> timers s !! t = Some x ->
  exists s', del_timer t s = Some (bool_decide (t ∈ l), s') /\ wf s' (filter (fun a => a <> t) l) /\
    timers s' = (if decide (t ∈ l) then <[t := mktimer (remaining x (jiffies s)) (data x) (fn x)]> (timers s) else timers s) /\
    jiffies s' = jiffies s /\ tasks s' = tasks s /\ log s' = log s.
Proof.
  intros W Hx. unfold del_timer, timer_in_list. destruct (decide (t ∈ l)) as [Hl|Hl].
  - rewrite bool_decide_eq_true_2 by done. destruct (wf_pending _ _ _ W Hl) as (n & Hn & Hn0). rewrite Hn. cbn.
    destruct (Z.eqb_spec n 0); [done|]. cbn. apply list_elem_of_split in Hl as (l1 & l2 & ->).
    destruct (__del_timer_ok _ _ _ _ _ W Hx) as (s' & -> & W' & R). exists s'. split; [done|].
    rewrite filter_one; [done|]. pose proof (wf_nodup _ _ W) as N. apply NoDup_cons in N as [_ N].
    rewrite <- Permutation_middle in N. by apply NoDup_cons in N as [N _].
  - rewrite bool_decide_eq_false_2 by done. destruct (proj1 (wf_timers _ _ W t) ltac:(eauto)) as [Nth Hn].
    rewrite (wf_idle _ _ W _ Nth Hl Hn). cbn. exists s. rewrite filter_absent by done. done.
Qed.

(** ** The bottom half *)

Lemma wf_emit e s l : wf s l -> wf (emit e s) l.
Proof. intros []. by constructor. Qed.

Lemma wf_expires s l t x e : wf s l -> timers s !! t = Some x -> t ∉ l ->
  wf (set_timers (<[t := mktimer e (data x) (fn x)]> (timers s)) s) l.
Proof.
  intros [] Hx Ht. constructor; cbn [nx pv timers tasks set_timers]; try done.
  - intros a. by rewrite is_Some_insert by eauto.
  - eapply sorted_ext; [|done]. intros a Ha. cbn. rewrite expiry_insert_ne; [done|]. intros ->. done.
  - intros a y Ha Hf. destruct (decide (a = t)) as [->|Hat].
    { rewrite lookup_insert_eq in Ha. inversion Ha; subst y. by apply (wf_real0 _ x). }
    rewrite lookup_insert_ne in Ha by done. by apply (wf_real0 _ y).
  - intros a Ha. destruct (wf_task0 a Ha) as (y & Hy & Hf).
    destruct (decide (a = t)) as [->|Hat]; [|rewrite lookup_insert_ne by done; eauto].
    rewrite lookup_insert_eq. eexists. split; [done|]. by assert (y = x) as -> by congruence.
Qed.

(** Setting the time of a timer that is not pending, and adding it. *)
Lemma arm_ok s l t x i : wf s l -> timers s !! t = Some x -> t ∉ l ->
  exists s', (s ← set_expires t i s; add_timer t s) = Some s' /\ wf s' (ins (timers s) (s32 (i + jiffies s)) t l) /\
    timers s' = <[t := mktimer (s32 (i + jiffies s)) (data x) (fn x)]> (timers s) /\
    jiffies s' = jiffies s /\ tasks s' = tasks s /\ log s' = log s.
Proof.
  intros W Hx Ht. unfold set_expires. rewrite Hx. cbn [mbind option_bind].
  destruct (add_timer_ok _ l t (mktimer i (data x) (fn x)) (wf_expires _ _ _ _ i W Hx Ht)) as (s' & E & W' & Em & R);
    [cbn; by rewrite lookup_insert_eq|done|].
  exists s'. split; [done|]. cbn in W', Em, R. rewrite insert_insert_eq in Em. split; [|done].
  erewrite ins_ext; [exact W'|]. intros a Ha. cbn. rewrite expiry_insert_ne; [done|]. intros ->. done.
Qed.

(** A timer that starts again when it has gone off. *)
Definition rearms (s : st) (t : Z) : bool :=
  match timers s !! t, tasks s !! t with
  | Some (mktimer _ _ It_real), Some k => negb (it_real_incr k =? 0)
  | _, _ => false
  end.

(** No interval is negative, and no time is out of range.  [sys_setitimer]
    accepts negative ones, and [run_timer_list] then never ends. *)
Definition intervals_ok (s : st) : Prop :=
  0 <= jiffies s < 2 ^ 31 /\
  forall p k, tasks s !! p = Some k -> 0 <= it_real_incr k /\ it_real_incr k + jiffies s < 2 ^ 31.

Lemma fire_ok s t l x : wf s (t :: l) -> timers s !! t = Some x -> intervals_ok s ->
  exists s' l' e, (s ← __del_timer t s; call (fn x) (data x) s) = Some s' /\ wf s' l' /\
    jiffies s' = jiffies s /\ tasks s' = tasks s /\ log s' = log s ++ [e] /\ fires (timers s) t = Some e /\
    (forall a, a <> t -> timers s' !! a = timers s !! a) /\
    l' = (if rearms s t then ins (timers s) (expiry (timers s') t) t l else l) /\
    (rearms s t = true -> jiffies s < expiry (timers s') t) /\
    (rearms s t = false -> timers s' !! t = Some (mktimer (remaining x (jiffies s)) (data x) (fn x))).
Proof.
  intros W Hx [Hj Hi]. destruct (__del_timer_ok s [] l t x W Hx) as (s1 & -> & W1 & Em & Ej & Et & El).
  cbn [mbind option_bind app] in *. unfold fires. rewrite Hx. cbn [mbind option_bind].
  pose proof (wf_nodup _ _ W) as N. apply NoDup_cons in N as [_ N]. apply NoDup_cons in N as [N _].
  unfold rearms. rewrite Hx. destruct x as [ex d f]. cbn [fn data] in *. destruct f; cbn [call].
  - destruct (wf_real _ _ W t _ Hx eq_refl) as [Hd [k Hk]]. cbn in Hd. subst d.
    unfold it_real_fun. rewrite Et, Hk. cbn [mbind option_bind]. destruct (Z.eqb_spec (it_real_incr k) 0) as [E0|E0].
    + exists (emit (Signal SIGALRM t) s1), l, (Signal SIGALRM t). cbn [negb]. split_and!; [done|by apply wf_emit|done|done| |done| |done|done|].
      * cbn. by rewrite El.
      * intros a Ha. cbn. rewrite Em. by rewrite lookup_insert_ne.
      * intros _. cbn. rewrite Em. by rewrite lookup_insert_eq.
    + destruct (arm_ok (emit (Signal SIGALRM t) s1) l t (mktimer (remaining (mktimer ex t It_real) (jiffies s)) t It_real) (it_real_incr k)) as (s2 & -> & W2 & Em2 & Ej2 & Et2 & El2).
      * by apply wf_emit.
      * cbn. rewrite Em. by rewrite lookup_insert_eq.
      * done.
      * cbn in Em2, Ej2, Et2, El2. assert (Ee : expiry (timers s2) t = s32 (it_real_incr k + jiffies s)).
        { rewrite Em2, Ej. apply expiry_insert_eq. }
        exists s2, (ins (timers s) (expiry (timers s2) t) t l), (Signal SIGALRM t). cbn [negb]. split_and!; [done| | | | |done| |done| |done].
        -- rewrite Ee. cbn in W2. rewrite Ej in W2. erewrite ins_ext; [exact W2|].
           intros a Ha. rewrite Em. rewrite expiry_insert_ne; [done|]. intros ->. done.
        -- congruence.
        -- congruence.
        -- congruence.
        -- intros a Ha. rewrite Em2, Em. by rewrite !lookup_insert_ne.
        -- intros _. rewrite Ee. destruct (Hi _ _ Hk). rewrite s32_small; lia.
  - exists (emit (Wake d) s1), l, (Wake d).
    split_and!; [done|by apply wf_emit|done|done| |done| |done|done|].
    + cbn. by rewrite El.
    + intros a Ha. cbn. rewrite Em. by rewrite lookup_insert_ne.
    + intros _. cbn. rewrite Em. by rewrite lookup_insert_eq.
Qed.

Lemma due_ext m m' j l : (forall x, x ∈ l -> expiry m x = expiry m' x) -> due m j l = due m' j l.
Proof.
  induction l as [|x l IH]; intros H; cbn; [done|]. rewrite (H x) by set_solver.
  rewrite IH by set_solver. done.
Qed.

(** A timer that is put behind [j] is not due at [j]. *)
Lemma due_ins m j e t l : j < e -> j < expiry m t -> due m j (ins m e t l) = due m j l.
Proof.
  intros He Ht. induction l as [|x l IH]; cbn.
  - destruct (Z.leb_spec (expiry m t) j); [lia|done].
  - destruct (Z.ltb_spec e (expiry m x)); cbn; [|by rewrite IH].
    destruct (Z.leb_spec (expiry m t) j); [lia|]. destruct (Z.leb_spec (expiry m x) j); [lia|done].
Qed.

Lemma due_filter m j l : StronglySorted (fun a b => expiry m a <= expiry m b) l ->
  due m j l = filter (fun t => expiry m t <= j) l.
Proof.
  induction 1 as [|x l S IH F]; cbn [due]; [done|]. destruct (Z.leb_spec (expiry m x) j) as [C|C].
  - rewrite filter_cons_True by done. by rewrite IH.
  - rewrite filter_cons_False by lia. clear IH S. induction F as [|y l Hy F IH]; [done|].
    rewrite filter_cons_False by lia. done.
Qed.

Lemma due_sub m j l t : t ∈ due m j l -> t ∈ l.
Proof. induction l as [|x l IH]; cbn; [done|]. destruct (_ <=? _); set_solver. Qed.

Lemma fires_ext m m' t : m !! t = m' !! t -> fires m t = fires m' t.
Proof. intros H. unfold fires. by rewrite H. Qed.

Lemma rearms_ext s s' t : timers s !! t = timers s' !! t -> tasks s = tasks s' -> rearms s t = rearms s' t.
Proof. intros H1 H2. unfold rearms. by rewrite H1, H2. Qed.

Lemma run_rounds n s l : wf s l -> intervals_ok s -> length (due (timers s) (jiffies s) l) = n ->
  exists s' l' es, run_timer_list (S n) s = Some s' /\ wf s' l' /\
    jiffies s' = jiffies s /\ tasks s' = tasks s /\ log s' = log s ++ es /\
    map Some es = map (fires (timers s)) (due (timers s) (jiffies s) l) /\
    (forall t, t ∈ l' <-> t ∈ l /\ (t ∈ due (timers s) (jiffies s) l -> rearms s t = true)) /\
    (forall t, t ∈ l' -> jiffies s < expiry (timers s') t) /\
    (forall t, t ∉ due (timers s) (jiffies s) l -> timers s' !! t = timers s !! t) /\
    (forall t x, t ∈ due (timers s) (jiffies s) l -> rearms s t = false -> timers s !! t = Some x ->
       timers s' !! t = Some (mktimer (remaining x (jiffies s)) (data x) (fn x))).
Proof.
  revert s l. induction n as [|n IH]; intros s l W I Hn.
  - cbn [run_timer_list]. rewrite (wf_first _ _ W). cbn [mbind option_bind].
    assert (D : due (timers s) (jiffies s) l = []) by (by apply nil_length_inv).
    rewrite D. exists s, l, [].
    assert (H : forall t, t ∈ l -> jiffies s < expiry (timers s) t).
    { intros t Ht. rewrite due_filter in D by apply W. apply Z.lt_nge. intros C.
      assert (t ∈ filter (fun t => expiry (timers s) t <= jiffies s) l) as E by (by apply list_elem_of_filter).
      rewrite D in E. set_solver. }
    split_and!; [|done|done|done|by rewrite app_nil_r|done|intros t; split; [|tauto]; intros Ht; split; [done|]; set_solver|done|done|intros ? ? H1; by apply not_elem_of_nil in H1].
    destruct l as [|t l]; cbn [hd]; [done|]. destruct (Z.eqb_spec t timer_head); [done|].
    destruct (wf_timer _ _ t W) as [x Hx]; [set_solver|]. rewrite Hx. cbn [mbind option_bind].
    specialize (H t ltac:(set_solver)). unfold expiry in H. rewrite Hx in H. cbn in H.
    by destruct (Z.gtb_spec (expires x) (jiffies s)); [|lia].
  - destruct l as [|t l]; [done|]. cbn [due] in *. destruct (Z.leb_spec (expiry (timers s) t) (jiffies s)) as [C|C]; [|done].
    cbn in Hn. injection Hn as Hn. destruct (wf_timer _ _ t W) as [x Hx]; [set_solver|].
    destruct (fire_ok _ _ _ _ W Hx I) as (s1 & l1 & e & E & W1 & Ej & Et & El & Ef & Fr & -> & Hr & Hd).
    pose proof (wf_nodup _ _ W) as N. apply NoDup_cons in N as [N0 N]. apply NoDup_cons in N as [N _].
    assert (Hne : forall a, a ∈ l -> a <> t) by (intros a Ha ->; done).
    assert (Hex : forall a, a ∈ l -> expiry (timers s1) a = expiry (timers s) a).
    { intros a Ha. unfold expiry. by rewrite Fr by auto. }
    set (l1 := if rearms s t then _ else l) in *.
    assert (D1 : due (timers s1) (jiffies s1) l1 = due (timers s) (jiffies s) l).
    { rewrite Ej, <- (due_ext (timers s1) (timers s)) by done. subst l1. destruct (rearms s t); [|done].
      rewrite <- (ins_ext (timers s1) (timers s)) by done. apply due_ins; auto. }
    destruct (IH s1 l1) as (s' & l' & es & R & W' & Ej' & Et' & El' & Em & Hm & Hl & Hk & Hf).
    { done. } { destruct I as [? I]. split; [by rewrite Ej|]. by rewrite Et, Ej. } { by rewrite D1. }
    rewrite D1 in *. exists s', l', (e :: es). split_and!; [|done|congruence|congruence| | | | | |].
    + change (run_timer_list (S (S n)) s) with
        (t ← nx s !! timer_head; if t =? timer_head then Some s else x ← timers s !! t;
         if expires x >? jiffies s then Some s else s ← __del_timer t s; s ← call (fn x) (data x) s; run_timer_list (S n) s).
      rewrite (wf_first _ _ W). cbn [hd mbind option_bind]. destruct (Z.eqb_spec t timer_head); [set_solver|].
      rewrite Hx. cbn [mbind option_bind]. unfold expiry in C. rewrite Hx in C. cbn in C.
      destruct (Z.gtb_spec (expires x) (jiffies s)); [lia|].
      destruct (__del_timer t s) as [s0|]; cbn [mbind option_bind] in *; [|done]. rewrite E. done.
    + rewrite El', El. by rewrite <- app_assoc.
    + cbn. rewrite Ef, Em. f_equal. apply map_ext_in. intros a Ha%list_elem_of_In.
      by eapply fires_ext, Fr, Hne, due_sub.
    + intros a. rewrite Hm. rewrite elem_of_cons, elem_of_cons. destruct (decide (a = t)) as [->|Hat].
      * subst l1. destruct (rearms s t) eqn:Er.
        { rewrite elem_of_ins. split; [tauto|]. intros _. split; [tauto|]. by intros ?%due_sub. }
        { split; [by intros [? _]|]. intros [_ ?]. by assert (false = true) by auto. }
      * rewrite (rearms_ext s1 s a) by auto.
        assert (a ∈ l1 <-> a ∈ l) as -> by (subst l1; destruct (rearms s t); [rewrite elem_of_ins|]; tauto). tauto.
    + rewrite Ej in Hl. done.
    + intros a [Ha Ha']%not_elem_of_cons. by rewrite Hk, Fr.
    + intros a y [->|Ha]%elem_of_cons Hra Hy; [rewrite Hk by (by intros ?%due_sub); assert (y = x) as -> by congruence; auto|].
      rewrite Ej in Hf. assert (a <> t) by (by eapply Hne, due_sub). apply Hf; [done| |by rewrite Fr]. by rewrite (rearms_ext s1 s a) by auto.
Qed.


(** ** The calls *)

(** the pending timers are a queue ordered by expiry, first come first
    served: [del_timer] takes a timer out wherever it is, leaves in it the
    time that remained and says whether it was pending, and [add_timer] puts an
    idle one behind those that do not expire later. *)
Theorem timer_queue_refines s l t x : wf s l -> timers s !! t = Some x ->
  (exists s', del_timer t s = Some (bool_decide (t ∈ l), s') /\ wf s' (filter (fun a => a <> t) l) /\
     (t ∈ l -> expiry (timers s') t = remaining x (jiffies s)) /\
     (forall a, a <> t -> timers s' !! a = timers s !! a)) /\
  (t ∉ l -> exists s', add_timer t s = Some s' /\
     wf s' (ins (timers s) (s32 (expires x + jiffies s)) t l) /\ expiry (timers s') t = s32 (expires x + jiffies s) /\
     (forall a, a <> t -> timers s' !! a = timers s !! a)).
Proof.
  intros W Hx. split.
  - destruct (del_timer_ok _ _ _ _ W Hx) as (s' & E & W' & Em & _). exists s'. split_and!; [done..| |].
    + intros Ht. rewrite Em, decide_True by done. apply expiry_insert_eq.
    + intros a Ha. rewrite Em. destruct (decide (t ∈ l)); [by rewrite lookup_insert_ne|done].
  - intros Ht. destruct (add_timer_ok _ _ _ _ W Hx Ht) as (s' & E & W' & Em & _). exists s'. split_and!; [done..| |].
    + rewrite Em. apply expiry_insert_eq.
    + intros a Ha. rewrite Em. by rewrite lookup_insert_ne.
Qed.

Lemma wf_put_task s l p k : wf s l -> is_Some (tasks s !! p) -> wf (put_task p k s) l.
Proof.
  intros [] Hp. constructor; cbn [nx pv timers tasks put_task set_tasks]; try done.
  - intros t x Ht Hf. rewrite is_Some_insert by done. by apply wf_real0.
  - intros t Ht. apply wf_task0. by rewrite is_Some_insert in Ht.
Qed.

(** The calls on a real timer change the place of one timer only. *)
Record moves (p : Z) (b : bool) (s : st) (l : list Z) (s' : st) (l' : list Z) : Prop := {
  m_wf : wf s' l';
  m_in : p ∈ l' <-> b = true;
  m_others : forall t, t <> p -> (t ∈ l' <-> t ∈ l) /\ timers s' !! t = timers s !! t /\ tasks s' !! t = tasks s !! t;
  m_jiffies : jiffies s' = jiffies s;
  m_log : log s' = log s;
}.

Lemma del_moves s l p x : wf s l -> timers s !! p = Some x ->
  exists s' l', del_timer p s = Some (bool_decide (p ∈ l), s') /\ moves p false s l s' l' /\ tasks s' = tasks s /\
    timers s' !! p = Some (mktimer (if decide (p ∈ l) then remaining x (jiffies s) else expires x) (data x) (fn x)).
Proof.
  intros W Hx. destruct (del_timer_ok _ _ _ _ W Hx) as (s' & E & W' & Em & Ej & Et & El).
  exists s', (filter (fun a => a <> p) l). split_and!; [done| |done|].
  - constructor; [done| | |done|done].
    + rewrite list_elem_of_filter. split; [tauto|done].
    + intros t Ht. rewrite list_elem_of_filter, Em, Et. split_and!; [tauto| |done].
      destruct (decide (p ∈ l)); [by rewrite lookup_insert_ne|done].
  - rewrite Em. destruct (decide (p ∈ l)); [by rewrite lookup_insert_eq|]. rewrite Hx. by destruct x.
Qed.

Lemma add_moves s l p x : wf s l -> timers s !! p = Some x -> p ∉ l ->
  exists s' l', add_timer p s = Some s' /\ moves p true s l s' l' /\ tasks s' = tasks s /\
    timers s' !! p = Some (mktimer (s32 (expires x + jiffies s)) (data x) (fn x)).
Proof.
  intros W Hx Hp. destruct (add_timer_ok _ _ _ _ W Hx Hp) as (s' & E & W' & Em & Ej & Et & El).
  eexists s', _. split_and!; [done| |done|].
  - constructor; [exact W'| | |done|done].
    + rewrite elem_of_ins. tauto.
    + intros t Ht. rewrite elem_of_ins, Em, Et, lookup_insert_ne by done. tauto.
  - rewrite Em. by rewrite lookup_insert_eq.
Qed.

Lemma moves_trans p b b' s l s1 l1 s2 l2 : moves p b s l s1 l1 -> moves p b' s1 l1 s2 l2 -> moves p b' s l s2 l2.
Proof.
  intros [] []. constructor; [done|done| |congruence|congruence].
  intros t Ht. destruct (m_others0 t Ht) as (A & B & C).
  destruct (m_others1 t Ht) as (D & E & F). by rewrite D, E, F.
Qed.

Lemma set_real_ok s l p k x i j : wf s l -> tasks s !! p = Some k -> timers s !! p = Some x ->
  exists s' l', set_real i j p s = Some s' /\ moves p (negb (j =? 0)) s l s' l' /\
    tasks s' !! p = Some (mkit j (it_prof_value k) (it_virt_value k) i (it_prof_incr k) (it_virt_incr k)) /\
    (j <> 0 -> expiry (timers s') p = s32 (j + jiffies s)).
Proof.
  intros W Hk Hx. unfold set_real. destruct (del_moves _ _ _ _ W Hx) as (s1 & l1 & -> & M & Et & Ex).
  cbn [mbind option_bind]. rewrite Et, Hk. cbn [mbind option_bind].
  set (k' := mkit j _ _ _ _ _). set (x1 := mktimer _ (data x) (fn x)) in Ex.
  assert (M1 : moves p false s l (put_task p k' s1) l1).
  { destruct M. constructor; try done.
    - apply wf_put_task; [done|]. rewrite Et. eauto.
    - intros t Ht. destruct (m_others0 t Ht) as (A & B & C). split_and!; [done..|]. cbn. by rewrite lookup_insert_ne. }
  destruct (Z.eqb_spec j 0) as [->|Hj]; cbn [negb].
  - eexists _, l1. split_and!; [done|done|cbn; by rewrite lookup_insert_eq|done].
  - unfold set_expires. cbn [timers put_task set_tasks]. rewrite Ex. cbn [mbind option_bind].
    assert (Hp : p ∉ l1) by (rewrite (m_in _ _ _ _ _ _ M1); done).
    pose proof (wf_expires _ _ p x1 j (m_wf _ _ _ _ _ _ M1) Ex Hp) as W2. cbn [timers put_task set_tasks] in W2.
    destruct (add_moves _ _ p (mktimer j (data x1) (fn x1)) W2) as (s2 & l2 & E & M2 & Et2 & Ex2); [cbn; by rewrite lookup_insert_eq|done|].
    exists s2, l2. split_and!; [exact E| | |].
    + eapply moves_trans; [|exact M2]. destruct M1. constructor; try done.
      intros t Ht. destruct (m_others0 t Ht) as (A & B & C). split_and!; [done| |done]. cbn. by rewrite lookup_insert_ne.
    + rewrite Et2. cbn. by rewrite lookup_insert_eq.
    + intros _. unfold expiry. rewrite Ex2. cbn [from_option expires]. cbn. f_equal. f_equal. apply M.
Qed.

(** The time a real timer still has, or 0. *)
Definition left_of (s : st) (l : list Z) (p : Z) : Z :=
  if decide (p ∈ l) then from_option (fun x => remaining x (jiffies s)) 0 (timers s !! p) else 0.

Lemma remaining_range x j : 0 <= remaining x j < 2 ^ 31.
Proof.
  unfold remaining, s32. pose proof (Z.mod_pos_bound (expires x - j + 2 ^ 31) (2 ^ 32)). lia.
Qed.

Lemma getitimer_real_ok s l p k x : wf s l -> tasks s !! p = Some k -> timers s !! p = Some x ->
  exists s' l' x', _getitimer p ITIMER_REAL s =
      Some (inr (mkitv (jiffiestotv (it_real_incr k)) (jiffiestotv (left_of s l p))), s') /\
    moves p (bool_decide (p ∈ l)) s l s' l' /\ tasks s' = tasks s /\ timers s' !! p = Some x' /\ fn x' = fn x /\
    (p ∈ l -> expires x' = s32 (left_of s l p + jiffies s)).
Proof.
  intros W Hk Hx. unfold _getitimer, left_of. rewrite Hk, Hx. cbn [mbind option_bind]. rewrite Z.eqb_refl.
  destruct (del_moves _ _ _ _ W Hx) as (s1 & l1 & -> & M & Et & Ex). cbn [mbind option_bind].
  assert (Hp : p ∉ l1) by (rewrite (m_in _ _ _ _ _ _ M); done).
  destruct (decide (p ∈ l)) as [D|D].
  - rewrite bool_decide_eq_true_2 by done. rewrite Ex. cbn [mbind option_bind].
    destruct (add_moves _ _ _ _ (m_wf _ _ _ _ _ _ M) Ex Hp) as (s2 & l2 & -> & M2 & Et2 & Ex2). cbn [mbind option_bind].
    eexists _, l2, _. split_and!; [done|by eapply moves_trans|congruence|exact Ex2|done|].
    intros _. cbn. f_equal. f_equal. apply M.
  - rewrite bool_decide_eq_false_2 by done. eexists _, l1, _. split_and!; [done|done|done|exact Ex|done|done].
Qed.

Lemma alarm_jiffies seconds : 0 <= seconds -> HZ * seconds < 2 ^ 31 -> tvtojiffies (mktv seconds 0) = HZ * seconds.
Proof.
  unfold HZ. intros. unfold tvtojiffies, HZ. cbn [tv_sec tv_usec].
  change (Z.quot (s32 (0 + 1000000 / 100 - 1)) (1000000 / 100)) with 0.
  rewrite Z.add_0_r, !s32_small; rewrite ?s32_small; lia.
Qed.

Lemma setitimer_real_ok s l p k x v : wf s l -> tasks s !! p = Some k -> timers s !! p = Some x ->
  let j := tvtojiffies (it_value v) in let i := tvtojiffies (it_interval v) in
  exists s' l', _setitimer p ITIMER_REAL v true s =
      Some ((0, Some (mkitv (jiffiestotv (it_real_incr k)) (jiffiestotv (left_of s l p)))), s') /\
    moves p (negb (j =? 0)) s l s' l' /\
    tasks s' !! p = Some (mkit j (it_prof_value k) (it_virt_value k) i (it_prof_incr k) (it_virt_incr k)) /\
    (j <> 0 -> expiry (timers s') p = s32 (j + jiffies s)).
Proof.
  intros W Hk Hx j i. unfold _setitimer.
  destruct (getitimer_real_ok _ _ _ _ _ W Hk Hx) as (s1 & l1 & x1 & -> & M1 & Et1 & Ex1 & _). cbn [mbind option_bind].
  cbv beta zeta. rewrite Z.eqb_refl. fold i j. rewrite <- Et1 in Hk.
  destruct (set_real_ok _ _ _ _ _ i j (m_wf _ _ _ _ _ _ M1) Hk Ex1) as (s2 & l2 & -> & M2 & Et2 & Ee). cbn [mbind option_bind].
  exists s2, l2. split_and!; [done|by eapply moves_trans|done|].
  intros Hj. rewrite Ee by done. f_equal. f_equal. apply M1.
Qed.

(** [alarm] arms the real timer of the caller, and no other, to go off once
    [HZ * seconds] ticks from now (0 disarms it), and gives the whole seconds that
    the timer it replaces still had: 0 also for one that has less than a second. *)
Theorem sys_alarm_replaces s l p k seconds : wf s l -> tasks s !! p = Some k ->
  0 <= seconds -> 0 <= jiffies s -> HZ * seconds + jiffies s < 2 ^ 31 ->
  exists s' l' k', sys_alarm p seconds s = Some (left_of s l p / HZ, s') /\ wf s' l' /\
    (p ∈ l' <-> seconds <> 0) /\ (seconds <> 0 -> expiry (timers s') p = jiffies s + HZ * seconds) /\
    tasks s' !! p = Some k' /\ it_real_incr k' = 0 /\
    (forall t, t <> p -> (t ∈ l' <-> t ∈ l) /\ timers s' !! t = timers s !! t /\ tasks s' !! t = tasks s !! t).
Proof.
  intros W Hk Hs Hj Hb. destruct (wf_task _ _ W p ltac:(eauto)) as (x & Hx & _).
  destruct (setitimer_real_ok s l p k x (mkitv (mktv 0 0) (mktv seconds 0)) W Hk Hx) as (s' & l' & E & M & Et & Ee).
  unfold sys_alarm. rewrite E. cbn [mbind option_bind it_value it_interval] in *.
  assert (H100 : HZ = 100) by done.
  rewrite alarm_jiffies in * by lia. assert (Hr : 0 <= left_of s l p < 2 ^ 31).
  { unfold left_of. destruct (decide _); [|lia]. rewrite Hx. cbn. apply remaining_range. }
  assert (V : s32 (tv_sec (jiffiestotv (left_of s l p)) + Z.quot (tv_usec (jiffiestotv (left_of s l p))) 1000000) = left_of s l p / HZ).
  { unfold jiffiestotv. cbn [tv_sec tv_usec]. rewrite Z.rem_mod_nonneg, (Z.quot_div_nonneg (left_of s l p) HZ) by lia.
    rewrite H100. change (1000000 / 100) with 10000. pose proof (Z.mod_pos_bound (left_of s l p) 100 ltac:(lia)).
    rewrite (Z.quot_small (_ * _)) by lia. rewrite Z.add_0_r, s32_small; [done|].
    pose proof (Z.div_mod (left_of s l p) 100). lia. }
  eexists s', l', _. split_and!; [by rewrite V|apply M| | |exact Et|done|apply M].
  - rewrite (m_in _ _ _ _ _ _ M). destruct (Z.eqb_spec (HZ * seconds) 0); cbn; split; try done; intros; lia.
  - intros H0. rewrite Ee by lia. rewrite s32_small; lia.
Qed.

(** ** What the calls let through *)

Lemma wf_jiffies j s l : wf s l -> wf (set_jiffies j s) l.
Proof. intros []. by constructor. Qed.

Lemma backward_timer_loops n s p k x : wf s [p] -> tasks s !! p = Some k -> timers s !! p = Some x ->
  expires x <= jiffies s -> it_real_incr k < 0 -> 0 <= jiffies s < 2 ^ 31 -> - 2 ^ 31 <= it_real_incr k + jiffies s ->
  run_timer_list n s = None.
Proof.
  revert s x. induction n as [|n IH]; intros s x W Hk Hx He Hi Hj Hij; [done|].
  destruct (wf_task _ _ W p ltac:(eauto)) as (y & Hy & Hf). assert (y = x) as -> by congruence.
  destruct (wf_real _ _ W _ _ Hx Hf) as [Hd _].
  cbn [run_timer_list]. rewrite (wf_first _ _ W). cbn [hd mbind option_bind].
  destruct (Z.eqb_spec p timer_head) as [->|Hph].
  { destruct (proj1 (wf_timers _ _ W timer_head) ltac:(eauto)). done. }
  rewrite Hx. cbn [mbind option_bind]. destruct (Z.gtb_spec (expires x) (jiffies s)); [lia|].
  destruct (__del_timer_ok s [] [] p x W Hx) as (s1 & -> & W1 & Em & Ej & Et & _). cbn [mbind option_bind app] in *.
  rewrite Hf, Hd. cbn [call]. unfold it_real_fun. rewrite Et, Hk. cbn [mbind option_bind].
  destruct (Z.eqb_spec (it_real_incr k) 0); [lia|].
  destruct (arm_ok (emit (Signal SIGALRM p) s1) [] p (mktimer (remaining x (jiffies s)) (data x) (fn x)) (it_real_incr k))
    as (s2 & -> & W2 & Em2 & Ej2 & Et2 & _); [by apply wf_emit|cbn; rewrite Em; by rewrite lookup_insert_eq|set_solver|].
  cbn in Em2, Ej2, Et2, W2. cbn [mbind option_bind].
  eapply IH; [exact W2|by rewrite Et2, Et|rewrite Em2; by rewrite lookup_insert_eq| | | |]; cbn [expires]; rewrite ?Ej2, ?Ej; try lia.
  rewrite s32_small; lia.
Qed.

(** [setitimer] takes a negative interval, and the bottom half that finds
    the timer expired one tick later never ends: each round puts the timer back
    before the time that it is. *)
Theorem negative_interval_never_ends s p k : wf s [] -> tasks s !! p = Some k -> 0 <= jiffies s < 2 ^ 31 - 200 ->
  exists old s', sys_setitimer p ITIMER_REAL (Some (mkitv (mktv (-1) 0) (mktv 0 1))) true s = Some ((0, old), s') /\
    forall n, run_timer_list n (set_jiffies (jiffies s + 1) s') = None.
Proof.
  intros W Hk Hj. destruct (wf_task _ _ W p ltac:(eauto)) as (x & Hx & Hf).
  destruct (setitimer_real_ok s [] p k x (mkitv (mktv (-1) 0) (mktv 0 1)) W Hk Hx) as (s' & l' & E & M & Et & Ee).
  unfold sys_setitimer. cbn [default from_option id]. unfold id. rewrite E. cbn [it_value it_interval] in *.
  change (tvtojiffies (mktv 0 1)) with 1 in *. change (tvtojiffies (mktv (-1) 0)) with (-100) in *.
  eexists _, s'. split; [done|]. intros n. specialize (Ee ltac:(done)). rewrite s32_small in Ee by lia.
  assert (l' = [p]) as ->.
  { destruct M as [W' Hin Ho _ _]. pose proof (wf_nodup _ _ W') as N. apply NoDup_cons in N as [_ N].
    assert (Hp : p ∈ l') by (by apply Hin). assert (H : forall t, t ∈ l' -> t = p).
    { intros t Ht. destruct (decide (t = p)) as [|D]; [done|]. apply (Ho t D) in Ht. set_solver. }
    destruct l' as [|a l']; [set_solver|]. destruct l' as [|b l']; [by rewrite (H a) by set_solver|].
    apply NoDup_cons in N as [N _]. exfalso. apply N. rewrite (H a), (H b) by set_solver. set_solver. }
  destruct (wf_timer _ _ p (m_wf _ _ _ _ _ _ M)) as [x' Hx']; [set_solver|].
  unfold expiry in Ee. rewrite Hx' in Ee. cbn in Ee.
  eapply backward_timer_loops; [apply wf_jiffies, M|exact Et|exact Hx'|..]; cbn; lia.
Qed.

(** a task that forks while its real timer is pending hands the child the
    links of that timer: the first time the child stops or replaces its own,
    the timer of the parent is out of the ring, and yet still marked as pending,
    so that it never goes off. *)
Theorem forked_child_stops_alarm s l p c : wf s l -> p ∈ l -> is_Some (tasks s !! p) ->
  nx s !! c = None -> c <> 0 ->
  exists s1 s2, fork_timers p c s = Some s1 /\ del_timer c s1 = Some (true, s2) /\
    timer_in_list p s2 = Some true /\
    chain (nx s2) (pv s2) (timer_head :: filter (fun a => a <> p) l ++ [timer_head]).
Proof.
  intros W Hp Hpt Hc Hc0. destruct (wf_timer _ _ _ W Hp) as [x Hx].
  destruct (wf_pending _ _ _ W Hp) as (n & Hn & Hn0). apply list_elem_of_split in Hp as (l1 & l2 & ->).
  pose proof (wf_nodup _ _ W) as N. pose proof (wf_chain _ _ W) as Hch.
  pose proof (chain_is_Some _ _ _ Hch) as [In _].
  assert (Hcf : c ∉ timer_head :: l1 ++ p :: l2).
  { intros H. destruct (In c) as [z Hz]; [|congruence]. by rewrite app_comm_cons, removelast_app1. }
  rewrite <- app_assoc in Hch.
  destruct (ring_cut _ _ _ _ _ Hch N) as (a & b & Ea & Eb & Ea' & Eb' & Npa & Npb & Ia & Ib & Hnew).
  assert (Hp : p ∉ timer_head :: l1 ++ l2).
  { apply NoDup_cons in N as [N0 N]. rewrite <- Permutation_middle in N0, N. apply NoDup_cons in N as [N _].
    clear -N0 N. set_solver. }
  rewrite filter_one by (clear -Hp; set_solver).
  assert (c <> a /\ c <> b /\ c <> p) as (Nca & Ncb & Ncp) by (split_and!; intros ->; clear -Hcf Ia Ib; set_solver).
  assert (n = b) as -> by congruence.
  unfold fork_timers. rewrite Eb, Ea', Hx. cbn [mbind option_bind].
  eexists _, _. split; [done|]. cbn.
  unfold del_timer, timer_in_list. cbn. rewrite lookup_insert_eq. cbn. destruct (Z.eqb_spec b 0); [done|]. cbn.
  unfold __del_timer, list_del, __list_del, put_prev, put_next, set_expires. cbn. rewrite !lookup_insert_eq. cbn.
  rewrite (lookup_insert_ne _ c b) by done. rewrite Eb'. cbn. rewrite (lookup_insert_ne _ c a), Ea by done. cbn.
  rewrite (lookup_insert_ne _ a c), lookup_insert_eq by done. cbn. rewrite lookup_insert_eq. cbn.
  split; [done|]. split.
  - cbn. rewrite !lookup_insert_ne by done. rewrite Eb. cbn. by destruct (Z.eqb_spec b 0).
  - rewrite <- app_assoc. eapply chain_frame; [| |exact Hnew].
    + intros y Hy. rewrite app_assoc, app_comm_cons, removelast_app1 in Hy.
      assert (y <> c /\ y <> p) as [Yc Yp] by (split; intros ->; clear -Hy Hcf Hp; set_solver).
      cbn. rewrite lookup_insert_ne by done. rewrite (lookup_insert_ne _ p y) by done.
      destruct (decide (y = a)) as [->|Hya]; [by rewrite !lookup_insert_eq|].
      by rewrite !lookup_insert_ne by done.
    + intros y Hy. assert (y <> c) as Yc by (intros ->; cbn in Hy; clear -Hy Hcf; set_solver).
      cbn. destruct (decide (y = b)) as [->|Hyb]; [by rewrite !lookup_insert_eq|].
      by rewrite !lookup_insert_ne by done.
Qed.

(** ** Ticks *)

(** [n] ticks in a row on the same task. *)
Fixpoint ticks (n : nat) (current : Z) (userland : bool) (a : acct) (s : st) : option (acct * st) :=
  match n with
  | O => Some (a, s)
  | S n => '(a, s) ← irq_PIT current false userland a s; ticks n current userland a s
  end.

(** How often a timer of value [v] and interval [i] goes off in [n] ticks. *)
Definition rounds (v i n : Z) : Z :=
  if v =? 0 then 0 else if n <? v then 0 else 1 + (if i =? 0 then 0 else (n - v) / i).

Lemma rounds_step v i n : 0 <= v < 2 ^ 31 -> 0 <= i < 2 ^ 31 -> 0 <= n ->
  rounds v i (n + 1) = Z.b2z (itimer_step v i).2 + rounds (itimer_step v i).1 i n /\ 0 <= (itimer_step v i).1 < 2 ^ 31.
Proof.
  intros Hv Hi Hn. unfold itimer_step, rounds. destruct (Z.eqb_spec v 0) as [->|V]; cbn [fst snd Z.b2z]; [cbn; lia|].
  rewrite s32_small by lia. destruct (Z.eqb_spec (v - 1) 0) as [E|E]; cbn [fst snd Z.b2z].
  - destruct (Z.ltb_spec (n + 1) v); [lia|]. destruct (Z.eqb_spec i 0) as [->|I]; [cbn; lia|].
    destruct (Z.ltb_spec n i) as [L|L]; [rewrite Z.div_small by lia; lia|].
    replace (n + 1 - v) with ((n - i) + 1 * i) by lia. rewrite Z.div_add by lia. lia.
  - destruct (Z.eqb_spec (v - 1) 0); [lia|]. destruct (Z.ltb_spec (n + 1) v); destruct (Z.ltb_spec n (v - 1)); try lia.
    replace (n - (v - 1)) with (n + 1 - v) by lia. lia.
Qed.

Definition signals (sig p : Z) (es : list event) : Z := zlength (filter (fun e => e = Signal sig p) es).

Lemma signals_emit sig sig' p es : signals sig p (es ++ [Signal sig' p]) = signals sig p es + Z.b2z (sig' =? sig).
Proof.
  unfold signals. rewrite filter_app, zlength_app. f_equal. destruct (Z.eqb_spec sig' sig) as [->|D].
  - by rewrite filter_cons_True.
  - rewrite filter_cons_False by congruence. done.
Qed.

Lemma ticks_ok n p ul a s k : tasks s !! p = Some k ->
  0 <= it_prof_value k < 2 ^ 31 -> 0 <= it_prof_incr k < 2 ^ 31 -> 0 <= it_virt_value k < 2 ^ 31 -> 0 <= it_virt_incr k < 2 ^ 31 ->
  exists a' s', ticks n p ul a s = Some (a', s') /\
    signals SIGPROF p (log s') = signals SIGPROF p (log s) + rounds (it_prof_value k) (it_prof_incr k) (Z.of_nat n) /\
    signals SIGVTALRM p (log s') = signals SIGVTALRM p (log s) +
      (if ul then rounds (it_virt_value k) (it_virt_incr k) (Z.of_nat n) else 0).
Proof.
  revert a s k. induction n as [|n IH]; intros a s k Hk Hp Hpi Hv Hvi.
  - exists a, s. assert (R : forall v i, 0 <= v -> rounds v i (Z.of_nat 0) = 0).
    { intros v i H. unfold rounds. destruct (Z.eqb_spec v 0); [done|]. destruct (Z.ltb_spec (Z.of_nat 0) v); lia. }
    rewrite !R by lia. split_and!; [done|lia|destruct ul; lia].
  - cbn [ticks]. unfold irq_PIT. cbn [tasks set_jiffies]. rewrite Hk. cbn [mbind option_bind].
    rewrite Nat2Z.inj_succ, <- Z.add_1_r.
    destruct (rounds_step _ _ (Z.of_nat n) Hp Hpi ltac:(lia)) as [-> Hq].
    destruct (rounds_step _ _ (Z.of_nat n) Hv Hvi ltac:(lia)) as [-> Hw].
    destruct (itimer_step (it_prof_value k) (it_prof_incr k)) as [q pf]. cbn [fst snd] in Hq |- *.
    destruct ul.
    + destruct (itimer_step (it_virt_value k) (it_virt_incr k)) as [v vf]. cbn [fst snd] in Hw |- *. cbn [mbind option_bind].
      match goal with |- context [ticks n p true ?a1 ?s1] => edestruct (IH a1 s1) as (a' & s' & -> & E1 & E2) end.
      { cbn. by rewrite lookup_insert_eq. } { done. } { done. } { done. } { done. }
      eexists _, _. split; [done|]. rewrite E1, E2. clear. cbn [it_prof_value it_prof_incr it_virt_value it_virt_incr log put_task set_tasks].
      destruct vf, pf; cbn [log emit set_jiffies]; rewrite ?signals_emit; cbn [Z.b2z Z.eqb SIGPROF SIGVTALRM Pos.eqb]; lia.
    + cbn [mbind option_bind].
      match goal with |- context [ticks n p false ?a1 ?s1] => edestruct (IH a1 s1) as (a' & s' & -> & E1 & E2) end.
      { cbn. by rewrite lookup_insert_eq. } { done. } { done. } { done. } { done. }
      eexists _, _. split; [done|]. rewrite E1, E2. clear. cbn [it_prof_value it_prof_incr it_virt_value it_virt_incr log put_task set_tasks].
      destruct pf; cbn [log emit set_jiffies]; rewrite ?signals_emit; cbn [Z.b2z Z.eqb SIGPROF SIGVTALRM Pos.eqb]; lia.
Qed.

(** a virtual or profiling timer goes off for the first time one tick after
    its value has run out, and then after every interval: the number of its
    signals in [n] ticks of the task.  The virtual one counts only the ticks in
    user mode. *)
Theorem itimer_signals n p which v ul a s k j i : tasks s !! p = Some k ->
  which = ITIMER_PROF \/ which = ITIMER_VIRTUAL -> it_prof_value k = 0 -> it_virt_value k = 0 ->
  0 <= it_prof_incr k < 2 ^ 31 -> 0 <= it_virt_incr k < 2 ^ 31 ->
  j = tvtojiffies (it_value v) -> i = tvtojiffies (it_interval v) -> 0 < j < 2 ^ 31 - 1 -> 0 <= i ->
  exists s1 a' s', _setitimer p which v false s = Some ((0, None), s1) /\ ticks n p ul a s1 = Some (a', s') /\
    let sig := if which =? ITIMER_PROF then SIGPROF else SIGVTALRM in
    signals sig p (log s') = signals sig p (log s) +
      (if negb (which =? ITIMER_PROF) && negb ul then 0 else rounds (j + 1) i (Z.of_nat n)).
Proof.
  intros Hk Hw Hp0 Hv0 Hpi Hvi -> -> Hj Hi. unfold _setitimer.
  assert (Hi' : tvtojiffies (it_interval v) < 2 ^ 31).
  { unfold tvtojiffies, s32. match goal with |- ?x mod _ - _ < _ => pose proof (Z.mod_pos_bound x (2 ^ 32)) end. lia. }
  set (i := tvtojiffies (it_interval v)) in *. set (j := tvtojiffies (it_value v)) in *.
  cbv beta zeta. rewrite Hk. cbn [mbind option_bind].
  destruct (Z.eqb_spec j 0); [lia|]. rewrite s32_small by lia.
  destruct Hw as [-> | ->]; cbn [Z.eqb ITIMER_PROF ITIMER_REAL ITIMER_VIRTUAL Pos.eqb].
  - match goal with |- context [Some ((0, None), ?s')] => set (s1 := s') end.
    edestruct (ticks_ok n p ul a s1) as (a' & s' & E & E1 & _);
      [cbn; by rewrite lookup_insert_eq|cbn; lia..|].
    exists s1, a', s'. split_and!; [done|done|]. exact E1.
  - match goal with |- context [Some ((0, None), ?s')] => set (s1 := s') end.
    edestruct (ticks_ok n p ul a s1) as (a' & s' & E & _ & E2);
      [cbn; by rewrite lookup_insert_eq|cbn; lia..|].
    exists s1, a', s'. split_and!; [done|done|]. destruct ul; exact E2.
Qed.

(** ** Sleeping *)

Lemma wf_fresh s l t x : wf s l -> nx s !! t = None -> t <> 0 -> t <> timer_head -> fn x = Process_timeout ->
  wf (set_nx (<[t := 0]> (nx s)) (set_pv (<[t := 0]> (pv s)) (set_timers (<[t := x]> (timers s)) s))) l /\ t ∉ l.
Proof.
  intros W Hn Ht0 Hth Hf.
  assert (Htl : t ∉ l) by (intros Ht; destruct (wf_pending _ _ _ W Ht) as (? & ? & _); congruence).
  assert (Hm : timers s !! t = None).
  { apply eq_None_not_Some. intros H. apply (wf_timers _ _ W) in H as [_ [? ?]]. congruence. }
  split; [|done]. destruct W. constructor; cbn [nx pv timers tasks set_nx set_pv set_timers].
  - eapply chain_frame; [| |done].
    + intros y Hy. rewrite app_comm_cons, removelast_app1 in Hy. rewrite lookup_insert_ne; [done|]. intros <-. set_solver.
    + intros y Hy. cbn [tail] in Hy. rewrite lookup_insert_ne; [done|]. intros <-. set_solver.
  - done.
  - by rewrite lookup_insert_ne.
  - intros a. destruct (decide (a = t)) as [->|D]; [rewrite !lookup_insert_eq; split; eauto|].
    by rewrite !lookup_insert_ne.
  - intros a. destruct (decide (a = t)) as [->|D]; [rewrite !lookup_insert_eq; split; eauto|].
    by rewrite !lookup_insert_ne.
  - intros a Ha Hl. destruct (decide (a = t)) as [->|D]; [by rewrite lookup_insert_eq|].
    rewrite lookup_insert_ne by done. auto.
  - eapply sorted_ext; [|done]. intros a Ha. cbn. rewrite expiry_insert_ne; [done|]. intros ->. done.
  - intros a y Ha Hfy. destruct (decide (a = t)) as [->|D]; [rewrite lookup_insert_eq in Ha; congruence|].
    rewrite lookup_insert_ne in Ha by done. eauto.
  - intros a Ha. destruct (decide (a = t)) as [->|D]; [|rewrite lookup_insert_ne by done; auto].
    destruct (wf_task0 t Ha) as (y & Hy & _). congruence.
Qed.

Lemma sleep_begin_ok s l p t timeout : wf s l -> nx s !! t = None -> t <> 0 -> t <> timer_head ->
  exists s1 l1, sleep_begin p t timeout s = Some s1 /\ wf s1 l1 /\ (forall a, a ∈ l1 <-> a = t \/ a ∈ l) /\
    timers s1 !! t = Some (mktimer (s32 (timeout + jiffies s)) p Process_timeout) /\
    jiffies s1 = jiffies s /\ tasks s1 = tasks s /\ log s1 = log s.
Proof.
  intros W Hn Ht0 Hth. unfold sleep_begin. destruct (wf_fresh s l t (mktimer timeout p Process_timeout) W Hn Ht0 Hth eq_refl) as [W' Htl].
  edestruct (add_timer_ok _ _ t (mktimer timeout p Process_timeout) W') as (s1 & E & W1 & Em & Ej & Et & El);
    [cbn; by rewrite lookup_insert_eq|done|].
  eexists s1, _. split_and!; [exact E|exact W1| | |exact Ej|exact Et|exact El].
  - intros a. by rewrite elem_of_ins.
  - rewrite Em. by rewrite lookup_insert_eq.
Qed.

(** The rest of a sleep: the bottom half at [j], and the end. *)
Lemma sleep_rest s1 l1 p t ex j : wf s1 l1 -> t ∈ l1 -> timers s1 !! t = Some (mktimer ex p Process_timeout) ->
  intervals_ok (set_jiffies j s1) ->
  exists fuel s2 s3 es, run_timer_list fuel (set_jiffies j s1) = Some s2 /\ log s2 = log s1 ++ es /\
    (ex <= j -> Wake p ∈ es) /\ timer_in_list t s2 = Some (bool_decide (j < ex)) /\
    sleep_end t s2 = Some (remaining (mktimer ex p Process_timeout) j, s3).
Proof.
  intros W Ht Hx I. pose proof (wf_jiffies j _ _ W) as Wj.
  destruct (run_rounds _ _ _ Wj I eq_refl) as (s2 & l2 & es & R & W2 & Ej & _ & El & Em & Hm & Hl & Hk & Hd).
  cbn [jiffies timers set_jiffies log] in *. pose proof (wf_order _ _ W) as So. rewrite due_filter in * by done.
  assert (Hr : rearms (set_jiffies j s1) t = false) by (unfold rearms; cbn; by rewrite Hx).
  assert (Hdue : t ∈ filter (fun t => expiry (timers s1) t <= j) l1 <-> ex <= j).
  { rewrite list_elem_of_filter. unfold expiry. rewrite Hx. cbn. tauto. }
  assert (Hin : t ∈ l2 <-> j < ex).
  { rewrite Hm, Hdue, Hr. split; [|intros; split; [done|lia]]. intros [_ H]. destruct (Z.le_gt_cases ex j); [by specialize (H ltac:(done))|lia]. }
  assert (H2 : exists x2, timers s2 !! t = Some x2 /\ remaining (mktimer ex p Process_timeout) j =
      if decide (t ∈ l2) then remaining x2 j else expires x2).
  { destruct (decide (ex <= j)) as [C|C].
    - eexists. split; [apply Hd; [by apply Hdue|done|done]|]. cbn. rewrite decide_False; [done|rewrite Hin; lia].
    - eexists. split; [rewrite Hk; [exact Hx|by rewrite Hdue]|]. rewrite decide_True; [done|apply Hin; lia]. }
  destruct H2 as (x2 & Hx2 & Hrem). destruct (del_moves _ _ _ _ W2 Hx2) as (s3 & l3 & E & _ & _ & Ex).
  eexists _, s2, _, es. split_and!; [exact R|done| | |].
  - intros C. apply Hdue in C. apply (list_elem_of_fmap_2 (fires (timers s1))) in C. unfold fmap in C.
    change (list_fmap _ _ (fires (timers s1))) with (map (fires (timers s1))) in C. rewrite <- Em in C.
    apply list_elem_of_fmap in C as (e & He & Hin'). unfold fires in He. rewrite Hx in He. cbn in He. by injection He as ->.
  - destruct (decide (t ∈ l2)) as [D|D].
    + destruct (wf_pending _ _ _ W2 D) as (n & Hn & Hn0). unfold timer_in_list. rewrite Hn. cbn.
      rewrite bool_decide_eq_true_2 by (by apply Hin). by destruct (Z.eqb_spec n 0).
    + rewrite bool_decide_eq_false_2 by (by rewrite <- Hin).
      destruct (proj1 (wf_timers _ _ W2 t) ltac:(eauto)) as [Nth Hn].
      unfold timer_in_list. by rewrite (wf_idle _ _ W2 _ Nth D Hn).
  - unfold sleep_end. rewrite E. cbn [mbind option_bind]. rewrite Ex. cbn [mbind option_bind expires].
    rewrite Ej. by rewrite Hrem.
Qed.

(** The jiffies that a request asks for, rounded up, and one more. *)
Definition sleep_jiffies (r : timespec) : Z :=
  HZ * ts_sec r + (ts_nsec r + 9999999) / 10000000 + Z.b2z (negb (ts_sec r =? 0) || negb (ts_nsec r =? 0)).

Lemma nanosleep_timeout_ok r : 0 <= ts_sec r < MAX_JIFFY_OFFSET / HZ -> 0 <= ts_nsec r < 1000000000 ->
  nanosleep_timeout r = inr (sleep_jiffies r) /\ 0 <= sleep_jiffies r < 2 ^ 31.
Proof.
  change (MAX_JIFFY_OFFSET / HZ) with 21474836. intros Hs Hn. unfold nanosleep_timeout, sleep_jiffies, timespec_to_jiffies, HZ in *.
  pose proof (Z.div_pos (ts_nsec r + 9999999) 10000000 ltac:(lia) ltac:(lia)).
  assert ((ts_nsec r + 9999999) / 10000000 < 101) by (apply Z.div_lt_upper_bound; lia).
  set (b := Z.b2z _) in *. assert (0 <= b <= 1) by (subst b; destruct (_ || _); cbn; lia).
  destruct (Z.geb_spec (ts_nsec r) 1000000000); [lia|]. destruct (Z.ltb_spec (ts_nsec r) 0); [lia|].
  destruct (Z.ltb_spec (ts_sec r) 0); [lia|]. cbn [orb].
  rewrite (u32_small (ts_sec r)) by lia. unfold MAX_JIFFY_OFFSET.
  change ((2 ^ 31 - 2) / 100) with 21474836. change (1000000000 / 100) with 10000000.
  destruct (Z.geb_spec (ts_sec r) 21474836) as [C|C].
  - lia.
  - rewrite s32_small by lia. rewrite Z.quot_div_nonneg by lia. replace (ts_nsec r + 10000000 - 1) with (ts_nsec r + 9999999) by lia.
    rewrite (u32_small (100 * _ + _)) by lia. rewrite u32_small by lia. split; [done|lia].
Qed.

(** a sleep of a valid request, from now until the bottom half of the tick
    [j], with nothing else happening to its timer: before the time that was asked
    for, rounded up to jiffies and one more, the task is not woken, and a signal
    that ends the sleep then gives [-EINTR] and the time that is left; from
    there on it is woken, and the call gives 0. *)
Theorem nanosleep_exact s l p t r j : wf s l -> nx s !! t = None -> t <> 0 -> t <> timer_head ->
  0 <= ts_sec r < MAX_JIFFY_OFFSET / HZ -> 0 <= ts_nsec r < 1000000000 -> sleep_jiffies r + jiffies s < 2 ^ 31 ->
  0 <= jiffies s <= j -> intervals_ok (set_jiffies j s) ->
  let n := sleep_jiffies r in let k := j - jiffies s in
  exists s1 fuel s2 s3 es e, nanosleep_timeout r = inr n /\ sleep_begin p t n s = Some s1 /\
    run_timer_list fuel (set_jiffies j s1) = Some s2 /\ log s2 = log s ++ es /\
    timer_in_list t s2 = Some (bool_decide (k < n)) /\ (n <= k -> Wake p ∈ es) /\
    sleep_end t s2 = Some (e, s3) /\
    nanosleep_result e = if decide (n <= k) then (0, None) else (- EINTR, Some (jiffies_to_timespec (n - k))).
Proof.
  intros W Hn Ht0 Hth Hs Hns Hb Hj I n k. destruct (nanosleep_timeout_ok r Hs Hns) as [-> Hr]. fold n in Hr, Hb.
  destruct (sleep_begin_ok s l p t n W Hn Ht0 Hth) as (s1 & l1 & -> & W1 & Hin & Hx & Ej & Et & El).
  rewrite s32_small in Hx by lia.
  assert (I1 : intervals_ok (set_jiffies j s1)).
  { destruct I as [I1 I2]. split; [done|]. cbn in *. by rewrite Et. }
  destruct (sleep_rest s1 l1 p t _ j W1 ltac:(by apply Hin; left) Hx I1) as (fuel & s2 & s3 & es & R & El2 & Hw & Hl & He).
  destruct I as [[I _] _]. cbn in I. destruct I1 as [[_ I1] _]. cbn in I1.
  eexists s1, fuel, s2, s3, es, _. split_and!; [done|done|exact R|congruence| | |exact He|].
  - rewrite Hl. do 2 f_equal. apply bool_decide_ext. subst k. lia.
  - intros. apply Hw. subst k. lia.
  - unfold remaining. cbn [expires]. rewrite s32_small by lia. unfold nanosleep_result. subst k. destruct (decide (n <= j - jiffies s)).
    + rewrite Z.max_l by lia. done.
    + rewrite Z.max_r by lia. rewrite u32_small by lia. destruct (Z.eqb_spec (n + jiffies s - j) 0); [lia|].
      do 3 f_equal. lia.
Qed.

(** The longest request: the timer expires before it starts, the task is woken
    by the next bottom half, at the same tick, and the call gives [-EINTR]. *)
Lemma nanosleep_too_long s l p t r : wf s l -> nx s !! t = None -> t <> 0 -> t <> timer_head ->
  MAX_JIFFY_OFFSET / HZ <= ts_sec r < 2 ^ 31 -> 0 <= ts_nsec r < 1000000000 -> 0 < jiffies s -> intervals_ok s ->
  exists n s1 fuel s2 s3 es e, nanosleep_timeout r = inr n /\ sleep_begin p t n s = Some s1 /\
    run_timer_list fuel s1 = Some s2 /\ log s2 = log s ++ es /\ Wake p ∈ es /\
    sleep_end t s2 = Some (e, s3) /\ (nanosleep_result e).1 = - EINTR.
Proof.
  intros W Hn Ht0 Hth Hs Hns Hj I. change (MAX_JIFFY_OFFSET / HZ) with 21474836 in Hs.
  assert (nanosleep_timeout r = inr (2 ^ 31 - 1)) as ->.
  { unfold nanosleep_timeout, timespec_to_jiffies. change (MAX_JIFFY_OFFSET / HZ) with 21474836.
    destruct (Z.geb_spec (ts_nsec r) 1000000000); [lia|]. destruct (Z.ltb_spec (ts_nsec r) 0); [lia|].
    destruct (Z.ltb_spec (ts_sec r) 0); [lia|]. cbn [orb]. rewrite (u32_small (ts_sec r)) by lia.
    destruct (Z.geb_spec (ts_sec r) 21474836); [|lia]. destruct (Z.eqb_spec (ts_sec r) 0); [lia|]. done. }
  destruct (sleep_begin_ok s l p t (2 ^ 31 - 1) W Hn Ht0 Hth) as (s1 & l1 & E & W1 & Hin & Hx & Ej & Et & El).
  pose proof I as [[I1 I1'] I2].
  assert (Hw : s32 (2 ^ 31 - 1 + jiffies s) = jiffies s - 1 - 2 ^ 31).
  { unfold s32. replace (2 ^ 31 - 1 + jiffies s + 2 ^ 31) with ((jiffies s - 1) + 1 * 2 ^ 32) by lia.
    rewrite Z.mod_add, Z.mod_small by lia. lia. }
  rewrite Hw in Hx.
  assert (Es1 : set_jiffies (jiffies s) s1 = s1) by (rewrite <- Ej; by destruct s1).
  destruct (sleep_rest s1 l1 p t _ (jiffies s) W1 ltac:(by apply Hin; left) Hx) as (fuel & s2 & s3 & es & R & El2 & Hwk & _ & He).
  { split; [done|]. cbn. by rewrite Et. }
  rewrite Es1 in R. eexists _, s1, fuel, s2, s3, es, _. split_and!; [done|exact E|exact R|congruence|apply Hwk; lia|exact He|].
  unfold remaining. cbn [expires].
  replace (jiffies s - 1 - 2 ^ 31 - jiffies s) with (- 2 ^ 31 - 1) by lia. done.
Qed.

(** A task whose real timer is the first that is pending is freed: the next
    bottom half reads memory that is gone. *)
Lemma freed_timer_is_read s p l n : wf s (p :: l) -> run_timer_list n (free_task_struct p s) = None.
Proof.
  intros W. destruct n as [|n]; [done|]. cbn [run_timer_list]. unfold free_task_struct. cbn.
  pose proof (wf_nodup _ _ W) as N. apply NoDup_cons in N as [N _].
  rewrite lookup_delete_ne by set_solver. rewrite (wf_first _ _ W). cbn [hd mbind option_bind].
  destruct (Z.eqb_spec p timer_head); [set_solver|]. by rewrite lookup_delete_eq.
Qed.

(** ** Concrete states *)

(** A task at 100 whose alarm goes off again every 10 ticks, and a sleeper whose
    timer is at 200; the two are pending or not. *)
Definition wit (pending : bool) : st :=
  mkst 50
    (if pending then {[1 := 100; 100 := 200; 200 := 1]} else {[1 := 1; 100 := 0; 200 := 0]})
    (if pending then {[1 := 200; 100 := 1; 200 := 100]} else {[1 := 1; 100 := 0; 200 := 0]})
    {[100 := mktimer 40 100 It_real; 200 := mktimer 45 300 Process_timeout]}
    {[100 := mkit 0 0 0 10 0 0]} [].

Definition wit_l (pending : bool) : list Z := if pending then [100; 200] else [].

Lemma wit_keys {A} (x y z : A) (t : Z) :
  ({[1 := x; 100 := y; 200 := z]} : gmap Z A) !! t =
    if decide (t = 1) then Some x else if decide (t = 100) then Some y else if decide (t = 200) then Some z else None.
Proof.
  repeat case_decide; subst; [done..|]. by rewrite !lookup_insert_ne, lookup_singleton_ne by done.
Qed.

Lemma wit_timers pending t : timers (wit pending) !! t =
  if decide (t = 100) then Some (mktimer 40 100 It_real) else
  if decide (t = 200) then Some (mktimer 45 300 Process_timeout) else None.
Proof.
  cbn. repeat case_decide; subst; [done..|]. by rewrite !lookup_insert_ne, lookup_singleton_ne by done.
Qed.

Lemma wit_tasks pending t : tasks (wit pending) !! t = if decide (t = 100) then Some (mkit 0 0 0 10 0 0) else None.
Proof. cbn. case_decide; subst; [done|]. by rewrite lookup_singleton_ne. Qed.

Lemma wit_links pending t :
  nx (wit pending) !! t =
    (if decide (t = 1) then Some (if pending then 100 else 1) else if decide (t = 100) then Some (if pending then 200 else 0) else
     if decide (t = 200) then Some (if pending then 1 else 0) else None) /\
  pv (wit pending) !! t =
    (if decide (t = 1) then Some (if pending then 200 else 1) else if decide (t = 100) then Some (if pending then 1 else 0) else
     if decide (t = 200) then Some (if pending then 100 else 0) else None).
Proof. destruct pending; cbn [nx pv wit]; by rewrite !wit_keys. Qed.

Ltac wit_cases := repeat case_decide; subst; try done; try (split; intros; first [done|by eexists|naive_solver]).

Lemma wit_wf pending : wf (wit pending) (wit_l pending).
Proof.
  constructor.
  - destruct pending; repeat split.
  - apply (bool_decide_unpack _). by destruct pending.
  - by destruct pending.
  - intros t. rewrite wit_timers, (proj1 (wit_links _ _)). unfold timer_head. wit_cases.
  - intros t. destruct (wit_links pending t) as [-> ->]. wit_cases.
  - intros t Ht Hl. rewrite (proj1 (wit_links _ _)). unfold timer_head in Ht.
    destruct pending; wit_cases; first [by intros [? ?]|destruct Hl; unfold wit_l; set_solver].
  - destruct pending; repeat constructor. done.
  - intros t x. rewrite wit_timers, wit_tasks. repeat case_decide; subst; intros [= <-]; try done; eauto.
  - intros t. rewrite wit_timers, wit_tasks. repeat case_decide; subst; intros [? ?]; try done; eauto.
Qed.

Lemma wit_intervals pending : intervals_ok (wit pending).
Proof.
  split; [done|]. intros t k. rewrite wit_tasks. case_decide; [|done]. by intros [= <-].
Qed.

Lemma timer_queue_refines_witness :
  exists s', add_timer 200 (wit false) = Some s' /\ wf s' [200] /\ expiry (timers s') 200 = 95.
Proof.
  destruct (timer_queue_refines _ _ 200 (mktimer 45 300 Process_timeout) (wit_wf false) eq_refl) as [_ H].
  destruct H as (s' & E & W & X & _); [apply (bool_decide_unpack _); vm_compute; exact I|].
  exists s'. exact (conj E (conj W X)).
Defined.


Lemma sys_alarm_replaces_witness :
  exists s' l' k', sys_alarm 100 3 (wit true) = Some (left_of (wit true) [100; 200] 100 / HZ, s') /\ wf s' l' /\
    (100 ∈ l' <-> 3 <> 0) /\ (3 <> 0 -> expiry (timers s') 100 = 50 + HZ * 3) /\
    tasks s' !! 100 = Some k' /\ it_real_incr k' = 0 /\
    (forall t, t <> 100 -> (t ∈ l' <-> t ∈ [100; 200]) /\ timers s' !! t = timers (wit true) !! t /\ tasks s' !! t = tasks (wit true) !! t).
Proof.
  apply (sys_alarm_replaces (wit true) [100; 200] 100 (mkit 0 0 0 10 0 0) 3 (wit_wf true));
    [reflexivity|discriminate|discriminate|reflexivity].
Defined.

Lemma negative_interval_never_ends_witness :
  exists old s', sys_setitimer 100 ITIMER_REAL (Some (mkitv (mktv (-1) 0) (mktv 0 1))) true (wit false) = Some ((0, old), s') /\
    forall n, run_timer_list n (set_jiffies (jiffies (wit false) + 1) s') = None.
Proof.
  apply (negative_interval_never_ends (wit false) 100 (mkit 0 0 0 10 0 0) (wit_wf false)); [reflexivity|].
  split; [discriminate|reflexivity].
Defined.

Lemma forked_child_stops_alarm_witness :
  exists s1 s2, fork_timers 100 500 (wit true) = Some s1 /\ del_timer 500 s1 = Some (true, s2) /\
    timer_in_list 100 s2 = Some true /\ chain (nx s2) (pv s2) [timer_head; 200; timer_head].
Proof.
  apply (forked_child_stops_alarm (wit true) [100; 200] 100 500 (wit_wf true));
    [left|eexists; reflexivity|reflexivity|discriminate].
Defined.

(** A timer of 20 ms, and 10 ms from then on, for 10 ticks in user mode. *)
Lemma itimer_signals_witness :
  exists s1 a' s', _setitimer 100 ITIMER_VIRTUAL (mkitv (mktv 0 10000) (mktv 0 20000)) false (wit false) = Some ((0, None), s1) /\
    ticks 10 100 true (mkacct 0 0 5 false false) s1 = Some (a', s') /\
    signals SIGVTALRM 100 (log s') = signals SIGVTALRM 100 (log (wit false)) + rounds 3 1 10.
Proof.
  apply (itimer_signals 10 100 ITIMER_VIRTUAL (mkitv (mktv 0 10000) (mktv 0 20000)) true (mkacct 0 0 5 false false) (wit false)
    (mkit 0 0 0 10 0 0) 2 1); try reflexivity; [right; reflexivity|..];
    (split; [discriminate|reflexivity]) || (split; reflexivity) || discriminate.
Defined.

(** A sleep of 25 ms, at its second tick. *)
Lemma nanosleep_exact_witness :
  exists s1 fuel s2 s3 es e, nanosleep_timeout (mkts 0 25000000) = inr 4 /\ sleep_begin 300 600 4 (wit false) = Some s1 /\
    run_timer_list fuel (set_jiffies 52 s1) = Some s2 /\ log s2 = [] ++ es /\ timer_in_list 600 s2 = Some true /\
    (4 <= 2 -> Wake 300 ∈ es) /\ sleep_end 600 s2 = Some (e, s3) /\
    nanosleep_result e = (- EINTR, Some (mkts 0 20000000)).
Proof.
  apply (nanosleep_exact (wit false) [] 300 600 (mkts 0 25000000) 52 (wit_wf false)); try reflexivity; try discriminate;
    [split; [discriminate|reflexivity]..|split; discriminate|].
  split; [split; [discriminate|reflexivity]|]. intros t k.
  change (tasks (set_jiffies 52 (wit false))) with (tasks (wit false)). rewrite wit_tasks. case_decide; [|discriminate].
  intros [= <-]. split; [discriminate|reflexivity].
Defined.

End Timer.
