(* ===== verification/Clock.v ===== *)
(** * The clock ([kernel/time.c])

    The date of the CMOS clock as seconds, and what the calls make of the ticks
    since boot.  The CMOS clock is an argument: the [n]-th read gives, for the
    number of a register, its byte. *)
From S2P Require Import Prelude.

Module Clock.

Definition HZ : Z := 100.

(** [time_t] is [long long]. *)
Definition s64 (x : Z) : Z := (x + 2 ^ 63) mod 2 ^ 64 - 2 ^ 63.

(** ** From the CMOS clock *)

Definition RTC_SECONDS : Z := 0.
Definition RTC_MINUTES : Z := 2.
Definition RTC_HOURS : Z := 4.
Definition RTC_DAY_OF_MONTH : Z := 7.
Definition RTC_MONTH : Z := 8.
Definition RTC_YEAR : Z := 9.

Definition BCD_TO_BIN (val : Z) : Z := u32 (Z.land val 15 + u32 (Z.shiftr val 4 * 10)).

Definition mktime (year mon day hour min sec : Z) : Z :=
  let mon := u32 (mon - 2) in
  let '(year, mon) := if 0 >=? s32 mon then (u32 (year - 1), u32 (mon + 12)) else (year, mon) in
  let days := u32 (year / 4 - year / 100 + year / 400 + u32 (367 * mon) / 12 + day) in
  s64 (((s64 (days + u32 (year * 365) - 719499) * 24 + hour) * 60 + min) * 60 + sec).

(** The loop reads until the seconds have not changed meanwhile; [n] reads have
    been made. *)
Fixpoint read_cmos (fuel n : nat) (cmos : nat -> Z -> Z) : option (Z * Z * Z * Z * Z * Z) :=
  match fuel with
  | O => None
  | S fuel =>
    let sec := cmos n RTC_SECONDS in
    if sec =? cmos (n + 6)%nat RTC_SECONDS then
      Some (cmos (n + 5)%nat RTC_YEAR, cmos (n + 4)%nat RTC_MONTH, cmos (n + 3)%nat RTC_DAY_OF_MONTH,
            cmos (n + 2)%nat RTC_HOURS, cmos (n + 1)%nat RTC_MINUTES, sec)
    else read_cmos fuel (n + 7)%nat cmos
  end.

Definition get_cmos_time (fuel : nat) (cmos : nat -> Z -> Z) : option Z :=
  '(year, mon, day, hour, min, sec) ← read_cmos fuel 0 cmos;
  let year := u32 (BCD_TO_BIN year + 1900) in
  let year := if year <? 1970 then u32 (year + 100) else year in
  Some (mktime year (BCD_TO_BIN mon) (BCD_TO_BIN day) (BCD_TO_BIN hour) (BCD_TO_BIN min) (BCD_TO_BIN sec)).

(** ** The calls *)

(** Seconds and microseconds, both stored in 32 bits. *)
Definition sys_gettimeofday_time32 (boot_time_sec jiffies : Z) : Z * Z :=
  (s32 (boot_time_sec + Z.quot jiffies HZ), Z.quot (s32 (Z.rem jiffies HZ * 1000000)) HZ).

Definition CLOCK_REALTIME : Z := 0.
Definition CLOCK_MONOTONIC : Z := 1.
Definition CLOCK_MONOTONIC_RAW : Z := 4.
Definition CLOCK_REALTIME_COARSE : Z := 5.
Definition CLOCK_MONOTONIC_COARSE : Z := 6.
Definition CLOCK_BOOTTIME : Z := 7.
Definition CLOCK_REALTIME_ALARM : Z := 8.
Definition CLOCK_BOOTTIME_ALARM : Z := 9.

(** An error, or seconds and nanoseconds. *)
Definition do_clock_gettime64 (boot_time_sec jiffies clockid : Z) : Z + Z * Z :=
  let tv_sec := Z.quot jiffies HZ in
  let tv_nsec := Z.quot (s32 (Z.rem jiffies HZ * 1000000000)) HZ in
  if (clockid =? CLOCK_REALTIME) || (clockid =? CLOCK_REALTIME_COARSE) || (clockid =? CLOCK_REALTIME_ALARM)
  then inr (s64 (tv_sec + boot_time_sec), tv_nsec)
  else if (clockid =? CLOCK_MONOTONIC) || (clockid =? CLOCK_MONOTONIC_RAW) || (clockid =? CLOCK_MONOTONIC_COARSE) ||
          (clockid =? CLOCK_BOOTTIME) || (clockid =? CLOCK_BOOTTIME_ALARM)
  then inr (tv_sec, tv_nsec)
  else inl (- EINVAL).

Definition current_time (boot_time_sec jiffies : Z) : Z :=
  match do_clock_gettime64 boot_time_sec jiffies CLOCK_REALTIME with inr (sec, _) => u64 sec | inl _ => 0 end.

(** What the two calls store for the user, once the memory is checked. *)
Definition sys_clock_gettime64 (boot_time_sec jiffies clockid : Z) : Z + Z * Z := do_clock_gettime64 boot_time_sec jiffies clockid.
Definition sys_clock_gettime32 (boot_time_sec jiffies clockid : Z) : Z + Z * Z :=
  match do_clock_gettime64 boot_time_sec jiffies clockid with
  | inl e => inl e
  | inr (sec, nsec) => inr (s32 sec, s32 nsec)
  end.

(** ** Counting days *)

Definition leap (y : Z) : bool := (y mod 4 =? 0) && (negb (y mod 100 =? 0) || (y mod 400 =? 0)).
Definition year_days (y : Z) : Z := if leap y then 366 else 365.
Definition month_days (y m : Z) : Z :=
  if m =? 2 then (if leap y then 29 else 28) else if (m =? 4) || (m =? 6) || (m =? 9) || (m =? 11) then 30 else 31.

(** The days of the [n] years from 1970, and of the [n] months of a year. *)
Fixpoint days_of_years (n : nat) : Z :=
  match n with O => 0 | S n => days_of_years n + year_days (1970 + Z.of_nat n) end.
Fixpoint days_of_months (y : Z) (n : nat) : Z :=
  match n with O => 0 | S n => days_of_months y n + month_days y (Z.of_nat n + 1) end.

(** The days from 1970-01-01 to a date. *)
Definition days (y m d : Z) : Z := days_of_years (Z.to_nat (y - 1970)) + days_of_months y (Z.to_nat (m - 1)) + (d - 1).

(** Gauss: days before a year. *)
Lemma days_of_years_closed n : let y := 1970 + Z.of_nat n in
  days_of_years n = 365 * y + (y - 1) / 4 - (y - 1) / 100 + (y - 1) / 400 - 719527.
Proof.
  induction n as [|n IH]; [done|]. cbn zeta in *. cbn [days_of_years]. rewrite IH. unfold year_days, leap.
  replace (1970 + Z.of_nat (S n) - 1) with (1970 + Z.of_nat n) by lia. rewrite Nat2Z.inj_succ.
  set (y := 1970 + Z.of_nat n). assert (1970 <= y) by lia.
  destruct (Z.eqb_spec (y mod 4) 0), (Z.eqb_spec (y mod 100) 0), (Z.eqb_spec (y mod 400) 0); cbn [andb orb negb];
    Z.to_euclidean_division_equations; lia.
Qed.

Lemma leap_closed y : 1970 <= y ->
  y / 4 - y / 100 + y / 400 = (y - 1) / 4 - (y - 1) / 100 + (y - 1) / 400 + Z.b2z (leap y).
Proof.
  intros H. unfold leap.
  destruct (Z.eqb_spec (y mod 4) 0), (Z.eqb_spec (y mod 100) 0), (Z.eqb_spec (y mod 400) 0); cbn [andb orb negb Z.b2z];
    Z.to_euclidean_division_equations; lia.
Qed.

Lemma days_closed y m d : 1970 <= y ->
  days y m d = 365 * y + (y - 1) / 4 - (y - 1) / 100 + (y - 1) / 400 - 719528 + d + days_of_months y (Z.to_nat (m - 1)).
Proof.
  intros H. unfold days. rewrite days_of_years_closed, Z2Nat.id by lia. replace (1970 + (y - 1970)) with y by lia. lia.
Qed.

(** The months of a year that begins in March. *)
Lemma months_closed y m : 1 <= m <= 12 ->
  days_of_months y (Z.to_nat (m - 1)) =
    if m <=? 2 then 367 * (m + 10) / 12 - 336 else 367 * (m - 2) / 12 + 29 + Z.b2z (leap y).
Proof.
  intros H. assert (m = 1 \/ m = 2 \/ m = 3 \/ m = 4 \/ m = 5 \/ m = 6 \/ m = 7 \/ m = 8 \/ m = 9 \/ m = 10 \/ m = 11 \/ m = 12) as C by lia.
  repeat destruct C as [->|C]; [..|rewrite C];
    match goal with |- context [Z.to_nat ?x] => let n := eval vm_compute in (Z.to_nat x) in change (Z.to_nat x) with n end;
    cbn [days_of_months]; unfold month_days; generalize (leap y); intros []; reflexivity.
Qed.

Lemma gauss_range y m d : 1969 <= y < 11000000 -> 1 <= m <= 12 -> 1 <= d <= 31 ->
  0 <= y / 4 - y / 100 + y / 400 + 367 * m / 12 + d < 2 ^ 32.
Proof. intros. Z.to_euclidean_division_equations. lia. Qed.

Lemma mktime_counts year mon day hour min sec :
  1970 <= year < 11000000 -> 1 <= mon <= 12 -> 1 <= day <= 31 ->
  0 <= hour < 24 -> 0 <= min < 60 -> 0 <= sec < 60 ->
  mktime year mon day hour min sec = ((days year mon day * 24 + hour) * 60 + min) * 60 + sec.
Proof.
  intros Hy Hm Hd Hh Hmi Hs. rewrite days_closed, months_closed by lia. unfold mktime.
  assert (S64 : forall x, - 2 ^ 63 <= x < 2 ^ 63 -> s64 x = x) by (intros x ?; unfold s64; rewrite Z.mod_small; lia).
  assert (HL : 0 <= Z.b2z (leap year) <= 1) by (destruct (leap year); cbn; lia).
  pose proof (leap_closed year ltac:(lia)) as L.
  destruct (Z.leb_spec mon 2) as [C|C].
  - assert (E : (0 >=? s32 (u32 (mon - 2))) = true).
    { assert (mon = 1 \/ mon = 2) as [-> | ->] by lia; done. }
    rewrite E. assert (u32 (u32 (mon - 2) + 12) = mon + 10) as ->.
    { assert (mon = 1 \/ mon = 2) as [-> | ->] by lia; done. }
    rewrite (u32_small (year - 1)) by lia. rewrite (u32_small (367 * _)), (u32_small ((year - 1) * 365)) by lia.
    pose proof (gauss_range (year - 1) (mon + 10) day ltac:(lia) ltac:(lia) ltac:(lia)) as G.
    rewrite (u32_small (_ + day)) by lia.
    rewrite (S64 (_ - 719499)) by lia. rewrite S64 by lia. lia.
  - assert (Hm2 : u32 (mon - 2) = mon - 2) by (apply u32_small; lia).
    assert (E : (0 >=? s32 (u32 (mon - 2))) = false).
    { rewrite Hm2, s32_small by lia. lia. }
    rewrite E, Hm2. rewrite (u32_small (367 * _)), (u32_small (year * 365)) by lia.
    pose proof (gauss_range year (mon - 2) day ltac:(lia) ltac:(lia) ltac:(lia)) as G.
    rewrite (u32_small (_ + day)) by lia.
    rewrite (S64 (_ - 719499)) by lia. rewrite S64 by lia. lia.
Qed.

(** The byte that a CMOS clock in BCD has for a number. *)
Definition bcd (x : Z) : Z := x / 10 * 16 + x mod 10.

Lemma bcd_to_bin x : 0 <= x < 100 -> BCD_TO_BIN (bcd x) = x.
Proof.
  intros H. unfold BCD_TO_BIN, bcd. change 15 with (Z.ones 4). rewrite Z.land_ones, Z.shiftr_div_pow2 by lia.
  pose proof (Z.div_mod x 10 ltac:(lia)). pose proof (Z.mod_pos_bound x 10 ltac:(lia)).
  assert (0 <= x / 10 < 10) by (split; [apply Z.div_pos|apply Z.div_lt_upper_bound]; lia).
  replace (x / 10 * 16 + x mod 10) with (x mod 10 + x / 10 * 2 ^ 4) by lia.
  rewrite Z.mod_add, Z.div_add by lia. rewrite Z.mod_small, Z.div_small by lia.
  rewrite (u32_small (_ * 10)), u32_small by lia. lia.
Qed.

(** for a clock that shows, in BCD with two digits for the year, a moment
    of 1970 to 2069 and that does not tick meanwhile, [get_cmos_time] gives the
    seconds from the beginning of 1970 to that moment, leap years as the
    Gregorian calendar has them; a clock that ticks is read again. *)
Theorem get_cmos_time_counts year mon day hour min sec cmos fuel :
  1970 <= year < 2070 -> 1 <= mon <= 12 -> 1 <= day <= 31 ->
  0 <= hour < 24 -> 0 <= min < 60 -> 0 <= sec < 60 ->
  (forall n, cmos n RTC_YEAR = bcd (year mod 100) /\ cmos n RTC_MONTH = bcd mon /\ cmos n RTC_DAY_OF_MONTH = bcd day /\
     cmos n RTC_HOURS = bcd hour /\ cmos n RTC_MINUTES = bcd min /\ cmos n RTC_SECONDS = bcd sec) ->
  get_cmos_time (S fuel) cmos = Some (((days year mon day * 24 + hour) * 60 + min) * 60 + sec) /\
  (forall first, first 0%nat RTC_SECONDS <> first 6%nat RTC_SECONDS -> (forall n, first (n + 7)%nat = cmos n) ->
     get_cmos_time (S (S fuel)) first = Some (((days year mon day * 24 + hour) * 60 + min) * 60 + sec)).
Proof.
  intros Hy Hm Hd Hh Hmi Hs Hc.
  assert (R : forall f k c, (forall n, c (n + k)%nat = cmos n) -> read_cmos (S f) k c =
      Some (bcd (year mod 100), bcd mon, bcd day, bcd hour, bcd min, bcd sec)).
  { intros f k c E. cbn [read_cmos].
    rewrite (Nat.add_comm k 6), (Nat.add_comm k 5), (Nat.add_comm k 4), (Nat.add_comm k 3), (Nat.add_comm k 2), (Nat.add_comm k 1).
    change (c k) with (c (0 + k)%nat). rewrite !E. destruct (Hc 0%nat) as (_ & _ & _ & _ & _ & ->).
    destruct (Hc 1%nat) as (_ & _ & _ & _ & -> & _). destruct (Hc 2%nat) as (_ & _ & _ & -> & _).
    destruct (Hc 3%nat) as (_ & _ & -> & _). destruct (Hc 4%nat) as (_ & -> & _). destruct (Hc 5%nat) as (-> & _).
    destruct (Hc 6%nat) as (_ & _ & _ & _ & _ & ->). by rewrite Z.eqb_refl. }
  assert (Y : forall b, (let y := u32 (BCD_TO_BIN (bcd (year mod 100)) + 1900) in
      b = if y <? 1970 then u32 (y + 100) else y) -> b = year).
  { intros b ->. pose proof (Z.mod_pos_bound year 100 ltac:(lia)). rewrite bcd_to_bin by lia.
    rewrite u32_small by lia. destruct (Z.ltb_spec (year mod 100 + 1900) 1970); rewrite ?u32_small by lia;
      Z.to_euclidean_division_equations; lia. }
  assert (G : forall c f, read_cmos f 0 c = Some (bcd (year mod 100), bcd mon, bcd day, bcd hour, bcd min, bcd sec) ->
      get_cmos_time f c = Some (((days year mon day * 24 + hour) * 60 + min) * 60 + sec)).
  { intros c f E. unfold get_cmos_time. rewrite E. cbn [mbind option_bind].
    rewrite (Y _ eq_refl), !bcd_to_bin by lia. by rewrite mktime_counts by lia. }
  split.
  - apply G, R. intros n. by rewrite Nat.add_0_r.
  - intros first Hf E. apply G. cbn [read_cmos Nat.add]. destruct (Z.eqb_spec (first 0%nat RTC_SECONDS) (first 6%nat RTC_SECONDS)); [done|].
    by apply R.
Qed.

(** The last but one minute of a leap day. *)
Definition wit_cmos (n : nat) (r : Z) : Z :=
  if r =? 9 then 36 else if r =? 8 then 2 else if r =? 7 then 41 else if r =? 4 then 35 else if r =? 2 then 89 else 1.

Lemma get_cmos_time_counts_witness : get_cmos_time 1 wit_cmos = Some (((days 2024 2 29 * 24 + 23) * 60 + 59) * 60 + 1).
Proof.
  apply (get_cmos_time_counts 2024 2 29 23 59 1 wit_cmos 0); [lia..|].
  intros n. repeat split.
Defined.

(** The nanoseconds of each remainder. *)
Lemma nsec_cases r : 0 <= r < 100 -> (Z.quot (s32 (r * 1000000000)) HZ = r * 10000000 <-> r <= 2).
Proof.
  intros H. assert (F : forallb (fun r => eqb (Z.quot (s32 (r * 1000000000)) HZ =? r * 10000000) (r <=? 2)) (seqZ 0 100) = true) by by vm_compute.
  rewrite forallb_forall in F. specialize (F r). rewrite <- list_elem_of_In, elem_of_seqZ in F.
  specialize (F ltac:(lia)). apply eqb_prop in F. rewrite <- Z.eqb_eq, F. apply Z.leb_le.
Qed.

(** of the clocks, the seconds are right and the nanoseconds are not: the
    product of the remaining ticks and a billion leaves [long], so that they are
    the right ones in the first three ticks of a second only, and negative in
    others, while the microseconds of [gettimeofday] are always right. *)
Theorem clock_nanoseconds j : 0 <= j < 2 ^ 31 ->
  exists ns, do_clock_gettime64 0 j CLOCK_MONOTONIC = inr (j / HZ, ns) /\
    (ns = (j mod HZ) * 10000000 <-> j mod HZ <= 2) /\ (j mod HZ = 3 -> ns < 0) /\
    sys_gettimeofday_time32 0 j = (j / HZ, (j mod HZ) * 10000).
Proof.
  intros Hj. unfold do_clock_gettime64, sys_gettimeofday_time32. rewrite Z.rem_mod_nonneg, Z.quot_div_nonneg by (unfold HZ; lia).
  assert (Hm : 0 <= j mod HZ < 100) by (apply Z.mod_pos_bound; done).
  eexists. split; [done|]. split_and!; [by apply nsec_cases|by intros ->|].
  assert (0 <= j / HZ < 2 ^ 31) by (split; [apply Z.div_pos|apply Z.div_lt_upper_bound]; unfold HZ; lia).
  rewrite !s32_small by lia. f_equal. unfold HZ. rewrite Z.quot_div_nonneg by (unfold HZ in *; lia).
  replace (j mod 100 * 1000000) with (j mod 100 * 10000 * 100) by lia. by rewrite Z.div_mul.
Qed.

Lemma clock_nanoseconds_witness :
  exists ns, do_clock_gettime64 0 103 CLOCK_MONOTONIC = inr (103 / HZ, ns) /\
    (ns = (103 mod HZ) * 10000000 <-> 103 mod HZ <= 2) /\ (103 mod HZ = 3 -> ns < 0) /\
    sys_gettimeofday_time32 0 103 = (103 / HZ, (103 mod HZ) * 10000).
Proof. apply (clock_nanoseconds 103). lia. Defined.

End Clock.
