(* ===== verification/Fat.v ===== *)
(** * FAT32: the table of clusters ([fs/fat/fat.c], [fs/fat/alloc.c])

    A mounted volume: the device as sectors, the constants of the boot sector,
    the four cached sectors of the first table, the allocation hint and the
    count of free clusters.  Operations are in the error monad of [Ext2], with
    its schedule of faults: a failed read leaves [torn] in the buffer, which for
    the table is the cache slot. *)
From Stdlib Require Import FunctionalExtensionality.
From S2P Require Import Prelude Ext2.
Import Ext2.

Module Fat.

Definition ENOSPC : Z := 28.
Definition FAT_EOC_MIN : Z := 0x0ffffff8.
Definition FAT_EOC_MAX : Z := 0x0fffffff.
Definition FAT_BAD_CLUSTER : Z := 0x0ffffff7.
Definition FAT_FSINFO_UNKNOWN : Z := 0xffffffff.
Definition FAT_ROOT_INO : Z := 1.
Definition FAT_ENTRY_SIZE : Z := 32.

(** Little-endian on disk; the same bytes as for ext2. *)
Definition fat_read16 (p : list Z) (off : Z) : Z := le16 p off.
Definition fat_read32 (p : list Z) (off : Z) : Z := le32 p off.
Definition fat_write16 (p : list Z) (off value : Z) : list Z :=
  memcpy_at p off [Z.land value 0xff; Z.land (Z.shiftr value 8) 0xff] 2.
Definition fat_write32 (p : list Z) (off value : Z) : list Z :=
  memcpy_at p off [Z.land value 0xff; Z.land (Z.shiftr value 8) 0xff;
                   Z.land (Z.shiftr value 16) 0xff; Z.land (Z.shiftr value 24) 0xff] 4.

(** ** State *)

(** The constants of [struct fat_sb_info]. *)
Record sb_info := mksbi {
  bytes_per_sector : Z; sectors_per_cluster : Z; num_fats : Z; reserved_sectors : Z; fat_size32 : Z;
  total_sectors : Z; root_cluster : Z; fsinfo_sector : Z; first_data_sector : Z; total_clusters : Z;
  cluster_size : Z; readonly : bool;
}.

(** A slot of the cache of table sectors. *)
Record slot := mkslot { c_valid : bool; c_sector : Z; c_age : Z; c_data : list Z }.

Record vol := mkvol {
  disk : Z -> list Z;
  sbi : sb_info;
  next_free : Z;
  free_clusters : Z;
  fat_cache : list slot;
  faults : list fault;
}.

Definition set_disk (d : Z -> list Z) (s : vol) : vol := mkvol d (sbi s) (next_free s) (free_clusters s) (fat_cache s) (faults s).
Definition set_next_free (n : Z) (s : vol) : vol := mkvol (disk s) (sbi s) n (free_clusters s) (fat_cache s) (faults s).
Definition set_free_clusters (n : Z) (s : vol) : vol := mkvol (disk s) (sbi s) (next_free s) n (fat_cache s) (faults s).
Definition set_cache (c : list slot) (s : vol) : vol := mkvol (disk s) (sbi s) (next_free s) (free_clusters s) c (faults s).
Definition set_faults (l : list fault) (s : vol) : vol := mkvol (disk s) (sbi s) (next_free s) (free_clusters s) (fat_cache s) l.

Definition F (A : Type) : Type := ST vol A.
Definition get : F vol := fun s => (Ok s, s).
Definition get_sb : F sb_info := fun s => (Ok (sbi s), s).

Definition next_fault (s : vol) : fault * vol :=
  match faults s with [] => (Fine, s) | f :: l => (f, set_faults l s) end.

Definition kmalloc : F unit := fun s =>
  match next_fault s with (Fine, s) => (Ok tt, s) | (Fails _ _, s) => (Er (- ENOMEM), s) end.
(** A read gives its error, if any, with what is in the buffer then. *)
Definition read_buf (sector nr : Z) : F (list Z * option Z) := fun s =>
  match next_fault s with
  | (Fine, s) => (Ok (read_sectors (disk s) sector nr, None), s)
  | (Fails e torn, s) => (Ok (torn, Some (Z.neg e)), s)
  end.
Definition blkdev_read (sector nr : Z) : F (list Z) :=
  r <~ read_buf sector nr ;; match r with (b, None) => ret b | (_, Some e) => fail e end.
Definition blkdev_write (sector nr : Z) (buf : list Z) : F unit := fun s =>
  match next_fault s with
  | (Fine, s) => (Ok tt, set_disk (write_sectors (disk s) sector nr buf) s)
  | (Fails e torn, s) => (Er (Z.neg e), set_disk (write_sectors (disk s) sector nr torn) s)
  end.

(** ** Clusters *)

Definition bad_cluster (i : sb_info) (cluster : Z) : bool := (cluster <? 2) || (u32 (cluster - 2) >=? total_clusters i).

Definition cluster_sector (i : sb_info) (cluster : Z) : Z :=
  u32 (first_data_sector i + u32 (u32 (cluster - 2) * sectors_per_cluster i)).

Definition fat_read_cluster (cluster : Z) : F (list Z) :=
  i <~ get_sb ;; if bad_cluster i cluster then fail (- EINVAL) else
  blkdev_read (cluster_sector i cluster) (sectors_per_cluster i).
Definition fat_write_cluster (cluster : Z) (buf : list Z) : F unit :=
  i <~ get_sb ;; if bad_cluster i cluster then fail (- EINVAL) else
  blkdev_write (cluster_sector i cluster) (sectors_per_cluster i) buf.

(** ** Entries of the table *)

(** The slot that holds a sector. *)
Fixpoint find_slot (sector : Z) (c : list slot) : option nat :=
  match c with
  | [] => None
  | x :: c => if c_valid x && (c_sector x =? sector) then Some 0%nat else n ← find_slot sector c; Some (S n)
  end.

(** The slot to replace: the first that is not in use, or the oldest. *)
Fixpoint victim_from (best : nat) (age : Z) (i : nat) (c : list slot) : nat :=
  match c with
  | [] => best
  | x :: c =>
    if negb (c_valid x) then i else
    if c_age x >? age then victim_from i (c_age x) (S i) c else victim_from best age (S i) c
  end.
Definition victim (c : list slot) : nat :=
  match c with [] => 0%nat | x :: _ => victim_from 0 (c_age x) 0 c end.

Definition set_data (b : list Z) (x : slot) : slot := mkslot (c_valid x) (c_sector x) (c_age x) b.
Definition load_slot (sector : Z) (b : list Z) (x : slot) : slot := mkslot true sector (c_age x) b.
Definition touch (used : nat) (c : list slot) : list slot :=
  imap (fun i x => if (i =? used)%nat then mkslot (c_valid x) (c_sector x) 0 (c_data x) else
                   if c_valid x then mkslot (c_valid x) (c_sector x) (s32 (c_age x + 1)) (c_data x) else x) c.

(** The slot that holds a sector, read from the device if need be. *)
Definition cached (sector : Z) : F nat :=
  s <~ get ;;
  match find_slot sector (fat_cache s) with
  | Some n => ret n
  | None =>
    let n := victim (fat_cache s) in
    r <~ read_buf sector 1 ;;
    match r with
    | (b, None) => modify (fun s => set_cache (alter (load_slot sector b) n (fat_cache s)) s) ;~ ret n
    | (b, Some e) => modify (fun s => set_cache (alter (set_data b) n (fat_cache s)) s) ;~ fail e
    end
  end.

Definition fat_read_fat_entry (cluster : Z) : F Z :=
  i <~ get_sb ;;
  if bad_cluster i cluster then fail (- EINVAL) else
  let sector := u32 (reserved_sectors i + u32 (cluster * 4) / bytes_per_sector i) in
  let offset := u32 (cluster * 4) mod bytes_per_sector i in
  n <~ cached sector ;;
  modify (fun s => set_cache (touch n (fat_cache s)) s) ;~
  s <~ get ;;
  ret (Z.land (fat_read32 (default [] (c_data <$> fat_cache s !! n)) offset) 0x0fffffff).

Definition update_slots (sector : Z) (b : list Z) (c : list slot) : list slot :=
  map (fun x => if c_valid x && (c_sector x =? sector) then set_data b x else x) c.

Fixpoint write_copies (fuel : nat) (k fat_sector offset value : Z) : F unit :=
  match fuel with
  | O => ret tt
  | S fuel =>
    i <~ get_sb ;;
    let sector := u32 (reserved_sectors i + u32 (k * fat_size32 i) + fat_sector) in
    b <~ blkdev_read sector 1 ;;
    let b := fat_write32 b offset value in
    blkdev_write sector 1 b ;~
    (if k =? 0 then modify (fun s => set_cache (update_slots sector b (fat_cache s)) s) else ret tt) ;~
    write_copies fuel (k + 1) fat_sector offset value
  end.

Definition bad_value (i : sb_info) (value : Z) : bool :=
  negb (value =? FAT_BAD_CLUSTER) && negb (value =? 0) && negb ((value >=? FAT_EOC_MIN) && (value <=? FAT_EOC_MAX)) &&
  (u32 (value - 2) >=? total_clusters i).

Definition fat_write_fat_entry (cluster value : Z) : F unit :=
  i <~ get_sb ;;
  if bad_cluster i cluster then fail (- EINVAL) else
  if bad_value i value then fail (- EINVAL) else
  let fat_sector := u32 (cluster * 4) / bytes_per_sector i in
  let offset := u32 (cluster * 4) mod bytes_per_sector i in
  kmalloc ;~
  write_copies (Z.to_nat (num_fats i)) 0 fat_sector offset value.

(** The next cluster of a chain; [-ENOENT] at its end. *)
Definition fat_next_cluster (cluster : Z) : F Z :=
  value <~ fat_read_fat_entry cluster ;;
  i <~ get_sb ;;
  if (value >=? FAT_EOC_MIN) && (value <=? FAT_EOC_MAX) then fail (- ENOENT) else
  if (value =? 0) || (value =? 1) || (value =? FAT_BAD_CLUSTER) || (u32 (value - 2) >=? total_clusters i) then fail (- EIO)
  else ret value.

(** ** The FSInfo sector *)

Definition fsinfo_valid (b : list Z) : bool :=
  (fat_read32 b 0 =? 0x41615252) && (fat_read32 b 484 =? 0x61417272) && (fat_read32 b 508 =? 0xaa550000).

Definition fat_load_fsinfo : F unit :=
  i <~ get_sb ;;
  if (fsinfo_sector i =? 0) || (fsinfo_sector i >=? total_sectors i) then fail (- ENOENT) else
  kmalloc ;~
  b <~ blkdev_read (fsinfo_sector i) 1 ;;
  if negb (fsinfo_valid b) then fail (- ENOENT) else
  let n := fat_read32 b 492 in
  (if (n >=? 2) && (u32 (n - 2) <? total_clusters i) then modify (set_next_free n) else ret tt) ;~
  let c := fat_read32 b 488 in
  modify (set_free_clusters (if negb (c =? FAT_FSINFO_UNKNOWN) && (c <=? total_clusters i) then c else FAT_FSINFO_UNKNOWN)).

Definition fat_write_fsinfo : F unit :=
  i <~ get_sb ;;
  if (fsinfo_sector i =? 0) || (fsinfo_sector i >=? total_sectors i) then fail (- ENOENT) else
  kmalloc ;~
  b <~ blkdev_read (fsinfo_sector i) 1 ;;
  if negb (fsinfo_valid b) then fail (- ENOENT) else
  s <~ get ;;
  blkdev_write (fsinfo_sector i) 1 (fat_write32 (fat_write32 b 488 (free_clusters s)) 492 (next_free s)).

(** ** Allocation *)

(** What is done with a cluster that is free. *)
Definition take_cluster (previous candidate : Z) : F Z :=
  fat_write_fat_entry candidate FAT_EOC_MAX ;~
  (if previous =? 0 then ret tt else fat_write_fat_entry previous candidate) ;~
  i <~ get_sb ;;
  modify (set_next_free (if u32 (u32 (candidate + 1) - 2) >=? total_clusters i then 2 else u32 (candidate + 1))) ;~
  modify (fun s => set_free_clusters (u32 (free_clusters s - 1)) s) ;~
  try fat_write_fsinfo ;~
  ret candidate.

(** One of the two scans, over [fuel] candidates at most. *)
Fixpoint scan (fuel : nat) (previous candidate : Z) : F (option Z) :=
  match fuel with
  | O => ret None
  | S fuel =>
    value <~ fat_read_fat_entry candidate ;;
    if value =? 0 then c <~ take_cluster previous candidate ;; ret (Some c)
    else scan fuel previous (u32 (candidate + 1))
  end.

Definition fat_alloc_cluster (previous : Z) : F Z :=
  s <~ get ;;
  let i := sbi s in
  if negb (previous =? 0) && bad_cluster i previous then fail (- EINVAL) else
  let start := if next_free s =? 0 then 2 else next_free s in
  let start := if start <? 2 then 2 else start in
  let start := if u32 (start - 2) >=? total_clusters i then 2 else start in
  r <~ scan (Z.to_nat (total_clusters i - (start - 2))) previous start ;;
  match r with
  | Some c => ret c
  | None =>
    r <~ scan (Z.to_nat (start - 2)) previous 2 ;;
    match r with Some c => ret c | None => fail (- ENOSPC) end
  end.

(** The loop that frees a chain, over [fuel] clusters at most. *)
Definition count_free (s : vol) : vol :=
  if free_clusters s <? total_clusters (sbi s) then set_free_clusters (u32 (free_clusters s + 1)) s else s.

Fixpoint free_chain (fuel : nat) (cluster : Z) : F unit :=
  if cluster =? 0 then try fat_write_fsinfo ;~ ret tt else
  match fuel with
  | O => fail (- EIO)
  | S fuel =>
    r <~ try (fat_next_cluster cluster) ;;
    match r with
    | Ok next => fat_write_fat_entry cluster 0 ;~ modify count_free ;~ free_chain fuel next
    | Er e =>
      if e =? - ENOENT then fat_write_fat_entry cluster 0 ;~ modify count_free ;~ try fat_write_fsinfo ;~ ret tt
      else fail e
    end
  end.

Definition fat_free_cluster_chain (cluster : Z) : F unit :=
  if cluster =? 0 then ret tt else i <~ get_sb ;; free_chain (Z.to_nat (total_clusters i)) cluster.

Fixpoint count_from (fuel : nat) (cluster : Z) : F Z :=
  match fuel with
  | O => ret 0
  | S fuel =>
    value <~ fat_read_fat_entry cluster ;;
    n <~ count_from fuel (u32 (cluster + 1)) ;;
    ret (if value =? 0 then u32 (n + 1) else n)
  end.
Definition fat_count_free_clusters : F Z := i <~ get_sb ;; count_from (Z.to_nat (total_clusters i)) 2.

(** ** The chain of a file *)

(** [struct fat_inode_info], of a chain. *)
Record finode := mkfi {
  start_cluster : Z;
  cc_start : Z; cc_index : Z; cc_cluster : Z; cc_valid : bool;   (* the cached position *)
}.
Definition set_start (c : Z) (i : finode) : finode := mkfi c (cc_start i) (cc_index i) (cc_cluster i) (cc_valid i).

Fixpoint count_chain (fuel : nat) (cluster : Z) : F Z :=
  match fuel with
  | O => ret 0
  | S fuel =>
    if cluster =? 0 then ret 0 else
    r <~ try (fat_next_cluster cluster) ;;
    match r with Ok next => n <~ count_chain fuel next ;; ret (u32 (n + 1)) | Er _ => ret 1 end
  end.
Definition fat_cluster_count (inode : finode) : F Z :=
  i <~ get_sb ;; count_chain (Z.to_nat (total_clusters i)) (start_cluster inode).

(** The steps forward from the cached position; 0 at an error. *)
Fixpoint walk_cached (fuel : nat) (cluster : Z) (inode : finode) : F (Z * finode) :=
  match fuel with
  | O => ret (cluster, inode)
  | S fuel =>
    r <~ try (fat_next_cluster cluster) ;;
    match r with
    | Ok next => walk_cached fuel next (mkfi (start_cluster inode) (cc_start inode) (u32 (cc_index inode + 1)) next (cc_valid inode))
    | Er _ => ret (0, inode)
    end
  end.

Definition fat_cluster_at (inode : finode) (cluster_index : Z) : F (Z * finode) :=
  let c := start_cluster inode in
  let inode := if negb (cc_valid inode) || negb (cc_start inode =? c) then mkfi c c 0 c true else inode in
  let inode := if cluster_index <? cc_index inode then mkfi c (cc_start inode) 0 c (cc_valid inode) else inode in
  walk_cached (Z.to_nat (cluster_index - cc_index inode)) (cc_cluster inode) inode.

(** The walk of [fat_cluster_at_alloc]: the cluster, or 0 with the index of the
    first that is missing and the one before it. *)
Fixpoint walk (fuel : nat) (cluster index previous : Z) : F (Z * Z * Z) :=
  match fuel with
  | O => ret (cluster, index, previous)
  | S fuel =>
    if cluster =? 0 then ret (cluster, index, previous) else
    r <~ try (fat_next_cluster cluster) ;;
    match r with
    | Ok next => walk fuel next (u32 (index + 1)) cluster
    | Er e => if e =? - ENOENT then ret (0, u32 (index + 1), cluster) else fail e
    end
  end.

(** The inode with the error, or with the last cluster: [fat_alloc_cluster] can
    fail when some clusters have been added. *)
Fixpoint extend (fuel : nat) (previous : Z) (inode : finode) : F (res Z * finode) :=
  match fuel with
  | O => ret (Ok previous, inode)
  | S fuel =>
    r <~ try (fat_alloc_cluster previous) ;;
    match r with
    | Ok next => extend fuel next (if start_cluster inode =? 0 then set_start next inode else inode)
    | Er e => ret (Er e, inode)
    end
  end.

Definition fat_cluster_at_alloc (inode : finode) (cluster_index : Z) : F (res Z * finode) :=
  let cluster := start_cluster inode in
  if negb (cluster =? 0) && (cluster_index =? 0) then ret (Ok cluster, inode) else
  r <~ try (walk (Z.to_nat cluster_index) cluster 0 0) ;;
  match r with
  | Er e => ret (Er e, inode)
  | Ok (cluster, index, previous) =>
    if negb (cluster =? 0) then ret (Ok cluster, inode) else
    extend (Z.to_nat (cluster_index + 1 - index)) previous inode
  end.

(** ** Inode numbers *)

Definition fat_entry_ino (i : sb_info) (cluster offset : Z) : Z :=
  u32 (FAT_ROOT_INO + 1 + u32 (u32 (cluster - 2) * cluster_size i) + offset).
Definition fat_ino_location (i : sb_info) (ino : Z) : option (Z * Z) :=
  if ino <=? FAT_ROOT_INO then None else
  let physical := u32 (ino - FAT_ROOT_INO - 1) in
  if negb (physical mod FAT_ENTRY_SIZE =? 0) then None else
  let cluster := u32 (physical / cluster_size i + 2) in
  let offset := physical mod cluster_size i in
  if (u32 (cluster - 2) >=? total_clusters i) || (u32 (offset + FAT_ENTRY_SIZE) >? cluster_size i) then None
  else Some (cluster, offset).

(** ** A consistent volume *)

(** What [fat_parse_bpb] checks, and that the table is large enough for the
    clusters, of which there are fewer than the marks for bad ones and ends. *)
Record geom (i : sb_info) : Prop := {
  g_bps : bytes_per_sector i = 512;
  g_spc : 0 < sectors_per_cluster i <= 128;
  g_size : cluster_size i = 512 * sectors_per_cluster i;
  g_fats : 1 <= num_fats i <= 2;
  g_reserved : 0 < reserved_sectors i < 2 ^ 16;
  g_first : first_data_sector i = reserved_sectors i + num_fats i * fat_size32 i;
  g_total : first_data_sector i + total_clusters i * sectors_per_cluster i <= total_sectors i < 2 ^ 32;
  g_clusters : 2 <= total_clusters i;
  g_marks : total_clusters i + 2 <= FAT_BAD_CLUSTER;
  g_table : (total_clusters i + 2) * 4 <= fat_size32 i * 512;
  g_fsinfo : 0 <= fsinfo_sector i < reserved_sectors i;
}.

(** A cluster of the data area. *)
Definition valid (i : sb_info) (c : Z) : Prop := 2 <= c < total_clusters i + 2.

(** The entry of a cluster, in the [k]-th copy of the table. *)
Definition raw (d : Z -> list Z) (i : sb_info) (k c : Z) : Z :=
  le32 (d (reserved_sectors i + k * fat_size32 i + c / 128)) (c mod 128 * 4).
Definition tab (s : vol) (c : Z) : Z := Z.land (raw (disk s) (sbi s) 0 c) 0x0fffffff.

Definition in_table (i : sb_info) (x : Z) : Prop := reserved_sectors i <= x < reserved_sectors i + fat_size32 i.

Record vol_ok (s : vol) : Prop := {
  v_geom : geom (sbi s);
  v_sectors : sectors_ok (disk s);
  v_slots : length (fat_cache s) = 4%nat;
  v_cache : forall x, x ∈ fat_cache s -> c_valid x = true -> c_data x = disk s (c_sector x) /\ in_table (sbi s) (c_sector x);
  v_copies : forall k c, 0 <= k < num_fats (sbi s) -> valid (sbi s) c -> raw (disk s) (sbi s) k c = raw (disk s) (sbi s) 0 c;
  v_fine : faults s = [];
}.

(** Only the cache has changed. *)
Definition same (s s' : vol) : Prop :=
  disk s' = disk s /\ sbi s' = sbi s /\ next_free s' = next_free s /\ free_clusters s' = free_clusters s.

Lemma same_refl s : same s s.
Proof. done. Qed.
Lemma same_trans s1 s2 s3 : same s1 s2 -> same s2 s3 -> same s1 s3.
Proof. unfold same. intuition congruence. Qed.
Lemma same_tab s s' c : same s s' -> tab s' c = tab s c.
Proof. intros (E1 & E2 & _). unfold tab. by rewrite E1, E2. Qed.

Lemma entry_place i c : geom i -> valid i c ->
  u32 (c * 4) / bytes_per_sector i = c / 128 /\ u32 (c * 4) mod bytes_per_sector i = c mod 128 * 4 /\
  0 <= c / 128 < fat_size32 i /\ 0 <= c mod 128 * 4 <= 508.
Proof.
  intros G V. unfold valid in V. pose proof (g_marks _ G). pose proof (g_table _ G). unfold FAT_BAD_CLUSTER in *.
  rewrite (g_bps _ G), u32_small by lia.
  pose proof (Z.mod_pos_bound c 128 ltac:(lia)). split_and!; [| |apply Z.div_pos; lia|apply Z.div_lt_upper_bound; lia|lia..].
  - replace 512 with (128 * 4) by lia. by rewrite Z.div_mul_cancel_r.
  - replace 512 with (128 * 4) by lia. by rewrite Z.mul_mod_distr_r.
Qed.

Lemma valid_range i c : geom i -> valid i c -> 2 <= c < 0x0ffffff7.
Proof. intros G V. pose proof (g_marks _ G). unfold valid, FAT_BAD_CLUSTER in *. lia. Qed.

Lemma not_bad i c : geom i -> valid i c -> bad_cluster i c = false.
Proof.
  intros G V. pose proof (valid_range _ _ G V). unfold bad_cluster, valid in *.
  destruct (Z.ltb_spec c 2); [lia|]. rewrite u32_small by lia. by destruct (Z.geb_spec (c - 2) (total_clusters i)); [lia|].
Qed.

Lemma bind_get {A} (k : vol -> F A) s : bind get k s = k s s.
Proof. done. Qed.
Lemma bind_sb {A} (k : sb_info -> F A) s : bind get_sb k s = k (sbi s) s.
Proof. done. Qed.

(** ** Reading an entry *)

Lemma find_slot_some sector c n : find_slot sector c = Some n ->
  exists x, c !! n = Some x /\ c_valid x = true /\ c_sector x = sector.
Proof.
  revert n. induction c as [|x c IH]; intros n; cbn; [done|].
  destruct (c_valid x) eqn:V, (Z.eqb_spec (c_sector x) sector) as [E|E]; cbn [andb].
  - intros [= <-]. by exists x.
  - destruct (find_slot sector c) as [m|]; [|done]. intros [= <-]. by apply IH.
  - destruct (find_slot sector c) as [m|]; [|done]. intros [= <-]. by apply IH.
  - destruct (find_slot sector c) as [m|]; [|done]. intros [= <-]. by apply IH.
Qed.

Lemma victim_from_lt best age i c : (best < i + length c)%nat -> (victim_from best age i c < i + length c)%nat.
Proof.
  revert best age i. induction c as [|x c IH]; intros best age i H; cbn in *; [done|].
  destruct (c_valid x); cbn [negb]; [|lia].
  destruct (c_age x >? age); rewrite Nat.add_succ_r; apply (IH _ _ (S i)); lia.
Qed.

Lemma victim_lt c : c <> [] -> (victim c < length c)%nat.
Proof. intros H. unfold victim. destruct c as [|x c]; [done|]. apply (victim_from_lt 0 (c_age x) 0). cbn. lia. Qed.

Lemma read_one d x : read_sectors d x 1 = d x.
Proof. unfold read_sectors. change (concat [d (0 + x)] = d x). cbn [concat]. by rewrite app_nil_r. Qed.

Lemma cached_ok s sector : vol_ok s -> in_table (sbi s) sector ->
  exists n s' x, cached sector s = (Ok n, s') /\ vol_ok s' /\ same s s' /\
    fat_cache s' !! n = Some x /\ c_data x = disk s sector.
Proof.
  intros V T. unfold cached. unfold bind at 1. cbn [get].
  destruct (find_slot sector (fat_cache s)) as [n|] eqn:E.
  - apply find_slot_some in E as (x & Hx & Hv & <-). exists n, s, x. split_and!; [done|done|apply same_refl|done|].
    by apply (v_cache _ V); [apply list_elem_of_lookup_2 with n|].
  - unfold bind, read_buf, next_fault. rewrite (v_fine _ V). cbn.
    assert (L : (victim (fat_cache s) < length (fat_cache s))%nat).
    { apply victim_lt. intros E0. pose proof (v_slots _ V) as L. by rewrite E0 in L. }
    destruct (lookup_lt_is_Some_2 _ _ L) as [y Hy].
    exists (victim (fat_cache s)). eexists _, (load_slot sector (disk s sector) y). rewrite read_one.
    split_and!; [done| |done|cbn; by rewrite list_lookup_alter_eq, Hy|done].
    destruct V as [V1 V2 V3 V4 V5 V6]. constructor; cbn; [done|done|by rewrite length_alter| |done|done].
    intros x [j Hj]%list_elem_of_lookup_1 Hvx. destruct (decide (j = victim (fat_cache s))) as [->|N].
    + rewrite list_lookup_alter_eq, Hy in Hj. injection Hj as <-. done.
    + rewrite list_lookup_alter_ne in Hj by done. apply V4; [by apply list_elem_of_lookup_2 with j|done].
Qed.

Lemma touch_ok n s : vol_ok s -> vol_ok (set_cache (touch n (fat_cache s)) s).
Proof.
  intros [V1 V2 V3 V4 V5 V6]. constructor; cbn; [done|done|by unfold touch; rewrite length_imap| |done|done].
  intros x [j Hj]%list_elem_of_lookup_1 Hvx. unfold touch in Hj. rewrite list_lookup_imap in Hj.
  destruct (fat_cache s !! j) as [y|] eqn:E; [|done]. cbn in Hj. injection Hj as <-.
  assert (Hy : y ∈ fat_cache s) by (by apply list_elem_of_lookup_2 with j).
  destruct (j =? n)%nat; [|destruct (c_valid y) eqn:Ey]; cbn in *; by apply V4.
Qed.

Lemma fat_read_fat_entry_ok s c : vol_ok s -> valid (sbi s) c ->
  exists s', fat_read_fat_entry c s = (Ok (tab s c), s') /\ vol_ok s' /\ same s s'.
Proof.
  intros V Hc. pose proof (v_geom _ V) as G. destruct (entry_place _ _ G Hc) as (E1 & E2 & R1 & R2).
  unfold fat_read_fat_entry. unfold bind at 1. cbn [get_sb]. rewrite (not_bad _ _ G Hc), E1, E2.
  pose proof (g_reserved _ G). pose proof (g_total _ G). pose proof (g_first _ G). pose proof (g_fats _ G).
  pose proof (g_spc _ G). pose proof (g_clusters _ G).
  assert (fat_size32 (sbi s) < 2 ^ 32) by nia.
  assert (Hin : in_table (sbi s) (reserved_sectors (sbi s) + c / 128)) by (unfold in_table; lia).
  rewrite u32_small by nia.
  destruct (cached_ok s _ V Hin) as (n & s1 & x & E & V1 & S1 & Hx & Hd).
  rewrite (bind_ok _ _ _ _ _ E). eexists. split; [|split; [apply (touch_ok n _ V1)|exact S1]].
  unfold bind, modify, get, ret. cbn. do 2 f_equal.
  unfold touch. rewrite list_lookup_imap, Hx. cbn. rewrite Nat.eqb_refl. cbn. rewrite Hd. unfold tab, raw, fat_read32.
  by rewrite Z.mul_0_l, Z.add_0_r.
Qed.

(** ** Writing an entry *)

Definition place (i : sb_info) (k c : Z) : Z := reserved_sectors i + k * fat_size32 i + c / 128.

(** The entry of [c] in one copy is [v]. *)
Definition put_entry (i : sb_info) (k c v : Z) (d : Z -> list Z) : Z -> list Z :=
  fun y => if decide (y = place i k c) then fat_write32 (d y) (c mod 128 * 4) v else d y.

Lemma fat_write32_eq b o v : fat_write32 b o v = ext2_write32 b o v.
Proof. done. Qed.

Lemma write_one d x b : length b = 512%nat -> write_sectors d x 1 b = fun y => if decide (y = x) then b else d y.
Proof.
  intros L. apply functional_extensionality. intros y. unfold write_sectors. case_decide as E.
  - subst y. rewrite Z.leb_refl. destruct (Z.ltb_spec x (x + 1)); [|lia]. cbn [andb]. rewrite Z.sub_diag.
    unfold sub_bytes. cbn. rewrite drop_0. apply take_ge. change (Pos.to_nat 512) with 512%nat. lia.
  - destruct (Z.leb_spec x y), (Z.ltb_spec y (x + 1)); cbn [andb]; try done. lia.
Qed.

Lemma put_entry_sectors i k c v d : geom i -> valid i c -> sectors_ok d -> sectors_ok (put_entry i k c v d).
Proof.
  intros G V S x. destruct (entry_place _ _ G V) as (_ & _ & _ & R). destruct (S x) as [L U]. unfold put_entry. case_decide; [|done].
  rewrite fat_write32_eq. split; [rewrite length_write32; unfold zlength; lia|by apply write32_u8].
Qed.

Lemma raw_put i k c v d k' c' : geom i -> valid i c -> valid i c' -> sectors_ok d -> 0 <= v < 2 ^ 32 ->
  0 <= k < num_fats i -> 0 <= k' < num_fats i ->
  raw (put_entry i k c v d) i k' c' = if decide (k' = k /\ c' = c) then v else raw d i k' c'.
Proof.
  intros G V V' S Hv Hk Hk'. destruct (entry_place _ _ G V) as (_ & _ & Q & R).
  destruct (entry_place _ _ G V') as (_ & _ & Q' & R'). unfold raw, put_entry, place.
  destruct (S (reserved_sectors i + k' * fat_size32 i + c' / 128)) as [L U].
  destruct (decide (reserved_sectors i + k' * fat_size32 i + c' / 128 = reserved_sectors i + k * fat_size32 i + c / 128)) as [E|E].
  - assert (k' = k) as -> by nia. assert (E' : c' / 128 = c / 128) by lia. rewrite fat_write32_eq.
    pose proof (Z.div_mod c 128). pose proof (Z.div_mod c' 128).
    case_decide as D.
    + destruct D as [_ ->]. apply read_write32; unfold zlength; lia.
    + apply read_write32_ne; unfold zlength; lia.
  - rewrite decide_False; [done|]. intros [-> ->]. done.
Qed.

Lemma put_entry_outside i k c v d x : geom i -> valid i c -> 0 <= k < num_fats i ->
  x < reserved_sectors i \/ first_data_sector i <= x -> put_entry i k c v d x = d x.
Proof.
  intros G V Hk Hx. destruct (entry_place _ _ G V) as (_ & _ & Q & _). pose proof (g_first _ G).
  unfold put_entry, place. rewrite decide_False; [done|]. nia.
Qed.

Definition after_write (c v : Z) (s : vol) : vol :=
  let d := put_entry (sbi s) 0 c v (disk s) in
  let d' := if num_fats (sbi s) =? 1 then d else put_entry (sbi s) 1 c v d in
  set_cache (update_slots (place (sbi s) 0 c) (d (place (sbi s) 0 c)) (fat_cache s)) (set_disk d' s).

Lemma copy_ok s k c v n : geom (sbi s) -> valid (sbi s) c -> sectors_ok (disk s) -> faults s = [] -> 0 <= k < num_fats (sbi s) ->
  write_copies (S n) k (c / 128) (c mod 128 * 4) v s =
    write_copies n (k + 1) (c / 128) (c mod 128 * 4) v
      (let d := put_entry (sbi s) k c v (disk s) in
       let s' := set_disk d s in
       if k =? 0 then set_cache (update_slots (place (sbi s) k c) (d (place (sbi s) k c)) (fat_cache s)) s' else s').
Proof.
  intros G V S Hf Hk. destruct (entry_place _ _ G V) as (_ & _ & Q & R).
  pose proof (g_reserved _ G). pose proof (g_total _ G). pose proof (g_first _ G). pose proof (g_fats _ G).
  pose proof (g_spc _ G). pose proof (g_clusters _ G).
  assert (fat_size32 (sbi s) < 2 ^ 32) by nia.
  cbn [write_copies]. unfold bind at 1. cbn [get_sb]. rewrite (u32_small (k * _)), u32_small by nia.
  fold (place (sbi s) k c). set (x := place (sbi s) k c).
  unfold blkdev_read, read_buf, next_fault, bind at 1. unfold bind at 1. rewrite Hf, read_one.
  unfold bind at 1, ret at 1. unfold blkdev_write, next_fault. rewrite Hf.
  destruct (S x) as [L U].
  rewrite write_one by (rewrite fat_write32_eq, length_write32; unfold zlength; lia).
  assert (E : (fun y => if decide (y = x) then fat_write32 (disk s x) (c mod 128 * 4) v else disk s y) = put_entry (sbi s) k c v (disk s)).
  { apply functional_extensionality. intros y. unfold put_entry. fold x. case_decide as D; [by subst y|done]. }
  rewrite E. assert (E2 : put_entry (sbi s) k c v (disk s) x = fat_write32 (disk s x) (c mod 128 * 4) v).
  { rewrite <- E. by rewrite decide_True. }
  cbn zeta. rewrite E2. destruct (k =? 0); done.
Qed.

Lemma fat_write_fat_entry_run s c v : vol_ok s -> valid (sbi s) c -> bad_value (sbi s) v = false ->
  fat_write_fat_entry c v s = (Ok tt, after_write c v s).
Proof.
  intros V Hc Hv. pose proof (v_geom _ V) as G. destruct (entry_place _ _ G Hc) as (E1 & E2 & _).
  unfold fat_write_fat_entry. unfold bind at 1. cbn [get_sb]. rewrite (not_bad _ _ G Hc), Hv, E1, E2.
  unfold kmalloc, bind at 1, next_fault. rewrite (v_fine _ V). pose proof (g_fats _ G) as Hn.
  unfold after_write. assert (num_fats (sbi s) = 1 \/ num_fats (sbi s) = 2) as [N|N] by lia; rewrite N.
  - change (Z.to_nat 1) with 1%nat. rewrite copy_ok by (first [apply V|done|lia]). done.
  - change (Z.to_nat 2) with 2%nat. rewrite copy_ok by (first [apply V|done|lia]). cbn [Z.eqb].
    rewrite copy_ok; cbn [sbi disk faults set_cache set_disk]; [done|done|done|by apply put_entry_sectors, V|apply V|lia].
Qed.

(** The table and nothing else but cache is changed. *)
Record wrote (c v : Z) (s s' : vol) : Prop := {
  w_ok : vol_ok s';
  w_tab : forall c', valid (sbi s) c' -> tab s' c' = if decide (c' = c) then Z.land v 0x0fffffff else tab s c';
  w_sbi : sbi s' = sbi s;
  w_next : next_free s' = next_free s;
  w_count : free_clusters s' = free_clusters s;
  w_out : forall x, x < reserved_sectors (sbi s) \/ first_data_sector (sbi s) <= x -> disk s' x = disk s x;
}.

Lemma fat_write_fat_entry_ok s c v : vol_ok s -> valid (sbi s) c -> bad_value (sbi s) v = false -> 0 <= v < 2 ^ 32 ->
  exists s', fat_write_fat_entry c v s = (Ok tt, s') /\ wrote c v s s'.
Proof.
  intros V Hc Hb Hv. exists (after_write c v s). split; [by apply fat_write_fat_entry_run|].
  pose proof (v_geom _ V) as G. pose proof (v_sectors _ V) as S. pose proof (g_fats _ G) as Hn.
  set (d := put_entry (sbi s) 0 c v (disk s)).
  assert (Sd : sectors_ok d) by (by apply put_entry_sectors).
  assert (Hraw : forall k c', 0 <= k < num_fats (sbi s) -> valid (sbi s) c' ->
    raw (disk (after_write c v s)) (sbi s) k c' = if decide (c' = c) then v else raw (disk s) (sbi s) k c').
  { intros k c' Hk Hc'. cbn. fold d. destruct (Z.eqb_spec (num_fats (sbi s)) 1) as [N|N].
    - subst d. rewrite raw_put by (done || lia). assert (k = 0) as -> by lia.
      destruct (decide (c' = c)) as [->|D]; [by rewrite decide_True|rewrite decide_False; [done|tauto]].
    - rewrite raw_put by (done || lia). subst d. rewrite raw_put by (done || lia).
      destruct (decide (c' = c)) as [->|D].
      + destruct (decide (k = 1 /\ c = c)); [done|]. rewrite decide_True; [done|]. split; [|done].
        assert (k <> 1) by tauto. lia.
      + rewrite decide_False by tauto. by rewrite decide_False by tauto. }
  constructor; cbn [sbi next_free free_clusters after_write set_cache set_disk]; [|intros c' Hc'; unfold tab; cbn [sbi after_write set_cache set_disk]; rewrite Hraw by (done || lia); by destruct (decide (c' = c))|done..|].
  - constructor; cbn [sbi disk fat_cache faults after_write set_cache set_disk]; [done| | | | |apply V].
    + fold d. destruct (num_fats (sbi s) =? 1); [done|by apply put_entry_sectors].
    + unfold update_slots. rewrite length_map. apply V.
    + fold d. intros x [y [Hx Hy]]%list_elem_of_In%in_map_iff Hvx.
      assert (Hyc : y ∈ fat_cache s) by (by apply list_elem_of_In).
      assert (Hsec : c_sector x = c_sector y /\ c_valid y = true).
      { subst x. destruct (c_valid y && (c_sector y =? place (sbi s) 0 c)); cbn in *; done. }
      destruct Hsec as [Es Ey]. destruct (v_cache _ V y Hyc Ey) as [Dy Ty]. rewrite Es. split; [|done].
      assert (Hd' : (if num_fats (sbi s) =? 1 then d else put_entry (sbi s) 1 c v d) (c_sector y) = d (c_sector y)).
      { destruct (Z.eqb_spec (num_fats (sbi s)) 1); [done|]. unfold put_entry at 1. rewrite decide_False; [done|].
        destruct (entry_place _ _ G Hc) as (_ & _ & Q & _). unfold in_table, place in *. lia. }
      rewrite Hd'. subst x. rewrite Ey. cbn [andb]. destruct (Z.eqb_spec (c_sector y) (place (sbi s) 0 c)) as [E|E].
      * by rewrite <- E.
      * unfold d, put_entry. by rewrite decide_False.
    + intros k c' Hk Hc'. fold d. change (raw (disk (after_write c v s)) (sbi s) k c' = raw (disk (after_write c v s)) (sbi s) 0 c').
      rewrite !Hraw by (done || lia). destruct (decide (c' = c)); [done|]. by apply V.
  - intros x Hx. cbn. fold d. assert (E : d x = disk s x) by (apply put_entry_outside; (done || lia)).
    destruct (Z.eqb_spec (num_fats (sbi s)) 1); [done|]. rewrite put_entry_outside by (done || lia). done.
Qed.

(** ** Following a chain *)

(** What [fat_next_cluster] makes of an entry. *)
Definition link (i : sb_info) (value : Z) : res Z :=
  if (value >=? FAT_EOC_MIN) && (value <=? FAT_EOC_MAX) then Er (- ENOENT) else
  if (value =? 0) || (value =? 1) || (value =? FAT_BAD_CLUSTER) || (u32 (value - 2) >=? total_clusters i) then Er (- EIO)
  else Ok value.

Lemma tab_range s c : 0 <= tab s c < 2 ^ 28.
Proof.
  unfold tab. change 0x0fffffff with (Z.ones 28). rewrite Z.land_ones by lia. by apply Z.mod_pos_bound.
Qed.

Lemma link_valid s c n : geom (sbi s) -> link (sbi s) (tab s c) = Ok n <-> tab s c = n /\ valid (sbi s) n.
Proof.
  intros G. pose proof (tab_range s c) as R. pose proof (g_marks _ G) as Hm. pose proof (g_clusters _ G).
  unfold link, valid, FAT_EOC_MIN, FAT_EOC_MAX, FAT_BAD_CLUSTER in *. set (v := tab s c) in *.
  destruct (Z.geb_spec v 0xffffff8), (Z.leb_spec v 0xfffffff); cbn [andb];
    try (split; [done|intros [? ?]; lia]); try lia.
  destruct (Z.eqb_spec v 0); [split; [done|lia]|]. destruct (Z.eqb_spec v 1); [split; [done|lia]|].
  destruct (Z.eqb_spec v 0xffffff7); [split; [done|lia]|]. cbn [orb]. rewrite u32_small by lia.
  destruct (Z.geb_spec (v - 2) (total_clusters (sbi s))); split; try done; intros; try lia; [|f_equal; lia].
  assert (v = n) by congruence. lia.
Qed.

Lemma link_end s c : FAT_EOC_MIN <= tab s c -> link (sbi s) (tab s c) = Er (- ENOENT).
Proof.
  intros H. pose proof (tab_range s c) as R. unfold link, FAT_EOC_MAX.
  destruct (Z.geb_spec (tab s c) FAT_EOC_MIN); [|lia]. destruct (Z.leb_spec (tab s c) 0xfffffff); [done|lia].
Qed.

Lemma fat_next_cluster_ok s c : vol_ok s -> valid (sbi s) c ->
  exists s', fat_next_cluster c s = (link (sbi s) (tab s c), s') /\ vol_ok s' /\ same s s'.
Proof.
  intros V Hc. destruct (fat_read_fat_entry_ok s c V Hc) as (s' & E & V' & S). exists s'. split; [|done].
  unfold fat_next_cluster. rewrite (bind_ok _ _ _ _ _ E). unfold bind, get_sb. destruct S as (_ & -> & _).
  unfold link. destruct (_ && _); [done|]. destruct (_ || _); done.
Qed.

(** ** FSInfo *)

(** Nothing changes but the cache and sectors that are neither table nor data. *)
Record meta (s s' : vol) : Prop := {
  m_ok : vol_ok s';
  m_tab : forall c, valid (sbi s) c -> tab s' c = tab s c;
  m_sbi : sbi s' = sbi s;
  m_next : next_free s' = next_free s;
  m_count : free_clusters s' = free_clusters s;
  m_data : forall x, first_data_sector (sbi s) <= x -> disk s' x = disk s x;
}.

Lemma meta_same s s' : vol_ok s' -> same s s' -> meta s s'.
Proof.
  intros V S. pose proof S as (E1 & E2 & E3 & E4). constructor; try done; [|by intros; rewrite E1].
  intros c _. by apply same_tab.
Qed.

(** Writing a sector in front of the table. *)
Lemma write_reserved s x b : vol_ok s -> 0 <= x < reserved_sectors (sbi s) -> length b = 512%nat -> Forall is_u8 b ->
  meta s (set_disk (write_sectors (disk s) x 1 b) s).
Proof.
  intros V Hx Hb Hu. pose proof (v_geom _ V) as G. rewrite write_one by done.
  assert (Hr : forall k c, 0 <= k -> valid (sbi s) c ->
    raw (fun y => if decide (y = x) then b else disk s y) (sbi s) k c = raw (disk s) (sbi s) k c).
  { intros k c Hk Hc. unfold raw. destruct (entry_place _ _ G Hc) as (_ & _ & Q & _).
    rewrite decide_False; [done|]. pose proof (g_total _ G). pose proof (g_fats _ G). nia. }
  constructor; cbn [sbi disk next_free free_clusters set_disk]; try done.
  - destruct V as [V1 V2 V3 V4 V5 V6]. constructor; cbn [sbi disk fat_cache faults set_disk]; try done.
    + intros y. case_decide; [done|apply V2].
    + intros y Hy Hvy. destruct (V4 y Hy Hvy) as [Hd Ht]. split; [|done]. rewrite decide_False; [done|].
      unfold in_table in Ht. lia.
    + intros k c Hk Hc. rewrite !Hr by (done || lia). by apply V5.
  - intros c Hc. unfold tab. cbn [disk sbi set_disk]. by rewrite Hr.
  - intros y Hy. rewrite decide_False; [done|]. pose proof (g_first _ G). pose proof (g_fats _ G).
    assert (0 <= fat_size32 (sbi s)) by (pose proof (g_table _ G); pose proof (g_clusters _ G); lia). nia.
Qed.

Lemma fat_write_fsinfo_ok s : vol_ok s -> exists r s', fat_write_fsinfo s = (r, s') /\ meta s s'.
Proof.
  intros V. pose proof (v_geom _ V) as G. pose proof (g_fsinfo _ G) as Hf.
  assert (M : meta s s) by (by apply meta_same).
  unfold fat_write_fsinfo. unfold bind at 1. cbn [get_sb].
  destruct ((fsinfo_sector (sbi s) =? 0) || (fsinfo_sector (sbi s) >=? total_sectors (sbi s))); [by eexists _, s|].
  unfold kmalloc, bind at 1, next_fault. rewrite (v_fine _ V).
  unfold blkdev_read, read_buf, next_fault, bind at 1. unfold bind at 1. rewrite (v_fine _ V), read_one.
  unfold ret at 1. destruct (negb _); [by eexists _, s|]. unfold bind, get. unfold blkdev_write, next_fault. rewrite (v_fine _ V).
  eexists _, _. split; [done|]. destruct (v_sectors _ V (fsinfo_sector (sbi s))) as [L U].
  assert (L1 : length (fat_write32 (disk s (fsinfo_sector (sbi s))) 488 (free_clusters s)) = 512%nat).
  { rewrite fat_write32_eq, length_write32; unfold zlength; lia. }
  apply write_reserved; [done|lia| |].
  - rewrite (fat_write32_eq _ 492), length_write32; unfold zlength; lia.
  - rewrite !fat_write32_eq. by apply write32_u8, write32_u8.
Qed.

Lemma meta_refl s : vol_ok s -> meta s s.
Proof. intros V. by apply meta_same. Qed.

Lemma meta_trans s1 s2 s3 : meta s1 s2 -> meta s2 s3 -> meta s1 s3.
Proof.
  intros [A1 A2 A3 A4 A5 A6] [B1 B2 B3 B4 B5 B6]. rewrite A3 in *. constructor; try congruence.
  - intros c Hc. by rewrite B2, A2.
  - intros x Hx. by rewrite B6, A6.
Qed.

(** ** Allocation *)

(** The first free cluster in the order of the two scans. *)
Definition first_free (s : vol) (l : list Z) : option Z := head (filter (fun c => tab s c = 0) l).

Definition scan_start (s : vol) : Z :=
  let start := if next_free s =? 0 then 2 else next_free s in
  let start := if start <? 2 then 2 else start in
  if u32 (start - 2) >=? total_clusters (sbi s) then 2 else start.
Definition scan_order (s : vol) : list Z :=
  seqZ (scan_start s) (total_clusters (sbi s) - (scan_start s - 2)) ++ seqZ 2 (scan_start s - 2).

(** What an allocation of [c] after [previous] does. *)
Record took (previous c : Z) (s s' : vol) : Prop := {
  t_ok : vol_ok s';
  t_tab : forall c', valid (sbi s) c' -> tab s' c' =
    if decide (previous <> 0 /\ c' = previous) then c else if decide (c' = c) then FAT_EOC_MAX else tab s c';
  t_sbi : sbi s' = sbi s;
  t_next : next_free s' = if decide (c + 1 = total_clusters (sbi s) + 2) then 2 else c + 1;
  t_count : free_clusters s' = u32 (free_clusters s - 1);
  t_data : forall x, first_data_sector (sbi s) <= x -> disk s' x = disk s x;
}.

Lemma land_valid i c : geom i -> valid i c -> Z.land c 0x0fffffff = c.
Proof.
  intros G V. pose proof (valid_range _ _ G V). change 0x0fffffff with (Z.ones 28). rewrite Z.land_ones by lia.
  apply Z.mod_small. lia.
Qed.

Lemma good_value i c : geom i -> valid i c -> bad_value i c = false.
Proof.
  intros G V. pose proof (valid_range _ _ G V) as R. unfold bad_value, valid in *. rewrite u32_small by lia.
  destruct (Z.geb_spec (c - 2) (total_clusters i)); [lia|]. by rewrite andb_false_r.
Qed.

Lemma meta_next_free s n : vol_ok s -> vol_ok (set_next_free n s).
Proof. by intros []. Qed.
Lemma meta_free_clusters s n : vol_ok s -> vol_ok (set_free_clusters n s).
Proof. by intros []. Qed.

Lemma take_cluster_ok s previous c : vol_ok s -> valid (sbi s) c -> previous = 0 \/ valid (sbi s) previous ->
  exists s', take_cluster previous c s = (Ok c, s') /\ took previous c s s'.
Proof.
  intros V Hc Hp. pose proof (v_geom _ V) as G. unfold take_cluster.
  destruct (fat_write_fat_entry_ok s c FAT_EOC_MAX V Hc) as (s1 & E1 & [V1 T1 B1 N1 C1 O1]); [done|done|].
  rewrite (bind_ok _ _ _ _ _ E1).
  assert (exists s2, (if previous =? 0 then ret tt else fat_write_fat_entry previous c) s1 = (Ok tt, s2) /\
    vol_ok s2 /\ sbi s2 = sbi s /\ next_free s2 = next_free s /\ free_clusters s2 = free_clusters s /\
    (forall x, first_data_sector (sbi s) <= x -> disk s2 x = disk s x) /\
    (forall c', valid (sbi s) c' -> tab s2 c' =
      if decide (previous <> 0 /\ c' = previous) then c else if decide (c' = c) then FAT_EOC_MAX else tab s c'))
    as (s2 & E2 & V2 & B2 & N2 & C2 & O2 & T2).
  { destruct (Z.eqb_spec previous 0) as [->|N].
    - exists s1. split_and!; [done|done|done|done|done|auto|].
      intros c' Hc'. rewrite T1 by done. rewrite (decide_False (P := 0 <> 0 /\ _)) by tauto. done.
    - destruct Hp as [?|Hp]; [done|].
      destruct (fat_write_fat_entry_ok s1 previous c V1) as (s2 & E2 & [V2 T2 B2 N2 C2 O2]).
      { by rewrite B1. } { rewrite B1. by apply good_value. } { pose proof (valid_range _ _ G Hc). lia. }
      rewrite B1 in *. exists s2. split_and!; [done|done|done|congruence|congruence| |].
      + intros x Hx. rewrite O2, O1 by auto. done.
      + intros c' Hc'. rewrite T2 by done. destruct (decide (c' = previous)) as [->|D].
        * rewrite decide_True by done. by eapply land_valid.
        * rewrite (decide_False (P := previous <> 0 /\ _)) by tauto. by rewrite T1. }
  rewrite (bind_ok _ _ _ _ _ E2). unfold bind at 1. cbn [get_sb]. unfold bind at 1, modify at 1. unfold bind at 1, modify at 1.
  pose proof (valid_range _ _ G Hc) as R. rewrite (u32_small (c + 1)), (u32_small (c + 1 - 2)) by lia.
  match goal with |- context [bind _ _ ?s0] => set (s3 := s0) end.
  assert (V3 : vol_ok s3) by (by apply meta_free_clusters, meta_next_free).
  destruct (fat_write_fsinfo_ok s3 V3) as (r & s4 & E4 & [M1 M2 M3 M4 M5 M6]). rewrite (bind_try _ _ _ _ _ E4).
  exists s4. split; [done|]. cbn [sbi s3 set_free_clusters set_next_free next_free free_clusters disk] in *. rewrite B2 in *.
  constructor; [done| |done| | |].
  - intros c' Hc'. rewrite M2 by done. by apply T2.
  - rewrite M4. pose proof (g_clusters _ G). unfold valid in Hc.
    destruct (Z.geb_spec (c + 1 - 2) (total_clusters (sbi s))); destruct (decide (c + 1 = total_clusters (sbi s) + 2)); lia.
  - rewrite M5. by rewrite C2.
  - intros x Hx. rewrite M6 by done. by apply O2.
Qed.

Lemma first_free_cons s c l : first_free s (c :: l) = if decide (tab s c = 0) then Some c else first_free s l.
Proof. unfold first_free. rewrite filter_cons. by case_decide. Qed.

Lemma first_free_app s l1 l2 : first_free s (l1 ++ l2) = match first_free s l1 with Some c => Some c | None => first_free s l2 end.
Proof. unfold first_free. rewrite filter_app. by destruct (filter _ l1). Qed.

Lemma first_free_ext s s' l : (forall c, c ∈ l -> tab s' c = tab s c) -> first_free s' l = first_free s l.
Proof.
  intros H. induction l as [|c l IH]; [done|]. rewrite !first_free_cons, H, IH by set_solver. done.
Qed.

Lemma took_meta previous c s s1 s' : meta s s1 -> took previous c s1 s' -> took previous c s s'.
Proof.
  intros [A1 A2 A3 A4 A5 A6] [B1 B2 B3 B4 B5 B6]. rewrite A3 in *. constructor; try congruence.
  - intros c' Hc'. rewrite B2 by done. by rewrite A2.
  - intros x Hx. by rewrite B6, A6.
Qed.

Lemma scan_ok n s previous c : vol_ok s -> 2 <= c -> c + Z.of_nat n <= total_clusters (sbi s) + 2 ->
  previous = 0 \/ valid (sbi s) previous ->
  match first_free s (seqZ c (Z.of_nat n)) with
  | Some x => exists s', scan n previous c s = (Ok (Some x), s') /\ took previous x s s' /\ valid (sbi s) x /\ tab s x = 0
  | None => exists s', scan n previous c s = (Ok None, s') /\ meta s s'
  end.
Proof.
  revert s c. induction n as [|n IH]; intros s c V Hc Hn Hp.
  - exists s. split; [done|by apply meta_refl].
  - pose proof (v_geom _ V) as G. assert (Hv : valid (sbi s) c) by (unfold valid; lia).
    rewrite seqZ_cons by lia. rewrite first_free_cons. cbn [scan].
    replace (Z.pred (Z.of_nat (S n))) with (Z.of_nat n) by lia.
    destruct (fat_read_fat_entry_ok s c V Hv) as (s1 & E & V1 & S1). rewrite (bind_ok _ _ _ _ _ E).
    pose proof (meta_same _ _ V1 S1) as M1. pose proof (m_sbi _ _ M1) as B1.
    destruct (Z.eqb_spec (tab s c) 0) as [Z0|Z0].
    + rewrite decide_True by done. destruct (take_cluster_ok s1 previous c V1) as (s2 & E2 & T2); [by rewrite B1..|].
      rewrite (bind_ok _ _ _ _ _ E2). exists s2. split_and!; [done|by eapply took_meta|done|done].
    + rewrite decide_False by done. pose proof (valid_range _ _ G Hv). rewrite u32_small by lia.
      specialize (IH s1 (c + 1) V1 ltac:(lia) ltac:(rewrite B1; lia) ltac:(by rewrite B1)).
      rewrite Z.add_1_r in *.
      rewrite (first_free_ext s s1) in IH by (intros; by apply same_tab).
      destruct (first_free s (seqZ (Z.succ c) (Z.of_nat n))) as [x|].
      * destruct IH as (s2 & E2 & T2 & Vx & Zx). exists s2. rewrite B1 in Vx. rewrite (same_tab _ _ _ S1) in Zx.
        split_and!; [done|by eapply took_meta|done|done].
      * destruct IH as (s2 & E2 & M2). exists s2. split; [done|by eapply meta_trans].
Qed.

Lemma scan_start_range s : geom (sbi s) -> 0 <= next_free s < 2 ^ 32 -> 2 <= scan_start s < total_clusters (sbi s) + 2.
Proof.
  intros G Hn. pose proof (g_clusters _ G). pose proof (g_marks _ G). unfold scan_start, FAT_BAD_CLUSTER in *.
  destruct (Z.eqb_spec (next_free s) 0); [change (2 <? 2) with false; cbv iota; rewrite u32_small by lia; destruct (Z.geb_spec (2 - 2) (total_clusters (sbi s))); lia|].
  destruct (Z.ltb_spec (next_free s) 2); rewrite u32_small by lia.
  - destruct (Z.geb_spec (2 - 2) (total_clusters (sbi s))); lia.
  - destruct (Z.geb_spec (next_free s - 2) (total_clusters (sbi s))); lia.
Qed.

Lemma elem_of_order s c : geom (sbi s) -> 0 <= next_free s < 2 ^ 32 -> c ∈ scan_order s <-> valid (sbi s) c.
Proof.
  intros G Hn. pose proof (scan_start_range s G Hn). unfold scan_order, valid. rewrite elem_of_app, !elem_of_seqZ. lia.
Qed.

Lemma first_free_none s l : first_free s l = None <-> forall c, c ∈ l -> tab s c <> 0.
Proof.
  induction l as [|c l IH]; [split; [set_solver|done]|]. rewrite first_free_cons. case_decide as D.
  - split; [done|]. intros H. exfalso. apply (H c); [set_solver|done].
  - rewrite IH. set_solver.
Qed.

Lemma fat_alloc_cluster_ok s previous : vol_ok s -> 0 <= next_free s < 2 ^ 32 -> previous = 0 \/ valid (sbi s) previous ->
  match first_free s (scan_order s) with
  | Some c => exists s', fat_alloc_cluster previous s = (Ok c, s') /\ took previous c s s' /\ valid (sbi s) c /\ tab s c = 0
  | None => exists s', fat_alloc_cluster previous s = (Er (- ENOSPC), s') /\ meta s s'
  end.
Proof.
  intros V Hn Hp. pose proof (v_geom _ V) as G. pose proof (scan_start_range s G Hn) as Hs.
  assert (Hb : negb (previous =? 0) && bad_cluster (sbi s) previous = false).
  { destruct Hp as [->|Hp]; [done|]. rewrite (not_bad _ _ G Hp). apply andb_false_r. }
  unfold scan_order. rewrite first_free_app.
  pose proof (scan_ok (Z.to_nat (total_clusters (sbi s) - (scan_start s - 2))) s previous (scan_start s) V ltac:(lia) ltac:(lia) Hp) as S1.
  rewrite Z2Nat.id in S1 by lia.
  unfold fat_alloc_cluster. rewrite bind_get, Hb. cbv zeta. fold (scan_start s).
  destruct (first_free s (seqZ (scan_start s) _)) as [c|].
  - destruct S1 as (s1 & E1 & T1). exists s1. rewrite (bind_ok _ _ _ _ _ E1). done.
  - destruct S1 as (s1 & E1 & M1). rewrite (bind_ok _ _ _ _ _ E1). cbv beta iota.
    pose proof (m_sbi _ _ M1) as B1.
    pose proof (scan_ok (Z.to_nat (scan_start s - 2)) s1 previous 2 (m_ok _ _ M1) ltac:(lia) ltac:(rewrite B1; lia) ltac:(by rewrite B1)) as S2.
    rewrite Z2Nat.id in S2 by lia.
    rewrite (first_free_ext s s1) in S2.
    2:{ intros c Hc%elem_of_seqZ. apply (m_tab _ _ M1). unfold valid. lia. }
    destruct (first_free s (seqZ 2 _)) as [c|].
    + destruct S2 as (s2 & E2 & T2 & Vc & Zc). exists s2. rewrite (bind_ok _ _ _ _ _ E2). rewrite B1 in Vc.
      rewrite (m_tab _ _ M1) in Zc by done. split_and!; [done|by eapply took_meta|done|done].
    + destruct S2 as (s2 & E2 & M2). exists s2. rewrite (bind_ok _ _ _ _ _ E2). split; [done|by eapply meta_trans].
Qed.

(** C8: an allocation marks the first free cluster after the hint, and from the
    beginning of the table if there is none, as the end of a chain, links it
    after [previous], and changes no other entry, in all copies of the table,
    and no data; it fails with [-ENOSPC] exactly when no cluster is free, and
    then changes no entry. *)
Theorem fat_alloc_cluster_refines s previous : vol_ok s -> 0 <= next_free s < 2 ^ 32 -> previous = 0 \/ valid (sbi s) previous ->
  (exists c s', fat_alloc_cluster previous s = (Ok c, s') /\ first_free s (scan_order s) = Some c /\
     valid (sbi s) c /\ tab s c = 0 /\ took previous c s s') \/
  ((forall c, valid (sbi s) c -> tab s c <> 0) /\ exists s', fat_alloc_cluster previous s = (Er (- ENOSPC), s') /\ meta s s').
Proof.
  intros V Hn Hp. pose proof (fat_alloc_cluster_ok s previous V Hn Hp) as A.
  destruct (first_free s (scan_order s)) as [c|] eqn:E.
  - left. destruct A as (s' & R & T & Vc & Zc). by exists c, s'.
  - right. split; [|done]. intros c Hc. apply (proj1 (first_free_none _ _) E). apply elem_of_order; [apply V|done|done].
Qed.

(** ** Chains *)

(** The clusters of a chain, from [c] to its end. *)
Fixpoint chain (s : vol) (c : Z) (l : list Z) : Prop :=
  match l with
  | [] => False
  | x :: l' => c = x /\ valid (sbi s) x /\
    match l' with [] => FAT_EOC_MIN <= tab s x | y :: _ => tab s x = y /\ chain s y l' end
  end.

(** Of a file: an empty one has no cluster. *)
Definition fchain (s : vol) (c : Z) (l : list Z) : Prop := (c = 0 /\ l = []) \/ chain s c l.

Lemma chain_hd s c l : chain s c l -> hd_error l = Some c.
Proof. destruct l as [|x l]; [done|]. by intros [-> _]. Qed.

Lemma chain_valid s c l x : chain s c l -> x ∈ l -> valid (sbi s) x.
Proof.
  revert c. induction l as [|y l IH]; intros c; [done|]. intros (_ & V & H) [->|Hx]%elem_of_cons; [done|].
  destruct l as [|z l]; [set_solver|]. destruct H as [_ H]. by eapply IH.
Qed.

Lemma chain_tab s c l x : geom (sbi s) -> chain s c l -> x ∈ l -> 2 <= tab s x.
Proof.
  intros G. revert c. induction l as [|y l IH]; intros c; [done|]. intros (_ & V & H) [->|Hx]%elem_of_cons.
  - destruct l as [|z l]; [unfold FAT_EOC_MIN in *; lia|]. destruct H as [-> (_ & Vz & _)]. apply Vz.
  - destruct l as [|z l]; [set_solver|]. destruct H as [_ H]. by eapply IH.
Qed.

Lemma chain_suffix s c l1 x l2 : chain s c (l1 ++ x :: l2) -> chain s x (x :: l2).
Proof.
  revert c. induction l1 as [|y l1 IH]; intros c; cbn [app].
  - intros (-> & H). by split.
  - intros (_ & _ & H). destruct (l1 ++ x :: l2) as [|z l] eqn:E; [by destruct l1|]. destruct H as [_ H].
    by apply (IH z).
Qed.

Lemma chain_unique s c l1 l2 : geom (sbi s) -> chain s c l1 -> chain s c l2 -> l1 = l2.
Proof.
  intros G. revert c l2. induction l1 as [|x l1 IH]; intros c [|y l2]; try done.
  intros (-> & V & H1) (-> & _ & H2). f_equal. pose proof (valid_range _ y G) as R.
  destruct l1 as [|a l1], l2 as [|b l2]; try done.
  - destruct H2 as [E (_ & Vb & _)]. pose proof (valid_range _ _ G Vb). unfold FAT_EOC_MIN in *. lia.
  - destruct H1 as [E (_ & Vb & _)]. pose proof (valid_range _ _ G Vb). unfold FAT_EOC_MIN in *. lia.
  - destruct H1 as [E1 H1], H2 as [E2 H2]. assert (a = b) as -> by congruence. by apply (IH b).
Qed.

Lemma chain_nodup s c l : geom (sbi s) -> chain s c l -> NoDup l.
Proof.
  intros G. revert c. induction l as [|x l IH]; intros c H; [constructor|]. apply NoDup_cons. split.
  - intros Hx. apply list_elem_of_split in Hx as (a & b & ->). pose proof H as H2.
    change (x :: a ++ x :: b) with ((x :: a) ++ x :: b) in H2. apply chain_suffix in H2.
    destruct H as (-> & H). assert (E : x :: a ++ x :: b = x :: b) by (by eapply chain_unique; [| |exact H2]).
    injection E as E. apply (f_equal length) in E. rewrite length_app in E. cbn in E. lia.
  - destruct H as (_ & _ & H). destruct l as [|y l]; [constructor|]. destruct H as [_ H]. by apply (IH y).
Qed.

Lemma chain_length s c l : geom (sbi s) -> chain s c l -> Z.of_nat (length l) <= total_clusters (sbi s).
Proof.
  intros G H. pose proof (g_clusters _ G). assert (Hs : l ⊆+ seqZ 2 (total_clusters (sbi s))).
  { apply NoDup_submseteq; [by eapply chain_nodup|]. intros x Hx. pose proof (chain_valid _ _ _ _ H Hx) as Hv. unfold valid in Hv.
    rewrite elem_of_seqZ. lia. }
  apply submseteq_length in Hs. rewrite length_seqZ in Hs. lia.
Qed.

Lemma fchain_frame s s' c l : sbi s' = sbi s -> (forall x, x ∈ l -> tab s' x = tab s x) -> chain s c l -> chain s' c l.
Proof.
  intros B. revert c. induction l as [|x l IH]; intros c E; [done|]. intros (-> & V & H). cbn [chain]. rewrite B.
  split_and!; [done|done|]. rewrite E by set_solver. destruct l as [|y l]; [done|].
  destruct H as [-> H]. split; [done|]. apply IH; [set_solver|done].
Qed.

(** The walk over a chain, with or without a cached position. *)
Lemma walk_cached_ok n s inode c l : vol_ok s -> chain s c l -> 0 <= cc_index inode -> cc_index inode + Z.of_nat n < 2 ^ 32 ->
  cc_cluster inode = c ->
  exists s' inode', walk_cached n c inode s = (Ok (default 0 (l !! n), inode'), s') /\ vol_ok s' /\ same s s' /\
    start_cluster inode' = start_cluster inode /\ cc_start inode' = cc_start inode /\ cc_valid inode' = cc_valid inode /\
    exists k, cc_index inode' = cc_index inode + Z.of_nat k /\ l !! k = Some (cc_cluster inode').
Proof.
  revert s inode c l. induction n as [|n IH]; intros s inode c l V H Hi Hb Hc.
  - exists s, inode. destruct l as [|x l]; [done|]. destruct H as (-> & _). cbn. split_and!; [done..|].
    exists 0%nat. split; [lia|]. by rewrite Hc.
  - cbn [walk_cached]. destruct l as [|x l]; [done|]. destruct H as (-> & Vx & H).
    destruct (fat_next_cluster_ok s x V Vx) as (s1 & E & V1 & S1). rewrite (bind_try _ _ _ _ _ E).
    pose proof (v_geom _ V) as G. destruct l as [|y l].
    + rewrite link_end by done. exists s1, inode. split_and!; [done..|]. exists 0%nat. split; [lia|]. by rewrite Hc.
    + destruct H as [Ey H]. pose proof H as (_ & Vy & _). rewrite (proj2 (link_valid _ _ _ G) (conj Ey Vy)).
      rewrite u32_small by lia. pose proof S1 as (_ & B1 & _).
      edestruct (IH s1 (mkfi (start_cluster inode) (cc_start inode) (cc_index inode + 1) y (cc_valid inode)) y (y :: l) V1)
        as (s2 & i2 & E2 & V2 & S2 & A1 & A2 & A3 & k & A4 & A5); [|cbn; lia|cbn; lia|done|].
      { eapply fchain_frame; [done| |exact H]. intros a _. by apply same_tab. }
      exists s2, i2. split_and!; [exact E2|done|by eapply same_trans|done|done|done|].
      exists (S k). cbn in A4. split; [lia|done].
Qed.

(** The cached position is one of the chain, if it is for this start. *)
Definition cache_ok (i : finode) (l : list Z) : Prop :=
  cc_valid i = true -> (cc_start i = 0 \/ cc_start i = start_cluster i) /\
  (cc_start i = start_cluster i ->
   0 <= cc_index i /\ (l !! Z.to_nat (cc_index i) = Some (cc_cluster i) \/ (l = [] /\ cc_index i = 0 /\ cc_cluster i = 0))).

Lemma next_of_0 s : fat_next_cluster 0 s = (Er (- EINVAL), s).
Proof. done. Qed.

Lemma fat_cluster_at_ok s inode l n : vol_ok s -> fchain s (start_cluster inode) l -> cache_ok inode l -> 0 <= n < 2 ^ 32 ->
  exists s' inode', fat_cluster_at inode n s = (Ok (default 0 (l !! Z.to_nat n), inode'), s') /\ vol_ok s' /\ same s s' /\
    start_cluster inode' = start_cluster inode /\ cache_ok inode' l.
Proof.
  intros V H C Hn. unfold fat_cluster_at.
  set (i1 := if negb (cc_valid inode) || negb (cc_start inode =? start_cluster inode) then mkfi (start_cluster inode) (start_cluster inode) 0 (start_cluster inode) true else inode).
  set (i2 := if n <? cc_index i1 then mkfi (start_cluster inode) (cc_start i1) 0 (start_cluster inode) (cc_valid i1) else i1).
  assert (A : cc_valid i1 = true /\ cc_start i1 = start_cluster inode /\ start_cluster i1 = start_cluster inode /\ 0 <= cc_index i1 /\
    (l !! Z.to_nat (cc_index i1) = Some (cc_cluster i1) \/ (l = [] /\ cc_index i1 = 0 /\ cc_cluster i1 = 0))).
  { subst i1. destruct (cc_valid inode) eqn:Ev, (Z.eqb_spec (cc_start inode) (start_cluster inode)) as [Es|Es]; cbn [negb orb].
    - destruct (proj2 (C Ev) Es) as [C1 C2]. done.
    - cbn. split_and!; [done..|]. destruct H as [[H ->]|H]; [by right|]. left. apply chain_hd in H. by destruct l.
    - cbn. split_and!; [done..|]. destruct H as [[H ->]|H]; [by right|]. left. apply chain_hd in H. by destruct l.
    - cbn. split_and!; [done..|]. destruct H as [[H ->]|H]; [by right|]. left. apply chain_hd in H. by destruct l. }
  assert (B : cc_valid i2 = true /\ cc_start i2 = start_cluster inode /\ start_cluster i2 = start_cluster inode /\ 0 <= cc_index i2 <= n /\
    (l !! Z.to_nat (cc_index i2) = Some (cc_cluster i2) \/ (l = [] /\ cc_index i2 = 0 /\ cc_cluster i2 = 0))).
  { destruct A as (A1 & A2 & A3 & A4 & A5). subst i2. destruct (Z.ltb_spec n (cc_index i1)).
    - cbn. split_and!; [done|done|done|lia|lia|]. destruct H as [[Hz ->]|Hc]; [by right|]. left. apply chain_hd in Hc. by destruct l.
    - split_and!; [done|done|done|done|lia|done]. }
  clearbody i2. destruct B as (B1 & B2 & B3 & B4 & [B5|(-> & B5 & B6)]).
  - destruct H as [[_ ->]|H]; [by rewrite lookup_nil in B5|].
    set (k := Z.to_nat (cc_index i2)) in *. pose proof (take_drop_middle _ _ _ B5) as Tl.
    assert (Hs : chain s (cc_cluster i2) (drop k l)).
    { rewrite (drop_S _ _ _ B5). rewrite <- Tl in H. by apply chain_suffix in H. }
    destruct (walk_cached_ok (Z.to_nat (n - cc_index i2)) s i2 _ _ V Hs) as (s' & i3 & E & V' & S & A1 & A2 & A3 & j & A4 & A5);
      [lia|lia|done|].
    exists s', i3. split_and!; [|done|done|congruence|].
    + rewrite E. rewrite lookup_drop. do 5 f_equal. lia.
    + intros _. split; [right; congruence|]. intros _. split; [lia|]. left. rewrite lookup_drop in A5. rewrite <- A5. f_equal. lia.
  - rewrite B5, B6, Z.sub_0_r. exists s, i2. rewrite lookup_nil. cbn [default from_option].
    assert (E : walk_cached (Z.to_nat n) 0 i2 s = (Ok (0, i2), s)).
    { destruct (Z.to_nat n); [done|]. cbn [walk_cached]. rewrite (bind_try _ _ _ _ _ (next_of_0 s)). done. }
    split_and!; [exact E|done|apply same_refl|done|]. intros _. split; [right; congruence|]. intros _. split; [lia|]. by right.
Qed.

(** ** Freeing a chain *)

(** What freeing the clusters [l] does. *)
Record freed (l : list Z) (s s' : vol) : Prop := {
  f_ok : vol_ok s';
  f_tab : forall c, valid (sbi s) c -> tab s' c = if decide (c ∈ l) then 0 else tab s c;
  f_sbi : sbi s' = sbi s;
  f_next : next_free s' = next_free s;
  f_count : free_clusters s <= total_clusters (sbi s) ->
    free_clusters s' = Z.min (free_clusters s + zlength l) (total_clusters (sbi s));
  f_data : forall x, first_data_sector (sbi s) <= x -> disk s' x = disk s x;
}.

Lemma freed_meta l s s1 s' : freed l s s1 -> meta s1 s' -> freed l s s'.
Proof.
  intros [A1 A2 A3 A4 A5 A6] [B1 B2 B3 B4 B5 B6]. rewrite A3 in *. constructor; try congruence.
  - intros c Hc. by rewrite B2, A2.
  - intros H. by rewrite B5, A5.
  - intros x Hx. by rewrite B6, A6.
Qed.

(** One round: the entry becomes 0 and is counted. *)
Lemma free_one s c : vol_ok s -> valid (sbi s) c -> 0 <= free_clusters s ->
  exists s', (fat_write_fat_entry c 0 ;~ modify count_free) s = (Ok tt, s') /\ freed [c] s s' /\ 0 <= free_clusters s'.
Proof.
  intros V Hc Hf. destruct (fat_write_fat_entry_ok s c 0 V Hc) as (s1 & E & [V1 T1 B1 N1 C1 O1]); [done|done|].
  rewrite (bind_ok _ _ _ _ _ E). unfold modify. eexists. split; [done|]. pose proof (v_geom _ V) as G.
  pose proof (g_total _ G). pose proof (g_spc _ G). pose proof (g_first _ G). pose proof (g_reserved _ G). pose proof (g_clusters _ G).
  pose proof (g_marks _ G). unfold FAT_BAD_CLUSTER in *.
  assert (Hcount : free_clusters (count_free s1) = if free_clusters s <? total_clusters (sbi s) then free_clusters s + 1 else free_clusters s).
  { unfold count_free. rewrite B1, C1. destruct (Z.ltb_spec (free_clusters s) (total_clusters (sbi s))); [|done].
    cbn. rewrite u32_small; lia. }
  assert (Hr : sbi (count_free s1) = sbi s1 /\ next_free (count_free s1) = next_free s1 /\ disk (count_free s1) = disk s1 /\ vol_ok (count_free s1)).
  { unfold count_free. destruct (free_clusters s1 <? total_clusters (sbi s1)); split_and!; first [done|by apply meta_free_clusters]. }
  destruct Hr as (R1 & R2 & R3 & R4). split.
  - constructor; try congruence.
    + intros c' Hc'. unfold tab at 1. rewrite R3, R1. fold (tab s1 c'). rewrite T1 by done.
      destruct (decide (c' = c)) as [->|D]; [by rewrite decide_True by set_solver|by rewrite decide_False by set_solver].
    + intros Hle. rewrite Hcount. change (zlength [c]) with 1. destruct (Z.ltb_spec (free_clusters s) (total_clusters (sbi s))); lia.
    + intros x Hx. rewrite R3. by apply O1; right.
  - rewrite Hcount. destruct (_ <? _); lia.
Qed.

Lemma freed_app l c s s1 s' : freed [c] s s1 -> freed l s1 s' -> free_clusters s <= total_clusters (sbi s) -> freed (c :: l) s s'.
Proof.
  intros [A1 A2 A3 A4 A5 A6] [B1 B2 B3 B4 B5 B6] Hf. rewrite A3 in *. constructor; try congruence.
  - intros x Hx. rewrite B2, A2 by done. destruct (decide (x ∈ l)); [by rewrite decide_True by set_solver|].
    destruct (decide (x ∈ [c])); [by rewrite decide_True by set_solver|by rewrite decide_False by set_solver].
  - intros _. specialize (A5 Hf). change (zlength [c]) with 1 in A5. pose proof (zlength_nonneg l).
    rewrite B5 by lia. rewrite (zlength_cons c l). lia.
  - intros x Hx. by rewrite B6, A6.
Qed.

Lemma free_chain_ok n s c l : vol_ok s -> chain s c l -> (length l <= n)%nat -> 0 <= free_clusters s <= total_clusters (sbi s) ->
  exists s', free_chain n c s = (Ok tt, s') /\ freed l s s'.
Proof.
  revert s c l. induction n as [|n IH]; intros s c l V H Hn Hf; [destruct l; [done|cbn in Hn; lia]|].
  pose proof (v_geom _ V) as G. destruct l as [|x l]; [done|]. pose proof (chain_nodup _ _ _ G H) as N.
  destruct H as (-> & Vx & H). pose proof (valid_range _ _ G Vx). cbn [free_chain].
  destruct (Z.eqb_spec x 0); [lia|].
  destruct (fat_next_cluster_ok s x V Vx) as (s1 & E & V1 & S1). rewrite (bind_try _ _ _ _ _ E).
  pose proof (meta_same _ _ V1 S1) as M1. pose proof (m_sbi _ _ M1) as B1. pose proof (m_count _ _ M1) as C1.
  destruct (free_one s1 x V1) as (s2 & E2 & F2 & P2); [by rewrite B1|lia|].
  assert (F2' : freed [x] s s2).
  { destruct M1 as [? T1 _ N1 _ D1], F2 as [? T2 ? ? Q2 D2]. rewrite B1 in *. constructor; try congruence.
    - intros a Ha. by rewrite T2, T1.
    - intros Hle. rewrite Q2; rewrite ?C1; done.
    - intros a Ha. by rewrite D2, D1. }
  assert (Hb : forall A (k : unit -> F A), (fat_write_fat_entry x 0 ;~ modify count_free ;~ k tt) s1 = k tt s2).
  { intros A k. unfold bind in E2 |- *. destruct (fat_write_fat_entry x 0 s1) as [[[]|] s0]; [|done]. unfold modify in *.
    by injection E2 as ->. }
  destruct l as [|y l].
  - rewrite link_end by done. change (- ENOENT =? - ENOENT) with true. cbv iota.
    rewrite (Hb unit (fun _ => try fat_write_fsinfo ;~ ret tt)).
    destruct (fat_write_fsinfo_ok s2 (f_ok _ _ _ F2)) as (r & s3 & E3 & M3). rewrite (bind_try _ _ _ _ _ E3).
    exists s3. split; [done|by eapply freed_meta].
  - destruct H as [Ey H]. pose proof H as (_ & Vy & _). rewrite (proj2 (link_valid _ _ _ G) (conj Ey Vy)).
    rewrite (Hb unit (fun _ => free_chain n y)).
    pose proof (f_sbi _ _ _ F2') as B2.
    destruct (IH s2 y (y :: l) (f_ok _ _ _ F2)) as (s3 & E3 & F3).
    + eapply fchain_frame; [done| |exact H]. intros a Ha. rewrite (f_tab _ _ _ F2').
      * rewrite decide_False; [done|]. intros ->%list_elem_of_singleton. apply NoDup_cons in N as [N _]. done.
      * by eapply chain_valid.
    + cbn in *. lia.
    + split; [done|]. rewrite B2. pose proof (f_count _ _ _ F2' ltac:(lia)). lia.
    + exists s3. split; [done|]. by eapply freed_app; [|rewrite ?B2|lia].
Qed.

Lemma fat_free_cluster_chain_ok s c l : vol_ok s -> chain s c l -> 0 <= free_clusters s <= total_clusters (sbi s) ->
  exists s', fat_free_cluster_chain c s = (Ok tt, s') /\ freed l s s'.
Proof.
  intros V H Hf. pose proof (v_geom _ V) as G. pose proof (chain_length _ _ _ G H) as L.
  unfold fat_free_cluster_chain. destruct (Z.eqb_spec c 0) as [->|_].
  - destruct l as [|x l]; [done|]. destruct H as (<- & Vx & _). unfold valid in Vx. lia.
  - rewrite bind_sb. apply free_chain_ok; (done || lia).
Qed.

(** freeing a chain sets exactly its clusters free, in all copies of the
    table, touches no data and counts them; it ends for every chain that ends. *)
Theorem fat_free_cluster_chain_exact s c l : vol_ok s -> chain s c l -> 0 <= free_clusters s <= total_clusters (sbi s) ->
  exists s', fat_free_cluster_chain c s = (Ok tt, s') /\ freed l s s'.
Proof. apply fat_free_cluster_chain_ok. Qed.

(** ** The cluster of an index, with allocation *)

Lemma walk_ok n s c l idx prev : vol_ok s -> chain s c l -> 0 <= idx -> idx + Z.of_nat n < 2 ^ 32 ->
  exists s', vol_ok s' /\ same s s' /\
    match l !! n with
    | Some x => exists p, walk n c idx prev s = (Ok (x, idx + Z.of_nat n, p), s')
    | None => walk n c idx prev s = (Ok (0, idx + zlength l, default 0 (last l)), s')
    end.
Proof.
  revert s c l idx prev. induction n as [|n IH]; intros s c l idx prev V H Hi Hb.
  - exists s. destruct l as [|x l]; [done|]. destruct H as (-> & _). split_and!; [done|apply same_refl|].
    exists prev. cbn. by rewrite Z.add_0_r.
  - pose proof (v_geom _ V) as G. destruct l as [|x l]; [done|]. destruct H as (-> & Vx & H).
    pose proof (valid_range _ _ G Vx). cbn [walk]. destruct (Z.eqb_spec x 0); [lia|].
    destruct (fat_next_cluster_ok s x V Vx) as (s1 & E & V1 & S1).
    destruct l as [|y l].
    + exists s1. split_and!; [done|done|]. assert ([x] !! S n = None) as -> by apply lookup_nil.
      rewrite (bind_try _ _ _ _ _ E), link_end by done. change (- ENOENT =? - ENOENT) with true. cbv iota.
      rewrite u32_small by lia. by change (zlength [x]) with 1.
    + destruct H as [Ey H]. pose proof H as (_ & Vy & _). pose proof S1 as (_ & B1 & _).
      destruct (IH s1 y (y :: l) (idx + 1) x V1) as (s2 & V2 & S2 & R); [|lia|lia|].
      { eapply fchain_frame; [done| |exact H]. intros a _. by apply same_tab. }
      exists s2. split_and!; [done|by eapply same_trans|].
      rewrite (bind_try _ _ _ _ _ E), (proj2 (link_valid _ _ _ G) (conj Ey Vy)).
      rewrite u32_small by lia. change ((x :: y :: l) !! S n) with ((y :: l) !! n).
      destruct ((y :: l) !! n) as [z|].
      * destruct R as (p & R). exists p. rewrite R. do 4 f_equal. lia.
      * rewrite R. rewrite (zlength_cons x). do 4 f_equal. lia.
Qed.

Lemma last_default (l : list Z) x : default 0 (last (l ++ [x])) = x.
Proof. by rewrite last_snoc. Qed.

(** A chain gets one more cluster. *)
Lemma chain_snoc s s' c l x : sbi s' = sbi s -> chain s c l -> valid (sbi s) x -> x ∉ l ->
  (forall a, a ∈ l -> tab s' a = if decide (a = default 0 (last l)) then x else tab s a) -> tab s' x = FAT_EOC_MAX ->
  geom (sbi s) -> chain s' c (l ++ [x]).
Proof.
  intros B H Vx Nx T Tx G. revert c H. pose proof (fun c => chain_nodup s c l G) as ND. revert Nx T ND.
  induction l as [|y l IH]; intros Nx T ND c H; [done|]. pose proof (ND c H) as N. destruct H as (-> & Vy & H). cbn [app chain]. rewrite B.
  split_and!; [done|done|]. destruct l as [|z l].
  - cbn. rewrite (T y) by set_solver. rewrite decide_True by done. rewrite B. split; [done|]. split_and!; [done|done|].
    rewrite Tx. done.
  - destruct H as [Ez H]. cbn [app]. split.
    + rewrite (T y) by set_solver. rewrite decide_False; [done|]. intros Ey. rewrite last_cons_cons in Ey.
      apply NoDup_cons in N as [N _]. apply N. destruct (last (z :: l)) as [w|] eqn:Ew; [|by apply last_None in Ew].
      cbn in Ey. subst w. by apply last_Some_elem_of.
    + apply IH; [set_solver| |by intros; eapply chain_nodup|done].
      intros a Ha. rewrite (T a) by set_solver. by rewrite last_cons_cons.
Qed.

(** A chain [l] gets the clusters [l'], that were free, at its end. *)
Record extended (l l' : list Z) (s s' : vol) : Prop := {
  e_ok : vol_ok s';
  e_sbi : sbi s' = sbi s;
  e_next : 0 <= next_free s' < 2 ^ 32;
  e_free : forall x, x ∈ l' -> valid (sbi s) x /\ tab s x = 0;
  e_nodup : NoDup l';
  e_tab : forall c, valid (sbi s) c -> c ∉ l -> c ∉ l' -> tab s' c = tab s c;
  e_count : free_clusters s' = u32 (free_clusters s - zlength l');
  e_data : forall x, first_data_sector (sbi s) <= x -> disk s' x = disk s x;
}.

Lemma extended_nil l s s' : meta s s' -> 0 <= next_free s < 2 ^ 32 -> 0 <= free_clusters s < 2 ^ 32 -> extended l [] s s'.
Proof.
  intros [M1 M2 M3 M4 M5 M6] Hn Hf. constructor; try done; [by rewrite M4|set_solver|constructor|auto|].
  rewrite M5. change (zlength []) with 0. by rewrite Z.sub_0_r, u32_small.
Qed.

Lemma u32_sub_sub a b : u32 (u32 a - b) = u32 (a - b).
Proof. unfold u32. by rewrite Zminus_mod_idemp_l. Qed.

Lemma first_free_spec s l c : first_free s l = Some c -> tab s c = 0.
Proof.
  induction l as [|x l IH]; [done|]. rewrite first_free_cons. case_decide; [by intros [= <-]|done].
Qed.

(** One more cluster for a file. *)
Lemma alloc_extends s start l c s1 : vol_ok s -> fchain s start l -> 0 <= next_free s < 2 ^ 32 -> 0 <= free_clusters s < 2 ^ 32 ->
  valid (sbi s) c -> tab s c = 0 -> took (default 0 (last l)) c s s1 ->
  chain s1 (if start =? 0 then c else start) (l ++ [c]) /\ extended l [c] s s1 /\ 0 <= free_clusters s1 < 2 ^ 32.
Proof.
  intros V H Hn Hf Hc Z0 [T1 T2 T3 T4 T5 T6]. pose proof (v_geom _ V) as G. pose proof (valid_range _ _ G Hc) as R.
  assert (Nc : c ∉ l).
  { intros Hin. destruct H as [[_ ->]|H]; [set_solver|]. pose proof (chain_tab _ _ _ _ G H Hin). lia. }
  assert (Hl : forall a, a ∈ l -> valid (sbi s) a).
  { intros a Ha. destruct H as [[_ ->]|H]; [set_solver|]. by eapply chain_valid. }
  split_and!.
  - destruct H as [[-> ->]|H].
    + cbn. rewrite T3. split_and!; [done|done|]. rewrite T2 by done. rewrite decide_False by (intros [? _]; done).
      by rewrite decide_True.
    + assert (Hs : 2 <= start). { destruct l as [|x l]; [done|]. destruct H as (-> & Vx & _). apply Vx. }
      destruct (Z.eqb_spec start 0); [lia|]. eapply chain_snoc; try done.
      * intros a Ha. rewrite T2 by auto. destruct (decide (a = default 0 (last l))) as [E|E].
        { rewrite decide_True; [done|]. split; [|done]. pose proof (Hl a Ha) as Va. unfold valid in Va. lia. }
        rewrite decide_False by tauto. rewrite decide_False; [done|]. intros ->. done.
      * rewrite T2 by done. rewrite decide_False; [by rewrite decide_True|]. intros [_ E].
        apply Nc. rewrite E. destruct (last l) as [w|] eqn:El; [by apply last_Some_elem_of|]. apply last_None in El. by subst l.
  - constructor; try done.
    + rewrite T4. case_decide; lia.
    + intros x ->%list_elem_of_singleton. done.
    + apply NoDup_singleton.
    + intros x Hx Nl Nx. rewrite T2 by done. rewrite (decide_False (P := x = c)) by set_solver.
      rewrite decide_False; [done|]. intros [N0 ->]. destruct (last l) as [w|] eqn:El; [|done].
      apply Nl. by apply last_Some_elem_of.
  - rewrite T5. apply u32_range.
  - rewrite T5. apply u32_range.
Qed.

Lemma extended_app l c l' s s1 s' : extended l [c] s s1 -> extended (l ++ [c]) l' s1 s' ->
  (forall a, a ∈ l ++ [c] -> tab s1 a <> 0) -> extended l (c :: l') s s'.
Proof.
  intros [A1 A2 A3 A4 A5 A6 A7 A8] [B1 B2 B3 B4 B5 B6 B7 B8] Hu. rewrite A2 in *.
  assert (Hl : forall x, x ∈ l' -> x ∉ l ++ [c]) by (intros x Hx Hin; apply (Hu x Hin), B4, Hx).
  constructor; try done; try congruence.
  - intros x [->|Hx]%elem_of_cons; [apply A4; set_solver|]. destruct (B4 x Hx) as [Vx Zx]. split; [done|].
    rewrite <- A6; [done|done|specialize (Hl x Hx); set_solver..].
  - apply NoDup_cons. split; [intros H; apply (Hl c H); set_solver|done].
  - intros x Vx Nl Nx. rewrite B6, A6 by (done || set_solver). done.
  - rewrite B7, A7, u32_sub_sub, (zlength_cons c l'). f_equal. change (zlength [c]) with 1. lia.
  - intros x Hx. by rewrite B8, A8.
Qed.

(** The clusters before the one that could not be added stay in the chain. *)
Lemma extend_ok n s inode l : vol_ok s -> fchain s (start_cluster inode) l -> 0 <= next_free s < 2 ^ 32 -> 0 <= free_clusters s < 2 ^ 32 ->
  exists r inode' l' s', extend n (default 0 (last l)) inode s = (Ok (r, inode'), s') /\ extended l l' s s' /\
    fchain s' (start_cluster inode') (l ++ l') /\
    inode' = set_start (start_cluster inode') inode /\
    (r = Ok (default 0 (last (l ++ l'))) /\ length l' = n \/
     r = Er (- ENOSPC) /\ (length l' < n)%nat /\ forall c, valid (sbi s) c -> tab s' c <> 0).
Proof.
  revert s inode l. induction n as [|n IH]; intros s inode l V H Hn Hf.
  - exists (Ok (default 0 (last l))), inode, [], s. rewrite app_nil_r. split_and!; [done|apply extended_nil; [by apply meta_refl|done|done]|done|by destruct inode|by left].
  - pose proof (v_geom _ V) as G. cbn [extend].
    assert (Hp : default 0 (last l) = 0 \/ valid (sbi s) (default 0 (last l))).
    { destruct (last l) as [w|] eqn:El; [|by left]. right. apply last_Some_elem_of in El.
      destruct H as [[_ ->]|H]; [set_solver|]. by eapply chain_valid. }
    pose proof (fat_alloc_cluster_ok s _ V Hn Hp) as A. destruct (first_free s (scan_order s)) as [c|] eqn:E.
    + destruct A as (s1 & E1 & T1 & Vc & Zc). rewrite (bind_try _ _ _ _ _ E1).
      destruct (alloc_extends s (start_cluster inode) l c s1 V H Hn Hf Vc Zc T1) as (Ch & X & Hf1).
      set (i1 := if start_cluster inode =? 0 then set_start c inode else inode).
      assert (Hi1 : start_cluster i1 = if start_cluster inode =? 0 then c else start_cluster inode).
      { subst i1. by destruct (start_cluster inode =? 0). }
      pose proof (e_sbi _ _ _ _ X) as B1.
      destruct (IH s1 i1 (l ++ [c]) (e_ok _ _ _ _ X)) as (r & i2 & l' & s2 & E2 & X2 & Ch2 & Hi2 & R).
      { right. by rewrite Hi1. } { apply X. } { done. }
      rewrite last_snoc in E2. cbn [default from_option] in E2.
      exists r, i2, (c :: l'), s2. rewrite B1 in R. rewrite <- app_assoc in *. cbn [app] in *. split_and!; [done| |done| |].
      * eapply extended_app; [done|done|]. intros a Ha. pose proof (chain_tab _ _ _ _ ltac:(by rewrite B1) Ch Ha). lia.
      * rewrite Hi2. subst i1. by destruct (start_cluster inode =? 0).
      * destruct R as [[-> R]|(-> & R1 & R2)]; [left|right]; cbn; (split; [done|]); [lia|split; [lia|done]].
    + destruct A as (s1 & E1 & M1). rewrite (bind_try _ _ _ _ _ E1).
      exists (Er (- ENOSPC)), inode, [], s1. rewrite app_nil_r. split_and!; [done|by apply extended_nil| |by destruct inode|].
      * destruct H as [H|H]; [by left|right]. eapply fchain_frame; [apply M1| |exact H].
        intros x Hx. apply M1. by eapply chain_valid.
      * right. split; [done|]. split; [cbn; lia|]. intros c Hc. rewrite (m_tab _ _ M1) by done.
        apply (proj1 (first_free_none _ _) E). apply elem_of_order; [apply V|done|done].
Qed.

(** The cluster of an index, with the clusters that are added. *)
Lemma fat_cluster_at_alloc_ok s inode l n : vol_ok s -> fchain s (start_cluster inode) l ->
  0 <= next_free s < 2 ^ 32 -> 0 <= free_clusters s < 2 ^ 32 -> 0 <= n < 2 ^ 32 - 1 ->
  exists r inode' l' s', fat_cluster_at_alloc inode n s = (Ok (r, inode'), s') /\ extended l l' s s' /\
    fchain s' (start_cluster inode') (l ++ l') /\ inode' = set_start (start_cluster inode') inode /\
    ((exists c, r = Ok c /\ (l ++ l') !! Z.to_nat n = Some c /\ zlength (l ++ l') = Z.max (zlength l) (n + 1)) \/
     (r = Er (- ENOSPC) /\ zlength (l ++ l') <= n /\ forall c, valid (sbi s) c -> tab s' c <> 0)).
Proof.
  intros V H Hn Hf Hx. pose proof (v_geom _ V) as G.
  assert (Hfin : forall s1, vol_ok s1 -> same s s1 -> zlength l <= n ->
    exists r inode' l' s', extend (Z.to_nat (n + 1 - zlength l)) (default 0 (last l)) inode s1 = (Ok (r, inode'), s') /\ extended l l' s s' /\
    fchain s' (start_cluster inode') (l ++ l') /\ inode' = set_start (start_cluster inode') inode /\
    ((exists c, r = Ok c /\ (l ++ l') !! Z.to_nat n = Some c /\ zlength (l ++ l') = Z.max (zlength l) (n + 1)) \/
     (r = Er (- ENOSPC) /\ zlength (l ++ l') <= n /\ forall c, valid (sbi s) c -> tab s' c <> 0))).
  { intros s1 V1 S1 Hl. pose proof S1 as (D1 & B1 & N1 & C1).
    destruct (extend_ok (Z.to_nat (n + 1 - zlength l)) s1 inode l V1) as (r & i2 & l' & s2 & E2 & X2 & Ch2 & Hi2 & R).
    { destruct H as [H|H]; [by left|right]. eapply fchain_frame; [done| |exact H]. intros; by apply same_tab. }
    { by rewrite N1. } { by rewrite C1. }
    exists r, i2, l', s2. split_and!; [done| |done|done|].
    - destruct X2 as [X1 X2 X3 X4 X5 X6 X7 X8]. rewrite B1, C1, D1 in *. constructor; try done.
      + intros x Hin. rewrite <- (same_tab _ _ x S1). by apply X4.
      + intros c Hc Nl Nl'. rewrite <- (same_tab _ _ c S1). by apply X6.
    - rewrite B1 in R. rewrite zlength_app. unfold zlength in *. destruct R as [[-> R]|(-> & R1 & R2)]; [left|right].
      + eexists. split_and!; [done| |lia]. assert (l' <> []) by (intros ->; cbn in R; lia).
        destruct (exists_last H0) as (l0 & w & ->). rewrite app_assoc, last_snoc. cbn [default from_option].
        rewrite length_app in R. cbn in R. apply lookup_snoc_Some. right. split; [|done]. rewrite length_app. lia.
      + split_and!; [done|lia|done]. }
  unfold fat_cluster_at_alloc. set (c0 := start_cluster inode) in *.
  destruct (Z.eqb_spec c0 0) as [Z0|N0]; cbn [negb andb].
  - assert (El : l = []). { destruct H as [[_ ->]|H]; [done|]. destruct l as [|x l]; [done|]. destruct H as (E & Vx & _). unfold valid in Vx. lia. }
    rewrite El in *. assert (Ew : walk (Z.to_nat n) c0 0 0 s = (Ok (0, 0, 0), s)).
    { rewrite Z0. by destruct (Z.to_nat n). }
    rewrite (bind_try _ _ _ _ _ Ew). cbn [Z.eqb negb]. apply (Hfin s V (same_refl s)). change (zlength (@nil Z)) with 0. lia.
  - destruct H as [[? _]|H]; [done|]. assert (Hl0 : l !! 0%nat = Some c0) by (apply chain_hd in H; by destruct l).
    destruct (Z.eqb_spec n 0) as [->|Nn].
    + exists (Ok c0), inode, [], s. rewrite app_nil_r. split_and!; [done|apply extended_nil; [by apply meta_refl|done|done]|by right|by destruct inode|].
      left. exists c0. split_and!; [done|done|]. destruct l; [done|]. unfold zlength. cbn. lia.
    + destruct (walk_ok (Z.to_nat n) s c0 l 0 0 V H ltac:(lia) ltac:(lia)) as (s1 & V1 & S1 & W).
      destruct (l !! Z.to_nat n) as [x|] eqn:Ex.
      * destruct W as (p & W). rewrite (bind_try _ _ _ _ _ W).
        assert (Vx : valid (sbi s) x) by (eapply chain_valid; [done|by eapply list_elem_of_lookup_2]).
        pose proof (valid_range _ _ G Vx). destruct (Z.eqb_spec x 0); [lia|]. cbn [negb].
        exists (Ok x), inode, [], s1. rewrite app_nil_r. split_and!; [done|apply extended_nil; [by apply meta_same|done|done]| |by destruct inode|].
        { right. eapply fchain_frame; [apply S1| |exact H]. intros; by apply same_tab. }
        left. exists x. split_and!; [done|done|]. apply lookup_lt_Some in Ex. unfold zlength. lia.
      * rewrite (bind_try _ _ _ _ _ W). cbn [Z.eqb negb]. rewrite Z.add_0_l.
        apply lookup_ge_None in Ex. apply (Hfin s1 V1 S1). unfold zlength. lia.
Qed.

(** Of an index that the chain has. *)
Lemma fat_cluster_at_alloc_in s inode l n c : vol_ok s -> fchain s (start_cluster inode) l -> 0 <= n < 2 ^ 32 ->
  l !! Z.to_nat n = Some c ->
  exists s', fat_cluster_at_alloc inode n s = (Ok (Ok c, inode), s') /\ vol_ok s' /\ same s s'.
Proof.
  intros V [[_ ->]|H] Hn Hc; [done|]. pose proof (v_geom _ V) as G. pose proof (chain_hd _ _ _ H) as Hh.
  assert (Vc : valid (sbi s) c) by (eapply chain_valid; [done|by eapply list_elem_of_lookup_2]).
  assert (Vs : valid (sbi s) (start_cluster inode)).
  { eapply chain_valid; [done|]. destruct l as [|x l]; [done|]. cbn in Hh. injection Hh as <-. by left. }
  pose proof (valid_range _ _ G Vc). pose proof (valid_range _ _ G Vs).
  unfold fat_cluster_at_alloc. destruct (Z.eqb_spec (start_cluster inode) 0); [lia|]. cbn [negb andb].
  destruct (Z.eqb_spec n 0) as [->|N0].
  - exists s. split_and!; [|done|apply same_refl]. change (Z.to_nat 0) with 0%nat in Hc. destruct l as [|x l]; [done|].
    cbn in Hh, Hc. by simplify_eq.
  - destruct (walk_ok (Z.to_nat n) s (start_cluster inode) l 0 0 V H ltac:(lia) ltac:(lia)) as (s' & V' & S & W).
    rewrite Hc in W. destruct W as (p & W). exists s'. split; [|done]. rewrite (bind_try _ _ _ _ _ W).
    by destruct (Z.eqb_spec c 0); [lia|].
Qed.

(** [fat_cluster_at_alloc] gives the cluster of an index: the one the chain
    has, and then no entry changes; or the last of the clusters it adds, that
    were all free, at the end of the chain (the start of the file when it had
    none), and no entry of another chain changes.  When the volume is full it
    fails with [-ENOSPC], and what could be added stays in the chain. *)
Theorem fat_cluster_at_alloc_extends s inode l n : vol_ok s -> fchain s (start_cluster inode) l ->
  0 <= next_free s < 2 ^ 32 -> 0 <= free_clusters s < 2 ^ 32 -> 0 <= n < 2 ^ 32 - 1 ->
  exists r inode' l' s', fat_cluster_at_alloc inode n s = (Ok (r, inode'), s') /\ extended l l' s s' /\
    fchain s' (start_cluster inode') (l ++ l') /\ inode' = set_start (start_cluster inode') inode /\
    ((exists c, r = Ok c /\ (l ++ l') !! Z.to_nat n = Some c /\ zlength (l ++ l') = Z.max (zlength l) (n + 1)) \/
     (r = Er (- ENOSPC) /\ zlength (l ++ l') <= n /\ forall c, valid (sbi s) c -> tab s' c <> 0)).
Proof. apply fat_cluster_at_alloc_ok. Qed.

(** ** Counting *)

Lemma count_chain_ok n s c l : vol_ok s -> chain s c l -> (length l <= n)%nat ->
  exists s', count_chain n c s = (Ok (zlength l), s') /\ vol_ok s' /\ same s s'.
Proof.
  revert s c l. induction n as [|n IH]; intros s c l V H Hn; [destruct l; [done|cbn in Hn; lia]|].
  pose proof (v_geom _ V) as G. pose proof (chain_length _ _ _ G H) as L. pose proof (g_marks _ G). unfold FAT_BAD_CLUSTER in *.
  destruct l as [|x l]; [done|]. destruct H as (-> & Vx & H). pose proof (valid_range _ _ G Vx).
  cbn [count_chain]. destruct (Z.eqb_spec x 0); [lia|].
  destruct (fat_next_cluster_ok s x V Vx) as (s1 & E & V1 & S1). rewrite (bind_try _ _ _ _ _ E).
  destruct l as [|y l].
  - rewrite link_end by done. by exists s1.
  - destruct H as [Ey H]. pose proof H as (_ & Vy & _). rewrite (proj2 (link_valid _ _ _ G) (conj Ey Vy)).
    destruct (IH s1 y (y :: l) V1) as (s2 & E2 & V2 & S2); [|cbn in *; lia|].
    { pose proof S1 as (_ & B1 & _). eapply fchain_frame; [done| |exact H]. intros a _. by apply same_tab. }
    rewrite (bind_ok _ _ _ _ _ E2). exists s2. split_and!; [|done|by eapply same_trans].
    unfold ret. do 2 f_equal. rewrite (zlength_cons x). apply u32_small. unfold zlength. cbn in *. lia.
Qed.

(** The free clusters of the table. *)
Definition free_set (s : vol) : list Z := filter (fun c => tab s c = 0) (seqZ 2 (total_clusters (sbi s))).

Lemma count_from_ok n s c : vol_ok s -> 2 <= c -> c + Z.of_nat n <= total_clusters (sbi s) + 2 ->
  exists s', count_from n c s = (Ok (zlength (filter (fun c => tab s c = 0) (seqZ c (Z.of_nat n)))), s') /\ vol_ok s' /\ same s s'.
Proof.
  revert s c. induction n as [|n IH]; intros s c V Hc Hn; [by exists s|].
  pose proof (v_geom _ V) as G. assert (Hv : valid (sbi s) c) by (unfold valid; lia). pose proof (valid_range _ _ G Hv).
  cbn [count_from]. destruct (fat_read_fat_entry_ok s c V Hv) as (s1 & E & V1 & S1). rewrite (bind_ok _ _ _ _ _ E).
  rewrite u32_small by lia. pose proof S1 as (_ & B1 & _).
  destruct (IH s1 (c + 1) V1 ltac:(lia) ltac:(rewrite B1; lia)) as (s2 & E2 & V2 & S2). rewrite (bind_ok _ _ _ _ _ E2).
  exists s2. split_and!; [|done|by eapply same_trans]. unfold ret. do 2 f_equal.
  rewrite (seqZ_cons c) by lia. replace (Z.pred (Z.of_nat (S n))) with (Z.of_nat n) by lia. rewrite <- Z.add_1_r.
  assert (Ef : filter (fun c => tab s1 c = 0) (seqZ (c + 1) (Z.of_nat n)) = filter (fun c => tab s c = 0) (seqZ (c + 1) (Z.of_nat n))).
  { apply list_filter_iff. intros x. by rewrite (same_tab _ _ _ S1). }
  rewrite Ef, filter_cons. destruct (Z.eqb_spec (tab s c) 0) as [Z0|Z0]; [rewrite decide_True by done|by rewrite decide_False by done].
  rewrite zlength_cons. apply u32_small. split; [pose proof (zlength_nonneg (filter (fun c => tab s c = 0) (seqZ (c + 1) (Z.of_nat n)))); lia|].
  pose proof (length_filter (fun c => tab s c = 0) (seqZ (c + 1) (Z.of_nat n))) as Hl. rewrite length_seqZ in Hl.
  pose proof (g_marks _ G). unfold FAT_BAD_CLUSTER, zlength in *. lia.
Qed.

Lemma fat_cluster_count_ok s inode l : vol_ok s -> fchain s (start_cluster inode) l ->
  exists s', fat_cluster_count inode s = (Ok (zlength l), s') /\ vol_ok s' /\ same s s'.
Proof.
  intros V H. pose proof (v_geom _ V) as G. unfold fat_cluster_count. rewrite bind_sb. destruct H as [[E ->]|H].
  - exists s. split; [|done]. rewrite E. by destruct (Z.to_nat _).
  - apply count_chain_ok; [done|done|]. pose proof (chain_length _ _ _ G H). lia.
Qed.

(** the two counts are exact: the clusters of a chain, and the free clusters
    of the table, each in as many rounds as the volume has clusters. *)
Theorem fat_counts_exact s inode l : vol_ok s -> fchain s (start_cluster inode) l ->
  (exists s', fat_cluster_count inode s = (Ok (zlength l), s') /\ same s s') /\
  (exists s', fat_count_free_clusters s = (Ok (zlength (free_set s)), s') /\ same s s').
Proof.
  intros V H. split; [destruct (fat_cluster_count_ok s inode l V H) as (s' & ? & _ & ?); by exists s'|].
  pose proof (g_clusters _ (v_geom _ V)). unfold fat_count_free_clusters. rewrite bind_sb.
  destruct (count_from_ok (Z.to_nat (total_clusters (sbi s))) s 2 V) as (s' & E & _ & S); [lia|lia|].
  rewrite Z2Nat.id in E by lia. by exists s'.
Qed.

(** [fat_cluster_at] gives the cluster of an index of the chain, 0 behind its
    end, whatever position an earlier call has left in the inode, and leaves a
    position of the chain there. *)
Theorem fat_cluster_at_exact s inode l n : vol_ok s -> fchain s (start_cluster inode) l -> cache_ok inode l -> 0 <= n < 2 ^ 32 ->
  exists s' inode', fat_cluster_at inode n s = (Ok (default 0 (l !! Z.to_nat n), inode'), s') /\ same s s' /\
    start_cluster inode' = start_cluster inode /\ cache_ok inode' l.
Proof.
  intros V H C Hn. destruct (fat_cluster_at_ok s inode l n V H C Hn) as (s' & i' & E & _ & S & A & B). by exists s', i'.
Qed.

(** ** Inode numbers *)

(** the inode number of an entry gives back its place, on a volume whose
    data has less than 4 GiB; on a larger one two entries 4 GiB apart have the
    same number. *)
Theorem inode_number_roundtrip i cluster offset : geom i -> valid i cluster ->
  0 <= offset -> offset + FAT_ENTRY_SIZE <= cluster_size i -> offset mod FAT_ENTRY_SIZE = 0 ->
  ((cluster - 2) * cluster_size i + offset + 2 < 2 ^ 32 ->
     fat_ino_location i (fat_entry_ino i cluster offset) = Some (cluster, offset)) /\
  (forall k, k * cluster_size i = 2 ^ 32 -> fat_entry_ino i (cluster + k) offset = fat_entry_ino i cluster offset).
Proof.
  intros G V Ho Hoc Hm. pose proof (valid_range _ _ G V) as R. pose proof (g_spc _ G) as Hs. pose proof (g_size _ G) as Hz.
  unfold FAT_ENTRY_SIZE in *. split.
  - intros Hb. unfold valid in V. assert (0 <= (cluster - 2) * cluster_size i) by (apply Z.mul_nonneg_nonneg; lia).
    unfold fat_entry_ino, fat_ino_location, FAT_ROOT_INO, FAT_ENTRY_SIZE.
    rewrite (u32_small (cluster - 2)), (u32_small ((cluster - 2) * _)) by lia.
    rewrite (u32_small (1 + 1 + _ + _)) by lia.
    set (ph := (cluster - 2) * cluster_size i + offset) in *.
    replace (1 + 1 + (cluster - 2) * cluster_size i + offset) with (ph + 2) by (subst ph; lia).
    destruct (Z.leb_spec (ph + 2) 1); [lia|]. replace (ph + 2 - 1 - 1) with ph by lia. rewrite (u32_small ph) by lia.
    assert (Ep : ph = offset + (cluster - 2) * cluster_size i) by (subst ph; lia).
    assert (E1 : ph mod 32 = 0).
    { rewrite Ep, Hz. replace (offset + (cluster - 2) * (512 * sectors_per_cluster i)) with (offset + ((cluster - 2) * 16 * sectors_per_cluster i) * 32) by lia.
      by rewrite Z.mod_add. }
    rewrite E1. cbn [Z.eqb negb].
    assert (E2 : ph / cluster_size i = cluster - 2) by (rewrite Ep, Z.div_add, Z.div_small by lia; lia).
    assert (E3 : ph mod cluster_size i = offset) by (rewrite Ep, Z.mod_add, Z.mod_small by lia; lia).
    rewrite E2, E3. replace (cluster - 2 + 2) with cluster by lia. rewrite (u32_small cluster), (u32_small (cluster - 2)) by lia.
    rewrite (u32_small (offset + 32)) by lia.
    destruct (Z.geb_spec (cluster - 2) (total_clusters i)); [lia|]. destruct (Z.gtb_spec (offset + 32) (cluster_size i)); [lia|done].
  - intros k Hk. unfold fat_entry_ino. f_equal. f_equal. f_equal. unfold u32.
    rewrite !(Z.mul_mod_idemp_l _ (cluster_size i)) by lia.
    replace ((cluster + k - 2) * cluster_size i) with ((cluster - 2) * cluster_size i + 1 * 2 ^ 32) by lia.
    by rewrite Z.mod_add.
Qed.

(** A read of the table that fails leaves its slot valid for the sector that it
    held, with what the failed transfer has put there. *)
Lemma failed_read_poisons_cache s sector x e torn rest :
  faults s = Fails e torn :: rest -> find_slot sector (fat_cache s) = None -> fat_cache s !! victim (fat_cache s) = Some x ->
  exists s', cached sector s = (Er (Z.neg e), s') /\
    fat_cache s' !! victim (fat_cache s) = Some (mkslot (c_valid x) (c_sector x) (c_age x) torn).
Proof.
  intros Hf Hn Hx. unfold cached. rewrite bind_get, Hn. unfold bind, read_buf, next_fault. rewrite Hf. cbn.
  eexists. split; [done|]. cbn. by rewrite list_lookup_alter_eq, Hx.
Qed.

(** ** A small volume

    Eight clusters of one sector; the table is sector 2 with its copy in 3, the
    data begins at sector 4.  [tbl] gives the entries from cluster 2 on. *)

Definition wit_sbi : sb_info := mksbi 512 1 2 2 1 12 6 1 4 8 512 false.

Definition entry_bytes (v : Z) : list Z := [v mod 256; v / 256 mod 256; v / 65536 mod 256; v / 16777216 mod 256].
Definition table_sector (tbl : list Z) : list Z :=
  take 512 (concat (map entry_bytes ([0; 0] ++ tbl)) ++ replicate 512 0).
Definition wit_vol (tbl : list Z) (data : Z -> list Z) (next free : Z) : vol :=
  mkvol (fun x => if (x =? 2) || (x =? 3) then table_sector tbl else if x <? 4 then replicate 512 0 else data x)
    wit_sbi next free (replicate 4 (mkslot false 0 0 (replicate 512 0))) [].

Lemma wit_geom : geom wit_sbi.
Proof. constructor; cbn; unfold FAT_BAD_CLUSTER; lia. Qed.

Lemma wit_vol_ok tbl data next free : Forall (fun v => 0 <= v < 2 ^ 32) tbl -> (forall x, length (data x) = 512%nat /\ Forall is_u8 (data x)) ->
  vol_ok (wit_vol tbl data next free).
Proof.
  intros Ht Hd. assert (Hz : Forall is_u8 (replicate 512 0)) by (by apply Forall_replicate).
  assert (He : forall v, 0 <= v < 2 ^ 32 -> Forall is_u8 (entry_bytes v)).
  { intros v Hv. unfold entry_bytes, is_u8. repeat constructor; apply Z.mod_pos_bound; lia. }
  assert (Ht2 : Forall is_u8 (table_sector tbl)).
  { apply Forall_take, Forall_app. split; [|done]. apply Forall_concat, Forall_map.
    apply Forall_app. split; [do 2 (constructor; [by apply He|]); constructor|]. eapply Forall_impl; [exact Ht|]. cbn. intros v. apply He. }
  constructor.
  - apply wit_geom.
  - intros x. cbn [disk wit_vol]. destruct (_ || _); [split; [|done]|destruct (_ <? _); [by split|apply Hd]].
    unfold table_sector. rewrite length_take, length_app, length_replicate. lia.
  - done.
  - intros x Hx. cbn in Hx. intros Hv. repeat (apply elem_of_cons in Hx as [->|Hx]; [done|]). by apply not_elem_of_nil in Hx.
  - intros k c Hk Hc. cbn in Hk. assert (c / 128 = 0) as Ec by (apply Z.div_small; unfold valid in Hc; cbn in Hc; lia).
    unfold raw. rewrite Ec. cbn [reserved_sectors fat_size32 sbi wit_vol wit_sbi]. assert (k = 0 \/ k = 1) as [-> | ->] by lia; done.
  - done.
Qed.

Definition zero_data (x : Z) : list Z := replicate 512 0.
Lemma zero_data_ok x : length (zero_data x) = 512%nat /\ Forall is_u8 (zero_data x).
Proof. split; [done|]. by apply Forall_replicate. Qed.

(** A file of clusters 2, 4 and 3; cluster 5 is another file. *)
Definition wit1 : vol := wit_vol [4; FAT_EOC_MAX; 3; FAT_EOC_MAX; 0; 0; 0; 0] zero_data 4 4.
Lemma wit1_ok : vol_ok wit1.
Proof.
  apply wit_vol_ok; [|apply zero_data_ok]. unfold FAT_EOC_MAX. repeat constructor; lia.
Qed.
Lemma wit1_chain : chain wit1 2 [2; 4; 3].
Proof. cbn. unfold valid. cbn. repeat split; try lia; vm_compute; congruence. Qed.

Definition wit_inode : finode := mkfi 2 0 0 0 false.

Lemma wit_fchain : fchain wit1 (start_cluster wit_inode) [2; 4; 3].
Proof. right. apply wit1_chain. Qed.

Lemma fat_alloc_cluster_refines_witness :
  exists s', fat_alloc_cluster 3 wit1 = (Ok 6, s') /\ took 3 6 wit1 s'.
Proof.
  destruct (fat_alloc_cluster_refines wit1 3 wit1_ok) as [(c & s' & E & Ff & _ & _ & T)|[H _]].
  - split; [discriminate|reflexivity].
  - right. split; [discriminate|reflexivity].
  - assert (c = 6) as -> by (vm_compute in Ff; congruence). exists s'. exact (conj E T).
  - exfalso. apply (H 6); [split; [discriminate|reflexivity]|vm_compute; reflexivity].
Defined.

Lemma fat_free_cluster_chain_exact_witness :
  exists s', fat_free_cluster_chain 2 wit1 = (Ok tt, s') /\ freed [2; 4; 3] wit1 s'.
Proof. apply (fat_free_cluster_chain_exact wit1 2 [2; 4; 3] wit1_ok wit1_chain). split; discriminate. Defined.

Lemma fat_cluster_at_alloc_extends_witness :
  exists r inode' l' s', fat_cluster_at_alloc wit_inode 4 wit1 = (Ok (r, inode'), s') /\ extended [2; 4; 3] l' wit1 s' /\
    fchain s' (start_cluster inode') ([2; 4; 3] ++ l') /\ inode' = set_start (start_cluster inode') wit_inode /\
    ((exists c, r = Ok c /\ ([2; 4; 3] ++ l') !! Z.to_nat 4 = Some c /\ zlength ([2; 4; 3] ++ l') = Z.max (zlength [2; 4; 3]) (4 + 1)) \/
     (r = Er (- ENOSPC) /\ zlength ([2; 4; 3] ++ l') <= 4 /\ forall c, valid (sbi wit1) c -> tab s' c <> 0)).
Proof.
  apply (fat_cluster_at_alloc_extends wit1 wit_inode [2; 4; 3] 4 wit1_ok wit_fchain); split; first [discriminate|reflexivity].
Defined.

Lemma fat_counts_exact_witness :
  (exists s', fat_cluster_count wit_inode wit1 = (Ok 3, s') /\ same wit1 s') /\
  (exists s', fat_count_free_clusters wit1 = (Ok (zlength (free_set wit1)), s') /\ same wit1 s').
Proof. apply (fat_counts_exact wit1 wit_inode [2; 4; 3] wit1_ok wit_fchain). Defined.

Lemma fat_cluster_at_exact_witness :
  exists s' inode', fat_cluster_at wit_inode 2 wit1 = (Ok (3, inode'), s') /\ same wit1 s' /\
    start_cluster inode' = 2 /\ cache_ok inode' [2; 4; 3].
Proof.
  apply (fat_cluster_at_exact wit1 wit_inode [2; 4; 3] 2 wit1_ok wit_fchain); [discriminate|split; [discriminate|reflexivity]].
Defined.

Lemma inode_number_roundtrip_witness : fat_ino_location wit_sbi (fat_entry_ino wit_sbi 5 64) = Some (5, 64).
Proof.
  destruct (inode_number_roundtrip wit_sbi 5 64 wit_geom) as [H _];
    [split; [discriminate|reflexivity]|discriminate|discriminate|reflexivity|]. apply H. reflexivity.
Defined.

End Fat.
