(* ===== verification/FatFile.v ===== *)
(** * FAT32: the data of a file ([fs/fat/file.c], [fat_write_inode])

    A regular file with its volume.  The page cache of [mm/filemap.c] is told of
    changes; what it is told is kept in order. *)
From Stdlib Require Import FunctionalExtensionality.
From S2P Require Import Prelude Ext2 Fat.
Import Ext2 Fat.

Module FatFile.

Definition EROFS : Z := 30.
Definition FAT_ATTR_LFN : Z := 0x0f.
Definition FAT_ATTR_VOLUME_ID : Z := 0x08.
Definition FAT_ATTR_ARCHIVE : Z := 0x20.

(** ** Times on disk ([fs/fat/misc.c]) *)

Definition fat_dos_date (seconds : Z) : Z :=
  let z := u64 (seconds / 86400 + 719468) in
  let era := z / 146097 in
  let doe := z - era * 146097 in
  let yoe := (doe - doe / 1460 + doe / 36524 - doe / 146096) / 365 in
  let y := yoe + era * 400 in
  let doy := doe - (365 * yoe + yoe / 4 - yoe / 100) in
  let mp := (5 * doy + 2) / 153 in
  let d := doy - (153 * mp + 2) / 5 + 1 in
  let m := if mp <? 10 then mp + 3 else mp - 9 in
  let y := y + Z.b2z (m <=? 2) in
  let dos_year := if y >=? 1980 then u16 (y - 1980) else 0 in
  let dos_year := if dos_year >? 127 then 127 else dos_year in
  u16 (Z.lor (Z.lor (Z.shiftl dos_year 9) (Z.shiftl m 5)) d).

Definition fat_dos_time (seconds : Z) : Z :=
  let tod := seconds mod 86400 in
  let hour := tod / 3600 in
  let minute := (tod / 60) mod 60 in
  let second := (tod mod 60) / 2 in
  u16 (Z.lor (Z.lor (Z.shiftl hour 11) (Z.shiftl minute 5)) second).

Definition fat_entry_set_modify_times (p : list Z) (o atime mtime : Z) : list Z :=
  fat_write16 (fat_write16 (fat_write16 p (o + 18) (fat_dos_date atime)) (o + 22) (fat_dos_time mtime)) (o + 24) (fat_dos_date mtime).

(** ** State *)

Record inode := mkinode {
  i_ino : Z; is_reg : bool;
  i_size : Z; i_nr_block : Z; i_atime : Z; i_mtime : Z; i_ctime : Z; i_dirty : bool;
  dir_cluster : Z; dir_offset : Z; attributes : Z;
  fi : finode;
}.

(** What the page cache is told: pages behind a size are gone, or bytes of a
    range have changed. *)
Inductive told := Invalidate (size : Z) | Update (start : Z) (bytes : list Z).

Record st := mkst { fs_vol : vol; ino : inode; cache_log : list told }.

Definition set_vol (v : vol) (t : st) : st := mkst v (ino t) (cache_log t).
Definition set_ino (i : inode) (t : st) : st := mkst (fs_vol t) i (cache_log t).
Definition set_fi (f : finode) (t : st) : st :=
  let i := ino t in
  set_ino (mkinode (i_ino i) (is_reg i) (i_size i) (i_nr_block i) (i_atime i) (i_mtime i) (i_ctime i) (i_dirty i)
             (dir_cluster i) (dir_offset i) (attributes i) f) t.
Definition set_size (n : Z) (t : st) : st :=
  let i := ino t in
  set_ino (mkinode (i_ino i) (is_reg i) n ((n + 511) / 512) (i_atime i) (i_mtime i) (i_ctime i) (i_dirty i)
             (dir_cluster i) (dir_offset i) (attributes i) (fi i)) t.
(** Times, the archive bit and [I_Dirty]. *)
Definition modified (now : Z) (t : st) : st :=
  let i := ino t in
  set_ino (mkinode (i_ino i) (is_reg i) (i_size i) (i_nr_block i) (i_atime i) now now true
             (dir_cluster i) (dir_offset i) (Z.lor (attributes i) FAT_ATTR_ARCHIVE) (fi i)) t.
Definition tell (e : told) (t : st) : st := mkst (fs_vol t) (ino t) (cache_log t ++ [e]).
Definition set_start_cluster (c : Z) (t : st) : st := set_fi (set_start c (fi (ino t))) t.
Definition drop_cc (t : st) : st :=
  let f := fi (ino t) in set_fi (mkfi (start_cluster f) (cc_start f) (cc_index f) (cc_cluster f) false) t.

Definition G (A : Type) : Type := ST st A.
Definition getf : G st := fun t => (Ok t, t).
Definition onvol {A} (m : F A) : G A := fun t => let '(r, s) := m (fs_vol t) in (r, set_vol s t).

(** The calls that keep a position or a start in the inode. *)
Definition cluster_at (index : Z) : G Z := fun t =>
  match fat_cluster_at (fi (ino t)) index (fs_vol t) with
  | (Ok (c, f), s) => (Ok c, set_fi f (set_vol s t))
  | (Er e, s) => (Er e, set_vol s t)
  end.
Definition cluster_at_alloc (index : Z) : G Z := fun t =>
  match fat_cluster_at_alloc (fi (ino t)) index (fs_vol t) with
  | (Ok (r, f), s) => (r, set_fi f (set_vol s t))
  | (Er e, s) => (Er e, set_vol s t)
  end.

Definition fsz (t : st) : Z := cluster_size (sbi (fs_vol t)).

(** ** Reading *)

(** Bytes of the file at [offset + done], [valid_bytes - done] of them. *)
Fixpoint read_loop (fuel : nat) (offset done valid_bytes : Z) : G (list Z) :=
  match fuel with
  | O => ret []
  | S fuel =>
    if done >=? valid_bytes then ret [] else
    t <~ getf ;;
    let pos := offset + done in
    let cluster_index := u32 (pos / fsz t) in
    let cluster_offset := pos mod fsz t in
    let chunk := Z.min (fsz t - cluster_offset) (valid_bytes - done) in
    cluster <~ cluster_at cluster_index ;;
    if cluster =? 0 then fail (- EIO) else
    onvol kmalloc ;~
    b <~ onvol (fat_read_cluster cluster) ;;
    rest <~ read_loop fuel offset (done + chunk) valid_bytes ;;
    ret (sub_bytes b cluster_offset chunk ++ rest)
  end.

Definition fat_file_read_page (offset valid_bytes : Z) : G (list Z) :=
  t <~ getf ;;
  if negb (is_reg (ino t)) then fail (- EINVAL) else
  read_loop (Z.to_nat (valid_bytes / fsz t + 2)) offset 0 valid_bytes.

(** ** Writing *)

Fixpoint zero_loop (fuel : nat) (start fin : Z) : G unit :=
  match fuel with
  | O => ret tt
  | S fuel =>
    if start >=? fin then ret tt else
    t <~ getf ;;
    let cluster_index := u32 (start / fsz t) in
    let offset := start mod fsz t in
    let chunk := Z.min (fsz t - offset) (fin - start) in
    cluster <~ cluster_at_alloc cluster_index ;;
    if cluster =? 0 then fail (- EIO) else
    onvol kmalloc ;~
    b <~ (if (offset =? 0) && (chunk =? fsz t) then ret (replicate (Z.to_nat (fsz t)) 0) else
          b <~ onvol (fat_read_cluster cluster) ;; ret (memcpy_at b offset (replicate (Z.to_nat chunk) 0) chunk)) ;;
    onvol (fat_write_cluster cluster b) ;~
    zero_loop fuel (start + chunk) fin
  end.

Definition fat_zero_range (start fin : Z) : G unit :=
  if fin <=? start then ret tt else
  t <~ getf ;; zero_loop (Z.to_nat ((fin - start) / fsz t + 2)) start fin.

Definition fat_file_rollback_to_clusters (keep_clusters : Z) : G unit :=
  if keep_clusters =? 0 then
    t <~ getf ;;
    let tail := start_cluster (fi (ino t)) in
    modify (set_start_cluster 0) ;~ modify drop_cc ;~
    if tail =? 0 then ret tt else onvol (fat_free_cluster_chain tail)
  else
    keep <~ cluster_at (keep_clusters - 1) ;;
    if keep =? 0 then fail (- EIO) else
    r <~ try (onvol (fat_next_cluster keep)) ;;
    match r with
    | Er e => if e =? - ENOENT then ret tt else fail e
    | Ok tail =>
      onvol (fat_write_fat_entry keep FAT_EOC_MAX) ;~
      if tail =? 0 then ret tt else modify drop_cc ;~ onvol (fat_free_cluster_chain tail)
    end.

Definition fat_write_inode : G unit :=
  t <~ getf ;;
  let i := ino t in let sb := sbi (fs_vol t) in
  if i_ino i =? 0 then fail (- EINVAL) else
  if i_ino i =? FAT_ROOT_INO then ret tt else
  let cluster := dir_cluster i in let offset := dir_offset i in
  if (cluster =? 0) || bad_cluster sb cluster || (u32 (offset + FAT_ENTRY_SIZE) >? cluster_size sb) then fail (- EINVAL) else
  onvol kmalloc ;~
  b <~ onvol (fat_read_cluster cluster) ;;
  if (byte_at b offset =? 0) || (byte_at b offset =? 0xe5) || (byte_at b (offset + 11) =? FAT_ATTR_LFN) ||
     negb (Z.land (byte_at b (offset + 11)) FAT_ATTR_VOLUME_ID =? 0) then fail (- ENOENT) else
  let b := memcpy_at b (offset + 11) [attributes i] 1 in
  let b := fat_write16 b (offset + 20) (Z.shiftr (start_cluster (fi i)) 16) in
  let b := fat_write16 b (offset + 26) (start_cluster (fi i)) in
  let b := fat_write32 b (offset + 28) (i_size i) in
  let b := if i_mtime i =? 0 then b else fat_entry_set_modify_times b offset (i_atime i) (i_mtime i) in
  onvol (fat_write_cluster cluster b).

(** The clusters of a size. *)
Definition clusters_for (size cs : Z) : Z := u32 (size + cs - 1) / cs.

(** The chain gets the length of the new size. *)
Definition fit_chain (needed have : Z) : G unit :=
  t <~ getf ;;
  if needed <? have then
    if needed =? 0 then
      onvol (fat_free_cluster_chain (start_cluster (fi (ino t)))) ;~ modify (set_start_cluster 0)
    else
      keep <~ cluster_at_alloc (needed - 1) ;;
      r <~ try (onvol (fat_next_cluster keep)) ;;
      match r with
      | Er e => if e =? - ENOENT then onvol (fat_write_fat_entry keep FAT_EOC_MAX) else fail e
      | Ok tail => onvol (fat_write_fat_entry keep FAT_EOC_MAX) ;~
                   (if tail =? 0 then ret tt else onvol (fat_free_cluster_chain tail))
      end
  else if needed >? have then cluster_at_alloc (needed - 1) ;~ ret tt else ret tt.

Definition fat_file_truncate (now size : Z) : G unit :=
  t <~ getf ;;
  if negb (is_reg (ino t)) then fail (- EINVAL) else
  if size <? 0 then fail (- EINVAL) else
  if readonly (sbi (fs_vol t)) then fail (- EROFS) else
  let old_size := i_size (ino t) in
  let needed := clusters_for size (fsz t) in
  have <~ onvol (fat_cluster_count (fi (ino t))) ;;
  fit_chain needed have ;~
  (if size >? old_size then
     r <~ try (fat_zero_range old_size size) ;;
     match r with
     | Ok _ => ret tt
     | Er e => try (fat_file_rollback_to_clusters (u32 ((old_size + fsz t - 1) / fsz t))) ;~ fail e
     end
   else ret tt) ;~
  (if size <? old_size then modify (tell (Invalidate size)) else ret tt) ;~
  modify (set_size size) ;~ modify (modified now) ;~
  fat_write_inode.

(** One round of the loop of a write: the bytes it writes. *)
Definition write_round (old_clusters start total : Z) (buf : list Z) : G Z :=
  t <~ getf ;;
  let cluster_index := u32 (start / fsz t) in
  let offset := start mod fsz t in
  let chunk := Z.min (fsz t - offset) (zlength buf - total) in
  cluster <~ cluster_at_alloc cluster_index ;;
  (if cluster =? 0 then fail (- EIO) else ret tt) ;~
  onvol kmalloc ;~
  b <~ (if cluster_index <? old_clusters then onvol (fat_read_cluster cluster) else ret (replicate (Z.to_nat (fsz t)) 0)) ;;
  let b := memcpy_at b offset (sub_bytes buf total chunk) chunk in
  onvol (fat_write_cluster cluster b) ;~
  modify (tell (Update start (sub_bytes b offset chunk))) ;~
  ret chunk.

(** Where the loop ends, how much was written, and the error that ended it. *)
Fixpoint write_loop (fuel : nat) (old_clusters start total : Z) (buf : list Z) : G (Z * Z * option Z) :=
  match fuel with
  | O => ret (start, total, None)
  | S fuel =>
    if total >=? zlength buf then ret (start, total, None) else
    r <~ try (write_round old_clusters start total buf) ;;
    match r with
    | Ok chunk => write_loop fuel old_clusters (start + chunk) (total + chunk) buf
    | Er e => ret (start, total, Some e)
    end
  end.

(** The result and the file position, for a file opened with [O_APPEND] or not. *)
Definition fat_file_write (now : Z) (append : bool) (f_pos : Z) (buf : list Z) : G (Z * Z) :=
  t <~ getf ;;
  if negb (is_reg (ino t)) then ret (- EINVAL, f_pos) else
  if zlength buf <=? 0 then ret (0, f_pos) else
  if readonly (sbi (fs_vol t)) then ret (- EROFS, f_pos) else
  let old_size := i_size (ino t) in
  let old_clusters := u32 ((old_size + fsz t - 1) / fsz t) in
  let start := if append then old_size else f_pos in
  z <~ (if start >? old_size then try (fat_zero_range old_size start) else ret (Ok tt)) ;;
  match z with
  | Er e => try (fat_file_rollback_to_clusters old_clusters) ;~ ret (e, f_pos)
  | Ok _ =>
    r <~ write_loop (Z.to_nat (zlength buf / fsz t + 2)) old_clusters start 0 buf ;;
    let '(fin, total, error) := r in
    t <~ getf ;;
    (if fin >? i_size (ino t) then modify (set_size fin) else ret tt) ;~
    (if total =? 0 then ret tt else modify (modified now) ;~ try fat_write_inode ;~ ret tt) ;~
    (match error with
     | Some _ => if total =? 0 then try (fat_file_rollback_to_clusters old_clusters) ;~ ret tt else ret tt
     | None => ret tt
     end) ;~
    ret (if total =? 0 then default 0 error else total, if total =? 0 then f_pos else fin)
  end.

(** ** Clusters of data *)

Definition cluster_data (v : vol) (c : Z) : list Z :=
  read_sectors (disk v) (first_data_sector (sbi v) + (c - 2) * sectors_per_cluster (sbi v)) (sectors_per_cluster (sbi v)).

(** Byte [i] of a file with the chain [l]. *)
Definition fbyte (v : vol) (l : list Z) (i : Z) : Z :=
  match l !! Z.to_nat (i / cluster_size (sbi v)) with
  | Some c => byte_at (cluster_data v c) (i mod cluster_size (sbi v))
  | None => 0
  end.

Lemma cluster_place i c : Fat.geom i -> valid i c ->
  cluster_sector i c = first_data_sector i + (c - 2) * sectors_per_cluster i /\
  0 <= (c - 2) * sectors_per_cluster i /\ 0 < first_data_sector i /\
  first_data_sector i + (c - 1) * sectors_per_cluster i < 2 ^ 32.
Proof.
  intros G V. pose proof (valid_range _ _ G V) as R. pose proof (g_spc _ G). pose proof (g_total _ G). pose proof (g_first _ G).
  pose proof (g_reserved _ G). pose proof (g_fats _ G). pose proof (g_table _ G). pose proof (g_clusters _ G). unfold valid in V.
  assert (0 <= num_fats i * fat_size32 i) by nia. assert ((c - 1) * sectors_per_cluster i <= total_clusters i * sectors_per_cluster i) by nia.
  assert (0 <= (c - 2) * sectors_per_cluster i) by nia.
  unfold cluster_sector. rewrite (u32_small (c - 2)), (u32_small (_ * _)), u32_small by lia. lia.
Qed.

Lemma length_cluster v c : vol_ok v -> zlength (cluster_data v c) = cluster_size (sbi v).
Proof.
  intros V. pose proof (g_size _ (v_geom _ V)) as E. pose proof (g_spc _ (v_geom _ V)). unfold cluster_data, zlength.
  rewrite <- (Z2Nat.id (sectors_per_cluster (sbi v))) at 2 by lia. rewrite length_sectors by apply V. lia.
Qed.

Lemma cluster_u8 v c : vol_ok v -> Forall is_u8 (cluster_data v c).
Proof. intros V. apply sectors_u8, V. Qed.

Lemma read_cluster_ok v c : vol_ok v -> valid (sbi v) c -> fat_read_cluster c v = (Ok (cluster_data v c), v).
Proof.
  intros V Hc. pose proof (v_geom _ V) as G. destruct (cluster_place _ _ G Hc) as (E & _).
  unfold fat_read_cluster. rewrite bind_sb, (not_bad _ _ G Hc). unfold blkdev_read, read_buf, next_fault, bind.
  by rewrite (v_fine _ V), E.
Qed.

(** The volume with new data in one cluster. *)
Definition put_cluster (c : Z) (b : list Z) (v : vol) : vol :=
  Fat.set_disk (write_sectors (disk v) (first_data_sector (sbi v) + (c - 2) * sectors_per_cluster (sbi v)) (sectors_per_cluster (sbi v)) b) v.

Lemma write_cluster_run v c b : vol_ok v -> valid (sbi v) c -> fat_write_cluster c b v = (Ok tt, put_cluster c b v).
Proof.
  intros V Hc. pose proof (v_geom _ V) as G. destruct (cluster_place _ _ G Hc) as (E & _).
  unfold fat_write_cluster. rewrite bind_sb, (not_bad _ _ G Hc). unfold blkdev_write, next_fault.
  by rewrite (v_fine _ V), E.
Qed.

(** What the kernel knows is the same; the data of [c] is [b]. *)
Record data_put (c : Z) (b : list Z) (v v' : vol) : Prop := {
  d_meta : vol_ok v' /\ sbi v' = sbi v /\ next_free v' = next_free v /\ free_clusters v' = free_clusters v;
  d_tab : forall a, valid (sbi v) a -> tab v' a = tab v a;
  d_data : forall a, valid (sbi v) a -> cluster_data v' a = if decide (a = c) then b else cluster_data v a;
}.

Lemma put_cluster_ok v c b : vol_ok v -> valid (sbi v) c -> zlength b = cluster_size (sbi v) -> Forall is_u8 b ->
  data_put c b v (put_cluster c b v).
Proof.
  intros V Hc Hl Hu. pose proof (v_geom _ V) as G. destruct (cluster_place _ _ G Hc) as (_ & P1 & P2 & P3).
  pose proof (g_spc _ G) as Hs. pose proof (g_size _ G) as Hz. rewrite Hz in Hl.
  set (x0 := first_data_sector (sbi v) + (c - 2) * sectors_per_cluster (sbi v)) in *.
  assert (Hout : forall x, x < x0 -> disk (put_cluster c b v) x = disk v x).
  { intros x Hx. cbn. unfold write_sectors. fold x0. destruct (Z.leb_spec x0 x); [lia|done]. }
  assert (Hraw : forall k a, 0 <= k < num_fats (sbi v) -> valid (sbi v) a ->
    raw (disk (put_cluster c b v)) (sbi v) k a = raw (disk v) (sbi v) k a).
  { intros k a Hk Ha. unfold raw. rewrite Hout; [done|]. destruct (entry_place _ _ G Ha) as (_ & _ & Q & _).
    pose proof (g_first _ G). subst x0. nia. }
  assert (Hso : sectors_ok (disk (put_cluster c b v))).
  { intros x. cbn. unfold write_sectors. fold x0.
    destruct (Z.leb_spec x0 x), (Z.ltb_spec x (x0 + sectors_per_cluster (sbi v))); cbn [andb]; try apply V.
    unfold sub_bytes. split; [|by apply Forall_take, Forall_drop].
    rewrite length_take, length_drop. unfold zlength in Hl. lia. }
  constructor; [split_and!; try done| |].
  - destruct V as [V1 V2 V3 V4 V5 V6]. constructor; try done.
    + intros y Hy Hvy. destruct (V4 y Hy Hvy) as [Hd Ht]. split; [|done]. rewrite Hout; [done|].
      change (sbi (put_cluster c b v)) with (sbi v) in *. unfold in_table in Ht. pose proof (g_first _ G). pose proof (g_fats _ G).
      pose proof (g_table _ G). pose proof (g_clusters _ G). subst x0. nia.
    + intros k a Hk Ha. change (sbi (put_cluster c b v)) with (sbi v) in *. rewrite !Hraw by (done || (pose proof (g_fats _ G); lia)).
      by apply V5.
  - intros a Ha. unfold tab. change (sbi (put_cluster c b v)) with (sbi v). rewrite Hraw; [done| |done]. pose proof (g_fats _ G). lia.
  - intros a Ha. unfold cluster_data. change (sbi (put_cluster c b v)) with (sbi v).
    cbn [put_cluster Fat.set_disk disk]. fold x0. unfold read_sectors. set (n := sectors_per_cluster (sbi v)) in *.
    destruct (decide (a = c)) as [->|Hne].
    + transitivity (concat (map (fun x => sub_bytes b ((x - x0) * 512) 512) (seqZ x0 n))).
      * f_equal. apply map_ext_in. intros x Hx. apply list_elem_of_In, elem_of_seqZ in Hx.
        unfold write_sectors. by rewrite (proj2 (Z.leb_le _ _)), (proj2 (Z.ltb_lt _ _)) by lia.
      * rewrite <- (Z2Nat.id n) by lia. rewrite sector_chunks. apply take_ge. unfold zlength in Hl. lia.
    + f_equal. apply map_ext_in. intros x Hx. apply list_elem_of_In, elem_of_seqZ in Hx.
      unfold write_sectors. destruct (Z.leb_spec x0 x), (Z.ltb_spec x (x0 + n)); try done.
      exfalso. apply Hne. subst x0. nia.
Qed.

(** ** Reading is exact *)

Definition chain_of (t : st) (l : list Z) : Prop :=
  vol_ok (fs_vol t) /\ fchain (fs_vol t) (start_cluster (fi (ino t))) l /\ cache_ok (fi (ino t)) l.

(** Only the two caches, of the table and of the position, have changed. *)
Definition quiet (t t' : st) : Prop :=
  same (fs_vol t) (fs_vol t') /\ start_cluster (fi (ino t')) = start_cluster (fi (ino t)) /\
  t' = set_fi (fi (ino t')) (set_vol (fs_vol t') t).

Lemma quiet_refl t : quiet t t.
Proof. split_and!; [done|done|]. by destruct t as [v [] c]. Qed.

Lemma quiet_trans t1 t2 t3 : quiet t1 t2 -> quiet t2 t3 -> quiet t1 t3.
Proof.
  intros (A1 & A2 & A3) (B1 & B2 & B3). split_and!; [by eapply same_trans|congruence|]. rewrite B3, A3. by destruct t1 as [v [] c].
Qed.

Lemma quiet_data t t' c : quiet t t' -> cluster_data (fs_vol t') c = cluster_data (fs_vol t) c.
Proof. intros ((D & B & _) & _). unfold cluster_data. by rewrite D, B. Qed.

Lemma quiet_fsz t t' : quiet t t' -> fsz t' = fsz t.
Proof. intros ((_ & B & _) & _). unfold fsz. by rewrite B. Qed.

Lemma quiet_fbyte t t' l i : quiet t t' -> fbyte (fs_vol t') l i = fbyte (fs_vol t) l i.
Proof. intros ((D & B & _) & _). unfold fbyte, cluster_data. by rewrite D, B. Qed.

Lemma chain_pos v c l : Fat.geom (sbi v) -> fchain v c l -> forall x, x ∈ l -> valid (sbi v) x.
Proof. intros G [[_ ->]|H] x Hx; [set_solver|]. by eapply chain_valid. Qed.

Lemma cluster_at_ok t l n : chain_of t l -> 0 <= n < 2 ^ 32 ->
  exists t', cluster_at n t = (Ok (default 0 (l !! Z.to_nat n)), t') /\ chain_of t' l /\ quiet t t'.
Proof.
  intros (V & H & C) Hn. unfold cluster_at.
  destruct (fat_cluster_at_ok (fs_vol t) (fi (ino t)) l n V H C Hn) as (v' & f & -> & V' & S & Es & C').
  eexists. split; [done|]. split; [|split_and!; [done|done|by destruct t as [v [] lg]]].
  split_and!; [done| |done]. cbn. rewrite Es. destruct H as [H|H]; [by left|right].
  eapply fchain_frame; [apply S| |exact H]. intros; by apply same_tab.
Qed.

Lemma onvol_ok {A} (m : F A) t r v : m (fs_vol t) = (r, v) -> onvol m t = (r, set_vol v t).
Proof. intros E. unfold onvol. by rewrite E. Qed.

Lemma bind_getf {A} (k : st -> G A) t : bind getf k t = k t t.
Proof. done. Qed.

Lemma set_vol_id t : set_vol (fs_vol t) t = t.
Proof. by destruct t. Qed.

Lemma kmalloc_onvol t : vol_ok (fs_vol t) -> onvol Fat.kmalloc t = (Ok tt, t).
Proof.
  intros V. erewrite onvol_ok; [|unfold Fat.kmalloc, Fat.next_fault; by rewrite (v_fine _ V)]. by rewrite set_vol_id.
Qed.

Lemma fsz_pos t : vol_ok (fs_vol t) -> 512 <= fsz t <= 65536.
Proof. intros V. unfold fsz. rewrite (g_size _ (v_geom _ V)). pose proof (g_spc _ (v_geom _ V)). lia. Qed.

Lemma chain_cap v c l : Fat.geom (sbi v) -> fchain v c l -> cluster_size (sbi v) * zlength l < 2 ^ 50 /\ zlength l < 2 ^ 28.
Proof.
  intros G H. assert (L : zlength l <= total_clusters (sbi v)).
  { destruct H as [[_ ->]|H]; [change (zlength (@nil Z)) with 0; pose proof (g_clusters _ G); lia|]. by eapply chain_length. }
  pose proof (g_marks _ G). pose proof (g_size _ G). pose proof (g_spc _ G). unfold FAT_BAD_CLUSTER in *.
  pose proof (zlength_nonneg l). split; [nia|lia].
Qed.

Lemma sub_bytes_map (b : list Z) o n (f : Z -> Z) x : 0 <= o -> 0 <= n -> o + n <= zlength b ->
  (forall i, 0 <= i < n -> byte_at b (o + i) = f (x + i)) -> sub_bytes b o n = map f (seqZ x n).
Proof.
  intros Ho Hn Hb H. apply list_eq. intros i. unfold sub_bytes, zlength in *.
  destruct (decide (Z.of_nat i < n)).
  - rewrite lookup_take_lt, lookup_drop by lia. specialize (H (Z.of_nat i) ltac:(lia)). unfold byte_at in H.
    replace (Z.to_nat (o + Z.of_nat i)) with (Z.to_nat o + i)%nat in H by lia.
    change (map f (seqZ x n)) with (f <$> seqZ x n). rewrite list_lookup_fmap, lookup_seqZ_lt by lia. cbn.
    destruct (b !! (Z.to_nat o + i)%nat) eqn:E; [cbn in H; by rewrite H|]. apply lookup_ge_None in E. lia.
  - rewrite lookup_ge_None_2 by (rewrite length_take; lia). symmetry. apply lookup_ge_None.
    rewrite length_map, length_seqZ. lia.
Qed.

(** The arithmetic of one round. *)
Lemma chunk_facts cs pos rest : 0 < cs -> 0 <= pos -> 0 < rest ->
  let o := pos mod cs in let k := Z.min (cs - o) rest in
  0 <= o < cs /\ 0 < k <= rest /\ o + k <= cs /\
  (forall i, 0 <= i < k -> (pos + i) / cs = pos / cs /\ (pos + i) mod cs = o + i) /\
  (k < rest -> (pos + k) mod cs = 0 /\ k = cs - o /\ (pos + k) / cs = pos / cs + 1).
Proof.
  intros Hc Hp Hr o k. pose proof (Z.mod_pos_bound pos cs Hc). pose proof (Z.div_mod pos cs ltac:(lia)) as E. fold o in E.
  split_and!; try lia.
  - intros i Hi. replace (pos + i) with ((o + i) + pos / cs * cs) by lia.
    rewrite Z.div_add, Z.mod_add by lia. rewrite Z.div_small, Z.mod_small by lia. lia.
  - intros Hk. assert (k = cs - o) by lia. split_and!; [|done|].
    + replace (pos + k) with ((pos / cs + 1) * cs) by lia. apply Z.mod_mul. lia.
    + replace (pos + k) with ((pos / cs + 1) * cs) by lia. apply Z.div_mul. lia.
Qed.

Lemma read_loop_ok n t l offset done0 valid_bytes : chain_of t l -> 0 <= offset -> 0 <= done0 ->
  offset + valid_bytes <= fsz t * zlength l ->
  (done0 < valid_bytes -> (offset + done0) mod fsz t + (valid_bytes - done0) <= fsz t * Z.of_nat n) ->
  exists t', read_loop n offset done0 valid_bytes t = (Ok (map (fbyte (fs_vol t) l) (seqZ (offset + done0) (valid_bytes - done0))), t') /\
    chain_of t' l /\ quiet t t'.
Proof.
  revert t done0. induction n as [|n IH]; intros t d C Ho Hd Hl Hf.
  - destruct (Z.leb_spec valid_bytes d) as [Hx|Hx].
    + exists t. cbn. rewrite seqZ_nil by lia. split_and!; [done|done|apply quiet_refl].
    + specialize (Hf Hx). pose proof (Z.mod_pos_bound (offset + d) (fsz t)). pose proof (fsz_pos t (proj1 C)). lia.
  - cbn [read_loop]. destruct (Z.geb_spec d valid_bytes) as [Hx|Hx].
    + exists t. rewrite seqZ_nil by lia. split_and!; [done|done|apply quiet_refl].
    + specialize (Hf ltac:(lia)). pose proof C as (V & H & _). pose proof (v_geom _ V) as G. pose proof (fsz_pos t V) as Hcs.
      destruct (chain_cap _ _ _ G H) as [Cap Cap']. fold (fsz t) in Cap.
      unfold bind at 1. cbn [getf].
      destruct (chunk_facts (fsz t) (offset + d) (valid_bytes - d) ltac:(lia) ltac:(lia) ltac:(lia)) as (K1 & K2 & K3 & K4 & K5).
      set (o := (offset + d) mod fsz t) in *. set (k := Z.min (fsz t - o) (valid_bytes - d)) in *.
      assert (Hidx : 0 <= (offset + d) / fsz t < zlength l) by (split; [apply Z.div_pos|apply Z.div_lt_upper_bound]; lia).
      rewrite (u32_small (_ / _)) by lia.
      destruct (cluster_at_ok t l ((offset + d) / fsz t) C ltac:(lia)) as (t1 & E1 & C1 & Q1).
      rewrite (bind_ok _ _ _ _ _ E1).
      destruct (lookup_lt_is_Some_2 l (Z.to_nat ((offset + d) / fsz t))) as [c Hc]; [unfold zlength in Hidx; lia|].
      rewrite Hc. change (default 0 (Some c)) with c.
      assert (Vc : valid (sbi (fs_vol t)) c) by (eapply chain_pos; [done|done|by eapply list_elem_of_lookup_2]).
      pose proof (valid_range _ _ G Vc). destruct (Z.eqb_spec c 0); [lia|].
      rewrite (bind_ok _ _ _ _ _ (kmalloc_onvol t1 (proj1 C1))).
      assert (B1 : sbi (fs_vol t1) = sbi (fs_vol t)) by (apply Q1).
      assert (Er : onvol (fat_read_cluster c) t1 = (Ok (cluster_data (fs_vol t1) c), t1)).
      { erewrite onvol_ok; [|apply read_cluster_ok; [apply C1|by rewrite B1]]. by rewrite set_vol_id. }
      rewrite (bind_ok _ _ _ _ _ Er). rewrite (quiet_data _ _ c Q1).
      destruct (IH t1 (d + k) C1 Ho ltac:(lia)) as (t2 & E2 & C2 & Q2).
      { by rewrite (quiet_fsz _ _ Q1). }
      { intros Hlt. rewrite (quiet_fsz _ _ Q1). destruct (K5 ltac:(lia)) as (K6 & K7 & _).
        replace (offset + (d + k)) with (offset + d + k) by lia. rewrite K6. lia. }
      rewrite (bind_ok _ _ _ _ _ E2). exists t2. split_and!; [|done|by eapply quiet_trans].
      unfold ret. do 2 f_equal. replace (valid_bytes - d) with (k + (valid_bytes - (d + k))) by lia.
      rewrite seqZ_app, map_app by lia. f_equal.
      * apply sub_bytes_map; [lia|lia|rewrite length_cluster by done; unfold fsz in *; lia|].
        intros i Hi. unfold fbyte. fold (fsz t). destruct (K4 i Hi) as [-> ->]. by rewrite Hc.
      * replace (offset + (d + k)) with (offset + d + k) by lia. apply map_ext. intros i. by apply quiet_fbyte.
Qed.

(** [fat_file_read_page] gives the bytes of the file, of whatever part of its
    clusters, and changes nothing but the two caches. *)
Theorem fat_file_read_page_exact t l offset n : chain_of t l -> is_reg (ino t) = true ->
  0 <= offset -> 0 <= n -> offset + n <= fsz t * zlength l ->
  exists t', fat_file_read_page offset n t = (Ok (map (fbyte (fs_vol t) l) (seqZ offset n)), t') /\ chain_of t' l /\ quiet t t'.
Proof.
  intros C R Ho Hn Hl. pose proof (fsz_pos t (proj1 C)) as Hcs. unfold fat_file_read_page, bind at 1. cbn [getf]. rewrite R. cbn [negb].
  pose proof (Z.mod_pos_bound n (fsz t) ltac:(lia)). pose proof (Z.div_mod n (fsz t) ltac:(lia)).
  pose proof (Z.div_pos n (fsz t) Hn ltac:(lia)). pose proof (Z.mod_pos_bound (offset + 0) (fsz t) ltac:(lia)).
  destruct (read_loop_ok (Z.to_nat (n / fsz t + 2)) t l offset 0 n C Ho ltac:(lia) Hl) as (t' & E & Q).
  { intros _. rewrite Z2Nat.id by lia. nia. }
  exists t'. rewrite E, Z.add_0_r, Z.sub_0_r. done.
Qed.

(** ** Writing is exact *)

Definition counters_ok (v : vol) : Prop := 0 <= next_free v < 2 ^ 32 /\ 0 <= free_clusters v < 2 ^ 32.

(** A file with the chain [l] gets the free clusters [l'], and its data may
    change: no other cluster does. *)
Record grown (l l' : list Z) (v v' : vol) : Prop := {
  gr_sbi : sbi v' = sbi v;
  gr_counters : counters_ok v';
  gr_free : forall x, x ∈ l' -> valid (sbi v) x /\ tab v x = 0;
  gr_others : forall c, valid (sbi v) c -> c ∉ l -> c ∉ l' -> tab v' c = tab v c /\ cluster_data v' c = cluster_data v c;
}.

Lemma grown_trans l l1 l2 v v1 v2 : grown l l1 v v1 -> grown (l ++ l1) l2 v1 v2 ->
  (forall a, a ∈ l ++ l1 -> tab v1 a <> 0) -> grown l (l1 ++ l2) v v2.
Proof.
  intros [A1 A2 A3 A4] [B1 B2 B3 B4] Hu. rewrite A1 in *. constructor; [done|done| |].
  - intros x [Hx|Hx]%elem_of_app; [auto|]. destruct (B3 x Hx) as [Vx Zx]. split; [done|].
    assert (x ∉ l ++ l1) as N by (intros H; by apply (Hu x H)). apply not_elem_of_app in N as [N1 N2].
    by rewrite <- (proj1 (A4 x Vx N1 N2)).
  - intros c Vc N1 [N2 N3]%not_elem_of_app. destruct (A4 c Vc N1 N2) as [<- <-]. apply B4; [done| |done].
    by apply not_elem_of_app.
Qed.

Lemma extended_grown l l' v v' : vol_ok v -> extended l l' v v' -> counters_ok v -> grown l l' v v'.
Proof.
  intros V [X1 X2 X3 X4 X5 X6 X7 X8] [Hn Hf]. constructor; [done| |done|].
  - split; [done|]. rewrite X7. apply u32_range.
  - intros c Vc N1 N2. split; [by apply X6|]. unfold cluster_data. rewrite X2. unfold read_sectors. f_equal.
    apply map_ext_in. intros x Hx. apply list_elem_of_In, elem_of_seqZ in Hx. apply X8.
    destruct (cluster_place _ _ (v_geom _ V) Vc) as (_ & P & _). lia.
Qed.

(** Data of clusters that were in use is not touched by an allocation. *)
Lemma extended_data l l' v v' c : vol_ok v -> extended l l' v v' -> valid (sbi v) c -> cluster_data v' c = cluster_data v c.
Proof.
  intros V [X1 X2 X3 X4 X5 X6 X7 X8] Vc. unfold cluster_data. rewrite X2. unfold read_sectors. f_equal.
  apply map_ext_in. intros x Hx. apply list_elem_of_In, elem_of_seqZ in Hx. apply X8.
  destruct (cluster_place _ _ (v_geom _ V) Vc) as (_ & P & _). lia.
Qed.

(** Only the inode's start and position have changed. *)
Definition same_inode (t t' : st) : Prop := ino t' = ino (set_fi (fi (ino t')) t).

Lemma same_inode_refl t : same_inode t t.
Proof. by destruct t as [v [] lg]. Qed.
Lemma same_inode_trans t1 t2 t3 : same_inode t1 t2 -> same_inode t2 t3 -> same_inode t1 t3.
Proof. unfold same_inode. intros A B. rewrite B. cbn in *. rewrite A. done. Qed.

Lemma cache_ok_extend v f f' l l' : Fat.geom (sbi v) -> fchain v (start_cluster f') (l ++ l') -> f' = set_start (start_cluster f') f ->
  (l = [] -> start_cluster f = 0) -> (forall x, hd_error l = Some x -> start_cluster f = x) -> cache_ok f l -> cache_ok f' (l ++ l').
Proof.
  intros G H E H0 H1 C Hv. rewrite E in Hv |- *. cbn [cc_valid cc_start cc_index cc_cluster start_cluster set_start] in *.
  destruct (C Hv) as [C1 C2]. destruct l as [|x l].
  - specialize (H0 eq_refl). cbn [app] in *. rewrite H0 in *. assert (cc_start f = 0) as Z0 by tauto. rewrite Z0.
    split; [by left|]. intros E2. rewrite <- E2 in H. destruct H as [[_ ->]|H]; [by apply C2; rewrite Z0|].
    destruct l' as [|y l']; [done|]. destruct H as (<- & Vy & _). unfold valid in Vy. lia.
  - specialize (H1 x eq_refl). destruct H as [[_ ?]|H]; [done|]. destruct H as (-> & _). rewrite H1 in *.
    split; [done|]. intros E2. destruct (C2 E2) as [P1 [P2|(? & _)]]; [|done]. split; [done|]. left.
    by apply lookup_app_l_Some.
Qed.

Lemma cluster_at_alloc_ok t l n : chain_of t l -> counters_ok (fs_vol t) -> 0 <= n < 2 ^ 32 - 1 ->
  exists r l' t', cluster_at_alloc n t = (r, t') /\ extended l l' (fs_vol t) (fs_vol t') /\ chain_of t' (l ++ l') /\
    same_inode t t' /\ cache_log t' = cache_log t /\
    ((exists c, r = Ok c /\ (l ++ l') !! Z.to_nat n = Some c /\ zlength (l ++ l') = Z.max (zlength l) (n + 1)) \/
     (r = Er (- ENOSPC) /\ zlength (l ++ l') <= n /\ forall c, valid (sbi (fs_vol t)) c -> tab (fs_vol t') c <> 0)).
Proof.
  intros (V & H & C) [Hn1 Hn2] Hn. unfold cluster_at_alloc.
  destruct (fat_cluster_at_alloc_ok (fs_vol t) (fi (ino t)) l n V H Hn1 Hn2 Hn) as (r & f & l' & v' & -> & X & Ch & Ef & R).
  exists r, l'. eexists. split; [done|]. split_and!; [exact X| |done|done|exact R].
  split_and!; [apply X|exact Ch|]. pose proof (v_geom _ V) as G.
  eapply (cache_ok_extend v'); [by rewrite (e_sbi _ _ _ _ X)|exact Ch|exact Ef| | |exact C].
  - intros ->. by destruct H as [[? _]|?].
  - intros x Hx. destruct H as [[_ ->]|H]; [done|]. apply chain_hd in H. congruence.
Qed.

(** Writing one cluster of the file. *)
Lemma put_in_file t l idx c b : chain_of t l -> counters_ok (fs_vol t) -> 0 <= idx -> l !! Z.to_nat idx = Some c ->
  zlength b = fsz t -> Forall is_u8 b ->
  exists t', onvol (fat_write_cluster c b) t = (Ok tt, t') /\ chain_of t' l /\ grown l [] (fs_vol t) (fs_vol t') /\
    ino t' = ino t /\ cache_log t' = cache_log t /\
    (forall i, 0 <= i -> fbyte (fs_vol t') l i = if decide (i / fsz t = idx) then byte_at b (i mod fsz t) else fbyte (fs_vol t) l i).
Proof.
  intros (V & H & C) Hk Hi Hc Hl Hu. pose proof (v_geom _ V) as G. pose proof (fsz_pos t V) as Hcs.
  assert (Vc : valid (sbi (fs_vol t)) c) by (eapply chain_pos; [done|done|by eapply list_elem_of_lookup_2]).
  destruct (put_cluster_ok _ _ _ V Vc Hl Hu) as [(V' & B & N & Fc) T D].
  set (v' := put_cluster c b (fs_vol t)) in *. exists (set_vol v' t).
  assert (Ch : fchain v' (start_cluster (fi (ino t))) l).
  { destruct H as [H|H]; [by left|right]. eapply fchain_frame; [done| |exact H]. intros x Hx. apply T. by eapply chain_valid. }
  split_and!; [by apply onvol_ok, write_cluster_run|done| |done|done|].
  - constructor; [done|exact Hk|set_solver|]. intros a Va N1 _. cbn. split; [by apply T|].
    rewrite D by done. rewrite decide_False; [done|]. intros ->. apply N1. by eapply list_elem_of_lookup_2.
  - intros i Hpi. cbn [fs_vol set_vol]. unfold fbyte. rewrite B. fold (fsz t).
    assert (0 <= i / fsz t) by (apply Z.div_pos; lia).
    destruct (decide (i / fsz t = idx)) as [->|Ne].
    + rewrite Hc. by rewrite D, decide_True.
    + destruct (l !! Z.to_nat (i / fsz t)) as [a|] eqn:Ea; [|done].
      assert (Va : valid (sbi (fs_vol t)) a) by (eapply chain_pos; [done|done|by eapply list_elem_of_lookup_2]).
      rewrite D by done. rewrite decide_False; [done|]. intros ->. apply Ne.
      destruct H as [[_ ->]|H]; [by rewrite lookup_nil in Hc|]. pose proof (chain_nodup _ _ _ G H) as Nd.
      pose proof (NoDup_lookup _ _ _ _ Nd Ea Hc). lia.
Qed.

Lemma extended_fbyte t t' l l' i : vol_ok (fs_vol t) -> fchain (fs_vol t) (start_cluster (fi (ino t))) l ->
  extended l l' (fs_vol t) (fs_vol t') -> 0 <= i < fsz t * zlength l -> fbyte (fs_vol t') (l ++ l') i = fbyte (fs_vol t) l i.
Proof.
  intros V H X Hi. pose proof (fsz_pos t V). unfold fbyte. rewrite (e_sbi _ _ _ _ X). fold (fsz t).
  assert (0 <= i / fsz t < zlength l) by (split; [apply Z.div_pos; lia|apply Z.div_lt_upper_bound; lia]).
  destruct (lookup_lt_is_Some_2 l (Z.to_nat (i / fsz t))) as [c Hc]; [unfold zlength in *; lia|].
  rewrite (lookup_app_l_Some _ _ _ _ Hc), Hc. f_equal. eapply extended_data; [done..|].
  eapply chain_pos; [apply V|done|by eapply list_elem_of_lookup_2].
Qed.

Lemma used_in_file v c l : Fat.geom (sbi v) -> fchain v c l -> forall a, a ∈ l -> tab v a <> 0.
Proof.
  intros G [[_ ->]|H] a Ha; [set_solver|]. pose proof (chain_tab _ _ _ _ G H Ha). lia.
Qed.

Lemma byte_at_memcpy_u8 b o src k : Forall is_u8 b -> Forall is_u8 src -> Forall is_u8 (memcpy_at b o src k).
Proof.
  intros Hb Hs. unfold memcpy_at. repeat (apply Forall_app; split); by first [apply Forall_take|apply Forall_drop].
Qed.

(** The clusters are those of the old size and of what has been written; a round
    starts in an old cluster or at the beginning of one. *)
Definition at_start (K start cs n : Z) : Prop :=
  0 <= K <= n /\ 0 <= start <= cs * n /\ (cs * (n - 1) < start \/ n = K) /\ (start mod cs = 0 \/ start / cs < K).

Lemma write_round_ok K start total buf t l : chain_of t l -> counters_ok (fs_vol t) -> Forall is_u8 buf ->
  at_start K start (fsz t) (zlength l) -> 0 <= total < zlength buf -> start < 2 ^ 32 ->
  let chunk := Z.min (fsz t - start mod fsz t) (zlength buf - total) in
  (exists l' t', write_round K start total buf t = (Ok chunk, t') /\ chain_of t' (l ++ l') /\ grown l l' (fs_vol t) (fs_vol t') /\
     same_inode t t' /\ zlength (l ++ l') = Z.max (zlength l) (start / fsz t + 1) /\
     (forall i, 0 <= i -> i < fsz t * zlength l \/ i < start + chunk ->
        fbyte (fs_vol t') (l ++ l') i = if decide (start <= i < start + chunk) then byte_at buf (total + (i - start)) else fbyte (fs_vol t) l i)) \/
  (exists t', write_round K start total buf t = (Er (- ENOSPC), t') /\ chain_of t' l /\ grown l [] (fs_vol t) (fs_vol t') /\
     same_inode t t' /\ zlength l <= start / fsz t /\ (forall i, 0 <= i < fsz t * zlength l -> fbyte (fs_vol t') l i = fbyte (fs_vol t) l i) /\
     forall c, valid (sbi (fs_vol t)) c -> tab (fs_vol t') c <> 0).
Proof.
  intros C Hk Hu (A1 & A2 & A3 & A4) Ht Hb chunk. pose proof C as (V & H & _). pose proof (v_geom _ V) as G.
  pose proof (fsz_pos t V) as Hcs. destruct (chain_cap _ _ _ G H) as [Cap Cap']. fold (fsz t) in Cap.
  destruct (chunk_facts (fsz t) start (zlength buf - total) ltac:(lia) ltac:(lia) ltac:(lia)) as (K1 & K2 & K3 & K4 & _).
  fold chunk in K2, K3, K4. set (o := start mod fsz t) in *. set (idx := start / fsz t) in *.
  assert (Hs : start = fsz t * idx + o) by (apply Z.div_mod; lia).
  assert (Hidx : 0 <= idx <= zlength l) by (split; [apply Z.div_pos; lia|nia]).
  unfold write_round. rewrite bind_getf. cbv zeta. fold o idx chunk. rewrite (u32_small idx) by lia.
  destruct (cluster_at_alloc_ok t l idx C Hk ltac:(lia)) as (r & l1 & t1 & E1 & X & C1 & I1 & L1 & [(c & -> & Hc & Hz)|(-> & Hz & Hfull)]).
  2:{ right. assert (l1 = []) as ->. { rewrite zlength_app in Hz. destruct l1; [done|]. rewrite zlength_cons in Hz. pose proof (zlength_nonneg l1). lia. }
      rewrite app_nil_r in *. exists t1. split_and!; [by rewrite (bind_er _ _ _ _ _ E1)|done|by apply extended_grown|done|lia| |done].
      intros i Hi. rewrite <- (app_nil_r l) at 1. by apply extended_fbyte. }
  left. pose proof C1 as (V1 & H1 & _). pose proof (v_geom _ V1) as G1.
  assert (B1 : sbi (fs_vol t1) = sbi (fs_vol t)) by apply X. assert (Hf1 : fsz t1 = fsz t) by (unfold fsz; by rewrite B1).
  assert (Vc : valid (sbi (fs_vol t1)) c) by (eapply chain_pos; [done|done|by eapply list_elem_of_lookup_2]).
  pose proof (valid_range _ _ G1 Vc). rewrite (bind_ok _ _ _ _ _ E1). destruct (Z.eqb_spec c 0); [lia|].
  rewrite bind_ret, (bind_ok _ _ _ _ _ (kmalloc_onvol t1 V1)).
  set (b0 := if idx <? K then cluster_data (fs_vol t1) c else replicate (Z.to_nat (fsz t)) 0).
  assert (E2 : (if idx <? K then onvol (fat_read_cluster c) else ret (replicate (Z.to_nat (fsz t)) 0)) t1 = (Ok b0, t1)).
  { subst b0. destruct (idx <? K); [|done]. erewrite onvol_ok; [|by apply read_cluster_ok]. by rewrite set_vol_id. }
  rewrite (bind_ok _ _ _ _ _ E2).
  assert (Lb0 : zlength b0 = fsz t).
  { subst b0. destruct (idx <? K); [rewrite length_cluster by done; exact Hf1|]. unfold zlength. rewrite length_replicate. lia. }
  assert (Ub0 : Forall is_u8 b0).
  { subst b0. destruct (idx <? K); [by apply cluster_u8|]. apply Forall_replicate. done. }
  set (src := sub_bytes buf total chunk).
  assert (Lsrc : zlength src = chunk).
  { subst src. unfold sub_bytes, zlength in *. rewrite length_take, length_drop. lia. }
  set (b1 := memcpy_at b0 o src chunk).
  assert (Lb1 : zlength b1 = fsz t1).
  { rewrite Hf1. unfold zlength. subst b1. rewrite length_memcpy_at by lia. exact Lb0. }
  assert (Ub1 : Forall is_u8 b1).
  { apply byte_at_memcpy_u8; [done|]. subst src. by apply Forall_take, Forall_drop. }
  assert (Hk1 : counters_ok (fs_vol t1)) by (by apply (extended_grown l l1 (fs_vol t))).
  destruct (put_in_file t1 (l ++ l1) idx c b1 C1 Hk1 ltac:(lia) Hc Lb1 Ub1) as (t2 & E3 & C2 & G2 & I2 & _ & D2).
  rewrite (bind_ok _ _ _ _ _ E3).
  exists l1. eexists. split; [done|]. split_and!; [done| | |done|].
  - rewrite <- (app_nil_r l1). eapply grown_trans; [by apply extended_grown|exact G2|]. by eapply used_in_file.
  - unfold same_inode. cbn. rewrite I2. exact I1.
  - intros i Hi0 Hi. cbn [fs_vol tell modify]. rewrite D2, Hf1 by done.
    assert (Hnew : ~ idx < K -> o = 0 /\ idx = zlength l).
    { intros Hn. destruct A4 as [A4|A4]; [|done]. fold o in A4. split; [done|]. nia. }
    destruct (decide (i / fsz t = idx)) as [Ei|Ei].
    + pose proof (Z.div_mod i (fsz t) ltac:(lia)) as Em. pose proof (Z.mod_pos_bound i (fsz t) ltac:(lia)). rewrite Ei in Em.
      subst b1. rewrite byte_at_memcpy by lia.
      destruct (decide (start <= i < start + chunk)) as [W|W].
      * rewrite decide_True by lia. subst src. unfold byte_at, sub_bytes. rewrite lookup_take_lt, lookup_drop by lia. do 2 f_equal. lia.
      * rewrite decide_False by lia. subst b0. destruct (Z.ltb_spec idx K) as [Lk|Lk].
        -- transitivity (fbyte (fs_vol t1) (l ++ l1) i).
           { unfold fbyte. change (cluster_size (sbi (fs_vol t1))) with (fsz t1). by rewrite Hf1, Ei, Hc. }
           apply extended_fbyte; [done|done|done|]. split; [done|]. nia.
        -- exfalso. destruct (Hnew ltac:(lia)) as [O1 O2]. nia.
    + assert (Hw : ~ (start <= i < start + chunk)).
      { intros W. apply Ei. replace i with (start + (i - start)) by lia. apply (K4 (i - start)). lia. }
      rewrite decide_False by done. apply extended_fbyte; [done|done|done|].
      pose proof (Z.div_mod i (fsz t) ltac:(lia)). pose proof (Z.mod_pos_bound i (fsz t) ltac:(lia)).
      split; [done|]. nia.
Qed.

Lemma at_start_next K start cs n n' k : 0 < cs -> at_start K start cs n -> 0 < k -> start mod cs + k <= cs ->
  n' = Z.max n (start / cs + 1) -> (start + k) mod cs = 0 -> at_start K (start + k) cs n'.
Proof.
  intros Hc (A1 & A2 & A3 & A4) Hk Ho -> Ha. pose proof (Z.div_mod start cs ltac:(lia)) as E.
  pose proof (Z.mod_pos_bound start cs Hc). pose proof (Z.div_pos start cs ltac:(lia) Hc).
  set (q := start / cs) in *. split_and!; [lia|lia|lia|nia| |by left].
  destruct (Z.max_spec n (q + 1)) as [[M ->]|[M ->]]; [left; nia|].
  destruct A3 as [A3|A3]; [|by right]. left. nia.
Qed.

Definition cdiv (x cs : Z) : Z := (x + cs - 1) / cs.

Lemma cdiv_spec x cs n : 0 < cs -> cdiv x cs <= n <-> x <= cs * n.
Proof.
  intros Hc. unfold cdiv. pose proof (Z.div_mod (x + cs - 1) cs ltac:(lia)). pose proof (Z.mod_pos_bound (x + cs - 1) cs Hc).
  split; intros; [nia|]. apply Z.lt_succ_r, Z.div_lt_upper_bound; [done|]. nia.
Qed.

Lemma cdiv_eq x cs q : 0 < cs -> cs * (q - 1) < x <= cs * q -> cdiv x cs = q.
Proof.
  intros Hc Hq. apply Z.le_antisymm; [apply cdiv_spec; lia|]. apply Z.lt_pred_le. apply Z.lt_nge. intros H.
  apply cdiv_spec in H; [|done]. nia.
Qed.

Lemma cdiv_mono x y cs : 0 < cs -> x <= y -> cdiv x cs <= cdiv y cs.
Proof. intros Hc H. unfold cdiv. apply Z.div_le_mono; lia. Qed.

Lemma write_loop_ok n K start total buf t l : chain_of t l -> counters_ok (fs_vol t) -> Forall is_u8 buf ->
  (total < zlength buf -> at_start K start (fsz t) (zlength l)) -> 0 <= start <= fsz t * zlength l -> 0 <= total <= zlength buf ->
  start + (zlength buf - total) < 2 ^ 32 ->
  (total < zlength buf -> start mod fsz t + (zlength buf - total) <= fsz t * Z.of_nat n) ->
  exists k l' t' err, write_loop n K start total buf t = (Ok (start + k, total + k, err), t') /\ 0 <= k <= zlength buf - total /\
    chain_of t' (l ++ l') /\ grown l l' (fs_vol t) (fs_vol t') /\ same_inode t t' /\
    zlength (l ++ l') = Z.max (zlength l) (cdiv (start + k) (fsz t)) /\
    (forall i, 0 <= i -> i < fsz t * zlength l \/ i < start + k ->
       fbyte (fs_vol t') (l ++ l') i = if decide (start <= i < start + k) then byte_at buf (total + (i - start)) else fbyte (fs_vol t) l i) /\
    (k = zlength buf - total /\ err = None \/
     k < zlength buf - total /\ err = Some (- ENOSPC) /\ forall c, valid (sbi (fs_vol t)) c -> tab (fs_vol t') c <> 0).
Proof.
  revert start total t l. induction n as [|n IH]; intros start total t l C Hk Hu A Hs Ht Hb Hf; pose proof (fsz_pos t (proj1 C)) as Hcs.
  all: assert (Hdone : total = zlength buf \/ total < zlength buf) by lia.
  all: assert (G0 : grown l [] (fs_vol t) (fs_vol t)) by (constructor; [done|done|set_solver|done]).
  all: assert (Hc0 : cdiv (start + 0) (fsz t) <= zlength l) by (apply cdiv_spec; lia).
  all: assert (Hbase : total = zlength buf -> exists k l' t' err, (Ok (start, total, None), t) = (Ok (start + k, total + k, err), t') /\ 0 <= k <= zlength buf - total /\
    chain_of t' (l ++ l') /\ grown l l' (fs_vol t) (fs_vol t') /\ same_inode t t' /\
    zlength (l ++ l') = Z.max (zlength l) (cdiv (start + k) (fsz t)) /\
    (forall i, 0 <= i -> i < fsz t * zlength l \/ i < start + k ->
       fbyte (fs_vol t') (l ++ l') i = if decide (start <= i < start + k) then byte_at buf (total + (i - start)) else fbyte (fs_vol t) l i) /\
    (k = zlength buf - total /\ err = None \/
     k < zlength buf - total /\ err = Some (- ENOSPC) /\ forall c, valid (sbi (fs_vol t)) c -> tab (fs_vol t') c <> 0)).
  1,3: (intros Et; exists 0, [], t, None; rewrite app_nil_r; split_and!; [by rewrite !Z.add_0_r|lia|lia|done|done|apply same_inode_refl|lia| |left; split; [lia|done]];
    intros i Hi0 Hi; by rewrite decide_False by lia).
  - destruct Hdone as [E|L]; [exact (Hbase E)|]. specialize (Hf L). pose proof (Z.mod_pos_bound start (fsz t)). lia.
  - cbn [write_loop]. destruct (Z.geb_spec total (zlength buf)) as [L|L]; [apply Hbase; lia|]. clear Hbase Hdone.
    specialize (A L). specialize (Hf L). pose proof C as (V & H & _).
    destruct (chunk_facts (fsz t) start (zlength buf - total) ltac:(lia) ltac:(lia) ltac:(lia)) as (K1 & K2 & K3 & K4 & K5).
    set (chunk := Z.min (fsz t - start mod fsz t) (zlength buf - total)) in *.
    pose proof (Z.div_mod start (fsz t) ltac:(lia)) as Em.
    destruct (write_round_ok K start total buf t l C Hk Hu A ltac:(lia) ltac:(lia)) as [(l1 & t1 & E1 & C1 & G1 & I1 & Z1 & D1)|(t1 & E1 & C1 & G1 & I1 & Z1 & D1 & Full)];
      fold chunk in E1; try fold chunk in D1.
    + rewrite (bind_try _ _ _ _ _ E1). assert (Hf1 : fsz t1 = fsz t) by (unfold fsz; by rewrite (gr_sbi _ _ _ _ G1)).
      assert (Hcd : cdiv (start + chunk) (fsz t) = start / fsz t + 1) by (apply cdiv_eq; [lia|nia]).
      destruct (IH (start + chunk) (total + chunk) t1 (l ++ l1) C1 (gr_counters _ _ _ _ G1) Hu) as (k & l2 & t2 & err & E2 & R2 & C2 & G2 & I2 & Z2 & D2 & F2).
      * intros L2. rewrite Hf1. eapply at_start_next; [lia|exact A|lia|lia|exact Z1|apply K5; lia].
      * rewrite Hf1, Z1. split; [lia|]. nia.
      * lia.
      * lia.
      * intros L2. rewrite Hf1. destruct (K5 ltac:(lia)) as (-> & -> & _). lia.
      * rewrite Hf1 in *. exists (chunk + k), (l1 ++ l2), t2, err. rewrite app_assoc.
        split_and!; [by rewrite E2, !Z.add_assoc|lia|lia|done| |by eapply same_inode_trans| | |].
        -- eapply grown_trans; [done|done|]. eapply used_in_file; [apply C1|apply C1].
        -- rewrite Z2, Z1, Z.add_assoc, <- Hcd. pose proof (cdiv_mono (start + chunk) (start + chunk + k) (fsz t)). lia.
        -- intros i Hi0 Hi. rewrite D2; [|done|rewrite Z1; nia].
           destruct (decide (start + chunk <= i < start + chunk + k)) as [W|W].
           ++ rewrite decide_True by lia. f_equal. lia.
           ++ rewrite D1; [|done|lia]. destruct (decide (start <= i < start + chunk)); [by rewrite decide_True by lia|by rewrite decide_False by lia].
        -- destruct F2 as [[-> ->]|(F3 & -> & F4)]; [left; split; [lia|done]|right]. split_and!; [lia|done|].
           by rewrite <- (gr_sbi _ _ _ _ G1).
    + rewrite (bind_try _ _ _ _ _ E1). exists 0, [], t1, (Some (- ENOSPC)). rewrite app_nil_r.
      split_and!; [by rewrite !Z.add_0_r|lia|lia|done|done|done|lia| |right; split_and!; [lia|done|done]].
      intros i Hi0 Hi. rewrite decide_False by lia. apply D1. lia.
Qed.

(** ** The directory entry *)

Lemma write16_keeps b o v : 0 <= o -> o + 2 <= zlength b -> Forall is_u8 b ->
  zlength (fat_write16 b o v) = zlength b /\ Forall is_u8 (fat_write16 b o v).
Proof.
  intros Ho Hl Hu. unfold fat_write16. split.
  - unfold zlength in *. rewrite length_memcpy_at; [done|lia|lia|unfold zlength; lia|done].
  - apply byte_at_memcpy_u8; [done|]. rewrite !land_ff. unfold is_u8. repeat constructor; apply Z.mod_pos_bound; lia.
Qed.

Lemma write32_keeps b o v : 0 <= o -> o + 4 <= zlength b -> Forall is_u8 b ->
  zlength (fat_write32 b o v) = zlength b /\ Forall is_u8 (fat_write32 b o v).
Proof.
  intros Ho Hl Hu. rewrite fat_write32_eq. split; [unfold zlength in *; rewrite length_write32; unfold zlength; lia|by apply write32_u8].
Qed.

(** The entry of the file is in a directory, not in its own data. *)
Record entry_ok (t : st) (l : list Z) : Prop := {
  en_attr : is_u8 (attributes (ino t));
  en_offset : 0 <= dir_offset (ino t) < 2 ^ 31;
  en_range : is_u32 (dir_cluster (ino t));
  en_cluster : valid (sbi (fs_vol t)) (dir_cluster (ino t)) -> (dir_cluster (ino t) ∉ l) /\ tab (fs_vol t) (dir_cluster (ino t)) <> 0;
}.

(** At most the data of the directory has changed. *)
Record entry_put (t t' : st) : Prop := {
  ep_sbi : sbi (fs_vol t') = sbi (fs_vol t);
  ep_counters : next_free (fs_vol t') = next_free (fs_vol t) /\ free_clusters (fs_vol t') = free_clusters (fs_vol t);
  ep_tab : forall c, valid (sbi (fs_vol t)) c -> tab (fs_vol t') c = tab (fs_vol t) c;
  ep_data : forall c, valid (sbi (fs_vol t)) c -> c <> dir_cluster (ino t) -> cluster_data (fs_vol t') c = cluster_data (fs_vol t) c;
  ep_ino : ino t' = ino t;
  ep_log : cache_log t' = cache_log t;
}.

Lemma fat_write_inode_put t l : vol_ok (fs_vol t) -> entry_ok t l ->
  exists r t', fat_write_inode t = (r, t') /\ vol_ok (fs_vol t') /\ entry_put t t'.
Proof.
  intros V [Ea Eo Er Ec]. pose proof (v_geom _ V) as Gm. pose proof (fsz_pos t V) as Hcs.
  assert (N : forall r : res unit, exists r' t', (r, t) = (r', t') /\ vol_ok (fs_vol t') /\ entry_put t t').
  { intros r. exists r, t. split_and!; [done|done|by constructor]. }
  unfold fat_write_inode. rewrite bind_getf. cbv zeta.
  destruct (i_ino (ino t) =? 0); [apply N|]. destruct (i_ino (ino t) =? FAT_ROOT_INO); [apply N|].
  destruct (Z.eqb_spec (dir_cluster (ino t)) 0); [apply N|]. cbn [orb].
  destruct (bad_cluster (sbi (fs_vol t)) (dir_cluster (ino t))) eqn:Bad; [apply N|]. cbn [orb].
  unfold FAT_ENTRY_SIZE. rewrite u32_small by lia. fold (fsz t).
  destruct (Z.gtb_spec (dir_offset (ino t) + 32) (fsz t)); [apply N|].
  set (c := dir_cluster (ino t)) in *. set (o := dir_offset (ino t)) in *.
  assert (Vc : valid (sbi (fs_vol t)) c).
  { unfold bad_cluster in Bad. unfold valid, is_u32 in *. destruct (Z.ltb_spec c 2); [done|]. cbn [orb] in Bad.
    rewrite u32_small in Bad by lia. destruct (Z.geb_spec (c - 2) (total_clusters (sbi (fs_vol t)))); [done|lia]. }
  rewrite (bind_ok _ _ _ _ _ (kmalloc_onvol t V)).
  assert (Rd : onvol (fat_read_cluster c) t = (Ok (cluster_data (fs_vol t) c), t)).
  { erewrite onvol_ok; [|by apply read_cluster_ok]. by rewrite set_vol_id. }
  rewrite (bind_ok _ _ _ _ _ Rd). destruct (_ || _); [apply N|].
  set (b0 := memcpy_at (cluster_data (fs_vol t) c) (o + 11) [attributes (ino t)] 1).
  assert (P0 : zlength b0 = fsz t /\ Forall is_u8 b0).
  { subst b0. pose proof (length_cluster _ c V) as L. fold (fsz t) in L. split.
    - unfold zlength in *. rewrite length_memcpy_at; unfold zlength; cbn; lia.
    - apply byte_at_memcpy_u8; [by apply cluster_u8|by apply Forall_singleton]. }
  set (b1 := fat_write16 b0 (o + 20) _). assert (P1 : zlength b1 = fsz t /\ Forall is_u8 b1).
  { destruct P0 as [L U]. rewrite <- L. apply write16_keeps; [lia|lia|done]. }
  set (b2 := fat_write16 b1 (o + 26) _). assert (P2 : zlength b2 = fsz t /\ Forall is_u8 b2).
  { destruct P1 as [L U]. rewrite <- L. apply write16_keeps; [lia|lia|done]. }
  set (b3 := fat_write32 b2 (o + 28) _). assert (P3 : zlength b3 = fsz t /\ Forall is_u8 b3).
  { destruct P2 as [L U]. rewrite <- L. apply write32_keeps; [lia|lia|done]. }
  set (b4 := if i_mtime (ino t) =? 0 then b3 else _). assert (P4 : zlength b4 = fsz t /\ Forall is_u8 b4).
  { subst b4. destruct (i_mtime (ino t) =? 0); [done|]. unfold fat_entry_set_modify_times.
    destruct (write16_keeps b3 (o + 18) (fat_dos_date (i_atime (ino t)))) as [L5 U5]; [lia|lia|apply P3|].
    destruct (write16_keeps (fat_write16 b3 (o + 18) (fat_dos_date (i_atime (ino t)))) (o + 22) (fat_dos_time (i_mtime (ino t)))) as [L6 U6]; [lia|lia|done|].
    destruct (write16_keeps _ (o + 24) (fat_dos_date (i_mtime (ino t))) ltac:(lia) ltac:(rewrite L6, L5; lia) U6) as [L7 U7].
    split; [lia|done]. }
  clearbody b4. destruct P4 as [L4 U4].
  destruct (put_cluster_ok _ _ _ V Vc L4 U4) as [(V' & B & Nx & Fc) T D].
  set (v' := put_cluster c b4 (fs_vol t)) in *. exists (Ok tt), (set_vol v' t).
  split_and!; [by apply onvol_ok, write_cluster_run|done|].
  constructor; [done|done|exact T| |done|done]. intros a Va Na. cbn. rewrite D by done. by rewrite decide_False.
Qed.

Lemma entry_put_chain t t' c l : entry_put t t' -> vol_ok (fs_vol t) -> fchain (fs_vol t) c l -> fchain (fs_vol t') c l.
Proof.
  intros P V [H|H]; [by left|right]. eapply fchain_frame; [apply (ep_sbi _ _ P)| |exact H].
  intros x Hx. apply (ep_tab _ _ P). by eapply chain_valid.
Qed.

Lemma fat_write_inode_ok t l : chain_of t l -> entry_ok t l ->
  exists r t', fat_write_inode t = (r, t') /\ chain_of t' l /\ entry_put t t'.
Proof.
  intros (V & H & C) E. destruct (fat_write_inode_put t l V E) as (r & t' & R & V' & P). exists r, t'.
  split_and!; [done| |done]. unfold chain_of. rewrite (ep_ino _ _ P). split_and!; [done|by eapply entry_put_chain|done].
Qed.

(** ** The whole write *)

Lemma chain_last v c l x : chain v c l -> last l = Some x -> FAT_EOC_MIN <= tab v x.
Proof.
  revert c. induction l as [|y l IH]; intros c; [done|]. intros (-> & _ & H) Hl. destruct l as [|z l].
  - cbn in Hl. by injection Hl as ->.
  - destruct H as [_ H]. rewrite last_cons_cons in Hl. by eapply IH.
Qed.

Lemma rollback_idle t l : chain_of t l ->
  exists t', fat_file_rollback_to_clusters (zlength l) t = (Ok tt, t') /\ chain_of t' l /\ same (fs_vol t) (fs_vol t') /\ same_inode t t'.
Proof.
  intros C. pose proof C as (V & H & Cc). pose proof (v_geom _ V) as Gm. destruct (chain_cap _ _ _ Gm H) as [_ Cap].
  unfold fat_file_rollback_to_clusters. destruct (Z.eqb_spec (zlength l) 0) as [E|E].
  - destruct l as [|x l]; [|rewrite zlength_cons in E; pose proof (zlength_nonneg l); lia].
    destruct H as [[E0 _]|[]]. rewrite bind_getf, E0. cbv zeta. eexists. split; [done|]. split_and!; [|done|done].
    split_and!; [done|by left|done].
  - destruct H as [[_ ->]|H]; [done|]. pose proof (zlength_nonneg l).
    destruct (cluster_at_ok t l (zlength l - 1) C ltac:(lia)) as (t1 & E1 & C1 & Q1). rewrite (bind_ok _ _ _ _ _ E1).
    destruct (last l) as [x|] eqn:El; [|by apply last_None in El; subst l].
    assert (Hx : l !! Z.to_nat (zlength l - 1) = Some x).
    { rewrite last_lookup in El. rewrite <- El. f_equal. unfold zlength. lia. }
    rewrite Hx. change (default 0 (Some x)) with x.
    assert (Vx : valid (sbi (fs_vol t)) x) by (eapply chain_valid; [done|by eapply list_elem_of_lookup_2]).
    pose proof (valid_range _ _ Gm Vx). destruct (Z.eqb_spec x 0); [lia|].
    assert (B1 : sbi (fs_vol t1) = sbi (fs_vol t)) by apply Q1.
    destruct (fat_next_cluster_ok (fs_vol t1) x (proj1 C1)) as (v2 & E2 & V2 & S2); [by rewrite B1|].
    rewrite link_end in E2 by (rewrite (same_tab (fs_vol t)) by apply Q1; by eapply chain_last).
    rewrite (bind_try _ _ _ _ _ (onvol_ok _ _ _ _ E2)). change (- ENOENT =? - ENOENT) with true. cbv iota.
    eexists. split; [done|]. destruct C1 as (_ & Hch & C1). split_and!; [|by eapply same_trans, S2; apply Q1|].
    + split_and!; [done| |done]. destruct Hch as [Hch|Hch]; [by left|right]. eapply fchain_frame; [apply S2| |exact Hch].
      intros; by apply same_tab.
    + unfold same_inode. cbn. destruct Q1 as (_ & _ & Q1). rewrite Q1. by destruct t as [v [] lg].
Qed.

(** What a call leaves of the rest of the volume. *)
Definition rest_kept (l l' : list Z) (t t' : st) : Prop :=
  sbi (fs_vol t') = sbi (fs_vol t) /\ counters_ok (fs_vol t') /\
  (forall x, x ∈ l' -> tab (fs_vol t) x = 0) /\
  forall c, valid (sbi (fs_vol t)) c -> c ∉ l -> c ∉ l' ->
    tab (fs_vol t') c = tab (fs_vol t) c /\ (c <> dir_cluster (ino t) -> cluster_data (fs_vol t') c = cluster_data (fs_vol t) c).

Lemma fbyte_entry t t' l i : vol_ok (fs_vol t) -> fchain (fs_vol t) (start_cluster (fi (ino t))) l -> entry_put t t' ->
  (valid (sbi (fs_vol t)) (dir_cluster (ino t)) -> dir_cluster (ino t) ∉ l) -> fbyte (fs_vol t') l i = fbyte (fs_vol t) l i.
Proof.
  intros V H E Hd. unfold fbyte. rewrite (ep_sbi _ _ E). destruct (l !! _) as [c|] eqn:Ec; [|done].
  assert (Hc : c ∈ l) by (by eapply list_elem_of_lookup_2).
  assert (Vc : valid (sbi (fs_vol t)) c) by (eapply chain_pos; [apply V|done|done]).
  rewrite (ep_data _ _ E); [done|done|]. intros ->. by apply Hd.
Qed.

Lemma archive_u8 a : is_u8 a -> is_u8 (Z.lor a FAT_ATTR_ARCHIVE).
Proof.
  unfold is_u8, FAT_ATTR_ARCHIVE. intros H. split; [apply Z.lor_nonneg; lia|].
  destruct (decide (Z.lor a 0x20 = 0)) as [->|]; [lia|].
  apply Z.log2_lt_pow2; [pose proof (proj2 (Z.lor_nonneg a 0x20)); lia|].
  rewrite Z.log2_lor by lia. apply Z.max_lub_lt; [|done].
  destruct (decide (a = 0)) as [->|]; [done|]. apply Z.log2_lt_pow2; lia.
Qed.

(** The entry of a file that has got the clusters [l'] is still in a directory. *)
Lemma entry_ok_modified now t t2 l l' : entry_ok t l -> sbi (fs_vol t2) = sbi (fs_vol t) ->
  attributes (ino t2) = attributes (ino t) -> dir_offset (ino t2) = dir_offset (ino t) -> dir_cluster (ino t2) = dir_cluster (ino t) ->
  (dir_cluster (ino t) ∈ l' -> tab (fs_vol t) (dir_cluster (ino t)) = 0) ->
  (forall c, valid (sbi (fs_vol t)) c -> c ∉ l -> c ∉ l' -> tab (fs_vol t2) c = tab (fs_vol t) c) ->
  entry_ok (modified now t2) (l ++ l').
Proof.
  intros [N1 N2 N3 N4] B Ea Eo Ec Hf Ho.
  constructor; cbn [modified set_ino ino dir_offset dir_cluster attributes fs_vol]; rewrite ?Ea, ?Eo, ?Ec, ?B.
  - by apply archive_u8.
  - done.
  - done.
  - intros Vd. destruct (N4 Vd) as [N5 N6].
    assert (N7 : dir_cluster (ino t) ∉ l') by (intros Hin; by apply N6, Hf).
    split; [by apply not_elem_of_app|]. by rewrite (Ho _ Vd N5 N7).
Qed.


(** ** Truncation *)

Lemma chain_app v c l1 x l2 : chain v c (l1 ++ x :: l2) -> l1 <> [] ->
  exists l y, l1 = l ++ [y] /\ tab v y = x /\ chain v x (x :: l2).
Proof.
  intros H N. destruct (exists_last N) as (l & y & ->). exists l, y. split; [done|].
  rewrite <- app_assoc in H. cbn in H. apply chain_suffix in H. destruct H as (_ & _ & E & H). done.
Qed.

(** Cutting a chain behind a cluster. *)
Lemma fchain_cut v v' c l y l2 : sbi v' = sbi v -> chain v c (l ++ y :: l2) -> FAT_EOC_MIN <= tab v' y ->
  (forall x, x ∈ l -> tab v' x = tab v x) -> chain v' c (l ++ [y]).
Proof.
  intros B. revert c. induction l as [|x l IH]; intros c H He Ho.
  - cbn in *. destruct H as (-> & Vy & _). rewrite B. done.
  - cbn in H |- *. destruct H as (-> & Vx & H). rewrite B. split_and!; [done|done|].
    destruct l as [|z l]; cbn in *.
    + destruct H as [E H]. split; [by rewrite Ho by set_solver|]. apply IH; [done|done|]. intros; by apply Ho; set_solver.
    + destruct H as [E H]. split; [by rewrite Ho by set_solver|]. apply IH; [done|done|]. intros a Ha; apply Ho; set_solver.
Qed.

(** What a chain of [n] clusters that were kept leaves of the others. *)
Record shrunk (n : Z) (l : list Z) (t t' : st) : Prop := {
  sh_ok : vol_ok (fs_vol t');
  sh_sbi : sbi (fs_vol t') = sbi (fs_vol t);
  sh_next : next_free (fs_vol t') = next_free (fs_vol t);
  sh_count : free_clusters (fs_vol t') = Z.min (free_clusters (fs_vol t) + (zlength l - n)) (total_clusters (sbi (fs_vol t)));
  sh_chain : fchain (fs_vol t') (start_cluster (fi (ino t'))) (take (Z.to_nat n) l);
  sh_free : forall c, c ∈ drop (Z.to_nat n) l -> tab (fs_vol t') c = 0;
  sh_others : forall c, valid (sbi (fs_vol t)) c -> c ∉ l -> tab (fs_vol t') c = tab (fs_vol t) c;
  sh_data : forall c, valid (sbi (fs_vol t)) c -> cluster_data (fs_vol t') c = cluster_data (fs_vol t) c;
  sh_ino : ino t' = ino (set_start_cluster (if n =? 0 then 0 else start_cluster (fi (ino t))) t);
  sh_log : cache_log t' = cache_log t;
}.

Lemma freed_data l v v' c : Fat.geom (sbi v) -> valid (sbi v) c -> freed l v v' -> cluster_data v' c = cluster_data v c.
Proof.
  intros G Vc F. destruct (cluster_place _ _ G Vc) as (_ & P1 & P2 & P3). unfold cluster_data. rewrite (f_sbi _ _ _ F).
  unfold read_sectors. f_equal. apply list_fmap_ext. intros i x Hx. apply lookup_seqZ in Hx as [-> Hx]. apply (f_data _ _ _ F). lia.
Qed.

Lemma same_data v v' c : same v v' -> cluster_data v' c = cluster_data v c.
Proof. intros (E1 & E2 & _). unfold cluster_data. by rewrite E1, E2. Qed.

Lemma wrote_data a x v v' c : Fat.geom (sbi v) -> valid (sbi v) c -> wrote a x v v' -> cluster_data v' c = cluster_data v c.
Proof.
  intros G Vc W. destruct (cluster_place _ _ G Vc) as (_ & P1 & P2 & P3). unfold cluster_data. rewrite (w_sbi _ _ _ _ W).
  unfold read_sectors. f_equal. apply list_fmap_ext. intros i y Hy. apply lookup_seqZ in Hy as [-> Hy]. apply (w_out _ _ _ _ W). lia.
Qed.

(** Where the chain is cut. *)
Lemma fit_chain_cut t l y z l2 : chain_of t (l ++ y :: z :: l2) -> counters_ok (fs_vol t) ->
  free_clusters (fs_vol t) <= total_clusters (sbi (fs_vol t)) ->
  exists t', fit_chain (zlength (l ++ [y])) (zlength (l ++ y :: z :: l2)) t = (Ok tt, t') /\
    shrunk (zlength (l ++ [y])) (l ++ y :: z :: l2) t t'.
Proof.
  intros (V & H & C) [Hn Hf] Hle. pose proof (v_geom _ V) as G. destruct H as [[_ E]|H]; [by destruct l|].
  pose proof (chain_nodup _ _ _ G H) as ND. pose proof (chain_length _ _ _ G H) as L. pose proof (g_marks _ G) as M. unfold FAT_BAD_CLUSTER in M.
  assert (Hl : zlength (l ++ [y]) = zlength l + 1) by (rewrite zlength_app; done).
  assert (Hl2 : zlength (l ++ y :: z :: l2) = zlength l + 2 + zlength l2) by (rewrite zlength_app, !zlength_cons; lia).
  pose proof (zlength_nonneg l). pose proof (zlength_nonneg l2). rewrite Hl, Hl2. change (zlength (l ++ y :: z :: l2) <= total_clusters (sbi (fs_vol t))) in L.
  unfold fit_chain. rewrite bind_getf. destruct (Z.ltb_spec (zlength l + 1) (zlength l + 2 + zlength l2)); [|lia].
  destruct (Z.eqb_spec (zlength l + 1) 0); [lia|].
  assert (Hat : (l ++ y :: z :: l2) !! Z.to_nat (zlength l + 1 - 1) = Some y).
  { replace (Z.to_nat (zlength l + 1 - 1)) with (length l) by (unfold zlength; lia). by apply list_lookup_middle. }
  destruct (fat_cluster_at_alloc_in (fs_vol t) (fi (ino t)) _ (zlength l + 1 - 1) y V (or_intror H) ltac:(lia) Hat) as (v1 & E1 & V1 & S1).
  assert (Ea : cluster_at_alloc (zlength l + 1 - 1) t = (Ok y, set_vol v1 t)).
  { unfold cluster_at_alloc. rewrite E1. by destruct t as [v [] lg]. }
  rewrite (bind_ok _ _ _ _ _ Ea).
  pose proof S1 as (D1 & B1 & N1 & F1).
  assert (Vy : valid (sbi v1) y) by (rewrite B1; eapply chain_valid; [done|set_solver]).
  assert (Vz : valid (sbi v1) z) by (rewrite B1; eapply chain_valid; [done|set_solver]).
  destruct (fat_next_cluster_ok v1 y V1 Vy) as (v2 & E2 & V2 & S2). pose proof S2 as (D2 & B2 & N2 & F2).
  assert (Ty : tab v1 y = z).
  { rewrite (same_tab _ _ _ S1). apply chain_suffix in H. by destruct H as (_ & _ & ? & _). }
  assert (Lz : link (sbi v1) (tab v1 y) = Ok z) by (apply link_valid; [by rewrite B1|done]).
  rewrite Lz in E2. rewrite (bind_try _ _ _ _ _ (onvol_ok _ (set_vol v1 t) _ _ E2)).
  destruct (fat_write_fat_entry_ok v2 y FAT_EOC_MAX V2) as (v3 & E3 & W3); [by rewrite B2|done|done|].
  rewrite (bind_ok _ _ _ _ _ (onvol_ok _ (set_vol v2 t) _ _ E3)).
  pose proof (valid_range (sbi v1) z ltac:(by rewrite B1) Vz) as Rz. destruct (Z.eqb_spec z 0); [lia|].
  assert (B23 : sbi v3 = sbi (fs_vol t)) by (rewrite (w_sbi _ _ _ _ W3); congruence).
  assert (T3 : forall c, valid (sbi (fs_vol t)) c -> tab v3 c = if decide (c = y) then FAT_EOC_MAX else tab (fs_vol t) c).
  { intros c Hc. rewrite (w_tab _ _ _ _ W3) by (rewrite B2, B1; done).
    destruct (decide (c = y)); [done|]. by rewrite (same_tab _ _ _ S2), (same_tab _ _ _ S1). }
  assert (Hz : chain v3 z (z :: l2)).
  { replace (l ++ y :: z :: l2) with ((l ++ [y]) ++ z :: l2) in H by (by rewrite <- app_assoc).
    apply chain_suffix in H. eapply fchain_frame; [exact B23| |exact H].
    intros x Hx. rewrite T3 by (by eapply chain_valid). rewrite decide_False; [done|].
    intros ->. apply NoDup_app in ND as (_ & _ & ND). apply NoDup_cons in ND as [ND _]. done. }
  destruct (fat_free_cluster_chain_ok v3 z (z :: l2)) as (v4 & E4 & F4); [apply W3|exact Hz| |].
  { rewrite (w_count _ _ _ _ W3), F2, F1, B23. lia. }
  erewrite onvol_ok; [|exact E4]. eexists. split; [done|].
  assert (Ht : take (Z.to_nat (zlength l + 1)) (l ++ y :: z :: l2) = l ++ [y]).
  { replace (l ++ y :: z :: l2) with ((l ++ [y]) ++ z :: l2) by (by rewrite <- app_assoc).
    apply take_app_length'. rewrite length_app. unfold zlength. cbn. lia. }
  assert (Hd : drop (Z.to_nat (zlength l + 1)) (l ++ y :: z :: l2) = z :: l2).
  { replace (l ++ y :: z :: l2) with ((l ++ [y]) ++ z :: l2) by (by rewrite <- app_assoc).
    apply drop_app_length'. rewrite length_app. unfold zlength. cbn. lia. }
  assert (T4 : forall c, valid (sbi (fs_vol t)) c -> tab v4 c = if decide (c ∈ z :: l2) then 0 else if decide (c = y) then FAT_EOC_MAX else tab (fs_vol t) c).
  { intros c Hc. rewrite (f_tab _ _ _ F4) by (by rewrite B23). destruct (decide (c ∈ z :: l2)); [done|by apply T3]. }
  assert (B4 : sbi v4 = sbi (fs_vol t)) by (rewrite (f_sbi _ _ _ F4); exact B23).
  apply NoDup_app in ND as (_ & ND1 & ND2). apply NoDup_cons in ND2 as [ND2 _].
  constructor; cbn [fs_vol set_vol ino cache_log].
  - apply F4.
  - done.
  - rewrite (f_next _ _ _ F4), (w_next _ _ _ _ W3). congruence.
  - rewrite (f_count _ _ _ F4); rewrite (w_count _ _ _ _ W3), F2, F1, B23; [|done].
    rewrite Hl2, zlength_cons. f_equal. lia.
  - right. rewrite Ht. eapply fchain_cut; [exact B4|exact H| |].
    + rewrite T4 by (by rewrite <- B1). rewrite decide_False by done. by rewrite decide_True.
    + intros x Hx. rewrite T4 by (eapply chain_valid; [done|set_solver]).
      rewrite decide_False by (intros ?; eapply ND1; [done|by right]). apply decide_False.
      intros ->. eapply ND1; [done|by left].
  - rewrite Hd. intros c Hc. rewrite T4 by (eapply chain_valid; [done|set_solver]). by rewrite decide_True.
  - intros c Vc Nc. rewrite T4 by done. rewrite !decide_False by set_solver. done.
  - intros c Vc. rewrite (freed_data _ _ _ _ ltac:(rewrite B23; exact G) ltac:(by rewrite B23) F4).
    rewrite (wrote_data _ _ _ _ _ ltac:(by rewrite B2, B1) ltac:(by rewrite B2, B1) W3).
    by rewrite (same_data _ _ _ S2), (same_data _ _ _ S1).
  - destruct (Z.eqb_spec (zlength l + 1) 0); [lia|]. by destruct t as [v [? ? ? ? ? ? ? ? ? ? ? []] lg].
  - done.
Qed.

Lemma fit_chain_all t l : chain_of t l -> counters_ok (fs_vol t) -> free_clusters (fs_vol t) <= total_clusters (sbi (fs_vol t)) ->
  0 < zlength l -> exists t', fit_chain 0 (zlength l) t = (Ok tt, t') /\ shrunk 0 l t t'.
Proof.
  intros (V & H & C) [Hn Hf] Hle Hl. pose proof (v_geom _ V) as G.
  destruct H as [[_ ->]|H]; [done|].
  destruct (fat_free_cluster_chain_ok (fs_vol t) _ l V H ltac:(lia)) as (v1 & E1 & F1).
  unfold fit_chain. rewrite bind_getf. destruct (Z.ltb_spec 0 (zlength l)); [|lia].
  change (0 =? 0) with true. cbv iota. rewrite (bind_ok _ _ _ _ _ (onvol_ok _ _ _ _ E1)).
  eexists. split; [done|]. constructor; cbn [fs_vol set_start_cluster set_fi set_ino set_vol ino cache_log].
  - apply F1.
  - apply F1.
  - apply F1.
  - rewrite (f_count _ _ _ F1) by done. by rewrite Z.sub_0_r.
  - by left.
  - intros c Hc. rewrite (f_tab _ _ _ F1) by (eapply chain_valid; [done|exact Hc]). by rewrite decide_True.
  - intros c Vc Nc. rewrite (f_tab _ _ _ F1) by done. by rewrite decide_False.
  - intros c Vc. by apply (freed_data l).
  - done.
  - done.
Qed.

Lemma fit_chain_ok t l n : chain_of t l -> counters_ok (fs_vol t) -> free_clusters (fs_vol t) <= total_clusters (sbi (fs_vol t)) ->
  0 <= n <= zlength l -> exists t', fit_chain n (zlength l) t = (Ok tt, t') /\ shrunk n l t t'.
Proof.
  intros C K Hle Hn. pose proof C as (V & H & _).
  destruct (decide (n = zlength l)) as [->|N].
  - exists t. unfold fit_chain. rewrite bind_getf. destruct (Z.ltb_spec (zlength l) (zlength l)); [lia|].
    destruct (Z.gtb_spec (zlength l) (zlength l)); [lia|]. split; [done|].
    constructor; try done.
    + lia.
    + by rewrite take_ge by (unfold zlength; lia).
    + rewrite drop_ge by (unfold zlength; lia). intros c Hc. by apply not_elem_of_nil in Hc.
    + destruct (Z.eqb_spec (zlength l) 0) as [E|]; [|by destruct t as [v [? ? ? ? ? ? ? ? ? ? ? []] lg]].
      destruct l as [|x l]; [|rewrite zlength_cons in E; pose proof (zlength_nonneg l); lia].
      destruct H as [[E0 _]|[]]. rewrite <- E0. by destruct t as [v [? ? ? ? ? ? ? ? ? ? ? []] lg].
  - destruct (decide (n = 0)) as [->|N0]; [apply fit_chain_all; (done || lia)|].
    assert (Hlt : (Z.to_nat (n - 1) < length l)%nat) by (unfold zlength in *; lia).
    destruct (lookup_lt_is_Some_2 l (Z.to_nat (n - 1)) Hlt) as [y Hy].
    destruct (lookup_lt_is_Some_2 l (S (Z.to_nat (n - 1)))) as [z Hz]; [unfold zlength in *; lia|].
    assert (El : l = take (Z.to_nat (n - 1)) l ++ y :: z :: drop (S (S (Z.to_nat (n - 1)))) l).
    { rewrite <- (drop_S _ _ _ Hz), <- (drop_S _ _ _ Hy). by rewrite take_drop. }
    assert (En : n = zlength (take (Z.to_nat (n - 1)) l ++ [y])).
    { rewrite zlength_app. unfold zlength in *. rewrite length_take. cbn. lia. }
    set (l1 := take (Z.to_nat (n - 1)) l) in *. set (l2 := drop (S (S (Z.to_nat (n - 1)))) l) in *. clearbody l1 l2.
    subst l. rewrite En. by apply fit_chain_cut.
Qed.

(** truncation to at most the size of the file frees exactly the clusters
    behind the new size, keeps the others with their data, and sets the size.
    The position that is cached in the inode is left as it was, also when its
    cluster has been freed. *)
Theorem fat_file_truncate_shrinks now size t l : chain_of t l -> counters_ok (fs_vol t) ->
  free_clusters (fs_vol t) <= total_clusters (sbi (fs_vol t)) -> entry_ok t l ->
  is_reg (ino t) = true -> readonly (sbi (fs_vol t)) = false ->
  0 <= size <= i_size (ino t) -> i_size (ino t) < 2 ^ 31 -> zlength l = cdiv (i_size (ino t)) (fsz t) ->
  exists r t', fat_file_truncate now size t = (r, t') /\ i_size (ino t') = size /\ vol_ok (fs_vol t') /\
    fchain (fs_vol t') (start_cluster (fi (ino t'))) (take (Z.to_nat (cdiv size (fsz t))) l) /\
    (forall c, valid (sbi (fs_vol t)) c -> c <> dir_cluster (ino t) -> cluster_data (fs_vol t') c = cluster_data (fs_vol t) c) /\
    (forall c, c ∈ drop (Z.to_nat (cdiv size (fsz t))) l -> tab (fs_vol t') c = 0) /\
    (forall c, valid (sbi (fs_vol t)) c -> c ∉ l -> tab (fs_vol t') c = tab (fs_vol t) c) /\
    free_clusters (fs_vol t') = Z.min (free_clusters (fs_vol t) + (zlength l - cdiv size (fsz t))) (total_clusters (sbi (fs_vol t))) /\
    cache_log t' = cache_log t ++ (if decide (size < i_size (ino t)) then [Invalidate size] else []) /\
    fi (ino t') = set_start (start_cluster (fi (ino t'))) (fi (ino t)).
Proof.
  intros C K Hle En Hr Hro Hs Hmax Hl. pose proof C as (V & H & _). pose proof (v_geom _ V) as Gm.
  pose proof (fsz_pos t V) as Hcs.
  assert (Hn : 0 <= cdiv size (fsz t) <= zlength l).
  { rewrite Hl. split; [|apply cdiv_mono; lia]. unfold cdiv. apply Z.div_pos; lia. }
  unfold fat_file_truncate. rewrite bind_getf, Hr, Hro. cbn [negb]. destruct (Z.ltb_spec size 0); [lia|].
  cbv zeta. unfold clusters_for. rewrite (u32_small (size + fsz t - 1)) by lia. fold (cdiv size (fsz t)).
  destruct (fat_cluster_count_ok (fs_vol t) (fi (ino t)) l V H) as (v1 & E1 & V1 & S1).
  rewrite (bind_ok _ _ _ _ _ (onvol_ok _ _ _ _ E1)). pose proof S1 as (D1 & B1 & N1 & F1).
  destruct (fit_chain_ok (set_vol v1 t) l (cdiv size (fsz t))) as (t2 & E2 & [Q1 Q2 Q3 Q4 Q5 Q6 Q7 Q8 Q9 Q10]).
  { split_and!; [done| |apply C]. cbn. destruct H as [H|H]; [by left|right]. eapply fchain_frame; [exact B1| |exact H]. intros; by apply same_tab. }
  { unfold counters_ok. cbn. by rewrite N1, F1. } { cbn. by rewrite F1, B1. } { done. }
  cbn [fs_vol set_vol ino cache_log] in Q2, Q3, Q4, Q7, Q8, Q9, Q10.
  rewrite (bind_ok _ _ _ _ _ E2). destruct (Z.gtb_spec size (i_size (ino t))); [lia|]. rewrite bind_ret.
  set (log := if decide (size < i_size (ino t)) then [Invalidate size] else []).
  set (t3 := mkst (fs_vol t2) (ino t2) (cache_log t ++ log)).
  assert (E3 : (if size <? i_size (ino t) then modify (tell (Invalidate size)) else ret tt) t2 = (Ok tt, t3)).
  { subst t3 log. rewrite <- Q10. destruct (Z.ltb_spec size (i_size (ino t))).
    - rewrite decide_True by done. done.
    - rewrite decide_False by lia. rewrite app_nil_r. by destruct t2. }
  rewrite (bind_ok _ _ _ _ _ E3).
  set (t4 := modified now (set_size size t3)).
  assert (E4 : (modify (set_size size) ;~ modify (modified now) ;~ fat_write_inode) t3 = fat_write_inode t4) by done.
  rewrite E4. clear E3 E4.
  assert (I4 : fi (ino t4) = set_start (start_cluster (fi (ino t4))) (fi (ino t)) /\ i_size (ino t4) = size /\ fs_vol t4 = fs_vol t2 /\
    start_cluster (fi (ino t4)) = start_cluster (fi (ino t2)) /\ dir_cluster (ino t4) = dir_cluster (ino t)).
  { cbn. rewrite Q9. split_and!; [|done|done|done|done]. cbn. by destruct (fi (ino t)). }
  destruct I4 as (I4 & I5 & I6 & I7 & I8).
  assert (En4 : entry_ok t4 []).
  { destruct En as [M1 M2 M3 M4]. constructor; rewrite ?I8, ?I6.
    - cbn. rewrite Q9. cbn. by apply archive_u8.
    - cbn. by rewrite Q9.
    - done.
    - rewrite Q2, B1. intros Vd. split; [set_solver|]. destruct (M4 Vd) as [M5 M6].
      rewrite Q7 by (rewrite ?B1; done). by rewrite (same_tab _ _ _ S1). }
  destruct (fat_write_inode_put t4 [] ltac:(by rewrite I6) En4) as (r & t5 & E5 & V5 & P5).
  exists r, t5. rewrite (ep_ino _ _ P5). split_and!; [done|done|done| | | | | | |done].
  - rewrite I7. eapply entry_put_chain; [exact P5|by rewrite I6|]. rewrite I6. exact Q5.
  - intros c Vc Nc. rewrite (ep_data _ _ P5); [|by rewrite I6, Q2, B1|by rewrite I8].
    rewrite I6, Q8 by (by rewrite B1). by apply same_data.
  - intros c Hc. rewrite (ep_tab _ _ P5).
    + rewrite I6. by apply Q6.
    + rewrite I6, Q2, B1. eapply chain_pos; [exact Gm|exact H|]. by apply (subseteq_drop (Z.to_nat (cdiv size (fsz t))) l).
  - intros c Vc Nc. rewrite (ep_tab _ _ P5) by (by rewrite I6, Q2, B1). rewrite I6, Q7 by (rewrite ?B1; done). by apply same_tab.
  - destruct (ep_counters _ _ P5) as [_ ->]. by rewrite I6, Q4, F1, B1.
  - by rewrite (ep_log _ _ P5).
Qed.

(** ** A file on the small volume *)

(** The file of clusters 2, 4 and 3 has 1400 bytes; its entry is in cluster 5. *)
Definition wit_st : st :=
  mkst wit1 (mkinode 1538 true 1400 3 0 0 0 false 5 64 0 wit_inode) [].

Lemma wit_chain_of : chain_of wit_st [2; 4; 3].
Proof. split_and!; [apply wit1_ok|apply wit_fchain|]. unfold cache_ok. cbn. done. Qed.

Lemma wit_entry_ok : entry_ok wit_st [2; 4; 3].
Proof.
  constructor; cbn; unfold is_u8, is_u32; [lia|lia|lia|]. intros _. split; [|vm_compute; discriminate].
  apply (bool_decide_unpack (5 ∉ [2; 4; 3])). by vm_compute.
Qed.

Lemma fat_file_read_page_exact_witness :
  exists t', fat_file_read_page 600 700 wit_st = (Ok (map (fbyte wit1 [2; 4; 3]) (seqZ 600 700)), t') /\ chain_of t' [2; 4; 3] /\ quiet wit_st t'.
Proof.
  apply (fat_file_read_page_exact wit_st [2; 4; 3] 600 700 wit_chain_of); [reflexivity|discriminate|discriminate|].
  vm_compute. discriminate.
Defined.


Lemma fat_file_truncate_shrinks_witness :
  exists r t', fat_file_truncate 9 600 wit_st = (r, t') /\ i_size (ino t') = 600 /\ vol_ok (fs_vol t') /\
    fchain (fs_vol t') (start_cluster (fi (ino t'))) [2; 4] /\
    (forall c, valid wit_sbi c -> c <> 5 -> cluster_data (fs_vol t') c = cluster_data wit1 c) /\
    (forall c, c ∈ [3] -> tab (fs_vol t') c = 0) /\
    (forall c, valid wit_sbi c -> c ∉ [2; 4; 3] -> tab (fs_vol t') c = tab wit1 c) /\
    free_clusters (fs_vol t') = 5 /\
    cache_log t' = [Invalidate 600] /\
    fi (ino t') = set_start (start_cluster (fi (ino t'))) wit_inode.
Proof.
  apply (fat_file_truncate_shrinks 9 600 wit_st [2; 4; 3] wit_chain_of);
    [split; split; (discriminate || reflexivity)|discriminate|apply wit_entry_ok|reflexivity|reflexivity| |reflexivity|reflexivity].
  split; discriminate.
Defined.

(** ** Errors *)

(** Runs an operation on a file of a volume. *)
Definition run {A} (m : G A) (v : vol) (i : inode) : res A * vol * inode :=
  let '(r, t) := m (mkst v i []) in (r, fs_vol t, ino t).

(** A directory in cluster 9 holds the entries of two files: A at 0 has the
    clusters 2, 3 and 4, and B at 32 has cluster 5. *)
Definition dir_data (x : Z) : list Z := replicate 512 (if x =? 11 then 65 else 0).
Definition two_files : vol := wit_vol [3; 4; FAT_EOC_MAX; FAT_EOC_MAX; 0; 0; 0; FAT_EOC_MAX] dir_data 2 3.
Definition file (start size offset : Z) : inode := mkinode 3586 true size 0 0 0 0 false 9 offset 0 (mkfi start 0 0 0 false).

(** A: read the last page, truncate to 512 bytes; B: append 1024 bytes; A: append
    1024 bytes, and read the last page, or read it with no cached position. *)
Definition stale_run : list (res Z) * res (list Z) * res (list Z) :=
  let '(r1, v, a) := run (fat_file_read_page 1024 512) two_files (file 2 1536 0) in
  let '(r2, v, a) := run (fat_file_truncate 1 512) v a in
  let '(r3, v, b) := run (fat_file_write 1 true 0 (replicate 1024 66)) v (file 5 512 32) in
  let '(r4, v, a) := run (fat_file_write 1 true 0 (replicate 1024 67)) v a in
  let '(r5, _, _) := run (fat_file_read_page 1024 512) v a in
  let '(r6, _, _) := run (modify drop_cc ;~ fat_file_read_page 1024 512) v a in
  ([match r1 with Ok l => Ok (zlength l) | Er e => Er e end; match r2 with Ok _ => Ok 0 | Er e => Er e end;
    match r3 with Ok (n, _) => Ok n | Er e => Er e end; match r4 with Ok (n, _) => Ok n | Er e => Er e end], r5, r6).

(** the position that truncation leaves in the inode is used for the clusters
    that the file gets later: a file that was read at its end, truncated and
    extended again gives the bytes of the file that has got its old clusters. *)
Theorem truncated_file_reads_another :
  vol_ok two_files /\ chain two_files 2 [2; 3; 4] /\ chain two_files 5 [5] /\
  stale_run = ([Ok 512; Ok 0; Ok 1024; Ok 1024], Ok (replicate 512 66), Ok (replicate 512 67)).
Proof.
  split_and!.
  - apply wit_vol_ok; [unfold FAT_EOC_MAX; repeat constructor; lia|].
    intros x. split; [done|]. apply Forall_replicate. unfold is_u8. destruct (_ =? _); lia.
  - cbn. unfold valid. cbn. repeat split; try lia; vm_compute; congruence.
  - cbn. unfold valid. cbn. repeat split; try lia; vm_compute; congruence.
  - vm_compute. reflexivity.
Qed.

(** One cluster is free; the file of cluster 5 has 100 bytes. *)
Definition nearly_full : vol := wit_vol [3; 4; FAT_EOC_MAX; FAT_EOC_MAX; FAT_EOC_MAX; FAT_EOC_MAX; 0; FAT_EOC_MAX] dir_data 2 1.

(** a write behind the end that fills the gap and then finds no cluster for
    its own bytes gives [-ENOSPC] and puts its clusters back, but the file keeps
    the size up to the position: a page there gives [-EIO]. *)
Theorem failed_write_grows_size :
  let '(r, v, i) := run (fat_file_write 1 false 1024 (replicate 10 67)) nearly_full (file 5 100 32) in
  r = Ok (- ENOSPC, 1024) /\ i_size i = 1024 /\ free_clusters v = 1 /\ chain v 5 [5] /\
  (let '(r2, _, _) := run (fat_file_read_page 512 512) v i in r2 = Er (- EIO)).
Proof. vm_compute. repeat split; congruence. Qed.

End FatFile.
