(* ===== verification/FatName.v ===== *)
(** * FAT32: names ([fs/fat/misc.c], the names of [fs/fat/dir.c])

    A directory entry is 32 bytes.  A name that fits 8.3 is in the first eleven
    of them; another is spread backwards over entries of its own in front of an
    entry with a numbered alias.  A store outside a buffer or a failed assertion
    is [None]. *)
From S2P Require Import Prelude Ext2 Fat FatFile.
Import Ext2 Fat.

Module FatName.

Definition ENAMETOOLONG : Z := 36.
Definition FAT_NTRES_LCASE_BASE : Z := 0x08.
Definition FAT_NTRES_LCASE_EXT : Z := 0x10.

Definition is_upper (c : Z) : bool := (c >=? 65) && (c <=? 90).
Definition is_lower (c : Z) : bool := (c >=? 97) && (c <=? 122).
Definition fat_tolower (c : Z) : Z := if is_upper c then c + 32 else c.
Definition fat_toupper (c : Z) : Z := if is_lower c then c - 32 else c.

(** The characters of a string in a buffer, before its first NUL. *)
Fixpoint c_str (l : list Z) : list Z :=
  match l with [] => [] | c :: l => if c =? 0 then [] else c :: c_str l end.

(** ** Short names *)

(** Up to the first space, in lower case if a bit says so. *)
Fixpoint short_field (lower : bool) (l : list Z) : list Z :=
  match l with
  | [] => []
  | c :: l => if c =? 32 then [] else (if lower then fat_tolower c else c) :: short_field lower l
  end.

Definition fat_short_name_from_entry (entry : list Z) : list Z :=
  let case_bits := byte_at entry 12 in
  short_field (negb (Z.land case_bits FAT_NTRES_LCASE_BASE =? 0)) (sub_bytes entry 0 8) ++
  (if byte_at entry 8 =? 32 then [] else
   46 :: short_field (negb (Z.land case_bits FAT_NTRES_LCASE_EXT =? 0)) (sub_bytes entry 8 3)).

Fixpoint same_letters (a b : list Z) : bool :=
  match a, b with
  | [], [] => true
  | x :: a, y :: b => (fat_tolower x =? fat_tolower y) && same_letters a b
  | _, _ => false
  end.

Definition fat_short_name_match (name entry : list Z) : bool :=
  let short_name := c_str (fat_short_name_from_entry entry) in
  if negb (zlength short_name =? zlength name) then false else same_letters name short_name.

(** The only dot of a name, neither first nor last. *)
Fixpoint find_dot (l : list Z) (i len last_dot : Z) : option Z :=
  match l with
  | [] => Some last_dot
  | c :: l =>
    if c =? 46 then
      if (last_dot >=? 0) || (i =? 0) || (i =? len - 1) then None else find_dot l (i + 1) len i
    else find_dot l (i + 1) len last_dot
  end.

Definition bad_short_char (c : Z) : bool :=
  bool_decide (c ∈ [32; 46; 47; 92; 63; 42; 58; 124; 60; 62; 34]).

Fixpoint put_short (short_name : list Z) (at_ : Z) (l : list Z) : option (list Z) :=
  match l with
  | [] => Some short_name
  | c :: l =>
    let c := fat_toupper c in
    if bad_short_char c then None else put_short (<[Z.to_nat at_ := c]> short_name) (at_ + 1) l
  end.

Definition fat_name_to_short (name : list Z) : res (list Z) :=
  let len := zlength name in
  if (len <? 1) || (len >? 12) then Er (- ENAMETOOLONG) else
  if (byte_at name 0 =? 46) || (byte_at name (len - 1) =? 46) then Er (- EINVAL) else
  match find_dot name 0 len (-1) with
  | None => Er (- EINVAL)
  | Some last_dot =>
    let base_len := if last_dot >=? 0 then last_dot else len in
    let ext_len := if last_dot >=? 0 then len - last_dot - 1 else 0 in
    if (if last_dot >=? 0 then (base_len =? 0) || (ext_len =? 0) || (base_len >? 8) || (ext_len >? 3) else base_len >? 8)
    then Er (- ENAMETOOLONG) else
    match put_short (replicate 11 32) 0 (sub_bytes name 0 base_len) with
    | None => Er (- EINVAL)
    | Some s =>
      if last_dot >=? 0 then
        match put_short s 8 (sub_bytes name (last_dot + 1) ext_len) with None => Er (- EINVAL) | Some s => Ok s end
      else Ok s
    end
  end.

Fixpoint same_short (n : nat) (a b : list Z) : bool :=
  match n, a, b with
  | O, _, _ => true
  | S n, x :: a, y :: b => (fat_toupper x =? fat_toupper y) && same_short n a b
  | S _, _, _ => false
  end.
Definition fat_short_name_equal (entry short_name : list Z) : bool := same_short 11 entry short_name.

Definition fat_entry_set_create_times (p : list Z) (time : Z) : list Z :=
  let date := FatFile.fat_dos_date time in
  let tod := FatFile.fat_dos_time time in
  fat_write16 (fat_write16 (fat_write16 (fat_write16 (fat_write16 p 14 tod) 16 date) 18 date) 22 tod) 24 date.

Definition fat_make_short_entry (short_name : list Z) (attributes start_cluster size now : Z) : list Z :=
  let e := memcpy_at (replicate 32 0) 0 short_name 11 in
  let e := memcpy_at e 11 [attributes] 1 in
  let e := fat_write16 e 20 (Z.shiftr start_cluster 16) in
  let e := fat_write16 e 26 start_cluster in
  let e := fat_write32 e 28 size in
  fat_entry_set_create_times e now.

(** ** Long names *)

Definition fat_lfn_offsets : list Z := [1; 3; 5; 7; 9; 14; 16; 18; 20; 22; 24; 28; 30].

Definition fat_short_name_checksum (entry : list Z) : Z :=
  foldl (fun sum c => u8 ((if Z.odd sum then 0x80 else 0) + Z.shiftr sum 1 + c)) 0 (sub_bytes entry 0 11).

Record fat_lfn := mklfn { name : list Z; len : Z; checksum : Z; have_last : bool; next_seq : Z }.

Definition fat_lfn_reset : fat_lfn := mklfn (replicate 256 0) 0 0 false 0.

Definition store (l : list Z) (i c : Z) : option (list Z) :=
  if (i >=? 0) && (i <? zlength l) then Some (<[Z.to_nat i := c]> l) else None.

(** The characters of an entry, and how many. *)
Fixpoint lfn_chars (offsets entry : list Z) (base count : Z) (buf : list Z) : option (list Z * Z) :=
  match offsets with
  | [] => Some (buf, count)
  | o :: offsets =>
    let value := fat_read16 entry o in
    if (value =? 0) || (value =? 0xffff) then Some (buf, count) else
    if base + count >=? 255 then Some (buf, count) else
    let ch := if value <? 0x80 then value else 63 in
    buf ← store buf (base + count) ch; lfn_chars offsets entry base (count + 1) buf
  end.

Definition fat_lfn_add (lfn : fat_lfn) (entry : list Z) : option (Z * fat_lfn) :=
  let seq := Z.land (byte_at entry 0) 0x1f in
  if negb (byte_at entry 11 =? FatFile.FAT_ATTR_LFN) || negb (byte_at entry 12 =? 0) || (seq =? 0) || (seq >? 20)
  then Some (- EINVAL, lfn) else
  let '(error, lfn) :=
    if negb (have_last lfn) then
      if Z.land (byte_at entry 0) 0x40 =? 0 then (- EINVAL, fat_lfn_reset)
      else (0, mklfn (name fat_lfn_reset) 0 (byte_at entry 13) true (seq - 1))
    else if negb (seq =? next_seq lfn) || negb (byte_at entry 13 =? checksum lfn) then (- EINVAL, lfn)
    else (0, mklfn (name lfn) (len lfn) (checksum lfn) true (next_seq lfn - 1)) in
  if negb (error =? 0) then Some (error, lfn) else
  let base := (seq - 1) * 13 in
  if base >=? 255 then Some (- EINVAL, lfn) else
  match lfn_chars fat_lfn_offsets entry base 0 (name lfn) with
  | None => None
  | Some (buf, count) =>
    Some (0, mklfn buf (if base + count >? len lfn then base + count else len lfn) (checksum lfn) (have_last lfn) (next_seq lfn))
  end.

Definition fat_lfn_finish (lfn : fat_lfn) (short_entry : list Z) : option (Z * fat_lfn) :=
  if negb (have_last lfn) || negb (next_seq lfn =? 0) then Some (- EINVAL, lfn) else
  if negb (fat_short_name_checksum short_entry =? checksum lfn) then Some (- EINVAL, lfn) else
  if negb ((len lfn >=? 0) && (len lfn <? 256)) then None else
  buf ← store (name lfn) (len lfn) 0;
  Some (if len lfn >? 0 then 0 else - EINVAL, mklfn buf (len lfn) (checksum lfn) (have_last lfn) (next_seq lfn)).

Definition fat_lfn_name_match (n : list Z) (lfn_name : list Z) : bool :=
  if negb (zlength n =? zlength (c_str lfn_name)) then false else same_letters n (c_str lfn_name).

Definition lfn_char (n : list Z) (i : Z) : Z := if i <? zlength n then byte_at n i else 0xffff.
Definition fat_fill_lfn_entry (seq checksum : Z) (n : list Z) (base : Z) : list Z :=
  let e := replicate 32 0xff in
  let e := <[0%nat := seq]> e in
  let e := <[11%nat := FatFile.FAT_ATTR_LFN]> e in
  let e := <[12%nat := 0]> e in
  let e := <[13%nat := checksum]> e in
  let e := <[26%nat := 0]> e in
  foldl (fun e x => fat_write16 e x.2 (lfn_char n (base + x.1))) e (imap (fun i o => (Z.of_nat i, o)) fat_lfn_offsets).

(** The entries in front of the alias, as [fat_add_entry_name] writes them. *)
Definition lfn_slots (n : list Z) : Z := (zlength n + 12) / 13.
Definition lfn_entry (n : list Z) (checksum : Z) (i : Z) : list Z :=
  let seq := u8 (lfn_slots n - i) in
  let seq := if i =? 0 then Z.lor seq 0x40 else seq in
  fat_fill_lfn_entry seq checksum n ((Z.land seq 0x1f - 1) * 13).
Definition lfn_entries (n : list Z) (checksum : Z) : list (list Z) :=
  map (lfn_entry n checksum) (seqZ 0 (lfn_slots n)).

(** ** Aliases *)

Definition fat_char_for_short (c : Z) : Z :=
  if is_lower c then c - 32 else
  if is_upper c || ((c >=? 48) && (c <=? 57)) ||
     bool_decide (c ∈ [95; 45; 33; 35; 36; 37; 38; 39; 40; 41; 43; 44; 59; 61; 64; 91; 93; 94; 96; 123; 125; 126]) then c
  else 95.

Fixpoint last_dot_of (l : list Z) (i last_dot : Z) : Z :=
  match l with [] => last_dot | c :: l => last_dot_of l (i + 1) (if c =? 46 then i else last_dot) end.

Definition alias_base (n : list Z) : list Z * list Z :=
  let last_dot := last_dot_of n 0 (-1) in
  let dot := (last_dot >? 0) && (last_dot <? zlength n - 1) in
  let base_len := if dot then last_dot else zlength n in
  let ext_len := if dot then zlength n - last_dot - 1 else 0 in
  let base := map fat_char_for_short (sub_bytes n 0 (Z.min base_len 6)) in
  let base := base ++ replicate (16 - length base) 32 in
  let base := if byte_at base 0 =? 32 then <[0%nat := 95]> base else base in
  let ext := map fat_char_for_short (sub_bytes n (last_dot + 1) (Z.min ext_len 3)) in
  (base, ext ++ replicate (4 - length ext) 32).

(** The decimal digits of a number below 10000. *)
Fixpoint digits_rev (fuel : nat) (value : Z) : list Z :=
  match fuel with
  | O => []
  | S fuel => (48 + value mod 10) :: (if value / 10 =? 0 then [] else digits_rev fuel (value / 10))
  end.
Definition digits (n : Z) : list Z := rev (digits_rev 5 n).

(** The alias with a number. *)
Definition alias (base ext : list Z) (n : Z) : list Z :=
  let d := digits n in
  let prefix := 7 - zlength d in
  let prefix := if prefix >? 6 then 6 else prefix in
  let prefix := if prefix <? 1 then 1 else prefix in
  let s := memcpy_at (replicate 11 32) 0 base prefix in
  let s := <[Z.to_nat prefix := 126]> s in
  let s := memcpy_at s (prefix + 1) d (zlength d) in
  memcpy_at s 8 ext 3.


(** What a scan of a directory does with an entry of a long name. *)
Definition lfn_step (s : fat_lfn * bool) (entry : list Z) : option (fat_lfn * bool) :=
  match fat_lfn_add s.1 entry with
  | None => None
  | Some (error, lfn) => if error =? 0 then Some (lfn, true) else Some (fat_lfn_reset, false)
  end.
Fixpoint lfn_steps (s : fat_lfn * bool) (entries : list (list Z)) : option (fat_lfn * bool) :=
  match entries with
  | [] => Some s
  | e :: entries => s ← lfn_step s e; lfn_steps s entries
  end.

(** ** Long names stay in their buffer *)

Definition lfn_inv (l : fat_lfn) : Prop := length (name l) = 256%nat /\ 0 <= len l <= 255.

Lemma reset_inv : lfn_inv fat_lfn_reset.
Proof. split; [done|cbn; lia]. Qed.

Lemma store_ok l i c : 0 <= i < zlength l -> store l i c = Some (<[Z.to_nat i := c]> l).
Proof. intros H. unfold store. destruct (Z.geb_spec i 0); [|lia]. by destruct (Z.ltb_spec i (zlength l)); [|lia]. Qed.

Lemma lfn_chars_safe offs e base count buf : length buf = 256%nat -> 0 <= base -> 0 <= count -> base + count <= 255 ->
  exists buf' count', lfn_chars offs e base count buf = Some (buf', count') /\ length buf' = 256%nat /\
    count <= count' /\ base + count' <= 255.
Proof.
  revert count buf. induction offs as [|o offs IH]; intros count buf Hl Hb Hc Hs; cbn [lfn_chars].
  - exists buf, count. split_and!; (done || lia).
  - destruct (_ || _); [exists buf, count; split_and!; (done || lia)|].
    destruct (Z.geb_spec (base + count) 255); [exists buf, count; split_and!; (done || lia)|].
    rewrite store_ok by (unfold zlength; lia). cbn [option_bind mbind].
    destruct (IH (count + 1) (<[Z.to_nat (base + count) := if fat_read16 e o <? 0x80 then fat_read16 e o else 63]> buf))
      as (b' & c' & E & L & C1 & C2); [by rewrite length_insert|lia..|].
    exists b', c'. split_and!; (done || lia).
Qed.

Lemma seq_bounds x : 0 <= Z.land x 0x1f < 32.
Proof. change 0x1f with (Z.ones 5). rewrite Z.land_ones by lia. by apply Z.mod_pos_bound. Qed.

Lemma fat_lfn_add_safe l e : lfn_inv l -> exists r l', fat_lfn_add l e = Some (r, l') /\ lfn_inv l'.
Proof.
  intros [Hn Hl]. unfold fat_lfn_add. set (seq := Z.land (byte_at e 0) 0x1f).
  pose proof (seq_bounds (byte_at e 0)) as Hs. fold seq in Hs.
  destruct (_ || (seq >? 20)) eqn:E; [by exists (- EINVAL), l|].
  apply orb_false_iff in E as [E E20]. apply orb_false_iff in E as [_ E0].
  destruct (Z.gtb_spec seq 20); [done|]. destruct (Z.eqb_spec seq 0); [done|].
  destruct (have_last l); cbn [negb].
  - destruct (_ || _); cbn [Z.eqb negb]; [by exists (- EINVAL), l|].
    destruct (Z.geb_spec ((seq - 1) * 13) 255); [lia|].
    destruct (lfn_chars_safe fat_lfn_offsets e ((seq - 1) * 13) 0 (name l)) as (b & c & E & L & C1 & C2); [done|lia..|].
    cbn [name]. rewrite E. cbn. eexists _, _. split; [done|]. split; [done|]. cbn.
    destruct (_ >? _); lia.
  - destruct (Z.land (byte_at e 0) 0x40 =? 0); cbn [Z.eqb negb]; [exists (- EINVAL), fat_lfn_reset; split; [done|apply reset_inv]|].
    destruct (Z.geb_spec ((seq - 1) * 13) 255); [lia|]. cbn [name].
    destruct (lfn_chars_safe fat_lfn_offsets e ((seq - 1) * 13) 0 (replicate 256 0)) as (b & c & E & L & C1 & C2); [done|lia..|].
    change (name fat_lfn_reset) with (replicate 256 0). rewrite E. cbn [fst snd]. eexists _, _. split; [done|]. split; [done|]. cbn.
    destruct (_ >? _); lia.
Qed.

Lemma fat_lfn_finish_safe l e : lfn_inv l -> exists r l', fat_lfn_finish l e = Some (r, l') /\ lfn_inv l'.
Proof.
  intros [Hn Hl]. unfold fat_lfn_finish.
  destruct (_ || _); [by exists (- EINVAL), l|]. destruct (negb _); [by exists (- EINVAL), l|].
  destruct (Z.geb_spec (len l) 0); [|lia]. destruct (Z.ltb_spec (len l) 256); [|lia]. cbn [andb negb].
  rewrite store_ok by (unfold zlength; lia). cbn. eexists _, _. split; [done|]. split; [by cbn; rewrite length_insert|done].
Qed.

(** ** Names come back *)

(** What a reader gets for a character. *)
Definition asc (c : Z) : Z := if c <? 0x80 then c else 63.

(** The bytes of an entry with the characters [v]. *)
Definition lfn_bytes (seq cs : Z) (v : Z -> Z) : list Z :=
  let lo i := Z.land (v i) 0xff in
  let hi i := Z.land (Z.shiftr (v i) 8) 0xff in
    [seq; lo 0; hi 0; lo 1; hi 1; lo 2; hi 2; lo 3; hi 3; lo 4; hi 4; 0x0f; 0; cs; lo 5; hi 5; lo 6; hi 6; lo 7; hi 7;
     lo 8; hi 8; lo 9; hi 9; lo 10; hi 10; 0; 0xff; lo 11; hi 11; lo 12; hi 12].

Lemma fill_eq seq cs n base : fat_fill_lfn_entry seq cs n base = lfn_bytes seq cs (fun i => lfn_char n (base + i)).
Proof. reflexivity. Qed.

Lemma lohi v : 0 <= v < 2 ^ 16 -> Z.lor (Z.land v 0xff) (Z.shiftl (Z.land (Z.shiftr v 8) 0xff) 8) = v.
Proof.
  intros H. change 0xff with (Z.ones 8). apply Z.bits_inj'. intros k Hk.
  rewrite Z.lor_spec, Z.shiftl_spec, !Z.land_spec by lia.
  destruct (decide (k < 8)).
  - rewrite Z.ones_spec_low by lia. rewrite andb_true_r.
    rewrite (Z.testbit_neg_r _ (k - 8)) by lia. by rewrite orb_false_r.
  - rewrite (Z.ones_spec_high 8 k) by lia. rewrite andb_false_r, orb_false_l.
    rewrite Z.shiftr_spec by lia. replace (k - 8 + 8) with k by lia.
    destruct (decide (k < 16)).
    + rewrite Z.ones_spec_low by lia. by rewrite andb_true_r.
    + rewrite Z.ones_spec_high by lia. rewrite andb_false_r. symmetry.
      destruct (decide (v = 0)) as [->|]; [apply Z.testbit_0_l|]. apply Z.bits_above_log2; [lia|].
      assert (Z.log2 v < 16) by (apply Z.log2_lt_pow2; lia). lia.
Qed.

(** The entries hold the characters at their offsets. *)
Lemma fill_reads seq cs n base i o : Forall is_u8 n -> fat_lfn_offsets !! i = Some o ->
  fat_read16 (fat_fill_lfn_entry seq cs n base) o = lfn_char n (base + Z.of_nat i).
Proof.
  intros Hn. assert (R : forall j, 0 <= lfn_char n j < 2 ^ 16).
  { intros j. unfold lfn_char. destruct (_ <? _); [|lia]. pose proof (byte_at_range n j Hn). unfold is_u8 in *. lia. }
  rewrite fill_eq. unfold fat_lfn_offsets.
  do 13 (destruct i as [|i]; [intros [= <-]; apply (lohi _ (R _))|]). done.
Qed.

Lemma lfn_chars_read offs e n base count buf :
  (forall i o, offs !! i = Some o -> fat_read16 e o = lfn_char n (base + count + Z.of_nat i)) ->
  Forall (fun c => 0 < c < 2 ^ 8) n -> zlength n <= 255 -> length buf = 256%nat -> 0 <= base -> 0 <= count -> base + count <= zlength n ->
  exists buf', lfn_chars offs e base count buf = Some (buf', Z.min (count + zlength offs) (zlength n - base)) /\ length buf' = 256%nat /\
    forall k, 0 <= k -> byte_at buf' k = if decide (base + count <= k < Z.min (base + count + zlength offs) (zlength n)) then asc (byte_at n k) else byte_at buf k.
Proof.
  revert count buf. induction offs as [|o offs IH]; intros count buf Hr Hn H255 Hl Hb Hc Hs; cbn [lfn_chars].
  - exists buf. change (zlength (@nil Z)) with 0. rewrite Z.min_l by lia. rewrite Z.add_0_r.
    split_and!; [done|done|]. intros k Hk. rewrite decide_False by lia. done.
  - rewrite (Hr 0%nat o eq_refl). rewrite Z.add_0_r. unfold lfn_char at 1 2. rewrite (zlength_cons o offs).
    pose proof (zlength_nonneg offs).
    destruct (Z.ltb_spec (base + count) (zlength n)) as [L|L].
    + assert (B : 0 < byte_at n (base + count) < 2 ^ 8).
      { unfold byte_at. destruct (lookup_lt_is_Some_2 n (Z.to_nat (base + count))) as [c Ec]; [unfold zlength in L; lia|].
        rewrite Ec. cbn. by eapply (Forall_lookup_1 _ _ _ _ Hn) in Ec. }
      destruct (Z.eqb_spec (byte_at n (base + count)) 0); [lia|]. destruct (Z.eqb_spec (byte_at n (base + count)) 0xffff); [lia|].
      cbn [orb]. destruct (Z.geb_spec (base + count) 255); [lia|].
      rewrite store_ok by (unfold zlength; lia). cbn [option_bind mbind].
      set (b1 := <[Z.to_nat (base + count) := _]> buf).
      destruct (IH (count + 1) b1) as (b' & E & L' & Hk'); try (done || lia).
      { intros i o' Hi. rewrite (Hr (S i) o' Hi). f_equal. lia. } { subst b1. by rewrite length_insert. }
      exists b'. rewrite E. split_and!; [f_equal; f_equal; lia|done|].
      intros k Hk. rewrite Hk' by done. destruct (decide (k = base + count)) as [->|Nk].
      * rewrite decide_False by lia. rewrite decide_True by lia. subst b1. unfold byte_at at 1.
        rewrite list_lookup_insert_eq by lia. cbn. unfold lfn_char. destruct (Z.ltb_spec (base + count) (zlength n)); [|lia]. done.
      * replace (byte_at b1 k) with (byte_at buf k).
        -- destruct (decide _), (decide _); (done || lia).
        -- subst b1. symmetry. apply byte_at_insert_ne; lia.
    + change (0xffff =? 0xffff) with true. rewrite orb_true_r. exists buf.
      replace (Z.min (count + (zlength offs + 1)) (zlength n - base)) with count by lia. split_and!; [done|done|].
      intros k Hk. rewrite decide_False by lia. done.
Qed.

Definition plain (n : list Z) : Prop := Forall (fun c => 0 < c < 2 ^ 8) n.

Lemma plain_u8 n : plain n -> Forall is_u8 n.
Proof. intros H. eapply Forall_impl; [exact H|]. cbn. unfold is_u8. lia. Qed.

(** What a reader has after [i] of the entries. *)
Record reading (n : list Z) (cs i : Z) (l : fat_lfn) : Prop := {
  rd_buf : length (name l) = 256%nat;
  rd_last : have_last l = (0 <? i);
  rd_cs : 0 < i -> checksum l = cs /\ next_seq l = lfn_slots n - i /\ len l = zlength n;
  rd_chars : forall k, 0 <= k -> 13 * (lfn_slots n - i) <= k < zlength n -> byte_at (name l) k = asc (byte_at n k);
}.

Lemma slots_bounds n : 1 <= zlength n <= 255 -> 1 <= lfn_slots n <= 20 /\ 13 * (lfn_slots n - 1) < zlength n <= 13 * lfn_slots n.
Proof.
  intros H. unfold lfn_slots. pose proof (Z.div_mod (zlength n + 12) 13 ltac:(lia)).
  pose proof (Z.mod_pos_bound (zlength n + 12) 13 ltac:(lia)). lia.
Qed.

Lemma seq_mask s : 1 <= s <= 20 -> Z.land s 0x1f = s /\ Z.land (Z.lor s 0x40) 0x1f = s /\ Z.land (Z.lor s 0x40) 0x40 = 0x40.
Proof.
  intros H. assert (Hs : s ∈ seqZ 1 20) by (apply elem_of_seqZ; lia).
  repeat (apply elem_of_cons in Hs as [->|Hs]; [done|]). by apply not_elem_of_nil in Hs.
Qed.

Lemma byte_at_fill_0 seq cs n base : byte_at (fat_fill_lfn_entry seq cs n base) 0 = seq.
Proof. by rewrite fill_eq. Qed.
Lemma byte_at_fill_attr seq cs n base : byte_at (fat_fill_lfn_entry seq cs n base) 11 = FatFile.FAT_ATTR_LFN.
Proof. by rewrite fill_eq. Qed.
Lemma byte_at_fill_12 seq cs n base : byte_at (fat_fill_lfn_entry seq cs n base) 12 = 0.
Proof. by rewrite fill_eq. Qed.
Lemma byte_at_fill_cs seq cs n base : byte_at (fat_fill_lfn_entry seq cs n base) 13 = cs.
Proof. by rewrite fill_eq. Qed.

(** The sequence byte of an entry and its number. *)
Lemma entry_seq n cs i : 1 <= zlength n <= 255 -> 0 <= i < lfn_slots n ->
  exists s, lfn_entry n cs i = fat_fill_lfn_entry s cs n ((lfn_slots n - i - 1) * 13) /\
    Z.land s 0x1f = lfn_slots n - i /\ (i = 0 -> Z.land s 0x40 <> 0).
Proof.
  intros Hn Hi. pose proof (slots_bounds n Hn) as [Hs _]. unfold lfn_entry. rewrite u8_small by lia.
  destruct (seq_mask (lfn_slots n - i) ltac:(lia)) as (M1 & M2 & M3).
  exists (if i =? 0 then Z.lor (lfn_slots n - i) 0x40 else lfn_slots n - i).
  destruct (Z.eqb_spec i 0); [rewrite M2, M3|rewrite M1]; split_and!; (done || lia).
Qed.

Lemma reading_next n cs i l p : plain n -> 1 <= zlength n <= 255 -> 0 <= i < lfn_slots n -> reading n cs i l ->
  exists l', lfn_step (l, p) (lfn_entry n cs i) = Some (l', true) /\ reading n cs (i + 1) l'.
Proof.
  intros Hp Hn Hi [R1 R2 R3 R4]. pose proof (slots_bounds n Hn) as [Hs1 Hs2].
  destruct (entry_seq n cs i Hn Hi) as (s & -> & M & M0). set (base := (lfn_slots n - i - 1) * 13).
  assert (Hread : forall buf, length buf = 256%nat -> exists buf',
    lfn_chars fat_lfn_offsets (fat_fill_lfn_entry s cs n base) base 0 buf = Some (buf', Z.min 13 (zlength n - base)) /\ length buf' = 256%nat /\
    forall k, 0 <= k -> byte_at buf' k = if decide (base <= k < Z.min (base + 13) (zlength n)) then asc (byte_at n k) else byte_at buf k).
  { intros buf Hb. destruct (lfn_chars_read fat_lfn_offsets (fat_fill_lfn_entry s cs n base) n base 0 buf) as (b' & E & L & K);
      try (done || lia).
    - intros j o Hj. rewrite (fill_reads s cs n base j o); [f_equal; lia|by apply plain_u8|done].
    - exists b'. change (zlength fat_lfn_offsets) with 13 in *. rewrite Z.add_0_l in E. rewrite Z.add_0_r in K. done. }
  unfold lfn_step, fat_lfn_add. cbn [fst].
  rewrite byte_at_fill_0, byte_at_fill_attr, byte_at_fill_12, byte_at_fill_cs, M.
  destruct (Z.eqb_spec (lfn_slots n - i) 0); [lia|]. destruct (Z.gtb_spec (lfn_slots n - i) 20); [lia|].
  change (FatFile.FAT_ATTR_LFN =? FatFile.FAT_ATTR_LFN) with true. change (0 =? 0) with true. cbn [negb orb].
  replace ((lfn_slots n - i - 1) * 13) with base by done. rewrite R2.
  destruct (Z.ltb_spec 0 i) as [Li|Li]; cbn [negb].
  - destruct (R3 Li) as (-> & -> & Hlen). rewrite !Z.eqb_refl. cbn [negb orb Z.eqb].
    destruct (Z.geb_spec base 255); [lia|]. cbn [name].
    destruct (Hread (name l) R1) as (b' & -> & L' & K). change (0 =? 0) with true. cbv iota.
    eexists. split; [done|]. constructor; cbn [name have_last checksum next_seq len].
    + done.
    + symmetry. apply Z.ltb_lt. lia.
    + intros _. split_and!; [done|lia|]. destruct (Z.gtb_spec (base + Z.min 13 (zlength n - base)) (len l)); lia.
    + intros k Hk Hb. rewrite K by done. destruct (decide _); [done|]. apply R4; lia.
  - assert (i = 0) as -> by lia. destruct (Z.eqb_spec (Z.land s 0x40) 0) as [E0|_]; [by destruct (M0 eq_refl)|].
    cbn [negb Z.eqb]. destruct (Z.geb_spec base 255); [lia|]. cbn [name].
    destruct (Hread (name fat_lfn_reset) eq_refl) as (b' & -> & L' & K). change (0 =? 0) with true. cbv iota.
    eexists. split; [done|]. constructor; cbn [name have_last checksum next_seq len].
    + done.
    + done.
    + intros _. split_and!; [done|lia|]. destruct (Z.gtb_spec (base + Z.min 13 (zlength n - base)) 0); lia.
    + intros k Hk Hb. rewrite K by done. destruct (decide _); [done|]. lia.
Qed.

Lemma reading_all n cs m i l p : plain n -> 1 <= zlength n <= 255 -> 0 <= i -> i + Z.of_nat m = lfn_slots n -> reading n cs i l -> (0 < i -> p = true) ->
  exists l', lfn_steps (l, p) (map (lfn_entry n cs) (seqZ i (Z.of_nat m))) = Some (l', true) /\ reading n cs (lfn_slots n) l'.
Proof.
  revert i l p. induction m as [|m IH]; intros i l p Hp Hn H0 Hi R Hpt.
  - pose proof (slots_bounds n Hn) as [Hs _]. exists l. split; [|replace (lfn_slots n) with i by lia; done].
    cbn. rewrite Hpt by lia. done.
  - rewrite seqZ_cons by lia. cbn [map lfn_steps].
    destruct (reading_next n cs i l p Hp Hn ltac:(lia) R) as (l1 & -> & R1). cbn [option_bind mbind].
    replace (Z.succ i) with (i + 1) by lia. replace (Z.pred (Z.of_nat (S m))) with (Z.of_nat m) by lia.
    apply IH; (done || lia).
Qed.

Lemma c_str_take l k : 0 <= k < zlength l -> byte_at l k = 0 -> (forall i, 0 <= i < k -> byte_at l i <> 0) ->
  c_str l = take (Z.to_nat k) l.
Proof.
  revert k. induction l as [|c l IH]; intros k Hk H0 Hn; [unfold zlength in Hk; cbn in Hk; lia|]. cbn [c_str].
  destruct (decide (k = 0)) as [->|N].
  - by replace c with 0 by (symmetry; exact H0).
  - assert (Hc : c <> 0) by (apply (Hn 0); lia). destruct (Z.eqb_spec c 0); [done|].
    replace (Z.to_nat k) with (S (Z.to_nat (k - 1))) by lia. cbn [take]. f_equal. rewrite zlength_cons in Hk.
    apply IH; [lia| |].
    + rewrite <- H0. unfold byte_at. by replace (Z.to_nat k) with (S (Z.to_nat (k - 1))) by lia.
    + intros i Hi. specialize (Hn (i + 1) ltac:(lia)). unfold byte_at in *.
      by replace (Z.to_nat (i + 1)) with (S (Z.to_nat i)) in Hn by lia.
Qed.

Lemma asc_nonzero c : 0 < c < 2 ^ 8 -> asc c <> 0.
Proof. unfold asc. destruct (c <? 0x80); lia. Qed.

(** The entries of a name, read back. *)
Lemma long_name_ok n short p : plain n -> 1 <= zlength n <= 255 ->
  exists l l', lfn_steps (fat_lfn_reset, p) (lfn_entries n (fat_short_name_checksum short)) = Some (l, true) /\
    fat_lfn_finish l short = Some (0, l') /\ len l' = zlength n /\ c_str (name l') = map asc n.
Proof.
  intros Hp Hn. pose proof (slots_bounds n Hn) as [Hs Hs2]. set (cs := fat_short_name_checksum short).
  destruct (reading_all n cs (Z.to_nat (lfn_slots n)) 0 fat_lfn_reset p Hp Hn) as (l & E & [R1 R2 R3 R4]); [lia|lia| |lia|].
  { constructor; [done|done|lia|]. intros k Hk Hb. lia. }
  rewrite Z2Nat.id in E by lia. destruct R3 as (Rc & Rn & Rl); [lia|].
  exists l. unfold fat_lfn_finish. rewrite R2, Rn, Rc. fold cs. rewrite Z.eqb_refl.
  destruct (Z.ltb_spec 0 (lfn_slots n)); [|lia]. rewrite Z.sub_diag. cbn [Z.eqb negb orb].
  rewrite Rl. destruct (Z.geb_spec (zlength n) 0); [|lia]. destruct (Z.ltb_spec (zlength n) 256); [|lia]. cbn [andb negb].
  rewrite store_ok by (unfold zlength in *; lia). cbn [option_bind mbind].
  destruct (Z.gtb_spec (zlength n) 0); [|lia]. eexists. split_and!; [exact E|done|done|]. cbn [FatName.name].
  set (b := <[Z.to_nat (zlength n) := 0]> (FatName.name l)).
  assert (Lb : length b = 256%nat) by (subst b; by rewrite length_insert).
  assert (Hb : forall i, 0 <= i < zlength n -> byte_at b i = asc (byte_at n i)).
  { intros i Hi. subst b. rewrite byte_at_insert_ne by lia. apply R4; lia. }
  assert (Hc : forall i, 0 <= i < zlength n -> 0 < byte_at n i < 2 ^ 8).
  { intros i Hi. unfold byte_at. destruct (lookup_lt_is_Some_2 n (Z.to_nat i)) as [c Ec]; [unfold zlength in Hi; lia|].
    rewrite Ec. by eapply (Forall_lookup_1 _ _ _ _ Hp) in Ec. }
  rewrite (c_str_take b (zlength n)).
  - apply list_eq. intros i. destruct (decide (i < length n)%nat) as [Li|Li].
    + rewrite lookup_take_lt by (unfold zlength; lia). rewrite list_lookup_fmap.
      pose proof (Hb (Z.of_nat i) ltac:(unfold zlength; lia)) as Hi. unfold byte_at in Hi. rewrite Nat2Z.id in Hi.
      destruct (lookup_lt_is_Some_2 n i Li) as [c Ec]. destruct (lookup_lt_is_Some_2 b i ltac:(unfold zlength in *; lia)) as [d Ed].
      rewrite Ec, Ed in *. cbn in *. by rewrite Hi.
    + rewrite lookup_take_ge by (unfold zlength; lia). rewrite list_lookup_fmap, lookup_ge_None_2 by lia. done.
  - unfold zlength in *. lia.
  - subst b. unfold byte_at. rewrite list_lookup_insert_eq by (unfold zlength in *; lia). done.
  - intros i Hi. rewrite Hb by done. by apply asc_nonzero, Hc.
Qed.

(** C33: the entries that are written for a name of 1 to 255 characters, read in
    order by a scan that has no long name pending, give the name back in front of
    an entry with their checksum: exactly, but for a [?] in the place of every
    character that is not ASCII. *)
Theorem long_name_roundtrip n short p : plain n -> 1 <= zlength n <= 255 ->
  exists l l', lfn_steps (fat_lfn_reset, p) (lfn_entries n (fat_short_name_checksum short)) = Some (l, true) /\
    fat_lfn_finish l short = Some (0, l') /\ len l' = zlength n /\ c_str (name l') = map asc n.
Proof. apply long_name_ok. Qed.

(** ** Letters *)

Lemma same_letters_iff a b : same_letters a b = true <-> map fat_tolower a = map fat_tolower b.
Proof.
  revert b. induction a as [|x a IH]; intros [|y b]; cbn; [done..|]. rewrite andb_true_iff, Z.eqb_eq, IH.
  split; [by intros [-> ->]|by intros [= -> ->]].
Qed.

Lemma lower_upper c : fat_tolower (fat_toupper c) = fat_tolower c.
Proof.
  unfold fat_tolower, fat_toupper, is_upper. destruct (is_lower c) eqn:E; [|done]. unfold is_lower in E.
  apply andb_true_iff in E as [E1 E2]. apply Z.geb_le in E1. apply Z.leb_le in E2.
  repeat match goal with
  | |- context [?a >=? ?b] => destruct (Z.geb_spec a b)
  | |- context [?a <=? ?b] => destruct (Z.leb_spec a b)
  end; cbn [andb]; lia.
Qed.

Lemma lower_upper_map l : map fat_tolower (map fat_toupper l) = map fat_tolower l.
Proof. rewrite map_map. apply map_ext, lower_upper. Qed.

Lemma map_length_eq {A B} (f : A -> B) a b : map f a = map f b -> zlength a = zlength b.
Proof. intros E. unfold zlength. by rewrite <- (length_map f a), E, length_map. Qed.

(** What a name is compared with. *)
Lemma short_match_iff m e : fat_short_name_match m e = true <->
  map fat_tolower m = map fat_tolower (c_str (fat_short_name_from_entry e)).
Proof.
  unfold fat_short_name_match. destruct (Z.eqb_spec (zlength (c_str (fat_short_name_from_entry e))) (zlength m)) as [E|E]; cbn [negb].
  - apply same_letters_iff.
  - split; [done|]. intros H. apply map_length_eq in H. lia.
Qed.

Lemma lfn_match_iff m l : fat_lfn_name_match m l = true <-> map fat_tolower m = map fat_tolower (c_str l).
Proof.
  unfold fat_lfn_name_match. destruct (Z.eqb_spec (zlength m) (zlength (c_str l))) as [E|E]; cbn [negb].
  - apply same_letters_iff.
  - split; [done|]. intros H. apply map_length_eq in H. lia.
Qed.

Lemma c_str_plain l : plain l -> c_str l = l.
Proof.
  intros H. induction H as [|c l Hc _ IH]; [done|]. cbn. destruct (Z.eqb_spec c 0); [lia|]. by rewrite IH.
Qed.

Lemma toupper_plain l : plain l -> plain (map fat_toupper l).
Proof.
  intros H. apply Forall_map. eapply Forall_impl; [exact H|]. cbn. intros c Hc. unfold fat_toupper, is_lower.
  destruct (Z.geb_spec c 97), (Z.leb_spec c 122); cbn; lia.
Qed.

(** ** Short names *)

Lemma short_field_pad l n : 32 ∉ l -> short_field false (l ++ replicate n 32) = l.
Proof.
  induction l as [|c l IH]; intros H; [by destruct n|]. apply not_elem_of_cons in H as [H1 H2]. cbn.
  destruct (Z.eqb_spec c 32); [congruence|]. by rewrite IH.
Qed.

(** The first bytes of an entry. *)
Lemma make_prefix s a c z now : length s = 11%nat -> take 13 (fat_make_short_entry s a c z now) = s ++ [a; 0].
Proof. intros H. do 12 (destruct s as [|? s]; [done|]). done. Qed.

Lemma sub_of_take {A} (e : list A) o n k : 0 <= o -> 0 <= n -> o + n <= k -> sub_bytes e o n = sub_bytes (take (Z.to_nat k) e) o n.
Proof.
  intros. unfold sub_bytes. rewrite skipn_firstn_comm, take_take. f_equal. lia.
Qed.

Lemma byte_of_take e i k : 0 <= i < k -> byte_at e i = byte_at (take (Z.to_nat k) e) i.
Proof. intros H. unfold byte_at. by rewrite lookup_take_lt by lia. Qed.

(** The name that an entry shows, of fields that are padded with spaces. *)
Lemma short_name_of_fields b x a c z now : length b = 8%nat -> length x = 3%nat ->
  fat_short_name_from_entry (fat_make_short_entry (b ++ x) a c z now) =
    short_field false b ++ (if byte_at x 0 =? 32 then [] else 46 :: short_field false x).
Proof.
  intros Lb Lx. set (e := fat_make_short_entry (b ++ x) a c z now).
  assert (E : take (Z.to_nat 13) e = b ++ x ++ [a; 0]).
  { rewrite app_assoc. apply make_prefix. rewrite length_app. lia. }
  unfold fat_short_name_from_entry.
  rewrite (byte_of_take e 12 13), (byte_of_take e 8 13), (sub_of_take e 0 8 13), (sub_of_take e 8 3 13), E by lia.
  do 8 (destruct b as [|? b]; [done|]). destruct b; [|done].
  do 3 (destruct x as [|? x]; [done|]). by destruct x.
Qed.

Lemma put_short_eq s at_ l s' : put_short s at_ l = Some s' -> 0 <= at_ -> at_ + zlength l <= zlength s ->
  s' = take (Z.to_nat at_) s ++ map fat_toupper l ++ drop (Z.to_nat at_ + length l) s /\
  Forall (fun c => bad_short_char (fat_toupper c) = false) l.
Proof.
  revert s at_. induction l as [|c l IH]; intros s at_; cbn [put_short].
  - intros [= <-] H0 Hs. rewrite Nat.add_0_r. cbn. by rewrite take_drop.
  - destruct (bad_short_char (fat_toupper c)) eqn:Eb; [done|]. intros E H0 Hs. rewrite zlength_cons in Hs.
    apply IH in E as [-> F]; [|lia|unfold zlength in *; rewrite length_insert; lia].
    split; [|by constructor]. rewrite insert_take_drop by (unfold zlength in Hs; lia).
    set (k := Z.to_nat at_). replace (Z.to_nat (at_ + 1)) with (S k) by lia.
    assert (Lk : length (take k s) = k) by (rewrite length_take; unfold zlength in Hs; lia).
    replace (take (S k) (take k s ++ fat_toupper c :: drop (S k) s)) with (take k s ++ [fat_toupper c]).
    + rewrite <- app_assoc. cbn. do 3 f_equal. rewrite drop_app, Lk, (drop_ge (take k s)) by lia. cbn [app].
      replace (S (k + length l) - k)%nat with (S (length l)) by lia. cbn [drop]. rewrite drop_drop. f_equal. lia.
    + rewrite take_app, Lk, (take_ge (take k s)) by lia. f_equal. by replace (S k - k)%nat with 1%nat by lia.
Qed.

Lemma find_dot_spec l i len ld r : 0 <= i -> find_dot l i len ld = Some r ->
  (0 <= ld /\ r = ld /\ 46 ∉ l) \/ (ld < 0 /\ r = ld /\ 46 ∉ l) \/
  (ld < 0 /\ exists j, r = i + Z.of_nat j /\ l !! j = Some 46).
Proof.
  revert i ld. induction l as [|c l IH]; intros i ld Hi; cbn [find_dot].
  - intros [= <-]. destruct (decide (0 <= ld)); [left|right; left]; (split_and!; [lia|done|set_solver]).
  - destruct (Z.eqb_spec c 46) as [->|N].
    + destruct (Z.geb_spec ld 0); [done|]. destruct (Z.eqb_spec i 0); [done|]. destruct (_ =? _); [done|]. cbn [orb].
      intros E. apply IH in E; [|lia]. right. right. split; [done|]. exists 0%nat.
      split; [|done]. destruct E as [(_ & -> & _)|[(? & -> & _)|(? & j & -> & _)]]; lia.
    + intros E. apply IH in E; [|lia]. destruct E as [(? & -> & ?)|[(? & -> & ?)|(? & j & -> & Ej)]].
      * left. split_and!; [done|done|set_solver].
      * right. left. split_and!; [done|done|set_solver].
      * right. right. split; [done|]. exists (S j). split; [lia|done].
Qed.

Lemma not_bad_not_space l : Forall (fun c => bad_short_char (fat_toupper c) = false) l -> 32 ∉ map fat_toupper l.
Proof.
  intros H. induction H as [|c l Hc _ IH]; [set_solver|]. cbn. apply not_elem_of_cons. split; [|done].
  intros E. by rewrite <- E in Hc.
Qed.

(** What fits 8.3: a base and perhaps an extension, padded. *)
Lemma name_to_short_split n s : fat_name_to_short n = Ok s ->
  exists b x, s = (map fat_toupper b ++ replicate (8 - length b) 32) ++ (map fat_toupper x ++ replicate (3 - length x) 32) /\
    (1 <= length b <= 8)%nat /\ (length x <= 3)%nat /\ n = b ++ (if decide (x = []) then [] else 46 :: x) /\
    (32 ∉ map fat_toupper b) /\ (32 ∉ map fat_toupper x).
Proof.
  unfold fat_name_to_short. destruct (Z.ltb_spec (zlength n) 1) as [|E1]; [done|]. destruct (Z.gtb_spec (zlength n) 12); [done|]. cbn [orb].
  destruct (_ || _); [done|].
  destruct (find_dot n 0 (zlength n) (-1)) as [d|] eqn:Ed; [|done].
  apply find_dot_spec in Ed; [|lia]. destruct Ed as [(? & _)|[(_ & -> & Hno)|(_ & j & -> & Hj)]]; [lia| |].
  - cbn [Z.geb Z.compare]. destruct (Z.gtb_spec (zlength n) 8); [done|]. cbv zeta iota.
    destruct (put_short _ _ _) as [s'|] eqn:Ep; [|done]. intros [= ->].
    assert (Es : sub_bytes n 0 (zlength n) = n) by (unfold sub_bytes; rewrite drop_0; apply take_ge; unfold zlength; lia).
    rewrite Es in Ep. apply put_short_eq in Ep as [-> F]; [|lia|change (zlength (replicate 11 32)) with 11; lia].
    exists n, []. unfold zlength in *. split_and!; [|lia|lia|cbn; lia|by rewrite decide_True, app_nil_r by done|by apply not_bad_not_space|by apply not_elem_of_nil].
    change (take (Z.to_nat 0) (replicate 11 32)) with (@nil Z). rewrite app_nil_l. change (Z.to_nat 0) with 0%nat. rewrite Nat.add_0_l, drop_replicate, <- app_assoc. f_equal.
    change (map fat_toupper [] ++ replicate (3 - length (@nil Z)) 32) with (replicate 3 32).
    rewrite <- replicate_add. f_equal. lia.
  - pose proof (lookup_lt_Some _ _ _ Hj) as Lj. rewrite Z.add_0_l. destruct (Z.geb_spec (Z.of_nat j) 0); [|lia]. cbv zeta iota.
    destruct (Z.eqb_spec (Z.of_nat j) 0); [done|]. destruct (Z.eqb_spec (zlength n - Z.of_nat j - 1) 0); [done|].
    destruct (Z.gtb_spec (Z.of_nat j) 8); [done|]. destruct (Z.gtb_spec (zlength n - Z.of_nat j - 1) 3); [done|]. cbn [orb].
    destruct (put_short _ 0 _) as [s1|] eqn:E1'; [|done]. destruct (put_short s1 _ _) as [s2|] eqn:E2'; [|done]. intros [= ->].
    set (b := take j n). set (x := drop (S j) n).
    assert (Eb : sub_bytes n 0 (Z.of_nat j) = b) by (unfold sub_bytes; by rewrite Nat2Z.id, drop_0).
    assert (Ex : sub_bytes n (Z.of_nat j + 1) (zlength n - Z.of_nat j - 1) = x).
    { unfold sub_bytes, x. replace (Z.to_nat (Z.of_nat j + 1)) with (S j) by lia. apply take_ge. rewrite length_drop. unfold zlength. lia. }
    assert (Lb : length b = j) by (unfold b; rewrite length_take; lia).
    assert (Lx : length x = (length n - S j)%nat) by (unfold x; by rewrite length_drop).
    rewrite Eb in E1'. rewrite Ex in E2'. unfold zlength in *.
    apply put_short_eq in E1' as [-> F1]; [|lia|unfold zlength; rewrite Lb, length_replicate; lia].
    apply put_short_eq in E2' as [-> F2]; [|lia|unfold zlength; rewrite !length_app, length_map, length_drop, length_replicate, Lb, Lx; cbn; lia].
    exists b, x. split_and!; [|lia|lia|lia| |by apply not_bad_not_space|by apply not_bad_not_space].
    + change (take (Z.to_nat 0) (replicate 11 32)) with (@nil Z). rewrite app_nil_l. change (Z.to_nat 0) with 0%nat. rewrite Nat.add_0_l, drop_replicate.
      assert (T : (map fat_toupper b ++ replicate (11 - length b) 32) = (map fat_toupper b ++ replicate (8 - length b) 32) ++ replicate 3 32).
      { rewrite <- app_assoc. f_equal. rewrite <- replicate_add. f_equal. lia. }
      rewrite T. assert (L8 : length (map fat_toupper b ++ replicate (8 - length b) 32) = 8%nat) by (rewrite length_app, length_map, length_replicate; lia).
      change (Pos.to_nat 8) with 8%nat. rewrite take_app_length' by done. f_equal. f_equal.
      rewrite drop_app, L8, drop_ge by lia. cbn [app]. rewrite drop_replicate. f_equal. lia.
    + rewrite decide_False.
      * unfold b, x. rewrite <- (take_drop_middle n j 46 Hj) at 1. done.
      * intros E. rewrite E in Lx. cbn in Lx. lia.
Qed.

Lemma plain_app a b : plain (a ++ b) <-> plain a /\ plain b.
Proof. apply Forall_app. Qed.

Lemma plain_of_entry b x : plain b -> plain x -> plain (map fat_toupper b ++ (if decide (x = []) then [] else 46 :: map fat_toupper x)).
Proof.
  intros Hb Hx. apply plain_app. split; [by apply toupper_plain|]. destruct (decide _); [constructor|].
  constructor; [lia|by apply toupper_plain].
Qed.

Lemma short_name_iff n s a c z now m : plain n -> fat_name_to_short n = Ok s ->
  fat_short_name_match m (fat_make_short_entry s a c z now) = true <-> map fat_tolower m = map fat_tolower n.
Proof.
  intros Hp Hs. apply name_to_short_split in Hs as (b & x & -> & Lb & Lx & -> & Nb & Nx).
  apply plain_app in Hp as [Pb Px]. assert (Px' : plain x).
  { destruct (decide (x = [])) as [->|]; [constructor|]. by inversion Px. }
  rewrite short_match_iff, short_name_of_fields by (rewrite length_app, length_map, length_replicate; lia).
  rewrite !short_field_pad by done.
  replace (if byte_at (map fat_toupper x ++ replicate (3 - length x) 32) 0 =? 32 then [] else 46 :: map fat_toupper x)
    with (if decide (x = []) then [] else 46 :: map fat_toupper x).
  - rewrite c_str_plain by (by apply plain_of_entry). rewrite !map_app, lower_upper_map.
    destruct (decide (x = [])); [done|]. cbn [map]. by rewrite lower_upper_map.
  - destruct x as [|y x]; [done|]. rewrite decide_False by done.
    change (byte_at (map fat_toupper (y :: x) ++ replicate (3 - length (y :: x)) 32) 0) with (fat_toupper y).
    destruct (Z.eqb_spec (fat_toupper y) 32) as [E|]; [|done]. rewrite <- E in Nx. cbn in Nx. set_solver.
Qed.

(** an entry for a name that fits 8.3 is found by exactly the names that
    differ from it in the case of letters. *)
Theorem short_name_found n s a c z now m : plain n -> fat_name_to_short n = Ok s ->
  fat_short_name_match m (fat_make_short_entry s a c z now) = true <-> map fat_tolower m = map fat_tolower n.
Proof. apply short_name_iff. Qed.

(** ** Names that are not found, or found by another *)

Definition alnum (c : Z) : Prop := is_upper c = true \/ is_lower c = true \/ 48 <= c <= 57.

Lemma cfs_alnum c : alnum c -> fat_tolower (fat_char_for_short c) = fat_tolower c.
Proof.
  unfold fat_char_for_short. intros H. destruct (is_lower c) eqn:L.
  - rewrite <- (lower_upper c). unfold fat_toupper. by rewrite L.
  - replace (is_upper c || (c >=? 48) && (c <=? 57)) with true; [done|]. symmetry.
    destruct H as [->|[?|H]]; [done|congruence|]. destruct (is_upper c); [done|].
    destruct (Z.geb_spec c 48), (Z.leb_spec c 57); (done || lia).
Qed.

Lemma alnum_range c : alnum c -> 48 <= c <= 122.
Proof.
  unfold alnum, is_upper, is_lower.
  destruct (Z.geb_spec c 65), (Z.leb_spec c 90), (Z.geb_spec c 97), (Z.leb_spec c 122); cbn; intuition lia.
Qed.

Lemma cfs_range c : alnum c -> 48 <= fat_char_for_short c <= 95.
Proof.
  intros H. pose proof (alnum_range c H). unfold fat_char_for_short. destruct (is_lower c) eqn:L.
  - unfold is_lower in L. destruct (Z.geb_spec c 97); [|done]. lia.
  - destruct (_ || _) eqn:E; [|lia]. destruct (decide (c <= 95)); [lia|]. exfalso. destruct H as [H|[H|H]]; [|congruence|lia].
    unfold is_upper in H. destruct (Z.leb_spec c 90); [lia|]. by rewrite andb_false_r in H.
Qed.

Lemma last_dot_last b x i ld : 46 ∉ x -> last_dot_of (b ++ 46 :: x) i ld = i + zlength b.
Proof.
  intros H. revert i ld. induction b as [|c b IH]; intros i ld.
  - cbn. assert (G : forall j d, last_dot_of x j d = d).
    { clear -H. induction x as [|c x IH]; intros j d; [done|]. apply not_elem_of_cons in H as [H1 H2]. cbn.
      destruct (Z.eqb_spec c 46); [congruence|]. by apply IH. }
    rewrite G. unfold zlength. cbn. lia.
  - cbn [app last_dot_of]. rewrite IH, zlength_cons. lia.
Qed.

Lemma alias_eq base ext k : length base = 16%nat -> length ext = 4%nat -> 1 <= k <= 9 ->
  alias base ext k = (take 6 base ++ [126; 48 + k]) ++ take 3 ext.
Proof.
  intros Lb Lx Hk. do 16 (destruct base as [|? base]; [done|]). do 4 (destruct ext as [|? ext]; [done|]).
  assert (Hin : k ∈ seqZ 1 9) by (apply elem_of_seqZ; lia).
  repeat (apply elem_of_cons in Hin as [->|Hin]; [reflexivity|]). by apply not_elem_of_nil in Hin.
Qed.

Lemma short_field_stop l r : 32 ∉ l -> short_field false (l ++ 32 :: r) = l.
Proof.
  induction l as [|c l IH]; intros H; [done|]. apply not_elem_of_cons in H as [H1 H2]. cbn.
  destruct (Z.eqb_spec c 32); [congruence|]. by rewrite IH.
Qed.

Lemma cfs_no_space l : Forall alnum l -> 32 ∉ map fat_char_for_short l.
Proof.
  intros H. induction H as [|c l Hc _ IH]; [by apply not_elem_of_nil|]. cbn. apply not_elem_of_cons. split; [|done].
  pose proof (cfs_range c Hc). lia.
Qed.

(** The alias of a name with a base of at most five characters. *)
Lemma alias_shown b x k a c z now : Forall alnum b -> Forall alnum x -> (1 <= length b <= 5)%nat -> (1 <= length x)%nat -> 1 <= k <= 9 ->
  fat_short_name_from_entry (fat_make_short_entry (alias (alias_base (b ++ 46 :: x)).1 (alias_base (b ++ 46 :: x)).2 k) a c z now) =
    map fat_char_for_short b ++ 46 :: map fat_char_for_short (take 3 x).
Proof.
  intros Hb Hx Lb Lx Hk. unfold alias_base. rewrite last_dot_last.
  2:{ intros Hin. pose proof (alnum_range 46 (proj1 (Forall_forall _ _) Hx 46 Hin)). lia. }
  rewrite Z.add_0_l, zlength_app, zlength_cons. unfold zlength.
  destruct (Z.gtb_spec (Z.of_nat (length b)) 0); [|lia].
  destruct (Z.ltb_spec (Z.of_nat (length b)) (Z.of_nat (length b) + (Z.of_nat (length x) + 1) - 1)); [|lia]. cbn [andb fst snd].
  assert (Eb : sub_bytes (b ++ 46 :: x) 0 (Z.min (Z.of_nat (length b)) 6) = b).
  { unfold sub_bytes. rewrite drop_0. replace (Z.to_nat (Z.min (Z.of_nat (length b)) 6)) with (length b) by lia. by rewrite take_app_length. }
  assert (Ex : sub_bytes (b ++ 46 :: x) (Z.of_nat (length b) + 1) (Z.min (Z.of_nat (length b) + (Z.of_nat (length x) + 1) - Z.of_nat (length b) - 1) 3) = take 3 x).
  { unfold sub_bytes. replace (Z.to_nat (Z.of_nat (length b) + 1)) with (length (b ++ [46])) by (rewrite length_app; cbn; lia).
    replace (b ++ 46 :: x) with ((b ++ [46]) ++ x) by (by rewrite <- app_assoc). rewrite drop_app_length.
    destruct (decide (3 <= length x)%nat); [f_equal; lia|]. by rewrite !take_ge by lia. }
  rewrite Eb, Ex. set (B := map fat_char_for_short b). set (X := map fat_char_for_short (take 3 x)).
  assert (LB : length B = length b) by (unfold B; by rewrite length_map).
  assert (LX : (1 <= length X <= 3)%nat) by (unfold X; rewrite length_map, length_take; lia).
  assert (NB : 32 ∉ B) by (by apply cfs_no_space).
  assert (NX : 32 ∉ X) by (by apply cfs_no_space, Forall_take).
  assert (E0 : (byte_at (B ++ replicate (16 - length B) 32) 0 =? 32) = false).
  { apply Z.eqb_neq. intros E. destruct B as [|c0 B]; [cbn in LB; lia|]. apply NB, elem_of_cons. left. symmetry. exact E. }
  rewrite E0. rewrite alias_eq; [|rewrite length_app, length_replicate; lia|rewrite length_app, length_replicate; lia|done].
  rewrite short_name_of_fields; [|rewrite length_app, length_take, length_app, length_replicate; change (length [126; 48 + k]) with 2%nat; lia|rewrite length_take, length_app, length_replicate; lia].
  assert (T6 : take 6 (B ++ replicate (16 - length B) 32) ++ [126; 48 + k] = B ++ 32 :: (replicate (5 - length B) 32 ++ [126; 48 + k])).
  { rewrite take_app, (take_ge B) by lia. rewrite take_replicate, <- app_assoc.
    replace ((6 - length B) `min` (16 - length B))%nat with (S (5 - length B)) by lia. done. }
  assert (T3 : take 3 (X ++ replicate (4 - length X) 32) = X ++ replicate (3 - length X) 32).
  { rewrite take_app, (take_ge X) by lia. rewrite take_replicate. do 2 f_equal. lia. }
  rewrite T6, T3, short_field_stop, short_field_pad by done.
  assert (E1 : (byte_at (X ++ replicate (3 - length X) 32) 0 =? 32) = false).
  { apply Z.eqb_neq. intros E. destruct X as [|c0 X]; [cbn in LX; lia|]. apply NX, elem_of_cons. left. symmetry. exact E. }
  by rewrite E1.
Qed.

(** with a base of less than six characters the alias of a long name has
    spaces in front of its number, and they end the base when the entry is read:
    for a file [index.html] the entry shows [INDEX.HTM], and the scan for
    [index.htm] finds it. *)
Theorem alias_found_by_another b x k a c z now m : Forall alnum b -> Forall alnum x -> (1 <= length b <= 5)%nat -> (1 <= length x)%nat -> 1 <= k <= 9 ->
  fat_short_name_match m (fat_make_short_entry (alias (alias_base (b ++ 46 :: x)).1 (alias_base (b ++ 46 :: x)).2 k) a c z now) = true <->
    map fat_tolower m = map fat_tolower (b ++ 46 :: take 3 x).
Proof.
  intros Hb Hx Lb Lx Hk. rewrite short_match_iff, alias_shown by done.
  assert (Cfs : forall l, Forall alnum l -> plain (map fat_char_for_short l) /\ map fat_tolower (map fat_char_for_short l) = map fat_tolower l).
  { intros l Hl. split.
    - apply Forall_map. eapply Forall_impl; [exact Hl|]. cbn. intros d Hd. pose proof (cfs_range d Hd). lia.
    - rewrite map_map. apply map_ext_in. intros d Hd. apply cfs_alnum. eapply Forall_forall; [exact Hl|]. by apply list_elem_of_In. }
  destruct (Cfs b Hb) as [P1 E1]. destruct (Cfs (take 3 x) (Forall_take _ _ _ Hx)) as [P2 E2].
  rewrite c_str_plain by (apply plain_app; split; [done|constructor; [lia|done]]).
  by rewrite !map_app, !map_cons, E1, E2.
Qed.

(** a long name is found by its own name exactly when it is ASCII: every
    other character is read back as [?]. *)
Theorem long_name_found_iff_ascii n short p m : plain n -> 1 <= zlength n <= 255 ->
  exists l l', lfn_steps (fat_lfn_reset, p) (lfn_entries n (fat_short_name_checksum short)) = Some (l, true) /\
    fat_lfn_finish l short = Some (0, l') /\
    (fat_lfn_name_match m (name l') = true <-> map fat_tolower m = map fat_tolower (map asc n)) /\
    (fat_lfn_name_match n (name l') = true <-> Forall (fun c => c < 0x80) n).
Proof.
  intros Hp Hn. destruct (long_name_ok n short p Hp Hn) as (l & l' & E & Fi & _ & C). exists l, l'.
  rewrite !lfn_match_iff, C. split_and!; [done|done|done|]. clear -Hp. induction Hp as [|c n Hc _ IH]; [done|].
  cbn. rewrite Forall_cons, <- IH. unfold asc. split.
  - intros [= E1 E2]. split; [|done]. destruct (Z.ltb_spec c 0x80); [done|]. exfalso. revert E1. unfold fat_tolower, is_upper.
    destruct (Z.geb_spec c 65), (Z.leb_spec c 90); cbn; lia.
  - intros [H1 ->]. by destruct (Z.ltb_spec c 0x80); [|lia].
Qed.

(** A name that fits 8.3 and begins with the mark of a deleted entry. *)
Lemma deleted_name n s a c z now : fat_name_to_short (0xe5 :: n) = Ok s -> byte_at (fat_make_short_entry s a c z now) 0 = 0xe5.
Proof.
  intros Hs. apply name_to_short_split in Hs as (b & x & -> & Lb & Lx & E & _).
  destruct b as [|b0 b]; [cbn in Lb; lia|]. cbn in E. injection E as <- _.
  rewrite (byte_of_take _ 0 13), make_prefix by first [lia|rewrite !length_app, !length_map, !length_replicate; cbn in *; lia]. done.
Qed.

(** The second byte of the cluster field of a long entry is not cleared. *)
Lemma lfn_cluster_field seq cs n base : fat_read16 (fat_fill_lfn_entry seq cs n base) 26 = 0xff00.
Proof. by rewrite fill_eq. Qed.

(** ** Witnesses *)

Lemma long_name_roundtrip_witness :
  exists l l', lfn_steps (fat_lfn_reset, false) (lfn_entries (replicate 20 97) (fat_short_name_checksum (replicate 32 65))) = Some (l, true) /\
    fat_lfn_finish l (replicate 32 65) = Some (0, l') /\ len l' = 20 /\ c_str (name l') = map asc (replicate 20 97).
Proof.
  apply (long_name_roundtrip (replicate 20 97) (replicate 32 65) false).
  - apply Forall_replicate. split; reflexivity.
  - split; discriminate.
Defined.

Lemma short_name_found_witness :
  fat_short_name_match [65; 46; 98] (fat_make_short_entry ([65] ++ replicate 7 32 ++ [66; 32; 32]) 32 0 0 0) = true.
Proof.
  apply (short_name_found [97; 46; 98] _ 32 0 0 0 [65; 46; 98]).
  - repeat apply Forall_cons_2; first [apply Forall_nil_2|split; reflexivity].
  - reflexivity.
  - reflexivity.
Defined.

(** [index.html] and [index.htm]. *)
Lemma alias_found_by_another_witness :
  fat_short_name_match [105; 110; 100; 101; 120; 46; 104; 116; 109]
    (fat_make_short_entry (alias (alias_base [105; 110; 100; 101; 120; 46; 104; 116; 109; 108]).1
                                 (alias_base [105; 110; 100; 101; 120; 46; 104; 116; 109; 108]).2 1) 32 0 0 0) = true.
Proof.
  apply (alias_found_by_another [105; 110; 100; 101; 120] [104; 116; 109; 108] 1 32 0 0 0).
  - repeat apply Forall_cons_2; first [apply Forall_nil_2|right; left; reflexivity].
  - repeat apply Forall_cons_2; first [apply Forall_nil_2|right; left; reflexivity].
  - cbn. lia.
  - cbn. lia.
  - lia.
  - reflexivity.
Defined.

Lemma long_name_found_iff_ascii_witness :
  exists l l', lfn_steps (fat_lfn_reset, false) (lfn_entries (replicate 9 228) (fat_short_name_checksum (replicate 32 65))) = Some (l, true) /\
    fat_lfn_finish l (replicate 32 65) = Some (0, l') /\
    (fat_lfn_name_match (replicate 9 63) (name l') = true <-> map fat_tolower (replicate 9 63) = map fat_tolower (map asc (replicate 9 228))) /\
    (fat_lfn_name_match (replicate 9 228) (name l') = true <-> Forall (fun c => c < 0x80) (replicate 9 228)).
Proof.
  apply (long_name_found_iff_ascii (replicate 9 228) (replicate 32 65) false (replicate 9 63)).
  - apply Forall_replicate. split; reflexivity.
  - split; discriminate.
Defined.

End FatName.
