(* ===== verification/FatDir.v ===== *)
(** * FAT32: directories ([fs/fat/dir.c])

    A directory is a chain of clusters of entries of 32 bytes, read up to the
    first that begins with 0.  The inode of the directory is the one that
    [FatFile] keeps with the volume.  A failed assertion is the error [PANIC],
    which is no error number. *)
From S2P Require Import Prelude Ext2 Fat FatFile FatName.
Import Ext2 Fat FatFile FatName.

Module FatDir.

Definition PANIC : Z := 1.
Definition ENOTDIR : Z := 20.
Definition FAT_ATTR_DIRECTORY : Z := 0x10.

Definition or_panic {A} (o : option A) : G A := match o with Some a => ret a | None => fail PANIC end.

Definition fat_dir_entries_per_cluster (t : st) : Z := fsz t / FAT_ENTRY_SIZE.

Definition fat_read_dir_cluster (cluster_index : Z) : G (Z * list Z) :=
  t <~ getf ;;
  if cluster_index >=? total_clusters (sbi (fs_vol t)) then fail (- EIO) else
  cluster <~ cluster_at cluster_index ;;
  if cluster =? 0 then fail (- ENOENT) else
  onvol kmalloc ;~
  buf <~ onvol (fat_read_cluster cluster) ;;
  ret (cluster, buf).

Definition entry_at (buf : list Z) (offset : Z) : list Z := sub_bytes buf offset FAT_ENTRY_SIZE.
Definition is_volume_id (e : list Z) : bool := negb (Z.land (byte_at e 11) FAT_ATTR_VOLUME_ID =? 0).

(** ** Looking for a name *)

(** The long name that is pending in front of an entry, if it belongs to it. *)
Definition lfn_ok (s : fat_lfn * bool) (entry : list Z) : option (bool * fat_lfn) :=
  if s.2 then r ← fat_lfn_finish s.1 entry; Some (r.1 =? 0, r.2) else Some (false, s.1).

Inductive found := F_end | F_at (offset : Z) | F_more (s : fat_lfn * bool).

Definition none : fat_lfn * bool := (fat_lfn_reset, false).

(** The entries of one cluster, [fuel] of them. *)
Fixpoint find_in_cluster (fuel : nat) (name buf : list Z) (offset : Z) (s : fat_lfn * bool) : option found :=
  match fuel with
  | O => Some (F_more s)
  | S fuel =>
    let entry := entry_at buf offset in
    if byte_at entry 0 =? 0 then Some F_end else
    if byte_at entry 0 =? 0xe5 then find_in_cluster fuel name buf (offset + FAT_ENTRY_SIZE) none else
    if byte_at entry 11 =? FAT_ATTR_LFN then s ← lfn_step s entry; find_in_cluster fuel name buf (offset + FAT_ENTRY_SIZE) s else
    if is_volume_id entry then find_in_cluster fuel name buf (offset + FAT_ENTRY_SIZE) none else
    r ← lfn_ok s entry;
    if (r.1 && fat_lfn_name_match name (FatName.name r.2)) || fat_short_name_match name entry then Some (F_at offset)
    else find_in_cluster fuel name buf (offset + FAT_ENTRY_SIZE) none
  end.

Fixpoint find_loop (fuel : nat) (name : list Z) (cluster_index : Z) (s : fat_lfn * bool) : G (Z * Z) :=
  match fuel with
  | O => fail (- EIO)
  | S fuel =>
    t <~ getf ;;
    r <~ fat_read_dir_cluster cluster_index ;;
    v <~ or_panic (find_in_cluster (Z.to_nat (fat_dir_entries_per_cluster t)) name r.2 0 s) ;;
    match v with
    | F_end => fail (- ENOENT)
    | F_at offset => ret (r.1, offset)
    | F_more s => find_loop fuel name (cluster_index + 1) s
    end
  end.

(** The cluster and the offset of the entry with a name. *)
Definition fat_dir_find_entry (name : list Z) : G (Z * Z) :=
  t <~ getf ;; find_loop (Z.to_nat (total_clusters (sbi (fs_vol t)) + 1)) name 0 none.

(** Looking up a path component walks the chain itself, with a second cursor at
    half the speed that it meets if the chain is a loop. *)
Fixpoint lookup_loop (fuel : nat) (name : list Z) (cluster cluster_index slow_cluster : Z) (s : fat_lfn * bool) : G (Z * Z) :=
  match fuel with
  | O => fail (- EIO)
  | S fuel =>
    t <~ getf ;;
    onvol kmalloc ;~
    buf <~ onvol (fat_read_cluster cluster) ;;
    v <~ or_panic (find_in_cluster (Z.to_nat (fat_dir_entries_per_cluster t)) name buf 0 s) ;;
    match v with
    | F_end => fail (- ENOENT)
    | F_at offset => ret (cluster, offset)
    | F_more s =>
      if cluster_index >=? total_clusters (sbi (fs_vol t)) then fail (- EIO) else
      let cluster_index := cluster_index + 1 in
      next <~ onvol (fat_next_cluster cluster) ;;
      slow_cluster <~ (if Z.odd cluster_index then ret slow_cluster else onvol (fat_next_cluster slow_cluster)) ;;
      if next =? slow_cluster then fail (- EIO) else lookup_loop fuel name next cluster_index slow_cluster s
    end
  end.

(** The number of the inode that [iget] is then asked for; [parent_ino] is a field
    of the inode of the directory. *)
Definition fat_lookup (parent_ino : Z) (name : list Z) : G Z :=
  t <~ getf ;;
  if Z.land (attributes (ino t)) FAT_ATTR_DIRECTORY =? 0 then fail (- ENOTDIR) else
  if bool_decide (name = [46]) then ret (i_ino (ino t)) else
  if bool_decide (name = [46; 46]) then if parent_ino =? 0 then fail (- ENOENT) else ret parent_ino else
  let c := start_cluster (fi (ino t)) in
  p <~ lookup_loop (Z.to_nat (total_clusters (sbi (fs_vol t)) + 1)) name c 0 c none ;;
  t <~ getf ;; ret (fat_entry_ino (sbi (fs_vol t)) p.1 p.2).

(** ** Listing *)

Section Readdir.
(** [filldir] is the callback of the caller with its state: the name, the
    position behind the entry, the inode number, whether it is a directory; it
    says whether it has no room. *)
Context {D : Type} (filldir : D -> list Z -> Z -> Z -> bool -> D * bool).

Inductive listed := L_stop (f_pos : Z) (dirent : D) | L_more (f_pos : Z) (dirent : D) (s : fat_lfn * bool).

Fixpoint list_in_cluster (fuel : nat) (i : sb_info) (cluster : Z) (buf : list Z) (start offset f_pos : Z) (dirent : D) (s : fat_lfn * bool) : option listed :=
  match fuel with
  | O => Some (L_more f_pos dirent s)
  | S fuel =>
    let entry := entry_at buf offset in
    let next := start + offset + FAT_ENTRY_SIZE in
    if byte_at entry 0 =? 0 then Some (L_stop (start + offset) dirent) else
    if byte_at entry 0 =? 0xe5 then list_in_cluster fuel i cluster buf start (offset + FAT_ENTRY_SIZE) next dirent none else
    if byte_at entry 11 =? FAT_ATTR_LFN then
      s ← lfn_step s entry; list_in_cluster fuel i cluster buf start (offset + FAT_ENTRY_SIZE) next dirent s else
    if is_volume_id entry then list_in_cluster fuel i cluster buf start (offset + FAT_ENTRY_SIZE) next dirent none else
    r ← lfn_ok s entry;
    let emit_name := if r.1 : bool then take (Z.to_nat (len r.2)) (FatName.name r.2) else c_str (fat_short_name_from_entry entry) in
    let '(dirent, full) := filldir dirent emit_name next (fat_entry_ino i cluster offset)
                             (negb (Z.land (byte_at entry 11) FAT_ATTR_DIRECTORY =? 0)) in
    if full : bool then Some (L_stop next dirent)
    else list_in_cluster fuel i cluster buf start (offset + FAT_ENTRY_SIZE) next dirent none
  end.

Fixpoint readdir_loop (fuel : nat) (logical f_pos : Z) (dirent : D) (s : fat_lfn * bool) : G (Z * D) :=
  match fuel with
  | O => fail (- EIO)
  | S fuel =>
    t <~ getf ;;
    let cluster_index := u32 (logical / fsz t) in
    let offset := logical mod fsz t in
    cluster <~ cluster_at cluster_index ;;
    if cluster =? 0 then ret (f_pos, dirent) else
    if cluster_index >=? total_clusters (sbi (fs_vol t)) then fail (- EIO) else
    onvol kmalloc ;~
    buf <~ onvol (fat_read_cluster cluster) ;;
    v <~ or_panic (list_in_cluster (Z.to_nat ((fsz t - offset + 31) / FAT_ENTRY_SIZE)) (sbi (fs_vol t)) cluster buf (cluster_index * fsz t) offset f_pos dirent s) ;;
    match v with
    | L_stop f_pos dirent => ret (f_pos, dirent)
    | L_more f_pos dirent s =>
      e <~ try (onvol (fat_next_cluster cluster)) ;;
      match e with
      | Er e => if e =? - ENOENT then ret (f_pos, dirent) else fail e
      | Ok _ => readdir_loop fuel (u32 (cluster_index + 1) * fsz t) f_pos dirent s
      end
    end
  end.

(** The position of the file and the state of the callback. *)
Definition fat_readdir (f_pos : Z) (dirent : D) : G (Z * D) :=
  t <~ getf ;; readdir_loop (Z.to_nat (total_clusters (sbi (fs_vol t)) + 1)) f_pos f_pos dirent none.
End Readdir.
Arguments L_stop {D} f_pos dirent.
Arguments L_more {D} f_pos dirent s.


(** ** What a directory holds *)

(** An entry in use: its number, its long name if it has one, its bytes. *)
Record item := mkitem { it_index : Z; it_long : option fat_lfn; it_entry : list Z }.

Definition long_of (s : fat_lfn * bool) (e : list Z) : option fat_lfn :=
  match lfn_ok s e with Some (true, l) => Some l | _ => None end.

(** The entries in use up to the end mark, from the [i]-th on. *)
Fixpoint listing (i : Z) (s : fat_lfn * bool) (es : list (list Z)) : list item :=
  match es with
  | [] => []
  | e :: es =>
    if byte_at e 0 =? 0 then [] else
    if byte_at e 0 =? 0xe5 then listing (i + 1) none es else
    if byte_at e 11 =? FAT_ATTR_LFN then listing (i + 1) (default none (lfn_step s e)) es else
    if is_volume_id e then listing (i + 1) none es else
    mkitem i (long_of s e) e :: listing (i + 1) none es
  end.

(** The number of the entry with the end mark, or of entries. *)
Fixpoint end_of (i : Z) (es : list (list Z)) : Z :=
  match es with [] => i | e :: es => if byte_at e 0 =? 0 then i else end_of (i + 1) es end.

Definition has_name (name : list Z) (x : item) : bool :=
  match it_long x with Some l => fat_lfn_name_match name (FatName.name l) | None => false end ||
  fat_short_name_match name (it_entry x).

Definition item_named (name : list Z) (l : list item) : option Z := it_index <$> head (filter (fun x => has_name name x = true) l).

(** The entries of a cluster, and of a chain. *)
Definition per (i : sb_info) : Z := cluster_size i / FAT_ENTRY_SIZE.
Definition entries_in (n : Z) (buf : list Z) (from : Z) : list (list Z) :=
  map (fun j => entry_at buf (j * FAT_ENTRY_SIZE)) (seqZ from (n - from)).
Definition dir_entries (v : vol) (l : list Z) : list (list Z) :=
  concat (map (fun c => entries_in (per (sbi v)) (cluster_data v c) 0) l).

Lemma entries_in_cons n buf j : 0 <= j < n -> entries_in n buf j = entry_at buf (j * FAT_ENTRY_SIZE) :: entries_in n buf (j + 1).
Proof.
  intros H. unfold entries_in. rewrite seqZ_cons by lia. cbn [map]. do 3 f_equal; lia.
Qed.

Lemma entries_in_nil n buf : entries_in n buf n = [].
Proof. unfold entries_in. by rewrite Z.sub_diag. Qed.

(** ** The scan of a cluster *)

Definition scan_ok (s : fat_lfn * bool) : Prop := lfn_inv s.1.

Lemma none_ok : scan_ok none.
Proof. apply reset_inv. Qed.

Lemma lfn_step_ok s e : scan_ok s -> exists s', lfn_step s e = Some s' /\ scan_ok s'.
Proof.
  intros H. unfold lfn_step. destruct (fat_lfn_add_safe s.1 e H) as (r & l & -> & Hl).
  destruct (r =? 0); eexists; (split; [done|]); [exact Hl|apply reset_inv].
Qed.

Lemma lfn_ok_ok s e : scan_ok s -> exists b l, lfn_ok s e = Some (b, l) /\ lfn_inv l /\ (if b : bool then Some l else None) = long_of s e.
Proof.
  intros H. unfold long_of, lfn_ok. destruct s as [l0 []]; cbn.
  - destruct (fat_lfn_finish_safe l0 e H) as (r & l & -> & Hl). cbn. exists (r =? 0), l. split_and!; [done|done|by destruct (r =? 0)].
  - by exists false, l0.
Qed.

Lemma item_named_cons name x l : item_named name (x :: l) = if has_name name x then Some (it_index x) else item_named name l.
Proof. unfold item_named. rewrite filter_cons. by destruct (has_name name x). Qed.

(** The scan for a name, of the entries of one cluster. *)
Lemma find_in_cluster_ok m n j name buf s i rest : 0 <= j -> j + Z.of_nat m = n -> scan_ok s ->
  exists v, find_in_cluster m name buf (j * FAT_ENTRY_SIZE) s = Some v /\
    match v with
    | F_end => item_named name (listing (i + j) s (entries_in n buf j ++ rest)) = None
    | F_at o => exists k, j <= k < n /\ o = k * FAT_ENTRY_SIZE /\ item_named name (listing (i + j) s (entries_in n buf j ++ rest)) = Some (i + k)
    | F_more s' => scan_ok s' /\ item_named name (listing (i + j) s (entries_in n buf j ++ rest)) = item_named name (listing (i + n) s' rest)
    end.
Proof.
  revert j s. induction m as [|m IH]; intros j s Hj Hn Hs; cbn [find_in_cluster].
  - assert (j = n) as -> by lia. eexists. split; [done|]. by rewrite entries_in_nil.
  - rewrite entries_in_cons by lia. cbn [app listing]. set (e := entry_at buf (j * FAT_ENTRY_SIZE)).
    destruct (byte_at e 0 =? 0); [by eexists|].
    assert (Hgo : forall s', scan_ok s' ->
      exists v, find_in_cluster m name buf (j * FAT_ENTRY_SIZE + FAT_ENTRY_SIZE) s' = Some v /\
      match v with
      | F_end => item_named name (listing (i + j + 1) s' (entries_in n buf (j + 1) ++ rest)) = None
      | F_at o => exists k, j <= k < n /\ o = k * FAT_ENTRY_SIZE /\ item_named name (listing (i + j + 1) s' (entries_in n buf (j + 1) ++ rest)) = Some (i + k)
      | F_more s2 => scan_ok s2 /\ item_named name (listing (i + j + 1) s' (entries_in n buf (j + 1) ++ rest)) = item_named name (listing (i + n) s2 rest)
      end).
    { intros s' Hs'. replace (j * FAT_ENTRY_SIZE + FAT_ENTRY_SIZE) with ((j + 1) * FAT_ENTRY_SIZE) by (unfold FAT_ENTRY_SIZE; lia).
      destruct (IH (j + 1) s' ltac:(lia) ltac:(lia) Hs') as (v & E & P). exists v. split; [done|].
      rewrite <- Z.add_assoc. destruct v as [|o|s2]; [done| |done]. destruct P as (k & ? & ? & ?). exists k. split_and!; (done || lia). }
    destruct (byte_at e 0 =? 0xe5); [apply Hgo, none_ok|].
    destruct (byte_at e 11 =? FAT_ATTR_LFN).
    { destruct (lfn_step_ok s e Hs) as (s' & -> & Hs'). cbn [option_bind mbind default]. by apply Hgo. }
    destruct (is_volume_id e); [apply Hgo, none_ok|].
    destruct (lfn_ok_ok s e Hs) as (b & l & -> & _ & El). cbn [option_bind mbind fst snd].
    rewrite item_named_cons. unfold has_name. cbn [it_long it_entry it_index]. rewrite <- El.
    replace (match (if b then Some l else None) with Some l0 => fat_lfn_name_match name (FatName.name l0) | None => false end)
      with (b && fat_lfn_name_match name (FatName.name l)) by (by destruct b).
    destruct (_ || _); [|apply Hgo, none_ok]. eexists. split; [done|]. exists j. split_and!; (done || lia).
Qed.

(** ** The scan of the chain *)

Lemma read_dir_cluster_ok t l n : chain_of t l -> 0 <= n <= zlength l ->
  match l !! Z.to_nat n with
  | Some c => exists t', fat_read_dir_cluster n t = (Ok (c, cluster_data (fs_vol t) c), t') /\ chain_of t' l /\ quiet t t'
  | None => exists t' e, fat_read_dir_cluster n t = (Er e, t') /\ chain_of t' l /\ quiet t t' /\
      e = if n <? total_clusters (sbi (fs_vol t)) then - ENOENT else - EIO
  end.
Proof.
  intros C Hn. pose proof C as (V & H & _). pose proof (v_geom _ V) as Gm.
  destruct (chain_cap _ _ _ Gm H) as [_ Cap].
  assert (Lt : zlength l <= total_clusters (sbi (fs_vol t))).
  { pose proof (g_clusters _ Gm). destruct H as [[_ ->]|H]; [unfold zlength; cbn; lia|by eapply chain_length]. }
  unfold fat_read_dir_cluster. rewrite bind_getf.
  destruct (cluster_at_ok t l n C ltac:(lia)) as (t1 & E1 & C1 & Q1).
  destruct (l !! Z.to_nat n) as [c|] eqn:Ec.
  - assert (Ln : n < zlength l) by (apply lookup_lt_Some in Ec; unfold zlength; lia).
    destruct (Z.geb_spec n (total_clusters (sbi (fs_vol t)))); [lia|]. rewrite (bind_ok _ _ _ _ _ E1).
    change (default 0 (Some c)) with c.
    assert (Vc : valid (sbi (fs_vol t)) c) by (eapply chain_pos; [done|done|by eapply list_elem_of_lookup_2]).
    pose proof (valid_range _ _ Gm Vc). destruct (Z.eqb_spec c 0); [lia|].
    rewrite (bind_ok _ _ _ _ _ (kmalloc_onvol t1 (proj1 C1))).
    assert (B1 : sbi (fs_vol t1) = sbi (fs_vol t)) by apply Q1.
    assert (Rd : onvol (fat_read_cluster c) t1 = (Ok (cluster_data (fs_vol t) c), t1)).
    { erewrite onvol_ok; [|apply read_cluster_ok; [apply C1|by rewrite B1]]. by rewrite set_vol_id, (quiet_data _ _ _ Q1). }
    rewrite (bind_ok _ _ _ _ _ Rd). by exists t1.
  - destruct (Z.geb_spec n (total_clusters (sbi (fs_vol t)))) as [G|G].
    + exists t, (- EIO). destruct (Z.ltb_spec n (total_clusters (sbi (fs_vol t)))); [lia|]. split_and!; [done|done|apply quiet_refl|done].
    + rewrite (bind_ok _ _ _ _ _ E1). change (default 0 None =? 0) with true. cbv iota. exists t1, (- ENOENT).
      destruct (Z.ltb_spec n (total_clusters (sbi (fs_vol t)))); [|lia]. done.
Qed.

Lemma per_pos v : vol_ok v -> 16 <= per (sbi v) /\ cluster_size (sbi v) = per (sbi v) * FAT_ENTRY_SIZE.
Proof.
  intros V. pose proof (g_size _ (v_geom _ V)) as E. pose proof (g_spc _ (v_geom _ V)). unfold per, FAT_ENTRY_SIZE.
  replace (cluster_size (sbi v)) with (16 * sectors_per_cluster (sbi v) * 32) by lia. rewrite Z.div_mul by lia. lia.
Qed.

(** Where an entry is. *)
Definition place_of (v : vol) (l : list Z) (k : Z) : Z * Z :=
  (default 0 (l !! Z.to_nat (k / per (sbi v))), k mod per (sbi v) * FAT_ENTRY_SIZE).

Lemma dir_entries_cons v c l : dir_entries v (c :: l) = entries_in (per (sbi v)) (cluster_data v c) 0 ++ dir_entries v l.
Proof. done. Qed.

Lemma quiet_dir_entries t t' l : quiet t t' -> dir_entries (fs_vol t') l = dir_entries (fs_vol t) l.
Proof.
  intros Q. unfold dir_entries. f_equal. apply map_ext. intros c. rewrite (quiet_data _ _ _ Q).
  by replace (sbi (fs_vol t')) with (sbi (fs_vol t)) by (symmetry; apply Q).
Qed.

Lemma find_loop_ok fuel t l idx name s : chain_of t l -> 0 <= idx <= zlength l -> scan_ok s ->
  zlength l < total_clusters (sbi (fs_vol t)) -> zlength l - idx < Z.of_nat fuel ->
  exists t', find_loop fuel name idx s t =
    (match item_named name (listing (per (sbi (fs_vol t)) * idx) s (dir_entries (fs_vol t) (drop (Z.to_nat idx) l))) with
     | Some k => Ok (place_of (fs_vol t) l k) | None => Er (- ENOENT) end, t') /\ chain_of t' l /\ quiet t t'.
Proof.
  revert t idx s. induction fuel as [|fuel IH]; intros t idx s C Hi Hs Hl Hf; [lia|].
  pose proof (proj1 C) as V. destruct (per_pos _ V) as [Hp Hcs]. set (P := per (sbi (fs_vol t))) in *.
  cbn [find_loop]. rewrite bind_getf. pose proof (read_dir_cluster_ok t l idx C Hi) as R.
  destruct (l !! Z.to_nat idx) as [c|] eqn:Ec.
  - destruct R as (t1 & E1 & C1 & Q1). rewrite (bind_ok _ _ _ _ _ E1). cbn [fst snd].
    replace (fat_dir_entries_per_cluster t) with P by (unfold P, per, fat_dir_entries_per_cluster, fsz; done).
    rewrite (drop_S _ _ _ Ec), dir_entries_cons. fold P.
    destruct (find_in_cluster_ok (Z.to_nat P) P 0 name (cluster_data (fs_vol t) c) s (P * idx) (dir_entries (fs_vol t) (drop (S (Z.to_nat idx)) l)))
      as (v & Ev & Pv); [lia|lia|done|]. rewrite Z.mul_0_l in Ev. rewrite Z.add_0_r in Pv.
    rewrite Ev. cbn [or_panic]. rewrite bind_ret. destruct v as [|o|s'].
    + rewrite Pv. by exists t1.
    + destruct Pv as (k & Hk & -> & ->). exists t1. split; [|done]. unfold place_of. fold P.
      replace (P * idx + k) with (k + idx * P) by lia. rewrite Z.div_add, Z.mod_add, Z.div_small, Z.mod_small, Z.add_0_l by lia.
      by rewrite Ec.
    + destruct Pv as [Hs' ->]. assert (B1 : sbi (fs_vol t1) = sbi (fs_vol t)) by apply Q1.
      pose proof (lookup_lt_Some _ _ _ Ec) as Li.
      destruct (IH t1 (idx + 1) s' C1) as (t2 & E2 & C2 & Q2); [unfold zlength; lia|done|by rewrite B1|lia|].
      exists t2. split; [|split; [done|by eapply quiet_trans]]. rewrite E2. unfold place_of. rewrite B1. fold P.
      rewrite (quiet_dir_entries _ _ _ Q1). replace (Z.to_nat (idx + 1)) with (S (Z.to_nat idx)) by lia.
      by replace (P * (idx + 1)) with (P * idx + P) by lia.
  - destruct R as (t1 & e & E1 & C1 & Q1 & ->). rewrite (bind_er _ _ _ _ _ E1).
    destruct (Z.ltb_spec idx (total_clusters (sbi (fs_vol t)))); [|lia].
    apply lookup_ge_None in Ec. rewrite drop_ge by done. by exists t1.
Qed.

Lemma fat_dir_find_entry_ok t l name : chain_of t l -> zlength l < total_clusters (sbi (fs_vol t)) ->
  exists t', fat_dir_find_entry name t =
    (match item_named name (listing 0 none (dir_entries (fs_vol t) l)) with
     | Some k => Ok (place_of (fs_vol t) l k) | None => Er (- ENOENT) end, t') /\ chain_of t' l /\ quiet t t'.
Proof.
  intros C Hl. pose proof (zlength_nonneg l). unfold fat_dir_find_entry. rewrite bind_getf.
  destruct (find_loop_ok (Z.to_nat (total_clusters (sbi (fs_vol t)) + 1)) t l 0 name none C) as (t' & E & R);
    [lia|apply none_ok|done|lia|].
  exists t'. by rewrite E, Z.mul_0_r.
Qed.

(** C16: the search of a directory gives the place of the first entry in use, up
    to the end mark, that has the name as its long or as its short name, whatever
    the entries hold, and [-ENOENT] if there is none; no assertion about the long
    names fails, and only caches change. *)
Theorem fat_dir_find_entry_exact t l name : chain_of t l -> zlength l < total_clusters (sbi (fs_vol t)) ->
  exists t', fat_dir_find_entry name t =
    (match item_named name (listing 0 none (dir_entries (fs_vol t) l)) with
     | Some k => Ok (place_of (fs_vol t) l k) | None => Er (- ENOENT) end, t') /\ chain_of t' l /\ quiet t t'.
Proof. apply fat_dir_find_entry_ok. Qed.

(** ** The walk of a look-up *)

Lemma next_in_chain v c l n : Fat.geom (sbi v) -> chain v c l -> l !! n = Some (default 0 (l !! n)) ->
  match l !! S n with
  | Some y => link (sbi v) (tab v (default 0 (l !! n))) = Ok y
  | None => link (sbi v) (tab v (default 0 (l !! n))) = Er (- ENOENT)
  end.
Proof.
  intros Gm. revert c n. induction l as [|x l IH]; intros c n H E; [done|]. destruct H as (-> & Vx & H).
  destruct n as [|n].
  - cbn. destruct l as [|y l]; cbn; [by apply link_end|]. destruct H as [E2 H]. apply link_valid; [done|].
    split; [done|apply H].
  - destruct l as [|y l]; [done|]. destruct H as [_ H]. by apply (IH _ n H).
Qed.

Lemma step_chain t l i c : chain_of t l -> l !! i = Some c ->
  exists t', onvol (fat_next_cluster c) t = (match l !! S i with Some y => Ok y | None => Er (- ENOENT) end, t') /\ chain_of t' l /\ quiet t t'.
Proof.
  intros (V & H & Cc) Ec. pose proof (v_geom _ V) as Gm. destruct H as [[_ ->]|H]; [done|].
  assert (Vc : valid (sbi (fs_vol t)) c) by (eapply chain_valid; [exact H|by eapply list_elem_of_lookup_2]).
  destruct (fat_next_cluster_ok (fs_vol t) c V Vc) as (v2 & E2 & V2 & S2). exists (set_vol v2 t).
  split; [|split].
  - rewrite (onvol_ok _ _ _ _ E2). pose proof (next_in_chain (fs_vol t) _ l i Gm H ltac:(by rewrite Ec)) as Nx. rewrite Ec in Nx.
    change (default 0 (Some c)) with c in Nx. destruct (l !! S i); by rewrite Nx.
  - split_and!; [exact V2| |exact Cc]. right. eapply fchain_frame; [apply S2| |exact H]. intros; by apply same_tab.
  - split_and!; [exact S2|done|]. by destruct t as [v [] lg].
Qed.

Lemma read_chain t l c : chain_of t l -> c ∈ l ->
  onvol kmalloc t = (Ok tt, t) /\ onvol (fat_read_cluster c) t = (Ok (cluster_data (fs_vol t) c), t).
Proof.
  intros C Hc. split; [apply kmalloc_onvol, C|]. erewrite onvol_ok; [|apply read_cluster_ok; [apply C|]]; [by rewrite set_vol_id|].
  destruct C as (V & H & _). eapply chain_pos; [apply V|done|done].
Qed.

Lemma lookup_loop_ok fuel t l idx name c slow s : chain_of t l -> 0 <= idx -> l !! Z.to_nat idx = Some c -> l !! Z.to_nat (idx / 2) = Some slow ->
  scan_ok s -> zlength l - idx < Z.of_nat fuel ->
  exists t', lookup_loop fuel name c idx slow s t =
    (match item_named name (listing (per (sbi (fs_vol t)) * idx) s (dir_entries (fs_vol t) (drop (Z.to_nat idx) l))) with
     | Some k => Ok (place_of (fs_vol t) l k) | None => Er (- ENOENT) end, t') /\ chain_of t' l /\ quiet t t'.
Proof.
  revert t idx c slow s. induction fuel as [|fuel IH]; intros t idx c slow s C Hi Ec Es Hs Hf.
  { apply lookup_lt_Some in Ec. unfold zlength in *. lia. }
  pose proof C as (V & H & _). destruct (per_pos _ V) as [Hp Hcs]. set (P := per (sbi (fs_vol t))) in *.
  pose proof (lookup_lt_Some _ _ _ Ec) as Li. destruct H as [[_ ->]|H]; [done|]. pose proof (chain_length _ _ _ (v_geom _ V) H) as Lt.
  pose proof (chain_nodup _ _ _ (v_geom _ V) H) as ND.
  cbn [lookup_loop]. rewrite bind_getf. destruct (read_chain t l c C ltac:(by eapply list_elem_of_lookup_2)) as [Ek Er].
  rewrite (bind_ok _ _ _ _ _ Ek), (bind_ok _ _ _ _ _ Er).
  replace (fat_dir_entries_per_cluster t) with P by (unfold P, per, fat_dir_entries_per_cluster, fsz; done).
  rewrite (drop_S _ _ _ Ec), dir_entries_cons. fold P.
  destruct (find_in_cluster_ok (Z.to_nat P) P 0 name (cluster_data (fs_vol t) c) s (P * idx) (dir_entries (fs_vol t) (drop (S (Z.to_nat idx)) l)))
    as (v & Ev & Pv); [lia|lia|done|]. rewrite Z.mul_0_l in Ev. rewrite Z.add_0_r in Pv.
  rewrite Ev. cbn [or_panic]. rewrite bind_ret. destruct v as [|o|s'].
  - rewrite Pv. exists t. split_and!; [done|done|apply quiet_refl].
  - destruct Pv as (k & Hk & -> & ->). exists t. split; [|split; [done|apply quiet_refl]]. unfold place_of. fold P.
    replace (P * idx + k) with (k + idx * P) by lia. rewrite Z.div_add, Z.mod_add, Z.div_small, Z.mod_small, Z.add_0_l by lia.
    by rewrite Ec.
  - destruct Pv as [Hs' ->]. destruct (Z.geb_spec idx (total_clusters (sbi (fs_vol t)))); [lia|]. cbv zeta.
    destruct (step_chain t l _ c C Ec) as (t1 & E1 & C1 & Q1). destruct (l !! S (Z.to_nat idx)) as [y|] eqn:Ey.
    2:{ rewrite (bind_er _ _ _ _ _ E1). apply lookup_ge_None in Ey. rewrite (drop_ge l) by done. by exists t1. }
    rewrite (bind_ok _ _ _ _ _ E1).
    assert (Sl : exists slow' t2, (if Z.odd (idx + 1) then ret slow else onvol (fat_next_cluster slow)) t1 = (Ok slow', t2) /\
      l !! Z.to_nat ((idx + 1) / 2) = Some slow' /\ chain_of t2 l /\ quiet t1 t2).
    { pose proof (Zmod_odd (idx + 1)) as Ho. destruct (Z.odd (idx + 1)).
      - exists slow, t1. split_and!; [done| |done|apply quiet_refl]. replace ((idx + 1) / 2) with (idx / 2); [done|]. Z.div_mod_to_equations. lia.
      - destruct (step_chain t1 l _ slow C1 Es) as (t2 & E2 & C2 & Q2).
        destruct (l !! S (Z.to_nat (idx / 2))) as [z|] eqn:Ez.
        + exists z, t2. split_and!; [done| |done|done]. rewrite <- Ez. f_equal. Z.div_mod_to_equations. lia.
        + exfalso. apply lookup_ge_None in Ez. apply lookup_lt_Some in Ey. Z.div_mod_to_equations. lia. }
    destruct Sl as (slow' & t2 & E2 & Es' & C2 & Q2). rewrite (bind_ok _ _ _ _ _ E2).
    destruct (Z.eqb_spec y slow') as [->|_].
    { exfalso. pose proof (NoDup_lookup _ _ _ _ ND Ey Es'). Z.div_mod_to_equations. lia. }
    pose proof (quiet_trans _ _ _ Q1 Q2) as Q12. assert (B : sbi (fs_vol t2) = sbi (fs_vol t)) by apply Q12.
    destruct (IH t2 (idx + 1) y slow' s' C2) as (t3 & E3 & C3 & Q3); [lia|by replace (Z.to_nat (idx + 1)) with (S (Z.to_nat idx)) by lia|done|done|lia|].
    exists t3. split; [|split; [done|by eapply quiet_trans]]. rewrite E3. unfold place_of. rewrite B. fold P.
    rewrite (quiet_dir_entries _ _ _ Q12). replace (Z.to_nat (idx + 1)) with (S (Z.to_nat idx)) by lia.
    by replace (P * (idx + 1)) with (P * idx + P) by lia.
Qed.

(** looking up a name other than the two of dots, which walks the chain with
    two cursors, finds what the search of the directory finds: the inode number of
    its entry, or [-ENOENT]. *)
Theorem fat_lookup_agrees t l parent name : chain_of t l -> l <> [] -> zlength l < total_clusters (sbi (fs_vol t)) ->
  Z.land (attributes (ino t)) FAT_ATTR_DIRECTORY <> 0 -> name <> [46] -> name <> [46; 46] ->
  (fat_lookup parent name t).1 =
    match (fat_dir_find_entry name t).1 with Ok p => Ok (fat_entry_ino (sbi (fs_vol t)) p.1 p.2) | Er e => Er e end.
Proof.
  intros C Hne Hl Hd N1 N2. destruct (fat_dir_find_entry_ok t l name C Hl) as (t1 & -> & _). unfold fat_lookup. rewrite bind_getf.
  destruct (Z.eqb_spec (Z.land (attributes (ino t)) FAT_ATTR_DIRECTORY) 0); [done|].
  rewrite !bool_decide_eq_false_2 by done. pose proof C as (V & [[_ ->]|H] & _); [done|].
  destruct l as [|c l]; [done|]. pose proof H as (Ec & _). rewrite Ec.
  pose proof (chain_length _ _ _ (v_geom _ V) H).
  destruct (lookup_loop_ok (Z.to_nat (total_clusters (sbi (fs_vol t)) + 1)) t (c :: l) 0 name c c none C) as (t2 & E & C2 & Q2);
    [lia|done|done|apply none_ok|unfold zlength in *; lia|].
  change (Z.to_nat 0) with 0%nat in E. rewrite drop_0, Z.mul_0_r in E. cbv zeta. cbn [fst].
  destruct (item_named name _) as [k|]; [|by rewrite (bind_er _ _ _ _ _ E)].
  rewrite (bind_ok _ _ _ _ _ E), bind_getf. by replace (sbi (fs_vol t2)) with (sbi (fs_vol t)) by (symmetry; apply Q2).
Qed.

(** ** Listing *)

Section Deliver.
Context {D : Type} (filldir : D -> list Z -> Z -> Z -> bool -> D * bool).

Definition shown_name (x : item) : list Z :=
  match it_long x with Some l => take (Z.to_nat (len l)) (FatName.name l) | None => c_str (fat_short_name_from_entry (it_entry x)) end.
Definition is_dir (x : item) : bool := negb (Z.land (byte_at (it_entry x) 11) FAT_ATTR_DIRECTORY =? 0).

(** What the callback gets for an item; [ino] gives its inode number. *)
Definition give (ino : Z -> Z) (d : D) (x : item) : D * bool :=
  filldir d (shown_name x) ((it_index x + 1) * FAT_ENTRY_SIZE) (ino (it_index x)) (is_dir x).

(** The callback gets the items in order until it has no room for one, and the
    position then is the one behind that item; or else at the end. *)
Fixpoint deliver (ino : Z -> Z) (items : list item) (fin : Z) (d : D) : Z * D :=
  match items with
  | [] => (fin, d)
  | x :: items => let '(d, full) := give ino d x in if full : bool then ((it_index x + 1) * FAT_ENTRY_SIZE, d) else deliver ino items fin d
  end.

Lemma give_eq ino d x b l e : (if b : bool then Some l else None) = it_long x -> it_entry x = e ->
  filldir d (if b : bool then take (Z.to_nat (len l)) (FatName.name l) else c_str (fat_short_name_from_entry e))
    ((it_index x + 1) * FAT_ENTRY_SIZE) (ino (it_index x)) (negb (Z.land (byte_at e 11) FAT_ATTR_DIRECTORY =? 0)) = give ino d x.
Proof. intros El <-. unfold give, shown_name, is_dir. rewrite <- El. by destruct b. Qed.

(** The listing of the entries of one cluster. *)
Lemma list_in_cluster_ok ino sb c m n j buf s i rest d : 0 <= j -> j + Z.of_nat m = n -> scan_ok s ->
  (forall k, 0 <= k < n -> ino (i + k) = fat_entry_ino sb c (k * FAT_ENTRY_SIZE)) ->
  exists v, list_in_cluster filldir m sb c buf (i * FAT_ENTRY_SIZE) (j * FAT_ENTRY_SIZE) ((i + j) * FAT_ENTRY_SIZE) d s = Some v /\
    match v with
    | L_stop p d' => deliver ino (listing (i + j) s (entries_in n buf j ++ rest)) (end_of (i + j) (entries_in n buf j ++ rest) * FAT_ENTRY_SIZE) d = (p, d')
    | L_more p d' s' => p = (i + n) * FAT_ENTRY_SIZE /\ scan_ok s' /\
        deliver ino (listing (i + j) s (entries_in n buf j ++ rest)) (end_of (i + j) (entries_in n buf j ++ rest) * FAT_ENTRY_SIZE) d =
        deliver ino (listing (i + n) s' rest) (end_of (i + n) rest * FAT_ENTRY_SIZE) d'
    end.
Proof.
  intros Hj Hn Hs Hino. revert j s d Hj Hn Hs. induction m as [|m IH]; intros j s d Hj Hn Hs; cbn [list_in_cluster].
  - assert (j = n) as -> by lia. eexists. split; [done|]. by rewrite entries_in_nil.
  - rewrite entries_in_cons by lia. cbn [app listing end_of]. set (e := entry_at buf (j * FAT_ENTRY_SIZE)).
    replace (i * FAT_ENTRY_SIZE + j * FAT_ENTRY_SIZE) with ((i + j) * FAT_ENTRY_SIZE) by lia.
    destruct (byte_at e 0 =? 0); [by eexists|].
    replace ((i + j) * FAT_ENTRY_SIZE + FAT_ENTRY_SIZE) with ((i + (j + 1)) * FAT_ENTRY_SIZE) by lia.
    replace (j * FAT_ENTRY_SIZE + FAT_ENTRY_SIZE) with ((j + 1) * FAT_ENTRY_SIZE) by lia.
    replace (i + j + 1) with (i + (j + 1)) by lia.
    assert (Hgo : forall s' d', scan_ok s' ->
      exists v, list_in_cluster filldir m sb c buf (i * FAT_ENTRY_SIZE) ((j + 1) * FAT_ENTRY_SIZE) ((i + (j + 1)) * FAT_ENTRY_SIZE) d' s' = Some v /\
      match v with
      | L_stop p d2 => deliver ino (listing (i + (j + 1)) s' (entries_in n buf (j + 1) ++ rest)) (end_of (i + (j + 1)) (entries_in n buf (j + 1) ++ rest) * FAT_ENTRY_SIZE) d' = (p, d2)
      | L_more p d2 s2 => p = (i + n) * FAT_ENTRY_SIZE /\ scan_ok s2 /\
          deliver ino (listing (i + (j + 1)) s' (entries_in n buf (j + 1) ++ rest)) (end_of (i + (j + 1)) (entries_in n buf (j + 1) ++ rest) * FAT_ENTRY_SIZE) d' =
          deliver ino (listing (i + n) s2 rest) (end_of (i + n) rest * FAT_ENTRY_SIZE) d2
      end).
    { intros s' d' Hs'. apply IH; (done || lia). }
    destruct (byte_at e 0 =? 0xe5); [apply Hgo, none_ok|].
    destruct (byte_at e 11 =? FAT_ATTR_LFN).
    { destruct (lfn_step_ok s e Hs) as (s' & -> & Hs'). cbn [option_bind mbind default]. by apply Hgo. }
    destruct (is_volume_id e); [apply Hgo, none_ok|].
    destruct (lfn_ok_ok s e Hs) as (b & l & -> & _ & El). cbn [option_bind mbind fst snd deliver].
    rewrite <- (Hino j) by lia. replace (i + (j + 1)) with (i + j + 1) by lia.
    pose proof (give_eq ino d (mkitem (i + j) (long_of s e) e) b l e El eq_refl) as Gv. cbn [it_index] in Gv. rewrite Gv. cbn [it_index].
    destruct (give ino d (mkitem (i + j) (long_of s e) e)) as [d' [|]]; [by eexists|].
    replace (i + j + 1) with (i + (j + 1)) by lia. apply Hgo, none_ok.
Qed.

Definition ino_of (v : vol) (l : list Z) (k : Z) : Z := let '(c, o) := place_of v l k in fat_entry_ino (sbi v) c o.

Lemma quiet_ino_of t t' l : quiet t t' -> ino_of (fs_vol t') l = ino_of (fs_vol t) l.
Proof. intros Q. unfold ino_of, place_of. by replace (sbi (fs_vol t')) with (sbi (fs_vol t)) by (symmetry; apply Q). Qed.

Lemma ino_of_at v l idx c k : 0 <= idx -> l !! Z.to_nat idx = Some c -> 0 <= k < per (sbi v) ->
  ino_of v l (per (sbi v) * idx + k) = fat_entry_ino (sbi v) c (k * FAT_ENTRY_SIZE).
Proof.
  intros Hi Ec Hk. unfold ino_of, place_of. replace (per (sbi v) * idx + k) with (k + idx * per (sbi v)) by lia.
  rewrite Z.div_add, Z.mod_add, Z.div_small, Z.mod_small, Z.add_0_l by lia. by rewrite Ec.
Qed.
End Deliver.

Lemma drop_entries_in n buf j rest : 0 <= j <= n -> drop (Z.to_nat j) (entries_in n buf 0 ++ rest) = entries_in n buf j ++ rest.
Proof.
  intros H. rewrite drop_app. assert (L : length (entries_in n buf 0) = Z.to_nat n) by (unfold entries_in; rewrite length_map, length_seqZ; f_equal; lia).
  rewrite L. replace (Z.to_nat j - Z.to_nat n)%nat with 0%nat by lia. rewrite drop_0. f_equal.
  unfold entries_in. rewrite skipn_map. f_equal.
  replace (n - 0) with (j + (n - j)) by lia. rewrite seqZ_app by lia. rewrite drop_app, (drop_ge (seqZ 0 j)) by (rewrite length_seqZ; lia).
  rewrite length_seqZ, Nat.sub_diag, drop_0. cbn [app]. by rewrite Z.add_0_l.
Qed.

Section ReaddirOk.
Context {D : Type} (filldir : D -> list Z -> Z -> Z -> bool -> D * bool).

Lemma readdir_loop_ok fuel t l idx j s d : chain_of t l -> 0 <= idx < 2 ^ 32 - 1 -> 0 <= j < per (sbi (fs_vol t)) -> scan_ok s ->
  zlength l - idx < Z.of_nat fuel -> (0 < fuel)%nat ->
  let P := per (sbi (fs_vol t)) in let pos := P * idx + j in
  let es := drop (Z.to_nat j) (dir_entries (fs_vol t) (drop (Z.to_nat idx) l)) in
  exists t', readdir_loop filldir fuel (pos * FAT_ENTRY_SIZE) (pos * FAT_ENTRY_SIZE) d s t =
      (Ok (deliver filldir (ino_of (fs_vol t) l) (listing pos s es) (end_of pos es * FAT_ENTRY_SIZE) d), t') /\ chain_of t' l /\ quiet t t'.
Proof.
  revert t idx j s d. induction fuel as [|fuel IH]; intros t idx j s d C Hi Hj Hs Hf Hf0; [lia|]. cbv zeta.
  pose proof C as (V & H & _). pose proof (v_geom _ V) as Gm. destruct (per_pos _ V) as [Hp Hcs]. fold (fsz t) in Hcs.
  set (P := per (sbi (fs_vol t))) in *. destruct (chain_cap _ _ _ Gm H) as [_ Cap].
  set (pos := P * idx + j). cbn [readdir_loop]. rewrite bind_getf. cbv zeta.
  assert (Ediv : pos * FAT_ENTRY_SIZE / fsz t = idx).
  { rewrite Hcs, Z.div_mul_cancel_r by (unfold FAT_ENTRY_SIZE; lia). unfold pos. replace (P * idx + j) with (j + idx * P) by lia.
    rewrite Z.div_add, Z.div_small by lia. lia. }
  assert (Emod : (pos * FAT_ENTRY_SIZE) mod fsz t = j * FAT_ENTRY_SIZE).
  { rewrite Hcs, Z.mul_mod_distr_r by (unfold FAT_ENTRY_SIZE; lia). f_equal. unfold pos. replace (P * idx + j) with (j + idx * P) by lia.
    rewrite Z.mod_add, Z.mod_small by lia. lia. }
  rewrite Ediv, Emod, (u32_small idx) by lia.
  destruct (cluster_at_ok t l idx C ltac:(lia)) as (t1 & E1 & C1 & Q1). rewrite (bind_ok _ _ _ _ _ E1).
  destruct (l !! Z.to_nat idx) as [c|] eqn:Ec.
  2:{ change (default 0 None =? 0) with true. cbv iota. apply lookup_ge_None in Ec. rewrite (drop_ge l) by done.
      change (dir_entries (fs_vol t) []) with (@nil (list Z)). rewrite drop_nil. by exists t1. }
  change (default 0 (Some c)) with c.
  assert (Vc : valid (sbi (fs_vol t)) c) by (eapply chain_pos; [done|done|by eapply list_elem_of_lookup_2]).
  pose proof (valid_range _ _ Gm Vc). destruct (Z.eqb_spec c 0); [lia|].
  pose proof (lookup_lt_Some _ _ _ Ec) as Li.
  destruct H as [[_ ->]|H]; [done|]. pose proof (chain_length _ _ _ Gm H) as Lt.
  destruct (Z.geb_spec idx (total_clusters (sbi (fs_vol t)))); [lia|].
  assert (B1 : sbi (fs_vol t1) = sbi (fs_vol t)) by apply Q1.
  rewrite (bind_ok _ _ _ _ _ (kmalloc_onvol t1 (proj1 C1))).
  assert (Rd : onvol (fat_read_cluster c) t1 = (Ok (cluster_data (fs_vol t) c), t1)).
  { erewrite onvol_ok; [|apply read_cluster_ok; [apply C1|by rewrite B1]]. by rewrite set_vol_id, (quiet_data _ _ _ Q1). }
  rewrite (bind_ok _ _ _ _ _ Rd). fold (fsz t).
  assert (Efuel : (fsz t - j * FAT_ENTRY_SIZE + 31) / FAT_ENTRY_SIZE = P - j).
  { rewrite Hcs. unfold FAT_ENTRY_SIZE. replace (P * 32 - j * 32 + 31) with (31 + (P - j) * 32) by lia. rewrite Z.div_add by lia. done. }
  rewrite Efuel. replace (idx * fsz t) with (P * idx * FAT_ENTRY_SIZE) by (rewrite Hcs; lia).
  rewrite (drop_S _ _ _ Ec), dir_entries_cons. fold P. rewrite drop_entries_in by lia.
  destruct (list_in_cluster_ok filldir (ino_of (fs_vol t) l) (sbi (fs_vol t)) c (Z.to_nat (P - j)) P j (cluster_data (fs_vol t) c) s
    (P * idx) (dir_entries (fs_vol t) (drop (S (Z.to_nat idx)) l)) d) as (v & Ev & Pv); [lia|lia|done| |].
  { intros k Hk. by apply ino_of_at; [lia|..]. }
  fold pos in Ev, Pv. rewrite Ev. cbn [or_panic]. rewrite bind_ret. destruct v as [p d'|p d' s'].
  - rewrite Pv. by exists t1.
  - destruct Pv as (-> & Hs' & ->).
    destruct (step_chain t1 l _ c C1 Ec) as (t2 & E2 & C2 & Q2). rewrite (bind_try _ _ _ _ _ E2).
    pose proof (quiet_trans _ _ _ Q1 Q2) as Q12. assert (B2 : sbi (fs_vol t2) = sbi (fs_vol t)) by apply Q12.
    destruct (l !! S (Z.to_nat idx)) as [y|] eqn:Ey.
    + pose proof (lookup_lt_Some _ _ _ Ey) as Ly.
      rewrite (u32_small (idx + 1)) by lia. replace ((idx + 1) * fsz t) with ((P * (idx + 1) + 0) * FAT_ENTRY_SIZE) by (rewrite Hcs; lia).
      replace ((P * idx + P) * FAT_ENTRY_SIZE) with ((P * (idx + 1) + 0) * FAT_ENTRY_SIZE) by lia.
      destruct (IH t2 (idx + 1) 0 s' d' C2) as (t3 & E3 & C3 & Q3); [unfold zlength in *; lia|rewrite B2; fold P; lia|done|lia|unfold zlength in *; lia|].
      rewrite B2 in E3. fold P in E3. change (Z.to_nat 0) with 0%nat in E3. rewrite drop_0 in E3.
      exists t3. split; [|split; [done|by eapply quiet_trans]]. rewrite E3, (quiet_dir_entries _ _ _ Q12), (quiet_ino_of _ _ _ Q12), Z.add_0_r.
      replace (Z.to_nat (idx + 1)) with (S (Z.to_nat idx)) by lia. by replace (P * (idx + 1)) with (P * idx + P) by lia.
    + change (- ENOENT =? - ENOENT) with true. cbv iota. apply lookup_ge_None in Ey. rewrite drop_ge by done.
      by exists t2.
Qed.

(** reading a directory from an entry on that no long name spans gives the
    callback the entries in use from there on, in order, with their long name if
    they have a valid one, their position and their inode number.  When the
    callback has no room for an entry the position is the one behind that entry:
    the next call does not give it. *)
Theorem fat_readdir_exact t l pos d : chain_of t l -> 0 <= pos < 2 ^ 32 ->
  let es := drop (Z.to_nat pos) (dir_entries (fs_vol t) l) in
  exists t', fat_readdir filldir (pos * FAT_ENTRY_SIZE) d t =
    (Ok (deliver filldir (ino_of (fs_vol t) l) (listing pos none es) (end_of pos es * FAT_ENTRY_SIZE) d), t') /\ chain_of t' l /\ quiet t t'.
Proof.
  intros C Hpos. pose proof C as (V & H & _). destruct (per_pos _ V) as [Hp Hcs]. set (P := per (sbi (fs_vol t))) in *.
  pose proof (Z.div_mod pos P ltac:(lia)) as Dm. pose proof (Z.mod_pos_bound pos P ltac:(lia)). pose proof (Z.div_pos pos P ltac:(lia) ltac:(lia)).
  pose proof (g_clusters _ (v_geom _ V)). assert (Lt : zlength l <= total_clusters (sbi (fs_vol t))).
  { destruct H as [[_ ->]|H]; [unfold zlength; cbn; lia|eapply chain_length; [apply V|done]]. }
  cbv zeta. unfold fat_readdir. rewrite bind_getf.
  destruct (readdir_loop_ok (Z.to_nat (total_clusters (sbi (fs_vol t)) + 1)) t l (pos / P) (pos mod P) none d C) as (t' & E & R);
    [nia|fold P; lia|apply none_ok|lia|lia|].
  exists t'. split; [|done]. fold P in E. rewrite <- Dm in E. rewrite E.
  assert (Ed : drop (Z.to_nat pos) (dir_entries (fs_vol t) l) = drop (Z.to_nat (pos mod P)) (dir_entries (fs_vol t) (drop (Z.to_nat (pos / P)) l))).
  { replace (Z.to_nat pos) with (Z.to_nat (pos / P) * Z.to_nat P + Z.to_nat (pos mod P))%nat by nia.
    rewrite <- drop_drop. f_equal. generalize (Z.to_nat (pos / P)) as k. clear -Hp. intros k. revert l. induction k as [|k IH]; intros l; [done|].
    destruct l as [|c l]; [change (dir_entries (fs_vol t) []) with (@nil (list Z)); by rewrite !drop_nil|]. rewrite dir_entries_cons. cbn [drop]. rewrite <- IH.
    replace (S k * Z.to_nat P)%nat with (Z.to_nat P + k * Z.to_nat P)%nat by lia. rewrite <- drop_drop. f_equal.
    rewrite drop_entries_in by lia. fold P. by rewrite entries_in_nil. }
  by rewrite Ed.
Qed.
End ReaddirOk.

(** ** Runs on the small volume *)

(** A directory of one cluster with the entries [es]; the clusters from 3 on are
    free. *)
Definition dir_vol (es : list (list Z)) : vol :=
  wit_vol [FAT_EOC_MAX; 0; 0; 0; 0; 0; 0; 0] (fun x => if x =? 4 then take 512 (concat es ++ replicate 512 0) else replicate 512 0) 2 7.
Definition dir_st (es : list (list Z)) : st :=
  mkst (dir_vol es) (mkinode 1 false 0 0 0 0 0 false 0 0 FAT_ATTR_DIRECTORY (mkfi 2 0 0 0 false)) [].
Definition file_entry (i : Z) : list Z := fat_make_short_entry (70 :: (65 + i) :: replicate 9 32) FAT_ATTR_ARCHIVE 0 0 0.


Lemma u8_by_computation b : forallb (fun c => (0 <=? c) && (c <? 2 ^ 8)) b = true -> Forall is_u8 b.
Proof.
  intros H. apply Forall_forall. intros c Hc. rewrite forallb_forall in H. apply list_elem_of_In in Hc. specialize (H c Hc).
  apply andb_true_iff in H as [H1%Z.leb_le H2%Z.ltb_lt]. by split.
Qed.

Lemma dir_vol_ok es : Forall (fun e => Forall is_u8 e) es -> vol_ok (dir_vol es).
Proof.
  intros H. apply wit_vol_ok; [unfold FAT_EOC_MAX; repeat constructor; lia|]. intros x.
  assert (Z : Forall is_u8 (replicate 512 0)) by (by apply Forall_replicate).
  destruct (x =? 4); [|by split]. split; [rewrite length_take, length_app, length_replicate; lia|].
  apply Forall_take, Forall_app. split; [by apply Forall_concat|done].
Qed.

Lemma dir_st_chain es : Forall (fun e => Forall is_u8 e) es -> chain_of (dir_st es) [2].
Proof.
  intros H. split_and!; [by apply dir_vol_ok| |done]. right. cbn -[tab]. split_and!; [done|unfold valid; cbn; lia|].
  vm_compute. congruence.
Qed.

(** Three files, [FA], [FB] and [FC]. *)
Definition three : list (list Z) := map file_entry [0; 1; 2].
Lemma three_u8 : Forall (fun e => Forall is_u8 e) three.
Proof. unfold three. cbn [map]. do 3 (apply Forall_cons; split; [by apply u8_by_computation|]). done. Qed.

Lemma fat_dir_find_entry_exact_witness :
  (exists t', fat_dir_find_entry [102; 98] (dir_st three) = (Ok (2, 32), t') /\ chain_of t' [2] /\ quiet (dir_st three) t') /\
  exists t', fat_dir_find_entry [102; 100] (dir_st three) = (Er (- ENOENT), t') /\ chain_of t' [2] /\ quiet (dir_st three) t'.
Proof.
  split.
  - destruct (fat_dir_find_entry_exact (dir_st three) [2] [102; 98] (dir_st_chain _ three_u8)) as (t' & E & R); [done|].
    exists t'. split; [|exact R]. rewrite E. by vm_compute.
  - destruct (fat_dir_find_entry_exact (dir_st three) [2] [102; 100] (dir_st_chain _ three_u8)) as (t' & E & R); [done|].
    exists t'. split; [|exact R]. rewrite E. by vm_compute.
Defined.

(** A callback with room for [n] names. *)
Definition room (d : nat * list (list Z)) (name : list Z) (pos ino : Z) (dir : bool) : (nat * list (list Z)) * bool :=
  match d.1 with O => (d, true) | S n => ((n, d.2 ++ [name]), false) end.

Lemma fat_lookup_agrees_witness : (fat_lookup 0 [102; 98] (dir_st three)).1 = Ok (fat_entry_ino wit_sbi 2 32).
Proof.
  transitivity (match (fat_dir_find_entry [102; 98] (dir_st three)).1 with Ok p => Ok (fat_entry_ino wit_sbi p.1 p.2) | Er e => Er e end);
    [|by vm_compute].
  apply (fat_lookup_agrees (dir_st three) [2]); [apply dir_st_chain, three_u8|done..].
Defined.

Lemma fat_readdir_exact_witness :
  exists t', fat_readdir room (1 * FAT_ENTRY_SIZE) (5%nat, []) (dir_st three) = (Ok (96, (3%nat, [[70; 66]; [70; 67]])), t') /\
    chain_of t' [2] /\ quiet (dir_st three) t'.
Proof.
  destruct (fat_readdir_exact room (dir_st three) [2] 1 (5%nat, []) (dir_st_chain _ three_u8)) as (t' & E & R); [lia|].
  exists t'. split; [|exact R]. rewrite E. by vm_compute.
Defined.

(** a caller with room for one name that calls again from where the last
    call stopped gets the first name, the third, and then none: the name that had
    no room is passed over. *)
Theorem readdir_skips_refused_name :
  let call pos := (fat_readdir room pos (1%nat, []) (dir_st three)).1 in
  call 0 = Ok (64, (0%nat, [[70; 65]])) /\ call 64 = Ok (96, (0%nat, [[70; 67]])) /\ call 96 = Ok (96, (1%nat, [])).
Proof. vm_compute. done. Qed.
End FatDir.
