(* ===== verification/FatDirOps.v ===== *)
(** * FAT32: changes of a directory ([fs/fat/dir.c])

    New entries, in a free slot or in a run of free slots for a long name,
    deletion, and the calls on names.  The inode cache is left out: a call gives
    the number of the inode that the code then looks up, and removal of a
    directory reads it as [fat_read_inode] does.  A loop of the code that has no
    bound gives [HANG] when it goes around a chain that does not end. *)
From S2P Require Import Prelude Ext2 Fat FatFile FatName FatDir.
Import Ext2 Fat FatFile FatName FatDir.

Module FatDirOps.

Definition HANG : Z := 2.
Definition EBUSY : Z := 16.
Definition EEXIST : Z := 17.
Definition EISDIR : Z := 21.
Definition ENOTEMPTY : Z := 39.

Definition zeros (n : Z) : list Z := replicate (Z.to_nat n) 0.

Definition fat_entry_first_cluster (entry : list Z) : Z := Z.lor (u32 (Z.shiftl (fat_read16 entry 20) 16)) (fat_read16 entry 26).
Definition fat_entry_size (entry : list Z) : Z := fat_read32 entry 28.

(** ** The chain of the directory *)

Fixpoint last_loop (fuel : nat) (cluster prev : Z) : F Z :=
  match fuel with
  | O => ret prev
  | S fuel =>
    if cluster =? 0 then ret prev else
    r <~ try (fat_next_cluster cluster) ;;
    match r with
    | Ok next => last_loop fuel next cluster
    | Er e => if e =? - ENOENT then ret cluster else fail e
    end
  end.

Definition fat_dir_last_cluster : G Z :=
  t <~ getf ;;
  let cluster := start_cluster (fi (ino t)) in
  if cluster =? 0 then fail (- ENOENT) else
  prev <~ onvol (last_loop (Z.to_nat (total_clusters (sbi (fs_vol t)))) cluster 0) ;;
  if prev =? 0 then fail (- ENOENT) else ret prev.

Fixpoint index_loop (fuel : nat) (cur cluster index : Z) : F Z :=
  match fuel with
  | O => fail (- ENOENT)
  | S fuel =>
    if cur =? 0 then fail (- ENOENT) else
    if cur =? cluster then ret index else
    next <~ fat_next_cluster cur ;; index_loop fuel next cluster (index + 1)
  end.
Definition fat_dir_cluster_index (cluster : Z) : G Z :=
  t <~ getf ;; onvol (index_loop (Z.to_nat (total_clusters (sbi (fs_vol t)))) (start_cluster (fi (ino t))) cluster 0).

Fixpoint prev_loop (fuel : nat) (cur cluster prev : Z) : F Z :=
  match fuel with
  | O => fail (- ENOENT)
  | S fuel =>
    if cur =? 0 then fail (- ENOENT) else
    if cur =? cluster then if prev =? 0 then fail (- ENOENT) else ret prev else
    next <~ fat_next_cluster cur ;; prev_loop fuel next cluster cur
  end.
Definition fat_dir_prev_cluster (cluster : Z) : G Z :=
  t <~ getf ;; onvol (prev_loop (Z.to_nat (total_clusters (sbi (fs_vol t)))) (start_cluster (fi (ino t))) cluster 0).

(** ** Short names in use *)

Definition is_free (first : Z) : bool := (first =? 0) || (first =? 0xe5).
Definition is_short (e : list Z) : bool := negb (byte_at e 11 =? FAT_ATTR_LFN) && negb (is_volume_id e).

(** [Some true]: found; [Some false]: the end mark. *)
Fixpoint exists_in_cluster (fuel : nat) (short_name buf : list Z) (offset : Z) : option bool :=
  match fuel with
  | O => None
  | S fuel =>
    let entry := entry_at buf offset in
    if byte_at entry 0 =? 0 then Some false else
    if (byte_at entry 0 =? 0xe5) || negb (is_short entry) then exists_in_cluster fuel short_name buf (offset + FAT_ENTRY_SIZE) else
    if fat_short_name_equal entry short_name then Some true else exists_in_cluster fuel short_name buf (offset + FAT_ENTRY_SIZE)
  end.

Fixpoint exists_loop (fuel : nat) (short_name : list Z) (cluster_index : Z) : G bool :=
  match fuel with
  | O => fail (- EIO)
  | S fuel =>
    t <~ getf ;;
    r <~ try (fat_read_dir_cluster cluster_index) ;;
    match r with
    | Er e => if e =? - ENOENT then ret false else fail e
    | Ok (_, buf) =>
      match exists_in_cluster (Z.to_nat (fat_dir_entries_per_cluster t)) short_name buf 0 with
      | Some b => ret b
      | None => exists_loop fuel short_name (cluster_index + 1)
      end
    end
  end.
(** Always called with no entry to skip. *)
Definition fat_dir_short_name_exists (short_name : list Z) : G bool :=
  t <~ getf ;; exists_loop (Z.to_nat (total_clusters (sbi (fs_vol t)) + 1)) short_name 0.

(** ** Free slots *)

Fixpoint free_in_cluster (fuel : nat) (buf : list Z) (offset : Z) : option (Z * bool) :=
  match fuel with
  | O => None
  | S fuel =>
    if is_free (byte_at buf offset) then Some (offset, byte_at buf offset =? 0)
    else free_in_cluster fuel buf (offset + FAT_ENTRY_SIZE)
  end.

(** One more cluster, of zeros. *)
Definition dir_expand (previous : Z) : G (Z * Z * bool) :=
  t <~ getf ;;
  cluster <~ onvol (fat_alloc_cluster previous) ;;
  onvol kmalloc ;~
  r <~ try (onvol (fat_write_cluster cluster (zeros (fsz t)))) ;;
  match r with
  | Ok _ => ret (cluster, 0, true)
  | Er e => try (onvol (fat_free_cluster_chain cluster)) ;~ fail e
  end.

Fixpoint free_loop (fuel : nat) (cluster_index previous : Z) : G (Z * Z * bool) :=
  match fuel with
  | O => fail (- EIO)
  | S fuel =>
    t <~ getf ;;
    r <~ try (fat_read_dir_cluster cluster_index) ;;
    match r with
    | Er e => if e =? - ENOENT then dir_expand previous else fail e
    | Ok (cluster, buf) =>
      match free_in_cluster (Z.to_nat (fat_dir_entries_per_cluster t)) buf 0 with
      | Some (offset, end_marker) => ret (cluster, offset, end_marker)
      | None => free_loop fuel (cluster_index + 1) cluster
      end
    end
  end.
Definition fat_dir_find_free : G (Z * Z * bool) :=
  t <~ getf ;; free_loop (Z.to_nat (total_clusters (sbi (fs_vol t)) + 1)) 0 0.

Definition fat_write_entry_at (cluster offset : Z) (entry : list Z) (end_marker : bool) : G unit :=
  t <~ getf ;;
  onvol kmalloc ;~
  buf <~ onvol (fat_read_cluster cluster) ;;
  let buf := memcpy_at buf offset entry FAT_ENTRY_SIZE in
  let buf := if end_marker && (offset + FAT_ENTRY_SIZE <? fsz t) then <[Z.to_nat (offset + FAT_ENTRY_SIZE) := 0]> buf else buf in
  onvol (fat_write_cluster cluster buf).

Fixpoint run_in_cluster (fuel : nat) (slots : Z) (buf : list Z) (offset run run_start : Z) : option (Z * bool) :=
  match fuel with
  | O => None
  | S fuel =>
    let first := byte_at buf offset in
    if is_free first then
      let run_start := if run =? 0 then offset else run_start in
      if run + 1 =? slots then Some (run_start, first =? 0)
      else run_in_cluster fuel slots buf (offset + FAT_ENTRY_SIZE) (run + 1) run_start
    else run_in_cluster fuel slots buf (offset + FAT_ENTRY_SIZE) 0 0
  end.

Fixpoint run_loop (fuel : nat) (slots cluster_index : Z) : G (option (Z * Z * bool)) :=
  match fuel with
  | O => fail (- EIO)
  | S fuel =>
    t <~ getf ;;
    r <~ try (fat_read_dir_cluster cluster_index) ;;
    match r with
    | Er e => if e =? - ENOENT then ret None else fail e
    | Ok (cluster, buf) =>
      match run_in_cluster (Z.to_nat (fat_dir_entries_per_cluster t)) slots buf 0 0 0 with
      | Some (offset, end_marker) => ret (Some (cluster, offset, end_marker))
      | None => run_loop fuel slots (cluster_index + 1)
      end
    end
  end.

Fixpoint grow_loop (need : nat) (cs previous first_new : Z) : F Z :=
  match need with
  | O => ret first_new
  | S need =>
    cluster <~ fat_alloc_cluster previous ;;
    let first_new := if first_new =? 0 then cluster else first_new in
    r <~ try (fat_write_cluster cluster (zeros cs)) ;;
    match r with
    | Ok _ => grow_loop need cs cluster first_new
    | Er e => try (fat_free_cluster_chain first_new) ;~ fail e
    end
  end.

Definition fat_dir_find_free_run (slots : Z) : G (Z * Z * bool) :=
  t <~ getf ;;
  let per := fat_dir_entries_per_cluster t in
  r <~ (if slots <=? per then run_loop (Z.to_nat (total_clusters (sbi (fs_vol t)) + 1)) slots 0 else ret None) ;;
  match r with
  | Some x => ret x
  | None =>
    let need := (slots + per - 1) / per in
    l <~ try fat_dir_last_cluster ;;
    previous <~ (match l with Ok last => ret last | Er e => if e =? - ENOENT then ret 0 else fail e end) ;;
    onvol kmalloc ;~
    first_new <~ onvol (grow_loop (Z.to_nat need) (fsz t) previous 0) ;;
    ret (first_new, 0, slots * FAT_ENTRY_SIZE <? need * fsz t)
  end.

(** The entries of a cluster up to the target, if it is in this one: what is
    changed there is not written back then. *)
Fixpoint clear_in_cluster (fuel : nat) (is_target : bool) (target_offset : Z) (buf : list Z) (offset : Z) (changed : bool) : option (list Z * bool) :=
  match fuel with
  | O => Some (buf, changed)
  | S fuel =>
    if is_target && (offset =? target_offset) then None else
    let zero := byte_at buf offset =? 0 in
    clear_in_cluster fuel is_target target_offset (if zero then <[Z.to_nat offset := 0xe5]> buf else buf) (offset + FAT_ENTRY_SIZE) (changed || zero)
  end.

Fixpoint clear_loop (fuel : nat) (per cur target_cluster target_offset : Z) : F unit :=
  if cur =? 0 then fail (- ENOENT) else
  match fuel with
  | O => fail HANG
  | S fuel =>
    kmalloc ;~
    buf <~ fat_read_cluster cur ;;
    match clear_in_cluster (Z.to_nat per) (cur =? target_cluster) target_offset buf 0 false with
    | None => ret tt
    | Some (buf, changed) =>
      (if changed : bool then fat_write_cluster cur buf else ret tt) ;~
      next <~ fat_next_cluster cur ;;
      clear_loop fuel per next target_cluster target_offset
    end
  end.
Definition fat_dir_clear_end_markers_before (target_cluster target_offset : Z) : G unit :=
  t <~ getf ;;
  onvol (clear_loop (Z.to_nat (total_clusters (sbi (fs_vol t)) + 1)) (fat_dir_entries_per_cluster t) (start_cluster (fi (ino t))) target_cluster target_offset).

(** ** New entries *)

Definition fat_add_entry (short_name : list Z) (attributes start_cluster size now : Z) : G Z :=
  b <~ fat_dir_short_name_exists short_name ;;
  if b : bool then fail (- EEXIST) else
  r <~ fat_dir_find_free ;;
  let '(cluster, offset, end_marker) := r in
  fat_write_entry_at cluster offset (fat_make_short_entry short_name attributes start_cluster size now) end_marker ;~
  t <~ getf ;; ret (fat_entry_ino (sbi (fs_vol t)) cluster offset).

Fixpoint alias_loop (fuel : nat) (base ext : list Z) (n : Z) : G (list Z) :=
  match fuel with
  | O => fail (- EEXIST)
  | S fuel =>
    let short_name := alias base ext n in
    b <~ fat_dir_short_name_exists short_name ;;
    if b : bool then alias_loop fuel base ext (n + 1) else ret short_name
  end.
Definition fat_short_alias (name : list Z) : G (list Z) := let '(base, ext) := alias_base name in alias_loop (Z.to_nat 9999) base ext 1.

Definition bad_name_char (c : Z) : bool := (c <? 0x20) || bool_decide (c ∈ [47; 92; 58; 42; 63; 34; 60; 62; 124]).

(** The entries, one after the other; the place of the last. *)
Fixpoint write_run (entries : list (list Z)) (cluster offset : Z) (end_marker : bool) : G (Z * Z) :=
  match entries with
  | [] => ret (0, 0)
  | e :: entries =>
    t <~ getf ;;
    fat_write_entry_at cluster offset e (match entries with [] => end_marker | _ => false end) ;~
    next <~ (if offset + FAT_ENTRY_SIZE >=? fsz t then next <~ onvol (fat_next_cluster cluster) ;; ret (next, 0)
             else ret (cluster, offset + FAT_ENTRY_SIZE)) ;;
    match entries with [] => ret (cluster, offset) | _ => write_run entries next.1 next.2 end_marker end
  end.

Definition fat_add_entry_name (name : list Z) (attributes start_cluster size now : Z) : G Z :=
  if (zlength name <? 1) || (zlength name >? 255) then fail (- ENAMETOOLONG) else
  if existsb bad_name_char name then fail (- EINVAL) else
  f <~ try (fat_dir_find_entry name) ;;
  (match f with Ok _ => fail (- EEXIST) | Er e => if e =? - ENOENT then ret tt else fail e end) ;~
  match fat_name_to_short name with
  | Ok short_name => fat_add_entry short_name attributes start_cluster size now
  | Er _ =>
    short_name <~ fat_short_alias name ;;
    onvol kmalloc ;~
    let entries := lfn_entries name (fat_short_name_checksum short_name) ++ [fat_make_short_entry short_name attributes start_cluster size now] in
    r <~ fat_dir_find_free_run (lfn_slots name + 1) ;;
    let '(cluster, offset, end_marker) := r in
    fat_dir_clear_end_markers_before cluster offset ;~
    p <~ write_run entries cluster offset end_marker ;;
    t <~ getf ;; ret (fat_entry_ino (sbi (fs_vol t)) p.1 p.2)
  end.

(** ** Deletion *)

Definition is_lfn_slot (buf : list Z) (check : Z) : bool :=
  negb (byte_at buf check =? 0xe5) && (byte_at buf (check + 11) =? FAT_ATTR_LFN).

(** Back over the entries of the long name. *)
Fixpoint first_loop (fuel : nat) (cluster offset index : Z) : G (Z * Z) :=
  match fuel with
  | O => fail HANG
  | S fuel =>
    t <~ getf ;;
    onvol kmalloc ;~
    buf <~ onvol (fat_read_cluster cluster) ;;
    if offset =? 0 then
      if index =? 0 then ret (cluster, offset) else
      prev <~ fat_dir_prev_cluster cluster ;;
      onvol kmalloc ;~
      buf <~ onvol (fat_read_cluster prev) ;;
      let check := fsz t - FAT_ENTRY_SIZE in
      if is_lfn_slot buf check then first_loop fuel prev check (index - 1) else ret (cluster, offset)
    else
      let check := offset - FAT_ENTRY_SIZE in
      if is_lfn_slot buf check then first_loop fuel cluster check index else ret (cluster, offset)
  end.

(** The marks of one cluster from an offset on, to the entry itself if it is here. *)
Fixpoint mark_in_cluster (fuel : nat) (is_last : bool) (last_offset : Z) (buf : list Z) (offset : Z) (changed : bool) : list Z * bool * bool :=
  match fuel with
  | O => (buf, changed, false)
  | S fuel =>
    if is_last && (offset =? last_offset) then (<[Z.to_nat offset := 0xe5]> buf, true, true)
    else if byte_at buf offset =? 0xe5 then mark_in_cluster fuel is_last last_offset buf (offset + FAT_ENTRY_SIZE) changed
    else mark_in_cluster fuel is_last last_offset (<[Z.to_nat offset := 0xe5]> buf) (offset + FAT_ENTRY_SIZE) true
  end.

Fixpoint mark_loop (fuel : nat) (cs cur offset cluster last_offset : Z) : F unit :=
  match fuel with
  | O => fail HANG
  | S fuel =>
    kmalloc ;~
    buf <~ fat_read_cluster cur ;;
    let '(buf, changed, done_) := mark_in_cluster (Z.to_nat ((cs - offset) / FAT_ENTRY_SIZE)) (cur =? cluster) last_offset buf offset false in
    if done_ : bool then fat_write_cluster cur buf else
    (if changed : bool then fat_write_cluster cur buf else ret tt) ;~
    next <~ fat_next_cluster cur ;; mark_loop fuel cs next 0 cluster last_offset
  end.

Definition fat_delete_entry_at (cluster offset : Z) : G unit :=
  t <~ getf ;;
  index <~ fat_dir_cluster_index cluster ;;
  f <~ first_loop (Z.to_nat ((index + 1) * fat_dir_entries_per_cluster t + 1)) cluster offset index ;;
  onvol (mark_loop (Z.to_nat (total_clusters (sbi (fs_vol t)) + 1)) (fsz t) f.1 f.2 cluster offset).

Definition fat_read_entry_at (cluster offset : Z) : G (list Z) :=
  onvol kmalloc ;~ buf <~ onvol (fat_read_cluster cluster) ;; ret (entry_at buf offset).

Definition fat_update_dotdot (parent_cluster : Z) : G unit :=
  t <~ getf ;;
  let c := start_cluster (fi (ino t)) in
  if c =? 0 then fail (- EINVAL) else
  onvol kmalloc ;~
  buf <~ onvol (fat_read_cluster c) ;;
  if negb (byte_at buf 32 =? 46) || negb (byte_at buf 33 =? 46) || (Z.land (byte_at buf 43) FAT_ATTR_DIRECTORY =? 0) then fail (- EIO) else
  onvol (fat_write_cluster c (fat_write16 (fat_write16 buf 52 (Z.shiftr parent_cluster 16)) 58 parent_cluster)).

Definition is_dot (e : list Z) : bool :=
  (byte_at e 0 =? 46) && ((byte_at e 1 =? 32) || ((byte_at e 1 =? 46) && (byte_at e 2 =? 32))).

Fixpoint empty_in_cluster (fuel : nat) (buf : list Z) (offset : Z) : option bool :=
  match fuel with
  | O => None
  | S fuel =>
    let entry := entry_at buf offset in
    if byte_at entry 0 =? 0 then Some true else
    if (byte_at entry 0 =? 0xe5) || negb (is_short entry) || is_dot entry then empty_in_cluster fuel buf (offset + FAT_ENTRY_SIZE)
    else Some false
  end.
Fixpoint empty_loop (fuel : nat) (cluster_index : Z) : G bool :=
  match fuel with
  | O => fail (- EIO)
  | S fuel =>
    t <~ getf ;;
    r <~ try (fat_read_dir_cluster cluster_index) ;;
    match r with
    | Er e => if e =? - ENOENT then ret true else fail e
    | Ok (_, buf) =>
      match empty_in_cluster (Z.to_nat (fat_dir_entries_per_cluster t)) buf 0 with Some b => ret b | None => empty_loop fuel (cluster_index + 1) end
    end
  end.
Definition fat_dir_is_empty : G bool := t <~ getf ;; empty_loop (Z.to_nat (total_clusters (sbi (fs_vol t)) + 1)) 0.

(** ** Inodes *)

Definition fat_populate_from_entry (number cluster offset : Z) (entry : list Z) : inode :=
  let attributes := byte_at entry 11 in
  let size := fat_entry_size entry in
  mkinode number (Z.land attributes FAT_ATTR_DIRECTORY =? 0) size ((size + 511) / 512) 0 0 0 false cluster offset attributes
    (mkfi (fat_entry_first_cluster entry) 0 0 0 false).

Definition fat_read_inode (number : Z) : G inode :=
  t <~ getf ;;
  if number =? 0 then fail (- EINVAL) else
  if number =? FAT_ROOT_INO then ret (mkinode number false 0 0 0 0 0 false 0 0 FAT_ATTR_DIRECTORY (mkfi (root_cluster (sbi (fs_vol t))) 0 0 0 false)) else
  match fat_ino_location (sbi (fs_vol t)) number with
  | None => fail (- EINVAL)
  | Some (cluster, offset) =>
    onvol kmalloc ;~
    buf <~ onvol (fat_read_cluster cluster) ;;
    let entry := entry_at buf offset in
    if (byte_at entry 0 =? 0) || (byte_at entry 0 =? 0xe5) || (byte_at entry 11 =? FAT_ATTR_LFN) || is_volume_id entry then fail (- ENOENT)
    else ret (fat_populate_from_entry number cluster offset entry)
  end.

(** [iget] of an inode that is not cached: a read that fails leaves it as it was
    cleared. *)
Definition iget (number : Z) : G inode :=
  r <~ try (fat_read_inode number) ;;
  match r with Ok i => ret i | Er _ => ret (mkinode number false 0 0 0 0 0 false 0 0 0 (mkfi 0 0 0 0 false)) end.

Definition is_directory (i : inode) : bool := negb (Z.land (attributes i) FAT_ATTR_DIRECTORY =? 0).

(** Runs an operation with another inode, and gives the inode after it. *)
Definition with_inode {A} (i : inode) (m : G A) : G (A * inode) := fun t =>
  let '(r, t') := m (mkst (fs_vol t) i (cache_log t)) in
  (match r with Ok a => Ok (a, ino t') | Er e => Er e end, mkst (fs_vol t') (ino t) (cache_log t')).

(** ** Calls on names *)

Definition fat_create (now : Z) (name : list Z) : G Z :=
  t <~ getf ;;
  if readonly (sbi (fs_vol t)) then fail (- EROFS) else fat_add_entry_name name FAT_ATTR_ARCHIVE 0 0 now.

Definition is_dots (name : list Z) : bool := bool_decide (name = [46]) || bool_decide (name = [46; 46]).
Definition dot_name : list Z := 46 :: replicate 10 32.
Definition dotdot_name : list Z := 46 :: 46 :: replicate 9 32.

Definition fat_mkdir (now : Z) (name : list Z) : G Z :=
  t <~ getf ;;
  if readonly (sbi (fs_vol t)) then fail (- EROFS) else
  if is_dots name then fail (- EINVAL) else
  cluster <~ onvol (fat_alloc_cluster 0) ;;
  r <~ try (
    onvol kmalloc ;~
    let buf := zeros (fsz t) in
    let buf := memcpy_at buf 0 (fat_make_short_entry dot_name FAT_ATTR_DIRECTORY cluster 0 now) FAT_ENTRY_SIZE in
    let buf := memcpy_at buf FAT_ENTRY_SIZE (fat_make_short_entry dotdot_name FAT_ATTR_DIRECTORY (start_cluster (fi (ino t))) 0 now) FAT_ENTRY_SIZE in
    onvol (fat_write_cluster cluster buf) ;~
    fat_add_entry_name name FAT_ATTR_DIRECTORY cluster 0 now) ;;
  match r with
  | Ok ino => ret ino
  | Er e => try (onvol (fat_free_cluster_chain cluster)) ;~ fail e
  end.

Definition fat_unlink (now : Z) (name : list Z) : G unit :=
  t <~ getf ;;
  if readonly (sbi (fs_vol t)) then fail (- EROFS) else
  p <~ fat_dir_find_entry name ;;
  entry <~ fat_read_entry_at p.1 p.2 ;;
  if negb (Z.land (byte_at entry 11) FAT_ATTR_DIRECTORY =? 0) then fail (- EISDIR) else
  let start_cluster := fat_entry_first_cluster entry in
  fat_delete_entry_at p.1 p.2 ;~
  r <~ try (onvol (fat_free_cluster_chain start_cluster)) ;;
  match r with
  | Ok _ => ret tt
  | Er e => try (fat_add_entry_name name (byte_at entry 11) start_cluster (fat_entry_size entry) now) ;~ fail e
  end.

Definition fat_rmdir (now : Z) (name : list Z) : G unit :=
  t <~ getf ;;
  if readonly (sbi (fs_vol t)) then fail (- EROFS) else
  if is_dots name then fail (- EINVAL) else
  p <~ fat_dir_find_entry name ;;
  entry <~ fat_read_entry_at p.1 p.2 ;;
  if Z.land (byte_at entry 11) FAT_ATTR_DIRECTORY =? 0 then fail (- ENOTDIR) else
  if fat_entry_ino (sbi (fs_vol t)) p.1 p.2 =? FAT_ROOT_INO then fail (- EBUSY) else
  inode <~ iget (fat_entry_ino (sbi (fs_vol t)) p.1 p.2) ;;
  e <~ with_inode inode fat_dir_is_empty ;;
  if negb e.1 then fail (- ENOTEMPTY) else
  let start_cluster := fat_entry_first_cluster entry in
  r <~ try (fat_delete_entry_at p.1 p.2 ;~ onvol (fat_free_cluster_chain start_cluster)) ;;
  match r with
  | Ok _ => ret tt
  | Er e => try (fat_add_entry_name name (byte_at entry 11) start_cluster 0 now) ;~ fail e
  end.

(** Renaming works on two directories, which may be one: the inode of the old one
    is in the state, that of the new one beside it. *)
Definition G2 (A : Type) : Type := ST (st * inode) A.
Definition on_old {A} (m : G A) : G2 A := fun s => let '(r, t) := m s.1 in (r, (t, s.2)).
Definition on_new {A} (same_dir : bool) (m : G A) : G2 A := fun s =>
  if same_dir then on_old m s else
  let '(r, t) := m (mkst (fs_vol s.1) s.2 (cache_log s.1)) in (r, (mkst (fs_vol t) (ino s.1) (cache_log t), ino t)).
Definition new_dir (same_dir : bool) : G2 inode := fun s => (Ok (if same_dir then ino s.1 else s.2), s).

Definition add_back (dir : forall A, G A -> G2 A) (name entry : list Z) (now : Z) : G2 (res Z) :=
  try (dir Z (fat_add_entry_name name (byte_at entry 11) (fat_entry_first_cluster entry) (fat_entry_size entry) now)).

(** What a target that exists is checked for: its place and its entry. *)
Definition rename_target (same_dir : bool) (old_inode : inode) (p : Z * Z) : G2 (list Z) :=
  t <~ on_old getf ;;
  new_inode <~ on_old (iget (fat_entry_ino (sbi (fs_vol t)) p.1 p.2)) ;;
  new_entry <~ on_new same_dir (fat_read_entry_at p.1 p.2) ;;
  let dir := negb (Z.land (byte_at new_entry 11) FAT_ATTR_DIRECTORY =? 0) in
  if is_directory old_inode && negb dir then fail (- ENOTDIR) else
  if negb (is_directory old_inode) && dir then fail (- EISDIR) else
  (if dir then e <~ on_old (with_inode new_inode fat_dir_is_empty) ;; if negb e.1 then fail (- ENOTEMPTY) else ret tt else ret tt) ;~
  ret new_entry.

(** The inode of the file at its new entry, and the parent of a directory. *)
Definition rename_inode (same_dir : bool) (now new_ino : Z) (old_entry : list Z) (old_inode : inode) : G2 unit :=
  t <~ on_old getf ;;
  match fat_ino_location (sbi (fs_vol t)) new_ino with
  | None => fail (- EINVAL)
  | Some (added_cluster, added_offset) =>
    let i := mkinode (i_ino old_inode) (is_reg old_inode) (i_size old_inode) (i_nr_block old_inode) (i_atime old_inode) (i_mtime old_inode)
               (i_ctime old_inode) (i_dirty old_inode) added_cluster added_offset (byte_at old_entry 11) (fi old_inode) in
    d <~ new_dir same_dir ;;
    (if is_directory old_inode && negb same_dir then on_old (with_inode i (fat_update_dotdot (start_cluster (fi d)))) ;~ ret tt else ret tt) ;~
    on_old (with_inode (mkinode (i_ino i) (is_reg i) (i_size i) (i_nr_block i) (i_atime i) now now (i_dirty i)
                          (dir_cluster i) (dir_offset i) (attributes i) (fi i)) fat_write_inode) ;~ ret tt
  end.

Definition fat_rename (same_dir : bool) (now : Z) (old_name new_name : list Z) : G2 unit :=
  t <~ on_old getf ;;
  if readonly (sbi (fs_vol t)) then fail (- EROFS) else
  o <~ on_old (fat_dir_find_entry old_name) ;;
  old_inode <~ on_old (iget (fat_entry_ino (sbi (fs_vol t)) o.1 o.2)) ;;
  old_entry <~ on_old (fat_read_entry_at o.1 o.2) ;;
  f <~ try (on_new same_dir (fat_dir_find_entry new_name)) ;;
  target <~ match f with
  | Ok n => if same_dir && (o.1 =? n.1) && (o.2 =? n.2) then ret None else
            e <~ rename_target same_dir old_inode n ;; ret (Some (Some (n, e)))
  | Er e => if e =? - ENOENT then ret (Some None) else fail e
  end ;;
  match target with
  | None => ret tt
  | Some target =>
    on_old (fat_delete_entry_at o.1 o.2) ;~
    match target with
    | None => ret tt
    | Some (n, _) =>
      r <~ try (on_new same_dir (fat_delete_entry_at n.1 n.2)) ;;
      match r with Ok _ => ret tt | Er e => add_back (fun _ => on_old) old_name old_entry now ;~ fail e end
    end ;~
    a <~ try (on_new same_dir (fat_add_entry_name new_name (byte_at old_entry 11) (fat_entry_first_cluster old_entry) (fat_entry_size old_entry) now)) ;;
    match a with
    | Er e =>
      add_back (fun _ => on_old) old_name old_entry now ;~
      match target with Some (_, new_entry) => add_back (fun _ => on_new same_dir) new_name new_entry now ;~ ret tt | None => ret tt end ;~
      fail e
    | Ok new_ino =>
      rename_inode same_dir now new_ino old_entry old_inode ;~
      match target with
      | Some (_, new_entry) => on_new same_dir (onvol (fat_free_cluster_chain (fat_entry_first_cluster new_entry)))
      | None => ret tt
      end
    end
  end.


(** ** Entries of clusters that are written *)

Lemma zlength_entry buf n j : zlength buf = n * FAT_ENTRY_SIZE -> 0 <= j < n -> length (entry_at buf (j * FAT_ENTRY_SIZE)) = 32%nat.
Proof. unfold entry_at, sub_bytes, FAT_ENTRY_SIZE, zlength. intros. rewrite length_take, length_drop. lia. Qed.

Lemma entry_lookup buf j i : 0 <= j -> (i < 32)%nat -> entry_at buf (j * FAT_ENTRY_SIZE) !! i = buf !! (Z.to_nat (j * FAT_ENTRY_SIZE) + i)%nat.
Proof. intros. unfold entry_at, sub_bytes, FAT_ENTRY_SIZE. by rewrite lookup_take_lt, lookup_drop by lia. Qed.

Lemma length_entries_in n buf j : length (entries_in n buf j) = Z.to_nat (n - j).
Proof. unfold entries_in. by rewrite length_map, length_seqZ. Qed.

Lemma lookup_entries_in n buf k : 0 <= k < n -> entries_in n buf 0 !! Z.to_nat k = Some (entry_at buf (k * FAT_ENTRY_SIZE)).
Proof.
  intros H. unfold entries_in. rewrite list_lookup_fmap, lookup_seqZ_lt by lia. cbn. do 3 f_equal. lia.
Qed.

Lemma entries_ext n b1 b2 : (forall k, 0 <= k < n -> entry_at b1 (k * FAT_ENTRY_SIZE) = entry_at b2 (k * FAT_ENTRY_SIZE)) ->
  entries_in n b1 0 = entries_in n b2 0.
Proof. intros H. unfold entries_in. apply map_ext_in. intros k Hk. apply list_elem_of_In, elem_of_seqZ in Hk. apply H. lia. Qed.

Lemma entries_put n buf k e : zlength buf = n * FAT_ENTRY_SIZE -> 0 <= k < n -> length e = 32%nat ->
  entries_in n (memcpy_at buf (k * FAT_ENTRY_SIZE) e FAT_ENTRY_SIZE) 0 = <[Z.to_nat k := e]> (entries_in n buf 0).
Proof.
  intros Hb Hk He. apply list_eq. intros i. destruct (decide (i < Z.to_nat n)%nat) as [Li|Li].
  2:{ rewrite !lookup_ge_None_2; [done|rewrite length_insert, length_entries_in; lia|rewrite length_entries_in; lia]. }
  rewrite <- (Nat2Z.id i) at 1. rewrite lookup_entries_in by lia.
  assert (Eq : entry_at (memcpy_at buf (k * FAT_ENTRY_SIZE) e FAT_ENTRY_SIZE) (Z.of_nat i * FAT_ENTRY_SIZE) =
    if decide (Z.of_nat i = k) then e else entry_at buf (Z.of_nat i * FAT_ENTRY_SIZE)).
  { apply list_eq. intros x. destruct (decide (x < 32)%nat) as [Lx|Lx].
    - rewrite entry_lookup by lia. rewrite lookup_memcpy_at by (unfold FAT_ENTRY_SIZE, zlength in *; lia).
      destruct (decide (Z.of_nat i = k)) as [<-|N].
      + rewrite decide_True by (unfold FAT_ENTRY_SIZE in *; lia). f_equal. unfold FAT_ENTRY_SIZE. lia.
      + rewrite decide_False by (unfold FAT_ENTRY_SIZE in *; lia). by rewrite entry_lookup by lia.
    - rewrite !lookup_ge_None_2; [done| |].
      + destruct (decide _); [lia|]. unfold entry_at, sub_bytes. rewrite length_take. unfold FAT_ENTRY_SIZE. lia.
      + unfold entry_at, sub_bytes. rewrite length_take. unfold FAT_ENTRY_SIZE. lia. }
  rewrite Eq. destruct (decide (Z.of_nat i = k)) as [<-|N].
  - rewrite Nat2Z.id, list_lookup_insert_eq by (rewrite length_entries_in; lia). done.
  - rewrite list_lookup_insert_ne by lia. rewrite <- (Nat2Z.id i) at 2. by rewrite lookup_entries_in by lia.
Qed.

Definition set_first (x : Z) (e : list Z) : list Z := <[0%nat := x]> e.

Lemma entries_mark n buf k x : zlength buf = n * FAT_ENTRY_SIZE -> 0 <= k < n ->
  entries_in n (<[Z.to_nat (k * FAT_ENTRY_SIZE) := x]> buf) 0 = alter (set_first x) (Z.to_nat k) (entries_in n buf 0).
Proof.
  intros Hb Hk. apply list_eq. intros i. destruct (decide (i < Z.to_nat n)%nat) as [Li|Li].
  2:{ rewrite !lookup_ge_None_2; [done|rewrite length_alter, length_entries_in; lia|rewrite length_entries_in; lia]. }
  rewrite <- (Nat2Z.id i) at 1. rewrite lookup_entries_in by lia.
  assert (Eq : entry_at (<[Z.to_nat (k * FAT_ENTRY_SIZE) := x]> buf) (Z.of_nat i * FAT_ENTRY_SIZE) =
    if decide (Z.of_nat i = k) then set_first x (entry_at buf (Z.of_nat i * FAT_ENTRY_SIZE)) else entry_at buf (Z.of_nat i * FAT_ENTRY_SIZE)).
  { apply list_eq. intros y. destruct (decide (y < 32)%nat) as [Ly|Ly].
    - rewrite entry_lookup by lia. destruct (decide (Z.of_nat i = k)) as [<-|N].
      + unfold set_first. destruct y as [|y].
        * rewrite Nat.add_0_r, list_lookup_insert_eq by (unfold FAT_ENTRY_SIZE, zlength in *; lia).
          rewrite list_lookup_insert_eq; [done|]. rewrite (zlength_entry buf n) by (done || lia). lia.
        * rewrite !list_lookup_insert_ne by lia. by rewrite entry_lookup by lia.
      + rewrite list_lookup_insert_ne by (unfold FAT_ENTRY_SIZE; lia). by rewrite entry_lookup by lia.
    - rewrite !lookup_ge_None_2; [done| |].
      + destruct (decide _); unfold set_first; rewrite ?length_insert; unfold entry_at, sub_bytes; rewrite length_take; unfold FAT_ENTRY_SIZE; lia.
      + unfold entry_at, sub_bytes. rewrite length_take. unfold FAT_ENTRY_SIZE. lia. }
  rewrite Eq. destruct (decide (Z.of_nat i = k)) as [<-|N].
  - rewrite Nat2Z.id, list_lookup_alter_eq. rewrite <- (Nat2Z.id i) at 2. by rewrite lookup_entries_in by lia.
  - rewrite list_lookup_alter_ne by lia. rewrite <- (Nat2Z.id i) at 2. by rewrite lookup_entries_in by lia.
Qed.

(** ** A directory with one cluster written *)

Lemma dir_entries_app v l1 l2 : dir_entries v (l1 ++ l2) = dir_entries v l1 ++ dir_entries v l2.
Proof. unfold dir_entries. by rewrite map_app, concat_app. Qed.

Lemma length_dir_entries v l : 0 <= per (sbi v) -> length (dir_entries v l) = (Z.to_nat (per (sbi v)) * length l)%nat.
Proof.
  intros H. induction l as [|c l IH]; [cbn; lia|]. rewrite dir_entries_cons, length_app, IH, length_entries_in. cbn. lia.
Qed.

Lemma dir_entries_ext v v' l : sbi v' = sbi v -> (forall c, c ∈ l -> cluster_data v' c = cluster_data v c) -> dir_entries v' l = dir_entries v l.
Proof.
  intros B H. unfold dir_entries. f_equal. apply map_ext_in. intros c Hc. apply list_elem_of_In in Hc. by rewrite B, H.
Qed.

(** What a change of the directory leaves alone. *)
Record changed (l l' : list Z) (t t' : st) : Prop := {
  ch_chain : chain_of t' (l ++ l');
  ch_grown : grown l l' (fs_vol t) (fs_vol t');
  ch_inode : same_inode t t';
  ch_log : cache_log t' = cache_log t;
}.

Lemma chain_nodup' t l : chain_of t l -> NoDup l.
Proof. intros (V & [[_ ->]|H] & _); [constructor|]. eapply chain_nodup; [apply V|done]. Qed.

Lemma put_dir_cluster t l idx c b : chain_of t l -> counters_ok (fs_vol t) -> l !! idx = Some c -> zlength b = fsz t -> Forall is_u8 b ->
  let P := Z.to_nat (per (sbi (fs_vol t))) in
  exists t', onvol (fat_write_cluster c b) t = (Ok tt, t') /\ changed l [] t t' /\
    dir_entries (fs_vol t') l = take (P * idx) (dir_entries (fs_vol t) l) ++ entries_in (per (sbi (fs_vol t))) b 0 ++ drop (P * S idx) (dir_entries (fs_vol t) l).
Proof.
  intros C K Hc Hb Hu. cbv zeta. pose proof C as (V & H & Cc). pose proof (v_geom _ V) as Gm. destruct (per_pos _ V) as [Hp _].
  assert (Vc : valid (sbi (fs_vol t)) c) by (eapply chain_pos; [done|done|by eapply list_elem_of_lookup_2]).
  pose proof (chain_nodup' _ _ C) as ND.
  destruct (put_cluster_ok _ _ _ V Vc Hb Hu) as [(V' & B & N & Fc) T D].
  set (v' := put_cluster c b (fs_vol t)) in *. exists (set_vol v' t). split; [by apply onvol_ok, write_cluster_run|].
  assert (Ch : fchain v' (start_cluster (fi (ino t))) l).
  { destruct H as [H|H]; [by left|right]. eapply fchain_frame; [done| |exact H]. intros x Hx. apply T. by eapply chain_valid. }
  split.
  - constructor; [rewrite app_nil_r; exact (conj V' (conj Ch Cc))| |unfold same_inode; by destruct t as [? [] ?]|done]. constructor; cbn [fs_vol set_vol].
    + done.
    + by unfold counters_ok; rewrite N, Fc.
    + intros x Hx. by apply not_elem_of_nil in Hx.
    + intros a Va Na _. split; [by apply T|]. rewrite D by done. apply decide_False. intros ->.
      apply Na. by eapply list_elem_of_lookup_2.
  - cbn [fs_vol set_vol]. rewrite <- (take_drop_middle l idx c Hc) in *. set (l1 := take idx l) in *. set (l2 := drop (S idx) l) in *.
    assert (L1 : length l1 = idx) by (subst l1; rewrite length_take; apply lookup_lt_Some in Hc; lia).
    clearbody l1 l2. apply NoDup_app in ND as (_ & ND1 & ND2). apply NoDup_cons in ND2 as [ND2 _].
    rewrite !dir_entries_app, !dir_entries_cons, B, D, decide_True by done.
    assert (Hin : forall a, a ∈ l1 ++ c :: l2 -> a <> c -> cluster_data v' a = cluster_data (fs_vol t) a).
    { intros a Ha Na. rewrite D, decide_False by (done || by eapply chain_pos). done. }
    rewrite (dir_entries_ext (fs_vol t) v' l1), (dir_entries_ext (fs_vol t) v' l2).
    + set (P := per (sbi (fs_vol t))) in *. set (E := entries_in P (cluster_data (fs_vol t) c) 0).
      assert (LE : length E = Z.to_nat P) by (subst E; rewrite length_entries_in; f_equal; lia).
      assert (LD : length (dir_entries (fs_vol t) l1) = (Z.to_nat P * idx)%nat) by (rewrite length_dir_entries by (fold P; lia); by rewrite L1).
      rewrite take_app_length' by done. f_equal. f_equal. rewrite app_assoc. rewrite drop_app_length'; [done|]. rewrite length_app, LD, LE. lia.
    + done.
    + intros a Ha. apply Hin; [set_solver|]. intros ->. done.
    + done.
    + intros a Ha. apply Hin; [set_solver|]. intros ->. by eapply ND1; [|left].
Qed.

(** The entries of one cluster in the middle of the directory. *)
Lemma dir_entries_split v l idx c : 0 <= per (sbi v) -> l !! idx = Some c ->
  dir_entries v l = take (Z.to_nat (per (sbi v)) * idx) (dir_entries v l) ++ entries_in (per (sbi v)) (cluster_data v c) 0 ++
    drop (Z.to_nat (per (sbi v)) * S idx) (dir_entries v l) /\ (Z.to_nat (per (sbi v)) * S idx <= length (dir_entries v l))%nat.
Proof.
  intros Hp Hc. pose proof (lookup_lt_Some _ _ _ Hc) as Li. rewrite <- (take_drop_middle l idx c Hc) at 1 2 3.
  rewrite !dir_entries_app, dir_entries_cons. set (P := per (sbi v)) in *.
  assert (LD : length (dir_entries v (take idx l)) = (Z.to_nat P * idx)%nat) by (rewrite length_dir_entries, length_take by done; fold P; f_equal; lia).
  assert (LE : length (entries_in P (cluster_data v c) 0) = Z.to_nat P) by (rewrite length_entries_in; f_equal; lia).
  split; [|rewrite length_dir_entries by done; fold P; nia].
  rewrite take_app_length' by done. f_equal. f_equal. rewrite app_assoc. rewrite drop_app_length'; [done|]. rewrite length_app. lia.
Qed.

Lemma split_index k P : 0 < P -> 0 <= k -> k = P * (k / P) + k mod P /\ 0 <= k mod P < P /\ 0 <= k / P.
Proof. intros. pose proof (Z.div_mod k P). pose proof (Z.mod_pos_bound k P). pose proof (Z.div_pos k P). lia. Qed.

(** A function of the entries of one cluster, on the whole directory. *)
Lemma insert_in_middle {A} (a b c : list A) (x : A) j : (j < length b)%nat -> a ++ <[j := x]> b ++ c = <[(length a + j)%nat := x]> (a ++ b ++ c).
Proof. intros H. rewrite insert_app_r, insert_app_l by done. done. Qed.

Lemma alter_in_middle {A} (a b c : list A) f j : (j < length b)%nat -> a ++ alter f j b ++ c = alter f (length a + j)%nat (a ++ b ++ c).
Proof. intros H. rewrite alter_app_r, alter_app_l by done. done. Qed.

(** The entry behind, with the end mark if the slot was it. *)
Definition move_mark (P k : Z) (end_marker : bool) (es : list (list Z)) : list (list Z) :=
  if end_marker && (k mod P + 1 <? P) then alter (set_first 0) (S (Z.to_nat k)) es else es.

Lemma memcpy_u8 b o src k : Forall is_u8 b -> Forall is_u8 src -> Forall is_u8 (memcpy_at b o src k).
Proof. apply byte_at_memcpy_u8. Qed.

Lemma fat_write_entry_at_ok t l k e end_marker : chain_of t l -> counters_ok (fs_vol t) ->
  0 <= k < zlength (dir_entries (fs_vol t) l) -> length e = 32%nat -> Forall is_u8 e ->
  let P := per (sbi (fs_vol t)) in let '(c, o) := place_of (fs_vol t) l k in
  exists t', fat_write_entry_at c o e end_marker t = (Ok tt, t') /\ changed l [] t t' /\
    dir_entries (fs_vol t') l = move_mark P k end_marker (<[Z.to_nat k := e]> (dir_entries (fs_vol t) l)).
Proof.
  intros C K Hk He Hu. cbv zeta. pose proof (proj1 C) as V. destruct (per_pos _ V) as [Hp Hcs]. fold (fsz t) in Hcs. unfold place_of.
  set (P := per (sbi (fs_vol t))) in *. destruct (split_index k P ltac:(lia) ltac:(lia)) as (Ek & Hm & Hd).
  assert (Hlt : k / P < zlength l).
  { unfold zlength in Hk. rewrite length_dir_entries in Hk by (fold P; lia). fold P in Hk. apply Z.div_lt_upper_bound; [lia|]. unfold zlength. lia. }
  destruct (lookup_lt_is_Some_2 l (Z.to_nat (k / P))) as [c Hc]; [unfold zlength in Hlt; lia|].
  rewrite Hc. change (default 0 (Some c)) with c.
  assert (Vc : valid (sbi (fs_vol t)) c) by (eapply chain_pos; [apply V|apply C|by eapply list_elem_of_lookup_2]).
  set (b := cluster_data (fs_vol t) c). assert (Lb : zlength b = P * FAT_ENTRY_SIZE) by (subst b; rewrite length_cluster by done; exact Hcs).
  unfold fat_write_entry_at. rewrite bind_getf, (bind_ok _ _ _ _ _ (kmalloc_onvol t V)).
  assert (Rd : onvol (fat_read_cluster c) t = (Ok b, t)) by (erewrite onvol_ok; [|by apply read_cluster_ok]; by rewrite set_vol_id).
  rewrite (bind_ok _ _ _ _ _ Rd).
  set (b1 := memcpy_at b (k mod P * FAT_ENTRY_SIZE) e FAT_ENTRY_SIZE).
  assert (L1 : zlength b1 = P * FAT_ENTRY_SIZE).
  { subst b1. unfold zlength. rewrite length_memcpy_at; unfold zlength, FAT_ENTRY_SIZE in *; lia. }
  assert (U1 : Forall is_u8 b1) by (apply memcpy_u8; [by apply cluster_u8|done]).
  assert (E1 : entries_in P b1 0 = <[Z.to_nat (k mod P) := e]> (entries_in P b 0)) by (by apply entries_put).
  set (b2 := if _ && _ then _ else b1).
  assert (X2 : zlength b2 = fsz t /\ Forall is_u8 b2 /\ entries_in P b2 0 =
    if end_marker && (k mod P + 1 <? P) then alter (set_first 0) (S (Z.to_nat (k mod P))) (entries_in P b1 0) else entries_in P b1 0).
  { subst b2. replace (k mod P * FAT_ENTRY_SIZE + FAT_ENTRY_SIZE <? fsz t) with (k mod P + 1 <? P)
      by (rewrite Hcs; unfold FAT_ENTRY_SIZE; destruct (Z.ltb_spec (k mod P + 1) P), (Z.ltb_spec (k mod P * 32 + 32) (P * 32)); lia).
    destruct (end_marker && (k mod P + 1 <? P)) eqn:Em; [|by rewrite L1].
    apply andb_true_iff in Em as [_ Em]. apply Z.ltb_lt in Em. split_and!.
    - unfold zlength in *. rewrite length_insert. lia.
    - apply Forall_insert; [done|]. unfold is_u8. lia.
    - replace (k mod P * FAT_ENTRY_SIZE + FAT_ENTRY_SIZE) with ((k mod P + 1) * FAT_ENTRY_SIZE) by lia.
      rewrite entries_mark by (done || lia). f_equal. lia. }
  destruct X2 as (L2 & U2 & E2). clearbody b2.
  destruct (put_dir_cluster t l (Z.to_nat (k / P)) c b2 C K Hc L2 U2) as (t' & W & Ch & D). cbv zeta in D. fold P in D.
  exists t'. split; [done|]. split; [done|]. rewrite D, E2, E1.
  destruct (dir_entries_split (fs_vol t) l _ c ltac:(fold P; lia) Hc) as [S1 S2]. fold P b in S1, S2.
  set (A := take (Z.to_nat P * Z.to_nat (k / P)) (dir_entries (fs_vol t) l)) in *.
  set (B := drop (Z.to_nat P * S (Z.to_nat (k / P))) (dir_entries (fs_vol t) l)) in *.
  assert (LA : length A = (Z.to_nat P * Z.to_nat (k / P))%nat) by (subst A; rewrite length_take; lia).
  assert (LM : length (entries_in P b 0) = Z.to_nat P) by (rewrite length_entries_in; f_equal; lia).
  assert (Kn : (length A + Z.to_nat (k mod P))%nat = Z.to_nat k) by nia.
  unfold move_mark. destruct (end_marker && (k mod P + 1 <? P)) eqn:Em.
  - apply andb_true_iff in Em as [_ Em]. apply Z.ltb_lt in Em.
    rewrite alter_in_middle, insert_in_middle by (rewrite ?length_insert; lia). rewrite <- S1. f_equal; [lia|]. f_equal. lia.
  - rewrite insert_in_middle by lia. rewrite <- S1. f_equal. lia.
Qed.

(** ** Searches for a slot *)

Definition first_byte (e : list Z) : Z := byte_at e 0.

Fixpoint first_free_slot (es : list (list Z)) : option (nat * list Z) :=
  match es with
  | [] => None
  | e :: es => if is_free (byte_at e 0) then Some (0%nat, e) else prod_map S id <$> first_free_slot es
  end.

Lemma first_of_entry buf off : 0 <= off -> byte_at (entry_at buf off) 0 = byte_at buf off.
Proof.
  intros H. unfold byte_at, entry_at, sub_bytes, FAT_ENTRY_SIZE. rewrite lookup_take_lt, lookup_drop by lia. f_equal. f_equal. lia.
Qed.

Lemma first_slot_app a b : first_free_slot (a ++ b) =
  match first_free_slot a with Some x => Some x | None => prod_map (Nat.add (length a)) id <$> first_free_slot b end.
Proof.
  induction a as [|e a IH]; cbn [first_free_slot app].
  - by destruct (first_free_slot b) as [[i e]|].
  - destruct (is_free _); [done|]. rewrite IH. destruct (first_free_slot a) as [[i x]|]; [done|].
    by destruct (first_free_slot b) as [[i x]|].
Qed.

Lemma first_free_slot_spec es i e : first_free_slot es = Some (i, e) ->
  es !! i = Some e /\ is_free (byte_at e 0) = true /\ forall j x, (j < i)%nat -> es !! j = Some x -> is_free (byte_at x 0) = false.
Proof.
  revert i. induction es as [|x es IH]; intros i; cbn; [done|]. destruct (is_free (byte_at x 0)) eqn:F.
  - intros [= <- <-]. split_and!; [done|done|lia].
  - destruct (first_free_slot es) as [[i' e']|] eqn:E; [|done]. cbn. intros [= <- <-].
    destruct (IH i' eq_refl) as (H1 & H2 & H3). split_and!; [done|done|]. intros [|j] y Hj; cbn; [by intros [= <-]|].
    apply H3. lia.
Qed.

Lemma first_free_slot_none es : first_free_slot es = None -> forall e, e ∈ es -> is_free (byte_at e 0) = false.
Proof.
  induction es as [|x es IH]; cbn; intros H e He; [by apply not_elem_of_nil in He|].
  destruct (is_free (byte_at x 0)) eqn:F; [done|]. destruct (first_free_slot es) as [[]|]; [done|].
  apply elem_of_cons in He as [->|He]; [done|]. by apply IH.
Qed.

Lemma free_in_cluster_ok m n buf j : 0 <= j -> j + Z.of_nat m = n ->
  free_in_cluster m buf (j * FAT_ENTRY_SIZE) =
    match first_free_slot (entries_in n buf j) with
    | Some (i, e) => Some ((j + Z.of_nat i) * FAT_ENTRY_SIZE, byte_at e 0 =? 0) | None => None end.
Proof.
  revert j. induction m as [|m IH]; intros j Hj Hn; cbn [free_in_cluster].
  - assert (j = n) as -> by lia. by rewrite entries_in_nil.
  - rewrite entries_in_cons by lia. cbn [first_free_slot].
    rewrite first_of_entry by (unfold FAT_ENTRY_SIZE; lia). destruct (is_free _).
    + cbn. by rewrite Z.add_0_r, first_of_entry by (unfold FAT_ENTRY_SIZE; lia).
    + replace (j * FAT_ENTRY_SIZE + FAT_ENTRY_SIZE) with ((j + 1) * FAT_ENTRY_SIZE) by lia.
      rewrite IH by lia. destruct (first_free_slot _) as [[i e]|]; [|done]. cbn. do 3 f_equal. lia.
Qed.

Lemma elem_drop_last (l : list Z) : default 0 (last l) = if decide (l = []) then 0 else default 0 (l !! (length l - 1)%nat).
Proof. destruct l as [|x l]; [done|]. rewrite decide_False, last_lookup by done. f_equal. f_equal. cbn. lia. Qed.

Lemma free_loop_ok fuel t l idx prev : chain_of t l -> 0 <= idx <= zlength l ->
  zlength l < total_clusters (sbi (fs_vol t)) -> zlength l - idx < Z.of_nat fuel ->
  prev = (if decide (idx = 0) then 0 else default 0 (l !! Z.to_nat (idx - 1))) ->
  match first_free_slot (dir_entries (fs_vol t) (drop (Z.to_nat idx) l)) with
  | Some (i, e) => exists t', free_loop fuel idx prev t =
      (Ok (place_of (fs_vol t) l (per (sbi (fs_vol t)) * idx + Z.of_nat i), byte_at e 0 =? 0), t') /\ chain_of t' l /\ quiet t t'
  | None => exists t', free_loop fuel idx prev t = dir_expand (default 0 (last l)) t' /\ chain_of t' l /\ quiet t t'
  end.
Proof.
  revert t idx prev. induction fuel as [|fuel IH]; intros t idx prev C Hi Hl Hf Hprev; [lia|].
  pose proof (proj1 C) as V. destruct (per_pos _ V) as [Hp Hcs]. set (P := per (sbi (fs_vol t))) in *.
  cbn [free_loop]. rewrite bind_getf. pose proof (read_dir_cluster_ok t l idx C Hi) as R.
  destruct (l !! Z.to_nat idx) as [c|] eqn:Ec.
  - destruct R as (t1 & E1 & C1 & Q1). rewrite (bind_try _ _ _ _ _ E1).
    replace (fat_dir_entries_per_cluster t) with P by (unfold P, per, fat_dir_entries_per_cluster, fsz; done).
    pose proof (free_in_cluster_ok (Z.to_nat P) P (cluster_data (fs_vol t) c) 0 ltac:(lia) ltac:(lia)) as F. rewrite Z.mul_0_l in F. rewrite F. clear F.
    rewrite (drop_S _ _ _ Ec), dir_entries_cons, first_slot_app. fold P.
    destruct (first_free_slot (entries_in P (cluster_data (fs_vol t) c) 0)) as [[i e]|] eqn:Ef.
    + apply first_free_slot_spec in Ef as (Hin & _). apply lookup_lt_Some in Hin. rewrite length_entries_in in Hin.
      exists t1. split; [|done]. unfold place_of. fold P. replace (P * idx + Z.of_nat i) with (Z.of_nat i + idx * P) by lia.
      rewrite Z.div_add, Z.mod_add, Z.div_small, Z.mod_small, !Z.add_0_l by lia. by rewrite Ec.
    + assert (B1 : sbi (fs_vol t1) = sbi (fs_vol t)) by apply Q1. pose proof (lookup_lt_Some _ _ _ Ec) as Li.
      specialize (IH t1 (idx + 1) c C1 ltac:(unfold zlength; lia) ltac:(by rewrite B1) ltac:(lia)).
      rewrite decide_False in IH by lia. replace (idx + 1 - 1) with idx in IH by lia. rewrite Ec in IH. specialize (IH eq_refl).
      rewrite (quiet_dir_entries _ _ _ Q1) in IH. replace (Z.to_nat (idx + 1)) with (S (Z.to_nat idx)) in IH by lia.
      rewrite B1 in IH. fold P in IH.
      destruct (first_free_slot (dir_entries (fs_vol t) (drop (S (Z.to_nat idx)) l))) as [[i e]|]; cbn.
      * destruct IH as (t2 & E2 & C2 & Q2). exists t2. split; [|split; [done|by eapply quiet_trans]]. rewrite E2.
        rewrite length_entries_in. unfold place_of. rewrite B1. fold P.
        by replace (P * idx + Z.of_nat (Z.to_nat (P - 0) + i)) with (P * (idx + 1) + Z.of_nat i) by lia.
      * destruct IH as (t2 & E2 & C2 & Q2). exists t2. split; [done|split; [done|by eapply quiet_trans]].
  - destruct R as (t1 & e & E1 & C1 & Q1 & ->). rewrite (bind_try _ _ _ _ _ E1).
    destruct (Z.ltb_spec idx (total_clusters (sbi (fs_vol t)))); [|lia]. change (- ENOENT =? - ENOENT) with true. cbv iota.
    apply lookup_ge_None in Ec. rewrite drop_ge by done. cbn. exists t1. split; [|done].
    assert (Ei : idx = zlength l) by (unfold zlength in *; lia). rewrite Hprev, elem_drop_last, Ei. destruct l as [|x l]; [done|].
    pose proof (zlength_nonneg l). rewrite zlength_cons. rewrite !decide_False by (done || lia).
    replace (Z.to_nat (zlength l + 1 - 1)) with (length (x :: l) - 1)%nat by (unfold zlength; cbn; lia). done.
Qed.

Lemma grown_nil_r l v : counters_ok v -> grown l [] v v.
Proof. intros K. constructor; [done|done|set_solver|]. done. Qed.

Lemma changed_trans l l1 l2 t t1 t2 : changed l l1 t t1 -> changed (l ++ l1) l2 t1 t2 -> changed l (l1 ++ l2) t t2.
Proof.
  intros [A1 A2 A3 A4] [B1 B2 B3 B4]. constructor.
  - by rewrite app_assoc.
  - eapply grown_trans; [done|done|]. intros a Ha. eapply used_in_file; [apply v_geom, A1|apply A1|done].
  - by eapply same_inode_trans.
  - congruence.
Qed.

Lemma quiet_changed t t' l : chain_of t' l -> counters_ok (fs_vol t) -> quiet t t' -> changed l [] t t'.
Proof.
  intros C K Q. pose proof Q as ((D & B & N & F) & S & E). constructor.
  - by rewrite app_nil_r.
  - constructor; [done|by unfold counters_ok; rewrite N, F|set_solver|]. intros c Vc _ _. split; [apply same_tab; apply Q|by apply quiet_data].
  - unfold same_inode. rewrite E. by destruct t as [? [] ?].
  - by rewrite E.
Qed.

Lemma zero_cluster_entries n : 0 <= n -> entries_in n (zeros (n * FAT_ENTRY_SIZE)) 0 = replicate (Z.to_nat n) (replicate 32 0).
Proof.
  intros Hn. apply list_eq. intros i. destruct (decide (i < Z.to_nat n)%nat).
  - rewrite lookup_replicate_2 by done. rewrite <- (Nat2Z.id i). rewrite lookup_entries_in by lia. f_equal.
    unfold entry_at, sub_bytes, zeros, FAT_ENTRY_SIZE. rewrite drop_replicate, take_replicate. f_equal. lia.
  - rewrite !lookup_ge_None_2; [done|rewrite length_replicate; lia|rewrite length_entries_in; lia].
Qed.

(** One more cluster of free entries, or no cluster is free. *)
Lemma dir_expand_ok t l : chain_of t l -> counters_ok (fs_vol t) -> l <> [] ->
  let P := per (sbi (fs_vol t)) in
  (exists c t', dir_expand (default 0 (last l)) t = (Ok (c, 0, true), t') /\ changed l [c] t t' /\
     dir_entries (fs_vol t') (l ++ [c]) = dir_entries (fs_vol t) l ++ replicate (Z.to_nat P) (replicate 32 0)) \/
  (exists t', dir_expand (default 0 (last l)) t = (Er (- ENOSPC), t') /\ changed l [] t t' /\
     dir_entries (fs_vol t') l = dir_entries (fs_vol t) l /\ forall c, valid (sbi (fs_vol t)) c -> tab (fs_vol t) c <> 0).
Proof.
  intros C [K1 K2] Hne. cbv zeta. pose proof C as (V & H & Cc). pose proof (v_geom _ V) as Gm. destruct (per_pos _ V) as [Hp Hcs]. fold (fsz t) in Hcs.
  set (P := per (sbi (fs_vol t))) in *. destruct H as [[_ ->]|H]; [done|].
  assert (Hlast : default 0 (last l) = 0 \/ valid (sbi (fs_vol t)) (default 0 (last l))).
  { right. destruct (last l) as [x|] eqn:El; [|by apply last_None in El]. eapply chain_valid; [done|]. by apply last_Some_elem_of. }
  pose proof (fat_alloc_cluster_ok (fs_vol t) (default 0 (last l)) V K1 Hlast) as A. unfold dir_expand. rewrite bind_getf.
  destruct (first_free (fs_vol t) (scan_order (fs_vol t))) as [c|] eqn:Ef.
  - left. destruct A as (v1 & E1 & T & Vc & Zc). rewrite (bind_ok _ _ _ _ _ (onvol_ok _ _ _ _ E1)).
    destruct (alloc_extends (fs_vol t) _ l c v1 V (or_intror H) K1 K2 Vc Zc T) as (Ch & X & K2').
    pose proof (chain_hd _ _ _ H) as Hh. assert (Vs : valid (sbi (fs_vol t)) (start_cluster (fi (ino t)))).
    { eapply chain_valid; [done|]. destruct l; [done|]. cbn in Hh. injection Hh as <-. by left. }
    pose proof (valid_range _ _ Gm Vs). destruct (Z.eqb_spec (start_cluster (fi (ino t))) 0); [lia|].
    set (t1 := set_vol v1 t).
    assert (C1 : chain_of t1 (l ++ [c])).
    { split; [apply X|]. split; [by right|]. cbn [t1 set_vol ino].
      eapply (cache_ok_extend v1); [rewrite (e_sbi _ _ _ _ X); exact Gm|by right| | | |exact Cc].
      - by destruct (fi (ino t)).
      - done.
      - intros x Hx. rewrite Hh in Hx. congruence. }
    assert (Ch1 : changed l [c] t t1).
    { constructor; [done|by apply extended_grown|unfold same_inode; by destruct t as [? [] ?]|done]. }
    rewrite (bind_ok _ _ _ _ _ (kmalloc_onvol t1 (proj1 C1))).
    assert (B1 : sbi (fs_vol t1) = sbi (fs_vol t)) by apply X.
    destruct (put_dir_cluster t1 (l ++ [c]) (length l) c (zeros (fsz t)) C1) as (t2 & E2 & Ch2 & D2).
    { apply Ch1. } { by rewrite lookup_app_r, Nat.sub_diag by lia. }
    { unfold zlength, zeros. rewrite length_replicate. unfold fsz at 2. rewrite B1. fold (fsz t). unfold FAT_ENTRY_SIZE in *. lia. }
    { apply Forall_replicate. unfold is_u8. lia. }
    rewrite (bind_try _ _ _ _ _ E2). exists c, t2. split; [done|]. split.
    + by apply (changed_trans l [c] []) with t1.
    + rewrite D2, B1. fold P. rewrite Hcs, zero_cluster_entries by lia.
      assert (De : dir_entries (fs_vol t1) l = dir_entries (fs_vol t) l).
      { apply dir_entries_ext; [done|]. intros a Ha. eapply extended_data; [done|exact X|by eapply chain_valid]. }
      rewrite dir_entries_app, De. assert (LD : length (dir_entries (fs_vol t) l) = (Z.to_nat P * length l)%nat) by (by rewrite length_dir_entries by (fold P; lia)).
      rewrite take_app_length' by (by rewrite LD). rewrite drop_ge; [by rewrite app_nil_r|].
      rewrite length_app, LD, length_dir_entries by (rewrite B1; fold P; lia). rewrite B1. fold P. cbn. lia.
  - right. destruct A as (v1 & E1 & M). rewrite (bind_er _ _ _ _ _ (onvol_ok _ _ _ _ E1)).
    exists (set_vol v1 t). destruct M as [M1 M2 M3 M4 M5 M6].
    assert (Dt : forall a, valid (sbi (fs_vol t)) a -> cluster_data v1 a = cluster_data (fs_vol t) a).
    { intros a Va. destruct (cluster_place _ _ Gm Va) as (_ & P1 & P2 & P3). unfold cluster_data. rewrite M3. unfold read_sectors. f_equal.
      apply list_fmap_ext. intros i x Hx. apply lookup_seqZ in Hx as [-> Hx]. apply M6. lia. }
    split; [done|]. split; [|split].
    + constructor; [| |unfold same_inode; by destruct t as [? [] ?]|done].
      * rewrite app_nil_r. split; [done|]. split; [|exact Cc]. right. eapply fchain_frame; [exact M3| |exact H]. intros x Hx. apply M2. by eapply chain_valid.
      * constructor; [done|by unfold counters_ok; cbn; rewrite M4, M5|set_solver|]. intros a Va _ _. split; [by apply M2|by apply Dt].
    + apply dir_entries_ext; [done|]. intros a Ha. apply Dt. by eapply chain_valid.
    + intros a Va. apply (proj1 (first_free_none _ _) Ef). apply elem_of_order; [done|done|done].
Qed.

(** ** Short names in use *)

Lemma listing_entries i s i' s' es : map it_entry (listing i s es) = map it_entry (listing i' s' es).
Proof.
  revert i s i' s'. induction es as [|e es IH]; intros i s i' s'; [done|]. cbn [listing].
  destruct (_ =? 0); [done|]. destruct (_ =? 0xe5); [apply IH|]. destruct (_ =? _); [apply IH|].
  destruct (is_volume_id e); [apply IH|]. cbn. f_equal. apply IH.
Qed.

Definition short_used (short_name : list Z) (es : list (list Z)) : bool :=
  existsb (fun e => fat_short_name_equal e short_name) (map it_entry (listing 0 none es)).

Lemma short_used_cons sn e es : short_used sn (e :: es) =
  if byte_at e 0 =? 0 then false else
  if (byte_at e 0 =? 0xe5) || negb (is_short e) then short_used sn es else
  if fat_short_name_equal e sn then true else short_used sn es.
Proof.
  unfold short_used, is_short. cbn [listing]. destruct (_ =? 0); [done|].
  assert (G : forall s, existsb (fun e => fat_short_name_equal e sn) (map it_entry (listing (0 + 1) s es)) =
    existsb (fun e => fat_short_name_equal e sn) (map it_entry (listing 0 none es))) by (intros s; by rewrite (listing_entries _ _ 0 none)).
  destruct (_ =? 0xe5); [apply G|].
  destruct (_ =? FAT_ATTR_LFN); [apply G|]. destruct (is_volume_id e); [apply G|]. cbn. rewrite G. by destruct (fat_short_name_equal e sn).
Qed.

Lemma exists_in_cluster_ok m n sn buf j rest : 0 <= j -> j + Z.of_nat m = n ->
  match exists_in_cluster m sn buf (j * FAT_ENTRY_SIZE) with
  | Some b => short_used sn (entries_in n buf j ++ rest) = b
  | None => short_used sn (entries_in n buf j ++ rest) = short_used sn rest
  end.
Proof.
  revert j. induction m as [|m IH]; intros j Hj Hn; cbn [exists_in_cluster].
  - assert (j = n) as -> by lia. by rewrite entries_in_nil.
  - rewrite entries_in_cons by lia. cbn [app]. rewrite short_used_cons.
    destruct (_ =? 0); [done|]. replace (j * FAT_ENTRY_SIZE + FAT_ENTRY_SIZE) with ((j + 1) * FAT_ENTRY_SIZE) by lia.
    destruct (_ || _); [apply IH; lia|]. destruct (fat_short_name_equal _ sn); [done|apply IH; lia].
Qed.

Lemma exists_loop_ok fuel t l idx sn : chain_of t l -> 0 <= idx <= zlength l ->
  zlength l < total_clusters (sbi (fs_vol t)) -> zlength l - idx < Z.of_nat fuel ->
  exists t', exists_loop fuel sn idx t = (Ok (short_used sn (dir_entries (fs_vol t) (drop (Z.to_nat idx) l))), t') /\ chain_of t' l /\ quiet t t'.
Proof.
  revert t idx. induction fuel as [|fuel IH]; intros t idx C Hi Hl Hf; [lia|].
  pose proof (proj1 C) as V. destruct (per_pos _ V) as [Hp Hcs]. set (P := per (sbi (fs_vol t))) in *.
  cbn [exists_loop]. rewrite bind_getf. pose proof (read_dir_cluster_ok t l idx C Hi) as R.
  destruct (l !! Z.to_nat idx) as [c|] eqn:Ec.
  - destruct R as (t1 & E1 & C1 & Q1). rewrite (bind_try _ _ _ _ _ E1).
    replace (fat_dir_entries_per_cluster t) with P by (unfold P, per, fat_dir_entries_per_cluster, fsz; done).
    rewrite (drop_S _ _ _ Ec), dir_entries_cons. fold P.
    pose proof (exists_in_cluster_ok (Z.to_nat P) P sn (cluster_data (fs_vol t) c) 0 (dir_entries (fs_vol t) (drop (S (Z.to_nat idx)) l)) ltac:(lia) ltac:(lia)) as F.
    rewrite Z.mul_0_l in F. destruct (exists_in_cluster _ _ _ _) as [b|]; rewrite F; [by exists t1|].
    assert (B1 : sbi (fs_vol t1) = sbi (fs_vol t)) by apply Q1. pose proof (lookup_lt_Some _ _ _ Ec) as Li.
    destruct (IH t1 (idx + 1) C1) as (t2 & E2 & C2 & Q2); [unfold zlength; lia|by rewrite B1|lia|].
    exists t2. split; [|split; [done|by eapply quiet_trans]]. rewrite E2, (quiet_dir_entries _ _ _ Q1).
    by replace (Z.to_nat (idx + 1)) with (S (Z.to_nat idx)) by lia.
  - destruct R as (t1 & e & E1 & C1 & Q1 & ->). rewrite (bind_try _ _ _ _ _ E1).
    destruct (Z.ltb_spec idx (total_clusters (sbi (fs_vol t)))); [|lia]. change (- ENOENT =? - ENOENT) with true. cbv iota.
    apply lookup_ge_None in Ec. rewrite drop_ge by done. by exists t1.
Qed.

Lemma short_name_exists_ok t l sn : chain_of t l -> zlength l < total_clusters (sbi (fs_vol t)) ->
  exists t', fat_dir_short_name_exists sn t = (Ok (short_used sn (dir_entries (fs_vol t) l)), t') /\ chain_of t' l /\ quiet t t'.
Proof.
  intros C Hl. pose proof (zlength_nonneg l). unfold fat_dir_short_name_exists. rewrite bind_getf.
  by apply (exists_loop_ok _ t l 0 sn C); lia.
Qed.

(** ** A new entry in the listing *)

(** Nothing is behind the end mark. *)
Definition clean (es : list (list Z)) : Prop :=
  forall i j x y, (i <= j)%nat -> es !! i = Some x -> es !! j = Some y -> byte_at x 0 = 0 -> byte_at y 0 = 0.

Lemma clean_cons e es : clean (e :: es) -> clean es.
Proof. intros H i j x y Hij Hx Hy. by apply (H (S i) (S j) x y); [lia|..]. Qed.

Lemma clean_zero e es : clean (e :: es) -> byte_at e 0 = 0 -> forall x, x ∈ es -> byte_at x 0 = 0.
Proof.
  intros H He x [i Hi]%list_elem_of_lookup_1. by apply (H 0%nat (S i) e x); [lia|..].
Qed.

(** Whether an entry is one that a listing shows. *)
Definition is_item (e : list Z) : bool := negb (is_free (byte_at e 0)) && is_short e.

(** A listing with an entry in the place of the first free one. *)
Lemma slots_insert es k old e i s : first_free_slot es = Some (k, old) -> is_item e = true ->
  (byte_at old 0 = 0 -> clean es /\ forall x, es !! S k = Some x -> byte_at x 0 = 0) ->
  exists L1 L2 lg, listing i s es = L1 ++ L2 /\ listing i s (<[k := e]> es) = L1 ++ mkitem (i + Z.of_nat k) lg e :: L2 /\
    (byte_at old 0 = 0 -> L2 = []).
Proof.
  revert k i s. induction es as [|x es IH]; intros k i s; cbn [first_free_slot]; [done|].
  unfold is_item. intros E He Hc. destruct (is_free (byte_at x 0)) eqn:Fx.
  - injection E as <- <-. apply andb_true_iff in He as [He1 He2]. apply negb_true_iff in He1.
    unfold is_free in He1. apply orb_false_iff in He1 as [He0 He5]. unfold is_short in He2. apply andb_true_iff in He2 as [He2 He3].
    apply negb_true_iff in He2, He3. exists [], (listing (i + 1) none es), (long_of s e).
    cbn [insert list_insert listing app]. rewrite He0, He5. rewrite He2, He3, Z.add_0_r.
    unfold is_free in Fx. destruct (Z.eqb_spec (byte_at x 0) 0) as [Ex|Ex].
    + destruct (Hc Ex) as [Hcl _]. assert (Hnil : listing (i + 1) none es = []).
      { destruct es as [|y es]; [done|]. cbn [listing]. by rewrite (clean_zero _ _ Hcl Ex y ltac:(by left)). }
      rewrite Hnil. done.
    + cbn [orb] in Fx. rewrite Fx. done.
  - destruct (first_free_slot es) as [[k' old']|] eqn:E'; [|done]. cbn in E. injection E as <- <-.
    unfold is_free in Fx. apply orb_false_iff in Fx as [Fx0 Fx5].
    assert (Hgo : forall s', exists L1 L2 lg, listing (i + 1) s' es = L1 ++ L2 /\
      listing (i + 1) s' (<[k' := e]> es) = L1 ++ mkitem (i + Z.of_nat (S k')) lg e :: L2 /\ (byte_at old' 0 = 0 -> L2 = [])).
    { intros s'. destruct (IH k' (i + 1) s' eq_refl He) as (L1 & L2 & lg & H1 & H2 & H3).
      { intros Ho. destruct (Hc Ho) as [Hcl Hn]. split; [by eapply clean_cons|exact Hn]. }
      exists L1, L2, lg. split_and!; [done| |done]. rewrite H2. do 3 f_equal. lia. }
    cbn [insert list_insert listing]. rewrite Fx0, Fx5. destruct (byte_at x 11 =? FAT_ATTR_LFN); [apply Hgo|]. destruct (is_volume_id x); [apply Hgo|].
    destruct (Hgo none) as (L1 & L2 & lg & H1 & H2 & H3). exists (mkitem i (long_of s x) x :: L1), L2, lg.
    split_and!; [by rewrite H1|exact (f_equal (cons _) H2)|done].
Qed.

Lemma listing_zeros i s es n : listing i s (es ++ replicate n (replicate 32 0)) = listing i s es.
Proof.
  revert i s. induction es as [|e es IH]; intros i s; [by destruct n|]. cbn [app listing]. by rewrite !IH.
Qed.

Lemma insert_clean es k old e : first_free_slot es = Some (k, old) -> is_free (byte_at e 0) = false -> clean es -> clean (<[k := e]> es).
Proof.
  intros Hf He Hc i j x y Hij Hx Hy Hz. apply first_free_slot_spec in Hf as (Hk & _ & Hb).
  pose proof (lookup_lt_Some _ _ _ Hk) as Lk.
  destruct (decide (i = k)) as [->|Ni].
  { rewrite list_lookup_insert_eq in Hx by done. injection Hx as <-. unfold is_free in He. by rewrite Hz in He. }
  rewrite list_lookup_insert_ne in Hx by done.
  destruct (decide (j = k)) as [->|Nj].
  { exfalso. specialize (Hb i x ltac:(lia) Hx). unfold is_free in Hb. by rewrite Hz in Hb. }
  rewrite list_lookup_insert_ne in Hy by done. by apply (Hc i j x y).
Qed.

(** Behind the end mark there is a free entry already. *)
Lemma move_mark_id P es k old e : Forall (fun x => length x = 32%nat) es -> first_free_slot es = Some (k, old) -> clean es ->
  move_mark P (Z.of_nat k) (byte_at old 0 =? 0) (<[k := e]> es) = <[k := e]> es.
Proof.
  intros Hl Hf Hc. unfold move_mark. destruct (Z.eqb_spec (byte_at old 0) 0) as [E|]; [|done]. cbn [andb].
  destruct (_ <? _); [|done]. rewrite Nat2Z.id. apply first_free_slot_spec in Hf as (Hk & _).
  destruct (es !! S k) as [x|] eqn:Hx.
  - assert (E2 : (<[k := e]> es) !! S k = Some x) by (rewrite list_lookup_insert_ne by lia; done).
    apply list_eq. intros i. destruct (decide (i = S k)) as [->|N]; [|by rewrite list_lookup_alter_ne].
    rewrite list_lookup_alter_eq, E2. cbn. f_equal. unfold set_first. apply list_insert_id.
    assert (Z0 : byte_at x 0 = 0) by (by apply (Hc k (S k) old x); [lia|..]).
    assert (Lx : length x = 32%nat) by (by eapply (Forall_lookup_1 _ _ _ _ Hl) in Hx).
    destruct x as [|x0 x]; [done|]. cbn. f_equal. exact Z0.
  - apply list_eq. intros i. destruct (decide (i = S k)) as [->|N]; [|by rewrite list_lookup_alter_ne].
    rewrite list_lookup_alter_eq. rewrite list_lookup_insert_ne by lia. by rewrite Hx.
Qed.

Lemma dir_entries_length v l : vol_ok v -> (forall c, c ∈ l -> valid (sbi v) c) -> Forall (fun x => length x = 32%nat) (dir_entries v l).
Proof.
  intros V H. destruct (per_pos _ V) as [Hp Hcs]. unfold dir_entries. apply Forall_concat, Forall_map, Forall_forall. intros c Hc.
  unfold entries_in. apply Forall_map, Forall_forall. intros j Hj. apply elem_of_seqZ in Hj.
  apply (zlength_entry _ (per (sbi v))); [by rewrite length_cluster, <- Hcs|lia].
Qed.

Lemma chain_of_length t l : chain_of t l -> Forall (fun x => length x = 32%nat) (dir_entries (fs_vol t) l).
Proof. intros (V & H & _). apply dir_entries_length; [done|]. eapply chain_pos; [apply V|done]. Qed.

Lemma changed_quiet_trans l l' t t1 t2 : changed l l' t t1 -> chain_of t2 (l ++ l') -> quiet t1 t2 -> changed l l' t t2.
Proof.
  intros A C Q. rewrite <- (app_nil_r l'). eapply changed_trans; [exact A|].
  apply quiet_changed; [done|apply A|done].
Qed.

Lemma quiet_changed_trans l l' t t1 t2 : chain_of t1 l -> counters_ok (fs_vol t) -> quiet t t1 -> changed l l' t1 t2 -> changed l l' t t2.
Proof.
  intros C K Q A. change l' with ([] ++ l'). eapply changed_trans; [by apply quiet_changed|]. by rewrite app_nil_r.
Qed.

(** A slot for an entry: the first free one, of a new cluster if need be. *)
Lemma fat_dir_find_free_ok t l : chain_of t l -> counters_ok (fs_vol t) -> l <> [] -> zlength l < total_clusters (sbi (fs_vol t)) ->
  (exists l' t' k old, fat_dir_find_free t = (Ok (place_of (fs_vol t') (l ++ l') (Z.of_nat k), byte_at old 0 =? 0), t') /\ changed l l' t t' /\
     first_free_slot (dir_entries (fs_vol t') (l ++ l')) = Some (k, old) /\
     exists n, dir_entries (fs_vol t') (l ++ l') = dir_entries (fs_vol t) l ++ replicate n (replicate 32 0) /\
               (n = 0%nat \/ first_free_slot (dir_entries (fs_vol t) l) = None)) \/
  (exists t', fat_dir_find_free t = (Er (- ENOSPC), t') /\ changed l [] t t' /\ dir_entries (fs_vol t') l = dir_entries (fs_vol t) l /\
     first_free_slot (dir_entries (fs_vol t) l) = None /\ forall c, valid (sbi (fs_vol t)) c -> tab (fs_vol t) c <> 0).
Proof.
  intros C K Hne Hl. pose proof (zlength_nonneg l). unfold fat_dir_find_free. rewrite bind_getf.
  pose proof (free_loop_ok (Z.to_nat (total_clusters (sbi (fs_vol t)) + 1)) t l 0 0 C ltac:(lia) Hl ltac:(lia) eq_refl) as F.
  change (Z.to_nat 0) with 0%nat in F. rewrite drop_0 in F.
  destruct (first_free_slot (dir_entries (fs_vol t) l)) as [[k old]|] eqn:Ef.
  - destruct F as (t1 & E1 & C1 & Q1). left. exists [], t1, k, old. rewrite app_nil_r. split_and!.
    + rewrite E1, Z.mul_0_r, Z.add_0_l. unfold place_of. by replace (sbi (fs_vol t1)) with (sbi (fs_vol t)) by (symmetry; apply Q1).
    + by apply quiet_changed.
    + by rewrite (quiet_dir_entries _ _ _ Q1).
    + exists 0%nat. rewrite (quiet_dir_entries _ _ _ Q1), app_nil_r. split; [done|by left].
  - destruct F as (t1 & E1 & C1 & Q1). rewrite E1. assert (B1 : sbi (fs_vol t1) = sbi (fs_vol t)) by apply Q1.
    assert (K1 : counters_ok (fs_vol t1)) by (destruct Q1 as ((_ & _ & N & F) & _); unfold counters_ok; by rewrite N, F).
    destruct (dir_expand_ok t1 l C1 K1 Hne) as [(c & t2 & E2 & Ch & De)|(t2 & E2 & Ch & De & Full)]; rewrite (quiet_dir_entries _ _ _ Q1) in De.
    + left. rewrite B1 in De. destruct (per_pos _ (proj1 C)) as [Hp _]. set (P := per (sbi (fs_vol t))) in *.
      assert (B2 : sbi (fs_vol t2) = sbi (fs_vol t)) by (rewrite <- B1; apply (ch_grown _ _ _ _ Ch)).
      exists [c], t2, (length (dir_entries (fs_vol t) l)), (replicate 32 0). split_and!.
      * rewrite E2. do 3 f_equal. unfold place_of. rewrite B2. fold P. rewrite length_dir_entries by (fold P; lia). fold P.
        replace (Z.of_nat (Z.to_nat P * length l)) with (Z.of_nat (length l) * P) by lia.
        rewrite Z.div_mul, Z.mod_mul, Nat2Z.id, lookup_app_r, Nat.sub_diag by lia. done.
      * by eapply quiet_changed_trans.
      * rewrite De, first_slot_app, Ef. destruct (Z.to_nat P) as [|n] eqn:En; [lia|].
        change (first_free_slot (replicate (S n) (replicate 32 0))) with (Some (0%nat, replicate 32 0)). cbn [fmap option_fmap option_map prod_map fst snd id]. unfold prod_map. cbn [fst snd id]. do 2 f_equal. lia.
      * exists (Z.to_nat P). split; [done|by right].
    + right. exists t2. split_and!; [done|by eapply quiet_changed_trans|done|done|]. rewrite B1 in Full. intros a Va.
      rewrite <- (same_tab (fs_vol t) (fs_vol t1)) by apply Q1. by apply Full.
Qed.

Lemma none_free_clean es n : first_free_slot es = None -> clean (es ++ replicate n (replicate 32 0)).
Proof.
  intros H i j x y Hij Hx Hy Hz. pose proof (first_free_slot_none _ H) as Hn.
  assert (Li : (length es <= i)%nat).
  { destruct (decide (i < length es)%nat) as [L|]; [|lia]. rewrite lookup_app_l in Hx by done.
    specialize (Hn x ltac:(by eapply list_elem_of_lookup_2)). unfold is_free in Hn. by rewrite Hz in Hn. }
  rewrite lookup_app_r in Hy by lia. apply lookup_replicate in Hy as [-> _]. done.
Qed.

(** The new state of a directory: one entry more in the listing. *)
Record added (l l' : list Z) (e : list Z) (k : Z) (t t' : st) : Prop := {
  ad_changed : changed l l' t t';
  ad_clean : clean (dir_entries (fs_vol t') (l ++ l'));
  ad_listing : exists L1 L2 lg, listing 0 none (dir_entries (fs_vol t) l) = L1 ++ L2 /\
    listing 0 none (dir_entries (fs_vol t') (l ++ l')) = L1 ++ mkitem k lg e :: L2;
}.

Definition dir_ok (t : st) (l : list Z) : Prop :=
  chain_of t l /\ counters_ok (fs_vol t) /\ l <> [] /\ zlength l < total_clusters (sbi (fs_vol t)) /\ clean (dir_entries (fs_vol t) l).

Lemma quiet_dir_ok t t' l : dir_ok t l -> chain_of t' l -> quiet t t' -> dir_ok t' l.
Proof.
  intros (C & K & N & L & Cl) C' Q. pose proof Q as ((D & B & Nx & F) & _). unfold dir_ok.
  rewrite (quiet_dir_entries _ _ _ Q), B. unfold counters_ok. by rewrite Nx, F.
Qed.

Lemma place_entry t l e : dir_ok t l -> length e = 32%nat -> Forall is_u8 e -> is_item e = true ->
  (exists k l' t', (r <~ fat_dir_find_free ;; let '(cluster, offset, end_marker) := r in
       fat_write_entry_at cluster offset e end_marker ;~ t <~ getf ;; ret (fat_entry_ino (sbi (fs_vol t)) cluster offset)) t =
       (Ok (ino_of (fs_vol t') (l ++ l') k), t') /\ added l l' e k t t') \/
  (exists t', (r <~ fat_dir_find_free ;; let '(cluster, offset, end_marker) := r in
       fat_write_entry_at cluster offset e end_marker ;~ t <~ getf ;; ret (fat_entry_ino (sbi (fs_vol t)) cluster offset)) t = (Er (- ENOSPC), t') /\
     changed l [] t t' /\ dir_entries (fs_vol t') l = dir_entries (fs_vol t) l /\ forall c, valid (sbi (fs_vol t)) c -> tab (fs_vol t) c <> 0).
Proof.
  intros (C & K & Hne & Hl & Hcl) He Hu Hi.
  destruct (fat_dir_find_free_ok t l C K Hne Hl) as [(l' & t1 & k & old & E1 & Ch & Ff & n & De & Hn)|(t1 & E1 & Ch & De & _ & Full)].
  2:{ right. exists t1. by rewrite (bind_er _ _ _ _ _ E1). }
  left. rewrite (bind_ok _ _ _ _ _ E1). set (es1 := dir_entries (fs_vol t1) (l ++ l')) in *.
  assert (Cl1 : clean es1).
  { rewrite De. destruct Hn as [->|Hn]; [by rewrite app_nil_r|by apply none_free_clean]. }
  pose proof (first_free_slot_spec _ _ _ Ff) as (Hk & _). pose proof (lookup_lt_Some _ _ _ Hk) as Lk.
  pose proof (fat_write_entry_at_ok t1 (l ++ l') (Z.of_nat k) e (byte_at old 0 =? 0) (ch_chain _ _ _ _ Ch) (gr_counters _ _ _ _ (ch_grown _ _ _ _ Ch)) ltac:(fold es1; unfold zlength; lia) He Hu) as W.
  cbv zeta in W. destruct (place_of (fs_vol t1) (l ++ l') (Z.of_nat k)) as [c o] eqn:Ep. destruct W as (t2 & E2 & Ch2 & D2).
  rewrite (bind_ok _ _ _ _ _ E2), bind_getf. fold es1 in D2. rewrite Nat2Z.id in D2.
  rewrite (move_mark_id _ es1 k old e) in D2 by (done || apply chain_of_length, Ch).
  exists (Z.of_nat k), l', t2. assert (B2 : sbi (fs_vol t2) = sbi (fs_vol t1)) by apply (ch_grown _ _ _ _ Ch2).
  assert (Hfree : is_free (byte_at e 0) = false) by (unfold is_item in Hi; apply andb_true_iff in Hi as [Hi _]; by apply negb_true_iff in Hi).
  split.
  - assert (Ep2 : place_of (fs_vol t2) (l ++ l') (Z.of_nat k) = (c, o)) by (unfold place_of in *; by rewrite B2).
    unfold ino_of. by rewrite Ep2.
  - constructor.
    + pose proof (changed_trans _ _ _ _ _ _ Ch Ch2) as Ch3. by rewrite app_nil_r in Ch3.
    + rewrite D2. by eapply insert_clean.
    + destruct (slots_insert es1 k old e 0 none Ff Hi) as (L1 & L2 & lg & H1 & H2 & _).
      { intros Ez. split; [done|]. intros x Hx. by apply (Cl1 k (S k) old x); [lia|..]. }
      exists L1, L2, lg. rewrite D2, H2. split; [|done]. rewrite <- H1. subst es1. by rewrite De, listing_zeros.
Qed.

(** ** A new name *)

Lemma make_entry_ok s a c z now : length s = 11%nat -> Forall is_u8 s -> is_u8 a ->
  length (fat_make_short_entry s a c z now) = 32%nat /\ Forall is_u8 (fat_make_short_entry s a c z now).
Proof.
  intros Ls Us Ua. unfold fat_make_short_entry, fat_entry_set_create_times.
  set (e0 := memcpy_at (replicate 32 0) 0 s 11).
  assert (K0 : zlength e0 = 32 /\ Forall is_u8 e0).
  { subst e0. split; [unfold zlength; rewrite length_memcpy_at; unfold zlength; rewrite ?length_replicate; lia|].
    apply memcpy_u8; [apply Forall_replicate; unfold is_u8; lia|done]. }
  set (e1 := memcpy_at e0 11 [a] 1).
  assert (K1 : zlength e1 = 32 /\ Forall is_u8 e1).
  { destruct K0 as [L U]. subst e1. split; [unfold zlength in *; rewrite length_memcpy_at; unfold zlength; cbn; lia|].
    apply memcpy_u8; [done|by apply Forall_singleton]. }
  assert (W16 : forall e o v, zlength e = 32 /\ Forall is_u8 e -> 0 <= o <= 30 -> zlength (fat_write16 e o v) = 32 /\ Forall is_u8 (fat_write16 e o v)).
  { intros e o v [L U] Ho. destruct (write16_keeps e o v) as [L2 U2]; [lia|lia|done|]. split; [lia|done]. }
  assert (W32 : forall e o v, zlength e = 32 /\ Forall is_u8 e -> 0 <= o <= 28 -> zlength (fat_write32 e o v) = 32 /\ Forall is_u8 (fat_write32 e o v)).
  { intros e o v [L U] Ho. destruct (write32_keeps e o v) as [L2 U2]; [lia|lia|done|]. split; [lia|done]. }
  clearbody e1. match goal with |- length ?x = _ /\ _ => assert (R : zlength x = 32 /\ Forall is_u8 x) end.
  { repeat apply W16; try lia. apply W32; [|lia]. repeat apply W16; (done || lia). }
  destruct R as [R1 R2]. split; [unfold zlength in R1; lia|done].
Qed.

Lemma toupper_first c : 0 < c < 2 ^ 8 -> c <> 0xe5 -> is_free (fat_toupper c) = false /\ is_u8 (fat_toupper c).
Proof.
  intros Hc N. unfold fat_toupper, is_lower, is_free, is_u8.
  destruct (Z.geb_spec c 97), (Z.leb_spec c 122); cbn [andb];
    repeat match goal with |- context [?a =? ?b] => destruct (Z.eqb_spec a b); try lia end; (split; [done|lia]).
Qed.

(** The entry of a name that fits 8.3 is one that a listing shows. *)
Lemma short_entry_item n s a c z now : plain n -> fat_name_to_short n = Ok s -> byte_at n 0 <> 0xe5 -> is_u8 a -> a <> FAT_ATTR_LFN ->
  Z.land a FAT_ATTR_VOLUME_ID = 0 ->
  let e := fat_make_short_entry s a c z now in length e = 32%nat /\ Forall is_u8 e /\ is_item e = true.
Proof.
  intros Hp Hs H5 Ua Na Va. cbv zeta. apply name_to_short_split in Hs as (b & x & -> & Lb & Lx & En & _).
  assert (Pb : plain b /\ plain x).
  { subst n. apply plain_app in Hp as [Pb Px]. split; [done|]. destruct (decide (x = [])) as [->|]; [constructor|]. by inversion Px. }
  destruct Pb as [Pb Px]. set (s := (map fat_toupper b ++ replicate (8 - length b) 32) ++ map fat_toupper x ++ replicate (3 - length x) 32).
  assert (Ls : length s = 11%nat) by (subst s; rewrite !length_app, !length_map, !length_replicate; lia).
  assert (Us : Forall is_u8 s).
  { subst s. repeat apply Forall_app_2; try (apply Forall_replicate; unfold is_u8; lia); apply plain_u8, toupper_plain; done. }
  destruct (make_entry_ok s a c z now Ls Us Ua) as [Le Ue]. split_and!; [done|done|].
  assert (E0 : byte_at (fat_make_short_entry s a c z now) 0 = fat_toupper (byte_at n 0)).
  { rewrite (byte_of_take _ 0 13), make_prefix by (done || lia). subst s n. destruct b as [|b0 b]; [cbn in Lb; lia|]. done. }
  assert (E11 : byte_at (fat_make_short_entry s a c z now) 11 = a).
  { rewrite (byte_of_take _ 11 13), make_prefix by (done || lia). unfold byte_at. rewrite lookup_app_r by (rewrite Ls; lia).
    by rewrite Ls. }
  assert (Hb : 0 < byte_at n 0 < 2 ^ 8).
  { subst n. destruct b as [|b0 b]; [cbn in Lb; lia|]. apply Forall_cons in Pb as [Pb _]. exact Pb. }
  unfold is_item, is_short, is_volume_id. rewrite E0, E11, Va. destruct (toupper_first _ Hb H5) as [-> _].
  by destruct (Z.eqb_spec a FAT_ATTR_LFN).
Qed.

Lemma item_named_app m a b : item_named m (a ++ b) = match item_named m a with Some k => Some k | None => item_named m b end.
Proof. induction a as [|x a IH]; [done|]. cbn [app]. rewrite !item_named_cons. by destruct (has_name m x). Qed.

Definition in_use (name sn : list Z) (es : list (list Z)) : bool :=
  match item_named name (listing 0 none es) with Some _ => true | None => short_used sn es end.

(** A name that fits 8.3. *)
Lemma add_short_name_ok name sn a c z now t l : dir_ok t l -> plain name -> zlength name <= 255 -> existsb bad_name_char name = false ->
  fat_name_to_short name = Ok sn -> byte_at name 0 <> 0xe5 -> is_u8 a -> a <> FAT_ATTR_LFN -> Z.land a FAT_ATTR_VOLUME_ID = 0 ->
  if in_use name sn (dir_entries (fs_vol t) l) then
    exists t', fat_add_entry_name name a c z now t = (Er (- EEXIST), t') /\ chain_of t' l /\ quiet t t'
  else
    (exists k l' t', fat_add_entry_name name a c z now t = (Ok (ino_of (fs_vol t') (l ++ l') k), t') /\
       added l l' (fat_make_short_entry sn a c z now) k t t' /\
       item_named name (listing 0 none (dir_entries (fs_vol t') (l ++ l'))) = Some k) \/
    (exists t', fat_add_entry_name name a c z now t = (Er (- ENOSPC), t') /\
       changed l [] t t' /\ dir_entries (fs_vol t') l = dir_entries (fs_vol t) l /\ forall c, valid (sbi (fs_vol t)) c -> tab (fs_vol t) c <> 0).
Proof.
  intros D Hp Hlen Hbad Hs H5 Ua Na Va. pose proof D as (C & K & Hne & Hl & Hcl).
  assert (Hpos : 1 <= zlength name).
  { apply name_to_short_split in Hs as (b & x & _ & Lb & _ & -> & _). rewrite zlength_app. pose proof (zlength_nonneg (if decide (x = []) then [] else 46 :: x)).
    unfold zlength at 1. lia. }
  unfold fat_add_entry_name, in_use. destruct (Z.ltb_spec (zlength name) 1); [lia|]. destruct (Z.gtb_spec (zlength name) 255); [lia|].
  cbn [orb]. rewrite Hbad.
  destruct (fat_dir_find_entry_ok t l name C Hl) as (t1 & E1 & C1 & Q1). rewrite (bind_try _ _ _ _ _ E1).
  destruct (item_named name (listing 0 none (dir_entries (fs_vol t) l))) as [k0|] eqn:En; [by exists t1|].
  change (- ENOENT =? - ENOENT) with true. cbv iota. rewrite bind_ret, Hs. unfold fat_add_entry.
  pose proof (quiet_dir_ok _ _ _ D C1 Q1) as D1. assert (B1 : sbi (fs_vol t1) = sbi (fs_vol t)) by apply Q1.
  destruct (short_name_exists_ok t1 l sn C1 ltac:(by rewrite B1)) as (t2 & E2 & C2 & Q2). rewrite (bind_ok _ _ _ _ _ E2).
  rewrite (quiet_dir_entries _ _ _ Q1). pose proof (quiet_trans _ _ _ Q1 Q2) as Q12.
  destruct (short_used sn (dir_entries (fs_vol t) l)) eqn:Es; [by exists t2|].
  pose proof (quiet_dir_ok _ _ _ D C2 Q12) as D2. assert (B2 : sbi (fs_vol t2) = sbi (fs_vol t)) by apply Q12.
  destruct (short_entry_item name sn a c z now Hp Hs H5 Ua Na Va) as (Le & Ue & Ie).
  destruct (place_entry t2 l (fat_make_short_entry sn a c z now) D2 Le Ue Ie) as [(k & l' & t3 & E3 & Ad)|(t3 & E3 & Ch & De & Full)].
  - left. exists k, l', t3. destruct Ad as [Ch Cl (L1 & L2 & lg & Hb & Ha)]. rewrite (quiet_dir_entries _ _ _ Q12) in Hb.
    split; [exact E3|]. split.
    + constructor; [by eapply quiet_changed_trans|done|by exists L1, L2, lg].
    + rewrite Ha. rewrite Hb, item_named_app in En. rewrite item_named_app. destruct (item_named name L1); [done|].
      rewrite item_named_cons. unfold has_name at 1. cbn [it_long it_entry it_index].
      replace (fat_short_name_match name (fat_make_short_entry sn a c z now)) with true by (symmetry; by apply (short_name_iff name sn)).
      by rewrite orb_true_r.
  - right. exists t3. split; [exact E3|]. rewrite (quiet_dir_entries _ _ _ Q12) in De. split_and!; [by eapply quiet_changed_trans|done|].
    intros a' Va'. rewrite <- (same_tab (fs_vol t) (fs_vol t2)) by apply Q12. apply Full. by rewrite B2.
Qed.

(** C15: creating a file with a name that fits 8.3 and does not begin with the
    mark of a deleted entry, 0xe5 (long names are written by
    [fat_add_entry_name] too, but their creation can fail with everything
    written, and is not covered here): if the name or its short form
    is in use the call gives [-EEXIST] and changes caches only; else the directory
    has one entry more, in its first free slot or in a new cluster of zeros, the
    search finds it, and every other entry and every other file stays as it is;
    or no cluster is free, and the call gives [-ENOSPC] and the entries stay. *)
Theorem fat_create_exact now name sn t l : dir_ok t l -> readonly (sbi (fs_vol t)) = false -> plain name -> zlength name <= 255 ->
  existsb bad_name_char name = false -> fat_name_to_short name = Ok sn -> byte_at name 0 <> 0xe5 ->
  if in_use name sn (dir_entries (fs_vol t) l) then
    exists t', fat_create now name t = (Er (- EEXIST), t') /\ chain_of t' l /\ quiet t t'
  else
    (exists k l' t', fat_create now name t = (Ok (ino_of (fs_vol t') (l ++ l') k), t') /\
       added l l' (fat_make_short_entry sn FAT_ATTR_ARCHIVE 0 0 now) k t t' /\
       item_named name (listing 0 none (dir_entries (fs_vol t') (l ++ l'))) = Some k) \/
    (exists t', fat_create now name t = (Er (- ENOSPC), t') /\
       changed l [] t t' /\ dir_entries (fs_vol t') l = dir_entries (fs_vol t) l /\ forall c, valid (sbi (fs_vol t)) c -> tab (fs_vol t) c <> 0).
Proof.
  intros D Hro Hp Hl Hb Hs H5. unfold fat_create. rewrite bind_getf, Hro.
  by apply add_short_name_ok.
Qed.

(** ** Runs on the small volume *)

Fixpoint clean_b (es : list (list Z)) : bool :=
  match es with [] => true | e :: es => if byte_at e 0 =? 0 then forallb (fun x => byte_at x 0 =? 0) es else clean_b es end.
Lemma clean_by_computation es : clean_b es = true -> clean es.
Proof.
  induction es as [|e es IH]; intros H i j x y Hij Hx Hy Hz; [done|]. cbn in H. destruct (Z.eqb_spec (byte_at e 0) 0) as [Ee|Ee].
  - destruct j as [|j]; [cbn in Hy; congruence|]. rewrite forallb_forall in H. apply Z.eqb_eq, H, list_elem_of_In.
    cbn in Hy. by eapply list_elem_of_lookup_2.
  - destruct i as [|i]; [cbn in Hx; congruence|]. destruct j as [|j]; [lia|]. by apply (IH H i j x y ltac:(lia)).
Qed.

Lemma three_dir_ok : dir_ok (dir_st three) [2].
Proof.
  split_and!; [apply dir_st_chain, three_u8|done|done|done|]. by apply clean_by_computation.
Qed.

Lemma fat_create_exact_witness :
  (exists t', fat_create 0 [102; 98] (dir_st three) = (Er (- EEXIST), t') /\ chain_of t' [2] /\ quiet (dir_st three) t') /\
  exists k l' t', fat_create 0 [100] (dir_st three) = (Ok (ino_of (fs_vol t') ([2] ++ l') k), t') /\
    added [2] l' (fat_make_short_entry (68 :: replicate 10 32) FAT_ATTR_ARCHIVE 0 0 0) k (dir_st three) t' /\
    item_named [100] (listing 0 none (dir_entries (fs_vol t') ([2] ++ l'))) = Some k.
Proof.
  assert (P1 : plain [102; 98]) by (by repeat constructor). assert (P2 : plain [100]) by (by repeat constructor). split.
  - pose proof (fat_create_exact 0 [102; 98] (70 :: 66 :: replicate 9 32) (dir_st three) [2] three_dir_ok eq_refl P1) as T.
    replace (in_use _ _ _) with true in T by (by vm_compute). apply T; vm_compute; congruence.
  - pose proof (fat_create_exact 0 [100] (68 :: replicate 10 32) (dir_st three) [2] three_dir_ok eq_refl P2) as T.
    replace (in_use _ _ _) with false in T by (by vm_compute).
    destruct T as [T|(t' & E & _)]; [vm_compute; congruence..|exact T|].
    exfalso. pose proof (f_equal fst E) as E1. revert E1. vm_compute. congruence.
Defined.

(** a directory with a long name made in it whose last entry is the last of
    the last cluster: the call gives [-ENOENT] and sets the new cluster free, but
    the entry stays, and the search finds it. *)
Theorem failed_mkdir_stays :
  let name := [108; 111; 110; 103; 110; 97; 109; 101; 49] in
  let '(r, t) := fat_mkdir 0 name (dir_st (map file_entry (seqZ 0 14))) in
  r = Er (- ENOENT) /\ (fat_dir_find_entry name t).1 = Ok (2, 480) /\
  fat_entry_first_cluster (entry_at (cluster_data (fs_vol t) 2) 480) = 3 /\ tab (fs_vol t) 3 = 0.
Proof. by vm_compute. Qed.

(** a file renamed to a long name whose last entry is the last of the last
    cluster: the call gives [-ENOENT] and puts the old name back, but the new entry
    stays too, and both names have the clusters of the file. *)
Theorem failed_rename_links_twice :
  let name := [108; 111; 110; 103; 110; 97; 109; 101; 49] in
  let file := fat_make_short_entry (70 :: 90 :: replicate 9 32) FAT_ATTR_ARCHIVE 3 100 0 in
  let s := dir_st (file :: map file_entry (seqZ 0 13)) in
  let '(r, (t, _)) := fat_rename true 0 [102; 122] name (s, ino s) in
  r = Er (- ENOENT) /\ (fat_dir_find_entry [102; 122] t).1 = Ok (2, 0) /\ (fat_dir_find_entry name t).1 = Ok (2, 480) /\
  fat_entry_first_cluster (entry_at (cluster_data (fs_vol t) 2) 0) = 3 /\
  fat_entry_first_cluster (entry_at (cluster_data (fs_vol t) 2) 480) = 3.
Proof. by vm_compute. Qed.
End FatDirOps.
