(* ===== verification/FatSuper.v ===== *)
(** * FAT32: mounting ([fs/fat/super.c])

    The boot sector, the caches and the counters of a volume that is mounted, and
    the bit of the boot sector that says whether it was unmounted. *)
From Stdlib Require Import FunctionalExtensionality.
From S2P Require Import Prelude Ext2 Fat FatFile FatName FatDir FatDirOps.
Import Ext2 Fat FatFile FatName FatDir FatDirOps.

Module FatSuper.

Definition FAT_BPB_CLEAN_SHUTDOWN : Z := 0x41.
Definition FAT_FAT_CACHE_SLOTS : nat := 4.

Definition is_boot (buf : list Z) : bool := (byte_at buf 510 =? 0x55) && (byte_at buf 511 =? 0xaa).

Definition set_clean (clean : bool) (buf : list Z) : list Z :=
  let b := byte_at buf FAT_BPB_CLEAN_SHUTDOWN in
  <[Z.to_nat FAT_BPB_CLEAN_SHUTDOWN := if clean then Z.lor b 1 else Z.land b 0xfe]> buf.

Definition fat_set_clean_shutdown (clean : bool) : F unit :=
  kmalloc ;~
  buf <~ blkdev_read 0 1 ;;
  if negb (is_boot buf) then fail (- EIO) else blkdev_write 0 1 (set_clean clean buf).

Definition fat_write_super : F unit :=
  i <~ get_sb ;;
  if readonly i then ret tt else
  fat_set_clean_shutdown true ;~
  try fat_write_fsinfo ;~ ret tt.

(** The constants of the boot sector, if they are accepted. *)
Definition fat_parse_bpb (buf : list Z) : option sb_info :=
  let bytes_per_sector := fat_read16 buf 11 in
  let sectors_per_cluster := byte_at buf 13 in
  let reserved_sectors := fat_read16 buf 14 in
  let num_fats := byte_at buf 16 in
  let total16 := fat_read16 buf 19 in
  let total32 := fat_read32 buf 32 in
  let fat_size32 := fat_read32 buf 36 in
  let root_cluster := fat_read32 buf 44 in
  let fsinfo_sector := fat_read16 buf 48 in
  if negb (bytes_per_sector =? 512) then None else
  if (sectors_per_cluster =? 0) || (sectors_per_cluster >? 128) ||
     negb (Z.land sectors_per_cluster (sectors_per_cluster - 1) =? 0) then None else
  if (reserved_sectors =? 0) || (fat_size32 =? 0) then None else
  if (num_fats <? 1) || (num_fats >? 2) then None else
  if root_cluster <? 2 then None else
  let total_sectors := if total16 =? 0 then total32 else total16 in
  if total_sectors =? 0 then None else
  if negb (fsinfo_sector =? 0) && (fsinfo_sector >=? total_sectors) then None else
  let first_data_sector := u32 (reserved_sectors + u32 (num_fats * fat_size32)) in
  if first_data_sector >=? total_sectors then None else
  let total_clusters := (total_sectors - first_data_sector) / sectors_per_cluster in
  if total_clusters <? 2 then None else
  Some (mksbi bytes_per_sector sectors_per_cluster num_fats reserved_sectors fat_size32 total_sectors root_cluster fsinfo_sector
          first_data_sector total_clusters (u32 (bytes_per_sector * sectors_per_cluster)) false).

Definition set_readonly (ro : bool) (i : sb_info) : sb_info :=
  mksbi (bytes_per_sector i) (sectors_per_cluster i) (num_fats i) (reserved_sectors i) (fat_size32 i) (total_sectors i) (root_cluster i)
    (fsinfo_sector i) (first_data_sector i) (total_clusters i) (cluster_size i) ro.
Definition set_sbi (i : sb_info) (s : vol) : vol := mkvol (disk s) i (next_free s) (free_clusters s) (fat_cache s) (faults s).

(** One of the four buffers; what [kmalloc] leaves in it is not read before it is
    filled. *)
Fixpoint alloc_slots (n : nat) : F unit :=
  match n with
  | O => ret tt
  | S n => kmalloc ;~ modify (fun s => set_cache (fat_cache s ++ [mkslot false 0 0 []]) s) ;~ alloc_slots n
  end.

Definition iget_root : F inode := fun s =>
  let '(r, t) := iget FAT_ROOT_INO (mkst s (mkinode 0 false 0 0 0 0 0 false 0 0 0 (mkfi 0 0 0 0 false)) []) in (r, fs_vol t).

(** The inode of the root, or [None] for the NULL that every failure gives. *)
Definition fat_read_super (s_dev : Z) (rdonly : bool) : F (option inode) :=
  if s_dev =? 0 then ret None else
  r <~ try (
    kmalloc ;~
    buf <~ blkdev_read 0 1 ;;
    if negb (is_boot buf) then fail (- EINVAL) else
    match fat_parse_bpb buf with
    | None => fail (- EINVAL)
    | Some i =>
      modify (set_sbi (set_readonly rdonly i)) ;~
      modify (set_next_free 2) ;~
      modify (set_cache []) ;~ alloc_slots FAT_FAT_CACHE_SLOTS ;~
      modify (set_free_clusters FAT_FSINFO_UNKNOWN) ;~
      try fat_load_fsinfo ;~
      s <~ get ;;
      (if free_clusters s =? FAT_FSINFO_UNKNOWN then n <~ fat_count_free_clusters ;; modify (set_free_clusters n) else ret tt) ;~
      root <~ iget_root ;;
      (if rdonly then ret tt else fat_set_clean_shutdown false) ;~
      ret root
    end) ;;
  match r with Ok root => ret (Some root) | Er _ => ret None end.

(** ** What the boot sector has to say *)

(** The conditions that [fat_parse_bpb] does not check. *)
Record sound (i : sb_info) : Prop := {
  so_first : reserved_sectors i + num_fats i * fat_size32 i < 2 ^ 32;
  so_table : (total_clusters i + 2) * 4 <= fat_size32 i * 512;
  so_marks : total_clusters i + 2 <= FAT_BAD_CLUSTER;
  so_fsinfo : fsinfo_sector i < reserved_sectors i;
}.

Lemma le16_range l off : Forall is_u8 l -> 0 <= le16 l off < 2 ^ 16.
Proof.
  intros H. rewrite le16_eq by done. pose proof (byte_at_range l off H). pose proof (byte_at_range l (off + 1) H). unfold is_u8 in *. lia.
Qed.

Lemma parse_geom buf i ro : Forall is_u8 buf -> fat_parse_bpb buf = Some i -> sound i -> geom (set_readonly ro i).
Proof.
  intros U H S. unfold fat_parse_bpb, fat_read16, fat_read32 in H. cbv zeta in H.
  pose proof (le16_range buf 14 U). pose proof (le16_range buf 48 U). pose proof (le16_range buf 19 U).
  pose proof (le32_range buf 32 U) as R32. pose proof (le32_range buf 36 U) as R36. pose proof (byte_at_range buf 13 U) as R13. unfold is_u32, is_u8 in *.
  set (spc := byte_at buf 13) in *. set (res_ := le16 buf 14) in *. set (nf := byte_at buf 16) in *. set (fs := le32 buf 36) in *.
  set (tot := if le16 buf 19 =? 0 then le32 buf 32 else le16 buf 19) in *.
  assert (Ht : 0 <= tot < 2 ^ 32) by (subst tot; destruct (Z.eqb_spec (le16 buf 19) 0); lia). clearbody tot.
  destruct (Z.eqb_spec (le16 buf 11) 512); cbn [negb] in H; [|done].
  destruct (Z.eqb_spec spc 0); [done|]. destruct (Z.gtb_spec spc 128); [done|]. cbn [orb] in H. destruct (negb _) in H; [done|].
  destruct (Z.eqb_spec res_ 0); [done|]. destruct (Z.eqb_spec fs 0); [done|]. cbn [orb] in H.
  destruct (Z.ltb_spec nf 1); [done|]. destruct (Z.gtb_spec nf 2); [done|]. cbn [orb] in H.
  destruct (_ <? 2) in H; [done|]. destruct (Z.eqb_spec tot 0); [done|]. destruct (negb _ && _) in H; [done|].
  set (first := u32 (res_ + u32 (nf * fs))) in *. destruct (Z.geb_spec first tot); [done|].
  set (tc := (tot - first) / spc) in *. destruct (Z.ltb_spec tc 2); [done|]. injection H as <-. destruct S as [S1 S2 S3 S4]. cbn in S1, S2, S3, S4.
  assert (Ef : first = res_ + nf * fs) by (subst first; rewrite (u32_small (nf * fs)) by nia; apply u32_small; nia).
  clearbody first. constructor; cbn; try lia.
  - rewrite u32_small; lia.
  - pose proof (Z.div_mod (tot - first) spc ltac:(lia)). pose proof (Z.mod_pos_bound (tot - first) spc ltac:(lia)). fold tc in H5. lia.
Qed.

(** ** Mounting *)

(** A device with a boot sector that is accepted and sound, and copies of the
    table that agree. *)
Record mountable (d : Z -> list Z) (i : sb_info) : Prop := {
  mt_sectors : sectors_ok d;
  mt_boot : is_boot (d 0) = true;
  mt_parse : fat_parse_bpb (d 0) = Some i;
  mt_sound : sound i;
  mt_copies : forall k c, 0 <= k < num_fats i -> valid i c -> raw d i k c = raw d i 0 c;
}.

Definition device (d : Z -> list Z) : vol := mkvol d (mksbi 0 0 0 0 0 0 0 0 0 0 0 false) 0 0 [] [].

Lemma fresh_vol_ok d i ro n c : mountable d i -> vol_ok (mkvol d (set_readonly ro i) n c (replicate 4 (mkslot false 0 0 [])) []).
Proof.
  intros [M1 M2 M3 M4 M5]. constructor; cbn; [exact (parse_geom _ i ro (proj2 (M1 0)) M3 M4)|exact M1|done| |exact M5|done].
  intros x Hx Hv. repeat (apply elem_of_cons in Hx as [->|Hx]; [done|]). by apply not_elem_of_nil in Hx.
Qed.

(** The counters that the FSInfo sector gives. *)
Definition fsinfo_next (i : sb_info) (b : list Z) : Z :=
  let n := fat_read32 b 492 in if fsinfo_valid b && (n >=? 2) && (u32 (n - 2) <? total_clusters i) then n else 2.
Definition fsinfo_free (i : sb_info) (b : list Z) : option Z :=
  let c := fat_read32 b 488 in
  if fsinfo_valid b && negb (c =? FAT_FSINFO_UNKNOWN) && (c <=? total_clusters i) then Some c else None.
Definition on_disk (d : Z -> list Z) (i : sb_info) : option (list Z) :=
  if (fsinfo_sector i =? 0) || (fsinfo_sector i >=? total_sectors i) then None else Some (d (fsinfo_sector i)).

Lemma load_fsinfo_ok s : faults s = [] -> next_free s = 2 -> free_clusters s = FAT_FSINFO_UNKNOWN ->
  exists r, fat_load_fsinfo s = (r, set_free_clusters (default FAT_FSINFO_UNKNOWN (on_disk (disk s) (sbi s) ≫= fsinfo_free (sbi s)))
    (set_next_free (default 2 (fsinfo_next (sbi s) <$> on_disk (disk s) (sbi s))) s)).
Proof.
  intros Hf Hn Hc. unfold fat_load_fsinfo, on_disk. rewrite bind_sb.
  assert (Es : set_free_clusters FAT_FSINFO_UNKNOWN (set_next_free 2 s) = s) by (destruct s; cbn in *; by subst).
  destruct (_ || _); [eexists; cbn; by rewrite Es|]. unfold kmalloc, bind at 1, next_fault. rewrite Hf.
  unfold blkdev_read, read_buf, next_fault, bind at 1. unfold bind at 1. rewrite Hf, read_one. unfold ret at 1.
  set (b := disk s (fsinfo_sector (sbi s))). cbn [fmap option_fmap option_map default id mbind option_bind]. unfold fsinfo_next, fsinfo_free.
  destruct (fsinfo_valid b); cbn [negb andb]; [|eexists; cbn; by rewrite Es]. eexists. unfold bind.
  destruct ((fat_read32 b 492 >=? 2) && (u32 (fat_read32 b 492 - 2) <? total_clusters (sbi s))); cbn; rewrite ?Hn; [|].
  - by destruct (negb _ && _).
  - replace (set_next_free 2 s) with s by (destruct s; cbn in *; by subst). by destruct (negb _ && _).
Qed.

Lemma alloc_slots_ok n s : faults s = [] -> alloc_slots n s = (Ok tt, set_cache (fat_cache s ++ replicate n (mkslot false 0 0 [])) s).
Proof.
  revert s. induction n as [|n IH]; intros s Hf; cbn [alloc_slots replicate].
  - rewrite app_nil_r. by destruct s.
  - unfold kmalloc, bind at 1, next_fault. rewrite Hf. unfold bind at 1, modify. rewrite IH by done. cbn. by rewrite <- app_assoc.
Qed.

Definition put_sector (x : Z) (b : list Z) (d : Z -> list Z) : Z -> list Z := fun y => if decide (y = x) then b else d y.

Lemma lor_u8 a b : 0 <= a < 2 ^ 8 -> 0 < b < 2 ^ 8 -> 0 <= Z.lor a b < 2 ^ 8.
Proof.
  intros Ha Hb. split; [apply Z.lor_nonneg; lia|]. pose proof (proj2 (Z.lor_nonneg a b) ltac:(lia)).
  destruct (decide (Z.lor a b = 0)) as [->|]; [done|]. apply Z.log2_lt_pow2; [lia|].
  rewrite Z.log2_lor by lia. apply Z.max_lub_lt; [|apply Z.log2_lt_pow2; lia].
  destruct (decide (a = 0)) as [->|]; [done|]. apply Z.log2_lt_pow2; lia.
Qed.

Lemma set_clean_ok c b : length b = 512%nat -> Forall is_u8 b -> length (set_clean c b) = 512%nat /\ Forall is_u8 (set_clean c b).
Proof.
  intros L U. unfold set_clean. rewrite length_insert. split; [done|]. apply Forall_insert; [done|].
  pose proof (byte_at_range b FAT_BPB_CLEAN_SHUTDOWN U) as R. unfold is_u8 in *. destruct c.
  - by apply lor_u8.
  - pose proof (proj2 (Z.land_nonneg (byte_at b FAT_BPB_CLEAN_SHUTDOWN) 0xfe) ltac:(lia)). split; [lia|].
    destruct (decide (Z.land (byte_at b FAT_BPB_CLEAN_SHUTDOWN) 0xfe = 0)) as [->|]; [done|]. apply Z.log2_lt_pow2; [lia|].
    pose proof (Z.log2_land (byte_at b FAT_BPB_CLEAN_SHUTDOWN) 0xfe ltac:(lia) ltac:(lia)) as Hl. change (Z.log2 0xfe) with 7 in Hl. lia.
Qed.

Lemma clean_shutdown_ok s c : vol_ok s -> is_boot (disk s 0) = true ->
  exists s', fat_set_clean_shutdown c s = (Ok tt, s') /\ meta s s' /\ disk s' = put_sector 0 (set_clean c (disk s 0)) (disk s).
Proof.
  intros V Hb. destruct (v_sectors _ V 0) as [L U]. destruct (set_clean_ok c _ L U) as [L' U'].
  unfold fat_set_clean_shutdown, kmalloc, bind at 1, next_fault. rewrite (v_fine _ V).
  unfold blkdev_read, read_buf, next_fault, bind at 1. unfold bind at 1. rewrite (v_fine _ V), read_one. unfold ret at 1. rewrite Hb. cbn [negb].
  unfold blkdev_write, next_fault. rewrite (v_fine _ V). eexists. split; [done|]. split.
  - apply write_reserved; [done| |done|done]. pose proof (g_reserved _ (v_geom _ V)). lia.
  - cbn. by rewrite write_one.
Qed.

Definition root_inode (i : sb_info) : inode := mkinode FAT_ROOT_INO false 0 0 0 0 0 false 0 0 FAT_ATTR_DIRECTORY (mkfi (root_cluster i) 0 0 0 false).

Lemma iget_root_ok s : iget_root s = (Ok (root_inode (sbi s)), s).
Proof. by destruct s. Qed.

Lemma count_free_ok s : vol_ok s -> exists s', fat_count_free_clusters s = (Ok (zlength (free_set s)), s') /\ vol_ok s' /\ same s s'.
Proof.
  intros V. pose proof (g_clusters _ (v_geom _ V)). unfold fat_count_free_clusters. rewrite bind_sb.
  destruct (count_from_ok (Z.to_nat (total_clusters (sbi s))) s 2 V) as (s' & E & V' & S); [lia|lia|].
  rewrite Z2Nat.id in E by lia. by exists s'.
Qed.

(** The free clusters of a device. *)
Definition free_on (d : Z -> list Z) (i : sb_info) : list Z := filter (fun c => Z.land (raw d i 0 c) 0x0fffffff = 0) (seqZ 2 (total_clusters i)).

Lemma free_on_le d i : 0 <= total_clusters i -> zlength (free_on d i) <= total_clusters i.
Proof.
  intros H. pose proof (length_filter (fun c => Z.land (raw d i 0 c) 0x0fffffff = 0) (seqZ 2 (total_clusters i))) as L.
  rewrite length_seqZ in L. unfold free_on, zlength. lia.
Qed.

(** FSInfo is written behind the boot sector, or not at all. *)
Lemma write_fsinfo_boot s : vol_ok s -> exists r s', fat_write_fsinfo s = (r, s') /\ vol_ok s' /\ disk s' 0 = disk s 0.
Proof.
  intros V. destruct (fat_write_fsinfo_ok s V) as (r & s' & E & M). exists r, s'. split_and!; [done|apply M|].
  revert E. unfold fat_write_fsinfo. unfold bind at 1. cbn [get_sb]. destruct (Z.eqb_spec (fsinfo_sector (sbi s)) 0) as [|N]; [by intros [= _ <-]|].
  destruct (_ || _); [by intros [= _ <-]|]. unfold kmalloc, bind at 1, next_fault. rewrite (v_fine _ V).
  unfold blkdev_read, read_buf, next_fault, bind at 1. unfold bind at 1. rewrite (v_fine _ V), read_one.
  unfold ret at 1. destruct (negb _); [by intros [= _ <-]|]. unfold bind, get, blkdev_write, next_fault. rewrite (v_fine _ V).
  intros [= _ <-]. cbn. destruct (v_sectors _ V (fsinfo_sector (sbi s))) as [L _].
  rewrite write_one; [by rewrite decide_False by done|]. rewrite (fat_write32_eq _ 492), (fat_write32_eq _ 488). assert (L1 : length (ext2_write32 (disk s (fsinfo_sector (sbi s))) 488 (free_clusters s)) = 512%nat).
  { rewrite length_write32; unfold zlength; lia. }
  rewrite length_write32; unfold zlength; lia.
Qed.

Lemma mount_run d i ro dev : mountable d i -> dev <> 0 ->
  exists s', vol_ok s' /\ disk s' = d /\ sbi s' = set_readonly ro i /\ next_free s' = default 2 (fsinfo_next i <$> on_disk d i) /\
    free_clusters s' = default (zlength (free_on d i)) (on_disk d i ≫= fsinfo_free i) /\
    fat_read_super dev ro (device d) =
      (let '(r, v) := (if ro then ret tt else fat_set_clean_shutdown false) s' in
       (match r with Ok _ => Ok (Some (root_inode i)) | Er _ => Ok None end, v)).
Proof.
  intros Mt Hd. pose proof Mt as [M1 M2 M3 M4 M5]. unfold fat_read_super. destruct (Z.eqb_spec dev 0); [done|].
  set (s1 := set_free_clusters FAT_FSINFO_UNKNOWN (set_cache (replicate 4 (mkslot false 0 0 [])) (set_next_free 2 (set_sbi (set_readonly ro i) (device d))))).
  set (nx := default 2 (fsinfo_next i <$> on_disk d i)). set (fc := on_disk d i ≫= fsinfo_free i).
  destruct (load_fsinfo_ok s1 eq_refl eq_refl eq_refl) as (r & E1).
  change (on_disk (disk s1) (sbi s1) ≫= fsinfo_free (sbi s1)) with fc in E1.
  change (default 2 (fsinfo_next (sbi s1) <$> on_disk (disk s1) (sbi s1))) with nx in E1.
  set (s2 := set_free_clusters (default FAT_FSINFO_UNKNOWN fc) (set_next_free nx s1)) in *.
  assert (V2 : vol_ok s2) by (apply (fresh_vol_ok d i ro nx (default FAT_FSINFO_UNKNOWN fc) Mt)).
  pose proof (v_geom _ V2) as G. pose proof (g_clusters _ G) as Gc. pose proof (g_marks _ G) as Gm. unfold FAT_BAD_CLUSTER in Gm. cbn in Gc, Gm.
  assert (Hc : exists s3, (if free_clusters s2 =? FAT_FSINFO_UNKNOWN then n <~ fat_count_free_clusters ;; modify (set_free_clusters n) else ret tt) s2 =
    (Ok tt, s3) /\ vol_ok s3 /\ disk s3 = d /\ sbi s3 = set_readonly ro i /\ next_free s3 = nx /\ free_clusters s3 = default (zlength (free_on d i)) fc).
  { change (free_clusters s2) with (default FAT_FSINFO_UNKNOWN fc).
    assert (Hfc : forall c, fc = Some c -> c <= total_clusters i).
    { intros c Hc. unfold fc in Hc. destruct (on_disk d i) as [b|]; [|done]. cbn in Hc. unfold fsinfo_free in Hc.
      destruct (fsinfo_valid b); [|done]. destruct (negb _); [|done]. cbn [andb] in Hc. destruct (Z.leb_spec (fat_read32 b 488) (total_clusters i)); [by injection Hc as <-|done]. }
    destruct fc as [c|].
    - specialize (Hfc c eq_refl). change (default FAT_FSINFO_UNKNOWN (Some c)) with c. unfold FAT_FSINFO_UNKNOWN. destruct (Z.eqb_spec c 0xffffffff); [lia|]. exists s2. split_and!; [reflexivity|exact V2|reflexivity..].
    - change (default FAT_FSINFO_UNKNOWN None =? FAT_FSINFO_UNKNOWN) with true. cbv iota.
      destruct (count_free_ok s2 V2) as (s3 & E3 & V3 & S3). rewrite (bind_ok _ _ _ _ _ E3). eexists. split; [done|].
      destruct S3 as (D3 & B3 & N3 & _). split_and!; [by apply meta_free_clusters|exact D3|exact B3|exact N3|done]. }
  destruct Hc as (s3 & E3 & V3 & D3 & B3 & N3 & F3). exists s3. split_and!; [done..|].
  unfold bind at 1. unfold try.
  match goal with |- context [let '(r, s') := ?m (device d) in _] => replace (m (device d)) with
    (let '(r, v) := (if ro then ret tt else fat_set_clean_shutdown false) s3 in (match r with Ok _ => Ok (root_inode i) | Er e => Er e end, v)) end.
  - by destruct ((if ro then ret tt else fat_set_clean_shutdown false) s3) as [[] v].
  - symmetry. unfold kmalloc at 1, bind at 1. cbn [next_fault faults device]. unfold blkdev_read, read_buf, bind at 1. unfold bind at 1. cbn [next_fault faults device].
    rewrite read_one. unfold ret at 1. change (disk (device d) 0) with (d 0). rewrite M2, M3. cbn [negb].
    unfold modify at 1, bind at 1. unfold modify at 1, bind at 1. unfold modify at 1, bind at 1.
    erewrite bind_ok; [|by apply alloc_slots_ok]. unfold modify at 1, bind at 1.
    change (set_free_clusters FAT_FSINFO_UNKNOWN _) with s1. rewrite (bind_try _ _ _ _ _ E1). unfold bind at 1. cbn [get].
    rewrite (bind_ok _ _ _ _ _ E3), (bind_ok _ _ _ _ _ (iget_root_ok s3)). rewrite B3. change (root_inode (set_readonly ro i)) with (root_inode i).
    unfold bind. by destruct ((if ro then ret tt else fat_set_clean_shutdown false) s3) as [[] v].
Qed.

Lemma fsinfo_next_range i b : 2 <= total_clusters i -> total_clusters i + 2 < 2 ^ 32 -> 0 <= fat_read32 b 492 < 2 ^ 32 -> 2 <= fsinfo_next i b < total_clusters i + 2.
Proof.
  intros H Hm Hr. unfold fsinfo_next. destruct (fsinfo_valid b); cbn [andb]; [|lia].
  destruct (Z.geb_spec (fat_read32 b 492) 2); cbn [andb]; [|lia]. rewrite u32_small by lia.
  destruct (Z.ltb_spec (fat_read32 b 492 - 2) (total_clusters i)); lia.
Qed.

(** C35: a device with a sound FAT32 boot sector and agreeing copies of the table
    is mounted: the volume is well formed, the hint is a cluster of it and the
    count of free clusters is that of the FSInfo sector, whether it is right or
    not, or, if that has none, the exact one.  The only change of the device is the bit in the boot sector
    that says it is in use, and writing the super block sets it again; a
    read-only mount changes nothing. *)
Theorem fat_read_super_mounts d i ro dev : mountable d i -> dev <> 0 ->
  exists v, fat_read_super dev ro (device d) = (Ok (Some (root_inode i)), v) /\ vol_ok v /\ sbi v = set_readonly ro i /\
    2 <= next_free v < total_clusters i + 2 /\
    free_clusters v = default (zlength (free_on d i)) (on_disk d i ≫= fsinfo_free i) /\
    disk v = (if ro then d else put_sector 0 (set_clean false (d 0)) d) /\
    exists v', fat_write_super v = (Ok tt, v') /\ vol_ok v' /\
      disk v' 0 = (if ro then d 0 else set_clean true (set_clean false (d 0))).
Proof.
  intros Mt Hd. destruct (mount_run d i ro dev Mt Hd) as (s3 & V3 & D3 & B3 & N3 & F3 & ->).
  pose proof (v_geom _ V3) as G. pose proof (g_clusters _ G) as Gc. pose proof (g_marks _ G) as Gm. rewrite B3 in Gc, Gm. unfold FAT_BAD_CLUSTER in Gm. cbn in Gc, Gm.
  assert (Hn : 2 <= next_free s3 < total_clusters i + 2).
  { rewrite N3. unfold on_disk. destruct (_ || _); cbn; [lia|]. apply fsinfo_next_range; [lia|lia|].
    exact (le32_range _ 492 (proj2 (mt_sectors _ _ Mt _))). }
  destruct ro.
  - exists s3. split_and!; [done..|lia|lia|done|done|]. exists s3. unfold fat_write_super. rewrite bind_sb, B3. by rewrite D3.
  - destruct (clean_shutdown_ok s3 false V3) as (v & Ev & M & Dv); [rewrite D3; apply Mt|]. rewrite Ev. rewrite D3 in Dv.
    exists v. split_and!; [done|apply M|rewrite (m_sbi _ _ M); done|rewrite (m_next _ _ M); lia..|by rewrite (m_count _ _ M)|done|].
    unfold fat_write_super. rewrite bind_sb, (m_sbi _ _ M), B3. cbn [readonly set_readonly].
    destruct (clean_shutdown_ok v true (m_ok _ _ M)) as (v2 & E2 & M2 & D2).
    { rewrite Dv. unfold put_sector. rewrite decide_True by done. unfold is_boot, set_clean. rewrite !byte_at_insert_ne by done. apply Mt. }
    rewrite (bind_ok _ _ _ _ _ E2). destruct (write_fsinfo_boot v2 (m_ok _ _ M2)) as (r & v3 & E3 & V' & D').
    rewrite (bind_try _ _ _ _ _ E3). exists v3. split_and!; [done|done|]. rewrite D', D2, Dv. unfold put_sector. by rewrite !decide_True by done.
Qed.

(** ** A small device *)

(** A boot sector with its fields from 11 on. *)
Definition boot_sector (fields : list Z) : list Z :=
  take 510 (replicate 11 0 ++ fields ++ replicate 512 0) ++ [0x55; 0xaa].
(** 512 bytes in a sector, 1 sector in a cluster, 2 reserved, 2 tables of 1 sector,
    12 sectors, root in cluster 6, FSInfo in sector 1. *)
Definition small_boot : list Z := boot_sector
  [0; 2; 1; 2; 0; 2; 0; 0; 12; 0; 0; 0; 0; 0; 0; 0; 0; 0; 0; 0; 0; 0; 0; 0; 0; 1; 0; 0; 0; 0; 0; 0; 0; 6; 0; 0; 0; 1; 0].
Definition small_disk (x : Z) : list Z := if x =? 0 then small_boot else disk wit1 x.

Lemma small_mountable : mountable small_disk wit_sbi.
Proof.
  pose proof (v_sectors _ wit1_ok) as Hs. constructor.
  - intros x. unfold small_disk. destruct (x =? 0); [|apply Hs]. split; [done|by apply u8_by_computation].
  - done.
  - by vm_compute.
  - by constructor; vm_compute.
  - intros k c Hk Hc. cbn in Hk. assert (c / 128 = 0) as Ec by (apply Z.div_small; unfold valid in Hc; cbn in Hc; lia).
    unfold raw. rewrite Ec. cbn [reserved_sectors fat_size32 wit_sbi]. assert (k = 0 \/ k = 1) as [-> | ->] by lia; done.
Qed.

Lemma fat_read_super_mounts_witness :
  exists v, fat_read_super 1 false (device small_disk) = (Ok (Some (root_inode wit_sbi)), v) /\ vol_ok v /\ free_clusters v = 4.
Proof.
  destruct (fat_read_super_mounts small_disk wit_sbi false 1 small_mountable) as (v & E & V & _ & _ & Fc & _); [done|].
  exists v. split; [exact E|split; [exact V|]]. rewrite Fc. by vm_compute.
Defined.

(** nothing checks that the size of the tables fits in 32 bits: with two
    tables of 2^31 sectors the boot sector is accepted, and the data area, with
    cluster 2, begins where the first table does. *)
Theorem wrapped_tables_accepted :
  exists i, fat_parse_bpb (boot_sector
    [0; 2; 1; 2; 0; 2; 0; 0; 12; 0; 0; 0; 0; 0; 0; 0; 0; 0; 0; 0; 0; 0; 0; 0; 0; 0; 0; 0; 0x80; 0; 0; 0; 0; 2; 0; 0; 0; 1; 0]) = Some i /\
    fat_size32 i = 2 ^ 31 /\ first_data_sector i = reserved_sectors i /\ cluster_sector i 2 = reserved_sectors i.
Proof. exists (mksbi 512 1 2 2 (2 ^ 31) 12 2 1 2 10 512 false). by vm_compute. Qed.
End FatSuper.
