(* ===== verification/Inode.v ===== *)
(** * The inode cache ([fs/inode.c])

    A fixed array of inodes on one list, the free ones first, and a hash of those
    that belong to a file system.  The lists are lists of indices into the array.
    What a file system keeps in an inode, and its calls, are a class.  A section
    under [inode_lock] is one function; reading an inode in happens after it,
    under the semaphore of the inode. *)
From S2P Require Import Prelude.

Module Inode.

(** ** What a file system gives *)

(** [B] is the part of the inode that belongs to the file system, zero when it is
    [body0]; [W] is the device and the page cache.  A call gets the super block,
    the device and the number.  The last two are about the mode in it: a directory,
    and a block device with its number. *)
Class SuperOps (B W : Type) := {
  body0 : B;
  op_read_inode : nat -> Z -> Z -> B -> W -> B * W;
  op_write_inode : nat -> Z -> Z -> B -> W -> W;
  op_clear_inode : nat -> Z -> Z -> B -> W -> W;
  filemap_invalidate_inode : nat -> W -> W;
  destroy_pipe_inode_info : nat -> W -> W;
  s_isdir : B -> bool;
  s_isblk : B -> option Z;
}.

Definition NR_INODE : nat := 2048.
Definition NR_INODE_HASH : nat := 256.

Definition hash_inode (dev ino : Z) : nat := Z.to_nat (Z.land (u32 (u32 (dev * 31) + ino)) 255).

Section Cache.
Context {B W : Type} {Ops : SuperOps B W}.

Record inode := mkinode {
  i_dev : Z; i_ino : Z; i_sb : option nat; i_count : Z; i_mount : option nat;
  i_dirty : bool; i_up2date : bool; i_pipe : bool; i_hashed : bool; i_socket : bool;
  i_body : B;
}.

Record cache := mkcache { all : list inode; lru : list nat; hash : list (list nat); world : W }.

(** The memory of an inode after [memset]. *)
Definition zero : inode := mkinode 0 0 None 0 None false false false false false body0.
Definition at_ (c : cache) (i : nat) : inode := default zero (all c !! i).

Definition set_count (n : Z) (x : inode) : inode :=
  mkinode (i_dev x) (i_ino x) (i_sb x) n (i_mount x) (i_dirty x) (i_up2date x) (i_pipe x) (i_hashed x) (i_socket x) (i_body x).
Definition set_flags (dirty up2date pipe : bool) (x : inode) : inode :=
  mkinode (i_dev x) (i_ino x) (i_sb x) (i_count x) (i_mount x) dirty up2date pipe (i_hashed x) (i_socket x) (i_body x).
Definition set_body (b : B) (x : inode) : inode :=
  mkinode (i_dev x) (i_ino x) (i_sb x) (i_count x) (i_mount x) (i_dirty x) (i_up2date x) (i_pipe x) (i_hashed x) (i_socket x) b.
Definition set_mount (m : option nat) (x : inode) : inode :=
  mkinode (i_dev x) (i_ino x) (i_sb x) (i_count x) m (i_dirty x) (i_up2date x) (i_pipe x) (i_hashed x) (i_socket x) (i_body x).
Definition set_kind (pipe socket : bool) (x : inode) : inode :=
  mkinode (i_dev x) (i_ino x) (i_sb x) (i_count x) (i_mount x) (i_dirty x) (i_up2date x) pipe (i_hashed x) socket (i_body x).
(** The fields that [__iget] sets, [I_Hash] with them. *)
Definition set_id (sb : nat) (dev ino : Z) (x : inode) : inode :=
  mkinode dev ino (Some sb) (i_count x) None (i_dirty x) (i_up2date x) (i_pipe x) true (i_socket x) (i_body x).

Definition update (i : nat) (f : inode -> inode) (c : cache) : cache := mkcache (alter f i (all c)) (lru c) (hash c) (world c).
Definition set_lru (l : list nat) (c : cache) : cache := mkcache (all c) l (hash c) (world c).
Definition set_hash (h : list (list nat)) (c : cache) : cache := mkcache (all c) (lru c) h (world c).
Definition set_world (w : W) (c : cache) : cache := mkcache (all c) (lru c) (hash c) w.

Definition list_del (i : nat) (l : list nat) : list nat := filter (.≠ i) l.
Definition busy (c : cache) (i : nat) : bool := negb (i_count (at_ c i) =? 0).

(** A cache of [n] inodes; the code has [NR_INODE]. *)
Definition init (n : nat) (w : W) : cache := mkcache (replicate n zero) (seq 0 n) (replicate NR_INODE_HASH []) w.
Definition inode_init (w : W) : cache := init NR_INODE w.

(** ** Finding, reading, writing *)

Definition find_inode (dev ino : Z) (c : cache) : option nat :=
  head (filter (fun i => i_dev (at_ c i) = dev /\ i_ino (at_ c i) = ino) (default [] (hash c !! hash_inode dev ino))).

Definition inode_invalidate (dev ino : Z) (c : cache) : cache :=
  match find_inode dev ino c with
  | None => c
  | Some i => set_world (filemap_invalidate_inode i (world c)) (update i (fun x => set_flags false false (i_pipe x) x) c)
  end.

Definition inode_is_busy (dev ino : Z) (c : cache) : bool :=
  match find_inode dev ino c with Some i => i_count (at_ c i) >? 0 | None => false end.

Definition read_inode (i : nat) (c : cache) : cache :=
  let x := at_ c i in
  if i_up2date x then c else
  let c := match i_sb x with
           | None => c
           | Some sb => let '(b, w) := op_read_inode sb (i_dev x) (i_ino x) (i_body x) (world c) in set_world w (update i (set_body b) c)
           end in
  update i (fun x => set_flags false true (i_pipe x) x) c.

Definition write_inode (i : nat) (c : cache) : cache :=
  let x := at_ c i in
  if negb (i_up2date x) || negb (i_dirty x) then c else
  let c := match i_sb x with
           | None => c
           | Some sb => set_world (op_write_inode sb (i_dev x) (i_ino x) (i_body x) (world c)) c
           end in
  update i (fun x => set_flags false (i_up2date x) (i_pipe x) x) c.

Definition clear_inode (i : nat) (c : cache) : cache :=
  let x := at_ c i in
  let c := set_world (filemap_invalidate_inode i (world c)) c in
  let c := match i_sb x with
           | None => c
           | Some sb => set_world (op_clear_inode sb (i_dev x) (i_ino x) (i_body x) (world c)) c
           end in
  let c := if i_hashed x then set_hash (map (list_del i) (hash c)) c else c in
  update i (fun _ => zero) c.

(** ** References *)

Definition to_tail (i : nat) (c : cache) : cache := set_lru (list_del i (lru c) ++ [i]) c.

(** [None]: every inode is in use, and the caller sleeps. *)
Definition get_empty_inode (c : cache) : option (nat * cache) :=
  match lru c with
  | [] => None
  | i :: _ =>
    if busy c i then None else
    Some (i, to_tail i (update i (set_count 1) (clear_inode i c)))
  end.
Definition get_pipe_inode (c : cache) : option (nat * cache) :=
  r ← get_empty_inode c; Some (r.1, update r.1 (fun x => set_kind true (i_socket x) x) r.2).
Definition get_socket_inode (c : cache) : option (nat * cache) :=
  r ← get_empty_inode c; Some (r.1, update r.1 (fun x => set_kind (i_pipe x) true x) r.2).

Definition hash_add (i : nat) (dev ino : Z) (c : cache) : cache := set_hash (alter (cons i) (hash_inode dev ino) (hash c)) c.

(** The part of [__iget] under [inode_lock]; [sb] is the super block and [dev] its
    device. *)
Definition iget_lock (sb : nat) (dev ino : Z) (c : cache) : option (nat * cache) :=
  r ← match find_inode dev ino c with
      | Some i => Some (i, c)
      | None =>
        match lru c with
        | [] => None
        | i :: _ =>
          if busy c i then None else
          Some (i, hash_add i dev ino (update i (set_id sb dev ino) (clear_inode i c)))
        end
      end;
  let '(i, c) := r in
  Some (i, to_tail i (update i (fun x => set_count (u32 (i_count x + 1)) x) c)).

(** The part under the semaphore of the inode. *)
Definition iget_fill (i : nat) (c : cache) : cache := read_inode i (write_inode i c).

Definition iref (i : nat) (c : cache) : cache := update i (fun x => set_count (u32 (i_count x + 1)) x) c.

(** Behind the last free inode. *)
Fixpoint add_before (p : nat -> bool) (i : nat) (l : list nat) : list nat :=
  match l with [] => [i] | j :: l => if p j then i :: j :: l else j :: add_before p i l end.
Definition into_lru_list (i : nat) (c : cache) : cache := set_lru (add_before (busy c) i (list_del i (lru c))) c.

(** [None]: the assertion fails. *)
Definition iput (i : nat) (c : cache) : option cache :=
  if negb (i_count (at_ c i) >? 0) then None else
  let c := update i (fun x => set_count (i_count x - 1) x) c in
  if negb (i_count (at_ c i) =? 0) then Some c else
  let c := into_lru_list i (write_inode i c) in
  Some (if i_pipe (at_ c i) then update i (fun x => set_flags (i_dirty x) false false x) (set_world (destroy_pipe_inode_info i (world c)) c) else c).

(** [__iget]: over to the root of what is mounted on the inode. *)
Inductive got := Sleeps | Panics | Got (i : nat) (c : cache).
Definition iget' (crossmnt : bool) (sb : nat) (dev ino : Z) (c : cache) : got :=
  match iget_lock sb dev ino c with
  | None => Sleeps
  | Some (i, c) =>
    let c := iget_fill i c in
    match (if crossmnt then i_mount (at_ c i) else None) with
    | None => Got i c
    | Some m => match iput i (iref m c) with None => Panics | Some c => Got m c end
    end
  end.
Definition iget : nat -> Z -> Z -> cache -> got := iget' true.

(** ** Mounting *)

Definition fs_may_mount (dev : Z) (c : cache) : bool :=
  forallb (fun i => let x := at_ c i in negb (i_dev x =? dev) || ((i_count x =? 0) && negb (i_up2date x && i_dirty x))) (lru c).

Definition fs_may_umount (sb : nat) (mount_root : nat) (c : cache) : bool :=
  forallb (fun i => let x := at_ c i in
    bool_decide (i_sb x <> Some sb) || (i_count x =? 0) || ((i =? mount_root)%nat && (i_count x =? 1))) (lru c).

(** ** The invariant *)

Definition size (c : cache) : nat := length (all c).

Record ok (c : cache) : Prop := {
  o_lru : lru c ≡ₚ seq 0 (size c);
  o_free : exists F Bs, lru c = F ++ Bs /\ Forall (fun i => busy c i = false) F /\ Forall (fun i => busy c i = true) Bs;
  o_hash : length (hash c) = NR_INODE_HASH;
  o_bucket : forall b l, hash c !! b = Some l -> NoDup l /\
    forall i, i ∈ l <-> (i < size c)%nat /\ i_hashed (at_ c i) = true /\ hash_inode (i_dev (at_ c i)) (i_ino (at_ c i)) = b;
  o_unique : forall i j, (i < size c)%nat -> (j < size c)%nat -> i_hashed (at_ c i) = true -> i_hashed (at_ c j) = true ->
    i_dev (at_ c i) = i_dev (at_ c j) -> i_ino (at_ c i) = i_ino (at_ c j) -> i = j;
  o_clean : forall i, i_count (at_ c i) = 0 -> i_up2date (at_ c i) && i_dirty (at_ c i) = false;
  o_count : forall i, 0 <= i_count (at_ c i) < 2 ^ 32;
}.

Lemma hash_range dev ino : (hash_inode dev ino < NR_INODE_HASH)%nat.
Proof.
  unfold hash_inode, NR_INODE_HASH. pose proof (Z.land_ones (u32 (u32 (dev * 31) + ino)) 8 ltac:(lia)) as E.
  change (Z.ones 8) with 255 in E. rewrite E. pose proof (Z.mod_pos_bound (u32 (u32 (dev * 31) + ino)) (2 ^ 8) ltac:(lia)). lia.
Qed.

Lemma size_update i f c : size (update i f c) = size c.
Proof. unfold size, update. cbn. apply length_alter. Qed.

Lemma at_update i f c j : (i < size c)%nat -> at_ (update i f c) j = if decide (j = i) then f (at_ c i) else at_ c j.
Proof.
  intros Hi. unfold at_, update. cbn [all]. destruct (decide (j = i)) as [->|N].
  - rewrite list_lookup_alter_eq. destruct (lookup_lt_is_Some_2 (all c) i Hi) as [x ->]. done.
  - by rewrite list_lookup_alter_ne by done.
Qed.

Lemma busy_ext c c' i : i_count (at_ c' i) = i_count (at_ c i) -> busy c' i = busy c i.
Proof. intros E. unfold busy. by rewrite E. Qed.

(** A change that keeps the identity and the count of every inode. *)
Lemma ok_ext c c' : ok c -> size c' = size c -> lru c' = lru c -> hash c' = hash c ->
  (forall j, i_dev (at_ c' j) = i_dev (at_ c j) /\ i_ino (at_ c' j) = i_ino (at_ c j) /\ i_hashed (at_ c' j) = i_hashed (at_ c j) /\
             i_count (at_ c' j) = i_count (at_ c j)) ->
  (forall j, i_count (at_ c j) = 0 -> i_up2date (at_ c' j) && i_dirty (at_ c' j) = false) -> ok c'.
Proof.
  intros [O1 O2 O3 O4 O5 O6 O7] Hs Hl Hh Hi Hc. constructor; rewrite ?Hs, ?Hl, ?Hh.
  - done.
  - destruct O2 as (F & Bs & -> & HF & HB). exists F, Bs. split_and!; [done|..].
    + eapply Forall_impl; [exact HF|]. intros j <-. apply busy_ext, Hi.
    + eapply Forall_impl; [exact HB|]. intros j <-. apply busy_ext, Hi.
  - done.
  - intros b l Hb. destruct (O4 b l Hb) as [ND HE]. split; [done|]. intros i. destruct (Hi i) as (-> & -> & -> & _). apply HE.
  - intros i j Li Lj. destruct (Hi i) as (-> & -> & -> & _), (Hi j) as (-> & -> & -> & _). by apply O5.
  - intros i. destruct (Hi i) as (_ & _ & _ & ->). apply Hc.
  - intros i. destruct (Hi i) as (_ & _ & _ & ->). apply O7.
Qed.

Lemma find_inode_spec dev ino c : ok c ->
  match find_inode dev ino c with
  | Some i => (i < size c)%nat /\ i_hashed (at_ c i) = true /\ i_dev (at_ c i) = dev /\ i_ino (at_ c i) = ino
  | None => forall i, (i < size c)%nat -> i_hashed (at_ c i) = true -> i_dev (at_ c i) = dev -> i_ino (at_ c i) = ino -> False
  end.
Proof.
  intros O. unfold find_inode. pose proof (hash_range dev ino) as Hr. rewrite <- (o_hash _ O) in Hr.
  destruct (lookup_lt_is_Some_2 _ _ Hr) as [l El]. rewrite El. change (default [] (Some l)) with l. destruct (o_bucket _ O _ _ El) as [_ HE].
  destruct (filter _ l) as [|i f] eqn:Ef; cbn [head].
  - intros i Hi Hh Hd Hn. assert (i ∈ filter (fun i => i_dev (at_ c i) = dev /\ i_ino (at_ c i) = ino) l) as Hin.
    { apply list_elem_of_filter. split; [done|]. apply HE. split_and!; [done|done|by rewrite Hd, Hn]. }
    rewrite Ef in Hin. by apply not_elem_of_nil in Hin.
  - assert (Hin : i ∈ filter (fun i => i_dev (at_ c i) = dev /\ i_ino (at_ c i) = ino) l) by (rewrite Ef; apply elem_of_cons; by left).
    apply list_elem_of_filter in Hin as [[Hd Hn] Hin]. apply HE in Hin as (? & ? & _). done.
Qed.

(** ** The calls of the file system *)

Definition same_id (x y : inode) : Prop := i_dev x = i_dev y /\ i_ino x = i_ino y /\ i_sb x = i_sb y /\ i_hashed x = i_hashed y.

Lemma write_inode_ok i c : ok c -> (i < size c)%nat -> ok (write_inode i c) /\ lru (write_inode i c) = lru c /\ size (write_inode i c) = size c /\
  (forall j, i_count (at_ (write_inode i c) j) = i_count (at_ c j) /\ same_id (at_ (write_inode i c) j) (at_ c j)) /\
  i_up2date (at_ (write_inode i c) i) && i_dirty (at_ (write_inode i c) i) = false.
Proof.
  intros O Hi. unfold write_inode. destruct (negb _ || negb _) eqn:Eg.
  - split_and!; [done..|]. by destruct (i_up2date (at_ c i)), (i_dirty (at_ c i)).
  - set (c1 := match i_sb (at_ c i) with None => c | Some sb => _ end).
    assert (E1 : all c1 = all c /\ lru c1 = lru c /\ hash c1 = hash c) by (subst c1; by destruct (i_sb (at_ c i))).
    destruct E1 as (Ea & El & Eh). assert (Hs : size c1 = size c) by (unfold size; by rewrite Ea).
    assert (Hat : forall j, at_ c1 j = at_ c j) by (intros j; unfold at_; by rewrite Ea).
    assert (Hi1 : (i < size c1)%nat) by lia.
    split_and!; [|done|by rewrite size_update| |].
    + eapply ok_ext; [exact O|by rewrite size_update|done|done| |]; intros j; rewrite at_update, !Hat by done; destruct (decide (j = i)) as [->|N].
      * by destruct (at_ c i).
      * done.
      * intros _. cbn. by rewrite andb_false_r.
      * apply (o_clean _ O).
    + intros j. rewrite at_update, !Hat by done. destruct (decide (j = i)) as [->|N]; [by destruct (at_ c i)|done].
    + rewrite at_update, decide_True by done. cbn. by rewrite andb_false_r.
Qed.

Lemma read_inode_ok i c : ok c -> (i < size c)%nat -> ok (read_inode i c) /\ lru (read_inode i c) = lru c /\ size (read_inode i c) = size c /\
  (forall j, i_count (at_ (read_inode i c) j) = i_count (at_ c j) /\ same_id (at_ (read_inode i c) j) (at_ c j)) /\
  i_up2date (at_ (read_inode i c) i) = true.
Proof.
  intros O Hi. unfold read_inode. destruct (i_up2date (at_ c i)) eqn:Eu; [done|].
  set (c1 := match i_sb (at_ c i) with None => c | Some sb => _ end).
  assert (E1 : size c1 = size c /\ lru c1 = lru c /\ hash c1 = hash c /\
    forall j, at_ c1 j = if decide (j = i) then set_body (i_body (at_ c1 i)) (at_ c i) else at_ c j).
  { subst c1. destruct (i_sb (at_ c i)) as [sb|].
    - destruct (op_read_inode sb (i_dev (at_ c i)) (i_ino (at_ c i)) (i_body (at_ c i)) (world c)) as [b w].
      assert (Hat : forall j, at_ (set_world w (update i (set_body b) c)) j = if decide (j = i) then set_body b (at_ c i) else at_ c j).
      { intros j. change (at_ (set_world w (update i (set_body b) c)) j) with (at_ (update i (set_body b) c) j). by apply at_update. }
      split_and!; [exact (size_update i (set_body b) c)|done|done|]. intros j. rewrite !Hat. rewrite (decide_True (P := i = i)) by done. done.
    - split_and!; [done..|]. intros j. destruct (decide (j = i)) as [->|]; [by destruct (at_ c i)|done]. }
  destruct E1 as (Hs & El & Eh & Hat). assert (Hi1 : (i < size c1)%nat) by lia.
  split_and!; [|done|by rewrite size_update| |].
  - eapply ok_ext; [exact O|by rewrite size_update|done|done| |]; intros j; rewrite at_update by done; destruct (decide (j = i)) as [->|N].
    + rewrite Hat, decide_True by done. by destruct (at_ c i).
    + by rewrite Hat, decide_False by done.
    + done.
    + rewrite Hat, decide_False by done. apply (o_clean _ O).
  - intros j. rewrite at_update by done. destruct (decide (j = i)) as [->|N].
    + rewrite Hat, decide_True by done. by destruct (at_ c i).
    + by rewrite Hat, decide_False by done.
  - by rewrite at_update, decide_True by done.
Qed.

(** ** A free inode is taken *)

Lemma list_del_cons i l : i ∉ l -> list_del i (i :: l) = l.
Proof.
  intros H. unfold list_del. rewrite filter_cons, decide_False by (by intros ?). induction l as [|j l IH]; [done|].
  apply not_elem_of_cons in H as [Hj H]. by rewrite filter_cons, decide_True, IH by done.
Qed.

Lemma list_del_not i l : i ∉ l -> list_del i l = l.
Proof.
  unfold list_del. induction l as [|j l IH]; intros H; [done|]. apply not_elem_of_cons in H as [Hj H].
  by rewrite filter_cons, decide_True, IH by done.
Qed.

Lemma list_del_perm i l : NoDup l -> i ∈ l -> i :: list_del i l ≡ₚ l.
Proof.
  intros ND Hi. apply list_elem_of_split in Hi as (l1 & l2 & ->). apply NoDup_app in ND as (N1 & N2 & N3).
  apply NoDup_cons in N3 as [N3 _]. unfold list_del. rewrite filter_app, filter_cons, decide_False by (by intros ?).
  change (filter (.≠ i) l1) with (list_del i l1). change (filter (.≠ i) l2) with (list_del i l2).
  rewrite !list_del_not; [by rewrite Permutation_middle|done|]. intros Hi. apply (N2 i Hi). apply elem_of_cons. by left.
Qed.

Lemma lru_facts c : ok c -> NoDup (lru c) /\ forall i, i ∈ lru c <-> (i < size c)%nat.
Proof.
  intros O. split; [rewrite (o_lru _ O); apply NoDup_seq|]. intros i. rewrite (o_lru _ O), elem_of_seq. lia.
Qed.

Lemma at_clear i c j : (i < size c)%nat -> at_ (clear_inode i c) j = if decide (j = i) then zero else at_ c j.
Proof.
  intros Hi. unfold clear_inode. destruct (i_sb (at_ c i)), (i_hashed (at_ c i));
    (rewrite at_update; [by destruct (decide (j = i))|done]).
Qed.

Lemma clear_fields i c : lru (clear_inode i c) = lru c /\ size (clear_inode i c) = size c /\
  hash (clear_inode i c) = if i_hashed (at_ c i) then map (list_del i) (hash c) else hash c.
Proof.
  unfold clear_inode. destruct (i_sb (at_ c i)), (i_hashed (at_ c i)); split_and!; try done; unfold size, update; cbn; by rewrite length_alter.
Qed.

(** Clearing a free inode takes it out of the cache. *)
Lemma clear_ok i c : ok c -> (i < size c)%nat -> busy c i = false -> ok (clear_inode i c) /\
  forall b l, hash (clear_inode i c) !! b = Some l -> (i ∉ l).
Proof.
  intros O Hi Hb. destruct (clear_fields i c) as (El & Es & Eh).
  assert (Hin : forall b l, hash (clear_inode i c) !! b = Some l -> exists l0, hash c !! b = Some l0 /\ (i ∉ l) /\ (NoDup l0 -> NoDup l) /\
    forall j, j ∈ l <-> j ∈ l0 /\ j <> i).
  { intros b l. rewrite Eh. destruct (i_hashed (at_ c i)) eqn:Eg.
    - rewrite list_lookup_fmap. destruct (hash c !! b) as [l0|] eqn:E0; [|done]. intros [= <-]. exists l0. unfold list_del.
      split_and!; [done|intros [Hn _]%list_elem_of_filter; by apply Hn|apply NoDup_filter|].
      intros j. rewrite list_elem_of_filter. tauto.
    - intros E0. exists l. destruct (o_bucket _ O _ _ E0) as [_ HE]. assert (i ∉ l) by (intros Hl; apply HE in Hl as (_ & Hh & _); congruence).
      split_and!; [done..|]. intros j. split; [|tauto]. intros Hj. split; [done|]. by intros ->. }
  assert (Hbz : forall j, i_count (at_ (clear_inode i c) j) = i_count (at_ c j)).
  { intros j. rewrite at_clear by done. destruct (decide (j = i)) as [->|]; [|done].
    unfold busy in Hb. apply negb_false_iff, Z.eqb_eq in Hb. by rewrite Hb. }
  split; [|intros b l E; by destruct (Hin b l E) as (? & _ & ? & _)].
  destruct O as [O1 O2 O3 O4 O5 O6 O7]. constructor; rewrite ?El, ?Es.
  - done.
  - destruct O2 as (F & Bs & -> & HF & HB). exists F, Bs. split_and!; [done|..].
    + eapply Forall_impl; [exact HF|]. intros j <-. by apply busy_ext.
    + eapply Forall_impl; [exact HB|]. intros j <-. by apply busy_ext.
  - rewrite Eh. destruct (i_hashed _); [by rewrite length_map|done].
  - intros b l E. destruct (Hin b l E) as (l0 & E0 & _ & ND & HE). destruct (O4 b l0 E0) as [N0 H0]. split; [by apply ND|].
    intros j. rewrite HE, H0, at_clear by done. destruct (decide (j = i)) as [->|N]; [|tauto]. split; [by intros [_ []]|by intros (_ & ? & _)].
  - intros a b La Lb. rewrite !at_clear by done. destruct (decide (a = i)); [done|]. destruct (decide (b = i)); [done|]. by apply O5.
  - intros j. rewrite at_clear by done. destruct (decide (j = i)); [done|]. apply O6.
  - intros j. rewrite Hbz. apply O7.
Qed.

(** The list after an inode has got its first reference and moved to the end. *)
Lemma to_tail_free c c' i : ok c -> (i < size c)%nat -> lru c' = lru c -> busy c' i = true -> (forall j, j <> i -> busy c' j = busy c j) ->
  lru (to_tail i c') ≡ₚ seq 0 (size c) /\
  exists F Bs, lru (to_tail i c') = F ++ Bs /\ Forall (fun j => busy c' j = false) F /\ Forall (fun j => busy c' j = true) Bs.
Proof.
  intros O Hi El Hb Hj. destruct (lru_facts c O) as [ND HE]. unfold to_tail. cbn [lru set_lru]. rewrite El. split.
  - rewrite <- (o_lru _ O), Permutation_app_comm. cbn. apply list_del_perm; [done|by apply HE].
  - destruct (o_free _ O) as (F & Bs & E & HF & HB). rewrite E. unfold list_del. rewrite filter_app.
    exists (filter (.≠ i) F), (filter (.≠ i) Bs ++ [i]). split_and!; [by rewrite <- app_assoc|..].
    + apply Forall_forall. intros j [Hn Hin]%list_elem_of_filter. rewrite Hj by done. eapply Forall_forall in HF; [exact HF|done].
    + apply Forall_app. split; [|by constructor]. apply Forall_forall. intros j [Hn Hin]%list_elem_of_filter. rewrite Hj by done.
      eapply Forall_forall in HB; [exact HB|done].
Qed.

Lemma head_free c i l : lru c = i :: l -> ok c -> (i < size c)%nat.
Proof. intros E O. apply (lru_facts c O). rewrite E. apply elem_of_cons. by left. Qed.

(** What a new use of an inode leaves alone: every other inode, but for what is
    cleared, which nobody uses. *)
Record kept (i : nat) (c c' : cache) : Prop := {
  k_ok : ok c';
  k_size : size c' = size c;
  k_in : (i < size c)%nat;
  k_others : forall j, j <> i -> at_ c' j = at_ c j;
}.

Lemma get_empty_inode_ok c : ok c ->
  match get_empty_inode c with
  | Some (i, c') => busy c i = false /\ kept i c c' /\ at_ c' i = set_count 1 zero
  | None => forall i, (i < size c)%nat -> busy c i = true
  end.
Proof.
  intros O. unfold get_empty_inode. destruct (lru c) as [|i l] eqn:El.
  - intros j Hj. destruct (lru_facts c O) as [_ HE]. apply HE in Hj. rewrite El in Hj. by apply not_elem_of_nil in Hj.
  - pose proof (head_free _ _ _ El O) as Hi. destruct (busy c i) eqn:Eb.
    + intros j Hj. destruct (o_free _ O) as (F & Bs & E & HF & HB). destruct F as [|x F].
      * apply (lru_facts c O) in Hj. rewrite E in Hj. eapply Forall_forall in HB; [exact HB|done].
      * rewrite El in E. injection E as -> _. apply Forall_cons in HF as [HF _]. congruence.
    + destruct (clear_ok i c O Hi Eb) as [O1 Hnot]. destruct (clear_fields i c) as (El1 & Es1 & _).
      set (c1 := clear_inode i c) in *. assert (Hi1 : (i < size c1)%nat) by lia.
      set (c2 := update i (set_count 1) c1).
      assert (Hat : forall j, at_ c2 j = if decide (j = i) then set_count 1 zero else at_ c j).
      { intros j. unfold c2. rewrite at_update by done. unfold c1. rewrite !at_clear by done. by repeat destruct (decide _). }
      assert (Hot : forall j, j <> i -> at_ c2 j = at_ c j) by (intros j N; by rewrite Hat, decide_False).
      destruct (to_tail_free c1 c2 i O1 Hi1) as [P1 P2].
      { done. } { unfold busy. by rewrite Hat, decide_True. }
      { intros j N. apply busy_ext. rewrite Hot by done. unfold c1. by rewrite at_clear, decide_False by done. }
      split; [done|]. change (at_ (to_tail i c2)) with (at_ c2). split.
      2:{ by rewrite Hat, decide_True. }
      assert (Es2 : size c2 = size c) by (subst c2; by rewrite size_update).
      constructor; [|exact Es2|done|exact Hot].
      destruct O1 as [_ _ A3 A4 A5 A6 A7]. constructor; change (at_ (to_tail i c2)) with (at_ c2); change (size (to_tail i c2)) with (size c2);
        change (hash (to_tail i c2)) with (hash c1); rewrite ?Es2.
      * by rewrite Es1 in P1.
      * exact P2.
      * done.
      * intros b bl E. destruct (A4 b bl E) as [ND HE]. split; [done|]. intros j. rewrite HE, Es1. unfold c1. rewrite Hat, at_clear by done.
        by destruct (decide (j = i)).
      * intros a b La Lb. rewrite !Hat. destruct (decide (a = i)); [done|]. destruct (decide (b = i)); [done|]. by apply (o_unique _ O).
      * intros j. rewrite Hat. destruct (decide (j = i)); [done|]. apply (o_clean _ O).
      * intros j. rewrite Hat. destruct (decide (j = i)); [done|]. apply (o_count _ O).
Qed.

(** Putting a cleared inode into the hash. *)
Lemma hash_add_bucket c1 i sb dev ino c : ok c1 -> (i < size c1)%nat -> at_ c1 i = zero ->
  (forall b l, hash c1 !! b = Some l -> (i ∉ l)) ->
  size c = size c1 -> hash c = alter (cons i) (hash_inode dev ino) (hash c1) ->
  (forall j, i_dev (at_ c j) = i_dev (if decide (j = i) then set_id sb dev ino zero else at_ c1 j) /\
             i_ino (at_ c j) = i_ino (if decide (j = i) then set_id sb dev ino zero else at_ c1 j) /\
             i_hashed (at_ c j) = i_hashed (if decide (j = i) then set_id sb dev ino zero else at_ c1 j)) ->
  forall b l, hash c !! b = Some l -> NoDup l /\
    forall j, j ∈ l <-> (j < size c)%nat /\ i_hashed (at_ c j) = true /\ hash_inode (i_dev (at_ c j)) (i_ino (at_ c j)) = b.
Proof.
  intros O Hi Hz Hnot Hs Hh Hat b l E. rewrite Hs. rewrite Hh in E.
  assert (Hj : forall j, i_hashed (at_ c j) = true /\ hash_inode (i_dev (at_ c j)) (i_ino (at_ c j)) = b <->
    if decide (j = i) then hash_inode dev ino = b else i_hashed (at_ c1 j) = true /\ hash_inode (i_dev (at_ c1 j)) (i_ino (at_ c1 j)) = b).
  { intros j. destruct (Hat j) as (-> & -> & ->). destruct (decide (j = i)); cbn; tauto. }
  destruct (decide (b = hash_inode dev ino)) as [->|Nb].
  - rewrite list_lookup_alter_eq in E. destruct (hash c1 !! hash_inode dev ino) as [l0|] eqn:E0; [|done]. injection E as <-.
    destruct (o_bucket _ O _ _ E0) as [ND HE]. pose proof (Hnot _ _ E0) as Hn. split; [by constructor|].
    intros j. rewrite elem_of_cons, Hj, HE. destruct (decide (j = i)) as [->|N]; [tauto|]. tauto.
  - rewrite list_lookup_alter_ne in E by done. destruct (o_bucket _ O _ _ E) as [ND HE]. split; [done|].
    intros j. rewrite Hj, HE. destruct (decide (j = i)) as [->|N]; [|tauto]. rewrite Hz. cbn. split; [by intros (_ & ? & _)|intros [_ Hb]; congruence].
Qed.

Lemma iget_lock_ok sb dev ino c : ok c -> (forall i, i_count (at_ c i) < 2 ^ 32 - 1) ->
  match iget_lock sb dev ino c with
  | Some (i, c') => kept i c c' /\
      match find_inode dev ino c with
      | Some j => j = i /\ i_hashed (at_ c i) = true /\ i_dev (at_ c i) = dev /\ i_ino (at_ c i) = ino /\
          at_ c' i = set_count (i_count (at_ c i) + 1) (at_ c i)
      | None => busy c i = false /\ at_ c' i = set_count 1 (set_id sb dev ino zero)
      end
  | None => find_inode dev ino c = None /\ forall i, (i < size c)%nat -> busy c i = true
  end.
Proof.
  intros O Hmax. unfold iget_lock. pose proof (find_inode_spec dev ino c O) as Fs. destruct (find_inode dev ino c) as [i|].
  - destruct Fs as (Hi & Hh & Hd & Hn). cbn [option_bind mbind]. set (c1 := update i _ c).
    assert (Es : size c1 = size c) by apply size_update.
    assert (Hat : forall j, at_ c1 j = if decide (j = i) then set_count (i_count (at_ c i) + 1) (at_ c i) else at_ c j).
    { intros j. unfold c1. rewrite at_update by done. destruct (decide (j = i)); [|done]. f_equal. apply u32_small. pose proof (o_count _ O i). specialize (Hmax i). lia. }
    assert (Hot : forall j, j <> i -> at_ c1 j = at_ c j) by (intros j N; by rewrite Hat, decide_False).
    pose proof (o_count _ O i) as Hc. specialize (Hmax i).
    destruct (to_tail_free c c1 i O Hi) as [P1 P2]; [done| | |].
    { unfold busy. rewrite Hat, decide_True by done. cbn. apply negb_true_iff, Z.eqb_neq. lia. }
    { intros j N. apply busy_ext. by rewrite Hot. }
    split; [constructor; [|exact Es|done|exact Hot]|].
    + assert (Hid : forall j, i_dev (at_ c1 j) = i_dev (at_ c j) /\ i_ino (at_ c1 j) = i_ino (at_ c j) /\ i_hashed (at_ c1 j) = i_hashed (at_ c j)).
      { intros j. rewrite Hat. by destruct (decide (j = i)) as [->|]. }
      constructor; change (at_ (to_tail i c1)) with (at_ c1); change (size (to_tail i c1)) with (size c1); change (hash (to_tail i c1)) with (hash c); rewrite ?Es.
      * done.
      * exact P2.
      * apply O.
      * intros b l E. destruct (o_bucket _ O b l E) as [ND HE]. split; [done|]. intros j. destruct (Hid j) as (-> & -> & ->). apply HE.
      * intros a b La Lb. destruct (Hid a) as (-> & -> & ->), (Hid b) as (-> & -> & ->). by apply (o_unique _ O).
      * intros j. rewrite Hat. destruct (decide (j = i)) as [->|]; [cbn; lia|apply (o_clean _ O)].
      * intros j. rewrite Hat. destruct (decide (j = i)) as [->|]; [cbn; lia|apply (o_count _ O)].
    + change (at_ (to_tail i c1)) with (at_ c1). by rewrite Hat, decide_True by done.
  - destruct (lru c) as [|i l] eqn:El.
    { split; [done|]. intros j Hj. apply (lru_facts c O) in Hj. rewrite El in Hj. by apply not_elem_of_nil in Hj. }
    pose proof (head_free _ _ _ El O) as Hi. destruct (busy c i) eqn:Eb.
    { split; [done|]. pose proof (get_empty_inode_ok c O) as Ge. unfold get_empty_inode in Ge. by rewrite El, Eb in Ge. }
    cbn [option_bind mbind]. destruct (clear_ok i c O Hi Eb) as [O1 Hnot]. destruct (clear_fields i c) as (El1 & Es1 & _).
    set (c1 := clear_inode i c) in *. assert (Hi1 : (i < size c1)%nat) by lia.
    assert (Hc1 : forall j, at_ c1 j = if decide (j = i) then zero else at_ c j) by (intros j; by apply at_clear).
    set (c2 := hash_add i dev ino (update i (set_id sb dev ino) c1)).
    assert (Es2 : size c2 = size c1) by exact (size_update i (set_id sb dev ino) c1).
    assert (Hc2 : forall j, at_ c2 j = if decide (j = i) then set_id sb dev ino zero else at_ c1 j).
    { intros j. change (at_ c2 j) with (at_ (update i (set_id sb dev ino) c1) j). rewrite at_update by done. rewrite (Hc1 i), (decide_True (P := i = i)) by done. done. }
    set (c3 := update i _ c2). assert (Es3 : size c3 = size c1) by (unfold c3; by rewrite size_update).
    assert (Hat : forall j, at_ c3 j = if decide (j = i) then set_count 1 (set_id sb dev ino zero) else at_ c j).
    { intros j. unfold c3. rewrite at_update by lia. rewrite !Hc2, !Hc1. destruct (decide (j = i)) as [->|]; [|done]. by rewrite !decide_True by done. }
    assert (Hot : forall j, j <> i -> at_ c3 j = at_ c j) by (intros j N; by rewrite Hat, decide_False).
    destruct (to_tail_free c1 c3 i O1 Hi1) as [P1 P2]; [done| | |].
    { unfold busy. by rewrite Hat, decide_True. }
    { intros j N. apply busy_ext. by rewrite Hot, Hc1, decide_False. }
    assert (Hid : forall j, i_dev (at_ c3 j) = i_dev (if decide (j = i) then set_id sb dev ino zero else at_ c1 j) /\
             i_ino (at_ c3 j) = i_ino (if decide (j = i) then set_id sb dev ino zero else at_ c1 j) /\
             i_hashed (at_ c3 j) = i_hashed (if decide (j = i) then set_id sb dev ino zero else at_ c1 j)).
    { intros j. rewrite Hat, Hc1. by destruct (decide (j = i)). }
    split; [constructor; [|change (size (to_tail i c3)) with (size c3); lia|done|exact Hot]|].
    + constructor; change (at_ (to_tail i c3)) with (at_ c3); change (size (to_tail i c3)) with (size c3);
        change (hash (to_tail i c3)) with (hash c2).
      * by rewrite Es3.
      * exact P2.
      * cbn. rewrite length_alter. apply O1.
      * apply (hash_add_bucket c1 i sb dev ino c3 O1 Hi1); [by rewrite Hc1, decide_True|exact Hnot|exact Es3|reflexivity|exact Hid].
      * intros a b La Lb. rewrite !Hat. rewrite Es3, Es1 in *. destruct (decide (a = i)) as [->|Na], (decide (b = i)) as [->|Nb]; cbn.
        -- done.
        -- intros _ Hb' Ed En. exfalso. by apply (Fs b).
        -- intros Ha' _ Ed En. exfalso. by apply (Fs a).
        -- by apply (o_unique _ O).
      * intros j. rewrite Hat. destruct (decide (j = i)); [done|]. apply (o_clean _ O).
      * intros j. rewrite Hat. destruct (decide (j = i)); [done|]. apply (o_count _ O).
    + split; [done|]. change (at_ (to_tail i c3)) with (at_ c3). by rewrite Hat, decide_True.
Qed.

(** ** References given back *)

Lemma at_write i c j : (i < size c)%nat -> at_ (write_inode i c) j =
  if decide (j = i) then set_flags (i_dirty (at_ c i) && negb (i_up2date (at_ c i))) (i_up2date (at_ c i)) (i_pipe (at_ c i)) (at_ c i) else at_ c j.
Proof.
  intros Hi. unfold write_inode. destruct (i_up2date (at_ c i)) eqn:Eu, (i_dirty (at_ c i)) eqn:Ed; cbn [negb orb andb].
  2-4: destruct (decide (j = i)) as [->|]; [|done]; destruct (at_ c i); cbn in *; by subst.
  assert (G : forall c1, all c1 = all c -> at_ (update i (fun x => set_flags false (i_up2date x) (i_pipe x) x) c1) j =
    if decide (j = i) then set_flags false true (i_pipe (at_ c i)) (at_ c i) else at_ c j).
  { intros c1 Ea. assert (Hat : forall k, at_ c1 k = at_ c k) by (intros k; unfold at_; by rewrite Ea).
    rewrite at_update, !Hat by (unfold size; by rewrite Ea). by rewrite Eu. }
  destruct (i_sb (at_ c i)); by apply G.
Qed.

Lemma write_fields i c : lru (write_inode i c) = lru c /\ size (write_inode i c) = size c /\ hash (write_inode i c) = hash c.
Proof.
  unfold write_inode. destruct (negb _ || negb _); [done|]. destruct (i_sb (at_ c i)); split_and!; try done; unfold size, update; cbn; by rewrite length_alter.
Qed.

Lemma add_before_app p i F Bs : Forall (fun j => p j = false) F -> Forall (fun j => p j = true) Bs -> add_before p i (F ++ Bs) = F ++ i :: Bs.
Proof.
  intros HF HB. induction HF as [|x F Hx _ IH]; cbn.
  - destruct Bs as [|b Bs]; [done|]. apply Forall_cons in HB as [Hb _]. cbn. by rewrite Hb.
  - by rewrite Hx, IH.
Qed.

Lemma ok_ids c c' : ok c -> size c' = size c -> hash c' = hash c -> (forall j, same_id (at_ c' j) (at_ c j)) ->
  lru c' ≡ₚ seq 0 (size c) ->
  (exists F Bs, lru c' = F ++ Bs /\ Forall (fun i => busy c' i = false) F /\ Forall (fun i => busy c' i = true) Bs) ->
  (forall i, i_count (at_ c' i) = 0 -> i_up2date (at_ c' i) && i_dirty (at_ c' i) = false) -> (forall i, 0 <= i_count (at_ c' i) < 2 ^ 32) -> ok c'.
Proof.
  intros O Hs Hh Hid P1 P2 Hcl Hco. constructor; rewrite ?Hs, ?Hh; try done; try apply O.
  - intros b l E. destruct (o_bucket _ O b l E) as [ND HE]. split; [done|]. intros j. destruct (Hid j) as (-> & -> & _ & ->). apply HE.
  - intros a b La Lb. destruct (Hid a) as (-> & -> & _ & ->), (Hid b) as (-> & -> & _ & ->). by apply (o_unique _ O).
Qed.

Lemma iput_ok i c : ok c -> (i < size c)%nat -> 0 < i_count (at_ c i) ->
  exists c', iput i c = Some c' /\ kept i c c' /\ same_id (at_ c' i) (at_ c i) /\ i_count (at_ c' i) = i_count (at_ c i) - 1 /\ i_mount (at_ c' i) = i_mount (at_ c i).
Proof.
  intros O Hi Hc. unfold iput. destruct (Z.gtb_spec (i_count (at_ c i)) 0); [|lia]. cbn [negb].
  set (c1 := update i _ c). assert (Es : size c1 = size c) by apply size_update.
  assert (Hat : forall j, at_ c1 j = if decide (j = i) then set_count (i_count (at_ c i) - 1) (at_ c i) else at_ c j) by (intros j; unfold c1; by rewrite at_update).
  assert (Hid1 : forall j, same_id (at_ c1 j) (at_ c j)) by (intros j; rewrite Hat; by destruct (decide (j = i)) as [->|]).
  pose proof (o_count _ O i) as Ho. assert (Ei : at_ c1 i = set_count (i_count (at_ c i) - 1) (at_ c i)) by (by rewrite Hat, decide_True).
  rewrite Ei. cbn [i_count set_count]. destruct (Z.eqb_spec (i_count (at_ c i) - 1) 0) as [Ez|Nz]; cbn [negb].
  2:{ exists c1. split; [done|]. split; [|by rewrite Ei].
      constructor; [|done|done|by intros j N; rewrite Hat, decide_False].
      apply (ok_ids c); [done|done|done|done|apply O| | |].
      - destruct (o_free _ O) as (F & Bs & E & HF & HB). exists F, Bs. split; [exact E|].
        assert (Hb : forall j, busy c1 j = busy c j).
        { intros j. unfold busy. rewrite Hat. destruct (decide (j = i)) as [->|]; [|done]. cbn. f_equal. rewrite !(proj2 (Z.eqb_neq _ 0)) by lia. done. }
        split; (eapply Forall_impl; [eassumption|]); cbn; intros j <-; by rewrite Hb.
      - intros j. rewrite Hat. destruct (decide (j = i)) as [->|]; [cbn; lia|apply (o_clean _ O)].
      - intros j. rewrite Hat. destruct (decide (j = i)) as [->|]; [cbn; lia|apply (o_count _ O)]. }
  set (c2 := write_inode i c1). destruct (write_fields i c1) as (El2 & Es2 & Eh2).
  assert (Hi1 : (i < size c1)%nat) by lia.
  assert (Hat2 : forall j, j <> i -> at_ c2 j = at_ c j) by (intros j N; unfold c2; by rewrite at_write, decide_False, Hat, decide_False).
  assert (Hi2 : same_id (at_ c2 i) (at_ c i) /\ i_count (at_ c2 i) = 0 /\ i_up2date (at_ c2 i) && i_dirty (at_ c2 i) = false /\ i_mount (at_ c2 i) = i_mount (at_ c i)).
  { unfold c2. rewrite at_write, decide_True, Ei by done. split_and!; [done|cbn; lia| |done]. cbn. by destruct (i_up2date _), (i_dirty _). }
  set (c3 := into_lru_list i c2). change (at_ c3) with (at_ c2).
  assert (O3 : ok c3 /\ kept i c c3).
  { assert (Ok : ok c3).
    { destruct (lru_facts c O) as [ND HE]. destruct (o_free _ O) as (F & Bs & E & HF & HB).
      assert (Lr : lru c2 = F ++ Bs) by (unfold c2; by rewrite El2, <- E).
      assert (HiF : i ∉ F). { intros Hin. eapply Forall_forall in HF; [|exact Hin]. unfold busy in HF. apply negb_false_iff, Z.eqb_eq in HF. lia. }
      assert (Ld : list_del i (F ++ Bs) = F ++ list_del i Bs) by (unfold list_del; rewrite filter_app; f_equal; by apply list_del_not).
      assert (Hbz : forall j, j <> i -> busy c2 j = busy c j) by (intros j N; apply busy_ext; by rewrite Hat2).
      assert (HF2 : Forall (fun j => busy c2 j = false) F).
      { apply Forall_forall. intros j Hj. rewrite Hbz; [by eapply Forall_forall in HF|]. by intros ->. }
      assert (HB2 : Forall (fun j => busy c2 j = true) (list_del i Bs)).
      { apply Forall_forall. intros j [N Hj]%list_elem_of_filter. rewrite Hbz by done. by eapply Forall_forall in HB. }
      assert (Lr3 : lru c3 = F ++ i :: list_del i Bs) by (unfold c3, into_lru_list; cbn [lru set_lru]; rewrite Lr, Ld; by apply add_before_app).
      apply (ok_ids c).
      - done.
      - change (size c3) with (size c2). unfold c2. lia.
      - exact Eh2.
      - intros j. change (at_ c3) with (at_ c2). destruct (decide (j = i)) as [->|N]; [apply Hi2|by rewrite Hat2].
      - rewrite Lr3, <- Permutation_middle, <- Ld, <- (o_lru _ O), E. apply list_del_perm; [by rewrite <- E|rewrite <- E; by apply HE].
      - exists (F ++ [i]), (list_del i Bs). rewrite Lr3, <- app_assoc. split_and!; [done| |exact HB2]. apply Forall_app. split; [exact HF2|].
        constructor; [|done]. change (busy c3 i) with (busy c2 i). unfold busy. by rewrite (proj1 (proj2 Hi2)).
      - intros j. change (at_ c3) with (at_ c2). destruct (decide (j = i)) as [->|N]; [intros _; apply Hi2|rewrite Hat2 by done; apply (o_clean _ O)].
      - intros j. change (at_ c3) with (at_ c2). destruct (decide (j = i)) as [->|N]; [rewrite (proj1 (proj2 Hi2)); lia|rewrite Hat2 by done; apply (o_count _ O)]. }
    split; [done|]. constructor; [done|change (size c3) with (size c2); unfold c2; lia|done|exact Hat2]. }
  destruct O3 as [O3 K3]. assert (Hi3 : (i < size c3)%nat) by (rewrite (k_size _ _ _ K3); done).
  destruct (i_pipe (at_ c2 i)) eqn:Ep.
  - eexists. split; [done|]. set (c4 := set_world _ c3). set (f := fun x => set_flags (i_dirty x) false false x).
    assert (Ha4 : forall j, at_ (update i f c4) j = if decide (j = i) then f (at_ c2 i) else at_ c2 j) by (intros j; by apply (at_update i f c4)).
    split; [|rewrite Ha4, decide_True by done; split_and!; [apply Hi2|unfold f; cbn; rewrite (proj1 (proj2 Hi2)); lia|apply Hi2]].
    constructor; [|rewrite size_update; exact (k_size _ _ _ K3)|done|intros j N; rewrite Ha4, decide_False by done; by apply Hat2].
    apply (ok_ext c3 _ O3); [by rewrite size_update|done|done| |]; intros j; rewrite Ha4; destruct (decide (j = i)) as [->|]; try done.
    apply (o_clean _ O3).
  - exists c3. split; [done|]. split; [done|]. change (at_ c3) with (at_ c2). split_and!; [apply Hi2| |apply Hi2]. rewrite (proj1 (proj2 Hi2)). lia.
Qed.

Lemma iget_fill_ok i c : ok c -> (i < size c)%nat -> ok (iget_fill i c) /\ size (iget_fill i c) = size c /\
  (forall j, i_count (at_ (iget_fill i c) j) = i_count (at_ c j) /\ same_id (at_ (iget_fill i c) j) (at_ c j)) /\
  i_up2date (at_ (iget_fill i c) i) = true.
Proof.
  intros O Hi. destruct (write_inode_ok i c O Hi) as (O1 & _ & S1 & F1 & _). unfold iget_fill.
  destruct (read_inode_ok i (write_inode i c) O1) as (O2 & _ & S2 & F2 & U2); [lia|]. split_and!; [done|lia| |done].
  intros j. destruct (F1 j) as [C1 (A1 & A2 & A3 & A4)], (F2 j) as [C2 (B1 & B2 & B3 & B4)]. unfold same_id. split_and!; congruence.
Qed.

Lemma init_ok n w : ok (init n w).
Proof.
  assert (Ez : forall i, at_ (init n w) i = zero).
  { intros i. unfold at_, init. cbn [all]. destruct (replicate n zero !! i) as [x|] eqn:E; [|done]. by apply lookup_replicate in E as [-> _]. }
  assert (Es : size (init n w) = n) by (unfold size, init; cbn [all]; by rewrite length_replicate).
  constructor; rewrite ?Es.
  - done.
  - exists (seq 0 n), []. rewrite app_nil_r. split_and!; [done| |done]. apply Forall_forall. intros i _. unfold busy. by rewrite Ez.
  - cbn [hash init]. apply length_replicate.
  - intros b l E. cbn [hash init] in E. apply lookup_replicate in E as [-> _]. split; [constructor|]. intros i. rewrite Ez. split.
    + intros Hi. by apply not_elem_of_nil in Hi.
    + by intros (_ & ? & _).
  - intros i j _ _. by rewrite !Ez.
  - intros i. by rewrite Ez.
  - intros i. by rewrite Ez.
Qed.

(** ** Users of the cache *)

(** The references that are in hand, one entry for each, and what is done with
    the cache in any order. *)
Record sys := mksys { cc : cache; refs : list nat }.

Definition few (R : list nat) : Prop := Z.of_nat (length R) < 2 ^ 32 - 2.

Inductive step : sys -> sys -> Prop :=
  | step_iget c R sb dev ino i c' : few R -> iget_lock sb dev ino c = Some (i, c') -> step (mksys c R) (mksys c' (i :: R))
  | step_fill c R i : i ∈ R -> step (mksys c R) (mksys (iget_fill i c) R)
  | step_empty c R i c' : get_empty_inode c = Some (i, c') -> step (mksys c R) (mksys c' (i :: R))
  | step_iref c R i : few R -> i ∈ R -> step (mksys c R) (mksys (iref i c) (i :: R))
  | step_iput c R1 R2 i c' : iput i c = Some c' -> step (mksys c (R1 ++ i :: R2)) (mksys c' (R1 ++ R2))
  | step_use c R i f : i ∈ R -> (forall x, same_id (f x) x /\ i_count (f x) = i_count x) -> step (mksys c R) (mksys (update i f c) R)
  | step_invalidate c R dev ino : step (mksys c R) (mksys (inode_invalidate dev ino c) R)
  | step_world c R w : step (mksys c R) (mksys (set_world w c) R).

Definition cnt (i : nat) (R : list nat) : Z := Z.of_nat (length (filter (eq i) R)).

Record inv (s : sys) : Prop := {
  i_ok : ok (cc s);
  i_refs : forall i, i_count (at_ (cc s) i) = cnt i (refs s);
  i_range : forall i, i ∈ refs s -> (i < size (cc s))%nat;
}.

Lemma cnt_cons i j R : cnt i (j :: R) = cnt i R + if decide (i = j) then 1 else 0.
Proof. unfold cnt. rewrite filter_cons. destruct (decide (i = j)); cbn; lia. Qed.

Lemma cnt_app i R1 R2 : cnt i (R1 ++ R2) = cnt i R1 + cnt i R2.
Proof. unfold cnt. rewrite filter_app, length_app. lia. Qed.

Lemma cnt_pos i R : 0 < cnt i R <-> i ∈ R.
Proof.
  induction R as [|j R IH]; [split; [done|intros Hi; by apply not_elem_of_nil in Hi]|]. rewrite cnt_cons, elem_of_cons, <- IH.
  assert (0 <= cnt i R) by (unfold cnt; lia). destruct (decide (i = j)); split; intros; (lia || tauto).
Qed.

Lemma cnt_le i R : 0 <= cnt i R <= Z.of_nat (length R).
Proof. unfold cnt. pose proof (length_filter (eq i) R). lia. Qed.

Lemma kept_inv i c c' R R' : inv (mksys c R) -> kept i c c' -> (forall j, j <> i -> cnt j R' = cnt j R) -> i_count (at_ c' i) = cnt i R' ->
  (forall j, j ∈ R' -> j = i \/ j ∈ R) -> inv (mksys c' R').
Proof.
  intros I K Hc Hi HR. constructor; cbn [cc refs]; [apply K| |].
  - intros j. destruct (decide (j = i)) as [->|N]; [done|]. rewrite (k_others _ _ _ K) by done. rewrite Hc by done. apply (i_refs _ I).
  - intros j Hj. rewrite (k_size _ _ _ K). destruct (HR j Hj) as [->|Hin]; [apply K|by apply (i_range _ I)].
Qed.

Lemma inv_cnt c R i : inv (mksys c R) -> i_count (at_ c i) = cnt i R.
Proof. intros I. apply (i_refs _ I i). Qed.

Lemma free_cnt i c R : inv (mksys c R) -> busy c i = false -> cnt i R = 0.
Proof. intros I Hb. unfold busy in Hb. apply negb_false_iff, Z.eqb_eq in Hb. by rewrite <- (inv_cnt c R i I). Qed.

Lemma step_inv s s' : inv s -> step s s' -> inv s' /\ forall i, i ∈ refs s -> same_id (at_ (cc s') i) (at_ (cc s) i).
Proof.
  intros I St. assert (Hrefl : forall x, same_id x x) by done. assert (Hoth : forall i c c' R, inv (mksys c R) -> kept i c c' -> i ∉ R ->
    forall j, j ∈ R -> same_id (at_ c' j) (at_ c j)).
  { intros i c c' R Iv K Hn j Hj. rewrite (k_others _ _ _ K); [done|]. by intros ->. }
  destruct St as [c R sb dev ino i c' Hf E|c R i Hi|c R i c' E|c R i Hf Hi|c R1 R2 i c' E|c R i f Hi Hfx|c R dev ino|c R w]; cbn [cc refs].
  - pose proof (iget_lock_ok sb dev ino c (i_ok _ I)) as L. rewrite E in L. destruct L as [K L].
    { intros j. rewrite (inv_cnt c R j I). pose proof (cnt_le j R). unfold few in Hf. lia. }
    assert (Hc : i_count (at_ c' i) = cnt i (i :: R) /\ (i ∈ R -> same_id (at_ c' i) (at_ c i))).
    { rewrite cnt_cons, decide_True by done. destruct (find_inode dev ino c) as [j|].
      - destruct L as (_ & _ & _ & _ & ->). split; [cbn; by rewrite (inv_cnt c R i I)|done].
      - destruct L as (Hb & ->). rewrite (free_cnt i c R I Hb). split; [done|]. intros Hin. apply cnt_pos in Hin. rewrite (free_cnt i c R I Hb) in Hin. lia. }
    split.
    + eapply kept_inv; [exact I|exact K| |apply Hc|]; intros j; [intros N; rewrite cnt_cons, decide_False by done; lia|intros Hj; by apply elem_of_cons in Hj].
    + intros j Hj. destruct (decide (j = i)) as [->|N]; [by apply Hc|]. by rewrite (k_others _ _ _ K).
  - destruct (iget_fill_ok i c (i_ok _ I) (i_range _ I i Hi)) as (O & S & F & _). split; [|intros j _; apply F]. constructor; cbn [cc refs]; [done| |].
    + intros j. destruct (F j) as [-> _]. apply (i_refs _ I).
    + intros j Hj. rewrite S. by apply (i_range _ I).
  - pose proof (get_empty_inode_ok c (i_ok _ I)) as L. rewrite E in L. destruct L as (Hb & K & Ei). pose proof (free_cnt i c R I Hb) as Hz. split.
    + eapply kept_inv; [exact I|exact K| | |]; [intros j N; rewrite cnt_cons, decide_False by done; lia|rewrite Ei, cnt_cons, decide_True, Hz by done; done|].
      intros j Hj. by apply elem_of_cons in Hj.
    + eapply Hoth; [exact I|exact K|]. intros Hin. apply cnt_pos in Hin. lia.
  - pose proof (i_range _ I i Hi) as Hr. cbn [cc] in Hr. pose proof (cnt_le i R) as Hle. unfold few in Hf.
    assert (Hat : forall j, at_ (iref i c) j = if decide (j = i) then set_count (cnt i R + 1) (at_ c i) else at_ c j).
    { intros j. unfold iref. rewrite at_update by done. destruct (decide (j = i)); [|done]. rewrite (inv_cnt c R i I). by rewrite u32_small by lia. }
    assert (Hpos : 0 < cnt i R) by (by apply cnt_pos).
    split; [|intros j _; rewrite Hat; by destruct (decide (j = i)) as [->|]]. constructor; cbn [cc refs].
    + apply (ok_ids c (iref i c) (i_ok _ I)).
      * apply size_update.
      * done.
      * intros j. rewrite Hat. by destruct (decide (j = i)) as [->|].
      * apply (o_lru _ (i_ok _ I)).
      * destruct (o_free _ (i_ok _ I)) as (F & Bs & E & HF & HB). exists F, Bs. split; [exact E|].
        assert (Hb : forall j, busy (iref i c) j = busy c j).
        { intros j. unfold busy. rewrite Hat. destruct (decide (j = i)) as [->|]; [|done]. cbn [i_count set_count]. pose proof (inv_cnt c _ i I) as Er. rewrite Er.
          f_equal. rewrite !(proj2 (Z.eqb_neq _ 0)) by lia. done. }
        split; (eapply Forall_impl; [eassumption|]); cbn; intros j <-; by rewrite Hb.
      * intros j. rewrite Hat. destruct (decide (j = i)) as [->|]; [cbn; lia|apply (o_clean _ (i_ok _ I))].
      * intros j. rewrite Hat. destruct (decide (j = i)) as [->|]; [cbn; lia|apply (o_count _ (i_ok _ I))].
    + intros j. rewrite Hat, cnt_cons. destruct (decide (j = i)) as [->|]; [done|]. rewrite (inv_cnt c R j I). lia.
    + intros j Hj. unfold iref. rewrite size_update. apply elem_of_cons in Hj as [->|Hj]; [done|by apply (i_range _ I)].
  - assert (Hin : i ∈ R1 ++ i :: R2) by (apply elem_of_app; right; apply elem_of_cons; by left).
    assert (Hp : 0 < i_count (at_ c i)) by (pose proof (i_refs _ I i) as Er; cbn [cc refs] in Er; rewrite Er; by apply cnt_pos).
    destruct (iput_ok i c (i_ok _ I) (i_range _ I i Hin) Hp) as (c2 & E2 & K & Hid & Hc & _). rewrite E in E2. injection E2 as <-.
    assert (Hcnt : forall j, cnt j (R1 ++ i :: R2) = cnt j (R1 ++ R2) + if decide (j = i) then 1 else 0) by (intros j; rewrite !cnt_app, cnt_cons; lia).
    split.
    + eapply kept_inv; [exact I|exact K| | |].
      * intros j N. rewrite Hcnt, decide_False by done. lia.
      * rewrite Hc. pose proof (inv_cnt c _ i I) as Er. rewrite Er, Hcnt, decide_True by done. lia.
      * intros j Hj. right. apply elem_of_app in Hj as [Hj|Hj]; apply elem_of_app; [by left|right; apply elem_of_cons; by right].
    + intros j Hj. destruct (decide (j = i)) as [->|N]; [done|]. by rewrite (k_others _ _ _ K).
  - pose proof (i_range _ I i Hi) as Hr. cbn [cc] in Hr.
    assert (Hat : forall j, at_ (update i f c) j = if decide (j = i) then f (at_ c i) else at_ c j) by (intros j; by apply at_update).
    assert (Hpos : 0 < i_count (at_ c i)) by (pose proof (i_refs _ I i) as Er; cbn [cc refs] in Er; rewrite Er; by apply cnt_pos).
    split; [|intros j _; rewrite Hat; destruct (decide (j = i)) as [->|]; [apply Hfx|done]]. constructor; cbn [cc refs].
    + apply (ok_ext c _ (i_ok _ I)); [apply size_update|done|done| |]; intros j; rewrite Hat; destruct (decide (j = i)) as [->|].
      * destruct (Hfx (at_ c i)) as ((-> & -> & _ & ->) & ->). done.
      * done.
      * lia.
      * apply (o_clean _ (i_ok _ I)).
    + intros j. rewrite Hat. destruct (decide (j = i)) as [->|]; [|apply (i_refs _ I)]. destruct (Hfx (at_ c i)) as (_ & ->). apply (i_refs _ I).
    + intros j Hj. rewrite size_update. by apply (i_range _ I).
  - unfold inode_invalidate. pose proof (find_inode_spec dev ino c (i_ok _ I)) as Fs. destruct (find_inode dev ino c) as [i|]; [|by split].
    destruct Fs as (Hr & _). set (f := fun x => set_flags false false (i_pipe x) x). set (c1 := set_world _ _).
    assert (Hat : forall j, at_ c1 j = if decide (j = i) then f (at_ c i) else at_ c j) by (intros j; by apply (at_update i f c)).
    split; [|intros j _; rewrite Hat; by destruct (decide (j = i)) as [->|]]. constructor; cbn [cc refs].
    + apply (ok_ext c _ (i_ok _ I)); [exact (size_update i f c)|done|done| |]; intros j; rewrite Hat; destruct (decide (j = i)) as [->|]; try done.
      apply (o_clean _ (i_ok _ I)).
    + intros j. rewrite Hat. destruct (decide (j = i)) as [->|]; apply (i_refs _ I).
    + intros j Hj. change (size c1) with (size (update i f c)). rewrite size_update. by apply (i_range _ I).
  - split; [|done]. destruct I as [I1 I2 I3]. constructor; cbn [cc refs] in *; [|exact I2|exact I3]. destruct I1. by constructor.
Qed.

Inductive reach (w : W) : sys -> Prop :=
  | reach_init n : reach w (mksys (init n w) [])
  | reach_step s s' : reach w s -> step s s' -> reach w s'.

Lemma cache_reach_inv w s : reach w s -> inv s.
Proof.
  induction 1 as [n|s s' _ IH St]; [|by apply (step_inv s s' IH St)]. constructor; cbn [cc refs]; [apply init_ok| |].
  - intros i. unfold cnt. cbn. unfold at_, init. cbn [all]. destruct (replicate n zero !! i) as [x|] eqn:E; [|done].
    by apply lookup_replicate in E as [-> _].
  - intros i Hi. by apply not_elem_of_nil in Hi.
Qed.

(** C2: whatever the users of the cache do and in what order, the list holds every
    inode once with the free ones first, the hash holds each inode of a file system
    once and no two for one number of one device, the count of an inode is the
    number of references to it, no free inode holds changes, and the assertion of
    [iput] does not fail for anybody who has a reference. *)
Theorem inode_cache_safe w s : reach w s ->
  ok (cc s) /\ (forall i, i_count (at_ (cc s) i) = cnt i (refs s)) /\ forall i, i ∈ refs s -> exists c', iput i (cc s) = Some c'.
Proof.
  intros R. pose proof (cache_reach_inv w s R) as I. split_and!; [apply I|apply I|]. intros i Hi.
  destruct (iput_ok i (cc s) (i_ok _ I) (i_range _ I i Hi)) as (c' & E & _); [|by exists c']. rewrite (i_refs _ I i). by apply cnt_pos.
Qed.

(** an inode somebody holds stays the inode of its file, in every step of
    anybody, also while others free, evict and reuse inodes. *)
Theorem held_inode_stays w s s' i : reach w s -> step s s' -> i ∈ refs s -> same_id (at_ (cc s') i) (at_ (cc s) i).
Proof. intros R St Hi. by apply (step_inv s s' (cache_reach_inv w s R) St). Qed.

(** C26: getting the inode of a number: the inode that is in the cache for it, with
    one more reference, or else the first on the list, which nobody holds, cleared
    and with the number; every other inode stays, and when it is filled in it is
    up to date.  The caller sleeps exactly when the number is not in the cache and
    every inode is held. *)
Theorem iget_exact w s sb dev ino : reach w s -> few (refs s) ->
  match iget_lock sb dev ino (cc s) with
  | Some (i, c') =>
      (i < size (cc s))%nat /\ (forall j, j <> i -> at_ c' j = at_ (cc s) j) /\ i_up2date (at_ (iget_fill i c') i) = true /\
      match find_inode dev ino (cc s) with
      | Some j => j = i /\ at_ c' i = set_count (cnt i (refs s) + 1) (at_ (cc s) i) /\ i_dev (at_ c' i) = dev /\ i_ino (at_ c' i) = ino
      | None => head (lru (cc s)) = Some i /\ (i ∉ refs s) /\ at_ c' i = set_count 1 (set_id sb dev ino zero)
      end
  | None => find_inode dev ino (cc s) = None /\ forall i, (i < size (cc s))%nat -> i ∈ refs s
  end.
Proof.
  intros R Hf. pose proof (cache_reach_inv w s R) as I. pose proof (iget_lock_ok sb dev ino (cc s) (i_ok _ I)) as L.
  assert (Hmax : forall i, i_count (at_ (cc s) i) < 2 ^ 32 - 1).
  { intros j. rewrite (i_refs _ I j). pose proof (cnt_le j (refs s)). unfold few in Hf. lia. }
  specialize (L Hmax). assert (Hd : find_inode dev ino (cc s) = None -> forall i c', iget_lock sb dev ino (cc s) = Some (i, c') -> head (lru (cc s)) = Some i).
  { intros Hn i c' E. unfold iget_lock in E. rewrite Hn in E. destruct (lru (cc s)) as [|j l]; [done|]. destruct (busy (cc s) j); [done|]. injection E as <- _. done. }
  destruct (iget_lock sb dev ino (cc s)) as [[i c']|].
  - destruct L as [K L]. split_and!; [apply K|apply K|apply iget_fill_ok; [apply K|rewrite (k_size _ _ _ K); apply K]|].
    destruct (find_inode dev ino (cc s)) as [j|].
    + destruct L as (-> & _ & <- & <- & E). split_and!; [done|by rewrite E, (i_refs _ I i)|by rewrite E|by rewrite E].
    + destruct L as (Hb & E). split_and!; [by apply (Hd eq_refl i c')| |done]. intros Hi. apply cnt_pos in Hi. rewrite <- (i_refs _ I i) in Hi.
      unfold busy in Hb. apply negb_false_iff, Z.eqb_eq in Hb. lia.
  - destruct L as [Hn Hb]. split; [done|]. intros i Hi. specialize (Hb i Hi). apply cnt_pos. rewrite <- (i_refs _ I i). pose proof (o_count _ (i_ok _ I) i).
    unfold busy in Hb. apply negb_true_iff, Z.eqb_neq in Hb. lia.
Qed.

Lemma fs_may_umount_ok s sb root : inv s ->
  fs_may_umount sb root (cc s) = true <-> forall i, i ∈ refs s -> i_sb (at_ (cc s) i) = Some sb -> i = root /\ cnt i (refs s) = 1.
Proof.
  intros I. unfold fs_may_umount. rewrite forallb_forall. destruct (lru_facts _ (i_ok _ I)) as [_ HE]. split.
  - intros Hf i Hi Hsb. specialize (Hf i ltac:(apply list_elem_of_In, HE; by apply (i_range _ I))). cbn in Hf.
    rewrite Hsb, bool_decide_eq_false_2 in Hf by (by intros []). rewrite (i_refs _ I i) in Hf. apply cnt_pos in Hi.
    destruct (Z.eqb_spec (cnt i (refs s)) 0); [lia|]. cbn [orb] in Hf. apply andb_true_iff in Hf as [->%Nat.eqb_eq ->%Z.eqb_eq]. done.
  - intros Hf i Hi. cbn. destruct (decide (i_sb (at_ (cc s) i) = Some sb)) as [Hsb|]; [|by rewrite bool_decide_eq_true_2].
    rewrite bool_decide_eq_false_2 by (by intros []). rewrite (i_refs _ I i). destruct (Z.eqb_spec (cnt i (refs s)) 0) as [|Hn]; [done|].
    assert (Hin : i ∈ refs s) by (apply cnt_pos; pose proof (cnt_le i (refs s)); lia). destruct (Hf i Hin Hsb) as [-> ->]. by rewrite Nat.eqb_refl.
Qed.

(** a file system may be unmounted exactly when the only reference to one of
    its inodes is the one to its root. *)
Theorem fs_may_umount_exact w s sb root : reach w s ->
  fs_may_umount sb root (cc s) = true <-> forall i, i ∈ refs s -> i_sb (at_ (cc s) i) = Some sb -> i = root /\ cnt i (refs s) = 1.
Proof. intros R. apply fs_may_umount_ok. by apply (cache_reach_inv w). Qed.

(** One reference is given back. *)
Lemma iput_inv c i R : inv (mksys c (i :: R)) ->
  exists c', iput i c = Some c' /\ inv (mksys c' R) /\ i_mount (at_ c' i) = i_mount (at_ c i) /\ forall j, j <> i -> at_ c' j = at_ c j.
Proof.
  intros I. assert (Hin : i ∈ i :: R) by (apply elem_of_cons; by left). pose proof (inv_cnt c _ i I) as Hc.
  destruct (iput_ok i c (i_ok _ I) (i_range _ I i Hin)) as (c' & E & K & _ & Hn & Hm); [rewrite Hc; by apply cnt_pos|]. exists c'. split_and!; [done| |done|apply K].
  eapply kept_inv; [exact I|exact K| | |].
  - intros j N. rewrite cnt_cons, decide_False by done. lia.
  - rewrite Hn, Hc, cnt_cons, decide_True by done. lia.
  - intros j Hj. right. apply elem_of_cons. by right.
Qed.

Lemma inv_perm c R R' : R ≡ₚ R' -> inv (mksys c R) -> inv (mksys c R').
Proof.
  intros P [I1 I2 I3]. constructor; cbn [cc refs] in *; [done| |intros i Hi; apply I3; by rewrite P].
  intros i. rewrite I2. unfold cnt. f_equal. apply Permutation_length. by rewrite P.
Qed.

(** A change of an inode that keeps its identity, its count and its flags. *)
Lemma update_inv i f c R : inv (mksys c R) -> (i < size c)%nat -> (forall x, same_id (f x) x /\ i_count (f x) = i_count x) ->
  (forall x, i_up2date (f x) = i_up2date x /\ i_dirty (f x) = i_dirty x) -> inv (mksys (update i f c) R).
Proof.
  intros I Hr Hf Hg. assert (Hat : forall j, at_ (update i f c) j = if decide (j = i) then f (at_ c i) else at_ c j) by (intros j; by apply at_update).
  constructor; cbn [cc refs].
  - apply (ok_ext c _ (i_ok _ I)); [apply size_update|done|done| |]; intros j; rewrite Hat; destruct (decide (j = i)) as [->|].
    + destruct (Hf (at_ c i)) as ((-> & -> & _ & ->) & ->). done.
    + done.
    + intros Hz. destruct (Hg (at_ c i)) as [-> ->]. by apply (o_clean _ (i_ok _ I)).
    + apply (o_clean _ (i_ok _ I)).
  - intros j. rewrite Hat. destruct (decide (j = i)) as [->|]; [|apply (i_refs _ I)]. destruct (Hf (at_ c i)) as (_ & ->). apply (i_refs _ I).
  - intros j Hj. rewrite size_update. by apply (i_range _ I).
Qed.
End Cache.
Arguments inode B : clear implicits.
Arguments cache B W : clear implicits.
Arguments got B W : clear implicits.

(** ** A small file system *)

(** The body is a number that is read from the device; 0 is no directory, above
    100 a block device. *)
#[export] Instance numbers : SuperOps Z (Z -> Z) := {|
  body0 := 0;
  op_read_inode _ _ ino _ w := (w ino, w);
  op_write_inode _ _ ino b w := fun x => if x =? ino then b else w x;
  op_clear_inode _ _ _ _ w := w;
  filemap_invalidate_inode _ w := w;
  destroy_pipe_inode_info _ w := w;
  s_isdir b := b =? 1;
  s_isblk b := if b >? 100 then Some b else None;
|}.

Definition w0 (ino : Z) : Z := if ino =? 2 then 1 else 7.
Definition s0 : sys := mksys (init 4 w0) [].
Definition s1 : sys := match iget_lock 1 5 2 (cc s0) with Some (i, c) => mksys c [i] | None => s0 end.

Lemma s1_reach : reach w0 s1.
Proof. apply (reach_step w0 s0); [constructor|]. apply (step_iget (init 4 w0) [] 1 5 2); done. Qed.

Lemma s1_eq : s1 = mksys (cc s1) [0%nat].
Proof. by vm_compute. Qed.
Lemma s1_ino : i_ino (at_ (cc s1) 0%nat) = 2.
Proof. by vm_compute. Qed.
Lemma s1_found : find_inode 5 2 (cc s1) = Some 0%nat.
Proof. by vm_compute. Qed.
Lemma s1_gets : exists c', iget_lock 1 5 2 (cc s1) = Some (0%nat, c').
Proof. eexists. vm_compute. reflexivity. Qed.
Lemma s1_held : 0%nat ∈ refs s1.
Proof. rewrite s1_eq. apply elem_of_cons. by left. Qed.
Lemma s1_cnt : cnt 0 (refs s1) = 1.
Proof. by rewrite s1_eq. Qed.

Lemma inode_cache_safe_witness : ok (cc s1) /\ i_count (at_ (cc s1) 0) = 1 /\ exists c', iput 0%nat (cc s1) = Some c'.
Proof.
  destruct (inode_cache_safe w0 s1 s1_reach) as (O & C & P). split; [exact O|]. split; [rewrite C; exact s1_cnt|]. apply P, s1_held.
Defined.

Definition s2 : sys := mksys (iget_fill 0%nat (cc s1)) (refs s1).
Lemma s2_step : step s1 s2.
Proof. pose proof (step_fill (cc s1) (refs s1) 0%nat s1_held) as St. unfold s2. by destruct s1. Qed.

Lemma held_inode_stays_witness : same_id (at_ (cc s2) 0%nat) (at_ (cc s1) 0%nat) /\ i_ino (at_ (cc s1) 0%nat) = 2.
Proof. split; [exact (held_inode_stays w0 s1 s2 0%nat s1_reach s2_step s1_held)|exact s1_ino]. Defined.

Lemma iget_exact_witness : exists c', iget_lock 1 5 2 (cc s1) = Some (0%nat, c') /\ i_count (at_ c' 0%nat) = 2.
Proof.
  pose proof (iget_exact w0 s1 1 5 2 s1_reach) as T. destruct s1_gets as [c' E]. rewrite E, s1_found, s1_cnt in T.
  destruct T as (_ & _ & _ & _ & T & _); [unfold few; by rewrite s1_eq|]. exists c'. split; [exact E|]. by rewrite T.
Defined.

Lemma fs_may_umount_exact_witness : fs_may_umount 1 0%nat (cc s1) = true.
Proof.
  apply (fs_may_umount_exact w0 s1 1 0%nat s1_reach). intros i Hi _. split; [|].
  - rewrite s1_eq in Hi. by apply list_elem_of_singleton in Hi.
  - rewrite s1_eq in Hi. apply list_elem_of_singleton in Hi as ->. exact s1_cnt.
Defined.
End Inode.
