(* ===== verification/Mount.v ===== *)
(** * The table of mounted file systems ([fs/super_block.c])

    Super blocks in a table, on the inode cache.  A file system type is its name,
    whether it has a device, and its [read_super], which fills a super block and
    gives the inode of its root.  Mounting and unmounting hold one semaphore. *)
From S2P Require Import Prelude Inode.
Import Inode.

Module Mount.

Definition NR_SUPER : nat := 32.
Definition MAX_BLKDEV : Z := 64.
Definition EBUSY : Z := 16.
Definition ENOMEM : Z := 12.
Definition ENOTDIR : Z := 20.
Definition EINVAL : Z := 22.
Definition ENXIO : Z := 6.
Definition MAJOR (dev : Z) : Z := Z.shiftr dev 8.

Record super_block := mksuper { s_dev : Z; s_fsname : option Z; s_covered : option nat; s_mounted : option nat; s_dirty : bool }.

Section Mount.
Context {B W : Type} {Ops : SuperOps B W} (ROOT_DEV : Z).

Record fs_type := mktype { ft_name : Z; ft_nodev : bool; ft_read_super : nat -> Z -> cache B W -> cache B W * option nat }.
(** [s_op->write_super] of a super block: its result and the device after it. *)
Context (op_write_super : nat -> Z -> W -> Z * W).

Record mounts := mkmounts { sbs : list super_block; mc : cache B W }.
Definition set_mc (c : cache B W) (m : mounts) : mounts := mkmounts (sbs m) c.
Definition sb_update (k : nat) (f : super_block -> super_block) (m : mounts) : mounts := mkmounts (alter f k (sbs m)) (mc m).

Definition sb_init (c : cache B W) : mounts := mkmounts (replicate NR_SUPER (mksuper 0 None None None false)) c.

(** The first slot with a property. *)
Fixpoint slot_from (p : super_block -> bool) (k : nat) (l : list super_block) : option nat :=
  match l with [] => None | s :: l => if p s then Some k else slot_from p (S k) l end.

Definition get_super (dev : Z) (m : mounts) : option nat := if dev =? 0 then None else slot_from (fun s => s_dev s =? dev) 0 (sbs m).
Definition get_super_by_type (ft : fs_type) (m : mounts) : option nat := slot_from (fun s => bool_decide (s_fsname s = Some (ft_name ft))) 0 (sbs m).

Definition write_super (k : nat) (m : mounts) : Z * mounts :=
  match sbs m !! k with
  | None => (0, m)
  | Some s =>
    if negb (s_dirty s) then (0, m) else
    let m := sb_update k (fun s => mksuper (s_dev s) (s_fsname s) (s_covered s) (s_mounted s) false) m in
    let '(r, w) := op_write_super k (s_dev s) (world (mc m)) in (r, set_mc (set_world w (mc m)) m)
  end.

(** [flags] only go to the file system. *)
Definition read_super (dev : Z) (ft : fs_type) (m : mounts) : mounts * option nat :=
  match (if dev =? 0 then get_super_by_type ft m else get_super dev m) with
  | Some k => (m, Some k)
  | None =>
    match slot_from (fun s => (s_dev s =? 0) && bool_decide (s_fsname s = None)) 0 (sbs m) with
    | None => (m, None)
    | Some k =>
      let m := sb_update k (fun s => mksuper dev (s_fsname s) (s_covered s) (s_mounted s) (s_dirty s)) m in
      match ft_read_super ft k dev (mc m) with
      | (c, None) => (sb_update k (fun s => mksuper 0 (s_fsname s) (s_covered s) (s_mounted s) (s_dirty s)) (set_mc c m), None)
      | (c, Some root) =>
        (sb_update k (fun s => mksuper (s_dev s) (Some (ft_name ft)) (s_covered s) (Some root) (s_dirty s)) (set_mc c m), Some k)
      end
    end
  end.

(** The types in order; every type with a device is tried, also after one has
    been taken. *)
Fixpoint mount_root (types : list fs_type) (sb : option nat) (fs : option nat) (m : mounts) : option (mounts * option nat) :=
  match types with
  | [] => match sb with None => None | Some _ => Some (m, fs) end
  | ft :: types =>
    if ft_nodev ft then mount_root types sb fs m else
    let '(m, sb) := read_super ROOT_DEV ft m in
    match sb with
    | None => mount_root types None fs m
    | Some k =>
      match (sbs m !! k) ≫= s_mounted with
      | None => None
      | Some i =>
        let m := set_mc (iref i (iref i (mc m))) m in
        mount_root types sb (Some i) (sb_update k (fun s => mksuper (s_dev s) (s_fsname s) None (s_mounted s) (s_dirty s)) m)
      end
    end
  end.

Definition drop (dir : nat) (error : Z) (m : mounts) : option (Z * mounts) := c ← iput dir (mc m); Some (error, set_mc c m).

(** [dir] is the inode of the path, with a reference; [mem] says whether there is
    memory for the name of the mount point.  [None]: an assertion fails. *)
Definition do_mount (mem : bool) (dev : Z) (dir : nat) (ft : fs_type) (m : mounts) : option (Z * mounts) :=
  if negb (s_isdir (i_body (at_ (mc m) dir))) then drop dir (- ENOTDIR) m else
  if negb (i_count (at_ (mc m) dir) =? 1) || bool_decide (i_mount (at_ (mc m) dir) <> None) then drop dir (- EBUSY) m else
  if negb (dev =? 0) && negb (fs_may_mount dev (mc m)) then drop dir (- EBUSY) m else
  let '(m, r) := read_super dev ft m in
  match r with
  | None => drop dir (- EINVAL) m
  | Some k =>
    match sbs m !! k with
    | None => None
    | Some s =>
      if bool_decide (s_covered s <> None) then drop dir (- EBUSY) m else
      if negb mem then drop dir (- ENOMEM) m else
      Some (0, set_mc (update dir (set_mount (s_mounted s)) (mc m))
                 (sb_update k (fun s => mksuper (s_dev s) (s_fsname s) (Some dir) (s_mounted s) (s_dirty s)) m))
    end
  end.

Definition do_umount_sb (k : nat) (m : mounts) : option (Z * mounts) :=
  s ← sbs m !! k;
  match s_covered s, s_mounted s with
  | None, _ => Some (- EINVAL, m)
  | Some _, None => None
  | Some d, Some r =>
    if negb (fs_may_umount k r (mc m)) then Some (- EBUSY, m) else
    let m := set_mc (update d (set_mount None) (mc m)) m in
    c ← iput d (mc m);
    let m := sb_update k (fun s => mksuper (s_dev s) (s_fsname s) None (s_mounted s) (s_dirty s)) (set_mc c m) in
    c ← iput r (mc m);
    let m := sb_update k (fun s => mksuper (s_dev s) None (s_covered s) None (s_dirty s)) (set_mc c m) in
    let '(ret, m) := write_super k m in
    Some (ret, sb_update k (fun s => mksuper 0 (s_fsname s) (s_covered s) (s_mounted s) (s_dirty s)) m)
  end.

(** [inode] is the inode of the path, with a reference. *)
Definition sys_umount (inode : nat) (m : mounts) : option (Z * mounts) :=
  let x := at_ (mc m) inode in
  match s_isblk (i_body x) with
  | Some dev =>
    c ← iput inode (mc m);
    let m := set_mc c m in
    if MAJOR dev >=? MAX_BLKDEV then Some (- ENXIO, m) else
    if dev =? ROOT_DEV then Some (0, m) else
    match get_super dev m with
    | None => Some (- EINVAL, m)
    | Some k => match (sbs m !! k) ≫= s_covered with None => Some (- EINVAL, m) | Some _ => do_umount_sb k m end
    end
  | None =>
    if s_isdir (i_body x) then
      k ← i_sb x;
      s ← sbs m !! k;
      if bool_decide (s_covered s = None) || bool_decide (s_mounted s <> Some inode) then drop inode (- EINVAL) m else
      c ← iput inode (mc m); do_umount_sb k (set_mc c m)
    else drop inode (- EINVAL) m
  end.

Definition get_nr_mounts (m : mounts) : Z :=
  zlength (filter (fun s => s_mounted s <> None /\ s_fsname s <> None) (sbs m)).

(** ** Unmounting *)

Lemma sb_lookup k f m j : sbs (sb_update k f m) !! j = if decide (j = k) then f <$> sbs m !! k else sbs m !! j.
Proof.
  unfold sb_update. cbn [sbs]. destruct (decide (j = k)) as [->|N]; [by rewrite list_lookup_alter_eq|by rewrite list_lookup_alter_ne].
Qed.

Lemma world_inv c R w : inv (mksys c R) -> inv (mksys (set_world w c) R).
Proof. intros I. by apply (step_inv (mksys c R) (mksys (set_world w c) R) I), step_world. Qed.

Lemma write_super_ok k m R s : sbs m !! k = Some s -> inv (mksys (mc m) R) ->
  exists ret m', write_super k m = (ret, m') /\ inv (mksys (mc m') R) /\ (forall j, at_ (mc m') j = at_ (mc m) j) /\
    sbs m' !! k = Some (mksuper (s_dev s) (s_fsname s) (s_covered s) (s_mounted s) false) /\ forall j, j <> k -> sbs m' !! j = sbs m !! j.
Proof.
  intros Hs I. unfold write_super. rewrite Hs. destruct (s_dirty s) eqn:Ed; cbn [negb].
  - set (m1 := sb_update k _ m). destruct (op_write_super k (s_dev s) (world (mc m1))) as [r w]. exists r, (set_mc (set_world w (mc m1)) m1).
    split_and!; [done|by apply world_inv|done| |].
    + change (sbs (set_mc _ m1)) with (sbs m1). unfold m1. by rewrite sb_lookup, decide_True, Hs.
    + intros j N. change (sbs (set_mc _ m1)) with (sbs m1). unfold m1. by rewrite sb_lookup, decide_False.
  - exists 0, m. split_and!; [done|done|done| |done]. rewrite Hs. destruct s. cbn in *. by subst.
Qed.

Definition free_super : super_block := mksuper 0 None None None false.

(** No reference to an inode of the file system but the one to its root. *)
Definition unused (k r : nat) (c : cache B W) (R : list nat) : Prop :=
  forall i, i ∈ R -> i_sb (at_ c i) = Some k -> i = r /\ cnt i R = 1.

Lemma do_umount_ok m k s d r U : sbs m !! k = Some s -> s_covered s = Some d -> s_mounted s = Some r ->
  inv (mksys (mc m) (d :: r :: U)) -> unused k r (mc m) (d :: r :: U) ->
  exists ret m', do_umount_sb k m = Some (ret, m') /\ inv (mksys (mc m') U) /\ (d <> r -> i_mount (at_ (mc m') d) = None) /\
    (forall j, j <> d -> j <> r -> at_ (mc m') j = at_ (mc m) j) /\
    sbs m' !! k = Some free_super /\ forall j, j <> k -> sbs m' !! j = sbs m !! j.
Proof.
  intros Hs Hd Hr I Un. unfold do_umount_sb. rewrite Hs. cbn [option_bind mbind]. rewrite Hd, Hr.
  pose proof (proj2 (fs_may_umount_ok _ k r I) Un) as Eu. cbn [cc] in Eu. rewrite Eu. cbn [negb]. set (c1 := update d (set_mount None) (mc m)).
  assert (Hdr : (d < size (mc m))%nat) by (apply (i_range _ I); apply elem_of_cons; by left).
  assert (I1 : inv (mksys c1 (d :: r :: U))) by (apply update_inv; [exact I|exact Hdr|done|done]).
  assert (Hc1 : forall j, at_ c1 j = if decide (j = d) then set_mount None (at_ (mc m) d) else at_ (mc m) j) by (intros j; by apply at_update).
  destruct (iput_inv c1 d (r :: U) I1) as (c2 & E2 & I2 & M2 & O2). cbn [mc set_mc]. rewrite E2. cbn [option_bind mbind].
  destruct (iput_inv c2 r U I2) as (c3 & E3 & I3 & _ & O3). cbn [mc set_mc sb_update]. rewrite E3. cbn [option_bind mbind].
  match goal with |- context [write_super k ?x] => set (m3 := x) end.
  assert (Hs3 : sbs m3 !! k = Some (mksuper (s_dev s) None None None (s_dirty s))).
  { unfold m3. rewrite sb_lookup, decide_True by done. cbn [sbs set_mc sb_update]. rewrite list_lookup_alter_eq, Hs. done. }
  assert (Ho3 : forall j, j <> k -> sbs m3 !! j = sbs m !! j).
  { intros j N. unfold m3. rewrite sb_lookup, decide_False by done. cbn [sbs set_mc sb_update]. by rewrite list_lookup_alter_ne. }
  destruct (write_super_ok k m3 U _ Hs3 I3) as (ret & m4 & E4 & I4 & A4 & S4 & O4). rewrite E4. eexists ret, _. split; [done|].
  cbn [mc sb_update]. split_and!; [exact I4| | | |].
  - intros N. rewrite A4. change (mc m3) with c3. rewrite O3, M2, Hc1, decide_True by done. done.
  - intros j N1 N2. rewrite A4. change (mc m3) with c3. rewrite O3, O2, Hc1, decide_False by done. done.
  - by rewrite sb_lookup, decide_True, S4.
  - intros j N. rewrite sb_lookup, decide_False by done. by rewrite O4, Ho3.
Qed.

(** C36: unmounting a file system: while there is another reference to one of its
    inodes than the one to its root, [-EBUSY] and nothing changes; else its super
    block is free, nothing is mounted on the directory any more, and the references
    to the directory and to the root are given back, and only these. *)
Theorem do_umount_sb_exact m k s d r U : sbs m !! k = Some s -> s_covered s = Some d -> s_mounted s = Some r ->
  inv (mksys (mc m) (d :: r :: U)) ->
  (~ unused k r (mc m) (d :: r :: U) /\ do_umount_sb k m = Some (- EBUSY, m)) \/
  (unused k r (mc m) (d :: r :: U) /\ exists ret m', do_umount_sb k m = Some (ret, m') /\ inv (mksys (mc m') U) /\
    (d <> r -> i_mount (at_ (mc m') d) = None) /\ (forall j, j <> d -> j <> r -> at_ (mc m') j = at_ (mc m) j) /\
    sbs m' !! k = Some free_super /\ forall j, j <> k -> sbs m' !! j = sbs m !! j).
Proof.
  intros Hs Hd Hr I. pose proof (fs_may_umount_ok _ k r I) as Eu. cbn [cc refs] in Eu. destruct (fs_may_umount k r (mc m)) eqn:Ef.
  - right. pose proof (proj1 Eu eq_refl) as Un. split; [exact Un|]. by apply (do_umount_ok m k s d r U).
  - left. split; [intros Un; by apply Eu in Un|]. unfold do_umount_sb. rewrite Hs. cbn [option_bind mbind]. by rewrite Hd, Hr, Ef.
Qed.

(** ** Mounting *)

Lemma do_mount_ok m dev dir ft k c r U : inv (mksys (mc m) (dir :: U)) ->
  s_isdir (i_body (at_ (mc m) dir)) = true -> dir ∉ U -> i_mount (at_ (mc m) dir) = None -> dev = 0 \/ fs_may_mount dev (mc m) = true ->
  (if dev =? 0 then get_super_by_type ft m else get_super dev m) = None ->
  slot_from (fun s => (s_dev s =? 0) && bool_decide (s_fsname s = None)) 0 (sbs m) = Some k -> sbs m !! k = Some free_super ->
  ft_read_super ft k dev (mc m) = (c, Some r) -> inv (mksys c (r :: dir :: U)) -> r ∉ dir :: U ->
  (forall j, j ∈ dir :: U -> at_ c j = at_ (mc m) j) ->
  exists m', do_mount true dev dir ft m = Some (0, m') /\ inv (mksys (mc m') (dir :: r :: U)) /\
    sbs m' !! k = Some (mksuper dev (Some (ft_name ft)) (Some dir) (Some r) false) /\ (forall j, j <> k -> sbs m' !! j = sbs m !! j) /\
    at_ (mc m') dir = set_mount (Some r) (at_ c dir) /\ forall j, j <> dir -> at_ (mc m') j = at_ c j.
Proof.
  intros I Hdir HU Hm Hdev Hg Hsl Hk Hrd Ic Hr Hsame. assert (Hin : dir ∈ dir :: U) by (apply elem_of_cons; by left).
  assert (Hc0 : cnt dir U = 0). { pose proof (cnt_le dir U). destruct (Z.eqb_spec (cnt dir U) 0); [done|]. exfalso. apply HU, cnt_pos. lia. }
  unfold do_mount. rewrite Hdir. cbn [negb]. rewrite (inv_cnt _ _ dir I), cnt_cons, decide_True, Hc0, Hm by done.
  change (0 + 1 =? 1) with true. cbn [negb orb]. rewrite bool_decide_eq_false_2 by (by intros []).
  replace (negb (dev =? 0) && negb (fs_may_mount dev (mc m))) with false by (destruct Hdev as [->| ->]; [done|by rewrite andb_false_r]).
  unfold read_super. rewrite Hg, Hsl. cbn [mc sb_update]. rewrite Hrd. set (m2 := sb_update k _ (set_mc c _)).
  assert (S2 : forall j, sbs m2 !! j = if decide (j = k) then Some (mksuper dev (Some (ft_name ft)) None (Some r) false) else sbs m !! j).
  { intros j. unfold m2. rewrite sb_lookup. destruct (decide (j = k)) as [->|N].
    - cbn [sbs set_mc sb_update]. by rewrite list_lookup_alter_eq, Hk.
    - cbn [sbs set_mc sb_update]. by rewrite list_lookup_alter_ne. }
  rewrite S2, decide_True by done. cbn [s_covered s_mounted]. rewrite bool_decide_eq_false_2 by (by intros []). cbn [negb].
  eexists. split; [done|]. cbn [mc set_mc sb_update]. change (mc m2) with c.
  assert (Hds : (dir < size c)%nat) by (apply (i_range _ Ic); apply elem_of_cons; right; exact Hin).
  split_and!.
  - apply (inv_perm _ (r :: dir :: U)); [apply perm_swap|]. by apply update_inv.
  - change (sbs (set_mc ?c0 ?x)) with (sbs x). by rewrite sb_lookup, decide_True, S2, decide_True.
  - intros j N. change (sbs (set_mc ?c0 ?x)) with (sbs x). by rewrite sb_lookup, decide_False, S2, decide_False.
  - by rewrite at_update, decide_True by done.
  - intros j N. by rewrite at_update, decide_False by done.
Qed.

(** C38: mounting a new file system on a directory that nobody else uses, and
    unmounting it when nobody uses it, gives back every reference and leaves the
    table of super blocks and the directory as they were. *)
Theorem mount_umount_roundtrip m dev dir ft k c r U : inv (mksys (mc m) (dir :: U)) ->
  s_isdir (i_body (at_ (mc m) dir)) = true -> dir ∉ U -> i_mount (at_ (mc m) dir) = None -> dev = 0 \/ fs_may_mount dev (mc m) = true ->
  (if dev =? 0 then get_super_by_type ft m else get_super dev m) = None ->
  slot_from (fun s => (s_dev s =? 0) && bool_decide (s_fsname s = None)) 0 (sbs m) = Some k -> sbs m !! k = Some free_super ->
  ft_read_super ft k dev (mc m) = (c, Some r) -> inv (mksys c (r :: dir :: U)) -> r ∉ dir :: U ->
  (forall j, j ∈ dir :: U -> at_ c j = at_ (mc m) j) -> (forall j, j ∈ dir :: U -> i_sb (at_ (mc m) j) <> Some k) ->
  exists m1 ret m2, do_mount true dev dir ft m = Some (0, m1) /\ do_umount_sb k m1 = Some (ret, m2) /\
    inv (mksys (mc m2) U) /\ i_mount (at_ (mc m2) dir) = None /\ (forall j, j ∈ U -> at_ (mc m2) j = at_ (mc m) j) /\
    forall j, sbs m2 !! j = sbs m !! j.
Proof.
  clear ROOT_DEV. intros I Hdir HU Hm Hdev Hg Hsl Hk Hrd Ic Hr Hsame Hsb.
  destruct (do_mount_ok m dev dir ft k c r U I Hdir HU Hm Hdev Hg Hsl Hk Hrd Ic Hr Hsame) as (m1 & E1 & I1 & S1 & O1 & M1 & A1).
  assert (Ndr : dir <> r) by (intros ->; apply Hr, elem_of_cons; by left).
  destruct (do_umount_ok m1 k _ dir r U S1 eq_refl eq_refl I1) as (ret & m2 & E2 & I2 & M2 & A2 & S2 & O2).
  { intros i Hi Hsi. destruct (decide (i = r)) as [->|N].
    - split; [done|]. rewrite !cnt_cons, (decide_False (P := r = dir)), (decide_True (P := r = r)) by congruence.
      assert (Hz : cnt r U = 0); [|by rewrite Hz]. pose proof (cnt_le r U). destruct (Z.eqb_spec (cnt r U) 0); [done|]. exfalso.
      apply Hr, elem_of_cons. right. apply cnt_pos. lia.
    - exfalso. assert (Hi2 : i ∈ dir :: U) by (rewrite !elem_of_cons in *; tauto). apply (Hsb i Hi2). rewrite <- (Hsame i Hi2), <- Hsi.
      destruct (decide (i = dir)) as [->|Nd]; [by rewrite M1|by rewrite A1]. }
  exists m1, ret, m2. split_and!; [done|done|done|by apply M2| |].
  - intros j Hj. assert (j <> dir) by (by intros ->). assert (j <> r) by (intros ->; apply Hr, elem_of_cons; by right).
    rewrite A2, A1 by done. apply Hsame, elem_of_cons. by right.
  - intros j. destruct (decide (j = k)) as [->|N]; [by rewrite S2, Hk|]. by rewrite O2, O1.
Qed.
End Mount.

(** ** Runs with the small file system *)

(** A type whose root is inode 2 of the device. *)
Definition disk_type : fs_type := mktype 3 false (fun sb dev c =>
  match iget_lock sb dev 2 c with Some (i, c) => (iget_fill i c, Some i) | None => (c, None) end).
Definition no_write (k : nat) (dev : Z) (w : Z -> Z) : Z * (Z -> Z) := (0, w).

(** Two directories of the file system of slot 0, inodes 0 and 1. *)
Definition cache0 : cache Z (Z -> Z) := init 8 (fun _ => 1).
Definition got_or (c : cache Z (Z -> Z)) (r : option (nat * cache Z (Z -> Z))) : cache Z (Z -> Z) := match r with Some (_, c) => c | None => c end.
Definition cache1 : cache Z (Z -> Z) := got_or cache0 (iget_lock 0 9 2 cache0).
Definition cache2 : cache Z (Z -> Z) := got_or cache0 (iget_lock 0 9 3 (iget_fill 0%nat cache1)).
Definition dirs : mounts := mkmounts (mksuper 9 (Some 3) None None false :: replicate 3 free_super) (iget_fill 1%nat cache2).

Lemma got_or_eq c i r : fst <$> r = Some i -> r = Some (i, got_or c r).
Proof. destruct r as [[j c']|]; [|done]. by intros [= <-]. Qed.

Lemma dirs_inv : inv (mksys (mc dirs) [0%nat; 1%nat]).
Proof.
  apply (inv_perm _ [1%nat; 0%nat]); [apply perm_swap|]. apply (cache_reach_inv (fun _ => 1)).
  assert (E1 : iget_lock 0 9 2 cache0 = Some (0%nat, cache1)) by (apply got_or_eq; by vm_compute).
  assert (E2 : iget_lock 0 9 3 (iget_fill 0%nat cache1) = Some (1%nat, cache2)) by (apply got_or_eq; by vm_compute).
  assert (R1 : reach (fun _ => 1) (mksys (iget_fill 0%nat cache1) [0%nat])).
  { eapply reach_step; [eapply reach_step; [apply (reach_init _ 8)|by apply (step_iget cache0 [] 0 9 2 0 cache1)]|].
    apply step_fill, elem_of_cons. by left. }
  eapply reach_step; [eapply reach_step; [exact R1|by apply (step_iget _ _ 0 9 3 1 cache2)]|]. apply step_fill, elem_of_cons. by left.
Qed.

(** Device 5 mounted on the first directory. *)
Definition mounted : mounts := match do_mount true 5 0 disk_type dirs with Some (_, m) => m | None => dirs end.

Definition root_cache : cache Z (Z -> Z) := got_or cache0 (iget_lock 1 5 2 (mc dirs)).

Lemma root_inv : inv (mksys (iget_fill 2%nat root_cache) [2%nat; 0%nat; 1%nat]).
Proof.
  assert (E : iget_lock 1 5 2 (mc dirs) = Some (2%nat, root_cache)) by (apply got_or_eq; by vm_compute).
  pose proof (step_inv _ _ dirs_inv (step_iget (mc dirs) [0%nat; 1%nat] 1 5 2 2 root_cache eq_refl E)) as [I _].
  exact (proj1 (step_inv _ _ I (step_fill root_cache _ 2%nat (proj2 (elem_of_cons _ _ _) (or_introl eq_refl))))).
Qed.

Lemma root_read : ft_read_super disk_type 1 5 (mc dirs) = (iget_fill 2%nat root_cache, Some 2%nat).
Proof.
  assert (E : iget_lock 1 5 2 (mc dirs) = Some (2%nat, root_cache)) by (apply got_or_eq; by vm_compute).
  cbn [ft_read_super disk_type]. by rewrite E.
Qed.

Lemma root_same j : j ∈ [0%nat; 1%nat] -> at_ (iget_fill 2%nat root_cache) j = at_ (mc dirs) j.
Proof. intros Hj. repeat (apply elem_of_cons in Hj as [->|Hj]; [by vm_compute|]). by apply not_elem_of_nil in Hj. Qed.

Lemma one_not : (0%nat ∉ [1%nat]) /\ (2%nat ∉ [0%nat; 1%nat]).
Proof. split; intros H; repeat (apply elem_of_cons in H as [H|H]; [done|]); by apply not_elem_of_nil in H. Qed.

Lemma mount_umount_roundtrip_witness : exists m1 ret m2, do_mount true 5 0 disk_type dirs = Some (0, m1) /\ do_umount_sb no_write 1 m1 = Some (ret, m2) /\
  inv (mksys (mc m2) [1%nat]).
Proof.
  destruct (mount_umount_roundtrip no_write dirs 5 0 disk_type 1 (iget_fill 2%nat root_cache) 2 [1%nat]) as (m1 & ret & m2 & E1 & E2 & I & _).
  - exact dirs_inv.
  - by vm_compute.
  - apply one_not.
  - by vm_compute.
  - right. by vm_compute.
  - by vm_compute.
  - by vm_compute.
  - by vm_compute.
  - exact root_read.
  - exact root_inv.
  - apply one_not.
  - exact root_same.
  - intros j Hj. repeat (apply elem_of_cons in Hj as [->|Hj]; [by vm_compute|]). by apply not_elem_of_nil in Hj.
  - exists m1, ret, m2. exact (conj E1 (conj E2 I)).
Defined.

Lemma do_umount_sb_exact_witness : exists ret m', do_umount_sb no_write 1 mounted = Some (ret, m') /\ sbs m' !! 1%nat = Some free_super.
Proof.
  destruct (do_mount_ok dirs 5 0 disk_type 1 (iget_fill 2%nat root_cache) 2 [1%nat]) as (m1 & E1 & I1 & S1 & _);
    [exact dirs_inv|by vm_compute|apply one_not|by vm_compute|right; by vm_compute|by vm_compute|by vm_compute|by vm_compute|
     exact root_read|exact root_inv|apply one_not|exact root_same|].
  assert (Em : mounted = m1) by (unfold mounted; by rewrite E1). rewrite <- Em in *.
  destruct (do_umount_sb_exact no_write mounted 1 _ 0 2 [1%nat] S1 eq_refl eq_refl I1) as [[_ E]|(_ & ret & m' & E & _ & _ & _ & S & _)].
  - exfalso. assert (H : fst <$> do_umount_sb no_write 1 mounted = Some 0) by (by vm_compute). rewrite E in H. by vm_compute in H.
  - exists ret, m'. exact (conj E S).
Defined.

(** a device that is mounted in another slot than the time before gets the old
    inodes of the cache, with the old super block, which is free and names no
    device: after two devices are mounted and unmounted, mounting the second alone
    gives a root that belongs to the free slot, and unmounting it by its path gives
    [-EINVAL]. *)
Theorem remount_finds_old_super :
  let run := a ← do_mount true 5 0 disk_type dirs; b ← do_mount true 6 1 disk_type a.2;
             c ← do_umount_sb no_write 1 b.2; d ← do_umount_sb no_write 2 c.2;
             e ← iget_lock 0 9 2 (mc d.2); do_mount true 6 0 disk_type (set_mc (iget_fill e.1 e.2) d.2) in
  match run with
  | Some (0, m) =>
    sbs m !! 1%nat = Some (mksuper 6 (Some 3) (Some 0%nat) (Some 3%nat) false) /\
    i_sb (at_ (mc m) 3) = Some 2%nat /\ sbs m !! 2%nat = Some free_super /\
    fst <$> sys_umount 9 no_write 3 (set_mc (iref 3 (mc m)) m) = Some (- EINVAL)
  | _ => False
  end.
Proof. vm_compute. split_and!; reflexivity. Qed.
End Mount.
