(* ===== verification/Namei.v ===== *)
(** * Resolving paths ([fs/namei.c], with the [lookup], [create] and [follow_link] of the file systems)

    Every function eats a reference to the directory it is given and gives one to
    the inode it finds.  An assertion that fails, a cache that is full, and fuel that
    runs out are outcomes of their own; a file system gives the calls on an inode as
    a class, and what they must keep to is another. *)
From S2P Require Import Prelude Inode.
Import Inode.

Module Namei.

Definition ENOENT : Z := 2.
Definition EPERM : Z := 1.
Definition EIO : Z := 5.
Definition EBADF : Z := 9.
Definition EXDEV : Z := 18.
Definition EINVAL : Z := 22.
Definition AT_FDCWD : Z := -100.
Definition NR_OPEN : Z := 256.
Definition ENOMEM : Z := 12.
Definition EFAULT : Z := 14.
Definition EACCES : Z := 13.
Definition EEXIST : Z := 17.
Definition ENOTDIR : Z := 20.
Definition EISDIR : Z := 21.
Definition EROFS : Z := 30.
Definition ENAMETOOLONG : Z := 36.
Definition ELOOP : Z := 40.
Definition O_CREAT : Z := 0x40.
Definition O_EXCL : Z := 0x80.
Definition O_TRUNC : Z := 0x200.
Definition O_DIRECTORY : Z := 0x10000.
Definition O_NOFOLLOW : Z := 0x20000.
Definition MAX_LINK_COUNT : Z := 5.
Definition EXT2_NAME_LEN : Z := 255.
Definition PAGE_SIZE : Z := 4096.
Definition slash : Z := 47.
Definition dot : list Z := [46].
Definition dotdot : list Z := [46; 46].

(** ** Programs on the cache *)

Section Namei.
Context {B W : Type} {Ops : SuperOps B W}.

(** [Sleeping]: every inode is held, and the caller waits for one. *)
Inductive out (A : Type) :=
  | Done (r : Z + A) (c : cache B W)
  | Sleeping (c : cache B W)
  | Dead
  | NoFuel.
Arguments Done {A}. Arguments Sleeping {A}. Arguments Dead {A}. Arguments NoFuel {A}.
Definition M (A : Type) : Type := cache B W -> out A.

Definition ret {A} (a : A) : M A := fun c => Done (inr a) c.
Definition err {A} (e : Z) : M A := fun c => Done (inl e) c.
Definition bind {A C} (m : M A) (k : A -> M C) : M C := fun c =>
  match m c with Done (inr a) c => k a c | Done (inl e) c => Done (inl e) c | Sleeping c => Sleeping c | Dead => Dead | NoFuel => NoFuel end.
(** The error is looked at. *)
Definition catch {A C} (m : M A) (k : Z + A -> M C) : M C := fun c =>
  match m c with Done r c => k r c | Sleeping c => Sleeping c | Dead => Dead | NoFuel => NoFuel end.
Definition get {A C} (f : cache B W -> A) (k : A -> M C) : M C := fun c => k (f c) c.
Definition body {C} (i : nat) (k : B -> M C) : M C := get (fun c => i_body (at_ c i)) k.
Definition change (f : cache B W -> cache B W) : M unit := fun c => Done (inr tt) (f c).

Definition m_iput (i : nat) : M unit := fun c => match iput i c with Some c => Done (inr tt) c | None => Dead end.
Definition m_iref (i : nat) : M unit := change (iref i).
Definition m_iget (sb : nat) (dev ino : Z) : M nat := fun c =>
  match iget sb dev ino c with Got i c => Done (inr i) c | Panics => Dead | Sleeps => Sleeping c end.
(** A call that gives back a reference and fails. *)
Definition fail {A} (i : nat) (e : Z) : M A := bind (m_iput i) (fun _ => err e).

(** What the operations of an inode are, by what the file system keeps in it. *)
Class DirOps := {
  s_islnk : B -> bool;
  s_special : B -> bool;
  lookup_op : B -> option (nat -> list Z -> M nat);
  create_op : B -> option (nat -> list Z -> M nat);
  follow_op : B -> option (nat -> M (list Z));
  truncate_op : B -> option (nat -> Z -> M unit);
}.
Context {Dir : DirOps}.

(** [current->fs], the inodes of [current->files] by descriptor, and the root and the
    mount point of a super block. *)
Record context := mkcontext { pwd : nat; root : nat; fdi : nat -> option nat; mounted : nat -> option nat; covered : nat -> option nat }.

(** ** Names from the user *)

(** The area of the memory that the name starts in: its end, whether it can be
    read, and whether one that can be read follows. *)
Definition get_max_filename (kernel : bool) (vma : option (Z * bool * bool)) (address : Z) : Z :=
  if kernel then 0 else
  match vma with
  | None => - EFAULT
  | Some (vm_end, read, next) =>
    if negb read then - EFAULT else
    let address := vm_end - address in
    if address >? PAGE_SIZE then 0 else if next then 0 else address
  end.

(** [mem] is the memory from the name on. *)
Fixpoint get_string (i : nat) (c : Z) (mem : list Z) : option (list Z) :=
  match i with
  | O | S O => None
  | S i => match mem with [] => None | c' :: mem => if c' =? 0 then Some [c] else s ← get_string i c' mem; Some (c :: s) end
  end.
Definition getname (limit : Z) (page : bool) (mem : list Z) : Z + list Z :=
  if limit <? 0 then inl limit else
  let '(error, i) := if limit =? 0 then (- ENAMETOOLONG, PAGE_SIZE) else (- EFAULT, limit) in
  match mem with
  | [] => inl (- EFAULT)
  | c :: mem =>
    if c =? 0 then inl (- ENOENT) else
    if negb page then inl (- ENOMEM) else
    match get_string (Z.to_nat i) c mem with Some s => inr s | None => inl error end
  end.

(** ** One name *)

Section Context.
Context (ctx : context).

(** [dir] is eaten. *)
Definition lookup (dir : nat) (name : list Z) : M nat :=
  if (length name =? 0)%nat then ret dir else
  let enter dir := body dir (fun b => match lookup_op b with None => fail dir (- ENOTDIR) | Some f => f dir name end) in
  if bool_decide (name = dotdot) then
    if (dir =? root ctx)%nat then ret dir else
    get (fun c => i_sb (at_ c dir)) (fun sb =>
      match sb with
      | Some sb =>
        if bool_decide (mounted ctx sb = Some dir) then
          bind (m_iput dir) (fun _ =>
          match covered ctx sb with None => err (- ENOENT) | Some dir => bind (m_iref dir) (fun _ => enter dir) end)
        else enter dir
      | None => enter dir
      end)
  else enter dir.

(** [rec target flags dir] is [open_namei] on the target of a link. *)
Definition ext2_follow_link (rec : list Z -> Z -> nat -> M nat) (link_count : Z) (f : nat -> M (list Z)) (dir inode : nat) (flags : Z) : M nat :=
  body inode (fun b =>
  if negb (s_islnk b) then bind (m_iput dir) (fun _ => ret inode) else
  if link_count >? MAX_LINK_COUNT then bind (m_iput dir) (fun _ => fail inode (- ELOOP)) else
  catch (f inode) (fun r =>
  match r with
  | inl e => bind (m_iput dir) (fun _ => fail inode e)
  | inr target => bind (m_iput inode) (fun _ => rec target flags dir)
  end)).

Definition follow_link (rec : list Z -> Z -> nat -> M nat) (link_count : Z) (dir inode : nat) (flags : Z) : M nat :=
  body inode (fun b =>
  match follow_op b with
  | None => bind (m_iput dir) (fun _ => ret inode)
  | Some f => ext2_follow_link rec link_count f dir inode flags
  end).

(** The loop over a path; [thisname] has been read. *)
Fixpoint dir_loop (rec : list Z -> Z -> nat -> M nat) (link_count : Z) (thisname pathname : list Z) (base : nat) : M (list Z * nat) :=
  match pathname with
  | [] => ret (thisname, base)
  | c :: pathname =>
    if c =? slash then
      bind (m_iref base) (fun _ =>
      catch (lookup base thisname) (fun r =>
      match r with
      | inl e => fail base e
      | inr inode => bind (follow_link rec link_count base inode 0) (fun base => dir_loop rec link_count [] pathname base)
      end))
    else dir_loop rec link_count (thisname ++ [c]) pathname base
  end.

(** [base] is eaten: the last name of the path and the directory it is in. *)
Definition dir_namei (rec : list Z -> Z -> nat -> M nat) (link_count : Z) (pathname : list Z) (base : option nat) : M (list Z * nat) :=
  bind (match base with None => bind (m_iref (pwd ctx)) (fun _ => ret (pwd ctx)) | Some base => ret base end) (fun base =>
  bind (match pathname with
        | c :: p => if c =? slash then bind (m_iput base) (fun _ => bind (m_iref (root ctx)) (fun _ => ret (root ctx, p))) else ret (base, pathname)
        | [] => ret (base, pathname)
        end) (fun '(base, pathname) =>
  body base (fun b => if negb (s_isdir b) then fun _ => Dead else
  bind (dir_loop rec link_count [] pathname base) (fun '(name, base) =>
  body base (fun b => match lookup_op b with None => fail base (- ENOTDIR) | Some _ => ret (name, base) end))))).

Definition namei_body (rec : list Z -> Z -> nat -> M nat) (link_count : Z) (pathname : list Z) (base : option nat) (follow : bool) : M nat :=
  bind (dir_namei rec link_count pathname base) (fun '(basename, base) =>
  bind (m_iref base) (fun _ =>
  catch (lookup base basename) (fun r =>
  match r with
  | inl e => fail base e
  | inr inode => if follow then follow_link rec link_count base inode 0 else bind (m_iput base) (fun _ => ret inode)
  end))).

(** After the inode has been found. *)
Definition open_inode (flags : Z) (inode : nat) : M nat :=
  body inode (fun b =>
  if s_isdir b && negb (Z.land flags 2 =? 0) then fail inode (- EISDIR) else
  if negb (Z.land flags O_DIRECTORY =? 0) && negb (s_isdir b) then fail inode (- ENOTDIR) else
  if negb (s_special b) && negb (Z.land flags O_TRUNC =? 0) then
    catch (match truncate_op b with None => ret tt | Some f => f inode 0 end) (fun _ =>
    bind (change (update inode (fun x => set_flags true (i_up2date x) (i_pipe x) x))) (fun _ => ret inode))
  else ret inode).

(** Looking up the last name, or making a file of it.  [down] and [up] of the
    semaphore of [dir] around the lookup and the creation are left out: waiting
    for it is not an outcome here. *)
Definition open_last (rec : list Z -> Z -> nat -> M nat) (link_count : Z) (flags : Z) (dir : nat) (basename : list Z) : M nat :=
  bind (m_iref dir) (fun _ =>
  catch (lookup dir basename) (fun r =>
  match r with
  | inr inode =>
    if negb (Z.land flags O_CREAT =? 0) && negb (Z.land flags O_EXCL =? 0) then bind (m_iput inode) (fun _ => fail dir (- EEXIST)) else
    body inode (fun b =>
    if s_islnk b then
      if negb (Z.land flags O_NOFOLLOW =? 0) then bind (m_iput inode) (fun _ => fail dir (- ELOOP)) else
      bind (follow_link rec link_count dir inode flags) (open_inode flags)
    else bind (m_iput dir) (fun _ => open_inode flags inode))
  | inl e =>
    if Z.land flags O_CREAT =? 0 then fail dir e else
    body dir (fun b =>
    match create_op b with
    | None => fail dir (- EACCES)
    | Some f => bind (m_iref dir) (fun _ => catch (f dir basename) (fun r => bind (m_iput dir) (fun _ => match r with inl e => err e | inr i => ret i end)))
    end)
  end)).

Definition open_body (rec : list Z -> Z -> nat -> M nat) (link_count : Z) (pathname : list Z) (flags : Z) (base : option nat) : M nat :=
  bind (dir_namei rec link_count pathname base) (fun '(basename, dir) =>
  if (length basename =? 0)%nat then (if negb (Z.land flags 2 =? 0) then fail dir (- EISDIR) else ret dir) else
  open_last rec link_count flags dir basename).

(** The target of a link is resolved with one more in [link_count]. *)
Fixpoint open_namei (fuel : nat) (link_count : Z) (pathname : list Z) (flags : Z) (base : option nat) : M nat :=
  match fuel with
  | O => fun _ => NoFuel
  | S fuel => open_body (fun path flags dir => open_namei fuel (link_count + 1) path flags (Some dir)) link_count pathname flags base
  end.
Definition links : nat := Z.to_nat (MAX_LINK_COUNT + 2).
Definition namei' (pathname : list Z) (base : option nat) (follow : bool) : M nat :=
  namei_body (fun path flags dir => open_namei links 1 path flags (Some dir)) 0 pathname base follow.

(** A call that changes the directory of a path: [rmdir], [mkdir], [unlink],
    [mknod]; [empty] is the error when the path ends in a slash. *)
Definition do_name {A} (op : B -> option (nat -> list Z -> M A)) (empty noop : Z) (pathname : list Z) (base : option nat) : M A :=
  bind (dir_namei (fun path flags dir => open_namei links 1 path flags (Some dir)) 0 pathname base) (fun '(basename, dir) =>
  if (length basename =? 0)%nat then fail dir empty else
  body dir (fun b => match op b with None => fail dir noop | Some f => f dir basename end)).
(** [dirfd] is not checked against negative numbers: then what is in front of the
    table is taken for a file. *)
Definition get_base_inode (dirfd : Z) (path_empty : bool) : M (option nat) :=
  if dirfd =? AT_FDCWD then ret None else
  if dirfd >=? NR_OPEN then err (- EBADF) else
  if dirfd <? 0 then fun _ => Dead else
  match fdi ctx (Z.to_nat dirfd) with
  | None => err (- EBADF)
  | Some i => body i (fun b => if negb path_empty && negb (s_isdir b) then err (- EBADF) else bind (m_iref i) (fun _ => ret (Some i)))
  end.

(** [name] is what [getname] gives. *)
Definition namei_at (dirfd : Z) (name : Z + list Z) (follow : bool) : M nat :=
  match name with
  | inl e =>
    if negb (e =? - ENOENT) then err e else
    if dirfd =? AT_FDCWD then err (- ENOENT) else
    bind (get_base_inode dirfd true) (fun base => match base with Some i => ret i | None => fun _ => Dead end)
  | inr path => bind (get_base_inode dirfd false) (fun base => namei' path base follow)
  end.

Definition dir_of (path : list Z) (base : option nat) : M (list Z * nat) :=
  dir_namei (fun path flags dir => open_namei links 1 path flags (Some dir)) 0 path base.
Definition no_name (name : list Z) : bool := bool_decide (name = [] \/ name = dot \/ name = dotdot).

Definition do_linkat (link_op : B -> option (nat -> nat -> list Z -> M unit)) (olddirfd : Z) (oldname : Z + list Z) (newdirfd : Z) (newname : list Z) (follow : bool) : M unit :=
  bind (namei_at olddirfd oldname follow) (fun old_inode =>
  catch (get_base_inode newdirfd false) (fun r =>
  match r with
  | inl e => fail old_inode e
  | inr new_base =>
    catch (dir_of newname new_base) (fun r =>
    match r with
    | inl e => fail old_inode e
    | inr (name, new_dir) =>
      if no_name name then bind (m_iput new_dir) (fun _ => fail old_inode (- EPERM)) else
      get (fun c => bool_decide (i_sb (at_ c old_inode) = i_sb (at_ c new_dir))) (fun same =>
      if negb same then bind (m_iput new_dir) (fun _ => fail old_inode (- EXDEV)) else
      body new_dir (fun b =>
      match link_op b with
      | None => bind (m_iput new_dir) (fun _ => fail old_inode (- EPERM))
      | Some f => catch (f old_inode new_dir name) (fun r => bind (m_iput old_inode) (fun _ => match r with inl e => err e | inr _ => ret tt end))
      end))
    end)
  end)).

Definition do_renameat (rename_op : B -> option (nat -> list Z -> nat -> list Z -> M unit)) (olddirfd : Z) (oldname : list Z) (newdirfd : Z) (newname : list Z) : M unit :=
  bind (get_base_inode olddirfd false) (fun old_base =>
  bind (dir_of oldname old_base) (fun '(old_basename, old_dir) =>
  if no_name old_basename then fail old_dir (- EPERM) else
  catch (get_base_inode newdirfd false) (fun r =>
  match r with
  | inl e => fail old_dir e
  | inr new_base =>
    catch (dir_of newname new_base) (fun r =>
    match r with
    | inl e => fail old_dir e
    | inr (new_basename, new_dir) =>
      if no_name new_basename then bind (m_iput old_dir) (fun _ => fail new_dir (- EPERM)) else
      get (fun c => bool_decide (i_dev (at_ c new_dir) = i_dev (at_ c old_dir))) (fun same =>
      if negb same then bind (m_iput old_dir) (fun _ => fail new_dir (- EXDEV)) else
      body old_dir (fun b =>
      match rename_op b with
      | None => bind (m_iput old_dir) (fun _ => fail new_dir (- EPERM))
      | Some f => f old_dir old_basename new_dir new_basename
      end))
    end)
  end))).

(** What is left of a path after the call that only looks at it: [access], and
    [readlink], whose operation eats the inode. *)
Definition sys_faccessat (dirfd : Z) (name : Z + list Z) (follow : bool) : M unit := bind (namei_at dirfd name follow) m_iput.
Definition sys_readlinkat (readlink_op : B -> option (nat -> M Z)) (fd : Z) (name : Z + list Z) (count : Z) : M Z :=
  if count =? 0 then ret 0 else
  bind (namei_at fd name false) (fun inode =>
  body inode (fun b => match readlink_op b with Some f => if s_islnk b then f inode else fail inode (- EINVAL) | None => fail inode (- EINVAL) end)).
End Context.

(** ** The calls of the file systems *)

(** [find] gives the number a name has in a directory; it may read the device. *)
Section Fs.
Context (find : nat -> list Z -> cache B W -> (Z + Z) * W).

Definition ext2_lookup (dir : nat) (name : list Z) : M nat :=
  body dir (fun b =>
  if negb (s_isdir b) then fail dir (- ENOENT) else
  if bool_decide (name = dot) then ret dir else
  get (fun c => (i_sb (at_ c dir), i_dev (at_ c dir), find dir name c)) (fun '(sb, dev, (r, w)) =>
  bind (change (set_world w)) (fun _ =>
  match r, sb with
  | inl e, _ => fail dir e
  | inr ino, Some sb => bind (m_iput dir) (fun _ => m_iget sb dev ino)
  | inr _, None => fun _ => Dead
  end))).

(** [parent] is the number that is kept in a directory, [set_parent] keeps it. *)
Definition fat_lookup (parent : B -> Z) (set_parent : Z -> B -> B) (dir : nat) (name : list Z) : M nat :=
  body dir (fun b =>
  if negb (s_isdir b) then fail dir (- ENOTDIR) else
  if bool_decide (name = dot) then ret dir else
  get (fun c => (i_sb (at_ c dir), i_dev (at_ c dir), i_ino (at_ c dir), find dir name c)) (fun '(sb, dev, ino0, (r, w)) =>
  match sb with
  | None => fun _ => Dead
  | Some sb =>
    if bool_decide (name = dotdot) then
      (if parent b =? 0 then fail dir (- ENOENT) else bind (m_iput dir) (fun _ => m_iget sb dev (parent b)))
    else
      bind (change (set_world w)) (fun _ =>
      match r with
      | inl e => fail dir e
      | inr ino =>
        bind (m_iget sb dev ino) (fun i =>
        body i (fun bi => bind (if s_isdir bi then change (update i (fun x => set_body (set_parent ino0 (i_body x)) x)) else ret tt) (fun _ =>
        bind (m_iput dir) (fun _ => ret i))))
      end)
  end)).
End Fs.

(** [alloc] gives the number of a new inode, or an error; [add] puts the name into
    the directory. *)
Definition ext2_create (find : nat -> list Z -> cache B W -> (Z + Z) * W) (alloc : cache B W -> (Z + Z) * W)
    (add : nat -> list Z -> Z -> cache B W -> Z * W) (free : Z -> W -> W) (set_links : Z -> B -> B) (dir : nat) (name : list Z) : M nat :=
  if Z.of_nat (length name) >? EXT2_NAME_LEN then err (- ENAMETOOLONG) else
  get (fun c => (i_sb (at_ c dir), i_dev (at_ c dir), find dir name c)) (fun '(sb, dev, (r, w)) =>
  bind (change (set_world w)) (fun _ =>
  match r with
  | inr _ => fail dir (- EEXIST)
  | inl e =>
    if negb (e =? - ENOENT) then fail dir e else
    get alloc (fun '(r, w) =>
    bind (change (set_world w)) (fun _ =>
    match r, sb with
    | inl e, _ => fail dir e
    | inr ino, None => fun _ => Dead
    | inr ino, Some sb =>
      bind (m_iget sb dev ino) (fun i =>
      bind (change (update i (fun x => set_flags true (i_up2date x) (i_pipe x) (set_body (set_links 1 (i_body x)) x)))) (fun _ =>
      get (add dir name ino) (fun '(e, w) =>
      bind (change (set_world w)) (fun _ =>
      if negb (e =? 0) then
        bind (change (fun c => update i (fun x => set_flags false (i_up2date x) (i_pipe x) x) (set_world (free ino (world c)) c))) (fun _ =>
        bind (m_iput i) (fun _ => fail dir e))
      else bind (m_iput dir) (fun _ => ret i)))))
    end))
  end)).

Definition fat_create (readonly : B -> bool) (add : nat -> list Z -> cache B W -> (Z + Z) * W) (dir : nat) (name : list Z) : M nat :=
  body dir (fun b =>
  if readonly b then fail dir (- EROFS) else
  get (fun c => (i_sb (at_ c dir), i_dev (at_ c dir), add dir name c)) (fun '(sb, dev, (r, w)) =>
  bind (change (set_world w)) (fun _ =>
  match r, sb with
  | inl e, _ => fail dir e
  | inr _, None => fun _ => Dead
  | inr ino, Some sb => bind (m_iget sb dev ino) (fun i => bind (m_iput dir) (fun _ => ret i))
  end))).
(** ** What a call does with its references *)

(** What is known of an inode in hand. *)
Inductive kind := Any | NonLink | IsDir.
Definition knows (k : kind) (b : B) : Prop := match k with Any => True | NonLink => s_islnk b = false | IsDir => s_isdir b = true end.

Definition asrt : Type := list (nat * kind).
Definition fine (c : cache B W) (i : nat) : Prop := i_up2date (at_ c i) = true /\ i_sb (at_ c i) <> None.
Definition sat (c : cache B W) (L : asrt) : Prop := forall i k, (i, k) ∈ L -> fine c i /\ knows k (i_body (at_ c i)).

(** What the others, who hold [R], keep: [S] are directories that are held for the
    process and for the mounts. *)
Record others (S : nat -> kind -> Prop) (c : cache B W) (R : list nat) : Prop := {
  ot_mount : forall i m, i_mount (at_ c i) = Some m -> m ∈ R /\ fine c m;
  ot_shared : forall d k, S d k -> d ∈ R /\ fine c d /\ knows k (i_body (at_ c d));
  ot_named : forall i, i_hashed (at_ c i) = true -> i_sb (at_ c i) <> None;
}.

(** What the others find after a call. *)
Record keeps (c c' : cache B W) (R : list nat) : Prop := {
  ke_fine : forall j, j ∈ R -> fine c j -> fine c' j /\ s_isdir (i_body (at_ c' j)) = s_isdir (i_body (at_ c j)) /\ s_islnk (i_body (at_ c' j)) = s_islnk (i_body (at_ c j));
  ke_mount : forall i m, i_mount (at_ c' i) = Some m -> i_mount (at_ c i) = Some m;
  ke_named : (forall i, i_hashed (at_ c i) = true -> i_sb (at_ c i) <> None) -> forall i, i_hashed (at_ c' i) = true -> i_sb (at_ c' i) <> None;
}.

Definition full (c : cache B W) : Prop := forall i, (i < size c)%nat -> busy c i = true.

(** A call that holds at most [N] references: from those of [L] it makes those of
    one of the [Q], whatever the others hold. *)
Definition triple {A} (S : nat -> kind -> Prop) (N : nat) (L : asrt) (m : M A) (Q : Z + A -> asrt -> Prop) : Prop :=
  forall R c, inv (mksys c (L.*1 ++ R)) -> Z.of_nat (N + length R) < 2 ^ 32 - 2 -> others S c R -> sat c L ->
  match m c with
  | Done r c' => exists L', Q r L' /\ inv (mksys c' (L'.*1 ++ R)) /\ sat c' L' /\ keeps c c' R
  | Sleeping c' => full c'
  | Dead | NoFuel => False
  end.

Lemma keeps_refl c R : keeps c c R.
Proof. by constructor. Qed.

Lemma keeps_trans c1 c2 c3 R : keeps c1 c2 R -> keeps c2 c3 R -> keeps c1 c3 R.
Proof.
  intros [A1 A2 A3] [B1 B2 B3]. constructor.
  - intros j Hj Hf. destruct (A1 j Hj Hf) as (F & <- & <-). by apply B1.
  - intros i m Hm. by apply A2, B2.
  - intros H. by apply B3, A3.
Qed.

Lemma others_keeps S c c' R : others S c R -> keeps c c' R -> others S c' R.
Proof.
  intros [O1 O2 O3] [K1 K2 K3]. constructor.
  - intros i m Hm. destruct (O1 i m (K2 i m Hm)) as [Hin Hf]. split; [done|]. by apply K1.
  - intros d k Hd. destruct (O2 d k Hd) as (Hin & Hf & Hs). destruct (K1 d Hin Hf) as (? & E1 & E2). split_and!; [done|done|]. destruct k; cbn in *; congruence.
  - by apply K3.
Qed.

Lemma keeps_sub c c' R R' : keeps c c' R' -> (forall j, j ∈ R -> j ∈ R') -> keeps c c' R.
Proof. intros [K1 K2 K3] H. constructor; [|done|done]. intros j Hj. by apply K1, H. Qed.

Lemma triple_conseq {A} S N N' L (m : M A) Q Q' : triple S N L m Q -> (N <= N')%nat -> (forall r L', Q r L' -> Q' r L') -> triple S N' L m Q'.
Proof.
  intros T HN HQ R c I HR O Hs. specialize (T R c I ltac:(lia) O Hs). destruct (m c); try done.
  destruct T as (L' & H & T). exists L'. split; [by apply HQ|done].
Qed.

Definition nobody (d : nat) (k : kind) : Prop := False.

Lemma triple_shared {A} S N L (m : M A) Q : triple nobody N L m Q -> triple S N L m Q.
Proof. intros T R c I HR [O1 O2 O3] Hs. by apply T. Qed.

Lemma triple_perm {A} S N L L' (m : M A) Q : L ≡ₚ L' -> triple S N L' m Q -> triple S N L m Q.
Proof.
  intros P T R c I HR O Hs. apply T; [|done|done|].
  - apply (inv_perm _ (L.*1 ++ R)); [|done]. by apply Permutation_app_tail, fmap_Permutation.
  - intros i k Hi. apply Hs. by rewrite P.
Qed.

Lemma triple_frame {A} S N L F (m : M A) Q : triple S N L m Q -> triple S (N + length F) (L ++ F) m (fun r L' => exists L1, L' = L1 ++ F /\ Q r L1).
Proof.
  intros T R c I HR O Hs. rewrite fmap_app, <- app_assoc in I. specialize (T (F.*1 ++ R) c I).
  assert (HF : forall i k, (i, k) ∈ F -> i ∈ F.*1 ++ R). { intros i k Hi. apply elem_of_app. left. apply list_elem_of_fmap. by exists (i, k). }
  assert (T1 : match m c with Done r c' => exists L', Q r L' /\ inv (mksys c' (L'.*1 ++ F.*1 ++ R)) /\ sat c' L' /\ keeps c c' (F.*1 ++ R)
                 | Sleeping c' => full c' | _ => False end).
  { apply T.
    - rewrite length_app, length_fmap. lia.
    - destruct O as [O1 O2 O3]. constructor; [| |done].
      + intros i j Hm. destruct (O1 i j Hm). split; [|done]. apply elem_of_app. by right.
      + intros d k Hd. destruct (O2 d k Hd). split; [|done]. apply elem_of_app. by right.
    - intros i k Hi. apply Hs, elem_of_app. by left. }
  destruct (m c) as [r c'| | |]; try done. destruct T1 as (L' & HQ & I' & Hs' & K). exists (L' ++ F). split; [by exists L'|].
  split; [by rewrite fmap_app, <- app_assoc|]. split.
  - intros i k [Hi|Hi]%elem_of_app; [by apply Hs'|]. destruct (Hs i k) as [Hf Hk]; [apply elem_of_app; by right|].
    destruct (ke_fine _ _ _ K i (HF i k Hi) Hf) as (Hf' & E1 & E2). split; [done|]. destruct k; cbn in *; congruence.
  - eapply keeps_sub; [exact K|]. intros j Hj. apply elem_of_app. by right.
Qed.

(** A weaker assertion. *)
Definition weaker (L L' : asrt) : Prop := L.*1 ≡ₚ L'.*1 /\ forall c, sat c L -> sat c L'.

Lemma triple_weaker {A} S N L L' (m : M A) Q : weaker L L' -> triple S N L' m Q -> triple S N L m Q.
Proof.
  intros [P Hw] T R c I HR O Hs. apply T; [|done|done|by apply Hw]. eapply inv_perm; [|exact I]. by apply Permutation_app_tail.
Qed.

Lemma triple_bind {A C} S N L (m : M A) (k : A -> M C) Q Q' :
  triple S N L m Q -> (forall a L', Q (inr a) L' -> triple S N L' (k a) Q') -> (forall e L', Q (inl e) L' -> Q' (inl e) L') -> triple S N L (bind m k) Q'.
Proof.
  intros T Hk He R c I HR O Hs. specialize (T R c I HR O Hs). unfold bind. destruct (m c) as [[e|a] c'| | |]; try done.
  - destruct T as (L' & HQ & T). exists L'. split; [by apply He|done].
  - destruct T as (L' & HQ & I' & Hs' & K). specialize (Hk a L' HQ R c' I' HR (others_keeps _ _ _ _ O K) Hs').
    destruct (k a c') as [r c''| | |]; try done. destruct Hk as (L'' & HQ' & I'' & Hs'' & K'). exists L''. split_and!; [done..|]. by eapply keeps_trans.
Qed.

Lemma triple_catch {A C} S N L (m : M A) (k : Z + A -> M C) Q Q' :
  triple S N L m Q -> (forall r L', Q r L' -> triple S N L' (k r) Q') -> triple S N L (catch m k) Q'.
Proof.
  intros T Hk R c I HR O Hs. specialize (T R c I HR O Hs). unfold catch. destruct (m c) as [r c'| | |]; try done.
  destruct T as (L' & HQ & I' & Hs' & K). specialize (Hk r L' HQ R c' I' HR (others_keeps _ _ _ _ O K) Hs').
  destruct (k r c') as [r' c''| | |]; try done. destruct Hk as (L'' & HQ' & I'' & Hs'' & K'). exists L''. split_and!; [done..|]. by eapply keeps_trans.
Qed.

Lemma triple_get {A C} S N L (f : cache B W -> A) (k : A -> M C) Q : (forall a, triple S N L (k a) Q) -> triple S N L (get f k) Q.
Proof. intros T R c I HR O Hs. unfold get. by apply (T (f c) R c). Qed.

Lemma triple_ret {A} S N L (a : A) (Q : Z + A -> asrt -> Prop) : Q (inr a) L -> triple S N L (ret a) Q.
Proof. intros HQ R c I HR O Hs. exists L. split_and!; [done..|]. apply keeps_refl. Qed.

Lemma triple_err {A} S N L e (Q : Z + A -> asrt -> Prop) : Q (inl e) L -> triple S N L (err e) Q.
Proof. intros HQ R c I HR O Hs. exists L. split_and!; [done..|]. apply keeps_refl. Qed.
(** ** The calls of the cache *)

Lemma iput_shared i c : 1 < i_count (at_ c i) -> iput i c = Some (update i (fun x => set_count (i_count x - 1) x) c).
Proof.
  intros Hc. unfold iput. destruct (Z.gtb_spec (i_count (at_ c i)) 0); [|lia]. cbn [negb].
  assert (Hi : (i < size c)%nat).
  { unfold at_ in Hc. destruct (all c !! i) as [x|] eqn:E; [by eapply lookup_lt_Some|]. cbn in Hc. lia. }
  rewrite at_update, decide_True by done. cbn [i_count set_count]. destruct (Z.eqb_spec (i_count (at_ c i) - 1) 0); [lia|]. done.
Qed.

Lemma iput_named i c c' : iput i c = Some c' -> (i < size c)%nat -> 0 < i_count (at_ c i) -> ok c ->
  i_hashed (at_ c' i) = i_hashed (at_ c i) /\ i_sb (at_ c' i) = i_sb (at_ c i).
Proof. intros E Hi Hc O. destruct (iput_ok i c O Hi Hc) as (c2 & E2 & _ & (_ & _ & ? & ?) & _). rewrite E in E2. by injection E2 as <-. Qed.

Lemma triple_iput S N i k L (Q : Z + unit -> asrt -> Prop) : Q (inr tt) L -> triple S N ((i, k) :: L) (m_iput i) Q.
Proof.
  intros HQ R c I HR O Hs. assert (Hin : i ∈ i :: (L.*1 ++ R)) by (apply elem_of_cons; by left).
  pose proof (i_range _ I i Hin) as Hi. pose proof (inv_cnt _ _ i I) as Hc. assert (Hp : 0 < i_count (at_ c i)) by (rewrite Hc; by apply cnt_pos).
  destruct (iput_inv c i (L.*1 ++ R) I) as (c' & E & I' & Hm & Ho). unfold m_iput. rewrite E.
  destruct (iput_named i c c' E Hi Hp (i_ok _ I)) as [Hh Hsb].
  assert (Hsame : i ∈ L.*1 ++ R -> i_up2date (at_ c' i) = i_up2date (at_ c i) /\ i_body (at_ c' i) = i_body (at_ c i)).
  { intros Hl. rewrite iput_shared in E. 2:{ rewrite Hc. cbn [fmap list_fmap fst app]. rewrite cnt_cons, decide_True by done. apply cnt_pos in Hl. lia. }
    injection E as <-. by rewrite at_update, decide_True. }
  assert (Hat : forall j, j ∈ L.*1 ++ R -> fine c j -> fine c' j /\ i_body (at_ c' j) = i_body (at_ c j)).
  { intros j Hj [F1 F2]. destruct (decide (j = i)) as [->|N0]; [|unfold fine; rewrite Ho by done; done].
    destruct (Hsame Hj) as [E1 E2]. unfold fine. rewrite E1, E2, Hsb. done. }
  exists L. split_and!; [done|done| |].
  - intros j kj Hj. destruct (Hs j kj) as [F K]; [apply elem_of_cons; by right|].
    destruct (Hat j) as [F' ->]; [|done|done]. apply elem_of_app. left. apply list_elem_of_fmap. by exists (j, kj).
  - constructor.
    + intros j Hj F. destruct (Hat j) as [F' ->]; [apply elem_of_app; by right|done|done].
    + intros j m. destruct (decide (j = i)) as [->|N0]; [by rewrite Hm|by rewrite Ho].
    + intros Hn j. destruct (decide (j = i)) as [->|N0]; [rewrite Hh, Hsb; apply Hn|rewrite Ho by done; apply Hn].
Qed.

Lemma iref_at i c j : (i < size c)%nat -> at_ (iref i c) j = if decide (j = i) then set_count (u32 (i_count (at_ c i) + 1)) (at_ c i) else at_ c j.
Proof. intros Hi. unfold iref. by rewrite at_update. Qed.

(** A change of an inode that is held, which keeps what is known of it. *)
Definition gentle (f : inode B -> inode B) : Prop := forall x, same_id (f x) x /\ i_up2date (f x) = i_up2date x /\
  s_isdir (i_body (f x)) = s_isdir (i_body x) /\ s_islnk (i_body (f x)) = s_islnk (i_body x) /\ i_mount (f x) = i_mount x.

Lemma keeps_update f i c R : (i < size c)%nat -> gentle f -> keeps c (update i f c) R /\ forall L, sat c L -> sat (update i f c) L.
Proof.
  intros Hi G. assert (Hat : forall j, at_ (update i f c) j = if decide (j = i) then f (at_ c i) else at_ c j) by (intros j; by apply at_update).
  assert (Hf : forall j, fine c j -> fine (update i f c) j /\ s_isdir (i_body (at_ (update i f c) j)) = s_isdir (i_body (at_ c j)) /\
    s_islnk (i_body (at_ (update i f c) j)) = s_islnk (i_body (at_ c j))).
  { intros j [F1 F2]. unfold fine. rewrite Hat. destruct (decide (j = i)) as [->|]; [|done].
    destruct (G (at_ c i)) as ((_ & _ & -> & _) & -> & -> & -> & _). done. }
  split.
  - constructor; [intros j _; apply Hf| |].
    + intros j m. rewrite Hat. destruct (decide (j = i)) as [->|]; [|done]. destruct (G (at_ c i)) as (_ & _ & _ & _ & ->). done.
    + intros Hn j. rewrite Hat. destruct (decide (j = i)) as [->|]; [|apply Hn]. destruct (G (at_ c i)) as ((_ & _ & -> & ->) & _). apply Hn.
  - intros L Hs j k Hj. destruct (Hs j k Hj) as [F K]. destruct (Hf j F) as (F' & E1 & E2). split; [done|]. destruct k; cbn in *; congruence.
Qed.

Lemma triple_iref' S N i k L (Q : Z + unit -> asrt -> Prop) (H : (forall R c, others S c R -> sat c L -> i ∈ L.*1 ++ R /\ fine c i /\ knows k (i_body (at_ c i)))) :
  (length L < N)%nat -> Q (inr tt) ((i, k) :: L) -> triple S N L (m_iref i) Q.
Proof.
  intros HN HQ R c I HR O Hs. destruct (H R c O Hs) as (Hin & F & K). pose proof (i_range _ I i Hin) as Hi. cbn [cc] in Hi.
  unfold m_iref, change. exists ((i, k) :: L). destruct (keeps_update (fun x => set_count (u32 (i_count x + 1)) x) i c R Hi) as [Kp Ks]; [done|].
  split_and!; [done| | |exact Kp].
  - cbn [fmap list_fmap fst app]. apply (step_inv _ _ I). apply step_iref; [|done]. unfold few. rewrite length_app, length_fmap. lia.
  - apply Ks. intros j kj [[= -> ->]|Hj]%elem_of_cons; [done|by apply Hs].
Qed.

Lemma triple_iref S N i k L (Q : Z + unit -> asrt -> Prop) : (i, k) ∈ L -> (length L < N)%nat -> Q (inr tt) ((i, k) :: L) -> triple S N L (m_iref i) Q.
Proof.
  intros Hi. apply triple_iref'. intros R c O Hs. destruct (Hs i k Hi) as [F K]. split_and!; [|done|done].
  apply elem_of_app. left. apply list_elem_of_fmap. by exists (i, k).
Qed.

Lemma triple_iref_shared (S : nat -> kind -> Prop) N i k L (Q : Z + unit -> asrt -> Prop) : S i k -> (length L < N)%nat -> Q (inr tt) ((i, k) :: L) -> triple S N L (m_iref i) Q.
Proof.
  intros Hi. apply triple_iref'. intros R c O Hs. destruct (ot_shared _ _ _ O i k Hi) as (Hin & F & K). split_and!; [|done|done]. apply elem_of_app. by right.
Qed.

Lemma triple_fail {A} S N i k L e (Q : Z + A -> asrt -> Prop) : Q (inl e) L -> triple S N ((i, k) :: L) (fail i e) Q.
Proof.
  intros HQ. unfold fail. eapply triple_bind; [apply (triple_iput _ _ _ _ _ (fun r L' => r = inr tt /\ L' = L)); done| |].
  - intros a L' [_ ->]. by apply triple_err.
  - by intros e' L' [? _].
Qed.

(** Reading an inode in leaves the others alone, and itself when it is up to date. *)
Lemma read_inode_at i c j : (i < size c)%nat -> j <> i \/ i_up2date (at_ c i) = true -> at_ (read_inode i c) j = at_ c j.
Proof.
  intros Hi Hj. unfold read_inode. destruct (i_up2date (at_ c i)) eqn:Eu; [done|]. destruct Hj as [N|]; [|done].
  destruct (i_sb (at_ c i)).
  - destruct (op_read_inode _ _ _ _ _) as [b w]. rewrite at_update by (change (size (set_world w (update i (set_body b) c))) with (size (update i (set_body b) c)); by rewrite size_update).
    rewrite decide_False by done. change (at_ (set_world w (update i (set_body b) c)) j) with (at_ (update i (set_body b) c) j). by rewrite at_update, decide_False.
  - by rewrite at_update, decide_False.
Qed.

Lemma read_inode_mount i c : (i < size c)%nat -> i_mount (at_ (read_inode i c) i) = i_mount (at_ c i).
Proof.
  intros Hi. unfold read_inode. destruct (i_up2date (at_ c i)) eqn:Eu; [done|]. destruct (i_sb (at_ c i)).
  - destruct (op_read_inode _ _ _ _ _) as [b w]. rewrite at_update by (change (size (set_world w (update i (set_body b) c))) with (size (update i (set_body b) c)); by rewrite size_update).
    rewrite decide_True by done. change (at_ (set_world w (update i (set_body b) c)) i) with (at_ (update i (set_body b) c) i). by rewrite at_update, decide_True.
  - by rewrite at_update, decide_True.
Qed.

Lemma iget_fill_at i c j : (i < size c)%nat -> j <> i -> at_ (iget_fill i c) j = at_ c j.
Proof.
  intros Hi N. unfold iget_fill. rewrite read_inode_at; [|by rewrite (proj1 (proj2 (write_fields i c)))|by left]. by rewrite at_write, decide_False.
Qed.

Lemma iget_fill_same i c : (i < size c)%nat -> i_mount (at_ (iget_fill i c) i) = i_mount (at_ c i) /\
  (i_up2date (at_ c i) = true -> i_up2date (at_ (iget_fill i c) i) = true /\ i_body (at_ (iget_fill i c) i) = i_body (at_ c i)).
Proof.
  intros Hi. unfold iget_fill. assert (Hw : (i < size (write_inode i c))%nat) by (by rewrite (proj1 (proj2 (write_fields i c)))).
  rewrite read_inode_mount by done. split; [by rewrite at_write, decide_True|]. intros Hu.
  assert (Hu' : i_up2date (at_ (write_inode i c) i) = true) by (by rewrite at_write, decide_True).
  rewrite read_inode_at; [|done|by right]. rewrite at_write, decide_True by done. by rewrite Hu.
Qed.
(** The inode of a number, before what is mounted on it is looked at. *)
Lemma iget_here S N L R c sb dev ino : inv (mksys c (L.*1 ++ R)) -> (length L < N)%nat -> Z.of_nat (N + length R) < 2 ^ 32 - 2 ->
  others S c R -> sat c L ->
  match iget_lock sb dev ino c with
  | Some (i, c1) => inv (mksys (iget_fill i c1) (((i, Any) :: L).*1 ++ R)) /\ sat (iget_fill i c1) ((i, Any) :: L) /\ keeps c (iget_fill i c1) R
  | None => full c
  end.
Proof.
  intros I HN HR O Hs. set (R' := L.*1 ++ R) in *. assert (Hlen : length R' = (length L + length R)%nat) by (unfold R'; by rewrite length_app, length_fmap).
  pose proof (iget_lock_ok sb dev ino c (i_ok _ I)) as G. destruct (iget_lock sb dev ino c) as [[i c1]|] eqn:E.
  2:{ destruct G as [_ G]; [|exact G]. intros j. rewrite (inv_cnt _ _ j I). pose proof (cnt_le j R'). lia. }
  destruct G as [K G]. { intros j. rewrite (inv_cnt _ _ j I). pose proof (cnt_le j R'). lia. }
  assert (Hfew : few R') by (unfold few; lia).
  destruct (step_inv _ _ I (step_iget c R' sb dev ino i c1 Hfew E)) as [I1 _]. assert (Hin : i ∈ i :: R') by (apply elem_of_cons; by left).
  destruct (step_inv _ _ I1 (step_fill c1 (i :: R') i Hin)) as [I2 _].
  assert (Hi1 : (i < size c1)%nat) by (rewrite (k_size _ _ _ K); apply K).
  destruct (iget_fill_ok i c1 (i_ok _ I1) Hi1) as (_ & _ & F & U). destruct (iget_fill_same i c1 Hi1) as [Fm Fu]. destruct (F i) as (_ & _ & _ & Fsb & Fh).
  assert (Ho : forall j, j <> i -> at_ (iget_fill i c1) j = at_ c j) by (intros j N0; rewrite iget_fill_at by done; by apply K).
  assert (Hcase : (i_mount (at_ c1 i) = i_mount (at_ c i) /\ i_sb (at_ c1 i) = i_sb (at_ c i) /\ i_hashed (at_ c1 i) = i_hashed (at_ c i) /\ i_hashed (at_ c i) = true /\
      i_body (at_ c1 i) = i_body (at_ c i) /\ i_up2date (at_ c1 i) = i_up2date (at_ c i)) \/
    (i ∉ R') /\ i_mount (at_ c1 i) = None /\ i_sb (at_ c1 i) = Some sb).
  { destruct (find_inode dev ino c) as [j|].
    - destruct G as (-> & Hh & _ & _ & ->). by left.
    - destruct G as (Hb & ->). right. split; [|done]. intros Hr. apply cnt_pos in Hr. rewrite (free_cnt i c R' I Hb) in Hr. lia. }
  assert (Hf : forall j, j ∈ R' -> fine c j -> fine (iget_fill i c1) j /\ i_body (at_ (iget_fill i c1) j) = i_body (at_ c j)).
  { intros j Hj [F1 F2]. unfold fine. destruct (decide (j = i)) as [->|N0]; [|by rewrite Ho].
    destruct Hcase as [(_ & Es & _ & _ & Eb & Eu)|[Hn _]]; [|done]. destruct Fu as [Fu Fb]; [congruence|]. rewrite Fu, Fb, Fsb, Es, Eb. done. }
  assert (Hfi : fine (iget_fill i c1) i).
  { split; [done|]. rewrite Fsb. destruct Hcase as [(_ & -> & _ & Hh & _)|(_ & _ & ->)]; [by apply (ot_named _ _ _ O)|done]. }
  split_and!; [exact I2| |].
  - intros j k [[= -> ->]|Hj]%elem_of_cons; [done|]. destruct (Hs j k Hj) as [F1 K1].
    destruct (Hf j) as [F2 ->]; [|done|done]. apply elem_of_app. left. apply list_elem_of_fmap. by exists (j, k).
  - constructor.
    + intros j Hj Fj. destruct (Hf j) as [F2 ->]; [apply elem_of_app; by right|done|done].
    + intros j m. destruct (decide (j = i)) as [->|N0]; [|by rewrite Ho]. rewrite Fm. destruct Hcase as [(-> & _)|(_ & -> & _)]; done.
    + intros Hn j. destruct (decide (j = i)) as [->|N0]; [intros _; apply Hfi|rewrite Ho by done; apply Hn].
Qed.

Lemma triple_iget S N L sb dev ino (Q : Z + nat -> asrt -> Prop) : (length L + 1 < N)%nat -> (forall i, Q (inr i) ((i, Any) :: L)) ->
  triple S N L (m_iget sb dev ino) Q.
Proof.
  intros HN HQ R c I HR O Hs. pose proof (iget_here S N L R c sb dev ino I ltac:(lia) HR O Hs) as G. unfold m_iget, iget, iget'.
  destruct (iget_lock sb dev ino c) as [[i c1]|]; [|done]. destruct G as (I1 & S1 & K1). set (c2 := iget_fill i c1) in *.
  pose proof (others_keeps _ _ _ _ O K1) as O1. destruct (i_mount (at_ c2 i)) as [m|] eqn:Em.
  2:{ exists ((i, Any) :: L). split_and!; done. }
  destruct (ot_mount _ _ _ O1 i m Em) as [Hm Fm]. assert (Hmi : (m < size c2)%nat) by (apply (i_range _ I1), elem_of_app; by right).
  destruct (keeps_update (fun x => set_count (u32 (i_count x + 1)) x) m c2 R Hmi) as [K2 S2]; [done|].
  assert (I2 : inv (mksys (iref m c2) (((i, Any) :: (m, Any) :: L).*1 ++ R))).
  { cbn [fmap list_fmap fst app]. apply (inv_perm _ (m :: i :: (L.*1 ++ R))); [apply perm_swap|]. apply (step_inv _ _ I1). apply step_iref.
    - unfold few. cbn [fmap list_fmap fst app length]. rewrite length_app, length_fmap. lia.
    - apply elem_of_cons. right. apply elem_of_app. by right. }
  assert (S3 : sat (iref m c2) ((i, Any) :: (m, Any) :: L)).
  { apply S2. intros j k [[= -> ->]|[[= -> ->]|Hj]%elem_of_cons]%elem_of_cons; [|done|]; apply S1, elem_of_cons; [by left|by right]. }
  pose proof (triple_iput S N i Any ((m, Any) :: L) (fun r L' => r = inr tt /\ L' = (m, Any) :: L) (conj eq_refl eq_refl) R (iref m c2) I2 HR
    (others_keeps _ _ _ _ O1 K2) S3) as T. unfold m_iput in T. destruct (iput i (iref m c2)) as [c3|]; [|done].
  destruct T as (L' & [_ ->] & I3 & S4 & K3). exists ((m, Any) :: L). split_and!; [done..|].
  eapply keeps_trans; [exact K1|]. by eapply keeps_trans.
Qed.

(** Looking at an inode that is in hand. *)
Definition best (b : B) : kind := if s_isdir b then IsDir else if s_islnk b then Any else NonLink.

Lemma triple_body {C} S N i k L (f : B -> M C) Q : (forall b, knows k b -> triple S N ((i, best b) :: L) (f b) Q) -> triple S N ((i, k) :: L) (body i f) Q.
Proof.
  intros T R c I HR O Hs. unfold body, get. destruct (Hs i k) as [F K]; [apply elem_of_cons; by left|].
  apply (T _ K); [exact I|done|done|]. intros j kj [[= -> ->]|Hj]%elem_of_cons; [|by apply Hs, elem_of_cons; right]. split; [done|].
  unfold best. destruct (s_isdir (i_body (at_ c i))) eqn:E; [done|]. by destruct (s_islnk (i_body (at_ c i))) eqn:E2.
Qed.

Lemma triple_body_any {C} S N i L (f : B -> M C) Q : (forall b, triple S N L (f b) Q) -> triple S N L (body i f) Q.
Proof. intros T. by apply triple_get. Qed.
(** ** What the file systems must keep to *)

Definition eats {A} (d : nat) (m : M A) (Q : A -> asrt -> Prop) : Prop :=
  triple nobody 4 [(d, Any)] m (fun r L' => match r with inl _ => L' = [] | inr a => Q a L' end).

(** What [create] gives: a file, or an error, and for a name that is too long the
    directory may stay held. *)
Definition made (d : nat) (r : Z + nat) (L' : asrt) : Prop :=
  match r with inr i => L' = [(i, Any)] | inl e => L' = [] \/ (e = - ENAMETOOLONG /\ L' = [(d, Any)]) end.

Class DirLaws : Prop := {
  dir_nolink : forall b, s_isdir b = true -> s_islnk b = false;
  link_followed : forall b, s_islnk b = true -> follow_op b <> None;
  lookup_dirs : forall b f, lookup_op b = Some f -> s_isdir b = true;
  lookup_law : forall b f d name, lookup_op b = Some f -> eats d (f d name) (fun i L' => L' = [(i, Any)]);
  follow_law : forall b f i, follow_op b = Some f -> triple nobody 4 [(i, Any)] (f i) (fun _ L' => L' = [(i, Any)]);
  truncate_law : forall b f i n k, truncate_op b = Some f -> triple nobody 4 [(i, k)] (f i n) (fun _ L' => L' = [(i, k)]);
  create_law : forall b f d name, create_op b = Some f -> triple nobody 4 [(d, Any)] (f d name) (made d);
}.
Lemma triple_any {A} S N i k L (m : M A) Q : triple S N ((i, Any) :: L) m Q -> triple S N ((i, k) :: L) m Q.
Proof.
  apply triple_weaker. split; [done|]. intros c Hs j kj [[= -> ->]|Hj]%elem_of_cons; [|by apply Hs, elem_of_cons; right].
  destruct (Hs i k) as [F _]; [apply elem_of_cons; by left|]. done.
Qed.

Context {Laws : DirLaws}.

Definition le (k k' : kind) : Prop := k' = Any \/ k = k' \/ (k = IsDir /\ k' = NonLink).

Lemma le_knows k k' b : le k k' -> knows k b -> knows k' b.
Proof. intros [->|[->|[-> ->]]]; [done|done|apply dir_nolink]. Qed.

Lemma triple_le {A} S N i k k' L (m : M A) Q : le k k' -> triple S N ((i, k') :: L) m Q -> triple S N ((i, k) :: L) m Q.
Proof.
  intros Hl. apply triple_weaker. split; [done|]. intros c Hs j kj [[= -> ->]|Hj]%elem_of_cons; [|by apply Hs, elem_of_cons; right].
  destruct (Hs i k) as [F K]; [apply elem_of_cons; by left|]. split; [done|]. by eapply le_knows.
Qed.

Lemma best_le k b : knows k b -> le (best b) k.
Proof.
  unfold best, le. destruct k; cbn; [by left| |].
  - intros ->. destruct (s_isdir b); tauto.
  - intros ->. tauto.
Qed.

Lemma best_nolink b k : s_islnk b = false -> le NonLink k -> le (best b) k.
Proof. unfold best, le. intros -> [->|[<-|[? _]]]; [tauto| |done]. destruct (s_isdir b); tauto. Qed.

(** A directory of the process or of a mount is one. *)
Lemma triple_known {A} (S : nat -> kind -> Prop) N i k L (m : M A) Q : S i IsDir -> triple S N ((i, IsDir) :: L) m Q -> triple S N ((i, k) :: L) m Q.
Proof.
  intros Hi T R c I HR O Hs. apply T; [exact I|done|done|]. intros j kj [[= -> ->]|Hj]%elem_of_cons; [|by apply Hs, elem_of_cons; right].
  destruct (ot_shared _ _ _ O i _ Hi) as (_ & F & K). done.
Qed.

Lemma triple_swap {A} S N x y L (m : M A) Q : triple S N (y :: x :: L) m Q -> triple S N (x :: y :: L) m Q.
Proof. apply triple_perm, perm_swap. Qed.

Lemma triple_update S N i k L f (Q : Z + unit -> asrt -> Prop) : gentle f -> (forall x, i_count (f x) = i_count x) -> Q (inr tt) ((i, k) :: L) ->
  triple S N ((i, k) :: L) (change (update i f)) Q.
Proof.
  intros G Hc HQ R c I HR O Hs. assert (Hin : i ∈ ((i, k) :: L).*1 ++ R) by (apply elem_of_cons; by left). pose proof (i_range _ I i Hin) as Hi. cbn [cc] in Hi.
  destruct (keeps_update f i c R Hi G) as [K Ks]. exists ((i, k) :: L). split_and!; [done| |by apply Ks|done].
  apply (step_inv _ _ I). apply step_use; [done|]. intros x. split; [apply G|apply Hc].
Qed.

(** The call of an operation. *)
Lemma eats_here {A} S N d k L (m : M A) Q : eats d m Q -> (4 + length L <= N)%nat ->
  triple S N ((d, k) :: L) m (fun r L' => match r with inl _ => L' = L | inr a => exists L1, L' = L1 ++ L /\ Q a L1 end).
Proof.
  intros T HN. apply triple_any.
  pose proof (triple_frame S 4 [(d, Any)] L m _ (triple_shared S _ _ _ _ T)) as T'. eapply (triple_conseq S _ N); [exact T'|done|]. intros [e|a] L' (L1 & -> & H); [by rewrite H|by exists L1].
Qed.

Lemma makes_here S N d k L (m : M nat) : triple nobody 4 [(d, Any)] m (made d) -> (4 + length L <= N)%nat ->
  triple S N ((d, k) :: L) m (fun r L' => exists L1, L' = L1 ++ L /\ made d r L1).
Proof.
  intros T HN. apply triple_any.
  pose proof (triple_frame S 4 [(d, Any)] L m _ (triple_shared S _ _ _ _ T)) as T'. eapply (triple_conseq S _ N); [exact T'|done|]. intros r L' H. exact H.
Qed.

(** ** A name in a directory *)

Section Walk.
Context (ctx : context).

(** What is held for the process and for the mounts. *)
Inductive shared : nat -> kind -> Prop :=
  | sh_pwd : shared (pwd ctx) IsDir
  | sh_root : shared (root ctx) IsDir
  | sh_covered sb d : covered ctx sb = Some d -> shared d IsDir
  | sh_mounted sb d : mounted ctx sb = Some d -> shared d IsDir
  | sh_file n i : fdi ctx n = Some i -> shared i Any.

Definition found (d : nat) (k1 : kind) (r : Z + nat) (L' : asrt) : Prop :=
  match r with inl _ => exists k, L' = [(d, k)] /\ le k k1 | inr i => (i = d /\ L' = [(d, NonLink); (d, NonLink)]) \/ L' = [(i, Any); (d, IsDir)] end.

Lemma le_refl k : le k k.
Proof. by right; left. Qed.

Lemma lookup_ok d k0 k1 name : le k1 NonLink -> triple shared 8 [(d, k0); (d, k1)] (lookup ctx d name) (found d k1).
Proof.
  intros Hk1. unfold lookup. cbv zeta. set (enter := fun dir : nat => body dir (fun b => match lookup_op b with None => fail dir (- ENOTDIR) | Some f => f dir name end)).
  assert (Hdir : le IsDir k1) by (unfold le in *; destruct Hk1 as [|[->|[-> _]]]; [done|right; right; done|right; left; done]).
  assert (Same : triple shared 8 [(d, k0); (d, k1)] (ret d) (found d k1)).
  { apply triple_weaker with (L' := [(d, NonLink); (d, NonLink)]); [|apply triple_ret; by left]. split; [done|]. intros c Hs j kj Hj.
    destruct (Hs d k1) as [F K]; [apply elem_of_cons; right; apply elem_of_cons; by left|]. apply (le_knows _ NonLink) in K; [|done].
    apply elem_of_cons in Hj as [[= -> ->]|Hj]; [done|]. apply elem_of_cons in Hj as [[= -> ->]|Hj]; [done|by apply not_elem_of_nil in Hj]. }
  destruct (length name =? 0)%nat; [exact Same|].
  assert (Enter : forall e k, triple shared 8 [(e, k); (d, IsDir)] (enter e) (found d k1)).
  { intros e k. unfold enter. apply triple_body. intros b Hb. destruct (lookup_op b) as [f|] eqn:Ef; [|apply triple_fail; by eexists].
    eapply triple_conseq; [apply (eats_here shared 8 _ _ _ _ _ (lookup_law _ _ e name Ef)); cbn; lia|done|].
    intros [z|i] L'; [intros ->; by eexists|intros (L1 & -> & ->); by right]. }
  assert (Here : triple shared 8 [(d, k0); (d, k1)] (enter d) (found d k1)).
  { unfold enter. apply triple_swap, triple_body. intros b Hb.
    destruct (lookup_op b) as [f|] eqn:Ef; [|apply triple_swap, triple_fail; exists (best b); split; [done|by apply best_le]].
    pose proof (lookup_dirs _ _ Ef) as Ed. unfold best. rewrite Ed. apply triple_swap.
    eapply triple_conseq; [apply (eats_here shared 8 _ _ _ _ _ (lookup_law _ _ d name Ef)); cbn; lia|done|].
    intros [z|i] L'; [intros ->; by eexists|intros (L1 & -> & ->); by right]. }
  destruct (bool_decide (name = dotdot)); [|exact Here]. destruct (Nat.eqb_spec d (root ctx)) as [->|_]; [exact Same|].
  apply triple_get. intros [sb|]; [|exact Here]. destruct (decide (mounted ctx sb = Some d)) as [Em|]; [rewrite bool_decide_eq_true_2 by done|by rewrite bool_decide_eq_false_2].
  apply triple_swap, (triple_known shared); [by apply (sh_mounted sb)|]. apply triple_swap.
  eapply triple_bind; [apply (triple_iput _ _ _ _ _ (fun r L' => r = inr tt /\ L' = [(d, IsDir)])); done| |by intros ? ? [? _]].
  intros [] L' [_ ->]. destruct (covered ctx sb) as [e|] eqn:Ec; [|apply triple_err; by eexists].
  eapply triple_bind; [apply (triple_iref_shared _ _ _ IsDir _ (fun r L' => r = inr tt /\ L' = [(e, IsDir); (d, IsDir)]));
    [by apply (sh_covered sb)|cbn; lia|done]| |by intros ? ? [? _]]. intros [] L' [_ ->]. apply Enter.
Qed.

(** ** Links *)

Definition okind (flags : Z) : kind := if Z.land flags O_CREAT =? 0 then NonLink else Any.
(** With an error nothing is held, but for a directory when a name is too long to
    make a file of. *)
Definition lost (flags : Z) (e : Z) (L' : asrt) : Prop :=
  L' = [] \/ (Z.land flags O_CREAT <> 0 /\ e = - ENAMETOOLONG /\ exists d, L' = [(d, IsDir)]).
Definition taken (flags : Z) (r : Z + nat) (L' : asrt) : Prop := match r with inl e => lost flags e L' | inr i => L' = [(i, okind flags)] end.
Lemma lost_none flags e : lost flags e [].
Proof. by left. Qed.
Lemma taken0 e L' : taken 0 (inl e) L' -> L' = [].
Proof. by intros [->|[? _]]. Qed.
Hint Resolve lost_none : core.
Definition rec_ok (rec : list Z -> Z -> nat -> M nat) (flags : Z) : Prop :=
  forall target dir, triple shared 8 [(dir, IsDir)] (rec target flags dir) (taken flags).

Lemma nonlink_okind flags k : le k NonLink -> le k (okind flags).
Proof. unfold okind, le. destruct (_ =? _); [done|tauto]. Qed.

Lemma triple_taken flags i k (Q : Z + nat -> asrt -> Prop) : le k (okind flags) -> (forall r L', taken flags r L' -> Q r L') -> triple shared 8 [(i, k)] (ret i) Q.
Proof. intros Hk HQ. eapply triple_le; [exact Hk|]. apply triple_ret. by apply HQ. Qed.

Lemma triple_iput2 S N i k x L : triple S N (x :: (i, k) :: L) (m_iput i) (fun r L' => r = inr tt /\ L' = x :: L).
Proof. apply triple_swap. by apply triple_iput. Qed.

Lemma follow_link_ok rec lc flags inode ki dir kd : (lc <= MAX_LINK_COUNT -> rec_ok rec flags) ->
  le ki NonLink \/ kd = IsDir -> triple shared 8 [(inode, ki); (dir, kd)] (follow_link rec lc dir inode flags) (taken flags).
Proof.
  intros Hrec Hk. unfold follow_link. apply triple_body. intros b Hb. pose proof (best_le ki b Hb) as Hbl.
  assert (Hend : forall k, le k NonLink -> triple shared 8 [(inode, k); (dir, kd)] (bind (m_iput dir) (fun _ => ret inode)) (taken flags)).
  { intros k Hl. eapply triple_bind; [apply triple_iput2| |by intros ? ? [? _]]. intros [] L' [_ ->]. apply (triple_taken flags); [by apply nonlink_okind|done]. }
  destruct (follow_op b) as [f|] eqn:Ef.
  2:{ apply Hend. apply best_nolink; [|by right; left]. destruct (s_islnk b) eqn:El; [|done]. by destruct (link_followed b El). }
  unfold ext2_follow_link. apply triple_body. intros b2 Hb2. destruct (s_islnk b2) eqn:El; cbn [negb].
  2:{ apply Hend. apply best_nolink; [done|by right; left]. }
  destruct Hk as [Hk| ->].
  { exfalso. assert (Hn : knows NonLink b2); [|cbn in Hn; congruence]. eapply le_knows; [exact Hk|]. by eapply le_knows. }
  destruct (Z.gtb_spec lc MAX_LINK_COUNT) as [|Hlc].
  { eapply triple_bind; [apply triple_iput2| |by intros ? ? [? _]]. intros [] L' [_ ->]. apply triple_fail, lost_none. }
  eapply triple_catch.
  { pose proof (triple_frame shared 4 _ [(dir, IsDir)] _ _ (triple_shared shared _ _ _ _ (follow_law b f inode Ef))) as T.
    apply triple_any. eapply (triple_conseq _ _ 8); [exact T|cbn; lia|]. intros r L' H. exact H. }
  intros r L' (L1 & -> & ->). cbn [app]. destruct r as [e|target].
  - eapply triple_bind; [apply triple_iput2| |by intros ? ? [? _]]. intros [] L' [_ ->]. apply triple_fail, lost_none.
  - eapply triple_bind; [apply (triple_iput _ _ _ _ _ (fun r L' => r = inr tt /\ L' = [(dir, IsDir)])); done| |by intros ? ? [? _]].
    intros [] L' [_ ->]. by apply Hrec.
Qed.

(** ** Paths *)

Definition last_name (r : Z + list Z * nat) (L' : asrt) : Prop := match r with inl _ => L' = [] | inr (_, b) => L' = [(b, NonLink)] end.
Definition last_dir (r : Z + list Z * nat) (L' : asrt) : Prop := match r with inl _ => L' = [] | inr (_, b) => L' = [(b, IsDir)] end.

Lemma dir_loop_ok rec lc pathname : (lc <= MAX_LINK_COUNT -> rec_ok rec 0) ->
  forall thisname base, triple shared 8 [(base, NonLink)] (dir_loop ctx rec lc thisname pathname base) last_name.
Proof.
  intros Hrec. induction pathname as [|c p IH]; intros thisname base; cbn [dir_loop]; [by apply triple_ret|].
  destruct (c =? slash); [|apply IH].
  eapply triple_bind; [apply (triple_iref _ _ base NonLink _ (fun r L' => r = inr tt /\ L' = [(base, NonLink); (base, NonLink)])); [apply elem_of_cons; by left|cbn; lia|done]|
    |by intros ? ? [? _]]. intros [] L' [_ ->].
  eapply triple_catch; [apply (lookup_ok _ _ NonLink), le_refl|]. intros [e|i] L' Hf; cbn in Hf.
  - destruct Hf as (k & -> & _). by apply triple_fail.
  - eapply (triple_bind _ _ _ _ _ (taken 0)).
    + destruct Hf as [[-> ->]| ->]; apply follow_link_ok; try done; [left; by right; left|by right].
    + intros j L1 ->. apply IH.
    + by intros e L1 ->%taken0.
Qed.

Definition base_asrt (base : option nat) : asrt := match base with Some b => [(b, IsDir)] | None => [] end.

Lemma dir_namei_ok rec lc pathname base : (lc <= MAX_LINK_COUNT -> rec_ok rec 0) ->
  triple shared 8 (base_asrt base) (dir_namei ctx rec lc pathname base) last_dir.
Proof.
  intros Hrec. unfold dir_namei. apply triple_bind with (Q := fun r L' => match r with inl _ => L' = [] | inr b => L' = [(b, IsDir)] end).
  - destruct base as [b|]; [by apply triple_ret|].
    eapply triple_bind; [apply (triple_iref_shared _ _ _ IsDir _ (fun r L' => r = inr tt /\ L' = [(pwd ctx, IsDir)])); [apply sh_pwd|cbn; lia|done]| |by intros ? ? [? _]].
    intros [] L' [_ ->]. by apply triple_ret.
  - intros b L' ->. apply triple_bind with (Q := fun r L' => match r with inl _ => L' = [] | inr (b, _) => L' = [(b, IsDir)] end).
    + destruct pathname as [|c p]; [by apply triple_ret|]. destruct (c =? slash); [|by apply triple_ret].
      eapply triple_bind; [apply (triple_iput _ _ _ _ _ (fun r L' => r = inr tt /\ L' = [])); done| |by intros ? ? [? _]]. intros [] L' [_ ->].
      eapply triple_bind; [apply (triple_iref_shared _ _ _ IsDir _ (fun r L' => r = inr tt /\ L' = [(root ctx, IsDir)])); [apply sh_root|cbn; lia|done]| |by intros ? ? [? _]].
      intros [] L' [_ ->]. by apply triple_ret.
    + intros [d p] L' ->. apply triple_body. intros bd Hd. cbn in Hd. rewrite Hd. cbn [negb]. unfold best. rewrite Hd.
      eapply triple_bind.
      * eapply (triple_le _ _ _ _ NonLink); [by right; right|]. by apply dir_loop_ok.
      * intros [name e] L' ->. apply triple_body. intros b2 Hb2. destruct (lookup_op b2) as [f|] eqn:Ef; [|by apply triple_fail].
        apply triple_ret. cbn. unfold best. by rewrite (lookup_dirs _ _ Ef).
      * by intros e L' ->.
    + by intros e L' ->.
  - by intros e L' ->.
Qed.
(** ** The last name *)

Definition one (r : Z + nat) (L' : asrt) : Prop := match r with inl _ => L' = [] | inr i => exists k, L' = [(i, k)] end.

Lemma iref_dup_ok d : triple shared 8 [(d, IsDir)] (m_iref d) (fun r L' => r = inr tt /\ L' = [(d, IsDir); (d, IsDir)]).
Proof. apply triple_iref with (k := IsDir); [apply elem_of_cons; by left|cbn; lia|done]. Qed.

Lemma lookup_dir_ok d name : triple shared 8 [(d, IsDir); (d, IsDir)] (lookup ctx d name) (found d IsDir).
Proof. apply lookup_ok. by right; right. Qed.

Lemma namei_body_ok rec lc pathname base follow : (lc <= MAX_LINK_COUNT -> rec_ok rec 0) ->
  triple shared 8 (base_asrt base) (namei_body ctx rec lc pathname base follow) one.
Proof.
  intros Hrec. unfold namei_body. eapply triple_bind; [by apply dir_namei_ok| |by intros e L' ->]. intros [name d] L' ->.
  eapply triple_bind; [apply iref_dup_ok| |by intros ? ? [? _]]. intros [] L' [_ ->].
  eapply triple_catch; [apply lookup_dir_ok|]. intros [e|i] L' Hf; cbn in Hf; [destruct Hf as (k & -> & _); by apply triple_fail|]. destruct follow.
  - eapply triple_conseq; [|done|].
    + destruct Hf as [[-> ->]| ->]; apply (follow_link_ok rec lc 0); try done; [left; by right; left|by right].
    + intros [e|j] L1; [apply taken0|]. intros ->. by eexists.
  - assert (Hk : exists k1 k2, L' = [(i, k1); (d, k2)]) by (destruct Hf as [[-> ->]| ->]; by eexists _, _). destruct Hk as (k1 & k2 & ->).
    eapply triple_bind; [apply triple_iput2| |by intros ? ? [? _]]. intros [] L' [_ ->]. apply triple_ret. by eexists.
Qed.

Lemma truncate_step f i k b (E : truncate_op b = Some f) n : triple shared 8 [(i, k)] (f i n) (fun _ L' => L' = [(i, k)]).
Proof. eapply triple_conseq; [apply triple_shared, (truncate_law b f i n k E)|lia|done]. Qed.

Lemma open_inode_ok flags i k : triple shared 8 [(i, k)] (open_inode flags i) (fun r L' => match r with inl _ => L' = [] | inr j => L' = [(j, k)] end).
Proof.
  unfold open_inode. apply triple_body. intros b Hb. pose proof (best_le k b Hb) as Hl.
  destruct (_ && _); [by apply triple_fail|]. destruct (_ && _); [by apply triple_fail|]. destruct (_ && _).
  - eapply (triple_le _ _ _ _ k); [done|]. eapply triple_catch with (Q := fun _ L' => L' = [(i, k)]).
    + destruct (truncate_op b) as [f|] eqn:E; [by apply (truncate_step f i k b)|by apply triple_ret].
    + intros r L' ->. eapply triple_bind; [apply (triple_update _ _ _ _ _ _ (fun r L' => r = inr tt /\ L' = [(i, k)])); done| |by intros ? ? [? _]].
      intros [] L' [_ ->]. by apply triple_ret.
  - eapply triple_le; [exact Hl|]. by apply triple_ret.
Qed.

Lemma open_inode_taken flags i : triple shared 8 [(i, okind flags)] (open_inode flags i) (taken flags).
Proof. eapply triple_conseq; [apply open_inode_ok|lia|]. intros [e|j] L' ->; [apply lost_none|done]. Qed.

Lemma open_last_ok rec lc flags dir name : (lc <= MAX_LINK_COUNT -> rec_ok rec flags) ->
  triple shared 8 [(dir, IsDir)] (open_last ctx rec lc flags dir name) (taken flags).
Proof.
  intros Hrec. unfold open_last. eapply triple_bind; [apply iref_dup_ok| |by intros ? ? [? _]]. intros [] L' [_ ->].
  eapply triple_catch; [apply lookup_dir_ok|]. intros [e|i] L' Hf.
  - destruct Hf as (k & -> & Hkd). destruct (Z.eqb_spec (Z.land flags O_CREAT) 0) as [|Nc]; [apply triple_fail, lost_none|].
    apply triple_body. intros b Hb. destruct (create_op b) as [f|] eqn:Ef; [|apply triple_fail, lost_none].
    eapply triple_bind; [apply (triple_iref _ _ dir (best b) _ (fun r L' => r = inr tt /\ L' = [(dir, best b); (dir, best b)]));
      [apply elem_of_cons; by left|cbn; lia|done]| |by intros ? ? [? _]]. intros [] L' [_ ->].
    eapply triple_catch; [apply (makes_here shared 8 _ _ _ _ (create_law _ _ dir name Ef)); cbn; lia|]. intros [z|i] L' Hr; cbn in Hr.
    + destruct Hr as (L1 & -> & [->|[-> ->]]); cbn [app].
      * eapply triple_bind; [apply (triple_iput _ _ _ _ _ (fun r L' => r = inr tt /\ L' = [])); done| |by intros ? ? [? _]].
        intros [] L' [_ ->]. apply triple_err, lost_none.
      * eapply triple_bind; [apply (triple_iput _ _ _ _ _ (fun r L' => r = inr tt /\ L' = [(dir, best b)])); try done| |by intros ? ? [? _]].
        intros [] L' [_ ->]. apply triple_err. right. split_and!; [done|done|]. exists dir. unfold best.
        assert (k = IsDir) as -> by (destruct Hkd as [|[->|[-> ?]]]; done). by rewrite Hb.
    + destruct Hr as (L1 & -> & ->). eapply triple_bind; [apply triple_iput2| |by intros ? ? [? _]]. intros [] L' [_ ->].
      apply triple_ret. cbn. unfold okind. by rewrite (proj2 (Z.eqb_neq _ _) Nc).
  - cbn in Hf. assert (Hk : exists k1 k2, L' = [(i, k1); (dir, k2)] /\ (le k1 NonLink \/ k2 = IsDir)).
    { destruct Hf as [[-> ->]| ->]; eexists _, _; (split; [done|]); [left; by right; left|by right]. }
    destruct Hk as (k1 & k2 & -> & Hk). destruct (_ && _).
    { eapply triple_bind; [apply (triple_iput _ _ _ _ _ (fun r L' => r = inr tt /\ L' = [(dir, k2)])); done| |by intros ? ? [? _]].
      intros [] L' [_ ->]. apply triple_fail, lost_none. }
    apply triple_body. intros b Hb. pose proof (best_le k1 b Hb) as Hl. destruct (s_islnk b) eqn:El.
    + destruct (negb _).
      { eapply triple_bind; [apply (triple_iput _ _ _ _ _ (fun r L' => r = inr tt /\ L' = [(dir, k2)])); done| |by intros ? ? [? _]].
        intros [] L' [_ ->]. apply triple_fail, lost_none. }
      eapply (triple_le _ _ _ _ k1); [done|]. eapply triple_bind; [by apply follow_link_ok| |done].
      intros j L' ->. apply open_inode_taken.
    + eapply triple_bind; [apply triple_iput2| |by intros ? ? [? _]]. intros [] L' [_ ->].
      eapply (triple_le _ _ _ _ (okind flags)); [|apply open_inode_taken]. apply nonlink_okind, best_nolink; [done|by right; left].
Qed.

Lemma open_body_ok rec lc path flags base : (lc <= MAX_LINK_COUNT -> rec_ok rec 0 /\ rec_ok rec flags) ->
  triple shared 8 (base_asrt base) (open_body ctx rec lc path flags base) (taken flags).
Proof.
  intros Hrec. unfold open_body. eapply triple_bind; [apply dir_namei_ok; intros H; by apply Hrec| |intros e L' ->; apply lost_none]. intros [name d] L' ->.
  destruct (length name =? 0)%nat.
  - destruct (negb _); [apply triple_fail, lost_none|]. apply (triple_taken flags); [|done]. apply nonlink_okind. by right; right.
  - apply open_last_ok. intros H. by apply Hrec.
Qed.

(** Seven levels are enough, since [link_count] goes from 0 to 6. *)
Lemma open_namei_ok fuel : forall lc path flags base, 0 <= lc -> MAX_LINK_COUNT + 2 - lc <= Z.of_nat fuel -> (0 < fuel)%nat ->
  triple shared 8 (base_asrt base) (open_namei ctx fuel lc path flags base) (taken flags).
Proof.
  induction fuel as [|fuel IH]; intros lc path flags base H0 Hf Hp; [lia|]. cbn [open_namei]. apply open_body_ok.
  intros Hlc. unfold MAX_LINK_COUNT in *. split; intros target dir; apply (IH (lc + 1) target _ (Some dir)); try done; lia.
Qed.

Lemma rec_links flags : rec_ok (fun path flags dir => open_namei ctx links 1 path flags (Some dir)) flags.
Proof. intros target dir. apply (open_namei_ok links 1 target flags (Some dir)); [lia|by vm_compute|by vm_compute; lia]. Qed.

Lemma namei_ok pathname base follow : triple shared 8 (base_asrt base) (namei' ctx pathname base follow) one.
Proof. apply namei_body_ok. intros _. apply rec_links. Qed.

Lemma do_name_ok {A} (op : B -> option (nat -> list Z -> M A)) empty noop path base (Q : A -> asrt -> Prop) :
  (forall b f d name, op b = Some f -> eats d (f d name) Q) ->
  triple shared 8 (base_asrt base) (do_name ctx op empty noop path base) (fun r L' => match r with inl _ => L' = [] | inr a => Q a L' end).
Proof.
  intros Hop. unfold do_name. eapply triple_bind; [apply dir_namei_ok; intros _; apply rec_links; by left| |by intros e L' ->]. intros [name d] L' ->.
  destruct (length name =? 0)%nat; [by apply triple_fail|]. apply triple_body. intros b Hb. destruct (op b) as [f|] eqn:Ef; [|by apply triple_fail].
  eapply triple_conseq; [apply (eats_here shared 8 _ _ _ _ _ (Hop _ _ d name Ef)); cbn; lia|done|].
  intros [e|a] L'; [done|]. intros (L1 & -> & H). by rewrite app_nil_r.
Qed.
(** ** Calls with more than one path *)

Lemma dir_of_ok path base : triple shared 8 (base_asrt base) (dir_of ctx path base) last_dir.
Proof. apply dir_namei_ok. intros _. apply rec_links. Qed.

(** The inode of a descriptor: a directory, or anything for the empty path. *)
Lemma get_base_inode_ok dirfd empty : dirfd = AT_FDCWD \/ 0 <= dirfd ->
  triple shared 8 [] (get_base_inode ctx dirfd empty) (fun r L' =>
    match r with inl _ => L' = [] | inr base => if empty then (dirfd <> AT_FDCWD -> exists i, base = Some i /\ L' = [(i, Any)]) /\ (dirfd = AT_FDCWD -> base = None /\ L' = []) else L' = base_asrt base end).
Proof.
  intros Hd. unfold get_base_inode. destruct (Z.eqb_spec dirfd AT_FDCWD) as [|N]; [apply triple_ret; destruct empty; [by split|done]|].
  destruct (dirfd >=? NR_OPEN); [by apply triple_err|]. destruct (Z.ltb_spec dirfd 0) as [|H0]; [exfalso; destruct Hd; [done|lia]|].
  destruct (fdi ctx (Z.to_nat dirfd)) as [i|] eqn:Ei; [|by apply triple_err].
  intros R c I HR O Hs. destruct (ot_shared _ _ _ O i Any (sh_file _ _ Ei)) as (Hin & F & _). unfold body, get.
  destruct (negb empty && negb (s_isdir (i_body (at_ c i)))) eqn:Eg; [by apply (triple_err shared 8 [])|].
  set (k := if empty then Any else IsDir).
  assert (Hk : knows k (i_body (at_ c i))) by (subst k; destruct empty; [done|]; cbn in *; by apply negb_false_iff in Eg).
  pose proof (i_range _ I i ltac:(apply elem_of_app; by right)) as Hi. cbn [cc] in Hi.
  destruct (keeps_update (fun x => set_count (u32 (i_count x + 1)) x) i c R Hi) as [Kp Ks]; [done|].
  exists [(i, k)]. split_and!; [| | |exact Kp].
  - subst k. destruct empty; [|done]. split; [by eexists|done].
  - apply (step_inv _ _ I). apply step_iref; [unfold few; cbn; lia|done].
  - apply (Ks [(i, k)]). intros j kj [[= -> ->]|Hj]%elem_of_cons; [done|by apply not_elem_of_nil in Hj].
Qed.

Lemma get_dir_ok dirfd : dirfd = AT_FDCWD \/ 0 <= dirfd ->
  triple shared 8 [] (get_base_inode ctx dirfd false) (fun r L' => match r with inl _ => L' = [] | inr base => L' = base_asrt base end).
Proof. apply (get_base_inode_ok dirfd false). Qed.

Lemma namei_at_ok dirfd name follow : dirfd = AT_FDCWD \/ 0 <= dirfd -> triple shared 8 [] (namei_at ctx dirfd name follow) one.
Proof.
  intros Hd. unfold namei_at. destruct name as [e|path].
  - destruct (negb _); [by apply triple_err|]. destruct (Z.eqb_spec dirfd AT_FDCWD) as [|N]; [by apply triple_err|].
    eapply triple_bind; [by apply get_base_inode_ok| |by intros e' L' ->]. cbn. intros base L' [H _]. destruct (H N) as (i & -> & ->).
    apply triple_ret. by eexists.
  - eapply triple_bind; [by apply get_dir_ok| |by intros e' L' ->]. cbn. intros base L' ->. apply namei_ok.
Qed.

Lemma frame1 {A} x L (m : M A) Q : triple shared 8 L m Q -> triple shared 9 (L ++ [x]) m (fun r L' => exists L1, L' = L1 ++ [x] /\ Q r L1).
Proof. intros T. eapply triple_conseq; [by apply triple_frame|cbn; lia|]. intros r L' H. exact H. Qed.

Definition gone {A} (r : Z + A) (L' : asrt) : Prop := L' = [].

Lemma both_gone {A} N i ki j kj e : triple shared N [(i, ki); (j, kj)] (bind (m_iput j) (fun _ => @fail A i e)) gone.
Proof. eapply triple_bind; [apply triple_iput2| |by intros ? ? [? _]]. intros [] L' [_ ->]. by apply triple_fail. Qed.
Lemma both_gone' {A} N i ki j kj e : triple shared N [(i, ki); (j, kj)] (bind (m_iput i) (fun _ => @fail A j e)) gone.
Proof. apply triple_swap, both_gone. Qed.

Lemma do_renameat_ok op olddirfd oldname newdirfd newname :
  (forall b f d1 n1 d2 n2, op b = Some f -> triple nobody 6 [(d1, Any); (d2, Any)] (f d1 n1 d2 n2) gone) ->
  olddirfd = AT_FDCWD \/ 0 <= olddirfd -> newdirfd = AT_FDCWD \/ 0 <= newdirfd ->
  triple shared 9 [] (do_renameat ctx op olddirfd oldname newdirfd newname) gone.
Proof.
  intros Hop Ho Hn. unfold do_renameat. eapply triple_bind.
  { eapply (triple_conseq _ _ 9); [by apply get_dir_ok|lia|]. intros r L' H. exact H. } 2:{ by intros e L' ->. }
  cbn. intros ob L' ->. eapply triple_bind.
  { eapply (triple_conseq _ _ 9); [apply dir_of_ok|lia|]. intros r L' H. exact H. } 2:{ by intros e L' ->. }
  intros [on od] L' ->. destruct (no_name on); [by apply triple_fail|]. eapply triple_catch; [apply (frame1 (od, IsDir) []); by apply get_dir_ok|].
  intros r L' (L1 & -> & Hr). destruct r as [e|nb]; subst L1; [by apply triple_fail|].
  eapply triple_catch; [apply frame1, dir_of_ok|]. intros r L' (L1 & -> & Hr). destruct r as [e|[nn nd]]; cbn in Hr; subst L1; [by apply triple_fail|].
  cbn [app]. destruct (no_name nn); [apply both_gone|]. apply triple_get. intros same. destruct (negb same); [apply both_gone|].
  apply triple_swap, triple_body. intros b Hb. destruct (op b) as [f|] eqn:Ef; [|apply both_gone'].
  apply triple_any. apply triple_swap, (triple_le _ _ _ _ Any); [by left|]. apply triple_swap.
  eapply triple_conseq; [apply triple_shared, (Hop b f od on nd nn Ef)|lia|done].
Qed.

Lemma do_linkat_ok op olddirfd oldname newdirfd newname follow :
  (forall b f i d n, op b = Some f -> triple nobody 6 [(i, Any); (d, Any)] (f i d n) (fun _ L' => L' = [(i, Any)])) ->
  olddirfd = AT_FDCWD \/ 0 <= olddirfd -> newdirfd = AT_FDCWD \/ 0 <= newdirfd ->
  triple shared 9 [] (do_linkat ctx op olddirfd oldname newdirfd newname follow) gone.
Proof.
  intros Hop Ho Hn. unfold do_linkat. eapply triple_bind.
  { eapply (triple_conseq _ _ 9); [by apply namei_at_ok|lia|]. intros r L' H. exact H. } 2:{ by intros e L' ->. }
  intros i L' [k ->]. eapply triple_catch; [apply (frame1 (i, k) []); by apply get_dir_ok|].
  intros r L' (L1 & -> & Hr). destruct r as [e|nb]; subst L1; [by apply triple_fail|].
  eapply triple_catch; [apply frame1, dir_of_ok|]. intros r L' (L1 & -> & Hr). destruct r as [e|[nn nd]]; cbn in Hr; subst L1; [by apply triple_fail|].
  cbn [app]. destruct (no_name nn); [apply both_gone'|]. apply triple_get. intros same. destruct (negb same); [apply both_gone'|].
  apply triple_body. intros b Hb. destruct (op b) as [f|] eqn:Ef; [|apply both_gone'].
  apply triple_any. apply triple_swap, (triple_le _ _ _ _ Any); [by left|].
  eapply triple_catch.
  { eapply (triple_conseq _ _ 9); [apply triple_shared, (Hop b f i nd nn Ef)|lia|]. intros r L' H. exact H. }
  intros r L' ->. eapply triple_bind; [apply (triple_iput _ _ _ _ _ (fun r L' => r = inr tt /\ L' = [])); done| |by intros ? ? [? _]].
  intros [] L' [_ ->]. destruct r; [by apply triple_err|by apply triple_ret].
Qed.
End Walk.

(** ** The file systems keep to it *)

Lemma triple_fine {A C} S N i k L (f : cache B W -> A) (m : A -> M C) Q :
  (forall c, fine c i -> knows k (i_body (at_ c i)) -> triple S N ((i, k) :: L) (m (f c)) Q) -> triple S N ((i, k) :: L) (get f m) Q.
Proof. intros T R c I HR O Hs. unfold get. destruct (Hs i k) as [F K]; [apply elem_of_cons; by left|]. by apply (T c F K R c). Qed.

Lemma triple_world S N L w (Q : Z + unit -> asrt -> Prop) : Q (inr tt) L -> triple S N L (change (set_world w)) Q.
Proof.
  intros HQ R c I HR O Hs. exists L. split_and!; [done| |done|by constructor]. apply (step_inv _ _ I), step_world.
Qed.

Lemma world_step S N L w : triple S N L (change (set_world w)) (fun r L' => r = inr tt /\ L' = L).
Proof. by apply triple_world. Qed.

Lemma iput_step S N i k L : triple S N ((i, k) :: L) (m_iput i) (fun r L' => r = inr tt /\ L' = L).
Proof. by apply triple_iput. Qed.

Lemma iget_step S N L sb dev ino : (length L + 1 < N)%nat -> triple S N L (m_iget sb dev ino) (fun r L' => exists i, r = inr i /\ L' = (i, Any) :: L).
Proof. intros HN. apply triple_iget; [done|]. intros i. by exists i. Qed.

Lemma ext2_lookup_eats find d name : eats d (ext2_lookup find d name) (fun i L' => L' = [(i, Any)]).
Proof.
  unfold eats, ext2_lookup. apply triple_body. intros b _. destruct (negb _); [by apply triple_fail|].
  destruct (bool_decide _). { apply triple_any. by apply triple_ret. }
  apply triple_fine. intros c [_ Hsb] _. destruct (find d name c) as [r w]. eapply triple_bind; [apply world_step| |by intros ? ? [? _]].
  intros [] L' [_ ->]. destruct r as [e|ino]; [by apply triple_fail|]. destruct (i_sb (at_ c d)) as [sb|]; [|done].
  eapply triple_bind; [apply iput_step| |by intros ? ? [? _]]. intros [] L' [_ ->].
  apply triple_iget; [cbn; lia|done].
Qed.

Lemma fat_lookup_eats find parent set_parent d name :
  (forall p b, s_isdir (set_parent p b) = s_isdir b /\ s_islnk (set_parent p b) = s_islnk b) ->
  eats d (fat_lookup find parent set_parent d name) (fun i L' => L' = [(i, Any)]).
Proof.
  intros Hp. unfold eats, fat_lookup. apply triple_body. intros b _. destruct (negb _); [by apply triple_fail|].
  destruct (bool_decide _). { apply triple_any. by apply triple_ret. }
  apply triple_fine. intros c [_ Hsb] _. destruct (find d name c) as [r w]. destruct (i_sb (at_ c d)) as [sb|]; [|done].
  destruct (bool_decide _).
  { destruct (_ =? _); [by apply triple_fail|]. eapply triple_bind; [apply iput_step| |by intros ? ? [? _]]. intros [] L' [_ ->].
    apply triple_iget; [cbn; lia|done]. }
  eapply triple_bind; [apply world_step| |by intros ? ? [? _]]. intros [] L' [_ ->]. destruct r as [e|ino]; [by apply triple_fail|].
  eapply triple_bind; [apply iget_step; cbn; lia| |by intros e L' (i & ? & _)]. intros i L' (j & [= <-] & ->).
  apply triple_body. intros bi _. eapply triple_bind with (Q := fun r L' => r = inr tt /\ L' = [(i, best bi); (d, best b)]); [| |by intros ? ? [? _]].
  - destruct (s_isdir bi); [|by apply triple_ret]. apply triple_update; [|done|done]. intros x. cbn. destruct (Hp (i_ino (at_ c d)) (i_body x)) as [-> ->]. done.
  - intros [] L' [_ ->]. eapply triple_bind; [apply triple_iput2| |by intros ? ? [? _]]. intros [] L' [_ ->].
    apply triple_any. by apply triple_ret.
Qed.

Lemma fat_create_eats readonly add d name : eats d (fat_create readonly add d name) (fun i L' => L' = [(i, Any)]).
Proof.
  unfold eats, fat_create. apply triple_body. intros b _. destruct (readonly b); [by apply triple_fail|].
  apply triple_fine. intros c [_ Hsb] _. destruct (add d name c) as [r w]. eapply triple_bind; [apply world_step| |by intros ? ? [? _]].
  intros [] L' [_ ->]. destruct r as [e|ino]; [by apply triple_fail|]. destruct (i_sb (at_ c d)) as [sb|]; [|done].
  eapply triple_bind; [apply iget_step; cbn; lia| |by intros e L' (i & ? & _)]. intros i L' (j & [= <-] & ->).
  eapply triple_bind; [apply triple_iput2| |by intros ? ? [? _]]. intros [] L' [_ ->]. by apply triple_ret.
Qed.

Section Create.
Context (find : nat -> list Z -> cache B W -> (Z + Z) * W) (alloc : cache B W -> (Z + Z) * W)
  (add : nat -> list Z -> Z -> cache B W -> Z * W) (free : Z -> W -> W) (set_links : Z -> B -> B).

Lemma fat_create_made readonly fadd d name : triple nobody 4 [(d, Any)] (fat_create readonly fadd d name) (made d).
Proof. eapply triple_conseq; [apply fat_create_eats|done|]. intros [e|i] L'; [by left|done]. Qed.

Lemma ext2_create_eats d name : Z.of_nat (length name) <= EXT2_NAME_LEN ->
  (forall p b, s_isdir (set_links p b) = s_isdir b /\ s_islnk (set_links p b) = s_islnk b) ->
  eats d (ext2_create find alloc add free set_links d name) (fun i L' => L' = [(i, Any)]).
Proof.
  intros Hl Hp. unfold eats, ext2_create. destruct (Z.gtb_spec (Z.of_nat (length name)) EXT2_NAME_LEN); [lia|].
  apply triple_fine. intros c [_ Hsb] _. destruct (find d name c) as [r w]. eapply triple_bind; [apply world_step| |by intros ? ? [? _]].
  intros [] L' [_ ->]. destruct r as [e|]; [|by apply triple_fail]. destruct (negb _); [by apply triple_fail|].
  apply triple_get. intros [r w2]. eapply triple_bind; [apply world_step| |by intros ? ? [? _]]. intros [] L' [_ ->].
  destruct r as [e2|ino]; [by apply triple_fail|]. destruct (i_sb (at_ c d)) as [sb|]; [|done].
  eapply triple_bind; [apply iget_step; cbn; lia| |by intros e2 L' (i & ? & _)]. intros i L' (j & [= <-] & ->).
  eapply triple_bind; [apply (triple_update _ _ _ _ _ _ (fun r L' => r = inr tt /\ L' = [(i, Any); (d, Any)]))| |by intros ? ? [? _]].
  { intros x. cbn. destruct (Hp 1 (i_body x)) as [-> ->]. done. } { done. } { done. }
  intros [] L' [_ ->]. apply triple_get. intros [z w3]. eapply triple_bind; [apply world_step| |by intros ? ? [? _]]. intros [] L' [_ ->].
  destruct (negb _).
  - eapply triple_bind with (Q := fun r L' => r = inr tt /\ L' = [(i, Any); (d, Any)]); [| |by intros ? ? [? _]].
    + intros R c2 I HR O Hs. assert (I2 : inv (mksys (set_world (free ino (world c2)) c2) ([(i, Any); (d, Any)].*1 ++ R))) by apply (step_inv _ _ I), step_world.
      assert (O2 : others nobody (set_world (free ino (world c2)) c2) R) by (destruct O; by constructor).
      pose proof (triple_update nobody 4 i Any [(d, Any)] (fun x => set_flags false (i_up2date x) (i_pipe x) x)
        (fun r L' => r = inr tt /\ L' = [(i, Any); (d, Any)])) as T.
      assert (G : gentle (fun x => set_flags false (i_up2date x) (i_pipe x) x)) by (intros x; done).
      specialize (T G (fun x => eq_refl) (conj eq_refl eq_refl) R _ I2 HR O2 Hs). unfold change in *. destruct T as (L' & HL & I3 & S3 & K3).
      exists L'. split; [exact HL|]. split; [exact I3|]. split; [exact S3|]. eapply keeps_trans; [|exact K3]. by constructor.
    + intros [] L' [_ ->]. eapply triple_bind; [apply iput_step| |by intros ? ? [? _]]. intros [] L' [_ ->]. by apply triple_fail.
  - eapply triple_bind; [apply triple_iput2| |by intros ? ? [? _]]. intros [] L' [_ ->]. by apply triple_ret.
Qed.

(** The law of [create], for every name. *)
Lemma ext2_create_made d name : (forall p b, s_isdir (set_links p b) = s_isdir b /\ s_islnk (set_links p b) = s_islnk b) ->
  triple nobody 4 [(d, Any)] (ext2_create find alloc add free set_links d name) (made d).
Proof.
  intros Hp. destruct (Z.leb_spec (Z.of_nat (length name)) EXT2_NAME_LEN) as [Hl|Hl].
  - eapply triple_conseq; [by apply ext2_create_eats|done|]. intros [e|i] L'; [by left|done].
  - unfold ext2_create. destruct (Z.gtb_spec (Z.of_nat (length name)) EXT2_NAME_LEN); [|lia]. apply triple_err. by right.
Qed.

(** a name that is too long for [ext2] leaves a reference behind: opening it
    with [O_CREAT] fails, the reference to the directory that was given up is still
    counted, and nobody has it any more. *)
Theorem long_name_leaks ctx rec lc flags dir name c R : inv (mksys c (dir :: R)) -> Z.of_nat (8 + length R) < 2 ^ 32 - 2 ->
  others (shared ctx) c R -> fine c dir -> s_isdir (i_body (at_ c dir)) = true ->
  Z.land flags O_CREAT <> 0 -> EXT2_NAME_LEN < Z.of_nat (length name) ->
  (forall b, s_isdir b = true -> create_op b = Some (ext2_create find alloc add free set_links)) ->
  (forall c i c', lookup ctx dir name c <> Done (inr i) c') ->
  match open_last ctx rec lc flags dir name c with
  | Done r c' => r = inl (- ENAMETOOLONG) /\ inv (mksys c' (dir :: R)) /\ fine c' dir
  | Sleeping c' => full c'
  | Dead | NoFuel => False
  end.
Proof.
  intros I HR O F Hdir Hfl Hlen Hop Hno.
  assert (T : triple (shared ctx) 8 [(dir, IsDir)] (open_last ctx rec lc flags dir name) (fun r L' => r = inl (- ENAMETOOLONG) /\ exists k, L' = [(dir, k)])).
  { unfold open_last. eapply triple_bind; [apply iref_dup_ok| |by intros ? ? [? _]]. intros [] L' [_ ->].
    eapply triple_catch with (Q := fun r L' => exists e, r = inl e /\ L' = [(dir, IsDir)]).
    - intros R' c' I' HR' O' Hs. pose proof (lookup_dir_ok ctx dir name R' c' I' HR' O' Hs) as L. pose proof (Hno c') as Hn.
      destruct (lookup ctx dir name c') as [[e|i] c''| | |]; [|by destruct (Hn i c'')|done..]. destruct L as (L1 & (k & -> & Hk) & I'' & Hs'' & K).
      exists [(dir, IsDir)]. split_and!; [by exists e|exact I''| |exact K]. intros j kj [[= -> ->]|Hj]%elem_of_cons; [|by apply not_elem_of_nil in Hj].
      destruct (Hs'' dir k) as [F' K']; [apply elem_of_cons; by left|]. split; [done|]. by eapply le_knows.
    - intros r L' (e & -> & ->). rewrite (proj2 (Z.eqb_neq _ _) Hfl). apply triple_body. intros b Hb. rewrite (Hop b Hb). unfold ext2_create.
      destruct (Z.gtb_spec (Z.of_nat (length name)) EXT2_NAME_LEN); [|lia].
      eapply triple_bind; [apply (triple_iref _ _ dir (best b) _ (fun r L' => r = inr tt /\ L' = [(dir, best b); (dir, best b)]));
        [apply elem_of_cons; by left|cbn; lia|done]| |by intros ? ? [? _]]. intros [] L' [_ ->].
      eapply triple_catch with (Q := fun r L' => r = inl (- ENAMETOOLONG) /\ L' = [(dir, best b); (dir, best b)]); [by apply triple_err|].
      intros r L' [-> ->]. eapply triple_bind; [apply iput_step| |by intros ? ? [? _]]. intros [] L' [_ ->]. apply triple_err. split; [done|by eexists]. }
  assert (Hs : sat c [(dir, IsDir)]) by (intros j k [[= -> ->]|Hj]%elem_of_cons; [done|by apply not_elem_of_nil in Hj]).
  specialize (T R c I HR O Hs). destruct (open_last ctx rec lc flags dir name c) as [r c'| | |]; try done.
  destruct T as (L' & (-> & k & ->) & I' & S' & _). split_and!; [done|exact I'|]. apply (S' dir k), elem_of_cons. by left.
Qed.

(** C39: [ext2] never invalidates an inode, so a file whose number is used again
    while the old inode is in the cache gets the old one, whatever has been written
    to the device for the new: with the kind and the contents it had. *)
Theorem ext2_create_finds_old c R dir name dev ino i w1 w2 : inv (mksys c (dir :: R)) -> Z.of_nat (8 + length R) < 2 ^ 32 - 2 ->
  Z.of_nat (length name) <= EXT2_NAME_LEN -> i_sb (at_ c dir) <> None -> i_dev (at_ c dir) = dev ->
  find dir name c = (inl (- ENOENT), w1) -> (forall c', alloc c' = (inr ino, w2)) -> (forall d n k c', (add d n k c').1 = 0) ->
  find_inode dev ino c = Some i -> i <> dir -> i_up2date (at_ c i) = true -> i_mount (at_ c i) = None ->
  exists c', ext2_create find alloc add free set_links dir name c = Done (inr i) c' /\ inv (mksys c' (i :: R)) /\
    i_body (at_ c' i) = set_links 1 (i_body (at_ c i)) /\ i_ino (at_ c' i) = ino.
Proof.
  intros I HR Hlen Hsb Hdev Hfind Halloc Hadd Hin Ni Hu Hm. unfold ext2_create. destruct (Z.gtb_spec (Z.of_nat (length name)) EXT2_NAME_LEN); [lia|].
  unfold bind, change, get. rewrite Hfind, Hdev, Z.eqb_refl. cbn [negb]. rewrite Halloc.
  destruct (i_sb (at_ c dir)) as [sb|]; [|done]. set (cw := set_world w2 (set_world w1 c)).
  assert (Iw : inv (mksys cw (dir :: R))) by (apply (step_inv (mksys (set_world w1 c) (dir :: R))); [apply (step_inv _ _ I), step_world|apply step_world]).
  pose proof (iget_lock_ok sb dev ino cw (i_ok _ Iw)) as G. assert (Hcw : find_inode dev ino cw = Some i) by exact Hin.
  destruct (iget_lock sb dev ino cw) as [[j c1]|] eqn:E.
  2:{ destruct G as [G _]; [|by rewrite Hcw in G]. intros x. rewrite (inv_cnt _ _ x Iw). pose proof (cnt_le x (dir :: R)) as Hle. cbn [length] in Hle. lia. }
  destruct G as [K G]. { intros x. rewrite (inv_cnt _ _ x Iw). pose proof (cnt_le x (dir :: R)) as Hle. cbn [length] in Hle. lia. }
  rewrite Hcw in G. destruct G as (<- & _ & _ & Hino & Hat). change (at_ cw i) with (at_ c i) in *.
  assert (Hfew : few (dir :: R)) by (unfold few; cbn [length]; lia).
  destruct (step_inv _ _ Iw (step_iget cw (dir :: R) sb dev ino i c1 Hfew E)) as [I1 _]. assert (Hii : i ∈ i :: dir :: R) by (apply elem_of_cons; by left).
  destruct (step_inv _ _ I1 (step_fill c1 _ i Hii)) as [I2 _]. pose proof (i_range _ I1 i Hii) as Hi1. cbn [cc] in Hi1.
  destruct (iget_fill_same i c1 Hi1) as [Fm Fu]. destruct (iget_fill_ok i c1 (i_ok _ I1) Hi1) as (_ & _ & F & _). destruct (F i) as (_ & _ & Fino & _).
  rewrite Hat in *. destruct (Fu Hu) as [Hu2 Hb2]. unfold m_iget, iget, iget'. rewrite E. set (c2 := iget_fill i c1) in *. rewrite Fm. cbn [i_mount set_count]. rewrite Hm.
  set (f := fun x : inode B => set_flags true (i_up2date x) (i_pipe x) (set_body (set_links 1 (i_body x)) x)).
  assert (Hi2 : (i < size c2)%nat) by apply (i_range _ I2 i Hii).
  pose proof (Hadd dir name ino (update i f c2)) as Ha. destruct (add dir name ino (update i f c2)) as [z w3]. cbn in Ha. subst z. rewrite Z.eqb_refl. cbn [negb].
  assert (I3 : inv (mksys (set_world w3 (update i f c2)) (dir :: i :: R))).
  { apply (inv_perm _ (i :: dir :: R)); [apply perm_swap|]. apply (step_inv (mksys (update i f c2) (i :: dir :: R))); [|apply step_world].
    apply (step_inv _ _ I2). by apply step_use. }
  destruct (iput_inv _ dir (i :: R) I3) as (c4 & E4 & I4 & _ & O4). unfold m_iput. rewrite E4. exists c4. split_and!; [done|exact I4| |].
  - rewrite O4 by done. change (at_ (set_world w3 (update i f c2)) i) with (at_ (update i f c2) i). rewrite at_update, decide_True by done. cbn. by rewrite Hb2.
  - rewrite O4 by done. change (at_ (set_world w3 (update i f c2)) i) with (at_ (update i f c2) i). rewrite at_update, decide_True by done. cbn. by rewrite Fino.
Qed.
End Create.

(** ** Resolving never breaks *)

Lemma triple_run {A} S N L (m : M A) Q R c : triple S N L m Q -> inv (mksys c (L.*1 ++ R)) -> Z.of_nat (N + length R) < 2 ^ 32 - 2 -> others S c R -> sat c L ->
  match m c with
  | Done r c' => exists L', Q r L' /\ inv (mksys c' (L'.*1 ++ R)) /\ others S c' R /\ sat c' L'
  | Sleeping c' => full c'
  | Dead | NoFuel => False
  end.
Proof.
  intros T I HR O Hs. specialize (T R c I HR O Hs). destruct (m c); try done. destruct T as (L' & HQ & I' & S' & K). exists L'. split_and!; [done..| |done].
  by eapply others_keeps.
Qed.

(** C3: resolving a path, with the links in it, from a descriptor or the working
    directory: no assertion fails, it ends, and it gives one reference to the inode
    it finds or, with an error, none; every other reference is as it was.  It waits
    only when every inode is held. *)
Theorem namei_keeps_references ctx c R dirfd name follow : inv (mksys c R) -> Z.of_nat (8 + length R) < 2 ^ 32 - 2 -> others (shared ctx) c R ->
  dirfd = AT_FDCWD \/ 0 <= dirfd ->
  match namei_at ctx dirfd name follow c with
  | Done (inr i) c' => inv (mksys c' (i :: R)) /\ others (shared ctx) c' R /\ fine c' i
  | Done (inl _) c' => inv (mksys c' R) /\ others (shared ctx) c' R
  | Sleeping c' => full c'
  | Dead | NoFuel => False
  end.
Proof.
  intros I HR O Hd. assert (Hs : sat c []) by (intros i k Hi; by apply not_elem_of_nil in Hi).
  pose proof (triple_run _ _ _ _ _ R c (namei_at_ok ctx dirfd name follow Hd) I HR O Hs) as T.
  destruct (namei_at ctx dirfd name follow c) as [[e|i] c'| | |]; try done.
  - by destruct T as (L' & -> & I' & O' & _).
  - destruct T as (L' & [k ->] & I' & O' & S'). split_and!; [done|done|]. apply (S' i k), elem_of_cons. by left.
Qed.

(** C4: opening a path, with the flags, the path and the links what they may be: no
    assertion fails, the targets of links are resolved at most seven deep, and it
    gives one reference to the inode it finds or makes or, with an error, none; but
    with O_CREAT and a name that is too long one reference to a directory may be
    left held.  Every other reference is as it was.  The semaphores of directories
    are left out, so nothing is said of how long it waits for them. *)
Theorem open_namei_keeps_references ctx c R path flags base : inv (mksys c ((base_asrt base).*1 ++ R)) -> Z.of_nat (8 + length R) < 2 ^ 32 - 2 ->
  others (shared ctx) c R -> sat c (base_asrt base) ->
  match open_namei ctx links 0 path flags base c with
  | Done (inr i) c' => inv (mksys c' (i :: R)) /\ others (shared ctx) c' R /\ fine c' i
  | Done (inl e) c' => others (shared ctx) c' R /\
      (inv (mksys c' R) \/ Z.land flags O_CREAT <> 0 /\ e = - ENAMETOOLONG /\ exists d, inv (mksys c' (d :: R)) /\ s_isdir (i_body (at_ c' d)) = true)
  | Sleeping c' => full c'
  | Dead | NoFuel => False
  end.
Proof.
  intros I HR O Hs.
  assert (T0 : triple (shared ctx) 8 (base_asrt base) (open_namei ctx links 0 path flags base) (taken flags)) by (apply open_namei_ok; [lia|by vm_compute|by vm_compute; lia]).
  pose proof (triple_run _ _ _ _ _ R c T0 I HR O Hs) as T.
  destruct (open_namei ctx links 0 path flags base c) as [[e|i] c'| | |]; try done.
  - destruct T as (L' & [->|(Hf & -> & d & ->)] & I' & O' & S'); (split; [done|]); [by left|right].
    split_and!; [done|done|]. exists d. split; [done|]. apply (S' d IsDir), elem_of_cons. by left.
  - destruct T as (L' & -> & I' & O' & S'). split_and!; [done|done|]. apply (S' i (okind flags)), elem_of_cons. by left.
Qed.

(** renaming and linking resolve two paths and give back every reference they
    take, on each of their ways out. *)
Theorem rename_link_keep_references ctx c R rename_op link_op fd1 fd2 old new name follow : inv (mksys c R) -> Z.of_nat (9 + length R) < 2 ^ 32 - 2 ->
  others (shared ctx) c R -> fd1 = AT_FDCWD \/ 0 <= fd1 -> fd2 = AT_FDCWD \/ 0 <= fd2 ->
  (forall b f d1 n1 d2 n2, rename_op b = Some f -> triple nobody 6 [(d1, Any); (d2, Any)] (f d1 n1 d2 n2) gone) ->
  (forall b f i d n, link_op b = Some f -> triple nobody 6 [(i, Any); (d, Any)] (f i d n) (fun _ L' => L' = [(i, Any)])) ->
  match do_renameat ctx rename_op fd1 old fd2 new c with
  | Done _ c' => inv (mksys c' R) /\ others (shared ctx) c' R
  | Sleeping c' => full c'
  | Dead | NoFuel => False
  end /\
  match do_linkat ctx link_op fd1 name fd2 new follow c with
  | Done _ c' => inv (mksys c' R) /\ others (shared ctx) c' R
  | Sleeping c' => full c'
  | Dead | NoFuel => False
  end.
Proof.
  intros I HR O H1 H2 Hr Hl. assert (Hs : sat c []) by (intros i k Hi; by apply not_elem_of_nil in Hi). split.
  - pose proof (triple_run _ _ _ _ _ R c (do_renameat_ok ctx rename_op fd1 old fd2 new Hr H1 H2) I HR O Hs) as T.
    destruct (do_renameat ctx rename_op fd1 old fd2 new c); try done. by destruct T as (L' & -> & I' & O' & _).
  - pose proof (triple_run _ _ _ _ _ R c (do_linkat_ok ctx link_op fd1 name fd2 new follow Hl H1 H2) I HR O Hs) as T.
    destruct (do_linkat ctx link_op fd1 name fd2 new follow c); try done. by destruct T as (L' & -> & I' & O' & _).
Qed.
(** ** The names of a path *)

(** One name after the other, with the links followed. *)
Definition walk_name (ctx : context) (rec : list Z -> Z -> nat -> M nat) (lc : Z) (base : nat) (name : list Z) : M nat :=
  bind (m_iref base) (fun _ =>
  catch (lookup ctx base name) (fun r => match r with inl e => fail base e | inr inode => follow_link rec lc base inode 0 end)).
Fixpoint walk (ctx : context) (rec : list Z -> Z -> nat -> M nat) (lc : Z) (base : nat) (names : list (list Z)) : M nat :=
  match names with [] => ret base | name :: names => bind (walk_name ctx rec lc base name) (fun base => walk ctx rec lc base names) end.
Definition join (names : list (list Z)) (last : list Z) : list Z := concat (map (fun n => n ++ [slash]) names) ++ last.
Definition plain (name : list Z) : Prop := Forall (fun c => c <> slash) name.

Lemma bind_catch {A C D} (m : M A) (k : Z + A -> M C) (f : C -> M D) c : bind (catch m k) f c = catch m (fun r => bind (k r) f) c.
Proof. unfold bind, catch. by destruct (m c). Qed.

Lemma bind_bind {A C D} (m : M A) (k : A -> M C) (f : C -> M D) c : bind (bind m k) f c = bind m (fun a => bind (k a) f) c.
Proof. unfold bind. destruct (m c) as [[e|a] c'| | |]; done. Qed.

Lemma bind_ext {A C} (m : M A) (k k' : A -> M C) c : (forall a c, k a c = k' a c) -> bind m k c = bind m k' c.
Proof. intros H. unfold bind. destruct (m c) as [[e|a] c'| | |]; done. Qed.

Lemma catch_ext {A C} (m : M A) (k k' : Z + A -> M C) c : (forall r c, k r c = k' r c) -> catch m k c = catch m k' c.
Proof. intros H. unfold catch. destruct (m c) as [r c'| | |]; done. Qed.

Lemma bind_fail {A C} i e (f : A -> M C) c : bind (fail i e) f c = fail i e c.
Proof. unfold fail. rewrite bind_bind. apply bind_ext. done. Qed.

Lemma dir_loop_name ctx rec lc name : plain name -> forall this p base c,
  dir_loop ctx rec lc this (name ++ slash :: p) base c = bind (walk_name ctx rec lc base (this ++ name)) (fun base => dir_loop ctx rec lc [] p base) c.
Proof.
  induction name as [|x name IH]; intros Hp this p base c.
  - cbn [app dir_loop]. rewrite Z.eqb_refl, app_nil_r. unfold walk_name. rewrite bind_bind. apply bind_ext. intros [] c1.
    rewrite bind_catch. apply catch_ext. intros [e|i] c2; [by rewrite bind_fail|done].
  - apply Forall_cons in Hp as [Hx Hp]. cbn [app dir_loop]. rewrite (proj2 (Z.eqb_neq _ _) Hx), IH by done. by rewrite <- app_assoc.
Qed.

Lemma dir_loop_last ctx rec lc name : plain name -> forall this base c, dir_loop ctx rec lc this name base c = Done (inr (this ++ name, base)) c.
Proof.
  induction name as [|x name IH]; intros Hp this base c; cbn [dir_loop]; [by rewrite app_nil_r|].
  apply Forall_cons in Hp as [Hx Hp]. rewrite (proj2 (Z.eqb_neq _ _) Hx), IH by done. by rewrite <- app_assoc.
Qed.

(** C37: the loop over the characters of a path is the walk over the names between
    its slashes, empty names among them: what is left is the last name and the
    directory the others lead to. *)
Theorem path_is_walked ctx rec lc names last base c : Forall plain names -> plain last ->
  dir_loop ctx rec lc [] (join names last) base c = bind (walk ctx rec lc base names) (fun base => ret (last, base)) c.
Proof.
  intros Hn Hl. revert base c. induction Hn as [|name names Hp _ IH]; intros base c.
  - unfold join. cbn [map concat app walk]. by rewrite dir_loop_last.
  - unfold join. cbn [map concat walk]. rewrite <- !app_assoc. cbn [app]. rewrite dir_loop_name by done. rewrite bind_bind. cbn [app].
    apply bind_ext. intros b c'. apply IH.
Qed.
End Namei.
Arguments Done {B W A}. Arguments Sleeping {B W A}. Arguments Dead {B W A}. Arguments NoFuel {B W A}.

(** ** Names from the user *)

Lemma get_string_spec s : forall i c rest, Forall (fun x => x <> 0) s ->
  get_string i c (s ++ 0 :: rest) = if (S (length s) <? i)%nat then Some (c :: s) else None.
Proof.
  induction s as [|x s IH]; intros [|[|i]] c rest Hs; try done. apply Forall_cons in Hs as [Hx Hs].
  change (get_string (S (S i)) c ((x :: s) ++ 0 :: rest)) with (if x =? 0 then Some [c] else r ← get_string (S i) x (s ++ 0 :: rest); Some (c :: r)).
  cbn [length]. rewrite (proj2 (Z.eqb_neq _ _) Hx), IH by done. destruct (Nat.ltb_spec (S (length s)) (S i)), (Nat.ltb_spec (S (S (length s))) (S (S i))); try lia; done.
Qed.

(** a name from the user is taken whole when it and its end are in the memory
    that can be read and it is shorter than a page; else the error says which. *)
Theorem getname_exact limit s rest : 0 <= limit -> Forall (fun x => x <> 0) s ->
  getname limit true (s ++ 0 :: rest) =
    if decide (s = []) then inl (- ENOENT) else
    if decide (Z.of_nat (length s) < (if limit =? 0 then PAGE_SIZE else limit)) then inr s else
    inl (if limit =? 0 then - ENAMETOOLONG else - EFAULT).
Proof.
  intros Hl Hs. unfold getname. destruct (Z.ltb_spec limit 0); [lia|]. destruct s as [|c s]; [by destruct (limit =? 0)|].
  apply Forall_cons in Hs as [Hc Hs]. cbn [app]. destruct (Z.eqb_spec limit 0) as [->|Nl]; rewrite (proj2 (Z.eqb_neq _ _) Hc); cbn [negb]; rewrite get_string_spec by done.
  - rewrite (decide_False (P := c :: s = [])) by done. unfold PAGE_SIZE. cbn [length].
    destruct (Nat.ltb_spec (S (length s)) (Z.to_nat 4096)), (decide (Z.of_nat (S (length s)) < 4096)); try lia; done.
  - rewrite (decide_False (P := c :: s = [])) by done. cbn [length].
    destruct (Nat.ltb_spec (S (length s)) (Z.to_nat limit)), (decide (Z.of_nat (S (length s)) < limit)); try lia; done.
Qed.

Lemma getname_exact_witness : getname 0 true ([47; 97] ++ 0 :: []) = inr [47; 97].
Proof. rewrite (getname_exact 0 [47; 97] []); [reflexivity|lia|]. repeat constructor; lia. Defined.
(** ** A small tree *)

(** On the small file system of the cache: the root is number 2 and holds the
    directory [a], number 3, with the file [f], number 5, and the link [l], number
    4, to [a/f].  The body is 1 for a directory and 2 for a link. *)
Definition tree_world (ino : Z) : Z := if (ino =? 2) || (ino =? 3) then 1 else if ino =? 4 then 2 else 7.
Definition tree_find (dir : nat) (name : list Z) (c : cache Z (Z -> Z)) : (Z + Z) * (Z -> Z) :=
  let ino := i_ino (at_ c dir) in
  (if bool_decide (name = dotdot) then inr 2 else
   if (ino =? 2) && bool_decide (name = [97]) then inr 3 else
   if (ino =? 2) && bool_decide (name = [108]) then inr 4 else
   if (ino =? 3) && bool_decide (name = [102]) then inr 5 else inl (- ENOENT), world c).
(** A number is free from 6 on; the device gets a file for it. *)
Definition tree_alloc (c : cache Z (Z -> Z)) : (Z + Z) * (Z -> Z) := (inr 6, fun x => if x =? 6 then 7 else world c x).
Definition tree_add (dir : nat) (name : list Z) (ino : Z) (c : cache Z (Z -> Z)) : Z * (Z -> Z) := (0, world c).
Definition tree_create : nat -> list Z -> M nat := ext2_create tree_find tree_alloc tree_add (fun _ w => w) (fun _ b => b).

Definition tree_fat_create : nat -> list Z -> M nat := fat_create (fun _ => false) (fun dir name c => tree_alloc c).

Definition tree_of (create : nat -> list Z -> M nat) : @DirOps Z (Z -> Z) := {|
  s_islnk b := b =? 2;
  s_special b := false;
  lookup_op b := if b =? 1 then Some (ext2_lookup tree_find) else None;
  create_op b := if b =? 1 then Some create else None;
  follow_op b := if b =? 2 then Some (fun _ => ret [97; 47; 102]) else None;
  truncate_op b := None;
|}.

Lemma tree_laws_of create : (forall d name, triple (Dir := tree_of create) nobody 4 [(d, Any)] (create d name) (made d)) ->
  @DirLaws Z (Z -> Z) numbers (tree_of create).
Proof.
  intros Hcr. constructor.
  - intros b Hb%Z.eqb_eq. by subst.
  - intros b Hb. cbn in *. by rewrite Hb.
  - intros b f. cbn. by destruct (b =? 1).
  - intros b f d name. cbn [lookup_op tree_of]. destruct (b =? 1); [|done]. intros [= <-]. apply ext2_lookup_eats.
  - intros b f i. cbn [follow_op tree_of]. destruct (b =? 2); [|done]. intros [= <-]. by apply triple_ret.
  - done.
  - intros b f d name. cbn [create_op tree_of]. destruct (b =? 1); [|done]. intros [= <-]. apply Hcr.
Qed.

Lemma tree_create_made d name : triple (Dir := tree_of tree_create) nobody 4 [(d, Any)] (tree_create d name) (made d).
Proof. by apply ext2_create_made. Qed.

(** Files are made as on FAT. *)
#[export] Instance tree : @DirOps Z (Z -> Z) := tree_of tree_fat_create.
#[export] Instance tree_laws : @DirLaws Z (Z -> Z) numbers tree := tree_laws_of tree_fat_create (fat_create_made _ _).

(** The root in the cache, as the working directory and as the root. *)
Definition tree0 : cache Z (Z -> Z) := init 8 tree_world.
Definition tree1 : cache Z (Z -> Z) := match iget_lock 0 9 2 tree0 with Some (_, c) => iget_fill 0%nat c | None => tree0 end.
Definition tree_cache : cache Z (Z -> Z) := iref 0%nat tree1.
Definition tree_ctx : context := mkcontext 0 0 (fun _ => None) (fun sb => if (sb =? 0)%nat then Some 0%nat else None) (fun _ => None).

Lemma tree1_reach : reach tree_world (mksys tree1 [0%nat]).
Proof.
  assert (E : exists c, iget_lock 0 9 2 tree0 = Some (0%nat, c)) by (eexists; by vm_compute). destruct E as [c E].
  unfold tree1. rewrite E. eapply reach_step; [eapply reach_step; [apply (reach_init _ 8)|by apply (step_iget tree0 [] 0 9 2 0 c)]|]. apply step_fill, elem_of_cons. by left.
Qed.

Lemma tree_inv : inv (mksys tree_cache [0%nat; 0%nat]).
Proof. apply (cache_reach_inv tree_world). eapply reach_step; [exact tree1_reach|]. apply step_iref; [done|]. apply elem_of_cons. by left. Qed.

Lemma tree_fine : fine tree_cache 0%nat /\ i_body (at_ tree_cache 0%nat) = 1.
Proof. split; [split; by vm_compute|by vm_compute]. Qed.

(** What holds of every inode of a cache. *)
Lemma all_inodes (c : cache Z (Z -> Z)) (P : inode Z -> bool) : forallb P (all c) = true -> P zero = true -> forall i, P (at_ c i) = true.
Proof.
  intros Ha Hz i. unfold at_. destruct (all c !! i) as [x|] eqn:E; [|done]. rewrite forallb_forall in Ha. apply Ha, list_elem_of_In. by eapply list_elem_of_lookup_2.
Qed.

Lemma tree_others R : 0%nat ∈ R -> others (shared tree_ctx) tree_cache R.
Proof.
  intros Hin. destruct tree_fine as [F Hb]. constructor.
  - intros i m Hm. pose proof (all_inodes tree_cache (fun x => bool_decide (i_mount x = None)) ltac:(by vm_compute) ltac:(done) i) as Hn.
    cbn beta in Hn. apply bool_decide_eq_true in Hn. congruence.
  - assert (H0 : 0%nat ∈ R /\ fine tree_cache 0 /\ knows IsDir (i_body (at_ tree_cache 0%nat))) by (split; [exact Hin|split; [exact F|cbn; by rewrite Hb]]).
    intros d k Hd. destruct Hd as [| |sb d Hs|sb d Hs|n i Hn]; [exact H0|exact H0|done| |done].
    cbn in Hs. destruct (sb =? 0)%nat; [|done]. by injection Hs as <-.
  - intros i Hh. pose proof (all_inodes tree_cache (fun x => negb (i_hashed x) || bool_decide (i_sb x <> None)) ltac:(by vm_compute) ltac:(done) i) as Hn.
    cbn beta in Hn. rewrite Hh in Hn. cbn in Hn. by apply bool_decide_eq_true in Hn.
Qed.

(** The link leads to the file. *)
Lemma tree_link : match namei_at tree_ctx AT_FDCWD (inr [108]) true tree_cache with Done (inr i) c => i_ino (at_ c i) = 5 | _ => False end.
Proof. by vm_compute. Qed.

Lemma namei_keeps_references_witness : exists i c, namei_at tree_ctx AT_FDCWD (inr [108]) true tree_cache = Done (inr i) c /\
  i_ino (at_ c i) = 5 /\ inv (mksys c [i; 0%nat; 0%nat]).
Proof.
  pose proof (namei_keeps_references tree_ctx tree_cache [0%nat; 0%nat] AT_FDCWD (inr [108]) true tree_inv eq_refl
    (tree_others [0%nat; 0%nat] (proj2 (elem_of_cons _ _ _) (or_introl eq_refl))) (or_introl eq_refl)) as T.
  pose proof tree_link as L. destruct (namei_at tree_ctx AT_FDCWD (inr [108]) true tree_cache) as [[e|i] c| | |]; try contradiction.
  exists i, c. exact (conj eq_refl (conj L (proj1 T))).
Defined.

(** A new file by way of [a/../n] with [O_CREAT]. *)
Definition new_path : list Z := [97; 47; 46; 46; 47; 110].
Lemma tree_creates : match open_namei tree_ctx links 0 new_path O_CREAT None tree_cache with Done (inr i) c => i_ino (at_ c i) = 6 | _ => False end.
Proof. by vm_compute. Qed.

Lemma tree_others2 : others (shared tree_ctx) tree_cache [0%nat; 0%nat].
Proof. apply tree_others, elem_of_cons. by left. Qed.

Lemma open_namei_keeps_references_witness : exists i c, open_namei tree_ctx links 0 new_path O_CREAT None tree_cache = Done (inr i) c /\
  i_ino (at_ c i) = 6 /\ inv (mksys c [i; 0%nat; 0%nat]).
Proof.
  assert (Hs : sat tree_cache (base_asrt None)) by (intros i k Hi; by apply not_elem_of_nil in Hi).
  pose proof (open_namei_keeps_references tree_ctx tree_cache [0%nat; 0%nat] new_path O_CREAT None tree_inv eq_refl tree_others2 Hs) as T.
  pose proof tree_creates as L. destruct (open_namei tree_ctx links 0 new_path O_CREAT None tree_cache) as [[e|i] c| | |]; try contradiction.
  exists i, c. exact (conj eq_refl (conj L (proj1 T))).
Defined.

(** An operation that gives both directories back, and one that gives back one. *)
Definition tree_rename (b : Z) : option (nat -> list Z -> nat -> list Z -> M unit) := Some (fun d1 n1 d2 n2 => bind (m_iput d1) (fun _ => m_iput d2)).
Definition tree_linkop (b : Z) : option (nat -> nat -> list Z -> M unit) := Some (fun i d n => m_iput d).

Lemma tree_rename_eats b f d1 n1 d2 n2 : tree_rename b = Some f -> triple nobody 6 [(d1, Any); (d2, Any)] (f d1 n1 d2 n2) gone.
Proof. intros [= <-]. eapply triple_bind; [apply iput_step| |by intros ? ? [? _]]. intros [] L' [_ ->]. by apply triple_iput. Qed.
Lemma tree_linkop_eats b f i d n : tree_linkop b = Some f -> triple nobody 6 [(i, Any); (d, Any)] (f i d n) (fun _ L' => L' = [(i, Any)]).
Proof. intros [= <-]. eapply triple_conseq; [apply triple_iput2|done|]. by intros r L' [_ ->]. Qed.

Lemma tree_renames : match do_renameat tree_ctx tree_rename AT_FDCWD [97; 47; 102] AT_FDCWD [103] tree_cache with Done (inr _) _ => True | _ => False end /\
  match do_linkat tree_ctx tree_linkop AT_FDCWD (inr [108]) AT_FDCWD [103] true tree_cache with Done (inr _) _ => True | _ => False end.
Proof. split; by vm_compute. Qed.

Lemma rename_link_keep_references_witness :
  (exists c, do_renameat tree_ctx tree_rename AT_FDCWD [97; 47; 102] AT_FDCWD [103] tree_cache = Done (inr tt) c /\ inv (mksys c [0%nat; 0%nat])) /\
  exists c, do_linkat tree_ctx tree_linkop AT_FDCWD (inr [108]) AT_FDCWD [103] true tree_cache = Done (inr tt) c /\ inv (mksys c [0%nat; 0%nat]).
Proof.
  destruct (rename_link_keep_references tree_ctx tree_cache [0%nat; 0%nat] tree_rename tree_linkop AT_FDCWD AT_FDCWD [97; 47; 102] [103] (inr [108]) true
    tree_inv eq_refl tree_others2 (or_introl eq_refl) (or_introl eq_refl) tree_rename_eats tree_linkop_eats) as [T1 T2].
  destruct tree_renames as [L1 L2]. split.
  - clear T2 L2. destruct (do_renameat tree_ctx tree_rename AT_FDCWD [97; 47; 102] AT_FDCWD [103] tree_cache) as [[e|[]] c| | |]; try contradiction.
    exists c. exact (conj eq_refl (proj1 T1)).
  - clear T1 L1. destruct (do_linkat tree_ctx tree_linkop AT_FDCWD (inr [108]) AT_FDCWD [103] true tree_cache) as [[e|[]] c| | |]; try contradiction.
    exists c. exact (conj eq_refl (proj1 T2)).
Defined.

Lemma path_is_walked_witness : dir_loop tree_ctx (fun _ _ => ret) 0 [] (join [[97]; []] [102]) 0%nat tree_cache =
  bind (walk tree_ctx (fun _ _ => ret) 0 0%nat [[97]; []]) (fun base => ret ([102], base)) tree_cache.
Proof. apply path_is_walked; repeat constructor; done. Defined.

(** [ext2]: a name of 256 characters. *)
Definition long_name : list Z := repeat 120 256.
Definition ext2_tree : @DirOps Z (Z -> Z) := tree_of tree_create.

Lemma long_ne l : length l <> 256%nat -> bool_decide (long_name = l) = false.
Proof. intros Hl. apply bool_decide_eq_false_2. intros <-. by apply Hl. Qed.

Lemma fail_fails {A} i e c (a : A) c' : @fail Z (Z -> Z) numbers A i e c <> Done (inr a) c'.
Proof. unfold fail, bind, m_iput, err. by destruct (iput i c). Qed.

Lemma long_not_found c i c' : @lookup _ _ _ ext2_tree tree_ctx 0%nat long_name c <> Done (inr i) c'.
Proof.
  unfold lookup. rewrite long_ne by done. change (length long_name =? 0)%nat with false. unfold body, get. cbn [lookup_op ext2_tree tree_of].
  destruct (i_body (at_ c 0%nat) =? 1); [|apply fail_fails].
  unfold ext2_lookup, body, get. destruct (negb _); [apply fail_fails|].
  rewrite long_ne by done. assert (Hf : fst (tree_find 0 long_name c) = inl (- ENOENT)).
  { unfold tree_find. cbn [fst]. rewrite !long_ne by done. by rewrite !andb_false_r. }
  destruct (tree_find 0 long_name c) as [r w]. cbn in Hf. subst r. apply fail_fails.
Qed.

Lemma long_fails : match @open_last _ _ _ ext2_tree tree_ctx (fun _ _ => ret) 0 O_CREAT 0%nat long_name tree_cache with Done _ _ => True | _ => False end.
Proof. by vm_compute. Qed.

(** Being held does not depend on how files are made. *)
Lemma tree_others3 : @others _ _ _ ext2_tree (shared tree_ctx) tree_cache [0%nat].
Proof.
  assert (O : others (shared tree_ctx) tree_cache [0%nat]) by (apply tree_others, elem_of_cons; by left). destruct O as [O1 O2 O3].
  constructor; [exact O1| |exact O3].
  intros d k Hd. destruct Hd as [| |sb d Hs|sb d Hs|n i Hn]; [exact (O2 _ IsDir (sh_pwd _))|exact (O2 _ IsDir (sh_root _))|done| |done].
  exact (O2 _ IsDir (sh_mounted _ sb d Hs)).
Qed.

Lemma long_name_leaks_witness : exists c, @open_last _ _ _ ext2_tree tree_ctx (fun _ _ => ret) 0 O_CREAT 0%nat long_name tree_cache = Done (inl (- ENAMETOOLONG)) c /\
  inv (mksys c [0%nat; 0%nat]).
Proof.
  assert (Hl : EXT2_NAME_LEN < Z.of_nat (length long_name)) by (by vm_compute).
  assert (Hd : s_isdir (i_body (at_ tree_cache 0%nat)) = true) by (by rewrite (proj2 tree_fine)).
  assert (Hop : forall b : Z, s_isdir b = true -> @create_op _ _ ext2_tree b = Some tree_create) by (intros b Hb; cbn in *; by rewrite Hb).
  assert (Hf : Z.land O_CREAT O_CREAT <> 0) by (by vm_compute).
  pose proof (@long_name_leaks _ _ _ ext2_tree (tree_laws_of tree_create tree_create_made) tree_find tree_alloc tree_add (fun _ w => w) (fun _ b => b) tree_ctx (fun _ _ => ret) 0
    O_CREAT 0%nat long_name tree_cache [0%nat] tree_inv eq_refl tree_others3 (proj1 tree_fine) Hd Hf Hl Hop long_not_found) as T.
  pose proof long_fails as L.
  destruct (@open_last _ _ _ ext2_tree tree_ctx (fun _ _ => ret) 0 O_CREAT 0%nat long_name tree_cache) as [r c| | |]; try contradiction.
  destruct T as (E & I & _). subst r. exists c. exact (conj eq_refl I).
Defined.

(** The number 6 is in the cache as a directory, and is used again. *)
Definition old_cache : cache Z (Z -> Z) :=
  match iget_lock 0 9 6 (set_world (fun x => if x =? 6 then 1 else tree_world x) tree1) with
  | Some (i, c) => let c := iget_fill i c in match iput i c with Some c => c | None => c end
  | None => tree1
  end.

Lemma old_inv : inv (mksys old_cache [0%nat]).
Proof.
  assert (I1 : inv (mksys tree1 [0%nat])) by (apply (cache_reach_inv tree_world), tree1_reach).
  set (w := fun x => if x =? 6 then 1 else tree_world x). assert (I2 : inv (mksys (set_world w tree1) [0%nat])) by (apply (step_inv _ _ I1), step_world).
  unfold old_cache. fold w. destruct (iget_lock 0 9 6 (set_world w tree1)) as [[i c]|] eqn:E; [|done].
  destruct (step_inv _ _ I2 (step_iget (set_world w tree1) [0%nat] 0 9 6 i c eq_refl E)) as [I3 _].
  destruct (step_inv _ _ I3 (step_fill c _ i (proj2 (elem_of_cons _ _ _) (or_introl eq_refl)))) as [I4 _].
  destruct (iput_inv _ i [0%nat] I4) as (c' & E' & I5 & _). by rewrite E'.
Qed.

Lemma old_facts : find_inode 9 6 old_cache = Some 1%nat /\ i_up2date (at_ old_cache 1%nat) = true /\ i_mount (at_ old_cache 1%nat) = None /\
  i_body (at_ old_cache 1%nat) = 1 /\ i_sb (at_ old_cache 0%nat) <> None /\ i_dev (at_ old_cache 0%nat) = 9 /\
  fst (tree_find 0 [110] old_cache) = inl (- ENOENT).
Proof. split_and!; by vm_compute. Qed.

(** The device has a file under the number, the inode is still the directory. *)
Lemma ext2_create_finds_old_witness : exists c,
  ext2_create tree_find (fun _ => (inr 6, tree_world)) tree_add (fun _ w => w) (fun _ b => b) 0%nat [110] old_cache = Done (inr 1%nat) c /\
  s_isdir (i_body (at_ c 1%nat)) = true /\ s_isdir (tree_world 6) = false.
Proof.
  destruct old_facts as (F1 & F2 & F3 & F4 & F5 & F6 & F7).
  assert (Hl : Z.of_nat (length [110]) <= EXT2_NAME_LEN) by (by vm_compute).
  assert (Hfd : tree_find 0 [110] old_cache = (inl (- ENOENT), world old_cache)) by (rewrite <- F7; reflexivity).
  assert (Hadd : forall d n k c', (tree_add d n k c').1 = 0) by reflexivity.
  assert (H01 : 1%nat <> 0%nat) by discriminate.
  destruct (ext2_create_finds_old tree_find (fun _ => (inr 6, tree_world)) tree_add (fun _ w => w) (fun _ b => b) old_cache [] 0%nat [110] 9 6 1%nat (world old_cache) tree_world
    old_inv eq_refl Hl F5 F6 Hfd (fun _ => eq_refl) Hadd F1 H01 F2 F3) as (c & E & _ & Hb & _).
  exists c. split; [exact E|]. split; [|reflexivity]. rewrite Hb, F4. reflexivity.
Defined.
End Namei.
