(* ===== verification/Files.v ===== *)
(** * Open files and descriptors ([fs/file.c], [fs/fcntl.c], parts of [fs/open.c] and [fs/read_write.c])

    The table of open files, the descriptor tables of the processes, and the
    references to inodes they hold in the cache.  What a driver does when a file is
    opened and released is a class. *)
From S2P Require Import Prelude Inode Namei.
Import Inode.

Module Files.

Definition NR_FILE : nat := 1024.
Definition NR_OPEN : nat := 256.
Definition EBADF : Z := 9.
Definition EACCES : Z := 13.
Definition ENOENT : Z := 2.
Definition ENOTDIR : Z := 20.
Definition EINVAL : Z := 22.
Definition ENFILE : Z := 23.
Definition EMFILE : Z := 24.
Definition O_ACCMODE : Z := 3.
Definition O_CREAT : Z := 0x40.
Definition O_EXCL : Z := 0x80.
Definition O_NOCTTY : Z := 0x100.
Definition O_TRUNC : Z := 0x200.
Definition O_APPEND : Z := 0x400.
Definition O_NONBLOCK : Z := 0x800.
Definition O_CLOEXEC : Z := 0x80000.
Definition F_DUPFD : Z := 0.
Definition F_GETFD : Z := 1.
Definition F_SETFD : Z := 2.
Definition F_GETFL : Z := 3.
Definition F_SETFL : Z := 4.

(** [f_op] is the driver; [private_data] is its own. *)
Record file := mkfile { f_pos : Z; f_mode : Z; f_flags : Z; f_count : Z; f_inode : option nat; f_op : option nat; private_data : Z }.

Definition set_fcount (n : Z) (f : file) : file := mkfile (f_pos f) (f_mode f) (f_flags f) n (f_inode f) (f_op f) (private_data f).
Definition set_pos (p : Z) (f : file) : file := mkfile p (f_mode f) (f_flags f) (f_count f) (f_inode f) (f_op f) (private_data f).
Definition set_fflags (x : Z) (f : file) : file := mkfile (f_pos f) (f_mode f) x (f_count f) (f_inode f) (f_op f) (private_data f).
Definition set_finode (i : option nat) (f : file) : file := mkfile (f_pos f) (f_mode f) (f_flags f) (f_count f) i (f_op f) (private_data f).

(** The drivers: [D] is what they keep.  Opening may change the driver and the
    private data of the file; [fifo_dup] counts one more end of a FIFO. *)
Class FileOps (B D : Type) := {
  inode_fop : B -> option nat;
  fop_open : nat -> nat -> file -> D -> Z * option nat * Z * D;
  fop_release : nat -> nat -> file -> D -> D;
  is_fifo : B -> bool;
  fifo_dup : nat -> Z -> D -> D;
  i_size : B -> Z;
}.

(** The descriptors of a process, and which are closed by [exec]. *)
Record table := mktable { fd : list (option nat); close_on_exec : list bool }.

Section Files.
Context {B W D : Type} {Ops : SuperOps B W} {Dir : Namei.DirOps (B := B) (W := W)} {Drv : FileOps B D}.

Record files := mkfiles { all_files : list file; tabs : list table; ic : cache B W; drv : D }.

Definition set_all (l : list file) (s : files) : files := mkfiles l (tabs s) (ic s) (drv s).
Definition set_ic (c : cache B W) (s : files) : files := mkfiles (all_files s) (tabs s) c (drv s).
Definition set_drv (d : D) (s : files) : files := mkfiles (all_files s) (tabs s) (ic s) d.
Definition file_update (x : nat) (f : file -> file) (s : files) : files := set_all (alter f x (all_files s)) s.
Definition tab_update (p : nat) (f : table -> table) (s : files) : files := mkfiles (all_files s) (alter f p (tabs s)) (ic s) (drv s).

Definition no_file : file := mkfile 0 0 0 0 None None 0.
Definition file_at (s : files) (x : nat) : file := default no_file (all_files s !! x).
Definition no_table : table := mktable [] [].
Definition tab_at (s : files) (p : nat) : table := default no_table (tabs s !! p).
(** [current->files->fd[n]]; [None] also behind the end, which every caller checks. *)
Definition fd_at (s : files) (p n : nat) : option nat := mjoin (fd (tab_at s p) !! n).

Definition set_fd (n : nat) (x : option nat) (t : table) : table := mktable (<[n := x]> (fd t)) (close_on_exec t).
Definition FD_MARK (n : nat) (b : bool) (t : table) : table := mktable (fd t) (<[n := b]> (close_on_exec t)).
Definition FD_ISSET (n : nat) (t : table) : bool := default false (close_on_exec t !! n).

(** ** Files *)

Fixpoint free_file (k : nat) (l : list file) : option nat :=
  match l with [] => None | f :: l => if f_count f =? 0 then Some k else free_file (S k) l end.

Definition fresh (f : file) : file := mkfile 0 (f_mode f) (f_flags f) 1 None None 0.

Definition get_empty_file (s : files) : option (nat * files) :=
  x ← free_file 0 (all_files s); Some (x, file_update x fresh s).

Definition get_two_empty_files (s : files) : option (nat * nat * files) :=
  x ← free_file 0 (all_files s);
  y ← free_file (S x) (List.skipn (S x) (all_files s));
  Some (x, y, file_update y fresh (file_update x fresh s)).

(** [None]: an assertion fails. *)
Definition release_file (x : nat) (release : bool) (s : files) : option files :=
  let f := file_at s x in
  if negb (f_count f >? 0) then None else
  if f_count f >? 1 then Some (file_update x (set_fcount (f_count f - 1)) s) else
  let i := f_inode f in
  let s := match (if release then f_op f else None), i with
           | Some o, Some i => set_drv (fop_release o i f (drv s)) s
           | _, _ => s
           end in
  let s := file_update x (fun f => set_finode None (set_fcount (f_count f - 1) f)) s in
  match i with
  | None => Some s
  | Some i => c ← iput i (ic s); Some (set_ic c s)
  end.
Definition put_file (x : nat) (s : files) : option files := release_file x false s.

Definition fref (x : nat) (s : files) : files := file_update x (fun f => set_fcount (u16 (f_count f + 1)) f) s.

(** The open call of a driver on a file. *)
Definition run_open (o i x : nat) (s : files) : Z * files :=
  let '(error, op, priv, d) := fop_open o i (file_at s x) (drv s) in
  (error, set_drv d (file_update x (fun f => mkfile (f_pos f) (f_mode f) (f_flags f) (f_count f) (f_inode f) op priv) s)).

(** A descriptor of a child; [Some (None, _)] is the NULL that it gets when there
    is no file left or the driver refuses. *)
Definition copy_fd (old : nat) (s : files) : option (option nat * files) :=
  match get_empty_file s with
  | None => Some (None, s)
  | Some (x, s) =>
    let s := file_update x (fun _ => set_fcount 1 (file_at s old)) s in
    let f := file_at s x in
    let s := match f_inode f with
             | None => s
             | Some i =>
               let s := set_ic (iref i (ic s)) s in
               if is_fifo (i_body (at_ (ic s) i)) then set_drv (fifo_dup i (f_mode f) (drv s)) s else s
             end in
    match f_op f, f_inode f with
    | Some o, Some i =>
      let '(error, s) := run_open o i x s in
      if error =? 0 then Some (Some x, s) else s ← put_file x s; Some (None, s)
    | _, _ => Some (Some x, s)
    end
  end.

Fixpoint copy_fds (l : list (option nat)) (s : files) : option (list (option nat) * files) :=
  match l with
  | [] => Some ([], s)
  | None :: l => r ← copy_fds l s; Some (None :: r.1, r.2)
  | Some x :: l => a ← copy_fd x s; r ← copy_fds l a.2; Some (a.1 :: r.1, r.2)
  end.

(** The table of the new process [q]. *)
Definition copy_files (p q : nat) (s : files) : option files :=
  let t := tab_at s p in
  r ← copy_fds (fd t) s;
  Some (tab_update q (fun _ => mktable r.1 (close_on_exec t)) r.2).

(** ** Calls of a process [p]; a descriptor is an unsigned number *)

Definition sys_close (p : nat) (n : Z) (s : files) : option (Z * files) :=
  if n >=? Z.of_nat NR_OPEN then Some (- EBADF, s) else
  let n := Z.to_nat n in
  let s := tab_update p (FD_MARK n false) s in
  match fd_at s p n with
  | None => Some (- EBADF, s)
  | Some x => s ← release_file x true (tab_update p (set_fd n None) s); Some (0, s)
  end.

(** [for (; arg < NR_OPEN && fd[arg]; arg++)] *)
Fixpoint next_free (fuel : nat) (arg : nat) (s : files) (p : nat) : nat :=
  match fuel with O => arg | S fuel => match fd_at s p arg with None => arg | Some _ => next_free fuel (S arg) s p end end.

Definition dupfd (p : nat) (n arg : Z) (s : files) : Z * files :=
  if n >=? Z.of_nat NR_OPEN then (- EBADF, s) else
  match fd_at s p (Z.to_nat n) with
  | None => (- EBADF, s)
  | Some x =>
    if arg >=? Z.of_nat NR_OPEN then (- EINVAL, s) else
    let a := next_free (NR_OPEN - Z.to_nat arg) (Z.to_nat arg) s p in
    if (NR_OPEN <=? a)%nat then (- EMFILE, s) else
    (Z.of_nat a, tab_update p (set_fd a (Some x)) (fref x (tab_update p (FD_MARK a false) s)))
  end.

Definition sys_dup (p : nat) (n : Z) (s : files) : Z * files := dupfd p n 0 s.

Definition sys_dup2 (p : nat) (old new : Z) (s : files) : option (Z * files) :=
  if (old >=? Z.of_nat NR_OPEN) || bool_decide (fd_at s p (Z.to_nat old) = None) then Some (- EBADF, s) else
  if new =? old then Some (new, s) else
  if new >=? Z.of_nat NR_OPEN then Some (- EBADF, s) else
  r ← sys_close p new s; Some (dupfd p old new r.2).

Definition sys_fcntl (p : nat) (n cmd arg : Z) (s : files) : Z * files :=
  if n >=? Z.of_nat NR_OPEN then (- EBADF, s) else
  match fd_at s p (Z.to_nat n) with
  | None => (- EBADF, s)
  | Some x =>
    if cmd =? F_DUPFD then dupfd p n arg s else
    if cmd =? F_GETFD then (if FD_ISSET (Z.to_nat n) (tab_at s p) then 1 else 0, s) else
    if cmd =? F_SETFD then (0, tab_update p (FD_MARK (Z.to_nat n) (negb (Z.land arg 1 =? 0))) s) else
    if cmd =? F_GETFL then (f_flags (file_at s x), s) else
    if cmd =? F_SETFL then
      (0, file_update x (fun f => set_fflags (Z.lor (Z.land (f_flags f) (Z.lnot (Z.lor O_APPEND O_NONBLOCK))) (Z.land arg (Z.lor O_APPEND O_NONBLOCK))) f) s)
    else (- EINVAL, s)
  end.

Fixpoint close_from (n : nat) (fuel : nat) (p : nat) (only : files -> nat -> bool) (s : files) : option files :=
  match fuel with
  | O => Some s
  | S fuel => s ← (if only s n then r ← sys_close p (Z.of_nat n) s; Some r.2 else Some s); close_from (S n) fuel p only s
  end.
(** What [exit] does with the descriptors, and [exec]. *)
Definition exit_files (p : nat) (s : files) : option files := close_from 0 NR_OPEN p (fun s n => bool_decide (fd_at s p n <> None)) s.
Definition exec_close (p : nat) (s : files) : option files :=
  s ← close_from 0 NR_OPEN p (fun s n => FD_ISSET n (tab_at s p)) s;
  Some (tab_update p (fun t => mktable (fd t) (replicate (length (close_on_exec t)) false)) s).

(** Opening a path; [ctx] is what the process and the mounts hold.  [None] is also
    that every inode is held, when the caller waits. *)
Definition do_openat (ctx : Namei.context) (p : nat) (dirfd : Z) (filename : list Z) (flags : Z) (s : files) : option (Z * files) :=
  let n := next_free NR_OPEN 0 s p in
  if (NR_OPEN <=? n)%nat then Some (- EMFILE, s) else
  let s := tab_update p (FD_MARK n (negb (Z.land flags O_CLOEXEC =? 0))) s in
  match get_empty_file s with
  | None => Some (- ENFILE, s)
  | Some (x, s) =>
    let mode := Z.land (flags + 1) O_ACCMODE in
    let s := file_update x (fun f => mkfile (f_pos f) mode (u16 flags) (f_count f) (f_inode f) (f_op f) (private_data f)) s in
    let namei_flags := if negb (mode =? 0) then flags + 1 else flags in
    let namei_flags := if negb (Z.land namei_flags (Z.lor O_TRUNC O_CREAT) =? 0) then Z.lor namei_flags 2 else namei_flags in
    match Namei.bind (Namei.get_base_inode ctx dirfd false) (Namei.open_namei ctx Namei.links 0 filename namei_flags) (ic s) with
    | Namei.Done (inl e) c => s ← put_file x (set_ic c s); Some (e, s)
    | Namei.Done (inr i) c =>
      let op := inode_fop (i_body (at_ c i)) in
      let s := file_update x (fun f => mkfile 0 (f_mode f) (f_flags f) (f_count f) (Some i) op (private_data f)) (set_ic c s) in
      let '(error, s) := match op with None => (0, s) | Some o => run_open o i x s end in
      if negb (error =? 0) then s ← put_file x s; Some (error, s) else
      let s := tab_update p (set_fd n (Some x)) s in
      Some (Z.of_nat n, file_update x (fun f => set_fflags (Z.land (f_flags f) (Z.lnot (Z.lor (Z.lor O_CREAT O_EXCL) (Z.lor O_NOCTTY O_TRUNC)))) f) s)
    | _ => None
    end
  end.

(** The default of [sys_lseek]. *)
Definition sys_lseek (p : nat) (n offset origin : Z) (s : files) : Z * files :=
  if n >=? Z.of_nat NR_OPEN then (- EBADF, s) else
  match fd_at s p (Z.to_nat n) with
  | None => (- EBADF, s)
  | Some x =>
    match f_inode (file_at s x) with
    | None => (- EBADF, s)
    | Some i =>
      if origin >? 2 then (- EINVAL, s) else
      let size := i_size (i_body (at_ (ic s) i)) in
      let tmp := s32 (if origin =? 0 then offset else if origin =? 1 then f_pos (file_at s x) + offset else size + offset) in
      if (tmp <? 0) || (tmp >? size) then (- EINVAL, s) else (tmp, file_update x (set_pos tmp) s)
    end
  end.

(** [sys_truncate] on the inode of a path, with a reference; [truncate] is the call
    of the file system, if it has one. *)
Definition sys_truncate (truncate : option (cache B W -> Z * cache B W)) (i : nat) (s : files) : option (Z * files) :=
  if s_isdir (i_body (at_ (ic s) i)) then Some (- EACCES, s) else
  match truncate with
  | None => Some (- EINVAL, s)
  | Some f => let '(error, c) := f (ic s) in c ← iput i c; Some (error, set_ic c s)
  end.

(** ** The invariant *)

Definition opt (o : option nat) : list nat := match o with Some x => [x] | None => [] end.
Definition uses_of (t : table) : list nat := concat (map opt (fd t)).
(** The file of every descriptor, and the inode of every file. *)
Definition uses (s : files) : list nat := concat (map uses_of (tabs s)).
Definition inodes (s : files) : list nat := concat (map (fun f => opt (f_inode f)) (all_files s)).

(** [X] are the files that somebody has in hand, [U] the inodes. *)
Record finv (s : files) (X U : list nat) : Prop := {
  fi_count : forall x, (x < length (all_files s))%nat -> f_count (file_at s x) = cnt x (uses s ++ X);
  fi_range : forall x, x ∈ uses s ++ X -> (x < length (all_files s))%nat;
  fi_free : forall x, f_count (file_at s x) = 0 -> f_inode (file_at s x) = None;
  fi_inodes : inv (mksys (ic s) (inodes s ++ U));
  fi_few : Z.of_nat (length (all_files s) + length U) < 2 ^ 32 - 16;
  fi_tabs : forall t, t ∈ tabs s -> length (fd t) = NR_OPEN;
  fi_one : forall p q n m x, fd_at s p n = Some x -> fd_at s q m = Some x -> p = q;
}.

Lemma concat_alter {A} (h : A -> list nat) g l x a : l !! x = Some a ->
  h a ++ concat (map h (alter g x l)) ≡ₚ h (g a) ++ concat (map h l).
Proof.
  revert x. induction l as [|b l IH]; intros x Hx; [done|]. destruct x as [|x]; cbn in *.
  - injection Hx as ->. rewrite !app_assoc. apply Permutation_app_tail, Permutation_app_comm.
  - rewrite !app_assoc, (Permutation_app_comm (h a)), (Permutation_app_comm (h (g a))), <- !app_assoc. by apply Permutation_app_head, IH.
Qed.

Lemma cnt_perm x l l' : l ≡ₚ l' -> cnt x l = cnt x l'.
Proof. intros P. unfold cnt. f_equal. apply Permutation_length. by rewrite P. Qed.

Lemma cnt_nil x : cnt x [] = 0.
Proof. done. Qed.

Lemma cnt_opt x o : cnt x (opt o) = if decide (o = Some x) then 1 else 0.
Proof.
  destruct o as [y|]; cbn [opt]; [|by rewrite decide_False]. rewrite cnt_cons, cnt_nil.
  destruct (decide (x = y)) as [->|N]; [by rewrite decide_True|]. rewrite decide_False; [done|congruence].
Qed.

Lemma file_update_at x g s y : (x < length (all_files s))%nat ->
  file_at (file_update x g s) y = if decide (y = x) then g (file_at s x) else file_at s y.
Proof.
  intros Hx. unfold file_at, file_update. cbn [all_files set_all]. destruct (decide (y = x)) as [->|N].
  - rewrite list_lookup_alter_eq. destruct (lookup_lt_is_Some_2 _ _ Hx) as [f ->]. done.
  - by rewrite list_lookup_alter_ne.
Qed.

Lemma file_lookup x s : (x < length (all_files s))%nat -> all_files s !! x = Some (file_at s x).
Proof. intros Hx. unfold file_at. by destruct (lookup_lt_is_Some_2 _ _ Hx) as [f ->]. Qed.

(** A file is changed, and with it what is in hand and the inode it holds. *)
Lemma finv_file s x g X X' U U' c : finv s X U -> (x < length (all_files s))%nat ->
  (forall y, y <> x -> cnt y X' = cnt y X) -> (forall y, y ∈ X' -> y = x \/ y ∈ uses s ++ X) ->
  f_count (g (file_at s x)) = cnt x (uses s ++ X') -> (f_count (g (file_at s x)) = 0 -> f_inode (g (file_at s x)) = None) ->
  (forall R, inv (mksys (ic s) (opt (f_inode (file_at s x)) ++ R ++ U)) -> Z.of_nat (length R + length U) < 2 ^ 32 - 3 ->
     inv (mksys c (opt (f_inode (g (file_at s x))) ++ R ++ U'))) ->
  (length U' <= length U)%nat ->
  finv (set_ic c (file_update x g s)) X' U'.
Proof.
  intros [F1 F2 F3 F4 F5 F6 F7] Hx HX HR Hc Hf Hi HU. assert (Hl : length (all_files (file_update x g s)) = length (all_files s)) by apply length_alter.
  assert (Hat : forall y, file_at (set_ic c (file_update x g s)) y = if decide (y = x) then g (file_at s x) else file_at s y) by (intros y; by apply file_update_at).
  constructor.
  - intros y Hy. change (length (all_files (set_ic c (file_update x g s)))) with (length (all_files (file_update x g s))) in Hy. rewrite Hl in Hy.
    rewrite Hat. change (uses (set_ic c (file_update x g s))) with (uses s). destruct (decide (y = x)) as [->|N]; [done|].
    rewrite F1, !cnt_app, HX by done. done.
  - intros y Hy. change (length (all_files (set_ic c (file_update x g s)))) with (length (all_files (file_update x g s))). rewrite Hl.
    change (uses (set_ic c (file_update x g s))) with (uses s) in Hy. apply elem_of_app in Hy as [Hy|Hy]; [apply F2, elem_of_app; by left|].
    destruct (HR y Hy) as [->|Hy']; [done|by apply F2].
  - intros y. rewrite Hat. destruct (decide (y = x)) as [->|]; [done|apply F3].
  - change (inv (mksys c (inodes (file_update x g s) ++ U'))).
    pose proof (concat_alter (fun f => opt (f_inode f)) g (all_files s) x _ (file_lookup x s Hx)) as P.
    (* split the inode of [x] off *)
    set (h := fun f => opt (f_inode f)) in *.
    assert (Hsplit : exists R, concat (map h (all_files s)) ≡ₚ h (file_at s x) ++ R /\ concat (map h (alter g x (all_files s))) ≡ₚ h (g (file_at s x)) ++ R).
    { clear -Hx. unfold file_at. revert x Hx. generalize (all_files s) as l. induction l as [|b l IH]; intros x Hx; [cbn in Hx; lia|].
      destruct x as [|x]; [by exists (concat (map h l))|]. cbn in Hx. destruct (IH x ltac:(lia)) as (R & P1 & P2). exists (h b ++ R). cbn. split.
      - rewrite P1. rewrite !app_assoc. apply Permutation_app_tail, Permutation_app_comm.
      - rewrite P2. rewrite !app_assoc. apply Permutation_app_tail, Permutation_app_comm. }
    destruct Hsplit as (R & P1 & P2). change (inodes (file_update x g s)) with (concat (map h (alter g x (all_files s)))).
    apply (inv_perm _ (h (g (file_at s x)) ++ R ++ U')); [by rewrite P2, app_assoc|]. apply Hi.
    + apply (inv_perm _ (inodes s ++ U)); [|done]. change (inodes s) with (concat (map h (all_files s))). by rewrite P1, app_assoc.
    + assert (L : (length (concat (map h (all_files s))) <= length (all_files s))%nat).
      { clear. induction (all_files s) as [|b l IH]; [done|]. cbn. rewrite length_app. unfold h at 1. destruct (f_inode b); cbn; lia. }
      rewrite P1, length_app in L. lia.
  - change (length (all_files (set_ic c (file_update x g s)))) with (length (all_files (file_update x g s))). rewrite Hl. lia.
  - exact F6.
  - exact F7.
Qed.

(** The usual case: the inode stays. *)
Lemma finv_count s x g X X' U : finv s X U -> (x < length (all_files s))%nat ->
  (forall y, y <> x -> cnt y X' = cnt y X) -> (forall y, y ∈ X' -> y = x \/ y ∈ uses s ++ X) ->
  f_count (g (file_at s x)) = cnt x (uses s ++ X') -> f_inode (g (file_at s x)) = f_inode (file_at s x) ->
  (f_count (g (file_at s x)) = 0 -> f_inode (file_at s x) = None) -> finv (file_update x g s) X' U.
Proof.
  intros F Hx HX HR Hc Hi Hz. assert (E : file_update x g s = set_ic (ic s) (file_update x g s)) by (by destruct s). rewrite E.
  apply (finv_file s x g X X' U U); try done; rewrite ?Hi; done.
Qed.

(** ** Files that are taken, shared and given back *)

Lemma u16_small x : 0 <= x < 2 ^ 16 -> u16 x = x.
Proof. intros H. unfold u16. by apply Z.mod_small. Qed.

Lemma free_file_spec k l : match free_file k l with
  | Some x => (k <= x)%nat /\ exists f, l !! (x - k)%nat = Some f /\ f_count f = 0
  | None => Forall (fun f => f_count f <> 0) l
  end.
Proof.
  revert k. induction l as [|f l IH]; intros k; cbn; [done|]. destruct (Z.eqb_spec (f_count f) 0).
  - split; [lia|]. exists f. by rewrite Nat.sub_diag.
  - specialize (IH (S k)). destruct (free_file (S k) l) as [x|]; [|by constructor].
    destruct IH as (Hk & g & Hg & Hz). split; [lia|]. exists g. by replace (x - k)%nat with (S (x - S k)) by lia.
Qed.

Lemma unused_cnt s X U x : finv s X U -> (x < length (all_files s))%nat -> f_count (file_at s x) = 0 -> cnt x (uses s) = 0 /\ cnt x X = 0.
Proof.
  intros F Hx Hz. pose proof (fi_count _ _ _ F x Hx) as E. rewrite Hz, cnt_app in E. pose proof (cnt_le x (uses s)). pose proof (cnt_le x X). lia.
Qed.

Lemma get_empty_file_ok s X U : finv s X U ->
  match get_empty_file s with
  | Some (x, s') => (x < length (all_files s))%nat /\ f_count (file_at s x) = 0 /\ s' = file_update x fresh s /\ finv s' (x :: X) U
  | None => Forall (fun f => f_count f <> 0) (all_files s)
  end.
Proof.
  intros F. unfold get_empty_file. pose proof (free_file_spec 0 (all_files s)) as Sp. destruct (free_file 0 (all_files s)) as [x|]; [|done].
  destruct Sp as (_ & f & Hf & Hz). rewrite Nat.sub_0_r in Hf. cbn [option_bind mbind]. pose proof (lookup_lt_Some _ _ _ Hf) as Hx.
  assert (Ef : file_at s x = f) by (unfold file_at; by rewrite Hf). rewrite <- Ef in Hz. destruct (unused_cnt s X U x F Hx Hz) as [Z1 Z2].
  split_and!; [done|done|done|]. apply (finv_count s x fresh X (x :: X)); [done|done| | | | |].
  - intros y N. rewrite cnt_cons, decide_False by done. lia.
  - intros y Hy. apply elem_of_cons in Hy as [->|Hy]; [by left|right; apply elem_of_app; by right].
  - cbn. rewrite cnt_app, cnt_cons, decide_True by done. lia.
  - cbn. symmetry. by apply (fi_free _ _ _ F).
  - done.
Qed.

Lemma fref_ok s X U x : finv s X U -> x ∈ uses s ++ X -> cnt x (uses s ++ X) < 2 ^ 16 - 1 -> finv (fref x s) (x :: X) U.
Proof.
  intros F Hin Hs. pose proof (fi_range _ _ _ F x Hin) as Hx. pose proof (fi_count _ _ _ F x Hx) as Hc. pose proof (cnt_le x (uses s ++ X)).
  unfold fref. apply (finv_count s x _ X (x :: X)); [done|done| | | |done|].
  - intros y N. rewrite cnt_cons, decide_False by done. lia.
  - intros y Hy. apply elem_of_cons in Hy as [->|Hy]; [by left|right; apply elem_of_app; by right].
  - cbn. rewrite Hc, u16_small by lia. rewrite !cnt_app, cnt_cons, decide_True by done. lia.
  - cbn. rewrite Hc, u16_small by lia. lia.
Qed.

Lemma finv_drv s X U d : finv s X U -> finv (set_drv d s) X U.
Proof. by intros []. Qed.

(** A reference that is in hand is given back; the last one gives the inode back. *)
Lemma release_file_ok s X U x b : finv s (x :: X) U ->
  exists s', release_file x b s = Some s' /\ finv s' X U /\ tabs s' = tabs s /\
    (forall y, y <> x -> file_at s' y = file_at s y) /\ f_count (file_at s' x) = f_count (file_at s x) - 1 /\
    length (all_files s') = length (all_files s).
Proof.
  intros F. assert (Hin : x ∈ uses s ++ x :: X) by (apply elem_of_app; right; apply elem_of_cons; by left).
  pose proof (fi_range _ _ _ F x Hin) as Hx. pose proof (fi_count _ _ _ F x Hx) as Hc. rewrite cnt_app, cnt_cons, decide_True in Hc by done.
  pose proof (cnt_le x (uses s)). pose proof (cnt_le x X).
  assert (HX : forall y, y <> x -> cnt y X = cnt y (x :: X)) by (intros y N; rewrite cnt_cons, decide_False by done; lia).
  assert (HR : forall y, y ∈ X -> y = x \/ y ∈ uses s ++ x :: X) by (intros y Hy; right; apply elem_of_app; right; apply elem_of_cons; by right).
  unfold release_file. destruct (Z.gtb_spec (f_count (file_at s x)) 0); [|lia]. cbn [negb].
  destruct (Z.gtb_spec (f_count (file_at s x)) 1) as [G|G].
  - eexists. split; [done|]. split_and!; [|done|intros y N; by rewrite file_update_at, decide_False|rewrite file_update_at, decide_True by done; done|apply length_alter].
    apply (finv_count s x _ (x :: X) X); [done|done|done|done| |done|]; cbn; rewrite ?cnt_app; lia.
  - set (s1 := match (if b then f_op (file_at s x) else None) with Some o => _ | None => s end).
    assert (Hs1 : all_files s1 = all_files s /\ tabs s1 = tabs s /\ ic s1 = ic s /\ finv s1 (x :: X) U).
    { subst s1. destruct (if b then f_op (file_at s x) else None); [|done]. destruct (f_inode (file_at s x)); [|done]. split_and!; [done..|]. by apply finv_drv. }
    destruct Hs1 as (Ha & Ht & Hi & F1). assert (Hx1 : (x < length (all_files s1))%nat) by (by rewrite Ha).
    assert (Hat : forall y, file_at s1 y = file_at s y) by (intros y; unfold file_at; by rewrite Ha).
    set (g := fun f => set_finode None (set_fcount (f_count f - 1) f)).
    assert (Us : uses s1 = uses s) by (unfold uses; by rewrite Ht).
    assert (Hg : f_count (g (file_at s1 x)) = cnt x (uses s1 ++ X)) by (cbn; rewrite Hat, Us, cnt_app; lia).
    destruct (f_inode (file_at s x)) as [i|] eqn:Ei.
    + assert (Hput : exists c, iput i (ic s1) = Some c).
      { pose proof (fi_inodes _ _ _ F1) as I. assert (Hn : i ∈ inodes s1 ++ U).
        { apply elem_of_app. left. unfold inodes. rewrite Ha. apply list_elem_of_In, in_concat. exists [i]. split; [|by left].
          apply in_map_iff. exists (file_at s x). rewrite Ei. split; [done|]. apply list_elem_of_In, list_elem_of_lookup. exists x. by apply file_lookup. }
        destruct (iput_ok i _ (i_ok _ I) (i_range _ I i Hn)) as (c & E & _); [|by exists c].
        pose proof (inv_cnt _ _ i I) as Ec. cbn [cc]. rewrite Ec. by apply cnt_pos. }
      destruct Hput as [c Ec]. change (ic (file_update x g s1)) with (ic s1). rewrite Ec. cbn [option_bind mbind]. eexists. split; [done|].
      assert (Hfa : forall y, file_at (set_ic c (file_update x g s1)) y = if decide (y = x) then g (file_at s1 x) else file_at s1 y).
      { intros y. by apply file_update_at. }
      split_and!; [|done|intros y N; by rewrite Hfa, decide_False, Hat|rewrite Hfa, decide_True by done; cbn; by rewrite Hat|change (length (alter g x (all_files s1)) = length (all_files s)); by rewrite length_alter, Ha].
      apply (finv_file s1 x g (x :: X) X U U); [done|done|done|by rewrite Us|done|done| |done].
      intros R I _. rewrite Hat, Ei in I. cbn [opt app g f_inode set_finode]. destruct (iput_inv _ i _ I) as (c' & E' & I' & _).
      rewrite Ec in E'. injection E' as <-. exact I'.
    + eexists. split; [done|].
      split_and!; [|done|intros y N; by rewrite file_update_at, decide_False, Hat|rewrite file_update_at, decide_True by done; cbn; by rewrite Hat|change (length (alter g x (all_files s1)) = length (all_files s)); by rewrite length_alter, Ha].
      apply (finv_count s1 x g (x :: X) X); [done|done|done|by rewrite Us|done|cbn; by rewrite Hat, Ei|intros _; by rewrite Hat, Ei].
Qed.

(** ** Descriptors *)

Lemma tab_update_at p g s q : (p < length (tabs s))%nat -> tab_at (tab_update p g s) q = if decide (q = p) then g (tab_at s p) else tab_at s q.
Proof.
  intros Hp. unfold tab_at, tab_update. cbn [tabs]. destruct (decide (q = p)) as [->|N].
  - rewrite list_lookup_alter_eq. by destruct (lookup_lt_is_Some_2 _ _ Hp) as [t ->].
  - by rewrite list_lookup_alter_ne.
Qed.

Lemma fd_at_lt s p n x : fd_at s p n = Some x -> (p < length (tabs s))%nat /\ fd (tab_at s p) !! n = Some (Some x).
Proof.
  unfold fd_at. intros H. destruct (fd (tab_at s p) !! n) as [o|] eqn:E; [|done]. cbn in H. subst o. split; [|done].
  unfold tab_at in E. destruct (tabs s !! p) as [t|] eqn:Et; [by eapply lookup_lt_Some|done].
Qed.

Lemma uses_in s p n x : fd_at s p n = Some x -> x ∈ uses s.
Proof.
  intros H. apply fd_at_lt in H as [Hp Hn]. unfold uses. apply list_elem_of_In, in_concat. exists (uses_of (tab_at s p)). split.
  - apply in_map. apply list_elem_of_In, list_elem_of_lookup. exists p. unfold tab_at. by destruct (lookup_lt_is_Some_2 _ _ Hp) as [t ->].
  - unfold uses_of. apply in_concat. exists [x]. split; [|by left]. apply in_map_iff. exists (Some x). split; [done|].
    apply list_elem_of_In, list_elem_of_lookup. by exists n.
Qed.

Lemma tab_len s X U p : finv s X U -> (p < length (tabs s))%nat -> length (fd (tab_at s p)) = NR_OPEN.
Proof. intros F Hp. apply (fi_tabs _ _ _ F). unfold tab_at. destruct (lookup_lt_is_Some_2 _ _ Hp) as [t E]. rewrite E. by eapply list_elem_of_lookup_2. Qed.

Lemma fd_set_at s X U p n o q m : finv s X U -> (p < length (tabs s))%nat -> (n < NR_OPEN)%nat ->
  fd_at (tab_update p (set_fd n o) s) q m = if decide (q = p /\ m = n) then o else fd_at s q m.
Proof.
  intros F Hp Hn. unfold fd_at. rewrite tab_update_at by done. destruct (decide (q = p)) as [->|Nq].
  - cbn [fd set_fd]. destruct (decide (m = n)) as [->|Nm].
    + rewrite decide_True by done. rewrite list_lookup_insert_eq by (by rewrite (tab_len s X U)). by destruct o.
    + rewrite decide_False by naive_solver. by rewrite list_lookup_insert_ne.
  - by rewrite decide_False by naive_solver.
Qed.

Lemma uses_set_fd s p n o : (p < length (tabs s))%nat -> (n < length (fd (tab_at s p)))%nat ->
  opt (fd_at s p n) ++ uses (tab_update p (set_fd n o) s) ≡ₚ opt o ++ uses s.
Proof.
  intros Hp Hn. unfold uses, tab_update. cbn [tabs]. destruct (lookup_lt_is_Some_2 _ _ Hp) as [t Et].
  pose proof (concat_alter uses_of (set_fd n o) (tabs s) p t Et) as P. assert (Ett : tab_at s p = t) by (unfold tab_at; by rewrite Et).
  assert (P2 : opt (fd_at s p n) ++ uses_of (set_fd n o t) ≡ₚ opt o ++ uses_of t).
  { unfold fd_at. rewrite Ett in *. destruct (lookup_lt_is_Some_2 _ _ Hn) as [b Eb]. rewrite Eb. cbn [mjoin option_join].
    pose proof (concat_alter opt (fun _ => o) (fd t) n b Eb) as P3. unfold uses_of. cbn [fd set_fd].
    replace (<[n:=o]> (fd t)) with (alter (fun _ => o) n (fd t)); [by destruct b|].
    clear -Eb. revert n Eb. induction (fd t) as [|a l IH]; intros [|n] Eb; cbn in *; [done..|]. by rewrite IH. }
  apply (Permutation_app_inv_l (uses_of t)). rewrite (Permutation_app_comm (uses_of t)), <- app_assoc, (Permutation_app_comm _ (uses_of t)), P, app_assoc, P2.
  rewrite (Permutation_app_comm (opt o)), <- !app_assoc. done.
Qed.

Lemma uses_set_fd' s X U p n o : finv s X U -> (p < length (tabs s))%nat -> (n < NR_OPEN)%nat ->
  opt (fd_at s p n) ++ uses (tab_update p (set_fd n o) s) ≡ₚ opt o ++ uses s.
Proof. intros F Hp Hn. apply uses_set_fd; [done|]. by rewrite (tab_len s X U). Qed.

(** A descriptor changes, and with it what is in hand. *)
Lemma finv_tab s X X' U p n o : finv s X U -> (p < length (tabs s))%nat -> (n < NR_OPEN)%nat ->
  opt o ++ X' ≡ₚ opt (fd_at s p n) ++ X ->
  (forall x q m, o = Some x -> fd_at s q m = Some x -> q = p) -> finv (tab_update p (set_fd n o) s) X' U.
Proof.
  intros F Hp Hn HX Ho. pose proof (uses_set_fd' s X U p n o F Hp Hn) as P.
  assert (PP : uses (tab_update p (set_fd n o) s) ++ X' ≡ₚ uses s ++ X).
  { apply (Permutation_app_inv_l (opt (fd_at s p n))). rewrite app_assoc, P. rewrite (Permutation_app_comm (opt o)), <- app_assoc, HX, !app_assoc.
    by apply Permutation_app_tail, Permutation_app_comm. }
  assert (Hat : forall q m, fd_at (tab_update p (set_fd n o) s) q m = if decide (q = p /\ m = n) then o else fd_at s q m) by (intros; by apply (fd_set_at s X U)).
  constructor.
  - intros x Hx. change (f_count (file_at s x) = cnt x (uses (tab_update p (set_fd n o) s) ++ X')). rewrite (cnt_perm _ _ _ PP). by apply (fi_count _ _ _ F).
  - intros x Hx. rewrite PP in Hx. by apply (fi_range _ _ _ F).
  - apply (fi_free _ _ _ F).
  - apply (fi_inodes _ _ _ F).
  - apply (fi_few _ _ _ F).
  - intros t Ht. unfold tab_update in Ht. cbn [tabs] in Ht. apply list_elem_of_lookup in Ht as [q Hq]. destruct (decide (q = p)) as [->|N].
    + rewrite list_lookup_alter_eq in Hq. destruct (tabs s !! p) as [t'|] eqn:Et; [|done]. injection Hq as <-. cbn [fd set_fd]. rewrite length_insert.
      apply (fi_tabs _ _ _ F). by eapply list_elem_of_lookup_2.
    + rewrite list_lookup_alter_ne in Hq by done. apply (fi_tabs _ _ _ F). by eapply list_elem_of_lookup_2.
  - intros a b i j x Ha Hb. rewrite Hat in Ha, Hb. destruct (decide (a = p /\ i = n)) as [[-> ->]|Na], (decide (b = p /\ j = n)) as [[-> ->]|Nb].
    + done.
    + symmetry. by apply (Ho x b j).
    + by apply (Ho x a i).
    + by apply (fi_one _ _ _ F a b i j x).
Qed.

(** What does not change the counts of the files. *)
Lemma finv_ext s s' X U : finv s X U -> all_files s' = all_files s -> (forall p n, fd_at s' p n = fd_at s p n) -> uses s' = uses s -> ic s' = ic s ->
  (forall t, t ∈ tabs s' -> length (fd t) = NR_OPEN) -> finv s' X U.
Proof.
  intros [F1 F2 F3 F4 F5 F6 F7] Ha Hf Hu Hi Ht. assert (Hat : forall x, file_at s' x = file_at s x) by (intros x; unfold file_at; by rewrite Ha).
  assert (Hn : inodes s' = inodes s) by (unfold inodes; by rewrite Ha).
  constructor; rewrite ?Ha, ?Hu, ?Hi, ?Hn; try done.
  - intros x. rewrite Hat. apply F1.
  - intros x. rewrite Hat. apply F3.
  - intros p q n m x. rewrite !Hf. apply F7.
Qed.

Lemma tabs_same_fd g s p : (forall t, fd (g t) = fd t) -> (forall q n, fd_at (tab_update p g s) q n = fd_at s q n) /\ uses (tab_update p g s) = uses s /\
  forall t, t ∈ tabs (tab_update p g s) -> exists t', t' ∈ tabs s /\ fd t = fd t'.
Proof.
  intros Hg. split_and!.
  - intros q n. unfold fd_at, tab_at, tab_update. cbn [tabs]. destruct (decide (q = p)) as [->|N].
    + rewrite list_lookup_alter_eq. destruct (tabs s !! p) as [t|]; [|done]. cbn. by rewrite Hg.
    + by rewrite list_lookup_alter_ne.
  - unfold uses, tab_update. cbn [tabs]. f_equal. clear -Hg. revert p. induction (tabs s) as [|t l IH]; intros [|p]; cbn; [done|done| |by rewrite IH].
    unfold uses_of. by rewrite Hg.
  - intros t Ht. unfold tab_update in Ht. cbn [tabs] in Ht. apply list_elem_of_lookup in Ht as [q Hq]. destruct (decide (q = p)) as [->|N].
    + rewrite list_lookup_alter_eq in Hq. destruct (tabs s !! p) as [t'|] eqn:E; [|done]. injection Hq as <-. exists t'. split; [by eapply list_elem_of_lookup_2|apply Hg].
    + rewrite list_lookup_alter_ne in Hq by done. exists t. split; [by eapply list_elem_of_lookup_2|done].
Qed.

Lemma finv_mark s X U p g : finv s X U -> (forall t, fd (g t) = fd t) -> finv (tab_update p g s) X U.
Proof.
  intros F Hg. destruct (tabs_same_fd g s p Hg) as (Hf & Hu & Ht). apply (finv_ext s); try done.
  intros t Hin. destruct (Ht t Hin) as (t' & Hin' & ->). by apply (fi_tabs _ _ _ F).
Qed.

Lemma mark_fd_at s p n b q m : fd_at (tab_update p (FD_MARK n b) s) q m = fd_at s q m.
Proof. by apply tabs_same_fd. Qed.

Lemma fd_small s X U p n x : finv s X U -> fd_at s p n = Some x -> (p < length (tabs s))%nat /\ (n < NR_OPEN)%nat.
Proof.
  intros F H. apply fd_at_lt in H as [Hp Hn]. split; [done|]. rewrite <- (tab_len s X U p F Hp). by eapply lookup_lt_Some.
Qed.

(** A file is in one table, so it has no more references than that has entries. *)
Lemma table_cnt x (l : list (option nat)) : cnt x (concat (map opt l)) <= Z.of_nat (length l).
Proof.
  induction l as [|o l IH]; [done|]. cbn [map concat length]. rewrite cnt_app, cnt_opt. destruct (decide _); lia.
Qed.

Lemma uses_bound s X U x : finv s X U -> cnt x (uses s) <= Z.of_nat NR_OPEN.
Proof.
  intros F. pose proof (fi_one _ _ _ F) as Hone. pose proof (fi_tabs _ _ _ F) as Hlen. unfold uses, fd_at, tab_at in *.
  induction (tabs s) as [|t l IH]; [done|]. cbn [map concat]. rewrite cnt_app.
  destruct (decide (x ∈ uses_of t)) as [Hin|Hn].
  - assert (Hz : cnt x (concat (map uses_of l)) = 0).
    { pose proof (cnt_le x (concat (map uses_of l))). destruct (Z.eqb_spec (cnt x (concat (map uses_of l))) 0) as [|Nz]; [done|]. exfalso.
      assert (Hx : x ∈ concat (map uses_of l)) by (apply cnt_pos; lia).
      apply list_elem_of_In, in_concat in Hx as (u & Hu & Hxu). apply in_map_iff in Hu as (t' & <- & Ht').
      apply list_elem_of_In, list_elem_of_lookup in Ht' as [q Hq].
      assert (Hfd : forall t0, In x (uses_of t0) -> exists n, fd t0 !! n = Some (Some x)).
      { intros t0 H0. unfold uses_of in H0. apply in_concat in H0 as (w & Hw & Hxw). apply in_map_iff in Hw as ([y|] & <- & Hy); [|done].
        destruct Hxw as [->|[]]. by apply list_elem_of_In, list_elem_of_lookup in Hy. }
      destruct (Hfd t) as [n En]; [by apply list_elem_of_In|]. destruct (Hfd t' Hxu) as [m Em].
      assert (E : 0%nat = S q); [|done]. apply (Hone 0%nat (S q) n m x).
      - change (mjoin (fd t !! n) = Some x). by rewrite En.
      - change (mjoin (fd (default no_table (l !! q)) !! m) = Some x). rewrite Hq. change (mjoin (fd t' !! m) = Some x). by rewrite Em. }
    rewrite Hz, Z.add_0_r. rewrite <- (Hlen t) by (apply elem_of_cons; by left). apply table_cnt.
  - assert (Hz : cnt x (uses_of t) = 0) by (pose proof (cnt_le x (uses_of t)); destruct (Z.eqb_spec (cnt x (uses_of t)) 0); [done|]; exfalso; apply Hn, cnt_pos; lia).
    rewrite Hz. apply IH.
    + intros p q n m y Hp Hq. specialize (Hone (S p) (S q) n m y Hp Hq). by injection Hone.
    + intros t' Ht'. apply Hlen, elem_of_cons. by right.
Qed.

(** ** Closing and duplicating *)

Lemma close_ok s U p n : finv s [] U -> (p < length (tabs s))%nat ->
  exists r s', sys_close p n s = Some (r, s') /\ finv s' [] U /\ length (tabs s') = length (tabs s) /\
    if (n <? Z.of_nat NR_OPEN) && bool_decide (fd_at s p (Z.to_nat n) <> None)
    then r = 0 /\ forall q m, fd_at s' q m = if decide (q = p /\ m = Z.to_nat n) then None else fd_at s q m
    else r = - EBADF /\ forall q m, fd_at s' q m = fd_at s q m.
Proof.
  intros F Hp. unfold sys_close. rewrite Z.geb_leb. destruct (Z.leb_spec (Z.of_nat NR_OPEN) n) as [Hbig|Hbig].
  { rewrite (proj2 (Z.ltb_ge _ _)) by lia. eexists _, _. by split_and!. }
  rewrite (proj2 (Z.ltb_lt _ _)) by lia. cbn [andb]. set (m := Z.to_nat n). set (s1 := tab_update p (FD_MARK m false) s).
  assert (F1 : finv s1 [] U) by by apply finv_mark. assert (Hfd : forall q k, fd_at s1 q k = fd_at s q k) by (intros; apply mark_fd_at).
  assert (Hl1 : length (tabs s1) = length (tabs s)) by apply length_alter.
  rewrite Hfd. destruct (fd_at s p m) as [x|] eqn:Ex.
  2:{ rewrite bool_decide_eq_false_2 by naive_solver. eexists _, _. by split_and!. }
  rewrite bool_decide_eq_true_2 by done. pose proof (fd_small _ _ _ _ _ _ F Ex) as [_ Hm]. assert (Hp1 : (p < length (tabs s1))%nat) by (by rewrite Hl1).
  assert (F2 : finv (tab_update p (set_fd m None) s1) [x] U).
  { apply (finv_tab s1 []); [done|done|done| |done]. by rewrite Hfd, Ex. }
  destruct (release_file_ok _ _ _ _ true F2) as (s3 & E & F3 & Ht & _). rewrite E. cbn [option_bind mbind]. eexists _, _. split; [done|]. split_and!; [done| |done|].
  - rewrite Ht. unfold tab_update at 1. cbn [tabs]. by rewrite length_alter.
  - intros q k. unfold fd_at, tab_at. rewrite Ht. change (fd_at (tab_update p (set_fd m None) s1) q k = if decide (q = p /\ k = m) then None else fd_at s q k).
    rewrite (fd_set_at s1 [] U) by done. by rewrite Hfd.
Qed.

Lemma next_free_spec fuel : forall arg s p, let a := next_free fuel arg s p in
  (arg <= a <= arg + fuel)%nat /\ ((a < arg + fuel)%nat -> fd_at s p a = None) /\ forall k, (arg <= k < a)%nat -> fd_at s p k <> None.
Proof.
  induction fuel as [|fuel IH]; intros arg s p; cbn [next_free]; [cbn; split_and!; [lia|lia|lia|lia]|].
  destruct (fd_at s p arg) as [x|] eqn:E; [|cbn; split_and!; [lia|lia|done|lia]].
  destruct (IH (S arg) s p) as (H1 & H2 & H3). cbn in *. split_and!; [lia|lia|intros; apply H2; lia|].
  intros k Hk. destruct (decide (k = arg)) as [->|]; [congruence|apply H3; lia].
Qed.

(** A duplicate gets the least free descriptor from [arg] on, for the same file. *)
Lemma dupfd_ok s U p n arg : finv s [] U -> (p < length (tabs s))%nat -> 0 <= arg ->
  let '(r, s') := dupfd p n arg s in
  finv s' [] U /\ length (tabs s') = length (tabs s) /\
  match (if n <? Z.of_nat NR_OPEN then fd_at s p (Z.to_nat n) else None) with
  | None => r = - EBADF /\ s' = s
  | Some x =>
    if arg >=? Z.of_nat NR_OPEN then r = - EINVAL /\ s' = s else
    let a := next_free (NR_OPEN - Z.to_nat arg) (Z.to_nat arg) s p in
    if (NR_OPEN <=? a)%nat then r = - EMFILE /\ s' = s else
    r = Z.of_nat a /\ (forall q m, fd_at s' q m = if decide (q = p /\ m = a) then Some x else fd_at s q m) /\
    FD_ISSET a (tab_at s' p) = false
  end.
Proof.
  intros F Hp Harg. unfold dupfd. rewrite (Z.geb_leb n). destruct (Z.leb_spec (Z.of_nat NR_OPEN) n); [rewrite (proj2 (Z.ltb_ge _ _)) by lia; by split_and!|].
  rewrite (proj2 (Z.ltb_lt _ _)) by lia. destruct (fd_at s p (Z.to_nat n)) as [x|] eqn:Ex; [|by split_and!].
  destruct (Z.geb_spec arg (Z.of_nat NR_OPEN)); [by split_and!|]. set (a := next_free _ _ s p). destruct (Nat.leb_spec NR_OPEN a) as [|Ha]; [by split_and!|].
  destruct (next_free_spec (NR_OPEN - Z.to_nat arg) (Z.to_nat arg) s p) as (H1 & H2 & _). fold a in H1, H2.
  set (s1 := tab_update p (FD_MARK a false) s). assert (F1 : finv s1 [] U) by by apply finv_mark. assert (Hfd : forall q k, fd_at s1 q k = fd_at s q k) by (intros; apply mark_fd_at).
  assert (Hl1 : length (tabs s1) = length (tabs s)) by apply length_alter. assert (Hp1 : (p < length (tabs s1))%nat) by (by rewrite Hl1).
  assert (F2 : finv (fref x s1) [x] U).
  { apply fref_ok; [done| |].
    - rewrite app_nil_r. apply (uses_in s1 p (Z.to_nat n)). by rewrite Hfd.
    - rewrite app_nil_r. pose proof (uses_bound s1 [] U x F1) as Hb. unfold NR_OPEN in Hb. lia. }
  assert (Hna : fd_at (fref x s1) p a = None) by (change (fd_at (fref x s1) p a) with (fd_at s1 p a); rewrite Hfd; apply H2; lia).
  split_and!.
  - apply (finv_tab (fref x s1) [x]); [done|done|done|by rewrite Hna|]. intros y q m [= <-] Hy. change (fd_at s1 q m = Some x) in Hy. rewrite Hfd in Hy.
    by apply (fi_one _ _ _ F q p m (Z.to_nat n) x).
  - unfold tab_update. cbn [tabs]. rewrite length_alter. exact Hl1.
  - done.
  - intros q m. rewrite (fd_set_at (fref x s1) [x] U) by done. change (fd_at (fref x s1) q m) with (fd_at s1 q m). by rewrite Hfd.
  - rewrite tab_update_at, decide_True by done. change (tab_at (fref x s1) p) with (tab_at s1 p). unfold s1. rewrite tab_update_at, decide_True by done.
    unfold FD_ISSET, FD_MARK, set_fd. cbn [close_on_exec]. destruct (decide (a < length (close_on_exec (tab_at s p)))%nat) as [Hlt|Hge].
    + by rewrite list_lookup_insert_eq.
    + rewrite list_insert_ge by lia. by rewrite lookup_ge_None_2 by lia.
Qed.

(** ** Fork *)

Lemma iref_inv c i R : inv (mksys c R) -> 0 < i_count (at_ c i) -> few R -> inv (mksys (iref i c) (i :: R)).
Proof. intros I Hc Hf. apply (step_inv _ _ I), step_iref; [done|]. apply cnt_pos. by rewrite <- (inv_cnt c R i I). Qed.

Lemma run_open_ok o i x s X U : finv s X U -> (x < length (all_files s))%nat -> finv (run_open o i x s).2 X U /\ tabs (run_open o i x s).2 = tabs s.
Proof.
  intros F Hx. unfold run_open. destruct (fop_open o i (file_at s x) (drv s)) as [[[e op] pv] d]. split; [|done]. cbn [snd]. apply finv_drv.
  pose proof (fi_count _ _ _ F x Hx) as Hc. apply (finv_count s x _ X X); try done; [intros y Hy; right; apply elem_of_app; by right|].
  intros Hz. by apply (fi_free _ _ _ F).
Qed.

Lemma run_open_files o i x s : (x < length (all_files s))%nat -> length (all_files (run_open o i x s).2) = length (all_files s) /\
  forall y, y <> x -> file_at (run_open o i x s).2 y = file_at s y.
Proof.
  intros Hx. unfold run_open. destruct (fop_open o i (file_at s x) (drv s)) as [[[e op] pv] d]. split; [apply length_alter|].
  intros y N. change (file_at (file_update x (fun f => mkfile (f_pos f) (f_mode f) (f_flags f) (f_count f) (f_inode f) op pv) s) y = file_at s y).
  by rewrite file_update_at, decide_False.
Qed.

Lemma held_inode s X U x i : finv s X U -> (x < length (all_files s))%nat -> f_inode (file_at s x) = Some i -> i ∈ inodes s.
Proof.
  intros F Hx Hi. unfold inodes. apply list_elem_of_In, in_concat. exists [i]. split; [|by left]. apply in_map_iff. exists (file_at s x). rewrite Hi. split; [done|].
  apply list_elem_of_In, list_elem_of_lookup. exists x. by apply file_lookup.
Qed.

(** A descriptor of the child is a new file with the inode of the old one, or none
    at all. *)
Lemma copy_file_ok s X U old : finv s X U -> old ∈ uses s ->
  exists r s', copy_fd old s = Some (r, s') /\ finv s' (opt r ++ X) U /\ tabs s' = tabs s /\ forall x, r = Some x -> x ∉ uses s.
Proof.
  intros F Hin. unfold copy_fd. pose proof (get_empty_file_ok s X U F) as G. destruct (get_empty_file s) as [[x s1]|].
  2:{ exists None, s. by split_and!. }
  destruct G as (Hx & Hz & -> & F1). set (s1 := file_update x fresh s) in *. destruct (unused_cnt s X U x F Hx Hz) as [Z1 Z2].
  assert (Hnew : x ∉ uses s) by (intros H; apply cnt_pos in H; lia). assert (Hox : old <> x) by (by intros ->).
  assert (Hx1 : (x < length (all_files s1))%nat) by (unfold s1, file_update; cbn; by rewrite length_alter).
  assert (Hold : (old < length (all_files s1))%nat).
  { apply (fi_range _ _ _ F1). apply elem_of_app. by left. }
  set (g := fun _ : file => set_fcount 1 (file_at s1 old)). set (s2 := file_update x g s1).
  assert (Hat2 : file_at s2 x = set_fcount 1 (file_at s1 old)) by (unfold s2; by rewrite file_update_at, decide_True).
  assert (Hc1 : 1 = cnt x (uses s1 ++ x :: X)) by (change (uses s1) with (uses s); rewrite cnt_app, cnt_cons, decide_True by done; lia).
  assert (Hsub : forall y, y ∈ x :: X -> y = x \/ y ∈ uses s1 ++ x :: X) by (intros y Hy; right; apply elem_of_app; by right).
  assert (Hfr : f_inode (file_at s1 x) = None) by (unfold s1; by rewrite file_update_at, decide_True).
  (* the copy, with its inode *)
  assert (K : exists s3, match f_inode (file_at s2 x) with
       | None => s2
       | Some i => let s3 := set_ic (iref i (ic s2)) s2 in if is_fifo (i_body (at_ (ic s3) i)) then set_drv (fifo_dup i (f_mode (file_at s2 x)) (drv s3)) s3 else s3
       end = s3 /\ finv s3 (x :: X) U /\ tabs s3 = tabs s /\ all_files s3 = all_files s2).
  { eexists. split; [done|]. rewrite Hat2. cbn [f_inode set_fcount]. destruct (f_inode (file_at s1 old)) as [i|] eqn:Ei.
    - assert (F3 : finv (set_ic (iref i (ic s1)) (file_update x g s1)) (x :: X) U).
      { apply (finv_file s1 x g (x :: X) (x :: X) U U); try done.
        intros R I Hfew. rewrite Hfr in I. cbn [g f_inode set_fcount]. rewrite Ei. apply iref_inv; [exact I| |].
        - pose proof (fi_inodes _ _ _ F1) as I1. rewrite (inv_cnt _ _ i I1). apply cnt_pos, elem_of_app. left. by eapply held_inode.
        - unfold few. rewrite length_app. lia. }
      cbv zeta. destruct (is_fifo _); [|by split_and!]. split_and!; [by apply finv_drv|done|done].
    - split_and!; [|done|done]. apply (finv_count s1 x g (x :: X) (x :: X)); try done. cbn [g f_inode set_fcount]. by rewrite Ei, Hfr. }
  destruct K as (s3 & E3 & F3 & T3 & A3). cbv zeta in E3 |- *. change (file_update x (fun _ => set_fcount 1 (file_at s1 old)) s1) with s2. rewrite E3.
  assert (Hx3 : (x < length (all_files s3))%nat) by (rewrite A3; unfold s2, file_update; cbn; by rewrite length_alter).
  destruct (f_op (file_at s2 x)) as [o|]; [|exists (Some x), s3; split_and!; [done|done|done|by intros y [= <-]]].
  destruct (f_inode (file_at s2 x)) as [i|]; [|exists (Some x), s3; split_and!; [done|done|done|by intros y [= <-]]].
  destruct (run_open_ok o i x s3 _ _ F3 Hx3) as [F4 T4]. destruct (run_open o i x s3) as [e s4]. cbn [snd] in *. destruct (e =? 0).
  - exists (Some x), s4. split_and!; [done|done|by rewrite T4|by intros y [= <-]].
  - unfold put_file. destruct (release_file_ok s4 X U x false F4) as (s5 & E5 & F5 & T5 & _). rewrite E5. cbn [option_bind mbind].
    exists None, s5. split_and!; [done|done|by rewrite T5, T4|done].
Qed.

Lemma copy_fds_ok l : forall s X U, finv s X U -> (forall x, Some x ∈ l -> x ∈ uses s) ->
  exists l' s', copy_fds l s = Some (l', s') /\ finv s' (concat (map opt l') ++ X) U /\ tabs s' = tabs s /\ length l' = length l /\
    (forall x, Some x ∈ l' -> x ∉ uses s) /\ forall n, l !! n = Some None -> l' !! n = Some None.
Proof.
  induction l as [|o l IH]; intros s X U F Hin.
  - exists [], s. split_and!; [done|done|done|done| |done]. intros x Hx. by apply not_elem_of_nil in Hx.
  - destruct o as [x|]; cbn [copy_fds].
    + destruct (copy_file_ok s X U x F) as (r & s1 & E1 & F1 & T1 & N1); [apply Hin, elem_of_cons; by left|]. rewrite E1. cbn [option_bind mbind snd fst].
      assert (Hu : uses s1 = uses s) by (unfold uses; by rewrite T1).
      destruct (IH s1 (opt r ++ X) U F1) as (l' & s2 & E2 & F2 & T2 & L2 & N2 & C2); [intros y Hy; rewrite Hu; apply Hin, elem_of_cons; by right|].
      rewrite E2. cbn [option_bind mbind snd fst]. exists (r :: l'), s2. split_and!; [done| |by rewrite T2|cbn; by rewrite L2| |].
      * cbn [map concat]. assert (P : opt r ++ concat (map opt l') ++ X ≡ₚ concat (map opt l') ++ opt r ++ X) by (rewrite !app_assoc; by apply Permutation_app_tail, Permutation_app_comm).
        rewrite <- app_assoc. destruct F2 as [A1 A2 A3 A4 A5 A6 A7]. constructor; try done.
        -- intros y Hy. rewrite A1 by done. apply cnt_perm. by rewrite P.
        -- intros y Hy. apply A2. by rewrite <- P.
      * intros y Hy. apply elem_of_cons in Hy as [Hy|Hy]; [by apply N1|]. rewrite <- Hu. by apply N2.
      * intros [|n] Hn; [done|]. by apply C2.
    + destruct (IH s X U F) as (l' & s2 & E2 & F2 & T2 & L2 & N2 & C2); [intros y Hy; apply Hin, elem_of_cons; by right|].
      rewrite E2. cbn [option_bind mbind snd fst]. exists (None :: l'), s2. split_and!; [done|done|done|cbn; by rewrite L2| |].
      * intros y Hy. apply elem_of_cons in Hy as [Hy|Hy]; [done|by apply N2].
      * intros [|n] Hn; [done|]. by apply C2.
Qed.

(** A whole table for a process that has none. *)
Lemma finv_table s X U q l ce : finv s (concat (map opt l) ++ X) U -> (q < length (tabs s))%nat -> uses_of (tab_at s q) = [] -> length l = NR_OPEN ->
  (forall x, Some x ∈ l -> x ∉ uses s) -> finv (tab_update q (fun _ => mktable l ce) s) X U.
Proof.
  intros F Hq Hnone Hl Hnew. set (s' := tab_update q _ s).
  assert (PU : uses s' ≡ₚ concat (map opt l) ++ uses s).
  { destruct (lookup_lt_is_Some_2 _ _ Hq) as [t Et]. assert (Ett : tab_at s q = t) by (unfold tab_at; by rewrite Et).
    pose proof (concat_alter uses_of (fun _ => mktable l ce) (tabs s) q t Et) as P. rewrite <- Ett, Hnone in P. exact P. }
  assert (P : uses s' ++ X ≡ₚ uses s ++ concat (map opt l) ++ X).
  { rewrite PU, (Permutation_app_comm _ (uses s)), app_assoc. done. }
  assert (Hfd : forall p n, fd_at s' p n = if decide (p = q) then mjoin (l !! n) else fd_at s p n).
  { intros p n. unfold fd_at, s'. rewrite tab_update_at by done. by destruct (decide (p = q)). }
  destruct F as [F1 F2 F3 F4 F5 F6 F7]. constructor.
  - intros x Hx. change (f_count (file_at s x) = cnt x (uses s' ++ X)). rewrite (cnt_perm _ _ _ P). by apply F1.
  - intros x Hx. apply F2. by rewrite <- P.
  - exact F3.
  - exact F4.
  - exact F5.
  - intros t Ht. unfold s', tab_update in Ht. cbn [tabs] in Ht. apply list_elem_of_lookup in Ht as [p Hp]. destruct (decide (p = q)) as [->|N].
    + rewrite list_lookup_alter_eq in Hp. destruct (tabs s !! q); [|done]. by injection Hp as <-.
    + rewrite list_lookup_alter_ne in Hp by done. apply F6. by eapply list_elem_of_lookup_2.
  - assert (Hl2 : forall n x, mjoin (l !! n) = Some x -> Some x ∈ l).
    { intros n x H. destruct (l !! n) as [o|] eqn:E; [|done]. cbn in H. subst o. by eapply list_elem_of_lookup_2. }
    intros a b n m x Ha Hb. rewrite Hfd in Ha, Hb. destruct (decide (a = q)) as [->|Na], (decide (b = q)) as [->|Nb]; [done| | |].
    + exfalso. eapply Hnew; [by eapply Hl2|]. by apply (uses_in s b m).
    + exfalso. eapply Hnew; [by eapply Hl2|]. by apply (uses_in s a n).
    + by apply (F7 a b n m x).
Qed.

Lemma no_uses s q : (forall n, fd_at s q n = None) -> uses_of (tab_at s q) = [].
Proof.
  intros H. unfold uses_of. assert (Hn : forall n o, fd (tab_at s q) !! n = Some o -> o = None).
  { intros n o E. specialize (H n). unfold fd_at in H. rewrite E in H. by destruct o. }
  induction (fd (tab_at s q)) as [|o l IH]; [done|]. cbn. rewrite (Hn 0%nat o eq_refl). cbn. apply IH. intros n. apply (Hn (S n)).
Qed.

Lemma copy_files_ok s U p q : finv s [] U -> (p < length (tabs s))%nat -> (q < length (tabs s))%nat -> (forall n, fd_at s q n = None) ->
  exists s', copy_files p q s = Some s' /\ finv s' [] U /\ length (tabs s') = length (tabs s) /\
    (forall r n, r <> q -> fd_at s' r n = fd_at s r n) /\ (forall n x, fd_at s' q n = Some x -> (x ∉ uses s)) /\ forall n, fd_at s p n = None -> fd_at s' q n = None.
Proof.
  intros F Hp Hq Hnone. unfold copy_files. destruct (copy_fds_ok (fd (tab_at s p)) s [] U F) as (l & s1 & E & F1 & T1 & L1 & N1 & C1).
  { intros x Hx. apply list_elem_of_lookup in Hx as [n Hn]. apply (uses_in s p n). unfold fd_at. by rewrite Hn. }
  rewrite E. cbn [option_bind mbind fst snd]. eexists. split; [done|]. set (ce := close_on_exec (tab_at s p)).
  assert (Ht : forall r, tab_at s1 r = tab_at s r) by (intros r; unfold tab_at; by rewrite T1).
  assert (Hfd : forall r n, fd_at (tab_update q (fun _ => mktable l ce) s1) r n = if decide (r = q) then mjoin (l !! n) else fd_at s r n).
  { intros r n. unfold fd_at. rewrite tab_update_at by (by rewrite T1). rewrite Ht. by destruct (decide (r = q)). }
  split_and!.
  - apply finv_table; [done|by rewrite T1| | |].
    + rewrite Ht. by apply no_uses.
    + rewrite L1. by apply (tab_len s [] U).
    + intros x Hx. assert (Hu : uses s1 = uses s) by (unfold uses; by rewrite T1). rewrite Hu. by apply N1.
  - unfold tab_update. cbn [tabs]. by rewrite length_alter, T1.
  - intros r n N. by rewrite Hfd, decide_False.
  - intros n x. rewrite Hfd, decide_True by done. intros H. apply N1. destruct (l !! n) as [o|] eqn:Eo; [|done]. cbn in H. subst o. by eapply list_elem_of_lookup_2.
  - intros n Hn. rewrite Hfd, decide_True by done. unfold fd_at in Hn. destruct (fd (tab_at s p) !! n) as [o|] eqn:Eo.
    + cbn in Hn. subst o. by rewrite (C1 n Eo).
    + apply lookup_ge_None in Eo. by rewrite lookup_ge_None_2 by (rewrite L1; done).
Qed.

(** ** Exit and exec *)

Lemma close_from_ok fuel : forall n p only s U, finv s [] U -> (p < length (tabs s))%nat ->
  exists s', close_from n fuel p only s = Some s' /\ finv s' [] U /\ length (tabs s') = length (tabs s) /\
    (forall q m, q <> p -> fd_at s' q m = fd_at s q m) /\ (forall m, fd_at s p m = None \/ (m < n)%nat -> fd_at s' p m = fd_at s p m) /\
    ((forall s m, only s m = bool_decide (fd_at s p m <> None)) -> forall m, (n <= m < n + fuel)%nat -> (m < NR_OPEN)%nat -> fd_at s' p m = None).
Proof.
  induction fuel as [|fuel IH]; intros n p only s U F Hp; cbn [close_from].
  - exists s. split_and!; try done. intros. lia.
  - assert (K : exists s1, (if only s n then r ← sys_close p (Z.of_nat n) s; Some r.2 else Some s) = Some s1 /\ finv s1 [] U /\ length (tabs s1) = length (tabs s) /\
      (forall q m, q <> p -> fd_at s1 q m = fd_at s q m) /\ (forall m, fd_at s p m = None \/ m <> n -> fd_at s1 p m = fd_at s p m) /\
      ((forall s m, only s m = bool_decide (fd_at s p m <> None)) -> (n < NR_OPEN)%nat -> fd_at s1 p n = None)).
    { destruct (only s n) eqn:Eo.
      - destruct (close_ok s U p (Z.of_nat n) F Hp) as (r & s1 & E & F1 & L1 & Hc). rewrite E. cbn [option_bind mbind snd]. exists s1. rewrite Nat2Z.id in Hc.
        destruct ((Z.of_nat n <? Z.of_nat NR_OPEN) && bool_decide (fd_at s p n <> None)) eqn:Eb; destruct Hc as [_ Hc].
        + split_and!; [done|done|done| | |].
          * intros q m N. by rewrite Hc, decide_False by naive_solver.
          * intros m Hm. rewrite Hc. destruct (decide (p = p /\ m = n)) as [[_ ->]|]; [|done]. destruct Hm; [done|naive_solver].
          * intros _ _. by rewrite Hc, decide_True.
        + split_and!; [done|done|done|by intros|by intros|]. intros Ho Hn. rewrite Hc. rewrite (proj2 (Z.ltb_lt _ _)) in Eb by lia. cbn [andb] in Eb.
          apply bool_decide_eq_false in Eb. by destruct (fd_at s p n); [destruct Eb|].
      - exists s. split_and!; try done. intros Ho _. rewrite Ho in Eo. apply bool_decide_eq_false in Eo. by destruct (fd_at s p n); [destruct Eo|]. }
    destruct K as (s1 & -> & F1 & L1 & O1 & M1 & C1). cbn [option_bind mbind].
    destruct (IH (S n) p only s1 U F1) as (s2 & -> & F2 & L2 & O2 & M2 & C2); [by rewrite L1|]. exists s2. split_and!; [done|done|by rewrite L2| | |].
    + intros q m N. by rewrite O2, O1.
    + intros m Hm. assert (E1 : fd_at s1 p m = fd_at s p m) by (apply M1; destruct Hm; [by left|right; lia]). rewrite M2, E1; [done|].
      destruct Hm; [left; by rewrite E1|right; lia].
    + intros Ho m Hm Hn. destruct (decide (m = n)) as [->|N]; [|apply C2; [done|lia|done]]. rewrite M2; [by apply C1|]. right. lia.
Qed.

(** ** Opening *)

Lemma finv_ic s c X U U' : finv s X U -> inv (mksys c (inodes s ++ U')) -> Z.of_nat (length (all_files s) + length U') < 2 ^ 32 - 16 -> finv (set_ic c s) X U'.
Proof. intros [F1 F2 F3 F4 F5 F6 F7] I L. by constructor. Qed.

Lemma inv_same c R R' : inv (mksys c R) -> (forall j, cnt j R = cnt j R') -> inv (mksys c R').
Proof.
  intros [I1 I2 I3] H. constructor; cbn [cc refs] in *; [done| |].
  - intros i. by rewrite I2, H.
  - intros i Hi. apply I3. apply cnt_pos. rewrite H. by apply cnt_pos.
Qed.

Lemma inodes_le s : (length (inodes s) <= length (all_files s))%nat.
Proof.
  unfold inodes. induction (all_files s) as [|f l IH]; [done|]. cbn. rewrite length_app. destruct (f_inode f); cbn; lia.
Qed.

Context {Laws : Namei.DirLaws}.

(** The inodes that a failed open leaves with one more reference. *)
Definition lost_refs (r : Z) (c c' : cache B W) : list nat :=
  if r <? 0 then filter (fun i => i_count (at_ c i) < i_count (at_ c' i)) (seq 0 (size c')) else [].

Lemma filter_seq_none (P : nat -> Prop) `{!forall i, Decision (P i)} a n : (forall i, ~ P i) -> filter P (seq a n) = [].
Proof. intros HP. revert a. induction n as [|n IH]; intros a; [done|]. cbn [seq]. by rewrite filter_cons_False, IH. Qed.

Lemma filter_seq_one (P : nat -> Prop) `{!forall i, Decision (P i)} d n : (forall i, P i <-> i = d) -> forall a, (a <= d < a + n)%nat ->
  filter P (seq a n) = [d].
Proof.
  intros HP. induction n as [|n IH]; intros a Hd; [lia|]. cbn [seq]. destruct (decide (a = d)) as [->|N].
  - rewrite filter_cons_True by by apply HP. f_equal. clear IH Hd. assert (G : forall m b, (d < b)%nat -> filter P (seq b m) = []).
    { induction m as [|m IH]; intros b Hb; [done|]. cbn [seq]. rewrite filter_cons_False by (rewrite HP; lia). apply IH. lia. }
    apply G. lia.
  - rewrite filter_cons_False by by rewrite HP. apply IH. lia.
Qed.

Lemma lost_refs_exact r s s' V U : finv s [] U -> finv s' [] (V ++ U) -> inodes s' = inodes s -> V = [] \/ r < 0 /\ (exists d, V = [d]) ->
  lost_refs r (ic s) (ic s') = V.
Proof.
  intros F F' E HV. assert (Hc : forall i, i_count (at_ (ic s') i) = i_count (at_ (ic s) i) + cnt i V).
  { intros i. rewrite (inv_cnt _ _ i (fi_inodes _ _ _ F')), (inv_cnt _ _ i (fi_inodes _ _ _ F)), E, !cnt_app. lia. }
  unfold lost_refs. destruct HV as [->|[Hr [d ->]]].
  - destruct (r <? 0); [|done]. apply filter_seq_none. intros i. rewrite Hc, cnt_nil. lia.
  - rewrite (proj2 (Z.ltb_lt _ _)) by done. apply filter_seq_one.
    + intros i. rewrite Hc, cnt_cons, cnt_nil. destruct (decide (i = d)); lia.
    + split; [lia|]. apply (i_range _ (fi_inodes _ _ _ F') d). cbn [refs]. apply elem_of_app. right. by left.
Qed.

Lemma inodes_ext s s' : length (all_files s') = length (all_files s) -> (forall y, f_inode (file_at s' y) = f_inode (file_at s y)) -> inodes s' = inodes s.
Proof.
  intros HL H. unfold inodes. f_equal. apply list_eq. intros y. rewrite !list_lookup_fmap. specialize (H y). unfold file_at in H.
  destruct (all_files s' !! y) as [f|] eqn:E1, (all_files s !! y) as [g|] eqn:E2; cbn in *; try done; [by rewrite H| |].
  - apply lookup_lt_Some in E1. apply lookup_ge_None in E2. lia.
  - apply lookup_lt_Some in E2. apply lookup_ge_None in E1. lia.
Qed.

(** The file of a call that fails is given back: the files hold what they held. *)
Lemma put_new_file s s5 x V U r s1 : finv s [] U -> finv s5 [x] (V ++ U) -> length (all_files s5) = length (all_files s) ->
  (forall y, y <> x -> f_inode (file_at s5 y) = f_inode (file_at s y)) -> f_inode (file_at s x) = None -> cnt x (uses s5) = 0 ->
  V = [] \/ r < 0 /\ (exists d, V = [d]) -> tabs s5 = tabs s1 -> length (tabs s1) = length (tabs s) ->
  exists s6, put_file x s5 = Some s6 /\ finv s6 [] (lost_refs r (ic s) (ic s6) ++ U) /\ length (tabs s6) = length (tabs s).
Proof.
  intros F F5 HL Ho Hx Hu HV HT HT1. destruct (release_file_ok s5 [] (V ++ U) x false F5) as (s6 & E & F6 & T6 & O6 & C6 & L6).
  exists s6. split; [done|]. split; [|by rewrite T6, HT]. rewrite (lost_refs_exact r s s6 V U); [done|done|done| |done].
  apply inodes_ext; [by rewrite L6|]. intros y. destruct (decide (y = x)) as [->|N]; [|by rewrite O6 by done; apply Ho].
  rewrite Hx. apply (fi_free _ _ _ F6). rewrite C6. pose proof (fi_range _ _ _ F5 x ltac:(apply elem_of_app; right; by left)) as Hr.
  rewrite (fi_count _ _ _ F5 x Hr), cnt_app, Hu, cnt_cons, decide_True, cnt_nil by done. done.
Qed.

Lemma do_openat_ok ctx s U p dirfd name flags : finv s [] U -> (p < length (tabs s))%nat ->
  Namei.others (Namei.shared ctx) (ic s) (inodes s ++ U) -> dirfd = Namei.AT_FDCWD \/ 0 <= dirfd ->
  Z.of_nat (length (all_files s) + S (length U)) < 2 ^ 32 - 16 ->
  match do_openat ctx p dirfd name flags s with
  | Some (r, s') => finv s' [] (lost_refs r (ic s) (ic s') ++ U) /\ length (tabs s') = length (tabs s)
  | None => exists c, Namei.full c
  end.
Proof.
  intros F Hp O Hd Hroom. unfold do_openat. destruct (next_free_spec NR_OPEN 0 s p) as (H1 & H2 & _). set (n := next_free NR_OPEN 0 s p) in *.
  assert (Same : forall r s', ic s' = ic s -> lost_refs r (ic s) (ic s') = []).
  { intros r s' ->. unfold lost_refs. destruct (r <? 0); [|done]. apply filter_seq_none. lia. }
  destruct (Nat.leb_spec NR_OPEN n) as [|Hn]; [by rewrite Same|]. set (s1 := tab_update p _ s).
  assert (F1 : finv s1 [] U) by by apply finv_mark. assert (L1 : length (tabs s1) = length (tabs s)) by apply length_alter.
  assert (Hfd1 : fd_at s1 p n = None) by (unfold s1; rewrite mark_fd_at; apply H2; lia).
  pose proof (get_empty_file_ok s1 [] U F1) as G. destruct (get_empty_file s1) as [[x s2]|]; [|by rewrite Same].
  destruct G as (Hx & Hz & -> & F2). set (s2 := file_update x fresh s1) in *. assert (Hx2 : (x < length (all_files s2))%nat) by (unfold s2, file_update; cbn; by rewrite length_alter).
  set (mode := Z.land (flags + 1) O_ACCMODE). cbv zeta. set (g := fun f : file => mkfile (f_pos f) mode (u16 flags) (f_count f) (f_inode f) (f_op f) (private_data f)).
  set (s3 := file_update x g s2). pose proof (fi_count _ _ _ F2 x Hx2) as Hc2.
  assert (F3 : finv s3 [x] U).
  { apply (finv_count s2 x g [x] [x]); try done; [intros y Hy; right; apply elem_of_app; by right|]. intros Hz2. by apply (fi_free _ _ _ F2). }
  assert (Hx3 : (x < length (all_files s3))%nat) by (unfold s3, file_update; cbn; by rewrite length_alter).
  assert (Hi3 : f_inode (file_at s3 x) = None) by (unfold s3, s2; rewrite !file_update_at, !decide_True by done; done).
  assert (Hn3 : inodes s3 = inodes s).
  { unfold s3, s2, inodes. cbn [all_files file_update set_all].
    assert (Hzi : f_inode (file_at s1 x) = None) by (by apply (fi_free _ _ _ F1)). pose proof (file_lookup x s1 Hx) as El. clear -Hzi El.
    change (all_files s1) with (all_files s) in *. revert x Hzi El. unfold file_at. change (all_files s1) with (all_files s).
    induction (all_files s) as [|f l IH]; intros [|x] Hzi El; cbn in *; try done.
    - by rewrite Hzi.
    - by rewrite (IH x Hzi El). }
  set (nf := if negb (Z.land _ _ =? 0) then _ else _).
  assert (T : Namei.triple (Namei.shared ctx) 8 [] (Namei.bind (Namei.get_base_inode ctx dirfd false) (Namei.open_namei ctx Namei.links 0 name nf)) (Namei.taken nf)).
  { eapply Namei.triple_bind; [by apply Namei.get_dir_ok| |intros e L ->; apply Namei.lost_none]. cbn. intros base L ->.
    apply Namei.open_namei_ok; [lia|by vm_compute|by vm_compute; lia]. }
  assert (Hu1 : cnt x (uses s1) = 0) by by apply (unused_cnt s1 [] U x F1 Hx Hz).
  assert (Hx1 : f_inode (file_at s x) = None) by by apply (fi_free _ _ _ F1).
  assert (Ho3 : forall y, y <> x -> f_inode (file_at s3 y) = f_inode (file_at s y)).
  { intros y N. unfold s3, s2. by rewrite !file_update_at, !decide_False. }
  assert (Hl3 : length (all_files s3) = length (all_files s)) by (unfold s3, s2, file_update; cbn; by rewrite !length_alter).
  pose proof (fi_few _ _ _ F) as Hfew. pose proof (inodes_le s) as Hle.
  pose proof (Namei.triple_run _ _ _ _ _ (inodes s ++ U) (ic s3) T (fi_inodes _ _ _ F) ltac:(rewrite length_app; lia) O) as Run.
  assert (Hs0 : Namei.sat (ic s3) []) by (intros i k Hi; by apply not_elem_of_nil in Hi). specialize (Run Hs0).
  destruct (Namei.bind _ _ (ic s3)) as [[e|i] c|c| |]; [| |by exists c|done|done].
  - destruct Run as (L & HL & I & _).
    assert (HV : exists V : list nat, L.*1 = V /\ (V = [] \/ e < 0 /\ exists d, V = [d])).
    { destruct HL as [->|(_ & -> & d & ->)]; [by exists []; split; [|left]|]. exists [d]. split; [done|]. right. split; [done|by exists d]. }
    destruct HV as (V & EV & HV). rewrite EV in I. assert (F4 : finv (set_ic c s3) [x] (V ++ U)).
    { apply (finv_ic s3 c [x] U); [done| |].
      - rewrite Hn3. eapply inv_perm; [|exact I]. by rewrite !app_assoc, (Permutation_app_comm V).
      - rewrite Hl3. destruct HV as [->|(_ & d & ->)]; cbn; lia. }
    destruct (put_new_file s (set_ic c s3) x V U e s1 F F4 Hl3 Ho3 Hx1 Hu1 HV eq_refl L1) as (s6 & -> & F6 & L6). done.
  - destruct Run as (L & -> & I & _). set (h := fun f : file => mkfile 0 (f_mode f) (f_flags f) (f_count f) (Some i) _ (private_data f)).
    change (file_update x h (set_ic c s3)) with (set_ic c (file_update x h s3)). set (s4 := set_ic c (file_update x h s3)).
    pose proof (fi_count _ _ _ F3 x Hx3) as Hc3.
    assert (F4 : finv s4 [x] U).
    { apply (finv_file s3 x h [x] [x] U U); try done.
      - intros y Hy. right. apply elem_of_app. by right.
      - cbn [h f_count]. intros Hz3. exfalso. rewrite Hz3 in Hc3. rewrite cnt_app, cnt_cons, decide_True in Hc3 by done.
        pose proof (cnt_le x (uses s3)). pose proof (cnt_le x []). lia.
      - intros R I3 _. rewrite Hi3 in I3. cbn [opt app h f_inode] in *. eapply inv_same; [exact I|]. intros j.
        change (cnt j (i :: (inodes s ++ U)) = cnt j (i :: (R ++ U))). rewrite !cnt_cons. f_equal. pose proof (inv_cnt _ _ j I3) as E1. pose proof (inv_cnt _ _ j (fi_inodes _ _ _ F)) as E2.
        change (ic s3) with (ic s) in E1. congruence. }
    assert (Hx4 : (x < length (all_files s4))%nat) by (unfold s4, file_update; cbn; by rewrite length_alter).
    assert (K : exists e s5, match inode_fop (i_body (at_ c i)) with Some o => run_open o i x s4 | None => (0, s4) end = (e, s5) /\ finv s5 [x] U /\ tabs s5 = tabs s1 /\
      length (all_files s5) = length (all_files s) /\ forall y, y <> x -> f_inode (file_at s5 y) = f_inode (file_at s y)).
    { assert (Ho4 : forall y, y <> x -> f_inode (file_at s4 y) = f_inode (file_at s y)).
      { intros y N. rewrite <- (Ho3 y N). change (file_at s4 y) with (file_at (file_update x h s3) y). by rewrite file_update_at, decide_False. }
      assert (Hl4 : length (all_files s4) = length (all_files s)) by (unfold s4, file_update; cbn; by rewrite length_alter).
      destruct (inode_fop (i_body (at_ c i))) as [o|]; [|by eexists _, _]. destruct (run_open_ok o i x s4 _ _ F4 Hx4) as [F5 T5].
      destruct (run_open_files o i x s4 Hx4) as [I5 O5]. destruct (run_open o i x s4) as [e s5]. cbn [snd] in *. exists e, s5.
      split_and!; [done|done|done|by rewrite I5|]. intros y N. by rewrite O5, Ho4. }
    destruct K as (e & s5 & -> & F5 & T5 & I5 & Ho5). assert (L5 : length (tabs s5) = length (tabs s)) by (by rewrite T5).
    destruct (negb (e =? 0)).
    + assert (Hu5 : cnt x (uses s5) = 0) by (unfold uses; by rewrite T5).
      destruct (put_new_file s s5 x [] U e s1 F F5 I5 Ho5 Hx1 Hu5 (or_introl eq_refl) T5 L1) as (s6 & -> & F6 & L6). done.
    + assert (Hfd5 : fd_at s5 p n = None) by (rewrite <- Hfd1; unfold fd_at, tab_at; by rewrite T5).
      assert (Hnew : cnt x (uses s5) = 0).
      { assert (Hu : uses s5 = uses s1) by (unfold uses; by rewrite T5). rewrite Hu. by apply (unused_cnt s1 [] U x F1 Hx Hz). }
      assert (F6 : finv (tab_update p (set_fd n (Some x)) s5) [] U).
      { apply (finv_tab s5 [x]); [done|by rewrite L5|done|by rewrite Hfd5|]. intros y q m [= <-] Hy. apply uses_in in Hy. apply cnt_pos in Hy. lia. }
      set (s6 := tab_update p (set_fd n (Some x)) s5) in *.
      assert (Hr : (Z.of_nat n <? 0) = false) by lia. unfold lost_refs. rewrite Hr. cbn [app]. split.
      * assert (Hx6 : (x < length (all_files s6))%nat).
        { apply (fi_range _ _ _ F6). rewrite app_nil_r. apply (uses_in s6 p n). unfold s6. rewrite (fd_set_at s5 [x] U) by (done || by rewrite L5). by rewrite decide_True. }
        pose proof (fi_count _ _ _ F6 x Hx6) as Hc6. eapply (finv_count s6 x _ [] []); try done.
        -- intros y Hy. by apply not_elem_of_nil in Hy.
        -- intros Hz6. apply (fi_free _ _ _ F6). exact Hz6.
      * unfold s6, file_update, tab_update. cbn [tabs set_all]. by rewrite length_alter.
Qed.

(** ** Processes at work *)

(** The files, and the references to inodes that others hold, or that nobody gives
    back any more: those that an open with O_CREAT loses when a name is too long. *)
Record system := mksystem { fs : files; held : list nat }.

Inductive step : system -> system -> Prop :=
  | step_close s U p n r s' : (p < length (tabs s))%nat -> sys_close p n s = Some (r, s') -> step (mksystem s U) (mksystem s' U)
  | step_dup s U p n arg : (p < length (tabs s))%nat -> 0 <= arg -> step (mksystem s U) (mksystem (dupfd p n arg s).2 U)
  | step_dup2 s U p old new r s' : (p < length (tabs s))%nat -> 0 <= old -> 0 <= new -> sys_dup2 p old new s = Some (r, s') -> step (mksystem s U) (mksystem s' U)
  | step_fcntl s U p n cmd arg : (p < length (tabs s))%nat -> 0 <= arg -> step (mksystem s U) (mksystem (sys_fcntl p n cmd arg s).2 U)
  | step_lseek s U p n off org : step (mksystem s U) (mksystem (sys_lseek p n off org s).2 U)
  | step_fork s U p q s' : (p < length (tabs s))%nat -> (q < length (tabs s))%nat -> (forall n, fd_at s q n = None) -> copy_files p q s = Some s' ->
      step (mksystem s U) (mksystem s' U)
  | step_exit s U p s' : (p < length (tabs s))%nat -> exit_files p s = Some s' -> step (mksystem s U) (mksystem s' U)
  | step_exec s U p s' : (p < length (tabs s))%nat -> exec_close p s = Some s' -> step (mksystem s U) (mksystem s' U)
  | step_open s U ctx p dirfd name flags r s' : (p < length (tabs s))%nat -> Namei.others (Namei.shared ctx) (ic s) (inodes s ++ U) ->
      dirfd = Namei.AT_FDCWD \/ 0 <= dirfd -> Z.of_nat (length (all_files s) + S (length U)) < 2 ^ 32 - 16 ->
      do_openat ctx p dirfd name flags s = Some (r, s') -> step (mksystem s U) (mksystem s' (lost_refs r (ic s) (ic s') ++ U))
  | step_inode s U c R U' : Inode.step (mksys (ic s) (inodes s ++ U)) (mksys c R) -> R ≡ₚ inodes s ++ U' ->
      Z.of_nat (length (all_files s) + length U') < 2 ^ 32 - 16 -> step (mksystem s U) (mksystem (set_ic c s) U').

(** [n] files and [k] processes. *)
Definition empty_table : table := mktable (replicate NR_OPEN None) (replicate NR_OPEN false).
Definition file_init (n k : nat) (c : cache B W) (d : D) : files := mkfiles (replicate n no_file) (replicate k empty_table) c d.

Inductive reach : system -> Prop :=
  | reach_init n k c d U : inv (mksys c U) -> Z.of_nat (n + length U) < 2 ^ 32 - 16 -> reach (mksystem (file_init n k c d) U)
  | reach_next s s' : reach s -> step s s' -> reach s'.

Lemma init_finv n k c d U : inv (mksys c U) -> Z.of_nat (n + length U) < 2 ^ 32 - 16 -> finv (file_init n k c d) [] U.
Proof.
  intros I L. assert (Hu : uses (file_init n k c d) = []).
  { unfold uses, file_init. cbn [tabs]. induction k as [|k IH]; [done|]. cbn [replicate map concat]. rewrite IH. by vm_compute. }
  assert (Hat : forall x, file_at (file_init n k c d) x = no_file).
  { intros x. unfold file_at, file_init. cbn [all_files]. destruct (replicate n no_file !! x) as [f|] eqn:E; [|done]. by apply lookup_replicate in E as [-> _]. }
  assert (Hfd : forall p m, fd_at (file_init n k c d) p m = None).
  { intros p m. unfold fd_at, tab_at, file_init. cbn [tabs]. destruct (replicate k empty_table !! p) as [t|] eqn:E; [|done].
    apply lookup_replicate in E as [-> _]. change (mjoin (replicate NR_OPEN (@None nat) !! m) = None).
    destruct (replicate NR_OPEN (@None nat) !! m) as [o|] eqn:E2; [|done]. apply lookup_replicate in E2 as [-> _]. done. }
  constructor.
  - intros x _. by rewrite Hat, Hu.
  - intros x. rewrite Hu. intros Hx. by apply not_elem_of_nil in Hx.
  - intros x _. by rewrite Hat.
  - assert (Hi : inodes (file_init n k c d) = []).
    { unfold inodes, file_init. cbn [all_files]. clear. by induction n as [|n IH]; [|cbn [replicate map concat]; rewrite IH]. }
    by rewrite Hi.
  - unfold file_init. cbn [all_files]. by rewrite length_replicate.
  - intros t Ht. unfold file_init in Ht. cbn [tabs] in Ht. apply elem_of_replicate in Ht as [-> _]. exact (length_replicate NR_OPEN None).
  - intros p q m m' x H. by rewrite Hfd in H.
Qed.

Lemma dup_finv s U p n arg : finv s [] U -> (p < length (tabs s))%nat -> 0 <= arg -> finv (dupfd p n arg s).2 [] U.
Proof. intros F Hp Ha. pose proof (dupfd_ok s U p n arg F Hp Ha) as T. destruct (dupfd p n arg s). apply T. Qed.

Lemma finv_file_keep s U x g : finv s [] U -> (forall f, f_count (g f) = f_count f /\ f_inode (g f) = f_inode f) -> finv (file_update x g s) [] U.
Proof.
  intros F Hg. destruct (decide (x < length (all_files s))%nat) as [Hx|Hx].
  - pose proof (fi_count _ _ _ F x Hx) as Hc. destruct (Hg (file_at s x)) as [E1 E2]. apply (finv_count s x g [] []); try done.
    + intros y Hy. by apply not_elem_of_nil in Hy.
    + by rewrite E1.
    + rewrite E1. apply (fi_free _ _ _ F).
  - assert (E : file_update x g s = s); [|by rewrite E]. unfold file_update, set_all. assert (E : alter g x (all_files s) = all_files s).
    { clear -Hx. revert x Hx. induction (all_files s) as [|f l IH]; intros [|x] Hx; cbn in *; [done|done|lia|]. rewrite IH; [done|lia]. }
    rewrite E. by destruct s.
Qed.

Lemma dup2_ok s U p old new : finv s [] U -> (p < length (tabs s))%nat -> 0 <= old -> 0 <= new ->
  exists r s', sys_dup2 p old new s = Some (r, s') /\ finv s' [] U /\ length (tabs s') = length (tabs s) /\
  match (if old <? Z.of_nat NR_OPEN then fd_at s p (Z.to_nat old) else None) with
  | None => r = - EBADF /\ s' = s
  | Some x =>
    if new =? old then r = new /\ s' = s else
    if new >=? Z.of_nat NR_OPEN then r = - EBADF /\ s' = s else
    r = new /\ (forall q m, fd_at s' q m = if decide (q = p /\ m = Z.to_nat new) then Some x else fd_at s q m)
  end.
Proof.
  intros F Hp H0 Hnew. unfold sys_dup2. rewrite (Z.geb_leb old). destruct (Z.leb_spec (Z.of_nat NR_OPEN) old) as [Ho|Ho].
  { rewrite (proj2 (Z.ltb_ge _ _)) by lia. cbn [orb]. eexists _, _. by split_and!. }
  rewrite (proj2 (Z.ltb_lt _ _)) by lia. cbn [orb]. destruct (fd_at s p (Z.to_nat old)) as [x|] eqn:Ex.
  2:{ rewrite bool_decide_eq_true_2 by done. eexists _, _. by split_and!. }
  rewrite bool_decide_eq_false_2 by done. destruct (Z.eqb_spec new old) as [|Ne]; [eexists _, _; by split_and!|].
  destruct (Z.geb_spec new (Z.of_nat NR_OPEN)) as [|Hn]; [eexists _, _; by split_and!|].
  destruct (close_ok s U p new F Hp) as (r1 & s1 & E1 & F1 & L1 & C1). rewrite E1. cbn [option_bind mbind snd].
  assert (Hfd : forall q m, fd_at s1 q m = if decide (q = p /\ m = Z.to_nat new) then None else fd_at s q m).
  { destruct (_ && _) eqn:Eb; destruct C1 as [_ C1]; [done|]. intros q m. rewrite C1. destruct (decide (q = p /\ m = Z.to_nat new)) as [[-> ->]|]; [|done].
    rewrite (proj2 (Z.ltb_lt _ _)) in Eb by lia. cbn [andb] in Eb. apply bool_decide_eq_false in Eb. by destruct (fd_at s p (Z.to_nat new)); [destruct Eb|]. }
  pose proof (dupfd_ok s1 U p old new F1 ltac:(by rewrite L1) Hnew) as T. destruct (dupfd p old new s1) as [r s2]. destruct T as (F2 & L2 & T).
  exists r, s2. split; [done|]. split; [done|]. split; [by rewrite L2|]. rewrite (proj2 (Z.ltb_lt old _)) in T by lia.
  assert (Hold : fd_at s1 p (Z.to_nat old) = Some x).
  { rewrite Hfd, decide_False; [done|]. intros [_ H]. apply Ne. lia. }
  rewrite Hold, (Z.geb_leb new), (proj2 (Z.leb_gt (Z.of_nat NR_OPEN) new)) in T by lia.
  assert (Ha : next_free (NR_OPEN - Z.to_nat new) (Z.to_nat new) s1 p = Z.to_nat new).
  { destruct (NR_OPEN - Z.to_nat new)%nat eqn:E; [lia|]. cbn [next_free]. by rewrite Hfd, decide_True. }
  cbv zeta in T. rewrite Ha, (proj2 (Nat.leb_gt NR_OPEN (Z.to_nat new))) in T by lia. destruct T as (-> & T & _). split; [lia|].
  intros q m. rewrite T, Hfd. by destruct (decide (q = p /\ m = Z.to_nat new)).
Qed.

Lemma fcntl_finv s U p n cmd arg : finv s [] U -> (p < length (tabs s))%nat -> 0 <= arg -> finv (sys_fcntl p n cmd arg s).2 [] U.
Proof.
  intros F Hp Ha. unfold sys_fcntl. destruct (n >=? Z.of_nat NR_OPEN); [done|]. destruct (fd_at s p (Z.to_nat n)) as [x|]; [|done].
  destruct (cmd =? F_DUPFD); [by apply dup_finv|]. destruct (cmd =? F_GETFD); [done|]. destruct (cmd =? F_SETFD); [by apply finv_mark|].
  destruct (cmd =? F_GETFL); [done|]. destruct (cmd =? F_SETFL); [|done]. by apply finv_file_keep.
Qed.

Lemma lseek_finv s U p n off org : finv s [] U -> finv (sys_lseek p n off org s).2 [] U.
Proof.
  intros F. unfold sys_lseek. destruct (n >=? Z.of_nat NR_OPEN); [done|]. destruct (fd_at s p (Z.to_nat n)) as [x|]; [|done].
  destruct (f_inode (file_at s x)) as [i|]; [|done]. destruct (org >? 2); [done|]. cbv zeta. destruct (_ || _); [done|]. by apply finv_file_keep.
Qed.

Lemma step_finv s s' : finv (fs s) [] (held s) -> step s s' -> finv (fs s') [] (held s').
Proof.
  intros F St. destruct St as [s U p n r s' Hp E|s U p n arg Hp Ha|s U p old new r s' Hp Ho Hn E|s U p n cmd arg Hp Ha|s U p n off org|s U p q s' Hp Hq Hn E|
    s U p s' Hp E|s U p s' Hp E|s U ctx p dirfd name flags r s' Hp O Hd Hroom E|s U c R U' St P L]; cbn [fs held] in *.
  - destruct (close_ok s U p n F Hp) as (r' & s1 & E' & F1 & _). rewrite E in E'. by injection E' as _ <-.
  - by apply dup_finv.
  - destruct (dup2_ok s U p old new F Hp Ho Hn) as (r' & s1 & E' & F1 & _). rewrite E in E'. by injection E' as _ <-.
  - by apply fcntl_finv.
  - by apply lseek_finv.
  - destruct (copy_files_ok s U p q F Hp Hq Hn) as (s1 & E' & F1 & _). rewrite E in E'. by injection E' as <-.
  - destruct (close_from_ok NR_OPEN 0 p (fun s n => bool_decide (fd_at s p n <> None)) s U F Hp) as (s1 & E' & F1 & _). unfold exit_files in E.
    rewrite E in E'. by injection E' as <-.
  - unfold exec_close in E. destruct (close_from_ok NR_OPEN 0 p (fun s n => FD_ISSET n (tab_at s p)) s U F Hp) as (s1 & E' & F1 & _). rewrite E' in E.
    cbn [option_bind mbind] in E. injection E as <-. by apply finv_mark.
  - pose proof (do_openat_ok ctx s U p dirfd name flags F Hp O Hd Hroom) as T. rewrite E in T. apply T.
  - pose proof (step_inv _ _ (fi_inodes _ _ _ F) St) as [I _]. apply (finv_ic s c [] U); [done| |done]. by eapply inv_perm.
Qed.

Lemma reach_finv s : reach s -> finv (fs s) [] (held s).
Proof. induction 1 as [n k c d U I L|s s' _ IH St]; [by apply init_finv|by eapply step_finv]. Qed.


(** C30: [dup2]: a descriptor that is not open, [-EBADF] and nothing changes; the
    same number, it; one that is too large, [-EBADF] and nothing changes; else the
    new descriptor names the file of the old one, whatever it named before, which
    is closed, and no other descriptor of any process changes. *)
Theorem dup2_exact s p old new : reach s -> (p < length (tabs (fs s)))%nat -> 0 <= old -> 0 <= new ->
  exists r s', sys_dup2 p old new (fs s) = Some (r, s') /\ finv s' [] (held s) /\
  match (if old <? Z.of_nat NR_OPEN then fd_at (fs s) p (Z.to_nat old) else None) with
  | None => r = - EBADF /\ s' = fs s
  | Some x =>
    if new =? old then r = new /\ s' = fs s else
    if new >=? Z.of_nat NR_OPEN then r = - EBADF /\ s' = fs s else
    r = new /\ (forall q m, fd_at s' q m = if decide (q = p /\ m = Z.to_nat new) then Some x else fd_at (fs s) q m)
  end.
Proof.
  intros R Hp Ho Hn. destruct (dup2_ok (fs s) (held s) p old new (reach_finv s R) Hp Ho Hn) as (r & s' & E & F & _ & T). by exists r, s'.
Qed.

(** a process that exits closes every descriptor it has and no other. *)
Theorem exit_closes_all s p : reach s -> (p < length (tabs (fs s)))%nat ->
  exists s', exit_files p (fs s) = Some s' /\ finv s' [] (held s) /\ (forall n, fd_at s' p n = None) /\
    forall q n, q <> p -> fd_at s' q n = fd_at (fs s) q n.
Proof.
  intros R Hp. destruct (close_from_ok NR_OPEN 0 p (fun s n => bool_decide (fd_at s p n <> None)) (fs s) (held s) (reach_finv s R) Hp)
    as (s' & E & F & L & O & _ & C). exists s'. split_and!; [done|done| |done].
  intros n. destruct (decide (n < NR_OPEN)%nat) as [Hn|Hn]; [apply C; [done|lia|done]|].
  destruct (fd_at s' p n) as [x|] eqn:Ex; [|done]. apply (fd_small s' [] (held s)) in Ex; [lia|done].
Qed.

(** C40: a child gets files of its own: its descriptors name files that nobody had,
    so moving in one of them does not move the parent, as it would if the two shared
    the open file. *)
Theorem fork_separates_offsets s p q s' n x y off org : reach s -> (p < length (tabs (fs s)))%nat -> (q < length (tabs (fs s)))%nat ->
  (forall n, fd_at (fs s) q n = None) -> copy_files p q (fs s) = Some s' -> p <> q ->
  fd_at s' p n = Some x -> fd_at s' q n = Some y ->
  x <> y /\ fd_at (fs s) p n = Some x /\ f_pos (file_at (sys_lseek q (Z.of_nat n) off org s').2 x) = f_pos (file_at s' x).
Proof.
  intros R Hp Hq Hn E Npq Hx Hy. destruct (copy_files_ok (fs s) (held s) p q (reach_finv s R) Hp Hq Hn) as (s1 & E1 & F1 & _ & O1 & N1 & _).
  rewrite E in E1. injection E1 as <-. assert (Hxy : x <> y).
  { intros ->. apply Npq. by apply (fi_one _ _ _ F1 p q n n y). }
  split; [done|]. split; [by rewrite <- O1|]. unfold sys_lseek. destruct (Z.of_nat n >=? Z.of_nat NR_OPEN); [done|]. rewrite Nat2Z.id, Hy.
  destruct (f_inode (file_at s' y)) as [i|]; [|done]. destruct (org >? 2); [done|]. cbv zeta. destruct (_ || _); [done|]. cbn [snd].
  pose proof (fi_range _ _ _ F1 y) as Hr. rewrite file_update_at by (apply Hr; apply elem_of_app; left; by eapply uses_in). by rewrite decide_False.
Qed.

(** cutting a directory by its path fails and leaves the reference of the path
    behind: nobody has it, and its file system cannot be unmounted any more. *)
Theorem truncate_leaks truncate s U i sb root : inv (mksys (ic s) (i :: U)) -> s_isdir (i_body (at_ (ic s) i)) = true ->
  i_sb (at_ (ic s) i) = Some sb -> i <> root ->
  exists s', sys_truncate truncate i s = Some (- EACCES, s') /\ i_count (at_ (ic s') i) = cnt i U + 1 /\ fs_may_umount sb root (ic s') = false.
Proof.
  intros I Hd Hsb Nr. unfold sys_truncate. rewrite Hd. exists s. split; [done|]. split; [rewrite (inv_cnt _ _ i I), cnt_cons, decide_True by done; done|].
  destruct (fs_may_umount sb root (ic s)) eqn:E; [|done]. exfalso. apply Nr.
  apply (proj1 (fs_may_umount_ok (mksys (ic s) (i :: U)) sb root I) E i); [apply elem_of_cons; by left|done].
Qed.
End Files.
Arguments files B W D : clear implicits.
Arguments system B W D : clear implicits.

(** ** A process that opens the file of the small tree *)

#[local] Existing Instance Namei.tree.
#[local] Existing Instance Namei.tree_laws.

(** A driver that counts the files it has open. *)
#[export] Instance counting : FileOps Z Z := {|
  inode_fop b := if b =? 7 then Some 1%nat else None;
  fop_open o i f d := (0, Some o, 5, d + 1);
  fop_release o i f d := d - 1;
  is_fifo b := false;
  fifo_dup i m d := d;
  i_size b := b;
|}.

Definition start : files Z (Z -> Z) Z := file_init 6 2 Namei.tree_cache 0.
Definition or_else {A} (d : A) (o : option A) : A := match o with Some a => a | None => d end.
Definition is_some {A} (o : option A) : bool := match o with Some _ => true | None => false end.
Lemma or_else_some {A} (d : A) o : is_some o = true -> o = Some (or_else d o).
Proof. by destruct o. Qed.

(** The first process opens [l]. *)
Definition opened : Z * files Z (Z -> Z) Z := or_else (0, start) (do_openat Namei.tree_ctx 0 Namei.AT_FDCWD [108] 0 start).
Definition sys1 : system Z (Z -> Z) Z := mksystem opened.2 [0%nat; 0%nat].
(** Then it forks. *)
Definition forked : files Z (Z -> Z) Z := or_else start (copy_files 0 1 (fs sys1)).

Lemma start_reach : reach (mksystem start [0%nat; 0%nat]).
Proof. apply reach_init; [exact Namei.tree_inv|done]. Qed.

Lemma open_some : is_some (do_openat Namei.tree_ctx 0 Namei.AT_FDCWD [108] 0 start) = true.
Proof. by vm_compute. Qed.
Lemma open_eq : do_openat Namei.tree_ctx 0 Namei.AT_FDCWD [108] 0 start = Some opened.
Proof. exact (or_else_some (0, start) _ open_some). Qed.

Lemma pair_eq {A C} (r : A * C) (o : option (A * C)) : o = Some r -> o = Some (r.1, r.2).
Proof. by destruct r. Qed.

Lemma start_others : Namei.others (Namei.shared Namei.tree_ctx) (ic start) (inodes start ++ [0%nat; 0%nat]).
Proof. assert (Hi : inodes start = []) by (by vm_compute). rewrite Hi. exact Namei.tree_others2. Qed.

Lemma lt_start : (0 < length (tabs start))%nat.
Proof. vm_compute. lia. Qed.

Lemma opened_reach : reach sys1.
Proof.
  eapply reach_next; [exact start_reach|].
  exact (step_open start [0%nat; 0%nat] Namei.tree_ctx 0 Namei.AT_FDCWD [108] 0 _ _ lt_start start_others (or_introl eq_refl) eq_refl (pair_eq _ _ open_eq)).
Qed.

Lemma opened_facts : fd_at (fs sys1) 0 0 = Some 0%nat /\ length (tabs (fs sys1)) = 2%nat /\ length (all_files (fs sys1)) = 6%nat /\
  f_count (file_at (fs sys1) 0) = 1.
Proof. split_and!; by vm_compute. Qed.

Lemma fork_some : is_some (copy_files 0 1 (fs sys1)) = true.
Proof. by vm_compute. Qed.
Lemma fork_eq : copy_files 0 1 (fs sys1) = Some forked.
Proof. exact (or_else_some start _ fork_some). Qed.

Lemma forked_facts : fd_at forked 0 0 = Some 0%nat /\ fd_at forked 1 0 = Some 1%nat.
Proof. split; by vm_compute. Qed.

Lemma second_empty n : fd_at (fs sys1) 1 n = None.
Proof.
  assert (H : fd (tab_at (fs sys1) 1) = replicate NR_OPEN None) by (by vm_compute). unfold fd_at. rewrite H.
  destruct (replicate NR_OPEN (@None nat) !! n) as [o|] eqn:E; [|done]. by apply lookup_replicate in E as [-> _].
Qed.

Lemma lt0 : (0 < length (tabs (fs sys1)))%nat.
Proof. rewrite (proj1 (proj2 opened_facts)). lia. Qed.
Lemma lt1 : (1 < length (tabs (fs sys1)))%nat.
Proof. rewrite (proj1 (proj2 opened_facts)). lia. Qed.


Lemma opened_fd : (if 0 <? Z.of_nat NR_OPEN then fd_at (fs sys1) 0 (Z.to_nat 0) else None) = Some 0%nat.
Proof. by vm_compute. Qed.
Lemma five : (5 =? 0) = false /\ (5 >=? Z.of_nat NR_OPEN) = false.
Proof. by split. Qed.

Lemma dup2_exact_witness : exists s', sys_dup2 0 0 5 (fs sys1) = Some (5, s') /\ fd_at s' 0 (Z.to_nat 5) = Some 0%nat.
Proof.
  destruct (dup2_exact sys1 0 0 5 opened_reach lt0) as (r & s' & E & _ & T); [lia|lia|].
  rewrite opened_fd, (proj1 five), (proj2 five) in T. destruct T as [Er T]. rewrite Er in E. exists s'. split; [exact E|].
  rewrite T. destruct (decide (0%nat = 0%nat /\ Z.to_nat 5 = Z.to_nat 5)) as [_|N]; [reflexivity|]. exfalso. exact (N (conj eq_refl eq_refl)).
Defined.

Lemma exit_closes_all_witness : exists s', exit_files 0 (fs sys1) = Some s' /\ fd_at s' 0 0 = None.
Proof.
  destruct (exit_closes_all sys1 0 opened_reach lt0) as (s' & E & _ & C & _).
  exists s'. split; [exact E|apply C].
Defined.

Lemma fork_separates_offsets_witness : f_pos (file_at (sys_lseek 1 0 3 0 forked).2 0) = f_pos (file_at forked 0) /\ f_pos (file_at (sys_lseek 1 0 3 0 forked).2 1) = 3.
Proof.
  assert (N : 0%nat <> 1%nat) by discriminate.
  destruct (fork_separates_offsets sys1 0 1 forked 0 0 1 3 0 opened_reach lt0 lt1 second_empty fork_eq N
    (proj1 forked_facts) (proj2 forked_facts)) as (_ & _ & E). split; [exact E|]. vm_compute. reflexivity.
Defined.

Lemma truncate_leaks_witness : exists s', sys_truncate None 0%nat start = Some (- EACCES, s') /\ fs_may_umount 0 1%nat (ic s') = false.
Proof.
  assert (Hd : s_isdir (i_body (at_ (ic start) 0%nat)) = true) by (by vm_compute). assert (Hs : i_sb (at_ (ic start) 0%nat) = Some 0%nat) by (by vm_compute).
  assert (N : 0%nat <> 1%nat) by discriminate.
  destruct (truncate_leaks None start [0%nat] 0%nat 0%nat 1%nat Namei.tree_inv Hd Hs N) as (s' & E & _ & U). exists s'. exact (conj E U).
Defined.
End Files.
