(* ===== verification/Socket.v ===== *)
(** * The data of a local socket ([fs/socket.c])

    What waits to be read from one end of a connection: a queue of bytes, of the
    class [ByteQueue], and a ring of the files that were sent along ([unix_right]),
    each with the positions in the stream of the bytes it came with.  The operations
    are the parts of the calls that run under the lock of the pair, when nothing
    makes them wait or fail before; the areas of the user are taken as accessible. *)
From S2P Require Import Prelude ByteQueue.

Module Socket.

Definition UNIX_RIGHTS_MAX : nat := 16.

(** [struct unix_right]: a file, and the bytes of the message it came with, as
    positions in the stream. *)
Record right := mkright { r_file : nat; position : Z; r_end : Z }.

Definition no_right : right := mkright 0 0 0.

Section Socket.
Context {Q : Type} {BQ : ByteQueue Q} {BS : QueueStore Q}.

(** ** What waits at one end

    The fields of [struct unix_socket] for reception. *)
Record chan := mkchan {
  receive : Q;
  rights : list right;
  rights_head : nat;
  rights_tail : nat;
  rights_count : nat;
  read_position : Z;
  write_position : Z;
}.

Definition new_chan (page : list Z) : chan := mkchan (bq_new page) (replicate UNIX_RIGHTS_MAX no_right) 0 0 0 0 0.

Definition next_right (i : nat) : nat := (i + 1) `mod` UNIX_RIGHTS_MAX.

Definition head_right (c : chan) : option right :=
  if (rights_count c =? 0)%nat then None else rights c !! rights_head c.
Definition pop_right (c : chan) : chan :=
  mkchan (receive c) (rights c) (next_right (rights_head c)) (rights_tail c) (rights_count c - 1) (read_position c) (write_position c).

(** [false] is [-EAGAIN].  The count of the file is not part of the state: the
    reference that [fref] takes goes with the entry. *)
Definition socket_queue_right (r : right) (c : chan) : bool * chan :=
  if (rights_count c =? UNIX_RIGHTS_MAX)%nat then (false, c) else
  (true, mkchan (receive c) (<[rights_tail c := r]> (rights c)) (rights_head c) (next_right (rights_tail c)) (rights_count c + 1)
           (read_position c) (write_position c)).

Definition set_receive (q : Q) (c : chan) : chan :=
  mkchan q (rights c) (rights_head c) (rights_tail c) (rights_count c) (read_position c) (write_position c).
Definition set_read (p : Z) (c : chan) : chan :=
  mkchan (receive c) (rights c) (rights_head c) (rights_tail c) (rights_count c) p (write_position c).
Definition set_write (p : Z) (c : chan) : chan :=
  mkchan (receive c) (rights c) (rights_head c) (rights_tail c) (rights_count c) (read_position c) p.

(** The files of rights are released in some state [S] of the rest of the system;
    the channel is in hand meanwhile, since its lock is held or its socket is
    about to be freed. *)
Section rights.
Context {S : Type} (rel : nat -> S -> option S).

Fixpoint discard_loop (fuel : nat) (pos : Z) (c : chan) (s : S) : option (chan * S) :=
  match fuel, head_right c with
  | Datatypes.S fuel, Some r =>
    if position r <? pos then s ← rel (r_file r) s; discard_loop fuel pos (pop_right c) s else Some (c, s)
  | _, _ => Some (c, s)
  end.
Definition socket_discard_rights (pos : Z) (c : chan) (s : S) : option (chan * S) := discard_loop (rights_count c) pos c s.

Fixpoint drain_loop (fuel : nat) (c : chan) (s : S) : option (chan * S) :=
  match fuel, head_right c with
  | Datatypes.S fuel, Some r => s ← rel (r_file r) s; drain_loop fuel (pop_right c) s
  | _, _ => Some (c, s)
  end.

Definition socket_take_right (start e : Z) (c : chan) (s : S) : option (option nat * chan * S) :=
  d ← socket_discard_rights start c s;
  let '(c, s) := d in
  match head_right c with
  | Some r => if (position r =? start) && (e >? start) then Some (Some (r_file r), pop_right c, s) else Some (None, c, s)
  | None => Some (None, c, s)
  end.

(** How far a read that takes rights may go; [count] is an [int]. *)
Definition limit (c : chan) (start count : Z) : Z :=
  match head_right c with
  | None => count
  | Some r =>
    if (position r >? start) && (position r <? u32 (start + count)) then s32 (position r - start)
    else if (position r =? start) && (r_end r <? u32 (start + count)) then s32 (r_end r - start)
    else count
  end.

(** The body of [socket_read_data] when there are bytes; [want] is that the caller
    takes a right: the bytes, their number and the file. *)
Definition take_data (want : bool) (count : Z) (c : chan) (s : S) : option (Z * list Z * option nat * chan * S) :=
  let start := read_position c in
  d ← (if want then socket_discard_rights start c s else Some (c, s));
  let '(c, s) := d in
  let count := if want then limit c start count else count in
  let '(q, out, n) := bq_read (receive c) (u32 count) in
  let c := set_read (u32 (start + n)) (set_receive q c) in
  t ← (if want then socket_take_right start (read_position c) c s else Some (None, c, s));
  let '(f, c, s) := t in
  d ← (match f with None => socket_discard_rights (read_position c) c s | Some _ => Some (c, s) end);
  let '(c, s) := d in
  Some (n, out, f, c, s).

(** [sys_shutdown] of the reading side. *)
Definition shut_read (c : chan) (s : S) : option (chan * S) :=
  let c := set_read (write_position c) (set_receive (bq_clear (receive c)) c) in
  socket_discard_rights (read_position c) c s.
End rights.

(** The bytes that [socket_write] puts into the queue of its peer; the call waits, or
    gives [-EAGAIN], when there are none. *)
Definition put_data (buf : list Z) (c : chan) : Z * chan :=
  let '(q, n) := bq_write (receive c) buf (zlength buf) in
  (n, set_write (u32 (write_position c + n)) (set_receive q c)).

(** The writes of a message with a right; [None] is the assertion. *)
Fixpoint put_iovs (iov : list (list Z)) (q : Q) : option Q :=
  match iov with
  | [] => Some q
  | b :: iov =>
    if zlength b =? 0 then put_iovs iov q else
    let '(q, n) := bq_write q b (zlength b) in
    assert! n =? zlength b ;; put_iovs iov q
  end.

(** A message with a right, whole or not at all: whether it was put. *)
Definition put_message (f : nat) (iov : list (list Z)) (len : Z) (c : chan) : option (bool * chan) :=
  if negb (rights_count c =? UNIX_RIGHTS_MAX)%nat && (bq_space (receive c) >=? len) then
    let pos := write_position c in
    q ← put_iovs iov (receive c);
    let c := (socket_queue_right (mkright f pos (u32 (pos + len))) (set_receive q c)).2 in
    Some (true, set_write (u32 (write_position c + len)) c)
  else Some (false, c).
End Socket.

End Socket.
