(* ===== verification/SocketChan.v ===== *)
(** * The stream of a socket

    The queue of bytes and the ring of files with their positions are one list of
    bytes, some of them marked with the file that came with them. *)
From Stdlib Require Import ZifyNat.
From S2P Require Import Prelude ByteQueue RingBuffer Socket.
Import Socket.

Module SocketChan.

(** ** What is promised

    A byte, and for the first one of a message with a file, the file and the length
    of the message. *)
Definition item : Type := Z * option (nat * nat).
Definition plain (b : Z) : item := (b, None).
Definition message (f : nat) (buf : list Z) : list item :=
  match buf with [] => [] | b :: rest => (b, Some (f, length buf)) :: map plain rest end.
Definition files_of (l : list item) : list nat := map fst (omap snd l).

(** How many bytes come before the next file. *)
Fixpoint unmarked (l : list item) : nat := match l with (_, None) :: l => S (unmarked l) | _ => 0 end.

(** A receive takes one file at most: it ends with the message of the file, or in
    front of the next one. *)
Definition reach (count : nat) (l : list item) : nat :=
  Nat.min count (match l with (_, Some (_, m)) :: _ => m | _ => unmarked l end).
Definition head_file (l : list item) : option nat := match l with (_, Some (f, _)) :: _ => Some f | _ => None end.

(** [RFull]: the message does not fit, now or ever, and the call waits or fails. *)
Inductive op := OWrite (buf : list Z) | OSend (f : nat) (iov : list (list Z)) | ORead (count : Z) | ORecv (count : Z) | OShut.
Inductive res := RNum (n : Z) | RFull | REmpty | RGot (bytes : list Z) (f : option nat) | RDone.

(** The stream: what is in it, and the files that nobody took. *)
Definition step (size : Z) (o : op) (st : list item * list nat) : res * (list item * list nat) :=
  let '(l, lost) := st in
  match o with
  | OWrite buf => let n := Z.to_nat (Z.min (zlength buf) (size - zlength l)) in (RNum (Z.of_nat n), (l ++ map plain (take n buf), lost))
  | OSend f iov =>
    let buf := concat iov in
    if bool_decide (buf = []) then (RNum 0, st) else
    if (length (files_of l) <? UNIX_RIGHTS_MAX)%nat && (zlength l + zlength buf <=? size) then (RNum (zlength buf), (l ++ message f buf, lost))
    else (RFull, st)
  | ORead count =>
    if bool_decide (l = []) then (REmpty, st) else
    let n := Z.to_nat count in (RGot (map fst (take n l)) None, (drop n l, lost ++ files_of (take n l)))
  | ORecv count =>
    if bool_decide (l = []) then (REmpty, st) else
    let n := reach (Z.to_nat count) l in (RGot (map fst (take n l)) (head_file l), (drop n l, lost))
  | OShut => (RDone, ([], lost ++ files_of l))
  end.

Fixpoint run (size : Z) (ops : list op) (st : list item * list nat) : list res * (list item * list nat) :=
  match ops with
  | [] => ([], st)
  | o :: ops => let '(r, st) := step size o st in let '(rs, st) := run size ops st in (r :: rs, st)
  end.

Section chan.
Context {Q : Type} `{QL : ByteQueueLaws Q} `{SL : !QueueStore Q} `{!QueueStoreLaws Q}.

(** ** What the code does

    The files that nobody takes are released, which is recorded. *)

Definition log (f : nat) (l : list nat) : option (list nat) := Some (l ++ [f]).

Definition chan_step (o : op) (st : chan (Q := Q) * list nat) : option (res * (chan (Q := Q) * list nat)) :=
  let '(c, lost) := st in
  match o with
  | OWrite buf => let '(n, c) := put_data buf c in Some (RNum n, (c, lost))
  | OSend f iov =>
    let len := zlength (concat iov) in
    if len =? 0 then Some (RNum 0, st) else
    r ← put_message f iov len c; Some (if (r.1 : bool) then RNum len else RFull, (r.2, lost))
  | ORead count | ORecv count =>
    if bq_empty (receive c) then Some (REmpty, st) else
    t ← take_data log (match o with ORecv _ => true | _ => false end) count c lost;
    let '(n, out, f, c, lost) := t in Some (RGot out f, (c, lost))
  | OShut => d ← shut_read log c lost; Some (RDone, d)
  end.

Fixpoint chan_run (ops : list op) (st : chan (Q := Q) * list nat) : option (list res * (chan (Q := Q) * list nat)) :=
  match ops with
  | [] => Some ([], st)
  | o :: ops => r ← chan_step o st; rs ← chan_run ops r.2; Some (r.1 :: rs.1, rs.2)
  end.

(** ** The ring of files *)

Definition at_head (c : chan (Q := Q)) (i : nat) : nat := ((rights_head c + i) `mod` UNIX_RIGHTS_MAX)%nat.
Definition queued (c : chan (Q := Q)) : list right := map (fun i => default no_right (rights c !! at_head c i)) (seq 0 (rights_count c)).

Record rwf (c : chan (Q := Q)) : Prop := {
  rw_len : length (rights c) = UNIX_RIGHTS_MAX;
  rw_head : (rights_head c < UNIX_RIGHTS_MAX)%nat;
  rw_count : (rights_count c <= UNIX_RIGHTS_MAX)%nat;
  rw_tail : rights_tail c = at_head c (rights_count c);
}.

Ltac mod16 := unfold at_head, next_right, UNIX_RIGHTS_MAX in *; zify; Z.to_euclidean_division_equations; lia.

Lemma queued_length c : length (queued c) = rights_count c.
Proof. unfold queued. by rewrite length_map, length_seq. Qed.

Lemma head_right_spec c : rwf c -> head_right c = head (queued c).
Proof.
  intros [Hl Hh Hc Ht]. unfold head_right, queued. destruct (rights_count c) as [|n]; [done|]. cbn [seq map head Nat.eqb].
  replace (at_head c 0) with (rights_head c) by mod16.
  assert (Hs : is_Some (rights c !! rights_head c)) by (apply lookup_lt_is_Some_2; lia). destruct Hs as [r Hr]. by rewrite Hr.
Qed.

Lemma pop_right_spec c : rwf c -> (rights_count c > 0)%nat -> queued (pop_right c) = tail (queued c) /\ rwf (pop_right c).
Proof.
  intros [Hl Hh Hc Ht] Hp. unfold queued, pop_right. cbn [rights_count rights]. destruct (rights_count c) as [|n]; [lia|].
  replace (S n - 1)%nat with n by lia. split.
  - cbn [seq map tail]. rewrite <- seq_shift, map_map. apply map_ext. intros i. do 2 f_equal. unfold at_head. cbn [rights_head]. mod16.
  - split; cbn [rights rights_head rights_count rights_tail]; [done|mod16|lia|]. rewrite Ht. unfold at_head. cbn [rights_head]. mod16.
Qed.

Lemma queue_right_spec r c : rwf c -> (rights_count c < UNIX_RIGHTS_MAX)%nat ->
  socket_queue_right r c = (true, (socket_queue_right r c).2) /\ queued (socket_queue_right r c).2 = queued c ++ [r] /\ rwf (socket_queue_right r c).2 /\
  receive (socket_queue_right r c).2 = receive c /\ read_position (socket_queue_right r c).2 = read_position c /\ write_position (socket_queue_right r c).2 = write_position c.
Proof.
  intros [Hl Hh Hc Ht] Hlt. unfold socket_queue_right. destruct (Nat.eqb_spec (rights_count c) UNIX_RIGHTS_MAX) as [E|_]; [lia|].
  cbn [snd]. split; [done|]. split; [|split; [|done]].
  - unfold queued. cbn [rights_count rights]. rewrite seq_app, map_app. cbn [seq map]. f_equal.
    + apply map_ext_in. intros i [_ Hi]%in_seq. unfold at_head at 1. cbn [rights_head]. change ((rights_head c + i) `mod` UNIX_RIGHTS_MAX)%nat with (at_head c i).
      rewrite list_lookup_insert_ne; [done|]. rewrite Ht. mod16.
    + unfold at_head at 1. cbn [rights_head]. change ((rights_head c + (0 + rights_count c)) `mod` UNIX_RIGHTS_MAX)%nat with (at_head c (rights_count c)).
      rewrite <- Ht, list_lookup_insert_eq; [done|]. rewrite Hl, Ht. mod16.
  - split; cbn [rights rights_head rights_count rights_tail]; [by rewrite length_insert|done|lia|]. rewrite Ht. unfold at_head. cbn [rights_head]. mod16.
Qed.

(** ** Files in the order of their positions *)

Fixpoint before (pos : Z) (rs : list right) : list right :=
  match rs with [] => [] | r :: l => if position r <? pos then r :: before pos l else [] end.
Fixpoint after (pos : Z) (rs : list right) : list right :=
  match rs with [] => [] | r :: l => if position r <? pos then after pos l else r :: l end.

Fixpoint laid (lo : Z) (rs : list right) (hi : Z) : Prop :=
  match rs with [] => lo <= hi | r :: l => lo <= position r /\ position r < r_end r /\ laid (r_end r) l hi end.

Lemma laid_weaken lo lo' rs hi : laid lo rs hi -> lo' <= lo -> laid lo' rs hi.
Proof. destruct rs; cbn; intros; [lia|]. split; [lia|tauto]. Qed.

Lemma laid_le lo rs hi : laid lo rs hi -> lo <= hi.
Proof. revert lo. induction rs as [|r l IH]; cbn; intros lo; [done|]. intros (? & ? & ?%IH). lia. Qed.

Lemma laid_in lo rs hi r : laid lo rs hi -> r ∈ rs -> lo <= position r < hi.
Proof.
  revert lo. induction rs as [|a l IH]; cbn; intros lo; [by intros _ ?%not_elem_of_nil|].
  intros (? & ? & L) [->|Hr]%elem_of_cons; [apply laid_le in L; lia|]. specialize (IH _ L Hr). lia.
Qed.

Lemma laid_before lo rs hi pos : laid lo rs hi -> pos <= lo -> before pos rs = [] /\ after pos rs = rs.
Proof. destruct rs as [|r l]; cbn; [done|]. intros (? & ? & ?) ?. destruct (Z.ltb_spec (position r) pos); [lia|done]. Qed.

Lemma laid_after_all lo rs hi : laid lo rs hi -> before hi rs = rs /\ after hi rs = [].
Proof.
  revert lo. induction rs as [|r l IH]; cbn; intros lo; [done|]. intros (? & ? & L). pose proof (laid_le _ _ _ L).
  destruct (Z.ltb_spec (position r) hi); [|lia]. destruct (IH _ L) as [-> ->]. done.
Qed.

Lemma laid_after lo rs hi pos : laid lo rs hi -> pos <= hi -> laid pos (after pos rs) hi.
Proof.
  revert lo. induction rs as [|r l IH]; cbn; intros lo; [done|]. intros (? & ? & L) Hp.
  destruct (Z.ltb_spec (position r) pos); [by apply (IH (r_end r))|]. cbn. split; [lia|done].
Qed.

Lemma laid_snoc lo rs hi r : laid lo rs hi -> hi <= position r < r_end r -> laid lo (rs ++ [r]) (r_end r).
Proof. revert lo. induction rs as [|a l IH]; cbn; intros lo; [lia|]. intros (? & ? & ?) ?. split; [lia|]. split; [lia|]. by apply IH. Qed.

Fixpoint find_right (x : Z) (rs : list right) : option (nat * nat) :=
  match rs with [] => None | r :: l => if position r =? x then Some (r_file r, Z.to_nat (r_end r - position r)) else find_right x l end.

Lemma find_right_none x rs : (forall r, r ∈ rs -> position r <> x) -> find_right x rs = None.
Proof.
  induction rs as [|a l IH]; cbn; intros N; [done|]. rewrite (proj2 (Z.eqb_neq _ _)) by (apply N, list_elem_of_here).
  apply IH. intros r Hr. by apply N, list_elem_of_further.
Qed.

Lemma find_right_after x pos rs : pos <= x -> find_right x (after pos rs) = find_right x rs.
Proof.
  induction rs as [|a l IH]; cbn; intros N; [done|]. destruct (Z.ltb_spec (position a) pos); [|done].
  rewrite IH by done. by rewrite (proj2 (Z.eqb_neq _ _)) by lia.
Qed.

Lemma find_right_app x rs r : find_right x (rs ++ [r]) = match find_right x rs with Some v => Some v | None => find_right x [r] end.
Proof. induction rs as [|a l IH]; cbn; [done|]. by destruct (position a =? x). Qed.

(** The bytes from a position on, with their marks. *)
Fixpoint marks (lo : Z) (rs : list right) (bs : list Z) : list item :=
  match bs with [] => [] | b :: bs => (b, find_right lo rs) :: marks (lo + 1) rs bs end.

Lemma marks_length lo rs bs : length (marks lo rs bs) = length bs.
Proof. revert lo. induction bs as [|b bs IH]; cbn; intros lo; [done|by rewrite IH]. Qed.

Lemma marks_zlength lo rs bs : zlength (marks lo rs bs) = zlength bs.
Proof. unfold zlength. by rewrite marks_length. Qed.

Lemma marks_fst lo rs bs : map fst (marks lo rs bs) = bs.
Proof. revert lo. induction bs as [|b bs IH]; cbn; intros lo; [done|by rewrite IH]. Qed.

Lemma marks_app lo rs a b : marks lo rs (a ++ b) = marks lo rs a ++ marks (lo + zlength a) rs b.
Proof.
  revert lo. induction a as [|x a IH]; intros lo; cbn [app marks]; [by rewrite Z.add_0_r|]. rewrite IH. cbn. do 3 f_equal. unfold zlength. cbn [length]. lia.
Qed.

Lemma marks_ext lo rs rs' bs : (forall x, lo <= x < lo + zlength bs -> find_right x rs = find_right x rs') -> marks lo rs bs = marks lo rs' bs.
Proof.
  revert lo. induction bs as [|b bs IH]; intros lo E; cbn; [done|]. unfold zlength in E. cbn [length] in E. rewrite E by lia. f_equal.
  apply IH. intros x Hx. apply E. unfold zlength in Hx. lia.
Qed.

Lemma marks_plain lo rs bs : (forall r, r ∈ rs -> position r < lo \/ lo + zlength bs <= position r) -> marks lo rs bs = map plain bs.
Proof.
  intros N. rewrite (marks_ext lo rs []); [|intros x Hx; apply find_right_none; intros r Hr; specialize (N r Hr); lia].
  clear N. revert lo. induction bs as [|b bs IH]; cbn; intros lo; [done|]. by rewrite IH.
Qed.

Lemma marks_take lo rs bs n : take n (marks lo rs bs) = marks lo rs (take n bs).
Proof. revert lo n. induction bs as [|b bs IH]; intros lo [|n]; cbn; try done. by rewrite IH. Qed.

Lemma marks_drop lo rs bs n : (n <= length bs)%nat -> drop n (marks lo rs bs) = marks (lo + Z.of_nat n) rs (drop n bs).
Proof.
  revert lo n. induction bs as [|b bs IH]; intros lo [|n]; cbn; intros Hn; try done; try lia; [by rewrite Z.add_0_r|]. rewrite IH by lia. f_equal. lia.
Qed.

Lemma files_of_marks lo rs hi bs : laid lo rs hi -> files_of (marks lo rs bs) = map r_file (before (lo + zlength bs) rs).
Proof.
  unfold files_of. revert lo rs hi. induction bs as [|b bs IH]; intros lo rs hi L.
  - change (zlength (@nil Z)) with 0. by rewrite Z.add_0_r, (proj1 (laid_before lo rs hi lo L ltac:(lia))).
  - assert (E : lo + zlength (b :: bs) = lo + 1 + zlength bs) by (unfold zlength; cbn [length]; lia). rewrite E.
    pose proof (Zle_0_nat (length bs)) as Hb. destruct rs as [|r l]; [by apply (IH (lo + 1) [] (lo + 1)); cbn; lia|].
    cbn [marks find_right]. destruct L as (L1 & L2 & L3). destruct (Z.eqb_spec (position r) lo) as [Hp|Hp].
    + rewrite (marks_ext (lo + 1) (r :: l) l) by (intros x Hx; cbn [find_right]; by rewrite (proj2 (Z.eqb_neq _ _)) by lia).
      assert (Lb : (position r <? lo + 1 + zlength bs) = true) by (apply Z.ltb_lt; unfold zlength; lia). cbn [before]. rewrite Lb.
      cbn [omap list_omap map fst snd]. f_equal. apply (IH (lo + 1) l hi). eapply laid_weaken; [done|lia].
    + rewrite (find_right_none lo l); [|intros r' Hr'; pose proof (laid_in _ _ _ _ L3 Hr'); lia].
      cbn [omap list_omap snd]. apply (IH (lo + 1) (r :: l) hi). cbn. split; [lia|done].
Qed.

Lemma unmarked_nil lo bs : unmarked (marks lo [] bs) = length bs.
Proof. revert lo. induction bs as [|b bs IH]; cbn; intros lo; [done|by rewrite IH]. Qed.

Lemma unmarked_marks lo r l hi bs : laid lo (r :: l) hi ->
  unmarked (marks lo (r :: l) bs) = Nat.min (Z.to_nat (position r - lo)) (length bs).
Proof.
  intros (L1 & L2 & L3). revert lo L1. induction bs as [|b bs IH]; intros lo L1; cbn [marks unmarked length]; [lia|].
  cbn [find_right]. destruct (Z.eqb_spec (position r) lo); [lia|].
  rewrite find_right_none; [|intros r' Hr'; pose proof (laid_in _ _ _ _ L3 Hr'); lia]. rewrite IH by lia. lia.
Qed.

(** ** Releasing files *)

Fixpoint rels {S} (rel : nat -> S -> option S) (fs : list nat) (s : S) : option S :=
  match fs with [] => Some s | f :: fs => s ← rel f s; rels rel fs s end.

Lemma rels_log fs l : rels log fs l = Some (l ++ fs).
Proof. revert l. induction fs as [|f fs IH]; cbn; intros l; [by rewrite app_nil_r|]. by rewrite IH, <- app_assoc. Qed.

Definition same (c c' : chan (Q := Q)) : Prop :=
  receive c' = receive c /\ read_position c' = read_position c /\ write_position c' = write_position c.

Lemma discard_spec pos c : rwf c -> exists c',
  (forall S (rel : nat -> S -> option S) s, socket_discard_rights rel pos c s = (s ← rels rel (map r_file (before pos (queued c))) s; Some (c', s))) /\
  queued c' = after pos (queued c) /\ rwf c' /\ same c c'.
Proof.
  unfold socket_discard_rights. remember (rights_count c) as n eqn:En. revert c En. induction n as [|n IH]; intros c En W.
  - exists c. assert (E : queued c = []) by (apply length_zero_iff_nil; by rewrite queued_length). rewrite E. split; [|done]. intros S rel s. cbn. done.
  - destruct (queued c) as [|r l] eqn:E; [pose proof (queued_length c) as L; rewrite E in L; cbn in L; lia|].
    destruct (pop_right_spec c W ltac:(lia)) as [Eq W']. rewrite E in Eq. cbn [tail] in Eq.
    cbn [discard_loop before after]. rewrite (head_right_spec c W), E. cbn [head]. destruct (position r <? pos).
    + destruct (IH (pop_right c)) as (c' & H1 & H2 & H3 & H4); [cbn; lia|done|]. rewrite Eq in *. exists c'. split; [|done].
      intros S rel s. cbn [map rels]. destruct (rel (r_file r) s) as [s1|]; cbn [mbind option_bind]; [|done]. apply H1.
    + exists c. split; [|done]. intros S rel s. done.
Qed.

(** ** The stream *)

Record cwf (c : chan (Q := Q)) : Prop := {
  cw_ring : rwf c;
  cw_valid : bq_valid (receive c);
  cw_laid : laid (read_position c) (queued c) (write_position c);
  cw_length : write_position c = read_position c + zlength (bq_contents (receive c));
  cw_start : 0 <= read_position c;
}.

Definition items (c : chan (Q := Q)) : list item := marks (read_position c) (queued c) (bq_contents (receive c)).

Lemma items_length c : zlength (items c) = zlength (bq_contents (receive c)).
Proof. apply marks_zlength. Qed.

Lemma files_of_items c : cwf c -> files_of (items c) = map r_file (queued c).
Proof.
  intros [_ _ L E _]. unfold items. rewrite (files_of_marks _ _ _ _ L), <- E. by rewrite (proj1 (laid_after_all _ _ _ L)).
Qed.

Lemma rwf_set q p c : rwf c -> rwf (set_read p (set_receive q c)).
Proof. intros [? ? ? ?]. by split. Qed.

(** The bytes are taken and the files in front of them have left the ring. *)
Lemma cwf_taken c c' n : cwf c -> rwf c' -> (n <= length (bq_contents (receive c)))%nat -> bq_valid (receive c') ->
  bq_contents (receive c') = drop n (bq_contents (receive c)) ->
  read_position c' = read_position c + Z.of_nat n -> write_position c' = write_position c ->
  queued c' = after (read_position c + Z.of_nat n) (queued c) ->
  cwf c' /\ items c' = drop n (items c).
Proof.
  intros [R V L E P] R' Hn V' Hc Hr Hw Hq. assert (Hl : zlength (drop n (bq_contents (receive c))) = zlength (bq_contents (receive c)) - Z.of_nat n) by (unfold zlength; rewrite length_drop; lia).
  pose proof (Zle_0_nat (length (drop n (bq_contents (receive c))))) as H0. change (Z.of_nat (length (drop n (bq_contents (receive c))))) with (zlength (drop n (bq_contents (receive c)))) in H0. split.
  - split; [done|done| | |lia].
    + rewrite Hr, Hw, Hq. eapply laid_after; [done|lia].
    + rewrite Hc, Hl, Hw, Hr. lia.
  - unfold items. rewrite marks_drop by done. rewrite Hc, Hr, Hq. apply marks_ext. intros x Hx. apply find_right_after. lia.
Qed.

Lemma read_spec c count : cwf c -> write_position c < 2 ^ 31 -> 0 <= count < 2 ^ 31 -> exists c',
  (forall S (rel : nat -> S -> option S) s,
     take_data rel false count c s =
     (s ← rels rel (files_of (take (Z.to_nat count) (items c))) s;
      Some (zlength (take (Z.to_nat count) (items c)), map fst (take (Z.to_nat count) (items c)), None, c', s))) /\
  cwf c' /\ items c' = drop (Z.to_nat count) (items c) /\ write_position c' = write_position c /\ bq_size (receive c') = bq_size (receive c).
Proof.
  intros W Hb Hc. pose proof W as [R V L E P]. unfold take_data. cbn [mbind option_bind].
  pose proof (bq_read_spec (receive c) count V ltac:(lia)) as Hr. rewrite (u32_small count) by lia.
  destruct (bq_read (receive c) count) as [[q out] n]. destruct Hr as (En & Eo & Eq & Es & Ev).
  assert (Hn : 0 <= n <= zlength (bq_contents (receive c))) by (unfold zlength in *; lia).
  rewrite (u32_small (read_position c + n)) by lia. set (c1 := set_read (read_position c + n) (set_receive q c)).
  destruct (discard_spec (read_position c1) c1 (rwf_set _ _ _ R)) as (c' & D1 & D2 & D3 & D4 & D5 & D6).
  change (queued c1) with (queued c) in *. change (read_position c1) with (read_position c + n) in *.
  assert (Et : take (Z.to_nat count) (items c) = marks (read_position c) (queued c) (take (Z.to_nat n) (bq_contents (receive c)))).
  { unfold items. rewrite marks_take. f_equal. rewrite En, Z2Nat.inj_min. unfold zlength. rewrite Nat2Z.id, <- take_take. f_equal. by rewrite firstn_all. }
  assert (Hlt : zlength (take (Z.to_nat n) (bq_contents (receive c))) = n) by (unfold zlength in *; rewrite length_take; lia).
  destruct (cwf_taken c c' (Z.to_nat n) W D3) as [W' I'].
  { unfold zlength in *. lia. }
  { by rewrite D4. }
  { by rewrite D4. }
  { rewrite D5. cbn. lia. }
  { by rewrite D6. }
  { by rewrite D2, Z2Nat.id by lia. }
  exists c'. split.
  - intros S rel s. rewrite D1, Et. rewrite (files_of_marks _ _ _ _ L), marks_fst, marks_zlength, Hlt, <- Eo. by destruct (rels rel _ s).
  - split; [done|]. split; [|split; [by rewrite D6|by rewrite D4]]. rewrite I', En, Z2Nat.inj_min. unfold zlength. rewrite Nat2Z.id.
    destruct (Nat.min_spec (Z.to_nat count) (length (bq_contents (receive c)))) as [[? ->]|[? ->]]; [done|].
    rewrite !drop_ge by (unfold items; rewrite marks_length; lia). done.
Qed.

(** What comes first in the stream, and how far a receive goes. *)
Lemma limit_spec c c0 count : cwf c -> bq_contents (receive c) <> [] -> write_position c < 2 ^ 31 -> 0 < count < 2 ^ 31 ->
  rwf c0 -> queued c0 = queued c ->
  0 < limit c0 (read_position c) count < 2 ^ 31 /\
  Z.min (limit c0 (read_position c) count) (zlength (bq_contents (receive c))) = Z.of_nat (reach (Z.to_nat count) (items c)) /\
  (0 < reach (Z.to_nat count) (items c))%nat /\
  head_file (items c) = match queued c with r :: _ => if position r =? read_position c then Some (r_file r) else None | [] => None end /\
  before (read_position c + Z.of_nat (reach (Z.to_nat count) (items c))) (queued c) =
    match queued c with r :: _ => if position r =? read_position c then [r] else [] | [] => [] end.
Proof.
  intros [R V L E P] Hne Hb Hc R0 Hq. unfold limit. rewrite (head_right_spec c0 R0), Hq. unfold items, reach, head_file.
  destruct (bq_contents (receive c)) as [|b bs]; [done|]. cbn [marks]. unfold zlength in *. cbn [length] in *. destruct (queued c) as [|r l].
  - cbn [head find_right unmarked before]. rewrite unmarked_nil. split; [lia|]. split; [lia|]. split; [lia|done].
  - pose proof L as (L1 & L2 & L3). pose proof (laid_le _ _ _ L3). cbn [head]. rewrite (u32_small (read_position c + count)) by lia.
    cbn [find_right]. destruct (Z.eqb_spec (position r) (read_position c)) as [Hp|Hp].
    + rewrite Hp, Z.gtb_ltb, Z.ltb_irrefl. cbn [andb].
      set (k := if r_end r <? read_position c + count then s32 (r_end r - read_position c) else count).
      assert (Hk : k = Z.min count (r_end r - read_position c)).
      { unfold k. destruct (Z.ltb_spec (r_end r) (read_position c + count)); [rewrite s32_small by lia|]; lia. }
      rewrite Hk. split; [lia|]. split; [lia|]. split; [lia|]. split; [done|]. cbn [before]. rewrite (proj2 (Z.ltb_lt _ _)) by lia. f_equal.
      apply (laid_before _ _ _ _ L3). lia.
    + rewrite find_right_none; [|intros r' Hr'; pose proof (laid_in _ _ _ _ L3 Hr'); lia].
      cbn [unmarked]. rewrite (unmarked_marks _ _ _ (write_position c)) by (split; [lia|done]).
      rewrite Z.gtb_ltb, (proj2 (Z.ltb_lt (read_position c) _)) by lia. cbn [andb].
      set (k := if position r <? read_position c + count then s32 (position r - read_position c) else count).
      assert (Hk : k = Z.min count (position r - read_position c)).
      { unfold k. destruct (Z.ltb_spec (position r) (read_position c + count)); [rewrite s32_small by lia|]; lia. }
      rewrite Hk. split; [lia|]. split; [lia|]. split; [lia|]. split; [done|].
      apply (laid_before (position r) (r :: l) (write_position c)); [split; [lia|done]|lia].
Qed.

Lemma take_right_spec start e c : rwf c -> before start (queued c) = [] -> start < e -> exists c',
  (forall S (rel : nat -> S -> option S) s, socket_take_right rel start e c s =
     Some (match queued c with r :: _ => if position r =? start then Some (r_file r) else None | [] => None end, c', s)) /\
  queued c' = match queued c with r :: l => if position r =? start then l else queued c | [] => [] end /\ rwf c' /\ same c c'.
Proof.
  intros R Hb He. destruct (discard_spec start c R) as (c1 & D1 & D2 & D3 & D4 & D5 & D6).
  assert (Hq : queued c1 = queued c) by (rewrite D2; destruct (queued c) as [|r l]; cbn in *; [done|]; by destruct (position r <? start)).
  unfold socket_take_right. rewrite Hb in D1. cbn [map rels mbind option_bind] in D1.
  assert (G : (e >? start) = true) by (rewrite Z.gtb_ltb; by apply Z.ltb_lt).
  assert (Hh : head_right c1 = head (queued c)) by (by rewrite head_right_spec, Hq).
  destruct (queued c) as [|r l] eqn:E; cbn [head] in Hh.
  - exists c1. split; [|split; [by rewrite Hq|done]]. intros S rel s. rewrite D1. cbn [mbind option_bind]. by rewrite Hh.
  - destruct (position r =? start) eqn:Ep.
    + assert (Hn : (rights_count c1 > 0)%nat) by (rewrite <- queued_length, Hq; cbn; lia).
      destruct (pop_right_spec c1 D3 Hn) as [P1 P2]. exists (pop_right c1). split.
      * intros S rel s. rewrite D1. cbn [mbind option_bind]. by rewrite Hh, Ep, G.
      * split; [by rewrite P1, Hq|]. split; [done|]. done.
    + exists c1. split; [|split; [by rewrite Hq|done]]. intros S rel s. rewrite D1. cbn [mbind option_bind]. by rewrite Hh, Ep.
Qed.

Lemma recv_spec c count : cwf c -> bq_contents (receive c) <> [] -> write_position c < 2 ^ 31 -> 0 < count < 2 ^ 31 ->
  let l := take (reach (Z.to_nat count) (items c)) (items c) in exists c',
  (forall S (rel : nat -> S -> option S) s, take_data rel true count c s = Some (zlength l, map fst l, head_file (items c), c', s)) /\
  cwf c' /\ items c' = drop (reach (Z.to_nat count) (items c)) (items c) /\ write_position c' = write_position c /\ bq_size (receive c') = bq_size (receive c).
Proof.
  intros W Hne Hb Hc. pose proof W as [R V L E P]. unfold take_data. cbv zeta.
  destruct (laid_before _ _ _ _ L (Z.le_refl _)) as [B1 B2].
  destruct (discard_spec (read_position c) c R) as (c0 & D1 & D2 & D3 & D4 & D5 & D6). rewrite B1 in D1. rewrite B2 in D2. cbn [map rels mbind option_bind] in D1.
  destruct (limit_spec c c0 count W Hne Hb Hc D3 D2) as (Hk & Hm & Hr0 & Hf & Hbf).
  set (n := reach (Z.to_nat count) (items c)) in *. set (k := limit c0 (read_position c) count) in *.
  pose proof (bq_read_spec (receive c0) k ltac:(by rewrite D4) ltac:(lia)) as Hr. rewrite <- (u32_small k) in Hr by lia.
  destruct (bq_read (receive c0) (u32 k)) as [[q out] m] eqn:Eb. rewrite D4 in Hr. rewrite (u32_small k) in Hr by lia. destruct Hr as (En & Eo & Eq & Es & Ev).
  assert (Emn : m = Z.of_nat n) by lia. assert (Hn : Z.of_nat n <= zlength (bq_contents (receive c))) by lia.
  set (c1 := set_read (u32 (read_position c + m)) (set_receive q c0)).
  assert (Hr1 : read_position c1 = read_position c + Z.of_nat n) by (unfold c1; cbn; rewrite Emn; apply u32_small; lia).
  assert (R1 : rwf c1) by by apply rwf_set. assert (Hq1 : queued c1 = queued c) by exact D2.
  destruct (take_right_spec (read_position c) (read_position c1) c1 R1 ltac:(by rewrite Hq1) ltac:(lia)) as (c2 & T1 & T2 & T3 & T4 & T5 & T6).
  rewrite Hq1 in T1, T2. rewrite <- Hf in T1.
  assert (Fin : exists c3, (forall S (rel : nat -> S -> option S) s,
     match head_file (items c) with None => socket_discard_rights rel (read_position c2) c2 s | Some _ => Some (c2, s) end = Some (c3, s)) /\
     queued c3 = after (read_position c + Z.of_nat n) (queued c) /\ rwf c3 /\ same c2 c3).
  { pose proof L as L'. rewrite T5, Hr1. destruct (queued c) as [|r l] eqn:Eqc.
    - rewrite Hf. destruct (discard_spec (read_position c + Z.of_nat n) c2 T3) as (c3 & F1 & F2 & F3 & F4). rewrite T2 in F1, F2. cbn in F1, F2. exists c3. done.
    - destruct (Z.eqb_spec (position r) (read_position c)) as [Hp|Hp].
      + rewrite Hf. exists c2. split; [done|]. split; [|done]. rewrite T2. cbn [after]. destruct L' as (? & ? & L3). rewrite (proj2 (Z.ltb_lt _ _)) by lia.
        cbn [before] in Hbf. rewrite (proj2 (Z.ltb_lt _ _)) in Hbf by lia. injection Hbf as Hbf. clear -Hbf. destruct l as [|r' l]; [done|]. cbn in *. by destruct (_ <? _).
      + rewrite Hf. destruct (discard_spec (read_position c + Z.of_nat n) c2 T3) as (c3 & F1 & F2 & F3 & F4). rewrite T2 in F1, F2. rewrite Hbf in F1. exists c3. done. }
  destruct Fin as (c3 & F1 & F2 & F3 & F4 & F5 & F6).
  assert (Et : take n (items c) = marks (read_position c) (queued c) (take n (bq_contents (receive c)))) by apply marks_take.
  exists c3. split; [|].
  - intros S rel s. rewrite D1. cbn [mbind option_bind]. fold k. rewrite Eb. fold c1. rewrite T1. cbn [mbind option_bind]. rewrite F1. cbn [mbind option_bind].
    rewrite Et, marks_zlength, marks_fst, Emn, Eo, Emn, Nat2Z.id. do 6 f_equal. unfold zlength in *. rewrite length_take. lia.
  - destruct (cwf_taken c c3 n W F3) as [W' I'].
    { unfold zlength in *. lia. }
    { rewrite F4, T4. exact Ev. }
    { rewrite F4, T4. cbn. by rewrite Eq, Emn, Nat2Z.id. }
    { by rewrite F5, T5. }
    { by rewrite F6, T6. }
    { done. }
    split; [done|]. split; [done|]. split; [by rewrite F6, T6|]. by rewrite F4, T4.
Qed.

Lemma cwf_put c q n rs : cwf c -> bq_valid q -> zlength (bq_contents q) = zlength (bq_contents (receive c)) + n -> 0 <= n ->
  forall c', rwf c' -> receive c' = q -> read_position c' = read_position c -> write_position c' = write_position c + n ->
  queued c' = queued c ++ rs -> laid (write_position c) rs (write_position c + n) -> (length rs <= 1)%nat -> cwf c'.
Proof.
  intros [R V L E P] Vq Hl Hn c' R' <- Hr Hw Hq Hrs H1. split; [done|done| |lia|lia]. rewrite Hr, Hw, Hq.
  destruct rs as [|r [|]]; [|destruct Hrs as (? & ? & L1); cbn in L1|cbn in *; lia].
  - rewrite app_nil_r. clear -L Hn. revert L. generalize (read_position c). induction (queued c) as [|r l IH]; cbn; intros lo; [lia|]. intros (? & ? & ?). split; [lia|]. split; [lia|]. by apply IH.
  - assert (X : forall lo l, laid lo l (write_position c) -> laid lo (l ++ [r]) (write_position c + n)).
    { clear -H0 H1 H2 L1. intros lo l. revert lo. induction l as [|a l IH]; cbn; intros lo; [lia|]. intros (? & ? & ?). split; [lia|]. split; [lia|]. by apply IH. }
    by apply X.
Qed.

Lemma put_spec buf c : cwf c -> write_position c + zlength buf < 2 ^ 31 ->
  let n := Z.to_nat (Z.min (zlength buf) (bq_size (receive c) - zlength (items c))) in exists c',
  put_data buf c = (Z.of_nat n, c') /\ cwf c' /\ items c' = items c ++ map plain (take n buf) /\
  write_position c' <= write_position c + zlength buf /\ bq_size (receive c') = bq_size (receive c).
Proof.
  intros W Hb. rewrite items_length. set (n := Z.to_nat _). pose proof W as [R V L E P]. unfold put_data. pose proof (bq_bounds (receive c) V) as [? Hsz].
  pose proof (bq_write_spec (receive c) buf (zlength buf) V ltac:(unfold zlength; lia)) as Hw. destruct (bq_write (receive c) buf (zlength buf)) as [q m].
  destruct Hw as (Em & Ec & Es & Ev). assert (Hm : m = Z.of_nat n) by (unfold zlength in *; lia). assert (Hn : 0 <= m <= zlength buf) by (unfold zlength in *; lia).
  assert (Hlt : zlength (take n buf) = Z.of_nat n) by (unfold zlength in *; rewrite length_take; lia).
  set (c' := set_write (u32 (write_position c + m)) (set_receive q c)).
  assert (Hwp : write_position c' = write_position c + m) by (apply u32_small; unfold zlength in *; lia).
  exists c'. split; [by rewrite Hm|]. split; [|split; [|split; [lia|exact Es]]].
  - eapply (cwf_put c q m [] W Ev); try done; [rewrite Ec; unfold zlength in *; rewrite length_app, length_take; lia|lia|by destruct R|cbn; by rewrite app_nil_r|cbn; lia|cbn; lia].
  - unfold items. change (read_position c') with (read_position c). change (queued c') with (queued c). change (receive c') with q.
    rewrite Ec, Hm, Nat2Z.id, marks_app. f_equal. apply marks_plain. intros r Hr. pose proof (laid_in _ _ _ _ L Hr). lia.
Qed.

Lemma put_iovs_spec iov q : bq_valid q -> zlength (bq_contents q) + zlength (concat iov) <= bq_size q -> exists q',
  put_iovs iov q = Some q' /\ bq_valid q' /\ bq_contents q' = bq_contents q ++ concat iov /\ bq_size q' = bq_size q.
Proof.
  revert q. induction iov as [|b iov IH]; intros q V Hl; cbn [put_iovs concat]; [exists q; by rewrite app_nil_r|].
  cbn [concat] in Hl. unfold zlength in *. rewrite length_app in Hl. fold (zlength b) in *.
  destruct (Z.eqb_spec (zlength b) 0) as [Hz|Hz].
  { assert (Eb : b = []) by (apply length_zero_iff_nil; unfold zlength in Hz; lia). subst b. apply IH; [done|]. cbn in Hl. lia. }
  pose proof (bq_write_spec q b (zlength b) V ltac:(unfold zlength; lia)) as Hw. destruct (bq_write q b (zlength b)) as [q1 m].
  destruct Hw as (Em & Ec & Es & Ev). assert (Hm : m = zlength b) by (unfold zlength in *; lia). rewrite Hm, Z.eqb_refl.
  assert (Ec' : bq_contents q1 = bq_contents q ++ b) by (rewrite Ec, Hm; f_equal; unfold zlength; by rewrite Nat2Z.id, firstn_all).
  destruct (IH q1 Ev) as (q' & H1 & H2 & H3 & H4); [rewrite Ec', Es, length_app; unfold zlength in *; lia|].
  exists q'. split; [done|]. split; [done|]. split; [by rewrite H3, Ec', app_assoc|by rewrite H4].
Qed.

Lemma message_marks f buf pos : buf <> [] ->
  marks pos [mkright f pos (pos + zlength buf)] buf = message f buf.
Proof.
  destruct buf as [|b buf]; [done|]. intros _. cbn [marks find_right message position r_file r_end]. rewrite Z.eqb_refl. f_equal.
  - do 3 f_equal. unfold zlength. lia.
  - apply marks_plain. intros r ->%list_elem_of_singleton. cbn. lia.
Qed.

Lemma message_spec f iov c : cwf c -> write_position c + zlength (concat iov) < 2 ^ 31 -> concat iov <> [] -> exists c',
  put_message f iov (zlength (concat iov)) c =
    Some ((length (files_of (items c)) <? UNIX_RIGHTS_MAX)%nat && (zlength (items c) + zlength (concat iov) <=? bq_size (receive c)), c') /\
  cwf c' /\ bq_size (receive c') = bq_size (receive c) /\ write_position c' <= write_position c + zlength (concat iov) /\
  items c' = if (length (files_of (items c)) <? UNIX_RIGHTS_MAX)%nat && (zlength (items c) + zlength (concat iov) <=? bq_size (receive c))
             then items c ++ message f (concat iov) else items c.
Proof.
  intros W Hb Hne. pose proof W as [R V L E P]. rewrite (files_of_items c W), length_map, queued_length, items_length. unfold put_message.
  rewrite (bq_space_spec _ V). set (len := zlength (concat iov)) in *.
  assert (Hlen : 0 < len) by (unfold len, zlength; destruct (concat iov); [done|cbn [length]; lia]).
  assert (Hrc : negb (rights_count c =? UNIX_RIGHTS_MAX)%nat = (rights_count c <? UNIX_RIGHTS_MAX)%nat).
  { destruct R. destruct (Nat.eqb_spec (rights_count c) UNIX_RIGHTS_MAX), (Nat.ltb_spec (rights_count c) UNIX_RIGHTS_MAX); try done; lia. }
  assert (Hsp : (bq_size (receive c) - zlength (bq_contents (receive c)) >=? len) = (zlength (bq_contents (receive c)) + len <=? bq_size (receive c))).
  { rewrite Z.geb_leb. destruct (Z.leb_spec len (bq_size (receive c) - zlength (bq_contents (receive c)))), (Z.leb_spec (zlength (bq_contents (receive c)) + len) (bq_size (receive c))); try done; lia. }
  rewrite Hrc, Hsp. destruct (_ && _) eqn:G; [|exists c; split; [done|]; split; [done|]; split; [done|]; split; [lia|done]].
  apply andb_true_iff in G as [G1%Nat.ltb_lt G2%Z.leb_le].
  destruct (put_iovs_spec iov (receive c) V G2) as (q & -> & Vq & Cq & Sq). cbn [mbind option_bind].
  set (r := mkright f (write_position c) (u32 (write_position c + len))).
  assert (Hu : u32 (write_position c + len) = write_position c + len) by (apply u32_small; pose proof (laid_le _ _ _ L); lia).
  destruct (queue_right_spec r (set_receive q c)) as (_ & Q1 & Q2 & Q3 & Q4 & Q5); [by destruct R|done|].
  set (c1 := (socket_queue_right r (set_receive q c)).2) in *. change (queued (set_receive q c)) with (queued c) in Q1.
  set (c' := set_write (u32 (write_position c1 + len)) c1).
  assert (Hw : write_position c' = write_position c + len) by (unfold c'; cbn; rewrite Q5; exact Hu).
  exists c'. split; [done|]. split; [|split; [unfold c'; cbn; by rewrite Q3|split; [lia|]]].
  - eapply (cwf_put c q len [r] W Vq); [rewrite Cq; unfold len, zlength; by rewrite length_app, Nat2Z.inj_add|lia|by destruct Q2|exact Q3|exact Q4|exact Hw|exact Q1| |done].
    cbn. rewrite Hu. lia.
  - unfold items. change (read_position c') with (read_position c1). change (queued c') with (queued c1). change (receive c') with (receive c1).
    rewrite Q4, Q1, Q3. cbn [set_receive receive read_position]. rewrite Cq, marks_app. f_equal.
    + apply marks_ext. intros x Hx. rewrite find_right_app. destruct (find_right x (queued c)); [done|]. cbn [find_right]. unfold r. cbn [position].
      by rewrite (proj2 (Z.eqb_neq _ _)) by lia.
    + rewrite <- E, (marks_ext _ _ [r]); [unfold r; rewrite Hu; by apply message_marks|].
      intros x Hx. rewrite find_right_app, find_right_none; [done|]. intros r' Hr'. pose proof (laid_in _ _ _ _ L Hr'). lia.
Qed.

Lemma shut_spec c : cwf c -> exists c',
  (forall S (rel : nat -> S -> option S) s, shut_read rel c s = (s ← rels rel (files_of (items c)) s; Some (c', s))) /\
  cwf c' /\ items c' = [] /\ write_position c' = write_position c /\ bq_size (receive c') = bq_size (receive c).
Proof.
  intros W. pose proof W as [R V L E P]. unfold shut_read. destruct (bq_clear_spec _ V) as (C1 & C2 & C3).
  set (c1 := set_read (write_position c) (set_receive (bq_clear (receive c)) c)).
  destruct (discard_spec (write_position c) c1) as (c' & D1 & D2 & D3 & D4 & D5 & D6); [by apply rwf_set|].
  change (queued c1) with (queued c) in *. destruct (laid_after_all _ _ _ L) as [B1 B2]. rewrite B1 in D1. rewrite B2 in D2.
  assert (Hc : bq_contents (receive c') = []) by (by rewrite D4).
  exists c'. split; [intros S rel s; rewrite (files_of_items c W); apply D1|]. split; [|split; [|split; [done|by rewrite D4]]].
  - split; [done|by rewrite D4|rewrite D2, D5, D6; cbn; lia|rewrite Hc, D5, D6; unfold zlength; cbn; lia|rewrite D5; cbn; pose proof (laid_le _ _ _ L); lia].
  - unfold items. by rewrite Hc.
Qed.

(** ** The stream is what it promises *)

Definition op_bytes (o : op) : Z := match o with OWrite buf => zlength buf | OSend _ iov => zlength (concat iov) | _ => 0 end.
Definition op_ok (o : op) : Prop := match o with ORead n => 0 <= n < 2 ^ 31 | ORecv n => 0 < n < 2 ^ 31 | _ => True end.

Lemma empty_spec c : cwf c -> bq_empty (receive c) = bool_decide (items c = []).
Proof.
  intros [_ V _ _ _]. rewrite (bq_empty_spec _ V). apply bool_decide_ext. unfold items. by destruct (bq_contents (receive c)).
Qed.

Lemma step_refines o c lost : cwf c -> write_position c + op_bytes o < 2 ^ 31 -> op_ok o ->
  let '(r, (l, lost')) := step (bq_size (receive c)) o (items c, lost) in
  exists c', chan_step o (c, lost) = Some (r, (c', lost')) /\ cwf c' /\ items c' = l /\
    write_position c' <= write_position c + op_bytes o /\ bq_size (receive c') = bq_size (receive c).
Proof.
  intros W Hb Hok. destruct o as [buf|f iov|n|n|]; cbn [step chan_step op_bytes op_ok] in *.
  - destruct (put_spec buf c W Hb) as (c' & -> & ? & ? & ? & ?). by exists c'.
  - destruct (bool_decide_reflect (concat iov = [])) as [Hz|Hz].
    { exists c. rewrite Hz in *. cbn. split; [done|]. split; [done|]. split; [done|]. unfold zlength. cbn. split; [lia|done]. }
    rewrite (proj2 (Z.eqb_neq (zlength (concat iov)) 0)) by (intros E; apply Hz, length_zero_iff_nil; unfold zlength in E; lia).
    destruct (message_spec f iov c W Hb Hz) as (c' & -> & ? & ? & ? & Hi). destruct (_ && _); cbn [mbind option_bind fst snd]; by exists c'.
  - rewrite (empty_spec c W). destruct (bool_decide_reflect (items c = [])) as [Hz|Hz]; [by exists c; split; [done|]; split; [done|]; split; [done|]; split; [lia|]|].
    destruct (read_spec c n W ltac:(lia) Hok) as (c' & T & ? & ? & Hw & ?). rewrite T, rels_log. cbn [mbind option_bind]. exists c'. rewrite Hw. split; [done|]. split; [done|]. split; [done|]. split; [lia|done].
  - rewrite (empty_spec c W). destruct (bool_decide_reflect (items c = [])) as [Hz|Hz]; [by exists c; split; [done|]; split; [done|]; split; [done|]; split; [lia|]|].
    destruct (recv_spec c n W) as (c' & T & ? & ? & Hw & ?); [intros E; apply Hz; unfold items; by rewrite E|lia|done|].
    rewrite T. cbn [mbind option_bind]. exists c'. rewrite Hw. split; [done|]. split; [done|]. split; [done|]. split; [lia|done].
  - destruct (shut_spec c W) as (c' & T & ? & ? & Hw & ?). rewrite T, rels_log. cbn [mbind option_bind]. exists c'. rewrite Hw. split; [done|]. split; [done|]. split; [done|]. split; [lia|done].
Qed.

Lemma run_refines ops c lost : cwf c -> write_position c + foldr (fun o n => op_bytes o + n) 0 ops < 2 ^ 31 -> Forall op_ok ops ->
  exists c', chan_run ops (c, lost) = Some ((run (bq_size (receive c)) ops (items c, lost)).1, (c', (run (bq_size (receive c)) ops (items c, lost)).2.2)) /\
    items c' = (run (bq_size (receive c)) ops (items c, lost)).2.1.
Proof.
  revert c lost. induction ops as [|o ops IH]; intros c lost W Hb Hok; [by exists c|]. apply Forall_cons in Hok as [Ho Hok].
  assert (Hpos : 0 <= foldr (fun o n => op_bytes o + n) 0 ops).
  { clear. induction ops as [|o ops IH]; cbn [foldr]; [lia|]. assert (0 <= op_bytes o) by (destruct o; cbn; unfold zlength; lia). lia. }
  cbn [foldr] in Hb. cbn [chan_run run]. pose proof (step_refines o c lost W ltac:(lia) Ho) as Hs.
  destruct (step (bq_size (receive c)) o (items c, lost)) as [r [l lost']]. destruct Hs as (c1 & E1 & W1 & I1 & Hw1 & Hs1).
  destruct (IH c1 lost' W1 ltac:(lia) Hok) as (c' & E' & I'). rewrite Hs1, I1 in E', I'.
  destruct (run (bq_size (receive c)) ops (l, lost')) as [rs st]. cbn [fst snd] in *. exists c'. rewrite E1. cbn [mbind option_bind fst snd]. rewrite E'. done.
Qed.

Lemma cwf_new page : zlength page = PAGE_SIZE -> cwf (new_chan page) /\ items (new_chan page) = [] /\ bq_size (receive (new_chan page)) = PAGE_SIZE.
Proof.
  intros Hp. destruct (bq_new_spec page Hp) as (C & Sz & V). split; [|split; [unfold items; cbn [receive new_chan]; by rewrite C|done]].
  split; [|done|cbn; lia|cbn [receive new_chan read_position write_position]; by rewrite C|cbn; lia].
  split; [done|cbn; unfold UNIX_RIGHTS_MAX; lia|cbn; lia|done].
Qed.


(** ** Behind 4 GB *)

Record idle (p : Z) (c : chan (Q := Q)) : Prop := {
  id_ring : rwf c;
  id_none : rights_count c = 0%nat;
  id_valid : bq_valid (receive c);
  id_empty : bq_contents (receive c) = [];
  id_size : bq_size (receive c) = PAGE_SIZE;
  id_read : read_position c = p;
  id_write : write_position c = p;
}.

Lemma turn_spec p c : idle p c -> exists c', chan_run [OWrite [0]; ORead 1] (c, []) = Some ([RNum 1; RGot [0] None], (c', [])) /\ idle (u32 (p + 1)) c'.
Proof.
  intros [R N V C Sz Hr Hw]. cbn [chan_run chan_step]. unfold put_data.
  pose proof (bq_write_spec (receive c) [0] 1 V ltac:(done)) as H1. change (zlength [0]) with 1. destruct (bq_write (receive c) [0] 1) as [q n].
  rewrite C, Sz in H1. destruct H1 as (-> & Cq & Sq & Vq). change (Z.min 1 (PAGE_SIZE - zlength (@nil Z))) with 1 in *. change (take (Z.to_nat 1) [0]) with [0] in Cq. cbn [app] in Cq.
  cbn [mbind option_bind fst snd chan_step receive set_write set_receive].
  rewrite (bq_empty_spec _ Vq), bool_decide_eq_false_2 by (by rewrite Cq). unfold take_data, socket_discard_rights. cbn [receive set_write set_receive mbind option_bind]. change (u32 1) with 1.
  pose proof (bq_read_spec q 1 Vq ltac:(lia)) as H2. destruct (bq_read q 1) as [[q' out] m]. rewrite Cq in H2. destruct H2 as (-> & -> & Cq' & Sq' & Vq').
  change (Z.min 1 (zlength [0])) with 1 in *. cbn [mbind option_bind rights_count set_read set_receive set_write read_position]. rewrite N. cbn [discard_loop mbind option_bind fst snd].
  eexists. split; [reflexivity|]. split; cbn; try done; [by destruct R|by rewrite Sq', Sq, ?Sz|by rewrite Hr|by rewrite Hw].
Qed.

Lemma run_app ops ops' st r st' : chan_run ops st = Some (r, st') -> chan_run (ops ++ ops') st = (rs ← chan_run ops' st'; Some (r ++ rs.1, rs.2)).
Proof.
  revert st r st'. induction ops as [|o ops IH]; intros st r st'; cbn [chan_run app].
  - intros [= <- <-]. destruct (chan_run ops' st) as [[? ?]|]; done.
  - destruct (chan_step o st) as [[r1 st1]|]; cbn [mbind option_bind fst snd]; [|done].
    destruct (chan_run ops st1) as [[rs st2]|] eqn:E; cbn [mbind option_bind fst snd]; [|done]. intros [= <- <-]. rewrite (IH _ _ _ E).
    destruct (chan_run ops' st2) as [[? ?]|]; done.
Qed.

Lemma reach_position k c : idle 0 c -> exists ops r c', chan_run ops (c, []) = Some (r, (c', [])) /\ idle (u32 (Z.of_nat k)) c'.
Proof.
  intros I. induction k as [|k (ops & r & c1 & E & I1)]; [by exists [], [], c|].
  destruct (turn_spec _ _ I1) as (c2 & E2 & I2). exists (ops ++ [OWrite [0]; ORead 1]). eexists _, c2. split; [rewrite (run_app _ _ _ _ _ E), E2; reflexivity|].
  replace (u32 (Z.of_nat (S k))) with (u32 (u32 (Z.of_nat k) + 1)); [done|]. unfold u32. rewrite Zplus_mod_idemp_l. f_equal. lia.
Qed.

Lemma reach_pos p c : 0 <= p < 2 ^ 32 -> idle 0 c -> exists ops r c', chan_run ops (c, []) = Some (r, (c', [])) /\ idle p c'.
Proof. intros Hp I. destruct (reach_position (Z.to_nat p) c I) as (ops & r & c' & E & I'). rewrite Z2Nat.id, u32_small in I' by lia. by exists ops, r, c'. Qed.

Lemma discard_kept {S} (rel : nat -> S -> option S) pos (c : chan (Q := Q)) r s : head_right c = Some r -> pos <= position r -> socket_discard_rights rel pos c s = Some (c, s).
Proof. intros Hr Hp. unfold socket_discard_rights. destruct (rights_count c); cbn [discard_loop]; [done|]. rewrite Hr. destruct (Z.ltb_spec (position r) pos); [lia|done]. Qed.

(** behind 4 GB the positions wrap: there is a run after which a receive of 5
    bytes writes 100 bytes to the user, and the file of the message stays behind. *)
Theorem socket_recv_overruns page f : zlength page = PAGE_SIZE ->
  exists ops r c c', chan_run (ops ++ [OSend f [replicate 100 0]]) (new_chan page, []) = Some (r, (c, [])) /\
    take_data log true 5 c [] = Some (100, replicate 100 0, None, c', []) /\ rights_count c' = 1%nat.
Proof.
  intros Hp. destruct (bq_new_spec page Hp) as (C0 & S0 & V0).
  assert (I0 : idle 0 (new_chan page)) by (split; try done; destruct (cwf_new page Hp) as (W & _); by destruct W).
  destruct (reach_pos (2 ^ 32 - 10) _ ltac:(lia) I0) as (ops & r & c1 & E & [R N V C Sz Hr Hw]).
  set (buf := replicate 100 0). assert (Hl : zlength buf = 100) by done.
  destruct (put_iovs_spec [buf] (receive c1) V) as (q & P1 & Vq & Cq & Sq); [cbn [concat]; rewrite app_nil_r, C, Sz, Hl; done|].
  cbn [concat] in Cq. rewrite C, app_nil_r in Cq. cbn [app] in Cq.
  assert (Hsp : bq_space (receive c1) = PAGE_SIZE) by (rewrite (bq_space_spec _ V), C, Sz; done).
  destruct (queue_right_spec (mkright f (2 ^ 32 - 10) 90) (set_receive q c1)) as (_ & Q1 & Q2 & Q3 & Q4 & Q5); [by destruct R|cbn; rewrite N; unfold UNIX_RIGHTS_MAX; lia|].
  set (c2 := (socket_queue_right (mkright f (2 ^ 32 - 10) 90) (set_receive q c1)).2) in *.
  assert (Q0 : queued c1 = []) by (apply length_zero_iff_nil; by rewrite queued_length).
  change (queued (set_receive q c1)) with (queued c1) in Q1. rewrite Q0 in Q1. cbn [app] in Q1.
  set (c := set_write (u32 (write_position c2 + 100)) c2).
  assert (Hh : head_right c = Some (mkright f (2 ^ 32 - 10) 90)) by (change (head_right c) with (head_right c2); by rewrite (head_right_spec _ Q2), Q1).
  assert (Hc : rights_count c = 1%nat) by (change (rights_count c) with (rights_count c2); by rewrite <- queued_length, Q1).
  assert (Es : chan_run [OSend f [buf]] (c1, []) = Some ([RNum 100], (c, []))).
  { cbn [chan_run chan_step concat]. rewrite app_nil_r, Hl. cbn [Z.eqb]. unfold put_message. rewrite N, Hsp, P1, Hw. reflexivity. }
  assert (Hrc : receive c = q) by exact Q3. assert (Hrp : read_position c = 2 ^ 32 - 10) by (change (read_position c) with (read_position c2); rewrite Q4; exact Hr).
  cut (exists c', take_data log true 5 c [] = Some (100, buf, None, c', []) /\ rights_count c' = 1%nat).
  { intros (c' & T). exists ops, (r ++ [RNum 100]), c, c'. split; [by rewrite (run_app _ _ _ _ _ E), Es|done]. }
  unfold take_data. rewrite Hrp, (discard_kept _ _ _ _ _ Hh) by (cbn; lia). cbn [mbind option_bind]. unfold limit. rewrite Hh. cbn [position r_end].
  pose proof (bq_read_spec q 100 Vq ltac:(lia)) as Hq. rewrite Cq in Hq. rewrite Hrc. destruct (bq_read q 100) as [[q' out] n] eqn:Eb.
  match goal with |- context [bq_read q ?x] => change x with 100 end. rewrite Eb. destruct Hq as (-> & -> & _).
  change (Z.min 100 (zlength buf)) with 100. change (u32 (2 ^ 32 - 10 + 100)) with 90.
  set (c3 := set_read 90 (set_receive q' c)). change (take (Z.to_nat 100) buf) with (replicate 100 0).
  assert (Hh3 : head_right c3 = Some (mkright f (2 ^ 32 - 10) 90)) by exact Hh.
  unfold socket_take_right. rewrite (discard_kept _ _ _ _ _ Hh3) by (cbn; lia). cbn [mbind option_bind]. rewrite Hh3. cbn [position].
  match goal with |- context [if ?b then Some (Some _, _, _) else _] => change b with false end. cbn [mbind option_bind].
  rewrite (discard_kept _ _ _ _ _ Hh3) by (cbn; lia). cbn [mbind option_bind]. exists c3. split; [reflexivity|exact Hc].
Qed.

End chan.

(** ** Examples on the ring buffer *)

Definition ops1 : list op := [OWrite [1; 2]; OSend 5 [[3]; [4; 5]]; OWrite [6]; ORecv 10; ORecv 2; ORecv 10; ORecv 10; OSend 7 [[8; 9]]; ORead 1; OShut].


Lemma socket_recv_overruns_witness :
  exists ops r c c', chan_run (Q := RingBuffer.t) (ops ++ [OSend 5 [replicate 100 0]]) (new_chan (replicate 4096 0), []) = Some (r, (c, [])) /\
    take_data log true 5 c [] = Some (100, replicate 100 0, None, c', []) /\ rights_count c' = 1%nat.
Proof. apply (socket_recv_overruns (replicate 4096 0) 5). reflexivity. Defined.

End SocketChan.
